(* ===== verification/_CoqProject ===== *)
-Q . S2P
Prelude.v
Riscv.v
Memory.v
Spinlock.v
Kalloc.v
Kmalloc.v
Vm.v
VmTree.v
VmUnmap.v
VmCow.v
VmCheck.v
VmProps.v
VmFree.v
VmSpace.v
Proctab.v
Signal.v
Sched.v
SchedProps.v
Pipe.v
PipeProps.v
Ringbuffer.v
Printf.v
Uart.v
UartProps.v
Bio.v
BioProps.v
Fat32.v
FatDisk.v
FatChain.v
FatClus.v
FatFile.v
FatName.v
FatDir.v
FatDemo.v
File.v
FileProps.v
FileDemo.v
Console.v
ConsoleProps.v
ConsoleTty.v
ConsoleDemo.v
Mmap.v
MmapProps.v
Vmfault.v
Proc.v
ProcProps.v
ProcDemo.v
Kernel.v
Exec.v
Syscall.v
SysWp.v
BrkProps.v
FdProps.v
CopyProps.v
ExecProps.v
Trap.v
TrapProps.v
TimerProps.v
SysDemo.v
Grep.v
Shell.v
ShellProps.v
Umalloc.v
UmallocProps.v
Ulib.v
Uprintf.v
Sdcard.v
SdcardProps.v
SdcardDemo.v
Burn.v
BurnProps.v
Oled.v
OledProps.v
Virtio.v
VirtioProps.v
UartDw.v
UartDwProps.v
Spi.v
SpiProps.v
Spidev.v
