(* ===== verification/Prelude.v ===== *)
(** * xv6-k210: a verification development

    xv6-k210 is a Unix-like teaching kernel for the Kendryte K210, a two-hart
    RISC-V board with 6 MB of memory.  This library models the kernel (C code
    under src/kernel/, K210 build) from the page allocator to the system
    calls, the drivers below it and several of the user programs above it
    (src/user/), and proves what makes each part correct.

    ** The program and the files that model it

    - Machine layer.  [Riscv]: the macros of include/riscv.h, memlayout.h and
      param.h.  [Memory]: a byte-addressed memory and libc/string.c on it.
      [Spinlock]: lock/spinlock.c twice, in [Module Hart] as one hart sees it
      (interrupt nesting and the set of locks held, so that a double acquire
      or an unbalanced release is a panic of the model) and in [Module Smp] as
      a step relation over the memory operations of all harts.
    - Physical memory.  [Kalloc]: vm/kalloc.c, per-CPU lists of free pages
      with stealing, and the reference counts of copy on write.  [Kmalloc]:
      vm/kmalloc.c, the slab allocator on top of it.  Free lists and slab
      headers live in the bytes of the model's memory at their C offsets.
    - Virtual memory.  [Vm]: vm/vm.c, Sv39 page tables in the same memory.
      [VmTree] is the theory of page-table trees and [walk], [VmUnmap] of
      unmapping, [VmCow] of copy-on-write faults, [VmFree] and [VmSpace] of
      freeing the address spaces of a process, [VmCheck] of the decidable
      check that a memory holds a well-formed table, [VmProps] holds the
      refinement theorems.  [Vmfault]: vm/vmfault.c, vm/vmcopyin.c and the
      copy routines of vm.c.  [Mmap], [MmapProps]: vm/mmap/.
    - Processes.  [Proctab]: include/proc.h, the records and the table.
      [Sched], [SchedProps]: the scheduler, sleep and wakeup of proc/proc.c.
      [Signal]: proc/signal.c.  [Proc], [ProcProps], [ProcDemo]: allocation,
      fork, exit and wait of proc/proc.c.  [Pipe], [PipeProps]: ipc/pipe.c.
    - Files.  [Bio], [BioProps]: fs/bio.c with lock/sleeplock.c and
      fs/disk.c.  [Fat32]: fs/fat32.c.  [FatDisk] (an idle cache, FAT entries,
      allocation), [FatChain] (cluster chains), [FatClus] (one cluster),
      [FatFile] (file contents), [FatName] and [FatDir] (directory entries)
      are its theory and [FatDemo] a concrete volume.  [File], [FileProps],
      [FileDemo]: fs/file.c and devsw/device.c.
    - Console.  [Ringbuffer]: driver/ringbuffer.c.  [Printf]: libc/printf.c
      and libc/sprintf.c.  [Uart], [UartProps]: driver/uarths.c.  [Console],
      [ConsoleProps], [ConsoleTty], [ConsoleDemo]: devsw/console.c.
    - The whole kernel.  [Kernel] puts the states together and instantiates
      the interfaces between the parts.  [Exec], [ExecProps]: proc/exec.c.
      [Syscall]: syscall/syscall.c, sysproc.c and sysfile.c; [SysWp] has the
      rules to execute a call symbolically, [BrkProps] the theorem on sbrk,
      [FdProps] those on descriptors, [CopyProps] those on copies between
      kernel and user.  [Trap], [TrapProps], [TimerProps]: trap/trap.c,
      trap/irq.c and driver/plic.c.  [SysDemo] is a concrete kernel.
    - Drivers.  [Sdcard], [SdcardProps], [SdcardDemo]: driver/sdcard.c, which
      implements the [Disk] that the block cache uses, over a [Card].
      [Virtio], [VirtioProps]: driver/virtio_disk.c of the QEMU build, with
      the device and any number of processes as a step system.  [UartDw],
      [UartDwProps]: driver/uart.c and devsw/uartdev.c, a serial port with
      DMA.  [Spi], [SpiProps]: driver/spi.c.  [Spidev]:
      devsw/spidev.c and board/spi_board.c.
    - User programs.  [Umalloc], [UmallocProps], [Ulib], [Uprintf]: the
      allocator, the string routines and printf of user/libc/.  [Oled],
      [OledProps]: user/libc/oled.c, drawing into a framebuffer.  [Shell],
      [ShellProps]: the parser of user/sh/sh.c.  [Grep]: user/sh/grep.c.
      [Burn], [BurnProps]: the transfer protocol of user/app/burn.c.

    ** How code becomes definitions

    A kernel function is a computation in the monad [M S A] below: it returns a
    value and a state, panics with the message of the source, or runs out of
    fuel ([Spin]).  Its name is that of the C function; a loop body that is a
    definition of its own is called [f_body].  The states nest through
    [Lens]es: [lkst] (locks of the hart) inside [kst] (memory and allocator)
    inside [pst] (process table) inside [mst] (mapped objects) inside [kern]
    (with the pipes) inside [cstate] (with the console and its UART); [bst]
    (block cache) and [cstate] inside [fatst] (mounted volume and entry cache)
    inside [filest] (open files), which for [cstate] is [sys], the state of a
    system call, inside [tst] (with the registers of the hart and of the
    interrupt controller).  Mmap.v, Vmfault.v and Proc.v are generic in the
    outer state, which they see through a [Lens] to [mst].  The spinlocks of
    the kernel proper (allocators, processes, pipes, buffers, entries, files,
    console, printf, ticks) are acquired and released in the model where the
    source does it; the spinlock inside a sleep lock is not, so that
    [acquiresleep] and [releasesleep] are single steps, and neither are the
    locks inside the drivers of UartDw.v, Spi.v and Virtio.v, whose critical
    sections are steps of their machines.  A function that gives up the CPU in
    the middle is split at the switch into [f_enter] and [f_resume] (Sched.v),
    or into runs from one sleep to the next (Pipe.v, Uart.v, Console.v,
    Syscall.v, Virtio.v, UartDw.v).  A driver and a user program have states of
    their own, with the device or the system calls they use in them; an access
    outside of an array of theirs ends the model with a panic, so that the
    theorems exclude it.

    C integers are [Z]; the wrap-around of every operation that can overflow
    its type is written out ([u8], [u32], [u64], [s32]).  Pointers to kernel
    objects are indices or addresses, NULL is 0 or [None].

    Interfaces between the parts: [PageAllocSpec] (what page tables rely on
    of the allocator), [FileOps] and [EntryOps] (files and directories for
    mappings and processes), [EitherCopy] (user memory for the file system),
    [PipeOps] and [DeviceOps] (what an open file can be), [RxObserver] (the
    console for the UART).  Code outside the modelled files is an interface
    too: [Linker] and [ProcSymbols] (symbols of the linker script), [Disk]
    (the disk of the cache, which Sdcard.v implements), [Card] (the SD card on
    its bus), [SpiSlave] (what is on the SPI bus), [ApbClock] and [SpiClock]
    (clocks), [UartEnv] (memory and clock of the UART), [ExecFrame] and
    [StackJunk] (addresses and old contents of stack variables),
    [TrapVectors] (addresses of assembly, interrupt handlers of the drivers).
    What the proofs rely on of such code is in the [...Laws] class beside the
    interface, and each has a concrete instance in a [Demo] module, where the
    theorems are applied.

    ** Fuel

    [wp] is total correctness: a computation that panics or spins satisfies
    no postcondition, so every theorem stated with [wp] is also a theorem of
    termination and of the absence of panics.  Loops over C arrays are
    structural recursions on the number of slots.  The other loops take their
    fuel from a bound the source implies, and the theorems prove that it
    suffices: a range of pages has at most its length in pages plus one
    iterations; a free list or slab list visits each physical page at most
    once; CLOCK makes two rounds over a bucket; a cluster chain has at most as
    many clusters as the FAT; a transfer advances by at least one byte; a
    faulting access of a copy routine is retried twice, since a handler that
    resolves the fault makes the second attempt succeed.  The timing of
    devices is not bounded but given: it is an oracle in the state or a list
    of events, over which the theorems quantify; a wait whose events run out
    is one whose time is over.

    ** What the theorems show

    - Allocator (Kalloc.v): after [kinit] the free lists are disjoint chains
      of exactly the pages of count 0; [kalloc_page] and [kfree_page] are
      total, keep that, and hand out and take back single references.
      The unsigned count never trips the double-free panic.
    - Page tables (VmProps.v, VmCow.v): [mappages] and [uvmunmap] refine the
      update and removal of a range in the abstract map from pages to
      entries, error paths included, and undo each other; a copy-on-write
      fault gives a private copy and changes no other translation and no byte
      of another page.
    - Locks (Spinlock.v): mutual exclusion for every interleaving; balanced
      use restores the interrupt state.
    - Scheduler (SchedProps.v): which process runs next; bounded waiting in a
      level; levels and slices stay in range; the order in which sleep and
      wakeup take and release their locks loses no wakeup in any interleaving
      of the two and cannot deadlock ([Module Handshake]).
    - Life cycle (ProcProps.v): exit notifies the parent and hands over the
      children; wait stores the status of a zombie and reaps it, or leaves it
      when the status cannot be stored; the memory of a process is given back
      exactly.
    - Signals (Signal.v): which signal is delivered; handler entry and return
      are inverse, whatever the handler did to the registers; SIGKILL cannot be
      held off; ignored signals are never pending.
    - Pipes and ring buffer: refinement of bounded queues, across the
      wrap-around of the counters and in every way a call can end.
    - Block cache (BioProps.v): CLOCK finds a free buffer if there is one;
      a read returns what is on the disk; two interleaved misses cache a
      block twice ([Module Race]).
    - FAT32: allocation takes the first free cluster; a seek from any cached
      position equals following the chain; truncation frees exactly the
      chain; [eread] and [ewrite] transfer exactly the bytes in range and
      change nothing else; written bytes and directory entries are read back.
    - Open files (FileProps.v, FdProps.v): bytes written through one
      descriptor are read through another; the last close releases the
      object; [close] undoes [dup].
    - Mappings (MmapProps.v): placement, creation and cutting of areas.
    - Console: the UART sends what is written, in order; a read in TTY mode
      delivers the line that a reference function cuts out of the input;
      Ctrl-C interrupts the foreground group; number conversion reads back,
      and by how much snprintf overruns its buffer.
    - User memory (CopyProps.v, ExecProps.v, BrkProps.v): copyout and copyin
      are inverse on mapped memory and fail on addresses of nothing; the
      arguments of a new program are where main looks for them; sbrk keeps
      both page tables of the process consistent, entry by entry.
    - Drivers: the SD card driver gives the cache the disk it expects, error
      paths included (SdcardProps.v); requests of concurrent processes to the
      virtio disk end with the right block and never block each other for ever
      (VirtioProps.v); the serial port delivers bytes in order and each byte
      that arrived is delivered, waiting, counted as dropped, lost to a full
      FIFO or discarded by a change of speed, in every interleaving with DMA,
      interrupts and changes of mode (UartDwProps.v); an SPI message is a
      full-duplex exchange between the caller's memory and the slave for every
      timing of the FIFOs, and no transfer waits for an interrupt that does not
      come (SpiProps.v, Spidev.v).
    - User programs: the parser of the shell reads back printed commands and
      accounts for every word of any line, in a tree or in an error message;
      grep's matcher decides the language of the pattern and its
      loop filters lines; malloc and free keep the blocks disjoint and the
      free list complete; vsnprintf stays in its buffer
      for texts of fewer than 2^31 characters; the card writer
      writes only sectors that arrived intact and copies a whole image over a
      clean line; images, lines, areas, circles and text change exactly the
      pixels they should.
    - Traps (TrapProps.v, TimerProps.v): a killed process does not get back
      to user space and the others get there with the hart set up for it;
      registered handlers are dispatched; ticks are counted, and sleep lasts
      as long as it says.

    ** Bounds of the model and parts left out

    One hart runs at a time, except in [Spinlock.Smp], [BioProps.Race],
    [SchedProps.Handshake], VirtioProps.v, UartDwProps.v and SpiProps.v, which
    interleave processes, interrupts and devices; elsewhere interrupts arrive
    only between calls.  The TLB is not modelled: [sfence_vma] is the identity.
    The contents of a trapframe page are kept beside its address.  A FAT32
    transfer between the disk and a process does not change the cache behind
    it.  The locks of the file system and those of the processes are kept in
    two states, [lkst] of the block cache and [lkst] of the memory.  The
    theorems of ProcProps.v are on the state [mst] itself.

    Not modelled: driver/fpioa.c, sysctl.c, dmac.c, gpiohs.c and i2c.c and
    their headers (tables and registers of the vendor's SDK), the device files
    above I2C and the framebuffer, assembly, start-up (main.c), the commands
    of the shell behind its parser, the handshake and display of burn.c, the
    remaining small programs and the tests. *)

From stdpp Require Export base gmap list strings.
From Stdlib Require Export ZArith Lia.

Open Scope Z_scope.

(** ** Machine integers

    C integers are elements of [Z]; the width of an operation is written out
    with the wrapping functions below.  On RV64 [char] is unsigned. *)

Definition u8 (x : Z) : Z := x mod 2 ^ 8.
Definition u16 (x : Z) : Z := x mod 2 ^ 16.
Definition u32 (x : Z) : Z := x mod 2 ^ 32.
Definition u64 (x : Z) : Z := x mod 2 ^ 64.
Definition s32 (x : Z) : Z := (x + 2 ^ 31) mod 2 ^ 32 - 2 ^ 31.

Lemma u8_range x : 0 <= u8 x < 256.
Proof. apply Z.mod_pos_bound. lia. Qed.
Lemma u32_range x : 0 <= u32 x < 2 ^ 32.
Proof. apply Z.mod_pos_bound. lia. Qed.
Lemma u64_range x : 0 <= u64 x < 2 ^ 64.
Proof. apply Z.mod_pos_bound. lia. Qed.
Lemma u8_small x : 0 <= x < 256 -> u8 x = x.
Proof. intros. apply Z.mod_small. lia. Qed.
Lemma u32_small x : 0 <= x < 2 ^ 32 -> u32 x = x.
Proof. intros. by apply Z.mod_small. Qed.
Lemma u64_small x : 0 <= x < 2 ^ 64 -> u64 x = x.
Proof. intros. by apply Z.mod_small. Qed.
Lemma s32_small x : - 2 ^ 31 <= x < 2 ^ 31 -> s32 x = x.
Proof. intros. unfold s32. rewrite Z.mod_small; lia. Qed.

(** The truth value of a C condition as an [int]. *)
Definition b2z (b : bool) : Z := if b then 1 else 0.

(** Low bits cleared by a mask of the form [~(2^n - 1)]. *)
Lemma land_lnot_ones a n : 0 <= n -> Z.land a (Z.lnot (Z.ones n)) = 2 ^ n * (a / 2 ^ n).
Proof.
  intros Hn. rewrite <- Z.ldiff_land, Z.ldiff_ones_r by lia.
  rewrite Z.shiftl_mul_pow2, Z.shiftr_div_pow2 by lia. lia.
Qed.

(** ** The effect monad

    Kernel code is modelled as a function from a state to an outcome: a value
    with the next state, a call of [panic] (which never returns), or a loop
    that used up its fuel.  [wp] is total correctness: it excludes the last
    two. *)

Inductive outcome (S A : Type) : Type :=
| Ok (a : A) (s : S)
| Panic (msg : string) (s : S)
| Spin.
Arguments Ok {S A} a s.
Arguments Panic {S A} msg s.
Arguments Spin {S A}.

Definition M (S A : Type) : Type := S -> outcome S A.

Definition mret_ {S A} (a : A) : M S A := fun s => Ok a s.
Definition mbind_ {S A B} (m : M S A) (f : A -> M S B) : M S B := fun s =>
  match m s with
  | Ok a s' => f a s'
  | Panic e s' => Panic e s'
  | Spin => Spin
  end.
Definition panic {S A} (msg : string) : M S A := fun s => Panic msg s.
Definition spin {S A} : M S A := fun _ => Spin.
Definition get {S} : M S S := fun s => Ok s s.
Definition gets {S A} (f : S -> A) : M S A := fun s => Ok (f s) s.
Definition modify {S} (f : S -> S) : M S unit := fun s => Ok tt (f s).
Definition when {S} (b : bool) (m : M S unit) : M S unit :=
  if b then m else mret_ tt.

Declare Scope kernel_scope.
Delimit Scope kernel_scope with kernel.
Notation "'ret' a" := (mret_ a) (at level 60) : kernel_scope.
Notation "x <- m ;; f" := (mbind_ m (fun x => f))
  (at level 100, m at next level, right associativity) : kernel_scope.
Notation "m ;; f" := (mbind_ m (fun _ => f))
  (at level 100, right associativity) : kernel_scope.
Open Scope kernel_scope.

(** A C loop: the body either continues with new loop variables ([inl]) or
    leaves the loop with a result ([inr]). *)
Fixpoint loop {S X R} (fuel : nat) (body : X -> M S (X + R)) (x : X) : M S R :=
  match fuel with
  | O => spin
  | Datatypes.S n =>
      y <- body x ;;
      match y with
      | inl x' => loop n body x'
      | inr r => ret r
      end
  end.

#[global] Arguments loop : simpl never.

(** ** Weakest preconditions *)

Definition wp {S A} (m : M S A) (Q : A -> S -> Prop) (s : S) : Prop :=
  match m s with
  | Ok a s' => Q a s'
  | Panic _ _ => False
  | Spin => False
  end.

Section wp.
Context {S : Type}.

Lemma wp_ret {A} (a : A) (Q : A -> S -> Prop) s : Q a s -> wp (mret_ a) Q s.
Proof. done. Qed.

Lemma wp_bind {A B} (m : M S A) (f : A -> M S B) Q s :
  wp m (fun a s' => wp (f a) Q s') s -> wp (mbind_ m f) Q s.
Proof. unfold wp, mbind_. by destruct (m s). Qed.

Lemma wp_bind_inv {A B} (m : M S A) (f : A -> M S B) Q s :
  wp (mbind_ m f) Q s -> wp m (fun a s' => wp (f a) Q s') s.
Proof. unfold wp, mbind_. by destruct (m s). Qed.

Lemma wp_mono {A} (m : M S A) (Q Q' : A -> S -> Prop) s :
  wp m Q s -> (forall a s', Q a s' -> Q' a s') -> wp m Q' s.
Proof. unfold wp. destruct (m s); naive_solver. Qed.

Lemma wp_get (Q : S -> S -> Prop) s : Q s s -> wp get Q s.
Proof. done. Qed.

Lemma wp_gets {A} (f : S -> A) Q s : Q (f s) s -> wp (gets f) Q s.
Proof. done. Qed.

Lemma wp_modify (f : S -> S) Q s : Q tt (f s) -> wp (modify f) Q s.
Proof. done. Qed.

Lemma wp_when b (m : M S unit) Q s :
  (b = true -> wp m Q s) -> (b = false -> Q tt s) -> wp (when b m) Q s.
Proof. destruct b; simpl; intros H1 H2; [by apply H1 | by apply H2]. Qed.

(** The outcome that a [wp] describes. *)
Lemma wp_Ok {A} (m : M S A) Q s :
  wp m Q s -> exists a s', m s = Ok a s' /\ Q a s'.
Proof. unfold wp. destruct (m s) as [a s'| |]; [eauto|done|done]. Qed.

Lemma Ok_wp {A} (m : M S A) (Q : A -> S -> Prop) s a s' :
  m s = Ok a s' -> Q a s' -> wp m Q s.
Proof. unfold wp. by intros ->. Qed.

(** Loops: an invariant on the loop variables and the state, and a measure
    that each iteration decreases and the fuel exceeds. *)
Lemma wp_loop {X R} (I : X -> S -> Prop) (measure : X -> nat)
    (body : X -> M S (X + R)) (Q : R -> S -> Prop) fuel x s :
  (forall x s, I x s ->
     wp (body x) (fun y s' =>
       match y with
       | inl x' => I x' s' /\ (measure x' < measure x)%nat
       | inr r => Q r s'
       end) s) ->
  I x s -> (measure x < fuel)%nat -> wp (loop fuel body x) Q s.
Proof.
  intros Hbody. revert x s. induction fuel as [|n IH]; intros x s HI Hm; [lia|].
  cbn [loop]. apply wp_bind. eapply wp_mono; [by apply Hbody|].
  intros [x'|r] s'; [|done]. intros [HI' Hlt]. apply IH; [done|lia].
Qed.

(** One unfolding of a loop, for symbolic execution. *)
Lemma wp_loop_S {X R} n (body : X -> M S (X + R)) (Q : R -> S -> Prop) x s :
  wp (body x) (fun y s' => match y with inl x' => wp (loop n body x') Q s' | inr r => Q r s' end) s ->
  wp (loop (Datatypes.S n) body x) Q s.
Proof. intros H. change (wp (y <- body x ;; match y with inl x' => loop n body x' | inr r => ret r end) Q s).
  apply wp_bind. eapply wp_mono; [exact H|]. by intros [x'|r] s'.
Qed.
End wp.

(** ** Components of a larger state *)

Class Lens (S T : Type) := {
  lget : S -> T;
  lput : T -> S -> S;
}.

Class LensLaws (S T : Type) `{Lens S T} := {
  lget_lput t s : lget (lput t s) = t;
  lput_lget s : lput (lget s) s = s;
  lput_lput t t' s : lput t (lput t' s) = lput t s;
}.

Definition zoom {S T A} `{Lens S T} (m : M T A) : M S A := fun s =>
  match m (lget s) with
  | Ok a t => Ok a (lput t s)
  | Panic e t => Panic e (lput t s)
  | Spin => Spin
  end.

Lemma wp_zoom {S T A} `{Lens S T} (m : M T A) (Q : A -> S -> Prop) s :
  wp m (fun a t => Q a (lput t s)) (lget s) -> wp (zoom m) Q s.
Proof. unfold wp, zoom. by destruct (m (lget s)). Qed.

(** ** Automation

    [wp_step] performs one symbolic-execution step on a [wp] goal whose head
    is a primitive of the monad; [wp_go] repeats it.  [case_bool] splits on
    the boolean guard of an [if] and reflects it. *)

Create HintDb wpdb.

(** Components extend [wp_prim] with the primitives they define. *)
Ltac wp_prim := fail.

Ltac wp_step :=
  lazymatch goal with
  | |- wp (mbind_ _ _) _ _ => apply wp_bind
  | |- wp (mret_ _) _ _ => apply wp_ret
  | |- wp get _ _ => apply wp_get
  | |- wp (gets _) _ _ => apply wp_gets
  | |- wp (modify _) _ _ => apply wp_modify
  | |- wp (when _ _) _ _ => apply wp_when; intros ?
  | |- wp _ _ _ => wp_prim
  end.
Ltac wp_go := repeat (wp_step; cbv beta).

Lemma bool_decide_spec_true (P : Prop) `{Decision P} : bool_decide P = true -> P.
Proof. apply bool_decide_eq_true_1. Qed.

Ltac breflect :=
  repeat match goal with
  | H : negb _ = true |- _ => apply negb_true_iff in H
  | H : negb _ = false |- _ => apply negb_false_iff in H
  | H : _ && _ = true |- _ => apply andb_true_iff in H; destruct H
  | H : _ || _ = false |- _ => apply orb_false_iff in H; destruct H
  | H : (_ =? _)%Z = true |- _ => apply Z.eqb_eq in H
  | H : (_ =? _)%Z = false |- _ => apply Z.eqb_neq in H
  | H : (_ <? _)%Z = true |- _ => apply Z.ltb_lt in H
  | H : (_ <? _)%Z = false |- _ => apply Z.ltb_ge in H
  | H : (_ <=? _)%Z = true |- _ => apply Z.leb_le in H
  | H : (_ <=? _)%Z = false |- _ => apply Z.leb_gt in H
  | H : bool_decide _ = true |- _ => apply bool_decide_eq_true_1 in H
  | H : bool_decide _ = false |- _ => apply bool_decide_eq_false_1 in H
  end.

(** Linear arithmetic with [/] and [mod] by constants. *)
Ltac dlia := Z.to_euclidean_division_equations; lia.

Tactic Notation "case_bool" "as" ident(E) :=
  match goal with
  | |- context [if ?b then _ else _] => destruct b eqn:E
  end; breflect.

Ltac case_bool_ :=
  let E := fresh "E" in case_bool as E.

(** ** Shared lemmas on lists and integers *)

(** The C test [lo <= b && b < hi]. *)
Lemma range_spec lo hi b : BoolSpec (lo <= b < hi) (~ lo <= b < hi) ((lo <=? b) && (b <? hi)).
Proof.
  destruct ((lo <=? b) && (b <? hi)) eqn:E; constructor.
  - by breflect.
  - apply andb_false_iff in E as [E|E]; breflect; lia.
Qed.

(** Case analysis on every such test in the goal. *)
Ltac case_ranges :=
  repeat match goal with
  | |- context [(?lo <=? ?b) && (?b <? ?hi)] => destruct (range_spec lo hi b); try lia
  | |- context [(?x =? ?y)] => destruct (Z.eqb_spec x y); try lia
  end.

Lemma lookup_total_insert_Z (l : list Z) (i j : nat) (x : Z) :
  (i < length l)%nat ->
  <[i := x]> l !! j = if decide (i = j) then Some x else l !! j.
Proof.
  intros Hi. case_decide as Hij.
  - subst. by apply list_lookup_insert_eq.
  - by apply list_lookup_insert_ne.
Qed.

Lemma NoDup_concat_insert {A} (ls : list (list A)) (i : nat) (l l' : list A) :
  ls !! i = Some l ->
  concat (<[i := l']> ls) ≡ₚ l' ++ concat (delete i ls).
Proof.
  intros Hi. rewrite <- (take_drop_middle _ _ _ Hi) at 1.
  rewrite insert_app_r_alt; rewrite length_take_le;
    try (apply Nat.lt_le_incl, lookup_lt_Some with l; done); [|lia].
  rewrite Nat.sub_diag. simpl.
  rewrite delete_take_drop, !concat_app. simpl.
  rewrite !app_assoc. by rewrite (Permutation_app_comm l').
Qed.

Lemma concat_lookup_Permutation {A} (ls : list (list A)) (i : nat) (l : list A) :
  ls !! i = Some l -> concat ls ≡ₚ l ++ concat (delete i ls).
Proof.
  intros Hi. rewrite <- (NoDup_concat_insert ls i l l) by done.
  by rewrite list_insert_id.
Qed.
