(* ===== verification/Riscv.v ===== *)
(** * Sv39 paging macros, the memory map and the kernel's parameters

    The macros of src/kernel/include/riscv.h (page rounding, page-table-entry
    encoding, page-table indices), the address-space constants of
    src/kernel/include/memlayout.h (K210 build, the default platform) and the
    limits of src/kernel/include/param.h, with the arithmetic the other files
    use: every bit operation has a lemma that states it as division, remainder
    or addition. *)

From S2P Require Import Prelude.

(** ** riscv.h *)

Definition PGSIZE : Z := 4096.
Definition PGSHIFT : Z := 12.

(** Both macros mask with [~(PGSIZE-1)]; the operand is a [uint64]. *)
Definition PGROUNDUP (sz : Z) : Z := Z.land (u64 (sz + PGSIZE - 1)) (Z.lnot (PGSIZE - 1)).
Definition PGROUNDDOWN (a : Z) : Z := Z.land a (Z.lnot (PGSIZE - 1)).

Definition PTE_V : Z := Z.shiftl 1 0.
Definition PTE_R : Z := Z.shiftl 1 1.
Definition PTE_W : Z := Z.shiftl 1 2.
Definition PTE_X : Z := Z.shiftl 1 3.
Definition PTE_U : Z := Z.shiftl 1 4.
Definition PTE_COW : Z := Z.shiftl 1 8.

Definition PA2PTE (pa : Z) : Z := u64 (Z.shiftl (Z.shiftr pa 12) 10).
Definition PTE2PA (pte : Z) : Z := u64 (Z.shiftl (Z.shiftr pte 10) 12).
Definition PTE_FLAGS (pte : Z) : Z := Z.land pte 0x3FF.

Definition PXMASK : Z := 0x1FF.
Definition PXSHIFT (level : Z) : Z := PGSHIFT + 9 * level.
Definition PX (level va : Z) : Z := Z.land (Z.shiftr va (PXSHIFT level)) PXMASK.

Definition MAXVA : Z := Z.shiftl 1 (9 + 9 + 9 + 12 - 1).

Definition SATP_SV39 : Z := Z.shiftl 8 60.
Definition MAKE_SATP (pagetable : Z) : Z := Z.lor SATP_SV39 (Z.shiftr pagetable 12).

Definition SSTATUS_SPP : Z := Z.shiftl 1 8.
Definition SSTATUS_SPIE : Z := Z.shiftl 1 5.
Definition SSTATUS_SIE : Z := Z.shiftl 1 1.

(** ** memlayout.h *)

Definition VIRT_OFFSET : Z := 0x3F00000000.
Definition CLINT : Z := 0x02000000.
Definition PLIC : Z := 0x0C000000.
Definition UARTHS : Z := 0x38000000.
Definition UART0 : Z := 0x50210000.
Definition UART1 : Z := 0x50220000.
Definition UART2 : Z := 0x50230000.
Definition GPIOHS : Z := 0x38001000.
Definition DMAC : Z := 0x50000000.
Definition GPIO : Z := 0x50200000.
Definition FPIOA : Z := 0x502B0000.
Definition SYSCTL : Z := 0x50440000.
Definition SPI0 : Z := 0x52000000.
Definition SPI1 : Z := 0x53000000.
Definition SPI2 : Z := 0x54000000.
Definition SPI_SLAVE : Z := 0x50240000.
Definition I2C0 : Z := 0x50280000.
Definition I2C1 : Z := 0x50290000.
Definition I2C2 : Z := 0x502A0000.

Definition KERNBASE : Z := 0x80020000.
Definition PHYSTOP : Z := 0x80600000.
Definition MAXUVA : Z := 0x80000000.
Definition USER_STACK_TOP : Z := MAXUVA.
Definition USER_STACK_SIZE : Z := Z.shiftl 1 20.
Definition USER_STACK_BOTTOM : Z := USER_STACK_TOP - USER_STACK_SIZE.
Definition USER_STACK_GUARD : Z := USER_STACK_BOTTOM.
Definition USER_STACK_START : Z := USER_STACK_GUARD + PGSIZE.
Definition TRAMPOLINE : Z := MAXVA - PGSIZE.
Definition KSTACK (p : Z) : Z := TRAMPOLINE - (p + 1) * 2 * PGSIZE.
Definition TRAPFRAME : Z := TRAMPOLINE - PGSIZE.
Definition SIGTRAMP : Z := TRAPFRAME - PGSIZE.

(** ** param.h *)

Definition NPROC : Z := 64.
Definition NCPU : Z := 2.
Definition NOFILE : Z := 16.
Definition NFILE : Z := 100.
Definition NDEV : Z := 10.
Definition MAXARG : Z := 32.
Definition NBUF : Z := 30.
Definition MAXIRQ : Z := 64.

(** ** Linker symbols

    [end], [etext], [trampoline] and [sigtramp] are addresses fixed by the
    linker script; the theorems hold for every placement that satisfies
    [LinkerOk]. *)

Class Linker := {
  kend : Z;          (** first address after the kernel image *)
  etext : Z;         (** end of the kernel text *)
  trampoline : Z;    (** physical page of trampoline.S *)
  sigtramp : Z;      (** physical page of sigtramp.S *)
}.

Class LinkerOk (L : Linker) : Prop := {
  etext_aligned : etext mod PGSIZE = 0;
  etext_lo : KERNBASE < etext;
  etext_end : etext <= kend;
  kend_hi : kend <= PHYSTOP;
  trampoline_aligned : trampoline mod PGSIZE = 0;
  trampoline_range : KERNBASE <= trampoline < kend;
  sigtramp_aligned : sigtramp mod PGSIZE = 0;
  sigtramp_range : KERNBASE <= sigtramp < kend;
}.

(** ** Arithmetic of the macros *)

Lemma PGROUNDDOWN_div a : PGROUNDDOWN a = PGSIZE * (a / PGSIZE).
Proof. exact (land_lnot_ones a 12 ltac:(lia)). Qed.

Lemma PGROUNDUP_div sz :
  0 <= sz -> sz + PGSIZE - 1 < 2 ^ 64 ->
  PGROUNDUP sz = PGSIZE * ((sz + PGSIZE - 1) / PGSIZE).
Proof.
  intros H0 H1. unfold PGROUNDUP. rewrite u64_small by (unfold PGSIZE in *; lia).
  exact (land_lnot_ones (sz + PGSIZE - 1) 12 ltac:(lia)).
Qed.

Lemma PGROUNDDOWN_le a : PGROUNDDOWN a <= a < PGROUNDDOWN a + PGSIZE.
Proof. rewrite PGROUNDDOWN_div. unfold PGSIZE. dlia. Qed.

Lemma PGROUNDDOWN_aligned a : PGROUNDDOWN a mod PGSIZE = 0.
Proof. rewrite PGROUNDDOWN_div, Z.mul_comm. apply Z_mod_mult. Qed.

Lemma PGROUNDDOWN_id a : a mod PGSIZE = 0 -> PGROUNDDOWN a = a.
Proof. intros H. rewrite PGROUNDDOWN_div. unfold PGSIZE in *. dlia. Qed.

Lemma PGROUNDUP_bounds sz :
  0 <= sz -> sz + PGSIZE - 1 < 2 ^ 64 ->
  sz <= PGROUNDUP sz < sz + PGSIZE /\ PGROUNDUP sz mod PGSIZE = 0.
Proof.
  intros H0 H1. rewrite PGROUNDUP_div by done. unfold PGSIZE in *. split.
  - dlia.
  - rewrite Z.mul_comm. apply Z_mod_mult.
Qed.

Lemma PGROUNDUP_id sz :
  0 <= sz -> sz + PGSIZE - 1 < 2 ^ 64 -> sz mod PGSIZE = 0 -> PGROUNDUP sz = sz.
Proof.
  intros H0 H1 H. pose proof (PGROUNDUP_bounds sz H0 H1) as [? ?].
  unfold PGSIZE in *. dlia.
Qed.

Lemma PX_div level va : 0 <= level -> PX level va = va / 2 ^ (12 + 9 * level) mod 512.
Proof.
  intros Hl. unfold PX, PXMASK, PXSHIFT, PGSHIFT.
  change 0x1FF with (Z.ones 9). rewrite Z.land_ones by lia.
  by rewrite Z.shiftr_div_pow2 by lia.
Qed.

Lemma PX_range level va : 0 <= level -> 0 <= PX level va < 512.
Proof. intros. rewrite PX_div by done. by apply Z.mod_pos_bound. Qed.

(** The three indices determine the page of an address below [MAXVA]. *)
Lemma PX_inj va va' :
  0 <= va < MAXVA -> 0 <= va' < MAXVA ->
  PX 2 va = PX 2 va' -> PX 1 va = PX 1 va' -> PX 0 va = PX 0 va' ->
  va / PGSIZE = va' / PGSIZE.
Proof.
  change MAXVA with (2 ^ 38). unfold PGSIZE. intros H1 H2. rewrite !PX_div by lia.
  change (2 ^ (12 + 9 * 2)) with (4096 * 262144). change (2 ^ (12 + 9 * 1)) with (4096 * 512).
  change (2 ^ (12 + 9 * 0)) with 4096.
  assert (Hva : va < 274877906944) by (change (2 ^ 38) with 274877906944 in *; lia).
  assert (Hva' : va' < 274877906944) by (change (2 ^ 38) with 274877906944 in *; lia).
  rewrite <- !Z.div_div by lia.
  generalize (Z.div_pos va 4096 ltac:(lia) ltac:(lia)).
  generalize (Z.div_pos va' 4096 ltac:(lia) ltac:(lia)).
  assert (va / 4096 < 67108864) by (apply Z.div_lt_upper_bound; lia).
  assert (va' / 4096 < 67108864) by (apply Z.div_lt_upper_bound; lia).
  generalize dependent (va / 4096). generalize dependent (va' / 4096).
  intros b Hb a Ha ? ? E2 E1 E0. Z.to_euclidean_division_equations. lia.
Qed.

Lemma lor_low_high x f n : 0 <= n -> 0 <= f < 2 ^ n -> Z.lor (x * 2 ^ n) f = x * 2 ^ n + f.
Proof.
  intros Hn Hf.
  assert (Hd : Z.land (x * 2 ^ n) f = 0).
  { apply Z.bits_inj'. intros i Hi. rewrite Z.land_spec, Z.bits_0.
    destruct (Z.lt_ge_cases i n).
    - by rewrite Z.mul_pow2_bits_low.
    - assert (Hz : Z.testbit f i = false).
      { destruct (Z.eq_dec f 0) as [->|]; [apply Z.bits_0|].
        apply Z.bits_above_log2; [lia|].
        apply Z.lt_le_trans with n; [apply Z.log2_lt_pow2; lia|lia]. }
      rewrite Hz. apply andb_false_r. }
  rewrite <- Z.lxor_lor by done. symmetry. by apply Z.add_nocarry_lxor.
Qed.

Lemma PA2PTE_div pa : 0 <= pa < 2 ^ 56 -> PA2PTE pa = pa / 4096 * 1024.
Proof.
  intros H. unfold PA2PTE. rewrite Z.shiftl_mul_pow2, Z.shiftr_div_pow2 by lia.
  apply u64_small. change (2 ^ 12) with 4096. change (2 ^ 10) with 1024.
  assert (pa / 4096 < 2 ^ 44) by (apply Z.div_lt_upper_bound; lia).
  pose proof (Z.div_pos pa 4096). lia.
Qed.

(** A page-table entry packs a page address and ten flag bits without loss. *)
Lemma PTE2PA_pack pa f :
  0 <= pa < 2 ^ 56 -> pa mod PGSIZE = 0 -> 0 <= f < 1024 ->
  PTE2PA (Z.lor (PA2PTE pa) f) = pa.
Proof.
  intros Hpa Hal Hf. rewrite PA2PTE_div by done.
  change 1024 with (2 ^ 10) at 1. rewrite lor_low_high by (change (2 ^ 10) with 1024; lia).
  unfold PTE2PA. rewrite Z.shiftl_mul_pow2, Z.shiftr_div_pow2 by lia.
  rewrite Z.div_add_l by (change (2 ^ 10) with 1024; lia). change (2 ^ 10) with 1024.
  rewrite (Z.div_small f) by lia. change (2 ^ 12) with 4096. unfold PGSIZE in Hal.
  rewrite u64_small; dlia.
Qed.

Lemma PTE_FLAGS_pack pa f :
  0 <= pa < 2 ^ 56 -> 0 <= f < 1024 -> PTE_FLAGS (Z.lor (PA2PTE pa) f) = f.
Proof.
  intros Hpa Hf. rewrite PA2PTE_div by done.
  change 1024 with (2 ^ 10) at 1. rewrite lor_low_high by (change (2 ^ 10) with 1024; lia).
  unfold PTE_FLAGS. change 0x3FF with (Z.ones 10). rewrite Z.land_ones by lia.
  rewrite Z.add_comm, Z_mod_plus_full. apply Z.mod_small. change (2 ^ 10) with 1024. lia.
Qed.

(** User addresses use the L2 entries 0 and 1; the kernel's direct map starts
    at entry 2. *)
Lemma user_L2_index va : 0 <= va < MAXUVA -> 0 <= PX 2 va < 2.
Proof.
  unfold MAXUVA. intros H. rewrite PX_div by lia. change (2 ^ (12 + 9 * 2)) with 1073741824.
  assert (0 <= va / 1073741824 < 2) by (split; [apply Z.div_pos; lia|apply Z.div_lt_upper_bound; lia]).
  rewrite Z.mod_small; lia.
Qed.
