(* ===== verification/Memory.v ===== *)
(** * Byte-addressed memory and the string library (src/kernel/libc/string.c)

    Memory is a finite map from addresses to bytes; a byte that was never
    written reads as 0.  Pages, page tables, free lists and slabs all live in
    this one memory, so that aliasing between them is visible.  The functions
    of string.c are translated loop by loop. *)

From S2P Require Import Prelude.

(** A byte, a 16-, 32- and 64-bit little-endian load and store. *)
Definition ld8 (m : gmap Z Z) (a : Z) : Z := u8 (default 0 (m !! a)).
Definition st8 (m : gmap Z Z) (a v : Z) : gmap Z Z := <[a := u8 v]> m.

Fixpoint ldn (n : nat) (m : gmap Z Z) (a : Z) : Z :=
  match n with
  | O => 0
  | S n' => ld8 m a + 256 * ldn n' m (a + 1)
  end.
Fixpoint stn (n : nat) (m : gmap Z Z) (a v : Z) : gmap Z Z :=
  match n with
  | O => m
  | S n' => st8 (stn n' m (a + 1) (v / 256)) a v
  end.

Definition ld16 := ldn 2.
Definition ld32 := ldn 4.
Definition ld64 := ldn 8.
Definition st32 := stn 4.
Definition st64 := stn 8.
#[global] Arguments ld16 m a : simpl never.
#[global] Arguments ld32 m a : simpl never.
#[global] Arguments ld64 m a : simpl never.
#[global] Arguments st32 m a v : simpl never.
#[global] Arguments st64 m a v : simpl never.

(** ** string.c *)

Fixpoint memset_loop (n : nat) (m : gmap Z Z) (cdst c : Z) : gmap Z Z :=
  match n with
  | O => m
  | S n' => memset_loop n' (st8 m cdst c) (cdst + 1) c
  end.
Definition memset (m : gmap Z Z) (dst c n : Z) : gmap Z Z :=
  memset_loop (Z.to_nat n) m dst c.

Fixpoint memcmp_loop (n : nat) (m : gmap Z Z) (s1 s2 : Z) : Z :=
  match n with
  | O => 0
  | S n' =>
      if ld8 m s1 =? ld8 m s2 then memcmp_loop n' m (s1 + 1) (s2 + 1)
      else ld8 m s1 - ld8 m s2
  end.
Definition memcmp (m : gmap Z Z) (v1 v2 n : Z) : Z := memcmp_loop (Z.to_nat n) m v1 v2.

(** [*d++ = *s++] and [*--d = *--s]. *)
Fixpoint copy_up (n : nat) (m : gmap Z Z) (d s : Z) : gmap Z Z :=
  match n with
  | O => m
  | S n' => copy_up n' (st8 m d (ld8 m s)) (d + 1) (s + 1)
  end.
Fixpoint copy_down (n : nat) (m : gmap Z Z) (d s : Z) : gmap Z Z :=
  match n with
  | O => m
  | S n' => copy_down n' (st8 m (d - 1) (ld8 m (s - 1))) (d - 1) (s - 1)
  end.
Definition memmove (m : gmap Z Z) (dst src n : Z) : gmap Z Z :=
  if (src <? dst) && (dst <? src + n)
  then copy_down (Z.to_nat n) m (dst + n) (src + n)
  else copy_up (Z.to_nat n) m dst src.
Definition memcpy (m : gmap Z Z) (dst src n : Z) : gmap Z Z := memmove m dst src n.

Fixpoint strncmp_loop (n : nat) (m : gmap Z Z) (p q : Z) : Z :=
  match n with
  | O => 0
  | S n' =>
      if negb (ld8 m p =? 0) && (ld8 m p =? ld8 m q)
      then strncmp_loop n' m (p + 1) (q + 1)
      else ld8 m p - ld8 m q
  end.
Definition strncmp (m : gmap Z Z) (p q n : Z) : Z := strncmp_loop (Z.to_nat n) m p q.

(** After the terminating NUL has been copied the rest is filled with NULs. *)
Fixpoint strncpy_loop (n : nat) (m : gmap Z Z) (s t : Z) : gmap Z Z :=
  match n with
  | O => m
  | S n' =>
      let c := ld8 m t in
      let m1 := st8 m s c in
      if c =? 0 then memset_loop n' m1 (s + 1) 0
      else strncpy_loop n' m1 (s + 1) (t + 1)
  end.
Definition strncpy (m : gmap Z Z) (s t n : Z) : gmap Z Z := strncpy_loop (Z.to_nat n) m s t.

(** Copies until [--n] reaches 0 or a NUL was copied, then stores a NUL at the
    current destination. *)
Fixpoint safestrcpy_loop (n : nat) (m : gmap Z Z) (s t : Z) : gmap Z Z :=
  match n with
  | O => st8 m s 0
  | S n' =>
      let c := ld8 m t in
      let m1 := st8 m s c in
      if c =? 0 then st8 m1 (s + 1) 0
      else safestrcpy_loop n' m1 (s + 1) (t + 1)
  end.
Definition safestrcpy (m : gmap Z Z) (s t n : Z) : gmap Z Z :=
  if n <=? 0 then m else safestrcpy_loop (Z.to_nat (n - 1)) m s t.

(** Memory outside the map is NUL, so the map's size bounds the scan. *)
Fixpoint strlen_loop (fuel : nat) (m : gmap Z Z) (s n : Z) : option Z :=
  match fuel with
  | O => None
  | S f => if ld8 m (s + n) =? 0 then Some n else strlen_loop f m s (n + 1)
  end.
Definition strlen (m : gmap Z Z) (s : Z) : option Z := strlen_loop (S (size m)) m s 0.

(** [while (len-- && *src)] copies the low byte of each wide character; the
    second loop fills with NULs what [len] then still counts. *)
Fixpoint snstr_loop (len : nat) (m : gmap Z Z) (dst src : Z) : gmap Z Z :=
  match len with
  | O => m
  | S len' =>
      if ld16 m src =? 0 then memset_loop len' m dst 0
      else snstr_loop len' (st8 m dst (Z.land (ld16 m src) 0xff)) (dst + 1) (src + 2)
  end.
Definition snstr (m : gmap Z Z) (dst src len : Z) : gmap Z Z := snstr_loop (Z.to_nat len) m dst src.

Fixpoint strchr_loop (fuel : nat) (m : gmap Z Z) (s c : Z) : option Z :=
  match fuel with
  | O => None
  | S f =>
      if ld8 m s =? 0 then Some 0
      else if ld8 m s =? c then Some s
      else strchr_loop f m (s + 1) c
  end.
Definition strchr (m : gmap Z Z) (s c : Z) : option Z := strchr_loop (S (size m)) m s c.

(** ** Loads and stores *)

Lemma ld8_range m a : 0 <= ld8 m a < 256.
Proof. apply u8_range. Qed.

Lemma u8_u8 x : u8 (u8 x) = u8 x.
Proof. apply u8_small, u8_range. Qed.

Lemma u8_ld8 m a : u8 (ld8 m a) = ld8 m a.
Proof. apply u8_small, ld8_range. Qed.

Lemma ld8_st8 m a v b : ld8 (st8 m a v) b = if a =? b then u8 v else ld8 m b.
Proof.
  unfold ld8, st8. destruct (Z.eqb_spec a b) as [->|Hne].
  - rewrite lookup_insert_eq. simpl. apply u8_u8.
  - by rewrite lookup_insert_ne.
Qed.

Lemma ld8_st8_eq m a v : ld8 (st8 m a v) a = u8 v.
Proof. by rewrite ld8_st8, Z.eqb_refl. Qed.
Lemma ld8_st8_ne m a v b : a <> b -> ld8 (st8 m a v) b = ld8 m b.
Proof. intros. rewrite ld8_st8. by destruct (Z.eqb_spec a b). Qed.

Lemma ld8_stn_ne n m a v b : ~ a <= b < a + Z.of_nat n -> ld8 (stn n m a v) b = ld8 m b.
Proof.
  revert a v. induction n as [|n IH]; intros a v Hb; [done|]. simpl.
  rewrite ld8_st8_ne by lia. apply IH. lia.
Qed.

Lemma ldn_ext n m m' a :
  (forall b, a <= b < a + Z.of_nat n -> ld8 m' b = ld8 m b) -> ldn n m' a = ldn n m a.
Proof.
  revert a. induction n as [|n IH]; intros a H; [done|]. simpl.
  rewrite H by lia. rewrite IH; [done|]. intros b Hb. apply H. lia.
Qed.

Lemma ldn_range n m a : 0 <= ldn n m a < 256 ^ Z.of_nat n.
Proof.
  revert a. induction n as [|n IH]; intros a; [simpl; lia|].
  simpl ldn. specialize (IH (a + 1)). pose proof (ld8_range m a).
  rewrite Nat2Z.inj_succ, Z.pow_succ_r by lia. lia.
Qed.

Lemma ld32_range m a : 0 <= ld32 m a < 2 ^ 32.
Proof. apply (ldn_range 4). Qed.
Lemma ld64_range m a : 0 <= ld64 m a < 2 ^ 64.
Proof. apply (ldn_range 8). Qed.

Lemma ldn_stn_ne n k m a v b :
  b + Z.of_nat n <= a \/ a + Z.of_nat k <= b -> ldn n (stn k m a v) b = ldn n m b.
Proof. intros H. apply ldn_ext. intros c Hc. apply ld8_stn_ne. lia. Qed.

Lemma ldn_stn_eq n m a v : ldn n (stn n m a v) a = v mod 256 ^ Z.of_nat n.
Proof.
  revert m a v. induction n as [|n IH]; intros m a v.
  - simpl. symmetry. apply Z.mod_1_r.
  - cbn [ldn stn]. rewrite ld8_st8_eq.
    rewrite (ldn_ext n (stn n m (a + 1) (v / 256))) by (intros b Hb; apply ld8_st8_ne; lia).
    rewrite IH, Nat2Z.inj_succ, Z.pow_succ_r by lia.
    rewrite Z.rem_mul_r by lia. done.
Qed.

Lemma ld64_st64_eq m a v : ld64 (st64 m a v) a = u64 v.
Proof. apply (ldn_stn_eq 8). Qed.
Lemma ld64_st64_ne m a v b : b + 8 <= a \/ a + 8 <= b -> ld64 (st64 m a v) b = ld64 m b.
Proof. intros. by apply (ldn_stn_ne 8 8). Qed.
Lemma ld32_st32_eq m a v : ld32 (st32 m a v) a = u32 v.
Proof. apply (ldn_stn_eq 4). Qed.
Lemma ld32_st32_ne m a v b : b + 4 <= a \/ a + 4 <= b -> ld32 (st32 m a v) b = ld32 m b.
Proof. intros. by apply (ldn_stn_ne 4 4). Qed.
Lemma ld32_st64_ne m a v b : b + 4 <= a \/ a + 8 <= b -> ld32 (st64 m a v) b = ld32 m b.
Proof. intros. by apply (ldn_stn_ne 4 8). Qed.
Lemma ld64_st32_ne m a v b : b + 8 <= a \/ a + 4 <= b -> ld64 (st32 m a v) b = ld64 m b.
Proof. intros. by apply (ldn_stn_ne 8 4). Qed.
Lemma ld8_st64_ne m a v b : ~ a <= b < a + 8 -> ld8 (st64 m a v) b = ld8 m b.
Proof. intros. by apply (ld8_stn_ne 8). Qed.
Lemma ld8_st32_ne m a v b : ~ a <= b < a + 4 -> ld8 (st32 m a v) b = ld8 m b.
Proof. intros. by apply (ld8_stn_ne 4). Qed.

Lemma ld64_ext m m' a :
  (forall b, a <= b < a + 8 -> ld8 m' b = ld8 m b) -> ld64 m' a = ld64 m a.
Proof. apply (ldn_ext 8). Qed.
Lemma ld32_ext m m' a :
  (forall b, a <= b < a + 4 -> ld8 m' b = ld8 m b) -> ld32 m' a = ld32 m a.
Proof. apply (ldn_ext 4). Qed.

(** ** memset *)

Lemma ld8_memset_loop n m a c b :
  ld8 (memset_loop n m a c) b = if (a <=? b) && (b <? a + Z.of_nat n) then u8 c else ld8 m b.
Proof.
  revert m a. induction n as [|n IH]; intros m a; cbn [memset_loop]; [case_ranges; done|].
  rewrite IH, ld8_st8. case_ranges; done.
Qed.

Lemma ld8_memset m a c n b : 0 <= n ->
  ld8 (memset m a c n) b = if (a <=? b) && (b <? a + n) then u8 c else ld8 m b.
Proof. intros. unfold memset. rewrite ld8_memset_loop. by rewrite Z2Nat.id. Qed.

Lemma ld8_memset_ne m a c n b : 0 <= n -> ~ a <= b < a + n -> ld8 (memset m a c n) b = ld8 m b.
Proof. intros Hn Hb. rewrite ld8_memset by done. by case_ranges. Qed.

Lemma ld8_memset_in m a c n b : a <= b < a + n -> ld8 (memset m a c n) b = u8 c.
Proof. intros Hb. rewrite ld8_memset by lia. by case_ranges. Qed.

Lemma ld64_memset0 m a n b :
  a <= b -> b + 8 <= a + n -> ld64 (memset m a 0 n) b = 0.
Proof.
  intros H1 H2. transitivity (ld64 ∅ b).
  - apply ld64_ext. intros d Hd. rewrite ld8_memset_in by lia. by unfold ld8; rewrite lookup_empty.
  - unfold ld64. simpl. unfold ld8. rewrite !lookup_empty. done.
Qed.

Lemma ld64_memset_ne m a c n b : 0 <= n ->
  b + 8 <= a \/ a + n <= b -> ld64 (memset m a c n) b = ld64 m b.
Proof. intros Hn H. apply ld64_ext. intros d Hd. apply ld8_memset_ne; lia. Qed.
Lemma ld32_memset_ne m a c n b : 0 <= n ->
  b + 4 <= a \/ a + n <= b -> ld32 (memset m a c n) b = ld32 m b.
Proof. intros Hn H. apply ld32_ext. intros d Hd. apply ld8_memset_ne; lia. Qed.

(** ** memmove *)

Lemma ld8_copy_up n m d s b :
  ~ (s < d < s + Z.of_nat n) ->
  ld8 (copy_up n m d s) b =
    if (d <=? b) && (b <? d + Z.of_nat n) then ld8 m (s + (b - d)) else ld8 m b.
Proof.
  revert m d s. induction n as [|n IH]; intros m d s Ho; cbn [copy_up]; [case_ranges; done|].
  rewrite IH by lia. rewrite !ld8_st8, u8_ld8.
  case_ranges; try done; f_equal; lia.
Qed.

Lemma ld8_copy_down n m d s b :
  ~ (d < s < d + Z.of_nat n) ->
  ld8 (copy_down n m d s) b =
    if (d - Z.of_nat n <=? b) && (b <? d) then ld8 m (s + (b - d)) else ld8 m b.
Proof.
  revert m d s. induction n as [|n IH]; intros m d s Ho; cbn [copy_down]; [case_ranges; done|].
  rewrite IH by lia. rewrite !ld8_st8, u8_ld8.
  case_ranges; try done; f_equal; lia.
Qed.

(** The value of every byte after a [memmove], overlapping ranges included. *)
Lemma ld8_memmove m d s n b : 0 <= n ->
  ld8 (memmove m d s n) b = if (d <=? b) && (b <? d + n) then ld8 m (s + (b - d)) else ld8 m b.
Proof.
  intros Hn. unfold memmove. destruct ((s <? d) && (d <? s + n)) eqn:E.
  - breflect. rewrite ld8_copy_down by lia. rewrite Z2Nat.id by lia.
    replace (d + n - n) with d by lia. case_match; [f_equal; lia|done].
  - apply andb_false_iff in E. rewrite !Z.ltb_ge in E.
    rewrite ld8_copy_up by lia. by rewrite Z2Nat.id by lia.
Qed.

Lemma ld64_memmove_ne m d s n b : 0 <= n ->
  b + 8 <= d \/ d + n <= b -> ld64 (memmove m d s n) b = ld64 m b.
Proof. intros Hn H. apply ld64_ext. intros a Ha. rewrite ld8_memmove by done. by case_ranges. Qed.

(** ** Strings *)

(** The bytes of the NUL-terminated string at [s]. *)
Definition cstring (m : gmap Z Z) (s : Z) (bs : list Z) : Prop :=
  (forall i b, bs !! i = Some b -> ld8 m (s + Z.of_nat i) = b /\ b <> 0) /\
  ld8 m (s + Z.of_nat (length bs)) = 0.

Lemma cstring_cons m s b bs :
  cstring m s (b :: bs) <-> ld8 m s = b /\ b <> 0 /\ cstring m (s + 1) bs.
Proof.
  unfold cstring. split.
  - intros [H H0]. pose proof (H 0%nat b eq_refl) as [Hb Hn]. rewrite Z.add_0_r in Hb.
    split_and!; [done|done| |].
    + intros i c Hi. destruct (H (S i) c Hi) as [<- ?]. split; [f_equal; lia|done].
    + rewrite <- H0. f_equal. simpl. lia.
  - intros (Hb & Hn & H & H0). split.
    + intros [|i] c Hi; simplify_eq/=; [by rewrite Z.add_0_r|].
      destruct (H i c Hi) as [<- ?]. split; [f_equal; lia|done].
    + rewrite <- H0. f_equal. simpl. lia.
Qed.

Lemma cstring_nil m s : cstring m s [] <-> ld8 m s = 0.
Proof. unfold cstring. simpl. rewrite Z.add_0_r. naive_solver. Qed.

(** A string has no more bytes than the memory has written bytes. *)
Lemma cstring_size m s bs : cstring m s bs -> (length bs <= size m)%nat.
Proof.
  intros [H _].
  assert (Hsub : list_to_set (seqZ s (Z.of_nat (length bs))) ⊆ dom m).
  { intros a Ha. apply elem_of_list_to_set, elem_of_seqZ in Ha.
    assert (Hlt : (Z.to_nat (a - s) < length bs)%nat) by lia.
    destruct (lookup_lt_is_Some_2 bs _ Hlt) as [b Hb]. destruct (H _ _ Hb) as [Hld Hnz].
    rewrite Z2Nat.id in Hld by lia. replace (s + (a - s)) with a in Hld by lia.
    apply elem_of_dom. unfold ld8 in Hld. destruct (m !! a); [by eexists|]. by cbn in Hld. }
  apply subseteq_size in Hsub. rewrite size_dom in Hsub.
  rewrite size_list_to_set in Hsub by apply NoDup_seqZ. rewrite length_seqZ in Hsub. lia.
Qed.

Lemma strlen_loop_cstring m s bs fuel n :
  cstring m (s + n) bs -> (length bs < fuel)%nat ->
  strlen_loop fuel m s n = Some (n + Z.of_nat (length bs)).
Proof.
  revert bs n. induction fuel as [|f IH]; intros bs n Hs Hl; [lia|]. cbn [strlen_loop].
  destruct bs as [|b bs].
  - apply cstring_nil in Hs. rewrite Hs. simpl. f_equal. lia.
  - apply cstring_cons in Hs as (Hb & Hn & Hs). rewrite Hb. destruct (Z.eqb_spec b 0); [done|].
    replace (s + n + 1) with (s + (n + 1)) in Hs by lia.
    rewrite (IH bs) by (done || simpl in Hl; lia). f_equal. simpl. lia.
Qed.

(** A string is unaffected by stores outside it. *)
Lemma cstring_st8 m a v s bs :
  a < s \/ s + Z.of_nat (length bs) < a -> cstring m s bs -> cstring (st8 m a v) s bs.
Proof.
  intros Ha [H H0]. split.
  - intros i b Hi. pose proof (lookup_lt_Some _ _ _ Hi). rewrite ld8_st8_ne by lia. by apply H.
  - by rewrite ld8_st8_ne by lia.
Qed.

Lemma safestrcpy_loop_spec n m s t bs :
  cstring m t bs -> s + Z.of_nat n < t \/ t + Z.of_nat (length bs) < s ->
  cstring (safestrcpy_loop n m s t) s (take n bs) /\
  forall b, ~ s <= b <= s + Z.of_nat n -> ld8 (safestrcpy_loop n m s t) b = ld8 m b.
Proof.
  revert m s t bs. induction n as [|n IH]; intros m s t bs Hs Hd; cbn [safestrcpy_loop].
  - split; [apply cstring_nil; by rewrite ld8_st8_eq|]. intros b Hb. apply ld8_st8_ne. lia.
  - destruct bs as [|c bs].
    + apply cstring_nil in Hs. rewrite Hs. change (0 =? 0) with true. cbv iota. split.
      * apply cstring_nil. rewrite ld8_st8_ne, ld8_st8_eq by lia. done.
      * intros b Hb. by rewrite !ld8_st8_ne by lia.
    + apply cstring_cons in Hs as (Hc & Hn & Hs). rewrite Hc. destruct (Z.eqb_spec c 0); [done|].
      simpl in Hd. assert (Hd1 : s + 1 + Z.of_nat n < t + 1 \/ t + 1 + Z.of_nat (length bs) < s + 1) by lia.
      destruct (IH (st8 m s c) (s + 1) (t + 1) bs) as [IH1 IH2]; [by apply cstring_st8; [lia|]|done|].
      split.
      * simpl. apply cstring_cons. split_and!; [|done|done].
        rewrite IH2 by lia. rewrite ld8_st8_eq. rewrite <- Hc. apply u8_ld8.
      * intros b Hb. rewrite IH2 by lia. apply ld8_st8_ne. lia.
Qed.

(** ** Properties of string.c *)

(** [memmove] copies [n] bytes correctly for every overlap of source and
    destination: after it every byte of the destination is the byte the source
    held before, and no byte outside the destination changes. *)
Theorem memmove_correct m dst src n b :
  0 <= n ->
  ld8 (memmove m dst src n) b = if (dst <=? b) && (b <? dst + n) then ld8 m (src + (b - dst)) else ld8 m b.
Proof. apply ld8_memmove. Qed.

(** [safestrcpy] into a buffer of [n] bytes that does not overlap the source
    leaves there the longest prefix of the source that fits, always
    NUL-terminated, and writes nothing outside the buffer. *)
Theorem safestrcpy_terminates_in_buffer m dst src n bs :
  cstring m src bs -> 0 < n -> dst + n <= src \/ src + Z.of_nat (length bs) < dst ->
  cstring (safestrcpy m dst src n) dst (take (Z.to_nat (n - 1)) bs) /\
  forall b, ~ dst <= b < dst + n -> ld8 (safestrcpy m dst src n) b = ld8 m b.
Proof.
  intros Hs Hn Hd. unfold safestrcpy. destruct (Z.leb_spec n 0); [lia|].
  destruct (safestrcpy_loop_spec (Z.to_nat (n - 1)) m dst src bs Hs) as [H1 H2]; [lia|].
  split; [done|]. intros b Hb. apply H2. lia.
Qed.

(** [strlen] of a NUL-terminated string terminates and is the number of
    bytes before the NUL. *)
Theorem strlen_correct m s bs : cstring m s bs -> strlen m s = Some (Z.of_nat (length bs)).
Proof.
  intros Hs. unfold strlen. rewrite (strlen_loop_cstring m s bs).
  - f_equal.
  - by rewrite Z.add_0_r.
  - pose proof (cstring_size _ _ _ Hs). lia.
Qed.

Lemma snstr_loop_last len m dst src k :
  (k < len)%nat -> (forall i, (i < k)%nat -> ld16 m (src + 2 * Z.of_nat i) <> 0) ->
  ld16 m (src + 2 * Z.of_nat k) = 0 ->
  dst + Z.of_nat len <= src ->
  ld8 (snstr_loop len m dst src) (dst + Z.of_nat len - 1) = ld8 m (dst + Z.of_nat len - 1).
Proof.
  revert m dst src k. induction len as [|len IH]; intros m dst src k Hk Hne Hz Hd; [lia|].
  cbn [snstr_loop]. destruct k as [|k].
  - rewrite Z.mul_0_r, Z.add_0_r in Hz. rewrite Hz. simpl (0 =? 0). cbv iota.
    rewrite ld8_memset_loop. by case_ranges.
  - pose proof (Hne 0%nat ltac:(lia)) as H0. rewrite Z.mul_0_r, Z.add_0_r in H0.
    destruct (Z.eqb_spec (ld16 m src) 0); [done|].
    assert (Hld : forall i, ld16 (st8 m dst (Z.land (ld16 m src) 255)) (src + 2 + 2 * i) = ld16 m (src + 2 + 2 * i)
                            \/ i < 0).
    { intros i. destruct (decide (i < 0)); [by right|left]. apply ldn_ext. intros b Hb. apply ld8_st8_ne. lia. }
    replace (dst + Z.of_nat (S len) - 1) with (dst + 1 + Z.of_nat len - 1) by lia.
    rewrite (IH _ _ _ k); [apply ld8_st8_ne; lia|lia| | |lia].
    + intros i Hi. destruct (Hld (Z.of_nat i)) as [->|]; [|lia].
      replace (src + 2 + 2 * Z.of_nat i) with (src + 2 * Z.of_nat (S i)) by lia. apply Hne. lia.
    + destruct (Hld (Z.of_nat k)) as [->|]; [|lia].
      by replace (src + 2 + 2 * Z.of_nat k) with (src + 2 * Z.of_nat (S k)) by lia.
Qed.

(** [snstr] does not fill its buffer: when the wide string ends before
    [len] characters, the padding stops one short and the last byte of the
    destination keeps its old value. *)
Theorem snstr_leaves_last_byte m dst src len k :
  0 <= k < len -> (forall i, 0 <= i < k -> ld16 m (src + 2 * i) <> 0) -> ld16 m (src + 2 * k) = 0 ->
  dst + len <= src ->
  ld8 (snstr m dst src len) (dst + len - 1) = ld8 m (dst + len - 1).
Proof.
  intros Hk Hne Hz Hd. unfold snstr.
  pose proof (snstr_loop_last (Z.to_nat len) m dst src (Z.to_nat k)) as H.
  rewrite !Z2Nat.id in H by lia. apply H; [lia| |done|lia].
  intros i Hi. apply Hne. lia.
Qed.

(** "abc" at 100 and L"ab" at 300, bytes 7 elsewhere in use. *)
Definition demo_mem : gmap Z Z :=
  list_to_map [(100, 97); (101, 98); (102, 99); (204, 7); (300, 97); (302, 98)].

Lemma demo_cstring : cstring demo_mem 100 [97; 98; 99].
Proof. by repeat (apply cstring_cons; split_and!; [by vm_compute|done|]); apply cstring_nil; vm_compute. Qed.

Lemma memmove_correct_witness : 0 <= 3 /\ ld8 (memmove demo_mem 101 100 3) 103 = 99.
Proof. split; [lia|]. rewrite (memmove_correct demo_mem 101 100 3 103) by lia. by vm_compute. Defined.

Lemma safestrcpy_terminates_in_buffer_witness :
  cstring (safestrcpy demo_mem 202 100 3) 202 [97; 98] /\ ld8 (safestrcpy demo_mem 202 100 3) 205 = 0.
Proof.
  destruct (safestrcpy_terminates_in_buffer demo_mem 202 100 3 [97; 98; 99] demo_cstring) as [H1 H2]; [lia|simpl; lia|].
  split; [exact H1|]. rewrite H2 by lia. by vm_compute.
Defined.

Lemma strlen_correct_witness : strlen demo_mem 100 = Some 3.
Proof. exact (strlen_correct demo_mem 100 [97; 98; 99] demo_cstring). Defined.

Lemma snstr_leaves_last_byte_witness : ld8 (snstr demo_mem 200 300 5) 204 = 7.
Proof.
  change 204 with (200 + 5 - 1). rewrite (snstr_leaves_last_byte demo_mem 200 300 5 2); [by vm_compute|lia| |by vm_compute|lia].
  intros i Hi. assert (i = 0 \/ i = 1) as [-> | ->] by lia; by vm_compute.
Defined.

(** Clients reason with the lemmas above; conversion never runs the loops. *)
#[global] Opaque memset memmove.
