(* ===== verification/Spinlock.v ===== *)
(** * Spinlocks and interrupt nesting (src/kernel/lock/spinlock.c)

    Two views of the same code.  [Module Hart] is the sequential view of one
    hart between traps: [push_off]/[pop_off] nest interrupt disabling and
    [acquire]/[release] maintain the set of locks this hart holds; the other
    components run their critical sections in this view, so a double acquire,
    an unbalanced release or a [pop_off] with interrupts on shows up as a
    panic.  [Module Smp] is the concurrent view: every hart runs the
    individual memory operations of [acquire] and [release], interleaved
    arbitrarily, and the locks are shown to exclude each other. *)

From S2P Require Import Prelude Riscv.

(** Names of the spinlocks of the kernel. *)
Inductive lockid : Type :=
| L_kmem (i : Z)         (** kmem[i].lock *)
| L_cow_map              (** cow_map.lock *)
| L_slab (i : Z)         (** slab_buckets[i].lock *)
| L_pid                  (** pid_lock *)
| L_proc (i : Z)         (** proc[i].lock *)
| L_ftable               (** ftable.lock *)
| L_pipe (pi : Z)        (** the lock of the pipe at this address *)
| L_object (o : Z)       (** mmap_object, anon_object and kbuf locks *)
| L_bcache (i : Z)       (** bcache.buckets[i].lock *)
| L_cons                 (** cons.lock *)
| L_ticks                (** tickslock *)
| L_ecache               (** ecache.lock *)
| L_uarths_rx            (** uarths_rx.lock *)
| L_uarths_tx            (** uarths_tx.lock *)
| L_pr.                  (** pr.lock *)

#[export] Instance lockid_eq_dec : EqDecision lockid.
Proof. solve_decision. Defined.

Module Hart.

(** The part of [struct cpu] that the locks use, the SIE bit of [sstatus] and
    the locks whose [lk->locked && lk->cpu == mycpu()] holds. *)
Record lkst := Lkst {
  noff : Z;               (** depth of push_off() nesting *)
  intena : bool;          (** were interrupts enabled before push_off()? *)
  sie : bool;             (** sstatus.SIE *)
  held : list lockid;
}.

Definition intr_on (s : lkst) : lkst := Lkst (noff s) (intena s) true (held s).
Definition intr_off (s : lkst) : lkst := Lkst (noff s) (intena s) false (held s).
Definition intr_get (s : lkst) : bool := sie s.

Definition holding (lk : lockid) (s : lkst) : bool := bool_decide (lk ∈ held s).

Definition push_off_st (s : lkst) : lkst :=
  let old := intr_get s in
  let s := intr_off s in
  Lkst (noff s + 1) (if noff s =? 0 then old else intena s) (sie s) (held s).

Definition push_off : M lkst unit := modify push_off_st.

Definition pop_off : M lkst unit :=
  s <- get ;;
  if intr_get s then panic "pop_off - interruptible"
  else if noff s <? 1 then panic "pop_off"
  else
    let s1 := Lkst (noff s - 1) (intena s) (sie s) (held s) in
    modify (fun _ => if (noff s1 =? 0) && intena s1 then intr_on s1 else s1).

Definition acquire (lk : lockid) : M lkst unit :=
  push_off ;;
  h <- gets (holding lk) ;;
  if h then panic "acquire"
  else modify (fun s => Lkst (noff s) (intena s) (sie s) (lk :: held s)).

Definition release (lk : lockid) : M lkst unit :=
  h <- gets (holding lk) ;;
  if negb h then panic "release"
  else
    modify (fun s => Lkst (noff s) (intena s) (sie s) (filter (fun l => l <> lk) (held s))) ;;
    pop_off.

(** [lk->locked = 0; lk->cpu = 0]. *)
Definition initlock (lk : lockid) : M lkst unit :=
  modify (fun s => Lkst (noff s) (intena s) (sie s) (filter (fun l => l <> lk) (held s))).

(** Interrupts are off inside a critical section, the nesting depth accounts
    for every held lock and no lock is recorded twice. *)
Definition lk_ok (s : lkst) : Prop :=
  Z.of_nat (length (held s)) <= noff s /\ (0 < noff s -> sie s = false) /\ NoDup (held s).

(** Same nesting, same interrupt state, same locks ([intena] may differ: it is
    only meaningful while [noff] is positive). *)
Definition lk_same (s s' : lkst) : Prop :=
  noff s' = noff s /\ sie s' = sie s /\ held s' = held s /\ (0 < noff s -> intena s' = intena s).

#[export] Instance lk_same_equiv : PreOrder lk_same.
Proof.
  split.
  - by intros s.
  - intros s1 s2 s3 (H1 & H2 & H3 & H4) (K1 & K2 & K3 & K4). repeat split; try congruence.
    intros H. rewrite K4 by lia. by apply H4.
Qed.

Lemma lk_same_ok s s' : lk_same s s' -> lk_ok s -> lk_ok s'.
Proof. intros (H1 & H2 & H3 & _) (? & ? & ?). unfold lk_ok. rewrite H1, H2, H3. done. Qed.

(** State after taking [lk]: what the critical section sees. *)
Definition taken (lk : lockid) (s s' : lkst) : Prop :=
  noff s' = noff s + 1 /\ sie s' = false /\ held s' = lk :: held s /\
  intena s' = (if noff s =? 0 then sie s else intena s).

Lemma acquire_wp lk s :
  lk ∉ held s ->
  wp (acquire lk) (fun _ s' => taken lk s s') s.
Proof.
  intros Hn. unfold acquire, push_off. wp_go. simpl.
  unfold holding. simpl. rewrite bool_decide_eq_false_2 by done. by wp_go.
Qed.

Lemma filter_ne_cons lk (l : list lockid) :
  lk ∉ l -> filter (fun x => x <> lk) (lk :: l) = l.
Proof.
  intros Hn. rewrite filter_cons_False by naive_solver.
  induction l as [|x l IH]; [done|]. apply not_elem_of_cons in Hn as [? ?].
  rewrite filter_cons_True by done. f_equal. by apply IH.
Qed.

Lemma release_wp lk s0 s :
  lk_ok s0 -> lk ∉ held s0 -> taken lk s0 s ->
  wp (release lk) (fun _ s' => lk_same s0 s') s.
Proof.
  intros (Hlen & Hsie & Hnd) Hn (H1 & H2 & H3 & H4). unfold release, pop_off. wp_go. simpl.
  unfold holding. rewrite H3, bool_decide_eq_true_2 by set_solver. simpl. wp_go.
  simpl. unfold intr_get. simpl. rewrite H2, H1, H4.
  assert (Hlt : (noff s0 + 1 <? 1) = false) by (apply Z.ltb_ge; lia). rewrite Hlt. wp_go. simpl.
  rewrite H3, filter_ne_cons by done.
  replace (noff s0 + 1 - 1) with (noff s0) by lia.
  destruct (Z.eqb_spec (noff s0) 0) as [E|E]; simpl.
  - destruct (sie s0) eqn:Es; simpl; repeat split; simpl; try congruence; intros; lia.
  - repeat split; simpl; try done. rewrite Hsie by lia. done.
Qed.

(** A critical section: take the lock, run a body that leaves the lock state
    alone, give the lock back. *)
Lemma lk_ok_taken lk s s' : lk_ok s -> lk ∉ held s -> taken lk s s' -> lk_ok s'.
Proof.
  intros (Hlen & Hsie & Hnd) Hn (H1 & H2 & H3 & H4). unfold lk_ok. rewrite H1, H3. simpl.
  split_and!; [lia|done|by constructor].
Qed.

(** State after [push_off]: interrupts off, the old setting remembered. *)
Definition pushed (s s' : lkst) : Prop :=
  noff s' = noff s + 1 /\ sie s' = false /\ held s' = held s /\
  intena s' = (if noff s =? 0 then sie s else intena s).

Lemma push_off_wp s : wp push_off (fun _ s' => pushed s s') s.
Proof. unfold push_off. wp_go. by unfold push_off_st, intr_off, intr_get. Qed.

Lemma lk_ok_pushed s s' : lk_ok s -> pushed s s' -> lk_ok s'.
Proof.
  intros (Hlen & Hsie & Hnd) (H1 & H2 & H3 & H4). unfold lk_ok. rewrite H1, H3. split_and!; [lia|done|done].
Qed.

Lemma pushed_same s s1 s2 : lk_ok s -> pushed s s1 -> lk_same s1 s2 -> pushed s s2.
Proof.
  intros (Hlen & _) (H1 & H2 & H3 & H4) (K1 & K2 & K3 & K4). unfold pushed. rewrite K1, K2, K3, K4 by lia. done.
Qed.

Lemma pop_off_wp s0 s :
  lk_ok s0 -> pushed s0 s -> wp pop_off (fun _ s' => lk_same s0 s') s.
Proof.
  intros (Hlen & Hsie & Hnd) (H1 & H2 & H3 & H4). unfold pop_off. wp_go. unfold intr_get. rewrite H2, H1.
  assert (Hlt : (noff s0 + 1 <? 1) = false) by (apply Z.ltb_ge; lia). rewrite Hlt. wp_go. simpl.
  rewrite H4. replace (noff s0 + 1 - 1) with (noff s0) by lia.
  destruct (Z.eqb_spec (noff s0) 0) as [E|E]; simpl.
  - destruct (sie s0) eqn:Es; simpl; repeat split; simpl; try congruence; intros; lia.
  - repeat split; simpl; try done; try congruence. rewrite Hsie by lia. done.
Qed.

(** Interrupt nesting is balanced.  From any consistent lock state,
    [acquire] followed by [release] of a lock this hart does not hold cannot
    panic, runs with interrupts off in between, and restores the nesting depth,
    the interrupt enable bit and the set of held locks. *)
Theorem acquire_release_balanced lk s :
  lk_ok s -> lk ∉ held s ->
  exists s1 s2, acquire lk s = Ok tt s1 /\ sie s1 = false /\ holding lk s1 = true /\
    release lk s1 = Ok tt s2 /\ noff s2 = noff s /\ sie s2 = sie s /\ held s2 = held s.
Proof.
  intros Hok Hn. destruct (wp_Ok _ _ _ (acquire_wp lk s Hn)) as ([] & s1 & E1 & Ht).
  destruct (wp_Ok _ _ _ (release_wp lk s s1 Hok Hn Ht)) as ([] & s2 & E2 & H1 & H2 & H3 & _).
  pose proof Ht as (_ & T2 & T3 & _).
  exists s1, s2. split_and!; try done. unfold holding. rewrite T3. apply bool_decide_eq_true_2. set_solver.
Qed.

Lemma acquire_release_balanced_witness :
  let s := Lkst 1 true false [L_pid] in
  exists s1 s2, acquire L_cow_map s = Ok tt s1 /\ sie s1 = false /\ holding L_cow_map s1 = true /\
    release L_cow_map s1 = Ok tt s2 /\ noff s2 = noff s /\ sie s2 = sie s /\ held s2 = held s.
Proof.
  apply (acquire_release_balanced L_cow_map (Lkst 1 true false [L_pid])).
  - unfold lk_ok. simpl. split_and!; [lia|done|apply NoDup_singleton].
  - simpl. apply not_elem_of_cons. split; [done|apply not_elem_of_nil].
Defined.

End Hart.

(** ** The interleaving of several harts *)

Module Smp.

(** [struct spinlock]: [cpu] is the address of a [struct cpu], here its index;
    [nts] and [n] are the LAB_LOCK contention counters. *)
Record spinlock := Spinlock { locked : Z; cpu : option Z; nts : Z; n : Z }.

Definition initlock : spinlock := Spinlock 0 None 0 0.

(** Where a hart stands inside [acquire]/[release]. *)
Inductive pc :=
| Running            (** outside both functions *)
| Spinning (l : lockid)   (** acquire: before the test-and-set *)
| Taken (l : lockid)      (** acquire: test-and-set returned 0, lk->cpu not yet set *)
| Releasing (l : lockid). (** release: lk->cpu cleared, lk->locked not yet *)

Record state := State {
  lock : lockid -> spinlock;
  at_pc : Z -> pc;
  holds : Z -> list lockid;   (** locks between the end of acquire and the start of release *)
}.

Definition init : state := State (fun _ => initlock) (fun _ => Running) (fun _ => []).

Definition upd {A B} `{EqDecision A} (f : A -> B) (a : A) (b : B) : A -> B :=
  fun x => if decide (x = a) then b else f x.

Definition holding (s : state) (c : Z) (l : lockid) : bool :=
  negb (locked (lock s l) =? 0) && bool_decide (cpu (lock s l) = Some c).

(** The memory operations of [acquire] and [release], one constructor each. *)
Inductive event :=
| EnterAcquire (c : Z) (l : lockid)
| TestAndSet (c : Z)
| SetCpu (c : Z)
| EnterRelease (c : Z) (l : lockid)
| ClearLocked (c : Z).

(** [None]: the hart is not at that point of the code, or it panics
    ("acquire" when it already holds the lock, "release" when it does not). *)
Definition step (s : state) (e : event) : option state :=
  match e with
  | EnterAcquire c l =>
      match at_pc s c with
      | Running =>
          if holding s c l then None
          else
            let k := lock s l in
            Some (State (upd (lock s) l (Spinlock (locked k) (cpu k) (nts k) (n k + 1)))
                        (upd (at_pc s) c (Spinning l)) (holds s))
      | _ => None
      end
  | TestAndSet c =>
      match at_pc s c with
      | Spinning l =>
          let k := lock s l in
          if locked k =? 0
          then Some (State (upd (lock s) l (Spinlock 1 (cpu k) (nts k) (n k)))
                           (upd (at_pc s) c (Taken l)) (holds s))
          else Some (State (upd (lock s) l (Spinlock 1 (cpu k) (nts k + 1) (n k)))
                           (at_pc s) (holds s))
      | _ => None
      end
  | SetCpu c =>
      match at_pc s c with
      | Taken l =>
          let k := lock s l in
          Some (State (upd (lock s) l (Spinlock (locked k) (Some c) (nts k) (n k)))
                      (upd (at_pc s) c Running) (upd (holds s) c (l :: holds s c)))
      | _ => None
      end
  | EnterRelease c l =>
      match at_pc s c with
      | Running =>
          if holding s c l then
            let k := lock s l in
            Some (State (upd (lock s) l (Spinlock (locked k) None (nts k) (n k)))
                        (upd (at_pc s) c (Releasing l))
                        (upd (holds s) c (filter (fun x => x <> l) (holds s c))))
          else None
      | _ => None
      end
  | ClearLocked c =>
      match at_pc s c with
      | Releasing l =>
          let k := lock s l in
          Some (State (upd (lock s) l (Spinlock 0 (cpu k) (nts k) (n k)))
                      (upd (at_pc s) c Running) (holds s))
      | _ => None
      end
  end.

Inductive reachable : state -> Prop :=
| reach_init : reachable init
| reach_step s e s' : reachable s -> step s e = Some s' -> reachable s'.

(** Hart [c] is in possession of lock [l]. *)
Definition owns (s : state) (c : Z) (l : lockid) : Prop :=
  l ∈ holds s c \/ at_pc s c = Taken l \/ at_pc s c = Releasing l.

(** [own l] is the hart in possession of [l]; [lk->cpu] names it exactly while
    it is between the end of [acquire] and the start of [release]. *)
Definition lock_inv (s : state) (own : lockid -> option Z) (l : lockid) : Prop :=
  locked (lock s l) = (if own l then 1 else 0) /\
  (forall c, cpu (lock s l) = Some c -> own l = Some c) /\
  (forall c, l ∈ holds s c <-> cpu (lock s l) = Some c) /\
  (forall c, (at_pc s c = Taken l \/ at_pc s c = Releasing l) <->
             (own l = Some c /\ cpu (lock s l) = None)).

Definition inv (s : state) : Prop := exists own, forall l, lock_inv s own l.

Lemma upd_eq {A B} `{EqDecision A} (f : A -> B) a b : upd f a b a = b.
Proof. unfold upd. by rewrite decide_True. Qed.
Lemma upd_ne {A B} `{EqDecision A} (f : A -> B) a b x : x <> a -> upd f a b x = f x.
Proof. unfold upd. intros. by rewrite decide_False. Qed.

Lemma holding_iff s c l own : lock_inv s own l -> holding s c l = true <-> l ∈ holds s c.
Proof.
  intros (H1 & H2 & H3 & _). unfold holding. rewrite H3, andb_true_iff, negb_true_iff, Z.eqb_neq.
  rewrite bool_decide_eq_true, H1. split; [by intros [_ ?]|]. intros E. by rewrite (H2 _ E).
Qed.

Lemma inv_init : inv init.
Proof.
  exists (fun _ => None). intros l. unfold lock_inv. simpl. split_and!; [done|done|set_solver|naive_solver].
Qed.

(** Case split on every map update in sight. *)
Ltac upds :=
  unfold upd in *; simpl in *;
  repeat match goal with
  | H : context [decide (?x = ?y)] |- _ => destruct (decide (x = y)); subst; simpl in *
  | |- context [decide (?x = ?y)] => destruct (decide (x = y)); subst; simpl in *
  end.

Ltac fin := try done; try congruence; intuition congruence.

Lemma inv_acquire s c l s' : inv s -> step s (EnterAcquire c l) = Some s' -> inv s'.
Proof.
  intros [own Hinv] Hs. simpl in Hs. destruct (at_pc s c) eqn:Epc; try done.
  destruct (holding s c l); [done|]. simplify_eq. exists own. intros l'.
  destruct (Hinv l') as (I1 & I2 & I3 & I4). unfold lock_inv; simpl.
  split_and!; try (intros c'; specialize (I2 c'); specialize (I3 c'); specialize (I4 c')); upds; fin.
Qed.

Lemma inv_testandset s c s' : inv s -> step s (TestAndSet c) = Some s' -> inv s'.
Proof.
  intros [own Hinv] Hs. simpl in Hs. destruct (at_pc s c) as [|k|k|k] eqn:Epc; try done.
  destruct (Hinv k) as (K1 & K2 & K3 & K4).
  destruct (Z.eqb_spec (locked (lock s k)) 0) as [E0|E0]; simplify_eq.
  - assert (Ho : own k = None) by (destruct (own k); [lia|done]).
    assert (Hc : cpu (lock s k) = None).
    { destruct (cpu (lock s k)) as [d|] eqn:Ed; [|done]. specialize (K2 d eq_refl). congruence. }
    exists (upd own k (Some c)). intros l'. destruct (Hinv l') as (I1 & I2 & I3 & I4). unfold lock_inv; simpl.
    split_and!; try (intros c'; specialize (I2 c'); specialize (I3 c'); specialize (I4 c')); upds; fin.
  - exists own. intros l'. destruct (Hinv l') as (I1 & I2 & I3 & I4). unfold lock_inv; simpl.
    destruct (own k) eqn:Eo; [|lia].
    split_and!; try (intros c'; specialize (I2 c'); specialize (I3 c'); specialize (I4 c')); upds; fin.
Qed.

Lemma inv_setcpu s c s' : inv s -> step s (SetCpu c) = Some s' -> inv s'.
Proof.
  intros [own Hinv] Hs. simpl in Hs. destruct (at_pc s c) as [|k|k|k] eqn:Epc; try done.
  destruct (Hinv k) as (K1 & K2 & K3 & K4).
  assert (Hk : own k = Some c /\ cpu (lock s k) = None) by (apply K4; auto). destruct Hk as [Ho Hc].
  simplify_eq. exists own. intros l'. destruct (Hinv l') as (I1 & I2 & I3 & I4). unfold lock_inv; simpl.
  split_and!; try (intros c'; specialize (I2 c'); specialize (I3 c'); specialize (I4 c'));
    upds; rewrite ?elem_of_cons; fin.
Qed.

Lemma inv_release s c l s' : inv s -> step s (EnterRelease c l) = Some s' -> inv s'.
Proof.
  intros [own Hinv] Hs. simpl in Hs. destruct (at_pc s c) eqn:Epc; try done.
  destruct (holding s c l) eqn:Eh; [|done]. apply (holding_iff _ _ _ own) in Eh; [|done].
  destruct (Hinv l) as (K1 & K2 & K3 & K4). assert (Hc : cpu (lock s l) = Some c) by (by apply K3).
  assert (Ho : own l = Some c) by (by apply K2).
  simplify_eq. exists own. intros l'. destruct (Hinv l') as (I1 & I2 & I3 & I4). unfold lock_inv; simpl.
  split_and!; try (intros c'; specialize (I2 c'); specialize (I3 c'); specialize (I4 c'));
    upds; rewrite ?list_elem_of_filter; fin.
Qed.

Lemma inv_clear s c s' : inv s -> step s (ClearLocked c) = Some s' -> inv s'.
Proof.
  intros [own Hinv] Hs. simpl in Hs. destruct (at_pc s c) as [|k|k|k] eqn:Epc; try done.
  destruct (Hinv k) as (K1 & K2 & K3 & K4).
  assert (Hk : own k = Some c /\ cpu (lock s k) = None) by (apply K4; auto). destruct Hk as [Ho Hc].
  simplify_eq. exists (upd own k None). intros l'. destruct (Hinv l') as (I1 & I2 & I3 & I4).
  unfold lock_inv; simpl.
  split_and!; try (intros c'; specialize (I2 c'); specialize (I3 c'); specialize (I4 c'));
    upds; fin.
Qed.

Lemma inv_step s e s' : inv s -> step s e = Some s' -> inv s'.
Proof.
  destruct e; eauto using inv_acquire, inv_testandset, inv_setcpu, inv_release, inv_clear.
Qed.

Lemma reachable_inv s : reachable s -> inv s.
Proof. induction 1; [apply inv_init | by eapply inv_step]. Qed.

(** C21: mutual exclusion. In every interleaving of the memory operations of
    [acquire] and [release] on any number of harts, at most one hart is in
    possession of a lock, the lock word is 1 exactly while some hart is, and
    [holding] answers true exactly for the hart between the end of its
    [acquire] and the start of its [release]. *)
Theorem mutual_exclusion s l :
  reachable s ->
  (forall c c', owns s c l -> owns s c' l -> c = c') /\
  (forall c, owns s c l -> locked (lock s l) = 1) /\
  (locked (lock s l) = 0 -> forall c, ~ owns s c l) /\
  (forall c, holding s c l = true <-> l ∈ holds s c).
Proof.
  intros Hr. destruct (reachable_inv s Hr) as [own Hinv]. pose proof (Hinv l) as (H1 & H2 & H3 & H4).
  assert (Ho : forall c, owns s c l -> own l = Some c).
  { intros c [Hc|Hc]; [apply H2, H3, Hc|by apply H4]. }
  split_and!.
  - intros c c' Hc Hc'. pose proof (Ho c Hc). pose proof (Ho c' Hc'). congruence.
  - intros c Hc. by rewrite H1, (Ho c Hc).
  - intros H0 c Hc. rewrite H1, (Ho c Hc) in H0. done.
  - intros c. by apply (holding_iff s c l own).
Qed.

(** Two harts contend for [L_pid]: hart 0 has it, hart 1 spins. *)
Fixpoint run (s : state) (es : list event) : option state :=
  match es with
  | [] => Some s
  | e :: es' => match step s e with Some s' => run s' es' | None => None end
  end.

Lemma run_reachable es s s' : reachable s -> run s es = Some s' -> reachable s'.
Proof.
  revert s. induction es as [|e es IH]; intros s Hr; simpl; [by intros [= <-]|].
  destruct (step s e) as [s1|] eqn:E; [|done]. apply IH. by eapply reach_step.
Qed.

Definition contended : list event :=
  [EnterAcquire 0 L_pid; EnterAcquire 1 L_pid; TestAndSet 0; TestAndSet 1; SetCpu 0; TestAndSet 1].

Lemma mutual_exclusion_witness :
  exists s, run init contended = Some s /\ owns s 0 L_pid /\ at_pc s 1 = Spinning L_pid /\
    locked (lock s L_pid) = 1 /\ forall c, holding s c L_pid = true <-> L_pid ∈ holds s c.
Proof.
  eexists. split; [reflexivity|]. set (s := State _ _ _).
  assert (Hr : reachable s) by (apply (run_reachable contended init); [constructor|reflexivity]).
  destruct (mutual_exclusion s L_pid Hr) as (_ & H2 & _ & H4).
  assert (Ho : owns s 0 L_pid) by (left; apply H4; reflexivity).
  split; [exact Ho|]. split; [reflexivity|]. split; [exact (H2 0 Ho)|exact H4].
Defined.

End Smp.
