(* ===== verification/Kalloc.v ===== *)
(** * The physical page allocator (src/kernel/vm/kalloc.c)

    [kst] is the state the memory-management files share: byte memory, the
    per-CPU free lists [kmem[i].freelist] threaded through the free pages, the
    reference counts [cow_map.cow_quota], the slab buckets of kmalloc.c, the
    lock state of the running hart and its id.

    The invariant [kinv] says the free lists are disjoint, acyclic chains of
    exactly the pages whose reference count is 0; [PageAllocSpec] is the
    contract the clients (page tables, slabs, pipes, processes) use, and the
    functions of this file are its instance. *)

From S2P Require Import Prelude Riscv Memory Spinlock.
Import Hart.

(** [struct slab_bucket] of kmalloc.c (its lock is [L_slab i]). *)
Record slab_bucket := SlabBucket { sb_obj_size : Z; sb_slabs : Z }.
#[export] Instance slab_bucket_inhabited : Inhabited slab_bucket := populate (SlabBucket 0 0).

Record kst := Kst {
  k_mem : gmap Z Z;
  k_freelist : list Z;            (** kmem[i].freelist *)
  k_quota : gmap Z Z;             (** cow_map.cow_quota, an array of unsigned char *)
  k_buckets : list slab_bucket;   (** slab_buckets *)
  k_lk : lkst;
  k_cpu : Z;                      (** tp: the id of the running hart *)
}.

Definition set_mem (f : gmap Z Z -> gmap Z Z) (s : kst) : kst :=
  Kst (f (k_mem s)) (k_freelist s) (k_quota s) (k_buckets s) (k_lk s) (k_cpu s).
Definition set_freelist (f : list Z -> list Z) (s : kst) : kst :=
  Kst (k_mem s) (f (k_freelist s)) (k_quota s) (k_buckets s) (k_lk s) (k_cpu s).
Definition set_quota (f : gmap Z Z -> gmap Z Z) (s : kst) : kst :=
  Kst (k_mem s) (k_freelist s) (f (k_quota s)) (k_buckets s) (k_lk s) (k_cpu s).
Definition set_buckets (f : list slab_bucket -> list slab_bucket) (s : kst) : kst :=
  Kst (k_mem s) (k_freelist s) (k_quota s) (f (k_buckets s)) (k_lk s) (k_cpu s).
Definition set_lk (l : lkst) (s : kst) : kst :=
  Kst (k_mem s) (k_freelist s) (k_quota s) (k_buckets s) l (k_cpu s).

#[export] Instance kst_lk : Lens kst lkst := {| lget := k_lk; lput := set_lk |}.
#[export] Instance kst_lk_laws : LensLaws kst lkst.
Proof. split; [done | by intros [] | done]. Qed.

(** Memory accesses of kernel code. *)
Definition load8 (a : Z) : M kst Z := gets (fun s => ld8 (k_mem s) a).
Definition load32 (a : Z) : M kst Z := gets (fun s => ld32 (k_mem s) a).
Definition load64 (a : Z) : M kst Z := gets (fun s => ld64 (k_mem s) a).
Definition store8 (a v : Z) : M kst unit := modify (set_mem (fun m => st8 m a v)).
Definition store32 (a v : Z) : M kst unit := modify (set_mem (fun m => st32 m a v)).
Definition store64 (a v : Z) : M kst unit := modify (set_mem (fun m => st64 m a v)).
Definition do_memset (a c n : Z) : M kst unit := modify (set_mem (fun m => memset m a c n)).
Definition do_memmove (d s n : Z) : M kst unit := modify (set_mem (fun m => memmove m d s n)).

(** [cow_map.cow_quota[pa / PGSIZE]]. *)
Definition quota_at (q : gmap Z Z) (pa : Z) : Z := u8 (default 0 (q !! (pa / PGSIZE))).
Definition quota (s : kst) (pa : Z) : Z := quota_at (k_quota s) pa.
Definition put_quota (pa v : Z) : M kst unit :=
  modify (set_quota (fun q => <[pa / PGSIZE := u8 v]> q)).

Definition cpuid : M kst Z := gets k_cpu.

Section code.
Context {L : Linker}.

(** Not page aligned, below [end] or at or above [PHYSTOP]. *)
Definition bad_page (pa : Z) : bool :=
  negb (pa mod PGSIZE =? 0) || (pa <? kend) || (PHYSTOP <=? pa).

Definition kaddquota (pa : Z) : M kst unit :=
  if bad_page pa then panic "kfree"
  else
    zoom (acquire L_cow_map) ;;
    q <- gets (fun s => quota s pa) ;;
    put_quota pa (q + 1) ;;
    zoom (release L_cow_map).

Definition kgetquota (pa : Z) : M kst Z :=
  if bad_page pa then panic "kfree"
  else
    zoom (acquire L_cow_map) ;;
    q <- gets (fun s => quota s pa) ;;
    zoom (release L_cow_map) ;;
    ret q.

(** [cnt = --cow_quota[..]]: the array holds unsigned chars, so the value of
    the decrement is the wrapped byte. *)
Definition kfree_page_to (id pa : Z) : M kst unit :=
  if bad_page pa then panic "kfree_page"
  else
    zoom (acquire L_cow_map) ;;
    q <- gets (fun s => quota s pa) ;;
    put_quota pa (q - 1) ;;
    let cnt := u8 (q - 1) in
    zoom (release L_cow_map) ;;
    if cnt <? 0 then panic "kfree_page: negative quota"
    else if 0 <? cnt then ret tt
    else
      do_memset pa 1 PGSIZE ;;
      zoom (acquire (L_kmem id)) ;;
      head <- gets (fun s => k_freelist s !!! Z.to_nat id) ;;
      store64 pa head ;;
      modify (set_freelist (fun l => <[Z.to_nat id := pa]> l)) ;;
      zoom (release (L_kmem id)).

Definition kfree_page (pa : Z) : M kst unit :=
  zoom push_off ;;
  id <- cpuid ;;
  kfree_page_to id pa ;;
  zoom pop_off.

(** One locked pop of [kmem[id].freelist]; 0 when the list is empty. *)
Definition kmem_pop (id : Z) : M kst Z :=
  zoom (acquire (L_kmem id)) ;;
  r <- gets (fun s => k_freelist s !!! Z.to_nat id) ;;
  when (negb (r =? 0))
    (next <- load64 r ;;
     modify (set_freelist (fun l => <[Z.to_nat id := next]> l))) ;;
  zoom (release (L_kmem id)) ;;
  ret r.

(** The stealing loop: [for (n_id = 0; n_id < NCPU; n_id++)]. *)
Definition steal_body (id n_id : Z) : M kst (Z + Z) :=
  if n_id <? NCPU then
    if n_id =? id then ret (inl (n_id + 1))
    else
      r <- kmem_pop n_id ;;
      if negb (r =? 0) then ret (inr r) else ret (inl (n_id + 1))
  else ret (inr 0).

(** The part of [kalloc_page] between [push_off] and [pop_off]. *)
Definition kalloc_pick : M kst Z :=
  zoom push_off ;;
  id <- cpuid ;;
  r <- kmem_pop id ;;
  r <- (if r =? 0 then loop (Z.to_nat NCPU + 1) (steal_body id) 0 else ret r) ;;
  zoom pop_off ;;
  ret r.

Definition kalloc_page : M kst Z :=
  r <- kalloc_pick ;;
  if r =? 0 then ret r
  else
    zoom (acquire L_cow_map) ;;
    put_quota r 1 ;;
    zoom (release L_cow_map) ;;
    do_memset r 5 PGSIZE ;;
    ret r.

(** [while (r) { num++; r = r->next; }]; a chain visits a page at most once. *)
Definition count_body (x : Z * Z) : M kst (Z * Z + Z) :=
  let '(r, num) := x in
  if r =? 0 then ret (inr num)
  else next <- load64 r ;; ret (inl (next, num + 1)).

Definition PAGES : nat := Z.to_nat (PHYSTOP / PGSIZE).
Lemma PAGES_Z : Z.of_nat PAGES = PHYSTOP / PGSIZE.
Proof. unfold PAGES. rewrite Z2Nat.id; [done|]. by vm_compute. Qed.
#[global] Opaque PAGES.

Definition freemem_body (x : Z * Z) : M kst (Z * Z + Z) :=
  let '(id, num) := x in
  if id <? NCPU then
    zoom (acquire (L_kmem id)) ;;
    r <- gets (fun s => k_freelist s !!! Z.to_nat id) ;;
    num' <- loop (S PAGES) count_body (r, num) ;;
    zoom (release (L_kmem id)) ;;
    ret (inl (id + 1, num'))
  else ret (inr num).

Definition freemem : M kst Z :=
  num <- loop (Z.to_nat NCPU + 1) freemem_body (0, 0) ;;
  ret (u64 (s32 (num * PGSIZE))).

Definition freerange_body (pa_end : Z) (x : Z * Z) : M kst (Z * Z + unit) :=
  let '(p, id) := x in
  if p + PGSIZE <=? pa_end then
    put_quota p 1 ;;
    kfree_page_to id p ;;
    ret (inl (p + PGSIZE, (id + 1) mod NCPU))
  else ret (inr tt).

Definition freerange (pa_start pa_end : Z) : M kst unit :=
  loop (S PAGES) (freerange_body pa_end) (PGROUNDUP pa_start, 0).

Definition KMALLOC_MAX_SIZE : Z := 2048.
Definition slab_sizes : list Z := [16; 32; 64; 128; 256; 512; 1024; KMALLOC_MAX_SIZE].

(** kmalloc.c: one empty bucket per object size. *)
Definition kminit : M kst unit :=
  modify (set_buckets (fun _ => (fun sz => SlabBucket sz 0) <$> slab_sizes)).

Definition kinit : M kst unit :=
  zoom (initlock (L_kmem 0)) ;;
  zoom (initlock (L_kmem 1)) ;;
  zoom (initlock L_cow_map) ;;
  kminit ;;
  freerange kend PHYSTOP.

End code.

(** ** Invariant *)

Section inv.
Context {L : Linker}.

Definition page_ok (p : Z) : Prop := p mod PGSIZE = 0 /\ kend <= p < PHYSTOP.

(** The list of pages reached from [h] through the first word of each page. *)
Fixpoint chain (m : gmap Z Z) (h : Z) (l : list Z) : Prop :=
  match l with
  | [] => h = 0
  | p :: l' => h = p /\ h <> 0 /\ chain m (ld64 m p) l'
  end.

Record fl_inv (m : gmap Z Z) (fl : list Z) (ls : list (list Z)) : Prop := {
  fl_len : length fl = Z.to_nat NCPU;
  fl_chain : Forall2 (chain m) fl ls;
  fl_nodup : NoDup (concat ls);
  fl_pages : Forall page_ok (concat ls);
}.

(** No allocator lock is held by the running hart. *)
Definition unlocked (l : lkst) : Prop :=
  lk_ok l /\ L_cow_map ∉ held l /\ forall i, L_kmem i ∉ held l.

Record kinv (s : kst) : Prop := {
  ki_unlocked : unlocked (k_lk s);
  ki_cpu : 0 <= k_cpu s < NCPU;
  ki_lists : exists ls, fl_inv (k_mem s) (k_freelist s) ls /\
               forall p, page_ok p -> (p ∈ concat ls <-> quota s p = 0);
}.

(** What every operation leaves alone. *)
Definition kframe (s s' : kst) : Prop :=
  lk_same (k_lk s) (k_lk s') /\ k_cpu s' = k_cpu s /\ k_buckets s' = k_buckets s.

Lemma quota_range s p : 0 <= quota s p < 256.
Proof. apply u8_range. Qed.

Lemma unlocked_same l l' : lk_same l l' -> unlocked l -> unlocked l'.
Proof.
  intros Hs (H1 & H2 & H3). pose proof Hs as (_ & _ & Hh & _).
  split_and!; [by eapply lk_same_ok|by rewrite Hh|]. intros i. by rewrite Hh.
Qed.

Lemma unlocked_pushed l l' : pushed l l' -> unlocked l -> unlocked l'.
Proof.
  intros Hp (H1 & H2 & H3). pose proof Hp as (_ & _ & Hh & _).
  split_and!; [by eapply lk_ok_pushed|by rewrite Hh|]. intros i. by rewrite Hh.
Qed.

#[export] Instance kframe_preorder : PreOrder kframe.
Proof.
  split.
  - intros s. by split_and!.
  - intros s1 s2 s3 (H1 & H2 & H3) (K1 & K2 & K3). split_and!; [by etrans|congruence|congruence].
Qed.

Lemma page_ok_div p q : page_ok p -> page_ok q -> p <> q -> p / PGSIZE <> q / PGSIZE.
Proof. intros [Hp _] [Hq _] Hne. unfold PGSIZE in *. dlia. Qed.

Lemma page_ok_disjoint p q a :
  page_ok p -> page_ok q -> p <> q -> p <= a < p + PGSIZE -> ~ q <= a < q + PGSIZE.
Proof. intros [Hp _] [Hq _] Hne. unfold PGSIZE in *. dlia. Qed.

Lemma bad_page_false p : bad_page p = false <-> page_ok p.
Proof.
  unfold bad_page, page_ok. rewrite !orb_false_iff, negb_false_iff, Z.eqb_eq, Z.ltb_ge, Z.leb_gt. lia.
Qed.

Lemma fl_lookup m fl ls i :
  fl_inv m fl ls -> 0 <= i < NCPU ->
  exists h l, fl !! Z.to_nat i = Some h /\ fl !!! Z.to_nat i = h /\ ls !! Z.to_nat i = Some l /\ chain m h l.
Proof.
  intros [Hlen Hch _ _] Hi.
  destruct (lookup_lt_is_Some_2 fl (Z.to_nat i)) as [h Hh]; [lia|].
  destruct (Forall2_lookup_l _ _ _ _ _ Hch Hh) as [l [Hl Hc]].
  exists h, l. split_and!; try done. by apply list_lookup_total_correct.
Qed.

Lemma chain_ext m m' h l : (forall p, p ∈ l -> ld64 m' p = ld64 m p) -> chain m h l -> chain m' h l.
Proof.
  revert h. induction l as [|p l IH]; intros h He; [done|]. intros (-> & Hne & Hc).
  simpl. split_and!; [done|done|]. rewrite He by set_solver. apply IH; [set_solver|done].
Qed.

Lemma fl_inv_ext m m' fl ls :
  (forall p, p ∈ concat ls -> ld64 m' p = ld64 m p) -> fl_inv m fl ls -> fl_inv m' fl ls.
Proof.
  intros He [Hlen Hch Hnd Hpg]. split; try done.
  apply Forall2_lookup. intros i. rewrite Forall2_lookup in Hch. specialize (Hch i).
  destruct (ls !! i) as [l|] eqn:El; inversion Hch; simplify_eq; constructor.
  eapply chain_ext; [|done]. intros p Hp. apply He. apply list_elem_of_In, in_concat.
  exists l. split; [apply list_elem_of_In; by eapply list_elem_of_lookup_2|by apply list_elem_of_In].
Qed.

Lemma fl_inv_pop m fl ls i r l :
  fl_inv m fl ls -> ls !! i = Some (r :: l) ->
  fl_inv m (<[i := ld64 m r]> fl) (<[i := l]> ls) /\ r ∉ concat (<[i := l]> ls) /\
  concat ls ≡ₚ r :: concat (<[i := l]> ls) /\ fl !! i = Some r /\ page_ok r.
Proof.
  intros [Hlen Hch Hnd Hpg] Hi.
  assert (Hp : concat ls ≡ₚ r :: concat (<[i := l]> ls)).
  { rewrite (concat_lookup_Permutation _ _ _ Hi). simpl. constructor.
    by rewrite (NoDup_concat_insert _ _ _ _ Hi). }
  destruct (Forall2_lookup_r _ _ _ _ _ Hch Hi) as [h [Hh [-> [Hne Hc]]]].
  rewrite Hp in Hnd, Hpg. apply NoDup_cons in Hnd as [Hr Hnd]. apply Forall_cons in Hpg as [Hok Hpg].
  split_and!; try done. split; try done.
  - by rewrite length_insert.
  - by apply Forall2_insert.
Qed.

Lemma fl_inv_push m fl ls i l p :
  fl_inv m fl ls -> ls !! i = Some l -> page_ok p -> 0 < kend -> p ∉ concat ls ->
  fl_inv (st64 m p (fl !!! i)) (<[i := p]> fl) (<[i := p :: l]> ls) /\
  concat (<[i := p :: l]> ls) ≡ₚ p :: concat ls.
Proof.
  intros Hinv Hi Hok Hend Hnotin.
  assert (Hp : concat (<[i := p :: l]> ls) ≡ₚ p :: concat ls).
  { rewrite (NoDup_concat_insert _ _ _ _ Hi). simpl. by rewrite <- (concat_lookup_Permutation _ _ _ Hi). }
  assert (Hmem : forall q, q ∈ concat ls -> ld64 (st64 m p (fl !!! i)) q = ld64 m q).
  { intros q Hq. destruct Hinv as [_ _ _ Hpg]. rewrite Forall_forall in Hpg. specialize (Hpg _ Hq).
    apply ld64_st64_ne. assert (p <> q) by naive_solver.
    destruct Hok as [Hp1 Hp2], Hpg as [Hq1 Hq2]. unfold PGSIZE in *. dlia. }
  pose proof (fl_inv_ext _ _ _ _ Hmem Hinv) as [Hlen Hch Hnd Hpg].
  split; [|done]. split.
  - by rewrite length_insert.
  - apply Forall2_insert; [done|]. cbn [chain]. split_and!; [done|destruct Hok; lia|].
    destruct (Forall2_lookup_r _ _ _ _ _ Hch Hi) as [h [Hh Hc]].
    rewrite (list_lookup_total_correct _ _ _ Hh) in *. rewrite ld64_st64_eq.
    assert (0 <= h < 2 ^ 64).
    { destruct l as [|q l]; simpl in Hc; [lia|]. destruct Hc as (-> & _ & _).
      rewrite (concat_lookup_Permutation _ _ _ Hi) in Hpg. simpl in Hpg. apply Forall_cons in Hpg as [[_ ?] _].
      unfold PHYSTOP in *. lia. }
    by rewrite u64_small.
  - rewrite Hp. by constructor.
  - rewrite Hp. by constructor.
Qed.

End inv.

(** ** Symbolic execution of lock operations and memory accesses *)

Lemma wp_acquire lk Q s :
  lk ∉ held (k_lk s) ->
  (forall l, taken lk (k_lk s) l -> Q tt (set_lk l s)) -> wp (zoom (acquire lk)) Q s.
Proof.
  intros Hn HQ. apply wp_zoom. eapply wp_mono; [by apply acquire_wp|]. intros [] l Hl. by apply HQ.
Qed.

Lemma wp_release lk l0 (Q : unit -> kst -> Prop) s :
  lk_ok l0 -> lk ∉ held l0 -> taken lk l0 (k_lk s) ->
  (forall l, lk_same l0 l -> Q tt (set_lk l s)) -> wp (zoom (release lk)) Q s.
Proof.
  intros Hok Hn Ht HQ. apply wp_zoom. eapply wp_mono; [by eapply release_wp|]. intros [] l Hl. by apply HQ.
Qed.

Lemma wp_push_off (Q : unit -> kst -> Prop) s :
  (forall l, pushed (k_lk s) l -> Q tt (set_lk l s)) -> wp (zoom push_off) Q s.
Proof. intros HQ. apply wp_zoom. eapply wp_mono; [apply push_off_wp|]. intros [] l Hl. by apply HQ. Qed.

Lemma wp_pop_off l0 (Q : unit -> kst -> Prop) s :
  lk_ok l0 -> pushed l0 (k_lk s) ->
  (forall l, lk_same l0 l -> Q tt (set_lk l s)) -> wp (zoom pop_off) Q s.
Proof.
  intros Hok Hp HQ. apply wp_zoom. eapply wp_mono; [by eapply pop_off_wp|]. intros [] l Hl. by apply HQ.
Qed.

Ltac wp_prim ::=
  lazymatch goal with
  | |- wp (put_quota _ _) _ _ => unfold put_quota
  | |- wp cpuid _ _ => unfold cpuid
  | |- wp (load8 _) _ _ => unfold load8
  | |- wp (load32 _) _ _ => unfold load32
  | |- wp (load64 _) _ _ => unfold load64
  | |- wp (store8 _ _) _ _ => unfold store8
  | |- wp (store32 _ _) _ _ => unfold store32
  | |- wp (store64 _ _) _ _ => unfold store64
  | |- wp (do_memset _ _ _) _ _ => unfold do_memset
  | |- wp (do_memmove _ _ _) _ _ => unfold do_memmove
  end.

(** [quota] after an update of the array. *)
Lemma quota_at_insert q p v r :
  quota_at (<[p / PGSIZE := u8 v]> q) r = if p / PGSIZE =? r / PGSIZE then u8 v else quota_at q r.
Proof.
  unfold quota_at. destruct (Z.eqb_spec (p / PGSIZE) (r / PGSIZE)) as [->|Hne].
  - rewrite lookup_insert_eq. apply u8_u8.
  - by rewrite lookup_insert_ne.
Qed.

Section spec.
Context {L : Linker}.

Lemma quota_insert_ok q p v r :
  page_ok p -> page_ok r ->
  quota_at (<[p / PGSIZE := u8 v]> q) r = if p =? r then u8 v else quota_at q r.
Proof.
  intros Hp Hr. rewrite quota_at_insert. destruct (Z.eqb_spec p r) as [->|Hne].
  - by rewrite Z.eqb_refl.
  - pose proof (page_ok_div _ _ Hp Hr Hne). by destruct (Z.eqb_spec (p / PGSIZE) (r / PGSIZE)).
Qed.

(** ** The allocator's functions, lock by lock *)

Lemma kmem_pop_spec id s ls :
  unlocked (k_lk s) -> 0 <= id < NCPU -> fl_inv (k_mem s) (k_freelist s) ls ->
  wp (kmem_pop id) (fun r s' =>
    exists l, lk_same (k_lk s) l /\
    ((r = 0 /\ ls !! Z.to_nat id = Some [] /\ s' = set_lk l s) \/
     (exists t, ls !! Z.to_nat id = Some (r :: t) /\ page_ok r /\ r <> 0 /\
        s' = set_lk l (set_freelist (fun _ => <[Z.to_nat id := ld64 (k_mem s) r]> (k_freelist s)) s)))) s.
Proof.
  intros (Hok & Hcow & Hkm) Hid Hfl. destruct s as [m fl q b lk c]; simpl in *.
  unfold kmem_pop. wp_step. apply wp_acquire; [apply Hkm|]. intros l1 Hl1. simpl in *.
  wp_step. wp_step. simpl.
  destruct (fl_lookup _ _ _ _ Hfl Hid) as (h & t & Hh & Hht & Ht & Hc). rewrite Hht.
  wp_step. wp_step; breflect.
  - wp_go. simpl. eapply wp_release; [done|apply Hkm|done|]. intros l2 Hl2. wp_go. simpl.
    exists l2. split; [done|]. right. destruct t as [|p t]; [simpl in Hc; lia|].
    destruct Hc as (-> & Hne & Hc). exists t.
    destruct (fl_inv_pop _ _ _ _ _ _ Hfl Ht) as (_ & _ & _ & _ & Hpok). by split_and!.
  - wp_go. eapply wp_release; [done|apply Hkm|done|]. intros l2 Hl2. wp_go. simpl.
    exists l2. split; [done|]. left. destruct t as [|p t]; [done|]. destruct Hc as (-> & Hne & _). lia.
Qed.

(** The state of the lists after one page was taken out of one of them. *)
Definition popped (s s' : kst) (r : Z) : Prop :=
  kframe s s' /\ k_mem s' = k_mem s /\ k_quota s' = k_quota s /\
  ((r = 0 /\ k_freelist s' = k_freelist s /\ (forall p, page_ok p -> quota s p <> 0)) \/
   (r <> 0 /\ page_ok r /\ quota s r = 0 /\
    exists ls', fl_inv (k_mem s) (k_freelist s') ls' /\ r ∉ concat ls' /\
      forall p, page_ok p -> (p ∈ concat ls' <-> quota s p = 0 /\ p <> r))).

Lemma popped_from s ls ls' r fl :
  (forall p, page_ok p -> (p ∈ concat ls <-> quota s p = 0)) ->
  page_ok r -> fl_inv (k_mem s) fl ls' -> r ∉ concat ls' -> concat ls ≡ₚ r :: concat ls' ->
  quota s r = 0 /\ forall p, page_ok p -> (p ∈ concat ls' <-> quota s p = 0 /\ p <> r).
Proof.
  intros Hq Hr Hfl Hni Hperm. split.
  - apply Hq; [done|]. rewrite Hperm. set_solver.
  - intros p Hp. rewrite <- (Hq p Hp), Hperm, elem_of_cons. split; [|naive_solver].
    intros Hin. split; [by right|]. by intros ->.
Qed.

(** The scan of the other CPUs' lists in [kalloc_page]. *)
Lemma steal_spec id s ls :
  unlocked (k_lk s) -> fl_inv (k_mem s) (k_freelist s) ls ->
  (forall p, page_ok p -> (p ∈ concat ls <-> quota s p = 0)) ->
  ls !! Z.to_nat id = Some [] -> 0 <= id < NCPU ->
  wp (loop (Z.to_nat NCPU + 1) (steal_body id) 0) (fun r s' => popped s s' r) s.
Proof.
  intros Hu Hfl Hq Hempty Hid.
  eapply (wp_loop
    (fun n s' => 0 <= n <= NCPU /\ (exists l, lk_same (k_lk s) l /\ s' = set_lk l s) /\
                 forall j, 0 <= j < n -> ls !! Z.to_nat j = Some [])
    (fun n => Z.to_nat (NCPU - n))); [|split_and!; [lia|unfold NCPU; lia| |intros; lia]|unfold NCPU; lia].
  - intros n s' (Hn & (l & Hl & ->) & Hall). unfold steal_body. destruct (Z.ltb_spec n NCPU).
    + destruct (Z.eqb_spec n id) as [->|Hne].
      * wp_go. split_and!; [unfold NCPU in *; lia|unfold NCPU in *; lia|by exists l| |unfold NCPU in *; lia].
        intros j Hj. destruct (decide (j = id)) as [->|]; [done|apply Hall; lia].
      * wp_go. eapply wp_mono; [apply (kmem_pop_spec n _ ls); [by eapply unlocked_same|lia|done]|].
        intros r s1 (l1 & Hl1 & [(-> & Hls & ->)|(t & Hls & Hok & Hne0 & ->)]); simpl.
        -- wp_go. simpl in Hl1. split_and!; [lia|unfold NCPU in *; lia| | |unfold NCPU in *; lia].
           ++ exists l1. split; [by etrans|done].
           ++ intros j Hj. destruct (decide (j = n)) as [->|]; [done|apply Hall; lia].
        -- destruct (Z.eqb_spec r 0); [done|]. wp_go. simpl in Hl1.
           destruct (fl_inv_pop _ _ _ _ _ _ Hfl Hls) as (Hfl' & Hni & Hperm & _ & _).
           destruct (popped_from s ls _ r _ Hq Hok Hfl' Hni Hperm) as [Hq0 Hq1].
           split_and!; [split_and!; simpl; [by etrans|done|done]|done|done|].
           right. split_and!; try done. by eexists.
    + wp_go. assert (n = NCPU) as -> by lia.
      split_and!; [split_and!; simpl; [done|done|done]|done|done|]. left. split_and!; [done|done|].
      intros p Hp H0. apply (Hq p Hp) in H0.
      assert (Hnil : concat ls = []).
      { apply concat_nil_Forall. rewrite Forall_forall. intros l' Hl'.
        apply list_elem_of_lookup in Hl' as [j Hj]. pose proof (lookup_lt_Some _ _ _ Hj).
        destruct Hfl as [Hlen Hch _ _]. apply Forall2_length in Hch.
        specialize (Hall (Z.of_nat j)). rewrite Nat2Z.id in Hall.
        assert (ls !! j = Some []) by (apply Hall; unfold NCPU in *; lia). congruence. }
      rewrite Hnil in H0. set_solver.
  - by exists (k_lk s); destruct s.
Qed.

(** Memory may be written anywhere but in the free pages. *)
Lemma kinv_mem s m' :
  (forall p a, page_ok p -> quota s p = 0 -> p <= a < p + 8 -> ld8 m' a = ld8 (k_mem s) a) ->
  kinv s -> kinv (set_mem (fun _ => m') s).
Proof.
  intros Hm [Hu Hc (ls & Hfl & Hq)]. split; [done|done|]. exists ls. split; [|done].
  simpl. eapply fl_inv_ext; [|done]. intros p Hp. apply ld64_ext. intros a Ha.
  assert (Hok : page_ok p) by (destruct Hfl as [_ _ _ Hpg]; rewrite Forall_forall in Hpg; by apply Hpg).
  apply (Hm p); [done|by apply Hq|lia].
Qed.

(** The result of an allocation: no page is free and nothing changed, or [r]
    was free and is now the caller's, filled with 5s, and nothing else moved. *)
Definition alloc_post (s : kst) (r : Z) (s' : kst) : Prop :=
  kinv s' /\ kframe s s' /\
  ((r = 0 /\ k_mem s' = k_mem s /\ k_quota s' = k_quota s /\ forall p, page_ok p -> quota s p <> 0) \/
   (page_ok r /\ r <> 0 /\ quota s r = 0 /\ quota s' r = 1 /\
    (forall p, page_ok p -> p <> r -> quota s' p = quota s p) /\
    k_mem s' = memset (k_mem s) r 5 PGSIZE)).

Lemma kalloc_pick_spec s : kinv s -> wp kalloc_pick (fun r s' => popped s s' r) s.
Proof.
  intros [Hu Hc (ls & Hfl & Hq)]. pose proof Hu as (Hok & _). unfold kalloc_pick.
  wp_step. apply wp_push_off. intros l1 Hl1. wp_step. wp_step. wp_step. simpl. wp_step.
  eapply wp_mono; [apply (kmem_pop_spec _ _ ls); [by eapply unlocked_pushed|done|done]|].
  intros r s1 (l2 & Hl2 & [(-> & Hls & ->)|(t & Hls & Hpok & Hne & ->)]); simpl in *.
  - wp_step. eapply wp_mono; [apply (steal_spec _ _ ls); try done;
      [eapply unlocked_same; [done|]; by eapply unlocked_pushed]|].
    intros r s2 ((Hf1 & Hf2 & Hf3) & Hm & Hqq & Hres). simpl in *.
    wp_step. eapply wp_pop_off; [done| |].
    { eapply pushed_same; [done|done|]. by etrans. }
    intros l3 Hl3. wp_go. destruct s as [m fl q b lk c], s2 as [m2 fl2 q2 b2 lk2 c2]; simpl in *.
    split_and!; [by split_and!|done|done|]. done.
  - destruct (Z.eqb_spec r 0); [done|]. wp_go. eapply wp_pop_off; [done| |].
    { simpl. by eapply pushed_same. }
    intros l3 Hl3. wp_go.
    destruct (fl_inv_pop _ _ _ _ _ _ Hfl Hls) as (Hfl' & Hni & Hperm & _ & _).
    destruct (popped_from s ls _ r _ Hq Hpok Hfl' Hni Hperm) as [Hq0 Hq1].
    split_and!; [by split_and!|done|done|]. right. split_and!; try done. by eexists.
Qed.

Lemma kalloc_page_wp s : kinv s -> wp kalloc_page (fun r s' => alloc_post s r s') s.
Proof.
  intros Hinv. pose proof Hinv as [Hu Hc (ls & Hfl & Hq)]. unfold kalloc_page. wp_step.
  eapply wp_mono; [by apply kalloc_pick_spec|]. intros r s2 ((Hf1 & Hf2 & Hf3) & Hm & Hqq & Hres).
  destruct (Z.eqb_spec r 0) as [->|Hne].
  - destruct Hres as [(_ & Hfl2 & Hfull)|[? _]]; [|done]. wp_go.
    split_and!; [|by split_and!|left; by split_and!].
    split; [by eapply unlocked_same|by rewrite Hf2|]. exists ls. rewrite Hm, Hfl2. split; [done|].
    intros p Hp. unfold quota. rewrite Hqq. by apply Hq.
  - destruct Hres as [[? _]|(_ & Hok & Hq0 & ls' & Hfl' & Hni & Hq')]; [done|].
    assert (Hu2 : unlocked (k_lk s2)) by (by eapply unlocked_same). pose proof Hu2 as (Hok2 & Hcow2 & _).
    destruct s2 as [m2 fl2 q2 b2 lk2 c2]; simpl in *. subst.
    wp_step. apply wp_acquire; [done|]. intros l3 Hl3. wp_go. eapply wp_release; [done|done|done|].
    intros l4 Hl4. wp_go. simpl in *.
    assert (Hqn : forall p, page_ok p -> quota_at (<[r / PGSIZE := u8 1]> (k_quota s)) p =
                              if r =? p then 1 else quota_at (k_quota s) p)
      by (intros p Hp; by rewrite quota_insert_ok).
    split_and!.
    + split; simpl; [by eapply unlocked_same|done|]. exists ls'. split.
      * eapply fl_inv_ext; [|done]. intros p Hp. apply ld64_memset_ne; [done|].
        destruct Hfl' as [_ _ _ Hpg]. rewrite Forall_forall in Hpg. specialize (Hpg _ Hp).
        assert (p <> r) by naive_solver. destruct Hpg, Hok. unfold PGSIZE in *. dlia.
      * intros p Hp. rewrite (Hq' p Hp). unfold quota. simpl. rewrite Hqn by done.
        destruct (Z.eqb_spec r p); naive_solver.
    + split_and!; simpl; [by etrans|done|done].
    + right. split_and!; try done.
      * unfold quota. simpl. rewrite Hqn by done. by rewrite Z.eqb_refl.
      * intros p Hp Hpne. unfold quota. simpl. rewrite Hqn by done. by destruct (Z.eqb_spec r p).
Qed.

(** Dropping one reference, with the free lists made explicit: the form that
    also holds while [freerange] is still building them. *)
Lemma kfree_to_spec id pa s ls :
  unlocked (k_lk s) -> 0 <= id < NCPU -> 0 < kend -> fl_inv (k_mem s) (k_freelist s) ls ->
  page_ok pa -> quota s pa <> 0 -> pa ∉ concat ls ->
  wp (kfree_page_to id pa) (fun _ s' =>
    kframe s s' /\ k_quota s' = <[pa / PGSIZE := u8 (quota s pa - 1)]> (k_quota s) /\
    (forall a, ~ pa <= a < pa + PGSIZE -> ld8 (k_mem s') a = ld8 (k_mem s) a) /\
    ((1 < quota s pa /\ k_mem s' = k_mem s /\ k_freelist s' = k_freelist s) \/
     (quota s pa = 1 /\ exists l, ls !! Z.to_nat id = Some l /\
        fl_inv (k_mem s') (k_freelist s') (<[Z.to_nat id := pa :: l]> ls) /\
        concat (<[Z.to_nat id := pa :: l]> ls) ≡ₚ pa :: concat ls))) s.
Proof.
  intros (Hok & Hcow & Hkm) Hid Hend Hfl Hpa Hq0 Hni. pose proof (quota_range s pa) as Hqr.
  unfold kfree_page_to. rewrite (proj2 (bad_page_false pa) Hpa).
  destruct s as [m fl q b lk c]; simpl in *. wp_step. apply wp_acquire; [done|]. intros l1 Hl1. wp_go.
  change (quota (set_lk l1 (Kst m fl q b lk c)) pa) with (quota (Kst m fl q b lk c) pa).
  set (Q := quota (Kst m fl q b lk c) pa) in *.
  eapply wp_release; [done|done|done|]. intros l2 Hl2. simpl in *. rewrite u8_small by lia.
  destruct (Z.ltb_spec (Q - 1) 0); [lia|]. destruct (Z.ltb_spec 0 (Q - 1)).
  - wp_go. simpl. split_and!; [by split_and!|done|done|]. left. split_and!; [lia|done|done].
  - assert (HQ : Q = 1) by lia. wp_go. simpl. pose proof Hl2 as (_ & _ & Hh2 & _).
    assert (Hok2 : lk_ok l2) by (by eapply lk_same_ok).
    apply wp_acquire; [simpl; rewrite Hh2; apply Hkm|]. intros l3 Hl3. simpl in *. wp_go. simpl.
    eapply wp_release; [exact Hok2|rewrite Hh2; apply Hkm|done|]. intros l4 Hl4. simpl in *.
    set (m1 := memset m pa 1 PGSIZE).
    assert (Hfl1 : fl_inv m1 fl ls).
    { eapply fl_inv_ext; [|done]. intros p Hp. apply ld64_memset_ne; [done|].
      destruct Hfl as [_ _ _ Hpg]. rewrite Forall_forall in Hpg. specialize (Hpg _ Hp).
      assert (p <> pa) by naive_solver. destruct Hpg, Hpa. unfold PGSIZE in *. dlia. }
    destruct (fl_lookup _ _ _ _ Hfl1 Hid) as (h & t & Hh & Hht & Ht & Hc).
    destruct (fl_inv_push _ _ _ _ _ _ Hfl1 Ht Hpa Hend Hni) as [Hfl2 Hperm].
    split_and!; [split_and!; [by etrans|done|done]|done| |].
    + intros a Ha. rewrite ld8_st64_ne by (unfold PGSIZE in Ha; lia). apply ld8_memset_ne; [done|lia].
    + right. split; [done|]. exists t. by split_and!.
Qed.

(** The result of dropping a reference to [pa]. *)
Definition free_post (s : kst) (pa : Z) (s' : kst) : Prop :=
  kinv s' /\ kframe s s' /\ quota s' pa = quota s pa - 1 /\
  (forall p, page_ok p -> p <> pa -> quota s' p = quota s p) /\
  (forall a, ~ pa <= a < pa + PGSIZE -> ld8 (k_mem s') a = ld8 (k_mem s) a) /\
  (1 < quota s pa -> k_mem s' = k_mem s).

Lemma kfree_page_wp s pa :
  0 < kend -> kinv s -> page_ok pa -> quota s pa <> 0 ->
  wp (kfree_page pa) (fun _ s' => free_post s pa s') s.
Proof.
  intros Hend [Hu Hc (ls & Hfl & Hq)] Hpa Hq0. pose proof Hu as (Hok & _).
  unfold kfree_page. wp_step. apply wp_push_off. intros l1 Hl1. wp_go. simpl.
  assert (Hni : pa ∉ concat ls) by (by rewrite (Hq pa Hpa)).
  eapply wp_mono; [apply (kfree_to_spec _ _ _ ls); try done; by eapply unlocked_pushed|].
  intros [] s1 ((Hf1 & Hf2 & Hf3) & Hqq & Hm & Hres). simpl in *.
  eapply wp_pop_off; [done|by eapply pushed_same|]. intros l2 Hl2.
  change (quota (set_lk l1 s) pa) with (quota s pa) in *. pose proof (quota_range s pa).
  assert (Hq' : forall p, page_ok p -> quota s1 p = if pa =? p then quota s pa - 1 else quota s p).
  { intros p Hp. unfold quota. rewrite Hqq, quota_insert_ok by done. destruct (Z.eqb_spec pa p); [|done].
    apply u8_small. unfold quota in *. lia. }
  destruct s1 as [m1 fl1 q1 b1 lk1 c1]; simpl in *. subst.
  split_and!.
  - split; simpl; [by eapply unlocked_same|done|].
    destruct Hres as [(Hgt & -> & ->)|(H1 & t & Ht & Hfl' & Hperm)].
    + exists ls. split; [done|]. intros p Hp. rewrite (Hq p Hp). specialize (Hq' p Hp). unfold quota in *; simpl in *.
      rewrite Hq'. destruct (Z.eqb_spec pa p) as [->|]; [lia|done].
    + eexists. split; [done|]. intros p Hp. rewrite Hperm, elem_of_cons, (Hq p Hp).
      specialize (Hq' p Hp). unfold quota in *; simpl in *. rewrite Hq'.
      destruct (Z.eqb_spec pa p) as [->|]; [lia|naive_solver].
  - by split_and!.
  - specialize (Hq' pa Hpa). rewrite Z.eqb_refl in Hq'. done.
  - intros p Hp Hne. specialize (Hq' p Hp). destruct (Z.eqb_spec pa p); [done|]. done.
  - done.
  - intros Hgt. destruct Hres as [(_ & Hm1 & _)|(H1 & _)]; [done|lia].
Qed.

Lemma kaddquota_wp s pa :
  kinv s -> page_ok pa -> 0 < quota s pa < 255 ->
  wp (kaddquota pa) (fun _ s' =>
    kinv s' /\ kframe s s' /\ k_mem s' = k_mem s /\ quota s' pa = quota s pa + 1 /\
    forall p, page_ok p -> p <> pa -> quota s' p = quota s p) s.
Proof.
  intros [Hu Hc (ls & Hfl & Hq)] Hpa Hq0. pose proof Hu as (Hok & Hcow & _).
  unfold kaddquota. rewrite (proj2 (bad_page_false pa) Hpa).
  destruct s as [m fl q b lk c]; simpl in *. wp_step. apply wp_acquire; [done|]. intros l1 Hl1. wp_go.
  eapply wp_release; [done|done|done|]. intros l2 Hl2. simpl.
  change (quota (set_lk l1 (Kst m fl q b lk c)) pa) with (quota (Kst m fl q b lk c) pa).
  set (Q := quota (Kst m fl q b lk c) pa) in *.
  assert (Hq' : forall p, page_ok p -> quota_at (<[pa / PGSIZE := u8 (Q + 1)]> q) p =
                            if pa =? p then Q + 1 else quota_at q p).
  { intros p Hp. rewrite quota_insert_ok by done. destruct (Z.eqb_spec pa p); [|done]. apply u8_small. lia. }
  split_and!; simpl.
  - split; simpl; [by eapply unlocked_same|done|]. exists ls. split; [done|]. intros p Hp.
    rewrite (Hq p Hp). unfold quota; simpl. rewrite Hq' by done.
    destruct (Z.eqb_spec pa p) as [->|]; [|done]. unfold Q, quota in *; simpl in *. lia.
  - by split_and!.
  - done.
  - unfold quota; simpl. rewrite Hq' by done. by rewrite Z.eqb_refl.
  - intros p Hp Hne. unfold quota; simpl. rewrite Hq' by done. by destruct (Z.eqb_spec pa p).
Qed.

Lemma kgetquota_wp s pa :
  kinv s -> page_ok pa ->
  wp (kgetquota pa) (fun q s' =>
    q = quota s pa /\ kinv s' /\ kframe s s' /\ k_mem s' = k_mem s /\ k_quota s' = k_quota s) s.
Proof.
  intros [Hu Hc (ls & Hfl & Hq)] Hpa. pose proof Hu as (Hok & Hcow & _).
  unfold kgetquota. rewrite (proj2 (bad_page_false pa) Hpa).
  destruct s as [m fl q b lk c]; simpl in *. wp_step. apply wp_acquire; [done|]. intros l1 Hl1. wp_go.
  eapply wp_release; [done|done|done|]. intros l2 Hl2. simpl. wp_go.
  split_and!; try done. split; simpl; [by eapply unlocked_same|done|]. by exists ls.
Qed.

Lemma pages_length (l : list Z) :
  NoDup l -> Forall page_ok l -> kend <= PHYSTOP ->
  Z.of_nat (length l) <= PHYSTOP / PGSIZE - kend / PGSIZE.
Proof.
  intros Hnd Hok Hk.
  assert (Hmap : NoDup ((fun p => p / PGSIZE) <$> l)).
  { clear Hk. induction l as [|p l IH]; [constructor|]. apply NoDup_cons in Hnd as [Hni Hnd].
    apply Forall_cons in Hok as [Hp Hok]. simpl. constructor; [|by apply IH].
    rewrite list_elem_of_fmap. intros (q & Heq & Hq). rewrite Forall_forall in Hok.
    destruct (decide (p = q)) as [->|Hne]; [done|]. by apply (page_ok_div p q Hp (Hok _ Hq) Hne). }
  assert (Hsub : (fun p => p / PGSIZE) <$> l ⊆+ seqZ (kend / PGSIZE) (PHYSTOP / PGSIZE - kend / PGSIZE)).
  { apply NoDup_submseteq; [done|]. intros x. rewrite list_elem_of_fmap. intros (p & -> & Hp).
    rewrite Forall_forall in Hok. destruct (Hok _ Hp) as [Hal Hr]. apply elem_of_seqZ.
    unfold PGSIZE, PHYSTOP in *. dlia. }
  apply submseteq_length in Hsub. rewrite length_fmap, length_seqZ in Hsub.
  assert (kend / PGSIZE <= PHYSTOP / PGSIZE) by (apply Z.div_le_mono; [done|lia]). lia.
Qed.

(** ** freemem *)

Lemma count_spec (h num : Z) (l : list Z) s :
  chain (k_mem s) h l -> (length l <= PAGES)%nat ->
  wp (loop (S PAGES) count_body (h, num)) (fun r s' => s' = s /\ r = num + Z.of_nat (length l)) s.
Proof.
  intros Hc Hlen.
  eapply (wp_loop (fun x s' => s' = s /\ exists l', chain (k_mem s) x.1 l' /\ (length l' <= length l)%nat /\
                     x.2 = num + Z.of_nat (length l - length l'))
           (fun x => length l - Z.to_nat (x.2 - num))%nat).
  - intros [r n] s' (-> & l' & Hc' & Hle & Hn). simpl in *. unfold count_body.
    destruct l' as [|p l']; simpl in Hc'.
    + subst. simpl. wp_go. split; [done|]. simpl. lia.
    + destruct Hc' as (-> & Hne & Hc'). destruct (Z.eqb_spec p 0); [done|]. wp_go. simpl in *.
      split; [|lia]. split; [done|]. exists l'. split_and!; [done|lia|lia].
  - split; [done|]. exists l. simpl. split_and!; [done|lia|lia].
  - simpl. rewrite Z.sub_diag. simpl. lia.
Qed.

Lemma fl_lists_length m fl ls i l :
  fl_inv m fl ls -> kend <= PHYSTOP -> 0 < kend -> ls !! i = Some l -> (length l <= PAGES)%nat.
Proof.
  intros [_ _ Hnd Hpg] Hk Hpos Hi. pose proof (concat_lookup_Permutation _ _ _ Hi) as Hp.
  rewrite Hp in Hnd, Hpg. apply NoDup_app in Hnd as (Hnd & _ & _). apply Forall_app in Hpg as [Hpg _].
  pose proof (pages_length l Hnd Hpg Hk). pose proof PAGES_Z.
  assert (0 <= kend / PGSIZE) by (apply Z.div_pos; [lia|done]). lia.
Qed.

Lemma freemem_wp s ls :
  unlocked (k_lk s) -> fl_inv (k_mem s) (k_freelist s) ls -> KERNBASE < kend <= PHYSTOP ->
  wp freemem (fun r s' => (exists l, lk_same (k_lk s) l /\ s' = set_lk l s) /\
                          r = PGSIZE * Z.of_nat (length (concat ls))) s.
Proof.
  intros Hu Hfl Hk. unfold freemem. wp_step.
  assert (Hlen : length ls = Z.to_nat NCPU).
  { destruct Hfl as [Hl Hch _ _]. apply Forall2_length in Hch. congruence. }
  eapply wp_mono with (Q := fun num s' => (exists l, lk_same (k_lk s) l /\ s' = set_lk l s) /\
                                         num = Z.of_nat (length (concat ls))).
  { eapply (wp_loop (fun x s' => 0 <= x.1 <= NCPU /\ (exists l, lk_same (k_lk s) l /\ s' = set_lk l s) /\
                       x.2 = Z.of_nat (length (concat (take (Z.to_nat x.1) ls))))
             (fun x => Z.to_nat (NCPU - x.1))).
    - intros [id num] s' (Hid & (l & Hl & ->) & Hnum). simpl in *. unfold freemem_body.
      destruct (Z.ltb_spec id NCPU).
      + pose proof (unlocked_same _ _ Hl Hu) as (Hok & Hcow & Hkm).
        wp_step. apply wp_acquire; [apply Hkm|]. intros l1 Hl1. wp_go. simpl.
        destruct (fl_lookup _ _ _ id Hfl ltac:(lia)) as (h & t & Hh & Hht & Ht & Hc). rewrite Hht.
        eapply wp_mono; [apply (count_spec h num t); [done|eapply fl_lists_length; [done|lia|unfold KERNBASE in *; lia|done]]|].
        intros r s1 [-> ->]. wp_go. eapply wp_release; [exact Hok|apply Hkm|done|]. intros l2 Hl2. wp_go. simpl in *.
        split; [|lia]. split_and!; [lia|lia| |].
        * exists l2. split; [by etrans|done].
        * replace (Z.to_nat (id + 1)) with (S (Z.to_nat id)) by lia. rewrite (take_S_r _ _ _ Ht).
          rewrite concat_app, length_app. simpl. rewrite app_nil_r. lia.
      + wp_go. simpl. split; [by exists l|]. assert (id = NCPU) as -> by lia.
        by rewrite take_ge in Hnum by lia.
    - simpl. split_and!; [lia|unfold NCPU; lia| |done]. by exists (k_lk s); destruct s.
    - simpl. unfold NCPU. lia. }
  intros num s' [Hs ->]. wp_go. split; [done|]. destruct Hfl as [_ _ Hnd Hpg].
  pose proof (pages_length _ Hnd Hpg ltac:(lia)).
  assert (KERNBASE / PGSIZE <= kend / PGSIZE) by (apply Z.div_le_mono; [done|lia]).
  change (KERNBASE / PGSIZE) with 524320 in *. change (PHYSTOP / PGSIZE) with 525824 in *.
  unfold PGSIZE. rewrite s32_small by lia. rewrite u64_small by lia. lia.
Qed.

(** ** freerange and kinit *)

(** The pages [freerange] hands out, in order. *)
Definition range_pages (lo hi : Z) : list Z :=
  (fun i => lo + i * PGSIZE) <$> seqZ 0 ((hi - lo) / PGSIZE).

Record boot_inv (s : kst) (p : Z) : Prop := {
  bi_unlocked : unlocked (k_lk s);
  bi_lists : exists ls, fl_inv (k_mem s) (k_freelist s) ls /\
     forall x, x ∈ concat ls <-> (page_ok x /\ x < p);
  bi_quota : forall x, page_ok x -> quota s x = 0;
}.

Lemma freerange_step s p id :
  0 < kend -> boot_inv s p -> p mod PGSIZE = 0 -> kend <= p < PHYSTOP -> p + PGSIZE <= PHYSTOP ->
  0 <= id < NCPU ->
  wp (put_quota p 1 ;; kfree_page_to id p) (fun _ s' => boot_inv s' (p + PGSIZE) /\ kframe s s') s.
Proof.
  intros Hend [Hu (ls & Hfl & Hin) Hq] Hal Hr Hr2 Hid. wp_go.
  assert (Hok : page_ok p) by done. set (s1 := set_quota _ s).
  assert (Hq1 : forall x, page_ok x -> quota s1 x = if p =? x then 1 else 0).
  { intros x Hx. unfold quota, s1. simpl. rewrite quota_insert_ok by done.
    specialize (Hq x Hx). unfold quota in Hq. by destruct (Z.eqb_spec p x). }
  assert (Hni : p ∉ concat ls) by (rewrite Hin; lia).
  eapply wp_mono; [apply (kfree_to_spec id p s1 ls); try done;
    rewrite Hq1 by done; by rewrite Z.eqb_refl|].
  intros [] s2 (Hf & Hqq & Hm & Hres). rewrite Hq1, Z.eqb_refl in Hres by done.
  split; [|done].
  destruct Hres as [(? & _)|(_ & t & Ht & Hfl2 & Hperm)]; [lia|]. split.
  - destruct Hf as (Hf & _). by eapply unlocked_same.
  - eexists. split; [done|]. intros x. rewrite Hperm, elem_of_cons, Hin. unfold page_ok, PGSIZE in *.
    split; [intros [->|]; split_and!; lia|]. intros [[Hx1 Hx2] Hx3]. destruct (decide (x = p)); [by left|].
    right. split_and!; try lia. dlia.
  - intros x Hx. unfold quota. rewrite Hqq, quota_insert_ok by done. rewrite Hq1, Z.eqb_refl by done.
    destruct (Z.eqb_spec p x); [done|]. specialize (Hq1 x Hx). unfold quota in Hq1. rewrite Hq1.
    by destruct (Z.eqb_spec p x).
Qed.

Lemma freerange_wp s :
  KERNBASE < kend <= PHYSTOP -> boot_inv s kend ->
  wp (freerange kend PHYSTOP) (fun _ s' => boot_inv s' PHYSTOP /\ kframe s s') s.
Proof.
  intros Hk Hb. unfold freerange.
  assert (H64 : kend + PGSIZE - 1 < 2 ^ 64) by (unfold PHYSTOP, PGSIZE in *; lia).
  assert (Hk0 : 0 < kend) by (unfold KERNBASE in *; lia).
  assert (Hk1 : 0 <= kend) by lia.
  destruct (PGROUNDUP_bounds _ Hk1 H64) as [Hup Hal].
  eapply (wp_loop (fun x s' => x.1 mod PGSIZE = 0 /\ kend <= x.1 <= PHYSTOP /\ 0 <= x.2 < NCPU /\
                     boot_inv s' x.1 /\ kframe s s')
           (fun x => Z.to_nat ((PHYSTOP - x.1) / PGSIZE))).
  - intros [p id] s' (Hpal & Hp & Hid & Hbi & Hf). simpl in *. unfold freerange_body.
    destruct (Z.leb_spec (p + PGSIZE) PHYSTOP) as [Hle|Hgt].
    + apply wp_bind. assert (Hp1 : kend <= p < PHYSTOP) by (unfold PGSIZE in *; lia).
      pose proof (freerange_step s' p id Hk0 Hbi Hpal Hp1 Hle Hid) as Hstep.
      apply wp_bind_inv in Hstep. eapply wp_mono; [exact Hstep|]. cbv beta. intros [] s1 H1.
      wp_step. eapply wp_mono; [exact H1|]. cbv beta. intros [] s2 [Hb2 Hf2]. wp_go. simpl.
      split; [split_and!|].
      * unfold PGSIZE in *. dlia.
      * unfold PGSIZE in *. lia.
      * lia.
      * apply Z.mod_pos_bound. done.
      * apply Z.mod_pos_bound. done.
      * done.
      * by etrans.
      * unfold PGSIZE, PHYSTOP in *. dlia.
    + wp_go. split; [|done]. destruct Hbi as [Hu (ls & Hfl & Hin) Hq]. split; [done| |done].
      exists ls. split; [done|]. intros x. rewrite Hin. unfold page_ok, PGSIZE, PHYSTOP in *.
      split; [naive_solver lia|]. intros ([Hx1 Hx2] & Hx3). split_and!; try lia. dlia.
  - simpl. split_and!; try done; try (unfold PGSIZE, PHYSTOP, NCPU in *; lia).
    + unfold PGSIZE, PHYSTOP in *. dlia.
    + destruct Hb as [Hu (ls & Hfl & Hin) Hq]. split; [done| |done]. exists ls. split; [done|].
      intros x. rewrite Hin. unfold page_ok, PGSIZE in *. split; [lia|].
      intros ([Hx1 Hx2] & Hx3). split_and!; try lia. dlia.
  - simpl. pose proof PAGES_Z. unfold PGSIZE, PHYSTOP, KERNBASE in *. dlia.
Qed.

Lemma boot_inv_kinv s : 0 <= k_cpu s < NCPU -> boot_inv s PHYSTOP -> kinv s.
Proof.
  intros Hc [Hu (ls & Hfl & Hin) Hq]. split; [done|done|]. exists ls. split; [done|].
  intros p Hp. rewrite Hin, (Hq p Hp). split; [done|]. intros _. split; [done|]. destruct Hp. lia.
Qed.

End spec.

(** ** The contract of the page allocator

    What kalloc.h promises its clients, over reference counts and memory only;
    the free lists do not appear.  The clients' lemmas are proved from this
    class; the instance is the code above. *)

Class PageAllocSpec {L : Linker} : Prop := {
  alloc_spec s : kinv s -> wp kalloc_page (fun r s' => alloc_post s r s') s;
  free_spec s pa : kinv s -> page_ok pa -> quota s pa <> 0 ->
    wp (kfree_page pa) (fun _ s' => free_post s pa s') s;
  addquota_spec s pa : kinv s -> page_ok pa -> 0 < quota s pa < 255 ->
    wp (kaddquota pa) (fun _ s' =>
      kinv s' /\ kframe s s' /\ k_mem s' = k_mem s /\ quota s' pa = quota s pa + 1 /\
      forall p, page_ok p -> p <> pa -> quota s' p = quota s p) s;
  getquota_spec s pa : kinv s -> page_ok pa ->
    wp (kgetquota pa) (fun q s' =>
      q = quota s pa /\ kinv s' /\ kframe s s' /\ k_mem s' = k_mem s /\ k_quota s' = k_quota s) s;
}.

#[export] Instance kalloc_spec {L : Linker} {LOK : LinkerOk L} : PageAllocSpec.
Proof.
  pose proof etext_lo. pose proof etext_end. assert (0 < kend) by (unfold KERNBASE in *; lia).
  split; eauto using kalloc_page_wp, kfree_page_wp, kaddquota_wp, kgetquota_wp.
Qed.

(** ** Properties *)

Section properties.
Context {L : Linker} {LOK : LinkerOk L}.

(** The state at boot: nothing allocated, nothing free, no lock held. *)
Definition boot_state (m : gmap Z Z) (hart : Z) : kst :=
  Kst m [0; 0] ∅ [] (Lkst 0 false false []) hart.

Lemma kinit_wp m hart :
  0 <= hart < NCPU ->
  wp kinit (fun _ s' => kinv s' /\ (forall p, page_ok p -> quota s' p = 0) /\ held (k_lk s') = [])
    (boot_state m hart).
Proof.
  intros Hh. pose proof etext_lo. pose proof etext_end. pose proof kend_hi.
  unfold kinit, kminit, initlock. wp_step. apply wp_zoom. wp_go. apply wp_zoom. wp_go. apply wp_zoom. wp_go.
  eapply wp_mono; [apply freerange_wp; [lia|]|].
  - split; simpl.
    + unfold unlocked, lk_ok. simpl. split_and!; try done; try set_solver. constructor.
    + exists [[]; []]. split; [split; simpl; try done; repeat constructor|]. simpl.
      intros x. split; [set_solver|]. unfold page_ok. lia.
    + done.
  - intros [] s' [Hb (Hl & Hc & _)]. simpl in *. split_and!.
    + apply boot_inv_kinv; [by rewrite Hc|done].
    + by destruct Hb.
    + by destruct Hl as (_ & _ & -> & _).
Qed.

(** C1: [kinit] ends without a panic in a state satisfying the allocator
    invariant, in which every whole page between [end] and [PHYSTOP] is free
    and no lock is held. *)
Theorem kinit_establishes_kinv m hart :
  0 <= hart < NCPU ->
  exists s', kinit (boot_state m hart) = Ok tt s' /\ kinv s' /\
    (forall p, page_ok p -> quota s' p = 0) /\ held (k_lk s') = [].
Proof. intros Hh. destruct (wp_Ok _ _ _ (kinit_wp m hart Hh)) as ([] & s' & He & Hp). by exists s'. Qed.

(** C2: [kalloc_page] never panics or loops; it returns 0 exactly when no page
    is free and then changes nothing, and otherwise it returns a page that was
    free, gives it reference count 1, fills it with 5s, leaves every other
    page, count and byte alone and keeps the invariant and the lock state. *)
Theorem kalloc_page_correct s :
  kinv s -> exists r s', kalloc_page s = Ok r s' /\ alloc_post s r s'.
Proof. intros Hs. apply wp_Ok. by apply alloc_spec. Qed.

(** C3: dropping a reference to an allocated page decrements its count and
    nothing else; only the last reference makes the page free, and only then
    are its bytes overwritten. *)
Theorem kfree_page_correct s pa :
  kinv s -> page_ok pa -> quota s pa <> 0 ->
  exists s', kfree_page pa s = Ok tt s' /\ free_post s pa s'.
Proof.
  intros Hs Hp Hq. destruct (wp_Ok _ _ _ (free_spec s pa Hs Hp Hq)) as ([] & s' & He & Hpost). by exists s'.
Qed.

(** [freemem] terminates and returns [PGSIZE] times the number of pages
    whose reference count is 0, on both CPUs' lists together. *)
Theorem freemem_counts_free_pages s :
  kinv s -> exists free s', NoDup free /\ (forall p, p ∈ free <-> page_ok p /\ quota s p = 0) /\
    freemem s = Ok (PGSIZE * Z.of_nat (length free)) s' /\ kframe s s'.
Proof.
  intros [Hu Hc (ls & Hfl & Hq)]. pose proof etext_lo. pose proof etext_end. pose proof kend_hi.
  destruct (wp_Ok _ _ _ (freemem_wp s ls Hu Hfl ltac:(lia))) as (r & s' & He & (l & Hl & ->) & ->).
  exists (concat ls), (set_lk l s). split_and!; [by destruct Hfl| |done|by split_and!].
  intros p. split.
  - intros Hin. destruct Hfl as [_ _ _ Hpg]. rewrite Forall_forall in Hpg. specialize (Hpg _ Hin).
    split; [done|]. by apply Hq.
  - intros [Hp Hz]. by apply Hq.
Qed.

(** A double free is not detected.  Freeing a page whose count is already
    0 wraps the unsigned count to 255 and returns; the "negative quota" panic
    of [kfree_page_to] is unreachable. *)
Theorem kfree_page_double_free_unnoticed s pa :
  kinv s -> page_ok pa -> quota s pa = 0 ->
  exists s', kfree_page pa s = Ok tt s' /\ quota s' pa = 255 /\ k_freelist s' = k_freelist s.
Proof.
  intros [Hu Hc _] Hpa Hq0. pose proof Hu as (Hok & Hcow & _).
  assert (Hw : wp (kfree_page pa) (fun _ s' => quota s' pa = 255 /\ k_freelist s' = k_freelist s) s).
  { unfold kfree_page, kfree_page_to. wp_step. apply wp_push_off. intros l1 Hl1. wp_go. simpl.
    rewrite (proj2 (bad_page_false pa) Hpa). pose proof (lk_ok_pushed _ _ Hok Hl1) as Hok1.
    pose proof Hl1 as (_ & _ & Hh1 & _).
    wp_step. apply wp_acquire; [simpl; by rewrite Hh1|]. intros l2 Hl2. wp_go.
    change (quota (set_lk l2 (set_lk l1 s)) pa) with (quota s pa). rewrite Hq0.
    eapply wp_release; [exact Hok1|by rewrite Hh1|done|]. intros l3 Hl3.
    change (u8 (0 - 1)) with 255. simpl. wp_go. eapply wp_pop_off; [exact Hok|simpl; by eapply pushed_same|].
    intros l4 Hl4. simpl. split; [|done]. unfold quota. simpl.
    change 255 with (u8 (0 - 1)) at 1. rewrite quota_insert_ok by done. by rewrite Z.eqb_refl. }
  destruct (wp_Ok _ _ _ Hw) as ([] & s' & He & Hp). by exists s'.
Qed.

End properties.

(** ** A concrete machine: eight free pages at the top of memory *)

Module Demo.

#[export] Instance demo_linker : Linker := {|
  kend := PHYSTOP - 8 * PGSIZE; etext := KERNBASE + 16 * PGSIZE;
  trampoline := KERNBASE; sigtramp := KERNBASE + PGSIZE |}.

#[export] Instance demo_linker_ok : LinkerOk demo_linker.
Proof. split; simpl; try done; vm_compute; intuition congruence. Qed.

Definition run {A} (d : kst) (m : M kst A) (s : kst) : kst :=
  match m s with Ok _ s' => s' | _ => d end.

Definition demo_state : kst := run (boot_state ∅ 0) kinit (boot_state ∅ 0).

Lemma demo_kinv : kinv demo_state.
Proof.
  destruct (wp_Ok _ _ _ (kinit_wp ∅ 0 ltac:(done))) as ([] & s' & He & Hp & _).
  unfold demo_state, run. by rewrite He.
Qed.

Definition top_page : Z := PHYSTOP - PGSIZE.
Lemma top_page_ok : page_ok top_page.
Proof. by vm_compute. Qed.

(** [demo_state] with one page allocated. *)
Definition demo_state1 : kst := run demo_state kalloc_page demo_state.
Definition demo_page : Z := match kalloc_page demo_state with Ok r _ => r | _ => 0 end.
Lemma demo_kinv1 : kinv demo_state1.
Proof.
  destruct (wp_Ok _ _ _ (alloc_spec _ demo_kinv)) as (r & s' & He & Hp & _).
  unfold demo_state1, run. by rewrite He.
Qed.

Lemma kinit_establishes_kinv_witness :
  0 <= 1 < NCPU /\
  exists s', kinit (boot_state ∅ 1) = Ok tt s' /\ kinv s' /\
    (forall p, page_ok p -> quota s' p = 0) /\ held (k_lk s') = [].
Proof. split; [done|]. by apply (kinit_establishes_kinv ∅ 1). Defined.

Lemma kalloc_page_correct_witness :
  kinv demo_state /\ quota demo_state top_page = 0 /\
  exists r s', kalloc_page demo_state = Ok r s' /\ alloc_post demo_state r s'.
Proof.
  split; [exact demo_kinv|]. split; [by vm_compute|]. apply (kalloc_page_correct demo_state). exact demo_kinv.
Defined.

Lemma kfree_page_correct_witness :
  quota demo_state1 demo_page = 1 /\
  exists s', kfree_page demo_page demo_state1 = Ok tt s' /\ free_post demo_state1 demo_page s'.
Proof.
  split; [by vm_compute|]. apply (kfree_page_correct demo_state1 demo_page);
    [exact demo_kinv1|by vm_compute|by vm_compute].
Defined.

Lemma freemem_counts_free_pages_witness :
  kinv demo_state1 /\
  exists free s', NoDup free /\ (forall p, p ∈ free <-> page_ok p /\ quota demo_state1 p = 0) /\
    freemem demo_state1 = Ok (PGSIZE * Z.of_nat (length free)) s' /\ kframe demo_state1 s'.
Proof. split; [exact demo_kinv1|]. apply (freemem_counts_free_pages demo_state1). exact demo_kinv1. Defined.

Lemma kfree_page_double_free_unnoticed_witness :
  exists s', kfree_page top_page demo_state = Ok tt s' /\ quota s' top_page = 255 /\
    k_freelist s' = k_freelist demo_state.
Proof.
  apply (kfree_page_double_free_unnoticed demo_state top_page);
    [exact demo_kinv|exact top_page_ok|by vm_compute].
Defined.

Example freemem_demo : match freemem demo_state1 with Ok r _ => r | _ => -1 end = 7 * PGSIZE.
Proof. by vm_compute. Qed.

End Demo.
