(* ===== verification/Kmalloc.v ===== *)
(** * The slab allocator (src/kernel/vm/kmalloc.c)

    [kmalloc] cuts pages from the page allocator into objects of eight sizes.
    A slab page starts with [struct slab_page] and its free objects are linked
    through their first word; both live in the byte memory of [kst], so the
    model reads and writes them at their C offsets.  The list of slabs of a
    bucket starts in [slab_buckets[i].slabs]. *)

From S2P Require Import Prelude Riscv Memory Spinlock Kalloc.
Import Hart.

(** Offsets in [struct slab_page]. *)
Definition off_magic : Z := 0.
Definition off_obj_size : Z := 4.
Definition off_total : Z := 8.
Definition off_free_count : Z := 12.
Definition off_next : Z := 16.
Definition off_free_list : Z := 24.
Definition sizeof_slab_page : Z := 32.

Definition SLAB_MAGIC : Z := 0x51ab51ab.
Definition NSLAB_BUCKETS : Z := 8.
Definition SLAB_ALIGN : Z := 16.

(** [for (i = 0; i < NSLAB_BUCKETS; i++) if (size <= slab_buckets[i].obj_size) return i] *)
Fixpoint bucket_index_from (bs : list slab_bucket) (i size : Z) : Z :=
  match bs with
  | [] => -1
  | b :: bs' => if size <=? sb_obj_size b then i else bucket_index_from bs' (i + 1) size
  end.

Definition slab_bucket_index (size : Z) : M kst Z :=
  gets (fun s => bucket_index_from (k_buckets s) 0 size).

Definition align_up (value align : Z) : Z := Z.land (u64 (value + align - 1)) (Z.lnot (align - 1)).

Definition slab_data_offset : Z := align_up sizeof_slab_page SLAB_ALIGN.

Definition bucket_slabs (index : Z) : M kst Z :=
  gets (fun s => sb_slabs (k_buckets s !!! Z.to_nat index)).
Definition set_slabs (index slab : Z) : M kst unit :=
  modify (set_buckets (fun bs =>
    <[Z.to_nat index := SlabBucket (sb_obj_size (bs !!! Z.to_nat index)) slab]> bs)).

(** [for (slab = bucket->slabs; slab; slab = slab->next) if (slab->free_count > 0) break]. *)
Definition find_body (slab : Z) : M kst (Z + Z) :=
  if slab =? 0 then ret (inr 0)
  else
    c <- load32 (slab + off_free_count) ;;
    if 0 <? c then ret (inr slab)
    else next <- load64 (slab + off_next) ;; ret (inl next).

(** The loop that threads the objects of a new slab. *)
Definition carve_body (page offset obj_size total : Z) (i : Z) : M kst (Z + unit) :=
  if i <? total then
    let node := page + offset + u32 (i * obj_size) in
    fl <- load64 (page + off_free_list) ;;
    store64 node fl ;;
    store64 (page + off_free_list) node ;;
    c <- load32 (page + off_free_count) ;;
    store32 (page + off_free_count) (c + 1) ;;
    ret (inl (i + 1))
  else ret (inr tt).

(** The initialisation of a new slab page. *)
Definition init_slab (page obj_size : Z) : M kst unit :=
  store32 (page + off_magic) SLAB_MAGIC ;;
  store32 (page + off_obj_size) obj_size ;;
  store32 (page + off_free_count) 0 ;;
  store64 (page + off_free_list) 0 ;;
  let offset := u32 slab_data_offset in
  let total := (PGSIZE - offset) / obj_size in
  store32 (page + off_total) total ;;
  loop (S (Z.to_nat total)) (carve_body page offset obj_size total) 0.

(** Take the first object of [slab]'s free list; the bucket's lock is held. *)
Definition take_object (index slab obj_size : Z) : M kst Z :=
  node <- load64 (slab + off_free_list) ;;
  next <- load64 node ;;
  store64 (slab + off_free_list) next ;;
  c <- load32 (slab + off_free_count) ;;
  store32 (slab + off_free_count) (c - 1) ;;
  zoom (release (L_slab index)) ;;
  do_memset node 5 obj_size ;;
  ret node.

(** A bucket's list of slabs holds distinct pages. *)
Definition kmalloc (size : Z) : M kst Z :=
  if size =? 0 then ret 0
  else
    index <- slab_bucket_index size ;;
    if index <? 0 then ret 0
    else
      obj_size <- gets (fun s => sb_obj_size (k_buckets s !!! Z.to_nat index)) ;;
      zoom (acquire (L_slab index)) ;;
      head <- bucket_slabs index ;;
      slab <- loop (S PAGES) find_body head ;;
      if slab =? 0 then
        zoom (release (L_slab index)) ;;
        page <- kalloc_page ;;
        if page =? 0 then ret 0
        else
          init_slab page obj_size ;;
          zoom (acquire (L_slab index)) ;;
          head <- bucket_slabs index ;;
          store64 (page + off_next) head ;;
          set_slabs index page ;;
          take_object index page obj_size
      else take_object index slab obj_size.

(** The loop that looks for the slot holding [slab].  The variable [prev] is
    [None] for [&bucket->slabs] and [Some p] for [&p->next]. *)
Definition load_prev (index : Z) (prev : option Z) : M kst Z :=
  match prev with
  | None => bucket_slabs index
  | Some p => load64 (p + off_next)
  end.
Definition store_prev (index : Z) (prev : option Z) (v : Z) : M kst unit :=
  match prev with
  | None => set_slabs index v
  | Some p => store64 (p + off_next) v
  end.
Definition unlink_body (index slab : Z) (prev : option Z) : M kst (option Z + option Z) :=
  cur <- load_prev index prev ;;
  if negb (cur =? 0) && negb (cur =? slab) then ret (inl (Some cur)) else ret (inr prev).

Section code.
Context {L : Linker}.

Definition kfree (ptr : Z) : M kst unit :=
  if ptr =? 0 then ret tt
  else
    let page := PGROUNDDOWN ptr in
    if (page <? kend) || (PHYSTOP <=? page) then panic "kfree"
    else
      magic <- load32 (page + off_magic) ;;
      if negb (magic =? SLAB_MAGIC) then panic "kfree: not kmalloc object"
      else
        obj_size <- load32 (page + off_obj_size) ;;
        index <- slab_bucket_index obj_size ;;
        bsize <- gets (fun s => sb_obj_size (k_buckets s !!! Z.to_nat index)) ;;
        if (index <? 0) || negb (bsize =? obj_size) then panic "kfree: bad slab"
        else
          let offset := slab_data_offset in
          if (ptr <? page + offset) || (page + PGSIZE <=? ptr) ||
             negb ((ptr - page - offset) mod obj_size =? 0) then panic "kfree: bad object"
          else
            zoom (acquire (L_slab index)) ;;
            c <- load32 (page + off_free_count) ;;
            total <- load32 (page + off_total) ;;
            if total <=? c then panic "kfree: full slab"
            else
              do_memset ptr 1 obj_size ;;
              fl <- load64 (page + off_free_list) ;;
              store64 ptr fl ;;
              store64 (page + off_free_list) ptr ;;
              c <- load32 (page + off_free_count) ;;
              store32 (page + off_free_count) (c + 1) ;;
              c <- load32 (page + off_free_count) ;;
              if c =? total then
                prev <- loop (S PAGES) (unlink_body index page) None ;;
                cur <- load_prev index prev ;;
                if cur =? 0 then panic "kfree: missing slab"
                else
                  next <- load64 (page + off_next) ;;
                  store_prev index prev next ;;
                  store32 (page + off_magic) 0 ;;
                  zoom (release (L_slab index)) ;;
                  kfree_page page
              else zoom (release (L_slab index)).

End code.
