(* ===== verification/Vm.v ===== *)
(** * Page tables and address spaces (src/kernel/vm/vm.c)

    Every function of vm.c that walks, extends, copies or tears down an Sv39
    page table, over the byte memory of [kst]; page-table pages come from
    [kalloc_page] and go back through [kfree_page].  A pointer to a
    [struct proc] is [option uspace] (its two page tables, the part of the
    process these functions use); NULL is [None].  [sfence_vma] has no effect
    here: translations are always taken from memory, the TLB is not modelled.
    [copyin]/[copyout] need the fault handler and are in Vmfault.v. *)

From S2P Require Import Prelude Riscv Memory Spinlock Kalloc.
Import Hart.

(** The address-space fields of [struct proc]. *)
Record uspace := USpace { us_pagetable : Z; us_kpagetable : Z }.

Definition sfence_vma : M kst unit := ret tt.

(** [&pagetable[i]] *)
Definition pte_addr (pagetable i : Z) : Z := pagetable + 8 * i.

Definition has (pte flag : Z) : bool := negb (Z.land pte flag =? 0).

Definition PTE_RWX : Z := Z.lor (Z.lor PTE_R PTE_W) PTE_X.

(** ** Walking *)

(** One level of [walk]: follow or create the entry for [va] at [level]. *)
Definition walk_body (va : Z) (alloc : bool) (x : Z * Z) : M kst (Z * Z + Z) :=
  let '(pagetable, level) := x in
  if 0 <? level then
    let pte := pte_addr pagetable (PX level va) in
    v <- load64 pte ;;
    if has v PTE_V then ret (inl (PTE2PA v, level - 1))
    else if negb alloc then ret (inr 0)
    else
      p <- kalloc_page ;;
      if p =? 0 then ret (inr 0)
      else
        do_memset p 0 PGSIZE ;;
        store64 pte (Z.lor (PA2PTE p) PTE_V) ;;
        ret (inl (p, level - 1))
  else ret (inr (pte_addr pagetable (PX 0 va))).

Definition walk (pagetable va : Z) (alloc : bool) : M kst Z :=
  if MAXVA <=? va then panic "walk"
  else loop 3 (walk_body va alloc) (pagetable, 2).

Definition walkaddr (pagetable va : Z) : M kst Z :=
  if MAXUVA <=? va then ret 0
  else
    pte <- walk pagetable va false ;;
    if pte =? 0 then ret 0
    else
      v <- load64 pte ;;
      if negb (has v PTE_V) then ret 0
      else if negb (has v PTE_U) then ret 0
      else ret (PTE2PA v).

(** [kvmpa] of the running process's kernel page table. *)
Definition kvmpa (kpagetable va : Z) : M kst Z :=
  let off := va mod PGSIZE in
  pte <- walk kpagetable va false ;;
  if pte =? 0 then panic "kvmpa"
  else
    v <- load64 pte ;;
    if negb (has v PTE_V) then panic "kvmpa"
    else ret (u64 (PTE2PA v + off)).

(** ** Mapping *)

Definition mappages_body (pagetable last perm : Z) (x : Z * Z) : M kst (Z * Z + Z) :=
  let '(a, pa) := x in
  pte <- walk pagetable a true ;;
  if pte =? 0 then ret (inr (-1))
  else
    v <- load64 pte ;;
    if has v PTE_V then panic "remap"
    else
      store64 pte (Z.lor (Z.lor (PA2PTE pa) perm) PTE_V) ;;
      if a =? last then ret (inr 0)
      else ret (inl (u64 (a + PGSIZE), u64 (pa + PGSIZE))).

(** Iterations up to [last], or up to the panic of [walk] at [MAXVA] when the
    range is empty. *)
Definition mappages_fuel (a last : Z) : nat :=
  if a <=? last then S (Z.to_nat ((last - a) / PGSIZE))
  else S (S (Z.to_nat ((MAXVA - a) / PGSIZE))).

Definition mappages (pagetable va size pa perm : Z) : M kst Z :=
  let a := PGROUNDDOWN va in
  let last := PGROUNDDOWN (u64 (va + size - 1)) in
  loop (mappages_fuel a last) (mappages_body pagetable last perm) (a, pa).

(** Boot-time mapping into the kernel's page table. *)
Definition kvmmap (kernel_pagetable va pa sz perm : Z) : M kst unit :=
  r <- mappages kernel_pagetable va sz pa perm ;;
  if negb (r =? 0) then panic "kvmmap" else ret tt.

Definition ukvmmap (pagetable va pa sz perm : Z) : M kst unit :=
  r <- mappages pagetable va sz pa perm ;;
  if r <? 0 then panic "ukvmmap" else ret tt.

Definition uvmcreate : M kst Z :=
  pagetable <- kalloc_page ;;
  if pagetable =? 0 then ret 0
  else do_memset pagetable 0 PGSIZE ;; ret pagetable.

Section code.
Context {L : Linker}.

(** ** Unmapping *)

Definition uvmunmap_body (pagetable stop : Z) (do_free : bool) (a : Z) : M kst (Z + unit) :=
  if a <? stop then
    pte <- walk pagetable a false ;;
    if pte =? 0 then ret (inl (u64 (a + PGSIZE)))
    else
      v <- load64 pte ;;
      if negb (has v PTE_V) then ret (inl (u64 (a + PGSIZE)))
      else if PTE_FLAGS v =? PTE_V then panic "uvmunmap: not a leaf"
      else
        when do_free (kfree_page (PTE2PA v)) ;;
        store64 pte 0 ;;
        ret (inl (u64 (a + PGSIZE)))
  else ret (inr tt).

Definition uvmunmap (pagetable va npages : Z) (do_free : bool) : M kst unit :=
  if negb (va mod PGSIZE =? 0) then panic "uvmunmap: not aligned"
  else loop (S (Z.to_nat npages)) (uvmunmap_body pagetable (u64 (va + npages * PGSIZE)) do_free) va.

Definition uvmdealloc (pagetable oldsz newsz : Z) : M kst Z :=
  if oldsz <=? newsz then ret oldsz
  else
    when (PGROUNDUP newsz <? PGROUNDUP oldsz)
      (let npages := s32 ((PGROUNDUP oldsz - PGROUNDUP newsz) / PGSIZE) in
       uvmunmap pagetable (PGROUNDUP newsz) (u64 npages) true) ;;
    ret newsz.

Definition ukvmdealloc (pagetable oldsz newsz : Z) (alloc : bool) : M kst Z :=
  if oldsz <=? newsz then ret oldsz
  else
    when (PGROUNDUP newsz <? PGROUNDUP oldsz)
      (let npages := s32 ((PGROUNDUP oldsz - PGROUNDUP newsz) / PGSIZE) in
       uvmunmap pagetable (PGROUNDUP newsz) (u64 npages) alloc) ;;
    ret newsz.

Definition uvm_stack_unmap (pagetable : Z) (do_free : bool) : M kst unit :=
  uvmunmap pagetable USER_STACK_START ((USER_STACK_TOP - USER_STACK_START) / PGSIZE) do_free.

(** ** Growing and initialising user memory *)

(** [src] is the array of the first [sz] bytes at a kernel address. *)
Definition uvminit (pagetable src sz : Z) : M kst unit :=
  if PGSIZE <=? sz then panic "inituvm: more than a page"
  else
    mem <- kalloc_page ;;
    do_memset mem 0 PGSIZE ;;
    mappages pagetable 0 PGSIZE mem (Z.lor (Z.lor (Z.lor PTE_W PTE_R) PTE_X) PTE_U) ;;
    do_memmove mem src sz.

Definition uvmalloc_body (pagetable oldsz newsz : Z) (a : Z) : M kst (Z + Z) :=
  if a <? newsz then
    mem <- kalloc_page ;;
    if mem =? 0 then uvmdealloc pagetable a oldsz ;; ret (inr 0)
    else
      do_memset mem 0 PGSIZE ;;
      r <- mappages pagetable a PGSIZE mem (Z.lor (Z.lor (Z.lor PTE_W PTE_X) PTE_R) PTE_U) ;;
      if negb (r =? 0) then
        kfree_page mem ;; uvmdealloc pagetable a oldsz ;; ret (inr 0)
      else ret (inl (u64 (a + PGSIZE)))
  else ret (inr newsz).

Definition uvmalloc (pagetable oldsz newsz : Z) : M kst Z :=
  if newsz <? oldsz then ret oldsz
  else if MAXUVA <? newsz then ret 0
  else
    let oldsz := PGROUNDUP oldsz in
    loop (S (Z.to_nat ((newsz - oldsz + PGSIZE - 1) / PGSIZE)))
         (uvmalloc_body pagetable oldsz newsz) oldsz.

Definition uvm_stack_init (pagetable : Z) : M kst Z :=
  mem <- kalloc_page ;;
  let va := USER_STACK_TOP - PGSIZE in
  if mem =? 0 then ret (-1)
  else
    do_memset mem 0 PGSIZE ;;
    r <- mappages pagetable va PGSIZE mem (Z.lor (Z.lor PTE_R PTE_W) PTE_U) ;;
    if r <? 0 then kfree_page mem ;; ret (-1)
    else ret 0.

(** ** Mirroring user pages in the process's kernel page table *)

Definition upg2ukpg_body (u_pagetable k_pagetable end_addr : Z) (addr : Z) : M kst (Z + Z) :=
  if addr <? end_addr then
    u_pte <- walk u_pagetable addr false ;;
    uv <- (if u_pte =? 0 then ret 0 else load64 u_pte) ;;
    if (u_pte =? 0) || negb (has uv PTE_V) then ret (inl (u64 (addr + PGSIZE)))
    else
      k_pte <- walk k_pagetable addr true ;;
      if k_pte =? 0 then ret (inr (-1))
      else
        uv <- load64 u_pte ;;
        store64 k_pte (Z.land uv (Z.lnot PTE_U)) ;;
        ret (inl (u64 (addr + PGSIZE)))
  else ret (inr 0).

Definition upg2ukpg (u_pagetable k_pagetable begin_addr end_addr : Z) : M kst Z :=
  if (end_addr <? begin_addr) || (MAXUVA <? end_addr) then panic "upg2ukpg: range"
  else loop (S (Z.to_nat ((end_addr - begin_addr + PGSIZE - 1) / PGSIZE)))
            (upg2ukpg_body u_pagetable k_pagetable end_addr) begin_addr.

Definition vm_sync_user_page (p : option uspace) (va : Z) : M kst Z :=
  let page := PGROUNDDOWN va in
  match p with
  | None => ret (-1)
  | Some p =>
      if MAXUVA <=? page then ret (-1)
      else
        r <- upg2ukpg (us_pagetable p) (us_kpagetable p) page (page + PGSIZE) ;;
        if r <? 0 then ret (-1)
        else sfence_vma ;; ret 0
  end.

Definition uvm_stack_sync (user kernel : Z) : M kst unit :=
  r <- upg2ukpg user kernel USER_STACK_START USER_STACK_TOP ;;
  if r <? 0 then panic "uvm_stack_sync: upg2ukpg" else ret tt.

(** ** Demand paging and copy on write *)

Definition uvm_fault_alloc (p : option uspace) (pagetable va perm : Z) : M kst Z :=
  match p with
  | None => ret (-1)
  | Some u =>
    if negb (pagetable =? us_pagetable u) || negb (va mod PGSIZE =? 0) || (MAXUVA <=? va) then ret (-1)
    else
      pte <- walk pagetable va false ;;
      v <- (if pte =? 0 then ret 0 else load64 pte) ;;
      if negb (pte =? 0) && has v PTE_V then ret (-1)
      else
        mem <- kalloc_page ;;
        if mem =? 0 then ret (-1)
        else
          do_memset mem 0 PGSIZE ;;
          r <- mappages pagetable va PGSIZE mem (Z.lor perm PTE_U) ;;
          if negb (r =? 0) then kfree_page mem ;; ret (-1)
          else
            r <- vm_sync_user_page p va ;;
            if r <? 0 then uvmunmap pagetable va 1 true ;; ret (-1)
            else ret 0
  end.

(** [p] is [myproc()]. *)
Definition uvmcowmalloc (p : option uspace) (pagetable va : Z) : M kst Z :=
  if negb (va mod PGSIZE =? 0) then ret 0
  else
    pa <- walkaddr pagetable va ;;
    if pa =? 0 then ret 0
    else
      pte <- walk pagetable va false ;;
      if pte =? 0 then ret 0
      else
        q <- kgetquota pa ;;
        if q =? 1 then
          v <- load64 pte ;;
          store64 pte (Z.lor v PTE_W) ;;
          v <- load64 pte ;;
          store64 pte (Z.land v (Z.lnot PTE_COW)) ;;
          r <- vm_sync_user_page p va ;;
          if r <? 0 then panic "uvmcowmalloc: sync user page" else ret pa
        else
          mem <- kalloc_page ;;
          if mem =? 0 then ret 0
          else
            do_memmove mem pa PGSIZE ;;
            v <- load64 pte ;;
            store64 pte (Z.land v (Z.lnot PTE_V)) ;;
            v <- load64 pte ;;
            r <- mappages pagetable va PGSIZE mem
                   (Z.land (Z.lor (PTE_FLAGS v) PTE_W) (Z.lnot PTE_COW)) ;;
            if negb (r =? 0) then
              kfree_page mem ;;
              v <- load64 pte ;;
              store64 pte (Z.lor v PTE_V) ;;
              ret 0
            else
              r <- vm_sync_user_page p va ;;
              if r <? 0 then panic "uvmcowmalloc: sync user page"
              else kfree_page pa ;; ret mem.

(** ** Copying an address space (fork) *)

Definition uvmcopy_body (old new start stop : Z) (i : Z) : M kst (Z + Z) :=
  if i <? stop then
    pte <- walk old i false ;;
    if pte =? 0 then ret (inl (u64 (i + PGSIZE)))
    else
      v <- load64 pte ;;
      if negb (has v PTE_V) then ret (inl (u64 (i + PGSIZE)))
      else
        let pa := PTE2PA v in
        let flags := PTE_FLAGS v in
        let cow := has flags PTE_W in
        let flags := if cow then Z.land (Z.lor flags PTE_COW) (Z.lnot PTE_W) else flags in
        when cow (store64 pte (Z.lor (PA2PTE pa) flags)) ;;
        r <- mappages new i PGSIZE pa flags ;;
        if negb (r =? 0) then
          uvmunmap new start ((i - start) / PGSIZE) true ;;
          ret (inr (-1))
        else
          kaddquota pa ;;
          ret (inl (u64 (i + PGSIZE)))
  else sfence_vma ;; ret (inr 0).

Definition uvmcopy_range (old new start stop : Z) : M kst Z :=
  loop (S (Z.to_nat ((stop - start + PGSIZE - 1) / PGSIZE))) (uvmcopy_body old new start stop) start.

Definition uvmcopy (old new sz : Z) : M kst Z := uvmcopy_range old new 0 sz.

Definition uvm_stack_copy (old new : Z) : M kst Z :=
  uvmcopy_range old new USER_STACK_START USER_STACK_TOP.

Definition uvmclear (pagetable va : Z) : M kst unit :=
  pte <- walk pagetable va false ;;
  if pte =? 0 then panic "uvmclear"
  else
    v <- load64 pte ;;
    store64 pte (Z.land v (Z.lnot PTE_U)).

(** ** Freeing page-table pages

    The recursion goes one level down per call; [depth] is the number of
    levels below the current table, 2 for an Sv39 root. *)

Definition is_table (pte : Z) : bool := has pte PTE_V && (Z.land pte PTE_RWX =? 0).

Fixpoint for_i {S} (n : nat) (i : Z) (body : Z -> M S unit) : M S unit :=
  match n with
  | O => ret tt
  | Datatypes.S n' => body i ;; for_i n' (i + 1) body
  end.

Fixpoint freewalk (depth : nat) (pagetable : Z) : M kst unit :=
  for_i 512 0 (fun i =>
    pte <- load64 (pte_addr pagetable i) ;;
    if is_table pte then
      match depth with
      | O => spin
      | Datatypes.S d => freewalk d (PTE2PA pte)
      end ;;
      store64 (pte_addr pagetable i) 0
    else if has pte PTE_V then panic "freewalk: leaf"
    else ret tt) ;;
  kfree_page pagetable.

Fixpoint ukvmfree_rec (depth : nat) (pagetable : Z) : M kst unit :=
  for_i 512 0 (fun i =>
    pte <- load64 (pte_addr pagetable i) ;;
    when (is_table pte)
      match depth with
      | O => spin
      | Datatypes.S d => ukvmfree_rec d (PTE2PA pte)
      end ;;
    store64 (pte_addr pagetable i) 0) ;;
  kfree_page pagetable.

Definition ukvmfree (pagetable : Z) : M kst unit := ukvmfree_rec 2 pagetable.

Definition uvmfree (pagetable sz : Z) : M kst unit :=
  when (0 <? sz) (uvmunmap pagetable 0 (PGROUNDUP sz / PGSIZE) true) ;;
  freewalk 2 pagetable.

(** ** The kernel's own mappings *)

Record region := Region { r_va : Z; r_pa : Z; r_sz : Z; r_perm : Z }.

Definition PTE_RW : Z := Z.lor PTE_R PTE_W.
Definition PTE_RX : Z := Z.lor PTE_R PTE_X.

Definition device (pa : Z) : region := Region (pa + VIRT_OFFSET) pa PGSIZE PTE_RW.

(** In the order of the calls in [kvminit] and [ukvminit] (K210 build). *)
Definition kernel_regions : list region :=
  (device <$> [UARTHS; GPIOHS; UART0; UART1; UART2; DMAC; GPIO; FPIOA; SYSCTL;
               SPI0; SPI1; SPI2; SPI_SLAVE; I2C0; I2C1; I2C2]) ++
  [ Region (CLINT + VIRT_OFFSET) CLINT 0x10000 PTE_RW;
    Region (PLIC + VIRT_OFFSET) PLIC 0x400000 PTE_RW;
    Region KERNBASE KERNBASE (etext - KERNBASE) PTE_RX;
    Region etext etext (PHYSTOP - etext) PTE_RW;
    Region TRAMPOLINE trampoline PGSIZE PTE_RX ].

Fixpoint kvm_map_all (kernel_pagetable : Z) (rs : list region) : M kst unit :=
  match rs with
  | [] => ret tt
  | r :: rs' => kvmmap kernel_pagetable (r_va r) (r_pa r) (r_sz r) (r_perm r) ;;
                kvm_map_all kernel_pagetable rs'
  end.

(** Returns the new value of [kernel_pagetable]. *)
Definition kvminit : M kst Z :=
  kernel_pagetable <- kalloc_page ;;
  do_memset kernel_pagetable 0 PGSIZE ;;
  kvm_map_all kernel_pagetable kernel_regions ;;
  ret kernel_pagetable.

Fixpoint ukvm_map_all (pagetable : Z) (rs : list region) : M kst bool :=
  match rs with
  | [] => ret true
  | r :: rs' =>
      x <- mappages pagetable (r_va r) (r_sz r) (r_pa r) (r_perm r) ;;
      if x <? 0 then ret false else ukvm_map_all pagetable rs'
  end.

Definition ukvminit : M kst Z :=
  pagetable <- kalloc_page ;;
  if pagetable =? 0 then ret 0
  else
    do_memset pagetable 0 PGSIZE ;;
    ok <- ukvm_map_all pagetable kernel_regions ;;
    if ok then ret pagetable
    else ukvmfree pagetable ;; ret 0.

Fixpoint ukvm_unmap_all (pagetable : Z) (rs : list region) : M kst unit :=
  match rs with
  | [] => ret tt
  | r :: rs' => uvmunmap pagetable (r_va r) (r_sz r / PGSIZE) false ;;
                ukvm_unmap_all pagetable rs'
  end.

Definition ukvmunmap (pagetable : Z) : M kst unit := ukvm_unmap_all pagetable kernel_regions.

(** ** A process's page tables (src/kernel/proc/proc.c) *)

Definition proc_pagetable (trapframe : Z) : M kst Z :=
  pagetable <- uvmcreate ;;
  if pagetable =? 0 then ret 0
  else
    r <- mappages pagetable TRAMPOLINE PGSIZE trampoline PTE_RX ;;
    if r <? 0 then uvmfree pagetable 0 ;; ret 0
    else
      r <- mappages pagetable TRAPFRAME PGSIZE trapframe PTE_RW ;;
      if r <? 0 then
        uvmunmap pagetable TRAMPOLINE 1 false ;; uvmfree pagetable 0 ;; ret 0
      else
        r <- mappages pagetable SIGTRAMP PGSIZE sigtramp (Z.lor (Z.lor PTE_R PTE_X) PTE_U) ;;
        if r <? 0 then
          uvmunmap pagetable TRAMPOLINE 1 false ;;
          uvmunmap pagetable TRAPFRAME 1 false ;;
          uvmfree pagetable 0 ;; ret 0
        else ret pagetable.

Definition proc_freepagetable (pagetable sz : Z) : M kst unit :=
  uvm_stack_unmap pagetable true ;;
  uvmunmap pagetable TRAMPOLINE 1 false ;;
  uvmunmap pagetable TRAPFRAME 1 false ;;
  uvmunmap pagetable SIGTRAMP 1 false ;;
  uvmfree pagetable sz.

Definition proc_freekpagetable (pagetable kstack sz : Z) : M kst unit :=
  ukvmunmap pagetable ;;
  uvmunmap pagetable 0 (PGROUNDUP sz / PGSIZE) false ;;
  uvm_stack_unmap pagetable false ;;
  uvmunmap pagetable kstack 1 true ;;
  uvmfree pagetable 0.

End code.
