(* ===== verification/VmTree.v ===== *)
(** * Page tables as trees, and the correctness of [walk] and [mappages]

    [tree] gives the address of every page-table page by its path of indices
    from the root; [pt_rep] says that memory holds exactly that tree.  A page
    table then denotes a function from virtual pages to leaf entries
    ([pte_of]), and the operations of vm.c are updates of that function.
    Allocation is used only through [PageAllocSpec]. *)

From S2P Require Import Prelude Riscv Memory Spinlock Kalloc Vm.
Import Hart.

(** Path of indices from the root (at most two) to page-table page. *)
Abbreviation tree := (gmap (list Z) Z).

Definition in_page (p a : Z) : Prop := p <= a < p + PGSIZE.

(** ** Bits of page-table entries *)

Lemma has_zero f : has 0 f = false.
Proof. by unfold has; rewrite Z.land_0_l. Qed.

Lemma land_flags v f : 0 <= f < 1024 -> Z.land (PTE_FLAGS v) f = Z.land v f.
Proof.
  intros Hf. unfold PTE_FLAGS. rewrite <- Z.land_assoc. f_equal.
  rewrite Z.land_comm. change 0x3FF with (Z.ones 10). rewrite Z.land_ones by lia.
  apply Z.mod_small. change (2 ^ 10) with 1024. lia.
Qed.

Lemma has_flags v f : 0 <= f < 1024 -> has (PTE_FLAGS v) f = has v f.
Proof. intros. unfold has. by rewrite land_flags. Qed.

Lemma has_lor_V v : has (Z.lor v PTE_V) PTE_V = true.
Proof.
  unfold has, PTE_V. change (Z.shiftl 1 0) with 1. rewrite Z.land_lor_distr_l.
  change (Z.land 1 1) with 1. apply negb_true_iff, Z.eqb_neq. intros H.
  apply Z.lor_eq_0_iff in H as [_ H]. lia.
Qed.

Section tree.
Context {L : Linker} {LOK : LinkerOk L} {PAS : PageAllocSpec}.

Lemma page_ok_range p : page_ok p -> 0 < p < 2 ^ 56 /\ p mod PGSIZE = 0.
Proof.
  intros [Hal Hr]. pose proof etext_lo. pose proof etext_end.
  unfold KERNBASE, PHYSTOP in *. lia.
Qed.

(** The entry that points to the next table. *)
Definition table_pte (q : Z) : Z := Z.lor (PA2PTE q) PTE_V.

Lemma table_pte_pa q : page_ok q -> PTE2PA (table_pte q) = q.
Proof.
  intros Hq. destruct (page_ok_range q Hq) as [? ?]. unfold table_pte.
  assert (0 <= PTE_V < 1024) by (change PTE_V with 1; lia).
  assert (0 <= q < 2 ^ 56) by lia. rewrite PTE2PA_pack; done.
Qed.

Lemma table_pte_range q : page_ok q -> 0 <= table_pte q < 2 ^ 64.
Proof.
  intros Hq. destruct (page_ok_range q Hq) as [? ?]. unfold table_pte, PTE_V.
  change (Z.shiftl 1 0) with 1. rewrite PA2PTE_div by lia. change 1024 with (2 ^ 10).
  rewrite lor_low_high by (change (2 ^ 10) with 1024; lia). change (2 ^ 10) with 1024.
  assert (0 <= q / 4096 < 2 ^ 44) by (split; [apply Z.div_pos; lia|apply Z.div_lt_upper_bound; lia]). lia.
Qed.

Record pt_rep (s : kst) (t : tree) (root : Z) : Prop := {
  pr_root : t !! [] = Some root;
  pr_inj k k' p : t !! k = Some p -> t !! k' = Some p -> k = k';
  pr_page k p : t !! k = Some p -> page_ok p /\ quota s p = 1;
  pr_prefix k i q : t !! (k ++ [i]) = Some q ->
    is_Some (t !! k) /\ 0 <= i < 512 /\ (length k < 2)%nat;
  pr_entry k p i : t !! k = Some p -> (length k < 2)%nat -> 0 <= i < 512 ->
    match t !! (k ++ [i]) with
    | Some q => ld64 (k_mem s) (pte_addr p i) = table_pte q
    | None => has (ld64 (k_mem s) (pte_addr p i)) PTE_V = false
    end;
}.

(** The leaf entry of [va]; 0 when a table on its path is missing. *)
Definition pte_of (s : kst) (t : tree) (va : Z) : Z :=
  match t !! [PX 2 va; PX 1 va] with
  | Some q => ld64 (k_mem s) (pte_addr q (PX 0 va))
  | None => 0
  end.

(** Address of the leaf entry. *)
Definition pte_ptr (t : tree) (va : Z) : Z :=
  match t !! [PX 2 va; PX 1 va] with
  | Some q => pte_addr q (PX 0 va)
  | None => 0
  end.

(** A step that only extends the tree: new tables come from free pages, all
    other pages keep their counts, and no byte outside the tree changes. *)
Record pt_step (s : kst) (t : tree) (s' : kst) (t' : tree) : Prop := {
  ps_inv : kinv s';
  ps_frame : kframe s s';
  ps_sub : t ⊆ t';
  ps_quota p : page_ok p -> (forall k, t' !! k <> Some p) -> quota s' p = quota s p;
  ps_new k p : t' !! k = Some p -> t !! k = None -> quota s p = 0;
  ps_mem a : (forall k p, t' !! k = Some p -> ~ in_page p a) -> ld8 (k_mem s') a = ld8 (k_mem s) a;
}.

Lemma pte_addr_in p i : 0 <= i < 512 -> in_page p (pte_addr p i) /\ pte_addr p i + 8 <= p + PGSIZE.
Proof. unfold in_page, pte_addr, PGSIZE. lia. Qed.

Lemma pte_addr_disjoint p p' i i' :
  page_ok p -> page_ok p' -> 0 <= i < 512 -> 0 <= i' < 512 -> (p <> p' \/ i <> i') ->
  pte_addr p' i' + 8 <= pte_addr p i \/ pte_addr p i + 8 <= pte_addr p' i'.
Proof.
  intros [Hp _] [Hp' _] Hi Hi' Hne. unfold pte_addr, PGSIZE in *.
  destruct (decide (p = p')) as [->|]; [destruct Hne; [done|lia]|]. dlia.
Qed.

Lemma page_ok_sep p q : page_ok p -> page_ok q -> p <> q -> p + PGSIZE <= q \/ q + PGSIZE <= p.
Proof. intros [Hp _] [Hq _] Hne. unfold PGSIZE in *. dlia. Qed.

Lemma page_ok_out p q a : page_ok p -> page_ok q -> p <> q -> in_page p a -> ~ in_page q a.
Proof. intros Hp Hq Hne Ha. unfold in_page in *. destruct (page_ok_sep p q Hp Hq Hne); lia. Qed.

Lemma in_page_word p a : p <= a < p + 8 -> in_page p a.
Proof. unfold in_page, PGSIZE. lia. Qed.

(** ** Installing a fresh table page *)

Definition install (s : kst) (q p i : Z) : kst :=
  set_mem (fun m => st64 (memset m q 0 PGSIZE) (pte_addr p i) (table_pte q)) s.

Lemma ld64_install s q p i a :
  page_ok q -> page_ok p -> q <> p -> 0 <= i < 512 ->
  ld64 (k_mem (install s q p i)) a =
    if a =? pte_addr p i then table_pte q
    else if (q <=? a) && (a <? q + PGSIZE - 7) then 0
    else ld64 (k_mem (install s q p i)) a.
Proof.
  intros Hq Hp Hne Hi. simpl. destruct (Z.eqb_spec a (pte_addr p i)) as [->|Ha].
  - rewrite ld64_st64_eq. apply u64_small, table_pte_range; done.
  - destruct (range_spec q (q + PGSIZE - 7) a); [|done].
    destruct (pte_addr_in p i Hi) as [Hin Hin8]. unfold in_page in *.
    rewrite ld64_st64_ne by (destruct (page_ok_sep q p Hq Hp Hne); lia).
    apply ld64_memset0; lia.
Qed.

Lemma install_other s q p i a :
  0 <= i < 512 -> ~ in_page q a -> (a < pte_addr p i \/ pte_addr p i + 8 <= a) ->
  ld8 (k_mem (install s q p i)) a = ld8 (k_mem s) a.
Proof.
  intros Hi Hq Ha. simpl. rewrite ld8_st64_ne by lia. apply ld8_memset_ne; [done|done].
Qed.

(** A fresh zeroed page [q] becomes the table at path [k ++ [i]]. *)
Lemma pt_rep_install s t root k p i q :
  pt_rep s t root -> t !! k = Some p -> (length k < 2)%nat -> 0 <= i < 512 ->
  t !! (k ++ [i]) = None -> page_ok q -> quota s q = 1 -> (forall k', t !! k' <> Some q) ->
  pt_rep (install s q p i) (<[k ++ [i] := q]> t) root.
Proof.
  intros [Hroot Hinj Hpage Hpre Hent] Hk Hlen Hi Hnone Hq Hqq Hfresh.
  assert (Hpq : q <> p) by (intros ->; by apply (Hfresh k)).
  destruct (Hpage _ _ Hk) as [Hp _]. split.
  - rewrite lookup_insert_ne; [done|]. by destruct k.
  - intros k1 k2 x. rewrite !lookup_insert. repeat case_decide; subst; intros; simplify_eq; try done.
    + by destruct (Hfresh k2).
    + by destruct (Hfresh k1).
    + by eapply Hinj.
  - intros k1 x. rewrite lookup_insert. case_decide; intros; simplify_eq; [done|]. by apply (Hpage k1).
  - intros k1 j x. rewrite lookup_insert. case_decide as E.
    + apply app_inj_tail in E as [-> ->]. intros _. split_and!; try lia; try done.
      rewrite lookup_insert. case_decide; by eexists.
    + intros Hx. destruct (Hpre _ _ _ Hx) as ([y Hy] & ? & ?). split; [|done].
      rewrite lookup_insert. case_decide; by eexists.
  - intros k1 x j. rewrite lookup_insert. case_decide as E.
    + (* the new table *)
      intros ? Hl Hj. simplify_eq. rewrite lookup_insert_ne.
      2:{ intros Heq. apply (f_equal length) in Heq. rewrite !length_app in Heq. simpl in Heq. lia. }
      destruct (t !! ((k ++ [i]) ++ [j])) as [y|] eqn:Ey.
      * destruct (Hpre _ _ _ Ey) as ([? ?] & _). congruence.
      * rewrite ld64_install by done.
        destruct (pte_addr_in x j Hj) as [Hin Hin8]. unfold in_page in Hin.
        destruct (Z.eqb_spec (pte_addr x j) (pte_addr p i)) as [Heq|_].
        { destruct (pte_addr_in p i Hi) as [Hinp _]. unfold in_page in Hinp.
          destruct (page_ok_sep x p Hq Hp Hpq); lia. }
        destruct (range_spec x (x + PGSIZE - 7) (pte_addr x j)); [apply has_zero|lia].
    + intros Hx Hl Hj. destruct (Hpage _ _ Hx) as [Hxok _]. specialize (Hent _ _ j Hx Hl Hj).
      assert (Hxq : x <> q) by (intros ->; by apply (Hfresh k1)).
      destruct (decide (k ++ [i] = k1 ++ [j])) as [E2|E2].
      * apply app_inj_tail in E2 as [-> ->]. rewrite lookup_insert_eq. simplify_eq.
        rewrite ld64_install by done. by rewrite Z.eqb_refl.
      * rewrite lookup_insert_ne by done.
        assert (Hne : x <> p \/ j <> i).
        { destruct (decide (x = p)) as [->|]; [|by left]. right. intros ->. apply E2. f_equal. by eapply Hinj. }
        assert (Hld : ld64 (k_mem (install s q p i)) (pte_addr x j) = ld64 (k_mem s) (pte_addr x j)).
        { apply ld64_ext. intros b Hb. destruct (pte_addr_in x j Hj) as [Hin Hin8]. unfold in_page in Hin.
          apply install_other; [done| |].
          - unfold in_page. destruct (page_ok_sep x q Hxok Hq Hxq); lia.
          - destruct (pte_addr_disjoint p x i j Hp Hxok Hi Hj ltac:(naive_solver)); lia. }
        by rewrite Hld.
Qed.

(** ** Entries of the tree *)

Lemma entry_some s t root k p i q :
  pt_rep s t root -> t !! k = Some p -> t !! (k ++ [i]) = Some q ->
  has (ld64 (k_mem s) (pte_addr p i)) PTE_V = true /\ PTE2PA (ld64 (k_mem s) (pte_addr p i)) = q.
Proof.
  intros Hr Hk Hq. destruct (pr_prefix _ _ _ Hr _ _ _ Hq) as (_ & Hi & Hl).
  destruct (pr_page _ _ _ Hr _ _ Hq) as [Hok _].
  pose proof (pr_entry _ _ _ Hr _ _ i Hk Hl Hi) as He. rewrite Hq in He. rewrite He.
  split; [apply has_lor_V|by apply table_pte_pa].
Qed.

Lemma entry_none s t root k p i :
  pt_rep s t root -> t !! k = Some p -> (length k < 2)%nat -> 0 <= i < 512 -> t !! (k ++ [i]) = None ->
  has (ld64 (k_mem s) (pte_addr p i)) PTE_V = false.
Proof. intros Hr Hk Hl Hi Hn. pose proof (pr_entry _ _ _ Hr _ _ i Hk Hl Hi) as He. by rewrite Hn in He. Qed.

Lemma leaf_table_L1 s t root va q :
  pt_rep s t root -> t !! [PX 2 va; PX 1 va] = Some q -> is_Some (t !! [PX 2 va]).
Proof. intros Hr Hq. by destruct (pr_prefix _ _ _ Hr [PX 2 va] (PX 1 va) q Hq) as (? & _). Qed.

(** ** Memory that is not part of a tree *)

Definition outside (t : tree) (a : Z) : Prop := forall k p, t !! k = Some p -> ~ in_page p a.

Lemma pt_rep_ext s s' t root :
  pt_rep s t root ->
  (forall k p, t !! k = Some p -> quota s' p = quota s p) ->
  (forall k p a, t !! k = Some p -> in_page p a -> ld8 (k_mem s') a = ld8 (k_mem s) a) ->
  pt_rep s' t root /\ forall va, pte_of s' t va = pte_of s t va.
Proof.
  intros Hr Hq Hm. pose proof Hr as [H1 H2 H3 H4 H5].
  assert (Hld : forall k p i, t !! k = Some p -> 0 <= i < 512 ->
    ld64 (k_mem s') (pte_addr p i) = ld64 (k_mem s) (pte_addr p i)).
  { intros k p i Hk Hi. apply ld64_ext. intros a Ha. apply (Hm k p a Hk).
    destruct (pte_addr_in p i Hi) as [Hin ?]. unfold in_page in *. lia. }
  split.
  - split; try done.
    + intros k p Hk. rewrite (Hq k p Hk). by apply (H3 k).
    + intros k p i Hk Hl Hi. rewrite (Hld k p i Hk Hi). by apply H5.
  - intros va. unfold pte_of. destruct (t !! [PX 2 va; PX 1 va]) as [q|] eqn:E; [|done].
    apply (Hld _ _ _ E). by apply PX_range.
Qed.

(** Two page tables with no page in common. *)
Definition disjoint_trees (t1 t2 : tree) : Prop :=
  forall k1 k2 p, t1 !! k1 = Some p -> t2 !! k2 = Some p -> False.

Lemma disjoint_outside s1 t1 r1 s2 t2 r2 k p a :
  pt_rep s1 t1 r1 -> pt_rep s2 t2 r2 -> disjoint_trees t1 t2 ->
  t1 !! k = Some p -> in_page p a -> outside t2 a.
Proof.
  intros H1 H2 Hd Hk Ha k2 p2 Hk2 Ha2.
  destruct (pr_page _ _ _ H1 _ _ Hk) as [Hp _]. destruct (pr_page _ _ _ H2 _ _ Hk2) as [Hp2 _].
  destruct (decide (p = p2)) as [->|Hne]; [by eapply Hd|].
  unfold in_page in *. destruct (page_ok_sep p p2 Hp Hp2 Hne); lia.
Qed.

(** Extending one page table leaves every other one alone. *)
Lemma pt_step_other s t s' t' root t2 root2 :
  pt_step s t s' t' -> pt_rep s' t' root -> pt_rep s t2 root2 -> disjoint_trees t2 t ->
  pt_rep s' t2 root2 /\ disjoint_trees t2 t' /\ forall va, pte_of s' t2 va = pte_of s t2 va.
Proof.
  intros Hst Hr' Hr2 Hd.
  assert (Hd' : disjoint_trees t2 t').
  { intros k1 k2 p Hk1 Hk2. destruct (pr_page _ _ _ Hr2 _ _ Hk1) as [_ Hq1].
    destruct (t !! k2) as [x|] eqn:Ex.
    - pose proof (lookup_weaken _ _ _ _ Ex (ps_sub _ _ _ _ Hst)). simplify_eq. by apply (Hd k1 k2 p).
    - pose proof (ps_new _ _ _ _ Hst _ _ Hk2 Ex). lia. }
  assert (Hq : forall k p, t2 !! k = Some p -> quota s' p = quota s p).
  { intros k p Hk. apply (ps_quota _ _ _ _ Hst); [by apply (pr_page _ _ _ Hr2 k)|].
    intros k' Hk'. by apply (Hd' k k' p). }
  destruct (pt_rep_ext s s' t2 root2 Hr2 Hq) as [? ?]; [|done].
  intros k p a Hk Ha. apply (ps_mem _ _ _ _ Hst). intros k' p' Hk' Ha'.
  destruct (pr_page _ _ _ Hr2 _ _ Hk) as [Hok _]. destruct (pr_page _ _ _ Hr' _ _ Hk') as [Hok' _].
  destruct (decide (p = p')) as [->|Hne]; [by apply (Hd' k k' p')|].
  unfold in_page in *. destruct (page_ok_sep p p' Hok Hok' Hne); lia.
Qed.

Lemma pt_step_refl s t : kinv s -> pt_step s t s t.
Proof. intros. by split; try done; intros; simplify_eq. Qed.

Lemma pt_step_trans s t s1 t1 s2 t2 root :
  pt_rep s1 t1 root -> pt_step s t s1 t1 -> pt_step s1 t1 s2 t2 -> pt_rep s2 t2 root ->
  pt_step s t s2 t2.
Proof.
  intros Hr1 [A1 A2 A3 A4 A5 A6] [B1 B2 B3 B4 B5 B6] Hr2.
  assert (Hback : forall p, (forall k, t2 !! k <> Some p) -> forall k, t1 !! k <> Some p).
  { intros p Hp k Hk. apply (Hp k). by eapply lookup_weaken. }
  split; [done|by etrans|by etrans| | |].
  - intros p Hok Hp. rewrite B4 by done. apply A4; [done|by apply Hback].
  - intros k p Hk Hn. destruct (t1 !! k) as [x|] eqn:Ex.
    + pose proof (lookup_weaken _ _ _ _ Ex B3). simplify_eq. by apply (A5 k).
    + pose proof (B5 _ _ Hk Ex) as H0. rewrite <- A4; [done|by apply (pr_page _ _ _ Hr2 k)|].
      intros k' Hk'. destruct (pr_page _ _ _ Hr1 _ _ Hk'). lia.
  - intros a Ha. rewrite B6 by done. apply A6. intros k p Hk. apply (Ha k). by eapply lookup_weaken.
Qed.

(** ** walk *)

(** Without [alloc], [walk] only reads. *)
Lemma walk_lookup s t root va :
  pt_rep s t root -> 0 <= va < MAXVA ->
  wp (walk root va false) (fun r s' => s' = s /\ r = pte_ptr t va) s.
Proof.
  intros Hr Hva. unfold walk, pte_ptr. destruct (Z.leb_spec MAXVA va); [lia|].
  pose proof (pr_root _ _ _ Hr) as Hroot.
  apply wp_loop_S. unfold walk_body at 1. change (0 <? 2) with true. cbv iota. wp_go.
  destruct (t !! [PX 2 va]) as [q1|] eqn:E1.
  - destruct (entry_some _ _ _ [] root (PX 2 va) q1 Hr Hroot E1) as [Hv Hpa]. rewrite Hv, Hpa. wp_go.
    apply wp_loop_S. unfold walk_body at 1. change (0 <? 2 - 1) with true. cbv iota. wp_go. change (2 - 1) with 1.
    destruct (t !! [PX 2 va; PX 1 va]) as [q|] eqn:E2.
    + destruct (entry_some _ _ _ [PX 2 va] q1 (PX 1 va) q Hr E1 E2) as [Hv' Hpa']. rewrite Hv', Hpa'.
      wp_go. apply wp_loop_S. unfold walk_body at 1. change (0 <? 1 - 1) with false. cbv iota. by wp_go.
    + rewrite (entry_none _ _ _ [PX 2 va] q1 (PX 1 va) Hr E1); [by wp_go|simpl; lia|by apply PX_range|done].
  - rewrite (entry_none _ _ _ [] root (PX 2 va) Hr Hroot); [|simpl; lia|by apply PX_range|done]. wp_go.
    split; [done|]. destruct (t !! [PX 2 va; PX 1 va]) as [q|] eqn:E2; [|done].
    destruct (leaf_table_L1 _ _ _ _ _ Hr E2). congruence.
Qed.

Lemma pte_ptr_nonzero s t root va q :
  pt_rep s t root -> t !! [PX 2 va; PX 1 va] = Some q -> pte_ptr t va = pte_addr q (PX 0 va) /\ pte_ptr t va <> 0.
Proof.
  intros Hr Hq. unfold pte_ptr. rewrite Hq. split; [done|].
  destruct (page_ok_range q) as [? _]; [by apply (pr_page _ _ _ Hr _ _ Hq)|].
  pose proof (PX_range 0 va ltac:(lia)). unfold pte_addr. lia.
Qed.

(** A table page taken from the free pages and linked into the tree. *)
Lemma install_step s s1 t root k p i q :
  kinv s -> pt_rep s t root -> t !! k = Some p -> (length k < 2)%nat -> 0 <= i < 512 ->
  t !! (k ++ [i]) = None -> alloc_post s q s1 -> q <> 0 ->
  let s' := install s1 q p i in
  let t' := <[k ++ [i] := q]> t in
  pt_rep s' t' root /\ pt_step s t s' t' /\ forall va, pte_of s' t' va = pte_of s t va.
Proof.
  intros Hinv Hr Hk Hl Hi Hn (Hinv1 & Hf & [(-> & _)|(Hq & _ & Hq0 & Hq1 & Hqo & Hm)]) Hne; [done|].
  intros s' t'.
  assert (Hfresh : forall k', t !! k' <> Some q).
  { intros k' Hk'. destruct (pr_page _ _ _ Hr _ _ Hk'). lia. }
  assert (Hr1 : pt_rep s1 t root /\ forall va, pte_of s1 t va = pte_of s t va).
  { apply pt_rep_ext; [done| |].
    - intros k' p' Hk'. apply Hqo; [by apply (pr_page _ _ _ Hr k')|]. intros ->. by apply (Hfresh k').
    - intros k' p' a Hk' Ha. rewrite Hm. apply ld8_memset_ne; [done|].
      assert (p' <> q) by (intros ->; by apply (Hfresh k')).
      destruct (pr_page _ _ _ Hr _ _ Hk') as [Hp' _]. unfold in_page in Ha.
      destruct (page_ok_sep p' q Hp' Hq); [done|lia|lia]. }
  destruct Hr1 as [Hr1 Hpte1].
  pose proof (pt_rep_install s1 t root k p i q Hr1 Hk Hl Hi Hn Hq Hq1 Hfresh) as Hr'.
  destruct (pr_page _ _ _ Hr _ _ Hk) as [Hp Hqp].
  assert (Hpq : q <> p) by (intros ->; by apply (Hfresh k)).
  destruct (pte_addr_in p i Hi) as [Hin Hin8]. unfold in_page in Hin.
  assert (Hout : forall a, ~ in_page q a -> ~ in_page p a -> ld8 (k_mem s') a = ld8 (k_mem s1) a).
  { intros a Ha Ha'. apply install_other; [done|done|]. unfold in_page in Ha'. lia. }
  split; [done|]. split; [split|].
  - apply kinv_mem; [|done]. intros x a Hx Hx0 Ha. apply in_page_word in Ha.
    assert (x <> q) by (intros E; rewrite E, Hq1 in Hx0; discriminate Hx0).
    assert (x <> p) by (intros E; rewrite E, (Hqo p Hp (not_eq_sym Hpq)), Hqp in Hx0; discriminate Hx0).
    apply Hout; [by apply (page_ok_out x q)|by apply (page_ok_out x p)].
  - exact Hf.
  - by apply insert_subseteq.
  - intros x Hx Hni. apply Hqo; [done|]. intros ->. apply (Hni (k ++ [i])). apply lookup_insert_eq.
  - intros k' x. unfold t'. rewrite lookup_insert. case_decide; intros Hx Hnn.
    + injection Hx as <-. exact Hq0.
    + rewrite Hnn in Hx. discriminate Hx.
  - intros a Ha. rewrite Hout; [rewrite Hm; apply ld8_memset_ne; [done|]| |].
    + apply (Ha (k ++ [i])). apply lookup_insert_eq.
    + apply (Ha (k ++ [i])). apply lookup_insert_eq.
    + apply (Ha k). unfold t'. rewrite lookup_insert_ne; [done|]. intros E.
      apply (f_equal length) in E. rewrite length_app in E. simpl in E. lia.
  - intros va. rewrite <- Hpte1. unfold pte_of, t'. rewrite lookup_insert. case_decide as E.
    + rewrite <- E, Hn. pose proof (PX_range 0 va ltac:(lia)) as H0.
      destruct (pte_addr_in q (PX 0 va) H0) as [Hq2 Hq3]. unfold in_page in Hq2.
      unfold s'. rewrite ld64_install by done.
      destruct (Z.eqb_spec (pte_addr q (PX 0 va)) (pte_addr p i)) as [He|_].
      { destruct (page_ok_sep q p Hq Hp Hpq); lia. }
      destruct (range_spec q (q + PGSIZE - 7) (pte_addr q (PX 0 va))); [done|lia].
    + destruct (t !! [PX 2 va; PX 1 va]) as [x|] eqn:Ex; [|done].
      destruct (pr_page _ _ _ Hr _ _ Ex) as [Hx _]. pose proof (PX_range 0 va ltac:(lia)) as H0.
      destruct (pte_addr_in x (PX 0 va) H0) as [Hx2 Hx3]. unfold in_page in Hx2.
      assert (x <> q) by (intros ->; by apply (Hfresh [PX 2 va; PX 1 va])).
      assert (x <> p).
      { intros ->. pose proof (pr_inj _ _ _ Hr _ _ _ Ex Hk). subst k. simpl in Hl. lia. }
      apply ld64_ext. intros a Ha. apply Hout; (apply (page_ok_out x); [done|done|done|unfold in_page; lia]).
Qed.

(** The tree grew by empty tables only: no translation changed. *)
Definition grown (root : Z) (s : kst) (t : tree) (s' : kst) (t' : tree) : Prop :=
  pt_rep s' t' root /\ pt_step s t s' t' /\ forall va, pte_of s' t' va = pte_of s t va.

Lemma grown_refl root s t : kinv s -> pt_rep s t root -> grown root s t s t.
Proof. intros. split_and!; [done|by apply pt_step_refl|done]. Qed.

Lemma grown_trans root s t s1 t1 s2 t2 :
  grown root s t s1 t1 -> grown root s1 t1 s2 t2 -> grown root s t s2 t2.
Proof.
  intros (H1 & H2 & H3) (K1 & K2 & K3). split_and!; [done|by apply (pt_step_trans s t s1 t1 s2 t2 root)|].
  intros va. by rewrite K3, H3.
Qed.

Definition no_free_page (s : kst) : Prop := forall p, page_ok p -> quota s p <> 0.

Lemma alloc_fail s s1 t root :
  kinv s -> pt_rep s t root -> alloc_post s 0 s1 -> grown root s t s1 t /\ no_free_page s1.
Proof.
  intros Hinv Hr (Hinv1 & Hf & [(_ & Hm & Hq & Hfull)|(_ & ? & _)]); [|done].
  assert (Hqq : forall p, quota s1 p = quota s p) by (intros p; unfold quota; by rewrite Hq).
  destruct (pt_rep_ext s s1 t root Hr) as [Hr1 Hpte]; [done|intros; by rewrite Hm|].
  split; [split_and!; [done| |done]|intros p Hp; rewrite Hqq; by apply Hfull].
  split; [done|done|done|done| |].
  - intros k p Hk Hn. rewrite Hk in Hn. discriminate Hn.
  - intros a _. by rewrite Hm.
Qed.

(** One level of an allocating [walk]. *)
Lemma walk_level s t root va level k p :
  kinv s -> pt_rep s t root -> t !! k = Some p -> (length k < 2)%nat -> 0 < level ->
  wp (walk_body va true (p, level)) (fun y s' => exists t', grown root s t s' t' /\
    match y with
    | inl (q, l) => l = level - 1 /\ t' !! (k ++ [PX level va]) = Some q
    | inr r => r = 0 /\ no_free_page s'
    end) s.
Proof.
  intros Hinv Hr Hk Hl Hlev. unfold walk_body. destruct (Z.ltb_spec 0 level); [|lia].
  pose proof (PX_range level va ltac:(lia)) as Hi. wp_go.
  destruct (t !! (k ++ [PX level va])) as [q|] eqn:E.
  - destruct (entry_some _ _ _ _ _ _ _ Hr Hk E) as [-> ->]. wp_go. exists t. by split; [apply grown_refl|].
  - rewrite (entry_none _ _ _ _ _ _ Hr Hk Hl Hi E). simpl (negb true). cbv iota. wp_go.
    eapply wp_mono; [by apply alloc_spec|]. intros q s1 Hpost. destruct (Z.eqb_spec q 0) as [->|Hne].
    + wp_go. destruct (alloc_fail s s1 t root Hinv Hr Hpost). by exists t.
    + wp_go. exists (<[k ++ [PX level va] := q]> t).
      split; [|split; [done|apply lookup_insert_eq]].
      by apply (install_step s s1 t root k p (PX level va) q).
Qed.

(** An allocating [walk] returns the address of the leaf entry in a tree that
    only grew, or 0 when the pages ran out. *)
Lemma walk_alloc s t root va :
  kinv s -> pt_rep s t root -> 0 <= va < MAXVA ->
  wp (walk root va true) (fun r s' => exists t', grown root s t s' t' /\
    ((exists q, t' !! [PX 2 va; PX 1 va] = Some q /\ r = pte_addr q (PX 0 va) /\ r <> 0) \/
     (r = 0 /\ no_free_page s'))) s.
Proof.
  intros Hinv Hr Hva. unfold walk. destruct (Z.leb_spec MAXVA va); [lia|].
  apply wp_loop_S. eapply wp_mono; [apply (walk_level s t root va 2 []); try done; [apply Hr|simpl; lia]|].
  intros [[q1 l1]|r] s1 (t1 & Hg1 & H1); [|exists t1; naive_solver]. destruct H1 as [-> H1]. simpl in H1.
  pose proof Hg1 as (Hr1 & Hst1 & _). change (2 - 1) with 1.
  apply wp_loop_S. eapply wp_mono; [apply (walk_level s1 t1 root va 1 [PX 2 va]); try done; [apply Hst1|simpl; lia]|].
  intros [[q2 l2]|r] s2 (t2 & Hg2 & H2); pose proof (grown_trans _ _ _ _ _ _ _ Hg1 Hg2) as Hg;
    [|exists t2; naive_solver]. destruct H2 as [-> H2]. simpl in H2. change (1 - 1) with 0.
  apply wp_loop_S. unfold walk_body. change (0 <? 0) with false. cbv iota. wp_go.
  exists t2. split; [done|]. left. exists q2. split_and!; [done|done|].
  pose proof Hg2 as (Hr2 & _). destruct (pte_ptr_nonzero s2 t2 root va q2 Hr2 H2) as [<- ?]. done.
Qed.

(** ** Writing a leaf entry *)

Lemma va_page_path va va' :
  0 <= va < MAXVA -> 0 <= va' < MAXVA -> va / PGSIZE <> va' / PGSIZE ->
  [PX 2 va; PX 1 va] <> [PX 2 va'; PX 1 va'] \/ PX 0 va <> PX 0 va'.
Proof.
  intros H1 H2 Hne. destruct (decide ([PX 2 va; PX 1 va] = [PX 2 va'; PX 1 va'])) as [E|]; [|by left].
  right. intros E0. apply Hne. injection E as E2 E1. by apply PX_inj.
Qed.

Lemma PX_page level va va' : 0 <= level -> va / PGSIZE = va' / PGSIZE -> PX level va = PX level va'.
Proof.
  intros Hl He. rewrite !PX_div by done. f_equal. rewrite Z.pow_add_r by lia.
  change (2 ^ 12) with PGSIZE. rewrite <- !Z.div_div by (try apply Z.pow_pos_nonneg; unfold PGSIZE; lia).
  by rewrite He.
Qed.

Definition set_leaf (a v : Z) (s : kst) : kst := set_mem (fun m => st64 m a v) s.

Lemma set_leaf_spec s t root va q v :
  kinv s -> pt_rep s t root -> 0 <= va < MAXVA -> t !! [PX 2 va; PX 1 va] = Some q -> 0 <= v < 2 ^ 64 ->
  let s' := set_leaf (pte_addr q (PX 0 va)) v s in
  pt_rep s' t root /\ pt_step s t s' t /\
  forall va', 0 <= va' < MAXVA ->
    pte_of s' t va' = if va' / PGSIZE =? va / PGSIZE then v else pte_of s t va'.
Proof.
  intros Hinv Hr Hva Hq Hv s'. pose proof (PX_range 0 va ltac:(lia)) as H0.
  destruct (pr_page _ _ _ Hr _ _ Hq) as [Hqok Hqq].
  destruct (pte_addr_in q (PX 0 va) H0) as [Hin Hin8].
  assert (Hout : forall a, ~ in_page q a -> ld8 (k_mem s') a = ld8 (k_mem s) a).
  { intros a Ha. apply ld8_st64_ne. unfold in_page in *. lia. }
  assert (Hld : forall k p i, t !! k = Some p -> 0 <= i < 512 -> (p <> q \/ i <> PX 0 va) ->
            ld64 (k_mem s') (pte_addr p i) = ld64 (k_mem s) (pte_addr p i)).
  { intros k p i Hk Hi Hne. apply ld64_st64_ne. destruct (pr_page _ _ _ Hr _ _ Hk) as [Hp _].
    destruct (pte_addr_disjoint q p (PX 0 va) i Hqok Hp H0 Hi); [naive_solver|lia|lia]. }
  split; [|split].
  - pose proof Hr as [R1 R2 R3 R4 R5]. split; [done|done|done|done|].
    intros k p i Hk Hl Hi. assert (p <> q).
    { intros ->. pose proof (R2 _ _ _ Hk Hq). subst k. simpl in Hl. lia. }
    rewrite (Hld k p i Hk Hi) by (by left). by apply R5.
  - split; [|done|done|done| |].
    + apply kinv_mem; [|done]. intros x a Hx Hx0 Ha. apply Hout. apply in_page_word in Ha.
      apply (page_ok_out x q); try done. intros E. rewrite E, Hqq in Hx0. discriminate Hx0.
    + intros k p Hk Hn. rewrite Hk in Hn. discriminate Hn.
    + intros a Ha. apply Hout. by apply (Ha [PX 2 va; PX 1 va]).
  - intros va' Hva'. unfold pte_of. destruct (Z.eqb_spec (va' / PGSIZE) (va / PGSIZE)) as [E|E].
    + rewrite !(PX_page _ va' va) by (lia || done). rewrite Hq. unfold s', set_leaf. simpl.
      rewrite ld64_st64_eq. by apply u64_small.
    + destruct (t !! [PX 2 va'; PX 1 va']) as [x|] eqn:Ex; [|done].
      apply (Hld _ _ _ Ex); [by apply PX_range|].
      destruct (va_page_path va' va Hva' Hva E) as [Hp|Hp]; [left|by right].
      intros ->. apply Hp. by eapply (pr_inj _ _ _ Hr).
Qed.

(** ** mappages *)

Definition map_entry (pa perm : Z) : Z := Z.lor (Z.lor (PA2PTE pa) perm) PTE_V.

Lemma lor_u64 x y : 0 <= x < 2 ^ 64 -> 0 <= y < 2 ^ 64 -> 0 <= Z.lor x y < 2 ^ 64.
Proof.
  intros Hx Hy. split; [apply Z.lor_nonneg; lia|].
  destruct (Z.eq_dec (Z.lor x y) 0) as [->|Hne]; [done|].
  apply Z.log2_lt_cancel. rewrite Z.log2_lor, Z.log2_pow2 by lia.
  assert (Hl : forall z, 0 <= z < 2 ^ 64 -> Z.log2 z < 64).
  { intros z Hz. destruct (Z.eq_dec z 0) as [->|]; [done|]. apply Z.log2_lt_pow2; lia. }
  pose proof (Hl x Hx). pose proof (Hl y Hy). lia.
Qed.

Lemma map_entry_range pa perm : 0 <= perm < 1024 -> 0 <= map_entry pa perm < 2 ^ 64.
Proof.
  intros Hp. unfold map_entry. apply lor_u64; [apply lor_u64; [apply u64_range|lia]|by change PTE_V with 1].
Qed.

Lemma map_entry_valid pa perm : has (map_entry pa perm) PTE_V = true.
Proof. apply has_lor_V. Qed.

(** [n] pages from [a] on are mapped to the frames from [pa] on. *)
Definition mapped (root : Z) (s : kst) (t : tree) (a n pa perm : Z) (s' : kst) (t' : tree) : Prop :=
  pt_rep s' t' root /\ pt_step s t s' t' /\
  forall va, 0 <= va < MAXVA ->
    pte_of s' t' va =
      if (a / PGSIZE <=? va / PGSIZE) && (va / PGSIZE <? a / PGSIZE + n)
      then map_entry (pa + (va / PGSIZE - a / PGSIZE) * PGSIZE) perm else pte_of s t va.

(** Mapping one more page. *)
Lemma mapped_snoc root s t a n pa perm s1 t1 s2 t2 q :
  mapped root s t a n pa perm s1 t1 -> grown root s1 t1 s2 t2 ->
  a mod PGSIZE = 0 -> 0 <= a -> 0 <= n -> a + n * PGSIZE < MAXVA -> 0 <= perm < 1024 ->
  let va := a + n * PGSIZE in
  t2 !! [PX 2 va; PX 1 va] = Some q ->
  mapped root s t a (n + 1) pa perm
    (set_leaf (pte_addr q (PX 0 va)) (map_entry (pa + n * PGSIZE) perm) s2) t2.
Proof.
  intros (H1 & H2 & H3) (K1 & K2 & K3) Hal Ha Hn Hlt Hperm va Hq.
  assert (Hva : 0 <= va < MAXVA) by (unfold va, PGSIZE in *; lia).
  destruct (set_leaf_spec s2 t2 root va q _ (ps_inv _ _ _ _ K2) K1 Hva Hq (map_entry_range (pa + n * PGSIZE) perm Hperm))
    as (L1 & L2 & L3).
  pose proof (pt_step_trans s t s1 t1 s2 t2 root H1 H2 K2 K1) as Hst.
  split_and!; [exact L1|exact (pt_step_trans _ _ _ _ _ _ root K1 Hst L2 L1)|].
  intros va' Hva'. rewrite (L3 va' Hva'), K3, (H3 va' Hva').
  assert (Hdiv : va / PGSIZE = a / PGSIZE + n) by (unfold va; apply Z.div_add; done).
  rewrite Hdiv. destruct (Z.eqb_spec (va' / PGSIZE) (a / PGSIZE + n)) as [->|Hne].
  - destruct (range_spec (a / PGSIZE) (a / PGSIZE + (n + 1)) (a / PGSIZE + n)); [|lia].
    f_equal. f_equal. f_equal. lia.
  - by repeat match goal with |- context [(?lo <=? ?b) && (?b <? ?hi)] => destruct (range_spec lo hi b) end; lia.
Qed.

Definition npages (va size : Z) : Z := (va + size - 1) / PGSIZE - va / PGSIZE + 1.

Lemma mappages_spec s t root va size pa perm :
  kinv s -> pt_rep s t root -> 0 <= va -> 0 < size -> va + size <= MAXVA ->
  0 <= pa -> pa + size + PGSIZE <= 2 ^ 56 -> 0 <= perm < 1024 ->
  (forall va', 0 <= va' < MAXVA -> va / PGSIZE <= va' / PGSIZE < va / PGSIZE + npages va size ->
     has (pte_of s t va') PTE_V = false) ->
  wp (mappages root va size pa perm) (fun r s' => exists t' n,
    mapped root s t (PGROUNDDOWN va) n pa perm s' t' /\
    ((r = 0 /\ n = npages va size) \/ (r = -1 /\ 0 <= n < npages va size /\ no_free_page s'))) s.
Proof.
  intros Hinv Hr Hva Hsz Hmax Hpa Hpa2 Hperm Hfree. unfold mappages.
  assert (HM : MAXVA = 2 ^ 38) by done.
  rewrite (u64_small (va + size - 1)) by lia. rewrite !PGROUNDDOWN_div.
  set (a := PGSIZE * (va / PGSIZE)). set (last := PGSIZE * ((va + size - 1) / PGSIZE)).
  assert (Hadiv : a / PGSIZE = va / PGSIZE) by (unfold a; rewrite Z.mul_comm; by apply Z.div_mul).
  assert (Hal : a mod PGSIZE = 0) by (unfold a; rewrite Z.mul_comm; by apply Z_mod_mult).
  assert (Hlast : last = a + (npages va size - 1) * PGSIZE) by (unfold last, a, npages; lia).
  assert (Hnp : 1 <= npages va size).
  { unfold npages. pose proof (Z.div_le_mono va (va + size - 1) PGSIZE ltac:(done) ltac:(lia)). lia. }
  assert (Hlb : 0 <= a /\ last < MAXVA /\ (npages va size - 1) * PGSIZE < size + PGSIZE).
  { unfold a, last, npages, PGSIZE. dlia. }
  destruct Hlb as (Ha0 & Hl1 & Hl2).
  eapply (wp_loop (fun x s' => exists n t', 0 <= n < npages va size /\
             x = (a + n * PGSIZE, pa + n * PGSIZE) /\ mapped root s t a n pa perm s' t')
           (fun x => Z.to_nat ((last - x.1) / PGSIZE))).
  - intros x s' (n & t' & Hn & -> & Hmap). pose proof Hmap as (Hr' & Hst & Hpte). unfold mappages_body.
    assert (Hx : 0 <= a + n * PGSIZE < MAXVA) by (unfold PGSIZE in *; lia).
    wp_step. eapply wp_mono; [apply (walk_alloc s' t' root (a + n * PGSIZE)); [apply Hst|done|done]|].
    intros r s2 (t2 & Hg & [(q & Hq & -> & Hne)|(-> & Hnf)]).
    + rewrite (proj2 (Z.eqb_neq _ _) Hne). wp_go.
      assert (Hv : has (ld64 (k_mem s2) (pte_addr q (PX 0 (a + n * PGSIZE)))) PTE_V = false).
      { pose proof Hg as (_ & _ & Hg3). specialize (Hg3 (a + n * PGSIZE)). unfold pte_of in Hg3 at 1.
        rewrite Hq in Hg3. rewrite Hg3, (Hpte _ Hx).
        assert (Hd : (a + n * PGSIZE) / PGSIZE = a / PGSIZE + n) by (apply Z.div_add; done). rewrite Hd.
        destruct (range_spec (a / PGSIZE) (a / PGSIZE + n) (a / PGSIZE + n)); [lia|].
        apply Hfree; [done|]. lia. }
      rewrite Hv. wp_go.
      pose proof (mapped_snoc root s t a n pa perm s' t' s2 t2 q Hmap Hg Hal Ha0 ltac:(lia) ltac:(lia) Hperm Hq) as Hm2.
      destruct (Z.eqb_spec (a + n * PGSIZE) last) as [E|E]; wp_go.
      * exists t2, (n + 1). split; [exact Hm2|]. left. split; [done|]. unfold PGSIZE in *. lia.
      * assert (Hn1 : n + 1 < npages va size) by (unfold PGSIZE in *; nia).
        split.
        { exists (n + 1), t2. split_and!; [lia|done| |exact Hm2].
          unfold PGSIZE in *. rewrite !u64_small by lia. f_equal; lia. }
        simpl. rewrite u64_small by (unfold PGSIZE in *; lia). unfold PGSIZE in *. dlia.
    + wp_go. exists t2, n. split; [|right; split_and!; [done|lia|lia|done]].
      destruct Hg as (G1 & G2 & G3).
      split_and!; [done|by apply (pt_step_trans s t s' t' s2 t2 root)|]. intros va' Hva'. by rewrite G3, Hpte.
  - exists 0, t. split_and!; [lia|lia|f_equal; lia|]. split_and!; [done|by apply pt_step_refl|].
    intros va' Hva'. destruct (range_spec (a / PGSIZE) (a / PGSIZE + 0) (va' / PGSIZE)); [lia|done].
  - simpl. unfold mappages_fuel. destruct (Z.leb_spec a last); [lia|]. unfold PGSIZE in *. lia.
Qed.

End tree.
