(* ===== verification/VmUnmap.v ===== *)
(** * uvmunmap as an update of the translation and of the reference counts

    [uvmunmap] (src/kernel/vm/vm.c) clears the valid leaf entries of a range
    and, when asked to, drops one reference to the frame of each.  The same
    frame may be mapped several times, so the effect on the counts is stated
    with the number of occurrences in the list of frames of the range. *)

From S2P Require Import Prelude Riscv Memory Spinlock Kalloc Vm VmTree.
Import Hart.

Abbreviation occurrences p l := (Z.of_nat (count_occ Z.eq_dec l p)).

Lemma occurrences_app p l l' : occurrences p (l ++ l') = occurrences p l + occurrences p l'.
Proof. rewrite count_occ_app. lia. Qed.

Lemma occurrences_elem p l : p ∈ l <-> 0 < occurrences p l.
Proof. rewrite list_elem_of_In, (count_occ_In Z.eq_dec). lia. Qed.

Section unmap.
Context {L : Linker} {LOK : LinkerOk L} {PAS : PageAllocSpec}.

Lemma pte_of_page s t va va' : va / PGSIZE = va' / PGSIZE -> pte_of s t va = pte_of s t va'.
Proof.
  intros E. unfold pte_of.
  by rewrite (PX_page 0 va va'), (PX_page 1 va va'), (PX_page 2 va va') by done.
Qed.

(** The frame mapped at [va], if any. *)
Definition frame_at (s : kst) (t : tree) (va : Z) : option Z :=
  let v := pte_of s t va in if has v PTE_V then Some (PTE2PA v) else None.

(** The frames mapped in the [n] pages from [a] on. *)
Definition frames (s : kst) (t : tree) (a n : Z) : list Z :=
  omap (fun i => frame_at s t (a + i * PGSIZE)) (seqZ 0 n).

Lemma frames_snoc s t a n :
  0 <= n -> frames s t a (n + 1) = frames s t a n ++ option_list (frame_at s t (a + n * PGSIZE)).
Proof.
  intros Hn. unfold frames. rewrite (seqZ_app 0 n 1) by lia. rewrite omap_app. f_equal.
Qed.

Lemma frames_prefix s t a n m p :
  0 <= n <= m -> occurrences p (frames s t a n) <= occurrences p (frames s t a m).
Proof.
  intros H. unfold frames. replace m with (n + (m - n)) by lia.
  rewrite (seqZ_app 0 n (m - n)) by lia. rewrite omap_app, occurrences_app. lia.
Qed.

Record unmapped (root : Z) (s : kst) (t : tree) (a n : Z) (do_free : bool) (s' : kst) : Prop := {
  um_rep : pt_rep s' t root;
  um_inv : kinv s';
  um_frame : kframe s s';
  um_pte va : 0 <= va < MAXVA ->
    pte_of s' t va =
      if ((a / PGSIZE <=? va / PGSIZE) && (va / PGSIZE <? a / PGSIZE + n)) && has (pte_of s t va) PTE_V
      then 0 else pte_of s t va;
  um_quota p : page_ok p ->
    quota s' p = quota s p - (if do_free then occurrences p (frames s t a n) else 0);
  um_mem b : outside t b ->
    (forall p, page_ok p -> in_page p b -> do_free = true -> p ∈ frames s t a n -> 0 < quota s' p) ->
    ld8 (k_mem s') b = ld8 (k_mem s) b;
}.

(** What must hold of the entries of the range: leaves, and with [do_free]
    frames of the allocator, outside the table, with enough references. *)
Definition unmappable (s : kst) (t : tree) (a n : Z) (do_free : bool) : Prop :=
  forall i, 0 <= i < n -> let v := pte_of s t (a + i * PGSIZE) in has v PTE_V = true ->
    PTE_FLAGS v <> PTE_V /\
    (do_free = true -> page_ok (PTE2PA v) /\ (forall k, t !! k <> Some (PTE2PA v)) /\
       occurrences (PTE2PA v) (frames s t a n) <= quota s (PTE2PA v)).

Lemma unmapped_skip root s t a n do_free s' :
  unmapped root s t a n do_free s' -> a mod PGSIZE = 0 -> 0 <= n ->
  0 <= a -> a + n * PGSIZE < MAXVA -> frame_at s t (a + n * PGSIZE) = None ->
  unmapped root s t a (n + 1) do_free s'.
Proof.
  intros [U1 U2 U3 U4 U5 U6] Hal Hn Ha Hlt Hno.
  assert (Hfr : frames s t a (n + 1) = frames s t a n) by (rewrite frames_snoc, Hno, app_nil_r; done).
  split; [done|done|done| | |]; rewrite ?Hfr; [|done|done].
  intros va Hva. rewrite (U4 va Hva). destruct (decide (va / PGSIZE = a / PGSIZE + n)) as [E|E].
  - assert (Hsame : has (pte_of s t va) PTE_V = false).
    { unfold frame_at in Hno. rewrite (pte_of_page s t va (a + n * PGSIZE)) by (rewrite E; symmetry; by apply Z.div_add).
      by destruct (has _ _). }
    rewrite Hsame. by rewrite !andb_false_r.
  - repeat match goal with |- context [(?lo <=? ?b) && (?b <? ?hi)] => destruct (range_spec lo hi b) end;
      done || lia.
Qed.

(** The state after the reference to the frame at [va] was dropped. *)
Lemma free_frame root s t s' pa :
  pt_rep s' t root -> (forall k, t !! k <> Some pa) -> page_ok pa -> free_post s' pa s ->
  pt_rep s t root /\ forall va, pte_of s t va = pte_of s' t va.
Proof.
  intros Hr Hni Hok (_ & _ & _ & Hq & Hm & _). apply pt_rep_ext; [done| |].
  - intros k p Hk. apply Hq; [by apply (pr_page _ _ _ Hr k)|]. intros ->. by apply (Hni k).
  - intros k p b Hk Hb. apply Hm. destruct (pr_page _ _ _ Hr _ _ Hk) as [Hp _].
    change (~ in_page pa b). apply (page_ok_out p); try done. intros ->. by apply (Hni k).
Qed.

Lemma unmapped_clear root s t a n (do_free : bool) s' s1 q :
  let va := a + n * PGSIZE in
  unmapped root s t a n do_free s' -> a mod PGSIZE = 0 -> 0 <= n -> 0 <= a -> va < MAXVA ->
  t !! [PX 2 va; PX 1 va] = Some q -> has (pte_of s t va) PTE_V = true ->
  (if do_free then page_ok (PTE2PA (pte_of s t va)) /\ (forall k, t !! k <> Some (PTE2PA (pte_of s t va))) /\
                   free_post s' (PTE2PA (pte_of s t va)) s1
   else s1 = s') ->
  unmapped root s t a (n + 1) do_free (set_leaf (pte_addr q (PX 0 va)) 0 s1).
Proof.
  intros va [U1 U2 U3 U4 U5 U6] Hal Hn Ha Hlt Hq Hv Hfree.
  set (pa := PTE2PA (pte_of s t va)) in *.
  assert (Hva : 0 <= va < MAXVA) by (unfold va, PGSIZE in *; lia).
  assert (Hfr : frames s t a (n + 1) = frames s t a n ++ [pa]).
  { rewrite frames_snoc by done. f_equal. unfold frame_at. fold va. by rewrite Hv. }
  assert (Hs1 : kinv s1 /\ kframe s' s1 /\ pt_rep s1 t root /\ (forall va, pte_of s1 t va = pte_of s' t va) /\
    (forall p, page_ok p -> quota s1 p = quota s' p - (if do_free then if Z.eq_dec pa p then 1 else 0 else 0)) /\
    (forall b, (do_free = true -> in_page pa b -> 0 < quota s1 pa) -> ld8 (k_mem s1) b = ld8 (k_mem s') b)).
  { destruct do_free; [|subst; split_and!; try done; intros; lia].
    destruct Hfree as (Hok & Hni & Hpost). pose proof (free_frame root s1 t s' pa U1 Hni Hok Hpost) as [R1 R2].
    destruct Hpost as (P1 & P2 & P3 & P4 & P5 & P6). split_and!; try done.
    - intros p Hp. destruct (Z.eq_dec pa p) as [<-|]; [lia|]. rewrite P4 by (done || congruence). lia.
    - intros b Hb. destruct (decide (in_page pa b)) as [Hin|Hin]; [|by apply P5].
      specialize (Hb eq_refl Hin). rewrite P6; [done|lia]. }
  destruct Hs1 as (V1 & V2 & V3 & V4 & V5 & V6).
  destruct (set_leaf_spec s1 t root va q 0 V1 V3 Hva Hq ltac:(lia)) as (W1 & W2 & W3).
  split; [exact W1|apply W2|etrans; [exact U3|etrans; [exact V2|apply W2]]| | |].
  - intros va' Hva'. rewrite (W3 va' Hva'), V4, (U4 va' Hva').
    assert (Hd : va / PGSIZE = a / PGSIZE + n) by (unfold va; by apply Z.div_add). rewrite Hd.
    destruct (Z.eqb_spec (va' / PGSIZE) (a / PGSIZE + n)) as [E|E].
    + rewrite (pte_of_page s t va' va) by lia. rewrite Hv, andb_true_r. destruct (range_spec (a / PGSIZE) (a / PGSIZE + (n + 1)) (va' / PGSIZE)); [done|lia].
    + repeat match goal with |- context [(?lo <=? ?b) && (?b <? ?hi)] => destruct (range_spec lo hi b) end;
      done || lia.
  - intros p Hp. change (quota (set_leaf _ 0 s1) p) with (quota s1 p).
    rewrite (V5 p Hp), (U5 p Hp), Hfr. destruct do_free; [|lia]. rewrite occurrences_app.
    simpl (count_occ Z.eq_dec [pa] p). destruct (Z.eq_dec pa p); lia.
  - intros b Hb Hcnt. rewrite (ps_mem _ _ _ _ W2 b) by exact Hb.
    assert (Hin_pa : do_free = true -> in_page pa b -> 0 < quota s1 pa).
    { intros Hd Hin. rewrite Hd in Hfree. apply (Hcnt pa); [apply Hfree|done|done|].
      rewrite Hfr. set_solver. }
    rewrite (V6 b Hin_pa). apply U6; [done|]. intros p Hp Hin Hd Hmem.
    assert (0 < quota s1 p) by (apply (Hcnt p Hp Hin Hd); rewrite Hfr; set_solver).
    specialize (V5 p Hp). rewrite Hd in V5. destruct (Z.eq_dec pa p); lia.
Qed.

Lemma uvmunmap_spec s t root va n do_free :
  kinv s -> pt_rep s t root -> 0 <= va -> va mod PGSIZE = 0 -> 0 <= n -> va + n * PGSIZE <= MAXVA ->
  unmappable s t va n do_free ->
  wp (uvmunmap root va n do_free) (fun _ s' => unmapped root s t va n do_free s') s.
Proof.
  intros Hinv Hr Hva Hal Hn Hmax Hun. unfold uvmunmap. rewrite Hal. simpl (negb _). cbv iota.
  assert (HM : MAXVA = 2 ^ 38) by done. rewrite u64_small by (unfold PGSIZE in *; lia).
  eapply (wp_loop (fun a s' => exists k, 0 <= k <= n /\ a = va + k * PGSIZE /\ unmapped root s t va k do_free s')
           (fun a => Z.to_nat ((va + n * PGSIZE - a) / PGSIZE))).
  2:{ exists 0. split_and!; [lia|lia|lia|]. split; try done.
      - intros va' _. by destruct (range_spec (va / PGSIZE) (va / PGSIZE + 0) (va' / PGSIZE)); [lia|].
      - intros p _. destruct do_free; simpl; lia. }
  2:{ replace (va + n * PGSIZE - va) with (n * PGSIZE) by lia. rewrite Z.div_mul by done. lia. }
  intros a s' (k & Hk & -> & Hu). unfold uvmunmap_body.
  destruct (Z.ltb_spec (va + k * PGSIZE) (va + n * PGSIZE)) as [Hlt|Hge].
  2:{ wp_go. by replace n with k by (unfold PGSIZE in *; lia). }
  assert (Hx : 0 <= va + k * PGSIZE < MAXVA) by (unfold PGSIZE in *; lia).
  assert (Hk1 : 0 <= k < n) by (unfold PGSIZE in *; lia).
  assert (Hnext : u64 (va + k * PGSIZE + PGSIZE) = va + (k + 1) * PGSIZE).
  { rewrite u64_small by (unfold PGSIZE in *; lia). lia. }
  assert (Hmeas : (Z.to_nat ((va + n * PGSIZE - (va + (k + 1) * PGSIZE)) / PGSIZE) <
                   Z.to_nat ((va + n * PGSIZE - (va + k * PGSIZE)) / PGSIZE))%nat).
  { replace (va + n * PGSIZE - (va + (k + 1) * PGSIZE)) with ((n - k - 1) * PGSIZE) by lia.
    replace (va + n * PGSIZE - (va + k * PGSIZE)) with ((n - k) * PGSIZE) by lia.
    rewrite !Z.div_mul by done. lia. }
  assert (Hpte : pte_of s' t (va + k * PGSIZE) = pte_of s t (va + k * PGSIZE)).
  { rewrite (um_pte _ _ _ _ _ _ _ Hu _ Hx). rewrite Z.div_add by done.
    by destruct (range_spec (va / PGSIZE) (va / PGSIZE + k) (va / PGSIZE + k)); [lia|]. }
  assert (Hskip : frame_at s t (va + k * PGSIZE) = None ->
    (exists k', 0 <= k' <= n /\ u64 (va + k * PGSIZE + PGSIZE) = va + k' * PGSIZE /\ unmapped root s t va k' do_free s') /\
    (Z.to_nat ((va + n * PGSIZE - u64 (va + k * PGSIZE + PGSIZE)) / PGSIZE) <
     Z.to_nat ((va + n * PGSIZE - (va + k * PGSIZE)) / PGSIZE))%nat).
  { intros Hno. rewrite Hnext. split; [|done]. exists (k + 1).
    split_and!; [lia|lia|done|apply unmapped_skip; done || lia]. }
  pose proof (um_rep _ _ _ _ _ _ _ Hu) as Hr'.
  wp_step. eapply wp_mono; [by apply (walk_lookup s' t root)|]. intros r s1 [-> ->].
  destruct (t !! [PX 2 (va + k * PGSIZE); PX 1 (va + k * PGSIZE)]) as [q|] eqn:Eq.
  2:{ unfold pte_ptr. rewrite Eq. wp_go. apply Hskip. unfold frame_at, pte_of. by rewrite Eq, has_zero. }
  destruct (pte_ptr_nonzero s' t root _ q Hr' Eq) as [Hptr Hnz].
  rewrite (proj2 (Z.eqb_neq _ _) Hnz), Hptr. wp_go.
  assert (Hld : ld64 (k_mem s') (pte_addr q (PX 0 (va + k * PGSIZE))) = pte_of s t (va + k * PGSIZE)).
  { rewrite <- Hpte. unfold pte_of. by rewrite Eq. }
  rewrite Hld. destruct (has (pte_of s t (va + k * PGSIZE)) PTE_V) eqn:Ev; simpl (negb _); cbv iota.
  2:{ wp_go. apply Hskip. unfold frame_at. by rewrite Ev. }
  destruct (Hun k Hk1 Ev) as [Hflag Hfr]. rewrite (proj2 (Z.eqb_neq _ _) Hflag).
  pose proof (unmapped_clear root s t va k do_free s') as Hclear. cbv zeta in Hclear.
  assert (Hstep : forall s2, (if do_free
     then page_ok (PTE2PA (pte_of s t (va + k * PGSIZE))) /\ (forall j, t !! j <> Some (PTE2PA (pte_of s t (va + k * PGSIZE)))) /\
          free_post s' (PTE2PA (pte_of s t (va + k * PGSIZE))) s2 else s2 = s') ->
     unmapped root s t va (k + 1) do_free (set_leaf (pte_addr q (PX 0 (va + k * PGSIZE))) 0 s2)).
  { intros s2 Hs2. apply Hclear; done || lia. }
  wp_step. destruct do_free; simpl when.
  - destruct (Hfr eq_refl) as (Hok & Hni & Hcnt).
    assert (Hqz : quota s' (PTE2PA (pte_of s t (va + k * PGSIZE))) <> 0).
    { rewrite (um_quota _ _ _ _ _ _ _ Hu _ Hok).
      pose proof (frames_prefix s t va (k + 1) n (PTE2PA (pte_of s t (va + k * PGSIZE))) ltac:(lia)) as Hp.
      rewrite frames_snoc, occurrences_app in Hp by lia. unfold frame_at in Hp at 1. rewrite Ev in Hp. simpl in Hp.
      destruct (Z.eq_dec _ _); [lia|done]. }
    eapply wp_mono; [apply free_spec; [apply Hu|done|done]|]. intros [] s2 Hpost. wp_go.
    rewrite Hnext. split; [|done]. exists (k + 1). split_and!; [lia|lia|done|]. by apply Hstep.
  - wp_go. rewrite Hnext. split; [|done]. exists (k + 1). split_and!; [lia|lia|done|]. by apply Hstep.
Qed.

End unmap.
