(* ===== verification/VmCow.v ===== *)
(** * Copy on write (src/kernel/vm/vm.c: uvmcowmalloc, vm_sync_user_page)

    A process has two page tables: the user's and its own kernel table, which
    mirrors the user pages without [PTE_U].  Here: the bits of a leaf entry,
    updates of one entry when its table exists, and the copy-on-write fault
    as one step on both tables, the reference counts and memory. *)

From S2P Require Import Prelude Riscv Memory Spinlock Kalloc Vm VmTree VmUnmap.
Import Hart.

(** ** Flags as bits *)

Lemma has_testbit v i : 0 <= i -> has v (Z.shiftl 1 i) = Z.testbit v i.
Proof.
  intros Hi. unfold has. rewrite Z.shiftl_1_l. destruct (Z.testbit v i) eqn:E.
  - apply negb_true_iff, Z.eqb_neq. intros H0. apply (f_equal (fun x => Z.testbit x i)) in H0.
    rewrite Z.land_spec, E, Z.pow2_bits_true, Z.bits_0 in H0 by lia. done.
  - apply negb_false_iff, Z.eqb_eq. apply Z.bits_inj'. intros j Hj. rewrite Z.land_spec, Z.bits_0.
    destruct (Z.eq_dec i j) as [->|]; [by rewrite E|]. rewrite Z.pow2_bits_false by done. apply andb_false_r.
Qed.

Lemma land_bound x y n : 0 <= n -> 0 <= x < 2 ^ n -> 0 <= Z.land x y < 2 ^ n.
Proof.
  intros Hn Hx. assert (E : Z.land x y = Z.land x y mod 2 ^ n).
  { rewrite <- Z.land_ones by done. rewrite <- Z.land_assoc, (Z.land_comm y), Z.land_assoc.
    rewrite Z.land_ones by done. by rewrite (Z.mod_small x). }
  rewrite E. apply Z.mod_pos_bound. lia.
Qed.

Lemma shiftr_small f n : 0 <= n -> 0 <= f < 2 ^ n -> Z.shiftr f n = 0.
Proof. intros. rewrite Z.shiftr_div_pow2 by done. by apply Z.div_small. Qed.

Lemma PTE2PA_lor v f : 0 <= f < 1024 -> PTE2PA (Z.lor v f) = PTE2PA v.
Proof. intros Hf. unfold PTE2PA. by rewrite Z.shiftr_lor, (shiftr_small f 10), Z.lor_0_r. Qed.

Lemma PTE2PA_clear v f : 0 <= f < 1024 -> PTE2PA (Z.land v (Z.lnot f)) = PTE2PA v.
Proof.
  intros Hf. unfold PTE2PA. rewrite Z.shiftr_land. f_equal. f_equal.
  assert (E : Z.shiftr (Z.lnot f) 10 = -1).
  { rewrite <- (Z.lnot_involutive (Z.shiftr (Z.lnot f) 10)). rewrite <- Z.lnot_shiftr by lia.
    rewrite Z.lnot_involutive, (shiftr_small f 10) by (done || lia). done. }
  by rewrite E, Z.land_m1_r.
Qed.

(** Evaluates [has] on entries built with [lor] and cleared with [land]. *)
Ltac has_bits :=
  unfold PTE_V, PTE_R, PTE_W, PTE_X, PTE_U, PTE_COW in *;
  repeat rewrite has_testbit in * by lia;
  repeat rewrite ?Z.lor_spec, ?Z.land_spec, ?Z.lnot_spec, ?Z.shiftl_1_l in * by lia;
  repeat match goal with
  | |- context [Z.testbit (2 ^ ?a) ?b] => change (Z.testbit (2 ^ a) b) with ltac:(let r := eval vm_compute in (Z.testbit (2 ^ a) b) in exact r)
  end; rewrite ?orb_true_r, ?orb_false_r, ?andb_true_r, ?andb_false_r.

(** What the copy-on-write code does to the flags of an entry. *)
Definition cow_flags (pte : Z) : Z := Z.land (Z.lor pte PTE_W) (Z.lnot PTE_COW).

Lemma cow_flags_spec pte :
  has (cow_flags pte) PTE_W = true /\ has (cow_flags pte) PTE_COW = false /\
  has (cow_flags pte) PTE_V = has pte PTE_V /\ has (cow_flags pte) PTE_U = has pte PTE_U /\
  has (cow_flags pte) PTE_R = has pte PTE_R /\ has (cow_flags pte) PTE_X = has pte PTE_X /\
  PTE2PA (cow_flags pte) = PTE2PA pte.
Proof.
  unfold cow_flags. split_and!; try (has_bits; done).
  rewrite PTE2PA_clear by (by vm_compute). apply PTE2PA_lor. by vm_compute.
Qed.

Section cow.
Context {L : Linker} {LOK : LinkerOk L} {PAS : PageAllocSpec}.

(** ** Entries whose table exists *)

(** With the tables in place [walk] changes nothing, whatever [alloc] says. *)
Lemma walk_hit s t root va q alloc :
  pt_rep s t root -> 0 <= va < MAXVA -> t !! [PX 2 va; PX 1 va] = Some q ->
  wp (walk root va alloc) (fun r s' => s' = s /\ r = pte_addr q (PX 0 va) /\ r <> 0) s.
Proof.
  intros Hr Hva Hq. unfold walk. destruct (Z.leb_spec MAXVA va); [lia|].
  destruct (leaf_table_L1 _ _ _ _ _ Hr Hq) as [q1 E1]. pose proof (pr_root _ _ _ Hr) as Hroot.
  destruct (pte_ptr_nonzero s t root va q Hr Hq) as [Hptr Hnz].
  apply wp_loop_S. unfold walk_body at 1. change (0 <? 2) with true. cbv iota. wp_go.
  destruct (entry_some _ _ _ [] root (PX 2 va) q1 Hr Hroot E1) as [-> ->]. wp_go.
  apply wp_loop_S. unfold walk_body at 1. change (0 <? 2 - 1) with true. cbv iota. wp_go. change (2 - 1) with 1.
  destruct (entry_some _ _ _ [PX 2 va] q1 (PX 1 va) q Hr E1 Hq) as [-> ->]. wp_go.
  apply wp_loop_S. unfold walk_body at 1. change (0 <? 1 - 1) with false. cbv iota. wp_go.
  rewrite <- Hptr. done.
Qed.

Lemma mappages_hit s t root va q pa perm :
  pt_rep s t root -> 0 <= va < MAXUVA -> va mod PGSIZE = 0 -> t !! [PX 2 va; PX 1 va] = Some q ->
  has (pte_of s t va) PTE_V = false ->
  wp (mappages root va PGSIZE pa perm) (fun r s' =>
    r = 0 /\ s' = set_leaf (pte_addr q (PX 0 va)) (map_entry pa perm) s) s.
Proof.
  intros Hr Hva Hal Hq Hv. unfold mappages.
  assert (Hlast : PGROUNDDOWN (u64 (va + PGSIZE - 1)) = va).
  { unfold MAXUVA in *. rewrite u64_small by (unfold PGSIZE; lia). rewrite PGROUNDDOWN_div. unfold PGSIZE in *. dlia. }
  rewrite Hlast, PGROUNDDOWN_id by done. unfold mappages_fuel. rewrite Z.leb_refl, Z.sub_diag.
  assert (Hm : 0 <= va < MAXVA) by (unfold MAXUVA in *; change MAXVA with (2 ^ 38); lia).
  apply wp_loop_S. unfold mappages_body at 1. wp_step.
  eapply wp_mono; [by apply (walk_hit s t root va q true)|]. intros r s1 (-> & -> & Hnz).
  rewrite (proj2 (Z.eqb_neq _ _) Hnz). wp_go.
  unfold pte_of in Hv. rewrite Hq in Hv. rewrite Hv. wp_go. rewrite Z.eqb_refl. by wp_go.
Qed.

(** ** A process's two page tables *)

Record aspace (s : kst) (u : Z) (ut : tree) (k : Z) (kt : tree) : Prop := {
  as_inv : kinv s;
  as_user : pt_rep s ut u;
  as_kernel : pt_rep s kt k;
  as_disj : disjoint_trees ut kt;
}.

Lemma disjoint_sym t1 t2 : disjoint_trees t1 t2 -> disjoint_trees t2 t1.
Proof. intros H k1 k2 p H1 H2. by apply (H k2 k1 p). Qed.

(** A store to an entry of the user table. *)
Lemma aspace_set_user s u ut k kt va q v :
  aspace s u ut k kt -> 0 <= va < MAXVA -> ut !! [PX 2 va; PX 1 va] = Some q -> 0 <= v < 2 ^ 64 ->
  let s' := set_leaf (pte_addr q (PX 0 va)) v s in
  aspace s' u ut k kt /\ (forall va', pte_of s' kt va' = pte_of s kt va') /\
  (forall va', 0 <= va' < MAXVA -> pte_of s' ut va' = if va' / PGSIZE =? va / PGSIZE then v else pte_of s ut va').
Proof.
  intros [A1 A2 A3 A4] Hva Hq Hv s'. destruct (set_leaf_spec s ut u va q v A1 A2 Hva Hq Hv) as (S1 & S2 & S3).
  destruct (pt_step_other s ut s' ut u kt k S2 S1 A3 (disjoint_sym _ _ A4)) as (T1 & T2 & T3).
  split; [|done]. split; [apply S2|done|done|done].
Qed.

Lemma aspace_set_kernel s u ut k kt va q v :
  aspace s u ut k kt -> 0 <= va < MAXVA -> kt !! [PX 2 va; PX 1 va] = Some q -> 0 <= v < 2 ^ 64 ->
  let s' := set_leaf (pte_addr q (PX 0 va)) v s in
  aspace s' u ut k kt /\ (forall va', pte_of s' ut va' = pte_of s ut va') /\
  (forall va', 0 <= va' < MAXVA -> pte_of s' kt va' = if va' / PGSIZE =? va / PGSIZE then v else pte_of s kt va').
Proof.
  intros [A1 A2 A3 A4] Hva Hq Hv s'. destruct (set_leaf_spec s kt k va q v A1 A3 Hva Hq Hv) as (S1 & S2 & S3).
  destruct (pt_step_other s kt s' kt k ut u S2 S1 A2 A4) as (T1 & T2 & T3).
  split; [|done]. split; [apply S2|done|done|done].
Qed.

(** The allocator's steps leave both tables alone. *)
Lemma aspace_ext s s' u ut k kt :
  aspace s u ut k kt -> kinv s' ->
  (forall p, (exists j, ut !! j = Some p \/ kt !! j = Some p) ->
     quota s' p = quota s p /\ forall a, in_page p a -> ld8 (k_mem s') a = ld8 (k_mem s) a) ->
  aspace s' u ut k kt /\ (forall va, pte_of s' ut va = pte_of s ut va) /\ (forall va, pte_of s' kt va = pte_of s kt va).
Proof.
  intros [A1 A2 A3 A4] Hinv H.
  destruct (pt_rep_ext s s' ut u A2) as [B1 B2]; [intros j p Hj; apply H; eauto|intros j p a Hj; apply H; eauto|].
  destruct (pt_rep_ext s s' kt k A3) as [C1 C2]; [intros j p Hj; apply H; eauto|intros j p a Hj; apply H; eauto|].
  split; [by split|done].
Qed.

Lemma aspace_table s u ut k kt p :
  aspace s u ut k kt -> (exists j, ut !! j = Some p \/ kt !! j = Some p) -> page_ok p /\ quota s p = 1.
Proof. intros [A1 A2 A3 A4] (j & [Hj|Hj]); [by apply (pr_page _ _ _ A2 j)|by apply (pr_page _ _ _ A3 j)]. Qed.

Definition mirror (pte : Z) : Z := Z.land pte (Z.lnot PTE_U).

(** [vm_sync_user_page] when the kernel table has the page's leaf table. *)
Lemma sync_hit s u ut k kt va q :
  aspace s u ut k kt -> 0 <= va < MAXUVA -> va mod PGSIZE = 0 ->
  kt !! [PX 2 va; PX 1 va] = Some q -> has (pte_of s ut va) PTE_V = true ->
  wp (vm_sync_user_page (Some (USpace u k)) va) (fun r s' =>
    r = 0 /\ s' = set_leaf (pte_addr q (PX 0 va)) (mirror (pte_of s ut va)) s) s.
Proof.
  intros HA Hva Hal Hq Hv. pose proof HA as [A1 A2 A3 A4]. unfold vm_sync_user_page. rewrite PGROUNDDOWN_id by done.
  assert (Hm : 0 <= va < MAXVA) by (unfold MAXUVA in *; change MAXVA with (2 ^ 38); lia).
  assert (Hend : va + PGSIZE <= MAXUVA) by (unfold MAXUVA, PGSIZE in *; dlia).
  destruct (Z.leb_spec MAXUVA va); [lia|]. simpl us_pagetable. simpl us_kpagetable.
  wp_step. unfold upg2ukpg. destruct (Z.ltb_spec (va + PGSIZE) va); [unfold PGSIZE in *; lia|].
  destruct (Z.ltb_spec MAXUVA (va + PGSIZE)); [lia|]. cbv iota. simpl orb. cbv iota.
  replace (va + PGSIZE - va + PGSIZE - 1) with (2 * PGSIZE - 1) by lia.
  change (Z.to_nat ((2 * PGSIZE - 1) / PGSIZE)) with 1%nat.
  assert (Huq : exists uq, ut !! [PX 2 va; PX 1 va] = Some uq).
  { unfold pte_of in Hv. destruct (ut !! [PX 2 va; PX 1 va]); [by eexists|by rewrite has_zero in Hv]. }
  destruct Huq as [uq Huq].
  assert (Hld : ld64 (k_mem s) (pte_addr uq (PX 0 va)) = pte_of s ut va) by (unfold pte_of; by rewrite Huq).
  apply wp_loop_S. unfold upg2ukpg_body at 1. destruct (Z.ltb_spec va (va + PGSIZE)); [|unfold PGSIZE in *; lia].
  wp_step. eapply wp_mono; [by apply (walk_hit s ut u va uq false)|]. intros r s1 (-> & -> & Hnz).
  rewrite (proj2 (Z.eqb_neq _ _) Hnz). wp_go. rewrite Hld, Hv. simpl orb. cbv iota.
  wp_step. eapply wp_mono; [by apply (walk_hit s kt k va q true)|]. intros r s1 (-> & -> & Hnz').
  rewrite (proj2 (Z.eqb_neq _ _) Hnz'). wp_go. rewrite Hld.
  assert (Hu64 : u64 (va + PGSIZE) = va + PGSIZE) by (apply u64_small; unfold MAXUVA, PGSIZE in *; lia).
  rewrite Hu64. apply wp_loop_S. unfold upg2ukpg_body at 1. rewrite Z.ltb_irrefl. wp_go.
  simpl (0 <? 0). cbv iota. unfold sfence_vma. by wp_go.
Qed.

(** ** The entry written for a private copy *)

Definition cow_perm (pte : Z) : Z :=
  Z.land (Z.lor (PTE_FLAGS (Z.land pte (Z.lnot PTE_V))) PTE_W) (Z.lnot PTE_COW).

Lemma cow_perm_range pte : 0 <= cow_perm pte < 1024.
Proof.
  unfold cow_perm. apply (land_bound _ _ 10); [lia|].
  assert (0 <= PTE_FLAGS (Z.land pte (Z.lnot PTE_V)) < 1024).
  { unfold PTE_FLAGS. change 0x3FF with (Z.ones 10). rewrite Z.land_ones by lia. by apply Z.mod_pos_bound. }
  split; [apply Z.lor_nonneg; split; [lia|by vm_compute]|].
  destruct (Z.eq_dec (Z.lor (PTE_FLAGS (Z.land pte (Z.lnot PTE_V))) PTE_W) 0) as [->|Hne]; [done|].
  apply Z.log2_lt_cancel. rewrite Z.log2_lor by (try lia; by vm_compute). change (Z.log2 (2 ^ 10)) with 10.
  change (Z.log2 PTE_W) with 2. destruct (Z.eq_dec (PTE_FLAGS (Z.land pte (Z.lnot PTE_V))) 0) as [->|]; [by vm_compute|].
  assert (Z.log2 (PTE_FLAGS (Z.land pte (Z.lnot PTE_V))) < 10) by (apply Z.log2_lt_pow2; lia). lia.
Qed.

Lemma has_pack pa perm f :
  0 <= pa < 2 ^ 56 -> 0 <= perm < 1024 -> 0 <= f < 1024 ->
  has (Z.lor (PA2PTE pa) perm) f = has perm f.
Proof. intros Hpa Hp Hf. rewrite <- has_flags by done. by rewrite PTE_FLAGS_pack. Qed.

(** Same permissions as [pte], except writable and no longer copy on write. *)
Record cow_resolved (pte pte' : Z) (frame : Z) : Prop := {
  cr_pa : PTE2PA pte' = frame;
  cr_V : has pte' PTE_V = true;
  cr_W : has pte' PTE_W = true;
  cr_COW : has pte' PTE_COW = false;
  cr_U : has pte' PTE_U = has pte PTE_U;
  cr_R : has pte' PTE_R = has pte PTE_R;
  cr_X : has pte' PTE_X = has pte PTE_X;
}.

Lemma cow_entry_spec pte mem :
  page_ok mem -> cow_resolved pte (map_entry mem (cow_perm pte)) mem.
Proof.
  intros Hm. destruct (page_ok_range mem Hm) as [Hr Hal]. pose proof (cow_perm_range pte) as Hp.
  assert (Hr' : 0 <= mem < 2 ^ 56) by lia. unfold map_entry.
  assert (Hlor : forall f, has f PTE_V = false -> 0 <= f < 1024 ->
    has (Z.lor (Z.lor (PA2PTE mem) (cow_perm pte)) PTE_V) f = has (cow_perm pte) f).
  { intros f Hf0 Hf. rewrite <- (has_pack mem (cow_perm pte) f) by done. unfold has at 1 2.
    rewrite Z.land_lor_distr_l. unfold has in Hf0. apply negb_false_iff, Z.eqb_eq in Hf0.
    rewrite (Z.land_comm PTE_V f), Hf0. by rewrite Z.lor_0_r. }
  assert (Hflag : forall f, 0 <= f < 1024 -> has (PTE_FLAGS (Z.land pte (Z.lnot PTE_V))) f = has (Z.land pte (Z.lnot PTE_V)) f)
    by (intros; by apply has_flags).
  split.
  - rewrite PTE2PA_lor by (by vm_compute). by apply PTE2PA_pack.
  - apply has_lor_V.
  - rewrite Hlor by (by vm_compute). unfold cow_perm. has_bits. done.
  - rewrite Hlor by (by vm_compute). unfold cow_perm. has_bits. done.
  - rewrite Hlor by (by vm_compute). pose proof (Hflag PTE_U ltac:(by vm_compute)) as E. unfold cow_perm.
    has_bits. rewrite E. has_bits. done.
  - rewrite Hlor by (by vm_compute). pose proof (Hflag PTE_R ltac:(by vm_compute)) as E. unfold cow_perm.
    has_bits. rewrite E. has_bits. done.
  - rewrite Hlor by (by vm_compute). pose proof (Hflag PTE_X ltac:(by vm_compute)) as E. unfold cow_perm.
    has_bits. rewrite E. has_bits. done.
Qed.

Lemma cow_flags_resolved pte : has pte PTE_V = true -> cow_resolved pte (cow_flags pte) (PTE2PA pte).
Proof. intros Hv. destruct (cow_flags_spec pte) as (? & ? & ? & ? & ? & ? & ?). split; congruence. Qed.

(** ** The allocator next to the two tables *)

Lemma aspace_getquota s s1 u ut k kt :
  aspace s u ut k kt -> kinv s1 -> k_mem s1 = k_mem s -> k_quota s1 = k_quota s ->
  aspace s1 u ut k kt /\ (forall va, pte_of s1 ut va = pte_of s ut va) /\ (forall va, pte_of s1 kt va = pte_of s kt va).
Proof.
  intros HA Hinv Hm Hq. apply aspace_ext; [done|done|]. intros p _. split; [unfold quota; by rewrite Hq|].
  intros a _. by rewrite Hm.
Qed.

Lemma aspace_alloc s s1 u ut k kt mem :
  aspace s u ut k kt -> alloc_post s mem s1 ->
  aspace s1 u ut k kt /\ (forall va, pte_of s1 ut va = pte_of s ut va) /\ (forall va, pte_of s1 kt va = pte_of s kt va).
Proof.
  intros HA (Hinv & _ & [(_ & Hm & Hq & _)|(Hok & _ & Hq0 & _ & Hqo & Hm)]).
  - by apply aspace_getquota.
  - apply aspace_ext; [done|done|]. intros p Hp. destruct (aspace_table _ _ _ _ _ _ HA Hp) as [Hpok Hpq].
    assert (p <> mem) by (intros ->; lia). split; [by apply Hqo|].
    intros a Ha. rewrite Hm. apply ld8_memset_ne; [done|]. by apply (page_ok_out p mem a).
Qed.

(** A write confined to an allocated page that is not a table. *)
Lemma aspace_write s u ut k kt p m :
  aspace s u ut k kt -> page_ok p -> quota s p <> 0 -> (forall j, ut !! j <> Some p /\ kt !! j <> Some p) ->
  (forall a, ~ in_page p a -> ld8 m a = ld8 (k_mem s) a) ->
  let s' := set_mem (fun _ => m) s in
  aspace s' u ut k kt /\ (forall va, pte_of s' ut va = pte_of s ut va) /\ (forall va, pte_of s' kt va = pte_of s kt va).
Proof.
  intros HA Hok Hq Hni Hm s'. apply aspace_ext; [done| |].
  - apply kinv_mem; [|apply HA]. intros x a Hx Hx0 Ha. apply Hm. apply in_page_word in Ha.
    apply (page_ok_out x p); try done. intros ->. done.
  - intros x Hx. destruct (aspace_table _ _ _ _ _ _ HA Hx) as [Hxok _]. split; [done|].
    intros a Ha. apply Hm. apply (page_ok_out x p); try done. intros ->.
    destruct Hx as (j & Hj); destruct (Hni j); tauto.
Qed.

Lemma aspace_free s s1 u ut k kt pa :
  aspace s u ut k kt -> 1 < quota s pa -> (forall j, ut !! j <> Some pa /\ kt !! j <> Some pa) -> free_post s pa s1 ->
  aspace s1 u ut k kt /\ (forall va, pte_of s1 ut va = pte_of s ut va) /\ (forall va, pte_of s1 kt va = pte_of s kt va).
Proof.
  intros HA Hq Hni (Hinv & _ & _ & Hqo & _ & Hm). apply aspace_ext; [done|done|].
  intros p Hp. destruct (aspace_table _ _ _ _ _ _ HA Hp) as [Hpok _]. split.
  - apply Hqo; [done|]. intros ->. destruct Hp as (j & Hj); destruct (Hni j); tauto.
  - intros a _. by rewrite Hm.
Qed.

(** ** The copy-on-write fault *)

(** The faulting page is mapped for the user, its frame is an allocated page
    and no page-table page, and the kernel table covers its address. *)
Record cow_pre (s : kst) (u : Z) (ut : tree) (k : Z) (kt : tree) (va : Z) : Prop := {
  cp_space : aspace s u ut k kt;
  cp_va : 0 <= va < MAXUVA;
  cp_aligned : va mod PGSIZE = 0;
  cp_V : has (pte_of s ut va) PTE_V = true;
  cp_U : has (pte_of s ut va) PTE_U = true;
  cp_page : page_ok (PTE2PA (pte_of s ut va));
  cp_quota : quota s (PTE2PA (pte_of s ut va)) <> 0;
  cp_frame j : ut !! j <> Some (PTE2PA (pte_of s ut va)) /\ kt !! j <> Some (PTE2PA (pte_of s ut va));
  cp_kernel : is_Some (kt !! [PX 2 va; PX 1 va]);
}.

Record cow_done (s : kst) (u : Z) (ut : tree) (k : Z) (kt : tree) (va r : Z) (s' : kst) : Prop := {
  cd_space : aspace s' u ut k kt;
  cd_pte : cow_resolved (pte_of s ut va) (pte_of s' ut va) r;
  cd_mirror : pte_of s' kt va = mirror (pte_of s' ut va);
  cd_others va' : 0 <= va' < MAXVA -> va' / PGSIZE <> va / PGSIZE ->
    pte_of s' ut va' = pte_of s ut va' /\ pte_of s' kt va' = pte_of s kt va';
  cd_own : quota s' r = 1;
  cd_data off : 0 <= off < PGSIZE -> ld8 (k_mem s') (r + off) = ld8 (k_mem s) (PTE2PA (pte_of s ut va) + off);
  cd_source off : 0 <= off < PGSIZE ->
    ld8 (k_mem s') (PTE2PA (pte_of s ut va) + off) = ld8 (k_mem s) (PTE2PA (pte_of s ut va) + off);
  cd_case :
    (quota s (PTE2PA (pte_of s ut va)) = 1 /\ r = PTE2PA (pte_of s ut va)) \/
    (1 < quota s (PTE2PA (pte_of s ut va)) /\ quota s r = 0 /\
     quota s' (PTE2PA (pte_of s ut va)) = quota s (PTE2PA (pte_of s ut va)) - 1);
  cd_quota p : page_ok p -> p <> r -> p <> PTE2PA (pte_of s ut va) -> quota s' p = quota s p;
  cd_bytes x off : page_ok x -> quota s x <> 0 -> (forall j, ut !! j <> Some x /\ kt !! j <> Some x) ->
    0 <= off < PGSIZE -> ld8 (k_mem s') (x + off) = ld8 (k_mem s) (x + off);
}.

Lemma walkaddr_hit s t root va :
  pt_rep s t root -> 0 <= va < MAXUVA -> has (pte_of s t va) PTE_V = true -> has (pte_of s t va) PTE_U = true ->
  wp (walkaddr root va) (fun r s' => s' = s /\ r = PTE2PA (pte_of s t va)) s.
Proof.
  intros Hr Hva Hv Hu. unfold walkaddr. destruct (Z.leb_spec MAXUVA va); [lia|].
  assert (Hm : 0 <= va < MAXVA) by (unfold MAXUVA in *; change MAXVA with (2 ^ 38); lia).
  unfold pte_of in *. destruct (t !! [PX 2 va; PX 1 va]) as [q|] eqn:E; [|by rewrite has_zero in Hv].
  wp_step. eapply wp_mono; [by apply (walk_hit s t root va q false)|]. intros r s1 (-> & -> & Hnz).
  rewrite (proj2 (Z.eqb_neq _ _) Hnz). wp_go. rewrite Hv, Hu. by wp_go.
Qed.

Lemma mirror_range v : 0 <= v < 2 ^ 64 -> 0 <= mirror v < 2 ^ 64.
Proof. intros. by apply (land_bound _ _ 64). Qed.

Lemma pte_of_range s t va : 0 <= pte_of s t va < 2 ^ 64.
Proof. unfold pte_of. destruct (t !! _); [apply ld64_range|lia]. Qed.

Lemma cow_flags_range v : 0 <= v < 2 ^ 64 -> 0 <= cow_flags v < 2 ^ 64.
Proof. intros. apply (land_bound _ _ 64); [lia|]. apply lor_u64; [done|by vm_compute]. Qed.

Lemma leaf_load s t va q : t !! [PX 2 va; PX 1 va] = Some q -> ld64 (k_mem s) (pte_addr q (PX 0 va)) = pte_of s t va.
Proof. intros Hq. unfold pte_of. by rewrite Hq. Qed.

(** Bytes of a frame that is no table are not touched by stores to tables. *)
Lemma set_leaf_frame s t root va q v pa off :
  pt_rep s t root -> t !! [PX 2 va; PX 1 va] = Some q -> page_ok pa -> q <> pa -> 0 <= off < PGSIZE ->
  ld8 (k_mem (set_leaf (pte_addr q (PX 0 va)) v s)) (pa + off) = ld8 (k_mem s) (pa + off).
Proof.
  intros Hr Hq Hpa Hne Hoff. simpl. apply ld8_st64_ne.
  destruct (pte_addr_in q (PX 0 va) (PX_range 0 va ltac:(lia))) as [H1 H2].
  destruct (pr_page _ _ _ Hr _ _ Hq) as [Hqok _].
  assert (in_page pa (pa + off)) by (unfold in_page; lia).
  pose proof (page_ok_out pa q (pa + off) Hpa Hqok (not_eq_sym Hne) H). unfold in_page in *. lia.
Qed.

(** Writing the user entry and then its mirror. *)
Lemma update_both s u ut k kt va uq kq v :
  aspace s u ut k kt -> 0 <= va < MAXVA -> ut !! [PX 2 va; PX 1 va] = Some uq -> kt !! [PX 2 va; PX 1 va] = Some kq ->
  0 <= v < 2 ^ 64 ->
  let s1 := set_leaf (pte_addr uq (PX 0 va)) v s in
  let s2 := set_leaf (pte_addr kq (PX 0 va)) (mirror v) s1 in
  aspace s2 u ut k kt /\ pte_of s1 ut va = v /\ pte_of s2 ut va = v /\ pte_of s2 kt va = mirror v /\
  (forall va', 0 <= va' < MAXVA -> va' / PGSIZE <> va / PGSIZE ->
     pte_of s2 ut va' = pte_of s ut va' /\ pte_of s2 kt va' = pte_of s kt va').
Proof.
  intros HA Hva Huq Hkq Hv s1 s2.
  destruct (aspace_set_user s u ut k kt va uq v HA Hva Huq Hv) as (A1 & A2 & A3). fold s1 in A1, A2, A3.
  destruct (aspace_set_kernel s1 u ut k kt va kq (mirror v) A1 Hva Hkq (mirror_range v Hv)) as (B1 & B2 & B3).
  fold s2 in B1, B2, B3. split_and!; [done| | | |].
  - rewrite (A3 va Hva). by rewrite Z.eqb_refl.
  - rewrite B2, (A3 va Hva). by rewrite Z.eqb_refl.
  - rewrite (B3 va Hva). by rewrite Z.eqb_refl.
  - intros va' Hva' Hne. rewrite B2, (A3 va' Hva'), (B3 va' Hva'), A2.
    by destruct (Z.eqb_spec (va' / PGSIZE) (va / PGSIZE)).
Qed.

(** What a store to an entry leaves alone. *)
Lemma leaf_frame s t root va q v :
  pt_rep s t root -> t !! [PX 2 va; PX 1 va] = Some q ->
  let s' := set_leaf (pte_addr q (PX 0 va)) v s in
  (forall p, quota s' p = quota s p) /\ kframe s s' /\
  forall x off, page_ok x -> (forall j, t !! j <> Some x) -> 0 <= off < PGSIZE ->
    ld8 (k_mem s') (x + off) = ld8 (k_mem s) (x + off).
Proof.
  intros Hr Hq s'. split_and!; [done|done|]. intros x off Hx Hni Hoff.
  apply (set_leaf_frame s t root va q v x off Hr Hq Hx); [|done]. intros E. apply (Hni [PX 2 va; PX 1 va]). by rewrite <- E.
Qed.

(** The last owner keeps the frame. *)
Lemma cow_last s u ut k kt va uq :
  cow_pre s u ut k kt va -> ut !! [PX 2 va; PX 1 va] = Some uq -> quota s (PTE2PA (pte_of s ut va)) = 1 ->
  let pte := pte_addr uq (PX 0 va) in
  wp (v <- load64 pte ;; store64 pte (Z.lor v PTE_W) ;;
      v <- load64 pte ;; store64 pte (Z.land v (Z.lnot PTE_COW)) ;;
      r <- vm_sync_user_page (Some (USpace u k)) va ;;
      if r <? 0 then panic "uvmcowmalloc: sync user page" else ret (PTE2PA (pte_of s ut va)))
    (fun r s' => cow_done s u ut k kt va r s' /\ kframe s s') s.
Proof.
  intros [HA Hva Hal HV HU Hpage Hquota Hframe [kq Hkq]] Huq Hq1 pte.
  assert (Hm : 0 <= va < MAXVA) by (unfold MAXUVA in *; change MAXVA with (2 ^ 38); lia).
  pose proof (pte_of_range s ut va) as Hr. set (v0 := pte_of s ut va) in *.
  assert (Hll : forall s, ld64 (k_mem s) pte = pte_of s ut va) by (intros; by apply leaf_load).
  wp_go. rewrite (Hll s). fold v0.
  assert (Hr1 : 0 <= Z.lor v0 PTE_W < 2 ^ 64) by (apply lor_u64; [done|by vm_compute]).
  set (s1 := set_leaf pte (Z.lor v0 PTE_W) s).
  destruct (aspace_set_user s u ut k kt va uq _ HA Hm Huq Hr1) as (A1 & A2 & A3). fold pte s1 in A1, A2, A3.
  change (set_mem (fun m => st64 m pte (Z.lor v0 PTE_W)) s) with s1.
  rewrite Hll, (A3 va Hm), Z.eqb_refl. fold (cow_flags v0).
  change (set_mem (fun m => st64 m pte (cow_flags v0)) s1) with (set_leaf pte (cow_flags v0) s1).
  destruct (update_both s1 u ut k kt va uq kq (cow_flags v0) A1 Hm Huq Hkq (cow_flags_range v0 Hr)) as (B1 & B2 & B3 & B4 & B5).
  fold pte in B1, B2, B3, B4, B5. set (s2 := set_leaf pte (cow_flags v0) s1) in *.
  destruct (aspace_set_user s1 u ut k kt va uq _ A1 Hm Huq (cow_flags_range v0 Hr)) as (C1 & _ & _). fold pte s2 in C1.
  pose proof (cow_flags_resolved v0 HV) as Hres.
  eapply wp_mono; [apply (sync_hit s2 u ut k kt va kq); try done; rewrite B2; by destruct Hres|].
  intros r s3 [-> ->]. simpl (0 <? 0). cbv iota. wp_go. rewrite B2.
  set (s3 := set_leaf _ (mirror _) s2) in *.
  assert (Hmem : forall x off, page_ok x -> (forall j, ut !! j <> Some x /\ kt !! j <> Some x) -> 0 <= off < PGSIZE ->
    ld8 (k_mem s3) (x + off) = ld8 (k_mem s) (x + off)).
  { intros x off Hx Hxt Hoff.
    destruct (leaf_frame s2 kt k va kq (mirror (cow_flags v0)) (as_kernel _ _ _ _ _ C1) Hkq) as (_ & _ & M3).
    destruct (leaf_frame s1 ut u va uq (cow_flags v0) (as_user _ _ _ _ _ A1) Huq) as (_ & _ & M2).
    destruct (leaf_frame s ut u va uq (Z.lor v0 PTE_W) (as_user _ _ _ _ _ HA) Huq) as (_ & _ & M1).
    etrans; [apply (M3 x off Hx (fun j => proj2 (Hxt j)) Hoff)|].
    etrans; [apply (M2 x off Hx (fun j => proj1 (Hxt j)) Hoff)|]. apply (M1 x off Hx (fun j => proj1 (Hxt j)) Hoff). }
  split; [split|split_and!; done].
  - exact B1.
  - rewrite B3. exact Hres.
  - by rewrite B3, B4.
  - intros va' Hva' Hne'. destruct (B5 va' Hva' Hne') as [-> ->]. rewrite A2, (A3 va' Hva').
    by destruct (Z.eqb_spec (va' / PGSIZE) (va / PGSIZE)).
  - exact Hq1.
  - intros off. by apply Hmem.
  - intros off. by apply Hmem.
  - left. done.
  - done.
  - intros x off Hx _. by apply Hmem.
Qed.

Lemma ld8_memmove_out m d p a : ~ in_page d a -> ld8 (memmove m d p PGSIZE) a = ld8 m a.
Proof. intros Ha. rewrite ld8_memmove by done. unfold in_page in Ha. by destruct (range_spec d (d + PGSIZE) a). Qed.

Lemma ld8_memmove_in m d p off : 0 <= off < PGSIZE -> ld8 (memmove m d p PGSIZE) (d + off) = ld8 m (p + off).
Proof.
  intros Hoff. rewrite ld8_memmove by done. destruct (range_spec d (d + PGSIZE) (d + off)); [|lia].
  f_equal. lia.
Qed.

Definition cow_failed (s : kst) (u : Z) (ut : tree) (k : Z) (kt : tree) (s' : kst) : Prop :=
  aspace s' u ut k kt /\ no_free_page s /\ k_mem s' = k_mem s /\ k_quota s' = k_quota s.

(** A frame with other owners is copied. *)
Lemma cow_copy s u ut k kt va uq :
  cow_pre s u ut k kt va -> ut !! [PX 2 va; PX 1 va] = Some uq -> 1 < quota s (PTE2PA (pte_of s ut va)) ->
  let pte := pte_addr uq (PX 0 va) in
  let pa := PTE2PA (pte_of s ut va) in
  wp (mem <- kalloc_page ;;
      if mem =? 0 then ret 0
      else
        do_memmove mem pa PGSIZE ;;
        v <- load64 pte ;;
        store64 pte (Z.land v (Z.lnot PTE_V)) ;;
        v <- load64 pte ;;
        r <- mappages u va PGSIZE mem (Z.land (Z.lor (PTE_FLAGS v) PTE_W) (Z.lnot PTE_COW)) ;;
        if negb (r =? 0) then
          kfree_page mem ;; v <- load64 pte ;; store64 pte (Z.lor v PTE_V) ;; ret 0
        else
          r <- vm_sync_user_page (Some (USpace u k)) va ;;
          if r <? 0 then panic "uvmcowmalloc: sync user page" else kfree_page pa ;; ret mem)
    (fun r s' => ((r = 0 /\ cow_failed s u ut k kt s') \/ (r <> 0 /\ cow_done s u ut k kt va r s')) /\ kframe s s') s.
Proof.
  intros [HA Hva Hal HV HU Hpage Hquota Hframe [kq Hkq]] Huq Hq1 pte pa.
  assert (Hm : 0 <= va < MAXVA) by (unfold MAXUVA in *; change MAXVA with (2 ^ 38); lia).
  pose proof (pte_of_range s ut va) as Hr.
  assert (Hll : forall s, ld64 (k_mem s) pte = pte_of s ut va) by (intros; by apply leaf_load).
  wp_step. eapply wp_mono; [apply alloc_spec, HA|]. intros mem s1 Hpost.
  destruct (aspace_alloc s s1 u ut k kt mem HA Hpost) as (A1 & Au & Ak).
  destruct Hpost as (Hinv1 & Hf1 & [(-> & Hm1 & Hk1 & Hfull)|(Hok & Hnz & Hq0 & Hqm & Hqo & Hm1)]).
  { simpl (0 =? 0). cbv iota. wp_go. split; [|done]. left. split; [done|]. by split_and!. }
  rewrite (proj2 (Z.eqb_neq _ _) Hnz).
  assert (Hnp : mem <> pa) by (intros E; rewrite E in Hq0; exact (Hquota Hq0)).
  assert (Hnt : forall j, ut !! j <> Some mem /\ kt !! j <> Some mem).
  { intros j. split; intros Hj; destruct (aspace_table s u ut k kt mem HA) as [_ Hx]; eauto; rewrite Hq0 in Hx; done. }
  wp_step. wp_step. wp_step. set (s2 := set_mem _ s1).
  assert (Hmv : forall a, ~ in_page mem a -> ld8 (memmove (k_mem s1) mem pa PGSIZE) a = ld8 (k_mem s1) a).
  { intros a Ha. exact (ld8_memmove_out (k_mem s1) mem pa a Ha). }
  destruct (aspace_write s1 u ut k kt mem (memmove (k_mem s1) mem pa PGSIZE) A1 Hok ltac:(lia) Hnt Hmv) as (B1 & Bu & Bk).
  assert (Es2 : set_mem (fun _ => memmove (k_mem s1) mem pa PGSIZE) s1 = s2) by (unfold s2, set_mem; reflexivity).
  rewrite Es2 in B1, Bu, Bk. clear Es2.
  assert (M2 : k_mem s2 = memmove (k_mem s1) mem pa PGSIZE) by reflexivity.
  assert (Q2 : forall p, quota s2 p = quota s1 p) by (intros; reflexivity).
  assert (K2 : kframe s1 s2) by (repeat split). clearbody s2.
  assert (Hv2 : pte_of s2 ut va = pte_of s ut va) by (rewrite Bu, Au; reflexivity).
  set (v0 := pte_of s ut va) in *. fold pa in Hq1, Hpage, Hquota.
  assert (Hr1 : 0 <= Z.land v0 (Z.lnot PTE_V) < 2 ^ 64) by (apply (land_bound _ _ 64); [lia|exact Hr]).
  wp_step. wp_step. wp_step. rewrite Hll, Hv2. wp_step. wp_step. wp_step.
  change (set_mem (fun m => st64 m pte (Z.land v0 (Z.lnot PTE_V))) s2) with (set_leaf pte (Z.land v0 (Z.lnot PTE_V)) s2).
  destruct (aspace_set_user s2 u ut k kt va uq _ B1 Hm Huq Hr1) as (C1 & Ck & Cu).
  destruct (leaf_frame s2 ut u va uq (Z.land v0 (Z.lnot PTE_V)) (as_user _ _ _ _ _ B1) Huq) as (Q3 & K3 & M3).
  fold pte in C1, Ck, Cu, Q3, K3, M3. set (s3 := set_leaf pte _ s2) in *. clearbody s3.
  assert (Hv3 : pte_of s3 ut va = Z.land v0 (Z.lnot PTE_V)) by (rewrite (Cu va Hm), Z.eqb_refl; reflexivity).
  wp_step. wp_step. wp_step. rewrite Hll, Hv3. fold (cow_perm v0).
  assert (Hv3V : has (pte_of s3 ut va) PTE_V = false) by (rewrite Hv3; has_bits; reflexivity).
  eapply wp_mono; [exact (mappages_hit s3 ut u va uq mem (cow_perm v0) (as_user _ _ _ _ _ C1) Hva Hal Huq Hv3V)|].
  intros r s4 [-> ->]. change (negb (0 =? 0)) with false. cbv iota. fold pte.
  pose proof (map_entry_range mem (cow_perm v0) (cow_perm_range v0)) as Hr4.
  destruct (update_both s3 u ut k kt va uq kq _ C1 Hm Huq Hkq Hr4) as (D1 & D2 & D3 & D4 & D5).
  destruct (aspace_set_user s3 u ut k kt va uq _ C1 Hm Huq Hr4) as (E1 & _ & _).
  destruct (leaf_frame s3 ut u va uq (map_entry mem (cow_perm v0)) (as_user _ _ _ _ _ C1) Huq) as (Q4 & K4 & M4).
  fold pte in D1, D2, D3, D4, D5, E1, Q4, K4, M4. set (s4 := set_leaf pte _ s3) in *. clearbody s4.
  destruct (leaf_frame s4 kt k va kq (mirror (map_entry mem (cow_perm v0))) (as_kernel _ _ _ _ _ E1) Hkq) as (Q5 & K5 & M5).
  pose proof (cow_entry_spec v0 mem Hok) as Hres.
  assert (Hv4V : has (pte_of s4 ut va) PTE_V = true) by (rewrite D2; apply Hres).
  wp_step. eapply wp_mono; [exact (sync_hit s4 u ut k kt va kq E1 Hva Hal Hkq Hv4V)|].
  intros r s5 [-> ->]. change (0 <? 0) with false. cbv iota. rewrite D2. set (s5 := set_leaf _ (mirror _) s4) in *. clearbody s5.
  assert (Hq5 : forall p, quota s5 p = quota s1 p) by (intros p; rewrite Q5, Q4, Q3; apply Q2).
  assert (Hq5p : quota s5 pa = quota s pa) by (rewrite Hq5; apply Hqo; [exact Hpage|exact (not_eq_sym Hnp)]).
  wp_step. eapply wp_mono; [apply free_spec; [apply D1|exact Hpage|lia]|]. intros [] s6 Hfree. wp_go.
  destruct (aspace_free s5 s6 u ut k kt pa D1 ltac:(lia) Hframe Hfree) as (F1 & Fu & Fk).
  destruct Hfree as (_ & Hf6 & Hq6 & Hqo6 & _ & Hm6). specialize (Hm6 ltac:(lia)).
  assert (Hnt' : forall x off, page_ok x -> (forall j, ut !! j <> Some x /\ kt !! j <> Some x) -> 0 <= off < PGSIZE ->
    ld8 (k_mem s5) (x + off) = ld8 (k_mem s2) (x + off)).
  { intros x off Hx Hxt Hoff. rewrite (M5 x off Hx (fun j => proj2 (Hxt j)) Hoff).
    rewrite (M4 x off Hx (fun j => proj1 (Hxt j)) Hoff). exact (M3 x off Hx (fun j => proj1 (Hxt j)) Hoff). }
  assert (Hpx : forall x off, page_ok x -> quota s x <> 0 -> 0 <= off < PGSIZE ->
    ~ in_page mem (x + off) /\ ld8 (k_mem s1) (x + off) = ld8 (k_mem s) (x + off)).
  { intros x off Hx Hxq Hoff. assert (Ho : ~ in_page mem (x + off)).
    { apply (page_ok_out x mem (x + off) Hx Hok); [intros ->; lia|]. unfold in_page. lia. }
    split; [exact Ho|]. rewrite Hm1. apply ld8_memset_ne; [unfold PGSIZE; lia|exact Ho]. }
  assert (Hall : forall x off, page_ok x -> quota s x <> 0 -> (forall j, ut !! j <> Some x /\ kt !! j <> Some x) ->
    0 <= off < PGSIZE -> ld8 (k_mem s6) (x + off) = ld8 (k_mem s) (x + off)).
  { intros x off Hx Hxq Hxt Hoff. destruct (Hpx x off Hx Hxq Hoff) as [Ho E].
    rewrite Hm6, (Hnt' x off Hx Hxt Hoff), M2, (Hmv _ Ho). exact E. }
  clear Hm1. split; [right; split; [exact Hnz|split]|].
  - exact F1.
  - rewrite Fu, D3. exact Hres.
  - rewrite Fk, Fu, D3, D4. reflexivity.
  - intros va' Hva' Hne'. rewrite Fu, Fk. destruct (D5 va' Hva' Hne') as [-> ->].
    rewrite Ck, (Cu va' Hva'), Bu, Bk, Au, Ak. destruct (Z.eqb_spec (va' / PGSIZE) (va / PGSIZE)); [contradiction|].
    split; reflexivity.
  - rewrite (Hqo6 mem Hok Hnp), Hq5. exact Hqm.
  - fold v0 pa. intros off Hoff. rewrite Hm6, (Hnt' mem off Hok Hnt Hoff), M2.
    rewrite (ld8_memmove_in (k_mem s1) mem pa off Hoff). exact (proj2 (Hpx pa off Hpage Hquota Hoff)).
  - fold v0 pa. intros off Hoff. exact (Hall pa off Hpage Hquota Hframe Hoff).
  - fold v0 pa. right. split_and!; [exact Hq1|exact Hq0|]. rewrite Hq6, Hq5p. reflexivity.
  - fold v0 pa. intros p Hp Hp1 Hp2. rewrite (Hqo6 p Hp Hp2), Hq5. apply Hqo; [exact Hp|exact Hp1].
  - exact Hall.
  - etrans; [exact Hf1|]. etrans; [exact K2|]. etrans; [exact K3|]. etrans; [exact K4|]. etrans; [exact K5|exact Hf6].
Qed.

(** C9: a copy-on-write fault gives the faulting process a private, writable
    page with the same contents.  [uvmcowmalloc] on a user page whose frame is
    an allocated page never panics.  If this was the frame's only reference it
    stays in place; otherwise a free page becomes a copy of it and the old
    frame loses exactly one reference and keeps its bytes.  The new user entry
    is writable, no longer copy on write and has the old permissions, the
    kernel table mirrors it, every other translation and reference count is
    unchanged, and so is every byte of every other page that was allocated and
    is no page-table page of the process.  Failure (0) happens only when no page is free, and then
    nothing changes. *)
Theorem uvmcowmalloc_private_copy s u ut k kt va :
  cow_pre s u ut k kt va ->
  exists r s', uvmcowmalloc (Some (USpace u k)) u va s = Ok r s' /\ kframe s s' /\
    ((r = 0 /\ 1 < quota s (PTE2PA (pte_of s ut va)) /\ cow_failed s u ut k kt s') \/
     (r <> 0 /\ cow_done s u ut k kt va r s')).
Proof.
  intros Hpre. pose proof Hpre as [HA Hva Hal HV HU Hpage Hquota Hframe Hkq].
  assert (Huq : exists uq, ut !! [PX 2 va; PX 1 va] = Some uq).
  { unfold pte_of in HV. destruct (ut !! [PX 2 va; PX 1 va]); [by eexists|by rewrite has_zero in HV]. }
  destruct Huq as [uq Huq].
  assert (Hm : 0 <= va < MAXVA) by (unfold MAXUVA in *; change MAXVA with (2 ^ 38); lia).
  apply wp_Ok. unfold uvmcowmalloc. rewrite Hal. simpl (negb _). cbv iota.
  wp_step. eapply wp_mono; [apply (walkaddr_hit s ut u va); try done; apply HA|]. intros r0 s0 [-> ->].
  destruct (page_ok_range _ Hpage) as [Hpr _].
  destruct (Z.eqb_spec (PTE2PA (pte_of s ut va)) 0) as [E|_]; [lia|].
  wp_step. eapply wp_mono; [apply (walk_hit s ut u va uq false); try done; apply HA|]. intros r1 s1 (-> & -> & Hnz).
  rewrite (proj2 (Z.eqb_neq _ _) Hnz). wp_step.
  eapply wp_mono; [apply getquota_spec; [apply HA|done]|].
  intros q s1 (-> & Hinv1 & Hf1 & Hm1 & Hq1).
  destruct (aspace_getquota s s1 u ut k kt HA Hinv1 Hm1 Hq1) as (A1 & Au & Ak).
  assert (Hqq : forall p, quota s1 p = quota s p) by (intros; unfold quota; by rewrite Hq1).
  assert (Hpre1 : cow_pre s1 u ut k kt va) by (split; rewrite ?Au, ?Hqq; done).
  assert (Hdone : forall r s', cow_done s1 u ut k kt va r s' -> cow_done s u ut k kt va r s').
  { intros r s' [D1 D2 D3 D4 D5 D6 D7 D8 D9 D10]. rewrite Au, ?Hqq, ?Hm1 in *. split; try done.
    - intros va' Hv1 Hv2. specialize (D4 va' Hv1 Hv2). by rewrite Au, Ak in D4.
    - intros p Hp Hp1 Hp2. specialize (D9 p Hp Hp1 Hp2). by rewrite Hqq in D9.
    - intros x off Hx Hxq. rewrite <- Hqq in Hxq. exact (D10 x off Hx Hxq). }
  pose proof (quota_range s (PTE2PA (pte_of s ut va))) as Hrange.
  destruct (Z.eqb_spec (quota s (PTE2PA (pte_of s ut va))) 1) as [E1|E1].
  - pose proof (cow_last s1 u ut k kt va uq Hpre1 Huq) as H. cbv zeta in H. rewrite Au, Hqq in H. specialize (H E1).
    eapply wp_mono; [exact H|]. intros r s' [Hd Hf]. split; [by etrans|]. right. split; [|by apply Hdone].
    apply Hdone in Hd. destruct (cd_case _ _ _ _ _ _ _ _ Hd) as [[_ ->]|[? _]]; lia.
  - pose proof (cow_copy s1 u ut k kt va uq Hpre1 Huq) as H. cbv zeta in H. rewrite Au, Hqq in H. specialize (H ltac:(lia)).
    eapply wp_mono; [exact H|]. intros r s' [Hd Hf]. split; [by etrans|].
    destruct Hd as [(-> & F1 & F2 & F3 & F4)|[Hr Hd]]; [left|right; by split; [|apply Hdone]].
    split_and!; [done|lia|]. split_and!; [done| |congruence|congruence]. intros p Hp. rewrite <- Hqq. by apply F2.
Qed.

End cow.
