(* ===== verification/VmCheck.v ===== *)
(** * Executable checkers for the allocator invariant and page-table trees

    [check_kinv] and [check_tree] decide, by evaluation, sufficient conditions
    for [kinv] and [pt_rep] on a concrete state; they make concrete machine
    states usable as instances of the theorems about page tables. *)

From S2P Require Import Prelude Riscv Memory Spinlock Kalloc Vm VmTree.
Import Hart.

Section check.
Context {L : Linker}.

Definition page_okb (p : Z) : bool := (p mod PGSIZE =? 0) && (kend <=? p) && (p <? PHYSTOP).

Lemma page_okb_spec p : page_okb p = true <-> page_ok p.
Proof.
  unfold page_okb, page_ok. rewrite !andb_true_iff, Z.eqb_eq, Z.leb_le, Z.ltb_lt. tauto.
Qed.

(** The pages of the machine. *)
Definition all_pages : list Z :=
  (fun i => (kend / PGSIZE + i) * PGSIZE) <$> seqZ 0 (PHYSTOP / PGSIZE - kend / PGSIZE).

Lemma all_pages_spec p : page_ok p -> p ∈ all_pages.
Proof.
  intros [Hal Hr]. apply list_elem_of_fmap. exists (p / PGSIZE - kend / PGSIZE). split.
  - unfold PGSIZE in *. dlia.
  - apply elem_of_seqZ. unfold PHYSTOP, PGSIZE in *. dlia.
Qed.

Fixpoint chainb (m : gmap Z Z) (h : Z) (l : list Z) : bool :=
  match l with
  | [] => h =? 0
  | p :: l' => (h =? p) && negb (h =? 0) && chainb m (ld64 m p) l'
  end.

Lemma chainb_spec m h l : chainb m h l = true -> chain m h l.
Proof.
  revert h. induction l as [|p l IH]; intros h; simpl; [apply Z.eqb_eq|].
  rewrite !andb_true_iff, negb_true_iff, Z.eqb_eq, Z.eqb_neq. intros [[-> H] Hc]. by eauto.
Qed.

Fixpoint memb (x : Z) (l : list Z) : bool :=
  match l with [] => false | y :: l' => (x =? y) || memb x l' end.
Fixpoint nodupb (l : list Z) : bool :=
  match l with [] => true | x :: l' => negb (memb x l') && nodupb l' end.

Lemma memb_spec x l : memb x l = true <-> x ∈ l.
Proof.
  induction l as [|y l IH]; simpl; [split; [done|intros H; by apply not_elem_of_nil in H]|].
  rewrite orb_true_iff, Z.eqb_eq, IH, elem_of_cons. tauto.
Qed.

Lemma nodupb_spec l : nodupb l = true -> NoDup l.
Proof.
  induction l as [|x l IH]; simpl; [constructor|]. rewrite andb_true_iff, negb_true_iff. intros [H1 H2].
  constructor; [|by apply IH]. rewrite <- memb_spec, H1. done.
Qed.

(** [ls] are the free lists of the two CPUs. *)
Definition check_kinv (s : kst) (l0 l1 : list Z) : bool :=
  (noff (k_lk s) =? 0) && bool_decide (held (k_lk s) = []) && (0 <=? k_cpu s) && (k_cpu s <? NCPU) &&
  (length (k_freelist s) =? 2)%nat &&
  chainb (k_mem s) (k_freelist s !!! 0%nat) l0 && chainb (k_mem s) (k_freelist s !!! 1%nat) l1 &&
  nodupb (l0 ++ l1) && forallb page_okb (l0 ++ l1) &&
  forallb (fun p => Bool.eqb (memb p (l0 ++ l1)) (quota s p =? 0)) all_pages.

Lemma check_kinv_spec s l0 l1 : check_kinv s l0 l1 = true -> kinv s.
Proof.
  unfold check_kinv. rewrite !andb_true_iff. intros [[[[[[[[[H1 H2] H3] H4] H5] H6] H7] H8] H9] H10].
  breflect. apply Nat.eqb_eq in H5. apply chainb_spec in H6, H7. apply nodupb_spec in H8.
  rewrite forallb_forall in H9, H10. split.
  - unfold unlocked, lk_ok. rewrite H1, H2. simpl. split_and!; try done; try (intros; apply not_elem_of_nil).
    constructor.
  - done.
  - exists [l0; l1]. destruct (k_freelist s) as [|h0 [|h1 [|]]] eqn:Ef; simpl in *; try lia.
    rewrite app_nil_r in *. split.
    + split; simpl; [done| | |]; rewrite ?app_nil_r; [by repeat constructor|done|].
      apply Forall_forall. intros p Hp. apply page_okb_spec, H9. by apply list_elem_of_In.
    + intros p Hp. specialize (H10 p). rewrite <- list_elem_of_In in H10. specialize (H10 (all_pages_spec p Hp)).
      apply Bool.eqb_prop in H10. rewrite <- memb_spec, H10. apply Z.eqb_eq.
Qed.

(** ** Page-table trees *)

Definition check_entry (s : kst) (t : tree) (k : list Z) (p i : Z) : bool :=
  match t !! (k ++ [i]) with
  | Some q => ld64 (k_mem s) (pte_addr p i) =? table_pte q
  | None => negb (has (ld64 (k_mem s) (pte_addr p i)) PTE_V)
  end.

(** A path is empty, or extends the path of another table by an index. *)
Definition check_path (t : tree) (k : list Z) : bool :=
  match k with
  | [] => true
  | [i] => (0 <=? i) && (i <? 512) && bool_decide (is_Some (t !! []))
  | [i; j] => (0 <=? j) && (j <? 512) && bool_decide (is_Some (t !! [i]))
  | _ => false
  end.

Definition check_tree (s : kst) (ts : list (list Z * Z)) (root : Z) : bool :=
  let t := list_to_map ts : tree in
  bool_decide (t !! [] = Some root) && nodupb (snd <$> ts) &&
  forallb (fun kp : list Z * Z =>
    let '(k, p) := kp in
    page_okb p && (quota s p =? 1) && check_path t k &&
    (negb (length k <? 2)%nat || forallb (check_entry s t k p) (seqZ 0 512))) ts.

Lemma check_tree_spec s ts root : check_tree s ts root = true -> pt_rep s (list_to_map ts) root.
Proof.
  unfold check_tree. set (t := list_to_map ts : tree). rewrite !andb_true_iff. intros [[H1 H2] H3].
  breflect. apply nodupb_spec in H2. rewrite forallb_forall in H3.
  assert (Hin : forall k p, t !! k = Some p -> (k, p) ∈ ts) by (intros; by apply elem_of_list_to_map_2).
  assert (Hk : forall k p, t !! k = Some p ->
    page_okb p && (quota s p =? 1) && check_path t k &&
    (negb (length k <? 2)%nat || forallb (check_entry s t k p) (seqZ 0 512)) = true).
  { intros k p Hk. apply (H3 (k, p)), list_elem_of_In. by apply Hin. }
  split.
  - done.
  - intros k k' p Ek Ek'. apply Hin in Ek, Ek'. apply list_elem_of_lookup in Ek as [a Ha], Ek' as [b Hb].
    assert (a = b).
    { eapply NoDup_lookup; [exact H2| |]; rewrite list_lookup_fmap; [rewrite Ha|rewrite Hb]; done. }
    congruence.
  - intros k p Ek. specialize (Hk k p Ek). rewrite !andb_true_iff in Hk. destruct Hk as [[[A B] _] _]. breflect.
    split; [by apply page_okb_spec|done].
  - intros k i q Ek. specialize (Hk _ _ Ek). rewrite !andb_true_iff in Hk. destruct Hk as [[_ Hp] _].
    destruct k as [|a [|b k]]; simpl in Hp; rewrite ?andb_true_iff in Hp.
    + destruct Hp as [Hp1 Hp2]. breflect. split_and!; try lia; [done|simpl; lia].
    + destruct Hp as [Hp1 Hp2]. breflect. split_and!; try lia; [done|simpl; lia].
    + destruct k; done.
  - intros k p i Ek Hl Hi. specialize (Hk _ _ Ek). rewrite andb_true_iff, orb_true_iff in Hk. destruct Hk as [_ [Hk|Hk]].
    + apply negb_true_iff, Nat.ltb_ge in Hk. lia.
    + rewrite forallb_forall in Hk. specialize (Hk i). rewrite <- list_elem_of_In, elem_of_seqZ in Hk.
      specialize (Hk ltac:(lia)). unfold check_entry in Hk. destruct (t !! (k ++ [i])); [by apply Z.eqb_eq|].
      by apply negb_true_iff.
Qed.

Definition check_disjoint (ts1 ts2 : list (list Z * Z)) : bool :=
  forallb (fun kp : list Z * Z => negb (memb (snd kp) (snd <$> ts2))) ts1.

Lemma check_disjoint_spec ts1 ts2 :
  check_disjoint ts1 ts2 = true -> disjoint_trees (list_to_map ts1) (list_to_map ts2).
Proof.
  unfold check_disjoint. rewrite forallb_forall. intros H k1 k2 p E1 E2.
  apply elem_of_list_to_map_2 in E1, E2. specialize (H (k1, p)). rewrite <- list_elem_of_In in H. specialize (H E1).
  apply negb_true_iff in H. simpl in H. assert (Hm : memb p (snd <$> ts2) = true); [|congruence].
  apply memb_spec, list_elem_of_fmap. by exists (k2, p).
Qed.

End check.
