(* ===== verification/VmProps.v ===== *)
(** * Correctness of the page-table operations of vm.c

    The properties of [walkaddr], [mappages] and [uvmunmap] on every page
    table and allocator state, and a concrete machine on which they and the
    copy-on-write theorem are instantiated. *)

From S2P Require Import Prelude Riscv Memory Spinlock Kalloc Vm VmTree VmUnmap VmCow VmCheck.
Import Hart.

Lemma lor_flags a b : 0 <= a < 1024 -> 0 <= b < 1024 -> 0 <= Z.lor a b < 1024.
Proof.
  intros Ha Hb. assert (0 <= Z.lor a b) by (apply Z.lor_nonneg; lia). split; [done|].
  destruct (Z.eq_dec (Z.lor a b) 0) as [->|]; [lia|]. change 1024 with (2 ^ 10). apply Z.log2_lt_pow2; [lia|].
  rewrite Z.log2_lor by lia.
  assert (Hl : forall x, 0 <= x < 1024 -> Z.log2 x < 10).
  { intros x Hx. destruct (Z.eq_dec x 0) as [->|]; [done|]. apply Z.log2_lt_pow2; lia. }
  pose proof (Hl a Ha). pose proof (Hl b Hb). lia.
Qed.

(** An entry with a permission bit is a leaf. *)
Lemma map_entry_leaf pa perm :
  0 <= pa < 2 ^ 56 -> 2 <= perm < 1024 -> PTE_FLAGS (map_entry pa perm) <> PTE_V.
Proof.
  intros Hpa Hp. unfold map_entry. rewrite <- Z.lor_assoc.
  rewrite PTE_FLAGS_pack; [|done|apply lor_flags; [lia|by change PTE_V with 1]]. intros E.
  assert (H : Z.testbit (Z.lor perm PTE_V) (Z.log2 perm) = true) by (rewrite Z.lor_spec, Z.bit_log2 by lia; done).
  rewrite E in H. assert (1 <= Z.log2 perm) by (change 1 with (Z.log2 2); apply Z.log2_le_mono; lia).
  change PTE_V with (2 ^ 0) in H. rewrite Z.pow2_bits_false in H by lia. done.
Qed.

Section props.
Context {L : Linker} {LOK : LinkerOk L} {PAS : PageAllocSpec}.

(** C4: [mappages] refines an update of the translation.  On a page table
    whose entries in the range are not valid it never panics; on success (0)
    exactly the pages of the range translate, to consecutive frames with the
    requested permissions, and every other translation is unchanged.  On
    failure (-1) the pages ran out: a proper prefix of the range was mapped
    and the table is still well formed.  In both cases the only memory written
    is that of the table's own pages, old or freshly allocated. *)
Theorem mappages_refines s t root va size pa perm :
  kinv s -> pt_rep s t root -> 0 <= va -> 0 < size -> va + size <= MAXVA ->
  0 <= pa -> pa + size + PGSIZE <= 2 ^ 56 -> 0 <= perm < 1024 ->
  (forall va', 0 <= va' < MAXVA -> va / PGSIZE <= va' / PGSIZE < va / PGSIZE + npages va size ->
     has (pte_of s t va') PTE_V = false) ->
  exists r s' t' n, mappages root va size pa perm s = Ok r s' /\
    mapped root s t (PGROUNDDOWN va) n pa perm s' t' /\
    ((r = 0 /\ n = npages va size) \/ (r = -1 /\ 0 <= n < npages va size /\ no_free_page s')).
Proof.
  intros H1 H2 H3 H4 H5 H6 H7 H8 H9.
  destruct (wp_Ok _ _ _ (mappages_spec s t root va size pa perm H1 H2 H3 H4 H5 H6 H7 H8 H9))
    as (r & s' & E & t' & n & Hm & Hr). by exists r, s', t', n.
Qed.

(** [mappages] refuses to remap.  If the first page of the range already
    translates, the kernel panics with "remap" instead of overwriting. *)
Theorem mappages_remap_panics s t root va pa perm :
  pt_rep s t root -> 0 <= va < MAXUVA -> va mod PGSIZE = 0 -> has (pte_of s t va) PTE_V = true ->
  exists s', mappages root va PGSIZE pa perm s = Panic "remap" s'.
Proof.
  intros Hr Hva Hal Hv. unfold mappages.
  assert (Hm : 0 <= va < MAXVA) by (unfold MAXUVA in *; change MAXVA with (2 ^ 38); lia).
  rewrite PGROUNDDOWN_id by done.
  assert (Hf : exists n, mappages_fuel va (PGROUNDDOWN (u64 (va + PGSIZE - 1))) = S n).
  { unfold mappages_fuel. case_match; eexists; done. }
  destruct Hf as [n ->]. assert (Hq : exists q, t !! [PX 2 va; PX 1 va] = Some q).
  { unfold pte_of in Hv. destruct (t !! [PX 2 va; PX 1 va]); [by eexists|by rewrite has_zero in Hv]. }
  destruct Hq as [q Hq].
  destruct (wp_Ok _ _ _ (walk_hit s t root va q true Hr Hm Hq)) as (r & s1 & E & -> & -> & Hnz).
  exists s. change (loop (S n) (mappages_body root (PGROUNDDOWN (u64 (va + PGSIZE - 1))) perm) (va, pa) s)
    with (mbind_ (mappages_body root (PGROUNDDOWN (u64 (va + PGSIZE - 1))) perm (va, pa))
      (fun y => match y with inl x => loop n (mappages_body root (PGROUNDDOWN (u64 (va + PGSIZE - 1))) perm) x | inr r => ret r end) s).
  unfold mbind_, mappages_body. unfold mbind_. rewrite E, (proj2 (Z.eqb_neq _ _) Hnz). simpl.
  unfold pte_of in Hv. rewrite Hq in Hv. by rewrite Hv.
Qed.

(** C5: [uvmunmap] on a range of leaf entries never panics, removes exactly the
    valid entries of the range from the translation and, with [do_free], drops
    one reference per removed mapping (a frame mapped [k] times loses [k]);
    pages that keep a reference keep their bytes. *)
Theorem uvmunmap_refines s t root va n do_free :
  kinv s -> pt_rep s t root -> 0 <= va -> va mod PGSIZE = 0 -> 0 <= n -> va + n * PGSIZE <= MAXVA ->
  unmappable s t va n do_free ->
  exists s', uvmunmap root va n do_free s = Ok tt s' /\ unmapped root s t va n do_free s'.
Proof.
  intros H1 H2 H3 H4 H5 H6 H7.
  destruct (wp_Ok _ _ _ (uvmunmap_spec s t root va n do_free H1 H2 H3 H4 H5 H6 H7)) as ([] & s' & E & H).
  by exists s'.
Qed.

(** Mapping a page-aligned region and unmapping it again is the identity on
    translations: after a successful [mappages] and [uvmunmap] without
    [do_free] of the same region, every address translates as before. *)
Theorem map_unmap_roundtrip s t root va n pa perm :
  kinv s -> pt_rep s t root -> 0 <= va -> va mod PGSIZE = 0 -> 0 < n -> va + n * PGSIZE <= MAXVA ->
  0 <= pa -> pa + n * PGSIZE + PGSIZE <= 2 ^ 56 -> 0 <= perm < 1024 -> 2 <= perm ->
  (forall va', 0 <= va' < MAXVA -> va / PGSIZE <= va' / PGSIZE < va / PGSIZE + n -> pte_of s t va' = 0) ->
  forall s1, mappages root va (n * PGSIZE) pa perm s = Ok 0 s1 ->
  exists s2 t', uvmunmap root va n false s1 = Ok tt s2 /\ pt_rep s2 t' root /\
    (forall va', 0 <= va' < MAXVA -> pte_of s2 t' va' = pte_of s t va') /\
    (forall p, page_ok p -> quota s2 p = quota s1 p).
Proof.
  intros Hinv Hr Hva Hal Hn Hmax Hpa Hpa2 Hperm Hperm2 Hfree s1 Hmap.
  assert (Hnp : npages va (n * PGSIZE) = n) by (unfold npages, PGSIZE in *; dlia).
  assert (Hsz : 0 < n * PGSIZE) by (unfold PGSIZE; lia).
  assert (Hbusy : forall va', 0 <= va' < MAXVA -> va / PGSIZE <= va' / PGSIZE < va / PGSIZE + npages va (n * PGSIZE) ->
     has (pte_of s t va') PTE_V = false).
  { intros va' Hv1 Hv2. rewrite Hnp in Hv2. rewrite (Hfree va' Hv1 Hv2). apply has_zero. }
  pose proof (mappages_spec s t root va (n * PGSIZE) pa perm Hinv Hr Hva Hsz Hmax Hpa Hpa2 Hperm Hbusy) as Hw.
  unfold wp in Hw. rewrite Hmap in Hw. destruct Hw as (t' & m & Hm & [[_ ->]|[? _]]); [|lia].
  rewrite Hnp, PGROUNDDOWN_id in Hm by done. destruct Hm as (R1 & R2 & R3).
  assert (Hun : unmappable s1 t' va n false).
  { intros i Hi v Hv. split; [|done]. unfold v in *.
    assert (Hx : 0 <= va + i * PGSIZE < MAXVA) by (unfold PGSIZE in *; lia).
    rewrite (R3 _ Hx) in *. rewrite Z.div_add in * by done.
    destruct (range_spec (va / PGSIZE) (va / PGSIZE + n) (va / PGSIZE + i)); [|lia].
    apply map_entry_leaf; [unfold PGSIZE in *; nia|lia]. }
  destruct (wp_Ok _ _ _ (uvmunmap_spec s1 t' root va n false (ps_inv _ _ _ _ R2) R1 Hva Hal ltac:(lia) Hmax Hun))
    as ([] & s2 & E & [U1 U2 U3 U4 U5 U6]).
  exists s2, t'. split_and!; [done|done| |intros p Hp; rewrite (U5 p Hp); lia].
  intros va' Hva'. rewrite (U4 va' Hva'), (R3 va' Hva').
  destruct (range_spec (va / PGSIZE) (va / PGSIZE + n) (va' / PGSIZE)) as [Hin|Hin]; simpl; [|done].
  rewrite map_entry_valid. by rewrite (Hfree va' Hva' Hin).
Qed.

End props.

(** ** A concrete machine

    Two page tables on the machine of eight pages: page 0 of the user's maps a
    data page copy on write, mirrored in the kernel's, with two references. *)

Module VmDemo.
Import Kalloc.Demo.

Definition perm_cow : Z := Z.lor (Z.lor (Z.lor PTE_R PTE_X) PTE_U) PTE_COW.

Definition setup : M kst (Z * Z * Z) :=
  u <- uvmcreate ;;
  k <- uvmcreate ;;
  mem <- kalloc_page ;;
  mappages u 0 PGSIZE mem perm_cow ;;
  vm_sync_user_page (Some (USpace u k)) 0 ;;
  kaddquota mem ;;
  ret (u, k, mem).

Definition vm_state : kst := run demo_state setup demo_state.

(** Where [setup] puts things. *)
Definition pg (i : Z) : Z := PHYSTOP - 8 * PGSIZE + i * PGSIZE.
Definition u_tree : list (list Z * Z) := [([], pg 6); ([0], pg 0); ([0; 0], pg 7)].
Definition k_tree : list (list Z * Z) := [([], pg 4); ([0], pg 5); ([0; 0], pg 3)].
Definition ut : tree := list_to_map u_tree.
Definition kt : tree := list_to_map k_tree.

Lemma vm_state_ok :
  match setup demo_state with
  | Ok r s =>
      bool_decide (r = (pg 6, pg 4, pg 2)) && check_kinv s [] [pg 1] && check_tree s u_tree (pg 6) &&
      check_tree s k_tree (pg 4) && check_disjoint u_tree k_tree
  | _ => false
  end = true.
Proof. vm_compute. reflexivity. Qed.

Lemma vm_aspace : aspace vm_state (pg 6) ut (pg 4) kt.
Proof.
  pose proof vm_state_ok as H. unfold vm_state, run. destruct (setup demo_state) as [r s| |]; [|done|done].
  rewrite !andb_true_iff in H. destruct H as [[[[_ H1] H2] H3] H4].
  split; [by eapply check_kinv_spec|by apply check_tree_spec|by apply check_tree_spec|by apply check_disjoint_spec].
Qed.

Lemma vm_kinv : kinv vm_state.
Proof. apply vm_aspace. Qed.
Lemma vm_user : pt_rep vm_state ut (pg 6).
Proof. apply vm_aspace. Qed.

Lemma ut_other j p : ut !! j = Some p -> p = pg 6 \/ p = pg 0 \/ p = pg 7.
Proof. intros H. apply elem_of_list_to_map_2 in H. unfold u_tree, k_tree in H. rewrite !elem_of_cons, elem_of_nil in H. naive_solver. Qed.
Lemma kt_other j p : kt !! j = Some p -> p = pg 4 \/ p = pg 5 \/ p = pg 3.
Proof. intros H. apply elem_of_list_to_map_2 in H. unfold u_tree, k_tree in H. rewrite !elem_of_cons, elem_of_nil in H. naive_solver. Qed.

(** The mapped entry. *)
Lemma vm_pte : pte_of vm_state ut 0 = map_entry (pg 2) perm_cow.
Proof. vm_compute. reflexivity. Qed.
Lemma vm_frame : PTE2PA (pte_of vm_state ut 0) = pg 2.
Proof. vm_compute. reflexivity. Qed.
Lemma vm_refs : quota vm_state (pg 2) = 2.
Proof. vm_compute. reflexivity. Qed.

Lemma vm_cow_pre : cow_pre vm_state (pg 6) ut (pg 4) kt 0.
Proof.
  split; rewrite ?vm_frame.
  - exact vm_aspace.
  - by vm_compute.
  - done.
  - rewrite vm_pte. by vm_compute.
  - rewrite vm_pte. by vm_compute.
  - by vm_compute.
  - by rewrite vm_refs.
  - intros j. split; intros H; [apply ut_other in H|apply kt_other in H]; unfold pg, PGSIZE in H; lia.
  - by eexists.
Qed.

Lemma uvmcowmalloc_private_copy_witness :
  quota vm_state (pg 2) = 2 /\
  exists r s', uvmcowmalloc (Some (USpace (pg 6) (pg 4))) (pg 6) 0 vm_state = Ok r s' /\ kframe vm_state s' /\
    ((r = 0 /\ 1 < quota vm_state (PTE2PA (pte_of vm_state ut 0)) /\ cow_failed vm_state (pg 6) ut (pg 4) kt s') \/
     (r <> 0 /\ cow_done vm_state (pg 6) ut (pg 4) kt 0 r s')).
Proof. split; [exact vm_refs|]. apply (uvmcowmalloc_private_copy vm_state (pg 6) ut (pg 4) kt 0). exact vm_cow_pre. Defined.

(** The fault on this machine copies to the last free page. *)
Example cow_demo :
  match uvmcowmalloc (Some (USpace (pg 6) (pg 4))) (pg 6) 0 vm_state with Ok r _ => r | _ => -1 end = pg 1.
Proof. vm_compute. reflexivity. Qed.

Lemma vm_unmapped va : 0 <= va < MAXVA -> 5 <= va / PGSIZE < 7 -> pte_of vm_state ut va = 0.
Proof.
  intros Hva H. assert (va / PGSIZE = 5 \/ va / PGSIZE = 6) as [E|E] by lia.
  - rewrite (pte_of_page vm_state ut va (5 * PGSIZE)) by (rewrite E; done). vm_compute. reflexivity.
  - rewrite (pte_of_page vm_state ut va (6 * PGSIZE)) by (rewrite E; done). vm_compute. reflexivity.
Qed.

Lemma mappages_refines_witness :
  kinv vm_state /\ pt_rep vm_state ut (pg 6) /\
  exists r s' t' n, mappages (pg 6) (5 * PGSIZE + 100) PGSIZE (pg 1) PTE_R vm_state = Ok r s' /\
    mapped (pg 6) vm_state ut (PGROUNDDOWN (5 * PGSIZE + 100)) n (pg 1) PTE_R s' t' /\
    ((r = 0 /\ n = npages (5 * PGSIZE + 100) PGSIZE) \/
     (r = -1 /\ 0 <= n < npages (5 * PGSIZE + 100) PGSIZE /\ no_free_page s')).
Proof.
  split; [exact vm_kinv|]. split; [exact vm_user|].
  apply (mappages_refines vm_state ut (pg 6) (5 * PGSIZE + 100) PGSIZE (pg 1) PTE_R);
    [exact vm_kinv|exact vm_user|unfold PGSIZE; lia|unfold PGSIZE; lia|by vm_compute|by vm_compute|by vm_compute|by vm_compute|].
  intros va' Hva' H. rewrite (vm_unmapped va' Hva'); [apply has_zero|].
  change ((5 * PGSIZE + 100) / PGSIZE) with 5 in H. change (npages (5 * PGSIZE + 100) PGSIZE) with 2 in H. lia.
Defined.

Lemma mappages_remap_panics_witness :
  exists s', mappages (pg 6) 0 PGSIZE (pg 1) PTE_R vm_state = Panic "remap" s'.
Proof.
  apply (mappages_remap_panics vm_state ut (pg 6) 0 (pg 1) PTE_R);
    [exact vm_user|by vm_compute|done|rewrite vm_pte; by vm_compute].
Defined.

Lemma vm_unmappable : unmappable vm_state ut 0 2 true.
Proof.
  intros i Hi v Hv. assert (i = 0 \/ i = 1) as [-> | ->] by lia; unfold v in *; clear v.
  - change (0 + 0 * PGSIZE) with 0 in *. rewrite vm_pte at 1. split; [by vm_compute|]. intros _. rewrite vm_frame.
    clear Hv. split; [by vm_compute|]. split.
    + intros k H. apply ut_other in H. unfold pg, PGSIZE in H. lia.
    + rewrite vm_refs. assert (Ef : frames vm_state ut 0 2 = [pg 2]) by (vm_compute; reflexivity).
      rewrite Ef. by vm_compute.
  - assert (E : pte_of vm_state ut (0 + 1 * PGSIZE) = 0) by (vm_compute; reflexivity). rewrite E, has_zero in Hv. discriminate Hv.
Qed.

Lemma uvmunmap_refines_witness :
  frames vm_state ut 0 2 = [pg 2] /\
  exists s', uvmunmap (pg 6) 0 2 true vm_state = Ok tt s' /\ unmapped (pg 6) vm_state ut 0 2 true s'.
Proof.
  split; [vm_compute; reflexivity|].
  apply (uvmunmap_refines vm_state ut (pg 6) 0 2 true);
    [exact vm_kinv|exact vm_user|lia|done|lia|by vm_compute|exact vm_unmappable].
Defined.

Definition vm_state2 : kst := run vm_state (mappages (pg 6) (5 * PGSIZE) (2 * PGSIZE) (pg 1) PTE_R) vm_state.
Lemma vm_map2 : mappages (pg 6) (5 * PGSIZE) (2 * PGSIZE) (pg 1) PTE_R vm_state = Ok 0 vm_state2.
Proof.
  assert (H : match mappages (pg 6) (5 * PGSIZE) (2 * PGSIZE) (pg 1) PTE_R vm_state with Ok r _ => r =? 0 | _ => false end = true)
    by (vm_compute; reflexivity).
  unfold vm_state2, run. destruct (mappages (pg 6) (5 * PGSIZE) (2 * PGSIZE) (pg 1) PTE_R vm_state); [|done|done].
  apply Z.eqb_eq in H. by subst.
Qed.

Lemma map_unmap_roundtrip_witness :
  mappages (pg 6) (5 * PGSIZE) (2 * PGSIZE) (pg 1) PTE_R vm_state = Ok 0 vm_state2 /\
  exists s2 t', uvmunmap (pg 6) (5 * PGSIZE) 2 false vm_state2 = Ok tt s2 /\ pt_rep s2 t' (pg 6) /\
    (forall va', 0 <= va' < MAXVA -> pte_of s2 t' va' = pte_of vm_state ut va') /\
    (forall p, page_ok p -> quota s2 p = quota vm_state2 p).
Proof.
  split; [exact vm_map2|].
  apply (map_unmap_roundtrip vm_state ut (pg 6) (5 * PGSIZE) 2 (pg 1) PTE_R);
    [exact vm_kinv|exact vm_user|unfold PGSIZE; lia|done|lia|by vm_compute|by vm_compute|by vm_compute|by vm_compute|by vm_compute| |exact vm_map2].
  intros va' Hva' H. apply (vm_unmapped va' Hva'). change (5 * PGSIZE / PGSIZE) with 5 in H. lia.
Defined.

End VmDemo.
