(* ===== verification/VmFree.v ===== *)
(** * Tearing down address spaces

    [freewalk], [uvmfree] and the teardown of a process's two page tables
    (src/kernel/vm/vm.c, src/kernel/proc/proc.c) give back every page they
    hold: the pages of the tables, and one reference for each user frame. *)

From S2P Require Import Prelude Riscv Memory Spinlock Kalloc Vm VmTree VmUnmap.
Import Hart.

Section free.
Context {L : Linker} {LOK : LinkerOk L} {PAS : PageAllocSpec}.

Lemma table_pte_is_table q : page_ok q -> is_table (table_pte q) = true.
Proof.
  intros Hq. unfold is_table, table_pte. rewrite has_lor_V. simpl. apply Z.eqb_eq.
  destruct (page_ok_range q Hq) as [? _]. rewrite PA2PTE_div by lia.
  change PTE_V with 1. change PTE_RWX with (Z.land PTE_RWX 1023). rewrite Z.land_comm, <- Z.land_assoc, (Z.land_comm 1023).
  change 1023 with (Z.ones 10). change 1024 with (2 ^ 10). rewrite lor_low_high by (change (2 ^ 10) with 1024; lia).
  rewrite Z.land_ones by lia. rewrite Z.add_comm, Z.mod_add by done. done.
Qed.

Lemma invalid_not_table v : has v PTE_V = false -> is_table v = false.
Proof. unfold is_table. by intros ->. Qed.

(** [s'] after the pages of [D] were freed and bytes of [W] overwritten. *)
Record torn (s s' : kst) (D W : Z -> Prop) : Prop := {
  to_inv : kinv s';
  to_frame : kframe s s';
  to_freed p : page_ok p -> D p -> quota s' p = 0;
  to_kept p : page_ok p -> ~ D p -> quota s' p = quota s p;
  to_mem a : ~ W a -> ld8 (k_mem s') a = ld8 (k_mem s) a;
}.

Lemma torn_refl s D W : kinv s -> (forall p, page_ok p -> D p -> quota s p = 0) -> torn s s D W.
Proof. by split. Qed.

Lemma torn_mono s s' (D D' W W' : Z -> Prop) :
  torn s s' D W -> (forall p, page_ok p -> D p <-> D' p) -> (forall a, W a -> W' a) -> torn s s' D' W'.
Proof.
  intros [T1 T2 T3 T4 T5] HD HW. split; try done.
  - intros p Hp Hd. apply T3; [done|]. by apply HD.
  - intros p Hp Hd. apply T4; [done|]. intros ?. apply Hd. by apply HD.
  - intros a Ha. apply T5. auto.
Qed.

Lemma torn_trans s s1 s2 (D1 W1 D2 W2 : Z -> Prop) :
  (forall p, page_ok p -> D1 p -> ~ D2 p) ->
  torn s s1 D1 W1 -> torn s1 s2 D2 W2 -> torn s s2 (fun p => D1 p \/ D2 p) (fun a => W1 a \/ W2 a).
Proof.
  intros Hdis [A1 A2 A3 A4 A5] [B1 B2 B3 B4 B5]. split; [done|by etrans| | |].
  - intros p Hp [Hd|Hd]; [|by apply B3]. rewrite B4; [by apply A3|done|by apply Hdis].
  - intros p Hp Hd. rewrite B4, A4; tauto.
  - intros a Ha. rewrite B5, A5; tauto.
Qed.

Lemma torn_store s p a v :
  kinv s -> page_ok p -> quota s p <> 0 -> p <= a -> a + 8 <= p + PGSIZE ->
  torn s (set_mem (fun m => st64 m a v) s) (fun _ => False) (fun b => a <= b < a + 8).
Proof.
  intros Hinv Hp Hq Ha Ha8.
  assert (Hout : forall b, ~ (a <= b < a + 8) -> ld8 (st64 (k_mem s) a v) b = ld8 (k_mem s) b).
  { intros b Hb. apply ld8_st64_ne. lia. }
  split; [|done|done|done|exact Hout].
  apply kinv_mem; [|done]. intros x b Hx Hx0 Hb. apply Hout. intros Hin. apply in_page_word in Hb.
  apply (page_ok_out x p b); [done|done|congruence|done|unfold in_page; lia].
Qed.

(** ** Subtrees *)

(** The pages of the subtree at path [k]. *)
Definition sub (t : tree) (k : list Z) (p : Z) : Prop := exists k', t !! (k ++ k') = Some p.
Definition in_sub (t : tree) (k : list Z) (a : Z) : Prop := exists p, sub t k p /\ in_page p a.

(** The shape of a tree, apart from memory. *)
Record tree_wf (t : tree) : Prop := {
  tw_inj k k' p : t !! k = Some p -> t !! k' = Some p -> k = k';
  tw_prefix k i q : t !! (k ++ [i]) = Some q -> is_Some (t !! k) /\ 0 <= i < 512 /\ (length k < 2)%nat;
}.

(** Memory holds the subtree at [k], whose leaf entries satisfy [leaves]. *)
Record sub_rep (leaves : Z -> Prop) (s : kst) (t : tree) (k : list Z) : Prop := {
  sr_page p : sub t k p -> page_ok p /\ quota s p = 1;
  sr_entry k' p i : t !! (k ++ k') = Some p -> (length (k ++ k') < 2)%nat -> 0 <= i < 512 ->
    match t !! ((k ++ k') ++ [i]) with
    | Some q => ld64 (k_mem s) (pte_addr p i) = table_pte q
    | None => has (ld64 (k_mem s) (pte_addr p i)) PTE_V = false
    end;
  sr_leaf k' p i : t !! (k ++ k') = Some p -> length (k ++ k') = 2%nat -> 0 <= i < 512 ->
    leaves (ld64 (k_mem s) (pte_addr p i));
}.

Lemma sub_child t k i p : sub t (k ++ [i]) p -> sub t k p.
Proof. intros [k' H]. exists (i :: k'). by rewrite <- app_assoc in H. Qed.

Lemma sub_self t k p : t !! k = Some p -> sub t k p.
Proof. exists []. by rewrite app_nil_r. Qed.

Lemma sub_children t k p : sub t k p -> t !! k = Some p \/ exists i, sub t (k ++ [i]) p.
Proof.
  intros [[|i k'] H]; [left; by rewrite app_nil_r in H|]. right. exists i, k'. by rewrite <- app_assoc.
Qed.

Lemma sub_disjoint t k i j p : tree_wf t -> sub t (k ++ [i]) p -> sub t (k ++ [j]) p -> i = j.
Proof.
  intros Ht [k1 H1] [k2 H2]. pose proof (tw_inj _ Ht _ _ _ H1 H2) as E.
  rewrite <- !app_assoc in E. apply app_inv_head in E. by simplify_eq/=.
Qed.

Lemma sub_not_root t k i p : tree_wf t -> t !! k = Some p -> sub t (k ++ [i]) p -> False.
Proof.
  intros Ht H [k' H']. pose proof (tw_inj _ Ht _ _ _ H H') as E. apply (f_equal length) in E.
  rewrite !length_app in E. simpl in E. lia.
Qed.

(** A path of the tree leads through existing tables only. *)
Lemma tree_prefix t k k' p : tree_wf t -> t !! (k ++ k') = Some p -> is_Some (t !! k).
Proof.
  intros Ht. revert p. induction k' as [|i k' IH] using rev_ind; intros p; [rewrite app_nil_r; by eexists|].
  rewrite app_assoc. intros H. destruct (tw_prefix _ Ht _ _ _ H) as [[q Hq] _]. by eapply IH.
Qed.

Lemma sub_range t k i p : tree_wf t -> sub t (k ++ [i]) p -> 0 <= i < 512 /\ is_Some (t !! (k ++ [i])).
Proof.
  intros Ht [k' H]. destruct (tree_prefix t (k ++ [i]) k' p Ht H) as [q Hq].
  split; [by apply (tw_prefix _ Ht _ _ _ Hq)|by eexists].
Qed.

Lemma sub_rep_child leaves s t k i : sub_rep leaves s t k -> sub_rep leaves s t (k ++ [i]).
Proof.
  intros [S1 S2 S3]. split.
  - intros p Hp. apply S1. by eapply sub_child.
  - intros k' p j H. rewrite <- app_assoc in *. by apply S2.
  - intros k' p j H. rewrite <- app_assoc in *. by apply S3.
Qed.

Lemma sub_rep_ext leaves s s' t k :
  sub_rep leaves s t k ->
  (forall p, sub t k p -> quota s' p = quota s p) ->
  (forall a, in_sub t k a -> ld8 (k_mem s') a = ld8 (k_mem s) a) ->
  sub_rep leaves s' t k.
Proof.
  intros [S1 S2 S3] Hq Hm.
  assert (Hld : forall k' p i, t !! (k ++ k') = Some p -> 0 <= i < 512 ->
    ld64 (k_mem s') (pte_addr p i) = ld64 (k_mem s) (pte_addr p i)).
  { intros k' p i Hk Hi. apply ld64_ext. intros a Ha. apply Hm. exists p. split; [by exists k'|].
    destruct (pte_addr_in p i Hi) as [Hin ?]. unfold in_page in *. lia. }
  split.
  - intros p Hp. rewrite Hq by done. by apply S1.
  - intros k' p i Hk Hl Hi. rewrite (Hld k' p i Hk Hi). by apply S2.
  - intros k' p i Hk Hk2 Hi. rewrite (Hld k' p i Hk Hi). by eapply S3.
Qed.

(** ** One table: entries from left to right *)

Section table.
Context (leaves : Z -> Prop) (s : kst) (t : tree) (k : list Z) (p : Z).
Hypothesis (Ht : tree_wf t) (Hk : t !! k = Some p) (Hr : sub_rep leaves s t k).

(** Freed and overwritten when the entries below [i] are done. *)
Definition done_pages (i : Z) (q : Z) : Prop := exists j, j < i /\ sub t (k ++ [j]) q.
Definition done_bytes (i : Z) (a : Z) : Prop := (exists q, done_pages i q /\ in_page q a) \/ p <= a < p + 8 * i.

Lemma self_page : page_ok p /\ quota s p = 1.
Proof. apply Hr. by apply sub_self. Qed.

Lemma done_not_self i q : done_pages i q -> q <> p.
Proof. intros (j & _ & H) ->. by eapply sub_not_root. Qed.

Lemma done_page_ok i q : done_pages i q -> page_ok q.
Proof. intros (j & _ & H). apply Hr. by eapply sub_child. Qed.

Lemma done_bytes_ahead i j a :
  0 <= i -> i <= j < 512 -> (in_sub t (k ++ [j]) a \/ pte_addr p j <= a < pte_addr p j + 8) -> ~ done_bytes i a.
Proof.
  intros Hi0 Hi Ha Hd. destruct self_page as [Hp _]. unfold pte_addr in *.
  destruct Hd as [(q & Hq & Hqa)|Hd].
  - pose proof (done_page_ok _ _ Hq) as Hqok. destruct Ha as [(x & Hx & Hxa)|Ha].
    + assert (Hxok : page_ok x) by (apply Hr; by eapply sub_child).
      destruct (decide (x = q)) as [->|Hne]; [|by apply (page_ok_out x q a)].
      destruct Hq as (j' & Hj' & Hq). pose proof (sub_disjoint _ _ _ _ _ Ht Hq Hx). lia.
    + apply (page_ok_out p q a); try done.
      * intros E. by apply (done_not_self i q).
      * unfold in_page, PGSIZE. lia.
  - destruct Ha as [(x & Hx & Hxa)|Ha]; [|lia].
    assert (Hxok : page_ok x) by (apply Hr; by eapply sub_child).
    apply (page_ok_out x p a); try done.
    + intros ->. by eapply sub_not_root.
    + unfold in_page, PGSIZE. lia.
Qed.

(** In the middle of the table, what is still to be done is untouched. *)
Lemma torn_ahead i s1 :
  0 <= i < 512 -> torn s s1 (done_pages i) (done_bytes i) ->
  sub_rep leaves s1 t (k ++ [i]) /\ ld64 (k_mem s1) (pte_addr p i) = ld64 (k_mem s) (pte_addr p i) /\
  quota s1 p = 1.
Proof.
  intros Hi [T1 T2 T3 T4 T5]. split_and!.
  - eapply sub_rep_ext; [by apply sub_rep_child| |].
    + intros q Hq. apply T4; [apply Hr; by eapply sub_child|]. intros (j & Hj & Hq').
      pose proof (sub_disjoint _ _ _ _ _ Ht Hq Hq'). lia.
    + intros a Ha. apply T5. apply (done_bytes_ahead i i); [lia|lia|by left].
  - apply ld64_ext. intros a Ha. apply T5. apply (done_bytes_ahead i i); [lia|lia|by right].
  - destruct self_page as [Hp Hq]. rewrite <- Hq. apply T4; [done|]. intros Hd. by apply (done_not_self i p).
Qed.

Lemma torn_skip i s1 :
  0 <= i < 512 -> t !! (k ++ [i]) = None -> torn s s1 (done_pages i) (done_bytes i) ->
  torn s s1 (done_pages (i + 1)) (done_bytes (i + 1)).
Proof.
  intros Hi Hn Hs1.
  assert (E : forall q, done_pages i q <-> done_pages (i + 1) q).
  { intros q. split; intros (j & Hj & Hq); exists j; (split; [|done]); [lia|].
    destruct (decide (j = i)) as [->|]; [|lia]. destruct (sub_range _ _ _ _ Ht Hq) as [_ [? ?]]. congruence. }
  eapply torn_mono; [exact Hs1|intros q _; apply E|]. unfold done_bytes. intros a [(q & Hq & Ha)|Ha]; [left|right; lia].
  exists q. split; [by apply E|done].
Qed.

Lemma torn_child i s1 s2 :
  0 <= i < 512 -> torn s s1 (done_pages i) (done_bytes i) ->
  torn s1 s2 (sub t (k ++ [i])) (in_sub t (k ++ [i])) ->
  torn s s2 (done_pages (i + 1)) (done_bytes (i + 1)) /\ quota s2 p = 1.
Proof.
  intros Hi Hs1 Hs2. destruct (torn_ahead i s1 Hi Hs1) as (_ & _ & Hq1).
  assert (Hdis : forall q, page_ok q -> done_pages i q -> ~ sub t (k ++ [i]) q).
  { intros q _ (j & Hj & Hq) Hq'. pose proof (sub_disjoint _ _ _ _ _ Ht Hq Hq'). lia. }
  pose proof (torn_trans _ _ _ _ _ _ _ Hdis Hs1 Hs2) as H. split.
  - eapply torn_mono; [exact H| |].
    + intros q _. split.
      * intros [(j & Hj & Hq)|Hq]; [exists j|exists i]; (split; [lia|done]).
      * intros (j & Hj & Hq). destruct (decide (j = i)) as [->|]; [by right|left]. exists j. split; [lia|done].
    + unfold done_bytes. intros a [[(q & (j & Hj & Hq) & Ha)|Ha]|(q & Hq & Ha)]; [left|right; lia|left].
      * exists q. split; [exists j; split; [lia|done]|done].
      * exists q. split; [exists i; split; [lia|done]|done].
  - destruct self_page as [Hp _]. rewrite <- Hq1. apply (to_kept _ _ _ _ Hs2); [done|].
    intros Hs. by eapply sub_not_root.
Qed.

(** Entry [i] is overwritten. *)
Lemma torn_entry i s1 v :
  0 <= i < 512 -> torn s s1 (done_pages (i + 1)) (done_bytes (i + 1)) -> quota s1 p = 1 ->
  torn s (set_mem (fun m => st64 m (pte_addr p i) v) s1) (done_pages (i + 1)) (done_bytes (i + 1)).
Proof.
  intros Hi Hs1 Hq. destruct self_page as [Hp _]. destruct (pte_addr_in p i Hi) as [Hin Hin8]. unfold in_page in Hin.
  assert (H : torn s1 (set_mem (fun m => st64 m (pte_addr p i) v) s1) (fun _ => False) (fun b => pte_addr p i <= b < pte_addr p i + 8)).
  { apply (torn_store s1 p); [apply Hs1|done|lia|lia|done]. }
  eapply torn_mono; [exact (torn_trans _ _ _ _ _ _ _ (fun _ _ _ F => F) Hs1 H)|intros q _; tauto|].
  unfold done_bytes, pte_addr. intros a [Ha|Ha]; [done|right; lia].
Qed.

Lemma torn_table s1 :
  torn s s1 (done_pages 512) (done_bytes 512) ->
  wp (kfree_page p) (fun _ s' => torn s s' (sub t k) (in_sub t k)) s1.
Proof.
  intros Hs1. destruct self_page as [Hp Hq].
  assert (Hq1 : quota s1 p = 1).
  { rewrite <- Hq. apply Hs1; [done|]. intros Hd. by apply (done_not_self 512 p). }
  eapply wp_mono; [apply free_spec; [apply Hs1|done|lia]|].
  intros [] s' (F1 & F2 & F3 & F4 & F5 & _). destruct Hs1 as [T1 T2 T3 T4 T5].
  assert (Hsub : forall q, sub t k q -> q = p \/ done_pages 512 q).
  { intros q [Hs|[i Hs]]%sub_children; [left; congruence|right]. exists i. split; [|done].
    by apply (sub_range _ _ _ _ Ht Hs). }
  split; [done|by etrans| | |].
  - intros q Hqok Hs. destruct (decide (q = p)) as [->|Hne]; [rewrite F3; lia|].
    rewrite F4 by done. apply T3; [done|]. by destruct (Hsub q Hs).
  - intros q Hqok Hs. rewrite F4; [apply T4; [done|]|done|].
    + intros (j & _ & Hj). apply Hs. by eapply sub_child.
    + intros ->. apply Hs. by apply sub_self.
  - intros a Ha. rewrite F5.
    + apply T5. intros [(q & (j & _ & Hj) & Hqa)|Hd].
      * apply Ha. exists q. split; [by eapply sub_child|done].
      * apply Ha. exists p. split; [by apply sub_self|unfold in_page, PGSIZE; lia].
    + intros Hin. apply Ha. exists p. split; [by apply sub_self|done].
Qed.

(** A loop over the entries whose body handles one entry. *)
Lemma torn_loop (body : Z -> M kst unit) :
  (forall i s1, 0 <= i < 512 -> torn s s1 (done_pages i) (done_bytes i) ->
     wp (body i) (fun _ s2 => torn s s2 (done_pages (i + 1)) (done_bytes (i + 1))) s1) ->
  kinv s -> wp (for_i 512 0 body ;; kfree_page p) (fun _ s' => torn s s' (sub t k) (in_sub t k)) s.
Proof.
  intros Hbody Hinv.
  assert (Hgen : forall n i s1, 0 <= i -> i + Z.of_nat n = 512 -> torn s s1 (done_pages i) (done_bytes i) ->
    wp (for_i n i body) (fun _ s2 => torn s s2 (done_pages 512) (done_bytes 512)) s1).
  { induction n as [|n IH]; intros i s1 Hi Hn Hs1; cbn [for_i].
    - apply wp_ret. by replace 512 with i by lia.
    - wp_step. eapply wp_mono; [apply Hbody; [lia|done]|]. intros [] s2 Hs2. apply IH; [lia|lia|done]. }
  wp_step. eapply wp_mono; [apply Hgen; [lia|done|]|].
  - apply torn_refl; [done|]. intros q _ (j & Hj & Hq). apply sub_range in Hq as [? _]; [lia|done].
  - intros [] s1 Hs1. by apply torn_table.
Qed.

End table.

(** ** The recursions *)

Definition invalid (v : Z) : Prop := has v PTE_V = false.
Definition not_table (v : Z) : Prop := is_table v = false.

Lemma freewalk_spec d s t k p :
  kinv s -> tree_wf t -> t !! k = Some p -> sub_rep invalid s t k -> (length k + d = 2)%nat ->
  wp (freewalk d p) (fun _ s' => torn s s' (sub t k) (in_sub t k)) s.
Proof.
  revert s k p. induction d as [|d IH]; intros s k p Hinv Ht Hk Hr Hd; cbn [freewalk];
    apply (torn_loop invalid); try done; intros i s1 Hi Hs1; wp_go;
    destruct (torn_ahead _ s t k p Ht Hk Hr i s1 Hi Hs1) as (Hr1 & -> & Hq1).
  - assert (Hv : invalid (ld64 (k_mem s) (pte_addr p i))).
    { apply (sr_leaf _ _ _ _ Hr [] p i); rewrite ?app_nil_r; try done. lia. }
    rewrite (invalid_not_table _ Hv), Hv. apply wp_ret. apply (torn_skip s t k p Ht); try done.
    destruct (t !! (k ++ [i])) as [q|] eqn:E; [|done]. apply (tw_prefix _ Ht) in E as (_ & _ & ?). lia.
  - pose proof (sr_entry _ _ _ _ Hr [] p i) as He. rewrite app_nil_r in He. specialize (He Hk ltac:(lia) Hi).
    destruct (t !! (k ++ [i])) as [q|] eqn:E.
    + assert (Hq : page_ok q) by (apply Hr; eapply sub_child, sub_self, E).
      rewrite He, (table_pte_is_table q Hq), (table_pte_pa q Hq).
      wp_step. eapply wp_mono; [apply (IH s1 (k ++ [i])); [apply Hs1|done|done|done|rewrite length_app; simpl; lia]|].
      intros [] s2 Hs2. wp_go. destruct (torn_child _ s t k p Ht Hk Hr i s1 s2 Hi Hs1 Hs2) as [Hs2' Hq2].
      by apply (torn_entry invalid s t k p Hk Hr).
    + rewrite (invalid_not_table _ He), He. apply wp_ret. by apply (torn_skip s t k p Ht).
Qed.

Lemma ukvmfree_rec_spec d s t k p :
  kinv s -> tree_wf t -> t !! k = Some p -> sub_rep not_table s t k -> (length k + d = 2)%nat ->
  wp (ukvmfree_rec d p) (fun _ s' => torn s s' (sub t k) (in_sub t k)) s.
Proof.
  revert s k p. induction d as [|d IH]; intros s k p Hinv Ht Hk Hr Hd; cbn [ukvmfree_rec];
    apply (torn_loop not_table); try done; intros i s1 Hi Hs1; wp_step; wp_step; apply wp_gets;
    destruct (torn_ahead _ s t k p Ht Hk Hr i s1 Hi Hs1) as (Hr1 & -> & Hq1).
  - assert (Hv : not_table (ld64 (k_mem s) (pte_addr p i))).
    { apply (sr_leaf _ _ _ _ Hr [] p i); rewrite ?app_nil_r; try done. lia. }
    unfold not_table in Hv. rewrite Hv. wp_go; [done|]. apply (torn_entry not_table s t k p Hk Hr); [done| |done].
    apply (torn_skip s t k p Ht); try done.
    destruct (t !! (k ++ [i])) as [q|] eqn:E; [|done]. apply (tw_prefix _ Ht) in E as (_ & _ & ?). lia.
  - pose proof (sr_entry _ _ _ _ Hr [] p i) as He. rewrite app_nil_r in He. specialize (He Hk ltac:(lia) Hi).
    destruct (t !! (k ++ [i])) as [q|] eqn:E.
    + assert (Hq : page_ok q) by (apply Hr; eapply sub_child, sub_self, E).
      rewrite He, (table_pte_is_table q Hq), (table_pte_pa q Hq). simpl when.
      wp_step. eapply wp_mono; [apply (IH s1 (k ++ [i])); [apply Hs1|done|done|done|rewrite length_app; simpl; lia]|].
      intros [] s2 Hs2. wp_go. destruct (torn_child _ s t k p Ht Hk Hr i s1 s2 Hi Hs1 Hs2) as [Hs2' Hq2].
      by apply (torn_entry not_table s t k p Hk Hr).
    + rewrite (invalid_not_table _ He). wp_go; [done|]. apply (torn_entry not_table s t k p Hk Hr); [done| |done].
      by apply (torn_skip s t k p Ht).
Qed.

(** ** Whole tables *)

Lemma pt_rep_wf s t root : pt_rep s t root -> tree_wf t.
Proof. intros [R1 R2 R3 R4 R5]. by split. Qed.

Lemma sub_nil t p : sub t [] p <-> exists k, t !! k = Some p.
Proof. done. Qed.

(** The tree has tables for addresses below [MAXVA] only. *)
Definition low_tree (t : tree) : Prop := forall i k p, t !! (i :: k) = Some p -> i < 256.

(** No address is mapped. *)
Definition nothing_mapped (s : kst) (t : tree) : Prop :=
  forall va, 0 <= va < MAXVA -> has (pte_of s t va) PTE_V = false.

Lemma pt_rep_empty s t root :
  pt_rep s t root -> low_tree t -> nothing_mapped s t -> sub_rep invalid s t [].
Proof.
  intros Hr Hlow Hno. pose proof Hr as [R1 R2 R3 R4 R5]. split.
  - intros p [k Hk]. by apply (R3 k).
  - intros k p i Hk Hl Hi. by apply R5.
  - intros k p i Hk Hl Hi. simpl in *. destruct k as [|a [|b [|]]]; simplify_eq/=.
    pose proof (Hlow _ _ _ Hk) as Ha. pose proof (R4 [a] b p Hk) as (Hp & Hb & _).
    destruct Hp as [q Hq]. pose proof (R4 [] a q Hq) as (_ & Ha0 & _).
    set (va := a * 2 ^ 30 + b * 2 ^ 21 + i * 2 ^ 12).
    assert (Hva : 0 <= va < MAXVA) by (unfold va; change MAXVA with (2 ^ 38); lia).
    assert (E2 : PX 2 va = a) by (unfold va; rewrite PX_div by lia; dlia).
    assert (E1 : PX 1 va = b) by (unfold va; rewrite PX_div by lia; dlia).
    assert (E0 : PX 0 va = i) by (unfold va; rewrite PX_div by lia; dlia).
    pose proof (Hno va Hva) as H. unfold pte_of in H. by rewrite E2, E1, E0, Hk in H.
Qed.

Lemma freewalk_root s t root :
  kinv s -> pt_rep s t root -> low_tree t -> nothing_mapped s t ->
  wp (freewalk 2 root) (fun _ s' => torn s s' (sub t []) (in_sub t [])) s.
Proof.
  intros Hinv Hr Hlow Hno. apply freewalk_spec; [done|by eapply pt_rep_wf|apply Hr|by eapply pt_rep_empty|done].
Qed.

(** ** References

    What an address space holds is a list of references to physical pages:
    its table pages and the frames it maps.  [drops] says that exactly the
    references of a list were given back. *)

Record drops (s s' : kst) (l : list Z) : Prop := {
  dr_inv : kinv s';
  dr_frame : kframe s s';
  dr_quota p : page_ok p -> quota s' p = quota s p - occurrences p l;
  dr_mem b : (forall p, page_ok p -> in_page p b -> p ∈ l -> 0 < quota s' p) -> ld8 (k_mem s') b = ld8 (k_mem s) b;
}.

Definition holds_refs (s : kst) (l : list Z) : Prop :=
  Forall page_ok l /\ forall p, page_ok p -> occurrences p l <= quota s p.

Lemma drops_trans s s1 s2 l1 l2 : drops s s1 l1 -> drops s1 s2 l2 -> drops s s2 (l1 ++ l2).
Proof.
  intros [A1 A2 A3 A4] [B1 B2 B3 B4]. split; [done|by etrans| |].
  - intros p Hp. rewrite B3, A3, occurrences_app by done. lia.
  - intros b Hb. rewrite B4, A4; [done| |].
    + intros p Hp Hin Hl. assert (0 < quota s2 p) by (apply Hb; [done|done|set_solver]). rewrite B3 in * by done. lia.
    + intros p Hp Hin Hl. apply Hb; [done|done|set_solver].
Qed.

Lemma holds_refs_app s l1 l2 s1 : holds_refs s (l1 ++ l2) -> drops s s1 l1 -> holds_refs s1 l2.
Proof.
  intros [H1 H2] Hd. apply Forall_app in H1 as [_ H1]. split; [done|]. intros p Hp.
  rewrite (dr_quota _ _ _ Hd p Hp). specialize (H2 p Hp). rewrite occurrences_app in H2. lia.
Qed.

Lemma holds_refs_l s l1 l2 : holds_refs s (l1 ++ l2) -> holds_refs s l1.
Proof.
  intros [H1 H2]. apply Forall_app in H1 as [H1 _]. split; [done|]. intros p Hp. specialize (H2 p Hp).
  rewrite occurrences_app in H2. lia.
Qed.

Lemma holds_refs_perm s l1 l2 : l1 ≡ₚ l2 -> holds_refs s l1 -> holds_refs s l2.
Proof.
  intros E [H1 H2]. split; [by rewrite <- E|]. intros p Hp.
  rewrite <- (proj1 (Permutation_count_occ Z.eq_dec l1 l2) E). by apply H2.
Qed.

Lemma drops_perm s s' l1 l2 : l1 ≡ₚ l2 -> drops s s' l1 -> drops s s' l2.
Proof.
  intros E [A1 A2 A3 A4]. split; [done|done| |].
  - intros p Hp. rewrite <- (proj1 (Permutation_count_occ Z.eq_dec l1 l2) E). by apply A3.
  - intros b Hb. apply A4. intros p Hp Hin Hl. apply Hb; [done|done|by rewrite <- E].
Qed.

Lemma kfree_page_drops s pa :
  kinv s -> holds_refs s [pa] -> wp (kfree_page pa) (fun _ s' => drops s s' [pa]) s.
Proof.
  intros Hinv [H1 H2]. apply (proj1 (Forall_singleton page_ok pa)) in H1. specialize (H2 pa H1). simpl in H2.
  destruct (Z.eq_dec pa pa); [|done].
  eapply wp_mono; [apply free_spec; [done|done|lia]|]. intros [] s' (F1 & F2 & F3 & F4 & F5 & F6).
  split; [done|done| |].
  - intros p Hp. simpl. destruct (Z.eq_dec pa p) as [<-|]; [lia|]. rewrite F4 by (done || congruence). lia.
  - intros b Hb. destruct (decide (in_page pa b)) as [Hin|Hin]; [|by apply F5].
    rewrite F6; [done|]. specialize (Hb pa H1 Hin ltac:(set_solver)). lia.
Qed.

(** The pages of a tree, each once. *)
Definition pages (t : tree) : list Z := (map_to_list t).*2.

Lemma elem_of_pages t p : p ∈ pages t <-> exists k, t !! k = Some p.
Proof.
  unfold pages. rewrite list_elem_of_fmap. split.
  - intros ([k x] & -> & Hk%elem_of_map_to_list). by exists k.
  - intros [k Hk]. exists (k, p). split; [done|by apply elem_of_map_to_list].
Qed.

Lemma NoDup_pages t : tree_wf t -> NoDup (pages t).
Proof.
  intros Ht. apply NoDup_fmap_2_strong; [|apply NoDup_map_to_list].
  intros [k p] [k' p'] Hk%elem_of_map_to_list Hk'%elem_of_map_to_list E. simpl in *. subst.
  by rewrite (tw_inj _ Ht _ _ _ Hk Hk').
Qed.

Lemma occurrences_nodup p l : NoDup l -> p ∈ l -> occurrences p l = 1.
Proof.
  intros Hnd Hin. rewrite NoDup_ListNoDup in Hnd. rewrite list_elem_of_In in Hin.
  by rewrite (NoDup_count_occ' Z.eq_dec l) in Hnd; rewrite Hnd.
Qed.

Lemma occurrences_notin p l : p ∉ l -> occurrences p l = 0.
Proof. intros H. rewrite occurrences_elem in H. lia. Qed.

Lemma torn_drops s s' t root :
  pt_rep s t root -> torn s s' (sub t []) (in_sub t []) -> drops s s' (pages t).
Proof.
  intros Hr [T1 T2 T3 T4 T5]. pose proof (pt_rep_wf _ _ _ Hr) as Ht.
  assert (Hq : forall p, page_ok p -> quota s' p = quota s p - occurrences p (pages t)).
  { intros p Hp. destruct (decide (p ∈ pages t)) as [Hin|Hin].
    - rewrite (occurrences_nodup _ _ (NoDup_pages t Ht) Hin). apply elem_of_pages in Hin as [k Hk].
      rewrite T3; [|done|by exists k]. destruct (pr_page _ _ _ Hr _ _ Hk). lia.
    - rewrite (occurrences_notin _ _ Hin). rewrite T4; [lia|done|]. intros [k Hk]. apply Hin, elem_of_pages. by exists k. }
  split; [done|done|exact Hq|].
  intros b Hb. apply T5. intros (p & [k Hk] & Hpb). destruct (pr_page _ _ _ Hr _ _ Hk) as [Hp Hp1].
  assert (Hin : p ∈ pages t) by (apply elem_of_pages; by exists k).
  specialize (Hb p Hp Hpb Hin). rewrite (Hq p Hp), (occurrences_nodup _ _ (NoDup_pages t Ht) Hin) in Hb. lia.
Qed.

(** Dropping references to other pages leaves a table as it is. *)
Lemma pt_rep_drops s s' l t root :
  pt_rep s t root -> drops s s' l -> (forall p, p ∈ pages t -> p ∉ l) ->
  pt_rep s' t root /\ forall va, pte_of s' t va = pte_of s t va.
Proof.
  intros Hr [D1 D2 D3 D4] Hdis. apply pt_rep_ext; [done| |].
  - intros k p Hk. rewrite D3 by (by apply (pr_page _ _ _ Hr k)).
    rewrite occurrences_notin; [lia|]. apply Hdis, elem_of_pages. by exists k.
  - intros k p a Hk Ha. apply D4. intros q Hq Hqa Hl. exfalso.
    destruct (pr_page _ _ _ Hr _ _ Hk) as [Hp _].
    destruct (decide (p = q)) as [->|Hne]; [|by apply (page_ok_out p q a)].
    apply (Hdis q); [apply elem_of_pages; by exists k|done].
Qed.

(** References counted once exclude each other. *)
Lemma holds_refs_disjoint s l1 l2 p :
  holds_refs s (l1 ++ l2) -> quota s p = 1 -> p ∈ l1 -> p ∉ l2.
Proof.
  intros [H1 H2] Hq Hp1 Hp2. rewrite Forall_forall in H1. specialize (H1 p ltac:(set_solver)).
  specialize (H2 p H1). rewrite occurrences_app in H2. rewrite occurrences_elem in Hp1, Hp2. lia.
Qed.

End free.
