(* ===== verification/VmSpace.v ===== *)
(** * The address spaces of a process

    [proc_pagetable], [proc_freepagetable] and [proc_freekpagetable]
    (src/kernel/proc/proc.c): a user page table maps the heap, the stack and
    the three trampoline pages, the kernel's copy mirrors the first two beside
    the kernel's own regions and the kernel stack.  Teardown drops every
    reference they hold exactly once. *)

From S2P Require Import Prelude Riscv Memory Spinlock Kalloc Vm VmTree VmUnmap VmFree.
Import Hart.

Section space.
Context {L : Linker} {LOK : LinkerOk L} {PAS : PageAllocSpec}.

(** ** Unmapping several ranges *)

Definition vpn_in (a n v : Z) : bool := (a / PGSIZE <=? v) && (v <? a / PGSIZE + n).

(** The pages of [R] were unmapped and the references [fr] dropped. *)
Record cleared (root : Z) (s : kst) (t : tree) (R : Z -> bool) (fr : list Z) (s' : kst) : Prop := {
  cl_rep : pt_rep s' t root;
  cl_inv : kinv s';
  cl_frame : kframe s s';
  cl_pte va : 0 <= va < MAXVA ->
    pte_of s' t va = if R (va / PGSIZE) && has (pte_of s t va) PTE_V then 0 else pte_of s t va;
  cl_quota p : page_ok p -> quota s' p = quota s p - occurrences p fr;
  cl_mem b : outside t b -> (forall p, page_ok p -> in_page p b -> p ∈ fr -> 0 < quota s' p) ->
    ld8 (k_mem s') b = ld8 (k_mem s) b;
}.

(** Every valid entry at the lowest level is a leaf. *)
Definition leafy (s : kst) (t : tree) : Prop :=
  forall va, 0 <= va < MAXVA -> has (pte_of s t va) PTE_V = true -> PTE_FLAGS (pte_of s t va) <> PTE_V.

Lemma cleared_refl root s t : kinv s -> pt_rep s t root -> cleared root s t (fun _ => false) [] s.
Proof. intros Hi Hr. split; try done. intros p _. simpl. lia. Qed.

Lemma vpn_in_page a n i : 0 <= i < n -> a mod PGSIZE = 0 -> vpn_in a n ((a + i * PGSIZE) / PGSIZE) = true.
Proof. intros Hi Hal. unfold vpn_in. rewrite Z.div_add by done. destruct (range_spec (a / PGSIZE) (a / PGSIZE + n) (a / PGSIZE + i)); [done|lia]. Qed.

Lemma frames_ext s s' t a n :
  (forall i, 0 <= i < n -> pte_of s' t (a + i * PGSIZE) = pte_of s t (a + i * PGSIZE)) ->
  frames s' t a n = frames s t a n.
Proof.
  intros H. apply list_omap_ext, Forall_Forall2_diag, Forall_forall. intros i [Hi1 Hi2]%elem_of_seqZ.
  unfold frame_at. by rewrite H by lia.
Qed.

Lemma frames_cleared root s t R fr s1 a n :
  cleared root s t R fr s1 -> 0 <= a -> a mod PGSIZE = 0 -> a + n * PGSIZE <= MAXVA ->
  (forall v, vpn_in a n v = true -> R v = false) -> frames s1 t a n = frames s t a n.
Proof.
  intros Hc Ha Hal Hmax Hdis. apply frames_ext. intros i Hi.
  rewrite (cl_pte _ _ _ _ _ _ Hc) by (unfold PGSIZE in *; lia).
  by rewrite (Hdis _ (vpn_in_page a n i Hi Hal)).
Qed.

Lemma elem_of_frames s t a n p :
  p ∈ frames s t a n <-> exists i, 0 <= i < n /\ frame_at s t (a + i * PGSIZE) = Some p.
Proof.
  unfold frames. rewrite list_elem_of_omap. split.
  - intros (i & [? ?]%elem_of_seqZ & Hf). exists i. split; [lia|done].
  - intros (i & Hi & H). exists i. split; [apply elem_of_seqZ; lia|done].
Qed.

Lemma frame_at_Some s t va p : frame_at s t va = Some p <-> has (pte_of s t va) PTE_V = true /\ PTE2PA (pte_of s t va) = p.
Proof. unfold frame_at. destruct (has (pte_of s t va) PTE_V); naive_solver. Qed.

Lemma cleared_unmap root s t R fr s1 a n (do_free : bool) :
  cleared root s t R fr s1 -> leafy s t -> 0 <= a -> a mod PGSIZE = 0 -> 0 <= n -> a + n * PGSIZE <= MAXVA ->
  (do_free = true -> (forall v, vpn_in a n v = true -> R v = false) /\
     holds_refs s (fr ++ frames s t a n) /\ forall p, p ∈ frames s t a n -> p ∉ pages t) ->
  wp (uvmunmap root a n do_free) (fun _ s2 =>
    cleared root s t (fun v => R v || vpn_in a n v) (fr ++ if do_free then frames s t a n else []) s2) s1.
Proof.
  intros Hc Hleaf Ha Hal Hn Hmax Hfree.
  assert (Hfr : do_free = true -> frames s1 t a n = frames s t a n).
  { intros Hd. destruct (Hfree Hd) as [Hdis _]. by eapply frames_cleared. }
  pose proof Hc as [C1 C2 C3 C4 C5 C6].
  assert (Hold : forall va, 0 <= va < MAXVA -> has (pte_of s1 t va) PTE_V = true -> pte_of s1 t va = pte_of s t va).
  { intros va Hva. rewrite (C4 va Hva). destruct (R _ && _); [by rewrite has_zero|done]. }
  eapply wp_mono; [apply uvmunmap_spec; [done|exact C1|done|done|done|done|]|].
  - intros i Hi v Hv. assert (Hva : 0 <= a + i * PGSIZE < MAXVA) by (unfold PGSIZE in *; lia).
    unfold v in *. clear v. pose proof (Hold _ Hva Hv) as E. rewrite E in *. split; [by apply Hleaf|]. intros Hd.
    destruct (Hfree Hd) as (_ & [Hok Hcnt] & Hnt). rewrite (Hfr Hd).
    set (x := PTE2PA (pte_of s t (a + i * PGSIZE))) in *.
    assert (Hx : x ∈ frames s t a n) by (apply elem_of_frames; exists i; split; [done|by apply frame_at_Some]).
    assert (Hxok : page_ok x) by (rewrite Forall_forall in Hok; apply Hok; set_solver).
    split_and!; [done| |].
    + intros k Hk. apply (Hnt x Hx), elem_of_pages. by exists k.
    + specialize (Hcnt x Hxok). rewrite occurrences_app in Hcnt. rewrite (C5 x Hxok). lia.
  - intros [] s2 [U1 U2 U3 U4 U5 U6]. split; [done|done|by etrans| | |].
    + intros va Hva. rewrite (U4 va Hva), (C4 va Hva). fold (vpn_in a n (va / PGSIZE)).
      destruct (R _) eqn:ER; destruct (has (pte_of s t va) PTE_V) eqn:EV; simpl; rewrite ?EV, ?has_zero;
        destruct (vpn_in a n (va / PGSIZE)) eqn:EI; simpl; try done.
    + intros p Hp. rewrite (U5 p Hp), (C5 p Hp), occurrences_app. destruct do_free; [rewrite Hfr by done; lia|simpl; lia].
    + intros b Hb Hcnt.
      assert (Hpos : forall p, page_ok p -> 0 < quota s2 p -> 0 < quota s1 p).
      { intros p Hp Hq. rewrite (U5 p Hp) in Hq. destruct do_free; lia. }
      rewrite U6, C6; [done|done| |done|].
      * intros p Hp Hin Hl. apply Hpos; [done|]. apply Hcnt; [done|done|set_solver].
      * intros p Hp Hin Hd Hl. apply Hcnt; [done|done|]. rewrite Hd, <- Hfr by done. set_solver.
Qed.

(** Once nothing is mapped any more the table itself goes. *)
Lemma cleared_freewalk root s t R fr s1 :
  cleared root s t R fr s1 -> pt_rep s t root -> low_tree t -> (forall p, p ∈ pages t -> p ∉ fr) ->
  (forall va, 0 <= va < MAXVA -> has (pte_of s t va) PTE_V = true -> R (va / PGSIZE) = true) ->
  wp (freewalk 2 root) (fun _ s' => drops s s' (fr ++ pages t)) s1.
Proof.
  intros [C1 C2 C3 C4 C5 C6] Hr Hlow Hdis Hall.
  eapply wp_mono; [apply freewalk_root; [done|exact C1|done|]|].
  - intros va Hva. rewrite (C4 va Hva). destruct (has (pte_of s t va) PTE_V) eqn:EV; [|by rewrite andb_false_r].
    rewrite (Hall va Hva EV). simpl. apply has_zero.
  - intros [] s' Ht. pose proof (torn_drops _ _ _ _ C1 Ht) as [D1 D2 D3 D4].
    split; [done|by etrans| |].
    + intros p Hp. rewrite D3, C5, occurrences_app by done. lia.
    + intros b Hb.
      assert (Hz : forall p, p ∈ pages t -> page_ok p /\ quota s' p = 0).
      { intros p Hp. pose proof Hp as [k Hk]%elem_of_pages. destruct (pr_page _ _ _ C1 _ _ Hk) as [Hpok Hq].
        split; [done|]. rewrite (D3 p Hpok), (occurrences_nodup _ _ (NoDup_pages t (pt_rep_wf _ _ _ Hr)) Hp). lia. }
      assert (Hnb : forall p, in_page p b -> p ∉ pages t).
      { intros p Hin Hp. destruct (Hz p Hp) as [Hpok Hq0]. specialize (Hb p Hpok Hin ltac:(set_solver)). lia. }
      rewrite D4, C6; [done| | |].
      * intros k p Hk Hin. apply (Hnb p Hin), elem_of_pages. by exists k.
      * intros p Hp Hin Hl. specialize (Hb p Hp Hin ltac:(set_solver)). rewrite (D3 p Hp) in Hb. lia.
      * intros p Hp Hin Hl. by destruct (Hnb p Hin).
Qed.

(** ** The user page table *)

Definition NSTACK : Z := (USER_STACK_TOP - USER_STACK_START) / PGSIZE.
Definition heap_pages (sz : Z) : Z := PGROUNDUP sz / PGSIZE.

(** The frames of heap and stack; a shared frame occurs once per mapping. *)
Definition user_frames (s : kst) (t : tree) (sz : Z) : list Z :=
  frames s t USER_STACK_START NSTACK ++ frames s t 0 (heap_pages sz).

Record user_space (s : kst) (t : tree) (root sz : Z) : Prop := {
  us_rep : pt_rep s t root;
  us_low : low_tree t;
  us_leaf : leafy s t;
  us_sz : 0 <= sz <= USER_STACK_GUARD;
  us_dom va : 0 <= va < MAXVA -> has (pte_of s t va) PTE_V = true ->
    vpn_in 0 (heap_pages sz) (va / PGSIZE) || vpn_in USER_STACK_START NSTACK (va / PGSIZE) ||
    vpn_in SIGTRAMP 3 (va / PGSIZE) = true;
}.

Lemma heap_pages_bounds sz : 0 <= sz <= USER_STACK_GUARD -> 0 <= heap_pages sz <= USER_STACK_GUARD / PGSIZE /\ heap_pages 0 = 0.
Proof.
  intros H. unfold heap_pages. rewrite PGROUNDUP_div; unfold USER_STACK_GUARD, USER_STACK_BOTTOM, USER_STACK_TOP, MAXUVA, USER_STACK_SIZE, PGSIZE in *;
    change (Z.shiftl 1 20) with 1048576 in *; [|lia|lia].
  split; [|done]. rewrite Z.mul_comm, Z.div_mul by done. dlia.
Qed.

Lemma refs_not_pages s t root fr :
  pt_rep s t root -> holds_refs s (fr ++ pages t) -> forall p, p ∈ pages t -> p ∉ fr.
Proof.
  intros Hr Hh p Hp Hf. pose proof Hp as [k Hk]%elem_of_pages. destruct (pr_page _ _ _ Hr _ _ Hk) as [_ Hq].
  by apply (holds_refs_disjoint s fr (pages t) p Hh Hq Hf).
Qed.

Lemma vpn_in_spec a n v : BoolSpec (a / PGSIZE <= v < a / PGSIZE + n) (~ a / PGSIZE <= v < a / PGSIZE + n) (vpn_in a n v).
Proof. apply range_spec. Qed.

(** Case analysis on every test of a page number. *)
Ltac case_vpn :=
  repeat match goal with
  | |- context [vpn_in ?a ?n ?v] => destruct (vpn_in_spec a n v)
  | H : context [vpn_in ?a ?n ?v] |- _ => destruct (vpn_in_spec a n v)
  end.

Lemma proc_freepagetable_spec s t root sz :
  kinv s -> user_space s t root sz -> holds_refs s (user_frames s t sz ++ pages t) ->
  wp (proc_freepagetable root sz) (fun _ s' => drops s s' (user_frames s t sz ++ pages t)) s.
Proof.
  intros Hinv [U1 U2 U3 U4 U5] Hrefs. pose proof (refs_not_pages _ _ _ _ U1 Hrefs) as Hnp.
  destruct (heap_pages_bounds sz U4) as [Hhp Hhp0]. fold (heap_pages sz) in *.
  pose proof (holds_refs_l _ _ _ Hrefs) as Hrefs1. unfold user_frames in *.
  unfold proc_freepagetable, uvm_stack_unmap, uvmfree. fold NSTACK (heap_pages sz).
  wp_step. eapply wp_mono; [apply (cleared_unmap root s t (fun _ => false) [] s); [by apply cleared_refl|done|done|done|done|done|]|].
  { intros _. split_and!; [done|by eapply holds_refs_l|]. intros p Hp Hp'. apply (Hnp p Hp'). set_solver. }
  intros [] s1 Hc1. wp_step. eapply wp_mono; [eapply cleared_unmap; [exact Hc1|done|done|done|done|done|done]|].
  intros [] s2 Hc2. wp_step. eapply wp_mono; [eapply cleared_unmap; [exact Hc2|done|done|done|done|done|done]|].
  intros [] s3 Hc3. wp_step. eapply wp_mono; [eapply cleared_unmap; [exact Hc3|done|done|done|done|done|done]|].
  intros [] s4 Hc4. rewrite !app_nil_r in Hc4. simpl app in Hc4. clear Hc1 Hc2 Hc3 s1 s2 s3.
  assert (Hfin : forall s5, cleared root s t (fun v => (((false || vpn_in USER_STACK_START NSTACK v) || vpn_in TRAMPOLINE 1 v) ||
      vpn_in TRAPFRAME 1 v) || vpn_in SIGTRAMP 1 v || vpn_in 0 (heap_pages sz) v)
      (frames s t USER_STACK_START NSTACK ++ frames s t 0 (heap_pages sz)) s5 ->
    wp (freewalk 2 root) (fun _ s' => drops s s' ((frames s t USER_STACK_START NSTACK ++ frames s t 0 (heap_pages sz)) ++ pages t)) s5).
  { intros s5 Hc5. eapply cleared_freewalk; [exact Hc5|done|done|done|].
    intros va Hva Hv. specialize (U5 va Hva Hv). revert U5. case_vpn; simpl; try done.
    intros _. exfalso. change (SIGTRAMP / PGSIZE) with (TRAMPOLINE / PGSIZE - 2) in *.
    change (TRAPFRAME / PGSIZE) with (TRAMPOLINE / PGSIZE - 1) in *. lia. }
  wp_step. destruct (Z.ltb_spec 0 sz) as [Hsz|Hsz]; simpl when.
  - eapply wp_mono; [eapply cleared_unmap; [exact Hc4|done|done|done|apply Hhp| |]|].
    + destruct Hhp as [_ Hhp]. change MAXVA with (2 ^ 38). change (USER_STACK_GUARD / PGSIZE) with 524032 in Hhp. unfold PGSIZE. lia.
    + intros _. split_and!; [|done|].
      * intros v Hv. destruct Hhp as [_ Hhp]. change (USER_STACK_GUARD / PGSIZE) with 524032 in Hhp. revert Hv. unfold vpn_in.
        change (0 / PGSIZE) with 0. change (USER_STACK_START / PGSIZE) with 524033. change (TRAMPOLINE / PGSIZE) with 67108863.
        change (TRAPFRAME / PGSIZE) with 67108862. change (SIGTRAMP / PGSIZE) with 67108861. intros Hv. breflect.
        rewrite !(proj2 (Z.leb_gt _ v)) by lia. done.
      * intros p Hp Hp'. apply (Hnp p Hp'), elem_of_app. by right.
    + intros [] s5 Hc5. by apply Hfin.
  - wp_go. assert (sz = 0) as -> by lia. rewrite Hhp0 in *. apply Hfin. change (frames s t 0 0) with (@nil Z). rewrite app_nil_r.
    destruct Hc4 as [C1 C2 C3 C4 C5 C6]. split; [done|done|done| |done|done].
    intros va Hva. rewrite (C4 va Hva).
    assert (E : vpn_in 0 0 (va / PGSIZE) = false) by (destruct (vpn_in_spec 0 0 (va / PGSIZE)); [lia|done]).
    by rewrite E, orb_false_r.
Qed.

(** ** The kernel's page table of a process *)

Definition region_in (rs : list region) (v : Z) : bool :=
  existsb (fun r => vpn_in (r_va r) (r_sz r / PGSIZE) v) rs.

Record kernel_space (s : kst) (t : tree) (root kstack sz : Z) : Prop := {
  ks_rep : pt_rep s t root;
  ks_low : low_tree t;
  ks_leaf : leafy s t;
  ks_sz : 0 <= sz <= USER_STACK_GUARD;
  ks_stack : 0 <= kstack /\ kstack mod PGSIZE = 0 /\ kstack + PGSIZE <= MAXVA;
  ks_apart : region_in kernel_regions (kstack / PGSIZE) || vpn_in 0 (heap_pages sz) (kstack / PGSIZE) ||
    vpn_in USER_STACK_START NSTACK (kstack / PGSIZE) = false;
  ks_dom va : 0 <= va < MAXVA -> has (pte_of s t va) PTE_V = true ->
    region_in kernel_regions (va / PGSIZE) || vpn_in 0 (heap_pages sz) (va / PGSIZE) ||
    vpn_in USER_STACK_START NSTACK (va / PGSIZE) || vpn_in kstack 1 (va / PGSIZE) = true;
}.

Definition region_ok (r : region) : Prop :=
  0 <= r_va r /\ r_va r mod PGSIZE = 0 /\ 0 <= r_sz r /\ r_va r + r_sz r <= MAXVA.

Lemma kernel_regions_ok : Forall region_ok kernel_regions.
Proof.
  pose proof etext_lo. pose proof etext_end. pose proof kend_hi. pose proof etext_aligned.
  unfold kernel_regions, device. simpl fmap. unfold region_ok, KERNBASE, PHYSTOP, PGSIZE in *.
  repeat constructor; simpl; try lia; try done; change MAXVA with (2 ^ 38); lia.
Qed.

Lemma ukvm_unmap_all_cleared rs root s t R fr s1 :
  Forall region_ok rs -> cleared root s t R fr s1 -> leafy s t ->
  wp (ukvm_unmap_all root rs) (fun _ s2 => cleared root s t (fun v => R v || region_in rs v) fr s2) s1.
Proof.
  intros Hok. revert R s1. induction Hok as [|r rs (H1 & H2 & H3 & H4) Hok IH]; intros R s1 Hc Hleaf; cbn [ukvm_unmap_all].
  - wp_go. destruct Hc as [C1 C2 C3 C4 C5 C6]. split; try done. intros va Hva. rewrite (C4 va Hva). simpl. by rewrite orb_false_r.
  - wp_step. eapply wp_mono; [eapply cleared_unmap; [exact Hc|done|done|done| | |done]|].
    + by apply Z.div_pos.
    + unfold PGSIZE. dlia.
    + intros [] s2 Hc2. rewrite app_nil_r in Hc2. eapply wp_mono; [by apply (IH _ s2 Hc2)|].
      intros [] s3 [C1 C2 C3 C4 C5 C6]. split; try done. intros va Hva. rewrite (C4 va Hva). simpl. by rewrite orb_assoc.
Qed.

Lemma proc_freekpagetable_spec s t root kstack sz :
  kinv s -> kernel_space s t root kstack sz -> holds_refs s (frames s t kstack 1 ++ pages t) ->
  wp (proc_freekpagetable root kstack sz) (fun _ s' => drops s s' (frames s t kstack 1 ++ pages t)) s.
Proof.
  intros Hinv [U1 U2 U3 U4 (K1 & K2 & K3) Uap U5] Hrefs. pose proof (refs_not_pages _ _ _ _ U1 Hrefs) as Hnp.
  destruct (heap_pages_bounds sz U4) as [Hhp Hhp0].
  unfold proc_freekpagetable, uvm_stack_unmap, uvmfree, ukvmunmap. fold NSTACK (heap_pages sz).
  wp_step. eapply wp_mono; [apply ukvm_unmap_all_cleared; [apply kernel_regions_ok|by apply cleared_refl|done]|].
  intros [] s1 Hc1. wp_step. eapply wp_mono; [eapply cleared_unmap; [exact Hc1|done|done|done|apply Hhp| |done]|].
  { destruct Hhp as [_ Hhp]. change MAXVA with (2 ^ 38). change (USER_STACK_GUARD / PGSIZE) with 524032 in Hhp. unfold PGSIZE. lia. }
  intros [] s2 Hc2. wp_step. eapply wp_mono; [eapply cleared_unmap; [exact Hc2|done|done|done|done|done|done]|].
  intros [] s3 Hc3. clear Hc1 Hc2 s1 s2. rewrite !app_nil_r in Hc3. simpl orb in Hc3.
  wp_step. eapply wp_mono; [eapply cleared_unmap; [exact Hc3|done|done|done|done|lia|]|].
  { intros _. split_and!.
    - intros v Hv. assert (v = kstack / PGSIZE) as -> by (clear -Hv; unfold vpn_in in Hv; breflect; lia). exact Uap.
    - simpl app. by eapply holds_refs_l.
    - intros p Hp Hp'. by apply (Hnp p Hp'). }
  intros [] s4 Hc4. wp_step. change (0 <? 0) with false. simpl when. wp_go.
  eapply cleared_freewalk; [exact Hc4|done|done|done|done].
Qed.

(** The kernel stack lies apart from everything else. *)
Lemma kstack_apart sz : 0 <= sz <= USER_STACK_GUARD ->
  region_in kernel_regions (KSTACK 0 / PGSIZE) || vpn_in 0 (heap_pages sz) (KSTACK 0 / PGSIZE) ||
    vpn_in USER_STACK_START NSTACK (KSTACK 0 / PGSIZE) = false.
Proof.
  intros Hsz. destruct (heap_pages_bounds sz Hsz) as [Hhp _]. change (USER_STACK_GUARD / PGSIZE) with 524032 in Hhp.
  change (KSTACK 0 / PGSIZE) with 67108861.
  pose proof etext_lo. pose proof etext_end. pose proof kend_hi. unfold KERNBASE, PHYSTOP in *.
  assert (Hr : region_in kernel_regions 67108861 = false).
  { unfold region_in, kernel_regions. rewrite existsb_app. apply orb_false_iff. split; [reflexivity|].
    cbn [existsb r_va r_sz]. rewrite !orb_false_iff. unfold vpn_in, KERNBASE, PHYSTOP, PGSIZE.
    split_and!; try reflexivity.
    - destruct (range_spec (2147614720 / 4096) (2147614720 / 4096 + (etext - 2147614720) / 4096) 67108861); [dlia|done].
    - destruct (range_spec (etext / 4096) (etext / 4096 + (2153775104 - etext) / 4096) 67108861); [dlia|done]. }
  rewrite Hr. simpl. change (0 / PGSIZE) with 0 in *.
  change (vpn_in USER_STACK_START NSTACK 67108861) with false. rewrite orb_false_r.
  destruct (vpn_in_spec 0 (heap_pages sz) 67108861) as [Hh|]; [|done]. change (0 / PGSIZE) with 0 in Hh. lia.
Qed.

End space.
