(* ===== verification/Proctab.v ===== *)
(** * The process table (src/kernel/include/proc.h)

    The records [proc] and [cpu], the table of processes with the global
    variables of proc.c, and the accessors the scheduler, the signal code and
    the process life cycle share.  A [struct proc *] is the index of its slot
    in [proc[NPROC]]; NULL is [None].  The trapframe page is represented by
    its 36 words in [p_tf] beside its address [p_trapframe]. *)

From S2P Require Import Prelude Riscv Memory Spinlock Kalloc.
Import Hart.

Inductive procstate := UNUSED | SLEEPING | RUNNABLE | RUNNING | ZOMBIE.

#[export] Instance procstate_eq_dec : EqDecision procstate.
Proof. solve_decision. Defined.

(** What [p->chan] points to: nothing, a process (a parent in [wait]) or any
    other kernel object, by its address. *)
Inductive chan := NoChan | ProcChan (i : Z) | AddrChan (a : Z).

#[export] Instance chan_eq_dec : EqDecision chan.
Proof. solve_decision. Defined.

Definition WAKEUP_NORMAL : Z := 0.
Definition WAKEUP_TIMER : Z := 1.
Definition WAKEUP_IO : Z := 2.
Definition WAKEUP_DEVICE : Z := 3.

Definition MLFQ_LEVELS : Z := 4.
Definition MLFQ_TOP_LEVEL : Z := 0.
Definition MLFQ_BOTTOM_LEVEL : Z := MLFQ_LEVELS - 1.
Definition MLFQ_BOOST_INTERVAL : Z := 200.

Definition NSIG : Z := 32.

(** [struct trapframe]: 36 words; the indices of those the kernel uses. *)
Abbreviation trapframe := (list Z).
Definition TF_WORDS : nat := 36.
Definition TF_kernel_satp : nat := 0.
Definition TF_kernel_sp : nat := 1.
Definition TF_kernel_trap : nat := 2.
Definition TF_epc : nat := 3.
Definition TF_kernel_hartid : nat := 4.
Definition TF_ra : nat := 5.
Definition TF_sp : nat := 6.
Definition TF_a0 : nat := 14.
Definition TF_a1 : nat := 15.
Definition TF_a7 : nat := 21.
Definition zero_tf : trapframe := replicate TF_WORDS 0.

(** [enum vma_type] and [struct vma_area] of mmap.h.  [vma_ops] is NULL or the
    fault handler of the backing object. *)
Inductive vma_type := VMA_FILE | VMA_ANON | VMA_KBUF.
#[export] Instance vma_type_eq_dec : EqDecision vma_type.
Proof. solve_decision. Defined.

Inductive vma_ops := ops_file | ops_anon | ops_kbuf.
#[export] Instance vma_ops_eq_dec : EqDecision vma_ops.
Proof. solve_decision. Defined.

Record vma_area := VmaArea {
  vm_used : bool;
  vm_type : vma_type;
  vm_start : Z;
  vm_end : Z;
  vm_valid_end : Z;
  vm_offset : Z;
  vm_prot : Z;
  vm_flags : Z;
  vm_populate : Z;
  vm_object : Z;  (** address of the mmap_object, 0 for NULL *)
  vm_ops : option vma_ops;
}.

Definition set_vm_used (v : bool) (x : vma_area) : vma_area :=
  VmaArea v (vm_type x) (vm_start x) (vm_end x) (vm_valid_end x) (vm_offset x) (vm_prot x) (vm_flags x) (vm_populate x) (vm_object x) (vm_ops x).
Definition set_vm_type (v : vma_type) (x : vma_area) : vma_area :=
  VmaArea (vm_used x) v (vm_start x) (vm_end x) (vm_valid_end x) (vm_offset x) (vm_prot x) (vm_flags x) (vm_populate x) (vm_object x) (vm_ops x).
Definition set_vm_start (v : Z) (x : vma_area) : vma_area :=
  VmaArea (vm_used x) (vm_type x) v (vm_end x) (vm_valid_end x) (vm_offset x) (vm_prot x) (vm_flags x) (vm_populate x) (vm_object x) (vm_ops x).
Definition set_vm_end (v : Z) (x : vma_area) : vma_area :=
  VmaArea (vm_used x) (vm_type x) (vm_start x) v (vm_valid_end x) (vm_offset x) (vm_prot x) (vm_flags x) (vm_populate x) (vm_object x) (vm_ops x).
Definition set_vm_valid_end (v : Z) (x : vma_area) : vma_area :=
  VmaArea (vm_used x) (vm_type x) (vm_start x) (vm_end x) v (vm_offset x) (vm_prot x) (vm_flags x) (vm_populate x) (vm_object x) (vm_ops x).
Definition set_vm_offset (v : Z) (x : vma_area) : vma_area :=
  VmaArea (vm_used x) (vm_type x) (vm_start x) (vm_end x) (vm_valid_end x) v (vm_prot x) (vm_flags x) (vm_populate x) (vm_object x) (vm_ops x).
Definition set_vm_prot (v : Z) (x : vma_area) : vma_area :=
  VmaArea (vm_used x) (vm_type x) (vm_start x) (vm_end x) (vm_valid_end x) (vm_offset x) v (vm_flags x) (vm_populate x) (vm_object x) (vm_ops x).
Definition set_vm_flags (v : Z) (x : vma_area) : vma_area :=
  VmaArea (vm_used x) (vm_type x) (vm_start x) (vm_end x) (vm_valid_end x) (vm_offset x) (vm_prot x) v (vm_populate x) (vm_object x) (vm_ops x).
Definition set_vm_populate (v : Z) (x : vma_area) : vma_area :=
  VmaArea (vm_used x) (vm_type x) (vm_start x) (vm_end x) (vm_valid_end x) (vm_offset x) (vm_prot x) (vm_flags x) v (vm_object x) (vm_ops x).
Definition set_vm_object (v : Z) (x : vma_area) : vma_area :=
  VmaArea (vm_used x) (vm_type x) (vm_start x) (vm_end x) (vm_valid_end x) (vm_offset x) (vm_prot x) (vm_flags x) (vm_populate x) v (vm_ops x).
Definition set_vm_ops (v : option vma_ops) (x : vma_area) : vma_area :=
  VmaArea (vm_used x) (vm_type x) (vm_start x) (vm_end x) (vm_valid_end x) (vm_offset x) (vm_prot x) (vm_flags x) (vm_populate x) (vm_object x) v.

Definition zero_vma : vma_area := VmaArea false VMA_FILE 0 0 0 0 0 0 0 0 None.
#[export] Instance vma_area_inhabited : Inhabited vma_area := populate zero_vma.
Definition NVMA : Z := 16.

Record proc := Proc {
  p_state : procstate;
  p_parent : option Z;
  p_chan : chan;
  p_killed : bool;
  p_xstate : Z;
  p_pid : Z;
  p_pgid : Z;
  p_kstack : Z;
  p_sz : Z;
  p_pagetable : Z;
  p_kpagetable : Z;
  p_trapframe : Z;  (** address of the trapframe page, 0 for NULL *)
  p_tf : trapframe;  (** its contents *)
  p_context : Z * Z;  (** context.ra, context.sp *)
  p_ofile : list Z;  (** struct file addresses, 0 for NULL *)
  p_cwd : Z;
  p_name : string;
  p_trace_mask : Z;
  p_vmas : list vma_area;
  p_queue_level : Z;
  p_sched_ticks : Z;
  p_total_run_ticks : Z;
  p_wait_ticks : Z;
  p_preempt_count : Z;
  p_boost_count : Z;
  p_io_wakeup_count : Z;
  p_device_wakeup_count : Z;
  p_last_wakeup_reason : Z;
  p_sig_pending : Z;
  p_sig_mask : Z;
  p_sig_handlers : list Z;
  p_sig_handling : bool;
  p_sig_current : Z;
  p_sig_term : Z;
  p_interruptible_sleep : bool;
  p_sig_saved_trapframe : trapframe;
  p_copy_fault_active : bool;
  p_copy_fault_recovery : bool;  (** a recovery PC is set *)
}.

Definition set_p_state (v : procstate) (x : proc) : proc :=
  Proc v (p_parent x) (p_chan x) (p_killed x) (p_xstate x) (p_pid x) (p_pgid x) (p_kstack x) (p_sz x) (p_pagetable x) (p_kpagetable x) (p_trapframe x) (p_tf x) (p_context x) (p_ofile x) (p_cwd x) (p_name x) (p_trace_mask x) (p_vmas x) (p_queue_level x) (p_sched_ticks x) (p_total_run_ticks x) (p_wait_ticks x) (p_preempt_count x) (p_boost_count x) (p_io_wakeup_count x) (p_device_wakeup_count x) (p_last_wakeup_reason x) (p_sig_pending x) (p_sig_mask x) (p_sig_handlers x) (p_sig_handling x) (p_sig_current x) (p_sig_term x) (p_interruptible_sleep x) (p_sig_saved_trapframe x) (p_copy_fault_active x) (p_copy_fault_recovery x).
Definition set_p_parent (v : option Z) (x : proc) : proc :=
  Proc (p_state x) v (p_chan x) (p_killed x) (p_xstate x) (p_pid x) (p_pgid x) (p_kstack x) (p_sz x) (p_pagetable x) (p_kpagetable x) (p_trapframe x) (p_tf x) (p_context x) (p_ofile x) (p_cwd x) (p_name x) (p_trace_mask x) (p_vmas x) (p_queue_level x) (p_sched_ticks x) (p_total_run_ticks x) (p_wait_ticks x) (p_preempt_count x) (p_boost_count x) (p_io_wakeup_count x) (p_device_wakeup_count x) (p_last_wakeup_reason x) (p_sig_pending x) (p_sig_mask x) (p_sig_handlers x) (p_sig_handling x) (p_sig_current x) (p_sig_term x) (p_interruptible_sleep x) (p_sig_saved_trapframe x) (p_copy_fault_active x) (p_copy_fault_recovery x).
Definition set_p_chan (v : chan) (x : proc) : proc :=
  Proc (p_state x) (p_parent x) v (p_killed x) (p_xstate x) (p_pid x) (p_pgid x) (p_kstack x) (p_sz x) (p_pagetable x) (p_kpagetable x) (p_trapframe x) (p_tf x) (p_context x) (p_ofile x) (p_cwd x) (p_name x) (p_trace_mask x) (p_vmas x) (p_queue_level x) (p_sched_ticks x) (p_total_run_ticks x) (p_wait_ticks x) (p_preempt_count x) (p_boost_count x) (p_io_wakeup_count x) (p_device_wakeup_count x) (p_last_wakeup_reason x) (p_sig_pending x) (p_sig_mask x) (p_sig_handlers x) (p_sig_handling x) (p_sig_current x) (p_sig_term x) (p_interruptible_sleep x) (p_sig_saved_trapframe x) (p_copy_fault_active x) (p_copy_fault_recovery x).
Definition set_p_killed (v : bool) (x : proc) : proc :=
  Proc (p_state x) (p_parent x) (p_chan x) v (p_xstate x) (p_pid x) (p_pgid x) (p_kstack x) (p_sz x) (p_pagetable x) (p_kpagetable x) (p_trapframe x) (p_tf x) (p_context x) (p_ofile x) (p_cwd x) (p_name x) (p_trace_mask x) (p_vmas x) (p_queue_level x) (p_sched_ticks x) (p_total_run_ticks x) (p_wait_ticks x) (p_preempt_count x) (p_boost_count x) (p_io_wakeup_count x) (p_device_wakeup_count x) (p_last_wakeup_reason x) (p_sig_pending x) (p_sig_mask x) (p_sig_handlers x) (p_sig_handling x) (p_sig_current x) (p_sig_term x) (p_interruptible_sleep x) (p_sig_saved_trapframe x) (p_copy_fault_active x) (p_copy_fault_recovery x).
Definition set_p_xstate (v : Z) (x : proc) : proc :=
  Proc (p_state x) (p_parent x) (p_chan x) (p_killed x) v (p_pid x) (p_pgid x) (p_kstack x) (p_sz x) (p_pagetable x) (p_kpagetable x) (p_trapframe x) (p_tf x) (p_context x) (p_ofile x) (p_cwd x) (p_name x) (p_trace_mask x) (p_vmas x) (p_queue_level x) (p_sched_ticks x) (p_total_run_ticks x) (p_wait_ticks x) (p_preempt_count x) (p_boost_count x) (p_io_wakeup_count x) (p_device_wakeup_count x) (p_last_wakeup_reason x) (p_sig_pending x) (p_sig_mask x) (p_sig_handlers x) (p_sig_handling x) (p_sig_current x) (p_sig_term x) (p_interruptible_sleep x) (p_sig_saved_trapframe x) (p_copy_fault_active x) (p_copy_fault_recovery x).
Definition set_p_pid (v : Z) (x : proc) : proc :=
  Proc (p_state x) (p_parent x) (p_chan x) (p_killed x) (p_xstate x) v (p_pgid x) (p_kstack x) (p_sz x) (p_pagetable x) (p_kpagetable x) (p_trapframe x) (p_tf x) (p_context x) (p_ofile x) (p_cwd x) (p_name x) (p_trace_mask x) (p_vmas x) (p_queue_level x) (p_sched_ticks x) (p_total_run_ticks x) (p_wait_ticks x) (p_preempt_count x) (p_boost_count x) (p_io_wakeup_count x) (p_device_wakeup_count x) (p_last_wakeup_reason x) (p_sig_pending x) (p_sig_mask x) (p_sig_handlers x) (p_sig_handling x) (p_sig_current x) (p_sig_term x) (p_interruptible_sleep x) (p_sig_saved_trapframe x) (p_copy_fault_active x) (p_copy_fault_recovery x).
Definition set_p_pgid (v : Z) (x : proc) : proc :=
  Proc (p_state x) (p_parent x) (p_chan x) (p_killed x) (p_xstate x) (p_pid x) v (p_kstack x) (p_sz x) (p_pagetable x) (p_kpagetable x) (p_trapframe x) (p_tf x) (p_context x) (p_ofile x) (p_cwd x) (p_name x) (p_trace_mask x) (p_vmas x) (p_queue_level x) (p_sched_ticks x) (p_total_run_ticks x) (p_wait_ticks x) (p_preempt_count x) (p_boost_count x) (p_io_wakeup_count x) (p_device_wakeup_count x) (p_last_wakeup_reason x) (p_sig_pending x) (p_sig_mask x) (p_sig_handlers x) (p_sig_handling x) (p_sig_current x) (p_sig_term x) (p_interruptible_sleep x) (p_sig_saved_trapframe x) (p_copy_fault_active x) (p_copy_fault_recovery x).
Definition set_p_kstack (v : Z) (x : proc) : proc :=
  Proc (p_state x) (p_parent x) (p_chan x) (p_killed x) (p_xstate x) (p_pid x) (p_pgid x) v (p_sz x) (p_pagetable x) (p_kpagetable x) (p_trapframe x) (p_tf x) (p_context x) (p_ofile x) (p_cwd x) (p_name x) (p_trace_mask x) (p_vmas x) (p_queue_level x) (p_sched_ticks x) (p_total_run_ticks x) (p_wait_ticks x) (p_preempt_count x) (p_boost_count x) (p_io_wakeup_count x) (p_device_wakeup_count x) (p_last_wakeup_reason x) (p_sig_pending x) (p_sig_mask x) (p_sig_handlers x) (p_sig_handling x) (p_sig_current x) (p_sig_term x) (p_interruptible_sleep x) (p_sig_saved_trapframe x) (p_copy_fault_active x) (p_copy_fault_recovery x).
Definition set_p_sz (v : Z) (x : proc) : proc :=
  Proc (p_state x) (p_parent x) (p_chan x) (p_killed x) (p_xstate x) (p_pid x) (p_pgid x) (p_kstack x) v (p_pagetable x) (p_kpagetable x) (p_trapframe x) (p_tf x) (p_context x) (p_ofile x) (p_cwd x) (p_name x) (p_trace_mask x) (p_vmas x) (p_queue_level x) (p_sched_ticks x) (p_total_run_ticks x) (p_wait_ticks x) (p_preempt_count x) (p_boost_count x) (p_io_wakeup_count x) (p_device_wakeup_count x) (p_last_wakeup_reason x) (p_sig_pending x) (p_sig_mask x) (p_sig_handlers x) (p_sig_handling x) (p_sig_current x) (p_sig_term x) (p_interruptible_sleep x) (p_sig_saved_trapframe x) (p_copy_fault_active x) (p_copy_fault_recovery x).
Definition set_p_pagetable (v : Z) (x : proc) : proc :=
  Proc (p_state x) (p_parent x) (p_chan x) (p_killed x) (p_xstate x) (p_pid x) (p_pgid x) (p_kstack x) (p_sz x) v (p_kpagetable x) (p_trapframe x) (p_tf x) (p_context x) (p_ofile x) (p_cwd x) (p_name x) (p_trace_mask x) (p_vmas x) (p_queue_level x) (p_sched_ticks x) (p_total_run_ticks x) (p_wait_ticks x) (p_preempt_count x) (p_boost_count x) (p_io_wakeup_count x) (p_device_wakeup_count x) (p_last_wakeup_reason x) (p_sig_pending x) (p_sig_mask x) (p_sig_handlers x) (p_sig_handling x) (p_sig_current x) (p_sig_term x) (p_interruptible_sleep x) (p_sig_saved_trapframe x) (p_copy_fault_active x) (p_copy_fault_recovery x).
Definition set_p_kpagetable (v : Z) (x : proc) : proc :=
  Proc (p_state x) (p_parent x) (p_chan x) (p_killed x) (p_xstate x) (p_pid x) (p_pgid x) (p_kstack x) (p_sz x) (p_pagetable x) v (p_trapframe x) (p_tf x) (p_context x) (p_ofile x) (p_cwd x) (p_name x) (p_trace_mask x) (p_vmas x) (p_queue_level x) (p_sched_ticks x) (p_total_run_ticks x) (p_wait_ticks x) (p_preempt_count x) (p_boost_count x) (p_io_wakeup_count x) (p_device_wakeup_count x) (p_last_wakeup_reason x) (p_sig_pending x) (p_sig_mask x) (p_sig_handlers x) (p_sig_handling x) (p_sig_current x) (p_sig_term x) (p_interruptible_sleep x) (p_sig_saved_trapframe x) (p_copy_fault_active x) (p_copy_fault_recovery x).
Definition set_p_trapframe (v : Z) (x : proc) : proc :=
  Proc (p_state x) (p_parent x) (p_chan x) (p_killed x) (p_xstate x) (p_pid x) (p_pgid x) (p_kstack x) (p_sz x) (p_pagetable x) (p_kpagetable x) v (p_tf x) (p_context x) (p_ofile x) (p_cwd x) (p_name x) (p_trace_mask x) (p_vmas x) (p_queue_level x) (p_sched_ticks x) (p_total_run_ticks x) (p_wait_ticks x) (p_preempt_count x) (p_boost_count x) (p_io_wakeup_count x) (p_device_wakeup_count x) (p_last_wakeup_reason x) (p_sig_pending x) (p_sig_mask x) (p_sig_handlers x) (p_sig_handling x) (p_sig_current x) (p_sig_term x) (p_interruptible_sleep x) (p_sig_saved_trapframe x) (p_copy_fault_active x) (p_copy_fault_recovery x).
Definition set_p_tf (v : trapframe) (x : proc) : proc :=
  Proc (p_state x) (p_parent x) (p_chan x) (p_killed x) (p_xstate x) (p_pid x) (p_pgid x) (p_kstack x) (p_sz x) (p_pagetable x) (p_kpagetable x) (p_trapframe x) v (p_context x) (p_ofile x) (p_cwd x) (p_name x) (p_trace_mask x) (p_vmas x) (p_queue_level x) (p_sched_ticks x) (p_total_run_ticks x) (p_wait_ticks x) (p_preempt_count x) (p_boost_count x) (p_io_wakeup_count x) (p_device_wakeup_count x) (p_last_wakeup_reason x) (p_sig_pending x) (p_sig_mask x) (p_sig_handlers x) (p_sig_handling x) (p_sig_current x) (p_sig_term x) (p_interruptible_sleep x) (p_sig_saved_trapframe x) (p_copy_fault_active x) (p_copy_fault_recovery x).
Definition set_p_context (v : Z * Z) (x : proc) : proc :=
  Proc (p_state x) (p_parent x) (p_chan x) (p_killed x) (p_xstate x) (p_pid x) (p_pgid x) (p_kstack x) (p_sz x) (p_pagetable x) (p_kpagetable x) (p_trapframe x) (p_tf x) v (p_ofile x) (p_cwd x) (p_name x) (p_trace_mask x) (p_vmas x) (p_queue_level x) (p_sched_ticks x) (p_total_run_ticks x) (p_wait_ticks x) (p_preempt_count x) (p_boost_count x) (p_io_wakeup_count x) (p_device_wakeup_count x) (p_last_wakeup_reason x) (p_sig_pending x) (p_sig_mask x) (p_sig_handlers x) (p_sig_handling x) (p_sig_current x) (p_sig_term x) (p_interruptible_sleep x) (p_sig_saved_trapframe x) (p_copy_fault_active x) (p_copy_fault_recovery x).
Definition set_p_ofile (v : list Z) (x : proc) : proc :=
  Proc (p_state x) (p_parent x) (p_chan x) (p_killed x) (p_xstate x) (p_pid x) (p_pgid x) (p_kstack x) (p_sz x) (p_pagetable x) (p_kpagetable x) (p_trapframe x) (p_tf x) (p_context x) v (p_cwd x) (p_name x) (p_trace_mask x) (p_vmas x) (p_queue_level x) (p_sched_ticks x) (p_total_run_ticks x) (p_wait_ticks x) (p_preempt_count x) (p_boost_count x) (p_io_wakeup_count x) (p_device_wakeup_count x) (p_last_wakeup_reason x) (p_sig_pending x) (p_sig_mask x) (p_sig_handlers x) (p_sig_handling x) (p_sig_current x) (p_sig_term x) (p_interruptible_sleep x) (p_sig_saved_trapframe x) (p_copy_fault_active x) (p_copy_fault_recovery x).
Definition set_p_cwd (v : Z) (x : proc) : proc :=
  Proc (p_state x) (p_parent x) (p_chan x) (p_killed x) (p_xstate x) (p_pid x) (p_pgid x) (p_kstack x) (p_sz x) (p_pagetable x) (p_kpagetable x) (p_trapframe x) (p_tf x) (p_context x) (p_ofile x) v (p_name x) (p_trace_mask x) (p_vmas x) (p_queue_level x) (p_sched_ticks x) (p_total_run_ticks x) (p_wait_ticks x) (p_preempt_count x) (p_boost_count x) (p_io_wakeup_count x) (p_device_wakeup_count x) (p_last_wakeup_reason x) (p_sig_pending x) (p_sig_mask x) (p_sig_handlers x) (p_sig_handling x) (p_sig_current x) (p_sig_term x) (p_interruptible_sleep x) (p_sig_saved_trapframe x) (p_copy_fault_active x) (p_copy_fault_recovery x).
Definition set_p_name (v : string) (x : proc) : proc :=
  Proc (p_state x) (p_parent x) (p_chan x) (p_killed x) (p_xstate x) (p_pid x) (p_pgid x) (p_kstack x) (p_sz x) (p_pagetable x) (p_kpagetable x) (p_trapframe x) (p_tf x) (p_context x) (p_ofile x) (p_cwd x) v (p_trace_mask x) (p_vmas x) (p_queue_level x) (p_sched_ticks x) (p_total_run_ticks x) (p_wait_ticks x) (p_preempt_count x) (p_boost_count x) (p_io_wakeup_count x) (p_device_wakeup_count x) (p_last_wakeup_reason x) (p_sig_pending x) (p_sig_mask x) (p_sig_handlers x) (p_sig_handling x) (p_sig_current x) (p_sig_term x) (p_interruptible_sleep x) (p_sig_saved_trapframe x) (p_copy_fault_active x) (p_copy_fault_recovery x).
Definition set_p_trace_mask (v : Z) (x : proc) : proc :=
  Proc (p_state x) (p_parent x) (p_chan x) (p_killed x) (p_xstate x) (p_pid x) (p_pgid x) (p_kstack x) (p_sz x) (p_pagetable x) (p_kpagetable x) (p_trapframe x) (p_tf x) (p_context x) (p_ofile x) (p_cwd x) (p_name x) v (p_vmas x) (p_queue_level x) (p_sched_ticks x) (p_total_run_ticks x) (p_wait_ticks x) (p_preempt_count x) (p_boost_count x) (p_io_wakeup_count x) (p_device_wakeup_count x) (p_last_wakeup_reason x) (p_sig_pending x) (p_sig_mask x) (p_sig_handlers x) (p_sig_handling x) (p_sig_current x) (p_sig_term x) (p_interruptible_sleep x) (p_sig_saved_trapframe x) (p_copy_fault_active x) (p_copy_fault_recovery x).
Definition set_p_vmas (v : list vma_area) (x : proc) : proc :=
  Proc (p_state x) (p_parent x) (p_chan x) (p_killed x) (p_xstate x) (p_pid x) (p_pgid x) (p_kstack x) (p_sz x) (p_pagetable x) (p_kpagetable x) (p_trapframe x) (p_tf x) (p_context x) (p_ofile x) (p_cwd x) (p_name x) (p_trace_mask x) v (p_queue_level x) (p_sched_ticks x) (p_total_run_ticks x) (p_wait_ticks x) (p_preempt_count x) (p_boost_count x) (p_io_wakeup_count x) (p_device_wakeup_count x) (p_last_wakeup_reason x) (p_sig_pending x) (p_sig_mask x) (p_sig_handlers x) (p_sig_handling x) (p_sig_current x) (p_sig_term x) (p_interruptible_sleep x) (p_sig_saved_trapframe x) (p_copy_fault_active x) (p_copy_fault_recovery x).
Definition set_p_queue_level (v : Z) (x : proc) : proc :=
  Proc (p_state x) (p_parent x) (p_chan x) (p_killed x) (p_xstate x) (p_pid x) (p_pgid x) (p_kstack x) (p_sz x) (p_pagetable x) (p_kpagetable x) (p_trapframe x) (p_tf x) (p_context x) (p_ofile x) (p_cwd x) (p_name x) (p_trace_mask x) (p_vmas x) v (p_sched_ticks x) (p_total_run_ticks x) (p_wait_ticks x) (p_preempt_count x) (p_boost_count x) (p_io_wakeup_count x) (p_device_wakeup_count x) (p_last_wakeup_reason x) (p_sig_pending x) (p_sig_mask x) (p_sig_handlers x) (p_sig_handling x) (p_sig_current x) (p_sig_term x) (p_interruptible_sleep x) (p_sig_saved_trapframe x) (p_copy_fault_active x) (p_copy_fault_recovery x).
Definition set_p_sched_ticks (v : Z) (x : proc) : proc :=
  Proc (p_state x) (p_parent x) (p_chan x) (p_killed x) (p_xstate x) (p_pid x) (p_pgid x) (p_kstack x) (p_sz x) (p_pagetable x) (p_kpagetable x) (p_trapframe x) (p_tf x) (p_context x) (p_ofile x) (p_cwd x) (p_name x) (p_trace_mask x) (p_vmas x) (p_queue_level x) v (p_total_run_ticks x) (p_wait_ticks x) (p_preempt_count x) (p_boost_count x) (p_io_wakeup_count x) (p_device_wakeup_count x) (p_last_wakeup_reason x) (p_sig_pending x) (p_sig_mask x) (p_sig_handlers x) (p_sig_handling x) (p_sig_current x) (p_sig_term x) (p_interruptible_sleep x) (p_sig_saved_trapframe x) (p_copy_fault_active x) (p_copy_fault_recovery x).
Definition set_p_total_run_ticks (v : Z) (x : proc) : proc :=
  Proc (p_state x) (p_parent x) (p_chan x) (p_killed x) (p_xstate x) (p_pid x) (p_pgid x) (p_kstack x) (p_sz x) (p_pagetable x) (p_kpagetable x) (p_trapframe x) (p_tf x) (p_context x) (p_ofile x) (p_cwd x) (p_name x) (p_trace_mask x) (p_vmas x) (p_queue_level x) (p_sched_ticks x) v (p_wait_ticks x) (p_preempt_count x) (p_boost_count x) (p_io_wakeup_count x) (p_device_wakeup_count x) (p_last_wakeup_reason x) (p_sig_pending x) (p_sig_mask x) (p_sig_handlers x) (p_sig_handling x) (p_sig_current x) (p_sig_term x) (p_interruptible_sleep x) (p_sig_saved_trapframe x) (p_copy_fault_active x) (p_copy_fault_recovery x).
Definition set_p_wait_ticks (v : Z) (x : proc) : proc :=
  Proc (p_state x) (p_parent x) (p_chan x) (p_killed x) (p_xstate x) (p_pid x) (p_pgid x) (p_kstack x) (p_sz x) (p_pagetable x) (p_kpagetable x) (p_trapframe x) (p_tf x) (p_context x) (p_ofile x) (p_cwd x) (p_name x) (p_trace_mask x) (p_vmas x) (p_queue_level x) (p_sched_ticks x) (p_total_run_ticks x) v (p_preempt_count x) (p_boost_count x) (p_io_wakeup_count x) (p_device_wakeup_count x) (p_last_wakeup_reason x) (p_sig_pending x) (p_sig_mask x) (p_sig_handlers x) (p_sig_handling x) (p_sig_current x) (p_sig_term x) (p_interruptible_sleep x) (p_sig_saved_trapframe x) (p_copy_fault_active x) (p_copy_fault_recovery x).
Definition set_p_preempt_count (v : Z) (x : proc) : proc :=
  Proc (p_state x) (p_parent x) (p_chan x) (p_killed x) (p_xstate x) (p_pid x) (p_pgid x) (p_kstack x) (p_sz x) (p_pagetable x) (p_kpagetable x) (p_trapframe x) (p_tf x) (p_context x) (p_ofile x) (p_cwd x) (p_name x) (p_trace_mask x) (p_vmas x) (p_queue_level x) (p_sched_ticks x) (p_total_run_ticks x) (p_wait_ticks x) v (p_boost_count x) (p_io_wakeup_count x) (p_device_wakeup_count x) (p_last_wakeup_reason x) (p_sig_pending x) (p_sig_mask x) (p_sig_handlers x) (p_sig_handling x) (p_sig_current x) (p_sig_term x) (p_interruptible_sleep x) (p_sig_saved_trapframe x) (p_copy_fault_active x) (p_copy_fault_recovery x).
Definition set_p_boost_count (v : Z) (x : proc) : proc :=
  Proc (p_state x) (p_parent x) (p_chan x) (p_killed x) (p_xstate x) (p_pid x) (p_pgid x) (p_kstack x) (p_sz x) (p_pagetable x) (p_kpagetable x) (p_trapframe x) (p_tf x) (p_context x) (p_ofile x) (p_cwd x) (p_name x) (p_trace_mask x) (p_vmas x) (p_queue_level x) (p_sched_ticks x) (p_total_run_ticks x) (p_wait_ticks x) (p_preempt_count x) v (p_io_wakeup_count x) (p_device_wakeup_count x) (p_last_wakeup_reason x) (p_sig_pending x) (p_sig_mask x) (p_sig_handlers x) (p_sig_handling x) (p_sig_current x) (p_sig_term x) (p_interruptible_sleep x) (p_sig_saved_trapframe x) (p_copy_fault_active x) (p_copy_fault_recovery x).
Definition set_p_io_wakeup_count (v : Z) (x : proc) : proc :=
  Proc (p_state x) (p_parent x) (p_chan x) (p_killed x) (p_xstate x) (p_pid x) (p_pgid x) (p_kstack x) (p_sz x) (p_pagetable x) (p_kpagetable x) (p_trapframe x) (p_tf x) (p_context x) (p_ofile x) (p_cwd x) (p_name x) (p_trace_mask x) (p_vmas x) (p_queue_level x) (p_sched_ticks x) (p_total_run_ticks x) (p_wait_ticks x) (p_preempt_count x) (p_boost_count x) v (p_device_wakeup_count x) (p_last_wakeup_reason x) (p_sig_pending x) (p_sig_mask x) (p_sig_handlers x) (p_sig_handling x) (p_sig_current x) (p_sig_term x) (p_interruptible_sleep x) (p_sig_saved_trapframe x) (p_copy_fault_active x) (p_copy_fault_recovery x).
Definition set_p_device_wakeup_count (v : Z) (x : proc) : proc :=
  Proc (p_state x) (p_parent x) (p_chan x) (p_killed x) (p_xstate x) (p_pid x) (p_pgid x) (p_kstack x) (p_sz x) (p_pagetable x) (p_kpagetable x) (p_trapframe x) (p_tf x) (p_context x) (p_ofile x) (p_cwd x) (p_name x) (p_trace_mask x) (p_vmas x) (p_queue_level x) (p_sched_ticks x) (p_total_run_ticks x) (p_wait_ticks x) (p_preempt_count x) (p_boost_count x) (p_io_wakeup_count x) v (p_last_wakeup_reason x) (p_sig_pending x) (p_sig_mask x) (p_sig_handlers x) (p_sig_handling x) (p_sig_current x) (p_sig_term x) (p_interruptible_sleep x) (p_sig_saved_trapframe x) (p_copy_fault_active x) (p_copy_fault_recovery x).
Definition set_p_last_wakeup_reason (v : Z) (x : proc) : proc :=
  Proc (p_state x) (p_parent x) (p_chan x) (p_killed x) (p_xstate x) (p_pid x) (p_pgid x) (p_kstack x) (p_sz x) (p_pagetable x) (p_kpagetable x) (p_trapframe x) (p_tf x) (p_context x) (p_ofile x) (p_cwd x) (p_name x) (p_trace_mask x) (p_vmas x) (p_queue_level x) (p_sched_ticks x) (p_total_run_ticks x) (p_wait_ticks x) (p_preempt_count x) (p_boost_count x) (p_io_wakeup_count x) (p_device_wakeup_count x) v (p_sig_pending x) (p_sig_mask x) (p_sig_handlers x) (p_sig_handling x) (p_sig_current x) (p_sig_term x) (p_interruptible_sleep x) (p_sig_saved_trapframe x) (p_copy_fault_active x) (p_copy_fault_recovery x).
Definition set_p_sig_pending (v : Z) (x : proc) : proc :=
  Proc (p_state x) (p_parent x) (p_chan x) (p_killed x) (p_xstate x) (p_pid x) (p_pgid x) (p_kstack x) (p_sz x) (p_pagetable x) (p_kpagetable x) (p_trapframe x) (p_tf x) (p_context x) (p_ofile x) (p_cwd x) (p_name x) (p_trace_mask x) (p_vmas x) (p_queue_level x) (p_sched_ticks x) (p_total_run_ticks x) (p_wait_ticks x) (p_preempt_count x) (p_boost_count x) (p_io_wakeup_count x) (p_device_wakeup_count x) (p_last_wakeup_reason x) v (p_sig_mask x) (p_sig_handlers x) (p_sig_handling x) (p_sig_current x) (p_sig_term x) (p_interruptible_sleep x) (p_sig_saved_trapframe x) (p_copy_fault_active x) (p_copy_fault_recovery x).
Definition set_p_sig_mask (v : Z) (x : proc) : proc :=
  Proc (p_state x) (p_parent x) (p_chan x) (p_killed x) (p_xstate x) (p_pid x) (p_pgid x) (p_kstack x) (p_sz x) (p_pagetable x) (p_kpagetable x) (p_trapframe x) (p_tf x) (p_context x) (p_ofile x) (p_cwd x) (p_name x) (p_trace_mask x) (p_vmas x) (p_queue_level x) (p_sched_ticks x) (p_total_run_ticks x) (p_wait_ticks x) (p_preempt_count x) (p_boost_count x) (p_io_wakeup_count x) (p_device_wakeup_count x) (p_last_wakeup_reason x) (p_sig_pending x) v (p_sig_handlers x) (p_sig_handling x) (p_sig_current x) (p_sig_term x) (p_interruptible_sleep x) (p_sig_saved_trapframe x) (p_copy_fault_active x) (p_copy_fault_recovery x).
Definition set_p_sig_handlers (v : list Z) (x : proc) : proc :=
  Proc (p_state x) (p_parent x) (p_chan x) (p_killed x) (p_xstate x) (p_pid x) (p_pgid x) (p_kstack x) (p_sz x) (p_pagetable x) (p_kpagetable x) (p_trapframe x) (p_tf x) (p_context x) (p_ofile x) (p_cwd x) (p_name x) (p_trace_mask x) (p_vmas x) (p_queue_level x) (p_sched_ticks x) (p_total_run_ticks x) (p_wait_ticks x) (p_preempt_count x) (p_boost_count x) (p_io_wakeup_count x) (p_device_wakeup_count x) (p_last_wakeup_reason x) (p_sig_pending x) (p_sig_mask x) v (p_sig_handling x) (p_sig_current x) (p_sig_term x) (p_interruptible_sleep x) (p_sig_saved_trapframe x) (p_copy_fault_active x) (p_copy_fault_recovery x).
Definition set_p_sig_handling (v : bool) (x : proc) : proc :=
  Proc (p_state x) (p_parent x) (p_chan x) (p_killed x) (p_xstate x) (p_pid x) (p_pgid x) (p_kstack x) (p_sz x) (p_pagetable x) (p_kpagetable x) (p_trapframe x) (p_tf x) (p_context x) (p_ofile x) (p_cwd x) (p_name x) (p_trace_mask x) (p_vmas x) (p_queue_level x) (p_sched_ticks x) (p_total_run_ticks x) (p_wait_ticks x) (p_preempt_count x) (p_boost_count x) (p_io_wakeup_count x) (p_device_wakeup_count x) (p_last_wakeup_reason x) (p_sig_pending x) (p_sig_mask x) (p_sig_handlers x) v (p_sig_current x) (p_sig_term x) (p_interruptible_sleep x) (p_sig_saved_trapframe x) (p_copy_fault_active x) (p_copy_fault_recovery x).
Definition set_p_sig_current (v : Z) (x : proc) : proc :=
  Proc (p_state x) (p_parent x) (p_chan x) (p_killed x) (p_xstate x) (p_pid x) (p_pgid x) (p_kstack x) (p_sz x) (p_pagetable x) (p_kpagetable x) (p_trapframe x) (p_tf x) (p_context x) (p_ofile x) (p_cwd x) (p_name x) (p_trace_mask x) (p_vmas x) (p_queue_level x) (p_sched_ticks x) (p_total_run_ticks x) (p_wait_ticks x) (p_preempt_count x) (p_boost_count x) (p_io_wakeup_count x) (p_device_wakeup_count x) (p_last_wakeup_reason x) (p_sig_pending x) (p_sig_mask x) (p_sig_handlers x) (p_sig_handling x) v (p_sig_term x) (p_interruptible_sleep x) (p_sig_saved_trapframe x) (p_copy_fault_active x) (p_copy_fault_recovery x).
Definition set_p_sig_term (v : Z) (x : proc) : proc :=
  Proc (p_state x) (p_parent x) (p_chan x) (p_killed x) (p_xstate x) (p_pid x) (p_pgid x) (p_kstack x) (p_sz x) (p_pagetable x) (p_kpagetable x) (p_trapframe x) (p_tf x) (p_context x) (p_ofile x) (p_cwd x) (p_name x) (p_trace_mask x) (p_vmas x) (p_queue_level x) (p_sched_ticks x) (p_total_run_ticks x) (p_wait_ticks x) (p_preempt_count x) (p_boost_count x) (p_io_wakeup_count x) (p_device_wakeup_count x) (p_last_wakeup_reason x) (p_sig_pending x) (p_sig_mask x) (p_sig_handlers x) (p_sig_handling x) (p_sig_current x) v (p_interruptible_sleep x) (p_sig_saved_trapframe x) (p_copy_fault_active x) (p_copy_fault_recovery x).
Definition set_p_interruptible_sleep (v : bool) (x : proc) : proc :=
  Proc (p_state x) (p_parent x) (p_chan x) (p_killed x) (p_xstate x) (p_pid x) (p_pgid x) (p_kstack x) (p_sz x) (p_pagetable x) (p_kpagetable x) (p_trapframe x) (p_tf x) (p_context x) (p_ofile x) (p_cwd x) (p_name x) (p_trace_mask x) (p_vmas x) (p_queue_level x) (p_sched_ticks x) (p_total_run_ticks x) (p_wait_ticks x) (p_preempt_count x) (p_boost_count x) (p_io_wakeup_count x) (p_device_wakeup_count x) (p_last_wakeup_reason x) (p_sig_pending x) (p_sig_mask x) (p_sig_handlers x) (p_sig_handling x) (p_sig_current x) (p_sig_term x) v (p_sig_saved_trapframe x) (p_copy_fault_active x) (p_copy_fault_recovery x).
Definition set_p_sig_saved_trapframe (v : trapframe) (x : proc) : proc :=
  Proc (p_state x) (p_parent x) (p_chan x) (p_killed x) (p_xstate x) (p_pid x) (p_pgid x) (p_kstack x) (p_sz x) (p_pagetable x) (p_kpagetable x) (p_trapframe x) (p_tf x) (p_context x) (p_ofile x) (p_cwd x) (p_name x) (p_trace_mask x) (p_vmas x) (p_queue_level x) (p_sched_ticks x) (p_total_run_ticks x) (p_wait_ticks x) (p_preempt_count x) (p_boost_count x) (p_io_wakeup_count x) (p_device_wakeup_count x) (p_last_wakeup_reason x) (p_sig_pending x) (p_sig_mask x) (p_sig_handlers x) (p_sig_handling x) (p_sig_current x) (p_sig_term x) (p_interruptible_sleep x) v (p_copy_fault_active x) (p_copy_fault_recovery x).
Definition set_p_copy_fault_active (v : bool) (x : proc) : proc :=
  Proc (p_state x) (p_parent x) (p_chan x) (p_killed x) (p_xstate x) (p_pid x) (p_pgid x) (p_kstack x) (p_sz x) (p_pagetable x) (p_kpagetable x) (p_trapframe x) (p_tf x) (p_context x) (p_ofile x) (p_cwd x) (p_name x) (p_trace_mask x) (p_vmas x) (p_queue_level x) (p_sched_ticks x) (p_total_run_ticks x) (p_wait_ticks x) (p_preempt_count x) (p_boost_count x) (p_io_wakeup_count x) (p_device_wakeup_count x) (p_last_wakeup_reason x) (p_sig_pending x) (p_sig_mask x) (p_sig_handlers x) (p_sig_handling x) (p_sig_current x) (p_sig_term x) (p_interruptible_sleep x) (p_sig_saved_trapframe x) v (p_copy_fault_recovery x).
Definition set_p_copy_fault_recovery (v : bool) (x : proc) : proc :=
  Proc (p_state x) (p_parent x) (p_chan x) (p_killed x) (p_xstate x) (p_pid x) (p_pgid x) (p_kstack x) (p_sz x) (p_pagetable x) (p_kpagetable x) (p_trapframe x) (p_tf x) (p_context x) (p_ofile x) (p_cwd x) (p_name x) (p_trace_mask x) (p_vmas x) (p_queue_level x) (p_sched_ticks x) (p_total_run_ticks x) (p_wait_ticks x) (p_preempt_count x) (p_boost_count x) (p_io_wakeup_count x) (p_device_wakeup_count x) (p_last_wakeup_reason x) (p_sig_pending x) (p_sig_mask x) (p_sig_handlers x) (p_sig_handling x) (p_sig_current x) (p_sig_term x) (p_interruptible_sleep x) (p_sig_saved_trapframe x) (p_copy_fault_active x) v.

(** A zeroed slot, as after [memset(proc, 0, sizeof(proc))]. *)
Definition zero_proc : proc :=
  Proc UNUSED None NoChan false 0 0 0 0 0 0 0 0 zero_tf (0, 0) (replicate (Z.to_nat NOFILE) 0) 0 "" 0
    (replicate (Z.to_nat NVMA) zero_vma) 0 0 0 0 0 0 0 0 0
    0 0 (replicate (Z.to_nat NSIG) 0) false 0 0 false zero_tf false false.
#[export] Instance proc_inhabited : Inhabited proc := populate zero_proc.

(** [struct cpu] less the fields the lock code uses (they are in [k_lk]). *)
Record cpu := Cpu { c_proc : option Z; c_need_resched : bool }.
#[export] Instance cpu_inhabited : Inhabited cpu := populate (Cpu None false).

(** The process table and the globals of proc.c, over the memory state. *)
Record pst := Pst {
  ps_k : kst;
  ps_procs : list proc;  (** proc[NPROC] *)
  ps_cpus : list cpu;  (** cpus[NCPU] *)
  ps_initproc : option Z;
  ps_nextpid : Z;
  ps_mlfq_rr_next : list Z;
  ps_mlfq_last_boost_tick : Z;
  ps_mlfq_preempt_count : Z;
  ps_ticks : Z;
}.

Definition set_ps_k (v : kst) (x : pst) : pst :=
  Pst v (ps_procs x) (ps_cpus x) (ps_initproc x) (ps_nextpid x) (ps_mlfq_rr_next x) (ps_mlfq_last_boost_tick x) (ps_mlfq_preempt_count x) (ps_ticks x).
Definition set_ps_procs (v : list proc) (x : pst) : pst :=
  Pst (ps_k x) v (ps_cpus x) (ps_initproc x) (ps_nextpid x) (ps_mlfq_rr_next x) (ps_mlfq_last_boost_tick x) (ps_mlfq_preempt_count x) (ps_ticks x).
Definition set_ps_cpus (v : list cpu) (x : pst) : pst :=
  Pst (ps_k x) (ps_procs x) v (ps_initproc x) (ps_nextpid x) (ps_mlfq_rr_next x) (ps_mlfq_last_boost_tick x) (ps_mlfq_preempt_count x) (ps_ticks x).
Definition set_ps_initproc (v : option Z) (x : pst) : pst :=
  Pst (ps_k x) (ps_procs x) (ps_cpus x) v (ps_nextpid x) (ps_mlfq_rr_next x) (ps_mlfq_last_boost_tick x) (ps_mlfq_preempt_count x) (ps_ticks x).
Definition set_ps_nextpid (v : Z) (x : pst) : pst :=
  Pst (ps_k x) (ps_procs x) (ps_cpus x) (ps_initproc x) v (ps_mlfq_rr_next x) (ps_mlfq_last_boost_tick x) (ps_mlfq_preempt_count x) (ps_ticks x).
Definition set_ps_mlfq_rr_next (v : list Z) (x : pst) : pst :=
  Pst (ps_k x) (ps_procs x) (ps_cpus x) (ps_initproc x) (ps_nextpid x) v (ps_mlfq_last_boost_tick x) (ps_mlfq_preempt_count x) (ps_ticks x).
Definition set_ps_mlfq_last_boost_tick (v : Z) (x : pst) : pst :=
  Pst (ps_k x) (ps_procs x) (ps_cpus x) (ps_initproc x) (ps_nextpid x) (ps_mlfq_rr_next x) v (ps_mlfq_preempt_count x) (ps_ticks x).
Definition set_ps_mlfq_preempt_count (v : Z) (x : pst) : pst :=
  Pst (ps_k x) (ps_procs x) (ps_cpus x) (ps_initproc x) (ps_nextpid x) (ps_mlfq_rr_next x) (ps_mlfq_last_boost_tick x) v (ps_ticks x).
Definition set_ps_ticks (v : Z) (x : pst) : pst :=
  Pst (ps_k x) (ps_procs x) (ps_cpus x) (ps_initproc x) (ps_nextpid x) (ps_mlfq_rr_next x) (ps_mlfq_last_boost_tick x) (ps_mlfq_preempt_count x) v.

#[export] Instance pst_k : Lens pst kst := {| lget := ps_k; lput := set_ps_k |}.
#[export] Instance pst_k_laws : LensLaws pst kst.
Proof. split; [done | by intros [] | done]. Qed.

#[export] Instance pst_lk : Lens pst lkst :=
  {| lget s := k_lk (ps_k s); lput l s := set_ps_k (set_lk l (ps_k s)) s |}.
#[export] Instance pst_lk_laws : LensLaws pst lkst.
Proof. split; [done | by intros [[] ? ? ? ? ? ? ? ?] | done]. Qed.

(** [proc[i]] *)
Definition proc_at (s : pst) (i : Z) : proc := ps_procs s !!! Z.to_nat i.
Definition upd_proc (i : Z) (f : proc -> proc) (s : pst) : pst :=
  set_ps_procs (<[Z.to_nat i := f (proc_at s i)]> (ps_procs s)) s.

Definition getp (i : Z) : M pst proc := gets (fun s => proc_at s i).
Definition setp (i : Z) (f : proc -> proc) : M pst unit := modify (upd_proc i f).

Definition is_state (st : procstate) (p : proc) : bool := bool_decide (p_state p = st).

(** [for (p = proc; p < &proc[NPROC]; p++)]: the body may leave the function
    with a value ([Some]). *)
Fixpoint scan_procs {A} (n : nat) (i : Z) (body : Z -> M pst (option A)) : M pst (option A) :=
  match n with
  | O => ret None
  | S n' =>
      r <- body i ;;
      match r with
      | Some a => ret (Some a)
      | None => scan_procs n' (i + 1) body
      end
  end.
Definition for_procs {A} (body : Z -> M pst (option A)) : M pst (option A) :=
  scan_procs (Z.to_nat NPROC) 0 body.

(** The running process: [cpus[tp].proc], read with interrupts off. *)
Definition myproc : M pst (option Z) :=
  zoom push_off ;;
  p <- gets (fun s => c_proc (ps_cpus s !!! Z.to_nat (k_cpu (ps_k s)))) ;;
  zoom pop_off ;;
  ret p.

Definition plock (i : Z) : M pst unit := zoom (acquire (L_proc i)).
Definition punlock (i : Z) : M pst unit := zoom (release (L_proc i)).

(** ** Symbolic execution under process locks *)

Ltac wp_prim ::=
  lazymatch goal with
  | |- wp (put_quota _ _) _ _ => unfold put_quota
  | |- wp cpuid _ _ => unfold cpuid
  | |- wp (load8 _) _ _ => unfold load8
  | |- wp (load32 _) _ _ => unfold load32
  | |- wp (load64 _) _ _ => unfold load64
  | |- wp (store8 _ _) _ _ => unfold store8
  | |- wp (store32 _ _) _ _ => unfold store32
  | |- wp (store64 _ _) _ _ => unfold store64
  | |- wp (do_memset _ _ _) _ _ => unfold do_memset
  | |- wp (do_memmove _ _ _) _ _ => unfold do_memmove
  | |- wp (getp _) _ _ => unfold getp
  | |- wp (setp _ _) _ _ => unfold setp
  end.

Abbreviation lk_of s := (k_lk (ps_k s)).

(** The running hart holds no process lock and the table has its size. *)
Record pgood (s : pst) : Prop := {
  pg_lk : lk_ok (lk_of s);
  pg_free i : L_proc i ∉ held (lk_of s);
  pg_len : length (ps_procs s) = Z.to_nat NPROC;
}.

(** Two states that differ in the process table and the lock state's
    [intena] only. *)
Definition psame (s s' : pst) : Prop :=
  lk_same (lk_of s) (lk_of s') /\ s' = set_ps_procs (ps_procs s') (lput (lk_of s') s).

Lemma wp_plock i (Q : unit -> pst -> Prop) s :
  L_proc i ∉ held (lk_of s) ->
  (forall l, taken (L_proc i) (lk_of s) l -> Q tt (lput l s)) -> wp (plock i) Q s.
Proof.
  intros Hn HQ. apply wp_zoom. eapply wp_mono; [by apply acquire_wp|]. intros [] l Hl. by apply HQ.
Qed.

Lemma wp_punlock i l0 (Q : unit -> pst -> Prop) s :
  lk_ok l0 -> L_proc i ∉ held l0 -> taken (L_proc i) l0 (lk_of s) ->
  (forall l, lk_same l0 l -> Q tt (lput l s)) -> wp (punlock i) Q s.
Proof.
  intros Hok Hn Ht HQ. apply wp_zoom. eapply wp_mono; [by eapply release_wp|]. intros [] l Hl. by apply HQ.
Qed.

#[export] Instance psame_preorder : PreOrder psame.
Proof.
  split.
  - intros s. split; [done|]. by destruct s as [[] ? ? ? ? ? ? ? ?].
  - intros s1 s2 s3 [A1 A2] [B1 B2]. split; [by etrans|]. rewrite B2, A2. done.
Qed.

Lemma psame_good s s' : psame s s' -> length (ps_procs s') = length (ps_procs s) -> pgood s -> pgood s'.
Proof.
  intros [H1 H2] Hl [G1 G2 G3]. pose proof H1 as (_ & _ & Hh & _). split; [by eapply lk_same_ok| |by rewrite Hl].
  intros i. by rewrite Hh.
Qed.

Lemma length_upd_proc i f s : length (ps_procs (upd_proc i f s)) = length (ps_procs s).
Proof. apply length_insert. Qed.

(** One slot updated under its lock. *)
Lemma locked_update i f s :
  pgood s -> wp (plock i ;; setp i f ;; punlock i) (fun _ s' =>
    psame s s' /\ ps_procs s' = ps_procs (upd_proc i f s)) s.
Proof.
  intros [G1 G2 G3]. wp_step. apply wp_plock; [apply G2|]. intros l Hl. wp_go.
  eapply wp_punlock; [exact G1|apply G2|exact Hl|]. intros l' Hl'. split; [|done].
  split; [exact Hl'|]. done.
Qed.

Lemma proc_at_insert s (i j : Z) (x : proc) :
  0 <= i < NPROC -> 0 <= j -> length (ps_procs s) = Z.to_nat NPROC ->
  (<[Z.to_nat i := x]> (ps_procs s)) !!! Z.to_nat j = if i =? j then x else proc_at s j.
Proof.
  intros Hi Hj Hl. unfold proc_at. destruct (Z.eqb_spec i j) as [->|Hne].
  - apply list_lookup_total_insert_eq. unfold NPROC in *. lia.
  - apply list_lookup_total_insert_ne. lia.
Qed.

(** A scan that applies [f] to every slot; the slots ahead are unchanged. *)
Lemma scan_map_gen {A} (I : pst -> Prop) (f : proc -> proc) (body : Z -> M pst (option A)) s0 :
  (forall i s, 0 <= i < NPROC -> I s -> length (ps_procs s) = Z.to_nat NPROC -> proc_at s i = proc_at s0 i ->
     wp (body i) (fun r s' => r = None /\ I s' /\
       ps_procs s' = <[Z.to_nat i := f (proc_at s i)]> (ps_procs s)) s) ->
  length (ps_procs s0) = Z.to_nat NPROC -> I s0 ->
  wp (for_procs body) (fun r s' => r = None /\ I s' /\ ps_procs s' = f <$> ps_procs s0) s0.
Proof.
  intros Hbody Hl. unfold for_procs.
  assert (Hgen : forall n i s, 0 <= i -> i + Z.of_nat n = NPROC -> I s ->
    ps_procs s = (f <$> take (Z.to_nat i) (ps_procs s0)) ++ drop (Z.to_nat i) (ps_procs s0) ->
    wp (scan_procs n i body) (fun r s' => r = None /\ I s' /\ ps_procs s' = f <$> ps_procs s0) s).
  { induction n as [|n IH]; intros i s Hi Hn HI Hp; cbn [scan_procs].
    - wp_go. split_and!; try done. rewrite Hp. rewrite take_ge, drop_ge, app_nil_r by lia. done.
    - destruct (lookup_lt_is_Some_2 (ps_procs s0) (Z.to_nat i)) as [x Hx]; [lia|].
      assert (Hat : proc_at s i = x).
      { unfold proc_at. rewrite Hp, lookup_total_app_r; rewrite length_fmap, length_take_le by lia; [|lia].
        rewrite Nat.sub_diag. apply list_lookup_total_correct. rewrite lookup_drop. by rewrite Nat.add_0_r. }
      wp_step. eapply wp_mono; [apply Hbody; [lia|done| |]|].
      + rewrite Hp, length_app, length_fmap, length_take_le, length_drop by lia. lia.
      + rewrite Hat. symmetry. unfold proc_at. by apply list_lookup_total_correct.
      + intros r s' (-> & HI' & Hp'). apply IH; [lia|lia|done|]. rewrite Hp'.
        rewrite Hat, Hp. replace (Z.to_nat (i + 1)) with (S (Z.to_nat i)) by lia.
        rewrite (take_S_r _ _ _ Hx), (drop_S _ _ _ Hx), fmap_app, <- app_assoc.
        rewrite insert_app_r_alt; rewrite length_fmap, length_take_le by lia; [|lia].
        rewrite Nat.sub_diag. done. }
  intros HI. apply Hgen; [lia|done|done|by rewrite take_0, drop_0].
Qed.

(** The same with no process lock held between the slots. *)
Lemma scan_map {A} (I : pst -> Prop) (f : proc -> proc) (body : Z -> M pst (option A)) s0 :
  (forall i s, 0 <= i < NPROC -> pgood s -> I s ->
     wp (body i) (fun r s' => r = None /\ pgood s' /\ I s' /\
       ps_procs s' = <[Z.to_nat i := f (proc_at s i)]> (ps_procs s)) s) ->
  pgood s0 -> I s0 ->
  wp (for_procs body) (fun r s' => r = None /\ pgood s' /\ I s' /\ ps_procs s' = f <$> ps_procs s0) s0.
Proof.
  intros Hbody Hg HI. eapply wp_mono; [apply (scan_map_gen (fun s => pgood s /\ I s) f); [|apply Hg|done]|].
  - intros i s Hi [Hgs HIs] _ _. eapply wp_mono; [by apply Hbody|]. by intros r s' (-> & ? & ? & ?).
  - by intros r s' (-> & [? ?] & ?).
Qed.
