(* ===== verification/Signal.v ===== *)
(** * Signals (src/kernel/proc/signal.c)

    Sending marks a bit of [sig_pending] and wakes an interruptible sleeper;
    [signal_deliver], on the way back to user space, takes one pending signal
    and terminates the process, drops the signal or enters the user handler
    with the trapframe saved; [signal_sigreturn] undoes the last. *)

From S2P Require Import Prelude Riscv Memory Spinlock Kalloc Vm VmTree VmUnmap VmCow VmProps Proctab.
Import Hart.

Definition SIGHUP : Z := 1.
Definition SIGINT : Z := 2.
Definition SIGQUIT : Z := 3.
Definition SIGKILL : Z := 9.
Definition SIGPIPE : Z := 13.
Definition SIGALRM : Z := 14.
Definition SIGTERM : Z := 15.
Definition SIGCHLD : Z := 17.
Definition SIG_DFL : Z := 0.
Definition SIG_IGN : Z := 1.
Definition SIG_ERR : Z := 2 ^ 64 - 1.

Definition signal_valid (signum : Z) : bool := (0 <? signum) && (signum <? NSIG).

Definition signal_bit (signum : Z) : Z := u32 (Z.shiftl 1 signum).

Definition VUX : Z := Z.lor (Z.lor PTE_V PTE_U) PTE_X.

Definition signal_handler_valid (i handler : Z) : M pst bool :=
  if MAXUVA <=? handler then ret false
  else
    p <- getp i ;;
    pte <- zoom (walk (p_pagetable p) handler false) ;;
    if pte =? 0 then ret false
    else
      v <- zoom (load64 pte) ;;
      ret (Z.land v VUX =? VUX).

Definition signal_default_ignored (signum : Z) : bool := signum =? SIGCHLD.

Definition handler_at (p : proc) (signum : Z) : Z := p_sig_handlers p !!! Z.to_nat signum.

(** The fields the three initialisers reset in common. *)
Definition sig_clear (p : proc) : proc :=
  set_p_sig_saved_trapframe zero_tf (set_p_sig_term 0 (set_p_sig_current 0
    (set_p_sig_handling false (set_p_sig_pending 0 p)))).

Definition signal_proc_init (p : proc) : proc :=
  set_p_interruptible_sleep false (set_p_sig_handlers (replicate (Z.to_nat NSIG) 0)
    (set_p_sig_mask 0 (sig_clear p))).

Definition signal_proc_fork (parent child : proc) : proc :=
  set_p_interruptible_sleep false (set_p_sig_handlers (p_sig_handlers parent)
    (set_p_sig_mask (p_sig_mask parent) (sig_clear child))).

(** Handlers 1..NSIG-1 that are not [SIG_IGN] become [SIG_DFL]. *)
Definition reset_handlers (hs : list Z) : list Z :=
  imap (fun signum h => if (0 <? Z.of_nat signum) && negb (h =? SIG_IGN) then SIG_DFL else h) hs.

Definition signal_reset_on_exec (i : Z) : M pst unit :=
  plock i ;;
  setp i (fun p => set_p_sig_handlers (reset_handlers (p_sig_handlers p)) p) ;;
  setp i (fun p => set_p_sig_mask 0 (sig_clear p)) ;;
  punlock i.

Definition ignored (handler signum : Z) : bool :=
  (handler =? SIG_IGN) || ((handler =? SIG_DFL) && signal_default_ignored signum).

Definition clear_pending (signum : Z) (p : proc) : proc :=
  set_p_sig_pending (Z.land (p_sig_pending p) (Z.lnot (signal_bit signum))) p.

Definition signal_set_handler (i signum handler : Z) : M pst Z :=
  if negb (signal_valid signum) then ret SIG_ERR
  else if signum =? SIGKILL then ret SIG_ERR
  else
    bad <- (if negb (handler =? SIG_DFL) && negb (handler =? SIG_IGN)
            then v <- signal_handler_valid i handler ;; ret (negb v) else ret false) ;;
    if bad then ret SIG_ERR
    else
      plock i ;;
      p <- getp i ;;
      let old := handler_at p signum in
      setp i (fun p => set_p_sig_handlers (<[Z.to_nat signum := handler]> (p_sig_handlers p)) p) ;;
      when (ignored handler signum) (setp i (clear_pending signum)) ;;
      punlock i ;;
      ret old.

(** [signal_mark_locked], on the process itself; its lock is held. *)
Definition signal_mark_locked (signum : Z) (p : proc) : proc :=
  let handler := handler_at p signum in
  if ignored handler signum then p
  else
    let p := set_p_sig_pending (Z.lor (p_sig_pending p) (signal_bit signum)) p in
    let p := if signum =? SIGKILL then set_p_killed true (set_p_sig_term signum p) else p in
    if is_state SLEEPING p && p_interruptible_sleep p then set_p_state RUNNABLE p else p.

Definition signal_send_locked (i signum : Z) : M pst Z :=
  p <- getp i ;;
  if is_state UNUSED p || negb (signal_valid signum) then ret (-1)
  else setp i (signal_mark_locked signum) ;; ret 0.

Definition signal_send_pid (pid signum : Z) : M pst Z :=
  if (pid <=? 0) || negb (signal_valid signum) then ret (-1)
  else
    r <- for_procs (fun i =>
           plock i ;;
           p <- getp i ;;
           if negb (is_state UNUSED p) && (p_pid p =? pid) then
             setp i (signal_mark_locked signum) ;;
             punlock i ;;
             ret (Some tt)
           else punlock i ;; ret None) ;;
    match r with Some _ => ret 0 | None => ret (-1) end.

(** The loop of [signal_send_pgrp]; the result is [found]. *)
Fixpoint mark_pgrp (n : nat) (i pgid signum : Z) (found : bool) : M pst bool :=
  match n with
  | O => ret found
  | S n' =>
      plock i ;;
      p <- getp i ;;
      let hit := negb (is_state UNUSED p) && (p_pgid p =? pgid) in
      when hit (setp i (signal_mark_locked signum)) ;;
      punlock i ;;
      mark_pgrp n' (i + 1) pgid signum (found || hit)
  end.

Definition signal_send_pgrp (pgid signum : Z) : M pst Z :=
  if (pgid <=? 0) || negb (signal_valid signum) then ret (-1)
  else
    found <- mark_pgrp (Z.to_nat NPROC) 0 pgid signum false ;;
    ret (if found then 0 else -1).

Definition signal_pgrp_exists (pgid : Z) : M pst Z :=
  if pgid <=? 0 then ret 0
  else
    r <- for_procs (fun i =>
           plock i ;;
           p <- getp i ;;
           let hit := negb (is_state UNUSED p) && (p_pgid p =? pgid) in
           punlock i ;;
           ret (if hit then Some tt else None)) ;;
    ret (match r with Some _ => 1 | None => 0 end).

(** Pending and not masked; [SIGKILL] cannot be masked. *)
Definition deliverable (p : proc) : Z :=
  let pending := Z.land (p_sig_pending p) (Z.lnot (p_sig_mask p)) in
  if has (p_sig_pending p) (signal_bit SIGKILL) then Z.lor pending (signal_bit SIGKILL) else pending.

Definition signal_pending_locked (p : proc) : bool := p_killed p || negb (deliverable p =? 0).

Definition signal_pending (i : Z) : M pst bool :=
  plock i ;;
  p <- getp i ;;
  let pending := signal_pending_locked p in
  punlock i ;;
  ret pending.

(** [for (signum = 1; signum < NSIG; signum++) if (pending & bit) return signum] *)
Fixpoint choose_from (n : nat) (signum pending : Z) : Z :=
  match n with
  | O => 0
  | S n' => if has pending (signal_bit signum) then signum else choose_from n' (signum + 1) pending
  end.
Definition signal_choose (pending : Z) : Z :=
  if has pending (signal_bit SIGKILL) then SIGKILL
  else choose_from (Z.to_nat NSIG - 1) 1 pending.

Definition terminate_by (signum : Z) (p : proc) : proc := set_p_killed true (set_p_sig_term signum p).

(** Entering a user handler. *)
Definition enter_handler (signum handler : Z) (p : proc) : proc :=
  let p := set_p_sig_saved_trapframe (p_tf p) p in
  let p := set_p_sig_current signum (set_p_sig_handling true p) in
  let p := set_p_sig_mask (Z.lor (p_sig_mask p) (signal_bit signum)) p in
  set_p_tf (<[TF_epc := handler]> (<[TF_ra := SIGTRAMP]> (<[TF_a0 := signum]> (p_tf p)))) p.

Definition signal_deliver (i : Z) : M pst unit :=
  plock i ;;
  p <- getp i ;;
  let pending := deliverable p in
  if p_sig_handling p && negb (has pending (signal_bit SIGKILL)) then punlock i
  else
    let signum := signal_choose pending in
    if signum =? 0 then punlock i
    else
      setp i (clear_pending signum) ;;
      let handler := handler_at p signum in
      if (signum =? SIGKILL) || ((handler =? SIG_DFL) && negb (signal_default_ignored signum)) then
        setp i (terminate_by signum) ;; punlock i
      else if ignored handler signum then punlock i
      else
        ok <- signal_handler_valid i handler ;;
        if negb ok then setp i (terminate_by signum) ;; punlock i
        else setp i (enter_handler signum handler) ;; punlock i.

(** Returns the saved [a0]; -1, as [uint64], when no handler is running. *)
Definition signal_sigreturn (i : Z) : M pst Z :=
  plock i ;;
  p <- getp i ;;
  if negb (p_sig_handling p) then punlock i ;; ret (u64 (-1))
  else
    let signum := p_sig_current p in
    let a0 := p_sig_saved_trapframe p !!! TF_a0 in
    setp i (fun p => set_p_tf (p_sig_saved_trapframe p) p) ;;
    when (signal_valid signum)
      (setp i (fun p => set_p_sig_mask (Z.land (p_sig_mask p) (Z.lnot (signal_bit signum))) p)) ;;
    setp i (fun p => set_p_sig_saved_trapframe zero_tf (set_p_sig_current 0 (set_p_sig_handling false p))) ;;
    punlock i ;;
    ret a0.

Definition signal_exit_status (i : Z) : M pst Z :=
  plock i ;;
  p <- getp i ;;
  let signum := p_sig_term p in
  punlock i ;;
  ret (if negb (signum =? 0) then - signum else -1).

(** ** Bits of the signal sets *)

Lemma signal_bit_pow signum : 0 <= signum < NSIG -> signal_bit signum = 2 ^ signum.
Proof.
  intros H. unfold signal_bit. rewrite Z.shiftl_1_l. apply u32_small. split; [apply Z.pow_nonneg; lia|].
  apply Z.pow_lt_mono_r; unfold NSIG in *; lia.
Qed.

Lemma has_bit v signum : 0 <= signum < NSIG -> has v (signal_bit signum) = Z.testbit v signum.
Proof. intros H. rewrite signal_bit_pow by done. rewrite <- Z.shiftl_1_l. apply has_testbit. lia. Qed.

(** [SIGKILL] first, then the lowest number; 0 when no signal is pending. *)
Lemma choose_from_spec n signum pending :
  0 < signum -> signum + Z.of_nat n <= NSIG ->
  let r := choose_from n signum pending in
  (r = 0 /\ forall k, signum <= k < signum + Z.of_nat n -> Z.testbit pending k = false) \/
  (signum <= r < signum + Z.of_nat n /\ Z.testbit pending r = true /\
   forall k, signum <= k < r -> Z.testbit pending k = false).
Proof.
  revert signum. induction n as [|n IH]; intros signum Hs Hn; cbn [choose_from].
  - left. split; [done|]. intros; lia.
  - rewrite has_bit by lia. destruct (Z.testbit pending signum) eqn:E.
    + right. split_and!; [lia|lia|done|intros; lia].
    + destruct (IH (signum + 1)) as [[Hr Hf]|(Hr & Ht & Hf)]; [lia|lia| |].
      * left. split; [done|]. intros k Hk. destruct (decide (k = signum)) as [->|]; [done|]. apply Hf. lia.
      * right. split_and!; [lia|lia|done|]. intros k Hk. destruct (decide (k = signum)) as [->|]; [done|]. apply Hf. lia.
Qed.

Definition signal_choose_post (pending signum : Z) : Prop :=
  (signum = 0 /\ forall k, 0 < k < NSIG -> Z.testbit pending k = false) \/
  (0 < signum < NSIG /\ Z.testbit pending signum = true /\
   (signum <> SIGKILL -> Z.testbit pending SIGKILL = false /\ forall k, 0 < k < signum -> Z.testbit pending k = false)).

Lemma signal_choose_spec pending : signal_choose_post pending (signal_choose pending).
Proof.
  unfold signal_choose, signal_choose_post. rewrite has_bit by done.
  destruct (Z.testbit pending SIGKILL) eqn:E; [right; split_and!; done|].
  destruct (choose_from_spec (Z.to_nat NSIG - 1) 1 pending) as [[-> Hf]|(Hr & Ht & Hf)]; [done|done| |].
  - left. split; [done|]. intros k Hk. apply Hf. unfold NSIG in *. simpl. lia.
  - right. change (1 + Z.of_nat (Z.to_nat NSIG - 1)) with NSIG in Hr. split_and!; [lia|lia|done|].
    intros _. split; [done|]. intros k Hk. apply Hf. lia.
Qed.

Lemma deliverable_testbit p k : 0 <= k < NSIG ->
  Z.testbit (deliverable p) k =
    Z.testbit (p_sig_pending p) k && (negb (Z.testbit (p_sig_mask p) k) || (k =? SIGKILL)).
Proof.
  intros Hk. unfold deliverable. rewrite has_bit by done.
  destruct (Z.testbit (p_sig_pending p) SIGKILL) eqn:E.
  - rewrite Z.lor_spec, Z.land_spec, Z.lnot_spec by lia. rewrite (signal_bit_pow SIGKILL) by done.
    destruct (Z.eqb_spec k SIGKILL) as [->|].
    + rewrite Z.pow2_bits_true by done. rewrite E. by rewrite !orb_true_r.
    + rewrite Z.pow2_bits_false by lia. by rewrite !orb_false_r.
  - rewrite Z.land_spec, Z.lnot_spec by lia. destruct (Z.eqb_spec k SIGKILL) as [->|]; [by rewrite E|by rewrite orb_false_r].
Qed.

(** ** Delivery *)

Section deliver.
Context {L : Linker} {LOK : LinkerOk L} {PAS : PageAllocSpec}.

(** The table has a user-executable page at the handler. *)
Definition handler_mapped (s : pst) (t : tree) (i handler : Z) : Prop :=
  pt_rep (ps_k s) t (p_pagetable (proc_at s i)) /\ 0 <= handler < MAXUVA /\
  Z.land (pte_of (ps_k s) t handler) VUX = VUX.

Lemma handler_valid_spec s t i handler :
  pt_rep (ps_k s) t (p_pagetable (proc_at s i)) -> 0 <= handler ->
  wp (signal_handler_valid i handler) (fun r s' =>
    s' = s /\ r = (handler <? MAXUVA) && (Z.land (pte_of (ps_k s) t handler) VUX =? VUX)) s.
Proof.
  intros Hr Hh. unfold signal_handler_valid. destruct (Z.leb_spec MAXUVA handler) as [Hge|Hlt].
  { wp_go. split; [done|]. destruct (Z.ltb_spec handler MAXUVA); [lia|done]. }
  destruct (Z.ltb_spec handler MAXUVA); [|lia]. wp_go.
  apply wp_zoom. eapply wp_mono.
  { apply (walk_lookup (ps_k s) t); [exact Hr|unfold MAXUVA in *; change MAXVA with (2 ^ 38); lia]. }
  intros r k [-> ->]. cbv beta. assert (Es : lput (ps_k s) s = s) by (exact (lput_lget (S := pst) (T := kst) s)).
  rewrite Es. unfold pte_of. destruct (t !! [PX 2 handler; PX 1 handler]) as [q|] eqn:E.
  - destruct (pte_ptr_nonzero _ _ _ handler q Hr E) as [Hp Hnz]. rewrite (proj2 (Z.eqb_neq _ _) Hnz), Hp.
    wp_step. apply wp_zoom. wp_go. change (lget s) with (ps_k s). by rewrite Es.
  - unfold pte_ptr. rewrite E. change (0 =? 0) with true. cbv iota. wp_go. split; [done|]. symmetry. by vm_compute.
Qed.

(** The effect of [signal_deliver] on the process; [valid] is the answer of
    [signal_handler_valid]. *)
Definition deliver_effect (valid : bool) (p : proc) : proc :=
  let pending := deliverable p in
  if p_sig_handling p && negb (has pending (signal_bit SIGKILL)) then p
  else
    let signum := signal_choose pending in
    if signum =? 0 then p
    else
      let handler := handler_at p signum in
      if (signum =? SIGKILL) || ((handler =? SIG_DFL) && negb (signal_default_ignored signum))
      then terminate_by signum (clear_pending signum p)
      else if ignored handler signum then clear_pending signum p
      else if valid then enter_handler signum handler (clear_pending signum p)
      else terminate_by signum (clear_pending signum p).

Definition handlers_nonneg (p : proc) : Prop := forall k, 0 <= handler_at p k.

Lemma upd_proc_twice i f g s : 0 <= i < NPROC -> length (ps_procs s) = Z.to_nat NPROC ->
  upd_proc i g (upd_proc i f s) = upd_proc i (fun p => g (f p)) s.
Proof.
  intros Hi Hl. unfold upd_proc, proc_at. simpl. rewrite list_lookup_total_insert_eq by (unfold NPROC in *; lia).
  by rewrite list_insert_insert_eq.
Qed.

Lemma proc_at_upd i f s : 0 <= i < NPROC -> length (ps_procs s) = Z.to_nat NPROC ->
  proc_at (upd_proc i f s) i = f (proc_at s i).
Proof. intros Hi Hl. unfold upd_proc, proc_at. simpl. apply list_lookup_total_insert_eq. unfold NPROC in *. lia. Qed.

Lemma upd_proc_id i s : 0 <= i < NPROC -> length (ps_procs s) = Z.to_nat NPROC -> upd_proc i (fun p => p) s = s.
Proof.
  intros Hi Hl. unfold upd_proc, proc_at. rewrite list_insert_id; [by destruct s|].
  apply list_lookup_lookup_total_lt. unfold NPROC in *. lia.
Qed.

(** A process lock is released on every path out of a critical section. *)
Lemma unlock_post i f s0 l :
  pgood s0 -> taken (L_proc i) (lk_of s0) l ->
  wp (punlock i) (fun _ s' => psame s0 s' /\ ps_procs s' = ps_procs (upd_proc i f s0)) (lput l (upd_proc i f s0)).
Proof.
  intros [G1 G2 G3] Hl. eapply wp_punlock; [exact G1|apply G2|exact Hl|]. intros l' Hl'. split; [|done].
  split; [exact Hl'|]. done.
Qed.

Lemma deliver_wp s t i :
  pgood s -> 0 <= i < NPROC -> pt_rep (ps_k s) t (p_pagetable (proc_at s i)) -> handlers_nonneg (proc_at s i) ->
  wp (signal_deliver i) (fun _ s' => exists valid,
    (forall h, h = handler_at (proc_at s i) (signal_choose (deliverable (proc_at s i))) ->
       valid = (h <? MAXUVA) && (Z.land (pte_of (ps_k s) t h) VUX =? VUX)) /\
    psame s s' /\ ps_procs s' = ps_procs (upd_proc i (deliver_effect valid) s)) s.
Proof.
  intros Hg Hi Hr Hh. pose proof Hg as [G1 G2 G3]. set (p := proc_at s i) in *.
  set (h0 := handler_at p (signal_choose (deliverable p))).
  set (valid := (h0 <? MAXUVA) && (Z.land (pte_of (ps_k s) t h0) VUX =? VUX)).
  assert (Hv : forall h, h = h0 -> valid = (h <? MAXUVA) && (Z.land (pte_of (ps_k s) t h) VUX =? VUX)) by (by intros ? ->).
  assert (Hdone : forall l f, taken (L_proc i) (lk_of s) l -> f p = deliver_effect valid p ->
    wp (punlock i) (fun _ s' => exists valid,
      (forall h, h = h0 -> valid = (h <? MAXUVA) && (Z.land (pte_of (ps_k s) t h) VUX =? VUX)) /\
      psame s s' /\ ps_procs s' = ps_procs (upd_proc i (deliver_effect valid) s)) (lput l (upd_proc i f s))).
  { intros l f Hl Hf. eapply wp_mono; [by apply (unlock_post i f s l)|]. intros [] s' [H1 H2]. exists valid.
    split_and!; [done|done|]. rewrite H2. unfold upd_proc. simpl. fold p. by rewrite Hf. }
  unfold signal_deliver. wp_step. apply wp_plock; [apply G2|]. intros l Hl. wp_step. wp_step. wp_step.
  change (proc_at (lput l s) i) with p.
  pose proof (Hdone l (fun p => p) Hl) as Hid. rewrite upd_proc_id in Hid by done.
  unfold deliver_effect in Hid, Hdone.
  destruct (p_sig_handling p && negb (has (deliverable p) (signal_bit SIGKILL))) eqn:E1; [by apply Hid|].
  destruct (signal_choose (deliverable p) =? 0) eqn:E2; [by apply Hid|].
  set (signum := signal_choose (deliverable p)) in *. wp_step. wp_step. wp_step.
  change (upd_proc i (clear_pending signum) (lput l s)) with (lput l (upd_proc i (clear_pending signum) s)).
  fold h0. fold h0 in Hdone.
  destruct ((signum =? SIGKILL) || ((h0 =? SIG_DFL) && negb (signal_default_ignored signum))) eqn:E3.
  { wp_go. change (upd_proc i (terminate_by signum) (lput l (upd_proc i (clear_pending signum) s)))
      with (lput l (upd_proc i (terminate_by signum) (upd_proc i (clear_pending signum) s))).
    rewrite upd_proc_twice by done. by apply Hdone. }
  destruct (ignored h0 signum) eqn:E4; [by apply Hdone|].
  wp_step. eapply wp_mono.
  { apply (handler_valid_spec _ t); [|apply Hh]. unfold proc_at. simpl. rewrite list_lookup_total_insert_eq by (unfold NPROC in *; lia).
    destruct (pt_rep_ext (ps_k s) (set_lk l (ps_k s)) t _ Hr) as [Hr' _]; [done|done|]. exact Hr'. }
  intros r s1 [-> Hok]. change (pte_of (ps_k (lput l (upd_proc i (clear_pending signum) s))) t h0) with (pte_of (ps_k s) t h0) in Hok.
  fold valid in Hok. subst r. destruct valid; simpl (negb _); cbv iota; wp_go.
  - change (upd_proc i (enter_handler signum h0) (lput l (upd_proc i (clear_pending signum) s)))
      with (lput l (upd_proc i (enter_handler signum h0) (upd_proc i (clear_pending signum) s))).
    rewrite upd_proc_twice by done. by apply Hdone.
  - change (upd_proc i (terminate_by signum) (lput l (upd_proc i (clear_pending signum) s)))
      with (lput l (upd_proc i (terminate_by signum) (upd_proc i (clear_pending signum) s))).
    rewrite upd_proc_twice by done. by apply Hdone.
Qed.

(** ** Return from a handler *)

Definition unmask (signum : Z) (p : proc) : proc :=
  if signal_valid signum then set_p_sig_mask (Z.land (p_sig_mask p) (Z.lnot (signal_bit signum))) p else p.
Definition sigreturn_effect (p : proc) : proc :=
  set_p_sig_saved_trapframe zero_tf (set_p_sig_current 0 (set_p_sig_handling false
    (unmask (p_sig_current p) (set_p_tf (p_sig_saved_trapframe p) p)))).

Lemma sigreturn_wp s i :
  pgood s -> 0 <= i < NPROC -> p_sig_handling (proc_at s i) = true ->
  wp (signal_sigreturn i) (fun a0 s' => a0 = p_sig_saved_trapframe (proc_at s i) !!! TF_a0 /\
    psame s s' /\ ps_procs s' = ps_procs (upd_proc i sigreturn_effect s)) s.
Proof.
  intros Hg Hi Hh. pose proof Hg as [G1 G2 G3]. set (p := proc_at s i) in *.
  unfold signal_sigreturn. wp_step. apply wp_plock; [apply G2|]. intros l Hl. wp_step. wp_step. wp_step.
  change (proc_at (lput l s) i) with p. rewrite Hh. simpl (negb _). cbv iota. wp_step. wp_step. wp_step.
  set (f1 := fun p => set_p_tf (p_sig_saved_trapframe p) p).
  change (upd_proc i f1 (lput l s)) with (lput l (upd_proc i f1 s)).
  set (f3 := fun p => set_p_sig_saved_trapframe zero_tf (set_p_sig_current 0 (set_p_sig_handling false p))).
  set (f2 := fun x => set_p_sig_mask (Z.land (p_sig_mask x) (Z.lnot (signal_bit (p_sig_current p)))) x).
  assert (Hfin : forall f, f p = sigreturn_effect p ->
    wp (punlock i ;; ret (p_sig_saved_trapframe p !!! TF_a0)) (fun a0 s' => a0 = p_sig_saved_trapframe p !!! TF_a0 /\
      psame s s' /\ ps_procs s' = ps_procs (upd_proc i sigreturn_effect s)) (lput l (upd_proc i f s))).
  { intros f Hf. wp_step. eapply wp_mono; [by apply (unlock_post i f s l)|]. intros [] s' [H1 H2]. wp_go.
    split_and!; [done|done|]. rewrite H2. unfold upd_proc. simpl. fold p. by rewrite Hf. }
  wp_step. apply wp_when; intros Ev.
  - wp_go. change (upd_proc i f2 (lput l (upd_proc i f1 s))) with (lput l (upd_proc i f2 (upd_proc i f1 s))).
    change (upd_proc i f3 (lput l (upd_proc i f2 (upd_proc i f1 s)))) with (lput l (upd_proc i f3 (upd_proc i f2 (upd_proc i f1 s)))).
    rewrite !upd_proc_twice by (rewrite ?length_upd_proc; done).
    apply wp_bind_inv, Hfin. unfold sigreturn_effect, unmask, f1, f2, f3. fold p. simpl. by rewrite Ev.
  - wp_go. change (upd_proc i f3 (lput l (upd_proc i f1 s))) with (lput l (upd_proc i f3 (upd_proc i f1 s))).
    rewrite upd_proc_twice by done. apply wp_bind_inv, Hfin. unfold sigreturn_effect, unmask, f1, f3. simpl. by rewrite Ev.
Qed.

Lemma clear_set_bit m k : 0 <= k < NSIG -> Z.testbit m k = false ->
  Z.land (Z.lor m (signal_bit k)) (Z.lnot (signal_bit k)) = m.
Proof.
  intros Hk Hm. rewrite signal_bit_pow by done. apply Z.bits_inj'. intros j Hj.
  rewrite Z.land_spec, Z.lor_spec, Z.lnot_spec by done. destruct (Z.eq_dec k j) as [->|].
  - rewrite Z.pow2_bits_true by done. by rewrite Hm, andb_false_r.
  - rewrite Z.pow2_bits_false by done. by rewrite orb_false_r, andb_true_r.
Qed.

Lemma choose_unmasked p signum :
  signal_choose (deliverable p) = signum -> signum <> 0 -> signum <> SIGKILL ->
  0 < signum < NSIG /\ Z.testbit (p_sig_mask p) signum = false /\ Z.testbit (p_sig_pending p) signum = true.
Proof.
  intros Hc Hz Hk. destruct (signal_choose_spec (deliverable p)) as [[E _]|(Hr & Ht & _)]; rewrite Hc in *; [done|].
  rewrite deliverable_testbit in Ht by lia. apply andb_true_iff in Ht as [H1 H2].
  split_and!; [lia|lia| |done]. destruct (Z.eqb_spec signum SIGKILL); [done|]. rewrite orb_false_r in H2. by apply negb_true_iff.
Qed.

(** ** Properties *)

(** What the kernel keeps for a process while its handler runs.  The trapframe,
    the mask, the pending signals and the rest of the slot may be whatever the
    handler, its traps and its system calls left. *)
Definition in_handler (p1 p : proc) : Prop :=
  p_sig_handling p = true /\ p_sig_current p = p_sig_current p1 /\ p_sig_saved_trapframe p = p_sig_saved_trapframe p1.

(** C22: entering a user signal handler and returning from it with [sigreturn]
    is transparent to the interrupted program, whatever the handler did.  If
    the signal chosen for delivery has a valid user handler, [signal_deliver]
    enters it with the signal number in [a0], the return stub in [ra], the
    signal blocked and no longer pending, and all other registers as they were.
    From every later state of the machine in which the process is still in that
    handler, with any registers, mask and pending signals, [signal_sigreturn]
    restores the whole interrupted trapframe, returns the interrupted [a0] to
    the system-call path and unblocks the signal; if the handler left the mask
    alone, the mask is the one before the signal. *)
Theorem handler_roundtrip s t i signum :
  pgood s -> 0 <= i < NPROC ->
  let p := proc_at s i in
  p_sig_handling p = false -> signal_choose (deliverable p) = signum -> signum <> 0 -> signum <> SIGKILL ->
  handler_at p signum <> SIG_DFL -> handler_at p signum <> SIG_IGN -> handlers_nonneg p ->
  handler_mapped s t i (handler_at p signum) -> length (p_tf p) = TF_WORDS ->
  exists s1, signal_deliver i s = Ok tt s1 /\
    (let p1 := proc_at s1 i in
     p_tf p1 = <[TF_epc := handler_at p signum]> (<[TF_ra := SIGTRAMP]> (<[TF_a0 := signum]> (p_tf p))) /\
     p_sig_handling p1 = true /\ p_sig_mask p1 = Z.lor (p_sig_mask p) (signal_bit signum) /\
     p_sig_pending p1 = Z.land (p_sig_pending p) (Z.lnot (signal_bit signum)) /\ p_killed p1 = p_killed p) /\
    forall s', pgood s' -> in_handler (proc_at s1 i) (proc_at s' i) ->
      exists s2, signal_sigreturn i s' = Ok (p_tf p !!! TF_a0) s2 /\
        (let p2 := proc_at s2 i in
         p_tf p2 = p_tf p /\ p_sig_handling p2 = false /\
         p_sig_mask p2 = Z.land (p_sig_mask (proc_at s' i)) (Z.lnot (signal_bit signum)) /\
         (p_sig_mask (proc_at s' i) = p_sig_mask (proc_at s1 i) -> p_sig_mask p2 = p_sig_mask p) /\
         p_sig_pending p2 = p_sig_pending (proc_at s' i) /\ p_killed p2 = p_killed (proc_at s' i)).
Proof.
  intros Hg Hi p Hh Hc Hz Hk Hdfl Hign Hnn (Hr & Hrange & Hux) Hlen. pose proof Hg as [G1 G2 G3].
  destruct (choose_unmasked p signum Hc Hz Hk) as (Hs & Hmask & _).
  destruct (wp_Ok _ _ _ (deliver_wp s t i Hg Hi Hr Hnn)) as ([] & s1 & E1 & valid & Hvalid & Hsame1 & Hp1).
  assert (Hval : valid = true).
  { rewrite (Hvalid _ eq_refl). fold p. rewrite Hc, Hux, Z.eqb_refl. destruct (Z.ltb_spec (handler_at p signum) MAXUVA); [done|lia]. }
  assert (Hat1 : proc_at s1 i = enter_handler signum (handler_at p signum) (clear_pending signum p)).
  { unfold proc_at. rewrite Hp1. fold (proc_at (upd_proc i (deliver_effect valid) s) i). rewrite proc_at_upd by done. fold p.
    unfold deliver_effect. rewrite Hh, Hc, Hval. simpl (false && _). cbv iota.
    rewrite !(proj2 (Z.eqb_neq _ _)) by done. simpl. unfold ignored. rewrite !(proj2 (Z.eqb_neq _ _)) by done. done. }
  exists s1. split; [done|]. split; [rewrite Hat1; done|].
  intros s' Hg' (Hh' & Hcur & Hsav). rewrite Hat1 in Hcur, Hsav. cbn in Hcur, Hsav.
  destruct (wp_Ok _ _ _ (sigreturn_wp s' i Hg' Hi Hh')) as (a0 & s2 & E2 & Ha0 & _ & Hp2).
  assert (Hat2 : proc_at s2 i = sigreturn_effect (proc_at s' i)).
  { unfold proc_at. rewrite Hp2. fold (proc_at (upd_proc i sigreturn_effect s') i).
    rewrite proc_at_upd by (done || apply Hg'). done. }
  assert (Hsv : signal_valid signum = true).
  { unfold signal_valid. destruct (Z.ltb_spec 0 signum), (Z.ltb_spec signum NSIG); done || lia. }
  exists s2. split; [rewrite E2, Ha0; by rewrite Hsav|].
  rewrite Hat2. unfold sigreturn_effect, unmask. rewrite Hcur, Hsv. cbn. split_and!; try done.
  intros ->. rewrite Hat1. cbn. apply clear_set_bit; [lia|done].
Qed.

(** [SIGKILL] cannot be caught, blocked, ignored or deferred.  No handler
    can be installed for it, and when it is pending [signal_deliver] marks the
    process killed by it whatever its mask and handlers are and even while it
    runs a handler, without touching the trapframe. *)
Theorem sigkill_unstoppable s t i :
  pgood s -> 0 <= i < NPROC -> pt_rep (ps_k s) t (p_pagetable (proc_at s i)) -> handlers_nonneg (proc_at s i) ->
  Z.testbit (p_sig_pending (proc_at s i)) SIGKILL = true ->
  (forall handler, signal_set_handler i SIGKILL handler s = Ok SIG_ERR s) /\
  exists s', signal_deliver i s = Ok tt s' /\ p_killed (proc_at s' i) = true /\
    p_sig_term (proc_at s' i) = SIGKILL /\ p_tf (proc_at s' i) = p_tf (proc_at s i).
Proof.
  intros Hg Hi Hr Hnn Hk. split; [done|]. pose proof Hg as [G1 G2 G3].
  destruct (wp_Ok _ _ _ (deliver_wp s t i Hg Hi Hr Hnn)) as ([] & s1 & E1 & valid & _ & _ & Hp1).
  exists s1. split; [done|].
  assert (Hd : Z.testbit (deliverable (proc_at s i)) SIGKILL = true) by (rewrite deliverable_testbit by done; by rewrite Hk, orb_true_r).
  assert (Hc : signal_choose (deliverable (proc_at s i)) = SIGKILL).
  { unfold signal_choose. by rewrite has_bit, Hd by done. }
  assert (Hat : proc_at s1 i = terminate_by SIGKILL (clear_pending SIGKILL (proc_at s i))).
  { unfold proc_at at 1. rewrite Hp1. fold (proc_at (upd_proc i (deliver_effect valid) s) i). rewrite proc_at_upd by done.
    unfold deliver_effect. rewrite has_bit, Hd by done. simpl (negb true). rewrite andb_false_r, Hc. done. }
  by rewrite Hat.
Qed.

(** signal handlers do not nest.  While a handler runs and [SIGKILL] is not
    pending, [signal_deliver] leaves every process exactly as it was. *)
Theorem handlers_do_not_nest s t i :
  pgood s -> 0 <= i < NPROC -> pt_rep (ps_k s) t (p_pagetable (proc_at s i)) -> handlers_nonneg (proc_at s i) ->
  p_sig_handling (proc_at s i) = true -> Z.testbit (p_sig_pending (proc_at s i)) SIGKILL = false ->
  exists s', signal_deliver i s = Ok tt s' /\ ps_procs s' = ps_procs s.
Proof.
  intros Hg Hi Hr Hnn Hh Hk. pose proof Hg as [G1 G2 G3].
  destruct (wp_Ok _ _ _ (deliver_wp s t i Hg Hi Hr Hnn)) as ([] & s1 & E1 & valid & _ & _ & Hp1).
  exists s1. split; [done|]. rewrite Hp1.
  assert (Hd : deliver_effect valid (proc_at s i) = proc_at s i).
  { unfold deliver_effect. rewrite has_bit by done. rewrite deliverable_testbit by done. by rewrite Hk, Hh. }
  unfold upd_proc. simpl. rewrite Hd. apply list_insert_id. apply list_lookup_lookup_total_lt. unfold NPROC in *. lia.
Qed.

(** Which signal is delivered: [SIGKILL] if it is among the candidates,
    otherwise the candidate with the lowest number; 0 exactly when there is
    none. *)
Theorem signal_choose_lowest pending :
  signal_choose_post pending (signal_choose pending).
Proof. exact (signal_choose_spec pending). Qed.

End deliver.

(** ** Ignored signals are never pending *)

(** For every signal that the process ignores, the pending bit is clear. *)
Definition sig_inv (p : proc) : Prop :=
  length (p_sig_handlers p) = Z.to_nat NSIG /\
  forall signum, 0 < signum < NSIG -> ignored (handler_at p signum) signum = true ->
    Z.testbit (p_sig_pending p) signum = false.

Lemma testbit_clear v k j : 0 <= k < NSIG -> 0 <= j ->
  Z.testbit (Z.land v (Z.lnot (signal_bit k))) j = Z.testbit v j && negb (k =? j).
Proof.
  intros Hk Hj. rewrite signal_bit_pow, Z.land_spec, Z.lnot_spec by done. f_equal. f_equal.
  destruct (Z.eqb_spec k j) as [->|]; [by rewrite Z.pow2_bits_true|by rewrite Z.pow2_bits_false].
Qed.

Lemma testbit_set v k j : 0 <= k < NSIG -> 0 <= j ->
  Z.testbit (Z.lor v (signal_bit k)) j = Z.testbit v j || (k =? j).
Proof.
  intros Hk Hj. rewrite signal_bit_pow, Z.lor_spec by done. f_equal.
  destruct (Z.eqb_spec k j) as [->|]; [by rewrite Z.pow2_bits_true|by rewrite Z.pow2_bits_false].
Qed.

(** The step [signal_set_handler] takes on the process. *)
Definition install_handler (signum handler : Z) (p : proc) : proc :=
  let p := set_p_sig_handlers (<[Z.to_nat signum := handler]> (p_sig_handlers p)) p in
  if ignored handler signum then clear_pending signum p else p.

Lemma install_handler_inv signum handler p :
  0 < signum < NSIG -> sig_inv p -> sig_inv (install_handler signum handler p).
Proof.
  intros Hs [Hl Hp]. unfold install_handler.
  assert (Hat : forall k, 0 < k < NSIG -> <[Z.to_nat signum := handler]> (p_sig_handlers p) !!! Z.to_nat k =
    if signum =? k then handler else handler_at p k).
  { intros k Hk. destruct (Z.eqb_spec signum k) as [->|]; [apply list_lookup_total_insert_eq; lia|].
    apply list_lookup_total_insert_ne. lia. }
  destruct (ignored handler signum) eqn:Eig; (split; simpl; [by rewrite length_insert|]);
    intros k Hk Hi; unfold handler_at in Hi; simpl in Hi; rewrite Hat in Hi by done.
  - rewrite testbit_clear by lia. destruct (Z.eqb_spec signum k) as [->|]; [apply andb_false_r|].
    by rewrite (Hp k Hk Hi).
  - destruct (Z.eqb_spec signum k) as [->|]; [congruence|]. by apply Hp.
Qed.

(** a process never has an ignored signal pending.  The invariant holds
    after [signal_proc_init], is inherited through fork, and is preserved by
    sending a signal, by taking one off the pending set, by the step of
    [signal_set_handler] and by exec's reset. *)
Theorem ignored_never_pending p q signum handler :
  sig_inv p -> 0 < signum < NSIG ->
  sig_inv (signal_proc_init q) /\ sig_inv (signal_proc_fork p q) /\
  sig_inv (signal_mark_locked signum p) /\ sig_inv (clear_pending signum p) /\
  sig_inv (install_handler signum handler p) /\
  sig_inv (set_p_sig_mask 0 (sig_clear (set_p_sig_handlers (reset_handlers (p_sig_handlers p)) p))).
Proof.
  intros Hinv Hs. pose proof Hinv as [Hl Hp]. split_and!.
  - split; [done|]. intros k Hk _. apply Z.bits_0.
  - split; [done|]. intros k Hk _. apply Z.bits_0.
  - unfold signal_mark_locked. destruct (ignored (handler_at p signum) signum) eqn:Eig; [done|].
    assert (Hset : sig_inv (set_p_sig_pending (Z.lor (p_sig_pending p) (signal_bit signum)) p)).
    { split; [done|]. intros k Hk Hi. simpl. rewrite testbit_set by lia.
      change (handler_at (set_p_sig_pending _ p) k) with (handler_at p k) in Hi.
      rewrite (Hp k Hk Hi). simpl. apply Z.eqb_neq. intros ->. congruence. }
    destruct Hset as [H1 H2]. repeat case_match; split; done.
  - split; [done|]. intros k Hk Hi. simpl. rewrite testbit_clear by lia. by rewrite (Hp k Hk Hi).
  - by apply install_handler_inv.
  - split; [simpl; unfold reset_handlers; by rewrite length_imap|]. intros k Hk _. apply Z.bits_0.
Qed.

(** ** A process with pending signals

    Slot 3 has SIGINT and SIGTERM pending and a handler for SIGINT at address
    16 of the user page of the machine of VmProps.v. *)

Module SigDemo.
Import Kalloc.Demo VmProps.VmDemo.

Definition sig_proc : proc :=
  set_p_sig_pending (Z.lor (signal_bit SIGINT) (signal_bit SIGTERM))
    (set_p_sig_handlers (<[Z.to_nat SIGINT := 16]> (replicate (Z.to_nat NSIG) 0))
      (set_p_tf (seqZ 100 36) (set_p_pagetable (pg 6) (set_p_state RUNNING zero_proc)))).

Definition mkpst (p : proc) : pst :=
  Pst vm_state (<[3%nat := p]> (replicate (Z.to_nat NPROC) zero_proc)) [Cpu (Some 3) false; Cpu None false]
    (Some 0) 5 [0; 0; 0; 0] 0 0 0.
Definition sig_state : pst := mkpst sig_proc.

Lemma mkpst_good p : pgood (mkpst p).
Proof.
  assert (H : lk_of (mkpst p) = Lkst 0 false false []) by (vm_compute; reflexivity).
  split; rewrite ?H.
  - unfold lk_ok. simpl. split_and!; [lia|done|constructor].
  - intros i. simpl. apply not_elem_of_nil.
  - change (length (<[3%nat := p]> (replicate (Z.to_nat NPROC) zero_proc)) = Z.to_nat NPROC). rewrite length_insert. apply length_replicate.
Qed.

Lemma mkpst_at p : proc_at (mkpst p) 3 = p.
Proof. reflexivity. Qed.

Lemma handlers_demo (hs : list Z) : Forall (fun h => 0 <= h) hs -> forall k, 0 <= hs !!! Z.to_nat k.
Proof.
  intros H k. destruct (hs !! Z.to_nat k) as [h|] eqn:E.
  - rewrite (list_lookup_total_correct _ _ _ E). by apply (Forall_lookup_1 _ _ _ _ H E).
  - rewrite list_lookup_total_alt, E. done.
Qed.

Lemma sig_handlers_ok : handlers_nonneg sig_proc.
Proof. intros k. apply handlers_demo. by repeat constructor. Qed.

Lemma sig_mapped : handler_mapped sig_state ut 3 16.
Proof.
  unfold handler_mapped. split; [exact vm_user|]. split; [unfold MAXUVA; lia|].
  change (ps_k sig_state) with vm_state. rewrite (pte_of_page vm_state ut 16 0) by done. rewrite vm_pte. by vm_compute.
Qed.

(** The process in its handler, with every register overwritten. *)
Definition handling_proc : proc :=
  set_p_tf (seqZ 900 36) (enter_handler SIGINT 16 (clear_pending SIGINT sig_proc)).

Lemma handler_roundtrip_witness :
  signal_choose (deliverable sig_proc) = SIGINT /\
  exists s2, signal_sigreturn 3 (mkpst handling_proc) = Ok (p_tf sig_proc !!! TF_a0) s2 /\
    p_tf (proc_at s2 3) = seqZ 100 36 /\ p_sig_mask (proc_at s2 3) = p_sig_mask sig_proc.
Proof.
  split; [reflexivity|].
  destruct (handler_roundtrip sig_state ut 3 SIGINT) as (s1 & E1 & _ & H);
    [exact (mkpst_good sig_proc)|done|reflexivity|reflexivity|done|done|done|done|exact sig_handlers_ok|exact sig_mapped|reflexivity|].
  assert (E : match signal_deliver 3 sig_state with Ok _ s => proc_at s 3 = enter_handler SIGINT 16 (clear_pending SIGINT sig_proc) | _ => False end) by (vm_compute; reflexivity).
  rewrite E1 in E. destruct (H (mkpst handling_proc) (mkpst_good handling_proc)) as (s2 & E2 & H1 & _ & _ & H2 & _).
  { rewrite E, mkpst_at. unfold handling_proc. split_and!; vm_compute; reflexivity. }
  exists s2. split; [exact E2|]. split; [exact H1|]. apply H2. rewrite E, mkpst_at. vm_compute. reflexivity.
Defined.

Definition kill_proc : proc := set_p_sig_pending (signal_bit SIGKILL) (set_p_sig_mask (2 ^ 32 - 1) (set_p_sig_handling true sig_proc)).

Lemma sigkill_unstoppable_witness :
  (forall handler, signal_set_handler 3 SIGKILL handler (mkpst kill_proc) = Ok SIG_ERR (mkpst kill_proc)) /\
  exists s', signal_deliver 3 (mkpst kill_proc) = Ok tt s' /\ p_killed (proc_at s' 3) = true /\
    p_sig_term (proc_at s' 3) = SIGKILL /\ p_tf (proc_at s' 3) = p_tf kill_proc.
Proof.
  apply (sigkill_unstoppable (mkpst kill_proc) ut 3);
    [exact (mkpst_good kill_proc)|done|exact vm_user|exact sig_handlers_ok|reflexivity].
Defined.

Lemma handlers_do_not_nest_witness :
  let p := set_p_sig_handling true sig_proc in
  exists s', signal_deliver 3 (mkpst p) = Ok tt s' /\ ps_procs s' = ps_procs (mkpst p).
Proof.
  apply (handlers_do_not_nest (mkpst (set_p_sig_handling true sig_proc)) ut 3);
    [exact (mkpst_good _)|done|exact vm_user|exact sig_handlers_ok|reflexivity|reflexivity].
Defined.

Lemma ignored_never_pending_witness :
  sig_inv (signal_mark_locked SIGCHLD (signal_proc_init zero_proc)).
Proof.
  assert (H : sig_inv (signal_proc_init zero_proc)).
  { split; [done|]. intros k Hk _. apply Z.bits_0. }
  assert (Hs : 0 < SIGCHLD < NSIG) by (unfold SIGCHLD, NSIG; lia).
  destruct (ignored_never_pending (signal_proc_init zero_proc) zero_proc SIGCHLD 0 H Hs) as (_ & _ & Hm & _).
  exact Hm.
Defined.

End SigDemo.
