(* ===== verification/Sched.v ===== *)
(** * The scheduler (src/kernel/proc/proc.c, SCHED_MLFQ build)

    Multi-level feedback queues over [proc[]], round robin within a level,
    and the sleep/wakeup primitives.  A context switch splits a function in
    two: [f_enter] runs up to [swtch] and [f_resume] from its return on;
    [run_proc_start] and [run_proc_end] are the two sides in the scheduler's
    thread.  The process lock is held across the switch, as in the code. *)

From S2P Require Import Prelude Riscv Memory Spinlock Kalloc Vm Proctab Signal.
Import Hart.

Definition mlfq_time_slices : list Z := [1; 2; 4; 8].

(** Executed for its effect on every slot, under the slot's lock. *)
Definition locked_all (f : proc -> proc) : M pst unit :=
  for_procs (A := unit) (fun i => plock i ;; setp i f ;; punlock i ;; ret None) ;; ret tt.

(** [procinit], less [kvminithart]. *)
Definition procinit : M pst unit :=
  modify (set_ps_cpus (replicate (Z.to_nat NCPU) (Cpu None false))) ;;
  modify (set_ps_procs (replicate (Z.to_nat NPROC) zero_proc)) ;;
  modify (set_ps_mlfq_rr_next (replicate (Z.to_nat MLFQ_LEVELS) 0)) ;;
  modify (set_ps_mlfq_last_boost_tick 0) ;;
  zoom (initlock L_pid) ;;
  for_procs (A := unit) (fun i =>
    setp i (fun p => set_p_last_wakeup_reason WAKEUP_NORMAL
      (set_p_queue_level MLFQ_TOP_LEVEL (set_p_state UNUSED p))) ;;
    zoom (initlock (L_proc i)) ;;
    ret None) ;;
  ret tt.

Definition allocpid : M pst Z :=
  zoom (acquire L_pid) ;;
  pid <- gets ps_nextpid ;;
  modify (set_ps_nextpid (s32 (pid + 1))) ;;
  zoom (release L_pid) ;;
  ret pid.

Definition proc_num : M pst Z :=
  gets (fun s => Z.of_nat (length (filter (fun p => p_state p <> UNUSED) (ps_procs s)))).

Definition wait_one (p : proc) : proc :=
  if is_state RUNNABLE p then set_p_wait_ticks (u32 (p_wait_ticks p + 1)) p else p.
Definition account_runnable_wait : M pst unit := locked_all wait_one.

Definition boost_one (p : proc) : proc :=
  if negb (is_state UNUSED p) then
    set_p_boost_count (u32 (p_boost_count p + 1)) (set_p_wait_ticks 0
      (set_p_sched_ticks 0 (set_p_queue_level MLFQ_TOP_LEVEL p)))
  else p.

Definition mlfq_boost_if_needed : M pst unit :=
  s <- get ;;
  if u32 (ps_ticks s - ps_mlfq_last_boost_tick s) <? MLFQ_BOOST_INTERVAL then ret tt
  else
    modify (set_ps_mlfq_last_boost_tick (ps_ticks s)) ;;
    locked_all boost_one.

Definition promote_one (reason : Z) (p : proc) : proc :=
  let p := if MLFQ_TOP_LEVEL <? p_queue_level p then set_p_queue_level (p_queue_level p - 1) p else p in
  let p := set_p_sched_ticks 0 p in
  if reason =? WAKEUP_IO then set_p_io_wakeup_count (u32 (p_io_wakeup_count p + 1)) p
  else set_p_device_wakeup_count (u32 (p_device_wakeup_count p + 1)) p.

(** [for (i = 0; i < NCPU; i++)]: ask for a reschedule of every CPU that runs
    a process of lower priority than [level]. *)
Fixpoint request_resched (n : nat) (i level : Z) : M pst unit :=
  match n with
  | O => ret tt
  | S n' =>
      s <- get ;;
      let c := ps_cpus s !!! Z.to_nat i in
      when (match c_proc c with
            | Some cur => is_state RUNNING (proc_at s cur) && (level <? p_queue_level (proc_at s cur))
            | None => false
            end)
        (modify (fun s => set_ps_mlfq_preempt_count (u32 (ps_mlfq_preempt_count s + 1))
           (set_ps_cpus (<[Z.to_nat i := Cpu (c_proc c) true]> (ps_cpus s)) s))) ;;
      request_resched n' (i + 1) level
  end.

Definition mlfq_promote_on_wakeup (i reason : Z) : M pst unit :=
  if (reason =? WAKEUP_IO) || (reason =? WAKEUP_DEVICE) then
    setp i (promote_one reason) ;;
    p <- getp i ;;
    request_resched (Z.to_nat NCPU) 0 (p_queue_level p)
  else ret tt.

Definition sched_on_yield (p : proc) : proc :=
  let p := set_p_preempt_count (u32 (p_preempt_count p + 1))
             (set_p_total_run_ticks (u32 (p_total_run_ticks p + 1)) p) in
  let p := set_p_sched_ticks (p_sched_ticks p + 1) p in
  if mlfq_time_slices !!! Z.to_nat (p_queue_level p) <=? p_sched_ticks p then
    let p := if p_queue_level p <? MLFQ_BOTTOM_LEVEL then set_p_queue_level (p_queue_level p + 1) p else p in
    set_p_sched_ticks 0 p
  else p.

(** The scan of one level from its cursor: [for (i = 0; i < NPROC; i++)]. *)
Fixpoint pick_level (n : nat) (level i : Z) : M pst (option Z) :=
  match n with
  | O => ret None
  | S n' =>
      idx <- gets (fun s => (ps_mlfq_rr_next s !!! Z.to_nat level + i) mod NPROC) ;;
      plock idx ;;
      p <- getp idx ;;
      if is_state RUNNABLE p && (p_queue_level p =? level) then
        modify (fun s => set_ps_mlfq_rr_next
          (<[Z.to_nat level := (idx + 1) mod NPROC]> (ps_mlfq_rr_next s)) s) ;;
        setp idx (set_p_wait_ticks 0) ;;
        ret (Some idx)
      else punlock idx ;; pick_level n' level (i + 1)
  end.

Fixpoint pick_levels (n : nat) (level : Z) : M pst (option Z) :=
  match n with
  | O => ret None
  | S n' =>
      r <- pick_level (Z.to_nat NPROC) level 0 ;;
      match r with
      | Some idx => ret (Some idx)
      | None => pick_levels n' (level + 1)
      end
  end.

(** Returns with the lock of the chosen process held. *)
Definition pick_next_proc_mlfq : M pst (option Z) :=
  mlfq_boost_if_needed ;;
  pick_levels (Z.to_nat MLFQ_LEVELS) MLFQ_TOP_LEVEL.

Definition pick_next_proc : M pst (option Z) := pick_next_proc_mlfq.

Definition set_cpu (c : Z) (f : cpu -> cpu) : M pst unit :=
  modify (fun s => set_ps_cpus (<[Z.to_nat c := f (ps_cpus s !!! Z.to_nat c)]> (ps_cpus s)) s).

(** [run_proc] before and after [swtch]. *)
Definition run_proc_start (c i : Z) : M pst unit :=
  setp i (set_p_state RUNNING) ;;
  set_cpu c (fun x => Cpu (Some i) (c_need_resched x)).
Definition run_proc_end (c : Z) : M pst unit :=
  set_cpu c (fun x => Cpu None (c_need_resched x)).

(** One round of [scheduler] on hart [c], up to the switch to the process it
    returns; [scheduler_after] is the rest of that round. *)
Definition scheduler_round (c : Z) : M pst (option Z) :=
  modify (fun s => lput (intr_on (lget s)) s) ;;
  account_runnable_wait ;;
  p <- pick_next_proc ;;
  match p with
  | Some i =>
      set_cpu c (fun x => Cpu (c_proc x) false) ;;
      run_proc_start c i ;;
      ret (Some i)
  | None => modify (fun s => lput (intr_on (lget s)) s) ;; ret None
  end.
Definition scheduler_after (c i : Z) : M pst unit :=
  run_proc_end c ;; punlock i.

(** [sched] up to [swtch]: its checks, and the saved [intena]. *)
Definition sched_enter (i : Z) : M pst bool :=
  s <- get ;;
  let l : lkst := lget s in
  if negb (holding (L_proc i) l) then panic "sched p->lock"
  else if negb (noff l =? 1) then panic "sched locks"
  else if is_state RUNNING (proc_at s i) then panic "sched running"
  else if intr_get l then panic "sched interruptible"
  else ret (intena l).
Definition sched_resume (saved : bool) : M pst unit :=
  modify (fun s => lput (Lkst (noff (lget s)) saved (sie (lget s)) (held (lget s))) s).

Definition yield_enter (i : Z) : M pst bool :=
  plock i ;;
  setp i sched_on_yield ;;
  setp i (set_p_state RUNNABLE) ;;
  sched_enter i.
Definition yield_resume (i : Z) (saved : bool) : M pst unit :=
  sched_resume saved ;; punlock i.

(** The lock operations by which [sleep_on] passes from the lock of its caller
    to that of the process, in the order of the code. *)
Inductive lockop := LAcq (l : lockid) | LRel (l : lockid).
Definition lockop_run (o : lockop) : M pst unit :=
  match o with LAcq l => zoom (acquire l) | LRel l => zoom (release l) end.
Fixpoint lock_ops (os : list lockop) : M pst unit :=
  match os with
  | [] => ret tt
  | o :: os' => lockop_run o ;; lock_ops os'
  end.
Definition sleep_handover (i : Z) (lk : lockid) : list lockop :=
  [LAcq (L_proc i); LRel lk].

(** [sleep_on] up to [swtch]: [inr] when the process sleeps, [inl] with the
    result when it was interrupted before. *)
Definition sleep_on_enter (i : Z) (ch : chan) (lk : lockid) (interruptible : bool) : M pst (Z + bool) :=
  let other := negb (bool_decide (lk = L_proc i)) in
  when other (lock_ops (sleep_handover i lk)) ;;
  p <- getp i ;;
  if interruptible && signal_pending_locked p then
    when other (punlock i ;; zoom (acquire lk)) ;;
    ret (inl (-1))
  else
    setp i (fun p => set_p_sched_ticks 0 (set_p_state SLEEPING
      (set_p_interruptible_sleep interruptible (set_p_chan ch p)))) ;;
    saved <- sched_enter i ;;
    ret (inr saved).
Definition sleep_on_resume (i : Z) (lk : lockid) (interruptible saved : bool) : M pst Z :=
  let other := negb (bool_decide (lk = L_proc i)) in
  sched_resume saved ;;
  setp i (fun p => set_p_interruptible_sleep false (set_p_chan NoChan p)) ;;
  p <- getp i ;;
  let interrupted := interruptible && signal_pending_locked p in
  when other (punlock i ;; zoom (acquire lk)) ;;
  ret (if interrupted then -1 else 0).

Definition wakeup_one (ch : chan) (reason i : Z) : M pst unit :=
  plock i ;;
  p <- getp i ;;
  when (is_state SLEEPING p && bool_decide (p_chan p = ch))
    (setp i (fun p => set_p_last_wakeup_reason reason (set_p_state RUNNABLE p)) ;;
     mlfq_promote_on_wakeup i reason) ;;
  punlock i.

Definition wakeup_reason (ch : chan) (reason : Z) : M pst unit :=
  for_procs (A := unit) (fun i => wakeup_one ch reason i ;; ret None) ;; ret tt.

Definition wakeup (ch : chan) : M pst unit := wakeup_reason ch WAKEUP_NORMAL.

(** [wakeup1 p]: the lock of [p] must be held. *)
Definition wakeup1 (i : Z) : M pst unit :=
  s <- get ;;
  if negb (holding (L_proc i) (lget s)) then panic "wakeup1"
  else when (bool_decide (p_chan (proc_at s i) = ProcChan i) && is_state SLEEPING (proc_at s i))
         (setp i (set_p_state RUNNABLE)).

(** ** Process groups and orphans *)

Definition proc_setpgid (caller pid pgid : Z) : M pst Z :=
  c <- getp caller ;;
  let target_pid := if pid =? 0 then p_pid c else pid in
  if (target_pid <=? 0) || (pgid <? 0) then ret (-1)
  else
    r <- for_procs (fun i =>
           plock i ;;
           p <- getp i ;;
           if negb (is_state UNUSED p) && (p_pid p =? target_pid) then
             if negb (i =? caller) && negb (bool_decide (p_parent p = Some caller)) then
               punlock i ;; ret (Some (-1))
             else
               setp i (fun p => set_p_pgid (if pgid =? 0 then p_pid p else pgid) p) ;;
               punlock i ;;
               ret (Some 0)
           else punlock i ;; ret None) ;;
    ret (match r with Some x => x | None => -1 end).

Definition proc_getpgrp (i : Z) : M pst Z :=
  plock i ;;
  p <- getp i ;;
  punlock i ;;
  ret (p_pgid p).

Definition reparent (i : Z) : M pst unit :=
  for_procs (A := unit) (fun j =>
    pp <- getp j ;;
    when (bool_decide (p_parent pp = Some i))
      (plock j ;;
       init <- gets ps_initproc ;;
       setp j (set_p_parent init) ;;
       punlock j) ;;
    ret None) ;;
  ret tt.
