(* ===== verification/SchedProps.v ===== *)
(** * Correctness of the scheduler

    What the multi-level feedback queues of Sched.v promise: the choice of
    the next process, the bounds of levels and time slices, demotion after a
    used-up slice, and sleep/wakeup without lost wakeups. *)

From S2P Require Import Prelude Riscv Memory Spinlock Kalloc Vm VmTree VmUnmap VmCheck VmProps Proctab Signal Sched.
Import Hart.

(** ** Scans of the whole table *)

(** [s'] is [s] with another process table, up to [intena]. *)
Lemma psame_procs s s' P : psame s s' -> ps_procs s' = P -> s' = set_ps_procs P (lput (lk_of s') s).
Proof. by intros [_ ->] <-. Qed.

Lemma locked_all_wp f s :
  pgood s -> wp (locked_all f) (fun _ s' => psame s s' /\ pgood s' /\ ps_procs s' = f <$> ps_procs s) s.
Proof.
  intros Hg. unfold locked_all. wp_step.
  eapply wp_mono; [apply (scan_map (fun s' => psame s s') f); [|exact Hg|reflexivity]|].
  - intros i s1 Hi Hg1 Hs1. wp_step. apply wp_plock; [apply Hg1|]. intros l Hl. wp_step. wp_step. wp_step. wp_step.
    eapply wp_punlock; [apply Hg1|apply Hg1|exact Hl|]. intros l' Hl'. wp_go.
    set (s2 := lput l' _). assert (Hp : psame s1 s2) by (split; [exact Hl'|reflexivity]).
    split_and!; [done| | |done].
    + eapply psame_good; [exact Hp| |exact Hg1]. exact (length_upd_proc i f s1).
    + etrans; [exact Hs1|exact Hp].
  - intros r s' (_ & H1 & H2 & H3). wp_go. done.
Qed.

(** ** Choosing the next process *)

Definition cursor (s : pst) (level : Z) : Z := ps_mlfq_rr_next s !!! Z.to_nat level.
Definition cand (s : pst) (level idx : Z) : bool :=
  is_state RUNNABLE (proc_at s idx) && (p_queue_level (proc_at s idx) =? level).

(** The state after [idx] was chosen at [level]: its lock is held on top of
    the locks held before, its waiting time is reset and the cursor of the
    level is behind it. *)
Definition picked (level idx : Z) (s s' : pst) : Prop :=
  exists l0 l, lk_same (lk_of s) l0 /\ taken (L_proc idx) l0 l /\
    s' = lput l (upd_proc idx (set_p_wait_ticks 0)
           (set_ps_mlfq_rr_next (<[Z.to_nat level := (idx + 1) mod NPROC]> (ps_mlfq_rr_next s)) s)).

(** [k] is the first offset from [i] on whose slot is a candidate. *)
Definition first_cand (s : pst) (level i k : Z) : Prop :=
  i <= k /\ cand s level ((cursor s level + k) mod NPROC) = true /\
  forall k', i <= k' < k -> cand s level ((cursor s level + k') mod NPROC) = false.

Lemma relock s l : lk_same (lk_of s) l -> pgood s -> pgood (lput l s).
Proof.
  intros Hl Hg. apply (psame_good s); [|reflexivity|exact Hg]. split; [exact Hl|reflexivity].
Qed.

Lemma pick_level_wp n level : forall i s, pgood s ->
  wp (pick_level n level i) (fun r s' =>
    match r with
    | None => (exists l, lk_same (lk_of s) l /\ s' = lput l s) /\
        forall k, i <= k < i + Z.of_nat n -> cand s level ((cursor s level + k) mod NPROC) = false
    | Some idx => exists k, k < i + Z.of_nat n /\ idx = (cursor s level + k) mod NPROC /\
        first_cand s level i k /\ picked level idx s s'
    end) s.
Proof.
  induction n as [|n IH]; intros i s Hg; cbn [pick_level].
  - wp_go. split; [|lia]. exists (lk_of s). split; [done|]. by destruct s as [[] ? ? ? ? ? ? ? ?].
  - wp_step. wp_step. fold (cursor s level). set (idx := (cursor s level + i) mod NPROC).
    wp_step. apply wp_plock; [apply Hg|]. intros l Hl. wp_step. wp_step. wp_step.
    change (proc_at (lput l s) idx) with (proc_at s idx). fold (cand s level idx).
    destruct (cand s level idx) eqn:E.
    + wp_go. exists i. split; [lia|]. split; [done|]. split; [split; [lia|]; split; [exact E|lia]|].
      exists (lk_of s), l. done.
    + wp_step. eapply wp_punlock; [apply Hg|apply Hg|exact Hl|]. intros l' Hl'.
      change (lput l' (lput l s)) with (lput l' s).
      eapply wp_mono; [apply IH, relock; [exact Hl'|exact Hg]|].
      intros [idx'|] s'.
      * intros (k & Hk & -> & (H1 & H2 & H3) & l0 & l1 & A & B & ->). exists k. split; [lia|]. split; [done|].
        split; [split; [lia|]; split; [exact H2|]|].
        -- intros k' Hk'. destruct (Z.eq_dec k' i) as [->|]; [exact E|]. apply H3. lia.
        -- exists l0, l1. split; [etrans; [exact Hl'|exact A]|]. done.
      * intros [(l1 & A & ->) H]. split; [exists l1; split; [etrans; [exact Hl'|exact A]|done]|].
        intros k Hk. destruct (Z.eq_dec k i) as [->|]; [exact E|]. apply H. lia.
Qed.

Lemma pick_levels_wp n : forall level s, pgood s ->
  wp (pick_levels n level) (fun r s' =>
    match r with
    | None => (exists l, lk_same (lk_of s) l /\ s' = lput l s) /\
        forall L k, level <= L < level + Z.of_nat n -> 0 <= k < NPROC ->
          cand s L ((cursor s L + k) mod NPROC) = false
    | Some idx => exists L k, level <= L < level + Z.of_nat n /\ k < NPROC /\
        idx = (cursor s L + k) mod NPROC /\ first_cand s L 0 k /\ picked L idx s s' /\
        forall L' k', level <= L' < L -> 0 <= k' < NPROC -> cand s L' ((cursor s L' + k') mod NPROC) = false
    end) s.
Proof.
  induction n as [|n IH]; intros level s Hg; cbn [pick_levels].
  - wp_go. split; [|lia]. exists (lk_of s). split; [done|]. by destruct s as [[] ? ? ? ? ? ? ? ?].
  - wp_step. eapply wp_mono; [by apply pick_level_wp|]. intros [idx|] s1.
    + intros (k & Hk & Hi & Hf & Hp). wp_go. exists level, k. change (Z.of_nat (Z.to_nat NPROC)) with NPROC in Hk.
      repeat (split; [done || lia|]). lia.
    + intros [(l & Hl & ->) Hnone]. change (Z.of_nat (Z.to_nat NPROC)) with NPROC in Hnone.
      eapply wp_mono; [apply IH, relock; [exact Hl|exact Hg]|]. intros [idx|] s'.
      * intros (L & k & HL & Hk & -> & Hf & (l0 & l1 & A & B & ->) & Hno). exists L, k.
        split; [lia|]. split; [done|]. split; [done|]. split; [exact Hf|].
        split; [exists l0, l1; split; [etrans; [exact Hl|exact A]|done]|].
        intros L' k' HL' Hk'. destruct (Z.eq_dec L' level) as [->|]; [apply Hnone; lia|]. apply Hno; lia.
      * intros [(l1 & A & ->) H]. split; [exists l1; split; [etrans; [exact Hl|exact A]|done]|].
        intros L k HL Hk. destruct (Z.eq_dec L level) as [->|]; [apply Hnone; lia|]. apply H; lia.
Qed.

(** What [mlfq_boost_if_needed] leaves: every slot in use at the top level
    when the interval has passed, otherwise no change. *)
Definition boosted (s : pst) : pst :=
  if u32 (ps_ticks s - ps_mlfq_last_boost_tick s) <? MLFQ_BOOST_INTERVAL then s
  else set_ps_procs (boost_one <$> ps_procs s) (set_ps_mlfq_last_boost_tick (ps_ticks s) s).

Lemma boost_wp s : pgood s ->
  wp mlfq_boost_if_needed (fun _ s' => exists l, lk_same (lk_of s) l /\ s' = lput l (boosted s)) s.
Proof.
  intros Hg. unfold mlfq_boost_if_needed, boosted. wp_step. wp_step. case_bool as E.
  - wp_go. exists (lk_of s). split; [done|]. by destruct s as [[] ? ? ? ? ? ? ? ?].
  - wp_step. wp_step. eapply wp_mono; [apply locked_all_wp; split; apply Hg|].
    intros [] s' ([H1 H2] & _ & H3). exists (lk_of s'). split; [exact H1|]. rewrite H2, H3. done.
Qed.

Lemma boosted_at s i : pgood s -> 0 <= i < NPROC ->
  proc_at (boosted s) i = proc_at s i \/ proc_at (boosted s) i = boost_one (proc_at s i).
Proof.
  intros Hg Hi. unfold boosted. case_bool as E; [by left|]. right. unfold proc_at. simpl ps_procs.
  destruct (lookup_lt_is_Some_2 (ps_procs s) (Z.to_nat i)) as [x Hx]; [rewrite (pg_len _ Hg); lia|].
  rewrite (list_lookup_total_correct _ _ _ Hx). apply list_lookup_total_correct. by rewrite list_lookup_fmap, Hx.
Qed.

Lemma boosted_good s : pgood s -> pgood (boosted s).
Proof.
  intros Hg. unfold boosted. case_bool as E; [done|]. split; [apply Hg|apply Hg|]. simpl. rewrite length_fmap. apply Hg.
Qed.

(** Queue levels index [mlfq_rr_next] and [mlfq_time_slices]. *)
Definition levels_ok (s : pst) : Prop :=
  forall i, 0 <= i < NPROC -> MLFQ_TOP_LEVEL <= p_queue_level (proc_at s i) <= MLFQ_BOTTOM_LEVEL.

Lemma boosted_levels s : pgood s -> levels_ok s -> levels_ok (boosted s).
Proof.
  intros Hg H i Hi. specialize (H i Hi). destruct (boosted_at s i Hg Hi) as [->| ->]; [done|].
  unfold boost_one. case_bool as E; simpl; [unfold MLFQ_TOP_LEVEL, MLFQ_BOTTOM_LEVEL, MLFQ_LEVELS; lia|done].
Qed.

Lemma boosted_state s i : pgood s -> 0 <= i < NPROC -> p_state (proc_at (boosted s) i) = p_state (proc_at s i).
Proof. intros Hg Hi. destruct (boosted_at s i Hg Hi) as [->| ->]; [done|]. unfold boost_one. by case_bool as E. Qed.

(** The distance of slot [j] from a level's cursor, in scan order. *)
Definition dist (s : pst) (level j : Z) : Z := (j - cursor s level) mod NPROC.

Lemma dist_range s level j : 0 <= dist s level j < NPROC.
Proof. by apply Z.mod_pos_bound. Qed.

Lemma dist_slot s level j : 0 <= j < NPROC -> (cursor s level + dist s level j) mod NPROC = j.
Proof. unfold dist, NPROC. intros H. dlia. Qed.

Lemma slot_dist s level k : 0 <= k < NPROC -> dist s level ((cursor s level + k) mod NPROC) = k.
Proof. unfold dist, NPROC. intros H. dlia. Qed.

Lemma cand_runnable s level j : cand s level j = true <-> p_state (proc_at s j) = RUNNABLE /\ p_queue_level (proc_at s j) = level.
Proof. unfold cand, is_state. rewrite andb_true_iff, Z.eqb_eq, bool_decide_eq_true. done. Qed.

Lemma pick_wp s : pgood s -> levels_ok s ->
  wp pick_next_proc (fun r s' =>
    match r with
    | None => (forall i, 0 <= i < NPROC -> p_state (proc_at s i) <> RUNNABLE) /\
        ps_procs s' = ps_procs (boosted s) /\ lk_same (lk_of s) (lk_of s')
    | Some idx => 0 <= idx < NPROC /\ p_state (proc_at s idx) = RUNNABLE /\
        (let level := p_queue_level (proc_at (boosted s) idx) in
         (forall j, 0 <= j < NPROC -> p_state (proc_at s j) = RUNNABLE ->
            level < p_queue_level (proc_at (boosted s) j) \/
            (level = p_queue_level (proc_at (boosted s) j) /\ dist s level idx <= dist s level j)) /\
         picked level idx (boosted s) s')
    end) s.
Proof.
  intros Hg Hl. unfold pick_next_proc, pick_next_proc_mlfq. wp_step. eapply wp_mono; [by apply boost_wp|].
  intros [] s1 (l & Hlk & ->). set (b := boosted s) in *.
  assert (Hgb : pgood b) by by apply boosted_good.
  assert (Hlb : levels_ok b) by by apply boosted_levels.
  assert (Hcur : forall L, cursor b L = cursor s L) by (intros L; unfold b, boosted, cursor; by case_bool as E).
  assert (Hlkb : lk_of b = lk_of s) by (unfold b, boosted; by case_bool as E).
  assert (Hst : forall i, 0 <= i < NPROC -> p_state (proc_at s i) = p_state (proc_at b i))
    by (intros i Hi; symmetry; by apply boosted_state).
  clearbody b. rewrite <- Hlkb in Hlk.
  eapply wp_mono; [apply pick_levels_wp, relock; [exact Hlk|exact Hgb]|].
  intros [idx|] s'.
  - intros (L & k & HL & Hk & -> & (H0 & Hc & Hno) & (l0 & l1 & A & B & ->) & Hlow).
    change (cursor (lput l b)) with (cursor b) in *. change (cand (lput l b)) with (cand b) in *.
    set (idx := (cursor b L + k) mod NPROC) in *.
    assert (Hi : 0 <= idx < NPROC) by (apply Z.mod_pos_bound; unfold NPROC; lia).
    apply cand_runnable in Hc as [Hr HcL]. split; [done|]. split; [by rewrite Hst|]. rewrite HcL. split.
    + intros j Hj Hrj. rewrite Hst in Hrj by done. pose proof (Hlb j Hj) as HLj.
      set (Lj := p_queue_level (proc_at b j)) in *.
      assert (Hcj : cand b Lj j = true) by by apply cand_runnable.
      destruct (Z.lt_trichotomy L Lj) as [Hlt|[Heq|Hgt]]; [by left| |].
      * right. split; [done|]. rewrite Heq in *. destruct (Z_le_gt_dec (dist s Lj idx) (dist s Lj j)) as [|Hgt]; [done|].
        exfalso. unfold dist in Hgt. rewrite <- Hcur in Hgt. fold (dist b Lj idx) (dist b Lj j) in Hgt.
        assert (Hdk : dist b Lj idx = k) by (unfold idx; rewrite Heq; apply slot_dist; lia).
        assert (Hf : cand b Lj ((cursor b Lj + dist b Lj j) mod NPROC) = false).
        { apply Hno. rewrite <- Hdk. pose proof (dist_range b Lj j). lia. }
        rewrite dist_slot in Hf by done. congruence.
      * exfalso. assert (Hf : cand b Lj ((cursor b Lj + dist b Lj j) mod NPROC) = false).
        { apply Hlow; [unfold MLFQ_TOP_LEVEL in *; lia|apply dist_range]. }
        rewrite dist_slot in Hf by done. congruence.
    + exists l0, l1. split; [etrans; [exact Hlk|exact A]|done].
  - intros [(l1 & A & ->) H].
    change (cursor (lput l b)) with (cursor b) in *. change (cand (lput l b)) with (cand b) in *. split.
    + intros i Hi Hr. rewrite Hst in Hr by done. pose proof (Hlb i Hi) as HLi.
      assert (Hf : cand b (p_queue_level (proc_at b i)) ((cursor b (p_queue_level (proc_at b i)) + dist b (p_queue_level (proc_at b i)) i) mod NPROC) = false).
      { apply H; [unfold MLFQ_TOP_LEVEL, MLFQ_BOTTOM_LEVEL, MLFQ_LEVELS in *; simpl; lia|apply dist_range]. }
      rewrite dist_slot in Hf by done. assert (cand b (p_queue_level (proc_at b i)) i = true) by by apply cand_runnable. congruence.
    + split; [done|]. rewrite <- Hlkb. etrans; [exact Hlk|exact A].
Qed.

(** ** Waking sleepers *)

(** [wakeup_reason] on one slot. *)
Definition woken (ch : chan) (reason : Z) (p : proc) : proc :=
  if is_state SLEEPING p && bool_decide (p_chan p = ch) then
    let p := set_p_last_wakeup_reason reason (set_p_state RUNNABLE p) in
    if (reason =? WAKEUP_IO) || (reason =? WAKEUP_DEVICE) then promote_one reason p else p
  else p.

(** States that differ in the CPUs' [need_resched] and the count of
    preemption requests only. *)
Definition resched_only (s s' : pst) : Prop :=
  exists cs n, s' = set_ps_mlfq_preempt_count n (set_ps_cpus cs s) /\ (c_proc <$> cs) = (c_proc <$> ps_cpus s).

Lemma resched_refl s : resched_only s s.
Proof. exists (ps_cpus s), (ps_mlfq_preempt_count s). split; [by destruct s|done]. Qed.

Lemma request_resched_wp n : forall i level s,
  wp (request_resched n i level) (fun _ s' => resched_only s s') s.
Proof.
  induction n as [|n IH]; intros i level s; cbn [request_resched]; [wp_go; apply resched_refl|].
  wp_step. wp_step. wp_step. wp_step.
  - wp_step. eapply wp_mono; [apply IH|]. intros [] s' (cs & m & -> & Hcs). exists cs, m. split; [done|].
    rewrite Hcs. simpl. rewrite list_fmap_insert. simpl. apply list_insert_id'. intros Hlt.
    rewrite list_lookup_fmap, list_lookup_lookup_total_lt; [done|]. by rewrite length_fmap in Hlt.
  - apply IH.
Qed.

Definition wake_frame (s s' : pst) : Prop :=
  lk_same (lk_of s) (lk_of s') /\
  resched_only (set_ps_procs (ps_procs s') (lput (lk_of s') s)) s'.

#[local] Instance wake_frame_preorder : PreOrder wake_frame.
Proof.
  split.
  - intros s. split; [done|]. exists (ps_cpus s), (ps_mlfq_preempt_count s). split; [by destruct s as [[] ? ? ? ? ? ? ? ?]|done].
  - intros s1 s2 s3 [A1 (cs & n & A2 & A3)] [B1 (cs' & n' & B2 & B3)]. split; [by etrans|].
    exists cs', n'. split; [|rewrite B3, A2; simpl; exact A3].
    rewrite B2 at 1. rewrite A2. reflexivity.
Qed.

Lemma wakeup_one_wp ch reason i s : pgood s -> 0 <= i < NPROC ->
  wp (wakeup_one ch reason i) (fun _ s' => pgood s' /\ wake_frame s s' /\
    ps_procs s' = <[Z.to_nat i := woken ch reason (proc_at s i)]> (ps_procs s)) s.
Proof.
  intros Hg Hi. unfold wakeup_one.
  assert (Hend : forall l s1, taken (L_proc i) (lk_of s) l ->
    resched_only (lput l (upd_proc i (woken ch reason) s)) s1 ->
    wp (punlock i) (fun _ s' => pgood s' /\ wake_frame s s' /\
      ps_procs s' = <[Z.to_nat i := woken ch reason (proc_at s i)]> (ps_procs s)) s1).
  { intros l s1 Hl (cs & n & -> & Hcs). eapply wp_punlock; [apply Hg|apply Hg|exact Hl|]. intros l' Hl'.
    split; [split; [eapply lk_same_ok; [exact Hl'|apply Hg]| |]|].
    - intros j. pose proof Hl' as (_ & _ & Hh & _). simpl. rewrite Hh. apply Hg.
    - simpl. rewrite length_insert. apply Hg.
    - split; [|done]. split; [exact Hl'|]. exists cs, n. split; [done|]. exact Hcs. }
  wp_step. apply wp_plock; [apply Hg|]. intros l Hl. wp_step. wp_step. wp_step. wp_step.
  change (proc_at (lput l s) i) with (proc_at s i).
  assert (Hlen : (Z.to_nat i < length (ps_procs s))%nat) by (rewrite (pg_len _ Hg); lia).
  destruct (is_state SLEEPING (proc_at s i) && bool_decide (p_chan (proc_at s i) = ch)) eqn:E.
  - wp_step; [|congruence]. wp_step. wp_step. unfold mlfq_promote_on_wakeup.
    set (f := fun p => set_p_last_wakeup_reason reason (set_p_state RUNNABLE p)).
    destruct ((reason =? WAKEUP_IO) || (reason =? WAKEUP_DEVICE)) eqn:Er.
    + wp_go.
      eapply wp_mono; [apply request_resched_wp|]. intros [] s1 Hs1. apply (Hend l); [exact Hl|].
      assert (Heq : upd_proc i (promote_one reason) (upd_proc i f (lput l s)) = lput l (upd_proc i (woken ch reason) s)).
      { change (upd_proc i f (lput l s)) with (lput l (upd_proc i f s)).
        change (upd_proc i (promote_one reason) (lput l (upd_proc i f s))) with (lput l (upd_proc i (promote_one reason) (upd_proc i f s))).
        rewrite upd_proc_twice by (done || apply Hg). f_equal. unfold upd_proc, woken. rewrite E, Er. done. }
      rewrite Heq in Hs1. exact Hs1.
    + wp_step. apply (Hend l); [exact Hl|].
      assert (Heq : upd_proc i f (lput l s) = lput l (upd_proc i (woken ch reason) s)).
      { unfold upd_proc, woken. rewrite E, Er. done. }
      rewrite Heq. apply resched_refl.
  - wp_step; [congruence|]. apply (Hend l); [exact Hl|].
    assert (Heq : lput l s = lput l (upd_proc i (woken ch reason) s)).
    { f_equal. rewrite <- (upd_proc_id i s) at 1 by (done || apply Hg). unfold upd_proc, woken. by rewrite E. }
    rewrite Heq. apply resched_refl.
Qed.

Lemma wakeup_wp ch reason s : pgood s ->
  wp (wakeup_reason ch reason) (fun _ s' => pgood s' /\ wake_frame s s' /\ ps_procs s' = woken ch reason <$> ps_procs s) s.
Proof.
  intros Hg. unfold wakeup_reason. wp_step.
  eapply wp_mono; [apply (scan_map (fun s' => wake_frame s s') (woken ch reason)); [|exact Hg|reflexivity]|].
  - intros i s1 Hi Hg1 Hf. wp_step. eapply wp_mono; [by apply wakeup_one_wp|]. intros [] s2 (H1 & H2 & H3). wp_go.
    split_and!; [done|done| |done]. by etrans.
  - intros r s' (_ & H1 & H2 & H3). wp_go. done.
Qed.

(** ** Properties *)

(** C23: the scheduler's choice.  [pick_next_proc] always returns.  It returns
    no process exactly when none is runnable; otherwise the process it
    returns is runnable, no runnable process has a better (smaller) queue
    level after the periodic boost, and among the runnable processes of its
    level it is the one nearest to the level's cursor in scan order.  It is
    returned with its lock held, its waiting time reset and the cursor just
    behind it; nothing else changed but for the boost. *)
Theorem pick_next_proc_correct s :
  pgood s -> levels_ok s ->
  exists r s', pick_next_proc s = Ok r s' /\
    match r with
    | None => (forall i, 0 <= i < NPROC -> p_state (proc_at s i) <> RUNNABLE) /\
        ps_procs s' = ps_procs (boosted s) /\ lk_same (lk_of s) (lk_of s')
    | Some idx => 0 <= idx < NPROC /\ p_state (proc_at s idx) = RUNNABLE /\
        (let level := p_queue_level (proc_at (boosted s) idx) in
         (forall j, 0 <= j < NPROC -> p_state (proc_at s j) = RUNNABLE ->
            level < p_queue_level (proc_at (boosted s) j) \/
            (level = p_queue_level (proc_at (boosted s) j) /\ dist s level idx <= dist s level j)) /\
         picked level idx (boosted s) s')
    end.
Proof. intros Hg Hl. exact (wp_Ok _ _ _ (pick_wp s Hg Hl)). Qed.

Lemma dist_advance (c i j : Z) :
  0 <= i < NPROC -> 0 <= j < NPROC -> i <> j -> (i - c) mod NPROC <= (j - c) mod NPROC ->
  (j - (i + 1) mod NPROC) mod NPROC < (j - c) mod NPROC.
Proof. unfold NPROC. intros. dlia. Qed.

(** Round robin is fair within a level.  When a runnable process is
    passed over for another one of its own level, it stays runnable in that
    level and its distance from the level's cursor gets strictly smaller, so
    that it is passed over fewer than [NPROC] times in a row. *)
Theorem round_robin_bounded_wait s idx s' j :
  pgood s -> levels_ok s -> length (ps_mlfq_rr_next s) = Z.to_nat MLFQ_LEVELS ->
  pick_next_proc s = Ok (Some idx) s' ->
  0 <= j < NPROC -> j <> idx ->
  let level := p_queue_level (proc_at (boosted s) idx) in
  cand (boosted s) level j = true ->
  cand s' level j = true /\ 0 <= dist s' level j < dist s level j /\ dist s level j < NPROC.
Proof.
  intros Hg Hl Hrr Hpick Hj Hne level Hc. pose proof (pick_wp s Hg Hl) as Hwp.
  unfold wp in Hwp. rewrite Hpick in Hwp. destruct Hwp as (Hi & _ & Hbest & (l0 & l & _ & _ & ->)).
  fold level in Hbest |- *. apply cand_runnable in Hc as [Hr HL]. rewrite boosted_state in Hr by done.
  destruct (Hbest j Hj Hr) as [Hlt|[_ Hd]]; [lia|].
  pose proof (boosted_levels s Hg Hl idx Hi) as HLr. fold level in HLr. pose proof (boosted_good s Hg) as Hgb.
  assert (Hcur : ps_mlfq_rr_next (boosted s) = ps_mlfq_rr_next s) by (unfold boosted; by case_bool as E).
  split.
  - apply cand_runnable. unfold proc_at, upd_proc. simpl ps_procs. rewrite proc_at_insert by (done || lia || apply Hgb).
    change (proc_at (set_ps_mlfq_rr_next _ (boosted s)) j) with (proc_at (boosted s) j).
    destruct (Z.eqb_spec idx j) as [|_]; [congruence|]. by rewrite boosted_state.
  - unfold dist at 1 2, cursor. simpl ps_mlfq_rr_next. rewrite Hcur.
    rewrite list_lookup_total_insert_eq
      by (rewrite Hrr; unfold MLFQ_TOP_LEVEL, MLFQ_BOTTOM_LEVEL, MLFQ_LEVELS in *; lia).
    split; [split; [by apply Z.mod_pos_bound|by apply dist_advance]|apply dist_range].
Qed.

Definition slice (level : Z) : Z := mlfq_time_slices !!! Z.to_nat level.

(** A slot's level indexes the queues and it has not used up its slice. *)
Definition slot_ok (p : proc) : Prop :=
  MLFQ_TOP_LEVEL <= p_queue_level p <= MLFQ_BOTTOM_LEVEL /\ 0 <= p_sched_ticks p < slice (p_queue_level p).

Lemma slice_pos level : MLFQ_TOP_LEVEL <= level <= MLFQ_BOTTOM_LEVEL -> 0 < slice level.
Proof.
  unfold MLFQ_TOP_LEVEL, MLFQ_BOTTOM_LEVEL, MLFQ_LEVELS. intros H.
  assert (Hc : level = 0 \/ level = 1 \/ level = 2 \/ level = 3) by lia. by destruct Hc as [->|[->|[->| ->]]].
Qed.

Lemma slot_reset p : MLFQ_TOP_LEVEL <= p_queue_level p <= MLFQ_BOTTOM_LEVEL -> p_sched_ticks p = 0 -> slot_ok p.
Proof. intros H E. split; [done|]. rewrite E. pose proof (slice_pos _ H). lia. Qed.

(** One timer tick charged to the running process. *)
Lemma yield_cases p : slot_ok p ->
  let q := sched_on_yield p in
  (p_sched_ticks p + 1 < slice (p_queue_level p) /\ p_queue_level q = p_queue_level p /\ p_sched_ticks q = p_sched_ticks p + 1) \/
  (p_sched_ticks p + 1 = slice (p_queue_level p) /\
   p_queue_level q = Z.min (p_queue_level p + 1) MLFQ_BOTTOM_LEVEL /\ p_sched_ticks q = 0).
Proof.
  intros [H1 H2]. unfold sched_on_yield. simpl. fold (slice (p_queue_level p)). case_bool as E.
  - right. split; [lia|]. case_bool as E2; simpl; split; unfold MLFQ_BOTTOM_LEVEL in *; lia.
  - left. simpl. split; [lia|done].
Qed.

(** C25: queue levels and used ticks stay in bounds.  The invariant that a
    process has a level of the four queues, so that every index into
    [mlfq_time_slices] and [mlfq_rr_next] is in range, and has used less than
    its slice, is kept by a tick, by the boost, by the accounting of waiting
    time and by every kind of wakeup. *)
Theorem mlfq_slot_invariant p ch reason :
  slot_ok p ->
  slot_ok (sched_on_yield p) /\ slot_ok (boost_one p) /\ slot_ok (wait_one p) /\ slot_ok (woken ch reason p).
Proof.
  intros Hp. pose proof Hp as [H1 H2]. split_and!.
  - destruct (yield_cases p Hp) as [(A & B & C)|(A & B & C)].
    + split; rewrite B; [done|]. rewrite C. lia.
    + apply slot_reset; [rewrite B|done]. unfold MLFQ_TOP_LEVEL, MLFQ_BOTTOM_LEVEL, MLFQ_LEVELS in *. lia.
  - unfold boost_one. case_bool as E; [|done]. by apply slot_reset.
  - unfold wait_one. by case_bool as E.
  - unfold woken. case_bool as E; [|done]. simpl. case_bool as E2; [|done].
    apply slot_reset; unfold promote_one; simpl; repeat (case_bool_; simpl); unfold MLFQ_TOP_LEVEL in *; done || lia.
Qed.

(** a process that keeps the CPU is demoted exactly when its slice is
    used up.  After fewer ticks than its slice has left it is still in its
    level; with the last one it moves down one level, or stays at the bottom,
    and starts a new slice. *)
Theorem slice_end_demotes p :
  slot_ok p ->
  let left := Z.to_nat (slice (p_queue_level p) - p_sched_ticks p) in
  (forall n, (n < left)%nat ->
     p_queue_level (Nat.iter n sched_on_yield p) = p_queue_level p /\
     p_sched_ticks (Nat.iter n sched_on_yield p) = p_sched_ticks p + Z.of_nat n) /\
  p_queue_level (Nat.iter left sched_on_yield p) = Z.min (p_queue_level p + 1) MLFQ_BOTTOM_LEVEL /\
  p_sched_ticks (Nat.iter left sched_on_yield p) = 0.
Proof.
  intros Hp left. pose proof Hp as [H1 H2].
  assert (Hrun : forall n, (n < left)%nat ->
     p_queue_level (Nat.iter n sched_on_yield p) = p_queue_level p /\
     p_sched_ticks (Nat.iter n sched_on_yield p) = p_sched_ticks p + Z.of_nat n).
  { induction n as [|n IH]; intros Hn; simpl; [lia|]. destruct IH as [E1 E2]; [lia|].
    assert (Hq : slot_ok (Nat.iter n sched_on_yield p)) by (split; rewrite E1; [done|rewrite E2; lia]).
    destruct (yield_cases _ Hq) as [(A & B & C)|(A & _)]; [rewrite B, C, E1, E2; lia|].
    rewrite E1, E2 in A. lia. }
  split; [exact Hrun|]. assert (Hl : left = S (left - 1)) by lia. rewrite Hl. simpl.
  destruct (Hrun (left - 1)%nat) as [E1 E2]; [lia|].
  assert (Hq : slot_ok (Nat.iter (left - 1) sched_on_yield p)) by (split; rewrite E1; [done|rewrite E2; lia]).
  destruct (yield_cases _ Hq) as [(A & _)|(A & B & C)]; [rewrite E1, E2 in A; lia|]. by rewrite B, E1.
Qed.

Lemma woken_at ch reason P i : length P = Z.to_nat NPROC -> 0 <= i < NPROC ->
  (woken ch reason <$> P) !!! Z.to_nat i = woken ch reason (P !!! Z.to_nat i).
Proof.
  intros Hl Hi. destruct (lookup_lt_is_Some_2 P (Z.to_nat i)) as [x Hx]; [lia|].
  rewrite (list_lookup_total_correct _ _ _ Hx). apply list_lookup_total_correct. by rewrite list_lookup_fmap, Hx.
Qed.

(** [wakeup_reason] wakes all sleepers on the channel and nobody else.
    It always returns, every process that slept on the channel is runnable
    and records the reason, every other slot is unchanged, no CPU's current
    process changes and the locks are as before. *)
Theorem wakeup_wakes_exactly_sleepers ch reason s :
  pgood s ->
  exists s', wakeup_reason ch reason s = Ok tt s' /\ pgood s' /\ lk_same (lk_of s) (lk_of s') /\
    (c_proc <$> ps_cpus s') = (c_proc <$> ps_cpus s) /\
    forall i, 0 <= i < NPROC ->
      if decide (p_state (proc_at s i) = SLEEPING /\ p_chan (proc_at s i) = ch) then
        p_state (proc_at s' i) = RUNNABLE /\ p_last_wakeup_reason (proc_at s' i) = reason /\
        p_pid (proc_at s' i) = p_pid (proc_at s i) /\ p_queue_level (proc_at s' i) <= p_queue_level (proc_at s i)
      else proc_at s' i = proc_at s i.
Proof.
  intros Hg. destruct (wp_Ok _ _ _ (wakeup_wp ch reason s Hg)) as ([] & s' & Hrun & Hg' & [Hlk (cs & n & Hs & Hcs)] & Hp).
  exists s'. split; [exact Hrun|]. split; [exact Hg'|]. split; [exact Hlk|]. split; [rewrite Hs; exact Hcs|].
  intros i Hi. assert (Hat : proc_at s' i = woken ch reason (proc_at s i))
    by (unfold proc_at; rewrite Hp; apply woken_at; [apply Hg|done]).
  rewrite Hat. clear Hat.
  unfold woken, is_state. set (p := proc_at s i). clearbody p. case_decide as Hd.
  - destruct Hd as [E1 E2]. rewrite !bool_decide_eq_true_2 by done. simpl.
    destruct ((reason =? WAKEUP_IO) || (reason =? WAKEUP_DEVICE)); [|simpl; split_and!; done || lia].
    unfold promote_one. simpl. repeat (case_bool_; simpl); split_and!; done || lia.
  - destruct (bool_decide (p_state p = SLEEPING) && bool_decide (p_chan p = ch)) eqn:E; [|done].
    breflect. exfalso. by apply Hd.
Qed.

(** ** Sleeping *)

(** Releasing a lock that is not the last one held. *)
Lemma release_inner lk l :
  lk ∈ held l -> 2 <= noff l -> sie l = false ->
  wp (release lk) (fun _ l' => l' = Lkst (noff l - 1) (intena l) (sie l) (filter (fun x => x <> lk) (held l))) l.
Proof.
  intros Hin Hn Hs. unfold release, pop_off. wp_go. unfold holding. rewrite bool_decide_eq_true_2 by done. simpl negb. cbv iota.
  wp_go. unfold intr_get. simpl. rewrite Hs. destruct (Z.ltb_spec (noff l) 1) as [|]; [lia|]. wp_go.
  destruct (Z.eqb_spec (noff l - 1) 0) as [|]; [lia|]. done.
Qed.

(** The slot of a process that goes to sleep. *)
Definition asleep_on (ch : chan) (interruptible : bool) (p : proc) : proc :=
  set_p_sched_ticks 0 (set_p_state SLEEPING (set_p_interruptible_sleep interruptible (set_p_chan ch p))).

Lemma lk_ok_0 e : lk_ok (Lkst 0 false e []).
Proof. split_and!; simpl; [lia|lia|constructor]. Qed.

Lemma sleep_enter_wp i ch lk b s :
  pgood s -> 0 <= i < NPROC -> noff (lk_of s) = 1 -> held (lk_of s) = [lk] ->
  wp (sleep_on_enter i ch lk b) (fun r s' => noff (lk_of s') = 1 /\ sie (lk_of s') = false /\
    if b && signal_pending_locked (proc_at s i) then
      r = inl (-1) /\ held (lk_of s') = [lk] /\ exists l, s' = lput l s
    else exists saved, r = inr saved /\ held (lk_of s') = [L_proc i] /\
      exists l, s' = lput l (upd_proc i (asleep_on ch b) s)) s.
Proof.
  intros Hg Hi Hn Hh. pose proof (pg_lk _ Hg) as (_ & Hsie & _).
  assert (Hne : lk <> L_proc i). { intros ->. apply (pg_free _ Hg i). rewrite Hh. left. }
  unfold sleep_on_enter. rewrite bool_decide_eq_false_2 by done. simpl negb. wp_step. wp_step; [|discriminate].
  cbn [lock_ops sleep_handover lockop_run]. fold (plock i). wp_step. apply wp_plock; [apply Hg|]. intros l (T1 & T2 & T3 & T4). wp_step.
  apply wp_zoom. eapply wp_mono; [apply release_inner; change (lget (lput l s)) with l; [rewrite T3; right; rewrite Hh; left|rewrite T1, Hn; lia|done]|].
  intros [] l' ->. change (lget (lput l s)) with l. rewrite T1, T2, T3, Hn, Hh.
  assert (Hf : filter (fun x => x <> lk) [L_proc i; lk] = [L_proc i]).
  { rewrite !filter_cons, filter_nil, decide_True, decide_False by congruence. done. }
  wp_step. rewrite Hf. change (lput ?x (lput l s)) with (lput x s). set (l1 := Lkst (1 + 1 - 1) (intena l) false [L_proc i]).
  wp_step. wp_step. wp_step. change (proc_at (lput l1 s) i) with (proc_at s i).
  destruct (b && signal_pending_locked (proc_at s i)) eqn:Eb.
  - wp_step. wp_step; [|discriminate]. wp_step.
    eapply (wp_punlock i (Lkst 0 false (intena l) [])); [apply lk_ok_0|apply not_elem_of_nil|by unfold taken|].
    intros l2 (U1 & U2 & U3 & _). apply wp_zoom.
    eapply wp_mono; [apply acquire_wp; change (lget (lput l2 (lput l1 s))) with l2; rewrite U3; apply not_elem_of_nil|].
    intros [] l3 (V1 & V2 & V3 & V4). change (lget (lput l2 (lput l1 s))) with l2 in *. wp_go.
    change (lk_of (lput l3 (lput l2 (lput l1 s)))) with l3. rewrite V1, V3, U1, U3. split_and!; try done. by exists l3.
  - wp_step. wp_step. wp_step. wp_step. cbv beta.
    change (fun p : proc => set_p_sched_ticks 0 (set_p_state SLEEPING (set_p_interruptible_sleep b (set_p_chan ch p)))) with (asleep_on ch b).
    unfold sched_enter. wp_step. wp_step.
    assert (Hst : proc_at (upd_proc i (asleep_on ch b) (lput l1 s)) i = asleep_on ch b (proc_at s i)).
    { unfold upd_proc. unfold proc_at at 1. simpl ps_procs. apply list_lookup_total_insert_eq. rewrite (pg_len _ Hg). lia. }
    rewrite Hst. change (lget (upd_proc i (asleep_on ch b) (lput l1 s))) with l1. unfold holding. simpl held.
    rewrite bool_decide_eq_true_2 by left. simpl negb. cbv iota. wp_go. do 2 (split; [done|]). exists (intena l).
    do 2 (split; [done|]). by exists l1.
Qed.

(** The scheduler's thread after the switch gives the process lock back. *)
Lemma after_wp c i s :
  noff (lk_of s) = 1 -> sie (lk_of s) = false -> held (lk_of s) = [L_proc i] -> length (ps_procs s) = Z.to_nat NPROC ->
  wp (scheduler_after c i) (fun _ s' => pgood s' /\ held (lk_of s') = [] /\ ps_procs s' = ps_procs s) s.
Proof.
  intros Hn Hs Hh Hl. unfold scheduler_after, run_proc_end, set_cpu. wp_step. wp_step.
  eapply (wp_punlock i (Lkst 0 false (intena (lk_of s)) [])).
  - apply lk_ok_0.
  - apply not_elem_of_nil.
  - unfold taken. simpl. by rewrite Hn, Hs, Hh.
  - intros l Hl'. pose proof Hl' as (_ & _ & E & _). simpl. split; [|done].
    split; simpl; [|intros j; rewrite E; apply not_elem_of_nil|done].
    eapply lk_same_ok; [exact Hl'|apply lk_ok_0].
Qed.

(** ** Sleeping and waking on several harts

    A sleeper tests a condition under the lock [lk] and calls [sleep_on] when
    it does not hold; wakers make it true under [lk] and call [wakeup], before
    or after they release [lk].  Every lock operation, the test, the store that
    puts the process to sleep and the one that makes it runnable are steps of
    their own, and steps of different harts interleave freely.  A lock can be
    taken only while no hart holds it. *)

Module Handshake.

Inductive op := Lock (o : lockop) | Test | GoSleep | SetCond | Wake.
Record thread := Th { t_prog : list op; t_held : list lockid }.
Record mach := Mach { m_cond : bool; m_slot : proc; m_sleeper : thread; m_wakers : list thread }.

Section machine.
Context (i : Z) (ch : chan) (lk : lockid) (interruptible : bool) (reason : Z).
Abbreviation plk := (L_proc i).

(** The caller's test, [sleep_on], and the release of the process lock by the
    scheduler's thread behind the switch. *)
Definition sleeper_prog : list op :=
  Lock (LAcq lk) :: Test :: (Lock <$> sleep_handover i lk) ++ [GoSleep; Lock (LRel plk)].
(** [wakeup] visits the slot under its lock, inside or behind the critical
    section that makes the condition true. *)
Definition waker_inside : list op :=
  [Lock (LAcq lk); SetCond; Lock (LAcq plk); Wake; Lock (LRel plk); Lock (LRel lk)].
Definition waker_behind : list op :=
  [Lock (LAcq lk); SetCond; Lock (LRel lk); Lock (LAcq plk); Wake; Lock (LRel plk)].

Definition free (m : mach) (l : lockid) : Prop :=
  l ∉ t_held (m_sleeper m) /\ Forall (fun t => l ∉ t_held t) (m_wakers m).

(** A step of a thread: the condition, the slot and the thread behind it. *)
Inductive tstep (m : mach) : thread -> bool -> proc -> thread -> Prop :=
  | step_acq l k h : free m l -> tstep m (Th (Lock (LAcq l) :: k) h) (m_cond m) (m_slot m) (Th k (l :: h))
  | step_rel l k h : tstep m (Th (Lock (LRel l) :: k) h) (m_cond m) (m_slot m) (Th k (filter (fun x => x <> l) h))
  | step_test k h : tstep m (Th (Test :: k) h) (m_cond m) (m_slot m) (Th (if m_cond m then [Lock (LRel lk)] else k) h)
  | step_sleep k h : tstep m (Th (GoSleep :: k) h) (m_cond m) (asleep_on ch interruptible (m_slot m)) (Th k h)
  | step_set k h : tstep m (Th (SetCond :: k) h) true (m_slot m) (Th k h)
  | step_wake k h : tstep m (Th (Wake :: k) h) (m_cond m) (woken ch reason (m_slot m)) (Th k h).

Inductive hstep : mach -> mach -> Prop :=
  | by_sleeper m c p t : tstep m (m_sleeper m) c p t -> hstep m (Mach c p t (m_wakers m))
  | by_waker m n t t' c p : m_wakers m !! n = Some t -> tstep m t c p t' ->
      hstep m (Mach c p (m_sleeper m) (<[n := t']> (m_wakers m))).

Definition waker_start (behind : bool) : thread := Th (if behind then waker_behind else waker_inside) [].
Definition start (cond : bool) (p : proc) (ws : list bool) : mach :=
  Mach cond p (Th sleeper_prog []) (waker_start <$> ws).

(** Where a thread can be, with the locks it holds there. *)
Definition waker_at (t : thread) : Prop :=
  t ∈ [Th waker_inside []; Th [SetCond; Lock (LAcq plk); Wake; Lock (LRel plk); Lock (LRel lk)] [lk];
       Th [Lock (LAcq plk); Wake; Lock (LRel plk); Lock (LRel lk)] [lk]; Th [Wake; Lock (LRel plk); Lock (LRel lk)] [plk; lk];
       Th [Lock (LRel plk); Lock (LRel lk)] [plk; lk]; Th [Lock (LRel lk)] [lk]; Th [] [];
       Th waker_behind []; Th [SetCond; Lock (LRel lk); Lock (LAcq plk); Wake; Lock (LRel plk)] [lk];
       Th [Lock (LRel lk); Lock (LAcq plk); Wake; Lock (LRel plk)] [lk]; Th [Lock (LAcq plk); Wake; Lock (LRel plk)] [];
       Th [Wake; Lock (LRel plk)] [plk]; Th [Lock (LRel plk)] [plk]].

(** A waker that has not yet reached the slot. *)
Definition wake_due (m : mach) : Prop := exists n t, m_wakers m !! n = Some t /\ Wake ∈ t_prog t.

Inductive sleeper_at (m : mach) : thread -> Prop :=
  | at_start : p_state (m_slot m) <> SLEEPING -> sleeper_at m (Th sleeper_prog [])
  | at_test : p_state (m_slot m) <> SLEEPING ->
      sleeper_at m (Th (Test :: Lock (LAcq plk) :: Lock (LRel lk) :: GoSleep :: [Lock (LRel plk)]) [lk])
  | at_enter : p_state (m_slot m) <> SLEEPING -> m_cond m = false ->
      sleeper_at m (Th (Lock (LAcq plk) :: Lock (LRel lk) :: GoSleep :: [Lock (LRel plk)]) [lk])
  | at_both : p_state (m_slot m) <> SLEEPING -> m_cond m = false ->
      sleeper_at m (Th (Lock (LRel lk) :: GoSleep :: [Lock (LRel plk)]) [plk; lk])
  | at_own : p_state (m_slot m) <> SLEEPING -> (m_cond m = true -> wake_due m) ->
      sleeper_at m (Th (GoSleep :: [Lock (LRel plk)]) [plk])
  | at_asleep : p_chan (m_slot m) = ch -> (m_cond m = true -> wake_due m) ->
      sleeper_at m (Th [Lock (LRel plk)] [plk])
  | at_switched : (p_state (m_slot m) = SLEEPING -> p_chan (m_slot m) = ch /\ (m_cond m = true -> wake_due m)) ->
      sleeper_at m (Th [] [])
  | at_leave : p_state (m_slot m) <> SLEEPING -> sleeper_at m (Th [Lock (LRel lk)] [lk]).

Record safe (m : mach) : Prop := {
  sf_sleeper : sleeper_at m (m_sleeper m);
  sf_wakers : Forall waker_at (m_wakers m);
  sf_apart l n t : m_wakers m !! n = Some t -> l ∈ t_held t -> l ∉ t_held (m_sleeper m);
  sf_distinct l n n' t t' : m_wakers m !! n = Some t -> m_wakers m !! n' = Some t' -> l ∈ t_held t -> l ∈ t_held t' -> n = n';
  sf_cond n t : m_wakers m !! n = Some t -> SetCond ∉ t_prog t -> m_cond m = true;
}.

Lemma woken_awake p : p_state p <> SLEEPING -> woken ch reason p = p.
Proof. intros H. unfold woken, is_state. by rewrite bool_decide_eq_false_2 by done. Qed.

Lemma woken_wakes p : p_chan p = ch -> p_state (woken ch reason p) <> SLEEPING.
Proof.
  intros Hc. destruct (decide (p_state p = SLEEPING)) as [Hs|Hs]; [|by rewrite woken_awake].
  unfold woken, is_state. rewrite !bool_decide_eq_true_2 by done. simpl. destruct ((reason =? WAKEUP_IO) || (reason =? WAKEUP_DEVICE)); [|done].
  unfold promote_one. by repeat case_match.
Qed.

Lemma safe_start cond p ws : p_state p <> SLEEPING -> safe (start cond p ws).
Proof.
  intros Hp. assert (Hw : forall n t, (waker_start <$> ws) !! n = Some t -> exists b, t = waker_start b).
  { intros n t. rewrite list_lookup_fmap. destruct (ws !! n) as [b|]; [|done]. intros [= <-]. by exists b. }
  split; simpl.
  - by apply at_start.
  - apply Forall_lookup. intros n t [b ->]%Hw. destruct b; unfold waker_at; set_solver.
  - intros l n t [b ->]%Hw. simpl. set_solver.
  - intros l n n' t t' [b ->]%Hw _. simpl. set_solver.
  - intros n t [b ->]%Hw H. destruct H. destruct b; simpl; set_solver.
Qed.

(** Enter a list of places. *)
Ltac at_place H := unfold waker_at in H; repeat (apply elem_of_cons in H as [->|H]); [..|by apply not_elem_of_nil in H].

Lemma filter_first (l : lockid) (h : list lockid) : l ∉ h -> filter (fun x => x <> l) (l :: h) = h.
Proof.
  intros Hl. rewrite filter_cons, decide_False by (intros H; by apply H). induction h as [|x h IH]; [done|].
  apply not_elem_of_cons in Hl as [Hx Hl]. by rewrite filter_cons, decide_True, IH by congruence.
Qed.

Context (Hne : lk <> plk).

Lemma filter_lk : filter (fun x => x <> lk) [plk; lk] = [plk].
Proof. rewrite !filter_cons, filter_nil, decide_True, decide_False by congruence. done. Qed.

Lemma waker_step m t c p t' : waker_at t -> tstep m t c p t' ->
  waker_at t' /\ (c = m_cond m \/ (c = true /\ lk ∈ t_held t /\ Wake ∈ t_prog t')) /\
  (p = m_slot m \/ (p = woken ch reason (m_slot m) /\ plk ∈ t_held t)) /\
  (forall l, l ∈ t_held t' -> l ∈ t_held t \/ free m l) /\
  (Wake ∈ t_prog t -> Wake ∈ t_prog t' \/ (p = woken ch reason (m_slot m) /\ plk ∈ t_held t)) /\
  (SetCond ∉ t_prog t' -> SetCond ∉ t_prog t \/ c = true).
Proof.
  intros Ht Hs. at_place Ht; inversion Hs; subst; cbn [t_prog t_held]; rewrite ?filter_first, ?filter_lk by (rewrite ?list_elem_of_singleton; congruence || apply not_elem_of_nil);
    (split_and!; [unfold waker_at; set_solver|set_solver|set_solver|set_solver|set_solver|set_solver]).
Qed.

(** A waker's step keeps the sleeper's place. *)
Lemma sleeper_kept m n t t' c p : safe m -> m_wakers m !! n = Some t -> tstep m t c p t' ->
  sleeper_at (Mach c p (m_sleeper m) (<[n := t']> (m_wakers m))) (m_sleeper m).
Proof.
  intros [S1 S2 S3 _ _] Hn Hs. assert (Hlt : (n < length (m_wakers m))%nat) by (by eapply lookup_lt_Some).
  destruct (waker_step m t c p t' (Forall_lookup_1 _ _ _ _ S2 Hn) Hs) as (_ & Hc & Hp & _ & Hw & _).
  set (m' := Mach c p _ _).
  assert (Hat : m_wakers m' !! n = Some t') by (by apply list_lookup_insert_eq).
  assert (Hoth : forall k, k <> n -> m_wakers m' !! k = m_wakers m !! k) by (intros k Hk; by apply list_lookup_insert_ne).
  assert (Hdue : wake_due m -> plk ∉ t_held t -> wake_due m').
  { intros (k & u & Hk & Hu) Hno. destruct (decide (k = n)) as [->|Hkn].
    - assert (u = t) as -> by congruence. destruct (Hw Hu) as [H|[_ H]]; [|done]. by exists n, t'.
    - exists k, u. by rewrite Hoth. }
  assert (Hset : c = true -> m_cond m = false -> wake_due m').
  { intros -> Hf. destruct Hc as [E|(_ & _ & H)]; [congruence|]. by exists n, t'. }
  assert (Hawake : p_state (m_slot m) <> SLEEPING -> p_state p <> SLEEPING) by (intros H; destruct Hp as [->|[-> _]]; [done|by rewrite woken_awake]).
  assert (Hlk : lk ∈ t_held (m_sleeper m) -> c = m_cond m) by (intros H; destruct Hc as [->|(_ & H' & _)]; [done|by destruct (S3 lk n t Hn H')]).
  assert (Hplk : plk ∈ t_held (m_sleeper m) -> p = m_slot m /\ plk ∉ t_held t).
  { intros H. assert (Hno : plk ∉ t_held t) by (intros H'; by destruct (S3 plk n t Hn H')). destruct Hp as [->|(_ & H')]; done. }
  assert (Hcond : (m_cond m = true -> wake_due m) -> plk ∉ t_held t -> c = true -> wake_due m').
  { intros H Hno Hct. destruct (m_cond m) eqn:E; [by apply Hdue; [apply H|]|by apply Hset]. }
  destruct S1 as [H|H|H1 H2|H1 H2|H1 H2|H1 H2|H1|H]; cbn [t_held] in *.
  - apply at_start. by apply Hawake.
  - apply at_test. by apply Hawake.
  - apply at_enter; [by apply Hawake|]. simpl. rewrite Hlk by left. done.
  - apply at_both; [by apply Hawake|]. simpl. rewrite Hlk by (right; left). done.
  - destruct (Hplk ltac:(left)) as [-> Hno]. apply at_own; [done|]. by apply Hcond.
  - destruct (Hplk ltac:(left)) as [-> Hno]. apply at_asleep; [done|]. by apply Hcond.
  - apply at_switched. simpl. intros Hsl.
    assert (Hms : p_state (m_slot m) = SLEEPING) by (destruct (decide (p_state (m_slot m) = SLEEPING)); [done|by destruct (Hawake n0)]).
    destruct (H1 Hms) as [Hch Hwd]. destruct Hp as [->|[-> _]]; [|by destruct (woken_wakes (m_slot m) Hch)]. split; [done|]. intros Hct.
    destruct (m_cond m) eqn:E; [|by apply Hset]. destruct (Hwd eq_refl) as (k & u & Hk & Hu). destruct (decide (k = n)) as [->|Hkn].
    + assert (u = t) as -> by congruence. destruct (Hw Hu) as [H|[H _]]; [by exists n, t'|].
      exfalso. apply (woken_wakes (m_slot m) Hch). by rewrite <- H.
    + exists k, u. by rewrite Hoth.
  - apply at_leave. by apply Hawake.
Qed.

Lemma by_waker_safe m n t t' c p : safe m -> m_wakers m !! n = Some t -> tstep m t c p t' ->
  safe (Mach c p (m_sleeper m) (<[n := t']> (m_wakers m))).
Proof.
  intros Hsafe Hn Hs. pose proof Hsafe as [S1 S2 S3 S4 S5]. assert (Hlt : (n < length (m_wakers m))%nat) by (by eapply lookup_lt_Some).
  destruct (waker_step m t c p t' (Forall_lookup_1 _ _ _ _ S2 Hn) Hs) as (Ht' & Hc & _ & Hh & _ & Hset).
  assert (Hold : forall l k u, <[n := t']> (m_wakers m) !! k = Some u -> l ∈ t_held u -> free m l \/ exists u', m_wakers m !! k = Some u' /\ l ∈ t_held u').
  { intros l k u Hk Hl. apply list_lookup_insert_Some in Hk as [(-> & -> & _)|(_ & Hk)]; [|by right; exists u].
    destruct (Hh l Hl) as [H|H]; [right; by exists t|by left]. }
  split; simpl.
  - exact (sleeper_kept m n t t' c p Hsafe Hn Hs).
  - by apply Forall_insert.
  - intros l k u Hk Hl. destruct (Hold l k u Hk Hl) as [[H _]|(u' & H & Hl')]; [done|by apply (S3 l k u')].
  - intros l k k' u u' Hk Hk' Hl Hl'. destruct (decide (k = k')) as [|Hkk]; [done|]. exfalso.
    assert (Hfree : forall k u, free m l -> m_wakers m !! k = Some u -> l ∈ t_held u -> False) by (intros k0 u0 [_ Hf] Hk0; by apply (Forall_lookup_1 _ _ _ _ Hf Hk0)).
    apply list_lookup_insert_Some in Hk as [(-> & -> & _)|(Hn1 & Hk)], Hk' as [(-> & -> & _)|(Hn2 & Hk')]; try done.
    + destruct (Hh l Hl) as [H|H]; [by destruct (Hkk (S4 l k k' t u' Hn Hk' H Hl'))|by apply (Hfree k' u')].
    + destruct (Hh l Hl') as [H|H]; [by destruct (Hkk (S4 l k k' u t Hk Hn Hl H))|by apply (Hfree k u)].
    + by destruct (Hkk (S4 l k k' u u' Hk Hk' Hl Hl')).
  - assert (Hmono : m_cond m = true -> c = true) by (destruct Hc as [->|(-> & _)]; done).
    intros k u Hk Hno. apply list_lookup_insert_Some in Hk as [(-> & -> & _)|(_ & Hk)]; [|by apply Hmono, (S5 k u)].
    destruct (Hset Hno) as [H|H]; [by apply Hmono, (S5 k t)|done].
Qed.

Lemma tstep_held m t c p t' : tstep m t c p t' -> forall l, l ∈ t_held t' -> l ∈ t_held t \/ free m l.
Proof.
  destruct 1; cbn [t_held]; intros x Hx; [|apply list_elem_of_filter in Hx as [_ Hx]|..]; try by left.
  apply elem_of_cons in Hx as [->|Hx]; [by right|by left].
Qed.

Lemma by_sleeper_safe m c p t : safe m -> tstep m (m_sleeper m) c p t -> safe (Mach c p t (m_wakers m)).
Proof.
  intros [S1 S2 S3 S4 S5] Hs.
  assert (Hh : forall l, l ∈ t_held t -> l ∈ t_held (m_sleeper m) \/ free m l) by (by apply (tstep_held m _ c p t)).
  split; simpl; [|done| |done|].
  - clear Hh S2 S3 S4 S5. destruct S1 as [H|H|H1 H2|H1 H2|H1 H2|H1 H2|H1|H]; inversion Hs; subst; rewrite ?filter_first, ?filter_lk by (rewrite ?list_elem_of_singleton; congruence || apply not_elem_of_nil).
    + by apply at_test.
    + destruct (m_cond m) eqn:E; [by apply at_leave|by apply at_enter].
    + by apply at_both.
    + apply at_own; [done|]. simpl. congruence.
    + apply at_asleep; [done|]. intros H. destruct (H2 H) as (n & u & ? & ?). by exists n, u.
    + apply at_switched. intros _. split; [done|]. intros H. destruct (H2 H) as (n & u & ? & ?). by exists n, u.
    + by apply at_switched.
  - intros l n u Hn Hl Hlt. destruct (Hh l Hlt) as [H|[_ H]]; [by apply (S3 l n u)|by apply (Forall_lookup_1 _ _ _ _ H Hn)].
  - intros n u Hn Hno. specialize (S5 n u Hn Hno). inversion Hs; subst; done.
Qed.

Lemma safe_reach m m' : safe m -> rtc hstep m m' -> safe m'.
Proof.
  intros Hm H. induction H as [|m m1 m2 H _ IH]; [done|]. apply IH. destruct H; [by apply by_sleeper_safe|by eapply by_waker_safe].
Qed.

(** ** The machine is never stuck *)

Definition kind (t : thread) : Z :=
  match t_prog t with
  | [] => 0
  | Lock (LAcq l) :: _ => if decide (l = plk) then 1 else 2
  | _ => 3
  end.
Definition finished (m : mach) : Prop := t_prog (m_sleeper m) = [] /\ Forall (fun t => t_prog t = []) (m_wakers m).

(** What the next operation of a thread says about its locks. *)
Definition kind_ok (t : thread) : Prop :=
  (kind t = 0 -> t_prog t = [] /\ t_held t = []) /\
  (kind t = 1 -> plk ∉ t_held t /\ exists k, t_prog t = Lock (LAcq plk) :: k) /\
  (kind t = 2 -> t_held t = [] /\ exists k, t_prog t = Lock (LAcq lk) :: k) /\ 0 <= kind t <= 3.

Lemma waker_kind t : waker_at t -> kind_ok t.
Proof.
  intros Ht. unfold kind_ok. at_place Ht; unfold kind; cbn [t_prog t_held waker_inside waker_behind]; rewrite ?decide_True, ?decide_False by done; split_and!; try done; set_solver.
Qed.
Lemma sleeper_kind m t : sleeper_at m t -> kind_ok t.
Proof.
  intros Ht. unfold kind_ok. destruct Ht; unfold kind; cbn [t_prog t_held sleeper_prog]; rewrite ?decide_True, ?decide_False by done; split_and!; try done; set_solver.
Qed.

Lemma thread_steps m t : kind_ok t -> kind t = 3 \/ (kind t = 1 /\ free m plk) \/ (kind t = 2 /\ free m lk) -> exists c p t', tstep m t c p t'.
Proof.
  intros (_ & K1 & K2 & _) [Hk|[[Hk Hf]|[Hk Hf]]].
  - destruct t as [[|o k] h]; [done|]. destruct o as [[l|l]| | | |]; [unfold kind in Hk; simpl in Hk; by case_decide|eexists _, _, _; by constructor..].
  - destruct (K1 Hk) as (_ & k & Ek). destruct t as [q h]. simpl in Ek. subst q. eexists _, _, _. by constructor.
  - destruct (K2 Hk) as (_ & k & Ek). destruct t as [q h]. simpl in Ek. subst q. eexists _, _, _. by constructor.
Qed.

Lemma never_stuck m : safe m -> finished m \/ exists m', hstep m m'.
Proof.
  intros [S1 S2 _ _ _]. pose proof (sleeper_kind _ _ S1) as K1.
  assert (K2 : Forall kind_ok (m_wakers m)) by (eapply Forall_impl; [exact S2|exact waker_kind]).
  assert (Hstep : forall t, t = m_sleeper m \/ t ∈ m_wakers m -> kind t = 3 \/ (kind t = 1 /\ free m plk) \/ (kind t = 2 /\ free m lk) -> exists m', hstep m m').
  { intros t Ht Hk. assert (Ko : kind_ok t) by (destruct Ht as [->|Ht]; [done|by apply (proj1 (Forall_forall _ _) K2)]).
    destruct (thread_steps m t Ko Hk) as (c & p & t' & Hs). destruct Ht as [->|[n Hn]%list_elem_of_lookup]; eexists; [by apply by_sleeper|by eapply by_waker]. }
  assert (Hall : forall z, (exists t, (t = m_sleeper m \/ t ∈ m_wakers m) /\ kind t = z) \/ (kind (m_sleeper m) <> z /\ Forall (fun t => kind t <> z) (m_wakers m))).
  { intros z. destruct (decide (kind (m_sleeper m) = z)) as [|H1]; [left; exists (m_sleeper m); auto|].
    destruct (decide (Exists (fun t => kind t = z) (m_wakers m))) as [(t & Ht & E)%Exists_exists|H2]; [left; exists t; auto|].
    right. split; [done|]. apply Forall_forall. intros t Ht E. apply H2, Exists_exists. by exists t. }
  destruct (Hall 3) as [(t & Ht & Hk)|[A3 B3]]; [right; apply (Hstep t Ht); auto|].
  assert (Kof : forall t, t = m_sleeper m \/ t ∈ m_wakers m -> kind_ok t /\ kind t <> 3).
  { intros t [->|Ht]; [done|]. split; [by apply (proj1 (Forall_forall _ _) K2)|by apply (proj1 (Forall_forall _ _) B3)]. }
  assert (Hfree : forall l, (forall t, t = m_sleeper m \/ t ∈ m_wakers m -> l ∉ t_held t) -> free m l).
  { intros l H. split; [by apply H; left|]. apply Forall_forall. intros t Ht. apply H. by right. }
  assert (Fp : free m plk).
  { apply Hfree. intros t Ht. destruct (Kof t Ht) as [(Z0 & Z1 & Z2 & Z3) H3].
    assert (kind t = 0 \/ kind t = 1 \/ kind t = 2) as [E|[E|E]] by lia; [destruct (Z0 E) as [_ ->]|by apply Z1|destruct (Z2 E) as [-> _]]; apply not_elem_of_nil. }
  destruct (Hall 1) as [(t & Ht & Hk)|[A1 B1]]; [right; apply (Hstep t Ht); auto|].
  assert (K02 : forall t, t = m_sleeper m \/ t ∈ m_wakers m -> kind t = 0 \/ kind t = 2).
  { intros t Ht. destruct (Kof t Ht) as [(_ & _ & _ & Z3) H3]. assert (kind t <> 1) by (destruct Ht as [->|Ht]; [done|by apply (proj1 (Forall_forall _ _) B1)]). lia. }
  assert (Fl : free m lk).
  { apply Hfree. intros t Ht. destruct (Kof t Ht) as [(Z0 & Z1 & Z2 & Z3) H3].
    destruct (K02 t Ht) as [E|E]; [destruct (Z0 E) as [_ ->]|destruct (Z2 E) as [-> _]]; apply not_elem_of_nil. }
  destruct (Hall 2) as [(t & Ht & Hk)|[A2 B2]]; [right; apply (Hstep t Ht); auto|].
  left. assert (Hend : forall t, t = m_sleeper m \/ t ∈ m_wakers m -> t_prog t = []).
  { intros t Ht. destruct (Kof t Ht) as [(Z0 & _) _]. destruct (K02 t Ht) as [E|E]; [by apply Z0|]. exfalso.
    destruct Ht as [->|Ht]; [done|by apply (proj1 (Forall_forall _ _) B2 t Ht)]. }
  split; [apply Hend; by left|]. apply Forall_forall. intros t Ht. apply Hend. by right.
Qed.

(** Every step uses up an operation. *)
Definition work (m : mach) : nat := length (t_prog (m_sleeper m)) + sum_list_with (fun t => length (t_prog t)) (m_wakers m).

Lemma tstep_work m t c p t' : (waker_at t \/ sleeper_at m t) -> tstep m t c p t' -> (length (t_prog t') < length (t_prog t))%nat.
Proof.
  intros [Ht|Ht] Hs; [at_place Ht|destruct Ht]; inversion Hs; subst; simpl; try lia. destruct (m_cond m); simpl; lia.
Qed.

Lemma sum_insert ws n t t' : ws !! n = Some t -> (length (t_prog t') < length (t_prog t))%nat ->
  (sum_list_with (fun t => length (t_prog t)) (<[n := t']> ws) < sum_list_with (fun t => length (t_prog t)) ws)%nat.
Proof.
  revert n. induction ws as [|w ws IH]; intros n Hn Hlt; [done|]. destruct n as [|n]; simpl in *; [injection Hn as ->; lia|]. specialize (IH n Hn Hlt). lia.
Qed.

Lemma hstep_work m m' : safe m -> hstep m m' -> (work m' < work m)%nat.
Proof.
  intros [S1 S2 _ _ _] Hs. unfold work. destruct Hs as [m c p t Hs|m n t t' c p Hn Hs]; simpl.
  - pose proof (tstep_work _ _ _ _ _ (or_intror S1) Hs). lia.
  - pose proof (tstep_work _ _ _ _ _ (or_introl (Forall_lookup_1 _ _ _ _ S2 Hn)) Hs) as H. pose proof (sum_insert _ _ _ _ Hn H). lia.
Qed.

(** Once every hart has finished and there was a waker, the process is not
    asleep. *)
Lemma safe_finished m : safe m -> finished m -> m_wakers m <> [] -> p_state (m_slot m) <> SLEEPING.
Proof.
  intros [S1 _ _ _ S5] [F1 F2] Hw Hs.
  assert (Hc : m_cond m = true).
  { destruct (m_wakers m) as [|t ws] eqn:E; [done|]. rewrite <- E in S5. apply (S5 0%nat t); [by rewrite E|]. apply Forall_cons in F2 as [-> _]. apply not_elem_of_nil. }
  inversion S1 as [H E|H E|H H' E|H H' E|H H' E|H H' E|H E|H E]; rewrite <- E in F1; try discriminate.
  destruct (H Hs) as [_ Hd]. destruct (Hd Hc) as (n & t & Hn & Hw'). pose proof (Forall_lookup_1 _ _ _ _ F2 Hn) as F. simpl in F. rewrite F in Hw'. by apply not_elem_of_nil in Hw'.
Qed.

Lemma hstep_wakers m m' : hstep m m' -> length (m_wakers m') = length (m_wakers m).
Proof. destruct 1; simpl; [done|apply length_insert]. Qed.

End machine.
End Handshake.


(** a process may not give up the CPU inside a critical section.  When
    the hart holds a spinlock, [yield] panics ("sched locks"). *)
Theorem yield_holding_lock_panics i s :
  pgood s -> 0 <= i < NPROC -> 0 < noff (lk_of s) ->
  exists s', yield_enter i s = Panic "sched locks" s'.
Proof.
  intros Hg Hi Hn. unfold yield_enter, mbind_.
  assert (Hp : wp (plock i) (fun _ s' => exists l, taken (L_proc i) (lk_of s) l /\ s' = lput l s) s).
  { apply wp_plock; [apply Hg|]. intros l Hl. by exists l. }
  destruct (wp_Ok _ _ _ Hp) as ([] & s1 & -> & l & (T1 & T2 & T3 & T4) & ->). simpl. unfold sched_enter, mbind_, get.
  set (s2 := upd_proc i (set_p_state RUNNABLE) _). change (lget s2) with l. unfold holding. rewrite T3, T1.
  rewrite bool_decide_eq_true_2 by left. simpl negb. cbv iota.
  destruct (Z.eqb_spec (noff (lk_of s) + 1) 1) as [|]; [lia|]. simpl. by eexists.
Qed.

(** ** A concrete table

    Slots 3 and 5 run in levels 1 and 0, slot 7 sleeps on a channel. *)

Module SchedDemo.
Import Kalloc.Demo VmProps.VmDemo Signal.SigDemo.

Definition sched_state : pst :=
  Pst vm_state
    (<[3%nat := set_p_queue_level 1 (set_p_state RUNNABLE zero_proc)]>
      (<[5%nat := set_p_state RUNNABLE zero_proc]>
        (<[6%nat := set_p_state RUNNABLE zero_proc]>
          (<[7%nat := set_p_chan (AddrChan 77) (set_p_state SLEEPING zero_proc)]> (replicate (Z.to_nat NPROC) zero_proc)))))
    [Cpu None false; Cpu None false] (Some 0) 5 [0; 0; 0; 0] 0 0 0.

Definition sleeping_state : pst := lput (Lkst 1 false false [L_pid]) sched_state.
Definition critical_state : pst := lput (Lkst 1 true false [L_pipe 4096]) sched_state.

(** A state over the demo memory whose locks are not process locks. *)
Lemma demo_pgood s l :
  s = lput l sched_state -> Z.of_nat (length (held l)) <= noff l -> sie l = false -> NoDup (held l) ->
  (forall i, L_proc i ∉ held l) -> pgood s.
Proof.
  intros -> H1 H2 H3 H4. split; [split_and!; [exact H1|done|exact H3]|exact H4|reflexivity].
Qed.

Lemma sched_good : pgood sched_state.
Proof.
  assert (H : lk_of sched_state = Lkst 0 false false []) by (vm_compute; reflexivity).
  split; rewrite ?H; [|intros i; apply not_elem_of_nil|reflexivity].
  unfold lk_ok. simpl. split_and!; [lia|done|constructor].
Qed.

Lemma sched_levels : levels_ok sched_state.
Proof.
  assert (H : forallb (fun i => (0 <=? p_queue_level (proc_at sched_state i)) && (p_queue_level (proc_at sched_state i) <=? 3))
    (seqZ 0 NPROC) = true) by (vm_compute; reflexivity).
  intros i Hi. rewrite forallb_forall in H. specialize (H i). rewrite <- list_elem_of_In, elem_of_seqZ in H.
  specialize (H ltac:(lia)). breflect. unfold MLFQ_TOP_LEVEL, MLFQ_BOTTOM_LEVEL, MLFQ_LEVELS. lia.
Qed.

Lemma sleeping_good : pgood sleeping_state.
Proof.
  apply (demo_pgood _ (Lkst 1 false false [L_pid])); [reflexivity|cbn; lia|reflexivity|apply NoDup_singleton|].
  intros i. cbn [held]. rewrite list_elem_of_singleton. discriminate.
Qed.

Lemma critical_good : pgood critical_state.
Proof.
  apply (demo_pgood _ (Lkst 1 true false [L_pipe 4096])); [reflexivity|cbn; lia|reflexivity|apply NoDup_singleton|].
  intros i. cbn [held]. rewrite list_elem_of_singleton. discriminate.
Qed.

Lemma pick_demo : exists s', pick_next_proc sched_state = Ok (Some 5) s'.
Proof.
  assert (H : match pick_next_proc sched_state with Ok (Some idx) _ => idx =? 5 | _ => false end = true)
    by (vm_compute; reflexivity).
  destruct (pick_next_proc sched_state) as [[idx|] s'| |]; try discriminate. breflect. subst. by exists s'.
Qed.

Lemma pick_next_proc_correct_witness :
  exists r s', pick_next_proc sched_state = Ok r s' /\
    match r with
    | None => (forall i, 0 <= i < NPROC -> p_state (proc_at sched_state i) <> RUNNABLE) /\
        ps_procs s' = ps_procs (boosted sched_state) /\ lk_same (lk_of sched_state) (lk_of s')
    | Some idx => 0 <= idx < NPROC /\ p_state (proc_at sched_state idx) = RUNNABLE /\
        (let level := p_queue_level (proc_at (boosted sched_state) idx) in
         (forall j, 0 <= j < NPROC -> p_state (proc_at sched_state j) = RUNNABLE ->
            level < p_queue_level (proc_at (boosted sched_state) j) \/
            (level = p_queue_level (proc_at (boosted sched_state) j) /\ dist sched_state level idx <= dist sched_state level j)) /\
         picked level idx (boosted sched_state) s')
    end.
Proof. exact (pick_next_proc_correct sched_state sched_good sched_levels). Defined.

Lemma round_robin_bounded_wait_witness :
  exists s', pick_next_proc sched_state = Ok (Some 5) s' /\
    cand s' 0 6 = true /\ 0 <= dist s' 0 6 < dist sched_state 0 6 /\ dist sched_state 0 6 < NPROC.
Proof.
  destruct pick_demo as [s' Hs']. exists s'. split; [exact Hs'|].
  assert (H6 : 0 <= 6 < NPROC) by (unfold NPROC; lia).
  assert (Hne : 6 <> 5) by discriminate.
  exact (round_robin_bounded_wait sched_state 5 s' 6 sched_good sched_levels eq_refl Hs' H6 Hne eq_refl).
Defined.

Definition mid_proc : proc := set_p_sched_ticks 1 (set_p_queue_level 2 zero_proc).

Lemma mid_ok : slot_ok mid_proc.
Proof. by split. Qed.

Lemma mlfq_slot_invariant_witness : slot_ok (sched_on_yield mid_proc) /\ slot_ok (woken NoChan WAKEUP_IO mid_proc).
Proof.
  destruct (mlfq_slot_invariant mid_proc NoChan WAKEUP_IO mid_ok) as (H1 & _ & _ & H2). split; [exact H1|exact H2].
Defined.

Lemma slice_end_demotes_witness :
  p_queue_level (Nat.iter 2 sched_on_yield mid_proc) = 2 /\ p_queue_level (Nat.iter 3 sched_on_yield mid_proc) = 3.
Proof.
  destruct (slice_end_demotes mid_proc mid_ok) as (H1 & H2 & _). split; [|exact H2].
  destruct (H1 2%nat) as [H _]; [simpl; unfold slice; simpl; lia|exact H].
Defined.

Lemma wakeup_wakes_exactly_sleepers_witness :
  exists s', wakeup_reason (AddrChan 77) WAKEUP_IO sched_state = Ok tt s' /\ pgood s' /\ lk_same (lk_of sched_state) (lk_of s') /\
    (c_proc <$> ps_cpus s') = (c_proc <$> ps_cpus sched_state) /\
    forall i, 0 <= i < NPROC ->
      if decide (p_state (proc_at sched_state i) = SLEEPING /\ p_chan (proc_at sched_state i) = AddrChan 77) then
        p_state (proc_at s' i) = RUNNABLE /\ p_last_wakeup_reason (proc_at s' i) = WAKEUP_IO /\
        p_pid (proc_at s' i) = p_pid (proc_at sched_state i) /\ p_queue_level (proc_at s' i) <= p_queue_level (proc_at sched_state i)
      else proc_at s' i = proc_at sched_state i.
Proof. exact (wakeup_wakes_exactly_sleepers (AddrChan 77) WAKEUP_IO sched_state sched_good). Defined.


Lemma yield_holding_lock_panics_witness : exists s', yield_enter 5 critical_state = Panic "sched locks" s'.
Proof.
  assert (H5 : 0 <= 5 < NPROC) by (unfold NPROC; lia).
  assert (Hn : 0 < noff (lk_of critical_state)) by (simpl; lia).
  exact (yield_holding_lock_panics 5 critical_state critical_good H5 Hn).
Defined.

End SchedDemo.
