(* ===== verification/Pipe.v ===== *)
(** * Pipes (src/kernel/ipc/pipe.c)

    [pipewrite] and [piperead] give up the CPU in the middle of a transfer;
    each is modelled as the run from holding [pi->lock] to the point where the
    call returns or its process is asleep, with a second entry for the resumed
    sleeper.  Wakeups, signals and the sleep itself are those of Sched.v and
    Signal.v.  The copy from and to the user is an interface, [UserCopy];
    the pipe's contents depend only on the bytes it delivers.

    Refinement: a pipe is a FIFO queue of at most [PIPESIZE] bytes. *)

From S2P Require Import Prelude Riscv Memory Spinlock Kalloc Vm Proctab Signal Sched.
Import Hart.

Definition PIPESIZE : Z := 512.

Record pipe := Pipe {
  pi_data : list Z;       (** char data[PIPESIZE] *)
  pi_nread : Z;           (** number of bytes read, a uint *)
  pi_nwrite : Z;          (** number of bytes written, a uint *)
  pi_readopen : bool;
  pi_writeopen : bool;
}.
#[export] Instance pipe_inhabited : Inhabited pipe := populate (Pipe [] 0 0 false false).

(** Pipes by the address of their page. *)
Record pipest := PipeSt { pp_ps : pst; pp_pipes : gmap Z pipe }.

#[export] Instance pipest_ps : Lens pipest pst :=
  {| lget := pp_ps; lput p s := PipeSt p (pp_pipes s) |}.
#[export] Instance pipest_ps_laws : LensLaws pipest pst.
Proof. split; [done | by intros [] | done]. Qed.

Definition pipe_at (s : pipest) (pi : Z) : pipe := default inhabitant (pp_pipes s !! pi).
Definition set_pipe (pi : Z) (f : pipe -> pipe) : M pipest unit :=
  modify (fun s => PipeSt (pp_ps s) (<[pi := f (pipe_at s pi)]> (pp_pipes s))).

Definition ps {A} (m : M pst A) : M pipest A := zoom m.
Definition pi_lock (pi : Z) : M pipest unit := ps (zoom (acquire (L_pipe pi))).
Definition pi_unlock (pi : Z) : M pipest unit := ps (zoom (release (L_pipe pi))).

(** [&pi->nread] and [&pi->nwrite]: offsets in [struct pipe]. *)
Definition chan_nread (pi : Z) : chan := AddrChan (pi + 544).
Definition chan_nwrite (pi : Z) : chan := AddrChan (pi + 548).

(** One-byte copies between kernel and user: [None] and [false] are -1. *)
Class UserCopy := {
  copyin1 : Z -> M pst (option Z);
  copyout1 : Z -> Z -> M pst bool;
}.

(** The queue a pipe holds. *)
Definition pi_used (p : pipe) : Z := u32 (pi_nwrite p - pi_nread p).
Definition pi_contents (p : pipe) : list Z :=
  (fun k => pi_data p !!! Z.to_nat ((pi_nread p + k) mod PIPESIZE)) <$> seqZ 0 (pi_used p).

(** [pi->data[pi->nwrite++ % PIPESIZE] = ch] *)
Definition pi_push (ch : Z) (p : pipe) : pipe :=
  Pipe (<[Z.to_nat (pi_nwrite p mod PIPESIZE) := ch]> (pi_data p))
    (pi_nread p) (u32 (pi_nwrite p + 1)) (pi_readopen p) (pi_writeopen p).

(** [ch = pi->data[pi->nread++ % PIPESIZE]] *)
Definition pi_head (p : pipe) : Z := pi_data p !!! Z.to_nat (pi_nread p mod PIPESIZE).
Definition pi_pop (p : pipe) : pipe :=
  Pipe (pi_data p) (u32 (pi_nread p + 1)) (pi_nwrite p) (pi_readopen p) (pi_writeopen p).

Definition pi_full (p : pipe) : bool := pi_nwrite p =? u32 (pi_nread p + PIPESIZE).
Definition pi_empty (p : pipe) : bool := pi_nread p =? pi_nwrite p.

(** How a run ends: the call returned, or its process sleeps with [i] bytes
    transferred and the saved [intena]. *)
Inductive run := Returned (r : Z) | Asleep (i : Z) (saved : bool).

Section code.
Context {UC : UserCopy}.

Definition partial (i : Z) : Z := if 0 <? i then i else -1.

(** One round of the [for] loop of [pipewrite] from the [while] test on. *)
Definition pipewrite_body (me pi addr n : Z) (i : Z) : M pipest (Z + run) :=
  if i <? n then
    p <- gets (fun s => pipe_at s pi) ;;
    if pi_full p && pi_readopen p then
      ps (wakeup (chan_nread pi)) ;;
      r <- ps (sleep_on_enter me (chan_nwrite pi) (L_pipe pi) true) ;;
      match r with
      | inl _ => pi_unlock pi ;; ret (inr (Returned (partial i)))
      | inr saved => ret (inr (Asleep i saved))
      end
    else if negb (pi_readopen p) then
      pi_unlock pi ;;
      pid <- ps (gets (fun s => p_pid (proc_at s me))) ;;
      ps (signal_send_pid pid SIGPIPE) ;;
      ret (inr (Returned (partial i)))
    else
      c <- ps (copyin1 (u64 (addr + i))) ;;
      match c with
      | None => ps (wakeup (chan_nread pi)) ;; pi_unlock pi ;; ret (inr (Returned i))
      | Some ch => set_pipe pi (pi_push ch) ;; ret (inl (i + 1))
      end
  else ps (wakeup (chan_nread pi)) ;; pi_unlock pi ;; ret (inr (Returned i)).

Definition pipewrite_loop (me pi addr n i : Z) : M pipest run :=
  loop (S (Z.to_nat (n - i))) (pipewrite_body me pi addr n) i.

Definition pipewrite (me pi addr n : Z) : M pipest run :=
  pi_lock pi ;; pipewrite_loop me pi addr n 0.

(** The return from [sleep_interruptible] in the writer. *)
Definition pipewrite_resume (me pi addr n i : Z) (saved : bool) : M pipest run :=
  r <- ps (sleep_on_resume me (L_pipe pi) true saved) ;;
  if r <? 0 then pi_unlock pi ;; ret (Returned (partial i))
  else pipewrite_loop me pi addr n i.

Definition piperead_body (pi addr n : Z) (i : Z) : M pipest (Z + Z) :=
  if i <? n then
    p <- gets (fun s => pipe_at s pi) ;;
    if pi_empty p then ret (inr i)
    else
      set_pipe pi pi_pop ;;
      ok <- ps (copyout1 (u64 (addr + i)) (pi_head p)) ;;
      if ok then ret (inl (i + 1)) else ret (inr i)
  else ret (inr i).

Definition piperead_copy (pi addr n : Z) : M pipest run :=
  i <- loop (S (Z.to_nat n)) (piperead_body pi addr n) 0 ;;
  ps (wakeup (chan_nwrite pi)) ;;
  pi_unlock pi ;;
  ret (Returned i).

(** The [while] test of [piperead], once. *)
Definition piperead_test (me pi addr n : Z) : M pipest run :=
  p <- gets (fun s => pipe_at s pi) ;;
  if pi_empty p && pi_writeopen p then
    r <- ps (sleep_on_enter me (chan_nread pi) (L_pipe pi) true) ;;
    match r with
    | inl _ => pi_unlock pi ;; ret (Returned (-1))
    | inr saved => ret (Asleep 0 saved)
    end
  else piperead_copy pi addr n.

Definition piperead (me pi addr n : Z) : M pipest run :=
  pi_lock pi ;; piperead_test me pi addr n.

Definition piperead_resume (me pi addr n : Z) (saved : bool) : M pipest run :=
  r <- ps (sleep_on_resume me (L_pipe pi) true saved) ;;
  if r <? 0 then pi_unlock pi ;; ret (Returned (-1))
  else piperead_test me pi addr n.

End code.

(** The initialisation of a new pipe in [pipealloc]. *)
Definition pipe_init (data : list Z) : pipe := Pipe data 0 0 true true.

Section close.
Context {L : Linker}.

Definition pipeclose (pi : Z) (writable : bool) : M pipest unit :=
  pi_lock pi ;;
  (if writable then
     set_pipe pi (fun p => Pipe (pi_data p) (pi_nread p) (pi_nwrite p) (pi_readopen p) false) ;;
     ps (wakeup (chan_nread pi))
   else
     set_pipe pi (fun p => Pipe (pi_data p) (pi_nread p) (pi_nwrite p) false (pi_writeopen p)) ;;
     ps (wakeup (chan_nwrite pi))) ;;
  p <- gets (fun s => pipe_at s pi) ;;
  if negb (pi_readopen p) && negb (pi_writeopen p) then
    pi_unlock pi ;; ps (zoom (kfree_page pi))
  else pi_unlock pi.
End close.
