(* ===== verification/PipeProps.v ===== *)
(** * Correctness of pipes

    A pipe refines a FIFO queue of at most [PIPESIZE] bytes: what [pipewrite]
    takes from the user is appended, what [piperead] delivers is taken from
    the front, across the wrap-around of the 32-bit counters. *)

From S2P Require Import Prelude Riscv Memory Spinlock Kalloc Vm VmTree VmUnmap VmCheck VmProps Proctab Signal Sched SchedProps Pipe.
Import Hart.

(** ** The ring and its contents *)

Record pipe_inv (p : pipe) : Prop := {
  pin_len : length (pi_data p) = Z.to_nat PIPESIZE;
  pin_nread : 0 <= pi_nread p < 2 ^ 32;
  pin_nwrite : 0 <= pi_nwrite p < 2 ^ 32;
  pin_used : pi_used p <= PIPESIZE;
  pin_bytes : Forall (fun b => 0 <= b < 256) (pi_data p);
}.

Lemma pipe_contents_length p : length (pi_contents p) = Z.to_nat (pi_used p).
Proof. unfold pi_contents. by rewrite length_fmap, length_seqZ. Qed.

Lemma pi_used_range p : 0 <= pi_used p < 2 ^ 32.
Proof. apply u32_range. Qed.

Lemma full_iff p : pipe_inv p -> pi_full p = true <-> length (pi_contents p) = Z.to_nat PIPESIZE.
Proof.
  intros [_ H1 H2 H3 _]. rewrite pipe_contents_length. unfold pi_full, pi_used, u32, PIPESIZE in *. rewrite Z.eqb_eq.
  split; intros H; dlia.
Qed.

Lemma empty_iff p : pipe_inv p -> pi_empty p = true <-> pi_contents p = [].
Proof.
  intros [_ H1 H2 H3 _]. rewrite <- length_zero_iff_nil, pipe_contents_length. unfold pi_empty, pi_used, u32, PIPESIZE in *.
  rewrite Z.eqb_eq. split; intros H; dlia.
Qed.

Lemma push_fifo ch p : 0 <= ch < 256 -> pipe_inv p -> pi_full p = false ->
  pipe_inv (pi_push ch p) /\ pi_contents (pi_push ch p) = pi_contents p ++ [ch].
Proof.
  intros Hch [H0 H1 H2 H3 H4] Hf.
  assert (Hlt : pi_used p < PIPESIZE).
  { unfold pi_full in Hf. breflect. unfold pi_used, u32, PIPESIZE in *. dlia. }
  assert (Hu : pi_used (pi_push ch p) = pi_used p + 1) by (unfold pi_used, u32, PIPESIZE in *; simpl; unfold u32; dlia).
  split.
  - split; [simpl; by rewrite length_insert|done|apply u32_range|lia|by apply Forall_insert].
  - unfold pi_contents. rewrite Hu. pose proof (pi_used_range p).
    rewrite seqZ_app, fmap_app by lia. simpl. f_equal.
    + apply list_fmap_ext. intros i x Hx%lookup_seqZ. apply list_lookup_total_insert_ne.
      unfold pi_used, u32, PIPESIZE in *. dlia.
    + f_equal. assert (E : (pi_nread p + (0 + pi_used p)) mod PIPESIZE = pi_nwrite p mod PIPESIZE)
        by (unfold pi_used, u32, PIPESIZE in *; dlia).
      change (Z.of_nat 0 + (0 + pi_used p)) with (0 + pi_used p). rewrite E.
      apply list_lookup_total_insert_eq. rewrite H0. unfold PIPESIZE. dlia.
Qed.

Lemma pop_fifo p : pipe_inv p -> pi_empty p = false ->
  pipe_inv (pi_pop p) /\ pi_contents p = pi_head p :: pi_contents (pi_pop p).
Proof.
  intros [H0 H1 H2 H3 H4] Hf. unfold pi_empty in Hf. breflect.
  assert (Hu : pi_used p = pi_used (pi_pop p) + 1) by (unfold pi_used, u32, PIPESIZE in *; simpl; unfold u32; dlia).
  pose proof (pi_used_range (pi_pop p)) as Hr.
  split.
  - split; [done|apply u32_range|done|lia|done].
  - unfold pi_contents. rewrite Hu, (Z.add_comm _ 1), seqZ_app, fmap_app by lia. simpl. f_equal.
    + unfold pi_head. by rewrite Z.add_0_r.
    + rewrite Z.add_0_l. change 1 with (1 + 0). rewrite <- fmap_add_seqZ, <- list_fmap_compose. apply list_fmap_ext.
      intros i x Hx%lookup_seqZ. simpl. f_equal. f_equal. unfold u32, PIPESIZE. dlia.
Qed.

Lemma head_byte p : pipe_inv p -> 0 <= pi_head p < 256.
Proof.
  intros [H0 _ _ _ H4]. unfold pi_head. apply (Forall_lookup_total_1 _ _ _ H4). rewrite H0. unfold PIPESIZE. dlia.
Qed.

(** ** The copy interface and its laws

    [uread s a] is the byte of the caller's address space at [a], [None]
    where no access is possible; [uwritable] says where it can be written. *)

Definition mem_same (s s' : pst) : Prop :=
  ps_k s' = set_lk (lk_of s') (ps_k s) /\ (p_pagetable <$> ps_procs s') = (p_pagetable <$> ps_procs s).

Definition copy_keeps (s s' : pst) : Prop := lk_same (lk_of s) (lk_of s') /\ ps_procs s' = ps_procs s.

Class UserCopyLaws (UC : UserCopy) := {
  uc_inv : pst -> Prop;
  uread : pst -> Z -> option Z;
  uwritable : pst -> Z -> bool;
  uc_frame s s' : mem_same s s' -> uc_inv s ->
    uc_inv s' /\ (forall a, uread s' a = uread s a) /\ (forall a, uwritable s' a = uwritable s a);
  uread_byte s a b : uread s a = Some b -> 0 <= b < 256;
  copyin1_ok a s : uc_inv s ->
    wp (copyin1 a) (fun r s' => r = uread s a /\ uc_inv s' /\ copy_keeps s s' /\
      (forall b, uread s' b = uread s b)) s;
  copyout1_ok a c s : uc_inv s -> 0 <= c < 256 ->
    wp (copyout1 a c) (fun r s' => r = uwritable s a /\ uc_inv s' /\ copy_keeps s s' /\
      (forall b, uwritable s' b = uwritable s b) /\
      (forall b, uread s' b = if r && (b =? a) then Some c else uread s b)) s;
}.

Lemma woken_pagetable ch reason p : p_pagetable (woken ch reason p) = p_pagetable p.
Proof. unfold woken, promote_one. by repeat case_bool_. Qed.

(** Inside the critical section of one pipe. *)
Record in_pipe (pi : Z) (s : pst) : Prop := {
  ip_good : pgood s;
  ip_noff : noff (lk_of s) = 1;
  ip_held : held (lk_of s) = [L_pipe pi];
}.

Lemma in_pipe_sie pi s : in_pipe pi s -> sie (lk_of s) = false.
Proof. intros [Hg Hn _]. apply Hg. rewrite Hn. lia. Qed.

Lemma in_pipe_keeps pi s s' : copy_keeps s s' -> in_pipe pi s -> in_pipe pi s'.
Proof.
  intros [Hl Hp] [[G1 G2 G3] Hn Hh]. pose proof Hl as (E1 & _ & E3 & _). split; [split|by rewrite E1|by rewrite E3].
  - by eapply lk_same_ok.
  - intros j. rewrite E3. apply G2.
  - by rewrite Hp.
Qed.

Lemma in_pipe_relock pi l s : pgood s ->
  noff (lk_of (lput l s)) = 1 -> sie (lk_of (lput l s)) = false -> held (lk_of (lput l s)) = [L_pipe pi] ->
  in_pipe pi (lput l s).
Proof.
  intros Hg K1 K2 Hh2. simpl in K1, K2, Hh2. split; simpl; [|done|done]. split; simpl; [|intros i|apply Hg].
  - unfold lk_ok. rewrite K1, Hh2. split_and!; [simpl; lia|done|apply NoDup_singleton].
  - rewrite Hh2, list_elem_of_singleton. discriminate.
Qed.

Lemma ps_wp {A} (m : M pst A) Q s : wp m (fun a t => Q a (PipeSt t (pp_pipes s))) (pp_ps s) -> wp (ps m) Q s.
Proof. intros H. apply wp_zoom. exact H. Qed.

(** No lock held: the state in which the calls start and return. *)
Definition outside (s : pst) : Prop := pgood s /\ noff (lk_of s) = 0 /\ held (lk_of s) = [].

Lemma pi_lock_wp pi s : outside (pp_ps s) ->
  wp (pi_lock pi) (fun _ s' => in_pipe pi (pp_ps s') /\ mem_same (pp_ps s) (pp_ps s') /\
    ps_procs (pp_ps s') = ps_procs (pp_ps s) /\ pp_pipes s' = pp_pipes s) s.
Proof.
  intros (Hg & Hn & Hh). apply ps_wp, wp_zoom. change (lget (pp_ps s)) with (lk_of (pp_ps s)).
  eapply wp_mono; [apply acquire_wp; rewrite Hh; apply not_elem_of_nil|].
  intros [] l Hl. pose proof (lk_ok_taken _ _ _ (pg_lk _ Hg) ltac:(rewrite Hh; apply not_elem_of_nil) Hl) as Hok.
  destruct Hl as (T1 & T2 & T3 & T4). split; [|done]. split; [split|simpl; lia|simpl; by rewrite T3, Hh].
  - exact Hok.
  - intros i. simpl. rewrite T3, Hh, list_elem_of_singleton. discriminate.
  - apply Hg.
Qed.

Lemma pi_unlock_wp pi s : in_pipe pi (pp_ps s) ->
  wp (pi_unlock pi) (fun _ s' => outside (pp_ps s') /\ mem_same (pp_ps s) (pp_ps s') /\
    ps_procs (pp_ps s') = ps_procs (pp_ps s) /\ pp_pipes s' = pp_pipes s) s.
Proof.
  intros Hip. pose proof (in_pipe_sie _ _ Hip) as Hs. destruct Hip as [Hg Hn Hh]. apply ps_wp, wp_zoom.
  change (lget (pp_ps s)) with (lk_of (pp_ps s)).
  eapply wp_mono; [apply (release_wp _ (Lkst 0 false (intena (lk_of (pp_ps s))) [])); [apply lk_ok_0|apply not_elem_of_nil|]|].
  - unfold taken. simpl. by rewrite Hn, Hs, Hh.
  - intros [] l Hl. pose proof (lk_same_ok _ _ Hl (lk_ok_0 _)) as Hok. destruct Hl as (T1 & T2 & T3 & T4). split; [|done].
    split; [split|done]; [exact Hok| |apply Hg]. intros i. simpl. rewrite T3. apply not_elem_of_nil.
Qed.

#[local] Instance mem_same_preorder : PreOrder mem_same.
Proof.
  split.
  - intros s. split; [by destruct s as [[] ? ? ? ? ? ? ? ?]|done].
  - intros s1 s2 s3 [A1 A2] [B1 B2]. split; [rewrite B1, A1; done|by rewrite B2].
Qed.

Lemma wake_mem_same ch reason s s' :
  wake_frame s s' -> ps_procs s' = woken ch reason <$> ps_procs s -> mem_same s s'.
Proof.
  intros [_ (cs & n & Hs & _)] Hp. split; [rewrite Hs; done|]. rewrite Hp, <- list_fmap_compose.
  apply list_fmap_ext. intros i p _. apply woken_pagetable.
Qed.

Lemma pipe_wakeup_wp pi ch s : in_pipe pi (pp_ps s) ->
  wp (ps (wakeup ch)) (fun _ s' => in_pipe pi (pp_ps s') /\ mem_same (pp_ps s) (pp_ps s') /\
    ps_procs (pp_ps s') = woken ch WAKEUP_NORMAL <$> ps_procs (pp_ps s) /\ pp_pipes s' = pp_pipes s) s.
Proof.
  intros [Hg Hn Hh]. apply ps_wp. eapply wp_mono; [by apply wakeup_wp|]. intros [] s' (Hg' & Hf & Hp).
  split; [|split; [by eapply wake_mem_same|done]].
  destruct Hf as [(E1 & _ & E3 & _) _]. split; [done|simpl; by rewrite E1|simpl; by rewrite E3].
Qed.

(** The common end of both calls: wake the other side and leave. *)
Lemma wake_unlock_wp {A} pi ch (x : A) s : in_pipe pi (pp_ps s) ->
  wp (ps (wakeup ch) ;; pi_unlock pi ;; ret x) (fun r s' => r = x /\ outside (pp_ps s') /\ mem_same (pp_ps s) (pp_ps s') /\
    ps_procs (pp_ps s') = woken ch WAKEUP_NORMAL <$> ps_procs (pp_ps s) /\ pp_pipes s' = pp_pipes s) s.
Proof.
  intros Hip. wp_step. eapply wp_mono; [by apply pipe_wakeup_wp|]. intros [] s1 (H1 & H2 & H3 & H4).
  wp_step. eapply wp_mono; [by apply pi_unlock_wp|]. intros [] s2 (K1 & K2 & K3 & K4). wp_go.
  split_and!; [done|done|by etrans|congruence|congruence].
Qed.

Section transfer.
Context {UC : UserCopy} {UCL : UserCopyLaws UC}.
Context (me pi addr n : Z).
Hypothesis Hme : 0 <= me < NPROC.

(** The user bytes [addr .. addr + length bs) are [bs]. *)
Definition user_bytes (s : pst) (bs : list Z) : Prop :=
  forall j b, bs !! j = Some b -> uread s (u64 (addr + Z.of_nat j)) = Some b.

(** Where a writer stands after [length bs] bytes. *)
Record writing (s0 : pipest) (bs : list Z) (s : pipest) : Prop := {
  wr_in : in_pipe pi (pp_ps s);
  wr_uc : uc_inv (pp_ps s);
  wr_read a : uread (pp_ps s) a = uread (pp_ps s0) a;
  wr_procs : ps_procs (pp_ps s) = ps_procs (pp_ps s0);
  wr_inv : pipe_inv (pipe_at s pi);
  wr_open : pi_readopen (pipe_at s pi) = true;
  wr_cont : pi_contents (pipe_at s pi) = pi_contents (pipe_at s0 pi) ++ bs;
  wr_bytes : user_bytes (pp_ps s0) bs;
}.

(** How a call of [pipewrite] with the reader open can end after the bytes
    [bs] were queued. *)
Definition write_end (s0 : pipest) (bs : list Z) (r : run) (s : pipest) : Prop :=
  let k := Z.of_nat (length bs) in
  pipe_inv (pipe_at s pi) /\ pi_contents (pipe_at s pi) = pi_contents (pipe_at s0 pi) ++ bs /\
  user_bytes (pp_ps s0) bs /\
  match r with
  | Returned x =>
      outside (pp_ps s) /\ ps_procs (pp_ps s) = woken (chan_nread pi) WAKEUP_NORMAL <$> ps_procs (pp_ps s0) /\
      (x = k /\ (n <= k \/ uread (pp_ps s0) (u64 (addr + k)) = None) \/
       x = partial k /\ k < n /\ pi_full (pipe_at s pi) = true /\ signal_pending_locked (proc_at (pp_ps s0) me) = true)
  | Asleep i _ =>
      i = k /\ k < n /\ pi_full (pipe_at s pi) = true /\ held (lk_of (pp_ps s)) = [L_proc me] /\
      proc_at (pp_ps s) me = asleep_on (chan_nwrite pi) true (woken (chan_nread pi) WAKEUP_NORMAL (proc_at (pp_ps s0) me))
  end.

Lemma pipe_at_same s s' : pp_pipes s' = pp_pipes s -> pipe_at s' pi = pipe_at s pi.
Proof. unfold pipe_at. by intros ->. Qed.

Lemma pipe_at_set f s : pipe_at (PipeSt (pp_ps s) (<[pi := f (pipe_at s pi)]> (pp_pipes s))) pi = f (pipe_at s pi).
Proof. unfold pipe_at at 1. simpl. by rewrite lookup_insert_eq. Qed.

Lemma write_done s0 bs s x : writing s0 bs s ->
  (n <= Z.of_nat (length bs) \/ uread (pp_ps s0) (u64 (addr + Z.of_nat (length bs))) = None) -> x = Z.of_nat (length bs) ->
  wp (ps (wakeup (chan_nread pi)) ;; pi_unlock pi ;; ret (inr (A := Z) (Returned x)))
    (fun y s' => exists r, y = inr r /\ write_end s0 bs r s') s.
Proof.
  intros [W1 W2 W3 W4 W5 W6 W7 W8] Hend ->. eapply wp_mono; [by apply wake_unlock_wp|].
  intros y s' (-> & H1 & H2 & H3 & H4). eexists. split; [done|]. unfold write_end.
  rewrite (pipe_at_same _ _ H4), H3, W4. split_and!; try done. by left.
Qed.

(** Lookups of a byte list that grows at its end. *)
Lemma user_bytes_snoc s bs b :
  user_bytes s bs -> uread s (u64 (addr + Z.of_nat (length bs))) = Some b -> user_bytes s (bs ++ [b]).
Proof.
  intros Hbs Hb j c Hj. apply lookup_app_Some in Hj as [Hj|[Hle Hj]]; [by apply Hbs|].
  apply list_lookup_singleton_Some in Hj as [Hj ->]. by replace j with (length bs) by lia.
Qed.

Lemma woken_signal ch reason p : signal_pending_locked (woken ch reason p) = signal_pending_locked p.
Proof. unfold woken, promote_one. by repeat case_bool_. Qed.

(** The writer meets a full pipe. *)
Lemma write_full s0 bs s : writing s0 bs s -> pi_full (pipe_at s pi) = true -> Z.of_nat (length bs) < n ->
  wp (ps (wakeup (chan_nread pi)) ;;
      r <- ps (sleep_on_enter me (chan_nwrite pi) (L_pipe pi) true) ;;
      match r with
      | inl _ => pi_unlock pi ;; ret (inr (A := Z) (Returned (partial (Z.of_nat (length bs)))))
      | inr saved => ret (inr (Asleep (Z.of_nat (length bs)) saved))
      end) (fun y s' => exists r, y = inr r /\ write_end s0 bs r s') s.
Proof.
  intros [W1 W2 W3 W4 W5 W6 W7 W8] Hfull Hk. wp_step. eapply wp_mono; [by apply pipe_wakeup_wp|].
  intros [] s1 (H1 & H2 & H3 & H4). wp_step. apply ps_wp. destruct H1 as [Hg1 Hn1 Hh1].
  eapply wp_mono; [by apply sleep_enter_wp|]. intros r s2 (K1 & K2 & K3).
  assert (Hme1 : proc_at (pp_ps s1) me = woken (chan_nread pi) WAKEUP_NORMAL (proc_at (pp_ps s0) me)).
  { unfold proc_at. rewrite H3, W4. apply woken_at; [|done]. rewrite <- W4. apply W1. }
  rewrite Hme1, woken_signal in K3. simpl andb in K3.
  destruct (signal_pending_locked (proc_at (pp_ps s0) me)) eqn:Esig.
  - destruct K3 as (-> & Hh2 & l & ->).
    assert (Hip : in_pipe pi (lput l (pp_ps s1))) by by apply in_pipe_relock.
    wp_step. eapply wp_mono; [by apply pi_unlock_wp|]. intros [] s3 (L1 & L2 & L3 & L4). wp_go.
    eexists. split; [done|]. unfold write_end. rewrite (pipe_at_same s s3) by (simpl in L4; congruence).
    split_and!; try done; [simpl in L3; congruence|]. right. done.
  - destruct K3 as (saved & -> & Hh2 & l & ->). wp_go. eexists. split; [done|]. unfold write_end.
    rewrite (pipe_at_same s (PipeSt _ _)) by done. split_and!; try done. rewrite <- Hme1. simpl. unfold upd_proc.
    apply list_lookup_total_insert_eq. rewrite (pg_len _ Hg1). lia.
Qed.

(** One more byte from the user. *)
Lemma write_byte s0 bs s : writing s0 bs s -> pi_full (pipe_at s pi) = false -> Z.of_nat (length bs) < n ->
  wp (c <- ps (copyin1 (u64 (addr + Z.of_nat (length bs)))) ;;
      match c with
      | None => ps (wakeup (chan_nread pi)) ;; pi_unlock pi ;; ret (inr (Returned (Z.of_nat (length bs))))
      | Some ch => set_pipe pi (pi_push ch) ;; ret (inl (Z.of_nat (length bs) + 1))
      end) (fun y s' =>
        match y with
        | inl i => exists b, i = Z.of_nat (length (bs ++ [b])) /\ writing s0 (bs ++ [b]) s'
        | inr r => write_end s0 bs r s'
        end) s.
Proof.
  intros W Hfull Hk. pose proof W as [W1 W2 W3 W4 W5 W6 W7 W8]. wp_step. apply ps_wp.
  eapply wp_mono; [by apply copyin1_ok|]. intros c s1 (-> & U & K & R). rewrite W3.
  destruct (uread (pp_ps s0) (u64 (addr + Z.of_nat (length bs)))) as [b|] eqn:Eb.
  - unfold set_pipe. wp_go. exists b. split; [rewrite length_app; simpl; lia|].
    destruct (push_fifo b (pipe_at s pi) (uread_byte _ _ _ Eb) W5 Hfull) as [P1 P2].
    pose proof (pipe_at_set (pi_push b) (PipeSt s1 (pp_pipes s))) as Hat. cbv beta in Hat.
    change (pp_ps (PipeSt s1 (pp_pipes s))) with s1 in *. change (pp_pipes (PipeSt s1 (pp_pipes s))) with (pp_pipes s) in *.
    change (pipe_at (PipeSt s1 (pp_pipes s)) pi) with (pipe_at s pi) in *.
    split; rewrite ?Hat; [by eapply in_pipe_keeps|done| | |done|done| |by apply user_bytes_snoc].
    + intros a. by rewrite R.
    + destruct K as [_ K]. simpl. by rewrite K.
    + by rewrite P2, W7, app_assoc.
  - assert (W' : writing s0 bs (PipeSt s1 (pp_pipes s))).
    { split; simpl; [by eapply in_pipe_keeps|done|intros a; by rewrite R|destruct K as [_ ->]; done|done|done|done|done]. }
    eapply wp_mono; [apply (write_done s0 bs _ _ W'); [by right|done]|]. intros y s' (r & -> & Hr). exact Hr.
Qed.

Lemma write_loop_wp s0 s bs : writing s0 bs s ->
  wp (pipewrite_loop me pi addr n (Z.of_nat (length bs))) (fun r s' => exists bs', write_end s0 bs' r s') s.
Proof.
  intros HW. unfold pipewrite_loop.
  apply (wp_loop (fun i s => exists bs, i = Z.of_nat (length bs) /\ writing s0 bs s) (fun i => Z.to_nat (n - i)));
    [|by exists bs|lia].
  clear s bs HW. intros i s (bs & -> & W). unfold pipewrite_body.
  pose proof (wr_open _ _ _ W) as Hopen. case_bool as E.
  - wp_step. wp_step. rewrite Hopen, andb_true_r. destruct (pi_full (pipe_at s pi)) eqn:Ef.
    + eapply wp_mono; [by apply write_full|]. intros y s' (r & -> & Hr). by exists bs.
    + simpl negb. cbv iota. eapply wp_mono; [by apply write_byte|]. intros [i|r] s'.
      * intros (b & -> & W'). split; [by exists (bs ++ [b])|]. rewrite length_app. simpl. lia.
      * intros Hr. by exists bs.
  - eapply wp_mono; [apply (write_done s0 bs); [exact W|left; lia|done]|]. intros y s' (r & -> & Hr). by exists bs.
Qed.

(** Where a reader stands after [bs] was delivered; [lost] was taken off the
    pipe but could not be stored. *)
Record reading (s0 : pipest) (bs lost : list Z) (s : pipest) : Prop := {
  rd_in : in_pipe pi (pp_ps s);
  rd_uc : uc_inv (pp_ps s);
  rd_procs : ps_procs (pp_ps s) = ps_procs (pp_ps s0);
  rd_wr a : uwritable (pp_ps s) a = uwritable (pp_ps s0) a;
  rd_inv : pipe_inv (pipe_at s pi);
  rd_cont : pi_contents (pipe_at s0 pi) = bs ++ lost ++ pi_contents (pipe_at s pi);
  rd_bytes : user_bytes (pp_ps s) bs;
  rd_other a : ~ addr <= a < addr + Z.of_nat (length bs) -> uread (pp_ps s) a = uread (pp_ps s0) a;
}.

(** Why the copy loop stops. *)
Definition read_stop (s0 : pipest) (bs lost : list Z) (left : list Z) : Prop :=
  (lost = [] /\ (n <= Z.of_nat (length bs) \/ left = [])) \/
  (exists b, lost = [b] /\ Z.of_nat (length bs) < n /\ uwritable (pp_ps s0) (u64 (addr + Z.of_nat (length bs))) = false).

Hypothesis Haddr : 0 <= addr /\ addr + n <= 2 ^ 64.

Lemma read_byte s0 bs s : reading s0 bs [] s -> pi_empty (pipe_at s pi) = false -> Z.of_nat (length bs) < n ->
  wp (set_pipe pi pi_pop ;;
      ok <- ps (copyout1 (u64 (addr + Z.of_nat (length bs))) (pi_head (pipe_at s pi))) ;;
      if ok then ret (inl (Z.of_nat (length bs) + 1)) else ret (inr (Z.of_nat (length bs))))
    (fun y s' =>
       match y with
       | inl i => exists b, i = Z.of_nat (length (bs ++ [b])) /\ reading s0 (bs ++ [b]) [] s'
       | inr i => i = Z.of_nat (length bs) /\ exists b, reading s0 bs [b] s' /\
           uwritable (pp_ps s0) (u64 (addr + Z.of_nat (length bs))) = false
       end) s.
Proof.
  intros [R1 R2 R3 R4 R5 R6 R7 R8] He Hk. destruct Haddr as [Ha1 Ha2].
  destruct (pop_fifo (pipe_at s pi) R5 He) as [P1 P2]. set (b := pi_head (pipe_at s pi)) in *.
  wp_step. unfold set_pipe. wp_step. pose proof (pipe_at_set pi_pop s) as Hat. set (s1 := PipeSt _ _) in *.
  wp_step. apply ps_wp. eapply wp_mono; [by apply (copyout1_ok _ _ (pp_ps s1)), head_byte|].
  intros ok s2 (Hok & U & K & W & R). change (pp_ps s1) with (pp_ps s) in *. rewrite R4 in Hok.
  assert (Hat2 : pipe_at (PipeSt s2 (pp_pipes s1)) pi = pi_pop (pipe_at s pi)) by exact Hat.
  assert (Hin : in_pipe pi s2) by by eapply in_pipe_keeps.
  destruct K as [_ Kp]. rewrite (u64_small (addr + _)) in * by lia.
  simpl app in R6. rewrite P2 in R6.
  assert (Hold : user_bytes s2 bs).
  { intros j c Hj. rewrite R. pose proof (lookup_lt_Some _ _ _ Hj). rewrite (u64_small (addr + Z.of_nat j)) by lia.
    destruct (Z.eqb_spec (addr + Z.of_nat j) (addr + Z.of_nat (length bs))) as [|_]; [lia|]. rewrite andb_false_r.
    rewrite <- (u64_small (addr + Z.of_nat j)) by lia. by apply R7. }
  destruct ok.
  - wp_go. exists b. split; [rewrite length_app; simpl; lia|].
    split; rewrite ?Hat2; [exact Hin|exact U|simpl; congruence|intros a; simpl; by rewrite W|exact P1| | |].
    + rewrite R6, <- app_assoc. done.
    + apply user_bytes_snoc; [exact Hold|]. rewrite (u64_small (addr + _)) by lia. simpl. rewrite R, Z.eqb_refl. done.
    + intros a Hna. rewrite length_app in Hna. simpl in Hna |- *. rewrite R.
      destruct (Z.eqb_spec a (addr + Z.of_nat (length bs))) as [|_]; [lia|]. simpl. apply R8. lia.
  - wp_go. split; [done|]. exists b. split; [|done].
    split; rewrite ?Hat2; [exact Hin|exact U|simpl; congruence|intros a; simpl; by rewrite W|exact P1|exact R6|exact Hold|].
    intros a Hna. simpl. rewrite R. simpl. by apply R8.
Qed.

Lemma read_loop_wp s0 s : reading s0 [] [] s ->
  wp (loop (S (Z.to_nat n)) (piperead_body pi addr n) 0) (fun i s' => exists bs lost,
    i = Z.of_nat (length bs) /\ reading s0 bs lost s' /\ read_stop s0 bs lost (pi_contents (pipe_at s' pi))) s.
Proof.
  intros HR.
  apply (wp_loop (fun i s => exists bs, i = Z.of_nat (length bs) /\ reading s0 bs [] s) (fun i => Z.to_nat (n - i)));
    [|by exists []|lia].
  clear s HR. intros i s (bs & -> & R). unfold piperead_body. case_bool as E.
  - wp_step. wp_step. destruct (pi_empty (pipe_at s pi)) eqn:Ee.
    + wp_go. exists bs, []. split; [done|]. split; [done|]. left. split; [done|]. right. apply empty_iff; [apply R|done].
    + eapply wp_mono; [by apply read_byte|]. intros [i|i] s'.
      * intros (b & -> & R'). split; [by exists (bs ++ [b])|]. rewrite length_app. simpl. lia.
      * intros (-> & b & R' & Hw). exists bs, [b]. split; [done|]. split; [done|]. right. by exists b.
  - wp_go. exists bs, []. split; [done|]. split; [done|]. left. split; [done|]. by left.
Qed.

(** How a call of [piperead] ends. *)
Definition read_end (s0 : pipest) (r : run) (s : pipest) : Prop :=
  let p0 := pipe_at s0 pi in
  if pi_empty p0 && pi_writeopen p0 then
    pipe_at s pi = p0 /\
    if signal_pending_locked (proc_at (pp_ps s0) me) then r = Returned (-1) /\ outside (pp_ps s)
    else exists saved, r = Asleep 0 saved /\ held (lk_of (pp_ps s)) = [L_proc me] /\
      proc_at (pp_ps s) me = asleep_on (chan_nread pi) true (proc_at (pp_ps s0) me)
  else exists bs lost, r = Returned (Z.of_nat (length bs)) /\
    pi_contents p0 = bs ++ lost ++ pi_contents (pipe_at s pi) /\ pipe_inv (pipe_at s pi) /\
    read_stop s0 bs lost (pi_contents (pipe_at s pi)) /\
    user_bytes (pp_ps s) bs /\
    (forall a, ~ addr <= a < addr + Z.of_nat (length bs) -> uread (pp_ps s) a = uread (pp_ps s0) a) /\
    outside (pp_ps s) /\ ps_procs (pp_ps s) = woken (chan_nwrite pi) WAKEUP_NORMAL <$> ps_procs (pp_ps s0).

Lemma piperead_wp s : outside (pp_ps s) -> uc_inv (pp_ps s) -> pipe_inv (pipe_at s pi) ->
  wp (piperead me pi addr n) (read_end s) s.
Proof.
  intros Hout Huc Hinv. unfold piperead. wp_step. eapply wp_mono; [by apply pi_lock_wp|].
  intros [] s1 (H1 & H2 & H3 & H4). destruct (uc_frame _ _ H2 Huc) as (U1 & U2 & U3).
  pose proof (pipe_at_same s s1 H4) as Hat. unfold piperead_test. wp_step. wp_step. unfold read_end. rewrite Hat.
  assert (Hme1 : proc_at (pp_ps s1) me = proc_at (pp_ps s) me) by (unfold proc_at; by rewrite H3).
  destruct (pi_empty (pipe_at s pi) && pi_writeopen (pipe_at s pi)) eqn:E.
  - pose proof H1 as [Hg1 Hn1 Hh1]. wp_step. apply ps_wp. eapply wp_mono; [by apply sleep_enter_wp|].
    intros r s2 (K1 & K2 & K3). rewrite Hme1 in K3. simpl andb in K3.
    destruct (signal_pending_locked (proc_at (pp_ps s) me)).
    + destruct K3 as (-> & Hh2 & l & ->). wp_step. eapply wp_mono; [apply (pi_unlock_wp pi)|].
      { by apply in_pipe_relock. }
      intros [] s3 (L1 & L2 & L3 & L4). wp_go. split; [|done]. by rewrite (pipe_at_same s1 s3).
    + destruct K3 as (saved & -> & Hh2 & l & ->). wp_go. split; [exact Hat|]. exists saved. split; [done|]. split; [done|].
      rewrite <- Hme1. simpl. unfold upd_proc. apply list_lookup_total_insert_eq. rewrite (pg_len _ Hg1). lia.
  - unfold piperead_copy. wp_step. eapply wp_mono; [apply (read_loop_wp s1)|].
    { split; try done. by rewrite Hat. }
    intros i s2 (bs & lost & -> & [R1 R2 R3 R4 R5 R6 R7 R8] & Hstop).
    eapply wp_mono; [by apply wake_unlock_wp|]. intros r s3 (-> & L1 & L2 & L3 & L4).
    destruct (uc_frame _ _ L2 R2) as (V1 & V2 & V3). pose proof (pipe_at_same s2 s3 L4) as Hat3.
    exists bs, lost. rewrite Hat3. split; [done|]. split; [by rewrite <- Hat|]. split; [done|]. split; [|split; [|split; [|split; [done|]]]].
    + destruct Hstop as [|(b & ? & ? & Hw)]; [by left|]. right. exists b. by rewrite U3 in Hw.
    + intros j b Hj. rewrite V2. by apply R7.
    + intros a Ha. rewrite V2, R8, U2 by done. done.
    + rewrite L3, R3, H3. done.
Qed.

Lemma pipewrite_wp s : outside (pp_ps s) -> uc_inv (pp_ps s) -> pipe_inv (pipe_at s pi) ->
  pi_readopen (pipe_at s pi) = true ->
  wp (pipewrite me pi addr n) (fun r s' => exists bs, write_end s bs r s') s.
Proof.
  intros Hout Huc Hinv Hopen. unfold pipewrite. wp_step. eapply wp_mono; [by apply pi_lock_wp|].
  intros [] s1 (H1 & H2 & H3 & H4). destruct (uc_frame _ _ H2 Huc) as (U1 & U2 & U3).
  pose proof (pipe_at_same s s1 H4) as Hat.
  apply (write_loop_wp s s1 []). split; rewrite ?Hat; try done. by rewrite app_nil_r.
Qed.
End transfer.

(** ** Properties *)

(** the ring of a pipe is a FIFO queue over 32-bit counters that wrap.
    A pipe is full exactly when it holds [PIPESIZE] bytes and empty exactly
    when it holds none; storing a byte in a pipe that is not full appends it;
    taking a byte from a pipe that is not empty removes the first one. *)
Theorem pipe_ring_is_fifo p ch :
  pipe_inv p -> 0 <= ch < 256 ->
  (pi_full p = true <-> length (pi_contents p) = Z.to_nat PIPESIZE) /\
  (pi_empty p = true <-> pi_contents p = []) /\
  (pi_full p = false -> pipe_inv (pi_push ch p) /\ pi_contents (pi_push ch p) = pi_contents p ++ [ch]) /\
  (pi_empty p = false -> pipe_inv (pi_pop p) /\ pi_contents p = pi_head p :: pi_contents (pi_pop p)).
Proof.
  intros Hp Hc. split; [by apply full_iff|]. split; [by apply empty_iff|]. split; [by apply push_fifo|by apply pop_fifo].
Qed.

Section claims.
Context {UC : UserCopy} {UCL : UserCopyLaws UC}.

(** [pipewrite] appends a prefix of the caller's bytes.  With the read
    end open the run terminates; the queue grows by the first [k] bytes of
    the buffer, in order.  The call has returned [k] with everything written
    or the next byte unreadable, waking the readers and releasing the lock;
    or a signal interrupted it at a full pipe and it returns [k], -1 if no
    byte was written; or it is asleep on a full pipe with [k] bytes done,
    having woken the readers and holding only its own process lock. *)
Theorem pipewrite_appends me pi addr n s :
  0 <= me < NPROC -> outside (pp_ps s) -> uc_inv (pp_ps s) -> pipe_inv (pipe_at s pi) ->
  pi_readopen (pipe_at s pi) = true ->
  exists r s' bs, pipewrite me pi addr n s = Ok r s' /\ write_end me pi addr n s bs r s'.
Proof.
  intros Hme Hout Huc Hinv Hopen.
  destruct (wp_Ok _ _ _ (pipewrite_wp me pi addr n Hme s Hout Huc Hinv Hopen)) as (r & s' & E & bs & H).
  by exists r, s', bs.
Qed.

(** [piperead] delivers the front of the queue.  The run terminates.  On
    an empty pipe with a writer it sleeps on the pipe, or returns -1 when a
    signal is pending; otherwise it stores the first [k] bytes in the
    caller's buffer in order, touches no other user byte, wakes the writers
    and returns [k], having stopped because [n] bytes were read, the pipe is
    empty, or the next address cannot be written.  In the last case, and only
    then, one byte has left the pipe without being delivered. *)
Theorem piperead_delivers_front me pi addr n s :
  0 <= me < NPROC -> 0 <= addr /\ addr + n <= 2 ^ 64 ->
  outside (pp_ps s) -> uc_inv (pp_ps s) -> pipe_inv (pipe_at s pi) ->
  exists r s', piperead me pi addr n s = Ok r s' /\ read_end me pi addr n s r s'.
Proof. intros Hme Ha Hout Huc Hinv. exact (wp_Ok _ _ _ (piperead_wp me pi addr n Hme Ha s Hout Huc Hinv)). Qed.
End claims.

(** ** A concrete pipe

    The caller's address space is the flat kernel memory below [MAXUVA]; the
    pipe's counters are about to wrap around. *)

Module PipeDemo.
Import Kalloc.Demo VmProps.VmDemo SchedProps.SchedDemo.

Definition flat_read (s : pst) (a : Z) : option Z :=
  if a <? MAXUVA then Some (ld8 (k_mem (ps_k s)) a) else None.

#[local] Instance flat_copy : UserCopy := {|
  copyin1 a := gets (fun s => flat_read s a);
  copyout1 a c := fun s =>
    if a <? MAXUVA then Ok true (set_ps_k (set_mem (fun m => st8 m a c) (ps_k s)) s) else Ok false s;
|}.

#[local] Instance flat_laws : UserCopyLaws flat_copy.
Proof.
  refine {| uc_inv := fun _ => True; uread := flat_read; uwritable := fun _ a => a <? MAXUVA |}.
  - intros s s' [H _] _. split; [done|]. split; [|done]. intros a. unfold flat_read. by rewrite H.
  - intros s a b. unfold flat_read. case_bool_; [|done]. intros [= <-]. apply ld8_range.
  - intros a s _. simpl. wp_go. by repeat split.
  - intros a c s _ Hc. unfold wp. simpl. destruct (a <? MAXUVA) eqn:E; (split; [done|]); (split; [done|]); (split; [by repeat split|]);
      (split; [done|]); intros b; [|done].
    unfold flat_read. simpl. rewrite ld8_st8. destruct (Z.eqb_spec b a) as [->|].
    + rewrite E, Z.eqb_refl, u8_small by lia. done.
    + destruct (Z.eqb_spec a b) as [|_]; [congruence|]. done.
Defined.

Definition wrapped : pipe := Pipe (replicate (Z.to_nat PIPESIZE) 9) (2 ^ 32 - 2) 1 true true.
Definition pipe_state : pipest := PipeSt sched_state {[ 4096 := wrapped ]}.

Lemma wrapped_inv : pipe_inv wrapped.
Proof. by split; [reflexivity| | | |apply Forall_replicate]. Qed.

Lemma wrapped_at : pipe_at pipe_state 4096 = wrapped.
Proof. reflexivity. Qed.

Lemma sched_outside : outside sched_state.
Proof. split; [exact sched_good|]. by split; vm_compute. Qed.

Lemma pipe_ring_is_fifo_witness : pi_contents (pi_push 7 wrapped) = [9; 9; 9; 7].
Proof.
  assert (Hc : 0 <= 7 < 256) by lia.
  destruct (pipe_ring_is_fifo wrapped 7 wrapped_inv Hc) as (_ & _ & H & _).
  destruct (H eq_refl) as [_ E]. rewrite E. reflexivity.
Defined.

Lemma pipewrite_appends_witness :
  exists r s' bs, pipewrite 5 4096 100 3 pipe_state = Ok r s' /\ write_end 5 4096 100 3 pipe_state bs r s'.
Proof.
  assert (H5 : 0 <= 5 < NPROC) by (unfold NPROC; lia).
  exact (pipewrite_appends 5 4096 100 3 pipe_state H5 sched_outside I wrapped_inv eq_refl).
Defined.

Lemma piperead_delivers_front_witness :
  exists r s', piperead 5 4096 100 3 pipe_state = Ok r s' /\ read_end 5 4096 100 3 pipe_state r s'.
Proof.
  assert (H5 : 0 <= 5 < NPROC) by (unfold NPROC; lia).
  assert (Ha : 0 <= 100 /\ 100 + 3 <= 2 ^ 64) by lia.
  exact (piperead_delivers_front 5 4096 100 3 pipe_state H5 Ha sched_outside I wrapped_inv).
Defined.

End PipeDemo.
