(* ===== verification/Ringbuffer.v ===== *)
(** * The byte ring buffer (src/kernel/driver/ringbuffer.c)

    Receive buffer of the UART drivers and the console.  The backing array has
    [capacity + 1] slots, one of them always unused.  [rb_contents] is the
    queue the buffer represents; every operation is shown to be the
    corresponding queue operation. *)

From S2P Require Import Prelude.

Record ringbuffer := Ringbuffer {
  rb_buf : list Z;       (** uint8 *buf, capacity + 1 slots *)
  rb_capacity : Z;
  rb_head : Z;
  rb_tail : Z;
}.

Definition ringbuffer_init (buf : list Z) (capacity : Z) : ringbuffer := Ringbuffer buf capacity 0 0.

Definition ringbuffer_capacity (r : ringbuffer) : Z := rb_capacity r.

Definition ringbuffer_used (r : ringbuffer) : Z :=
  if rb_head r <=? rb_tail r then u32 (rb_tail r - rb_head r)
  else u32 (rb_capacity r + 1 - rb_head r + rb_tail r).

Definition ringbuffer_free (r : ringbuffer) : Z := u32 (rb_capacity r - ringbuffer_used r).

Definition ringbuffer_empty (r : ringbuffer) : bool := rb_head r =? rb_tail r.

Definition ringbuffer_full (r : ringbuffer) : bool :=
  u32 (rb_tail r + 1) mod u32 (rb_capacity r + 1) =? rb_head r.

Definition ringbuffer_push (c : Z) (r : ringbuffer) : Z * ringbuffer :=
  if ringbuffer_full r then (0, r)
  else (1, Ringbuffer (<[Z.to_nat (rb_tail r) := u8 c]> (rb_buf r)) (rb_capacity r) (rb_head r)
             (u32 (rb_tail r + 1) mod u32 (rb_capacity r + 1))).

(** The byte read is [None] when the buffer is empty and [*out] is untouched. *)
Definition ringbuffer_pop (r : ringbuffer) : option Z * ringbuffer :=
  if ringbuffer_empty r then (None, r)
  else (Some (rb_buf r !!! Z.to_nat (rb_head r)),
        Ringbuffer (rb_buf r) (rb_capacity r)
          (u32 (rb_head r + 1) mod u32 (rb_capacity r + 1)) (rb_tail r)).

Definition ringbuffer_reset (r : ringbuffer) : ringbuffer := Ringbuffer (rb_buf r) (rb_capacity r) 0 0.

(** ** Invariant and abstraction *)

Record rb_ok (r : ringbuffer) : Prop := {
  rb_cap : 0 < rb_capacity r < 2 ^ 32 - 1;
  rb_head_ok : 0 <= rb_head r <= rb_capacity r;
  rb_tail_ok : 0 <= rb_tail r <= rb_capacity r;
  rb_len : Z.of_nat (length (rb_buf r)) = rb_capacity r + 1;
}.

(** Number of queued bytes, and the [k]-th slot from the head. *)
Definition rb_count (r : ringbuffer) : Z := (rb_tail r - rb_head r) mod (rb_capacity r + 1).
Definition rb_slot (r : ringbuffer) (k : Z) : Z := (rb_head r + k) mod (rb_capacity r + 1).

Definition rb_contents (r : ringbuffer) : list Z :=
  (fun k => rb_buf r !!! Z.to_nat (rb_slot r k)) <$> seqZ 0 (rb_count r).

Lemma wrap_small n x : 0 <= x < n -> x mod n = x.
Proof. apply Z.mod_small. Qed.

Lemma wrap_once n x : 0 < n -> n <= x < 2 * n -> x mod n = x - n.
Proof. intros Hn Hx. symmetry. apply (Z.mod_unique_pos x n 1); lia. Qed.

Lemma wrap_neg n x : 0 < n -> - n <= x < 0 -> x mod n = x + n.
Proof. intros Hn Hx. symmetry. apply (Z.mod_unique_pos x n (-1)); lia. Qed.

(** The machine expression [(x + 1) % (capacity + 1)]. *)
Lemma next_slot r x :
  rb_ok r -> 0 <= x <= rb_capacity r ->
  u32 (x + 1) mod u32 (rb_capacity r + 1) = if x =? rb_capacity r then 0 else x + 1.
Proof.
  intros [Hc _ _ _] Hx. rewrite !u32_small by lia. destruct (Z.eqb_spec x (rb_capacity r)) as [->|].
  - apply Z_mod_same_full.
  - apply wrap_small. lia.
Qed.

Lemma rb_count_cases r :
  rb_ok r -> rb_count r = if rb_head r <=? rb_tail r then rb_tail r - rb_head r
                          else rb_capacity r + 1 - rb_head r + rb_tail r.
Proof.
  intros [? ? ? ?]. unfold rb_count. destruct (Z.leb_spec (rb_head r) (rb_tail r)).
  - apply wrap_small. lia.
  - rewrite wrap_neg by lia. lia.
Qed.

Lemma rb_slot_cases r k :
  rb_ok r -> 0 <= k <= rb_capacity r ->
  rb_slot r k = if rb_head r + k <=? rb_capacity r then rb_head r + k else rb_head r + k - (rb_capacity r + 1).
Proof.
  intros [? ? ? ?] Hk. unfold rb_slot. destruct (Z.leb_spec (rb_head r + k) (rb_capacity r)).
  - apply wrap_small. lia.
  - apply wrap_once; lia.
Qed.

Lemma contents_length r : rb_ok r -> Z.of_nat (length (rb_contents r)) = rb_count r.
Proof.
  intros Hok. unfold rb_contents. rewrite length_fmap, length_seqZ.
  pose proof (Z.mod_pos_bound (rb_tail r - rb_head r) (rb_capacity r + 1)). destruct Hok.
  unfold rb_count in *. lia.
Qed.

(** The empty buffer is the empty queue, and [ringbuffer_used],
    [ringbuffer_free], [ringbuffer_empty] and [ringbuffer_full] report the
    length of the queue, the room left, and whether it is empty or holds
    [capacity] bytes. *)
Lemma ringbuffer_reports r :
  rb_ok r ->
  let n := Z.of_nat (length (rb_contents r)) in
  ringbuffer_used r = n /\ ringbuffer_free r = rb_capacity r - n /\ 0 <= n <= rb_capacity r /\
  (ringbuffer_empty r = true <-> rb_contents r = []) /\
  (ringbuffer_full r = true <-> n = rb_capacity r) /\
  rb_contents (ringbuffer_reset r) = [].
Proof.
  intros Hok n. pose proof (contents_length r Hok) as Hn. fold n in Hn.
  pose proof (rb_count_cases r Hok) as Hcc. pose proof Hok as [? ? ? ?].
  assert (Hu : ringbuffer_used r = n).
  { rewrite Hn, Hcc. unfold ringbuffer_used. destruct (Z.leb_spec (rb_head r) (rb_tail r)); apply u32_small; lia. }
  assert (Hr : 0 <= n <= rb_capacity r) by (rewrite Hn, Hcc; destruct (Z.leb_spec (rb_head r) (rb_tail r)); lia).
  split_and!; try lia.
  - unfold ringbuffer_free. rewrite Hu. apply u32_small. lia.
  - unfold ringbuffer_empty. rewrite Z.eqb_eq. unfold n in *. split.
    + intros E. apply nil_length_inv. rewrite Hcc in Hn. destruct (Z.leb_spec (rb_head r) (rb_tail r)); lia.
    + intros E. rewrite E in Hn. simpl in Hn. rewrite Hcc in Hn. destruct (Z.leb_spec (rb_head r) (rb_tail r)); lia.
  - unfold ringbuffer_full. rewrite (next_slot r (rb_tail r) Hok) by lia. rewrite Z.eqb_eq, Hn, Hcc.
    destruct (Z.eqb_spec (rb_tail r) (rb_capacity r)), (Z.leb_spec (rb_head r) (rb_tail r)); lia.
  - done.
Qed.

Lemma push_ok c r : rb_ok r -> rb_ok (ringbuffer_push c r).2.
Proof.
  intros Hok. unfold ringbuffer_push. destruct (ringbuffer_full r); [done|].
  pose proof Hok as [? ? ? ?]. split; simpl; try done.
  - rewrite (next_slot r) by done. destruct (Z.eqb_spec (rb_tail r) (rb_capacity r)); lia.
  - by rewrite length_insert.
Qed.

Lemma pop_ok r : rb_ok r -> rb_ok (ringbuffer_pop r).2.
Proof.
  intros Hok. unfold ringbuffer_pop. destruct (ringbuffer_empty r); [done|].
  pose proof Hok as [? ? ? ?]. split; simpl; try done.
  rewrite (next_slot r) by done. destruct (Z.eqb_spec (rb_head r) (rb_capacity r)); lia.
Qed.

(** [ringbuffer_push] on a well-formed buffer appends the byte to the
    queue and returns 1, or, when the queue already holds [capacity] bytes,
    returns 0 and changes nothing; the buffer stays well formed. *)
Lemma push_enqueues c r :
  rb_ok r ->
  let '(res, r') := ringbuffer_push c r in
  rb_ok r' /\
  if decide (Z.of_nat (length (rb_contents r)) = rb_capacity r) then res = 0 /\ r' = r
  else res = 1 /\ rb_contents r' = rb_contents r ++ [u8 c].
Proof.
  intros Hok. pose proof (ringbuffer_reports r Hok) as (_ & _ & Hrange & _ & Hfull & _).
  pose proof (push_ok c r Hok) as Hok'. pose proof (rb_count_cases r Hok) as Hcc.
  pose proof (contents_length r Hok) as Hlen.
  unfold ringbuffer_push in *. destruct (ringbuffer_full r) eqn:Ef; simpl in *.
  { split; [done|]. rewrite decide_True by (by apply Hfull). done. }
  split; [done|]. rewrite decide_False by (intros E; apply Hfull in E; congruence). split; [done|].
  set (r' := Ringbuffer _ _ _ _) in *. pose proof Hok as [? ? ? ?].
  pose proof (next_slot r (rb_tail r) Hok ltac:(lia)) as Hns.
  assert (Hc' : rb_count r' = rb_count r + 1).
  { rewrite (rb_count_cases r' Hok'), Hcc. unfold r'. simpl. rewrite Hns.
    assert (rb_count r < rb_capacity r).
    { rewrite <- Hlen. destruct (decide (Z.of_nat (length (rb_contents r)) = rb_capacity r)) as [E|]; [|lia].
      apply Hfull in E. congruence. }
    rewrite Hcc in *.
    destruct (Z.eqb_spec (rb_tail r) (rb_capacity r)), (Z.leb_spec (rb_head r) (rb_tail r)); case_ranges;
      repeat match goal with |- context [?a <=? ?b] => destruct (Z.leb_spec a b) end; lia. }
  unfold rb_contents at 1. rewrite Hc'. rewrite (seqZ_app 0 (rb_count r) 1) by lia. rewrite fmap_app. f_equal.
  - apply list_fmap_ext. intros i k Hk. apply lookup_seqZ in Hk as [-> Hk].
    assert (Hs : rb_slot r' (0 + Z.of_nat i) = rb_slot r (0 + Z.of_nat i)) by done.
    rewrite Hs. unfold r'. simpl rb_buf. rewrite list_lookup_total_insert_ne; [done|].
    rewrite rb_slot_cases by (done || lia). rewrite Hcc in Hk.
    destruct (Z.leb_spec (rb_head r) (rb_tail r)), (Z.leb_spec (rb_head r + (0 + Z.of_nat i)) (rb_capacity r)); lia.
  - change (seqZ (0 + rb_count r) 1) with [0 + rb_count r]. simpl. f_equal.
    change (rb_slot r' (0 + rb_count r)) with (rb_slot r (0 + rb_count r)).
    assert (Hs : rb_slot r (0 + rb_count r) = rb_tail r).
    { rewrite rb_slot_cases by (done || lia). rewrite Hcc.
      destruct (Z.leb_spec (rb_head r) (rb_tail r));
      repeat match goal with |- context [?a <=? ?b] => destruct (Z.leb_spec a b) end; lia. }
    rewrite Hs. apply list_lookup_total_insert_eq. lia.
Qed.

(** [ringbuffer_pop] removes and returns the oldest byte of the queue, or
    reports failure and changes nothing when the queue is empty; the buffer
    stays well formed. *)
Lemma pop_dequeues r :
  rb_ok r ->
  let '(res, r') := ringbuffer_pop r in
  rb_ok r' /\
  match rb_contents r with
  | [] => res = None /\ r' = r
  | c :: q => res = Some c /\ rb_contents r' = q
  end.
Proof.
  intros Hok. pose proof (ringbuffer_reports r Hok) as (_ & _ & Hrange & Hempty & _ & _).
  pose proof (pop_ok r Hok) as Hok'. pose proof (rb_count_cases r Hok) as Hcc.
  pose proof (contents_length r Hok) as Hlen.
  unfold ringbuffer_pop in *. destruct (ringbuffer_empty r) eqn:Ee; simpl in *.
  { split; [done|]. by rewrite (proj1 Hempty eq_refl). }
  split; [done|]. set (r' := Ringbuffer _ _ _ _) in *. pose proof Hok as [? ? ? ?].
  pose proof (next_slot r (rb_head r) Hok ltac:(lia)) as Hns.
  assert (Hpos : 1 <= rb_count r).
  { rewrite <- Hlen. destruct (rb_contents r); [|simpl; lia]. destruct Hempty as [_ He]. discriminate (He eq_refl). }
  assert (Hc' : rb_count r' = rb_count r - 1).
  { rewrite (rb_count_cases r' Hok'). unfold r'. simpl. rewrite Hns. rewrite Hcc in *.
    destruct (Z.eqb_spec (rb_head r) (rb_capacity r)), (Z.leb_spec (rb_head r) (rb_tail r));
      repeat match goal with |- context [?a <=? ?b] => destruct (Z.leb_spec a b) end; lia. }
  assert (Hcons : rb_contents r = rb_buf r !!! Z.to_nat (rb_head r) :: rb_contents r').
  { unfold rb_contents at 1. replace (rb_count r) with (1 + rb_count r') by lia.
    rewrite (seqZ_app 0 1) by lia. rewrite fmap_app. change (seqZ 0 1) with [0]. simpl. f_equal.
    - f_equal. f_equal. rewrite rb_slot_cases by (done || lia). case_bool as E; lia.
    - unfold rb_contents.
      apply list_eq. intros k. rewrite !list_lookup_fmap.
      destruct (decide (Z.of_nat k < rb_count r')) as [Hk|Hk].
      + rewrite !lookup_seqZ_lt by lia. simpl. f_equal. unfold r'. simpl. f_equal. f_equal.
        pose proof (rb_slot_cases r (1 + Z.of_nat k) Hok ltac:(lia)) as E1.
        pose proof (rb_slot_cases r' (0 + Z.of_nat k) Hok' ltac:(unfold r'; simpl; lia)) as E2.
        change (0 + 1 + Z.of_nat k) with (1 + Z.of_nat k). rewrite E1. fold r'. rewrite E2. unfold r'. simpl. rewrite Hns.
        destruct (Z.eqb_spec (rb_head r) (rb_capacity r));
        repeat match goal with |- context [?a <=? ?b] => destruct (Z.leb_spec a b) end; lia.
      + rewrite !lookup_seqZ_ge by lia. done. }
  by rewrite Hcons.
Qed.

(** The ring buffer is a bounded queue.  On every well-formed buffer,
    [ringbuffer_push] appends the character, or returns 0 and changes nothing
    when the buffer is full, and [ringbuffer_pop] takes the oldest character,
    or reports that there is none; both keep the buffer well formed across
    the wrap-around of its indices. *)
Theorem ringbuffer_is_queue c r :
  rb_ok r ->
  (let '(res, r') := ringbuffer_push c r in
   rb_ok r' /\
   if decide (Z.of_nat (length (rb_contents r)) = rb_capacity r) then res = 0 /\ r' = r
   else res = 1 /\ rb_contents r' = rb_contents r ++ [u8 c]) /\
  (let '(res, r') := ringbuffer_pop r in
   rb_ok r' /\
   match rb_contents r with
   | [] => res = None /\ r' = r
   | c :: q => res = Some c /\ rb_contents r' = q
   end).
Proof. intros Hok. split; [by apply push_enqueues|by apply pop_dequeues]. Qed.

(** ** A buffer of three bytes that has wrapped around *)

Definition demo_rb : ringbuffer := Ringbuffer [7; 0; 5; 6] 3 2 1.

Lemma demo_rb_ok : rb_ok demo_rb.
Proof. split; simpl; lia. Qed.

Lemma ringbuffer_is_queue_witness :
  rb_contents demo_rb = [5; 6; 7] /\ ringbuffer_push 9 demo_rb = (0, demo_rb) /\
  fst (ringbuffer_pop demo_rb) = Some 5 /\ rb_contents (snd (ringbuffer_pop demo_rb)) = [6; 7] /\
  rb_ok (snd (ringbuffer_pop demo_rb)).
Proof.
  split; [by vm_compute|]. split; [by vm_compute|]. split; [by vm_compute|]. split; [by vm_compute|].
  exact (proj1 (proj2 (ringbuffer_is_queue 9 demo_rb demo_rb_ok))).
Defined.
