(* ===== verification/Printf.v ===== *)
(** * Formatted output (src/kernel/libc/printf.c, src/kernel/libc/sprintf.c)

    Text is a list of bytes; a format string and a [%s] argument are the bytes
    before their NUL.  [format] is the text [printf] hands to [consputc] and
    [snprintf] the bytes stored in the buffer, which may go past its end.  An
    argument of the wrong kind or a missing one is undefined in C: [None]. *)

From S2P Require Import Prelude.

(** A variadic argument: a word or a [char *]. *)
Inductive va := Num (x : Z) | Str (s : option (list Z)).

Definition chr_percent : Z := 37.
Definition chr_minus : Z := 45.
Definition chr_0 : Z := 48.
Definition chr_x : Z := 120.
(** [digits[d]] *)
Definition digit (d : Z) : Z := if d <? 10 then 48 + d else 97 + (d - 10).
Definition null_str : list Z := [40; 110; 117; 108; 108; 41].

(** [do { buf[i++] = digits[x % base]; } while ((x /= base) != 0)]: the
    digits from the last one on.  A word has at most 32 of them. *)
Fixpoint digits_loop (fuel : nat) (x base : Z) : list Z :=
  match fuel with
  | O => []
  | S n => digit (x mod base) :: (if x / base =? 0 then [] else digits_loop n (x / base) base)
  end.

(** [printint] and [sprintint]: the characters in the order they are put. *)
Definition printint (xx base : Z) (sign : bool) : list Z :=
  let neg := sign && (xx <? 0) in
  let x := if neg then u32 (- xx) else u32 xx in
  (if neg then [chr_minus] else []) ++ rev (digits_loop 32 x base).

(** [digits[x >> 60]], then [x <<= 4], 16 times. *)
Fixpoint ptr_digits (n : nat) (x : Z) : list Z :=
  match n with
  | O => []
  | S n' => digit (Z.shiftr x 60) :: ptr_digits n' (u64 (Z.shiftl x 4))
  end.
Definition printptr (x : Z) : list Z := chr_0 :: chr_x :: ptr_digits 16 (u64 x).

(** One conversion [%c]: its text and the arguments left.  [ptr]: [%p] is
    known ([printf]) or not ([snprintf]). *)
Definition conversion (ptr : bool) (c : Z) (args : list va) : option (list Z * list va) :=
  if (c =? 100) || (c =? 120) then
    match args with
    | Num x :: args' => Some (printint (s32 x) (if c =? 100 then 10 else 16) true, args')
    | _ => None
    end
  else if ptr && (c =? 112) then
    match args with Num x :: args' => Some (printptr x, args') | _ => None end
  else if c =? 115 then
    match args with
    | Str (Some s) :: args' => Some (s, args')
    | Str None :: args' => Some (null_str, args')
    | _ => None
    end
  else if c =? chr_percent then Some ([chr_percent], args)
  else Some ([chr_percent; c], args).

(** The whole text. *)
Fixpoint format_with (ptr : bool) (fmt : list Z) (args : list va) : option (list Z) :=
  match fmt with
  | [] => Some []
  | c :: fmt' =>
      if negb (c =? chr_percent) then cons c <$> format_with ptr fmt' args
      else
        match fmt' with
        | [] => Some []
        | d :: fmt'' =>
            match conversion ptr d args with
            | None => None
            | Some (t, args') => app t <$> format_with ptr fmt'' args'
            end
        end
  end.

Definition printf_text (fmt : list Z) (args : list va) : option (list Z) := format_with true fmt args.

(** [snprintf]: the text stored behind the [off] bytes that are in the buffer.
    A string is cut at [sz], a number is not. *)
Fixpoint snprintf_loop (fmt : list Z) (args : list va) (off sz : Z) : option (list Z) :=
  if off <? sz then
    match fmt with
    | [] => Some []
    | c :: fmt' =>
        if negb (c =? chr_percent) then cons c <$> snprintf_loop fmt' args (off + 1) sz
        else
          match fmt' with
          | [] => Some []
          | d :: fmt'' =>
              match conversion false d args with
              | None => None
              | Some (t, args') =>
                  let t := if d =? 115 then take (Z.to_nat (sz - off)) t else t in
                  app t <$> snprintf_loop fmt'' args' (off + Z.of_nat (length t)) sz
              end
          end
    end
  else Some [].
Definition snprintf (sz : Z) (fmt : list Z) (args : list va) : option (list Z) := snprintf_loop fmt args 0 sz.

(** ** Numbers *)

(** The value of a digit, and of a text of digits read from the left. *)
Definition digit_val (c : Z) : Z := if c <? 97 then c - 48 else c - 97 + 10.
Definition read_digits (base : Z) (l : list Z) : Z := fold_left (fun v c => v * base + digit_val c) l 0.
Definition read_int (base : Z) (l : list Z) : Z :=
  match l with
  | c :: l' => if c =? chr_minus then - read_digits base l' else read_digits base l
  | [] => 0
  end.

Lemma digit_val_digit d : 0 <= d < 16 -> digit_val (digit d) = d.
Proof. intros. unfold digit_val, digit. repeat case_bool_; lia. Qed.

Lemma read_digits_snoc base l c : read_digits base (l ++ [c]) = read_digits base l * base + digit_val c.
Proof. unfold read_digits. by rewrite fold_left_app. Qed.

(** Enough fuel: the digits of [x < base ^ fuel] read back as [x]. *)
Lemma digits_loop_value fuel x base : 2 <= base <= 16 -> 0 <= x < base ^ Z.of_nat fuel ->
  read_digits base (rev (digits_loop fuel x base)) = x.
Proof.
  intros Hb. revert x. induction fuel as [|n IH]; intros x Hx.
  - simpl in *. unfold read_digits. simpl. lia.
  - cbn [digits_loop rev]. rewrite read_digits_snoc.
    pose proof (Z.mod_pos_bound x base ltac:(lia)). rewrite digit_val_digit by lia.
    pose proof (Z.div_mod x base ltac:(lia)) as Hd.
    destruct (Z.eqb_spec (x / base) 0) as [E|E].
    + change (read_digits base (rev [])) with 0. lia.
    + rewrite IH; [lia|]. split; [apply Z.div_pos; lia|]. apply Z.div_lt_upper_bound; [lia|].
      rewrite Nat2Z.inj_succ, Z.pow_succ_r in Hx by lia. lia.
Qed.

(** The number of digits. *)
Lemma digits_loop_length fuel x base n : 2 <= base -> 0 <= x < base ^ Z.of_nat n -> (0 < n)%nat ->
  (1 <= length (digits_loop (S fuel) x base) <= n)%nat.
Proof.
  intros Hb. revert x n. induction fuel as [|f IH]; intros x n Hx Hn.
  - cbn [digits_loop length]. case_bool as E; simpl; lia.
  - cbn [digits_loop length]. case_bool as E; [simpl; lia|]. destruct n as [|[|n]]; [lia| |].
    + simpl in Hx. destruct E. apply Z.div_small. lia.
    + assert (Hd : 0 <= x / base < base ^ Z.of_nat (S n)).
      { split; [apply Z.div_pos; lia|]. apply Z.div_lt_upper_bound; [lia|].
        rewrite Nat2Z.inj_succ, Z.pow_succ_r in Hx by lia. lia. }
      specialize (IH (x / base) (S n) Hd ltac:(lia)). cbn [digits_loop length] in *. lia.
Qed.

Lemma digits_printable fuel x base : 2 <= base <= 16 -> Forall (fun c => c <> chr_minus /\ 0 <= c < 256) (digits_loop fuel x base).
Proof.
  intros Hb. revert x. induction fuel as [|n IH]; intros x; simpl; constructor; [|by case_bool as E].
  pose proof (Z.mod_pos_bound x base ltac:(lia)). unfold digit, chr_minus. case_bool as E; lia.
Qed.

(** The digits of a word. *)
Lemma word_digits x base : base = 10 \/ base = 16 -> 0 <= x < 2 ^ 32 ->
  let t := rev (digits_loop 32 x base) in
  read_digits base t = x /\ (1 <= length t <= 10)%nat /\ exists c l, t = c :: l /\ c <> chr_minus.
Proof.
  intros Hb Hr t. assert (Hbase : 2 <= base <= 16) by lia. split_and!.
  - apply digits_loop_value; [done|]. destruct Hb as [-> | ->]; split; try lia; simpl; lia.
  - unfold t. rewrite length_rev. apply (digits_loop_length 31 x base 10); [lia| |lia]. destruct Hb as [-> | ->]; simpl; lia.
  - unfold t. rewrite length_rev. apply (digits_loop_length 31 x base 10); [lia| |lia]. destruct Hb as [-> | ->]; simpl; lia.
  - destruct t as [|c l] eqn:E; [by apply (f_equal length) in E; unfold t in E; rewrite length_rev in E|].
    exists c, l. split; [done|]. pose proof (digits_printable 32 x base Hbase) as Hf.
    rewrite Forall_forall in Hf. apply (Hf c). apply list_elem_of_In, in_rev. fold t. rewrite E. by left.
Qed.

Lemma printint_length xx base : - 2 ^ 31 <= xx < 2 ^ 31 -> base = 10 \/ base = 16 -> (1 <= length (printint xx base true) <= 11)%nat.
Proof.
  intros Hx Hb. unfold printint. cbn [andb]. rewrite length_app. destruct (Z.ltb_spec xx 0).
  - rewrite u32_small by lia. destruct (word_digits (- xx) base Hb ltac:(lia)) as (_ & H2 & _). simpl length at 1 3. lia.
  - rewrite u32_small by lia. destruct (word_digits xx base Hb ltac:(lia)) as (_ & H2 & _). simpl length at 1 3. lia.
Qed.

(** A printed number reads back.  For every [int] and the bases the
    formats use, the text of [printint] is at most 11 characters (they fit in
    the 16 bytes of [buf]), has a minus sign exactly when the number is
    negative, and its value is the number; [INT_MIN] included. *)
Theorem printint_reads_back xx base : - 2 ^ 31 <= xx < 2 ^ 31 -> base = 10 \/ base = 16 ->
  let t := printint xx base true in
  read_int base t = xx /\ (1 <= length t <= 11)%nat /\ (head t = Some chr_minus <-> xx < 0).
Proof.
  intros Hx Hb t. split; [|split; [by apply printint_length|]].
  - unfold t, printint. cbn [andb]. destruct (Z.ltb_spec xx 0) as [Hn|Hn]; rewrite u32_small by lia.
    + destruct (word_digits (- xx) base Hb ltac:(lia)) as (H1 & _ & _). unfold read_int. cbn [app]. rewrite Z.eqb_refl. lia.
    + destruct (word_digits xx base Hb ltac:(lia)) as (H1 & _ & c & l & H3 & H4). cbn [app]. rewrite H3 in *.
      unfold read_int. by rewrite (proj2 (Z.eqb_neq _ _) H4).
  - unfold t, printint. cbn [andb]. destruct (Z.ltb_spec xx 0) as [Hn|Hn]; [done|]. rewrite u32_small by lia.
    destruct (word_digits xx base Hb ltac:(lia)) as (_ & _ & c & l & -> & H4). simpl. split; [congruence|lia].
Qed.

Lemma printint_reads_back_witness : let t := printint (-2147483648) 10 true in
  read_int 10 t = -2147483648 /\ length t = 11%nat.
Proof.
  assert (H : - 2 ^ 31 <= -2147483648 < 2 ^ 31) by lia.
  destruct (printint_reads_back (-2147483648) 10 H (or_introl eq_refl)) as (H1 & _). split; [exact H1|]. reflexivity.
Defined.

(** ** The buffer of [snprintf] *)

Lemma conversion_length c args t args' : (c =? 115) = false -> conversion false c args = Some (t, args') -> (length t <= 11)%nat.
Proof.
  intros Hs. unfold conversion. destruct ((c =? 100) || (c =? 120)).
  - destruct args as [|[x|] args0]; try done. intros [= <- <-].
    assert (- 2 ^ 31 <= s32 x < 2 ^ 31) by (unfold s32; pose proof (Z.mod_pos_bound (x + 2 ^ 31) (2 ^ 32)); lia).
    assert (Hb : (if c =? 100 then 10 else 16) = 10 \/ (if c =? 100 then 10 else 16) = 16) by (case_bool_; auto).
    pose proof (printint_length (s32 x) _ H Hb). lia.
  - cbn [andb]. rewrite Hs. case_bool_; intros [= <- <-]; simpl; lia.
Qed.


(** What the loop stores behind [off] bytes. *)
Definition stored (sz off : Z) (out : list Z) (full : option (list Z)) : Prop :=
  off + Z.of_nat (length out) <= sz + 10 /\
  forall l, full = Some l -> out `prefix_of` l /\ (off + Z.of_nat (length out) < sz -> out = l).

Lemma stored_app sz off t out full : stored sz (off + Z.of_nat (length t)) out full -> stored sz off (t ++ out) (app t <$> full).
Proof.
  intros [H1 H2]. split; [rewrite length_app; lia|]. intros l Hl. destruct full as [l0|]; [|done]. injection Hl as <-.
  destruct (H2 l0 eq_refl) as [[k ->] H3]. split; [exists k; by rewrite (assoc_L (++))|].
  rewrite length_app. intros Hlt. f_equal. apply H3. lia.
Qed.

(** A piece cut where the buffer is full, behind which nothing is stored. *)
Lemma stored_cut sz off t full : off < sz -> sz - off <= Z.of_nat (length t) -> stored sz off (take (Z.to_nat (sz - off)) t) (app t <$> full).
Proof.
  intros Ho Ht. assert (Hl : Z.of_nat (length (take (Z.to_nat (sz - off)) t)) = sz - off) by (rewrite length_take; lia).
  split; [lia|]. intros l El. destruct full as [l0|]; [|done]. injection El as <-. split; [|lia].
  exists (drop (Z.to_nat (sz - off)) t ++ l0). by rewrite (assoc_L (++)), take_drop.
Qed.

Lemma stored_done sz off full : sz <= off <= sz + 10 -> stored sz off [] full.
Proof. intros H. split; [simpl; lia|]. intros l _. split; [apply prefix_nil|simpl; lia]. Qed.

Lemma stored_end sz off : off <= sz + 10 -> stored sz off [] (Some []).
Proof. intros H. split; [simpl; lia|]. intros l El. injection El as <-. split; [apply prefix_nil|done]. Qed.

Lemma snprintf_loop_stores n : forall fmt args off sz out, (length fmt <= n)%nat -> snprintf_loop fmt args off sz = Some out ->
  off <= sz + 10 -> stored sz off out (format_with false fmt args).
Proof.
  induction n as [|n IH]; intros fmt args off sz out Hn Hs Ho.
  - destruct fmt; [|simpl in Hn; lia]. simpl in Hs. destruct (Z.ltb_spec off sz); injection Hs as <-.
    + by apply stored_end.
    + by apply stored_done.
  - destruct fmt as [|c fmt']; cbn [snprintf_loop format_with] in *; destruct (Z.ltb_spec off sz) as [Hlt|Hge];
      try (injection Hs as <-; by apply stored_done).
    + injection Hs as <-. by apply stored_end.
    + simpl in Hn. destruct (negb (c =? chr_percent)).
      * destruct (snprintf_loop fmt' args (off + 1) sz) as [o|] eqn:E; [|done]. injection Hs as <-.
        exact (stored_app sz off [c] o _ (IH fmt' args (off + 1) sz o ltac:(lia) E ltac:(lia))).
      * destruct fmt' as [|d fmt'']; [injection Hs as <-; by apply stored_end|]. simpl in Hn.
        destruct (conversion false d args) as [[t args']|] eqn:Ec; [|done]. cbv zeta in Hs.
        destruct (d =? 115) eqn:Ed.
        -- destruct (Z.le_gt_cases (sz - off) (Z.of_nat (length t))) as [Hcut|Hfit].
           ++ assert (Hl : Z.of_nat (length (take (Z.to_nat (sz - off)) t)) = sz - off) by (rewrite length_take; lia).
              rewrite Hl in Hs. replace (off + (sz - off)) with sz in Hs by lia.
              assert (E : snprintf_loop fmt'' args' sz sz = Some []) by (destruct fmt''; cbn [snprintf_loop]; by rewrite Z.ltb_irrefl).
              rewrite E in Hs. injection Hs as <-. rewrite app_nil_r. by apply stored_cut.
           ++ rewrite take_ge in Hs by lia. destruct (snprintf_loop fmt'' args' _ sz) as [o|] eqn:E; [|done]. injection Hs as <-.
              apply stored_app, IH; [lia|exact E|lia].
        -- pose proof (conversion_length d args t args' Ed Ec). destruct (snprintf_loop fmt'' args' _ sz) as [o|] eqn:E; [|done].
           injection Hs as <-. apply stored_app, IH; [lia|exact E|lia].
Qed.

(** What [snprintf] stores is the beginning of the formatted text, all of
    it when the result is below [sz], and at most 10 bytes behind the buffer's
    end: the size is tested before a conversion, not inside a number. *)
Theorem snprintf_overrun_bounded sz fmt args out : 0 <= sz -> snprintf sz fmt args = Some out ->
  Z.of_nat (length out) <= sz + 10 /\
  forall full, format_with false fmt args = Some full -> out `prefix_of` full /\ (Z.of_nat (length out) < sz -> out = full).
Proof. intros Hs H. exact (snprintf_loop_stores (length fmt) fmt args 0 sz out ltac:(lia) H ltac:(lia)). Qed.

(** The bound is reached: 11 bytes in a buffer of one byte. *)
Lemma snprintf_overrun_bounded_witness : exists out, snprintf 1 [chr_percent; 100] [Num (-2147483648)] = Some out /\
  Z.of_nat (length out) <= 1 + 10 /\ Z.of_nat (length out) = 11.
Proof.
  eexists. split; [vm_compute; reflexivity|].
  split; [apply (proj1 (snprintf_overrun_bounded 1 [chr_percent; 100] [Num (-2147483648)] _ ltac:(lia) ltac:(vm_compute; reflexivity)))|].
  reflexivity.
Defined.
