(* ===== verification/Uart.v ===== *)
(** * The console's UART (src/kernel/driver/uarths.c, K210 build)

    Bytes from the line go through the hardware FIFO and an observer into the
    receive ring; bytes for the line go through the transmit ring or, for the
    kernel's own messages, straight to the hardware.  The hardware is part of
    the state: the bytes waiting in its receive FIFO, the bytes it was given
    for the line, and what the next tests of its TXFULL bit will find (it has
    room once the list is used up).  No byte arrives during a call.

    The callers that can sleep are processes; they end a run with the state
    they sleep in and are resumed by the [..._resume] function. *)

From S2P Require Import Prelude Riscv Memory Spinlock Kalloc Proctab Signal Sched Pipe Ringbuffer.
Import Hart.

Definition UARTHS_RX_BUF_SIZE : Z := 32768.
Definition UARTHS_TX_BUF_SIZE : Z := 4096.

Record uart := Uart {
  ua_rx : ringbuffer;        (** uarths_rx.ring *)
  ua_dropped : Z;
  ua_epoch : Z;
  ua_observer : bool;        (** is uarths_rx.observer set? *)
  ua_tx : ringbuffer;        (** uarths_tx.ring *)
  ua_requested_baud : Z;
  ua_panicked : bool;
  hw_fifo : list Z;          (** bytes in the receive FIFO *)
  hw_sent : list Z;          (** bytes written to TXFIFO, in order *)
  hw_polls : list bool;      (** answers of the next tests for room in TXFIFO *)
  hw_rxie : bool;            (** IE.RXWM *)
  hw_txie : bool;            (** IE.TXWM *)
  hw_div : Z;
}.
Definition set_ua_rx (v : ringbuffer) (u : uart) : uart :=
  Uart v (ua_dropped u) (ua_epoch u) (ua_observer u) (ua_tx u) (ua_requested_baud u) (ua_panicked u) (hw_fifo u) (hw_sent u) (hw_polls u) (hw_rxie u) (hw_txie u) (hw_div u).
Definition set_ua_dropped (v : Z) (u : uart) : uart :=
  Uart (ua_rx u) v (ua_epoch u) (ua_observer u) (ua_tx u) (ua_requested_baud u) (ua_panicked u) (hw_fifo u) (hw_sent u) (hw_polls u) (hw_rxie u) (hw_txie u) (hw_div u).
Definition set_ua_epoch (v : Z) (u : uart) : uart :=
  Uart (ua_rx u) (ua_dropped u) v (ua_observer u) (ua_tx u) (ua_requested_baud u) (ua_panicked u) (hw_fifo u) (hw_sent u) (hw_polls u) (hw_rxie u) (hw_txie u) (hw_div u).
Definition set_ua_observer (v : bool) (u : uart) : uart :=
  Uart (ua_rx u) (ua_dropped u) (ua_epoch u) v (ua_tx u) (ua_requested_baud u) (ua_panicked u) (hw_fifo u) (hw_sent u) (hw_polls u) (hw_rxie u) (hw_txie u) (hw_div u).
Definition set_ua_tx (v : ringbuffer) (u : uart) : uart :=
  Uart (ua_rx u) (ua_dropped u) (ua_epoch u) (ua_observer u) v (ua_requested_baud u) (ua_panicked u) (hw_fifo u) (hw_sent u) (hw_polls u) (hw_rxie u) (hw_txie u) (hw_div u).
Definition set_ua_baud (v : Z) (u : uart) : uart :=
  Uart (ua_rx u) (ua_dropped u) (ua_epoch u) (ua_observer u) (ua_tx u) v (ua_panicked u) (hw_fifo u) (hw_sent u) (hw_polls u) (hw_rxie u) (hw_txie u) (hw_div u).
Definition set_hw_fifo (v : list Z) (u : uart) : uart :=
  Uart (ua_rx u) (ua_dropped u) (ua_epoch u) (ua_observer u) (ua_tx u) (ua_requested_baud u) (ua_panicked u) v (hw_sent u) (hw_polls u) (hw_rxie u) (hw_txie u) (hw_div u).
Definition set_hw_sent (v : list Z) (u : uart) : uart :=
  Uart (ua_rx u) (ua_dropped u) (ua_epoch u) (ua_observer u) (ua_tx u) (ua_requested_baud u) (ua_panicked u) (hw_fifo u) v (hw_polls u) (hw_rxie u) (hw_txie u) (hw_div u).
Definition set_hw_polls (v : list bool) (u : uart) : uart :=
  Uart (ua_rx u) (ua_dropped u) (ua_epoch u) (ua_observer u) (ua_tx u) (ua_requested_baud u) (ua_panicked u) (hw_fifo u) (hw_sent u) v (hw_rxie u) (hw_txie u) (hw_div u).
Definition set_hw_rxie (v : bool) (u : uart) : uart :=
  Uart (ua_rx u) (ua_dropped u) (ua_epoch u) (ua_observer u) (ua_tx u) (ua_requested_baud u) (ua_panicked u) (hw_fifo u) (hw_sent u) (hw_polls u) v (hw_txie u) (hw_div u).
Definition set_hw_txie (v : bool) (u : uart) : uart :=
  Uart (ua_rx u) (ua_dropped u) (ua_epoch u) (ua_observer u) (ua_tx u) (ua_requested_baud u) (ua_panicked u) (hw_fifo u) (hw_sent u) (hw_polls u) (hw_rxie u) v (hw_div u).
Definition set_hw_div (v : Z) (u : uart) : uart :=
  Uart (ua_rx u) (ua_dropped u) (ua_epoch u) (ua_observer u) (ua_tx u) (ua_requested_baud u) (ua_panicked u) (hw_fifo u) (hw_sent u) (hw_polls u) (hw_rxie u) (hw_txie u) v.

(** [P] is the rest of the kernel, with the process table in it, [C] the state
    of the observer. *)
Record ust (P C : Type) := Ust { us_p : P; us_uart : uart; us_cons : C }.
Arguments Ust {P C}. Arguments us_p {P C}. Arguments us_uart {P C}. Arguments us_cons {P C}.
#[export] Instance ust_p P C : Lens (ust P C) P := {| lget := us_p; lput p s := Ust p (us_uart s) (us_cons s) |}.
#[export] Instance ust_p_laws P C : LensLaws (ust P C) P.
Proof. split; [done|by intros []|done]. Qed.

(** The function [uarths_set_rx_observer] installs: may it consume the byte? *)
Class RxObserver (P C : Type) := rx_observer : Z -> M (ust P C) bool.
(** The channels [&uarths_rx.ring] and [&uarths_tx.ring], and the frequency
    [sysctl_clock_get_freq] returns for the CPU clock. *)
Class UartEnv := { rx_ring : Z; tx_ring : Z; cpu_freq : Z }.

Section code.
Context {P C : Type} {LP : Lens P pst} `{!RxObserver P C} {UE : UartEnv}.
Abbreviation UM := (M (ust P C)).

Definition up_ {A} (m : M P A) : UM A := zoom m.
Definition ps_ {A} (m : M pst A) : UM A := up_ (zoom m).
Definition lk_ {A} (m : M lkst A) : UM A := ps_ (zoom m).
Definition getu : UM uart := gets us_uart.
Definition setu (f : uart -> uart) : UM unit := modify (fun s => Ust (us_p s) (f (us_uart s)) (us_cons s)).
Definition lock_ (l : lockid) : UM unit := lk_ (acquire l).
Definition unlock_ (l : lockid) : UM unit := lk_ (release l).

(** ** Hardware *)

Definition uarths_hw_getc : UM Z :=
  u <- getu ;;
  match hw_fifo u with
  | [] => ret (-1)
  | c :: l => setu (set_hw_fifo l) ;; ret c
  end.
Definition uarths_rxenable (enabled : bool) : UM unit := setu (set_hw_rxie enabled).
Definition uarths_txenable (enabled : bool) : UM unit := setu (set_hw_txie enabled).
Definition uarths_hw_drain_fifo : UM unit :=
  u <- getu ;;
  loop (S (length (hw_fifo u))) (fun _ : unit => c <- uarths_hw_getc ;; ret (if c =? -1 then inr tt else inl tt)) tt.
Definition uarths_hw_tx_ready : UM bool :=
  u <- getu ;;
  match hw_polls u with
  | [] => ret true
  | b :: l => setu (set_hw_polls l) ;; ret b
  end.
Definition uarths_hw_putc (c : Z) : UM unit := setu (fun u => set_hw_sent (hw_sent u ++ [u8 c]) u).

(** ** Start *)

Definition uarthsinit : UM unit :=
  setu (set_hw_div (u16 (cpu_freq / 115200 - 1))) ;;
  lk_ (initlock L_uarths_rx) ;;
  lk_ (initlock L_uarths_tx) ;;
  setu (fun u => set_ua_rx (ringbuffer_init (rb_buf (ua_rx u)) UARTHS_RX_BUF_SIZE)
    (set_ua_tx (ringbuffer_init (rb_buf (ua_tx u)) UARTHS_TX_BUF_SIZE) u)) ;;
  setu (set_ua_baud 115200) ;;
  uarths_txenable false ;;
  uarths_rxenable true.

(** ** Receiving *)

(** [while ((c = uarths_hw_getc()) != -1)]; the variable is [received]. *)
Definition rx_service_body (received : bool) : UM (bool + bool) :=
  c <- uarths_hw_getc ;;
  if c =? -1 then ret (inr received)
  else
    u <- getu ;;
    consume <- (if ua_observer u then rx_observer c else ret false) ;;
    if (consume : bool) then ret (inl received)
    else
      u <- getu ;;
      let r := ringbuffer_push (u8 c) (ua_rx u) in
      if negb (fst r =? 0) then setu (set_ua_rx (snd r)) ;; ret (inl true)
      else setu (fun u => set_ua_dropped (u32 (ua_dropped u + 1)) u) ;; ret (inl received).

Definition uarths_rx_service : UM unit :=
  u <- getu ;;
  received <- loop (S (length (hw_fifo u))) rx_service_body false ;;
  when received (ps_ (wakeup_reason (AddrChan rx_ring) WAKEUP_DEVICE)).

(** How a wait ends: with the result of the function, or asleep with the
    saved [intena]. *)
Inductive waiting := Ready (r : Z) | Blocked (saved : bool).

(** One round of the loop of [uarths_rx_wait_data]. *)
Definition uarths_rx_wait_data (me : Z) : UM waiting :=
  u <- getu ;;
  if negb (ringbuffer_empty (ua_rx u)) then ret (Ready 1)
  else
    r <- ps_ (sleep_on_enter me (AddrChan rx_ring) L_uarths_rx true) ;;
    match r with
    | inl _ => ret (Ready (-1))
    | inr saved => ret (Blocked saved)
    end.
Definition rx_wait_resume (me epoch : Z) (saved : bool) : UM waiting :=
  r <- ps_ (sleep_on_resume me L_uarths_rx true saved) ;;
  if r <? 0 then ret (Ready (-1))
  else
    u <- getu ;;
    if negb (epoch =? ua_epoch u) then ret (Ready 0) else uarths_rx_wait_data me.

(** [while (i < n && ringbuffer_pop(..))]: the bytes popped. *)
Fixpoint pop_bytes (n : nat) : UM (list Z) :=
  match n with
  | O => ret []
  | S n' =>
      u <- getu ;;
      match ringbuffer_pop (ua_rx u) with
      | (None, _) => ret []
      | (Some c, r) => setu (set_ua_rx r) ;; l <- pop_bytes n' ;; ret (c :: l)
      end
  end.

(** The result of [uarths_read] and the bytes stored, or the state of a
    reader that sleeps. *)
Inductive reading := Got (r : Z) (bs : list Z) | Waits (epoch : Z) (saved : bool).

Definition uarths_read_finish (n epoch : Z) (w : waiting) : UM reading :=
  match w with
  | Blocked saved => ret (Waits epoch saved)
  | Ready reason =>
      if negb (reason =? 1) then unlock_ L_uarths_rx ;; ret (Got reason [])
      else
        bs <- pop_bytes (Z.to_nat n) ;;
        unlock_ L_uarths_rx ;;
        ret (Got (Z.of_nat (length bs)) bs)
  end.
Definition uarths_read (me n : Z) : UM reading :=
  if n <=? 0 then ret (Got 0 [])
  else
    lock_ L_uarths_rx ;;
    u <- getu ;;
    w <- uarths_rx_wait_data me ;;
    uarths_read_finish n (ua_epoch u) w.
Definition uarths_read_resume (me n epoch : Z) (saved : bool) : UM reading :=
  w <- rx_wait_resume me epoch saved ;;
  uarths_read_finish n epoch w.

Definition uarthsgetc : UM Z := uarths_hw_getc.

Definition uarths_flush_rx : UM unit :=
  lock_ L_uarths_rx ;;
  uarths_hw_drain_fifo ;;
  setu (fun u => set_ua_epoch (u32 (ua_epoch u + 1)) (set_ua_dropped 0 (set_ua_rx (ringbuffer_reset (ua_rx u)) u))) ;;
  ps_ (wakeup_reason (AddrChan rx_ring) WAKEUP_DEVICE) ;;
  unlock_ L_uarths_rx.

Definition uarths_get_rx_stats : UM (list Z) :=
  lock_ L_uarths_rx ;;
  u <- getu ;;
  unlock_ L_uarths_rx ;;
  ret [ua_dropped u; ringbuffer_used (ua_rx u); ringbuffer_capacity (ua_rx u)].

Definition uarths_set_rx_observer : UM unit := setu (set_ua_observer true).

(** ** Sending *)

Definition tx_service_body (_ : unit) : UM (unit + unit) :=
  u <- getu ;;
  if ringbuffer_empty (ua_tx u) then ret (inr tt)
  else
    ready <- uarths_hw_tx_ready ;;
    if negb ready then ret (inr tt)
    else
      u <- getu ;;
      match ringbuffer_pop (ua_tx u) with
      | (Some c, r) => setu (set_ua_tx r) ;; uarths_hw_putc c ;; ret (inl tt)
      | (None, _) => ret (inl tt)
      end.

Definition uarths_tx_service : UM unit :=
  u <- getu ;;
  loop (S (Z.to_nat (ringbuffer_used (ua_tx u)))) tx_service_body tt ;;
  ps_ (wakeup_reason (AddrChan tx_ring) WAKEUP_DEVICE) ;;
  u <- getu ;;
  uarths_txenable (negb (ringbuffer_empty (ua_tx u))).

(** [uarths_tx_wait_room] up to a sleep. *)
Definition uarths_tx_wait_room (me : Z) : UM waiting :=
  u <- getu ;;
  if ringbuffer_full (ua_tx u) then
    if ua_panicked u then ret (Ready (-1))
    else
      r <- ps_ (sleep_on_enter me (AddrChan tx_ring) L_uarths_tx true) ;;
      match r with
      | inl _ => ret (Ready (-1))
      | inr saved => ret (Blocked saved)
      end
  else ret (Ready 0).
Definition tx_wait_resume (me : Z) (saved : bool) : UM waiting :=
  r <- ps_ (sleep_on_resume me L_uarths_tx true saved) ;;
  if r <? 0 then ret (Ready (-1)) else uarths_tx_wait_room me.

(** The rest of a round of [for (i = 0; i < n; i++)] behind the wait for room,
    for the byte [c]. *)
Definition write_round (i c : Z) (w : waiting) (next : UM run) : UM run :=
  match w with
  | Blocked saved => ret (Asleep i saved)
  | Ready r =>
      if r <? 0 then unlock_ L_uarths_tx ;; ret (Returned (partial i))
      else
        setu (fun u => set_ua_tx (snd (ringbuffer_push (u8 c) (ua_tx u))) u) ;;
        uarths_tx_service ;;
        next
  end.
(** [bs] are the bytes from the [i]-th on. *)
Fixpoint write_loop (me : Z) (bs : list Z) (i : Z) : UM run :=
  match bs with
  | [] => unlock_ L_uarths_tx ;; ret (Returned i)
  | c :: bs' =>
      w <- uarths_tx_wait_room me ;;
      write_round i c w (write_loop me bs' (i + 1))
  end.
Definition uarths_write (me : Z) (bs : list Z) : UM run :=
  lock_ L_uarths_tx ;; write_loop me bs 0.
(** The writer of [bs] that sleeps before its [i]-th byte. *)
Definition uarths_write_resume (me : Z) (bs : list Z) (i : Z) (saved : bool) : UM run :=
  match drop (Z.to_nat i) bs with
  | [] => write_loop me [] i
  | c :: bs' =>
      w <- tx_wait_resume me saved ;;
      write_round i c w (write_loop me bs' (i + 1))
  end.

Definition uarthsputc (me c : Z) : UM run := uarths_write me [u8 c].

Definition uarthsputc_sync (c : Z) : UM unit :=
  lk_ push_off ;;
  u <- getu ;;
  if ua_panicked u then spin
  else
    loop (S (S (length (hw_polls u)))) (fun _ : unit => b <- uarths_hw_tx_ready ;; ret (if (b : bool) then inr tt else inl tt)) tt ;;
    uarths_hw_putc c ;;
    lk_ pop_off.

(** [uarths_flush_tx] up to a sleep; [uarths_wait_tx_idle] changes TXCTRL and
    back and waits for the line. *)
Definition flush_tx_loop (me : Z) : UM waiting :=
  u <- getu ;;
  if ringbuffer_empty (ua_tx u) then unlock_ L_uarths_tx ;; ret (Ready 0)
  else
    uarths_tx_service ;;
    u <- getu ;;
    if ringbuffer_empty (ua_tx u) then unlock_ L_uarths_tx ;; ret (Ready 0)
    else
      r <- ps_ (sleep_on_enter me (AddrChan tx_ring) L_uarths_tx false) ;;
      match r with
      | inl r => ret (Ready r)
      | inr saved => ret (Blocked saved)
      end.
Definition uarths_flush_tx (me : Z) : UM waiting := lock_ L_uarths_tx ;; flush_tx_loop me.
Definition flush_tx_resume (me : Z) (saved : bool) : UM waiting :=
  ps_ (sleep_on_resume me L_uarths_tx false saved) ;; flush_tx_loop me.

(** ** Speed *)

Definition set_baud_finish (baud : Z) : UM unit :=
  uarths_rxenable false ;;
  lock_ L_uarths_rx ;;
  uarths_hw_drain_fifo ;;
  unlock_ L_uarths_rx ;;
  let div := cpu_freq / u32 baud in
  let div := if div =? 0 then 1 else div in
  setu (set_hw_div (u32 (div - 1))) ;;
  setu (set_ua_baud (u32 baud)) ;;
  uarths_rxenable true.
(** The wait for the transmit ring may put the caller to sleep. *)
Definition uarths_set_baud (me baud : Z) : UM waiting :=
  if baud <=? 0 then ret (Ready 0)
  else
    w <- uarths_flush_tx me ;;
    match w with
    | Blocked saved => ret (Blocked saved)
    | Ready _ => set_baud_finish baud ;; ret (Ready 0)
    end.
Definition set_baud_resume (me baud : Z) (saved : bool) : UM waiting :=
  w <- flush_tx_resume me saved ;;
  match w with
  | Blocked saved => ret (Blocked saved)
  | Ready _ => set_baud_finish baud ;; ret (Ready 0)
  end.

Definition uarths_get_baud_info : UM (list Z) :=
  u <- getu ;;
  let div := Z.land (hw_div u) 0xffff in
  ret [ua_requested_baud u; u32 (cpu_freq / (div + 1)); div; cpu_freq].

Definition uarths_dw_isr : UM unit :=
  lock_ L_uarths_rx ;;
  uarths_rx_service ;;
  unlock_ L_uarths_rx ;;
  lock_ L_uarths_tx ;;
  uarths_tx_service ;;
  unlock_ L_uarths_tx.
End code.
