(* ===== verification/UartProps.v ===== *)
(** * Correctness of the UART driver

    The transmit side is a FIFO channel: what the hardware was given followed
    by what the ring holds is what was written, in order, whatever the tests
    for room in the hardware find. *)

From S2P Require Import Prelude Riscv Memory Spinlock Kalloc Vm VmTree VmUnmap VmCheck VmProps Proctab Signal Sched SchedProps Pipe PipeProps Ringbuffer Uart.
Import Hart.

Definition bytes (l : list Z) : Prop := Forall (fun b => 0 <= b < 256) l.

Section props.
Context {P C : Type} {LP : Lens P pst} {LL : LensLaws P pst} `{!RxObserver P C} {UE : UartEnv}.
Implicit Types s : ust P C.

Definition psof (s : ust P C) : pst := lget (us_p s).
Definition with_ps (t : pst) (s : ust P C) : ust P C := Ust (lput t (us_p s)) (us_uart s) (us_cons s).
Definition with_uart (u : uart) (s : ust P C) : ust P C := Ust (us_p s) u (us_cons s).

Lemma psof_with t s : psof (with_ps t s) = t.
Proof. apply lget_lput. Qed.
Lemma with_ps_twice t t' s : with_ps t (with_ps t' s) = with_ps t s.
Proof. unfold with_ps. simpl. by rewrite lput_lput. Qed.

Lemma ps_wp_ {A} (m : M pst A) (Q : A -> ust P C -> Prop) s :
  wp m (fun a t => Q a (with_ps t s)) (psof s) -> wp (ps_ m) Q s.
Proof. intros H. apply wp_zoom, wp_zoom. exact H. Qed.

Lemma lock_wp l (Q : unit -> ust P C -> Prop) s : l ∉ held (lk_of (psof s)) ->
  (forall k, taken l (lk_of (psof s)) k -> Q tt (with_ps (lput k (psof s)) s)) -> wp (lock_ l) Q s.
Proof.
  intros Hn HQ. apply ps_wp_, wp_zoom. eapply wp_mono; [apply acquire_wp; exact Hn|]. intros [] k Hk. exact (HQ k Hk).
Qed.

Lemma unlock_wp l l0 (Q : unit -> ust P C -> Prop) s : lk_ok l0 -> l ∉ held l0 -> taken l l0 (lk_of (psof s)) ->
  (forall k, lk_same l0 k -> Q tt (with_ps (lput k (psof s)) s)) -> wp (unlock_ l) Q s.
Proof.
  intros H1 H2 H3 HQ. apply ps_wp_, wp_zoom. eapply wp_mono; [by apply (release_wp l l0)|]. intros [] k Hk. exact (HQ k Hk).
Qed.

Lemma wake_wp ch reason (Q : unit -> ust P C -> Prop) s : pgood (psof s) ->
  (forall t, pgood t -> wake_frame (psof s) t -> ps_procs t = woken ch reason <$> ps_procs (psof s) -> Q tt (with_ps t s)) ->
  wp (ps_ (wakeup_reason ch reason)) Q s.
Proof. intros Hg HQ. apply ps_wp_. eapply wp_mono; [by apply wakeup_wp|]. intros [] t (H1 & H2 & H3). by apply HQ. Qed.

(** One lock held by the running process, and none. *)
Record under (l : lockid) (p : pst) : Prop := {
  un_good : pgood p;
  un_noff : noff (lk_of p) = 1;
  un_held : held (lk_of p) = [l];
}.

Lemma lock_under l (Q : unit -> ust P C -> Prop) s : (forall i, l <> L_proc i) -> outside (psof s) ->
  (forall t, under l t -> ps_procs t = ps_procs (psof s) -> Q tt (with_ps t s)) -> wp (lock_ l) Q s.
Proof.
  intros Hp (Hg & Hn & Hh) HQ. apply lock_wp; [rewrite Hh; apply not_elem_of_nil|]. intros k Hk.
  apply HQ; [|done]. pose proof Hk as (T1 & T2 & T3 & T4).
  pose proof (lk_ok_taken _ _ _ (pg_lk _ Hg) ltac:(rewrite Hh; apply not_elem_of_nil) Hk) as Hok.
  split; [split; [exact Hok| |exact (pg_len _ Hg)]|simpl; lia|simpl; by rewrite T3, Hh].
  intros i. simpl. rewrite T3, Hh, list_elem_of_singleton. intros E. by apply (Hp i).
Qed.

Lemma unlock_under l (Q : unit -> ust P C -> Prop) s : under l (psof s) ->
  (forall t, outside t -> ps_procs t = ps_procs (psof s) -> Q tt (with_ps t s)) -> wp (unlock_ l) Q s.
Proof.
  intros [Hg Hn Hh] HQ.
  assert (Hs : sie (lk_of (psof s)) = false) by (apply Hg; rewrite Hn; lia).
  apply (unlock_wp l (Lkst 0 false (intena (lk_of (psof s))) [])); [apply lk_ok_0|apply not_elem_of_nil| |].
  - unfold taken. simpl. by rewrite Hn, Hs, Hh.
  - intros k Hk. apply HQ; [|done]. pose proof (lk_same_ok _ _ Hk (lk_ok_0 _)) as Hok. destruct Hk as (T1 & T2 & T3 & T4).
    split; [split; [exact Hok| |exact (pg_len _ Hg)]|done]. intros i. simpl. rewrite T3. apply not_elem_of_nil.
Qed.

Lemma wake_under l ch reason (Q : unit -> ust P C -> Prop) s : under l (psof s) ->
  (forall t, under l t -> ps_procs t = woken ch reason <$> ps_procs (psof s) -> Q tt (with_ps t s)) ->
  wp (ps_ (wakeup_reason ch reason)) Q s.
Proof.
  intros [Hg Hn Hh] HQ. apply wake_wp; [done|]. intros t Ht [(E1 & E2 & E3 & _) _] Hp. apply HQ; [|done].
  split; [done|by rewrite E1|by rewrite E3].
Qed.

(** ** The transmit side *)

Definition tx_ok (u : uart) : Prop := rb_ok (ua_tx u) /\ bytes (rb_contents (ua_tx u)).
(** The bytes for the line: given to the hardware, then waiting. *)
Definition tx_line (u : uart) : list Z := hw_sent u ++ rb_contents (ua_tx u).
(** The parts that the transmit side does not touch. *)
Definition rx_side (u : uart) : ringbuffer * Z * Z * bool * Z * bool * list Z * bool * Z :=
  (ua_rx u, ua_dropped u, ua_epoch u, ua_observer u, ua_requested_baud u, ua_panicked u, hw_fifo u, hw_rxie u, hw_div u).
Definition tx_same (u u' : uart) : Prop := tx_ok u' /\ tx_line u' = tx_line u /\ rx_side u' = rx_side u.

Lemma tx_pop u c r : tx_ok u -> ringbuffer_pop (ua_tx u) = (Some c, r) ->
  tx_same u (set_hw_sent (hw_sent u ++ [u8 c]) (set_ua_tx r u)) /\ (length (rb_contents r) < length (rb_contents (ua_tx u)))%nat.
Proof.
  intros [Hok Hb] Hp. pose proof (pop_dequeues (ua_tx u) Hok) as H. rewrite Hp in H. destruct H as [Hr H].
  destruct (rb_contents (ua_tx u)) as [|c' q] eqn:E; [by destruct H|]. destruct H as [[= ->] Hq].
  unfold bytes in Hb. apply Forall_cons in Hb as [Hc Hb].
  split; [|rewrite Hq; simpl; lia]. split; [split; [exact Hr|by simpl; rewrite Hq]|]. split; [|done].
  unfold tx_line. simpl. rewrite E, Hq, u8_small, <- (assoc_L (++)) by lia. done.
Qed.

#[local] Instance tx_same_trans : Transitive tx_same.
Proof. intros u1 u2 u3 (A1 & A2 & A3) (B1 & B2 & B3). split; [done|]. split; congruence. Qed.

Lemma tx_polls l u : tx_ok u -> tx_same u (set_hw_polls l u).
Proof. by intros H. Qed.

(** A device that is always ready takes everything. *)
Definition idle_line (u : uart) : Prop := hw_polls u = [] /\ rb_contents (ua_tx u) = [].
Definition drained (u u' : uart) : Prop := hw_polls u = [] -> idle_line u'.

Lemma tx_loop_wp n : forall s, tx_ok (us_uart s) -> (length (rb_contents (ua_tx (us_uart s))) < n)%nat ->
  wp (loop n tx_service_body tt) (fun _ s' => exists u', s' = with_uart u' s /\ tx_same (us_uart s) u' /\ drained (us_uart s) u') s.
Proof.
  induction n as [|n IH]; intros s Hok Hn; [lia|]. apply wp_loop_S. unfold tx_service_body at 1, getu. wp_step. wp_step.
  destruct (ringbuffer_empty (ua_tx (us_uart s))) eqn:Ee; [wp_go; exists (us_uart s); split; [by destruct s|]; split; [done|]; intros E; split; [done|]; by apply (ringbuffer_reports _ (proj1 Hok))|].
  assert (Hpop : forall s1, tx_same (us_uart s) (us_uart s1) -> (hw_polls (us_uart s) = [] -> hw_polls (us_uart s1) = []) -> ua_tx (us_uart s1) = ua_tx (us_uart s) ->
    s1 = with_uart (us_uart s1) s ->
    wp (u <- gets us_uart ;;
        match ringbuffer_pop (ua_tx u) with
        | (Some c, r) => setu (set_ua_tx r) ;; uarths_hw_putc c ;; ret (inl (B := unit) tt)
        | (None, _) => ret (inl (B := unit) tt)
        end) (fun y s' => match y with
          | inl x' => wp (loop n tx_service_body x') (fun _ s' => exists u', s' = with_uart u' s /\ tx_same (us_uart s) u' /\ drained (us_uart s) u') s'
          | inr _ => exists u', s' = with_uart u' s /\ tx_same (us_uart s) u' /\ drained (us_uart s) u' end) s1).
  { intros s1 H1 Hpl H2 H3. wp_step. wp_step. destruct (ringbuffer_pop (ua_tx (us_uart s1))) as [[c|] r] eqn:Ep.
    - destruct (tx_pop _ _ _ (proj1 H1) Ep) as [Ht Hlt]. unfold uarths_hw_putc, setu. wp_go. rewrite H2 in Hlt.
      eapply wp_mono; [apply IH; [exact (proj1 Ht)|simpl; lia]|]. intros [] s' (u' & -> & Hu & Hd). exists u'.
      split; [by rewrite H3|]. split; [etrans; [exact H1|]; etrans; [exact Ht|exact Hu]|]. intros E. apply Hd. exact (Hpl E).
    - unfold ringbuffer_pop in Ep. rewrite H2, Ee in Ep. discriminate. }
  unfold uarths_hw_tx_ready, getu. wp_step. wp_step. wp_step. destruct (hw_polls (us_uart s)) as [|b l] eqn:El.
  - wp_step. simpl negb. cbv iota. apply Hpop; [by split|done|done|by destruct s].
  - unfold setu. wp_step. wp_step. wp_step. destruct b; simpl negb; cbv iota.
    + apply Hpop; [by apply tx_polls|discriminate|done|done].
    + wp_go. exists (set_hw_polls l (us_uart s)). split; [done|]. split; [by apply tx_polls|]. unfold drained. by rewrite El.
Qed.

(** [uarths_tx_service] under the lock. *)
Lemma tx_service_wp s (Q : unit -> ust P C -> Prop) : tx_ok (us_uart s) -> under L_uarths_tx (psof s) ->
  (forall t u, under L_uarths_tx t -> ps_procs t = woken (AddrChan tx_ring) WAKEUP_DEVICE <$> ps_procs (psof s) ->
     tx_same (us_uart s) u -> drained (us_uart s) u -> hw_txie u = negb (ringbuffer_empty (ua_tx u)) -> Q tt (Ust (lput t (us_p s)) u (us_cons s))) ->
  wp uarths_tx_service Q s.
Proof.
  intros Hok Hu HQ. unfold uarths_tx_service, getu. wp_step. wp_step. wp_step.
  assert (Hl : ringbuffer_used (ua_tx (us_uart s)) = Z.of_nat (length (rb_contents (ua_tx (us_uart s)))))
    by apply (ringbuffer_reports _ (proj1 Hok)).
  eapply wp_mono; [apply tx_loop_wp; [done|rewrite Hl; lia]|]. intros [] s1 (u & -> & Ht & Hd). wp_step.
  apply (wake_under L_uarths_tx); [done|]. intros t H1 H2. wp_step. wp_step. unfold uarths_txenable, setu. wp_step.
  by apply HQ.
Qed.

Lemma push_room u c : tx_ok u -> 0 <= c < 256 -> ringbuffer_full (ua_tx u) = false ->
  let u' := set_ua_tx (snd (ringbuffer_push (u8 c) (ua_tx u))) u in
  tx_ok u' /\ tx_line u' = tx_line u ++ [c] /\ rx_side u' = rx_side u.
Proof.
  intros [Hok Hb] Hc Hf. pose proof (push_enqueues (u8 c) (ua_tx u) Hok) as H.
  destruct (ringbuffer_push (u8 c) (ua_tx u)) as [res r]. destruct H as [Hr H]. simpl.
  destruct (ringbuffer_reports _ Hok) as (_ & _ & _ & _ & Hfull & _).
  destruct (decide _) as [E|E]; [apply Hfull in E; congruence|]. destruct H as [_ H].
  rewrite !u8_small in H by (rewrite ?u8_small by lia; lia). unfold tx_ok, tx_line. simpl. rewrite H.
  split; [split; [done|apply Forall_app; split; [done|by constructor]]|]. split; [|done]. apply (assoc_L (++)).
Qed.

Lemma under_relock l k p : (forall i, l <> L_proc i) -> pgood p -> noff k = 1 -> sie k = false -> held k = [l] -> under l (lput k p).
Proof.
  intros Hp Hg K1 K2 K3. split; simpl; [|done|done]. split; simpl; [|intros i|apply Hg].
  - unfold lk_ok. rewrite K1, K3. split_and!; [simpl; lia|done|apply NoDup_singleton].
  - rewrite K3, list_elem_of_singleton. intros E. by apply (Hp i).
Qed.

(** A process that goes to sleep under a lock, or finds a signal. *)
Lemma sleep_under l me ch (Q : Z + bool -> ust P C -> Prop) s : (forall i, l <> L_proc i) -> under l (psof s) -> 0 <= me < NPROC ->
  (signal_pending_locked (proc_at (psof s) me) = true -> forall t, under l t -> ps_procs t = ps_procs (psof s) -> Q (inl (-1)) (with_ps t s)) ->
  (signal_pending_locked (proc_at (psof s) me) = false -> forall saved t, held (lk_of t) = [L_proc me] -> noff (lk_of t) = 1 ->
     ps_procs t = ps_procs (upd_proc me (asleep_on ch true) (psof s)) -> Q (inr saved) (with_ps t s)) ->
  wp (ps_ (sleep_on_enter me ch l true)) Q s.
Proof.
  intros Hl [Hg Hn Hh] Hme H1 H2. apply ps_wp_. eapply wp_mono; [by apply sleep_enter_wp|]. intros r t (K1 & K2 & K3).
  simpl andb in K3. destruct (signal_pending_locked (proc_at (psof s) me)).
  - destruct K3 as (-> & K4 & k & ->). apply H1; [done| |done]. by apply under_relock.
  - destruct K3 as (saved & -> & K4 & k & ->). by apply H2.
Qed.

(** The transmit interrupt is on exactly while bytes wait. *)
Definition irq_right (u : uart) : Prop := hw_txie u = negb (ringbuffer_empty (ua_tx u)).

(** How a write of [bs] from the [i]-th byte on ends. *)
Record wrote (me i : Z) (bs : list Z) (s : ust P C) (r : run) (s' : ust P C) (j : nat) : Prop := {
  wo_j : (j <= length bs)%nat;
  wo_line : tx_line (us_uart s') = tx_line (us_uart s) ++ take j bs;
  wo_ok : tx_ok (us_uart s');
  wo_rx : rx_side (us_uart s') = rx_side (us_uart s);
  wo_cons : us_cons s' = us_cons s;
  wo_irq : (0 < j)%nat \/ irq_right (us_uart s) -> irq_right (us_uart s');
  wo_ready : idle_line (us_uart s) -> idle_line (us_uart s') /\ j = length bs /\ r = Returned (i + Z.of_nat j);
  wo_end : match r with
    | Returned x => outside (psof s') /\ (j = length bs /\ x = i + Z.of_nat j \/ x = partial (i + Z.of_nat j))
    | Asleep k _ => k = i + Z.of_nat j /\ (j < length bs)%nat /\ ringbuffer_full (ua_tx (us_uart s')) = true /\
        held (lk_of (psof s')) = [L_proc me] /\ p_state (proc_at (psof s') me) = SLEEPING /\
        p_chan (proc_at (psof s') me) = AddrChan tx_ring
    end;
}.

Lemma tx_not_proc i : L_uarths_tx <> L_proc i.
Proof. done. Qed.
Lemma rx_not_proc i : L_uarths_rx <> L_proc i.
Proof. done. Qed.

Lemma idle_not_full u : tx_ok u -> rb_contents (ua_tx u) = [] -> ringbuffer_full (ua_tx u) = false.
Proof.
  intros [Hok _] E. destruct (ringbuffer_reports _ Hok) as (_ & _ & _ & _ & Hf & _). destruct (ringbuffer_full (ua_tx u)); [|done].
  pose proof (proj1 Hf eq_refl) as Hf'. rewrite E in Hf'. destruct Hok. simpl in *. lia.
Qed.

Lemma uart_write_loop_wp me bs : 0 <= me < NPROC -> bytes bs -> forall i s, 0 <= i -> tx_ok (us_uart s) -> under L_uarths_tx (psof s) ->
  wp (write_loop me bs i) (fun r s' => exists j, wrote me i bs s r s' j) s.
Proof.
  intros Hme. induction bs as [|c bs IH]; intros Hb i s Hi Hok Hu; cbn [write_loop].
  - wp_step. apply unlock_under; [done|]. intros t Ht Hp. wp_go. exists 0%nat.
    split; [done|by rewrite app_nil_r|done|done|done|intros [?|?]; [lia|done]|by rewrite Z.add_0_r|]. rewrite psof_with. split; [done|]. left. split; [done|lia].
  - unfold bytes in Hb. apply Forall_cons in Hb as [Hc Hb]. wp_step. unfold uarths_tx_wait_room, getu. wp_step. wp_step.
    destruct (ringbuffer_full (ua_tx (us_uart s))) eqn:Ef.
    + assert (Hstop : forall t, under L_uarths_tx t ->
        wp (write_round i c (Ready (-1)) (write_loop me bs (i + 1))) (fun r s' => exists j, wrote me i (c :: bs) s r s' j) (with_ps t s)).
      { intros t Ht. unfold write_round at 1. change (-1 <? 0) with true. cbv iota. wp_step. apply unlock_under; [by rewrite psof_with|].
        intros t' Ht' _. wp_go. rewrite with_ps_twice. exists 0%nat. split; [simpl; lia|by rewrite app_nil_r|done|done|done|intros [?|?]; [lia|done]|by intros [_ HI]; rewrite (idle_not_full _ Hok HI) in Ef|].
        rewrite psof_with. split; [done|]. right. by rewrite Z.add_0_r. }
      destruct (ua_panicked (us_uart s)).
      { wp_step. assert (E : s = with_ps (psof s) s) by (unfold with_ps, psof; rewrite lput_lget; by destruct s).
        rewrite E at 1. by apply Hstop. }
      wp_step. apply sleep_under; [exact tx_not_proc|done|done| |].
      * intros _ t Ht _. wp_step. by apply Hstop.
      * intros _ saved t Hh Hn Hp. wp_step. unfold write_round at 1. wp_go. exists 0%nat.
        assert (Hat : proc_at t me = asleep_on (AddrChan tx_ring) true (proc_at (psof s) me)).
        { unfold proc_at. rewrite Hp. simpl. apply list_lookup_total_insert_eq. rewrite (pg_len _ (un_good _ _ Hu)). lia. }
        split; [simpl; lia|by rewrite app_nil_r|done|done|done|intros [?|?]; [lia|done]|by intros [_ HI]; rewrite (idle_not_full _ Hok HI) in Ef|]. rewrite psof_with, Hat.
        split; [lia|]. split; [simpl; lia|]. by split.
    + wp_step. unfold write_round at 1. change (0 <? 0) with false. cbv iota. destruct (push_room _ c Hok Hc Ef) as (P1 & P2 & P3). unfold setu. wp_step. wp_step.
      wp_step. apply tx_service_wp; [done|done|]. intros t u Ht Hpt (U1 & U2 & U3) Hdr Hie.
      eapply wp_mono; [apply (IH Hb (i + 1)); [lia|exact U1|by rewrite <- (psof_with t s) in Ht]|].
      intros r s' (j & [W1 W2 W3 W4 W5 W6 W6' W7]). exists (S j). cbn [us_uart us_cons] in *.
      split; [simpl; lia| |done|by rewrite W4, U3, P3|done| | |].
      * rewrite W2, U2, P2, <- (assoc_L (++)). done.
      * intros _. apply W6. by right.
      * intros [HI _]. destruct (W6' (Hdr HI)) as (H1 & -> & ->). split; [done|]. split; [done|]. f_equal. lia.
      * replace (i + Z.of_nat (S j)) with (i + 1 + Z.of_nat j) by lia. destruct r as [x|k sv].
        -- split; [apply W7|]. destruct W7 as [_ [[-> ->]|W7]]; [left|by right]. split; [done|lia].
        -- destruct W7 as (V1 & V2 & V3). split; [done|]. split; [simpl; lia|done].
Qed.

(** The transmit side of the UART is a FIFO channel.  Whatever the
    hardware answers to the tests for room, a [uarths_write] appends exactly
    the bytes it reports to the line (the bytes given to the hardware followed
    by the bytes in the ring), in order and without loss or duplication; it
    ends with no lock held, or asleep on the ring's channel because the ring
    is full; the transmit interrupt stays on exactly while bytes wait; and
    a device that is always ready has been given everything on return. *)
Theorem uarths_write_in_order me bs s : 0 <= me < NPROC -> bytes bs -> tx_ok (us_uart s) -> outside (psof s) -> irq_right (us_uart s) ->
  exists r s' j, uarths_write me bs s = Ok r s' /\ (j <= length bs)%nat /\
    tx_line (us_uart s') = tx_line (us_uart s) ++ take j bs /\ tx_ok (us_uart s') /\ irq_right (us_uart s') /\
    rx_side (us_uart s') = rx_side (us_uart s) /\ us_cons s' = us_cons s /\
    (idle_line (us_uart s) -> r = Returned (Z.of_nat (length bs)) /\ hw_sent (us_uart s') = hw_sent (us_uart s) ++ bs) /\
    match r with
    | Returned x => outside (psof s') /\ (x = Z.of_nat j /\ j = length bs \/ x = partial (Z.of_nat j))
    | Asleep k _ => k = Z.of_nat j /\ (j < length bs)%nat /\ ringbuffer_full (ua_tx (us_uart s')) = true /\
        held (lk_of (psof s')) = [L_proc me] /\ p_state (proc_at (psof s') me) = SLEEPING /\
        p_chan (proc_at (psof s') me) = AddrChan tx_ring
    end.
Proof.
  intros Hme Hb Hok Ho Hirq.
  assert (H : wp (uarths_write me bs) (fun r s' => exists j, wrote me 0 bs s r s' j) s).
  { unfold uarths_write. wp_step. apply lock_under; [exact tx_not_proc|done|]. intros t Ht Hp.
    eapply wp_mono; [apply (uart_write_loop_wp me bs Hme Hb 0 (with_ps t s)); [lia|done|by rewrite psof_with]|].
    intros r s' (j & [W1 W2 W3 W4 W5 W6 W7 W8]). exists j. by split. }
  destruct (wp_Ok _ _ _ H) as (r & s' & E & j & [W1 W2 W3 W4 W5 W6 W7 W8]). exists r, s', j.
  split; [exact E|]. split; [done|]. split; [done|]. split; [done|]. split; [by apply W6; right|]. split; [done|]. split; [done|]. split.
  - intros HI. destruct (W7 HI) as ((_ & H1) & -> & ->). split; [done|]. unfold tx_line in W2.
    rewrite H1, app_nil_r, (proj2 HI), app_nil_r, take_ge in W2 by lia. done.
  - destruct r as [x|k sv]; [|done]. destruct W8 as [H1 H2]. split; [done|]. destruct H2 as [[H2 H3]|H2]; [left; split; [lia|done]|by right].
Qed.
End props.
