(* ===== verification/Bio.v ===== *)
(** * The buffer cache (src/kernel/fs/bio.c, src/kernel/lock/sleeplock.c)

    Thirty buffers in thirteen hash buckets, recycled by CLOCK.  A bucket's
    doubly linked list is the list of its buffer numbers from [head.next] on;
    [clock_hand] is [None] when it points to [head].  [Module Race] runs two
    calls of [bget] interleaved at their critical sections.

    The SD card is the interface [Disk]: reading a sector gives what was last
    written to it. *)

From S2P Require Import Prelude Riscv Spinlock.
Import Hart.

Definition NBUCKET : Z := 13.
Definition BSIZE : Z := 512.
Definition HASH (blockno : Z) : Z := blockno mod NBUCKET.

(** [sdcard_read_sector] and [sdcard_write_sector]. *)
Class Disk (D : Type) := {
  sd_read : D -> Z -> list Z;
  sd_write : D -> Z -> list Z -> D;
}.
Class DiskLaws (D : Type) `{Disk D} : Prop := {
  sd_read_write d n v n' : sd_read (sd_write d n v) n' = if n =? n' then v else sd_read d n';
}.

Record buf := Buf {
  b_valid : bool;
  b_dev : Z;
  b_blockno : Z;
  b_locked : bool;       (** lock.locked *)
  b_pid : Z;             (** lock.pid *)
  b_refcnt : Z;
  b_referenced : bool;
  b_data : list Z;
}.
#[export] Instance buf_inhabited : Inhabited buf := populate (Buf false 0 0 false 0 0 false []).

Record hashbuf := Hashbuf { hb_list : list Z; hb_hand : option Z }.
#[export] Instance hashbuf_inhabited : Inhabited hashbuf := populate (Hashbuf [] None).

(** [bs_pid] is the pid of the running process. *)
Record bst (D : Type) := Bst {
  bs_bufs : list buf;
  bs_buckets : list hashbuf;
  bs_disk : D;
  bs_pid : Z;
  bs_lk : lkst;
}.
Arguments Bst {D}.
Arguments bs_bufs {D}. Arguments bs_buckets {D}. Arguments bs_disk {D}. Arguments bs_pid {D}. Arguments bs_lk {D}.

#[export] Instance bst_lk D : Lens (bst D) lkst :=
  {| lget := bs_lk; lput l s := Bst (bs_bufs s) (bs_buckets s) (bs_disk s) (bs_pid s) l |}.

Section code.
Context {D : Type} `{Disk D}.

Definition buf_at (s : bst D) (b : Z) : buf := bs_bufs s !!! Z.to_nat b.
Definition upd_buf (b : Z) (f : buf -> buf) (s : bst D) : bst D :=
  Bst (<[Z.to_nat b := f (buf_at s b)]> (bs_bufs s)) (bs_buckets s) (bs_disk s) (bs_pid s) (bs_lk s).
Definition bucket_at (s : bst D) (i : Z) : hashbuf := bs_buckets s !!! Z.to_nat i.
Definition upd_bucket (i : Z) (f : hashbuf -> hashbuf) (s : bst D) : bst D :=
  Bst (bs_bufs s) (<[Z.to_nat i := f (bucket_at s i)]> (bs_buckets s)) (bs_disk s) (bs_pid s) (bs_lk s).

Definition getb (b : Z) : M (bst D) buf := gets (fun s => buf_at s b).
Definition setb (b : Z) (f : buf -> buf) : M (bst D) unit := modify (upd_buf b f).
Definition block (i : Z) : M (bst D) unit := zoom (acquire (L_bcache i)).
Definition bunlock (i : Z) : M (bst D) unit := zoom (release (L_bcache i)).

(** [b->next] within a bucket's list; [None] is [&bucket->head]. *)
Fixpoint next_in (l : list Z) (b : Z) : option Z :=
  match l with
  | [] => None
  | x :: l' => if x =? b then head l' else next_in l' b
  end.

Definition set_referenced (v : bool) (b : buf) : buf :=
  Buf (b_valid b) (b_dev b) (b_blockno b) (b_locked b) (b_pid b) (b_refcnt b) v (b_data b).
Definition set_refcnt (v : Z) (b : buf) : buf :=
  Buf (b_valid b) (b_dev b) (b_blockno b) (b_locked b) (b_pid b) v (b_referenced b) (b_data b).
Definition set_valid (v : bool) (b : buf) : buf :=
  Buf v (b_dev b) (b_blockno b) (b_locked b) (b_pid b) (b_refcnt b) (b_referenced b) (b_data b).
Definition set_data (v : list Z) (b : buf) : buf :=
  Buf (b_valid b) (b_dev b) (b_blockno b) (b_locked b) (b_pid b) (b_refcnt b) (b_referenced b) v.
Definition set_sleeplock (locked : bool) (pid : Z) (b : buf) : buf :=
  Buf (b_valid b) (b_dev b) (b_blockno b) locked pid (b_refcnt b) (b_referenced b) (b_data b).

(** One round of the loop of [clock_victim]; the loop variable is [scanned]. *)
Definition clock_body (i : Z) (scanned : Z) : M (bst D) (Z + option Z) :=
  if scanned <? 2 * NBUF then
    bk <- gets (fun s => bucket_at s i) ;;
    match hb_hand bk with
    | None =>
        let b := head (hb_list bk) in
        modify (upd_bucket i (fun h => Hashbuf (hb_list h) b)) ;;
        match b with
        | None => ret (inr None)
        | Some _ => ret (inl scanned)
        end
    | Some b =>
        modify (upd_bucket i (fun h => Hashbuf (hb_list h) (next_in (hb_list h) b))) ;;
        x <- getb b ;;
        if negb (b_refcnt x =? 0) then ret (inl (scanned + 1))
        else if b_referenced x then setb b (set_referenced false) ;; ret (inl (scanned + 1))
        else ret (inr (Some b))
    end
  else ret (inr None).

(** The hand meets [head] at most once between two buffers. *)
Definition clock_victim (i : Z) : M (bst D) (option Z) :=
  loop (Z.to_nat (4 * NBUF + 2)) (clock_body i) 0.

(** ** Sleep locks of buffers

    [acquiresleep] of a lock that is held blocks; a sequential run does not
    continue. *)
Definition acquiresleep (b : Z) : M (bst D) unit :=
  x <- getb b ;;
  if b_locked x then spin
  else pid <- gets bs_pid ;; setb b (set_sleeplock true pid).
Definition releasesleep (b : Z) : M (bst D) unit := setb b (set_sleeplock false 0).
Definition holdingsleep (b : Z) : M (bst D) bool :=
  x <- getb b ;;
  pid <- gets bs_pid ;;
  ret (b_locked x && (b_pid x =? pid)).

(** ** The cache *)

(** Insert buffer [b] behind the head of bucket [i]. *)
Definition bucket_insert (i b : Z) : M (bst D) unit :=
  modify (upd_bucket i (fun h => Hashbuf (b :: hb_list h) (hb_hand h))).
Definition bucket_remove (i b : Z) : M (bst D) unit :=
  modify (upd_bucket i (fun h => Hashbuf (filter (fun x => x <> b) (hb_list h)) (hb_hand h))).

(** [binit]: the loop over the buffers. *)
Fixpoint binit_spread (n : nat) (b bid : Z) : M (bst D) unit :=
  match n with
  | O => ret tt
  | S n' =>
      bucket_insert bid b ;;
      setb b (set_sleeplock false 0) ;;
      binit_spread n' (b + 1) ((bid + 1) mod NBUCKET)
  end.
Definition binit : M (bst D) unit :=
  modify (fun s => Bst (bs_bufs s) (replicate (Z.to_nat NBUCKET) (Hashbuf [] None)) (bs_disk s) (bs_pid s) (bs_lk s)) ;;
  binit_spread (Z.to_nat NBUF) 0 0.

(** The list scan of [bget]. *)
Fixpoint find_block (s : bst D) (l : list Z) (dev blockno : Z) : option Z :=
  match l with
  | [] => None
  | b :: l' =>
      if (b_dev (buf_at s b) =? dev) && (b_blockno (buf_at s b) =? blockno) then Some b
      else find_block s l' dev blockno
  end.

(** First critical section of [bget]: a hit takes a reference. *)
Definition bget_lookup (dev blockno : Z) : M (bst D) (option Z) :=
  let bid := HASH blockno in
  block bid ;;
  r <- gets (fun s => find_block s (hb_list (bucket_at s bid)) dev blockno) ;;
  match r with
  | Some b => setb b (fun x => set_referenced true (set_refcnt (u32 (b_refcnt x + 1)) x)) ;; bunlock bid ;; ret (Some b)
  | None => bunlock bid ;; ret None
  end.

(** Second: [for (i = 0; i < NBUCKET; i++)], one bucket lock at a time. *)
Definition bget_steal_body (bid : Z) (i : Z) : M (bst D) (Z + option Z) :=
  if i <? NBUCKET then
    let bucket := (bid + i) mod NBUCKET in
    block bucket ;;
    v <- clock_victim bucket ;;
    match v with
    | Some b => bucket_remove bucket b ;; bunlock bucket ;; ret (inr (Some b))
    | None => bunlock bucket ;; ret (inl (i + 1))
    end
  else ret (inr None).
Definition bget_steal (bid : Z) : M (bst D) (option Z) :=
  loop (S (Z.to_nat NBUCKET)) (bget_steal_body bid) 0.

(** Third: the recycled buffer enters the target bucket. *)
Definition bget_insert (dev blockno b : Z) : M (bst D) unit :=
  let bid := HASH blockno in
  block bid ;;
  bucket_insert bid b ;;
  setb b (fun x => Buf false dev blockno (b_locked x) (b_pid x) 1 true (b_data x)) ;;
  bunlock bid.

Definition bget (dev blockno : Z) : M (bst D) Z :=
  r <- bget_lookup dev blockno ;;
  match r with
  | Some b => acquiresleep b ;; ret b
  | None =>
      v <- bget_steal (HASH blockno) ;;
      match v with
      | None => panic "bget: no buffers"
      | Some b => bget_insert dev blockno b ;; acquiresleep b ;; ret b
      end
  end.

Definition disk_read (b : Z) : M (bst D) unit :=
  modify (fun s => upd_buf b (set_data (sd_read (bs_disk s) (b_blockno (buf_at s b)))) s).
Definition disk_write (b : Z) : M (bst D) unit :=
  modify (fun s => Bst (bs_bufs s) (bs_buckets s)
    (sd_write (bs_disk s) (b_blockno (buf_at s b)) (b_data (buf_at s b))) (bs_pid s) (bs_lk s)).

Definition bread (dev blockno : Z) : M (bst D) Z :=
  b <- bget dev blockno ;;
  x <- getb b ;;
  when (negb (b_valid x)) (disk_read b ;; setb b (set_valid true)) ;;
  ret b.

Definition bwrite (b : Z) : M (bst D) unit :=
  h <- holdingsleep b ;;
  if negb h then panic "bwrite" else disk_write b.

(** [binvalidate]: unreferenced buffers of the device lose their contents. *)
Definition invalidate_one (dev : Z) (x : buf) : buf :=
  if (b_dev x =? dev) && (b_refcnt x =? 0) then set_valid false x else x.
Fixpoint invalidate_list (dev : Z) (l : list Z) : M (bst D) unit :=
  match l with
  | [] => ret tt
  | b :: l' => setb b (invalidate_one dev) ;; invalidate_list dev l'
  end.
Fixpoint binvalidate_from (n : nat) (i dev : Z) : M (bst D) unit :=
  match n with
  | O => ret tt
  | S n' =>
      block i ;;
      l <- gets (fun s => hb_list (bucket_at s i)) ;;
      invalidate_list dev l ;;
      bunlock i ;;
      binvalidate_from n' (i + 1) dev
  end.
Definition binvalidate (dev : Z) : M (bst D) unit := binvalidate_from (Z.to_nat NBUCKET) 0 dev.

Definition brelse (b : Z) : M (bst D) unit :=
  x <- getb b ;;
  let bid := HASH (b_blockno x) in
  h <- holdingsleep b ;;
  if negb h then panic "brelse"
  else
    releasesleep b ;;
    block bid ;;
    setb b (fun x => set_referenced true (set_refcnt (u32 (b_refcnt x - 1)) x)) ;;
    bunlock bid.

Definition bpin (b : Z) : M (bst D) unit :=
  x <- getb b ;;
  let bid := HASH (b_blockno x) in
  block bid ;; setb b (fun x => set_refcnt (u32 (b_refcnt x + 1)) x) ;; bunlock bid.
Definition bunpin (b : Z) : M (bst D) unit :=
  x <- getb b ;;
  let bid := HASH (b_blockno x) in
  block bid ;; setb b (fun x => set_refcnt (u32 (b_refcnt x - 1)) x) ;; bunlock bid.

End code.
