(* ===== verification/BioProps.v ===== *)
(** * Correctness of the buffer cache

    CLOCK finds a free buffer whenever the bucket has one; [bread] returns
    the block's contents and keeps at most one live copy of a block when
    calls do not interleave; [Module Race] shows the interleaving of two
    calls that does not. *)

From S2P Require Import Prelude Riscv Spinlock Kalloc Bio.
Import Hart.

Section clock.
Context {D : Type} `{Disk D}.

(** States that agree but for reference bits and the hand of bucket [i]. *)
Definition same_but_ref (x y : buf) : Prop := y = set_referenced (b_referenced y) x.

Record clock_step (i : Z) (s s' : bst D) : Prop := {
  ck_len : length (bs_bufs s') = length (bs_bufs s);
  ck_buf b : same_but_ref (buf_at s b) (buf_at s' b);
  ck_blen : length (bs_buckets s') = length (bs_buckets s);
  ck_list k : hb_list (bucket_at s' k) = hb_list (bucket_at s k);
  ck_hand k : 0 <= k -> k <> i -> hb_hand (bucket_at s' k) = hb_hand (bucket_at s k);
  ck_disk : bs_disk s' = bs_disk s;
  ck_pid : bs_pid s' = bs_pid s;
  ck_lk : bs_lk s' = bs_lk s;
}.

#[local] Instance clock_step_preorder i : PreOrder (clock_step i).
Proof.
  split.
  - intros s. split; try done. intros b. unfold same_but_ref. by destruct (buf_at s b).
  - intros s1 s2 s3 [A1 A2 A3 A4 A5 A6 A7 A8] [B1 B2 B3 B4 B5 B6 B7 B8]. split; try congruence.
    + intros b. specialize (A2 b). specialize (B2 b). unfold same_but_ref in *. rewrite B2, A2. done.
    + intros k Hk Hne. by rewrite B5, A5.
Qed.

(** The hand is at index [p] of the bucket's list, or at the head. *)
Definition hand_at (s : bst D) (i : Z) (l : list Z) (p : nat) : Prop :=
  hb_list (bucket_at s i) = l /\ hb_hand (bucket_at s i) = l !! p /\ (p <= length l)%nat.

Lemma next_in_lookup l p b : NoDup l -> l !! p = Some b -> next_in l b = l !! S p.
Proof.
  revert p. induction l as [|x l IH]; intros p Hnd Hp; [done|]. apply NoDup_cons in Hnd as [Hx Hnd]. simpl.
  destruct p as [|p]; simpl in Hp.
  - injection Hp as ->. rewrite Z.eqb_refl. by destruct l.
  - destruct (Z.eqb_spec x b) as [->|]; [|by apply IH]. exfalso. by apply Hx, list_elem_of_lookup_2 with p.
Qed.

Lemma bucket_upd (s : bst D) i f : 0 <= i < NBUCKET -> length (bs_buckets s) = Z.to_nat NBUCKET ->
  bucket_at (upd_bucket i f s) i = f (bucket_at s i).
Proof. intros Hi Hl. unfold bucket_at at 1, upd_bucket. simpl. apply list_lookup_total_insert_eq. rewrite Hl. lia. Qed.

Lemma buf_upd (s : bst D) b c f : 0 <= b < NBUF -> 0 <= c -> length (bs_bufs s) = Z.to_nat NBUF ->
  buf_at (upd_buf b f s) c = if b =? c then f (buf_at s b) else buf_at s c.
Proof.
  intros Hb Hc Hl. unfold buf_at at 1, upd_buf. simpl. destruct (Z.eqb_spec b c) as [->|].
  - apply list_lookup_total_insert_eq. rewrite Hl. lia.
  - apply list_lookup_total_insert_ne. lia.
Qed.

Lemma move_hand_step (s : bst D) i h : 0 <= i < NBUCKET -> length (bs_buckets s) = Z.to_nat NBUCKET ->
  clock_step i s (upd_bucket i (fun k => Hashbuf (hb_list k) h) s).
Proof.
  intros Hi Hl. split; try done.
  - intros b. change (same_but_ref (buf_at s b) (buf_at s b)). unfold same_but_ref. by destruct (buf_at s b).
  - simpl. by rewrite length_insert.
  - intros k. unfold bucket_at at 1, upd_bucket. simpl. destruct (decide (Z.to_nat i = Z.to_nat k)) as [E|E].
    + rewrite E, list_lookup_total_insert_eq by (rewrite Hl; lia). simpl. unfold bucket_at. by rewrite E.
    + by rewrite list_lookup_total_insert_ne.
  - intros k Hk Hne. unfold bucket_at at 1, upd_bucket. simpl. rewrite list_lookup_total_insert_ne by lia. done.
Qed.

Lemma clear_ref_step (s : bst D) i b : 0 <= b < NBUF -> length (bs_bufs s) = Z.to_nat NBUF ->
  clock_step i s (upd_buf b (set_referenced false) s).
Proof.
  intros Hb Hl. split; try done.
  - simpl. by rewrite length_insert.
  - intros c. unfold same_but_ref, buf_at at 1 2, upd_buf. simpl. destruct (decide (Z.to_nat b = Z.to_nat c)) as [E|E].
    + rewrite E, list_lookup_total_insert_eq by (rewrite Hl; lia). unfold buf_at. by rewrite E.
    + rewrite list_lookup_total_insert_ne by done. fold (buf_at s c). by destruct (buf_at s c).
Qed.

(** The buffers of a bucket, and what its scan needs to know. *)
Record bucket_ok (s : bst D) (i : Z) (l : list Z) : Prop := {
  bk_i : 0 <= i < NBUCKET;
  bk_blen : length (bs_buckets s) = Z.to_nat NBUCKET;
  bk_len : length (bs_bufs s) = Z.to_nat NBUF;
  bk_nodup : NoDup l;
  bk_in b : b ∈ l -> 0 <= b < NBUF;
  bk_size : (length l <= Z.to_nat NBUF)%nat;
}.

Lemma bucket_ok_step s s' i l : clock_step i s s' -> bucket_ok s i l -> bucket_ok s' i l.
Proof. intros [] []. split; try done; congruence. Qed.

(** One round of the loop with the hand at index [p]. *)
Lemma clock_body_wp s i l p scanned : bucket_ok s i l -> hand_at s i l p -> scanned < 2 * NBUF ->
  wp (clock_body i scanned) (fun y s' => clock_step i s s' /\
    match l !! p with
    | None =>
        if decide (l = []) then y = inr None /\ hand_at s' i l 0 else y = inl scanned /\ hand_at s' i l 0 /\
          (forall b, buf_at s' b = buf_at s b)
    | Some b => hand_at s' i l (S p) /\
        if b_refcnt (buf_at s b) =? 0 then
          if b_referenced (buf_at s b) then y = inl (scanned + 1) /\ 
            (forall c, 0 <= c -> b_referenced (buf_at s' c) = if b =? c then false else b_referenced (buf_at s c))
          else y = inr (Some b)
        else y = inl (scanned + 1) /\ (forall c, buf_at s' c = buf_at s c)
    end) s.
Proof.
  intros Hok (Hl & Hh & Hp) Hs. pose proof Hok as [B1 B2 B3 B4 B5 B6]. unfold clock_body.
  destruct (Z.ltb_spec scanned (2 * NBUF)) as [_|]; [|lia]. wp_step. wp_step. rewrite Hh, Hl.
  destruct (l !! p) as [b|] eqn:Eb.
  - assert (Hb : 0 <= b < NBUF) by (apply B5; by eapply list_elem_of_lookup_2).
    wp_step. wp_step.
    assert (Hfun : upd_bucket i (fun h => Hashbuf (hb_list h) (next_in (hb_list h) b)) s =
      upd_bucket i (fun h => Hashbuf (hb_list h) (l !! S p)) s).
    { unfold upd_bucket. by rewrite Hl, (next_in_lookup _ _ _ B4 Eb). }
    rewrite Hfun. set (s1 := upd_bucket i _ s).
    pose proof (move_hand_step s i (l !! S p) B1 B2) as Hst. fold s1 in Hst.
    assert (Hh1 : hand_at s1 i l (S p)).
    { unfold hand_at, s1. rewrite bucket_upd by done. simpl. split; [done|]. split; [done|]. apply lookup_lt_Some in Eb. lia. }
    wp_step. unfold getb. wp_step. change (buf_at s1 b) with (buf_at s b).
    destruct (b_refcnt (buf_at s b) =? 0); simpl negb; cbv iota; [|wp_go; done].
    destruct (b_referenced (buf_at s b)); [|wp_go; done]. unfold setb. wp_go.
    split; [etrans; [exact Hst|]; apply clear_ref_step; [done|exact B3]|]. split; [exact Hh1|]. split; [done|].
    intros c Hc. rewrite (buf_upd s1) by done. by destruct (Z.eqb_spec b c) as [->|].
  - assert (Hp' : p = length l) by (apply lookup_ge_None in Eb; lia).
    wp_step. wp_step.
    assert (Hh1 : hand_at (upd_bucket i (fun h => Hashbuf (hb_list h) (head l)) s) i l 0).
    { unfold hand_at. rewrite bucket_upd by done. simpl. split; [done|]. split; [by destruct l|lia]. }
    destruct l as [|x l]; simpl; wp_go; (split; [by apply move_hand_step|]); done.
Qed.

Lemma clock_step_refcnt i s s' b : clock_step i s s' -> b_refcnt (buf_at s' b) = b_refcnt (buf_at s b).
Proof. intros Hs. by rewrite (ck_buf _ _ _ Hs b). Qed.

(** Steps of the hand from index [p] to index [j]. *)
Definition ahead (len p j : nat) : nat := if (p <=? j)%nat then j - p else len - p + j.

(** Rounds that are left until the free buffer [b0] at index [j] is taken at
    the latest: a first visit clears its reference bit, the second takes it. *)
Definition potential (s : bst D) (len p j : nat) (b0 : Z) : nat :=
  ((if b_referenced (buf_at s b0) then len else 0) + ahead len p j)%nat.

Definition victim_post (s : bst D) (i : Z) (l : list Z) (v : Z) (s' : bst D) : Prop :=
  v ∈ l /\ b_refcnt (buf_at s v) = 0 /\ clock_step i s s' /\
  exists p, hand_at s' i l p /\ l !! p <> Some v.

Lemma clock_finds l i b0 j : l !! j = Some b0 -> forall fuel scanned s p,
  bucket_ok s i l -> hand_at s i l p -> b_refcnt (buf_at s b0) = 0 -> 0 <= scanned ->
  (Z.to_nat scanned + potential s (length l) p j b0 < 2 * Z.to_nat NBUF)%nat ->
  (2 * potential s (length l) p j b0 + (if (p =? length l)%nat then 1 else 0) < fuel)%nat ->
  wp (loop fuel (clock_body i) scanned) (fun r s' => exists v, r = Some v /\ victim_post s i l v s') s.
Proof.
  intros Hj. pose proof (lookup_lt_Some _ _ _ Hj) as Hjl.
  induction fuel as [|fuel IH]; intros scanned s p Hok Hh Hf Hs Hsc Hm; [lia|].
  apply wp_loop_S. assert (Hsc2 : scanned < 2 * NBUF) by (unfold NBUF in *; lia).
  eapply wp_mono; [by apply (clock_body_wp s i l p)|]. intros y s1 [Hst Hy].
  pose proof (bucket_ok_step _ _ _ _ Hst Hok) as Hok1.
  assert (Hf1 : b_refcnt (buf_at s1 b0) = 0) by by rewrite (clock_step_refcnt _ _ _ _ Hst).
  assert (Hback : forall v s', victim_post s1 i l v s' -> victim_post s i l v s').
  { intros v s' (V1 & V2 & V3 & V4). split; [done|]. split; [by rewrite <- (clock_step_refcnt _ _ _ _ Hst)|].
    split; [by etrans|done]. }
  assert (Hb0 : 0 <= b0) by (apply (bk_in _ _ _ Hok), (list_elem_of_lookup_2 _ _ _ Hj)).
  destruct Hh as (_ & _ & Hp). unfold potential, ahead in Hsc, Hm. destruct (l !! p) as [b|] eqn:Eb.
  - pose proof (lookup_lt_Some _ _ _ Eb) as Hpl. destruct Hy as [Hh1 Hy].
    assert (Hne : p <> j -> b <> b0).
    { intros Hpj ->. apply Hpj. by eapply (NoDup_lookup l); [apply Hok| |]. }
    assert (Hnext : forall s', y = inl (scanned + 1) -> s' = s1 ->
      (potential s1 (length l) (S p) j b0 < potential s (length l) p j b0)%nat ->
      wp (loop fuel (clock_body i) (scanned + 1)) (fun r s' => exists v, r = Some v /\ victim_post s i l v s') s1).
    { intros s' -> -> Hlt. unfold potential at 2, ahead in Hlt. eapply wp_mono; [apply (IH _ s1 (S p)); try done; [lia|lia|]|].
      - destruct (Nat.eqb_spec (S p) (length l)), (Nat.eqb_spec p (length l)); lia.
      - intros r s' (v & -> & Hv). exists v. split; [done|]. by apply Hback. }
    destruct (b_refcnt (buf_at s b) =? 0) eqn:Er.
    + destruct (b_referenced (buf_at s b)) eqn:Ere.
      * destruct Hy as [-> Href]. apply (Hnext s1); [done|done|]. unfold potential, ahead. rewrite Href by done.
        destruct (Z.eqb_spec b b0) as [->|Hbb].
        -- destruct (decide (p = j)) as [->|Hpj]; [|by destruct (Hne Hpj)]. rewrite Ere.
           destruct (Nat.leb_spec (S j) j), (Nat.leb_spec j j); lia.
        -- assert (p <> j) by (intros ->; congruence).
           destruct (Nat.leb_spec (S p) j), (Nat.leb_spec p j); lia.
      * subst y. exists b. split; [done|]. split; [by eapply list_elem_of_lookup_2|]. split; [by breflect|].
        split; [done|]. exists (S p). split; [done|]. intros Hc.
        assert (S p = p) by (by eapply (NoDup_lookup l); [apply Hok| |]). lia.
    + destruct Hy as [-> Hsame]. apply (Hnext s1); [done|done|]. unfold potential, ahead. rewrite Hsame.
      breflect. assert (p <> j) by (intros ->; congruence).
      destruct (Nat.leb_spec (S p) j), (Nat.leb_spec p j); lia.
  - apply lookup_ge_None in Eb. assert (p = length l) as -> by lia.
    rewrite decide_False in Hy by (intros ->; simpl in *; lia). destruct Hy as (-> & Hh1 & Hsame).
    rewrite Nat.eqb_refl in Hm. destruct (Nat.leb_spec (length l) j) as [|_]; [lia|].
    eapply wp_mono; [apply (IH scanned s1 0%nat); try done; unfold potential, ahead; rewrite Hsame|].
    + destruct (Nat.leb_spec 0 j); lia.
    + destruct (Nat.eqb_spec 0 (length l)), (Nat.leb_spec 0 j); lia.
    + intros r s' (v & -> & Hv). exists v. split; [done|]. by apply Hback.
Qed.

Lemma clock_fails l i : forall fuel scanned s p,
  bucket_ok s i l -> hand_at s i l p -> (forall b, b ∈ l -> b_refcnt (buf_at s b) <> 0) -> 0 <= scanned ->
  (2 * (2 * Z.to_nat NBUF - Z.to_nat scanned) + (if (p =? length l)%nat then 1 else 0) < fuel)%nat ->
  wp (loop fuel (clock_body i) scanned) (fun r s' => r = None /\ clock_step i s s' /\ exists p, hand_at s' i l p) s.
Proof.
  induction fuel as [|fuel IH]; intros scanned s p Hok Hh Hbusy Hs Hm; [lia|].
  apply wp_loop_S. destruct (Z.ltb_spec scanned (2 * NBUF)) as [Hlt|Hge].
  2: { unfold clock_body. destruct (Z.ltb_spec scanned (2 * NBUF)); [lia|]. wp_go. split; [done|]. split; [reflexivity|by exists p]. }
  eapply wp_mono; [by apply (clock_body_wp s i l p)|]. intros y s1 [Hst Hy].
  pose proof (bucket_ok_step _ _ _ _ Hst Hok) as Hok1.
  assert (Hbusy1 : forall b, b ∈ l -> b_refcnt (buf_at s1 b) <> 0)
    by (intros b Hb; rewrite (clock_step_refcnt _ _ _ _ Hst); by apply Hbusy).
  destruct Hh as (_ & _ & Hp). destruct (l !! p) as [b|] eqn:Eb.
  - destruct Hy as [Hh1 Hy]. destruct (Z.eqb_spec (b_refcnt (buf_at s b)) 0) as [E|_].
    { exfalso. by apply (Hbusy b); [eapply list_elem_of_lookup_2|]. }
    destruct Hy as [-> _]. eapply wp_mono; [apply (IH _ s1 (S p)); try done; [lia|]|].
    + destruct (Nat.eqb_spec (S p) (length l)), (Nat.eqb_spec p (length l)); lia.
    + intros r s' (-> & H1 & H2). split; [done|]. split; [by etrans|done].
  - apply lookup_ge_None in Eb. assert (p = length l) as -> by lia. rewrite Nat.eqb_refl in Hm.
    destruct (decide (l = [])) as [->|Hne].
    + destruct Hy as [-> Hh1]. split; [done|]. split; [done|]. by exists 0%nat.
    + destruct Hy as (-> & Hh1 & _). eapply wp_mono; [apply (IH _ s1 0%nat); try done|].
      * destruct (Nat.eqb_spec 0 (length l)) as [E|]; [|lia]. by destruct l.
      * intros r s' (-> & H1 & H2). split; [done|]. split; [by etrans|done].
Qed.

Lemma clock_victim_wp s i l p : bucket_ok s i l -> hand_at s i l p ->
  wp (clock_victim i) (fun r s' =>
    match r with
    | Some v => victim_post s i l v s'
    | None => (forall b, b ∈ l -> b_refcnt (buf_at s b) <> 0) /\ clock_step i s s' /\ exists p, hand_at s' i l p
    end) s.
Proof.
  intros Hok Hh. unfold clock_victim.
  destruct (decide (Exists (fun b => b_refcnt (buf_at s b) = 0) l)) as [Hex|Hno].
  - apply Exists_exists in Hex as (b0 & Hin & Hf). apply list_elem_of_lookup in Hin as [j Hj].
    pose proof (lookup_lt_Some _ _ _ Hj) as Hjl. pose proof (bk_size _ _ _ Hok). destruct Hh as (E1 & E2 & Hp).
    assert (Hpot : (potential s (length l) p j b0 <= 2 * length l - 1)%nat).
    { unfold potential, ahead. destruct (b_referenced _), (Nat.leb_spec p j); lia. }
    eapply wp_mono; [apply (clock_finds l i b0 j Hj _ 0 s p); try done; unfold NBUF in *|].
    + lia.
    + destruct (Nat.eqb_spec p (length l)); lia.
    + by intros r s' (v & -> & Hv).
  - assert (Hbusy : forall b, b ∈ l -> b_refcnt (buf_at s b) <> 0).
    { intros b Hb Hf. apply Hno, Exists_exists. by exists b. }
    eapply wp_mono; [apply (clock_fails l i _ 0 s p); try done; unfold NBUF|].
    + destruct (Nat.eqb_spec p (length l)); lia.
    + intros r s' (-> & H1 & H2). done.
Qed.
End clock.

(** ** The cache invariant *)

Section cache.
Context {D : Type} `{Disk D}.
Implicit Types s : bst D.

(** A buffer that is in use or holds a block. *)
Definition live (x : buf) : Prop := b_refcnt x <> 0 \/ b_valid x = true.

Definition blist (s : bst D) (i : Z) : list Z := hb_list (bucket_at s i).

(** Every buffer is in one bucket, the ones in [out] excepted; a live buffer
    is in the bucket of its block and is the one a lookup of the block finds;
    a locked buffer is referenced; a valid buffer that nobody has locked
    holds what is on the disk. *)
Record cache_inv (out : list Z) (s : bst D) : Prop := {
  ca_len : length (bs_bufs s) = Z.to_nat NBUF;
  ca_blen : length (bs_buckets s) = Z.to_nat NBUCKET;
  ca_perm : out ++ concat (hb_list <$> bs_buckets s) ≡ₚ seqZ 0 NBUF;
  ca_hand i : 0 <= i < NBUCKET -> exists p, hand_at s i (blist s i) p;
  ca_live i b : 0 <= i < NBUCKET -> b ∈ blist s i -> live (buf_at s b) ->
    find_block s (blist s i) (b_dev (buf_at s b)) (b_blockno (buf_at s b)) = Some b /\ HASH (b_blockno (buf_at s b)) = i;
  ca_locked b : 0 <= b < NBUF -> b_locked (buf_at s b) = true -> b_refcnt (buf_at s b) <> 0;
  ca_coh b : 0 <= b < NBUF -> b_valid (buf_at s b) = true -> b_locked (buf_at s b) = false ->
    b_data (buf_at s b) = sd_read (bs_disk s) (b_blockno (buf_at s b));
}.

Lemma bucket_lookup s i : length (bs_buckets s) = Z.to_nat NBUCKET -> 0 <= i < NBUCKET ->
  (hb_list <$> bs_buckets s) !! Z.to_nat i = Some (blist s i).
Proof.
  intros Hl Hi. destruct (lookup_lt_is_Some_2 (bs_buckets s) (Z.to_nat i)) as [x Hx]; [lia|].
  rewrite list_lookup_fmap, Hx. simpl. unfold blist, bucket_at. by rewrite (list_lookup_total_correct _ _ _ Hx).
Qed.

Lemma cache_perm_bucket out s i : cache_inv out s -> 0 <= i < NBUCKET ->
  out ++ blist s i ++ concat (delete (Z.to_nat i) (hb_list <$> bs_buckets s)) ≡ₚ seqZ 0 NBUF.
Proof.
  intros Hc Hi. rewrite <- (ca_perm _ _ Hc). f_equiv. symmetry.
  apply concat_lookup_Permutation, bucket_lookup; [apply Hc|done].
Qed.

Lemma cache_bucket_ok out s i : cache_inv out s -> 0 <= i < NBUCKET -> bucket_ok s i (blist s i).
Proof.
  intros Hc Hi. pose proof (cache_perm_bucket _ _ _ Hc Hi) as Hp.
  assert (Hnd : NoDup (out ++ blist s i ++ concat (delete (Z.to_nat i) (hb_list <$> bs_buckets s)))).
  { rewrite Hp. apply NoDup_seqZ. }
  apply NoDup_app in Hnd as (_ & _ & Hnd). apply NoDup_app in Hnd as (Hnd & _ & _).
  split; [done|apply Hc|apply Hc|done| |].
  - intros b Hb. assert (Hin : b ∈ seqZ 0 NBUF) by (rewrite <- Hp; set_solver). apply elem_of_seqZ in Hin. lia.
  - assert (Hlen : length (out ++ blist s i ++ concat (delete (Z.to_nat i) (hb_list <$> bs_buckets s))) = Z.to_nat NBUF).
    { by rewrite Hp, length_seqZ. }
    rewrite !length_app in Hlen. lia.
Qed.

Lemma cache_out out s i b : cache_inv out s -> 0 <= i < NBUCKET -> b ∈ out -> b ∉ blist s i.
Proof.
  intros Hc Hi Hb Hin. pose proof (cache_perm_bucket _ _ _ Hc Hi) as Hp.
  assert (Hnd : NoDup (out ++ blist s i ++ concat (delete (Z.to_nat i) (hb_list <$> bs_buckets s)))).
  { rewrite Hp. apply NoDup_seqZ. }
  apply NoDup_app in Hnd as (_ & Hd & _). apply (Hd b Hb). set_solver.
Qed.

Lemma cache_disjoint s i k b : cache_inv [] s -> 0 <= i < NBUCKET -> 0 <= k < NBUCKET -> i <> k ->
  b ∈ blist s i -> b ∈ blist s k -> False.
Proof.
  intros Hc Hi Hk Hne H1 H2. pose proof (cache_perm_bucket _ _ _ Hc Hi) as Hp. simpl in Hp.
  assert (Hnd : NoDup (blist s i ++ concat (delete (Z.to_nat i) (hb_list <$> bs_buckets s)))).
  { rewrite Hp. apply NoDup_seqZ. }
  apply NoDup_app in Hnd as (_ & Hd & _). apply (Hd b H1). apply list_elem_of_In, in_concat.
  exists (blist s k). split; [|by apply list_elem_of_In]. apply list_elem_of_In.
  pose proof (bucket_lookup s k (ca_blen _ _ Hc) Hk) as Hl.
  destruct (decide (Z.to_nat k < Z.to_nat i)%nat) as [Hlt|Hge].
  - apply list_elem_of_lookup_2 with (Z.to_nat k). by rewrite list_lookup_delete_lt.
  - apply list_elem_of_lookup_2 with (Z.to_nat k - 1)%nat. rewrite list_lookup_delete_ge by lia.
    by replace (S (Z.to_nat k - 1)) with (Z.to_nat k) by lia.
Qed.

Lemma find_block_ext s s' l dev n :
  (forall b, b ∈ l -> b_dev (buf_at s' b) = b_dev (buf_at s b) /\ b_blockno (buf_at s' b) = b_blockno (buf_at s b)) ->
  find_block s' l dev n = find_block s l dev n.
Proof.
  induction l as [|b l IH]; intros Hl; [done|]. simpl. destruct (Hl b) as [-> ->]; [left|].
  rewrite IH; [done|]. intros c Hc. apply Hl. by right.
Qed.

Lemma find_block_Some s l dev n b : find_block s l dev n = Some b ->
  b ∈ l /\ b_dev (buf_at s b) = dev /\ b_blockno (buf_at s b) = n.
Proof.
  induction l as [|c l IH]; [done|]. simpl. destruct (_ && _) eqn:E.
  - intros [= ->]. breflect. split; [left|done].
  - intros Hf. destruct (IH Hf) as [Hin ?]. split; [by right|done].
Qed.

Lemma find_block_filter s l dev n v r : find_block s l dev n = r -> r <> Some v ->
  find_block s (filter (fun x => x <> v) l) dev n = r.
Proof.
  intros <-. induction l as [|c l IH]; [done|]. intros Hr. rewrite filter_cons. simpl in Hr. case_decide as Hc.
  - simpl. destruct (_ && _); [done|]. by apply IH.
  - subst c. simpl. destruct (_ && _); [done|]. by apply IH.
Qed.

Lemma lists_eq s s' : length (bs_buckets s) = Z.to_nat NBUCKET -> length (bs_buckets s') = length (bs_buckets s) ->
  (forall k, blist s' k = blist s k) -> hb_list <$> bs_buckets s' = hb_list <$> bs_buckets s.
Proof.
  intros Hl Hl' Hbl. apply list_eq. intros k. destruct (decide (k < Z.to_nat NBUCKET)%nat) as [Hk|Hk].
  - rewrite <- (Nat2Z.id k). rewrite !bucket_lookup by (rewrite ?Hl'; try done; lia). by rewrite Hbl.
  - rewrite !lookup_ge_None_2; [done| |]; rewrite length_fmap, ?Hl', Hl; lia.
Qed.

(** The lock state plays no part. *)
Lemma cache_lk out s l : cache_inv out s -> cache_inv out (lput l s).
Proof.
  intros [C1 C2 C3 C4 C5 C6 C7]. split; try done. intros i b Hi Hb Hl.
  rewrite (find_block_ext s); [by apply C5|done].
Qed.

(** A scan of bucket [i]. *)
Lemma cache_clock out s s' i : clock_step i s s' -> (exists p, hand_at s' i (blist s i) p) ->
  cache_inv out s -> cache_inv out s'.
Proof.
  intros Hst Hh Hc. pose proof Hst as [K1 K2 K3 K4 K5 K6 K7 K8].
  assert (Hbl : forall k, blist s' k = blist s k) by exact K4.
  assert (Hbuf : forall b, b_dev (buf_at s' b) = b_dev (buf_at s b) /\ b_blockno (buf_at s' b) = b_blockno (buf_at s b) /\
    b_refcnt (buf_at s' b) = b_refcnt (buf_at s b) /\ b_valid (buf_at s' b) = b_valid (buf_at s b) /\
    b_locked (buf_at s' b) = b_locked (buf_at s b) /\ b_data (buf_at s' b) = b_data (buf_at s b)).
  { intros b. specialize (K2 b). unfold same_but_ref in K2. rewrite K2. done. }
  split; [rewrite K1; apply Hc|rewrite K3; apply Hc| | | | |].
  - rewrite (lists_eq s s') by (apply Hc || done). apply Hc.
  - intros k Hk. rewrite Hbl. destruct (decide (k = i)) as [->|Hne]; [done|].
    destruct (ca_hand _ _ Hc k Hk) as (p & P1 & P2 & P3). exists p. split; [exact (Hbl k)|]. split; [|done]. by rewrite K5 by lia.
  - intros k b Hk Hb Hl. rewrite Hbl in Hb |- *. destruct (Hbuf b) as (E1 & E2 & E3 & E4 & E5 & E6).
    rewrite E1, E2. rewrite (find_block_ext s) by (intros c _; destruct (Hbuf c) as (? & ? & _); done).
    apply (ca_live _ _ Hc k b Hk Hb). unfold live in *. by rewrite <- E3, <- E4.
  - intros b Hb. destruct (Hbuf b) as (E1 & E2 & E3 & E4 & E5 & E6). rewrite E5, E3. by apply Hc.
  - intros b Hb. destruct (Hbuf b) as (E1 & E2 & E3 & E4 & E5 & E6). rewrite E5, E4, E6, E2, K6. by apply Hc.
Qed.

Lemma blist_upd s k f i : 0 <= k < NBUCKET -> 0 <= i -> length (bs_buckets s) = Z.to_nat NBUCKET ->
  bucket_at (upd_bucket k f s) i = if k =? i then f (bucket_at s k) else bucket_at s i.
Proof.
  intros Hk Hi Hl. destruct (Z.eqb_spec k i) as [->|]; [by apply bucket_upd|].
  unfold bucket_at at 1, upd_bucket. simpl. apply list_lookup_total_insert_ne. lia.
Qed.

Lemma lists_upd s k f : (hb_list <$> bs_buckets (upd_bucket k f s)) =
  <[Z.to_nat k := hb_list (f (bucket_at s k))]> (hb_list <$> bs_buckets s).
Proof. unfold upd_bucket. simpl. by rewrite list_fmap_insert. Qed.

Lemma filter_remove_perm (l : list Z) v : NoDup l -> v ∈ l -> v :: filter (fun x => x <> v) l ≡ₚ l.
Proof.
  intros Hnd Hv. apply NoDup_Permutation; [|done|].
  - constructor; [rewrite list_elem_of_filter; tauto|by apply NoDup_filter].
  - intros x. rewrite elem_of_cons, list_elem_of_filter. destruct (decide (x = v)) as [->|]; tauto.
Qed.

(** Detaching the victim from its bucket. *)
Lemma cache_remove s k v p : cache_inv [] s -> 0 <= k < NBUCKET -> v ∈ blist s k ->
  hand_at s k (blist s k) p -> blist s k !! p <> Some v ->
  cache_inv [v] (upd_bucket k (fun h => Hashbuf (filter (fun x => x <> v) (hb_list h)) (hb_hand h)) s).
Proof.
  intros Hc Hk Hv (P1 & P2 & P3) Hpv. pose proof (cache_bucket_ok _ _ _ Hc Hk) as Hok.
  set (s1 := upd_bucket k _ s).
  assert (Hbl : forall i, 0 <= i -> blist s1 i = if k =? i then filter (fun x => x <> v) (blist s k) else blist s i).
  { intros i Hi. unfold blist at 1, s1. rewrite blist_upd by (done || apply Hc). by destruct (k =? i). }
  pose proof Hc as [C1 C2 C3 C4 C5 C6 C7]. split; [done|simpl; by rewrite length_insert| | | |exact C6|exact C7].
  - unfold s1. rewrite lists_upd. simpl.
    rewrite (NoDup_concat_insert _ _ (blist s k)) by (by apply bucket_lookup).
    rewrite <- (cache_perm_bucket [] s k Hc Hk). simpl. rewrite app_comm_cons.
    f_equiv. apply filter_remove_perm; [apply Hok|done].
  - intros i Hi. rewrite Hbl by lia. unfold hand_at. fold (blist s1 i). rewrite Hbl by lia.
    unfold s1. rewrite blist_upd by (done || lia). destruct (Z.eqb_spec k i) as [->|Hne]; [|by apply C4]. simpl. rewrite P2.
    destruct (blist s i !! p) as [h|] eqn:Eh.
    + assert (Hh : h ∈ filter (fun x => x <> v) (blist s i)).
      { apply list_elem_of_filter. split; [congruence|]. by eapply list_elem_of_lookup_2. }
      apply list_elem_of_lookup in Hh as [q Hq]. exists q. split; [done|]. split; [done|]. apply lookup_lt_Some in Hq. lia.
    + exists (length (filter (fun x => x <> v) (blist s i))). split; [done|]. split; [|done].
      symmetry. by apply lookup_ge_None_2.
  - intros i b Hi Hb Hl. rewrite Hbl in Hb |- * by lia. change (buf_at s1 b) with (buf_at s b) in *.
    rewrite (find_block_ext s s1) by done.
    destruct (Z.eqb_spec k i) as [->|Hne]; [|by apply C5]. apply list_elem_of_filter in Hb as [Hbv Hb].
    destruct (C5 i b Hi Hb Hl) as [F1 F2]. split; [|done]. apply find_block_filter; [done|congruence].
Qed.

(** A detached buffer enters the bucket of a block no live buffer holds. *)
Lemma cache_insert s dev n v : cache_inv [v] s -> 0 <= n ->
  find_block s (blist s (HASH n)) dev n = None -> 0 <= v < NBUF -> b_locked (buf_at s v) = false ->
  cache_inv [] (upd_buf v (fun x => Buf false dev n (b_locked x) (b_pid x) 1 true (b_data x))
    (upd_bucket (HASH n) (fun h => Hashbuf (v :: hb_list h) (hb_hand h)) s)).
Proof.
  intros Hc Hn Hmiss Hv Hunl. set (k := HASH n) in *.
  assert (Hk : 0 <= k < NBUCKET) by (apply Z.mod_pos_bound; unfold NBUCKET; lia).
  pose proof Hc as [C1 C2 C3 C4 C5 C6 C7].
  set (s1 := upd_bucket k _ s). set (s2 := upd_buf v _ s1).
  assert (Hbl : forall i, 0 <= i -> blist s2 i = if k =? i then v :: blist s k else blist s i).
  { intros i Hi. change (blist s2 i) with (blist s1 i). unfold blist at 1, s1. rewrite blist_upd by done. by destruct (k =? i). }
  assert (Hat : forall b, 0 <= b -> buf_at s2 b =
    if v =? b then Buf false dev n (b_locked (buf_at s v)) (b_pid (buf_at s v)) 1 true (b_data (buf_at s v)) else buf_at s b).
  { intros b Hb. unfold s2. rewrite (buf_upd s1) by done. done. }
  assert (Hnot : forall i, 0 <= i < NBUCKET -> v ∉ blist s i) by (intros i Hi; apply (cache_out [v] s); [done|done|left]).
  assert (Hrange : forall i b, 0 <= i < NBUCKET -> b ∈ blist s i -> 0 <= b /\ (v =? b) = false).
  { intros i b Hi Hb. split; [apply (bk_in _ _ _ (cache_bucket_ok _ _ _ Hc Hi)); done|].
    apply Z.eqb_neq. intros ->. by apply (Hnot i Hi). }
  assert (Hfind : forall i d m, 0 <= i < NBUCKET -> find_block s2 (blist s i) d m = find_block s (blist s i) d m).
  { intros i d m Hi. apply find_block_ext. intros b Hb. destruct (Hrange i b Hi Hb) as [Hb0 Hvb]. by rewrite Hat, Hvb. }
  split; [simpl; by rewrite length_insert|simpl; by rewrite length_insert| | | | |].
  - assert (Hls : hb_list <$> bs_buckets s2 = <[Z.to_nat k := v :: blist s k]> (hb_list <$> bs_buckets s))
      by exact (lists_upd s k (fun h => Hashbuf (v :: hb_list h) (hb_hand h))).
    rewrite Hls. simpl app. rewrite (NoDup_concat_insert _ _ (blist s k)) by (by apply bucket_lookup).
    rewrite <- (cache_perm_bucket [v] s k Hc Hk). done.
  - intros i Hi. rewrite Hbl by lia. unfold hand_at. fold (blist s2 i). rewrite Hbl by lia.
    change (bucket_at s2 i) with (bucket_at s1 i). unfold s1. rewrite blist_upd by (done || lia).
    destruct (Z.eqb_spec k i) as [<-|Hne]; [|by apply C4]. destruct (C4 k Hk) as (p & _ & P2 & P3). exists (S p).
    split; [done|]. split; [exact P2|simpl; lia].
  - intros i b Hi Hb Hl. rewrite Hbl in Hb |- * by lia.
    destruct (Z.eqb_spec k i) as [<-|Hne].
    + apply elem_of_cons in Hb as [->|Hb].
      * rewrite Hat, Z.eqb_refl by lia. cbn [b_dev b_blockno find_block]. rewrite Hat, Z.eqb_refl by lia. cbn [b_dev b_blockno].
        rewrite !Z.eqb_refl. done.
      * destruct (Hrange k b Hk Hb) as [Hb0 Hvb]. rewrite Hat, Hvb in * by done. destruct (C5 k b Hk Hb Hl) as [F1 F2].
        split; [|done]. cbn [find_block]. rewrite Hat, Z.eqb_refl by lia. cbn [b_dev b_blockno]. rewrite Hfind by done.
        destruct ((dev =? b_dev (buf_at s b)) && (n =? b_blockno (buf_at s b))) eqn:E; [|done].
        breflect. subst dev n. congruence.
    + destruct (Hrange i b Hi Hb) as [Hb0 Hvb]. rewrite Hat, Hvb in * by done. rewrite Hfind by done. by apply C5.
  - intros b Hb. rewrite Hat by lia. destruct (Z.eqb_spec v b) as [|_]; [done|]. by apply C6.
  - intros b Hb. rewrite Hat by lia. destruct (Z.eqb_spec v b) as [|_]; [done|]. by apply C7.
Qed.

(** A buffer changes, keeping the block it is for. *)
Lemma cache_upd s b f : cache_inv [] s -> 0 <= b < NBUF ->
  (b_dev (f (buf_at s b)) = b_dev (buf_at s b) /\ b_blockno (f (buf_at s b)) = b_blockno (buf_at s b)) ->
  (forall i, 0 <= i < NBUCKET -> b ∈ blist s i -> live (f (buf_at s b)) ->
     find_block s (blist s i) (b_dev (buf_at s b)) (b_blockno (buf_at s b)) = Some b /\ HASH (b_blockno (buf_at s b)) = i) ->
  (b_locked (f (buf_at s b)) = true -> b_refcnt (f (buf_at s b)) <> 0) ->
  (b_valid (f (buf_at s b)) = true -> b_locked (f (buf_at s b)) = false ->
     b_data (f (buf_at s b)) = sd_read (bs_disk s) (b_blockno (buf_at s b))) ->
  cache_inv [] (upd_buf b f s).
Proof.
  intros Hc Hb [Hdev Hblk] Hlive Hlk Hcoh. pose proof Hc as [C1 C2 C3 C4 C5 C6 C7].
  assert (Hat : forall c, 0 <= c -> buf_at (upd_buf b f s) c = if b =? c then f (buf_at s b) else buf_at s c)
    by (intros c Hc0; by apply buf_upd).
  assert (Hfind : forall i d m, 0 <= i < NBUCKET -> find_block (upd_buf b f s) (blist s i) d m = find_block s (blist s i) d m).
  { intros i d m Hi. apply find_block_ext. intros c Hin.
    pose proof (bk_in _ _ _ (cache_bucket_ok _ _ _ Hc Hi) c Hin). rewrite Hat by lia. by destruct (Z.eqb_spec b c) as [->|]. }
  split; [simpl; by rewrite length_insert|done|done|exact C4| | |].
  - intros i c Hi Hin Hl. change (blist (upd_buf b f s) i) with (blist s i) in *. rewrite Hfind by done.
    pose proof (bk_in _ _ _ (cache_bucket_ok _ _ _ Hc Hi) c Hin). rewrite Hat in * by lia.
    destruct (Z.eqb_spec b c) as [->|]; [|by apply C5]. rewrite Hdev, Hblk. by apply Hlive.
  - intros c Hcr. rewrite Hat by lia. destruct (Z.eqb_spec b c) as [->|]; [done|by apply C6].
  - intros c Hcr. rewrite Hat by lia. destruct (Z.eqb_spec b c) as [->|]; [by rewrite Hblk|by apply C7].
Qed.

(** ** Looking up and recycling *)

(** No bucket lock is held. *)
Definition quiet (l : lkst) : Prop := lk_ok l /\ forall i, L_bcache i ∉ held l.

Lemma quiet_same l l' : lk_same l l' -> quiet l -> quiet l'.
Proof. intros Hs [H1 H2]. split; [by eapply lk_same_ok|]. destruct Hs as (_ & _ & -> & _). done. Qed.

Lemma block_wp i (Q : unit -> bst D -> Prop) s : quiet (bs_lk s) ->
  (forall l, taken (L_bcache i) (bs_lk s) l -> Q tt (lput l s)) -> wp (block i) Q s.
Proof. intros [_ Hn] HQ. apply wp_zoom. eapply wp_mono; [by apply acquire_wp|]. intros [] l Hl. by apply HQ. Qed.

Lemma bunlock_wp i l0 (Q : unit -> bst D -> Prop) s : quiet l0 -> taken (L_bcache i) l0 (bs_lk s) ->
  (forall l, lk_same l0 l -> Q tt (lput l s)) -> wp (bunlock i) Q s.
Proof.
  intros [Hok Hn] Ht HQ. apply wp_zoom. eapply wp_mono; [by apply (release_wp _ l0)|]. intros [] l Hl. by apply HQ.
Qed.

(** Nothing but reference bits, hands and the lock state may differ. *)
Record scan_same (s s' : bst D) : Prop := {
  ss_buf b : same_but_ref (buf_at s b) (buf_at s' b);
  ss_list k : blist s' k = blist s k;
  ss_disk : bs_disk s' = bs_disk s;
  ss_pid : bs_pid s' = bs_pid s;
  ss_lk : lk_same (bs_lk s) (bs_lk s');
}.

#[local] Instance scan_same_preorder : PreOrder scan_same.
Proof.
  split.
  - intros s. split; try done. intros b. unfold same_but_ref. by destruct (buf_at s b).
  - intros s1 s2 s3 [A1 A2 A3 A4 A5] [B1 B2 B3 B4 B5]. split; try congruence.
    + intros b. specialize (A1 b). specialize (B1 b). unfold same_but_ref in *. rewrite B1, A1. done.
    + by etrans.
Qed.

Lemma scan_same_clock i s s' l l0 : clock_step i (lput l s) s' -> lk_same (bs_lk s) l0 -> scan_same s (lput l0 s').
Proof. intros [] Hl. by split. Qed.

Lemma scan_refcnt s s' b : scan_same s s' -> b_refcnt (buf_at s' b) = b_refcnt (buf_at s b).
Proof. intros Hs. by rewrite (ss_buf _ _ Hs b). Qed.

Lemma scan_find s s' k d n : scan_same s s' -> find_block s' (blist s' k) d n = find_block s (blist s k) d n.
Proof.
  intros Hs. rewrite (ss_list _ _ Hs). apply find_block_ext. intros b _. by rewrite (ss_buf _ _ Hs b).
Qed.

(** The victim was taken out of its bucket. *)
Record stolen (s : bst D) (v : Z) (s' : bst D) : Prop := {
  st_range : 0 <= v < NBUF;
  st_free : b_refcnt (buf_at s v) = 0;
  st_inv : cache_inv [v] s';
  st_buf b : same_but_ref (buf_at s b) (buf_at s' b);
  st_find k d n : 0 <= k < NBUCKET -> find_block s (blist s k) d n = None -> find_block s' (blist s' k) d n = None;
  st_disk : bs_disk s' = bs_disk s;
  st_pid : bs_pid s' = bs_pid s;
  st_lk : lk_same (bs_lk s) (bs_lk s');
}.

Lemma steal_bucket_wp s k : cache_inv [] s -> quiet (bs_lk s) -> 0 <= k < NBUCKET ->
  wp (block k ;;
      v <- clock_victim k ;;
      match v with
      | Some b => bucket_remove k b ;; bunlock k ;; ret (Some b)
      | None => bunlock k ;; ret None
      end) (fun r s' =>
        match r with
        | Some v => stolen s v s'
        | None => (forall b, b ∈ blist s k -> b_refcnt (buf_at s b) <> 0) /\ cache_inv [] s' /\ scan_same s s'
        end) s.
Proof.
  intros Hc Hq Hk. wp_step. apply block_wp; [done|]. intros l Hl. wp_step.
  destruct (ca_hand _ _ Hc k Hk) as [p Hp].
  eapply wp_mono; [apply (clock_victim_wp (lput l s) k (blist s k) p); [|exact Hp]|].
  { exact (cache_bucket_ok _ _ _ (cache_lk _ _ l Hc) Hk). }
  intros [v|] s1.
  - intros (Hin & Hf & Hst & q & Hq1 & Hqv). change (b_refcnt (buf_at s v) = 0) in Hf.
    assert (Hc1 : cache_inv [] s1).
    { apply (cache_clock [] (lput l s) s1 k Hst); [by exists q|by apply cache_lk]. }
    wp_step. unfold bucket_remove. wp_step. wp_step. eapply (bunlock_wp k (bs_lk s)); [done| |].
    { change (taken (L_bcache k) (bs_lk s) (bs_lk s1)). by rewrite (ck_lk _ _ _ Hst). }
    intros l1 Hl1. wp_go.
    assert (Hin1 : v ∈ blist s1 k) by (unfold blist; by rewrite (ck_list _ _ _ Hst)).
    assert (Hbl1 : blist s1 k = blist s k) by exact (ck_list _ _ _ Hst k).
    split; [apply (bk_in _ _ _ (cache_bucket_ok _ _ _ Hc Hk)); done|done| |exact (ck_buf _ _ _ Hst)| |by apply Hst|by apply Hst|done].
    + apply cache_lk. apply (cache_remove s1 k v q); [done|done|done|by rewrite Hbl1|by rewrite Hbl1].
    + intros i d n Hi Hmiss. rewrite (find_block_ext s1) by done.
      match goal with |- find_block _ (blist ?s2 i) d n = None =>
        assert (Hb2 : blist s2 i = if k =? i then filter (fun x => x <> v) (blist s1 k) else blist s1 i) end.
      { transitivity (hb_list (bucket_at (upd_bucket k (fun h => Hashbuf (filter (fun x => x <> v) (hb_list h)) (hb_hand h)) s1) i));
          [reflexivity|]. rewrite blist_upd by (done || lia || apply Hc1). by destruct (k =? i). }
      rewrite Hb2. assert (Hm1 : find_block s1 (blist s1 i) d n = None).
      { rewrite <- Hmiss. unfold blist at 1. rewrite (ck_list _ _ _ Hst). apply find_block_ext.
        intros b _. by rewrite (ck_buf _ _ _ Hst b). }
      destruct (Z.eqb_spec k i) as [->|]; [|done]. by apply find_block_filter.
  - intros (Hbusy & Hst & q & Hq1). wp_step. eapply (bunlock_wp k (bs_lk s)); [done| |].
    { by rewrite (ck_lk _ _ _ Hst). }
    intros l1 Hl1. wp_go. split; [exact Hbusy|]. split.
    + apply cache_lk, (cache_clock [] (lput l s) s1 k Hst); [by exists q|by apply cache_lk].
    + by apply (scan_same_clock k s s1 l).
Qed.

Lemma stolen_scan s s1 v s' : scan_same s s1 -> stolen s1 v s' -> stolen s v s'.
Proof.
  intros Hs [T1 T2 T3 T4 T5 T6 T7 T8]. pose proof Hs as [S1 S2 S3 S4 S5]. split; try done; try congruence.
  - by rewrite <- (scan_refcnt _ _ _ Hs).
  - intros b. specialize (S1 b). specialize (T4 b). unfold same_but_ref in *. rewrite T4, S1. done.
  - intros k d n Hk Hm. apply T5; [done|]. by rewrite (scan_find _ _ _ _ _ Hs).
  - by etrans.
Qed.

(** Every buffer is in some bucket. *)
Lemma cache_covers s b : cache_inv [] s -> 0 <= b < NBUF -> exists k, 0 <= k < NBUCKET /\ b ∈ blist s k.
Proof.
  intros Hc Hb. assert (Hin : b ∈ concat (hb_list <$> bs_buckets s)).
  { pose proof (ca_perm _ _ Hc) as Hp. simpl in Hp. rewrite Hp. apply elem_of_seqZ. lia. }
  apply list_elem_of_In, in_concat in Hin as (l & Hl & Hbl). apply list_elem_of_In, list_elem_of_lookup in Hl as [k Hk].
  exists (Z.of_nat k). pose proof (lookup_lt_Some _ _ _ Hk) as Hlt. rewrite length_fmap, (ca_blen _ _ Hc) in Hlt.
  assert (Hkr : 0 <= Z.of_nat k < NBUCKET) by lia. split; [done|].
  pose proof (bucket_lookup s (Z.of_nat k) (ca_blen _ _ Hc) Hkr) as Hk'. rewrite Nat2Z.id, Hk in Hk'.
  injection Hk' as <-. by apply list_elem_of_In.
Qed.

Lemma bget_steal_wp s bid : cache_inv [] s -> quiet (bs_lk s) -> 0 <= bid < NBUCKET ->
  wp (bget_steal bid) (fun r s' =>
    match r with
    | Some v => stolen s v s'
    | None => forall b, 0 <= b < NBUF -> b_refcnt (buf_at s b) <> 0
    end) s.
Proof.
  intros Hc Hq Hbid. unfold bget_steal.
  apply (wp_loop (fun i s1 => 0 <= i /\ cache_inv [] s1 /\ scan_same s s1 /\
    forall j b, 0 <= j < i -> b ∈ blist s ((bid + j) mod NBUCKET) -> b_refcnt (buf_at s b) <> 0)
    (fun i => Z.to_nat (NBUCKET - i))); [| |unfold NBUCKET; lia].
  - intros i s1 (Hi & Hc1 & Hs1 & Hbusy). unfold bget_steal_body. case_bool as E.
    + assert (Hk : 0 <= (bid + i) mod NBUCKET < NBUCKET) by (apply Z.mod_pos_bound; unfold NBUCKET; lia).
      set (k := (bid + i) mod NBUCKET) in *.
      pose proof (steal_bucket_wp s1 k Hc1 (quiet_same _ _ (ss_lk _ _ Hs1) Hq) Hk) as Hw.
      apply wp_bind. apply wp_bind_inv in Hw. eapply wp_mono; [exact Hw|]. intros [] s2 Hw2. cbv beta.
      apply wp_bind. apply wp_bind_inv in Hw2. eapply wp_mono; [exact Hw2|]. intros [v|] s3 Hw3; cbv beta.
      * apply wp_bind. apply wp_bind_inv in Hw3. eapply wp_mono; [exact Hw3|]. intros [] s4 Hw4. cbv beta.
        apply wp_bind. apply wp_bind_inv in Hw4. eapply wp_mono; [exact Hw4|]. intros [] s5 Hw5. cbv beta. wp_go.
        by apply (stolen_scan _ s1).
      * apply wp_bind. apply wp_bind_inv in Hw3. eapply wp_mono; [exact Hw3|]. intros [] s4 (Hb & Hc4 & Hs4). cbv beta. wp_go.
        split; [|unfold NBUCKET in *; lia]. split; [lia|]. split; [done|]. split; [by etrans|].
        intros j b Hj Hin. destruct (Z.eq_dec j i) as [->|]; [|apply (Hbusy j); [lia|done]].
        rewrite <- (scan_refcnt _ _ _ Hs1). apply Hb. by rewrite (ss_list _ _ Hs1).
    + wp_go. intros b Hb. destruct (cache_covers s b Hc Hb) as (k & Hk & Hin).
      apply (Hbusy ((k - bid) mod NBUCKET)); [unfold NBUCKET in *; dlia|].
      replace ((bid + (k - bid) mod NBUCKET) mod NBUCKET) with k by (unfold NBUCKET in *; dlia). done.
  - split; [lia|]. split; [done|]. split; [reflexivity|]. lia.
Qed.

(** ** Reading a block *)

(** Buffer [b] is locked by the caller and holds block [n] as on the disk;
    all other buffers are untouched but for reference bits. *)
Record fetched (s : bst D) (dev n b : Z) (s' : bst D) : Prop := {
  ft_range : 0 <= b < NBUF;
  ft_inv : cache_inv [] s';
  ft_dev : b_dev (buf_at s' b) = dev;
  ft_block : b_blockno (buf_at s' b) = n;
  ft_valid : b_valid (buf_at s' b) = true;
  ft_locked : b_locked (buf_at s' b) = true;
  ft_pid : b_pid (buf_at s' b) = bs_pid s;
  ft_data : b_data (buf_at s' b) = sd_read (bs_disk s) n;
  ft_other c : 0 <= c -> c <> b -> same_but_ref (buf_at s c) (buf_at s' c);
  ft_refcnt : 0 < b_refcnt (buf_at s' b) < 2 ^ 32;
  ft_count : b_refcnt (buf_at s b) = 0 -> b_refcnt (buf_at s' b) = 1;
  ft_me : bs_pid s' = bs_pid s;
  ft_disk : bs_disk s' = bs_disk s;
  ft_lk : lk_same (bs_lk s) (bs_lk s');
}.

(** The end of [bget] and [bread] on the buffer that was found or recycled:
    take the sleep lock and read the block if needed. *)
Lemma fetch_wp s s1 dev n b : cache_inv [] s1 -> 0 <= b < NBUF ->
  b_locked (buf_at s1 b) = false -> 0 < b_refcnt (buf_at s1 b) < 2 ^ 32 ->
  (b_refcnt (buf_at s b) = 0 -> b_refcnt (buf_at s1 b) = 1) ->
  b_dev (buf_at s1 b) = dev -> b_blockno (buf_at s1 b) = n ->
  (forall c, 0 <= c -> c <> b -> same_but_ref (buf_at s c) (buf_at s1 c)) ->
  bs_disk s1 = bs_disk s -> bs_pid s1 = bs_pid s -> lk_same (bs_lk s) (bs_lk s1) ->
  wp (b <- (acquiresleep b ;; ret b) ;;
      x <- getb b ;;
      when (negb (b_valid x)) (disk_read b ;; setb b (set_valid true)) ;;
      ret b) (fun r s' => r = b /\ fetched s dev n b s') s1.
Proof.
  intros Hc Hb Hunl Href Hcnt Hdev Hblk Hoth Hdisk Hpid Hlk. wp_step. wp_step. unfold acquiresleep, getb, setb. wp_step. wp_step.
  rewrite Hunl. wp_step. wp_step. wp_step. wp_step. wp_step. wp_step.
  set (s2 := upd_buf b (set_sleeplock true (bs_pid s1)) s1).
  assert (Hat2 : forall c, 0 <= c -> buf_at s2 c = if b =? c then set_sleeplock true (bs_pid s1) (buf_at s1 b) else buf_at s1 c)
    by (intros c Hc0; apply buf_upd; [done|done|apply Hc]).
  assert (Hlive : forall i, 0 <= i < NBUCKET -> b ∈ blist s1 i ->
    find_block s1 (blist s1 i) (b_dev (buf_at s1 b)) (b_blockno (buf_at s1 b)) = Some b /\ HASH (b_blockno (buf_at s1 b)) = i).
  { intros i Hi Hin. apply Hc; [done|done|left; lia]. }
  assert (Hc2 : cache_inv [] s2) by (apply cache_upd; try done; [intros i Hi Hin _; by apply Hlive|simpl; lia]).
  rewrite (Hat2 b), Z.eqb_refl by lia. change (b_valid (set_sleeplock true (bs_pid s1) (buf_at s1 b))) with (b_valid (buf_at s1 b)).
  assert (Hother2 : forall c, 0 <= c -> c <> b -> same_but_ref (buf_at s c) (buf_at s2 c)).
  { intros c Hc0 Hne. rewrite Hat2 by done. destruct (Z.eqb_spec b c) as [|_]; [congruence|]. by apply Hoth. }
  wp_step. wp_step.
  - unfold disk_read. wp_go. split; [done|].
    rewrite (Hat2 b), Z.eqb_refl by lia. cbn [b_blockno set_sleeplock]. change (bs_disk s2) with (bs_disk s1).
    set (f := set_data _). set (s3 := upd_buf b f s2). set (s4 := upd_buf b (set_valid true) s3).
    assert (Hat4 : forall c, 0 <= c -> buf_at s4 c = if b =? c then set_valid true (f (buf_at s2 b)) else buf_at s2 c).
    { intros c Hc0. unfold s4. rewrite (buf_upd s3) by (done || (simpl; rewrite length_insert; apply Hc2)).
      unfold s3. rewrite !(buf_upd s2) by (done || lia || apply Hc2). rewrite Z.eqb_refl. by destruct (Z.eqb_spec b c). }
    assert (Hc4 : cache_inv [] s4).
    { assert (Heq : s4 = upd_buf b (fun x => set_valid true (f x)) s2).
      { unfold s4, upd_buf. f_equal. unfold s3. rewrite (buf_upd s2), Z.eqb_refl by (done || lia || apply Hc2). simpl.
        by rewrite list_insert_insert_eq. }
      rewrite Heq. apply cache_upd; [done|done|done| |intros _|]; rewrite !(Hat2 b), Z.eqb_refl by lia; try done; [|simpl; lia].
      intros i Hi Hin _. rewrite (find_block_ext s1); [by apply Hlive|].
      intros c Hin'. pose proof (bk_in _ _ _ (cache_bucket_ok _ _ _ Hc Hi) c Hin'). rewrite Hat2 by lia.
      by destruct (Z.eqb_spec b c) as [->|]. }
    assert (Hb4 : buf_at s4 b = set_valid true (f (set_sleeplock true (bs_pid s1) (buf_at s1 b)))).
    { rewrite Hat4, Z.eqb_refl, Hat2, Z.eqb_refl by lia. done. }
    split; rewrite ?Hb4; try done; [simpl; by rewrite Hblk, Hdisk|].
    intros c Hc0 Hne. rewrite Hat4 by done. destruct (Z.eqb_spec b c) as [|_]; [congruence|]. by apply Hother2.
  - breflect. wp_go. split; [done|]. split; rewrite ?(Hat2 b), ?Z.eqb_refl by lia; try done.
    simpl. rewrite (ca_coh _ _ Hc b Hb) by done. by rewrite Hblk, Hdisk.
Qed.

Lemma HASH_range n : 0 <= n -> 0 <= HASH n < NBUCKET.
Proof. intros _. apply Z.mod_pos_bound. unfold NBUCKET. lia. Qed.

Lemma bread_wp s dev n : cache_inv [] s -> quiet (bs_lk s) -> 0 <= n ->
  match find_block s (blist s (HASH n)) dev n with
  | Some b => b_locked (buf_at s b) = false /\ 0 <= b_refcnt (buf_at s b) < 2 ^ 32 - 1
  | None => exists c, 0 <= c < NBUF /\ b_refcnt (buf_at s c) = 0
  end ->
  wp (bread dev n) (fun b s' => fetched s dev n b s') s.
Proof.
  intros Hc Hq Hn Hpre. pose proof (HASH_range n Hn) as Hk. unfold bread, bget. wp_step. wp_step.
  unfold bget_lookup. wp_step. apply block_wp; [done|]. intros l Hl. wp_step. wp_step.
  change (hb_list (bucket_at (lput l s) (HASH n))) with (blist s (HASH n)).
  rewrite (find_block_ext s (lput l s)) by done.
  destruct (find_block s (blist s (HASH n)) dev n) as [b|] eqn:Ef.
  - destruct Hpre as [Hunl Href]. apply find_block_Some in Ef as Hf. destruct Hf as (Hin & Hd & Hb).
    assert (Hbr : 0 <= b < NBUF) by (apply (bk_in _ _ _ (cache_bucket_ok _ _ _ Hc Hk)); done).
    unfold setb. wp_step. wp_step. wp_step. eapply (bunlock_wp _ (bs_lk s)); [done|exact Hl|]. intros l1 Hl1. wp_step.
    apply wp_bind_inv. set (f := fun x => set_referenced true _). set (s1 := lput l1 (upd_buf b f s)).
    change (lput l1 (upd_buf b f (lput l s))) with s1.
    assert (Hat : forall c, 0 <= c -> buf_at s1 c = if b =? c then f (buf_at s b) else buf_at s c)
      by (intros c Hc0; exact (buf_upd s b c f Hbr Hc0 (ca_len _ _ Hc))).
    assert (Hnz : 0 < u32 (b_refcnt (buf_at s b) + 1) < 2 ^ 32) by (rewrite u32_small by lia; lia).
    eapply wp_mono; [apply (fetch_wp s s1 dev n b)|]; rewrite ?Hat, ?Z.eqb_refl by lia; try done.
    + apply cache_lk, cache_upd; try done.
      * intros i Hi Hin' _. rewrite Hd, Hb.
        assert (HASH n = i) as <-; [|done].
        destruct (decide (HASH n = i)) as [|Hne]; [done|]. exfalso. by eapply (cache_disjoint s (HASH n) i b).
      * simpl. lia.
      * simpl. intros Hv _. by apply Hc.
    + simpl. intros ->. done.
    + intros c Hc0 Hne. rewrite Hat by done. destruct (Z.eqb_spec b c) as [|_]; [congruence|].
      unfold same_but_ref. by destruct (buf_at s c).
    + by intros r s' [-> Hft].
  - destruct Hpre as (c & Hcr & Hcf). wp_step. eapply (bunlock_wp _ (bs_lk s)); [done|exact Hl|]. intros l1 Hl1. wp_step.
    change (lput l1 (lput l s)) with (lput l1 s).
    wp_step. eapply wp_mono; [apply bget_steal_wp; [by apply cache_lk|by apply (quiet_same (bs_lk s))|done]|].
    intros [v|] s1 Hst; [|by destruct (Hst c Hcr)]. destruct Hst as [T1 T2 T3 T4 T5 T6 T7 T8].
    unfold bget_insert. wp_step. wp_step.
    assert (Hlk1 : lk_same (bs_lk s) (bs_lk s1)) by (etrans; [exact Hl1|exact T8]).
    apply block_wp; [by apply (quiet_same (bs_lk s))|]. intros l2 Hl2.
    unfold bucket_insert, setb. wp_step. wp_step. wp_step. wp_step.
    eapply (bunlock_wp _ (bs_lk s1)); [by apply (quiet_same (bs_lk s))|exact Hl2|]. intros l3 Hl3.
    apply wp_bind_inv. set (f := fun x => Buf _ _ _ _ _ _ _ _).
    set (s2 := lput l3 (upd_buf v f (upd_bucket (HASH n) (fun h => Hashbuf (v :: hb_list h) (hb_hand h)) s1))).
    change (lput l3 _) with s2.
    assert (Hat : forall c, 0 <= c -> buf_at s2 c = if v =? c then f (buf_at s1 v) else buf_at s1 c).
    { intros c' Hc0. exact (buf_upd (upd_bucket (HASH n) _ s1) v c' f T1 Hc0 (ca_len _ _ T3)). }
    assert (Hvl : b_locked (buf_at s1 v) = false).
    { rewrite (T4 v). simpl. destruct (b_locked (buf_at s v)) eqn:E; [|exact E]. exfalso. by apply (ca_locked _ _ Hc v T1 E). }
    eapply wp_mono; [apply (fetch_wp s s2 dev n v)|]; rewrite ?Hat, ?Z.eqb_refl by lia; try done.
    + apply cache_lk, cache_insert; try done. apply T5; [done|]. by rewrite (find_block_ext s).
    + intros c' Hc0 Hne. rewrite Hat by done. destruct (Z.eqb_spec v c') as [|_]; [congruence|]. apply T4.
    + etrans; [exact Hlk1|exact Hl3].
    + by intros r s' [-> Hft].
Qed.
End cache.

(** ** Writing a block through the cache *)

Section write.
Context {D : Type} `{!Disk D} `{!DiskLaws D}.
Implicit Types s : bst D.

(** The client's sequence: read, change, write, release. *)
Definition rewrite_block (dev n : Z) (v : list Z) : M (bst D) unit :=
  b <- bread dev n ;;
  setb b (set_data v) ;;
  bwrite b ;;
  brelse b.

(** A block written by the holder of its buffer. *)
Lemma cache_write s b n dev : cache_inv [] s -> 0 <= b < NBUF -> 0 <= n ->
  b_dev (buf_at s b) = dev -> b_blockno (buf_at s b) = n -> b_refcnt (buf_at s b) <> 0 ->
  b_locked (buf_at s b) = true ->
  (forall c, 0 <= c < NBUF -> b_valid (buf_at s c) = true -> b_dev (buf_at s c) = dev) ->
  cache_inv [] (Bst (bs_bufs s) (bs_buckets s) (sd_write (bs_disk s) n (b_data (buf_at s b))) (bs_pid s) (bs_lk s)).
Proof.
  intros Hc Hb Hn Hdev Hblk Href Hlk Hone. pose proof Hc as [C1 C2 C3 C4 C5 C6 C7]. set (s1 := Bst _ _ _ _ _).
  split; try done.
  - intros i c Hi Hin Hl. rewrite (find_block_ext s s1) by done. by apply C5.
  - intros c Hcr Hv Hu. change (buf_at s1 c) with (buf_at s c) in *. change (bs_disk s1) with (sd_write (bs_disk s) n (b_data (buf_at s b))).
    rewrite sd_read_write. destruct (Z.eqb_spec n (b_blockno (buf_at s c))) as [E|_]; [|by apply C7]. exfalso.
    destruct (cache_covers s c Hc Hcr) as (k & Hk & Hin). destruct (cache_covers s b Hc Hb) as (k' & Hk' & Hin').
    destruct (C5 k c Hk Hin) as [F1 G1]; [by right|]. destruct (C5 k' b Hk' Hin') as [F2 G2]; [by left|].
    rewrite Hone in F1 by done. rewrite <- E in F1, G1. rewrite Hdev, Hblk in F2. rewrite Hblk in G2.
    assert (k = k') as -> by congruence. assert (c = b) as -> by congruence. congruence.
Qed.

Lemma release_wp_buf s b n : cache_inv [] s -> quiet (bs_lk s) -> 0 <= b < NBUF ->
  b_blockno (buf_at s b) = n -> b_locked (buf_at s b) = true -> b_pid (buf_at s b) = bs_pid s ->
  0 < b_refcnt (buf_at s b) < 2 ^ 32 -> b_data (buf_at s b) = sd_read (bs_disk s) n ->
  wp (brelse b) (fun _ s' => cache_inv [] s' /\ bs_disk s' = bs_disk s /\ lk_same (bs_lk s) (bs_lk s') /\
    bs_pid s' = bs_pid s /\ buf_at s' b = Buf (b_valid (buf_at s b)) (b_dev (buf_at s b)) n false 0 (b_refcnt (buf_at s b) - 1) true (b_data (buf_at s b)) /\
    forall c, 0 <= c -> c <> b -> buf_at s' c = buf_at s c) s.
Proof.
  intros Hc Hq Hb Hblk Hlk Hpid Href Hdata. unfold brelse, holdingsleep, releasesleep, getb, setb. wp_go.
  rewrite Hlk, Hpid, Z.eqb_refl. simpl negb. cbv iota. wp_go.
  set (f := set_sleeplock false 0). set (s1 := upd_buf b f s).
  apply block_wp; [exact Hq|]. intros l Hl. wp_go.
  eapply (bunlock_wp _ (bs_lk s)); [exact Hq|exact Hl|]. intros l' Hl'.
  set (g := fun x => set_referenced true _). change (upd_buf b g (lput l s1)) with (lput l (upd_buf b g s1)).
  assert (Hlive : forall i, 0 <= i < NBUCKET -> b ∈ blist s i ->
    find_block s (blist s i) (b_dev (buf_at s b)) (b_blockno (buf_at s b)) = Some b /\ HASH (b_blockno (buf_at s b)) = i).
  { intros i Hi Hin. apply Hc; [done|done|left; lia]. }
  assert (Heq : upd_buf b g s1 = upd_buf b (fun x => g (f x)) s).
  { unfold upd_buf at 1. unfold s1 at 1 2. rewrite (buf_upd s), Z.eqb_refl by (done || lia || apply Hc).
    unfold upd_buf. simpl. by rewrite list_insert_insert_eq. }
  rewrite Heq.
  assert (Hat : forall c, 0 <= c -> buf_at (upd_buf b (fun x => g (f x)) s) c = if b =? c then g (f (buf_at s b)) else buf_at s c)
    by (intros c Hc0; exact (buf_upd s b c (fun x => g (f x)) Hb Hc0 (ca_len _ _ Hc))).
  split; [|split; [done|split; [exact Hl'|split; [done|split]]]].
  - apply cache_lk, cache_lk, cache_upd; try done; [intros i Hi Hin _; by apply Hlive|]. intros _ _. by rewrite Hblk.
  - change (buf_at (upd_buf b (fun x => g (f x)) s) b = Buf (b_valid (buf_at s b)) (b_dev (buf_at s b)) n false 0 (b_refcnt (buf_at s b) - 1) true (b_data (buf_at s b))).
    rewrite Hat, Z.eqb_refl by lia. unfold g, f, set_referenced, set_refcnt, set_sleeplock. simpl. by rewrite u32_small, Hblk by lia.
  - intros c Hc0 Hne. change (buf_at (upd_buf b (fun x => g (f x)) s) c = buf_at s c). rewrite Hat by done.
    destruct (Z.eqb_spec b c); congruence.
Qed.

(** What [bread] needs: nobody holds the block, or a buffer is free. *)
Definition readable (s : bst D) (dev n : Z) : Prop :=
  match find_block s (blist s (HASH n)) dev n with
  | Some b => b_locked (buf_at s b) = false /\ 0 <= b_refcnt (buf_at s b) < 2 ^ 32 - 1
  | None => exists c, 0 <= c < NBUF /\ b_refcnt (buf_at s c) = 0
  end.

Lemma rewrite_block_wp s dev n v : cache_inv [] s -> quiet (bs_lk s) -> 0 <= n -> readable s dev n ->
  (forall c, 0 <= c < NBUF -> b_valid (buf_at s c) = true -> b_dev (buf_at s c) = dev) ->
  wp (rewrite_block dev n v) (fun _ s' => cache_inv [] s' /\ quiet (bs_lk s') /\ readable s' dev n /\
    forall m, sd_read (bs_disk s') m = if n =? m then v else sd_read (bs_disk s) m) s.
Proof.
  intros Hc Hq Hn Hpre Hone. unfold rewrite_block. wp_step. eapply wp_mono; [by apply bread_wp|].
  intros b s1 [T1 T2 T3 T4 T5 T6 T7 T8 T9 T10 _ T11 T12 T13]. unfold setb. wp_step. wp_step.
  set (s2 := upd_buf b (set_data v) s1).
  assert (Hat : forall c, 0 <= c -> buf_at s2 c = if b =? c then set_data v (buf_at s1 b) else buf_at s1 c)
    by (intros c Hc0; exact (buf_upd s1 b c (set_data v) T1 Hc0 (ca_len _ _ T2))).
  assert (Hb2 : buf_at s2 b = set_data v (buf_at s1 b)) by (rewrite Hat, Z.eqb_refl by lia; done).
  assert (Hc2 : cache_inv [] s2).
  { apply cache_upd; try done; [|simpl; lia|simpl; congruence]. intros i Hi Hin _. apply T2; [done|done|by right]. }
  unfold bwrite, holdingsleep, getb, disk_write. wp_step. wp_go. rewrite Hb2. simpl b_locked. simpl b_pid.
  change (bs_pid s2) with (bs_pid s1). rewrite T6, T7, T11, Z.eqb_refl. simpl negb. cbv iota. wp_go.
  rewrite Hb2. simpl b_blockno. simpl b_data. rewrite T4.
  assert (Hc3 : cache_inv [] (Bst (bs_bufs s2) (bs_buckets s2) (sd_write (bs_disk s2) n (b_data (buf_at s2 b))) (bs_pid s2) (bs_lk s2))).
  { apply (cache_write s2 b n dev); rewrite ?Hb2; try done; [simpl; lia|]. intros c Hcr. rewrite Hat by lia.
    destruct (Z.eqb_spec b c) as [|Hne]; [done|]. rewrite (T9 c) by (lia || congruence). simpl. by apply Hone. }
  rewrite Hb2 in Hc3. set (s3 := Bst _ _ _ _ _) in *.
  eapply wp_mono; [apply (release_wp_buf s3 b n); try done; change (buf_at s3 b) with (buf_at s2 b); rewrite ?Hb2; try done|].
  - by apply (quiet_same (bs_lk s)).
  - simpl. rewrite T7. done.
  - simpl. by rewrite sd_read_write, Z.eqb_refl.
  - intros [] s4 (K1 & K2 & K3 & K4 & K5 & K6).
    assert (Hd : forall m, sd_read (bs_disk s4) m = if n =? m then v else sd_read (bs_disk s) m).
    { intros m. rewrite K2. simpl. rewrite sd_read_write, T12. done. }
    split; [done|]. split; [apply (quiet_same (bs_lk s)); [|done]; etrans; [exact T13|exact K3]|]. split; [|done].
    change (buf_at s3 b) with (buf_at s2 b) in K5. rewrite Hb2 in K5. simpl in K5.
    unfold readable. destruct (cache_covers s4 b K1 T1) as (k & Hk & Hin).
    assert (Hlv : live (buf_at s4 b)) by (right; by rewrite K5).
    destruct (ca_live _ _ K1 k b Hk Hin Hlv) as [F1 F2].
    rewrite K5 in F1, F2. simpl in F1, F2. rewrite F2. rewrite T3 in F1. rewrite F1, K5. simpl. split; [done|lia].
Qed.

(** [clock_victim] finds a free buffer if the bucket has one.  On every
    bucket of the cache the scan ends within its two rounds and returns a
    buffer of the bucket that nobody references, or none when every buffer of
    the bucket is referenced; only reference bits and the hand changed, and
    the hand does not point to the victim. *)
Theorem clock_victim_finds_free s i :
  cache_inv [] s -> 0 <= i < NBUCKET ->
  exists r s', clock_victim i s = Ok r s' /\
    match r with
    | Some v => victim_post s i (blist s i) v s'
    | None => (forall b, b ∈ blist s i -> b_refcnt (buf_at s b) <> 0) /\ clock_step i s s' /\
        exists p, hand_at s' i (blist s i) p
    end.
Proof.
  intros Hc Hi. destruct (ca_hand _ _ Hc i Hi) as [p Hp].
  exact (wp_Ok _ _ _ (clock_victim_wp s i (blist s i) p (cache_bucket_ok _ _ _ Hc Hi) Hp)).
Qed.

(** C26: [bread] returns the block.  When nobody holds the block's buffer, and
    some buffer is free if the block is not cached, the call returns a buffer
    for the block, valid, locked by the caller, with the block's contents on
    the disk; the cache invariant (in particular one live buffer per block)
    holds again and every other buffer keeps its block, state and data. *)
Theorem bread_returns_block s dev n :
  cache_inv [] s -> quiet (bs_lk s) -> 0 <= n -> readable s dev n ->
  exists b s', bread dev n s = Ok b s' /\ fetched s dev n b s'.
Proof. intros Hc Hq Hn Hr. exact (wp_Ok _ _ _ (bread_wp s dev n Hc Hq Hn Hr)). Qed.

(** a block written through the cache is read back.  Reading a block,
    replacing its data, writing and releasing the buffer leaves the data on
    the disk and no other block changed; a later [bread] returns it. *)
Theorem write_then_read s dev n v :
  cache_inv [] s -> quiet (bs_lk s) -> 0 <= n -> readable s dev n ->
  (forall c, 0 <= c < NBUF -> b_valid (buf_at s c) = true -> b_dev (buf_at s c) = dev) ->
  exists s1 b s2, rewrite_block dev n v s = Ok tt s1 /\
    (forall m, sd_read (bs_disk s1) m = if n =? m then v else sd_read (bs_disk s) m) /\
    bread dev n s1 = Ok b s2 /\ b_data (buf_at s2 b) = v /\ cache_inv [] s2.
Proof.
  intros Hc Hq Hn Hr Hone.
  destruct (wp_Ok _ _ _ (rewrite_block_wp s dev n v Hc Hq Hn Hr Hone)) as ([] & s1 & E1 & Hc1 & Hq1 & Hr1 & Hd).
  destruct (wp_Ok _ _ _ (bread_wp s1 dev n Hc1 Hq1 Hn Hr1)) as (b & s2 & E2 & Hf).
  exists s1, b, s2. split; [done|]. split; [done|]. split; [done|]. split; [|apply Hf].
  rewrite (ft_data _ _ _ _ _ Hf), Hd, Z.eqb_refl. done.
Qed.
End write.

(** ** After [binit]: no buffer is in use and every hand is at the head *)

Section unused.
Context {D : Type} `{!Disk D}.

Definition unused (s : bst D) (b : Z) : bool :=
  negb (b_locked (buf_at s b)) && negb (b_valid (buf_at s b)) && (b_refcnt (buf_at s b) =? 0).

Lemma hand_head (s : bst D) i : hb_hand (bucket_at s i) = None -> exists p, hand_at s i (blist s i) p.
Proof.
  intros H. exists (length (blist s i)). split; [done|]. split; [|done]. rewrite H. symmetry. by apply lookup_ge_None_2.
Qed.

Lemma unused_inv (s : bst D) :
  length (bs_bufs s) = Z.to_nat NBUF -> length (bs_buckets s) = Z.to_nat NBUCKET ->
  concat (hb_list <$> bs_buckets s) ≡ₚ seqZ 0 NBUF ->
  (forall i, 0 <= i < NBUCKET -> hb_hand (bucket_at s i) = None) ->
  (forall b, 0 <= b < NBUF -> unused s b = true) -> cache_inv [] s.
Proof.
  intros H1 H2 H3 H4 H5. unfold unused in H5. split; [done|done|done| | | |].
  - intros i Hi. by apply hand_head, H4.
  - intros i b Hi Hb Hl. exfalso.
    assert (Hin : b ∈ seqZ 0 NBUF).
    { rewrite <- H3. apply list_elem_of_In, in_concat. exists (blist s i). split; [|by apply list_elem_of_In].
      by apply list_elem_of_In, list_elem_of_lookup_2 with (Z.to_nat i), bucket_lookup. }
    apply elem_of_seqZ in Hin. specialize (H5 b ltac:(lia)). breflect. destruct Hl as [Hl|Hl]; congruence.
  - intros b Hb Hl. specialize (H5 b Hb). breflect. congruence.
  - intros b Hb Hv. specialize (H5 b Hb). breflect. congruence.
Qed.

Lemma unused_dev (s : bst D) dev : (forall b, 0 <= b < NBUF -> unused s b = true) ->
  forall c, 0 <= c < NBUF -> b_valid (buf_at s c) = true -> b_dev (buf_at s c) = dev.
Proof. intros H c Hc Hv. specialize (H c Hc). unfold unused in H. breflect. congruence. Qed.

End unused.

(** The same buffers over another disk. *)
Lemma unused_rebase {D D' : Type} `{!Disk D} `{!Disk D'} (s : bst D) (d : D') pid lk :
  length (bs_bufs s) = Z.to_nat NBUF -> length (bs_buckets s) = Z.to_nat NBUCKET ->
  concat (hb_list <$> bs_buckets s) ≡ₚ seqZ 0 NBUF ->
  (forall i, 0 <= i < NBUCKET -> hb_hand (bucket_at s i) = None) ->
  (forall b, 0 <= b < NBUF -> unused s b = true) ->
  let s' := Bst (bs_bufs s) (bs_buckets s) d pid lk in
  cache_inv [] s' /\ (forall b, 0 <= b < NBUF -> unused s' b = true).
Proof. intros H1 H2 H3 H4 H5 s'. split; [|exact H5]. by apply unused_inv. Qed.

(** ** A fresh cache and interleaved calls

    [bget] looks the block up in one critical section and inserts the
    recycled buffer in another, without looking again. *)

Module Race.

Definition D : Type := list (Z * list Z).
Fixpoint lookup_sector (d : D) (n : Z) : list Z :=
  match d with [] => [] | (m, v) :: d' => if m =? n then v else lookup_sector d' n end.
#[export] Instance log_disk : Disk D := {| sd_read := lookup_sector; sd_write d n v := (n, v) :: d |}.
#[export] Instance log_disk_laws : DiskLaws D.
Proof. split. done. Qed.

Definition zero_buf : buf := Buf false 0 0 false 0 0 false [].
Definition boot : bst D := Bst (replicate (Z.to_nat NBUF) zero_buf) [] [(40, [1; 2; 3])] 7 (Lkst 0 false true []).
Definition fresh : bst D := match binit boot with Ok _ s => s | _ => boot end.

Lemma fresh_unused b : 0 <= b < NBUF -> unused fresh b = true.
Proof.
  assert (H : forallb (unused fresh) (seqZ 0 NBUF) = true) by (vm_compute; reflexivity).
  rewrite forallb_forall in H. intros Hb. apply H, list_elem_of_In, elem_of_seqZ. lia.
Qed.

Lemma fresh_hands i : 0 <= i < NBUCKET -> hb_hand (bucket_at fresh i) = None.
Proof.
  assert (H : forallb (fun i => bool_decide (hb_hand (bucket_at fresh i) = None)) (seqZ 0 NBUCKET) = true)
    by (vm_compute; reflexivity).
  rewrite forallb_forall in H. intros Hi. eapply bool_decide_eq_true_1, H, list_elem_of_In, elem_of_seqZ. lia.
Qed.

Lemma fresh_lists : concat (hb_list <$> bs_buckets fresh) ≡ₚ seqZ 0 NBUF.
Proof.
  assert (H1 : bool_decide (Forall (fun b => b ∈ concat (hb_list <$> bs_buckets fresh)) (seqZ 0 NBUF)) = true)
    by (vm_compute; reflexivity).
  assert (H2 : length (concat (hb_list <$> bs_buckets fresh)) = length (seqZ 0 NBUF)) by (vm_compute; reflexivity).
  apply bool_decide_eq_true_1 in H1. rewrite Forall_forall in H1. symmetry. apply submseteq_length_Permutation; [|lia].
  apply NoDup_submseteq; [apply NoDup_seqZ|exact H1].
Qed.

Lemma fresh_bufs : length (bs_bufs fresh) = Z.to_nat NBUF.
Proof. vm_compute. reflexivity. Qed.
Lemma fresh_buckets : length (bs_buckets fresh) = Z.to_nat NBUCKET.
Proof. vm_compute. reflexivity. Qed.

Lemma fresh_inv : cache_inv [] fresh.
Proof. exact (unused_inv fresh fresh_bufs fresh_buckets fresh_lists fresh_hands fresh_unused). Qed.

Lemma fresh_quiet : quiet (bs_lk fresh).
Proof.
  assert (E : bs_lk fresh = Lkst 0 false true []) by (vm_compute; reflexivity). rewrite E.
  split; [split_and!; simpl; [lia|lia|constructor]|]. intros i. apply not_elem_of_nil.
Qed.

Lemma fresh_readable : readable fresh 0 40.
Proof.
  unfold readable. assert (E : find_block fresh (blist fresh (HASH 40)) 0 40 = None) by (vm_compute; reflexivity).
  rewrite E. exists 0. split; [unfold NBUF; lia|vm_compute; reflexivity].
Qed.

Lemma clock_victim_finds_free_witness :
  exists r s', clock_victim 1 fresh = Ok r s' /\
    match r with
    | Some v => victim_post fresh 1 (blist fresh 1) v s'
    | None => (forall b, b ∈ blist fresh 1 -> b_refcnt (buf_at fresh b) <> 0) /\ clock_step 1 fresh s' /\
        exists p, hand_at s' 1 (blist fresh 1) p
    end.
Proof.
  assert (H1 : 0 <= 1 < NBUCKET) by (unfold NBUCKET; lia). exact (clock_victim_finds_free fresh 1 fresh_inv H1).
Defined.

Lemma bread_returns_block_witness : exists b s', bread 0 40 fresh = Ok b s' /\ b_data (buf_at s' b) = [1; 2; 3].
Proof.
  assert (H40 : 0 <= 40) by lia.
  destruct (bread_returns_block fresh 0 40 fresh_inv fresh_quiet H40 fresh_readable) as (b & s' & E & Hf).
  exists b, s'. split; [exact E|]. rewrite (ft_data _ _ _ _ _ Hf). vm_compute. reflexivity.
Defined.

Lemma write_then_read_witness :
  exists s1 b s2, rewrite_block 0 40 [9; 9] fresh = Ok tt s1 /\
    (forall m, sd_read (bs_disk s1) m = if 40 =? m then [9; 9] else sd_read (bs_disk fresh) m) /\
    bread 0 40 s1 = Ok b s2 /\ b_data (buf_at s2 b) = [9; 9] /\ cache_inv [] s2.
Proof.
  assert (H40 : 0 <= 40) by lia.
  exact (write_then_read fresh 0 40 [9; 9] fresh_inv fresh_quiet H40 fresh_readable (unused_dev fresh 0 fresh_unused)).
Defined.

(** The critical sections of two calls for block 40, in turn. *)
Definition two_bgets : M (bst D) (Z * Z) :=
  r1 <- bget_lookup 0 40 ;;
  r2 <- bget_lookup 0 40 ;;
  v1 <- bget_steal (HASH 40) ;;
  v2 <- bget_steal (HASH 40) ;;
  match r1, r2, v1, v2 with
  | None, None, Some b1, Some b2 => bget_insert 0 40 b1 ;; bget_insert 0 40 b2 ;; ret (b1, b2)
  | _, _, _, _ => panic "bget: no buffers"
  end.

(** Two calls of [bget] for the same block can end with two buffers for
    it.  Run as their critical sections interleave, both miss, both recycle a
    buffer and both insert it: the block is cached twice, each copy with its
    own sleep lock, referenced once. *)
Theorem bget_race_duplicates :
  exists b1 b2 s', two_bgets fresh = Ok (b1, b2) s' /\ b1 <> b2 /\
    b_blockno (buf_at s' b1) = 40 /\ b_blockno (buf_at s' b2) = 40 /\
    b_refcnt (buf_at s' b1) = 1 /\ b_refcnt (buf_at s' b2) = 1 /\
    b1 ∈ blist s' (HASH 40) /\ b2 ∈ blist s' (HASH 40).
Proof.
  exists 27, 14. eexists. split; [vm_compute; reflexivity|]. split; [discriminate|].
  split; [reflexivity|]. split; [reflexivity|]. split; [reflexivity|]. split; [reflexivity|].
  split; vm_compute; repeat constructor.
Qed.

End Race.
