(* ===== verification/Fat32.v ===== *)
(** * The FAT32 file system (src/kernel/fs/fat32.c)

    Cluster chains, file reads and writes, directory entries and the cache of
    open entries, over the block cache of Bio.v.  A sector is the list of its
    bytes; a directory entry on the disk is the list of its 32 bytes.  The
    entries of [ecache] are numbered from 0, the root is [ROOT]; the doubly
    linked list is the list of entry numbers from [root.next] on.  A C string
    is the list of its bytes without the terminating NUL; [ep->filename] is
    the whole array.

    Copies to and from the caller are the interface [EitherCopy]
    ([either_copyout] and [either_copyin]); transfers between the disk and a
    local variable of the kernel return or take the bytes. *)

From S2P Require Import Prelude Riscv Memory Spinlock Bio.
Import Hart.

Definition ATTR_READ_ONLY : Z := 0x01.
Definition ATTR_SYSTEM : Z := 0x04.
Definition ATTR_DIRECTORY : Z := 0x10.
Definition ATTR_ARCHIVE : Z := 0x20.
Definition ATTR_DEVICE : Z := 0x40.
Definition ATTR_LONG_NAME : Z := 0x0F.
Definition LAST_LONG_ENTRY : Z := 0x40.
Definition FAT32_EOC : Z := 0x0ffffff8.
Definition EMPTY_ENTRY : Z := 0xe5.
Definition END_OF_ENTRY : Z := 0x00.
Definition CHAR_LONG_NAME : Z := 13.
Definition CHAR_SHORT_NAME : Z := 11.
Definition FAT32_MAX_FILENAME : Z := 255.
Definition ENTRY_CACHE_NUM : Z := 50.

(** ** Bytes *)

Definition byte_at (l : list Z) (i : Z) : Z := l !!! Z.to_nat i.
Definition half_at (l : list Z) (i : Z) : Z := byte_at l i + 256 * byte_at l (i + 1).
Definition word_at (l : list Z) (i : Z) : Z := half_at l i + 65536 * half_at l (i + 2).

Definition bytes2 (x : Z) : list Z := [u8 x; u8 (x / 256)].
Definition bytes4 (x : Z) : list Z := bytes2 x ++ bytes2 (x / 65536).

(** The bytes [bs] stored at offset [i]. *)
Definition store_at (i : Z) (bs l : list Z) : list Z :=
  take (Z.to_nat i) l ++ bs ++ drop (Z.to_nat i + length bs) l.
Definition sub_bytes (i n : Z) (l : list Z) : list Z := take (Z.to_nat n) (drop (Z.to_nat i) l).

(** [strncmp], [strncpy], [strlen] and [snstr] of string.c on arrays held as
    lists; behind the end of a list is the terminating NUL. *)
Fixpoint strncmp_l (n : nat) (p q : list Z) : Z :=
  match n with
  | O => 0
  | S n' =>
      let x := hd 0 p in
      let y := hd 0 q in
      if negb (x =? 0) && (x =? y) then strncmp_l n' (tl p) (tl q) else x - y
  end.
Fixpoint cstr (l : list Z) : list Z :=
  match l with
  | [] => []
  | c :: l' => if c =? 0 then [] else c :: cstr l'
  end.
Definition strncpy_l (n : Z) (src : list Z) : list Z :=
  let s := take (Z.to_nat n) (cstr src) in s ++ replicate (Z.to_nat n - length s) 0.

(** What [snstr(dst, src, len)] writes, from [dst] on. *)
Fixpoint snstr_l (src : list Z) (len : nat) : list Z :=
  match len with
  | O => []
  | S len' => if hd 0 src =? 0 then replicate len' 0 else u8 (hd 0 src) :: snstr_l (tl src) len'
  end.

(** ** Data *)

Record bpb_t := Bpb {
  byts_per_sec : Z;
  sec_per_clus : Z;
  rsvd_sec_cnt : Z;
  fat_cnt : Z;
  hidd_sec : Z;
  tot_sec : Z;
  fat_sz : Z;
  root_clus : Z;
}.
Record fat_t := Fat {
  first_data_sec : Z;
  data_sec_cnt : Z;
  data_clus_cnt : Z;
  byts_per_clus : Z;
  bpb : bpb_t;
}.

Record dirent := Dirent {
  d_filename : list Z;
  d_attribute : Z;
  d_first_clus : Z;
  d_file_size : Z;
  d_cur_clus : Z;
  d_clus_cnt : Z;
  d_dev : Z;
  d_dirty : bool;
  d_valid : Z;
  d_ref : Z;
  d_off : Z;
  d_parent : option Z;
  d_locked : bool;       (** lock.locked *)
  d_pid : Z;             (** lock.pid *)
}.
Definition zero_dirent : dirent :=
  Dirent (replicate (Z.to_nat (FAT32_MAX_FILENAME + 1)) 0) 0 0 0 0 0 0 false 0 0 0 None false 0.
#[export] Instance dirent_inhabited : Inhabited dirent := populate zero_dirent.

Definition set_d_filename (v : list Z) (e : dirent) : dirent :=
  Dirent v (d_attribute e) (d_first_clus e) (d_file_size e) (d_cur_clus e) (d_clus_cnt e) (d_dev e) (d_dirty e) (d_valid e) (d_ref e) (d_off e) (d_parent e) (d_locked e) (d_pid e).
Definition set_d_attribute (v : Z) (e : dirent) : dirent :=
  Dirent (d_filename e) v (d_first_clus e) (d_file_size e) (d_cur_clus e) (d_clus_cnt e) (d_dev e) (d_dirty e) (d_valid e) (d_ref e) (d_off e) (d_parent e) (d_locked e) (d_pid e).
Definition set_d_first_clus (v : Z) (e : dirent) : dirent :=
  Dirent (d_filename e) (d_attribute e) v (d_file_size e) (d_cur_clus e) (d_clus_cnt e) (d_dev e) (d_dirty e) (d_valid e) (d_ref e) (d_off e) (d_parent e) (d_locked e) (d_pid e).
Definition set_d_file_size (v : Z) (e : dirent) : dirent :=
  Dirent (d_filename e) (d_attribute e) (d_first_clus e) v (d_cur_clus e) (d_clus_cnt e) (d_dev e) (d_dirty e) (d_valid e) (d_ref e) (d_off e) (d_parent e) (d_locked e) (d_pid e).
Definition set_d_cur_clus (v : Z) (e : dirent) : dirent :=
  Dirent (d_filename e) (d_attribute e) (d_first_clus e) (d_file_size e) v (d_clus_cnt e) (d_dev e) (d_dirty e) (d_valid e) (d_ref e) (d_off e) (d_parent e) (d_locked e) (d_pid e).
Definition set_d_clus_cnt (v : Z) (e : dirent) : dirent :=
  Dirent (d_filename e) (d_attribute e) (d_first_clus e) (d_file_size e) (d_cur_clus e) v (d_dev e) (d_dirty e) (d_valid e) (d_ref e) (d_off e) (d_parent e) (d_locked e) (d_pid e).
Definition set_d_dev (v : Z) (e : dirent) : dirent :=
  Dirent (d_filename e) (d_attribute e) (d_first_clus e) (d_file_size e) (d_cur_clus e) (d_clus_cnt e) v (d_dirty e) (d_valid e) (d_ref e) (d_off e) (d_parent e) (d_locked e) (d_pid e).
Definition set_d_dirty (v : bool) (e : dirent) : dirent :=
  Dirent (d_filename e) (d_attribute e) (d_first_clus e) (d_file_size e) (d_cur_clus e) (d_clus_cnt e) (d_dev e) v (d_valid e) (d_ref e) (d_off e) (d_parent e) (d_locked e) (d_pid e).
Definition set_d_valid (v : Z) (e : dirent) : dirent :=
  Dirent (d_filename e) (d_attribute e) (d_first_clus e) (d_file_size e) (d_cur_clus e) (d_clus_cnt e) (d_dev e) (d_dirty e) v (d_ref e) (d_off e) (d_parent e) (d_locked e) (d_pid e).
Definition set_d_ref (v : Z) (e : dirent) : dirent :=
  Dirent (d_filename e) (d_attribute e) (d_first_clus e) (d_file_size e) (d_cur_clus e) (d_clus_cnt e) (d_dev e) (d_dirty e) (d_valid e) v (d_off e) (d_parent e) (d_locked e) (d_pid e).
Definition set_d_off (v : Z) (e : dirent) : dirent :=
  Dirent (d_filename e) (d_attribute e) (d_first_clus e) (d_file_size e) (d_cur_clus e) (d_clus_cnt e) (d_dev e) (d_dirty e) (d_valid e) (d_ref e) v (d_parent e) (d_locked e) (d_pid e).
Definition set_d_parent (v : option Z) (e : dirent) : dirent :=
  Dirent (d_filename e) (d_attribute e) (d_first_clus e) (d_file_size e) (d_cur_clus e) (d_clus_cnt e) (d_dev e) (d_dirty e) (d_valid e) (d_ref e) (d_off e) v (d_locked e) (d_pid e).
Definition set_d_locked (v : bool) (e : dirent) : dirent :=
  Dirent (d_filename e) (d_attribute e) (d_first_clus e) (d_file_size e) (d_cur_clus e) (d_clus_cnt e) (d_dev e) (d_dirty e) (d_valid e) (d_ref e) (d_off e) (d_parent e) v (d_pid e).
Definition set_d_pid (v : Z) (e : dirent) : dirent :=
  Dirent (d_filename e) (d_attribute e) (d_first_clus e) (d_file_size e) (d_cur_clus e) (d_clus_cnt e) (d_dev e) (d_dirty e) (d_valid e) (d_ref e) (d_off e) (d_parent e) (d_locked e) v.

(** ** Names *)

(** The loops of [formatname]: [None] is the NULL result.  [p[1] = 0] cuts the
    trailing blanks; a name of blanks only keeps them. *)
Definition illegal : list Z := [34; 42; 47; 58; 60; 62; 63; 92; 124].
Fixpoint skip_lead (name : list Z) : list Z :=
  match name with
  | c :: name' => if (c =? 32) || (c =? 46) then skip_lead name' else name
  | [] => []
  end.
Fixpoint trim_tail (l : list Z) : list Z :=
  match l with
  | [] => []
  | c :: l' => match trim_tail l' with [] => if c =? 32 then [] else [c] | r => c :: r end
  end.
Definition formatname (name : list Z) : option (list Z) :=
  let name := skip_lead name in
  if existsb (fun c => (c <? 0x20) || bool_decide (c ∈ illegal)) name then None
  else Some (match trim_tail name with [] => name | r => r end).

(** [generate_shortname]: position of the last dot, 0 when there is none. *)
Definition illegal_short : list Z := [43; 44; 59; 61; 91; 93].
Fixpoint last_dot (l : list Z) (k best : Z) : Z :=
  match l with
  | [] => best
  | c :: l' => last_dot l' (k + 1) (if c =? 46 then k else best)
  end.
Definition short_char (c : Z) : Z :=
  if (97 <=? c) && (c <=? 122) then c - 32 else if bool_decide (c ∈ illegal_short) then 95 else c.

(** The main loop: [k] is the index of [name] before its increment, [p] that
    of the last dot or [None] for NULL, [acc] is [shortname[0 .. i)]. *)
Fixpoint shortname_loop (fuel : nat) (name : list Z) (k : Z) (p : option Z) (acc : list Z) : list Z :=
  match fuel with
  | O => acc
  | S f =>
      let c := byte_at name k in
      let i := Z.of_nat (length acc) in
      if (CHAR_SHORT_NAME <=? i) || (c =? 0) then acc
      else
        let name_ptr := k + 1 in
        match p, i =? 8 with
        | Some d, true =>
            if d + 1 <? name_ptr then acc
            else shortname_loop f name (d + 1) None acc
        | _, _ =>
            if c =? 32 then shortname_loop f name name_ptr p acc
            else if c =? 46 then
              if match p with Some d => d <? name_ptr | None => true end
              then shortname_loop f name name_ptr None (acc ++ replicate (Z.to_nat (8 - i)) 32)
              else shortname_loop f name name_ptr p acc
            else shortname_loop f name name_ptr p (acc ++ [short_char c])
        end
  end.
Definition generate_shortname (name : list Z) : list Z :=
  let s := shortname_loop (S (length name)) name 0 (Some (last_dot name 0 0)) [] in
  s ++ replicate (Z.to_nat CHAR_SHORT_NAME - length s) 32.

Fixpoint checksum_loop (n : nat) (s : list Z) (sum : Z) : Z :=
  match n with
  | O => sum
  | S n' => checksum_loop n' (tl s) (u8 ((if Z.odd sum then 0x80 else 0) + Z.shiftr sum 1 + hd 0 s))
  end.
Definition cal_checksum (shortname : list Z) : Z := checksum_loop (Z.to_nat CHAR_SHORT_NAME) shortname 0.

(** ** Directory entries on the disk *)

(** [union dentry] as a short-name entry: the fields that are not used are 0. *)
Definition sne_bytes (name : list Z) (attr first_clus file_size : Z) : list Z :=
  strncpy_l CHAR_SHORT_NAME name ++ [u8 attr] ++ replicate 8 0 ++ bytes2 (first_clus / 65536) ++ replicate 4 0 ++
  bytes2 (first_clus mod 65536) ++ bytes4 file_size.

(** The thirteen wide characters of a long-name entry, from [p] on: the NUL
    and then 0xffff follow the name. *)
Fixpoint wide (n : nat) (p : list Z) (ended : bool) : list Z :=
  match n with
  | O => []
  | S n' =>
      if ended then [0xff; 0xff] ++ wide n' p true
      else let c := hd 0 p in [c; 0] ++ wide n' (tl p) (c =? 0)
  end.
Definition lne_bytes (order checksum : Z) (p : list Z) : list Z :=
  let w := wide (Z.to_nat CHAR_LONG_NAME) p false in
  [u8 order] ++ take 10 w ++ [ATTR_LONG_NAME; 0; checksum] ++ take 12 (drop 10 w) ++ [0; 0] ++ drop 22 w.


(** The long-name entry of number [order] that [emake] builds. *)
Definition long_entry (filename : list Z) (entcnt checksum order : Z) : list Z :=
  lne_bytes (if order =? entcnt then Z.lor order LAST_LONG_ENTRY else order) checksum
    (drop (Z.to_nat ((order - 1) * CHAR_LONG_NAME)) filename).

Definition lne_order (de : list Z) : Z := byte_at de 0.
Definition de_attr (de : list Z) : Z := byte_at de 11.

(** [n] wide characters from byte [i] on. *)
Definition wchars (de : list Z) (i n : Z) : list Z := (fun k => half_at de (i + 2 * k)) <$> seqZ 0 n.

(** [read_entry_name]: what it leaves in the buffer from [buffer] on. *)
Definition read_long_name (de : list Z) (buf : list Z) : list Z :=
  let part l i b n := store_at b (snstr_l (wchars de i n) (Z.to_nat n)) l in
  part (part (part buf 1 0 5) 14 5 6) 28 11 2.

(** The name array after [read_entry_name(ep->filename + buffer, &de)]. *)
Definition put_long_name (de : list Z) (buffer : Z) (filename : list Z) : list Z :=
  take (Z.to_nat buffer) filename ++ read_long_name de (drop (Z.to_nat buffer) filename).
Fixpoint until_blank (n : nat) (l : list Z) : list Z :=
  match n, l with
  | S n', c :: l' => if c =? 32 then [] else c :: until_blank n' l'
  | _, _ => []
  end.
Definition read_short_name (de : list Z) : list Z :=
  let base := until_blank 8 de in
  let ext := until_blank 3 (drop 8 de) in
  let s := base ++ (if byte_at de 8 =? 32 then [] else 46 :: ext) in
  s ++ replicate (13 - length s) 0.

Definition read_entry_info (de : list Z) (e : dirent) : dirent :=
  let clus := Z.lor (Z.shiftl (half_at de 20) 16) (half_at de 26) in
  set_d_clus_cnt 0 (set_d_cur_clus clus (set_d_file_size (word_at de 28)
    (set_d_first_clus clus (set_d_attribute (de_attr de) e)))).

Definition skipelem (path : list Z) : option (list Z * list Z) :=
  let skip := fix skip l := match l with c :: l' => if c =? 47 then skip l' else l | [] => [] end in
  let elem := fix elem l := match l with c :: l' => if c =? 47 then [] else c :: elem l' | [] => [] end in
  let rest := fix rest l := match l with c :: l' => if c =? 47 then l else rest l' | [] => [] end in
  let path := skip path in
  match path with
  | [] => None
  | _ => Some (take (Z.to_nat FAT32_MAX_FILENAME) (elem path), skip (rest path))
  end.

(** [ROOT] is the number of [root], behind the entries of [ecache]. *)
Definition ROOT : Z := ENTRY_CACHE_NUM.

Record fatst (S D : Type) := Fatst {
  fs_cp : S;                  (** what the caller's copies act on *)
  fs_b : bst D;
  fs_fat : fat_t;
  fs_ents : list dirent;      (** ecache.entries and root *)
  fs_lru : list Z;
}.
Arguments Fatst {S D}.
Arguments fs_cp {S D}. Arguments fs_b {S D}. Arguments fs_fat {S D}. Arguments fs_ents {S D}. Arguments fs_lru {S D}.

#[export] Instance fatst_b S D : Lens (fatst S D) (bst D) :=
  {| lget := fs_b; lput b s := Fatst (fs_cp s) b (fs_fat s) (fs_ents s) (fs_lru s) |}.
#[export] Instance fatst_cp S D : Lens (fatst S D) S :=
  {| lget := fs_cp; lput c s := Fatst c (fs_b s) (fs_fat s) (fs_ents s) (fs_lru s) |}.
#[export] Instance fatst_lk S D : Lens (fatst S D) lkst :=
  {| lget s := bs_lk (fs_b s); lput l s := Fatst (fs_cp s) (lput l (fs_b s)) (fs_fat s) (fs_ents s) (fs_lru s) |}.

(** [either_copyout] and [either_copyin]; [false] is -1.  A copy that fails
    has copied the bytes before the one that faults. *)
Class EitherCopy (S : Type) := {
  ec_out : bool -> Z -> list Z -> M S bool;
  ec_in : bool -> Z -> Z -> M S (list Z * bool);
}.

Section code.
Context {CS D : Type} `{!EitherCopy CS} `{!Disk D}.
Abbreviation F := (M (fatst CS D)).

Definition bio {A} (m : M (bst D) A) : F A := zoom (T := bst D) m.
Definition the_fat : F fat_t := gets fs_fat.

Definition ent (s : fatst CS D) (e : Z) : dirent := fs_ents s !!! Z.to_nat e.
Definition upd_ent (e : Z) (f : dirent -> dirent) (s : fatst CS D) : fatst CS D :=
  Fatst (fs_cp s) (fs_b s) (fs_fat s) (<[Z.to_nat e := f (ent s e)]> (fs_ents s)) (fs_lru s).
Definition gete (e : Z) : F dirent := gets (fun s => ent s e).
Definition sete (e : Z) (f : dirent -> dirent) : F unit := modify (upd_ent e f).
Definition elock_ : F unit := zoom (T := lkst) (acquire L_ecache).
Definition eunlock_ : F unit := zoom (T := lkst) (release L_ecache).

(** ** Sectors and clusters *)

(** [b = bread(dev, n)], a look at [b->data], [brelse(b)]. *)
Definition peek (dev n : Z) : M (bst D) (list Z) :=
  b <- bread dev n ;;
  x <- getb b ;;
  brelse b ;;
  ret (b_data x).

(** [b = bread(dev, n)], a change of [b->data], [bwrite(b)], [brelse(b)]. *)
Definition poke (dev n : Z) (f : list Z -> list Z) : M (bst D) unit :=
  b <- bread dev n ;;
  setb b (fun x => set_data (f (b_data x)) x) ;;
  bwrite b ;;
  brelse b.

Definition first_sec_of_clus (fat : fat_t) (cluster : Z) : Z :=
  u32 (u32 (cluster - 2) * sec_per_clus (bpb fat) + first_data_sec fat).
Definition fat_sec_of_clus (fat : fat_t) (cluster fat_num : Z) : Z :=
  u32 (rsvd_sec_cnt (bpb fat) + u32 (Z.shiftl cluster 2) / byts_per_sec (bpb fat) + fat_sz (bpb fat) * (fat_num - 1)).
Definition fat_offset_of_clus (fat : fat_t) (cluster : Z) : Z :=
  u32 (Z.shiftl cluster 2) mod byts_per_sec (bpb fat).

Definition read_fat (cluster : Z) : F Z :=
  fat <- the_fat ;;
  if FAT32_EOC <=? cluster then ret cluster
  else if u32 (data_clus_cnt fat + 1) <? cluster then ret 0
  else
    data <- bio (peek 0 (fat_sec_of_clus fat cluster 1)) ;;
    ret (word_at data (fat_offset_of_clus fat cluster)).

Definition write_fat (cluster content : Z) : F Z :=
  fat <- the_fat ;;
  if u32 (data_clus_cnt fat + 1) <? cluster then ret (-1)
  else
    bio (poke 0 (fat_sec_of_clus fat cluster 1) (store_at (fat_offset_of_clus fat cluster) (bytes4 content))) ;;
    ret 0.

Fixpoint zero_sectors (n : nat) (sec : Z) : F unit :=
  match n with
  | O => ret tt
  | S n' => bio (poke 0 sec (fun _ => replicate (Z.to_nat BSIZE) 0)) ;; zero_sectors n' (u32 (sec + 1))
  end.
Definition zero_clus (cluster : Z) : F unit :=
  fat <- the_fat ;;
  zero_sectors (Z.to_nat (sec_per_clus (bpb fat))) (first_sec_of_clus fat cluster).

(** The inner loop of [alloc_clus]: the first word that is 0. *)
Fixpoint find_zero (n : nat) (data : list Z) (j : Z) : option Z :=
  match n with
  | O => None
  | S n' => if word_at data (4 * j) =? 0 then Some j else find_zero n' data (j + 1)
  end.

Fixpoint alloc_scan (n : nat) (dev i sec ent_per_sec : Z) : F Z :=
  match n with
  | O => panic "no clusters"
  | S n' =>
      b <- bio (bread dev sec) ;;
      x <- bio (getb b) ;;
      match find_zero (Z.to_nat ent_per_sec) (b_data x) 0 with
      | Some j =>
          bio (setb b (fun x => set_data (store_at (4 * j) (bytes4 (FAT32_EOC + 7)) (b_data x)) x)) ;;
          bio (bwrite b) ;;
          bio (brelse b) ;;
          let clus := u32 (i * ent_per_sec + j) in
          zero_clus clus ;;
          ret clus
      | None => bio (brelse b) ;; alloc_scan n' dev (i + 1) (u32 (sec + 1)) ent_per_sec
      end
  end.
Definition alloc_clus (dev : Z) : F Z :=
  fat <- the_fat ;;
  alloc_scan (Z.to_nat (fat_sz (bpb fat))) dev 0 (rsvd_sec_cnt (bpb fat)) (byts_per_sec (bpb fat) / 4).

Definition free_clus (cluster : Z) : F unit := write_fat cluster 0 ;; ret tt.

(** [rw_clus] for reading.  [sink] is the copy of a piece to [data]; the
    result is [tot] and the bytes copied.  The loop variables are [tot],
    [off], [sec] and the bytes so far. *)
Definition rw_read_body (n : Z) (sink : Z -> list Z -> F bool) (x : Z * Z * Z * list Z) :
    F ((Z * Z * Z * list Z) + (Z * list Z)) :=
  let '(tot, off, sec, acc) := x in
  if tot <? n then
    b <- bio (bread 0 sec) ;;
    v <- bio (getb b) ;;
    let m0 := BSIZE - off mod BSIZE in
    let m := if n - tot <? m0 then n - tot else m0 in
    let piece := sub_bytes (off mod BSIZE) m (b_data v) in
    ok <- sink tot piece ;;
    bio (brelse b) ;;
    if negb ok then ret (inr (tot, acc))
    else ret (inl (tot + m, off + m, u32 (sec + 1), acc ++ piece))
  else ret (inr (tot, acc)).

Definition rw_clus_read (cluster : Z) (sink : Z -> list Z -> F bool) (off n : Z) : F (Z * list Z) :=
  fat <- the_fat ;;
  if byts_per_clus fat <? u32 (off + n) then panic "offset out of range"
  else
    loop (S (Z.to_nat n)) (rw_read_body n sink)
      (0, off mod byts_per_sec (bpb fat),
       u32 (first_sec_of_clus fat cluster + off / byts_per_sec (bpb fat)), []).

(** [rw_clus] for writing; [source tot m] is the piece at [data]. *)
Definition rw_write_body (n : Z) (source : Z -> Z -> F (list Z * bool)) (x : Z * Z * Z) : F ((Z * Z * Z) + Z) :=
  let '(tot, off, sec) := x in
  if tot <? n then
    b <- bio (bread 0 sec) ;;
    let m0 := BSIZE - off mod BSIZE in
    let m := if n - tot <? m0 then n - tot else m0 in
    piece <- source tot m ;;
    let '(bs, ok) := piece in
    bio (setb b (fun v => set_data (store_at (off mod BSIZE) bs (b_data v)) v)) ;;
    when ok (bio (bwrite b)) ;;
    bio (brelse b) ;;
    if negb ok then ret (inr tot)
    else ret (inl (tot + m, off + m, u32 (sec + 1)))
  else ret (inr tot).

Definition rw_clus_write (cluster : Z) (source : Z -> Z -> F (list Z * bool)) (off n : Z) : F Z :=
  fat <- the_fat ;;
  if byts_per_clus fat <? u32 (off + n) then panic "offset out of range"
  else
    loop (S (Z.to_nat n)) (rw_write_body n source)
      (0, off mod byts_per_sec (bpb fat),
       u32 (first_sec_of_clus fat cluster + off / byts_per_sec (bpb fat))).

(** Transfers to and from a local variable of the kernel. *)
Definition to_local : Z -> list Z -> F bool := fun _ _ => ret true.
Definition from_local (bs : list Z) : Z -> Z -> F (list Z * bool) := fun tot m => ret (sub_bytes tot m bs, true).

(** First loop of [reloc_clus]: follow, and if allowed extend, the chain. *)
Definition reloc_forward (e clus_num : Z) (alloc : bool) (_ : unit) : F (unit + bool) :=
  x <- gete e ;;
  if d_clus_cnt x <? u32 clus_num then
    r <- read_fat (d_cur_clus x) ;;
    let clus := s32 r in
    if FAT32_EOC <=? clus then
      if alloc then
        clus <- alloc_clus (d_dev x) ;;
        write_fat (d_cur_clus x) clus ;;
        sete e (fun x => set_d_clus_cnt (u32 (d_clus_cnt x + 1)) (set_d_cur_clus clus x)) ;;
        ret (inl tt)
      else
        sete e (fun x => set_d_clus_cnt 0 (set_d_cur_clus (d_first_clus x) x)) ;;
        ret (inr false)
    else
      sete e (fun x => set_d_clus_cnt (u32 (d_clus_cnt x + 1)) (set_d_cur_clus (u32 clus) x)) ;;
      ret (inl tt)
  else ret (inr true).

(** Second loop: from the start of the chain. *)
Definition reloc_back (e clus_num : Z) (_ : unit) : F (unit + unit) :=
  x <- gete e ;;
  if d_clus_cnt x <? u32 clus_num then
    clus <- read_fat (d_cur_clus x) ;;
    sete e (set_d_cur_clus clus) ;;
    if FAT32_EOC <=? clus then panic "reloc_clus"
    else sete e (fun x => set_d_clus_cnt (u32 (d_clus_cnt x + 1)) x) ;; ret (inl tt)
  else ret (inr tt).

Definition reloc_clus (e off : Z) (alloc : bool) : F Z :=
  fat <- the_fat ;;
  let clus_num := s32 (off / byts_per_clus fat) in
  ok <- loop (S (Z.to_nat (u32 clus_num))) (reloc_forward e clus_num alloc) tt ;;
  if negb ok then ret (-1)
  else
    x <- gete e ;;
    when (u32 clus_num <? d_clus_cnt x)
      (sete e (fun x => set_d_clus_cnt 0 (set_d_cur_clus (d_first_clus x) x)) ;;
       loop (S (Z.to_nat (u32 clus_num))) (reloc_back e clus_num) tt) ;;
    ret (s32 (off mod byts_per_clus fat)).

(** ** Files *)

Definition eread_body (e : Z) (user_dst : bool) (n : Z) (x : Z * Z * Z) : F ((Z * Z * Z) + Z) :=
  let '(tot, off, dst) := x in
  fat <- the_fat ;;
  d <- gete e ;;
  if (d_cur_clus d <? FAT32_EOC) && (tot <? n) then
    reloc_clus e off false ;;
    let m0 := byts_per_clus fat - off mod byts_per_clus fat in
    let m := if n - tot <? m0 then n - tot else m0 in
    d <- gete e ;;
    r <- rw_clus_read (d_cur_clus d)
           (fun k bs => zoom (T := CS) (ec_out user_dst (u64 (dst + k)) bs)) (off mod byts_per_clus fat) m ;;
    if negb (fst r =? m) then ret (inr tot)
    else ret (inl (tot + m, u32 (off + m), u64 (dst + m)))
  else ret (inr tot).

Definition eread (e : Z) (user_dst : bool) (dst off n : Z) : F Z :=
  d <- gete e ;;
  if (d_file_size d <? off) || (u32 (off + n) <? off) || negb (Z.land (d_attribute d) ATTR_DIRECTORY =? 0) then ret 0
  else
    let n := if d_file_size d <? u32 (off + n) then d_file_size d - off else n in
    tot <- loop (S (Z.to_nat n)) (eread_body e user_dst n) (0, off, dst) ;;
    ret (s32 tot).

Definition ewrite_body (e : Z) (user_src : bool) (n : Z) (x : Z * Z * Z) : F ((Z * Z * Z) + (Z * Z)) :=
  let '(tot, off, src) := x in
  fat <- the_fat ;;
  if tot <? n then
    reloc_clus e off true ;;
    let m0 := byts_per_clus fat - off mod byts_per_clus fat in
    let m := if n - tot <? m0 then n - tot else m0 in
    d <- gete e ;;
    r <- rw_clus_write (d_cur_clus d)
           (fun k m => zoom (T := CS) (ec_in user_src (u64 (src + k)) m)) (off mod byts_per_clus fat) m ;;
    if negb (r =? m) then ret (inr (tot, off))
    else ret (inl (tot + m, u32 (off + m), u64 (src + m)))
  else ret (inr (tot, off)).

Definition ewrite (e : Z) (user_src : bool) (src off n : Z) : F Z :=
  d <- gete e ;;
  if (d_file_size d <? off) || (u32 (off + n) <? off) || (0xffffffff <? off + n) ||
     negb (Z.land (d_attribute d) ATTR_READ_ONLY =? 0) then ret (-1)
  else
    when (d_first_clus d =? 0)
      (c <- alloc_clus (d_dev d) ;;
       sete e (fun d => set_d_dirty true (set_d_clus_cnt 0 (set_d_cur_clus c (set_d_first_clus c d))))) ;;
    r <- loop (S (Z.to_nat n)) (ewrite_body e user_src n) (0, off, src) ;;
    let '(tot, off) := r in
    when (0 <? n)
      (d <- gete e ;;
       when (d_file_size d <? off) (sete e (fun d => set_d_dirty true (set_d_file_size off d)))) ;;
    ret (s32 tot).

(** [for (clus = first_clus; clus >= 2 && clus < FAT32_EOC; )] of [etrunc].  A
    chain without a cycle has at most [data_clus_cnt] clusters. *)
Definition etrunc_body (clus : Z) : F (Z + unit) :=
  if (2 <=? clus) && (clus <? FAT32_EOC) then
    next <- read_fat clus ;;
    free_clus clus ;;
    ret (inl next)
  else ret (inr tt).
Definition etrunc (e : Z) : F unit :=
  fat <- the_fat ;;
  d <- gete e ;;
  loop (S (S (Z.to_nat (data_clus_cnt fat)))) etrunc_body (d_first_clus d) ;;
  sete e (fun d => set_d_dirty true (set_d_first_clus 0 (set_d_file_size 0 d))).

(** ** The entry cache *)

Definition name_is (x : dirent) (name : list Z) : bool :=
  strncmp_l (Z.to_nat FAT32_MAX_FILENAME) (d_filename x) name =? 0.

(** The two scans of [eget]: from the front for a hit, from the back for an
    entry nobody uses. *)
Definition eget_hit (s : fatst CS D) (parent : Z) (name : list Z) : option Z :=
  List.find (fun e => (d_valid (ent s e) =? 1) && bool_decide (d_parent (ent s e) = Some parent) && name_is (ent s e) name)
    (fs_lru s).
Definition eget_free (s : fatst CS D) : option Z :=
  List.find (fun e => d_ref (ent s e) =? 0) (rev (fs_lru s)).

Definition eget (parent : Z) (name : list Z) : F Z :=
  elock_ ;;
  s <- get ;;
  match eget_hit s parent name with
  | Some e =>
      sete e (fun x => set_d_ref (s32 (d_ref x + 1)) x) ;;
      when (d_ref (ent s e) =? 0) (sete parent (fun x => set_d_ref (s32 (d_ref x + 1)) x)) ;;
      eunlock_ ;;
      ret e
  | None =>
      match eget_free s with
      | Some e =>
          sete e (fun x => set_d_dirty false (set_d_valid 0 (set_d_off 0 (set_d_dev (d_dev (ent s parent)) (set_d_ref 1 x))))) ;;
          eunlock_ ;;
          ret e
      | None => panic "eget: insufficient ecache"
      end
  end.

Definition edup (e : Z) : F Z :=
  elock_ ;;
  sete e (fun x => set_d_ref (s32 (d_ref x + 1)) x) ;;
  eunlock_ ;;
  ret e.

(** Sleep locks of entries: as for buffers, a run that would block stops. *)
Definition entry_acquire (e : Z) : F unit :=
  x <- gete e ;;
  if d_locked x then spin
  else pid <- bio (gets bs_pid) ;; sete e (fun x => set_d_pid pid (set_d_locked true x)).
Definition entry_release (e : Z) : F unit := sete e (fun x => set_d_pid 0 (set_d_locked false x)).

Definition elock (e : Z) : F unit :=
  x <- gete e ;;
  if d_ref x <? 1 then panic "elock" else entry_acquire e.
Definition eunlock (e : Z) : F unit :=
  x <- gete e ;;
  pid <- bio (gets bs_pid) ;;
  if negb (d_locked x && (d_pid x =? pid)) || (d_ref x <? 1) then panic "eunlock" else entry_release e.

(** A 32-byte entry of the directory [e], read or written at [off] in the
    cluster that [reloc_clus] left in [cur_clus]. *)
Definition read_slot (e off n : Z) : F (Z * list Z) :=
  x <- gete e ;; rw_clus_read (d_cur_clus x) to_local off n.
Definition write_slot (e off : Z) (bs : list Z) : F Z :=
  x <- gete e ;; rw_clus_write (d_cur_clus x) (from_local bs) off (Z.of_nat (length bs)).

(** [entcnt = 0; rw_clus(.., &entcnt, off, 1); entcnt &= ~LAST_LONG_ENTRY] *)
Definition slot_count (e off : Z) : F Z :=
  r <- read_slot e off 1 ;;
  ret (Z.land (byte_at (snd r) 0) (Z.lnot LAST_LONG_ENTRY)).

(** The parent of an entry that is in use. *)
Definition parent_of (x : dirent) : F Z :=
  match d_parent x with Some p => ret p | None => panic "NULL parent" end.

Definition eupdate (e : Z) : F unit :=
  x <- gete e ;;
  if negb (d_dirty x) || negb (d_valid x =? 1) then ret tt
  else
    p <- parent_of x ;;
    off <- reloc_clus p (d_off x) false ;;
    entcnt <- slot_count p (u32 off) ;;
    off <- reloc_clus p (u32 (d_off x + Z.shiftl entcnt 5)) false ;;
    r <- read_slot p (u32 off) 32 ;;
    x <- gete e ;;
    let de := store_at 28 (bytes4 (d_file_size x)) (store_at 26 (bytes2 (d_first_clus x mod 65536))
                (store_at 20 (bytes2 (d_first_clus x / 65536)) (snd r))) in
    write_slot p (u32 off) de ;;
    sete e (set_d_dirty false).

Fixpoint eremove_slots (n : nat) (p off off2 : Z) : F unit :=
  match n with
  | O => ret tt
  | S n' =>
      write_slot p off2 [EMPTY_ENTRY] ;;
      let off := u32 (off + 32) in
      off2 <- reloc_clus p off false ;;
      eremove_slots n' p off (u32 off2)
  end.
Definition eremove (e : Z) : F unit :=
  x <- gete e ;;
  if negb (d_valid x =? 1) then ret tt
  else
    p <- parent_of x ;;
    off2 <- reloc_clus p (d_off x) false ;;
    entcnt <- slot_count p (u32 off2) ;;
    eremove_slots (S (Z.to_nat entcnt)) p (d_off x) (u32 off2) ;;
    sete e (set_d_valid (-1)).

(** [eput]; the recursion follows the parents. *)
Fixpoint eput_rec (fuel : nat) (e : Z) : F unit :=
  match fuel with
  | O => spin
  | S fuel' =>
      elock_ ;;
      x <- gete e ;;
      if negb (e =? ROOT) && negb (d_valid x =? 0) && (d_ref x =? 1) then
        entry_acquire e ;;
        modify (fun s => Fatst (fs_cp s) (fs_b s) (fs_fat s) (fs_ents s) (e :: filter (fun y => y <> e) (fs_lru s))) ;;
        eunlock_ ;;
        p <- parent_of x ;;
        (if d_valid x =? -1 then etrunc e
         else elock p ;; eupdate e ;; eunlock p) ;;
        entry_release e ;;
        elock_ ;;
        sete e (fun x => set_d_ref (s32 (d_ref x - 1)) x) ;;
        eunlock_ ;;
        x <- gete e ;;
        when (d_ref x =? 0) (eput_rec fuel' p)
      else
        sete e (fun x => set_d_ref (s32 (d_ref x - 1)) x) ;;
        eunlock_
  end.
Definition eput (e : Z) : F unit := eput_rec (S (Z.to_nat ENTRY_CACHE_NUM)) e.

Definition estat (x : dirent) : list Z * bool * Z * Z :=
  (cstr (d_filename x), negb (Z.land (d_attribute x) ATTR_DIRECTORY =? 0), d_dev x, d_file_size x).

(** ** Directories *)

(** The loop of [emake] over the long-name entries, from the last down. *)
Fixpoint emake_long (i : nat) (dp : Z) (filename : list Z) (entcnt checksum off : Z) : F Z :=
  match i with
  | O => ret off
  | S i' =>
      off2 <- reloc_clus dp off true ;;
      write_slot dp (u32 off2) (long_entry filename entcnt checksum (Z.of_nat i)) ;;
      emake_long i' dp filename entcnt checksum (u32 (off + 32))
  end.

Definition emake (dp ep off : Z) : F unit :=
  d <- gete dp ;;
  x <- gete ep ;;
  if Z.land (d_attribute d) ATTR_DIRECTORY =? 0 then panic "emake: not dir"
  else if negb (off mod 32 =? 0) then panic "emake: not aligned"
  else if off <=? 32 then
    let name := if off =? 0 then [46] ++ replicate 10 32 else [46; 46] ++ replicate 9 32 in
    off2 <- reloc_clus dp off true ;;
    write_slot dp (u32 off2) (sne_bytes name ATTR_DIRECTORY (d_first_clus x) 0) ;;
    ret tt
  else
    let len := Z.of_nat (length (cstr (d_filename x))) in
    let entcnt := (len + CHAR_LONG_NAME - 1) / CHAR_LONG_NAME in
    let shortname := generate_shortname (cstr (d_filename x)) in
    off <- emake_long (Z.to_nat entcnt) dp (d_filename x) entcnt (cal_checksum shortname) off ;;
    off2 <- reloc_clus dp off true ;;
    write_slot dp (u32 off2) (sne_bytes shortname (d_attribute x) (d_first_clus x) (d_file_size x)) ;;
    ret tt.

(** [enext]: the result, and [*count] when it is written.  The loop variables
    are [off], [cnt] and [*count] once [count] is NULL. *)
Definition enext_body (dp ep : Z) (x : Z * Z * option Z) : F ((Z * Z * option Z) + (Z * option Z)) :=
  let '(off, cnt, count) := x in
  off2 <- reloc_clus dp off false ;;
  if off2 =? -1 then ret (inr (-1, count))
  else
    r <- read_slot dp (u32 off2) 32 ;;
    let de := snd r in
    if negb (fst r =? 32) || (lne_order de =? END_OF_ENTRY) then ret (inr (-1, count))
    else if lne_order de =? EMPTY_ENTRY then ret (inl (u32 (off + 32), cnt + 1, count))
    else if negb (cnt =? 0) then
      match count with
      | None => ret (inr (0, Some cnt))
      | Some _ => panic "store through a NULL count"
      end
    else if de_attr de =? ATTR_LONG_NAME then
      let lcnt := Z.land (lne_order de) (Z.lnot LAST_LONG_ENTRY) in
      let last := negb (Z.land (lne_order de) LAST_LONG_ENTRY =? 0) in
      let buffer := (lcnt - 1) * CHAR_LONG_NAME in
      if last && negb (bool_decide (count = None)) then panic "store through a NULL count"
      else if (buffer <? 0) || (FAT32_MAX_FILENAME + 1 <? buffer + CHAR_LONG_NAME) then panic "store outside filename"
      else
        sete ep (fun e => set_d_filename (put_long_name de buffer (d_filename e)) e) ;;
        ret (inl (u32 (off + 32), cnt, if last then Some (lcnt + 1) else count))
    else
      when (bool_decide (count = None))
        (sete ep (fun e => set_d_filename (store_at 0 (read_short_name de) (d_filename e)) e)) ;;
      sete ep (read_entry_info de) ;;
      ret (inr (1, Some (match count with None => 1 | Some c => c end))).

(** A directory has at most one entry per 32 bytes of its clusters. *)
Definition dir_slots (fat : fat_t) : nat := S (Z.to_nat ((data_clus_cnt fat + 1) * (byts_per_clus fat / 32))).

Definition enext (dp ep off : Z) : F (Z * option Z) :=
  d <- gete dp ;;
  e <- gete ep ;;
  if Z.land (d_attribute d) ATTR_DIRECTORY =? 0 then panic "enext not dir"
  else if negb (d_valid e =? 0) then panic "enext ep valid"
  else if negb (off mod 32 =? 0) then panic "enext not align"
  else if negb (d_valid d =? 1) then ret (-1, None)
  else
    fat <- the_fat ;;
    sete ep (set_d_filename (replicate (Z.to_nat (FAT32_MAX_FILENAME + 1)) 0)) ;;
    loop (dir_slots fat) (enext_body dp ep) (off, 0, None).

(** The loop of [dirlookup].  In [while ((type = enext(..) != -1))] the
    comparison binds tighter than the assignment, so that [type] is 1 in every
    round and the branch for empty slots is never taken.  [slot] is the offset
    stored through [poff] before the loop ends. *)
Definition dirlookup_body (dp ep : Z) (filename : list Z) (entcnt : Z) (x : Z * Z * option Z) :
    F ((Z * Z * option Z) + (option Z * Z * option Z)) :=
  let '(off, count, slot) := x in
  r <- enext dp ep off ;;
  let count := match snd r with Some c => c | None => count end in
  let type := b2z (negb (fst r =? -1)) in
  if negb (type =? 0) then
    let next := u32 (off + Z.shiftl count 5) in
    if type =? 0 then
      ret (inl (next, count, if bool_decide (slot = None) && (entcnt <=? count) then Some off else slot))
    else
      e <- gete ep ;;
      if strncmp_l (Z.to_nat FAT32_MAX_FILENAME) filename (d_filename e) =? 0 then ret (inr (Some ep, off, slot))
      else ret (inl (next, count, slot))
  else ret (inr (None, off, slot)).

(** Result: the entry or [None], and the offset for a new entry. *)
Definition dirlookup (dp : Z) (filename : list Z) : F (option Z * option Z) :=
  d <- gete dp ;;
  if Z.land (d_attribute d) ATTR_DIRECTORY =? 0 then panic "dirlookup not DIR"
  else if strncmp_l (Z.to_nat FAT32_MAX_FILENAME) filename [46] =? 0 then e <- edup dp ;; ret (Some e, None)
  else if strncmp_l (Z.to_nat FAT32_MAX_FILENAME) filename [46; 46] =? 0 then
    (if dp =? ROOT then e <- edup ROOT ;; ret (Some e, None)
     else p <- parent_of d ;; e <- edup p ;; ret (Some e, None))
  else if negb (d_valid d =? 1) then ret (None, None)
  else
    ep <- eget dp filename ;;
    e <- gete ep ;;
    if d_valid e =? 1 then ret (Some ep, None)
    else
      let entcnt := (Z.of_nat (length filename) + CHAR_LONG_NAME - 1) / CHAR_LONG_NAME + 1 in
      reloc_clus dp 0 false ;;
      fat <- the_fat ;;
      r <- loop (dir_slots fat) (dirlookup_body dp ep filename entcnt) (0, 0, None) ;;
      match r with
      | (Some ep, off, _) =>
          p <- edup dp ;;
          sete ep (fun e => set_d_valid 1 (set_d_off off (set_d_parent (Some p) e))) ;;
          ret (Some ep, None)
      | (None, off, slot) => eput ep ;; ret (None, Some (match slot with Some o => o | None => off end))
      end.

Definition ealloc (dp : Z) (name : list Z) (attr : Z) : F (option Z) :=
  d <- gete dp ;;
  if Z.land (d_attribute d) ATTR_DIRECTORY =? 0 then panic "ealloc not dir"
  else if negb (d_valid d =? 1) then ret None
  else
    match formatname name with
    | None => ret None
    | Some name =>
        r <- dirlookup dp name ;;
        match r with
        | (Some ep, _) => ret (Some ep)
        | (None, poff) =>
            let off := match poff with Some o => o | None => 0 end in
            ep <- eget dp name ;;
            elock ep ;;
            p <- edup dp ;;
            sete ep (fun e => set_d_filename (strncpy_l FAT32_MAX_FILENAME name ++ [0]) (set_d_dirty false (set_d_cur_clus 0
              (set_d_clus_cnt 0 (set_d_off off (set_d_parent (Some p) (set_d_first_clus 0 (set_d_file_size 0
                (set_d_attribute (u8 attr) e))))))))) ;;
            (if attr =? ATTR_DIRECTORY then
               sete ep (fun e => set_d_attribute (Z.lor (d_attribute e) ATTR_DIRECTORY) e) ;;
               c <- alloc_clus (d_dev d) ;;
               sete ep (fun e => set_d_cur_clus c (set_d_first_clus c e)) ;;
               emake ep ep 0 ;;
               emake ep dp 32
             else if attr =? ATTR_DEVICE then
               sete ep (fun e => set_d_attribute (Z.lor (d_attribute e) ATTR_DEVICE) e)
             else sete ep (fun e => set_d_attribute (Z.lor (d_attribute e) ATTR_ARCHIVE) e)) ;;
            emake dp ep off ;;
            sete ep (set_d_valid 1) ;;
            eunlock ep ;;
            ret (Some ep)
        end
    end.

(** ** Paths *)

(** The loop of [lookup_path]: each round takes one element off the path. *)
Fixpoint walk_path (fuel : nat) (path : list Z) (parent : bool) (entry : Z) (name : list Z) : F (option Z * list Z) :=
  match fuel with
  | O => spin
  | S f =>
      match skipelem path with
      | None => if parent then eput entry ;; ret (None, name) else ret (Some entry, name)
      | Some (name, path) =>
          elock entry ;;
          x <- gete entry ;;
          if Z.land (d_attribute x) ATTR_DIRECTORY =? 0 then eunlock entry ;; eput entry ;; ret (None, name)
          else if parent && bool_decide (path = []) then eunlock entry ;; ret (Some entry, name)
          else
            r <- dirlookup entry name ;;
            match fst r with
            | None => eunlock entry ;; eput entry ;; ret (None, name)
            | Some next => eunlock entry ;; eput entry ;; walk_path f path parent next name
            end
      end
  end.
Definition lookup_path (cwd : Z) (path : list Z) (parent : bool) : F (option Z * list Z) :=
  match path with
  | [] => ret (None, [])
  | c :: _ =>
      entry <- edup (if c =? 47 then ROOT else cwd) ;;
      walk_path (S (length path)) path parent entry []
  end.
Definition ename (cwd : Z) (path : list Z) : F (option Z) := r <- lookup_path cwd path false ;; ret (fst r).
Definition enameparent (cwd : Z) (path : list Z) : F (option Z * list Z) := lookup_path cwd path true.

(** ** Start *)

Definition read_bpb (data : list Z) : fat_t :=
  let b := Bpb (half_at data 11) (byte_at data 13) (half_at data 14) (byte_at data 16) (word_at data 28)
             (word_at data 32) (word_at data 36) (word_at data 44) in
  let first := u32 (rsvd_sec_cnt b + fat_cnt b * fat_sz b) in
  let secs := u32 (tot_sec b - first) in
  Fat first secs (secs / sec_per_clus b) (sec_per_clus b * byts_per_sec b) b.

Definition root_entry (clus : Z) : dirent :=
  set_d_valid 1 (set_d_cur_clus clus (set_d_first_clus clus (set_d_attribute (Z.lor ATTR_DIRECTORY ATTR_SYSTEM) zero_dirent))).

Definition fresh_entry (e : dirent) : dirent :=
  set_d_pid 0 (set_d_locked false (set_d_parent None (set_d_dirty false (set_d_ref 0 (set_d_valid 0 (set_d_dev 0 e)))))).

Definition fat32_init : F Z :=
  data <- bio (peek 0 0) ;;
  if negb (strncmp_l 5 (drop 82 data) [70; 65; 84; 51; 50] =? 0) then panic "not FAT32 volume"
  else
    let fat := read_bpb data in
    modify (fun s => Fatst (fs_cp s) (fs_b s) fat (fs_ents s) (fs_lru s)) ;;
    if negb (BSIZE =? byts_per_sec (bpb fat)) then panic "byts_per_sec != BSIZE"
    else
      zoom (T := lkst) (initlock L_ecache) ;;
      modify (fun s => Fatst (fs_cp s) (fs_b s) (fs_fat s)
        ((fresh_entry <$> take (Z.to_nat ENTRY_CACHE_NUM) (fs_ents s)) ++ [root_entry (root_clus (bpb fat))])
        (rev (seqZ 0 ENTRY_CACHE_NUM))) ;;
      ret 0.

Definition fat32_invalidate : F unit :=
  elock_ ;;
  modify (fun s => Fatst (fs_cp s) (fs_b s) (fs_fat s)
    (((fun e => if d_ref e =? 0 then set_d_parent None (set_d_dirty false (set_d_valid 0 e)) else e) <$>
        take (Z.to_nat ENTRY_CACHE_NUM) (fs_ents s)) ++ drop (Z.to_nat ENTRY_CACHE_NUM) (fs_ents s)) (fs_lru s)) ;;
  eunlock_.
End code.
