(* ===== verification/FatDisk.v ===== *)
(** * The volume: FAT entries, cluster data and allocation

    The file system of Fat32.v over an idle block cache: the sectors of the
    first FAT are a map from clusters to clusters, the data area a map from
    clusters to bytes; [alloc_clus] takes the first free cluster. *)

From S2P Require Import Prelude Riscv Memory Spinlock Bio BioProps Fat32.
Import Hart.

(** ** The cache between two calls *)

Section idle.
Context {D : Type} `{!Disk D} `{!DiskLaws D}.
Implicit Types s : bst D.

(** Nobody holds a buffer, and all buffers are for device 0. *)
Record idle (s : bst D) : Prop := {
  id_inv : cache_inv [] s;
  id_quiet : quiet (bs_lk s);
  id_free b : 0 <= b < NBUF -> b_locked (buf_at s b) = false /\ b_refcnt (buf_at s b) = 0;
  id_dev b : 0 <= b < NBUF -> b_valid (buf_at s b) = true -> b_dev (buf_at s b) = 0;
}.

Lemma idle_readable s n : idle s -> 0 <= n -> readable s 0 n.
Proof.
  intros Hi Hn. unfold readable. destruct (find_block s (blist s (HASH n)) 0 n) as [b|] eqn:E.
  - apply find_block_Some in E as [Hin _].
    assert (Hb : 0 <= b < NBUF) by (apply (bk_in _ _ _ (cache_bucket_ok _ _ _ (id_inv _ Hi) (HASH_range n Hn))); done).
    destruct (id_free _ Hi b Hb) as [-> ->]. lia.
  - exists 0. assert (H0 : 0 <= 0 < NBUF) by (unfold NBUF; lia). split; [done|]. apply (id_free _ Hi 0 H0).
Qed.

(** Buffer [b] was fetched for block [n]. *)
Definition holding (s : bst D) (n b : Z) (s1 : bst D) : Prop := idle s /\ 0 <= n /\ fetched s 0 n b s1.

Lemma hold_wp s n : idle s -> 0 <= n -> wp (bread 0 n) (fun b s1 => holding s n b s1) s.
Proof.
  intros Hi Hn. eapply wp_mono; [apply bread_wp; [apply Hi|apply Hi|done|by apply idle_readable]|]. done.
Qed.

Lemma holding_data s n b s1 : holding s n b s1 -> b_data (buf_at s1 b) = sd_read (bs_disk s) n.
Proof. intros (_ & _ & []). done. Qed.

Lemma holding_one s n b s1 : holding s n b s1 -> b_refcnt (buf_at s1 b) = 1.
Proof. intros (Hi & _ & Hf). apply (ft_count _ _ _ _ _ Hf), (id_free _ Hi), Hf. Qed.

(** A fetched buffer, changed or not, is released once the disk has its
    contents. *)
Lemma idle_release s n b s1 s2 :
  holding s n b s1 -> cache_inv [] s2 -> bs_lk s2 = bs_lk s1 -> bs_pid s2 = bs_pid s1 ->
  (exists v, buf_at s2 b = set_data v (buf_at s1 b)) -> b_data (buf_at s2 b) = sd_read (bs_disk s2) n ->
  (forall c, 0 <= c -> c <> b -> buf_at s2 c = buf_at s1 c) ->
  wp (brelse b) (fun _ s' => idle s' /\ bs_disk s' = bs_disk s2 /\ bs_pid s' = bs_pid s) s2.
Proof.
  intros Hh Hc Hlk Hpid [v Hv] Hd Hoth. pose proof (holding_one _ _ _ _ Hh) as H1.
  destruct Hh as (Hi & Hn & [T1 T2 T3 T4 T5 T6 T7 T8 T9 T10 _ T11 T12 T13]).
  assert (Hq : quiet (bs_lk s2)) by (rewrite Hlk; apply (quiet_same (bs_lk s)); [done|apply Hi]).
  eapply wp_mono; [apply (release_wp_buf s2 b n); try done; rewrite Hv; simpl; (done || congruence || lia)|].
  intros [] s' (K1 & K2 & K3 & K4 & K5 & K6).
  assert (Hat : forall c, 0 <= c -> c <> b -> same_but_ref (buf_at s c) (buf_at s' c)).
  { intros c Hc0 Hne. rewrite K6, Hoth by done. by apply T9. }
  split; [|split; [done|congruence]]. split; [done|by apply (quiet_same (bs_lk s2))| |].
  - intros c Hcr. destruct (decide (c = b)) as [->|Hne].
    + rewrite K5, Hv. simpl. split; [done|lia].
    + rewrite (Hat c) by lia. apply (id_free _ Hi c Hcr).
  - intros c Hcr. destruct (decide (c = b)) as [->|Hne].
    + rewrite K5, Hv. done.
    + rewrite (Hat c) by lia. apply (id_dev _ Hi c Hcr).
Qed.

Lemma drop_wp s n b s1 : holding s n b s1 ->
  wp (brelse b) (fun _ s' => idle s' /\ bs_disk s' = bs_disk s /\ bs_pid s' = bs_pid s) s1.
Proof.
  intros Hh. pose proof (holding_data _ _ _ _ Hh) as Hd. pose proof Hh as (_ & _ & Hf).
  rewrite <- (ft_disk _ _ _ _ _ Hf). apply (idle_release s n b s1 s1 Hh); try done; [apply Hf| |].
  - exists (b_data (buf_at s1 b)). by destruct (buf_at s1 b).
  - by rewrite (ft_disk _ _ _ _ _ Hf).
Qed.

(** The disk after block [n] was overwritten. *)
Definition disk_upd (s : bst D) (n : Z) (v : list Z) (s' : bst D) : Prop :=
  forall m, sd_read (bs_disk s') m = if n =? m then v else sd_read (bs_disk s) m.

Lemma store_wp s n b s1 f : holding s n b s1 ->
  wp (setb b (fun x => set_data (f (b_data x)) x) ;; bwrite b ;; brelse b)
    (fun _ s' => idle s' /\ disk_upd s n (f (sd_read (bs_disk s) n)) s' /\ bs_pid s' = bs_pid s) s1.
Proof.
  intros Hh. pose proof (holding_data _ _ _ _ Hh) as Hd. pose proof (holding_one _ _ _ _ Hh) as H1.
  pose proof Hh as (Hi & Hn & [T1 T2 T3 T4 T5 T6 T7 T8 T9 T10 _ T11 T12 T13]). unfold setb. wp_step. wp_step.
  set (g := fun x => set_data (f (b_data x)) x). set (v := f (sd_read (bs_disk s) n)). set (s2 := upd_buf b g s1).
  assert (Hat : forall c, 0 <= c -> buf_at s2 c = if b =? c then set_data v (buf_at s1 b) else buf_at s1 c).
  { intros c Hc0. unfold s2. rewrite (buf_upd s1 b c g T1 Hc0 (ca_len _ _ T2)). unfold g, v. by rewrite Hd. }
  assert (Hb2 : buf_at s2 b = set_data v (buf_at s1 b)) by (rewrite Hat, Z.eqb_refl by lia; done).
  assert (Hc2 : cache_inv [] s2).
  { apply cache_upd; try done; [|simpl; lia|simpl; congruence]. intros i Hi' Hin _. apply T2; [done|done|by right]. }
  unfold bwrite, holdingsleep, getb, disk_write. wp_step. wp_go. rewrite Hb2. simpl b_locked. simpl b_pid.
  change (bs_pid s2) with (bs_pid s1). rewrite T6, T7, T11, Z.eqb_refl. simpl negb. cbv iota. wp_go.
  assert (Hc3 : cache_inv [] (Bst (bs_bufs s2) (bs_buckets s2) (sd_write (bs_disk s2) n (b_data (buf_at s2 b))) (bs_pid s2) (bs_lk s2))).
  { apply (cache_write s2 b n 0); rewrite ?Hb2; try done; [simpl; lia|]. intros c Hcr. rewrite Hat by lia.
    destruct (Z.eqb_spec b c) as [|Hne]; [done|]. rewrite (T9 c) by (lia || congruence). simpl. by apply (id_dev _ Hi). }
  rewrite Hb2 in Hc3 |- *. simpl b_blockno. simpl b_data in *. rewrite T4 in *. set (s3 := Bst _ _ _ _ _) in *.
  eapply wp_mono; [apply (idle_release s n b s1 s3 Hh Hc3); try done; [exists v; exact Hb2| |]|].
  - change (buf_at s3 b) with (buf_at s2 b). rewrite Hb2. simpl. by rewrite sd_read_write, Z.eqb_refl.
  - intros c Hc0 Hne. change (buf_at s3 c) with (buf_at s2 c). rewrite Hat by done. destruct (Z.eqb_spec b c); congruence.
  - intros [] s' (K1 & K2 & K3). split; [done|]. split; [|done]. intros m. rewrite K2. simpl. by rewrite sd_read_write, T12.
Qed.

Lemma peek_wp s n : idle s -> 0 <= n ->
  wp (peek 0 n) (fun v s' => v = sd_read (bs_disk s) n /\ idle s' /\ bs_disk s' = bs_disk s /\ bs_pid s' = bs_pid s) s.
Proof.
  intros Hi Hn. unfold peek, getb. wp_step. eapply wp_mono; [by apply hold_wp|]. intros b s1 Hh. wp_step. wp_step. wp_step.
  eapply wp_mono; [by apply (drop_wp s n)|]. intros [] s2 H2. wp_step. split; [|done]. by apply (holding_data s n b s1).
Qed.

Lemma poke_wp s n f : idle s -> 0 <= n ->
  wp (poke 0 n f) (fun _ s' => idle s' /\ disk_upd s n (f (sd_read (bs_disk s) n)) s' /\ bs_pid s' = bs_pid s) s.
Proof. intros Hi Hn. unfold poke. wp_step. eapply wp_mono; [by apply hold_wp|]. intros b s1 Hh. by apply store_wp. Qed.
End idle.

(** ** Bytes in a sector *)

Definition bytes_ok (l : list Z) : Prop := Forall (fun x => 0 <= x < 256) l.

Lemma bytes4_ok x : bytes_ok (bytes4 x).
Proof. repeat constructor; apply Z.mod_pos_bound; lia. Qed.

Lemma byte_at_range l i : bytes_ok l -> 0 <= byte_at l i < 256.
Proof.
  intros Hl. unfold byte_at. rewrite list_lookup_total_alt. destruct (l !! Z.to_nat i) as [x|] eqn:E; simpl; [|done].
  by apply (Forall_lookup_1 _ _ _ _ Hl E).
Qed.

Lemma word_at_range l i : bytes_ok l -> 0 <= word_at l i < 2 ^ 32.
Proof.
  intros Hl. unfold word_at, half_at. pose proof (byte_at_range l i Hl). pose proof (byte_at_range l (i + 1) Hl).
  pose proof (byte_at_range l (i + 2) Hl). pose proof (byte_at_range l (i + 2 + 1) Hl). lia.
Qed.

Lemma length_store_at i bs l : 0 <= i -> i + Z.of_nat (length bs) <= Z.of_nat (length l) -> length (store_at i bs l) = length l.
Proof. intros Hi Hl. unfold store_at. rewrite !length_app, length_take, length_drop. lia. Qed.

Lemma lookup_store_at i bs l k : 0 <= i -> i + Z.of_nat (length bs) <= Z.of_nat (length l) ->
  store_at i bs l !! k = if (i <=? Z.of_nat k) && (Z.of_nat k <? i + Z.of_nat (length bs)) then bs !! (k - Z.to_nat i)%nat else l !! k.
Proof.
  intros Hi Hl. unfold store_at. case_ranges.
  - rewrite lookup_app_r, length_take_le by (rewrite ?length_take; lia). by apply lookup_app_l; lia.
  - destruct (decide (Z.of_nat k < i)) as [Hk|Hk].
    + rewrite lookup_app_l by (rewrite length_take; lia). apply lookup_take_lt. lia.
    + rewrite lookup_app_r, length_take_le by (rewrite ?length_take; lia). rewrite lookup_app_r by lia.
      rewrite lookup_drop. f_equal. lia.
Qed.

Lemma byte_at_store i bs l k : 0 <= i -> i + Z.of_nat (length bs) <= Z.of_nat (length l) -> 0 <= k ->
  byte_at (store_at i bs l) k = if (i <=? k) && (k <? i + Z.of_nat (length bs)) then byte_at bs (k - i) else byte_at l k.
Proof.
  intros Hi Hl Hk. unfold byte_at. rewrite !list_lookup_total_alt, lookup_store_at, Z2Nat.id by lia.
  replace (Z.to_nat k - Z.to_nat i)%nat with (Z.to_nat (k - i)) by lia. by destruct (_ && _).
Qed.

Lemma bytes_ok_store i bs l : bytes_ok bs -> bytes_ok l -> bytes_ok (store_at i bs l).
Proof. intros Hb Hl. unfold store_at. apply Forall_app_2; [by apply Forall_take|]. apply Forall_app_2; [done|by apply Forall_drop]. Qed.

Lemma word_at_store_same i x l : 0 <= i -> i + 4 <= Z.of_nat (length l) -> 0 <= x < 2 ^ 32 ->
  word_at (store_at i (bytes4 x) l) i = x.
Proof.
  intros Hi Hl Hx. unfold word_at, half_at. rewrite !byte_at_store by (simpl; lia). change (Z.of_nat (length (bytes4 x))) with 4.
  case_ranges. replace (i - i) with 0 by lia. replace (i + 1 - i) with 1 by lia.
  replace (i + 2 - i) with 2 by lia. replace (i + 2 + 1 - i) with 3 by lia.
  change (x mod 2 ^ 8 + 256 * ((x / 256) mod 2 ^ 8) + 65536 * ((x / 65536) mod 2 ^ 8 + 256 * ((x / 65536 / 256) mod 2 ^ 8)) = x).
  dlia.
Qed.

Lemma word_at_store_other i bs l j : 0 <= i -> i + Z.of_nat (length bs) <= Z.of_nat (length l) -> 0 <= j ->
  (j + 4 <= i \/ i + Z.of_nat (length bs) <= j) -> word_at (store_at i bs l) j = word_at l j.
Proof. intros Hi Hl Hj Hd. unfold word_at, half_at. rewrite !byte_at_store by lia. by case_ranges. Qed.

(** ** Volumes

    The layout that [fat32_init] computes from a boot sector, for a volume
    whose first FAT has an entry for every cluster and whose sectors have
    32-bit numbers. *)
Record vol_ok (fat : fat_t) : Prop := {
  vo_sec : byts_per_sec (bpb fat) = BSIZE;
  vo_spc : 1 <= sec_per_clus (bpb fat) < 256;
  vo_bpc : byts_per_clus fat = sec_per_clus (bpb fat) * BSIZE;
  vo_rsvd : 0 <= rsvd_sec_cnt (bpb fat) < 65536;
  vo_sz : 0 <= fat_sz (bpb fat);
  vo_first : rsvd_sec_cnt (bpb fat) + fat_sz (bpb fat) <= first_data_sec fat;
  vo_cnt : 0 <= data_clus_cnt fat;
  vo_cover : data_clus_cnt fat + 2 <= 128 * fat_sz (bpb fat);
  vo_size : first_data_sec fat + data_clus_cnt fat * sec_per_clus (bpb fat) < 2 ^ 32;
  vo_max : data_clus_cnt fat + 2 <= FAT32_EOC;
}.

Definition clus_ok (fat : fat_t) (c : Z) : Prop := 2 <= c < data_clus_cnt fat + 2.

(** Every sector has 512 bytes. *)
Definition sectors_ok (rd : Z -> list Z) : Prop := forall n, 0 <= n -> length (rd n) = Z.to_nat BSIZE /\ bytes_ok (rd n).

(** The first FAT as a map, and the bytes of a cluster. *)
Definition fat_entry (fat : fat_t) (rd : Z -> list Z) (c : Z) : Z :=
  word_at (rd (rsvd_sec_cnt (bpb fat) + c / 128)) (4 * (c mod 128)).
Definition clus_sec (fat : fat_t) (c : Z) : Z := first_data_sec fat + (c - 2) * sec_per_clus (bpb fat).
Definition clus_data (fat : fat_t) (rd : Z -> list Z) (c : Z) : list Z :=
  concat (rd <$> seqZ (clus_sec fat c) (sec_per_clus (bpb fat))).

Section volume.
Context (fat : fat_t) (Hvol : vol_ok fat).

Lemma fat_sec_eq c : 0 <= c < data_clus_cnt fat + 2 ->
  fat_sec_of_clus fat c 1 = rsvd_sec_cnt (bpb fat) + c / 128 /\ fat_offset_of_clus fat c = 4 * (c mod 128).
Proof.
  intros Hc. destruct Hvol as [V1 V2 V3 V4 V5 V6 V7 V8 V9 V10]. unfold fat_sec_of_clus, fat_offset_of_clus.
  rewrite V1, Z.shiftl_mul_pow2, (u32_small (c * 2 ^ 2)) by (unfold FAT32_EOC in *; lia). unfold BSIZE.
  split; [rewrite u32_small; [|unfold FAT32_EOC in *; dlia]|]; dlia.
Qed.

Lemma fat_sec_bound c : 0 <= c < data_clus_cnt fat + 2 ->
  0 <= rsvd_sec_cnt (bpb fat) + c / 128 < first_data_sec fat.
Proof. intros Hc. destruct Hvol as [V1 V2 V3 V4 V5 V6 V7 V8 V9 V10]. dlia. Qed.

Lemma clus_sec_eq c : clus_ok fat c -> first_sec_of_clus fat c = clus_sec fat c.
Proof.
  unfold clus_ok. intros Hc. destruct Hvol as [V1 V2 V3 V4 V5 V6 V7 V8 V9 V10]. unfold first_sec_of_clus, clus_sec.
  assert (H1 : 0 <= (c - 2) * sec_per_clus (bpb fat) <= data_clus_cnt fat * sec_per_clus (bpb fat)) by nia.
  rewrite (u32_small (c - 2)) by (unfold FAT32_EOC in *; lia). rewrite u32_small; lia.
Qed.

Lemma clus_sec_bound c : clus_ok fat c ->
  first_data_sec fat <= clus_sec fat c /\ clus_sec fat c + sec_per_clus (bpb fat) < 2 ^ 32.
Proof.
  unfold clus_ok. intros Hc. destruct Hvol as [V1 V2 V3 V4 V5 V6 V7 V8 V9 V10]. unfold clus_sec.
  assert (H1 : 0 <= (c - 2) * sec_per_clus (bpb fat)) by nia.
  assert (H2 : (c - 2) * sec_per_clus (bpb fat) + sec_per_clus (bpb fat) <= data_clus_cnt fat * sec_per_clus (bpb fat)) by nia.
  lia.
Qed.

(** Clusters do not share sectors. *)
Lemma clus_sec_disjoint c c' k k' : clus_ok fat c -> clus_ok fat c' ->
  0 <= k < sec_per_clus (bpb fat) -> 0 <= k' < sec_per_clus (bpb fat) ->
  clus_sec fat c + k = clus_sec fat c' + k' -> c = c' /\ k = k'.
Proof.
  unfold clus_ok, clus_sec. intros Hc Hc' Hk Hk' He. set (n := sec_per_clus (bpb fat)) in *.
  destruct (Z.lt_trichotomy c c') as [Hlt|[->|Hlt]]; [|split; [done|lia]|].
  - assert (n <= (c' - c) * n) by nia. lia.
  - assert (n <= (c - c') * n) by nia. lia.
Qed.

Lemma first_data_pos : 0 <= first_data_sec fat.
Proof. destruct Hvol. lia. Qed.

(** A sector outside a cluster, or outside the FAT, is changed. *)
Lemma clus_data_ext rd rd' c : (forall k, 0 <= k < sec_per_clus (bpb fat) -> rd' (clus_sec fat c + k) = rd (clus_sec fat c + k)) ->
  clus_data fat rd' c = clus_data fat rd c.
Proof.
  intros Hext. unfold clus_data. f_equal. apply list_fmap_ext. intros i x Hx.
  apply lookup_seqZ in Hx as [-> Hi]. apply Hext. lia.
Qed.

Lemma fat_entry_range rd c : sectors_ok rd -> 0 <= c < data_clus_cnt fat + 2 -> 0 <= fat_entry fat rd c < 2 ^ 32.
Proof. intros Hrd Hc. apply word_at_range, Hrd. pose proof (fat_sec_bound c Hc). lia. Qed.

Lemma fat_entry_ext rd rd' c : 0 <= c < data_clus_cnt fat + 2 ->
  (forall n, 0 <= n < first_data_sec fat -> rd' n = rd n) -> fat_entry fat rd' c = fat_entry fat rd c.
Proof. intros Hc Hext. unfold fat_entry. by rewrite Hext by by apply fat_sec_bound. Qed.
End volume.

(** ** The FAT as a map *)

Section fs.
Context {CS D : Type} `{!EitherCopy CS} `{!Disk D} `{!DiskLaws D}.
Implicit Types s : fatst CS D.

Definition rdisk (s : fatst CS D) : Z -> list Z := sd_read (bs_disk (fs_b s)).

(** Between two calls: the cache is idle and the volume is well formed. *)
Record fs_ok (s : fatst CS D) : Prop := {
  fo_idle : idle (fs_b s);
  fo_vol : vol_ok (fs_fat s);
  fo_disk : sectors_ok (rdisk s);
}.

(** Only the cache and the disk changed. *)
Definition only_disk s s' : Prop := s' = lput (fs_b s') s /\ bs_pid (fs_b s') = bs_pid (fs_b s).

#[global] Instance only_disk_preorder : PreOrder only_disk.
Proof.
  split.
  - intros s. by destruct s.
  - intros s1 s2 s3 [A1 A2] [B1 B2]. split; [|congruence]. rewrite B1, A1. by destruct s1, s2, s3.
Qed.

(** Nothing but the state of the cache changed. *)
Definition same_disk s s' : Prop := fs_ok s' /\ only_disk s s' /\ rdisk s' = rdisk s.

(** Block [n] was overwritten with [v]. *)
Definition wrote (n : Z) (v : list Z) s s' : Prop :=
  fs_ok s' /\ only_disk s s' /\ forall m, rdisk s' m = if n =? m then v else rdisk s m.

Lemma fs_ok_put s b : fs_ok s -> idle b -> sectors_ok (sd_read (bs_disk b)) -> fs_ok (lput b s).
Proof. intros [] ? ?. by split. Qed.

Lemma sectors_ok_upd (rd rd' : Z -> list Z) n v : sectors_ok rd -> length v = Z.to_nat BSIZE -> bytes_ok v ->
  (forall m, rd' m = if n =? m then v else rd m) -> sectors_ok rd'.
Proof. intros Hrd Hl Hb Hrd' m Hm. rewrite Hrd'. destruct (n =? m); [done|by apply Hrd]. Qed.

Lemma fs_peek_wp s n : fs_ok s -> 0 <= n -> wp (bio (peek 0 n)) (fun v s' => v = rdisk s n /\ same_disk s s') s.
Proof.
  intros Hok Hn. apply wp_zoom. eapply wp_mono; [apply peek_wp; [apply Hok|done]|].
  intros v b' (-> & Hi & Hd & Hp). split; [done|].
  assert (Hr : rdisk (lput b' s) = rdisk s) by (unfold rdisk; simpl; by rewrite Hd).
  split; [|by split]. apply fs_ok_put; [done|done|]. change (sectors_ok (rdisk (lput b' s))). rewrite Hr. apply Hok.
Qed.

Lemma fs_poke_wp s n f : fs_ok s -> 0 <= n -> length (f (rdisk s n)) = Z.to_nat BSIZE -> bytes_ok (f (rdisk s n)) ->
  wp (bio (poke 0 n f)) (fun _ s' => wrote n (f (rdisk s n)) s s') s.
Proof.
  intros Hok Hn Hl Hb. apply wp_zoom. eapply wp_mono; [apply poke_wp; [apply Hok|done]|].
  intros [] b' (Hi & Hd & Hp). split; [|by split]. apply fs_ok_put; [done|done|].
  eapply sectors_ok_upd; [apply Hok|exact Hl|exact Hb|]. exact Hd.
Qed.

Lemma read_fat_wp s c : fs_ok s -> 0 <= c < data_clus_cnt (fs_fat s) + 2 ->
  wp (read_fat c) (fun v s' => v = fat_entry (fs_fat s) (rdisk s) c /\ same_disk s s') s.
Proof.
  intros Hok Hc. pose proof (fo_vol _ Hok) as Hv. pose proof (vo_max _ Hv). pose proof (vo_cnt _ Hv).
  unfold read_fat, the_fat. wp_step. wp_step.
  rewrite u32_small by (unfold FAT32_EOC in *; lia). case_bool as E; [lia|]. case_bool as E'; [lia|]. wp_step.
  destruct (fat_sec_eq _ Hv c Hc) as [-> ->]. pose proof (fat_sec_bound _ Hv c Hc).
  eapply wp_mono; [apply fs_peek_wp; [done|lia]|]. intros v s' [-> Hs]. by wp_step.
Qed.

(** The FAT with the entry of [c] replaced; data sectors are untouched. *)
Record fat_set (c v : Z) s s' : Prop := {
  fw_ok : fs_ok s';
  fw_only : only_disk s s';
  fw_entry c' : 0 <= c' < data_clus_cnt (fs_fat s) + 2 ->
    fat_entry (fs_fat s) (rdisk s') c' = if c =? c' then v else fat_entry (fs_fat s) (rdisk s) c';
  fw_data n : first_data_sec (fs_fat s) <= n -> rdisk s' n = rdisk s n;
}.

Lemma fat_store_wrote s s' c v : fs_ok s -> 0 <= c < data_clus_cnt (fs_fat s) + 2 -> 0 <= v < 2 ^ 32 ->
  wrote (rsvd_sec_cnt (bpb (fs_fat s)) + c / 128)
    (store_at (4 * (c mod 128)) (bytes4 v) (rdisk s (rsvd_sec_cnt (bpb (fs_fat s)) + c / 128))) s s' ->
  fat_set c v s s'.
Proof.
  intros Hok Hc Hv (Hok' & Ho & Hd). pose proof (fo_vol _ Hok) as Hvol. pose proof (fat_sec_bound _ Hvol c Hc) as Hb.
  destruct (fo_disk _ Hok (rsvd_sec_cnt (bpb (fs_fat s)) + c / 128)) as [Hlen _]; [lia|].
  split; [done|done| |].
  - intros c' Hc'. unfold fat_entry. rewrite Hd. destruct (Z.eqb_spec c c') as [->|Hne].
    + rewrite Z.eqb_refl. apply word_at_store_same; [|rewrite Hlen; unfold BSIZE|done]; dlia.
    + case_bool as E; [|done]. assert (c / 128 = c' / 128) as <- by lia.
      apply word_at_store_other; rewrite ?Hlen; unfold BSIZE; simpl length; dlia.
  - intros n Hn. rewrite Hd. case_bool as E; [lia|done].
Qed.

Lemma write_fat_wp s c v : fs_ok s -> 0 <= c < data_clus_cnt (fs_fat s) + 2 -> 0 <= v < 2 ^ 32 ->
  wp (write_fat c v) (fun r s' => r = 0 /\ fat_set c v s s') s.
Proof.
  intros Hok Hc Hv. pose proof (fo_vol _ Hok) as Hvol. pose proof (vo_max _ Hvol). pose proof (vo_cnt _ Hvol).
  unfold write_fat, the_fat. wp_step. wp_step. rewrite u32_small by (unfold FAT32_EOC in *; lia).
  case_bool as E; [lia|]. wp_step. destruct (fat_sec_eq _ Hvol c Hc) as [-> ->]. pose proof (fat_sec_bound _ Hvol c Hc) as Hb.
  destruct (fo_disk _ Hok (rsvd_sec_cnt (bpb (fs_fat s)) + c / 128)) as [Hlen Hbytes]; [lia|].
  eapply wp_mono; [apply fs_poke_wp; [done|lia| |]|].
  - rewrite length_store_at; rewrite ?Hlen; unfold BSIZE; simpl length; dlia.
  - apply bytes_ok_store; [apply bytes4_ok|done].
  - intros [] s' Hw. wp_step. split; [done|]. by apply fat_store_wrote.
Qed.

(** *** A buffer in use *)

Record in_use (n b : Z) s s1 : Prop := {
  he_ok : fs_ok s;
  he_hold : holding (fs_b s) n b (fs_b s1);
  he_put : s1 = lput (fs_b s1) s;
}.

Lemma fs_hold_wp s n : fs_ok s -> 0 <= n -> wp (bio (bread 0 n)) (fun b s1 => in_use n b s s1) s.
Proof.
  intros Hok Hn. apply wp_zoom. eapply wp_mono; [apply hold_wp; [apply Hok|done]|]. intros b b1 Hh. by split.
Qed.

Lemma in_use_data n b s s1 : in_use n b s s1 -> b_data (buf_at (fs_b s1) b) = rdisk s n.
Proof. intros [_ Hh _]. by apply holding_data in Hh. Qed.

Lemma fs_drop_wp n b s s1 : in_use n b s s1 -> wp (bio (brelse b)) (fun _ s' => same_disk s s') s1.
Proof.
  intros [Hok Hh Hp]. apply wp_zoom. eapply wp_mono; [by apply (drop_wp (fs_b s) n)|]. intros [] b' (Hi & Hd & Hpid).
  assert (Hs : lput b' s1 = lput b' s) by (rewrite Hp; by destruct s). rewrite Hs.
  assert (Hr : rdisk (lput b' s) = rdisk s) by (unfold rdisk; simpl; by rewrite Hd).
  split; [|by split]. apply fs_ok_put; [done|done|]. change (sectors_ok (rdisk (lput b' s))). rewrite Hr. apply Hok.
Qed.

Lemma fs_store_wp {A} n b s s1 f (rest : unit -> M (fatst CS D) A) Q : in_use n b s s1 ->
  length (f (rdisk s n)) = Z.to_nat BSIZE -> bytes_ok (f (rdisk s n)) ->
  (forall s', wrote n (f (rdisk s n)) s s' -> wp (rest tt) Q s') ->
  wp (bio (setb b (fun x => set_data (f (b_data x)) x)) ;; bio (bwrite b) ;; u <- bio (brelse b) ;; rest u) Q s1.
Proof.
  intros [Hok Hh Hp] Hl Hb Hrest. pose proof (store_wp _ _ _ _ f Hh) as Hw.
  apply wp_bind, wp_zoom. apply wp_bind_inv in Hw. eapply wp_mono; [exact Hw|]. intros [] b2 Hw2.
  apply wp_bind, wp_zoom. apply wp_bind_inv in Hw2. eapply wp_mono; [exact Hw2|]. intros [] b3 Hw3.
  apply wp_bind, wp_zoom. eapply wp_mono; [exact Hw3|]. intros [] b' (Hi & Hd & Hpid). apply Hrest.
  assert (Hs : lput b' (lput b3 (lput b2 s1)) = lput b' s) by (rewrite Hp; by destruct s). rewrite Hs.
  split; [|by split]. apply fs_ok_put; [done|done|]. eapply sectors_ok_upd; [apply Hok|exact Hl|exact Hb|]. exact Hd.
Qed.

(** *** Allocation *)

Definition zero_sector : list Z := replicate (Z.to_nat BSIZE) 0.

Lemma zero_sectors_wp n : forall s sec, fs_ok s -> 0 <= sec -> sec + Z.of_nat n < 2 ^ 32 ->
  wp (zero_sectors n sec) (fun _ s' => fs_ok s' /\ only_disk s s' /\
    forall m, rdisk s' m = if (sec <=? m) && (m <? sec + Z.of_nat n) then zero_sector else rdisk s m) s.
Proof.
  induction n as [|n IH]; intros s sec Hok Hs Hn.
  - cbn [zero_sectors]. wp_step. split; [done|]. split; [reflexivity|]. intros m. by case_ranges.
  - cbn [zero_sectors]. wp_step. eapply wp_mono; [apply fs_poke_wp; try done|].
    { apply Forall_replicate. lia. }
    intros [] s1 (Hok1 & Ho1 & Hd1). rewrite u32_small by lia.
    eapply wp_mono; [apply IH; [done|lia|lia]|]. intros [] s2 (Hok2 & Ho2 & Hd2).
    split; [done|]. split; [by etrans|]. intros m. rewrite Hd2, Hd1. by case_ranges.
Qed.

Lemma clus_data_zero fat rd c : 0 <= sec_per_clus (bpb fat) ->
  (forall k, 0 <= k < sec_per_clus (bpb fat) -> rd (clus_sec fat c + k) = zero_sector) ->
  clus_data fat rd c = replicate (Z.to_nat (sec_per_clus (bpb fat) * BSIZE)) 0.
Proof.
  intros Hn Hz. unfold clus_data.
  assert (Hl : forall (l : list Z), (forall x, x ∈ l -> rd x = zero_sector) ->
    concat (rd <$> l) = replicate (length l * Z.to_nat BSIZE) 0).
  { induction l as [|x l IH]; intros Hx; [done|]. cbn [fmap list_fmap concat length]. fold (rd <$> l).
    rewrite IH by (intros; apply Hx; by right). rewrite Hx by left. unfold zero_sector. rewrite <- replicate_add. f_equal; lia. }
  rewrite Hl.
  - rewrite length_seqZ. f_equal. lia.
  - intros x Hx. apply elem_of_seqZ in Hx. replace x with (clus_sec fat c + (x - clus_sec fat c)) by lia. apply Hz. lia.
Qed.

Lemma find_zero_spec n data : forall j0, match find_zero n data j0 with
  | Some j => j0 <= j < j0 + Z.of_nat n /\ word_at data (4 * j) = 0 /\ forall k, j0 <= k < j -> word_at data (4 * k) <> 0
  | None => forall k, j0 <= k < j0 + Z.of_nat n -> word_at data (4 * k) <> 0
  end.
Proof.
  induction n as [|n IH]; intros j0; simpl; [lia|]. destruct (Z.eqb_spec (word_at data (4 * j0)) 0) as [E|E].
  - split; [lia|]. split; [done|lia].
  - specialize (IH (j0 + 1)). destruct (find_zero n data (j0 + 1)) as [j|].
    + destruct IH as (H1 & H2 & H3). split; [lia|]. split; [done|]. intros k Hk.
      destruct (Z.eq_dec k j0) as [->|]; [done|]. apply H3. lia.
    + intros k Hk. destruct (Z.eq_dec k j0) as [->|]; [done|]. apply IH. lia.
Qed.

(** The first free cluster became the end of a chain, and its sectors zero. *)
Record allocated (c : Z) s s' : Prop := {
  al_ok : fs_ok s';
  al_only : only_disk s s';
  al_range : clus_ok (fs_fat s) c;
  al_free : fat_entry (fs_fat s) (rdisk s) c = 0;
  al_first c' : 0 <= c' < c -> fat_entry (fs_fat s) (rdisk s) c' <> 0;
  al_entry c' : 0 <= c' < data_clus_cnt (fs_fat s) + 2 ->
    fat_entry (fs_fat s) (rdisk s') c' = if c =? c' then FAT32_EOC + 7 else fat_entry (fs_fat s) (rdisk s) c';
  al_zero : clus_data (fs_fat s) (rdisk s') c = replicate (Z.to_nat (byts_per_clus (fs_fat s))) 0;
  al_data c' : clus_ok (fs_fat s) c' -> c' <> c -> clus_data (fs_fat s) (rdisk s') c' = clus_data (fs_fat s) (rdisk s) c';
}.

(** Some cluster is free, and the two reserved entries are not 0. *)
Definition has_free s : Prop := fat_entry (fs_fat s) (rdisk s) 0 <> 0 /\ fat_entry (fs_fat s) (rdisk s) 1 <> 0 /\
  exists c, clus_ok (fs_fat s) c /\ fat_entry (fs_fat s) (rdisk s) c = 0.

Lemma only_disk_fat s s' : only_disk s s' -> fs_fat s' = fs_fat s.
Proof. intros [-> _]. done. Qed.

Lemma zero_clus_wp s c : fs_ok s -> clus_ok (fs_fat s) c ->
  wp (zero_clus c) (fun _ s' => fs_ok s' /\ only_disk s s' /\
    forall m, rdisk s' m = if (clus_sec (fs_fat s) c <=? m) && (m <? clus_sec (fs_fat s) c + sec_per_clus (bpb (fs_fat s)))
                           then zero_sector else rdisk s m) s.
Proof.
  intros Hok Hc. pose proof (fo_vol _ Hok) as Hv. pose proof (clus_sec_bound _ Hv c Hc). pose proof (vo_spc _ Hv).
  pose proof (first_data_pos _ Hv). unfold zero_clus, the_fat. wp_step. wp_step. rewrite (clus_sec_eq _ Hv c Hc).
  eapply wp_mono; [apply zero_sectors_wp; [done|lia|lia]|]. by rewrite Z2Nat.id by lia.
Qed.

(** The cluster taken in sector [i] of the FAT. *)
Lemma alloc_found s s1 s2 c : fs_ok s -> clus_ok (fs_fat s) c -> fat_entry (fs_fat s) (rdisk s) c = 0 ->
  (forall c', 0 <= c' < c -> fat_entry (fs_fat s) (rdisk s) c' <> 0) -> fat_set c (FAT32_EOC + 7) s s1 ->
  fs_ok s2 -> only_disk s1 s2 ->
  (forall m, rdisk s2 m = if (clus_sec (fs_fat s) c <=? m) && (m <? clus_sec (fs_fat s) c + sec_per_clus (bpb (fs_fat s)))
                           then zero_sector else rdisk s1 m) ->
  allocated c s s2.
Proof.
  intros Hok Hc Hfree Hfirst [W1 W2 W3 W4] Hok2 Ho Hd. pose proof (fo_vol _ Hok) as Hv. pose proof (vo_spc _ Hv).
  pose proof (clus_sec_bound _ Hv c Hc). split; try done; [by etrans| | |].
  - intros c' Hc'. rewrite <- W3 by done. apply (fat_entry_ext _ Hv); [done|]. intros n Hn. rewrite Hd. by case_ranges.
  - rewrite (vo_bpc _ Hv). apply clus_data_zero; [lia|]. intros k Hk. rewrite Hd. by case_ranges.
  - intros c' Hc' Hne. pose proof (clus_sec_bound _ Hv c' Hc'). apply clus_data_ext. intros k Hk. rewrite Hd.
    destruct (range_spec (clus_sec (fs_fat s) c) (clus_sec (fs_fat s) c + sec_per_clus (bpb (fs_fat s))) (clus_sec (fs_fat s) c' + k)) as [Hin|_].
    + destruct (clus_sec_disjoint (fs_fat s) c' c k (clus_sec (fs_fat s) c' + k - clus_sec (fs_fat s) c)) as [? _]; try done; lia.
    + apply W4. lia.
Qed.

Lemma alloc_scan_wp n : forall s i, fs_ok s -> 0 <= i -> i + Z.of_nat n = fat_sz (bpb (fs_fat s)) -> 
  (forall c', 0 <= c' < 128 * i -> fat_entry (fs_fat s) (rdisk s) c' <> 0) -> has_free s ->
  wp (alloc_scan n 0 i (rsvd_sec_cnt (bpb (fs_fat s)) + i) 128) (fun c s' => allocated c s s') s.
Proof.
  induction n as [|n IH]; intros s i Hok Hi Hn Hbusy (H0 & H1 & c0 & Hc0 & Hf0); pose proof (fo_vol _ Hok) as Hv;
    pose proof Hv as [V1 V2 V3 V4 V5 V6 V7 V8 V9 V10].
  { exfalso. apply (Hbusy c0); [|done]. unfold clus_ok in Hc0. lia. }
  cbn [alloc_scan]. wp_step. eapply wp_mono; [apply fs_hold_wp; [done|lia]|]. intros b s1 Hh.
  wp_step. apply wp_zoom. unfold getb. wp_step. cbv beta. change (lget s1) with (fs_b s1). rewrite (in_use_data _ _ _ _ Hh).
  assert (Hs1 : lput (fs_b s1) s1 = s1) by by destruct s1. rewrite Hs1.
  set (data := rdisk s (rsvd_sec_cnt (bpb (fs_fat s)) + i)).
  assert (Hent : forall j, 0 <= j < 128 -> fat_entry (fs_fat s) (rdisk s) (128 * i + j) = word_at data (4 * j)).
  { intros j Hj. unfold fat_entry, data. f_equal; [f_equal|]; dlia. }
  pose proof (find_zero_spec (Z.to_nat 128) data 0) as Hfz.
  destruct (find_zero (Z.to_nat 128) data 0) as [j|].
  - destruct Hfz as (Hj & Hz & Hnz). set (c := 128 * i + j).
    assert (Hfirst : forall c', 0 <= c' < c -> fat_entry (fs_fat s) (rdisk s) c' <> 0).
    { intros c' Hc'. destruct (decide (c' < 128 * i)) as [|Hge]; [apply Hbusy; lia|].
      replace c' with (128 * i + (c' - 128 * i)) by lia. rewrite Hent by (unfold c in *; lia). apply Hnz. unfold c in *. lia. }
    assert (Hcf : fat_entry (fs_fat s) (rdisk s) c = 0) by (unfold c; rewrite Hent by lia; done).
    assert (Hc : clus_ok (fs_fat s) c).
    { unfold clus_ok in *. destruct (decide (c <= 1)) as [Hle|]; [exfalso; assert (c = 0 \/ c = 1) as [E|E] by (unfold c in *; lia); congruence|].
      destruct (decide (c0 < c)) as [Hlt|]; [by destruct (Hfirst c0); [lia|]|lia]. }
    assert (Hcr : 0 <= c < data_clus_cnt (fs_fat s) + 2) by (unfold clus_ok in Hc; lia).
    destruct (fo_disk _ Hok (rsvd_sec_cnt (bpb (fs_fat s)) + i)) as [Hlen Hbytes]; [lia|].
    apply (fs_store_wp _ _ _ _ (store_at (4 * j) (bytes4 (FAT32_EOC + 7))) _ _ Hh).
    + rewrite length_store_at; rewrite ?Hlen; unfold BSIZE; simpl length; lia.
    + apply bytes_ok_store; [apply bytes4_ok|done].
    + intros s2 Hw. replace (u32 (i * 128 + j)) with c by (rewrite u32_small; unfold c, FAT32_EOC in *; lia).
      assert (Hset : fat_set c (FAT32_EOC + 7) s s2).
      { apply fat_store_wrote; [done|done|unfold FAT32_EOC; lia|].
        replace (c / 128) with i by (unfold c; dlia). by replace (c mod 128) with j by (unfold c; dlia). }
      assert (Hfat : fs_fat s2 = fs_fat s) by apply only_disk_fat, Hset.
      wp_step. eapply wp_mono; [apply (zero_clus_wp s2); [apply Hset|by rewrite Hfat]|]. rewrite Hfat.
      intros [] s3 (Hok3 & Ho3 & Hd3). wp_step. by apply (alloc_found s s2 s3).
  - wp_step. eapply wp_mono; [exact (fs_drop_wp _ _ s s1 Hh)|]. intros [] s2 (Hok2 & Ho2 & Hd2).
    pose proof (only_disk_fat _ _ Ho2) as Hfat. rewrite u32_small by lia.
    replace (rsvd_sec_cnt (bpb (fs_fat s)) + i + 1) with (rsvd_sec_cnt (bpb (fs_fat s2)) + (i + 1)) by (rewrite Hfat; lia).
    eapply wp_mono; [apply IH; [done|lia|rewrite Hfat; lia| |]|].
    + intros c' Hc'. rewrite Hfat, Hd2. destruct (decide (c' < 128 * i)) as [|Hge]; [apply Hbusy; lia|].
      replace c' with (128 * i + (c' - 128 * i)) by lia. rewrite Hent by lia. apply Hfz. lia.
    + unfold has_free. rewrite Hfat, Hd2. eauto.
    + intros c s' [A1 A2 A3 A4 A5 A6 A7 A8]. rewrite Hfat, Hd2 in *. split; try done. by etrans.
Qed.

Lemma alloc_clus_wp s : fs_ok s -> has_free s -> wp (alloc_clus 0) (fun c s' => allocated c s s') s.
Proof.
  intros Hok Hf. pose proof (fo_vol _ Hok) as [V1 V2 V3 V4 V5 V6 V7 V8 V9 V10].
  unfold alloc_clus, the_fat. wp_step. wp_step. rewrite V1. change (BSIZE / 4) with 128.
  replace (rsvd_sec_cnt (bpb (fs_fat s))) with (rsvd_sec_cnt (bpb (fs_fat s)) + 0) by lia.
  apply alloc_scan_wp; [done|lia|lia|lia|done].
Qed.

(** [alloc_clus] takes the first free cluster.  On a volume with a free
    cluster it ends without the panic and returns the free cluster of lowest
    number; the cluster's FAT entry becomes an end mark, its sectors zero, and
    every other FAT entry and cluster keeps its contents. *)
Theorem alloc_clus_first_free s :
  fs_ok s -> has_free s -> exists c s', alloc_clus 0 s = Ok c s' /\ allocated c s s'.
Proof. intros Hok Hf. exact (wp_Ok _ _ _ (alloc_clus_wp s Hok Hf)). Qed.
End fs.
