(* ===== verification/FatChain.v ===== *)
(** * Cluster chains

    The clusters of a file follow the entries of the FAT from its first
    cluster to an entry that marks the end.  [reloc_clus] finds the cluster of
    an offset and extends the chain where it may; [etrunc] frees the chain. *)

From S2P Require Import Prelude Riscv Memory Spinlock Bio BioProps Fat32 FatDisk.
Import Hart.

(** Following [next] from [c] visits the clusters [l] and then meets the end
    mark; [reloc_clus] compares it as an [int]. *)
Fixpoint chain_from (next : Z -> Z) (c : Z) (l : list Z) : Prop :=
  match l with
  | [] => FAT32_EOC <= c < 2 ^ 31
  | x :: l' => c = x /\ chain_from next (next x) l'
  end.

Lemma chain_from_ext next next' l : forall c, (forall x, x ∈ l -> next' x = next x) ->
  chain_from next c l -> chain_from next' c l.
Proof.
  induction l as [|x l IH]; intros c Hext; [done|]. intros [-> Hc]. split; [done|].
  rewrite Hext by left. apply IH; [|done]. intros y Hy. apply Hext. by right.
Qed.

Lemma chain_from_next next l : forall c k x, chain_from next c l -> l !! k = Some x ->
  match l !! S k with Some y => next x = y | None => FAT32_EOC <= next x < 2 ^ 31 end.
Proof.
  induction l as [|z l IH]; intros c k x; [done|]. intros [-> Hc] Hk. destruct k as [|k]; simpl in *.
  - injection Hk as ->. destruct l as [|y l]; [done|]. by destruct Hc.
  - by apply (IH (next z)).
Qed.

(** A chain with one more cluster. *)
Lemma chain_from_snoc next next' l : forall c k last x, chain_from next c l -> length l = S k -> l !! k = Some last ->
  NoDup l -> x ∉ l -> (forall y, y ∈ l -> y <> last -> next' y = next y) -> next' last = x -> FAT32_EOC <= next' x < 2 ^ 31 ->
  chain_from next' c (l ++ [x]).
Proof.
  induction l as [|z l IH]; intros c k last x Hc Hlen Hlast Hnd Hx Hext Hl Hend; [done|].
  destruct Hc as [-> Hc]. split; [done|]. apply NoDup_cons in Hnd as [Hz Hnd]. destruct l as [|y l].
  - destruct k; [|done]. injection Hlast as ->. by rewrite Hl.
  - destruct k as [|k]; [done|]. assert (z <> last) by (intros ->; apply Hz; by eapply list_elem_of_lookup_2).
    rewrite Hext by (done || left). apply (IH _ k last x); try done; [simpl in *; lia| |].
    + intros Hin. apply Hx. by right.
    + intros w Hw. apply Hext. by right.
Qed.

Section fs.
Context {CS D : Type} `{!EitherCopy CS} `{!Disk D} `{!DiskLaws D}.
Implicit Types s : fatst CS D.

Definition fate s (c : Z) : Z := fat_entry (fs_fat s) (rdisk s) c.

(** [l] are the clusters from [c] on. *)
Record clusters s (c : Z) (l : list Z) : Prop := {
  cl_ok x : x ∈ l -> clus_ok (fs_fat s) x;
  cl_nodup : NoDup l;
  cl_chain : chain_from (fate s) c l;
}.

Lemma clusters_length s c l : vol_ok (fs_fat s) -> clusters s c l -> (length l <= Z.to_nat (data_clus_cnt (fs_fat s)))%nat.
Proof.
  intros Hv [H1 H2 _]. rewrite <- (length_seqZ 2 (data_clus_cnt (fs_fat s))). apply submseteq_length, NoDup_submseteq; [done|].
  intros x Hx. apply elem_of_seqZ. apply H1 in Hx. unfold clus_ok in Hx. lia.
Qed.

Lemma clus_ok_range fat c : clus_ok fat c -> 0 <= c < data_clus_cnt fat + 2.
Proof. unfold clus_ok. lia. Qed.

(** ** Truncation *)

(** The entries of the clusters [l] became 0. *)
Record freed (l : list Z) s s' : Prop := {
  fr_ok : fs_ok s';
  fr_only : only_disk s s';
  fr_entry c : 0 <= c < data_clus_cnt (fs_fat s) + 2 -> fate s' c = if bool_decide (c ∈ l) then 0 else fate s c;
  fr_data n : first_data_sec (fs_fat s) <= n -> rdisk s' n = rdisk s n;
}.

Lemma etrunc_loop_wp l : forall s fuel c, fs_ok s -> clusters s c l -> (length l < fuel)%nat ->
  wp (loop fuel etrunc_body c) (fun _ s' => freed l s s') s.
Proof.
  induction l as [|x l IH]; intros s fuel c Hok [C1 C2 C3] Hf; (destruct fuel as [|fuel]; [simpl in Hf; lia|]);
    apply wp_loop_S; unfold etrunc_body.
  - simpl in C3. destruct (range_spec 2 FAT32_EOC c) as [|_]; [lia|]. wp_go. split; [done|reflexivity| |done].
    intros c' _. by rewrite bool_decide_false by apply not_elem_of_nil.
  - destruct C3 as [-> C3]. assert (Hx : clus_ok (fs_fat s) x) by (apply C1; left). pose proof (clus_ok_range _ _ Hx) as Hxr.
    pose proof (vo_max _ (fo_vol _ Hok)). apply NoDup_cons in C2 as [C2 C2'].
    destruct (range_spec 2 FAT32_EOC x) as [_|Hn]; [|unfold clus_ok in Hx; lia].
    wp_step. eapply wp_mono; [by apply read_fat_wp|]. intros v s1 (-> & Hok1 & Ho1 & Hd1).
    pose proof (only_disk_fat _ _ Ho1) as Hfat1. unfold free_clus. wp_step. wp_step.
    eapply wp_mono; [apply write_fat_wp; [done|by rewrite Hfat1|lia]|]. rewrite ?Hfat1.
    intros r s2 [-> [W1 W2 W3 W4]]. pose proof (only_disk_fat _ _ W2) as Hfat2. rewrite Hfat1, Hd1 in *. wp_step. wp_step.
    assert (He2 : forall c', 0 <= c' < data_clus_cnt (fs_fat s) + 2 -> fate s2 c' = if x =? c' then 0 else fate s c').
    { intros c' Hc'. unfold fate. rewrite Hfat2. by apply W3. }
    eapply wp_mono; [apply (IH s2)|].
    + done.
    + split; [intros y Hy; rewrite Hfat2; apply C1; by right|done|]. apply (chain_from_ext (fate s)); [|done].
      intros y Hy. rewrite He2 by (apply clus_ok_range, C1; by right). by destruct (Z.eqb_spec x y) as [->|].
    + simpl in Hf. lia.
    + intros [] s3 [F1 F2 F3 F4]. rewrite Hfat2 in *. split; [done|etrans; [exact Ho1|]; etrans; [exact W2|exact F2]| |].
      * intros c' Hc'. rewrite F3, He2 by done. destruct (Z.eqb_spec x c') as [->|Hne].
        -- rewrite (bool_decide_true (c' ∈ c' :: l)) by left. by case_match.
        -- rewrite (bool_decide_ext (c' ∈ x :: l) (c' ∈ l)); [done|]. set_solver.
      * intros n Hn. by rewrite F4, W4.
Qed.

(** ** Seeking *)

Lemma ent_upd s e f : (Z.to_nat e < length (fs_ents s))%nat -> ent (upd_ent e f s) e = f (ent s e).
Proof. intros He. unfold ent at 1, upd_ent. simpl. by apply list_lookup_total_insert_eq. Qed.

Lemma ent_upd_ne s e f e' : 0 <= e -> 0 <= e' -> e <> e' -> ent (upd_ent e f s) e' = ent s e'.
Proof. intros H1 H2 Hne. unfold ent at 1, upd_ent. simpl. apply list_lookup_total_insert_ne. lia. Qed.

Lemma upd_ent_twice s e f g : (Z.to_nat e < length (fs_ents s))%nat ->
  upd_ent e f (upd_ent e g s) = upd_ent e (fun x => f (g x)) s.
Proof. intros He. unfold upd_ent at 1. rewrite ent_upd by done. unfold upd_ent. simpl. by rewrite list_insert_insert_eq. Qed.

Lemma upd_ent_id s e f : (Z.to_nat e < length (fs_ents s))%nat -> f (ent s e) = ent s e -> upd_ent e f s = s.
Proof.
  intros He Hf. unfold upd_ent. rewrite Hf. destruct s as [cp b fat ents lru]. simpl. f_equal.
  apply list_insert_id. unfold ent. simpl in *. by apply list_lookup_lookup_total_lt.
Qed.

Lemma upd_ent_put s e f b : upd_ent e f (lput b s) = lput b (upd_ent e f s).
Proof. done. Qed.

Lemma only_disk_ents s s' : only_disk s s' -> fs_ents s' = fs_ents s.
Proof. intros [-> _]. done. Qed.

Lemma only_disk_ent s s' e : only_disk s s' -> ent s' e = ent s e.
Proof. intros [-> _]. done. Qed.

Lemma only_disk_upd s s' e f : only_disk s s' -> only_disk (upd_ent e f s) (upd_ent e f s').
Proof. intros [E Hp]. split; [|done]. rewrite E. by destruct s. Qed.

Lemma fs_ok_upd s e f : fs_ok s -> fs_ok (upd_ent e f s).
Proof. intros []. by split. Qed.

(** Entry [e] is positioned at cluster number [d_clus_cnt] of its chain. *)
Record at_file s (e : Z) (l : list Z) : Prop := {
  af_e : (Z.to_nat e < length (fs_ents s))%nat;
  af_cl : clusters s (d_first_clus (ent s e)) l;
  af_pos : 0 <= d_clus_cnt (ent s e);
  af_cur : l !! Z.to_nat (d_clus_cnt (ent s e)) = Some (d_cur_clus (ent s e));
}.

Definition seek (k c : Z) (x : dirent) : dirent := set_d_clus_cnt k (set_d_cur_clus c x).

(** Only the position of [e] changed. *)
Definition moved (e : Z) (l : list Z) (k : Z) s s' : Prop :=
  fs_ok s' /\ rdisk s' = rdisk s /\ only_disk (upd_ent e (seek k (l !!! Z.to_nat k)) s) s'.

Lemma af_upd s e l f : (forall x, d_first_clus (f x) = d_first_clus x) ->
  0 <= d_clus_cnt (f (ent s e)) -> l !! Z.to_nat (d_clus_cnt (f (ent s e))) = Some (d_cur_clus (f (ent s e))) ->
  at_file s e l -> at_file (upd_ent e f s) e l.
Proof.
  intros Hf H1 H2 [A1 A2 A3 A4]. split; rewrite ?ent_upd by done; try done.
  - simpl. by rewrite length_insert.
  - rewrite Hf. by destruct A2.
Qed.

Lemma clusters_disk s s' c l : fs_fat s' = fs_fat s -> (forall x, x ∈ l -> fate s' x = fate s x) ->
  clusters s c l -> clusters s' c l.
Proof.
  intros Hfat Hn [C1 C2 C3]. split; [by rewrite Hfat|done|]. by apply (chain_from_ext (fate s)).
Qed.

Lemma af_disk s s' e l : only_disk s s' -> (forall x, x ∈ l -> fate s' x = fate s x) -> at_file s e l -> at_file s' e l.
Proof.
  intros Ho Hn [A1 A2 A3 A4]. split; rewrite ?(only_disk_ent _ _ e Ho), ?(only_disk_ents _ _ Ho); try done.
  apply (clusters_disk s); try done. by apply only_disk_fat.
Qed.

Lemma fate_same s s' x : fs_fat s' = fs_fat s -> rdisk s' = rdisk s -> fate s' x = fate s x.
Proof. intros Hf Hd. unfold fate. by rewrite Hf, Hd. Qed.

Lemma lookup_total_Some (l : list Z) k : 0 <= k < Z.of_nat (length l) -> l !! Z.to_nat k = Some (l !!! Z.to_nat k).
Proof. intros Hk. apply list_lookup_lookup_total_lt. lia. Qed.

Lemma moved_at e l k s s' : at_file s e l -> moved e l k s s' -> 0 <= k < Z.of_nat (length l) ->
  at_file s' e l /\ d_clus_cnt (ent s' e) = k /\ d_cur_clus (ent s' e) = l !!! Z.to_nat k.
Proof.
  intros Ha (Hok & Hd & Ho) Hk. pose proof (af_e _ _ _ Ha) as He. split.
  - apply (af_disk (upd_ent e (seek k (l !!! Z.to_nat k)) s)); [done| |].
    + intros x _. apply fate_same; [by rewrite (only_disk_fat _ _ Ho)|exact Hd].
    + apply af_upd; [done|simpl; lia|simpl; by apply lookup_total_Some|done].
  - rewrite !(only_disk_ent _ _ e Ho), !ent_upd by done. done.
Qed.

Lemma moved_refl e l s : fs_ok s -> at_file s e l -> moved e l (d_clus_cnt (ent s e)) s s.
Proof.
  intros Hok [A1 A2 A3 A4]. split; [done|]. split; [done|]. rewrite upd_ent_id; [reflexivity|done|].
  unfold seek. rewrite (list_lookup_total_correct _ _ _ A4). by destruct (ent s e).
Qed.

Lemma moved_trans e l j k s s1 s2 : (Z.to_nat e < length (fs_ents s))%nat ->
  moved e l j s s1 -> moved e l k s1 s2 -> moved e l k s s2.
Proof.
  intros He (Hok1 & Hd1 & Ho1) (Hok2 & Hd2 & Ho2). split; [done|]. split; [congruence|].
  pose proof (only_disk_upd _ _ e (seek k (l !!! Z.to_nat k)) Ho1) as H12. rewrite upd_ent_twice in H12 by done.
  etrans; [exact H12|exact Ho2].
Qed.

(** A step of the position after a read of the FAT. *)
Lemma moved_step e l k s s1 f : same_disk s s1 -> f (ent s e) = seek k (l !!! Z.to_nat k) (ent s e) -> moved e l k s (upd_ent e f s1).
Proof.
  intros (Hok & Ho & Hd) Hf. split; [by apply fs_ok_upd|]. split; [done|].
  apply (only_disk_upd _ _ e f) in Ho. unfold upd_ent at 1 in Ho. rewrite Hf in Ho. exact Ho.
Qed.

(** What a read of the FAT at the position gives. *)
Lemma next_of s e l : at_file s e l -> clus_ok (fs_fat s) (d_cur_clus (ent s e)) /\
  match l !! S (Z.to_nat (d_clus_cnt (ent s e))) with
  | Some y => fate s (d_cur_clus (ent s e)) = y /\ clus_ok (fs_fat s) y
  | None => FAT32_EOC <= fate s (d_cur_clus (ent s e)) < 2 ^ 31
  end.
Proof.
  intros [A1 [C1 C2 C3] A3 A4]. split; [apply C1; by eapply list_elem_of_lookup_2|].
  pose proof (chain_from_next _ _ _ _ _ C3 A4) as Hn. destruct (l !! S _) as [y|] eqn:E; [|done].
  split; [done|]. apply C1. by eapply list_elem_of_lookup_2.
Qed.

Lemma clus_ok_int fat c : vol_ok fat -> clus_ok fat c -> s32 c = c /\ u32 c = c /\ c < FAT32_EOC.
Proof.
  intros Hv Hc. pose proof (vo_max _ Hv). unfold clus_ok in Hc. rewrite s32_small, u32_small by (unfold FAT32_EOC in *; lia).
  split; [done|]. split; [done|lia].
Qed.

Lemma succ_pos (l : list Z) k y : 0 <= k -> l !! S (Z.to_nat k) = Some y -> y = l !!! Z.to_nat (k + 1).
Proof. intros Hk Hy. replace (Z.to_nat (k + 1)) with (S (Z.to_nat k)) by lia. by rewrite (list_lookup_total_correct _ _ _ Hy). Qed.

(** One step of the first loop within the chain. *)
Lemma forward_step_wp e l K alloc s : fs_ok s -> at_file s e l ->
  d_clus_cnt (ent s e) < K < 2 ^ 31 -> d_clus_cnt (ent s e) + 1 < Z.of_nat (length l) ->
  wp (reloc_forward e K alloc tt) (fun y s' => y = inl tt /\ moved e l (d_clus_cnt (ent s e) + 1) s s') s.
Proof.
  intros Hok Ha HK Hl. pose proof (next_of _ _ _ Ha) as [Hc Hn]. pose proof (af_pos _ _ _ Ha) as Hp.
  pose proof (fo_vol _ Hok) as Hv. unfold reloc_forward, gete, sete. wp_step. wp_step. rewrite u32_small by lia.
  case_bool as E; [|lia]. destruct (l !! S _) as [y|] eqn:Ey; [|apply lookup_ge_None in Ey; lia].
  destruct Hn as [Hn Hy]. wp_step. eapply wp_mono; [apply read_fat_wp; [done|by apply clus_ok_range]|].
  intros v s1 [-> Hs1]. cbv zeta. fold (fate s (d_cur_clus (ent s e))). rewrite Hn.
  destruct (clus_ok_int _ _ Hv Hy) as (-> & -> & Hlt). case_bool as E2; [lia|]. wp_go. split; [done|].
  apply moved_step; [done|]. unfold seek. simpl. rewrite u32_small by lia. by rewrite <- (succ_pos l _ y Hp Ey).
Qed.

(** The first loop within the chain, whether or not it may extend it. *)
Lemma forward_wp e l K alloc : 0 <= K < Z.of_nat (length l) -> K < 2 ^ 31 -> forall m fuel s,
  fs_ok s -> at_file s e l -> d_clus_cnt (ent s e) + Z.of_nat m = K -> (m < fuel)%nat ->
  wp (loop fuel (reloc_forward e K alloc) tt) (fun r s' => r = true /\ moved e l K s s') s.
Proof.
  intros HK HK2. induction m as [|m IH]; intros fuel s Hok Ha Hm Hf; (destruct fuel as [|fuel]; [lia|]); apply wp_loop_S.
  - unfold reloc_forward, gete. wp_step. wp_step. rewrite u32_small by lia.
    case_bool as E; [lia|]. wp_go. split; [done|]. replace K with (d_clus_cnt (ent s e)) by lia. by apply moved_refl.
  - eapply wp_mono; [apply (forward_step_wp e l K alloc s); try done; lia|]. intros y s1 [-> Hmv].
    pose proof (af_pos _ _ _ Ha). destruct (moved_at _ _ _ _ _ Ha Hmv) as (Ha2 & Hc2 & _); [lia|].
    eapply wp_mono; [apply (IH fuel s1); [apply Hmv|done|lia|lia]|].
    intros r s2 [-> Hmv2]. split; [done|]. eapply moved_trans; [apply Ha|exact Hmv|exact Hmv2].
Qed.

(** The second loop. *)
Lemma back_wp e l K : 0 <= K < Z.of_nat (length l) -> K < 2 ^ 31 -> forall m fuel s,
  fs_ok s -> at_file s e l -> d_clus_cnt (ent s e) + Z.of_nat m = K -> (m < fuel)%nat ->
  wp (loop fuel (reloc_back e K) tt) (fun _ s' => moved e l K s s') s.
Proof.
  intros HK HK2. induction m as [|m IH]; intros fuel s Hok Ha Hm Hf; (destruct fuel as [|fuel]; [lia|]);
    apply wp_loop_S; unfold reloc_back at 1, gete; wp_step; wp_step; rewrite u32_small by lia.
  - case_bool as E; [lia|]. wp_go. replace K with (d_clus_cnt (ent s e)) by lia. by apply moved_refl.
  - case_bool as E; [|lia]. pose proof (next_of _ _ _ Ha) as [Hc Hn]. pose proof (af_pos _ _ _ Ha) as Hp.
    pose proof (fo_vol _ Hok) as Hv. destruct (l !! S _) as [y|] eqn:Ey.
    2: { apply lookup_ge_None in Ey. lia. }
    destruct Hn as [Hn Hy]. wp_step. eapply wp_mono; [apply read_fat_wp; [done|by apply clus_ok_range]|].
    intros v s1 [-> Hs1]. fold (fate s (d_cur_clus (ent s e))). rewrite Hn.
    destruct (clus_ok_int _ _ Hv Hy) as (_ & _ & Hlt). unfold sete. wp_step. wp_step. case_bool as E2; [lia|]. wp_go.
    assert (He1 : (Z.to_nat e < length (fs_ents s1))%nat).
    { rewrite (only_disk_ents s); [apply Ha|apply Hs1]. }
    rewrite upd_ent_twice by done.
    set (f := fun x => set_d_clus_cnt _ _). set (k := d_clus_cnt (ent s e) + 1).
    assert (Hmv : moved e l k s (upd_ent e f s1)).
    { apply moved_step; [done|]. unfold f, seek, k. simpl. rewrite u32_small by lia. by rewrite <- (succ_pos l _ y Hp Ey). }
    destruct (moved_at _ _ _ _ _ Ha Hmv) as (Ha2 & Hc2 & _); [unfold k; lia|].
    eapply wp_mono; [apply (IH fuel (upd_ent e f s1)); [apply Hmv|done|rewrite Hc2; unfold k; lia|lia]|].
    intros [] s2 Hmv2. eapply moved_trans; [apply Ha|exact Hmv|exact Hmv2].
Qed.

(** Behind the end of the chain the position goes back to the start. *)
Lemma forward_end_wp e l K : Z.of_nat (length l) <= K < 2 ^ 31 -> forall m fuel s,
  fs_ok s -> at_file s e l -> d_clus_cnt (ent s e) + Z.of_nat m + 1 = Z.of_nat (length l) -> (S m < fuel)%nat ->
  wp (loop fuel (reloc_forward e K false) tt) (fun r s' => r = false /\ moved e l 0 s s') s.
Proof.
  intros HK. induction m as [|m IH]; intros fuel s Hok Ha Hm Hf; (destruct fuel as [|fuel]; [lia|]); apply wp_loop_S;
    pose proof (af_pos _ _ _ Ha) as Hp.
  - pose proof (next_of _ _ _ Ha) as [Hc Hn]. rewrite (proj2 (lookup_ge_None l _)) in Hn by lia.
    unfold reloc_forward, gete, sete. wp_step. wp_step. rewrite u32_small by lia. case_bool as E; [|lia]. wp_step.
    eapply wp_mono; [apply read_fat_wp; [done|by apply clus_ok_range]|].
    intros v s1 [-> Hs1]. cbv zeta. fold (fate s (d_cur_clus (ent s e))). rewrite s32_small by (unfold FAT32_EOC in *; lia).
    case_bool as E2; [|lia]. wp_go. split; [done|]. apply moved_step; [done|]. unfold seek. do 2 f_equal.
    destruct l as [|x l]; [simpl in Hm; lia|].
    by destruct (cl_chain _ _ _ (af_cl _ _ _ Ha)) as [-> _].
  - eapply wp_mono; [apply (forward_step_wp e l K false s); try done; lia|]. intros y s1 [-> Hmv].
    destruct (moved_at _ _ _ _ _ Ha Hmv) as (Ha2 & Hc2 & _); [lia|].
    eapply wp_mono; [apply (IH fuel s1); [apply Hmv|done|lia|lia]|].
    intros r s2 [-> Hmv2]. split; [done|]. eapply moved_trans; [apply Ha|exact Hmv|exact Hmv2].
Qed.

Lemma first_of s e l : at_file s e l -> (0 < length l)%nat /\ d_first_clus (ent s e) = l !!! 0%nat.
Proof.
  intros [A1 A2 A3 A4]. apply lookup_lt_Some in A4 as Hlt. split; [lia|]. destruct l as [|x l]; [simpl in Hlt; lia|].
  by destruct (cl_chain _ _ _ A2) as [-> _].
Qed.

Lemma bpc_bounds fat : vol_ok fat -> 512 <= byts_per_clus fat < 2 ^ 17 /\ byts_per_clus fat = 512 * sec_per_clus (bpb fat).
Proof. intros Hv. rewrite (vo_bpc _ Hv). pose proof (vo_spc _ Hv). unfold BSIZE. lia. Qed.

Lemma clus_num_bounds fat off : vol_ok fat -> 0 <= off < 2 ^ 32 -> 0 <= off / byts_per_clus fat < 2 ^ 23.
Proof.
  intros Hv Hoff. destruct (bpc_bounds _ Hv) as [Hb _]. split; [apply Z.div_pos; lia|].
  apply Z.div_lt_upper_bound; [lia|]. assert (512 * 2 ^ 23 <= byts_per_clus fat * 2 ^ 23) by nia. lia.
Qed.

(** [reloc_clus] at an offset of the file. *)
Lemma reloc_wp e l off alloc s : fs_ok s -> at_file s e l -> 0 <= off < 2 ^ 32 ->
  off / byts_per_clus (fs_fat s) < Z.of_nat (length l) ->
  wp (reloc_clus e off alloc) (fun r s' => r = off mod byts_per_clus (fs_fat s) /\
    moved e l (off / byts_per_clus (fs_fat s)) s s') s.
Proof.
  intros Hok Ha Hoff Hl. pose proof (fo_vol _ Hok) as Hv. destruct (bpc_bounds _ Hv) as [Hb _].
  pose proof (clus_num_bounds _ _ Hv Hoff) as Hk. pose proof (Z.mod_pos_bound off (byts_per_clus (fs_fat s))) as Hmod.
  pose proof (af_pos _ _ _ Ha) as Hp. pose proof (af_e _ _ _ Ha) as He. set (K := off / byts_per_clus (fs_fat s)) in *.
  unfold reloc_clus, the_fat, gete, sete. wp_step. wp_step. cbv zeta. fold K.
  rewrite (s32_small K), (s32_small (off mod _)), (u32_small K) by lia. wp_step.
  destruct (decide (d_clus_cnt (ent s e) <= K)) as [Hle|Hgt].
  - eapply wp_mono; [apply (forward_wp e l K alloc ltac:(lia) ltac:(lia) (Z.to_nat (K - d_clus_cnt (ent s e)))); try done; lia|].
    intros r s1 [-> Hmv]. simpl negb. cbv iota. wp_go; [|done].
    destruct (moved_at _ _ _ _ _ Ha Hmv) as (Ha2 & Hc2 & _); [lia|]. breflect. lia.
  - apply wp_loop_S. unfold reloc_forward, gete. wp_step. wp_step. rewrite u32_small by lia. case_bool as E; [lia|]. wp_step. simpl negb. cbv iota. wp_go; [|breflect; lia].
    set (s1 := upd_ent e _ s).
    destruct (first_of _ _ _ Ha) as [Hl0 Hf].
    assert (Hmv : moved e l 0 s s1).
    { apply moved_step; [|unfold seek; by rewrite Hf]. split; [done|]. split; [reflexivity|done]. }
    destruct (moved_at _ _ _ _ _ Ha Hmv) as (Ha2 & Hc2 & _); [lia|].
    eapply wp_mono; [apply (back_wp e l K ltac:(lia) ltac:(lia) (Z.to_nat K) _ s1); [apply Hmv|done|lia|lia]|].
    intros [] s2 Hmv2. wp_go. split; [done|]. eapply moved_trans; [done|exact Hmv|exact Hmv2].
Qed.

Lemma reloc_end_wp e l off s : fs_ok s -> at_file s e l -> 0 <= off < 2 ^ 32 ->
  Z.of_nat (length l) <= off / byts_per_clus (fs_fat s) ->
  wp (reloc_clus e off false) (fun r s' => r = -1 /\ moved e l 0 s s') s.
Proof.
  intros Hok Ha Hoff Hl. pose proof (fo_vol _ Hok) as Hv. pose proof (clus_num_bounds _ _ Hv Hoff) as Hk.
  set (K := off / byts_per_clus (fs_fat s)) in *. pose proof (af_pos _ _ _ Ha) as Hp.
  pose proof (lookup_lt_Some _ _ _ (af_cur _ _ _ Ha)) as Hlt.
  unfold reloc_clus, the_fat. wp_step. wp_step. cbv zeta. fold K. rewrite (s32_small K), (u32_small K) by lia. wp_step.
  eapply wp_mono; [apply (forward_end_wp e l K ltac:(lia) (length l - 1 - Z.to_nat (d_clus_cnt (ent s e)))); try done; lia|].
  intros r s1 [-> Hmv]. simpl negb. cbv iota. by wp_go.
Qed.

(** ** Extending a chain *)

Definition free_count s : nat := length (filter (fun c => fate s c = 0) (seqZ 2 (data_clus_cnt (fs_fat s)))).
Definition reserved s : Prop := fate s 0 <> 0 /\ fate s 1 <> 0.

Lemma free_count_pos s : vol_ok (fs_fat s) -> reserved s -> (0 < free_count s)%nat -> has_free s.
Proof.
  intros Hv [H0 H1] Hf. split; [done|]. split; [done|]. unfold free_count in Hf.
  destruct (filter _ _) as [|c l] eqn:E; [simpl in Hf; lia|].
  assert (Hin : c ∈ filter (fun c => fate s c = 0) (seqZ 2 (data_clus_cnt (fs_fat s)))) by (rewrite E; left).
  apply list_elem_of_filter in Hin as [Hc Hin]. apply elem_of_seqZ in Hin. exists c. split; [unfold clus_ok; lia|done].
Qed.

Lemma free_count_take s s' c : fs_fat s' = fs_fat s -> clus_ok (fs_fat s) c -> fate s c = 0 ->
  (forall x, clus_ok (fs_fat s) x -> (fate s' x = 0 <-> fate s x = 0 /\ x <> c)) -> S (free_count s') = free_count s.
Proof.
  intros Hfat Hc Hf Hx. unfold free_count. rewrite Hfat. set (r := seqZ 2 (data_clus_cnt (fs_fat s))).
  assert (Hr : forall x, x ∈ r <-> clus_ok (fs_fat s) x) by (intros x; unfold r, clus_ok; rewrite elem_of_seqZ; lia).
  assert (Hp : c :: filter (fun x => fate s' x = 0) r ≡ₚ filter (fun x => fate s x = 0) r).
  { apply NoDup_Permutation.
    - apply NoDup_cons. split; [|apply NoDup_filter, NoDup_seqZ]. rewrite list_elem_of_filter, Hx by done. tauto.
    - apply NoDup_filter, NoDup_seqZ.
    - intros x. rewrite elem_of_cons, !list_elem_of_filter, Hr. split.
      + intros [->|[H1 H2]]; [done|]. split; [by apply Hx|done].
      + intros [H1 H2]. destruct (decide (x = c)); [by left|right]. by rewrite Hx. }
  apply Permutation_length in Hp. simpl in Hp. lia.
Qed.

(** The chain [l] of entry [e] became [l'] by appending free clusters, which
    now hold zeros; no other chain and no other data changed. *)
Record grown (e : Z) (l l' : list Z) s s' : Prop := {
  gr_ok : fs_ok s';
  gr_at : at_file s' e l';
  gr_only : only_disk (upd_ent e (seek (d_clus_cnt (ent s' e)) (d_cur_clus (ent s' e))) s) s';
  gr_pre : l `prefix_of` l';
  gr_fresh c : c ∈ l' -> c ∉ l -> fate s c = 0;
  gr_other c : 0 <= c < data_clus_cnt (fs_fat s) + 2 -> c ∉ l' -> fate s' c = fate s c;
  gr_old c : clus_ok (fs_fat s) c -> (c ∈ l \/ c ∉ l') -> clus_data (fs_fat s) (rdisk s') c = clus_data (fs_fat s) (rdisk s) c;
  gr_zero c : c ∈ l' -> c ∉ l -> clus_data (fs_fat s) (rdisk s') c = replicate (Z.to_nat (byts_per_clus (fs_fat s))) 0;
  gr_free : (free_count s' + length l' = free_count s + length l)%nat;
}.

Lemma grown_fat e l l' s s' : grown e l l' s s' -> fs_fat s' = fs_fat s.
Proof. intros Hg. by rewrite (only_disk_fat _ _ (gr_only _ _ _ _ _ Hg)). Qed.

Lemma free_count_ext s s' : fs_fat s' = fs_fat s -> (forall x, clus_ok (fs_fat s) x -> fate s' x = fate s x) ->
  free_count s' = free_count s.
Proof.
  intros Hf Hx. unfold free_count. rewrite Hf. f_equal.
  assert (Hin : forall x, x ∈ seqZ 2 (data_clus_cnt (fs_fat s)) -> fate s' x = fate s x).
  { intros x Hin. apply elem_of_seqZ in Hin. apply Hx. unfold clus_ok. lia. }
  revert Hin. generalize (seqZ 2 (data_clus_cnt (fs_fat s))). induction l as [|x l IH]; intros Hin; [done|].
  rewrite !filter_cons, IH by (intros; apply Hin; by right). by rewrite Hin by left.
Qed.

Lemma free_count_same s s' : fs_fat s' = fs_fat s -> rdisk s' = rdisk s -> free_count s' = free_count s.
Proof. intros Hf Hd. apply free_count_ext; [done|]. intros x _. by apply fate_same. Qed.

Lemma moved_grown e l k s s' : at_file s e l -> moved e l k s s' -> 0 <= k < Z.of_nat (length l) -> grown e l l s s'.
Proof.
  intros Ha Hmv Hk. destruct (moved_at _ _ _ _ _ Ha Hmv Hk) as (Ha2 & Hc & Hcur). destruct Hmv as (Hok & Hd & Ho).
  pose proof (only_disk_fat _ _ Ho) as Hfat. split; try done.
  - by rewrite Hc, Hcur.
  - intros c _ _. by apply fate_same.
  - intros c _ _. by rewrite Hd.
  - by rewrite (free_count_same s s').
Qed.

Lemma prefix_elem (l l' : list Z) x : l `prefix_of` l' -> x ∈ l -> x ∈ l'.
Proof. intros [k ->] Hx. apply elem_of_app. by left. Qed.

Lemma chain_grown_trans e l l1 l2 s s1 s2 : (Z.to_nat e < length (fs_ents s))%nat ->
  grown e l l1 s s1 -> grown e l1 l2 s1 s2 -> grown e l l2 s s2.
Proof.
  intros He G1 G2. pose proof (grown_fat _ _ _ _ _ G1) as Hf1. destruct G1 as [A1 A2 A3 A4 A5 A6 A7 A8 A9].
  destruct G2 as [B1 B2 B3 B4 B5 B6 B7 B8 B9]. rewrite Hf1 in *.
  assert (Hin : forall x, x ∈ l1 -> x ∈ l2) by (intros x; by apply prefix_elem).
  assert (Hok2 : forall x, x ∈ l2 -> clus_ok (fs_fat s) x).
  { intros x Hx. rewrite <- Hf1. pose proof (cl_ok _ _ _ (af_cl _ _ _ B2) x Hx) as Hc.
    assert (Hf2 : fs_fat s2 = fs_fat s1) by (by rewrite (only_disk_fat _ _ B3)). by rewrite <- Hf2. }
  split; [done|done| |by etrans| | | | |lia].
  - pose proof (only_disk_upd _ _ e (seek (d_clus_cnt (ent s2 e)) (d_cur_clus (ent s2 e))) A3) as H12.
    rewrite upd_ent_twice in H12 by done. etrans; [exact H12|exact B3].
  - intros c Hc Hn. destruct (decide (c ∈ l1)) as [H1|H1]; [by apply A5|].
    rewrite <- A6 by (by apply clus_ok_range, Hok2 || done). by apply B5.
  - intros c Hc Hn. rewrite B6, A6; [done|done| |done|done]. intros H1. by apply Hn, Hin.
  - intros c Hc Hn. rewrite B7, A7; [done|done| |done|].
    + destruct Hn as [Hn|Hn]; [by left|right]. intros H1. by apply Hn, Hin.
    + destruct Hn as [Hn|Hn]; [left; by eapply prefix_elem|by right].
  - intros c Hc Hn. destruct (decide (c ∈ l1)) as [H1|H1]; [|by apply B8].
    rewrite B7 by (by apply Hok2 || by left). by apply A8.
Qed.

Lemma chain_used s c l x : clusters s c l -> x ∈ l -> fate s x <> 0.
Proof.
  intros [C1 C2 C3] Hx. apply list_elem_of_lookup in Hx as [k Hk]. pose proof (chain_from_next _ _ _ _ _ C3 Hk) as Hn.
  destruct (l !! S k) as [y|] eqn:Ey; [|unfold FAT32_EOC in Hn; lia].
  assert (Hy : clus_ok (fs_fat s) y) by (apply C1; by eapply list_elem_of_lookup_2). unfold clus_ok in Hy. lia.
Qed.

(** The disk after a cluster was taken and linked behind the last one. *)
Record linked (last c : Z) s s' : Prop := {
  li_ok : fs_ok s';
  li_only : only_disk s s';
  li_c : clus_ok (fs_fat s) c;
  li_free : fate s c = 0;
  li_entry x : 0 <= x < data_clus_cnt (fs_fat s) + 2 ->
    fate s' x = if last =? x then c else if c =? x then FAT32_EOC + 7 else fate s x;
  li_zero : clus_data (fs_fat s) (rdisk s') c = replicate (Z.to_nat (byts_per_clus (fs_fat s))) 0;
  li_data x : clus_ok (fs_fat s) x -> x <> c -> clus_data (fs_fat s) (rdisk s') x = clus_data (fs_fat s) (rdisk s) x;
}.

Lemma linked_of last c s s1 s2 s3 : clus_ok (fs_fat s) last -> same_disk s s1 -> allocated c s1 s2 -> fat_set last c s2 s3 ->
  linked last c s s3.
Proof.
  intros Hlast (Hok1 & Ho1 & Hd1) [A1 A2 A3 A4 A5 A6 A7 A8] [W1 W2 W3 W4].
  pose proof (only_disk_fat _ _ Ho1) as Hf1. pose proof (only_disk_fat _ _ A2) as Hf2. pose proof (only_disk_fat _ _ W2) as Hf3.
  rewrite Hf2, Hf1 in *. rewrite Hd1 in *. pose proof (fo_vol _ Hok1) as Hv. rewrite Hf1 in Hv.
  assert (Hdata : forall x, clus_ok (fs_fat s) x -> clus_data (fs_fat s) (rdisk s3) x = clus_data (fs_fat s) (rdisk s2) x).
  { intros x Hx. apply clus_data_ext. intros k Hk. apply W4. pose proof (clus_sec_bound _ Hv x Hx). lia. }
  split; [done|etrans; [exact Ho1|]; etrans; [exact A2|exact W2]|done|done| | |].
  - intros x Hx. unfold fate. rewrite Hf3, W3, A6 by done. done.
  - rewrite Hdata by done. apply A7.
  - intros x Hx Hne. rewrite Hdata by done. by apply A8.
Qed.

Lemma linked_grown e l c s s' : at_file s e l -> d_clus_cnt (ent s e) + 1 = Z.of_nat (length l) -> 
  linked (d_cur_clus (ent s e)) c s s' -> vol_ok (fs_fat s) ->
  let s2 := upd_ent e (seek (d_clus_cnt (ent s e) + 1) c) s' in grown e l (l ++ [c]) s s2.
Proof.
  intros Ha Hlen [L1 L2 L3 L4 L5 L6 L7] Hv s2. pose proof Ha as [A1 A2 A3 A4]. pose proof A2 as [C1 C2 C3].
  pose proof (only_disk_fat _ _ L2) as Hfat.
  assert (He : (Z.to_nat e < length (fs_ents s'))%nat) by (by rewrite (only_disk_ents _ _ L2)).
  assert (Hcl : c ∉ l) by (intros Hin; by apply (chain_used s _ l c A2 Hin)).
  assert (Hcur : d_cur_clus (ent s e) ∈ l) by by eapply list_elem_of_lookup_2.
  assert (Hent : ent s2 e = seek (d_clus_cnt (ent s e) + 1) c (ent s e)).
  { unfold s2. by rewrite ent_upd, (only_disk_ent s s' e L2) by done. }
  assert (Hfate : forall x, fate s2 x = fate s' x) by done.
  assert (Hlink : fate s' (d_cur_clus (ent s e)) = c) by (rewrite L5, Z.eqb_refl; [done|by apply clus_ok_range, C1]).
  assert (Hend : fate s' c = FAT32_EOC + 7).
  { rewrite L5 by by apply clus_ok_range. destruct (Z.eqb_spec (d_cur_clus (ent s e)) c); [congruence|]. by rewrite Z.eqb_refl. }
  assert (Hkeep : forall x, 0 <= x < data_clus_cnt (fs_fat s) + 2 -> x <> d_cur_clus (ent s e) -> x <> c -> fate s' x = fate s x).
  { intros x Hx H1 H2. rewrite L5 by done. destruct (Z.eqb_spec (d_cur_clus (ent s e)) x); [congruence|]. by destruct (Z.eqb_spec c x). }
  split; rewrite ?Hent.
  - by apply fs_ok_upd.
  - split; rewrite ?Hent; [simpl; by rewrite length_insert| |simpl; lia|].
    + split.
      * intros x Hx. change (fs_fat s2) with (fs_fat s'). rewrite Hfat.
        apply elem_of_app in Hx as [Hx|Hx]; [by apply C1|]. by apply list_elem_of_singleton in Hx as ->.
      * apply NoDup_app. split; [done|]. split; [|apply NoDup_singleton]. intros x Hx ->%list_elem_of_singleton. done.
      * apply (chain_from_snoc (fate s) _ l _ (Z.to_nat (d_clus_cnt (ent s e))) (d_cur_clus (ent s e))); try done; [lia| |].
        -- intros y Hy Hne. apply Hkeep; [by apply clus_ok_range, C1|done|congruence].
        -- rewrite Hfate, Hend. unfold FAT32_EOC. lia.
    + cbn [d_clus_cnt d_cur_clus seek set_d_clus_cnt set_d_cur_clus]. apply lookup_app_Some. right. split; [lia|].
      by replace (Z.to_nat (d_clus_cnt (ent s e) + 1) - length l)%nat with 0%nat by lia.
  - by apply only_disk_upd.
  - by exists [c].
  - intros x [Hx| ->%list_elem_of_singleton]%elem_of_app Hn; done.
  - intros x Hx [Hn Hn2]%not_elem_of_app. rewrite not_elem_of_cons in Hn2. rewrite Hfate. apply Hkeep; [done| |tauto]. by intros ->.
  - intros x Hx Hn. apply L7; [done|]. intros ->. rewrite elem_of_app in Hn. destruct Hn as [Hn|Hn]; [done|]. apply Hn. right. left.
  - intros x [Hx| ->%list_elem_of_singleton]%elem_of_app Hn; [done|]. exact L6.
  - rewrite length_app. simpl.
    assert (S (free_count s2) = free_count s); [|lia]. apply (free_count_take s s2 c); [done|done|done|].
    intros x Hx. rewrite Hfate. destruct (decide (x = c)) as [->|Hne].
    + rewrite Hend. unfold FAT32_EOC. split; [lia|tauto].
    + destruct (decide (x = d_cur_clus (ent s e))) as [->|Hne2].
      * rewrite Hlink. pose proof (chain_used _ _ _ _ A2 Hcur). unfold clus_ok in L3. split; [lia|tauto].
      * rewrite Hkeep; [tauto|by apply clus_ok_range|done|done].
Qed.

Lemma fat_entry_reserved s s' last c : vol_ok (fs_fat s) -> clus_ok (fs_fat s) last -> linked last c s s' -> reserved s -> reserved s'.
Proof.
  intros Hv Hl [L1 L2 L3 L4 L5 L6 L7] [R0 R1]. pose proof (vo_cnt _ Hv). unfold clus_ok in *.
  split; rewrite L5 by lia; destruct (Z.eqb_spec last 0), (Z.eqb_spec last 1), (Z.eqb_spec c 0), (Z.eqb_spec c 1); done || lia.
Qed.

Lemma grow_step_wp e l K s : fs_ok s -> at_file s e l -> d_dev (ent s e) = 0 -> reserved s -> (0 < free_count s)%nat ->
  d_clus_cnt (ent s e) + 1 = Z.of_nat (length l) -> d_clus_cnt (ent s e) < K < 2 ^ 31 ->
  wp (reloc_forward e K true tt) (fun y s' => y = inl tt /\ exists c, grown e l (l ++ [c]) s s' /\
    d_clus_cnt (ent s' e) = d_clus_cnt (ent s e) + 1 /\ reserved s') s.
Proof.
  intros Hok Ha Hdev Hres Hfree Hlen HK. pose proof (fo_vol _ Hok) as Hv. pose proof (af_pos _ _ _ Ha) as Hp.
  pose proof (next_of _ _ _ Ha) as [Hc Hn]. rewrite (proj2 (lookup_ge_None l _)) in Hn by lia.
  unfold reloc_forward, gete, sete. wp_step. wp_step. rewrite u32_small by lia. case_bool as E; [|lia]. wp_step.
  eapply wp_mono; [apply read_fat_wp; [done|by apply clus_ok_range]|].
  intros v s1 [-> Hs1]. cbv zeta. fold (fate s (d_cur_clus (ent s e))). rewrite s32_small by (unfold FAT32_EOC in *; lia).
  case_bool as E2; [|lia]. pose proof Hs1 as (Hok1 & Ho1 & Hd1). pose proof (only_disk_fat _ _ Ho1) as Hf1.
  rewrite Hdev. wp_step. eapply wp_mono; [apply alloc_clus_wp; [done|]|].
  { apply free_count_pos; [by rewrite Hf1| |by rewrite (free_count_same s)].
    split; rewrite (fate_same s) by done; apply Hres. }
  intros c s2 Hal. pose proof (only_disk_fat _ _ (al_only _ _ _ Hal)) as Hf2. pose proof (al_range _ _ _ Hal) as Hcr. rewrite Hf1 in *.
  wp_step. eapply wp_mono; [apply write_fat_wp; [apply Hal|rewrite Hf2; by apply clus_ok_range|]|].
  { pose proof (vo_max _ Hv). unfold clus_ok, FAT32_EOC in *. lia. }
  intros r s3 [-> Hset]. wp_go. split; [done|]. exists c.
  pose proof (linked_of _ _ _ _ _ _ Hc Hs1 Hal Hset) as Hli.
  pose proof (linked_grown e l c s s3 Ha Hlen Hli Hv) as Hg. cbv zeta in Hg.
  assert (Heq : upd_ent e (fun x => set_d_clus_cnt (u32 (d_clus_cnt x + 1)) (set_d_cur_clus c x)) s3 =
    upd_ent e (seek (d_clus_cnt (ent s e) + 1) c) s3).
  { unfold upd_ent. rewrite (only_disk_ent s s3 e (li_only _ _ _ _ Hli)), u32_small by lia. done. }
  rewrite Heq. split; [done|]. split.
  - rewrite ent_upd; [done|]. rewrite (only_disk_ents _ _ (li_only _ _ _ _ Hli)). apply Ha.
  - exact (fat_entry_reserved s s3 _ c Hv Hc Hli Hres).
Qed.

Lemma grown_dev e l l' s s' : (Z.to_nat e < length (fs_ents s))%nat -> grown e l l' s s' -> d_dev (ent s' e) = d_dev (ent s e).
Proof. intros He Hg. by rewrite (only_disk_ent _ _ e (gr_only _ _ _ _ _ Hg)), ent_upd. Qed.

Lemma moved_reserved e l k s s' : moved e l k s s' -> reserved s -> reserved s'.
Proof. intros (_ & Hd & Ho) Hr. pose proof (only_disk_fat _ _ Ho) as Hf. unfold reserved. by rewrite !(fate_same s s'). Qed.

(** The first loop when it may extend the chain. *)
Lemma forward_grow_wp e K : K < 2 ^ 31 -> forall m l fuel s, fs_ok s -> at_file s e l -> d_dev (ent s e) = 0 -> reserved s ->
  d_clus_cnt (ent s e) + Z.of_nat m = K -> (m < fuel)%nat -> K + 1 <= Z.of_nat (length l + free_count s) ->
  wp (loop fuel (reloc_forward e K true) tt) (fun r s' => r = true /\ exists l', grown e l l' s s' /\
    d_clus_cnt (ent s' e) = K /\ length l' = Nat.max (length l) (Z.to_nat (K + 1)) /\ reserved s') s.
Proof.
  intros HK. induction m as [|m IH]; intros l fuel s Hok Ha Hdev Hres Hm Hf Hfree; (destruct fuel as [|fuel]; [lia|]); apply wp_loop_S;
    pose proof (af_pos _ _ _ Ha) as Hp; pose proof (lookup_lt_Some _ _ _ (af_cur _ _ _ Ha)) as Hlt.
  - unfold reloc_forward, gete. wp_step. wp_step. rewrite u32_small by lia. case_bool as E; [lia|]. wp_go. split; [done|].
    exists l. split; [|split; [lia|split; [lia|done]]].
    apply (moved_grown e l (d_clus_cnt (ent s e))); [done|by apply moved_refl|lia].
  - assert (Hstep : wp (reloc_forward e K true tt) (fun y s' => y = inl tt /\ exists l1, grown e l l1 s s' /\
      d_clus_cnt (ent s' e) = d_clus_cnt (ent s e) + 1 /\ reserved s' /\
      length l1 = Nat.max (length l) (Z.to_nat (d_clus_cnt (ent s e)) + 2)%nat) s).
    { destruct (decide (d_clus_cnt (ent s e) + 1 < Z.of_nat (length l))) as [Hin|Hend].
      - eapply wp_mono; [apply (forward_step_wp e l K true s); try done; lia|]. intros y s1 [-> Hmv]. split; [done|].
        exists l. destruct (moved_at _ _ _ _ _ Ha Hmv) as (Ha2 & Hc2 & _); [lia|].
        split; [apply (moved_grown e l _ _ _ Ha Hmv); lia|]. split; [done|]. split; [by eapply moved_reserved|lia].
      - eapply wp_mono; [apply (grow_step_wp e l K s); try done; lia|]. intros y s1 (-> & c & Hg & Hc & Hr). split; [done|].
        exists (l ++ [c]). split; [done|]. split; [done|]. split; [done|]. rewrite length_app. simpl. lia. }
    eapply wp_mono; [exact Hstep|]. intros y s1 (-> & l1 & Hg & Hc & Hr & Hlen).
    pose proof (gr_free _ _ _ _ _ Hg) as Hgf.
    eapply wp_mono; [apply (IH l1 fuel s1); [apply Hg|apply Hg| |done|lia|lia|lia]|].
    + rewrite (grown_dev e l l1 s s1); [done|apply Ha|done].
    + intros r s2 (-> & l2 & Hg2 & Hc2 & Hlen2 & Hr2). split; [done|]. exists l2.
      split; [eapply chain_grown_trans; [apply Ha|exact Hg|exact Hg2]|]. split; [done|]. split; [lia|done].
Qed.

Lemma reloc_grow_wp e l off s : fs_ok s -> at_file s e l -> d_dev (ent s e) = 0 -> reserved s -> 0 <= off < 2 ^ 32 ->
  off / byts_per_clus (fs_fat s) + 1 <= Z.of_nat (length l + free_count s) ->
  wp (reloc_clus e off true) (fun r s' => r = off mod byts_per_clus (fs_fat s) /\ exists l', grown e l l' s s' /\
    d_clus_cnt (ent s' e) = off / byts_per_clus (fs_fat s) /\
    length l' = Nat.max (length l) (Z.to_nat (off / byts_per_clus (fs_fat s) + 1)) /\ reserved s') s.
Proof.
  intros Hok Ha Hdev Hres Hoff Hfree. pose proof (fo_vol _ Hok) as Hv. destruct (bpc_bounds _ Hv) as [Hb _].
  pose proof (clus_num_bounds _ _ Hv Hoff) as Hk. pose proof (Z.mod_pos_bound off (byts_per_clus (fs_fat s))) as Hmod.
  pose proof (af_pos _ _ _ Ha) as Hp. pose proof (lookup_lt_Some _ _ _ (af_cur _ _ _ Ha)) as Hlt.
  destruct (decide (off / byts_per_clus (fs_fat s) < Z.of_nat (length l))) as [Hin|Hout].
  - eapply wp_mono; [by apply (reloc_wp e l)|]. intros r s1 [-> Hmv]. split; [done|]. exists l.
    destruct (moved_at _ _ _ _ _ Ha Hmv) as (Ha2 & Hc2 & _); [lia|].
    split; [apply (moved_grown e l _ _ _ Ha Hmv); lia|]. split; [done|]. split; [lia|by eapply moved_reserved].
  - set (K := off / byts_per_clus (fs_fat s)) in *. unfold reloc_clus, the_fat, gete. wp_step. wp_step. cbv zeta. fold K.
    rewrite (s32_small K), (s32_small (off mod _)), (u32_small K) by lia. wp_step.
    eapply wp_mono; [apply (forward_grow_wp e K ltac:(lia) (Z.to_nat (K - d_clus_cnt (ent s e))) l); try done; lia|].
    intros r s1 (-> & l' & Hg & Hc & Hlen & Hr). simpl negb. cbv iota. wp_go; [breflect; lia|]. eauto 10.
Qed.

(** [etrunc] frees exactly the clusters of the file.  It ends, for a file
    with the chain [l] as for one that was never written; the FAT entries of
    [l] become 0, all other entries and all data stay, the entry has size 0
    and no cluster, and no other entry of the cache has changed. *)
Theorem etrunc_frees_chain e l s :
  fs_ok s -> (Z.to_nat e < length (fs_ents s))%nat ->
  clusters s (d_first_clus (ent s e)) l \/ (d_first_clus (ent s e) = 0 /\ l = []) ->
  exists s', etrunc e s = Ok tt s' /\ fs_ok s' /\
    (forall c, 0 <= c < data_clus_cnt (fs_fat s) + 2 -> fate s' c = if bool_decide (c ∈ l) then 0 else fate s c) /\
    (forall n, first_data_sec (fs_fat s) <= n -> rdisk s' n = rdisk s n) /\
    only_disk (upd_ent e (fun d => set_d_dirty true (set_d_first_clus 0 (set_d_file_size 0 d))) s) s'.
Proof.
  intros Hok He Hcl. pose proof (fo_vol _ Hok) as Hv.
  assert (Hloop : wp (loop (S (S (Z.to_nat (data_clus_cnt (fs_fat s))))) etrunc_body (d_first_clus (ent s e))) (fun _ s' => freed l s s') s).
  { destruct Hcl as [Hcl|[-> ->]].
    - apply etrunc_loop_wp; [done|done|]. pose proof (clusters_length _ _ _ Hv Hcl). lia.
    - apply wp_loop_S. unfold etrunc_body. simpl. wp_go. split; [done|reflexivity| |done].
      intros c _. by rewrite bool_decide_false by apply not_elem_of_nil. }
  assert (Hw : wp (etrunc e) (fun r s' => r = tt /\ fs_ok s' /\
    (forall c, 0 <= c < data_clus_cnt (fs_fat s) + 2 -> fate s' c = if bool_decide (c ∈ l) then 0 else fate s c) /\
    (forall n, first_data_sec (fs_fat s) <= n -> rdisk s' n = rdisk s n) /\
    only_disk (upd_ent e (fun d => set_d_dirty true (set_d_first_clus 0 (set_d_file_size 0 d))) s) s') s).
  { unfold etrunc, the_fat, gete, sete. wp_step. wp_step. wp_step. wp_step. wp_step. eapply wp_mono; [exact Hloop|].
    intros [] s1 [F1 F2 F3 F4]. wp_step. split; [done|]. split; [by apply fs_ok_upd|]. split; [exact F3|]. split; [exact F4|].
    by apply only_disk_upd. }
  destruct (wp_Ok _ _ _ Hw) as (r & s' & Hrun & -> & H). by exists s'.
Qed.

(** [reloc_clus] finds the cluster of an offset.  From any position in a
    chain [l], forwards or backwards, it ends at cluster [off / byts_per_clus]
    of the chain and returns the offset within it; behind the end of the
    chain, when it may not allocate, it returns -1 and goes back to the first
    cluster.  Only the position of the entry changes. *)
Theorem reloc_clus_seeks e l off s : let B := byts_per_clus (fs_fat s) in
  fs_ok s -> at_file s e l -> 0 <= off < 2 ^ 32 ->
  exists r s', reloc_clus e off false s = Ok r s' /\
    if off / B <? Z.of_nat (length l) then r = off mod B /\ moved e l (off / B) s s'
    else r = -1 /\ moved e l 0 s s'.
Proof.
  intros B Hok Ha Hoff. apply wp_Ok. destruct (Z.ltb_spec (off / B) (Z.of_nat (length l))).
  - by apply (reloc_wp e l).
  - by apply (reloc_end_wp e l).
Qed.

(** [reloc_clus] extends a chain by free clusters.  When it may allocate
    and enough clusters are free, it ends at the cluster of the offset; a
    chain that was too short has got exactly the missing clusters, which were
    free and now hold zeros, and no entry or data of another cluster has
    changed. *)
Theorem reloc_clus_extends e l off s : let B := byts_per_clus (fs_fat s) in
  fs_ok s -> at_file s e l -> d_dev (ent s e) = 0 -> reserved s -> 0 <= off < 2 ^ 32 ->
  off / B + 1 <= Z.of_nat (length l + free_count s) ->
  exists s' l', reloc_clus e off true s = Ok (off mod B) s' /\ grown e l l' s s' /\ d_clus_cnt (ent s' e) = off / B /\
    length l' = Nat.max (length l) (Z.to_nat (off / B + 1)).
Proof.
  intros B Hok Ha Hdev Hres Hoff Hfree.
  destruct (wp_Ok _ _ _ (reloc_grow_wp e l off s Hok Ha Hdev Hres Hoff Hfree)) as (r & s' & Hrun & -> & l' & Hg & Hc & Hl & _).
  by exists s', l'.
Qed.
End fs.
