(* ===== verification/FatClus.v ===== *)
(** * Transfers of one cluster

    The data of a cluster are its sectors one after the other.  [rw_clus]
    transfers a range of one cluster sector by sector, whatever copies the
    pieces to or from the caller. *)

From S2P Require Import Prelude Riscv Memory Spinlock Bio BioProps Fat32 FatDisk FatChain.
Import Hart.

(** ** Lists of blocks *)

Lemma lookup_sub_bytes i n (l : list Z) k : 0 <= i -> sub_bytes i n l !! k = if Z.of_nat k <? n then l !! (Z.to_nat i + k)%nat else None.
Proof.
  intros Hi. unfold sub_bytes. destruct (Z.ltb_spec (Z.of_nat k) n) as [Hk|Hk].
  - by rewrite lookup_take_lt, lookup_drop by lia.
  - apply lookup_take_ge. lia.
Qed.

Lemma length_sub_bytes i n (l : list Z) : 0 <= i -> 0 <= n -> i + n <= Z.of_nat (length l) -> length (sub_bytes i n l) = Z.to_nat n.
Proof. intros. unfold sub_bytes. rewrite length_take, length_drop. lia. Qed.

Lemma sub_bytes_all (l : list Z) : sub_bytes 0 (Z.of_nat (length l)) l = l.
Proof. unfold sub_bytes. rewrite Nat2Z.id. by apply take_ge. Qed.

Lemma sub_bytes_app i n m (l : list Z) : 0 <= i -> 0 <= n -> 0 <= m -> i + n + m <= Z.of_nat (length l) ->
  sub_bytes i n l ++ sub_bytes (i + n) m l = sub_bytes i (n + m) l.
Proof.
  intros Hi Hn Hm Hl. unfold sub_bytes. replace (Z.to_nat (n + m)) with (Z.to_nat n + Z.to_nat m)%nat by lia.
  replace (Z.to_nat (i + n)) with (Z.to_nat i + Z.to_nat n)%nat by lia. by rewrite <- drop_drop, take_take_drop.
Qed.

Lemma concat_lookup (B : nat) (ls : list (list Z)) : (0 < B)%nat -> Forall (fun b => length b = B) ls -> forall i,
  concat ls !! i = match ls !! (i / B)%nat with Some b => b !! (i mod B)%nat | None => None end.
Proof.
  intros HB Hls. induction Hls as [|b ls Hb Hls IH]; intros i; [by rewrite lookup_nil|]. simpl.
  destruct (decide (i < B)%nat) as [Hi|Hi].
  - rewrite lookup_app_l, Nat.div_small, Nat.mod_small by lia. done.
  - rewrite lookup_app_r, IH, Hb by lia. 
    replace (i / B)%nat with (S ((i - B) / B))%nat.
    + simpl. replace (i mod B)%nat with ((i - B) mod B)%nat; [done|].
      replace i with ((i - B) + 1 * B)%nat at 2 by lia. by rewrite Nat.Div0.mod_add.
    + replace i with ((i - B) + 1 * B)%nat at 2 by lia. rewrite Nat.div_add by lia. lia.
Qed.

Lemma concat_length (B : nat) (ls : list (list Z)) : Forall (fun b => length b = B) ls -> length (concat ls) = (length ls * B)%nat.
Proof. induction 1 as [|b ls Hb Hls IH]; [done|]. simpl. rewrite length_app. lia. Qed.

(** A range of a concatenation that lies in block [k]. *)
Lemma sub_bytes_block (B : Z) (ls : list (list Z)) k b i n : 0 < B -> Forall (fun b => length b = Z.to_nat B) ls ->
  ls !! Z.to_nat k = Some b -> 0 <= k -> 0 <= i -> i + n <= B ->
  sub_bytes (B * k + i) n (concat ls) = sub_bytes i n b.
Proof.
  intros HB Hls Hb Hk Hi Hn. apply list_eq. intros j. rewrite !lookup_sub_bytes by nia. case_bool as E; [|done].
  rewrite (concat_lookup (Z.to_nat B)) by (done || lia).
  assert (Hj : (Z.to_nat (B * k + i) + j = Z.to_nat k * Z.to_nat B + (Z.to_nat i + j))%nat).
  { rewrite Z2Nat.inj_add, Z2Nat.inj_mul by nia. lia. }
  rewrite Hj, Nat.div_add_l, Nat.div_small, Nat.add_0_r, Hb by lia. f_equal.
  rewrite Nat.add_comm, Nat.Div0.mod_add. apply Nat.mod_small. lia.
Qed.

(** A store into block [k]. *)
Lemma store_block (B : Z) (ls : list (list Z)) k b i bs : 0 < B -> Forall (fun b => length b = Z.to_nat B) ls ->
  ls !! Z.to_nat k = Some b -> 0 <= k -> 0 <= i -> i + Z.of_nat (length bs) <= B ->
  concat (<[Z.to_nat k := store_at i bs b]> ls) = store_at (B * k + i) bs (concat ls).
Proof.
  intros HB Hls Hb Hk Hi Hn. pose proof (Forall_lookup_1 _ _ _ _ Hls Hb) as Hlb. simpl in Hlb.
  pose proof (lookup_lt_Some _ _ _ Hb) as Hlt.
  assert (Hls' : Forall (fun b => length b = Z.to_nat B) (<[Z.to_nat k := store_at i bs b]> ls)).
  { apply Forall_insert; [done|]. rewrite length_store_at; lia. }
  assert (Hin : Z.of_nat (Z.to_nat k) * B + B <= Z.of_nat (length ls) * B) by nia.
  apply list_eq. intros j. rewrite lookup_store_at by (rewrite ?(concat_length (Z.to_nat B)) by done; nia).
  rewrite !(concat_lookup (Z.to_nat B)) by (done || lia).
  pose proof (Nat.div_mod_eq j (Z.to_nat B)) as Hdm. pose proof (Nat.mod_upper_bound j (Z.to_nat B)) as Hmb.
  set (q := (j / Z.to_nat B)%nat) in *. set (r := (j mod Z.to_nat B)%nat) in *.
  destruct (decide (q = Z.to_nat k)) as [Hq|Hq].
  - rewrite Hq, list_lookup_insert_eq, Hb by done. rewrite lookup_store_at by lia.
    assert (Hj : Z.of_nat j = B * k + Z.of_nat r) by nia.
    case_ranges; try done. f_equal. nia.
  - rewrite list_lookup_insert_ne by done. case_ranges; try done. exfalso.
    assert (Z.of_nat j = B * Z.of_nat q + Z.of_nat r) by nia. nia.
Qed.

(** ** The sectors of a cluster *)

Section cluster.
Context (fat : fat_t) (Hvol : vol_ok fat) (rd : Z -> list Z) (Hrd : sectors_ok rd) (c : Z) (Hc : clus_ok fat c).

Lemma clus_sectors : Forall (fun b => length b = Z.to_nat BSIZE) (rd <$> seqZ (clus_sec fat c) (sec_per_clus (bpb fat))).
Proof.
  apply Forall_fmap, Forall_forall. intros n Hn. apply elem_of_seqZ in Hn. apply Hrd.
  pose proof (clus_sec_bound _ Hvol c Hc). pose proof (first_data_pos _ Hvol). lia.
Qed.

Lemma clus_sector_at k : 0 <= k < sec_per_clus (bpb fat) ->
  (rd <$> seqZ (clus_sec fat c) (sec_per_clus (bpb fat))) !! Z.to_nat k = Some (rd (clus_sec fat c + k)).
Proof.
  intros Hk. rewrite list_lookup_fmap. assert (seqZ (clus_sec fat c) (sec_per_clus (bpb fat)) !! Z.to_nat k = Some (clus_sec fat c + k)) as ->; [|done].
  apply lookup_seqZ. lia.
Qed.

Lemma clus_data_length : length (clus_data fat rd c) = Z.to_nat (byts_per_clus fat).
Proof.
  unfold clus_data. rewrite (concat_length (Z.to_nat BSIZE)) by apply clus_sectors.
  rewrite length_fmap, length_seqZ, (vo_bpc _ Hvol). pose proof (vo_spc _ Hvol). unfold BSIZE. lia.
Qed.

Lemma off_split o : 0 <= o < byts_per_clus fat -> 0 <= o / BSIZE < sec_per_clus (bpb fat) /\ o = BSIZE * (o / BSIZE) + o mod BSIZE.
Proof. intros Ho. rewrite (vo_bpc _ Hvol) in Ho. unfold BSIZE in *. dlia. Qed.

Lemma clus_piece o m : 0 <= o < byts_per_clus fat -> o mod BSIZE + m <= BSIZE ->
  sub_bytes (o mod BSIZE) m (rd (clus_sec fat c + o / BSIZE)) = sub_bytes o m (clus_data fat rd c).
Proof.
  intros Ho Hm. destruct (off_split o Ho) as [Hk Heq]. rewrite Heq at 3. unfold clus_data. symmetry.
  apply sub_bytes_block; [unfold BSIZE; lia|apply clus_sectors|by apply clus_sector_at|lia|unfold BSIZE; dlia|done].
Qed.

Lemma clus_store rd' o bs : 0 <= o < byts_per_clus fat -> o mod BSIZE + Z.of_nat (length bs) <= BSIZE ->
  (forall n, rd' n = if clus_sec fat c + o / BSIZE =? n then store_at (o mod BSIZE) bs (rd (clus_sec fat c + o / BSIZE)) else rd n) ->
  clus_data fat rd' c = store_at o bs (clus_data fat rd c).
Proof.
  intros Ho Hm Hrd'. destruct (off_split o Ho) as [Hk Heq]. rewrite Heq at 1. unfold clus_data.
  rewrite <- (store_block BSIZE _ _ (rd (clus_sec fat c + o / BSIZE)));
    [|unfold BSIZE; lia|apply clus_sectors|by apply clus_sector_at|lia|unfold BSIZE; dlia|done].
  f_equal. apply list_eq. intros i. rewrite list_lookup_fmap. destruct (decide (i = Z.to_nat (o / BSIZE))) as [->|Hne].
  - rewrite list_lookup_insert_eq by (rewrite length_fmap, length_seqZ; lia).
    assert (seqZ (clus_sec fat c) (sec_per_clus (bpb fat)) !! Z.to_nat (o / BSIZE) = Some (clus_sec fat c + o / BSIZE)) as ->
      by (apply lookup_seqZ; lia).
    simpl. by rewrite Hrd', Z.eqb_refl.
  - rewrite list_lookup_insert_ne, list_lookup_fmap by done. destruct (seqZ _ _ !! i) as [x|] eqn:Ex; [|done]. simpl. f_equal.
    apply lookup_seqZ in Ex as [-> Hi]. rewrite Hrd'. destruct (Z.eqb_spec (clus_sec fat c + o / BSIZE) (clus_sec fat c + Z.of_nat i)); [lia|done].
Qed.
End cluster.

(** ** Transfers of one cluster *)

Section fs.
Context {CS D : Type} `{!EitherCopy CS} `{!Disk D} `{!DiskLaws D}.
Implicit Types s : fatst CS D.

Definition with_cp (cp : CS) s : fatst CS D := Fatst cp (fs_b s) (fs_fat s) (fs_ents s) (fs_lru s).

(** A copy of the piece [bs], of which [acc] has been copied before, adds to
    what the caller has. *)
Definition sink_ok (P : list Z -> CS -> Prop) (n : Z) (sink : Z -> list Z -> M (fatst CS D) bool) : Prop :=
  forall acc bs s, P acc (fs_cp s) -> bytes_ok bs -> Z.of_nat (length (acc ++ bs)) <= n ->
    wp (sink (Z.of_nat (length acc)) bs) (fun ok s' => ok = true /\ exists cp, s' = with_cp cp s /\ P (acc ++ bs) cp) s.

Lemma in_use_cp n b s s1 cp : in_use n b s s1 -> in_use n b (with_cp cp s) (with_cp cp s1).
Proof. intros [Hok Hh Hp]. split; [by destruct Hok|done|]. rewrite Hp. done. Qed.

Lemma same_disk_cp cp s s' cp' : same_disk (with_cp cp s) s' -> same_disk (with_cp cp' s) (with_cp cp' s').
Proof.
  intros (Hok & [E Hp] & Hd). split; [by destruct Hok|]. split; [|done]. split; [|done]. rewrite E. done.
Qed.

Lemma rw_read_loop P c o n sink s : fs_ok s -> clus_ok (fs_fat s) c -> 0 <= o -> 0 <= n -> o + n <= byts_per_clus (fs_fat s) ->
  sink_ok P n sink -> forall fuel tot sec s1 cp, 0 <= tot <= n -> (Z.to_nat (n - tot) < fuel)%nat ->
  same_disk (with_cp cp s) s1 -> fs_cp s1 = cp -> P (sub_bytes o tot (clus_data (fs_fat s) (rdisk s) c)) cp ->
  (tot < n -> sec = clus_sec (fs_fat s) c + (o + tot) / BSIZE) ->
  wp (loop fuel (rw_read_body n sink) (tot, o mod BSIZE + tot, sec, sub_bytes o tot (clus_data (fs_fat s) (rdisk s) c)))
    (fun r s' => r = (n, sub_bytes o n (clus_data (fs_fat s) (rdisk s) c)) /\ exists cp, same_disk (with_cp cp s) s' /\
      P (sub_bytes o n (clus_data (fs_fat s) (rdisk s) c)) cp) s1.
Proof.
  intros Hok Hc Ho Hn Hon Hsink. pose proof (fo_vol _ Hok) as Hv. pose proof (fo_disk _ Hok) as Hd.
  set (data := clus_data (fs_fat s) (rdisk s) c). assert (Hlen : length data = Z.to_nat (byts_per_clus (fs_fat s))) by by apply clus_data_length.
  pose proof (clus_sec_bound _ Hv c Hc) as Hsb. pose proof (first_data_pos _ Hv) as Hfd.
  induction fuel as [|fuel IH]; intros tot sec s1 cp Htot Hf Hs1 Hcp HP Hsec; [lia|]. apply wp_loop_S. unfold rw_read_body.
  case_bool as E.
  2: { wp_go. assert (tot = n) as -> by lia. split; [done|]. by exists cp. }
  rewrite (Hsec E). assert (Hot : 0 <= o + tot < byts_per_clus (fs_fat s)) by lia.
  destruct (off_split _ Hv _ Hot) as [Hk Hsplit]. pose proof Hs1 as (Hok1 & Ho1 & Hd1).
  wp_step. eapply wp_mono; [apply fs_hold_wp; [done|lia]|]. intros b s2 Hh.
  wp_step. apply wp_zoom. unfold getb. wp_step. cbv beta. change (lget s2) with (fs_b s2). rewrite (in_use_data _ _ _ _ Hh).
  assert (Hs2 : lput (fs_b s2) s2 = s2) by by destruct s2. rewrite Hs2, Hd1. change (rdisk (with_cp cp s)) with (rdisk s).
  assert (Hmod : (o mod BSIZE + tot) mod BSIZE = (o + tot) mod BSIZE) by (unfold BSIZE; dlia). rewrite Hmod. cbv zeta.
  set (m := if n - tot <? BSIZE - (o + tot) mod BSIZE then n - tot else BSIZE - (o + tot) mod BSIZE).
  assert (Hm : 0 < m <= n - tot /\ (o + tot) mod BSIZE + m <= BSIZE /\ (tot + m = n \/ (o + tot + m) / BSIZE = (o + tot) / BSIZE + 1)).
  { unfold m, BSIZE in *. case_bool as E2; dlia. }
  destruct Hm as (Hm1 & Hm2 & Hm3).
  assert (Hpb : bytes_ok (sub_bytes ((o + tot) mod BSIZE) m (rdisk s (clus_sec (fs_fat s) c + (o + tot) / BSIZE)))).
  { apply Forall_take, Forall_drop, Hd. lia. }
  rewrite (clus_piece _ Hv _ Hd c Hc (o + tot) m Hot Hm2) in *. fold data in Hpb |- *. wp_step.
  assert (Hacc : length (sub_bytes o tot data) = Z.to_nat tot) by (apply length_sub_bytes; lia).
  assert (Happ : sub_bytes o tot data ++ sub_bytes (o + tot) m data = sub_bytes o (tot + m) data) by (apply sub_bytes_app; lia).
  replace tot with (Z.of_nat (length (sub_bytes o tot data))) at 1 by lia.
  assert (Hcp2 : fs_cp s2 = cp) by (rewrite (he_put _ _ _ _ Hh); done).
  eapply wp_mono; [apply Hsink; [by rewrite Hcp2|exact Hpb|rewrite Happ, length_sub_bytes; lia]|].
  intros ok s3 (-> & cp3 & -> & HP3). rewrite Happ in *. wp_step.
  eapply wp_mono; [exact (fs_drop_wp _ _ _ _ (in_use_cp _ _ _ _ cp3 Hh))|]. intros [] s4 Hs4. simpl negb. cbv iota. wp_step.
  replace (o mod BSIZE + tot + m) with (o mod BSIZE + (tot + m)) by lia.
  assert (Hs4' : same_disk (with_cp cp3 s) s4).
  { destruct Hs4 as (K1 & K2 & K3). split; [done|]. split; [|rewrite K3; exact Hd1].
    etrans; [|exact K2]. destruct Ho1 as [E1 E2]. split; [|exact E2]. rewrite E1. done. }
  apply (IH _ _ _ cp3); [lia|lia|done|by rewrite (proj1 (proj1 (proj2 Hs4)))|done|].
  intros Hlt. destruct Hm3 as [Hm3|Hm3]; [lia|]. rewrite u32_small by lia. rewrite Z.add_assoc, Hm3. lia.
Qed.

Lemma start_sector fat c o : vol_ok fat -> clus_ok fat c -> 0 <= o <= byts_per_clus fat ->
  u32 (first_sec_of_clus fat c + o / byts_per_sec (bpb fat)) = clus_sec fat c + o / BSIZE.
Proof.
  intros Hv Hc Ho. rewrite (clus_sec_eq _ Hv c Hc), (vo_sec _ Hv). pose proof (clus_sec_bound _ Hv c Hc).
  pose proof (first_data_pos _ Hv). apply u32_small. rewrite (vo_bpc _ Hv) in Ho. unfold BSIZE in *.
  assert (0 <= o / 512 <= sec_per_clus (bpb fat)) by dlia. lia.
Qed.

Lemma range_check fat o n : vol_ok fat -> 0 <= o -> 0 <= n -> o + n <= byts_per_clus fat ->
  (byts_per_clus fat <? u32 (o + n)) = false.
Proof. intros Hv Ho Hn Hon. destruct (bpc_bounds _ Hv) as [Hb _]. rewrite u32_small by lia. apply Z.ltb_ge. lia. Qed.

Lemma with_cp_id s : with_cp (fs_cp s) s = s.
Proof. by destruct s. Qed.

Lemma same_disk_refl s : fs_ok s -> same_disk s s.
Proof. intros Hok. split; [done|]. split; [reflexivity|done]. Qed.

(** Reading [n] bytes at [o] of cluster [c]. *)
Lemma rw_clus_read_wp P c o n sink s : fs_ok s -> clus_ok (fs_fat s) c -> 0 <= o -> 0 <= n -> o + n <= byts_per_clus (fs_fat s) ->
  sink_ok P n sink -> P [] (fs_cp s) ->
  wp (rw_clus_read c sink o n) (fun r s' => r = (n, sub_bytes o n (clus_data (fs_fat s) (rdisk s) c)) /\
    exists cp, same_disk (with_cp cp s) s' /\ P (sub_bytes o n (clus_data (fs_fat s) (rdisk s) c)) cp) s.
Proof.
  intros Hok Hc Ho Hn Hon Hsink HP. pose proof (fo_vol _ Hok) as Hv.
  unfold rw_clus_read, the_fat. wp_step. wp_step. rewrite (range_check _ _ _ Hv Ho Hn Hon), (start_sector _ _ _ Hv Hc) by lia.
  rewrite (vo_sec _ Hv). replace (o mod BSIZE) with (o mod BSIZE + 0) by lia.
  assert (H0 : sub_bytes o 0 (clus_data (fs_fat s) (rdisk s) c) = []) by done. rewrite <- H0 at 1.
  apply (rw_read_loop P c o n sink s Hok Hc Ho Hn Hon Hsink _ 0 _ s (fs_cp s)); [lia|lia| |done|done|].
  - rewrite with_cp_id. by apply same_disk_refl.
  - intros _. f_equal. f_equal. lia.
Qed.

(** The copies from the caller give the pieces of [data]. *)
Definition source_ok (P : CS -> Prop) (data : list Z) (source : Z -> Z -> M (fatst CS D) (list Z * bool)) : Prop :=
  forall tot m s, P (fs_cp s) -> 0 <= tot -> 0 <= m -> tot + m <= Z.of_nat (length data) ->
    wp (source tot m) (fun r s' => r = (sub_bytes tot m data, true) /\ exists cp, s' = with_cp cp s /\ P cp) s.

(** Cluster [c] holds [v]; no other sector changed. *)
Record wrote_clus (c : Z) (v : list Z) s s' : Prop := {
  wc_ok : fs_ok s';
  wc_only : only_disk s s';
  wc_data : clus_data (fs_fat s) (rdisk s') c = v;
  wc_other n : (forall k, 0 <= k < sec_per_clus (bpb (fs_fat s)) -> n <> clus_sec (fs_fat s) c + k) -> rdisk s' n = rdisk s n;
}.

(** Two stores that meet. *)
Lemma store_at_app o tot m data (v : list Z) : 0 <= o -> 0 <= tot -> 0 <= m -> tot + m <= Z.of_nat (length data) ->
  o + tot + m <= Z.of_nat (length v) ->
  store_at (o + tot) (sub_bytes tot m data) (store_at o (sub_bytes 0 tot data) v) = store_at o (sub_bytes 0 (tot + m) data) v.
Proof.
  intros Ho Ht Hm Hd Hv. assert (L1 : length (sub_bytes 0 tot data) = Z.to_nat tot) by (apply length_sub_bytes; lia).
  assert (L2 : length (sub_bytes tot m data) = Z.to_nat m) by (apply length_sub_bytes; lia).
  assert (L3 : length (sub_bytes 0 (tot + m) data) = Z.to_nat (tot + m)) by (apply length_sub_bytes; lia).
  apply list_eq. intros j. rewrite lookup_store_at by (rewrite ?length_store_at; lia). rewrite !lookup_store_at by lia.
  rewrite L1, L2, L3. case_ranges; try done; rewrite !lookup_sub_bytes by lia; case_bool as E1; try lia; try (case_bool as E2; try lia); f_equal; lia.
Qed.

Lemma bytes_ok_sub i n l : bytes_ok l -> bytes_ok (sub_bytes i n l).
Proof. intros Hl. by apply Forall_take, Forall_drop. Qed.

Lemma rw_write_loop P data c o source s : let n := Z.of_nat (length data) in
  fs_ok s -> clus_ok (fs_fat s) c -> 0 <= o -> o + n <= byts_per_clus (fs_fat s) -> bytes_ok data ->
  source_ok P data source -> forall fuel tot sec s1 cp, 0 <= tot <= n -> (Z.to_nat (n - tot) < fuel)%nat ->
  wrote_clus c (store_at o (sub_bytes 0 tot data) (clus_data (fs_fat s) (rdisk s) c)) (with_cp cp s) s1 -> fs_cp s1 = cp -> P cp ->
  (tot < n -> sec = clus_sec (fs_fat s) c + (o + tot) / BSIZE) ->
  wp (loop fuel (rw_write_body n source) (tot, o mod BSIZE + tot, sec))
    (fun r s' => r = n /\ exists cp, wrote_clus c (store_at o data (clus_data (fs_fat s) (rdisk s) c)) (with_cp cp s) s' /\ P cp) s1.
Proof.
  intros n Hok Hc Ho Hon Hby Hsrc. pose proof (fo_vol _ Hok) as Hv. pose proof (fo_disk _ Hok) as Hd.
  set (old := clus_data (fs_fat s) (rdisk s) c). assert (Hlen : length old = Z.to_nat (byts_per_clus (fs_fat s))) by by apply clus_data_length.
  pose proof (clus_sec_bound _ Hv c Hc) as Hsb. pose proof (first_data_pos _ Hv) as Hfd.
  induction fuel as [|fuel IH]; intros tot sec s1 cp Htot Hf Hs1 Hcp HP Hsec; [lia|]. apply wp_loop_S. unfold rw_write_body.
  case_bool as E.
  2: { wp_go. assert (tot = n) as -> by lia. split; [done|]. exists cp. split; [|done].
       unfold n in Hs1. by rewrite sub_bytes_all in Hs1. }
  rewrite (Hsec E). assert (Hot : 0 <= o + tot < byts_per_clus (fs_fat s)) by lia.
  destruct (off_split _ Hv _ Hot) as [Hk Hsplit]. pose proof Hs1 as [Hok1 Ho1 Hd1 Hother1].
  assert (Hf1 : fs_fat s1 = fs_fat s) by (by rewrite (only_disk_fat _ _ Ho1)).
  wp_step. eapply wp_mono; [apply fs_hold_wp; [done|lia]|]. intros b s2 Hh.
  assert (Hmod : (o mod BSIZE + tot) mod BSIZE = (o + tot) mod BSIZE) by (unfold BSIZE; dlia). rewrite Hmod. cbv zeta.
  set (m := if n - tot <? BSIZE - (o + tot) mod BSIZE then n - tot else BSIZE - (o + tot) mod BSIZE).
  assert (Hm : 0 < m <= n - tot /\ (o + tot) mod BSIZE + m <= BSIZE /\ (tot + m = n \/ (o + tot + m) / BSIZE = (o + tot) / BSIZE + 1)).
  { unfold m, BSIZE in *. case_bool as E2; dlia. }
  destruct Hm as (Hm1 & Hm2 & Hm3). wp_step.
  assert (Hcp2 : fs_cp s2 = cp) by (rewrite (he_put _ _ _ _ Hh); done).
  eapply wp_mono; [apply Hsrc; [by rewrite Hcp2|lia|lia|lia]|]. intros r s3 (-> & cp3 & -> & HP3). cbv beta iota.
  simpl when. set (bs := sub_bytes tot m data). assert (Hbs : length bs = Z.to_nat m) by (apply length_sub_bytes; lia).
  set (N := clus_sec (fs_fat s) c + (o + tot) / BSIZE) in *.
  destruct (fo_disk _ Hok1 N) as [Hsl Hsby]; [unfold N; lia|].
  assert (Hmb : 0 <= (o + tot) mod BSIZE) by (unfold BSIZE; dlia).
  apply (fs_store_wp _ _ _ _ (store_at ((o + tot) mod BSIZE) bs) _ _ (in_use_cp _ _ _ _ cp3 Hh)).
  - change (rdisk (with_cp cp3 s1)) with (rdisk s1). rewrite length_store_at; rewrite ?Hsl; lia.
  - apply bytes_ok_store; [by apply bytes_ok_sub|done].
  - change (rdisk (with_cp cp3 s1)) with (rdisk s1). intros s4 (Hok4 & Ho4 & Hd4). simpl negb. cbv iota. wp_step.
    replace (o mod BSIZE + tot + m) with (o mod BSIZE + (tot + m)) by lia.
    apply (IH _ _ _ cp3); [lia|lia| |by rewrite (proj1 Ho4)|done|].
    + split; [done| | |].
      * etrans; [|exact Ho4]. destruct Ho1 as [E1 E2]. split; [|exact E2]. rewrite E1. done.
      * change (fs_fat (with_cp cp3 s)) with (fs_fat s). change (fs_fat (with_cp cp s)) with (fs_fat s) in Hd1.
        rewrite (clus_store _ Hv _ (fo_disk _ Hok1) c Hc _ (o + tot) bs Hot); [|lia|exact Hd4].
        rewrite Hd1. apply store_at_app; lia.
      * intros x Hx. rewrite Hd4. case_bool as E2; [by destruct (Hx ((o + tot) / BSIZE)); [exact Hk|]|by apply Hother1].
    + intros Hlt. destruct Hm3 as [Hm3|Hm3]; [lia|]. rewrite u32_small by (unfold N; lia). unfold N. rewrite Z.add_assoc, Hm3. lia.
Qed.

Lemma store_at_nil o (v : list Z) : store_at o [] v = v.
Proof. unfold store_at. simpl. rewrite Nat.add_0_r. apply take_drop. Qed.

(** Writing [data] at [o] of cluster [c]. *)
Lemma rw_clus_write_wp P data c o source s : fs_ok s -> clus_ok (fs_fat s) c -> 0 <= o ->
  o + Z.of_nat (length data) <= byts_per_clus (fs_fat s) -> bytes_ok data -> source_ok P data source -> P (fs_cp s) ->
  wp (rw_clus_write c source o (Z.of_nat (length data))) (fun r s' => r = Z.of_nat (length data) /\
    exists cp, wrote_clus c (store_at o data (clus_data (fs_fat s) (rdisk s) c)) (with_cp cp s) s' /\ P cp) s.
Proof.
  intros Hok Hc Ho Hon Hby Hsrc HP. pose proof (fo_vol _ Hok) as Hv. assert (Hn : 0 <= Z.of_nat (length data)) by lia.
  unfold rw_clus_write, the_fat. wp_step. wp_step. rewrite (range_check _ _ _ Hv Ho Hn Hon), (start_sector _ _ _ Hv Hc) by lia.
  rewrite (vo_sec _ Hv). replace (o mod BSIZE) with (o mod BSIZE + 0) by lia.
  apply (rw_write_loop P data c o source s Hok Hc Ho Hon Hby Hsrc _ 0 _ s (fs_cp s)); [lia|lia| |done|done|].
  - rewrite with_cp_id. split; [done|reflexivity| |done]. change (sub_bytes 0 0 data) with (@nil Z). by rewrite store_at_nil.
  - intros _. f_equal. f_equal. lia.
Qed.
End fs.
