(* ===== verification/FatFile.v ===== *)
(** * Reading and writing files

    The contents of a file are the bytes of its clusters in the order of the
    chain.  [eread] and [ewrite] transfer a range of the file cluster by
    cluster. *)

From S2P Require Import Prelude Riscv Memory Spinlock Bio BioProps Fat32 FatDisk FatChain FatClus.
Import Hart.

(** ** The caller's memory

    What the file system relies on: copies within a buffer of the caller
    succeed, and the buffer holds what was copied to it last. *)
Class EitherCopyLaws (CS : Type) `{!EitherCopy CS} := {
  ec_mem : CS -> bool -> Z -> Z;
  ec_buf : CS -> bool -> Z -> Z -> Prop;
  ec_out_spec c user a n k bs : ec_buf c user a n -> bytes_ok bs -> 0 <= k -> k + Z.of_nat (length bs) <= n ->
    wp (ec_out user (u64 (a + k)) bs) (fun ok c' => ok = true /\ ec_buf c' user a n /\
      forall x, 0 <= x < n -> ec_mem c' user (a + x) =
        if (k <=? x) && (x <? k + Z.of_nat (length bs)) then byte_at bs (x - k) else ec_mem c user (a + x)) c;
  ec_in_spec c user a n k m : ec_buf c user a n -> 0 <= k -> 0 <= m -> k + m <= n ->
    wp (ec_in user (u64 (a + k)) m) (fun r c' =>
      r = ((fun i => ec_mem c user (a + k + i)) <$> seqZ 0 m, true) /\ ec_buf c' user a n /\
      forall x, 0 <= x < n -> ec_mem c' user (a + x) = ec_mem c user (a + x)) c;
  ec_byte c user a n x : ec_buf c user a n -> 0 <= x < n -> 0 <= ec_mem c user (a + x) < 256;
}.

Section files.
Context {CS D : Type} `{!EitherCopy CS} `{!EitherCopyLaws CS} `{!Disk D} `{!DiskLaws D}.
Implicit Types s : fatst CS D.

(** ** The contents of a file *)

Definition content s (l : list Z) : list Z := concat (clus_data (fs_fat s) (rdisk s) <$> l).

Lemma content_blocks s l : fs_ok s -> (forall x, x ∈ l -> clus_ok (fs_fat s) x) ->
  Forall (fun b => length b = Z.to_nat (byts_per_clus (fs_fat s))) (clus_data (fs_fat s) (rdisk s) <$> l).
Proof.
  intros Hok Hl. apply Forall_fmap, Forall_forall. intros c Hc. apply clus_data_length; [apply Hok|apply Hok|by apply Hl].
Qed.

Lemma content_length s l : fs_ok s -> (forall x, x ∈ l -> clus_ok (fs_fat s) x) ->
  Z.of_nat (length (content s l)) = Z.of_nat (length l) * byts_per_clus (fs_fat s).
Proof.
  intros Hok Hl. unfold content. rewrite (concat_length _ _ (content_blocks s l Hok Hl)), length_fmap.
  destruct (bpc_bounds _ (fo_vol _ Hok)). lia.
Qed.

Lemma off_cluster s off : fs_ok s -> 0 <= off ->
  let B := byts_per_clus (fs_fat s) in off = B * (off / B) + off mod B /\ 0 <= off mod B < B /\ 0 <= off / B.
Proof.
  intros Hok Hoff B. destruct (bpc_bounds _ (fo_vol _ Hok)) as [Hb _]. fold B in Hb.
  split; [apply Z.div_mod; lia|]. split; [apply Z.mod_pos_bound; lia|apply Z.div_pos; lia].
Qed.

Lemma content_piece s l off m : fs_ok s -> (forall x, x ∈ l -> clus_ok (fs_fat s) x) ->
  let B := byts_per_clus (fs_fat s) in 0 <= off -> off / B < Z.of_nat (length l) -> off mod B + m <= B ->
  sub_bytes (off mod B) m (clus_data (fs_fat s) (rdisk s) (l !!! Z.to_nat (off / B))) = sub_bytes off m (content s l).
Proof.
  intros Hok Hl B Hoff Hk Hm. destruct (off_cluster s off Hok Hoff) as (H1 & H2 & H3). fold B in H1, H2, H3.
  rewrite H1 at 3. unfold content. symmetry. apply sub_bytes_block; try lia; [by apply content_blocks|].
  rewrite list_lookup_fmap, lookup_total_Some by lia. done.
Qed.

Lemma content_store s s' l off bs : fs_ok s -> (forall x, x ∈ l -> clus_ok (fs_fat s) x) -> NoDup l ->
  let B := byts_per_clus (fs_fat s) in 0 <= off -> off / B < Z.of_nat (length l) -> off mod B + Z.of_nat (length bs) <= B ->
  fs_fat s' = fs_fat s ->
  (forall x, clus_ok (fs_fat s) x -> clus_data (fs_fat s) (rdisk s') x =
    if l !!! Z.to_nat (off / B) =? x then store_at (off mod B) bs (clus_data (fs_fat s) (rdisk s) x) else clus_data (fs_fat s) (rdisk s) x) ->
  content s' l = store_at off bs (content s l).
Proof.
  intros Hok Hl Hnd B Hoff Hk Hm Hfat Hx. destruct (off_cluster s off Hok Hoff) as (H1 & H2 & H3). fold B in H1, H2, H3.
  set (k := off / B) in *. set (c := l !!! Z.to_nat k). assert (Hc : l !! Z.to_nat k = Some c) by (apply lookup_total_Some; lia).
  rewrite H1. unfold content. rewrite Hfat.
  rewrite <- (store_block B _ _ (clus_data (fs_fat s) (rdisk s) c)); try lia; [|by apply content_blocks|by rewrite list_lookup_fmap, Hc].
  f_equal. apply list_eq. intros i. rewrite list_lookup_fmap. destruct (decide (i = Z.to_nat k)) as [->|Hne].
  - rewrite list_lookup_insert_eq by (rewrite length_fmap; lia). rewrite Hc. simpl.
    rewrite Hx by (apply Hl; by eapply list_elem_of_lookup_2). fold c. by rewrite Z.eqb_refl.
  - rewrite list_lookup_insert_ne, list_lookup_fmap by done. destruct (l !! i) as [x|] eqn:Ex; [|done]. simpl. f_equal.
    rewrite Hx by (apply Hl; by eapply list_elem_of_lookup_2). fold c. destruct (Z.eqb_spec c x) as [Heq|]; [|done]. exfalso.
    apply Hne. eapply (NoDup_lookup l); [done|exact Ex|by rewrite Hc, Heq].
Qed.

Lemma content_ext s s' l : fs_fat s' = fs_fat s ->
  (forall x, x ∈ l -> clus_data (fs_fat s) (rdisk s') x = clus_data (fs_fat s) (rdisk s) x) -> content s' l = content s l.
Proof.
  intros Hf Hx. unfold content. rewrite Hf. f_equal. apply list_fmap_ext. intros i x Hi. apply Hx. by eapply list_elem_of_lookup_2.
Qed.

(** ** Reading *)

(** The buffer at [dst] holds [bs], and nothing else of it changed. *)
Definition delivered (c0 : CS) (user : bool) (dst n : Z) (bs : list Z) (c : CS) : Prop :=
  ec_buf c user dst n /\ forall x, 0 <= x < n ->
    ec_mem c user (dst + x) = if x <? Z.of_nat (length bs) then byte_at bs x else ec_mem c0 user (dst + x).

Lemma byte_at_app (a b : list Z) x : 0 <= x -> byte_at (a ++ b) x = if x <? Z.of_nat (length a) then byte_at a x else byte_at b (x - Z.of_nat (length a)).
Proof.
  intros Hx. unfold byte_at. case_bool as E; [by apply lookup_total_app_l; lia|].
  rewrite lookup_total_app_r by lia. f_equal. lia.
Qed.

(** The copies of [rw_clus] for the part of the buffer behind [acc0]. *)
Lemma copyout_sink c0 user dst n acc0 m : Z.of_nat (length acc0) + m <= n ->
  sink_ok (D := D) (fun acc c => delivered c0 user dst n (acc0 ++ acc) c) m
    (fun k bs => zoom (T := CS) (ec_out user (u64 (u64 (dst + Z.of_nat (length acc0)) + k)) bs)).
Proof.
  intros Hm acc bs s [Hb Hmem] Hby Hlen. rewrite length_app in Hlen. apply wp_zoom.
  replace (u64 (u64 (dst + Z.of_nat (length acc0)) + Z.of_nat (length acc))) with (u64 (dst + (Z.of_nat (length acc0) + Z.of_nat (length acc)))).
  2: { unfold u64. rewrite Zplus_mod_idemp_l. f_equal. lia. }
  eapply wp_mono; [apply (ec_out_spec _ user dst n); [exact Hb|exact Hby|lia|lia]|].
  intros ok c' (-> & Hb' & Hmem'). split; [done|]. exists c'. split; [done|]. split; [done|]. intros x Hx.
  change (lget s) with (fs_cp s) in Hmem'. rewrite Hmem', Hmem by done. rewrite app_assoc, (byte_at_app (acc0 ++ acc)) by lia.
  rewrite !length_app, !Nat2Z.inj_add.
  repeat match goal with
  | |- context [?a <? ?b] => destruct (Z.ltb_spec a b)
  | |- context [?a <=? ?b] => destruct (Z.leb_spec a b)
  end; simpl; (done || lia || (f_equal; lia)).
Qed.

(** Only the position of [e] and the caller's memory changed. *)
Record reader (e : Z) (l : list Z) s s1 : Prop := {
  re_ok : fs_ok s1;
  re_disk : rdisk s1 = rdisk s;
  re_at : at_file s1 e l;
  re_only : only_disk (with_cp (fs_cp s1) (upd_ent e (seek (d_clus_cnt (ent s1 e)) (d_cur_clus (ent s1 e))) s)) s1;
}.

Lemma reader_fat e l s s1 : reader e l s s1 -> fs_fat s1 = fs_fat s.
Proof. intros [_ _ _ H]. by rewrite (only_disk_fat _ _ H). Qed.

Lemma at_file_cp cp s e l : at_file s e l -> at_file (with_cp cp s) e l.
Proof. intros [A1 [C1 C2 C3] A3 A4]. by split. Qed.

Lemma reader_step e l k s s1 s2 s3 cp : (Z.to_nat e < length (fs_ents s))%nat -> reader e l s s1 -> moved e l k s1 s2 ->
  0 <= k < Z.of_nat (length l) -> same_disk (with_cp cp s2) s3 -> reader e l s s3.
Proof.
  intros He [R1 R2 R3 R4] Hmv Hk (S1 & S2 & S3). destruct (moved_at _ _ _ _ _ R3 Hmv Hk) as (Ha & Hc & Hcur).
  destruct Hmv as (M1 & M2 & M3). pose proof (only_disk_ent _ _ e S2) as He3. change (ent (with_cp cp s2) e) with (ent s2 e) in He3.
  split; [done| | |].
  - rewrite S3. change (rdisk (with_cp cp s2)) with (rdisk s2). congruence.
  - apply (af_disk (with_cp cp s2)); [done| |by apply at_file_cp]. intros x _. apply fate_same; [by apply only_disk_fat|done].
  - rewrite He3, Hc, Hcur. assert (Hcp : fs_cp s3 = cp) by (by rewrite (proj1 S2)). rewrite Hcp.
    destruct R4 as [E4 P4]. destruct M3 as [E3 P3]. destruct S2 as [E2 P2]. split; [|rewrite P2; simpl in *; congruence].
    rewrite E2, E3. rewrite E4. unfold with_cp, upd_ent, ent. simpl. rewrite list_insert_insert_eq.
    by rewrite list_lookup_total_insert_eq by done.
Qed.

Lemma eread_loop e l c0 user dst nb off n s : fs_ok s -> at_file s e l -> 0 <= off -> 0 <= n -> off + n < 2 ^ 32 ->
  off + n <= Z.of_nat (length (content s l)) -> n <= nb -> forall fuel tot d s1,
  0 <= tot <= n -> (Z.to_nat (n - tot) < fuel)%nat -> reader e l s s1 ->
  delivered c0 user dst nb (sub_bytes off tot (content s l)) (fs_cp s1) -> d = u64 (dst + tot) ->
  wp (loop fuel (eread_body e user n) (tot, off + tot, d)) (fun r s' => r = n /\ reader e l s s' /\
    delivered c0 user dst nb (sub_bytes off n (content s l)) (fs_cp s')) s1.
Proof.
  intros Hok Ha Hoff Hn H32 Hlen Hnb. pose proof (fo_vol _ Hok) as Hv. destruct (bpc_bounds _ Hv) as [Hb _].
  pose proof (cl_ok _ _ _ (af_cl _ _ _ Ha)) as Hcl. rewrite (content_length s l Hok Hcl) in Hlen.
  set (B := byts_per_clus (fs_fat s)) in *.
  induction fuel as [|fuel IH]; intros tot d s1 Htot Hf Hr Hdel Hd; [lia|]. apply wp_loop_S. unfold eread_body, the_fat, gete.
  pose proof Hr as [R1 R2 R3 R4]. pose proof (reader_fat _ _ _ _ Hr) as Hfat. wp_step. wp_step. wp_step. wp_step. rewrite Hfat. fold B.
  destruct (next_of _ _ _ R3) as [Hcur _]. rewrite Hfat in Hcur. destruct (clus_ok_int _ _ Hv Hcur) as (_ & _ & HltE).
  destruct (Z.ltb_spec (d_cur_clus (ent s1 e)) FAT32_EOC) as [_|]; [|lia]. simpl andb. case_bool as E.
  2: { wp_go. assert (tot = n) as -> by lia. done. }
  assert (Hoff1 : 0 <= off + tot < 2 ^ 32) by lia. destruct (off_cluster s (off + tot) Hok) as (D1 & D2 & D3); [lia|]. fold B in D1, D2, D3.
  assert (Hk : 0 <= (off + tot) / B < Z.of_nat (length l)).
  { split; [done|]. apply Z.div_lt_upper_bound; [lia|]. nia. }
  wp_step. eapply wp_mono; [apply (reloc_wp e l (off + tot) false s1); rewrite ?Hfat; fold B; try done; lia|].
  rewrite ?Hfat. fold B. intros r s2 [_ Hmv]. destruct (moved_at _ _ _ _ _ R3 Hmv Hk) as (Ha2 & Hc2 & Hcur2).
  pose proof Hmv as (M1 & M2 & M3). assert (Hfat2 : fs_fat s2 = fs_fat s) by (by rewrite (only_disk_fat _ _ M3)).
  cbv zeta. set (m := if n - tot <? B - (off + tot) mod B then n - tot else B - (off + tot) mod B).
  assert (Hm : 0 < m <= n - tot /\ (off + tot) mod B + m <= B) by (unfold m; case_bool as E2; lia).
  wp_step. wp_step. rewrite Hcur2, Hd. wp_step.
  assert (Hcs : content s2 l = content s l).
  { apply content_ext; [done|]. intros x _. by rewrite M2, R2. }
  assert (Hacc : Z.of_nat (length (sub_bytes off tot (content s l))) = tot).
  { rewrite length_sub_bytes; rewrite ?(content_length s l Hok Hcl); fold B; lia. }
  pose proof (copyout_sink c0 user dst nb (sub_bytes off tot (content s l)) m) as Hsink. rewrite Hacc in Hsink.
  eapply wp_mono; [apply (rw_clus_read_wp (fun acc c => delivered c0 user dst nb (sub_bytes off tot (content s l) ++ acc) c) _ _ m _ s2); [done| |lia|lia| |apply Hsink; lia|]|].
  - rewrite Hfat2. apply Hcl. eapply list_elem_of_lookup_2. by apply lookup_total_Some.
  - rewrite Hfat2. fold B. lia.
  - rewrite app_nil_r. assert (fs_cp s2 = fs_cp s1) as -> by (by rewrite (proj1 M3)). done.
  - intros r2 s3 (-> & cp & Hs3 & Hdel3). cbn [fst]. rewrite Z.eqb_refl. simpl negb. cbv iota. wp_step.
    replace (u32 (off + tot + m)) with (off + (tot + m)) by (rewrite u32_small; lia).
    pose proof (content_piece s2 l (off + tot) m M1) as Hp. rewrite Hfat2 in *. fold B in Hp. rewrite Hp in Hdel3 by (done || lia).
    rewrite Hcs, sub_bytes_app in Hdel3 by (rewrite ?(content_length s l Hok Hcl); fold B; lia).
    assert (Hcp3 : fs_cp s3 = cp) by (by rewrite (proj1 (proj1 (proj2 Hs3)))).
    apply IH; [lia|lia|by apply (reader_step e l _ s s1 s2 s3 cp (af_e _ _ _ Ha) Hr Hmv Hk)|by rewrite Hcp3|].
    unfold u64. rewrite Zplus_mod_idemp_l. f_equal. lia.
Qed.

(** ** Writing *)

(** The bytes at [src]. *)
Definition user_bytes (c : CS) (user : bool) (src n : Z) : list Z := (fun i => ec_mem c user (src + i)) <$> seqZ 0 n.

Definition source_same (c0 : CS) (user : bool) (src n : Z) (c : CS) : Prop :=
  ec_buf c user src n /\ forall x, 0 <= x < n -> ec_mem c user (src + x) = ec_mem c0 user (src + x).

Lemma user_bytes_length c user src n : 0 <= n -> Z.of_nat (length (user_bytes c user src n)) = n.
Proof. intros Hn. unfold user_bytes. rewrite length_fmap, length_seqZ. lia. Qed.

Lemma user_bytes_ok c user src n : ec_buf c user src n -> bytes_ok (user_bytes c user src n).
Proof.
  intros Hb. apply Forall_fmap, Forall_forall. intros i Hi. apply elem_of_seqZ in Hi. apply (ec_byte c user src n); [done|lia].
Qed.

Lemma lookup_user_bytes c user src n k : user_bytes c user src n !! k =
  if Z.of_nat k <? n then Some (ec_mem c user (src + Z.of_nat k)) else None.
Proof.
  unfold user_bytes. rewrite list_lookup_fmap. case_bool as E.
  - assert (seqZ 0 n !! k = Some (Z.of_nat k)) as -> by (apply lookup_seqZ; lia). done.
  - rewrite lookup_seqZ_ge by lia. done.
Qed.

(** The copies of [rw_clus] for the part of the buffer from [tot] on. *)
Lemma copyin_source c0 user src n tot m : 0 <= tot -> 0 <= m -> tot + m <= n ->
  source_ok (D := D) (source_same c0 user src n) (sub_bytes tot m (user_bytes c0 user src n))
    (fun k m => zoom (T := CS) (ec_in user (u64 (u64 (src + tot) + k)) m)).
Proof.
  intros Ht Hm Hn k m' s [Hb Hmem] Hk Hm' Hlen.
  assert (Hul : Z.of_nat (length (user_bytes c0 user src n)) = n) by (apply user_bytes_length; lia).
  rewrite length_sub_bytes in Hlen by lia. apply wp_zoom.
  replace (u64 (u64 (src + tot) + k)) with (u64 (src + (tot + k))) by (unfold u64; rewrite Zplus_mod_idemp_l; f_equal; lia).
  eapply wp_mono; [apply (ec_in_spec _ user src n); [exact Hb|lia|lia|lia]|]. intros r c' (-> & Hb' & Hmem').
  change (lget s) with (fs_cp s) in *. split.
  - f_equal. apply list_eq. intros i. rewrite !lookup_sub_bytes by lia. fold (user_bytes (fs_cp s) user (src + (tot + k)) m').
    rewrite (lookup_user_bytes (fs_cp s)), lookup_user_bytes. case_bool as E; [|done]. case_bool as E2; [|lia]. case_bool as E3; [|lia].
    f_equal. rewrite <- Z.add_assoc, Hmem by lia. f_equal. lia.
  - exists c'. split; [done|]. split; [done|]. intros x Hx. by rewrite Hmem', Hmem.
Qed.

Lemma store_at_app_l o bs (a b : list Z) : 0 <= o -> o + Z.of_nat (length bs) <= Z.of_nat (length a) ->
  store_at o bs (a ++ b) = store_at o bs a ++ b.
Proof.
  intros Ho Hl. unfold store_at. rewrite take_app_le by lia. rewrite drop_app_le by lia. by rewrite <- !app_assoc.
Qed.

(** The contents of a chain that was extended. *)
Lemma grown_content e l l' s s' : fs_ok s -> at_file s e l -> grown e l l' s s' ->
  content s' l' = content s l ++ replicate (Z.to_nat (byts_per_clus (fs_fat s)) * (length l' - length l)) 0.
Proof.
  intros Hok Ha Hg. pose proof (grown_fat _ _ _ _ _ Hg) as Hfat. destruct Hg as [G1 G2 G3 [k ->] G5 G6 G7 G8 G9].
  pose proof (af_cl _ _ _ G2) as [C1 C2 C3]. rewrite Hfat in C1. apply NoDup_app in C2 as (_ & Hdis & _).
  unfold content. rewrite fmap_app, concat_app, Hfat. f_equal.
  - f_equal. apply list_fmap_ext. intros i x Hx. apply list_elem_of_lookup_2 in Hx. apply G7; [|by left].
    apply C1, elem_of_app. by left.
  - rewrite length_app. replace (length l + length k - length l)%nat with (length k) by lia.
    assert (Hz : forall x, x ∈ k -> clus_data (fs_fat s) (rdisk s') x = replicate (Z.to_nat (byts_per_clus (fs_fat s))) 0).
    { intros x Hx. apply G8; [apply elem_of_app; by right|]. intros Hl. by apply (Hdis x). }
    clear - Hz. induction k as [|x k IH]; [by rewrite Nat.mul_0_r|]. simpl.
    rewrite Hz by left. setoid_rewrite IH; [|intros y Hy; apply Hz; by right]. rewrite <- replicate_add. f_equal. lia.
Qed.

(** A cluster of the chain was overwritten: FAT and other clusters stay. *)
Lemma wrote_clus_fate c v s s' x : fs_ok s -> clus_ok (fs_fat s) c -> wrote_clus c v s s' ->
  0 <= x < data_clus_cnt (fs_fat s) + 2 -> fate s' x = fate s x.
Proof.
  intros Hok Hc [W1 W2 W3 W4] Hx. pose proof (fo_vol _ Hok) as Hv. unfold fate. rewrite (only_disk_fat _ _ W2).
  apply fat_entry_ext; [done|done|]. intros n Hn. apply W4. intros k Hk. pose proof (clus_sec_bound _ Hv c Hc). lia.
Qed.

Lemma wrote_clus_other c v s s' x : fs_ok s -> clus_ok (fs_fat s) c -> wrote_clus c v s s' -> clus_ok (fs_fat s) x -> x <> c ->
  clus_data (fs_fat s) (rdisk s') x = clus_data (fs_fat s) (rdisk s) x.
Proof.
  intros Hok Hc [W1 W2 W3 W4] Hx Hne. apply clus_data_ext. intros k Hk. apply W4. intros k' Hk' Heq.
  by destruct (clus_sec_disjoint (fs_fat s) x c k k').
Qed.

(** Clusters that hold [o] bytes. *)
Definition clus_need (B o : Z) : Z := (o + B - 1) / B.

(** How the rest of an entry may differ while it is written. *)
Definition rewritten (x1 x : dirent) : dirent :=
  seek (d_clus_cnt x1) (d_cur_clus x1) (set_d_first_clus (d_first_clus x1) (set_d_dirty (d_dirty x1) x)).

(** [tot] bytes of [data] have been written at [off] of the file with chain
    [l], which is now [l1]: the contents have changed in that range only, new
    clusters were free and hold zeros elsewhere, no other chain or cluster
    has changed. *)
Record writer (e : Z) (l : list Z) (off : Z) (data : list Z) s (tot : Z) (l1 : list Z) s1 : Prop := {
  wr_ok : fs_ok s1;
  wr_at : at_file s1 e l1;
  wr_pre : l `prefix_of` l1;
  wr_len : Z.of_nat (length l1) = Z.max (Z.max (Z.of_nat (length l)) 1) (clus_need (byts_per_clus (fs_fat s)) (off + tot));
  wr_fresh c : c ∈ l1 -> c ∉ l -> fate s c = 0;
  wr_other c : 0 <= c < data_clus_cnt (fs_fat s) + 2 -> c ∉ l1 -> fate s1 c = fate s c;
  wr_data c : clus_ok (fs_fat s) c -> c ∉ l1 -> clus_data (fs_fat s) (rdisk s1) c = clus_data (fs_fat s) (rdisk s) c;
  wr_content : content s1 l1 = store_at off (sub_bytes 0 tot data)
    (content s l ++ replicate (Z.to_nat (byts_per_clus (fs_fat s)) * (length l1 - length l)) 0);
  wr_free : (free_count s1 + length l1 = free_count s + length l)%nat;
  wr_res : reserved s1;
  wr_only : only_disk (with_cp (fs_cp s1) (upd_ent e (rewritten (ent s1 e)) s)) s1;
}.

Lemma writer_fat e l off data s tot l1 s1 : writer e l off data s tot l1 s1 -> fs_fat s1 = fs_fat s.
Proof. intros Hw. by rewrite (only_disk_fat _ _ (wr_only _ _ _ _ _ _ _ _ Hw)). Qed.

Lemma clus_need_step B o m : 0 < B -> 0 <= o -> 0 < m -> o mod B + m <= B -> clus_need B (o + m) = o / B + 1.
Proof.
  intros HB Ho Hm Hle. unfold clus_need. pose proof (Z.div_mod o B) as Hdm. pose proof (Z.mod_pos_bound o B HB).
  symmetry. apply (Z.div_unique_pos _ _ _ (o mod B + m - 1)); [lia|]. rewrite Hdm at 1 by lia. lia.
Qed.

Lemma clus_need_mono B o o' : 0 < B -> o <= o' -> clus_need B o <= clus_need B o'.
Proof. intros HB Ho. apply Z.div_le_mono; lia. Qed.

Lemma clus_need_covers B o n : 0 < B -> 0 <= o -> clus_need B o <= n -> o <= n * B.
Proof.
  intros HB Ho Hn. unfold clus_need in Hn. pose proof (Z.div_mod (o + B - 1) B) as Hdm. pose proof (Z.mod_pos_bound (o + B - 1) B HB). nia.
Qed.

(** One round: the chain was extended to the cluster of [off + tot] and [m]
    bytes of that cluster were written. *)
Lemma writer_step e l off data s tot l1 s1 l2 s2 m s3 cp : (Z.to_nat e < length (fs_ents s))%nat ->
  let B := byts_per_clus (fs_fat s) in fs_ok s -> (forall x, x ∈ l -> clus_ok (fs_fat s) x) ->
  0 <= off -> 0 <= tot -> 0 < m -> tot + m <= Z.of_nat (length data) -> (off + tot) mod B + m <= B ->
  off <= Z.of_nat (length l) * B -> writer e l off data s tot l1 s1 -> grown e l1 l2 s1 s2 ->
  d_clus_cnt (ent s2 e) = (off + tot) / B -> length l2 = Nat.max (length l1) (Z.to_nat ((off + tot) / B + 1)) -> reserved s2 ->
  wrote_clus (d_cur_clus (ent s2 e)) (store_at ((off + tot) mod B) (sub_bytes tot m data)
    (clus_data (fs_fat s) (rdisk s2) (d_cur_clus (ent s2 e)))) (with_cp cp s2) s3 -> fs_cp s3 = cp ->
  writer e l off data s (tot + m) l2 s3.
Proof.
  intros He B Hok Hcl Hoff Htot Hm Hdl Hmb Hol Hw Hg Hcnt Hlen2 Hres Hwc Hcp.
  pose proof (writer_fat _ _ _ _ _ _ _ _ Hw) as Hf1. pose proof (grown_fat _ _ _ _ _ Hg) as Hf2. rewrite Hf1 in Hf2.
  pose proof (grown_content _ _ _ _ _ (wr_ok _ _ _ _ _ _ _ _ Hw) (wr_at _ _ _ _ _ _ _ _ Hw) Hg) as Hgc. rewrite Hf1 in Hgc. fold B in Hgc.
  destruct Hw as [W1 W2 W3 W4 W5 W6 W7 W8 W9 W10 W11]. destruct Hg as [G1 G2 G3 G4 G5 G6 G7 G8 G9]. rewrite Hf1 in *.
  pose proof (fo_vol _ Hok) as Hv. destruct (bpc_bounds _ Hv) as [Hb _]. fold B in W4, W8, Hb.
  set (c := d_cur_clus (ent s2 e)) in *. pose proof (af_cl _ _ _ G2) as [C1 C2 C3]. rewrite Hf2 in C1.
  assert (Hc2 : l2 !! Z.to_nat ((off + tot) / B) = Some c) by (rewrite <- Hcnt; apply G2).
  assert (Hcin : c ∈ l2) by by eapply list_elem_of_lookup_2. pose proof (C1 c Hcin) as Hcok.
  assert (Hk : 0 <= (off + tot) / B) by (apply Z.div_pos; lia).
  assert (Hok2 : fs_ok (with_cp cp s2)) by (by destruct G1).
  assert (Hfate : forall x, 0 <= x < data_clus_cnt (fs_fat s) + 2 -> fate s3 x = fate s2 x).
  { intros x Hx. eapply (wrote_clus_fate c _ (with_cp cp s2) s3); [done|simpl; by rewrite Hf2|exact Hwc|simpl; by rewrite Hf2]. }
  assert (Hother : forall x, clus_ok (fs_fat s) x -> x <> c -> clus_data (fs_fat s) (rdisk s3) x = clus_data (fs_fat s) (rdisk s2) x).
  { intros x Hx Hne. rewrite <- Hf2 in *. by eapply (wrote_clus_other c _ (with_cp cp s2) s3 x Hok2). }
  destruct Hwc as [V1 V2 V3 V4]. simpl in V3. rewrite Hf2 in V3.
  assert (Hf3 : fs_fat s3 = fs_fat s) by (rewrite (only_disk_fat _ _ V2); exact Hf2).
  assert (He3 : ent s3 e = ent s2 e) by (rewrite (only_disk_ent _ _ e V2); done).
  assert (Hl12 : (length l1 <= length l2)%nat) by lia. assert (Hl01 : (length l <= length l1)%nat) by (by apply prefix_length).
  split; [done| |by etrans| | | | | | | | ].
  - apply (af_disk (with_cp cp s2)); [done| |by apply at_file_cp]. intros x Hx. apply Hfate. by apply clus_ok_range, C1.
  - fold B. pose proof (clus_need_mono B (off + tot) (off + tot + m)) as Hmono.
    rewrite Z.add_assoc, (clus_need_step B (off + tot) m) in * by lia. lia.
  - intros x Hx Hn. destruct (decide (x ∈ l1)) as [H1|H1]; [by apply W5|].
    rewrite <- W6 by (done || by apply clus_ok_range, C1). by apply G5.
  - intros x Hx Hn. rewrite Hfate, G6, W6; try done. intros H1. by apply Hn, (prefix_elem l1).
  - intros x Hx Hn. rewrite Hother, G7, W7; try done; [| |by intros ->].
    + intros H1. by apply Hn, (prefix_elem l1).
    + by right.
  - assert (Hcs : content s3 l2 = store_at (off + tot) (sub_bytes tot m data) (content s2 l2)).
    { assert (Hsl : length (sub_bytes tot m data) = Z.to_nat m) by (apply length_sub_bytes; lia).
      apply content_store; rewrite ?Hf2; fold B; [done|by rewrite ?Hf2|done|lia| |lia|congruence|].
      - lia.
      - intros x Hx. rewrite (list_lookup_total_correct _ _ _ Hc2). destruct (Z.eqb_spec c x) as [<-|Hne]; [exact V3|].
        apply Hother; congruence. }
    rewrite Hcs, Hgc, W8.
    assert (Hclen : Z.of_nat (length (content s l ++ replicate (Z.to_nat B * (length l1 - length l)) 0)) = Z.of_nat (length l1) * B).
    { rewrite length_app, length_replicate. pose proof (content_length s l Hok Hcl) as Hcl'. fold B in Hcl'. nia. }
    assert (Hcov : off + tot <= Z.of_nat (length l1) * B) by (apply clus_need_covers; lia).
    assert (Hst : length (sub_bytes 0 tot data) = Z.to_nat tot) by (apply length_sub_bytes; lia).
    rewrite <- store_at_app_l by lia. rewrite <- app_assoc, <- replicate_add.
    replace (Z.to_nat B * (length l1 - length l) + Z.to_nat B * (length l2 - length l1))%nat with (Z.to_nat B * (length l2 - length l))%nat by nia.
    apply store_at_app; try lia. rewrite length_app, length_replicate.
    pose proof (content_length s l Hok Hcl) as Hcl'. fold B in Hcl'.
    pose proof (Z.div_mod (off + tot) B). assert (Hin : (off + tot) / B + 1 <= Z.of_nat (length l2)) by lia. nia.
  - assert (free_count s3 = free_count s2); [|lia]. apply free_count_ext; [congruence|]. rewrite Hf2.
    intros x Hx. by apply Hfate, clus_ok_range.
  - destruct Hres as [R0 R1]. pose proof (vo_cnt _ Hv). split; rewrite Hfate by lia; done.
  - rewrite Hcp, He3. destruct W11 as [E1 P1]. destruct G3 as [E2 P2]. destruct V2 as [E3 P3].
    split; [|simpl in *; congruence]. rewrite E3, E2, E1. unfold with_cp, upd_ent, rewritten, ent. simpl.
    rewrite list_insert_insert_eq, !list_lookup_total_insert_eq by (rewrite ?length_insert; done). done.
Qed.

Lemma writer_dev e l off data s tot l1 s1 : (Z.to_nat e < length (fs_ents s))%nat ->
  writer e l off data s tot l1 s1 -> d_dev (ent s1 e) = d_dev (ent s e).
Proof. intros He Hw. rewrite (only_disk_ent _ _ e (wr_only _ _ _ _ _ _ _ _ Hw)). change (d_dev (ent (upd_ent e (rewritten (ent s1 e)) s) e) = d_dev (ent s e)). by rewrite ent_upd. Qed.

Lemma ewrite_loop e l c0 user src off n s : let data := user_bytes c0 user src n in let B := byts_per_clus (fs_fat s) in
  (Z.to_nat e < length (fs_ents s))%nat -> fs_ok s -> (forall x, x ∈ l -> clus_ok (fs_fat s) x) -> d_dev (ent s e) = 0 ->
  0 <= off -> 0 <= n -> off + n < 2 ^ 32 -> off <= Z.of_nat (length l) * B -> ec_buf c0 user src n ->
  clus_need B (off + n) <= Z.of_nat (length l + free_count s) ->
  forall fuel tot d l1 s1, 0 <= tot <= n -> (Z.to_nat (n - tot) < fuel)%nat -> writer e l off data s tot l1 s1 ->
  source_same c0 user src n (fs_cp s1) -> d = u64 (src + tot) ->
  wp (loop fuel (ewrite_body e user n) (tot, off + tot, d)) (fun r s' => r = (n, off + n) /\
    exists l', writer e l off data s n l' s' /\ source_same c0 user src n (fs_cp s')) s1.
Proof.
  intros data B He Hok Hcl Hdev Hoff Hn H32 Hol Hbuf Hfree. pose proof (fo_vol _ Hok) as Hv. destruct (bpc_bounds _ Hv) as [Hb _]. fold B in Hb.
  assert (Hdl : Z.of_nat (length data) = n) by by apply user_bytes_length.
  induction fuel as [|fuel IH]; intros tot d l1 s1 Htot Hf Hw Hsrc Hd; [lia|]. apply wp_loop_S. unfold ewrite_body, the_fat, gete.
  pose proof (writer_fat _ _ _ _ _ _ _ _ Hw) as Hf1. wp_step. wp_step. rewrite Hf1. fold B. case_bool as E.
  2: { wp_go. assert (tot = n) as -> by lia. split; [done|]. by exists l1. }
  assert (Hmod : 0 <= (off + tot) mod B < B) by (apply Z.mod_pos_bound; lia). wp_step.
  pose proof (wr_free _ _ _ _ _ _ _ _ Hw) as Hfr.
  assert (Hneed : (off + tot) / B + 1 <= clus_need B (off + n)).
  { rewrite <- (clus_need_step B (off + tot) 1) by lia. apply clus_need_mono; lia. }
  eapply wp_mono; [apply (reloc_grow_wp e l1 (off + tot) s1); [apply Hw|apply Hw| |apply Hw|lia|rewrite Hf1; fold B; lia]|].
  { by rewrite (writer_dev _ _ _ _ _ _ _ _ He Hw). }
  rewrite Hf1. fold B. intros r s2 (_ & l2 & Hg & Hcnt & Hlen2 & Hres). cbv zeta.
  set (m := if n - tot <? B - (off + tot) mod B then n - tot else B - (off + tot) mod B).
  assert (Hm : 0 < m <= n - tot /\ (off + tot) mod B + m <= B) by (unfold m; case_bool as E2; lia).
  wp_step. wp_step. rewrite Hd. wp_step. pose proof (grown_fat _ _ _ _ _ Hg) as Hf2. rewrite Hf1 in Hf2.
  assert (Hpl : length (sub_bytes tot m data) = Z.to_nat m) by (apply length_sub_bytes; lia).
  pose proof (rw_clus_write_wp (source_same c0 user src n) (sub_bytes tot m data) (d_cur_clus (ent s2 e)) ((off + tot) mod B)
    (fun k m => zoom (T := CS) (ec_in user (u64 (u64 (src + tot) + k)) m)) s2) as Hrw.
  rewrite Hpl, Z2Nat.id in Hrw by lia.
  eapply wp_mono; [apply Hrw|].
  - apply Hg.
  - destruct (next_of _ _ _ (gr_at _ _ _ _ _ Hg)) as [Hc _]. done.
  - lia.
  - rewrite Hf2. fold B. lia.
  - by apply bytes_ok_sub, user_bytes_ok.
  - apply copyin_source; lia.
  - assert (fs_cp s2 = fs_cp s1) as -> by (by rewrite (proj1 (gr_only _ _ _ _ _ Hg))). done.
  - intros r2 s3 (-> & cp & Hwc & Hsame). rewrite Z.eqb_refl. simpl negb. cbv iota. wp_step.
    replace (u32 (off + tot + m)) with (off + (tot + m)) by (rewrite u32_small; lia).
    assert (Hcp : fs_cp s3 = cp) by (by rewrite (proj1 (wc_only _ _ _ _ Hwc))). rewrite Hf2 in Hwc.
    apply (IH _ _ l2); [lia|lia| |by rewrite Hcp|unfold u64; rewrite Zplus_mod_idemp_l; f_equal; lia].
    apply (writer_step e l off data s tot l1 s1 l2 s2 m s3 cp); fold B; (done || lia || exact Hwc).
Qed.

(** The file after a write: as while it is written, with the new size. *)
Definition sized (old new : Z) (e : Z) s1 s2 : Prop :=
  s2 = (if old <? new then upd_ent e (fun x => set_d_dirty true (set_d_file_size new x)) s1 else s1).

Lemma ewrite_from e l off n s user src s1 l1 : let B := byts_per_clus (fs_fat s) in
  (Z.to_nat e < length (fs_ents s))%nat -> fs_ok s -> (forall x, x ∈ l -> clus_ok (fs_fat s) x) -> d_dev (ent s e) = 0 ->
  0 <= off -> 0 <= n < 2 ^ 31 -> off + n < 2 ^ 32 -> off <= Z.of_nat (length l) * B -> ec_buf (fs_cp s) user src n -> 0 <= src < 2 ^ 64 ->
  clus_need B (off + n) <= Z.of_nat (length l + free_count s) ->
  writer e l off (user_bytes (fs_cp s) user src n) s 0 l1 s1 -> fs_cp s1 = fs_cp s -> off <= d_file_size (ent s e) ->
  wp (r <- loop (S (Z.to_nat n)) (ewrite_body e user n) (0, off, src) ;;
      let '(tot, off) := r in
      when (0 <? n) (d <- gete e ;; when (d_file_size d <? off) (sete e (fun d => set_d_dirty true (set_d_file_size off d)))) ;;
      ret (s32 tot)) (fun r s' => r = n /\ exists l' s2, writer e l off (user_bytes (fs_cp s) user src n) s n l' s2 /\
        source_same (fs_cp s) user src n (fs_cp s2) /\ sized (d_file_size (ent s e)) (off + n) e s2 s') s1.
Proof.
  intros B He Hok Hcl Hdev Hoff Hn H32 Hol Hbuf Hsrc Hfree Hw Hcp Hsz. wp_step. replace off with (off + 0) at 1 by lia.
  eapply wp_mono; [apply (ewrite_loop e l (fs_cp s) user src off n s) with (l1 := l1); try done; try lia|].
  - rewrite Hcp. split; [done|]. done.
  - rewrite u64_small; lia.
  - intros r s2 (-> & l' & Hw2 & Hsame). cbv beta iota. wp_step.
    assert (Hfs : d_file_size (ent s2 e) = d_file_size (ent s e)).
    { rewrite (only_disk_ent _ _ e (wr_only _ _ _ _ _ _ _ _ Hw2)).
      change (d_file_size (ent (upd_ent e (rewritten (ent s2 e)) s) e) = d_file_size (ent s e)). by rewrite ent_upd. }
    rewrite (s32_small n) by lia. unfold gete, sete. wp_step.
    + wp_step. wp_step. rewrite Hfs. wp_step; wp_go; (split; [done|]); exists l', s2; (split; [done|]); (split; [done|]);
        unfold sized; breflect; case_bool as E; done || lia.
    + wp_go. split; [done|]. exists l', s2. split; [done|]. split; [done|]. unfold sized. breflect. case_bool as E; [lia|done].
Qed.

(** ** Whole files *)

(** The chain of an entry; a file that was never written has none. *)
Definition file_of s (e : Z) (l : list Z) : Prop :=
  (l = [] /\ d_first_clus (ent s e) = 0 /\ d_file_size (ent s e) = 0 /\ (Z.to_nat e < length (fs_ents s))%nat) \/
  (at_file s e l /\ 0 <= d_file_size (ent s e) <= Z.of_nat (length (content s l))).

Lemma file_of_ok s e l : file_of s e l -> (Z.to_nat e < length (fs_ents s))%nat /\ forall x, x ∈ l -> clus_ok (fs_fat s) x.
Proof.
  intros [(-> & _ & _ & He)|[Ha _]].
  - split; [done|]. intros x Hx. by apply not_elem_of_nil in Hx.
  - split; [apply Ha|]. apply (cl_ok _ _ _ (af_cl _ _ _ Ha)).
Qed.

Lemma writer_refl e l off data s : fs_ok s -> at_file s e l -> reserved s -> 0 <= off <= Z.of_nat (length (content s l)) ->
  writer e l off data s 0 l s.
Proof.
  intros Hok Ha Hres Hoff. pose proof (cl_ok _ _ _ (af_cl _ _ _ Ha)) as Hcl. destruct (bpc_bounds _ (fo_vol _ Hok)) as [Hb _].
  pose proof (first_of _ _ _ Ha) as [Hl0 _]. rewrite (content_length s l Hok Hcl) in Hoff.
  split; try done.
  - rewrite Z.add_0_r. assert (clus_need (byts_per_clus (fs_fat s)) off <= Z.of_nat (length l)); [|lia].
    unfold clus_need. apply Zlt_succ_le, Z.div_lt_upper_bound; lia.
  - rewrite Nat.sub_diag, Nat.mul_0_r. simpl. change (sub_bytes 0 0 data) with (@nil Z). by rewrite app_nil_r, store_at_nil.
  - assert (Hid : upd_ent e (rewritten (ent s e)) s = s).
    { apply upd_ent_id; [apply Ha|]. unfold rewritten, seek. by destruct (ent s e). }
    rewrite Hid, with_cp_id. reflexivity.
Qed.

(** The first cluster of a file. *)
Lemma writer_first e data s s1 c : fs_ok s -> (Z.to_nat e < length (fs_ents s))%nat -> reserved s -> allocated c s s1 ->
  writer e [] 0 data s 0 [c] (upd_ent e (fun d => set_d_dirty true (set_d_clus_cnt 0 (set_d_cur_clus c (set_d_first_clus c d)))) s1).
Proof.
  intros Hok He Hres Hal. pose proof Hal as [A1 A2 A3 A4 A5 A6 A7 A8]. set (f := fun d => set_d_dirty _ _).
  pose proof (only_disk_fat _ _ A2) as Hf. pose proof (fo_vol _ Hok) as Hv. destruct (bpc_bounds _ Hv) as [Hb _].
  assert (He1 : (Z.to_nat e < length (fs_ents s1))%nat) by (by rewrite (only_disk_ents _ _ A2)).
  assert (Hfate : forall x, 0 <= x < data_clus_cnt (fs_fat s) + 2 -> fate (upd_ent e f s1) x = if c =? x then FAT32_EOC + 7 else fate s x).
  { intros x Hx. change (fate (upd_ent e f s1) x) with (fate s1 x). unfold fate. rewrite Hf. by apply A6. }
  assert (Hent : ent (upd_ent e f s1) e = f (ent s1 e)) by by apply ent_upd.
  split; rewrite ?Hent; try done.
  - by apply fs_ok_upd.
  - split; rewrite ?Hent; try done; [simpl; by rewrite length_insert|]. split.
    + intros x Hx%list_elem_of_singleton. subst x. change (fs_fat (upd_ent e f s1)) with (fs_fat s1). by rewrite Hf.
    + apply NoDup_singleton.
    + split; [done|]. simpl. rewrite Hfate, Z.eqb_refl by by apply clus_ok_range. unfold FAT32_EOC. lia.
  - by exists [c].
  - assert (clus_need (byts_per_clus (fs_fat s)) (0 + 0) = 0) as ->; [|done]. unfold clus_need. apply Z.div_small. lia.
  - by intros x ->%list_elem_of_singleton _.
  - intros x Hx Hn. rewrite Hfate by done. destruct (Z.eqb_spec c x) as [->|]; [|done]. exfalso. apply Hn. left.
  - intros x Hx Hn. apply A8; [done|]. intros ->. apply Hn. left.
  - unfold content. simpl. rewrite app_nil_r. change (sub_bytes 0 0 data) with (@nil Z). rewrite store_at_nil.
    change (clus_data (fs_fat s1) (rdisk s1) c = replicate (Z.to_nat (byts_per_clus (fs_fat s)) * 1) 0).
    by rewrite Hf, A7, Nat.mul_1_r.
  - simpl. assert (S (free_count (upd_ent e f s1)) = free_count s); [|lia].
    apply (free_count_take s _ c); [done|done|done|]. intros x Hx. rewrite Hfate by by apply clus_ok_range.
    destruct (Z.eqb_spec c x) as [->|Hne]; [unfold FAT32_EOC; split; [lia|tauto]|]. split; [|tauto]. intros Hz. split; [done|congruence].
  - destruct Hres as [R0 R1]. pose proof (vo_cnt _ Hv). unfold clus_ok in A3. split; rewrite Hfate by lia; case_bool as E; done || lia.
  - change (fs_cp (upd_ent e f s1)) with (fs_cp s1). assert (fs_cp s1 = fs_cp s) as -> by (by rewrite (proj1 A2)).
    destruct A2 as [E2 P2]. split; [|exact P2]. rewrite E2. unfold upd_ent, with_cp, rewritten, f, ent. simpl. done.
Qed.

Lemma ewrite_wp e l user src off n s : let B := byts_per_clus (fs_fat s) in
  fs_ok s -> file_of s e l -> reserved s -> d_dev (ent s e) = 0 -> Z.land (d_attribute (ent s e)) ATTR_READ_ONLY = 0 ->
  0 <= off <= d_file_size (ent s e) -> 0 <= n < 2 ^ 31 -> off + n < 2 ^ 32 -> 0 <= src < 2 ^ 64 -> ec_buf (fs_cp s) user src n ->
  Z.max 1 (clus_need B (off + n)) <= Z.of_nat (length l + free_count s) ->
  wp (ewrite e user src off n) (fun r s' => r = n /\ exists l' s2, writer e l off (user_bytes (fs_cp s) user src n) s n l' s2 /\
    source_same (fs_cp s) user src n (fs_cp s2) /\ sized (d_file_size (ent s e)) (off + n) e s2 s') s.
Proof.
  intros B Hok Hfile Hres Hdev Hro Hoff Hn H32 Hsrc Hbuf Hfree. destruct (file_of_ok _ _ _ Hfile) as [He Hcl].
  destruct (bpc_bounds _ (fo_vol _ Hok)) as [Hb _]. fold B in Hb.
  unfold ewrite, gete. wp_step. wp_step. rewrite Hro, u32_small by lia. simpl negb.
  destruct (Z.ltb_spec (d_file_size (ent s e)) off); [lia|]. destruct (Z.ltb_spec (off + n) off); [lia|].
  destruct (Z.ltb_spec 0xffffffff (off + n)); [lia|]. simpl orb. cbv iota. wp_step.
  destruct Hfile as [(-> & Hfc & Hfs & _)|[Ha Hsz]].
  - rewrite Hfc, Hdev. assert (off = 0) as -> by lia. simpl when. unfold sete. wp_step.
    eapply wp_mono; [apply alloc_clus_wp; [done|]|].
    { apply free_count_pos; [apply Hok|done|]. simpl in Hfree. lia. }
    intros c s1 Hal. wp_step.
    eapply (ewrite_from e [] 0 n s user src _ [c]); try done; try lia.
    + fold B. lia.
    + apply writer_first; done.
    + change (fs_cp s1 = fs_cp s). by rewrite (proj1 (al_only _ _ _ Hal)).
  - pose proof (cl_ok _ _ _ (af_cl _ _ _ Ha)) as Hcl'. pose proof (first_of _ _ _ Ha) as [Hl0 Hf]. 
    assert (Hnz : d_first_clus (ent s e) <> 0).
    { rewrite Hf. assert (Hin : l !!! 0%nat ∈ l) by (eapply list_elem_of_lookup_2, list_lookup_lookup_total_lt; done).
      apply Hcl' in Hin. unfold clus_ok in Hin. lia. }
    destruct (Z.eqb_spec (d_first_clus (ent s e)) 0) as [|_]; [done|]. simpl when. wp_step.
    rewrite (content_length s l Hok Hcl') in Hsz. fold B in Hsz.
    apply (ewrite_from e l off n s user src s l); try done; try lia; [fold B; lia|].
    apply writer_refl; try done. rewrite (content_length s l Hok Hcl'). fold B. lia.
Qed.

Lemma eread_wp e l user dst off n s : fs_ok s -> at_file s e l -> Z.land (d_attribute (ent s e)) ATTR_DIRECTORY = 0 ->
  0 <= off <= d_file_size (ent s e) -> d_file_size (ent s e) <= Z.of_nat (length (content s l)) ->
  0 <= n < 2 ^ 31 -> off + n < 2 ^ 32 -> 0 <= dst < 2 ^ 64 -> ec_buf (fs_cp s) user dst n ->
  let n' := Z.min n (d_file_size (ent s e) - off) in
  wp (eread e user dst off n) (fun r s' => r = n' /\ reader e l s s' /\
    delivered (fs_cp s) user dst n (sub_bytes off n' (content s l)) (fs_cp s')) s.
Proof.
  intros Hok Ha Hdir Hoff Hsz Hn H32 Hdst Hbuf n'. unfold eread, gete. wp_step. wp_step. rewrite Hdir, u32_small by lia. simpl negb.
  destruct (Z.ltb_spec (d_file_size (ent s e)) off); [lia|]. destruct (Z.ltb_spec (off + n) off); [lia|]. simpl orb. cbv iota zeta.
  replace (if d_file_size (ent s e) <? off + n then d_file_size (ent s e) - off else n) with n' by (unfold n'; case_bool as E; lia).
  wp_step. replace off with (off + 0) at 1 by lia.
  eapply wp_mono; [apply (eread_loop e l (fs_cp s) user dst n off n' s); try done; try lia|].
  - split; [done|done|done|]. assert (Hid : upd_ent e (seek (d_clus_cnt (ent s e)) (d_cur_clus (ent s e))) s = s).
    { apply upd_ent_id; [apply Ha|]. unfold seek. by destruct (ent s e). }
    rewrite Hid, with_cp_id. reflexivity.
  - split; [done|]. intros x Hx. change (sub_bytes off 0 (content s l)) with (@nil Z). case_bool as E; [simpl in E; lia|done].
  - rewrite u64_small; lia.
  - intros r s' (-> & Hr & Hd). wp_step. split; [apply s32_small; lia|done].
Qed.

(** What a completed write leaves behind. *)
Lemma written_file e l off n s user src l' s2 s' : fs_ok s -> file_of s e l -> 0 <= off <= d_file_size (ent s e) -> 0 <= n ->
  writer e l off (user_bytes (fs_cp s) user src n) s n l' s2 -> sized (d_file_size (ent s e)) (off + n) e s2 s' ->
  fs_ok s' /\ at_file s' e l' /\ d_file_size (ent s' e) = Z.max (d_file_size (ent s e)) (off + n) /\
  d_attribute (ent s' e) = d_attribute (ent s e) /\ fs_cp s' = fs_cp s2 /\
  Z.max (d_file_size (ent s e)) (off + n) <= Z.of_nat (length (content s' l')) /\
  off + n <= Z.of_nat (length (content s l ++ replicate (Z.to_nat (byts_per_clus (fs_fat s)) * (length l' - length l)) 0)) /\
  content s' l' = store_at off (user_bytes (fs_cp s) user src n)
    (content s l ++ replicate (Z.to_nat (byts_per_clus (fs_fat s)) * (length l' - length l)) 0).
Proof.
  intros Hok Hfile Hoff Hn Hw Hs. destruct (file_of_ok _ _ _ Hfile) as [He Hcl]. pose proof (writer_fat _ _ _ _ _ _ _ _ Hw) as Hfat.
  pose proof Hw as [W1 W2 W3 W4 W5 W6 W7 W8 W9 W10 W11]. destruct (bpc_bounds _ (fo_vol _ Hok)) as [Hb _].
  assert (Hent : ent s2 e = rewritten (ent s2 e) (ent s e)).
  { rewrite (only_disk_ent _ _ e W11) at 1. change (ent (upd_ent e (rewritten (ent s2 e)) s) e = rewritten (ent s2 e) (ent s e)). by rewrite ent_upd. }
  assert (Hsize2 : d_file_size (ent s2 e) = d_file_size (ent s e)) by (by rewrite Hent).
  assert (Hattr2 : d_attribute (ent s2 e) = d_attribute (ent s e)) by (by rewrite Hent).
  assert (Hlen : Z.of_nat (length (content s2 l')) = Z.of_nat (length l') * byts_per_clus (fs_fat s)).
  { rewrite (content_length s2 l' W1); [by rewrite Hfat|]. apply (cl_ok _ _ _ (af_cl _ _ _ W2)). }
  assert (Hcov : off + n <= Z.of_nat (length l') * byts_per_clus (fs_fat s)) by (apply clus_need_covers; lia).
  assert (Hold : d_file_size (ent s e) <= Z.of_nat (length l') * byts_per_clus (fs_fat s)).
  { destruct Hfile as [(_ & _ & -> & _)|[Ha Hsz]]; [nia|]. rewrite (content_length s l Hok Hcl) in Hsz.
    pose proof (prefix_length _ _ W3). nia. }
  rewrite <- (user_bytes_length (fs_cp s) user src n Hn) in W8 at 1. rewrite sub_bytes_all in W8.
  assert (He2 : (Z.to_nat e < length (fs_ents s2))%nat) by apply W2.
  assert (Hpad : off + n <= Z.of_nat (length (content s l ++ replicate (Z.to_nat (byts_per_clus (fs_fat s)) * (length l' - length l)) 0))).
  { rewrite length_app, length_replicate. pose proof (content_length s l Hok Hcl). pose proof (prefix_length _ _ W3). nia. }
  unfold sized in Hs. destruct (Z.ltb_spec (d_file_size (ent s e)) (off + n)); subst s'.
  - split; [by apply fs_ok_upd|]. split; [apply af_upd; try done; apply W2|].
    rewrite ent_upd by done. split; [simpl; lia|]. split; [done|]. split; [done|]. split; [|split; [exact Hpad|exact W8]].
    change (Z.max (d_file_size (ent s e)) (off + n) <= Z.of_nat (length (content s2 l'))). lia.
  - split; [done|]. split; [done|]. split; [lia|]. split; [done|]. split; [done|]. split; [lia|]. split; [exact Hpad|exact W8].
Qed.

(** [eread] delivers the file's bytes.  On a file whose clusters are [l],
    a read of [n] bytes at [off] ends and returns [n] or what is left of the
    file, the caller's buffer holds exactly these bytes of the contents, the
    rest of the buffer is as before, and neither the disk nor any other entry
    has changed; behind the end of the file, on a directory or when the range
    wraps it returns 0 and changes nothing. *)
Theorem eread_delivers e l user dst off n s :
  fs_ok s -> at_file s e l -> 0 <= off < 2 ^ 32 -> 0 <= n < 2 ^ 31 -> 0 <= dst < 2 ^ 64 ->
  d_file_size (ent s e) <= Z.of_nat (length (content s l)) -> ec_buf (fs_cp s) user dst n ->
  exists r s', eread e user dst off n s = Ok r s' /\
    if (d_file_size (ent s e) <? off) || (2 ^ 32 <=? off + n) || negb (Z.land (d_attribute (ent s e)) ATTR_DIRECTORY =? 0)
    then r = 0 /\ s' = s
    else r = Z.min n (d_file_size (ent s e) - off) /\ reader e l s s' /\
         delivered (fs_cp s) user dst n (sub_bytes off r (content s l)) (fs_cp s').
Proof.
  intros Hok Ha Hoff Hn Hdst Hsz Hbuf.
  destruct (_ || _ || _) eqn:E.
  - exists 0, s. split; [|done]. unfold eread, gete, mbind_, gets.
    assert ((d_file_size (ent s e) <? off) || (u32 (off + n) <? off) || negb (Z.land (d_attribute (ent s e)) ATTR_DIRECTORY =? 0) = true) as ->; [|done].
    destruct (Z.leb_spec (2 ^ 32) (off + n)).
    + assert (u32 (off + n) < off) as Hlt%Z.ltb_lt by (unfold u32; dlia). by rewrite Hlt, orb_true_r.
    + rewrite orb_false_r in E. apply orb_true_iff in E as [->| ->]; [done|by rewrite orb_true_r].
  - breflect. apply wp_Ok. eapply wp_mono; [apply (eread_wp e l); try done; lia|]. by intros r s' (-> & Hr & Hd).
Qed.

(** C6: [ewrite] stores the caller's bytes.  A write of [n] bytes at [off]
    within the size of a file ends and returns [n] if enough clusters are
    free: afterwards the contents are the old ones, continued with zeros, with
    the bytes stored at [off]; the chain has grown by free clusters only as
    far as needed, the size by what lies behind the old one; the FAT entries
    and the data of all other clusters are unchanged. *)
Theorem ewrite_stores e l user src off n s :
  fs_ok s -> file_of s e l -> reserved s -> d_dev (ent s e) = 0 -> Z.land (d_attribute (ent s e)) ATTR_READ_ONLY = 0 ->
  0 <= off <= d_file_size (ent s e) -> 0 <= n < 2 ^ 31 -> off + n < 2 ^ 32 -> 0 <= src < 2 ^ 64 -> ec_buf (fs_cp s) user src n ->
  Z.max 1 (clus_need (byts_per_clus (fs_fat s)) (off + n)) <= Z.of_nat (length l + free_count s) ->
  exists s' l', ewrite e user src off n s = Ok n s' /\ fs_ok s' /\ at_file s' e l' /\ l `prefix_of` l' /\
    Z.of_nat (length l') = Z.max (Z.max (Z.of_nat (length l)) 1) (clus_need (byts_per_clus (fs_fat s)) (off + n)) /\
    content s' l' = store_at off (user_bytes (fs_cp s) user src n)
      (content s l ++ replicate (Z.to_nat (byts_per_clus (fs_fat s)) * (length l' - length l)) 0) /\
    d_file_size (ent s' e) = Z.max (d_file_size (ent s e)) (off + n) /\
    (forall c, c ∈ l' -> c ∉ l -> fate s c = 0) /\
    (forall c, 0 <= c < data_clus_cnt (fs_fat s) + 2 -> c ∉ l' -> fate s' c = fate s c) /\
    (forall c, clus_ok (fs_fat s) c -> c ∉ l' -> clus_data (fs_fat s) (rdisk s') c = clus_data (fs_fat s) (rdisk s) c).
Proof.
  intros Hok Hf Hres Hdev Hro Hoff Hn H32 Hsrc Hbuf Hfree.
  destruct (wp_Ok _ _ _ (ewrite_wp e l user src off n s Hok Hf Hres Hdev Hro Hoff Hn H32 Hsrc Hbuf Hfree)) as
    (r & s' & Hrun & -> & l' & s2 & Hw & _ & Hsz). exists s', l'. split; [done|].
  destruct (written_file e l off n s user src l' s2 s') as (K1 & K2 & K3 & K4 & K5 & K6 & _ & K7); try done; [lia|].
  destruct Hw as [W1 W2 W3 W4 W5 W6 W7 W8 W9 W10 W11]. repeat (split; [done|]).
  unfold sized in Hsz. by destruct (_ <? _); subst s'.
Qed.

(** Writing and reading back.  After a write of [n] bytes to a file, a
    read of the same range returns [n], and the reader's buffer then holds
    what the writer's buffer held. *)
Theorem ewrite_eread_roundtrip e l user src user' dst off n s :
  fs_ok s -> file_of s e l -> reserved s -> d_dev (ent s e) = 0 ->
  Z.land (d_attribute (ent s e)) ATTR_READ_ONLY = 0 -> Z.land (d_attribute (ent s e)) ATTR_DIRECTORY = 0 ->
  0 <= off <= d_file_size (ent s e) -> 0 <= n < 2 ^ 31 -> off + n < 2 ^ 32 -> 0 <= src < 2 ^ 64 -> 0 <= dst < 2 ^ 64 ->
  ec_buf (fs_cp s) user src n ->
  Z.max 1 (clus_need (byts_per_clus (fs_fat s)) (off + n)) <= Z.of_nat (length l + free_count s) ->
  exists s1, ewrite e user src off n s = Ok n s1 /\
    (ec_buf (fs_cp s1) user' dst n -> exists s2, eread e user' dst off n s1 = Ok n s2 /\
       forall x, 0 <= x < n -> ec_mem (fs_cp s2) user' (dst + x) = ec_mem (fs_cp s) user (src + x)).
Proof.
  intros Hok Hf Hres Hdev Hro Hdir Hoff Hn H32 Hsrc Hdst Hbuf Hfree.
  destruct (wp_Ok _ _ _ (ewrite_wp e l user src off n s Hok Hf Hres Hdev Hro Hoff Hn H32 Hsrc Hbuf Hfree)) as
    (r & s1 & Hrun & -> & l' & s0 & Hw & _ & Hsz). exists s1. split; [done|]. intros Hbuf1.
  destruct (written_file e l off n s user src l' s0 s1) as (K1 & K2 & K3 & K4 & K5 & K6 & Hl0 & K7); try done; [lia|].
  pose proof (eread_wp e l' user' dst off n s1 K1 K2) as Hr. rewrite K3, K4 in Hr.
  destruct (wp_Ok _ _ _ (Hr Hdir ltac:(lia) K6 Hn H32 Hdst Hbuf1)) as (r & s2 & Hrun2 & -> & _ & Hd & Hmem).
  replace (Z.min n _) with n in * by lia. exists s2. split; [done|]. intros x Hx. rewrite Hmem by done.
  assert (Hul : Z.of_nat (length (user_bytes (fs_cp s) user src n)) = n) by (apply user_bytes_length; lia).
  assert (Hlen : off + n <= Z.of_nat (length (content s1 l'))) by lia.
  rewrite length_sub_bytes by lia. case_bool as E; [|lia]. unfold byte_at. apply list_lookup_total_correct.
  rewrite lookup_sub_bytes by lia. case_bool as E2; [|lia]. rewrite K7.
  rewrite lookup_store_at by lia. case_ranges. replace (Z.to_nat off + Z.to_nat x - Z.to_nat off)%nat with (Z.to_nat x) by lia.
  rewrite lookup_user_bytes, Z2Nat.id by lia. by case_bool as E3; [|lia].
Qed.
End files.
