(* ===== verification/FatName.v ===== *)
(** * Names in directory entries

    A long name is split over entries of thirteen characters; what [emake]
    builds, [read_entry_name] reads back. *)

From S2P Require Import Prelude Riscv Memory Spinlock Bio Fat32 FatDisk.

(** The bytes of a name: none is NUL. *)
Definition name_bytes (l : list Z) : Prop := Forall (fun x => 0 < x < 256) l.

(** ** One entry *)

(** The wide characters in a list of bytes. *)
Fixpoint halves (l : list Z) : list Z :=
  match l with
  | a :: b :: l' => a + 256 * b :: halves l'
  | _ => []
  end.

(** The wide characters that [emake] writes for the name from [p] on. *)
Fixpoint wchs (n : nat) (p : list Z) (ended : bool) : list Z :=
  match n with
  | O => []
  | S n' => if ended then 0xffff :: wchs n' p true else hd 0 p :: wchs n' (tl p) (hd 0 p =? 0)
  end.

Lemma halves_wide n : forall p e, halves (wide n p e) = wchs n p e.
Proof.
  induction n as [|n IH]; intros p e; [done|]. destruct e; cbn [wide wchs app halves]; rewrite IH; [done|].
  f_equal. lia.
Qed.

Lemma length_wide n : forall p e, length (wide n p e) = (2 * n)%nat.
Proof. induction n as [|n IH]; intros p e; [done|]. destruct e; simpl; rewrite IH; lia. Qed.

Lemma lne_wchars order ck w : length w = 26%nat ->
  let de := [u8 order] ++ take 10 w ++ [ATTR_LONG_NAME; 0; ck] ++ take 12 (drop 10 w) ++ [0; 0] ++ drop 22 w in
  wchars de 1 5 = take 5 (halves w) /\ wchars de 14 6 = take 6 (drop 5 (halves w)) /\ wchars de 28 2 = drop 11 (halves w).
Proof. intros Hw. do 26 (destruct w as [|? w]; [done|]). destruct w; [|done]. split_and!; reflexivity. Qed.

(** The name ends in the entry, or goes on. *)
Lemma wchs_ended n p : wchs n p true = replicate n 0xffff.
Proof. induction n as [|n IH]; [done|]. simpl. by rewrite IH. Qed.

Lemma wchs_name n : forall p, name_bytes (cstr p) -> let m := take n (cstr p) in
  wchs n p false = m ++ match (n - length m)%nat with O => [] | S k => 0 :: replicate k 0xffff end.
Proof.
  induction n as [|n IH]; intros p Hp m; [done|]. subst m. destruct p as [|c p]; simpl.
  - by rewrite wchs_ended.
  - simpl in Hp. destruct (Z.eqb_spec c 0) as [->|Hc]; simpl; [by rewrite wchs_ended|]. f_equal.
    inversion Hp. by apply IH.
Qed.

(** Three calls of [snstr] over the characters of an entry. *)
Definition read_parts (h buf : list Z) : list Z :=
  store_at 11 (snstr_l (drop 11 h) 2) (store_at 5 (snstr_l (take 6 (drop 5 h)) 6) (store_at 0 (snstr_l (take 5 h) 5) buf)).


Lemma snstr_length n : forall h, (length (snstr_l h n) <= n)%nat.
Proof.
  induction n as [|n IH]; intros h; [done|]. simpl. destruct (hd 0 h =? 0); simpl; [rewrite length_replicate; lia|].
  specialize (IH (tl h)). lia.
Qed.

Lemma snstr_char n : forall h j c, (j < n)%nat -> Forall (fun x => 0 < x < 256) (take (S j) h) -> h !! j = Some c ->
  snstr_l h n !! j = Some c.
Proof.
  induction n as [|n IH]; intros h j c Hj Hh Hc; [lia|]. destruct h as [|x h]; [done|]. simpl in Hh. inversion Hh as [|? ? Hx Hh']. subst.
  simpl. destruct (Z.eqb_spec x 0); [lia|]. destruct j as [|j]; simpl in *.
  - injection Hc as ->. by rewrite u8_small by lia.
  - apply IH; [lia|done|done].
Qed.

Lemma snstr_nul n : forall h j, (j < n)%nat -> Forall (fun x => 0 < x < 256) (take j h) -> h !! j = Some 0 ->
  snstr_l h n !! j = None \/ snstr_l h n !! j = Some 0.
Proof.
  induction n as [|n IH]; intros h j Hj Hh Hc; [lia|]. destruct h as [|x h]; [done|]. simpl. destruct j as [|j]; simpl in *.
  - injection Hc as ->. simpl. destruct n; [by left|by right].
  - inversion Hh as [|? ? Hx Hh']. subst. destruct (Z.eqb_spec x 0); [lia|]. apply IH; [lia|done|done].
Qed.

Lemma length_store_le i bs (l : list Z) : (Z.to_nat i + length bs <= length l)%nat -> length (store_at i bs l) = length l.
Proof. intros H. unfold store_at. rewrite !length_app, length_take, length_drop. lia. Qed.

Lemma lookup_store_nat i bs (l : list Z) k : (i + length bs <= length l)%nat ->
  store_at (Z.of_nat i) bs l !! k = if decide (i <= k < i + length bs)%nat then bs !! (k - i)%nat else l !! k.
Proof.
  intros H. rewrite lookup_store_at, Nat2Z.id by lia. case_decide; case_ranges; done || lia.
Qed.

(** Character [j] of an entry after the three stores. *)
Lemma read_parts_lookup h buf j : length h = 13%nat -> (13 <= length buf)%nat ->
  exists a m i, (i < m)%nat /\ j = (a + i)%nat /\ (a + m <= 13)%nat /\
    read_parts h buf !! j = (match snstr_l (take m (drop a h)) m !! i with Some c => Some c | None => buf !! j end) \/
  (13 <= j)%nat /\ read_parts h buf !! j = buf !! j.
Proof.
  intros Hh Hb. pose proof (snstr_length 5 (take 5 h)). pose proof (snstr_length 6 (take 6 (drop 5 h))). pose proof (snstr_length 2 (drop 11 h)).
  assert (Hr : forall i bs (l : list Z) k, (i + length bs <= length l)%nat ->
    store_at (Z.of_nat i) bs l !! k = if decide (i <= k < i + length bs)%nat then bs !! (k - i)%nat else l !! k) by apply lookup_store_nat.
  change (read_parts h buf) with (store_at (Z.of_nat 11) (snstr_l (drop 11 h) 2)
    (store_at (Z.of_nat 5) (snstr_l (take 6 (drop 5 h)) 6) (store_at (Z.of_nat 0) (snstr_l (take 5 h) 5) buf))).
  assert (L0 : length (store_at (Z.of_nat 0) (snstr_l (take 5 h) 5) buf) = length buf) by (apply length_store_le; lia).
  assert (L1 : length (store_at (Z.of_nat 5) (snstr_l (take 6 (drop 5 h)) 6) (store_at (Z.of_nat 0) (snstr_l (take 5 h) 5) buf)) = length buf).
  { rewrite length_store_le; [done|]. rewrite L0. lia. }
  rewrite Hr by (rewrite L1; lia). rewrite Hr by (rewrite L0; lia). rewrite Hr by lia.
  destruct (decide (13 <= j)%nat) as [Hj|Hj].
  { exists 0%nat, 1%nat, 0%nat. right. split; [done|]. repeat case_decide; done || lia. }
  assert (Hdef : forall (bs : list Z) i (x : option Z), (if decide (i < length bs)%nat then bs !! i else x) =
    match bs !! i with Some c => Some c | None => x end).
  { intros bs i x. case_decide as Hi; [by destruct (lookup_lt_is_Some_2 bs i Hi) as [c ->]|]. by rewrite lookup_ge_None_2 by lia. }
  destruct (decide (j < 5)%nat); [|destruct (decide (j < 11)%nat)].
  - exists 0%nat, 5%nat, j. left. split_and!; try lia. rewrite drop_0, <- Hdef, Nat.sub_0_r. repeat case_decide; done || lia.
  - exists 5%nat, 6%nat, (j - 5)%nat. left. split_and!; try lia. rewrite <- Hdef. repeat case_decide; done || lia.
  - exists 11%nat, 2%nat, (j - 11)%nat. left. split_and!; try lia.
    rewrite (take_ge (drop 11 h) 2) by (rewrite length_drop; lia). rewrite <- Hdef. repeat case_decide; done || lia.
Qed.

(** What the buffer holds after one entry of the name [n]. *)
Lemma read_parts_name n (buf : list Z) : (13 <= length buf)%nat -> name_bytes n -> (length n <= 13)%nat ->
  let h := n ++ match (13 - length n)%nat with O => [] | S k => 0 :: replicate k 0xffff end in
  (forall j, (j < length n)%nat -> read_parts h buf !! j = n !! j) /\
  (forall j, (13 <= j)%nat -> read_parts h buf !! j = buf !! j) /\
  ((length n < 13)%nat -> buf !! length n = Some 0 -> read_parts h buf !! length n = Some 0).
Proof.
  intros Hb Hn Hl h. assert (Hh : length h = 13%nat).
  { unfold h. rewrite length_app. destruct (13 - length n)%nat eqn:E; simpl; rewrite ?length_replicate; lia. }
  assert (Hpart : forall a m i, (i < m)%nat -> take m (drop a h) !! i = h !! (a + i)%nat).
  { intros a m i Hi. by rewrite lookup_take_lt, lookup_drop by done. }
  assert (Hpre : forall a m k, (a + k <= length n)%nat -> Forall (fun x => 0 < x < 256) (take k (take m (drop a h)))).
  { intros a m k Hk. rewrite take_take. apply Forall_lookup_2. intros i x Hi. apply lookup_take_Some in Hi as [Hi Hlt].
    rewrite lookup_drop in Hi. unfold h in Hi. rewrite lookup_app_l in Hi by lia. by apply (Forall_lookup_1 _ _ _ _ Hn Hi). }
  split_and!.
  - intros j Hj. destruct (read_parts_lookup h buf j Hh Hb) as (a & m & i & [(H1 & -> & H3 & ->)|[H1 _]]); [|lia].
    destruct (lookup_lt_is_Some_2 n (a + i) Hj) as [c Hc]. rewrite (snstr_char m _ i c); [done|done|apply Hpre; lia|].
    rewrite Hpart by done. unfold h. by rewrite lookup_app_l.
  - intros j Hj. destruct (read_parts_lookup h buf j Hh Hb) as (a & m & i & [(H1 & -> & H3 & _)|[_ H1]]); [lia|done].
  - intros Hlt Hz. destruct (read_parts_lookup h buf (length n) Hh Hb) as (a & m & i & [(H1 & H2 & H3 & ->)|[H1 _]]); [|lia].
    destruct (snstr_nul m (take m (drop a h)) i H1) as [-> | ->]; [apply Hpre; lia| |done|done].
    rewrite Hpart by done. rewrite <- H2. unfold h. rewrite lookup_app_r, Nat.sub_diag by lia.
    by destruct (13 - length n)%nat eqn:E; [lia|].
Qed.

Lemma length_read_parts h buf : length h = 13%nat -> (13 <= length buf)%nat -> length (read_parts h buf) = length buf.
Proof.
  intros Hh Hb. pose proof (snstr_length 5 (take 5 h)). pose proof (snstr_length 6 (take 6 (drop 5 h))). pose proof (snstr_length 2 (drop 11 h)).
  unfold read_parts. rewrite !length_store_le; rewrite ?length_store_le; rewrite ?length_store_le; lia.
Qed.

Lemma read_long_parts order ck p buf : name_bytes (cstr p) ->
  read_long_name (lne_bytes order ck p) buf =
    let n := take 13 (cstr p) in read_parts (n ++ match (13 - length n)%nat with O => [] | S k => 0 :: replicate k 0xffff end) buf.
Proof.
  intros Hp. unfold read_long_name, lne_bytes. change (Z.to_nat CHAR_LONG_NAME) with 13%nat.
  destruct (lne_wchars order ck (wide 13 p false) (length_wide 13 p false)) as (-> & -> & ->).
  rewrite halves_wide, wchs_name by done. done.
Qed.

(** ** The whole name *)

Lemma cstr_drop a : forall l, (a <= length (cstr l))%nat -> cstr (drop a l) = drop a (cstr l).
Proof.
  induction a as [|a IH]; intros l Hl; [by rewrite !drop_0|]. destruct l as [|c l]; [done|]. simpl in *.
  destruct (c =? 0); [simpl in Hl; lia|]. simpl in *. apply IH. lia.
Qed.

Lemma cstr_of name : name_bytes name -> forall l, (forall j, (j < length name)%nat -> l !! j = name !! j) -> l !! length name = Some 0 ->
  cstr l = name.
Proof.
  induction 1 as [|c name Hc Hn IH]; intros l Hl Hz; (destruct l as [|x l]; [done|]); simpl in *.
  - injection Hz as ->. done.
  - specialize (Hl 0%nat ltac:(lia)) as Hx. injection Hx as ->. destruct (Z.eqb_spec c 0); [lia|]. f_equal.
    apply IH; [|done]. intros j Hj. apply (Hl (S j)). lia.
Qed.

(** The number of long-name entries. *)
Definition lne_count (len : nat) : Z := (Z.of_nat len + CHAR_LONG_NAME - 1) / CHAR_LONG_NAME.

Lemma lne_count_bounds len : (0 < len)%nat -> 13 * (lne_count len - 1) < Z.of_nat len <= 13 * lne_count len.
Proof. intros H. unfold lne_count, CHAR_LONG_NAME. dlia. Qed.

(** The entries from number [i] up have been read. *)
Definition tail_ok (name : list Z) (i : Z) (fn : list Z) : Prop :=
  length fn = 256%nat /\ (forall j, 13 * (i - 1) <= Z.of_nat j -> (j < length name)%nat -> fn !! j = name !! j) /\
  fn !! length name = Some 0.

Lemma tail_ok_step fn0 ck i fn : let name := cstr fn0 in let E := lne_count (length name) in
  name_bytes name -> (0 < length name <= 247)%nat -> 1 <= i <= E ->
  tail_ok name (i + 1) fn -> tail_ok name i (put_long_name (long_entry fn0 E ck i) (13 * (i - 1)) fn).
Proof.
  intros name E Hn Hlen Hi (T1 & T2 & T3). pose proof (lne_count_bounds (length name)) as HE. fold E in HE.
  unfold put_long_name, long_entry. set (a := Z.to_nat (13 * (i - 1))).
  replace (Z.to_nat ((i - 1) * CHAR_LONG_NAME)) with a by (unfold a, CHAR_LONG_NAME; lia).
  assert (Ha : (a < length name)%nat) by (unfold a; lia). assert (Ha2 : (a + 13 <= 256)%nat) by (unfold a; lia).
  assert (Hc : cstr (drop a fn0) = drop a name) by (apply cstr_drop; fold name; lia).
  assert (Hnd : name_bytes (drop a name)) by by apply Forall_drop.
  rewrite read_long_parts by by rewrite Hc. rewrite Hc. cbv zeta. set (n := take 13 (drop a name)).
  assert (Hnl : length n = Nat.min 13 (length name - a)) by (unfold n; rewrite length_take, length_drop; lia).
  assert (Hnn : name_bytes n) by by apply Forall_take.
  assert (Hbl : (13 <= length (drop a fn))%nat) by (rewrite length_drop; lia).
  pose proof (read_parts_name n (drop a fn) Hbl Hnn ltac:(lia)) as (P1 & P2 & P3). cbv zeta in P1, P2, P3.
  assert (Hhl : length (n ++ match (13 - length n)%nat with O => [] | S k => 0 :: replicate k 0xffff end) = 13%nat).
  { rewrite length_app. destruct (13 - length n)%nat eqn:E13; simpl; rewrite ?length_replicate; lia. }
  pose proof (length_read_parts _ _ Hhl Hbl) as Hrl. set (r := read_parts _ _) in *.
  assert (Hta : length (take a fn) = a) by (rewrite length_take; lia).
  assert (Hat : forall j, (a <= j)%nat -> (take a fn ++ r) !! j = r !! (j - a)%nat) by (intros j Hj; rewrite lookup_app_r, Hta by lia; done).
  split_and!.
  - rewrite length_app, Hrl, Hta, length_drop. lia.
  - intros j Hj Hjl. rewrite Hat by (unfold a; lia). destruct (decide (j - a < length n)%nat) as [Hin|Hout].
    + rewrite P1 by done. unfold n. rewrite lookup_take_lt, lookup_drop by lia. f_equal. lia.
    + rewrite P2, lookup_drop by lia. replace (a + (j - a))%nat with j by lia. apply T2; lia.
  - rewrite Hat by lia. destruct (decide (length n < 13)%nat) as [Hlt|Hge].
    + replace (length name - a)%nat with (length n) by lia. apply P3; [done|]. rewrite lookup_drop.
      by replace (a + length n)%nat with (length name) by lia.
    + rewrite P2, lookup_drop by lia. by replace (a + (length name - a))%nat with (length name) by lia.
Qed.

Lemma tail_ok_start name : (0 < length name <= 247)%nat -> tail_ok name (lne_count (length name) + 1) (replicate 256 0).
Proof.
  intros Hl. pose proof (lne_count_bounds (length name)). split; [done|]. split; [lia|]. apply lookup_replicate_2. lia.
Qed.

Lemma tail_ok_end name fn : name_bytes name -> tail_ok name 1 fn -> cstr fn = name.
Proof. intros Hn (T1 & T2 & T3). apply cstr_of; [done| |done]. intros j Hj. apply T2; lia. Qed.

(** ** Short names *)

Lemma short_char_ok c : 0 < c < 256 -> 0 < short_char c < 256.
Proof. intros H. unfold short_char. repeat case_match; breflect; lia. Qed.

Lemma shortname_loop_ok fuel name : name_bytes name -> forall k p acc, name_bytes acc -> name_bytes (shortname_loop fuel name k p acc).
Proof.
  intros Hn. induction fuel as [|fuel IH]; intros k p acc Ha; [done|]. simpl.
  destruct ((CHAR_SHORT_NAME <=? Z.of_nat (length acc)) || (byte_at name k =? 0)) eqn:E; [done|]. breflect.
  assert (Hc : 0 < byte_at name k < 256).
  { unfold byte_at in *. rewrite list_lookup_total_alt in *. destruct (name !! Z.to_nat k) as [c|] eqn:Ec; [|done].
    by apply (Forall_lookup_1 _ _ _ _ Hn Ec). }
  assert (Hpad : name_bytes (acc ++ replicate (Z.to_nat (8 - Z.of_nat (length acc))) 32)).
  { apply Forall_app_2; [done|]. apply Forall_replicate. lia. }
  assert (Happ : name_bytes (acc ++ [short_char (byte_at name k)])).
  { apply Forall_app_2; [done|]. repeat constructor; by apply short_char_ok. }
  repeat case_match; by auto.
Qed.

Lemma generate_shortname_ok name : name_bytes name ->
  name_bytes (generate_shortname name) /\ (11 <= length (generate_shortname name))%nat.
Proof.
  intros Hn. unfold generate_shortname. cbv zeta. split.
  - apply Forall_app_2; [by apply shortname_loop_ok; [|constructor]|]. apply Forall_replicate. lia.
  - rewrite length_app, length_replicate. unfold CHAR_SHORT_NAME. lia.
Qed.

Lemma cstr_name l : name_bytes l -> cstr l = l.
Proof. induction 1 as [|c l Hc Hl IH]; [done|]. simpl. destruct (Z.eqb_spec c 0); [lia|]. by rewrite IH. Qed.

(** The name field of the short-name entry has no NUL, and no blank field. *)
Lemma strncpy_short name : name_bytes name ->
  name_bytes (strncpy_l CHAR_SHORT_NAME (generate_shortname name)) /\
  byte_at (strncpy_l CHAR_SHORT_NAME (generate_shortname name)) 0 = byte_at (generate_shortname name) 0 /\
  byte_at (generate_shortname name) 0 <> 0.
Proof.
  intros Hn. destruct (generate_shortname_ok name Hn) as [Hg Hl]. unfold strncpy_l. rewrite cstr_name by done.
  change (Z.to_nat CHAR_SHORT_NAME) with 11%nat. rewrite length_take. replace (11 - _)%nat with 0%nat by lia. simpl replicate.
  rewrite app_nil_r. split; [by apply Forall_take|]. destruct (generate_shortname name) as [|c g]; [simpl in Hl; lia|].
  split; [done|]. inversion Hg. change (c <> 0). lia.
Qed.

Lemma cal_checksum_range s : 0 <= cal_checksum s < 256.
Proof.
  unfold cal_checksum. assert (H : forall n s sum, 0 <= sum < 256 -> 0 <= checksum_loop n s sum < 256); [|by apply H].
  induction n as [|n IH]; intros s' sum Hs; [done|]. simpl. apply IH. apply u8_range.
Qed.
