(* ===== verification/FatDir.v ===== *)
(** * Directory entries on the disk

    What [emake] writes into a directory, extending it where needed, [enext]
    finds there again. *)

From S2P Require Import Prelude Riscv Memory Spinlock Bio BioProps Fat32 FatDisk FatChain FatClus FatFile FatName.
Import Hart.

(** ** Entries *)

Lemma length_strncpy_l n src : 0 <= n -> length (strncpy_l n src) = Z.to_nat n.
Proof. intros Hn. unfold strncpy_l. rewrite length_app, length_replicate, length_take. lia. Qed.

Lemma sne_length name attr clus size : length (sne_bytes name attr clus size) = 32%nat.
Proof. unfold sne_bytes. rewrite !length_app, length_strncpy_l by done. done. Qed.

Lemma lne_length order ck p : length (lne_bytes order ck p) = 32%nat.
Proof.
  unfold lne_bytes. change (Z.to_nat CHAR_LONG_NAME) with 13%nat. rewrite !length_app, !length_take, !length_drop, !length_wide. done.
Qed.

Lemma lne_fields order ck p : lne_order (lne_bytes order ck p) = u8 order /\ de_attr (lne_bytes order ck p) = ATTR_LONG_NAME.
Proof.
  unfold lne_bytes, lne_order, de_attr, byte_at. change (Z.to_nat CHAR_LONG_NAME) with 13%nat.
  pose proof (length_wide 13 p false) as Hw. remember (wide 13 p false) as w eqn:E. clear E.
  do 26 (destruct w as [|? w]; [done|]). done.
Qed.

Lemma sne_fields name attr clus size : let de := sne_bytes name attr clus size in
  0 <= clus < 2 ^ 32 -> 0 <= size < 2 ^ 32 ->
  byte_at de 0 = byte_at (strncpy_l CHAR_SHORT_NAME name) 0 /\ de_attr de = u8 attr /\
  Z.lor (Z.shiftl (half_at de 20) 16) (half_at de 26) = clus /\ word_at de 28 = size.
Proof.
  intros de Hc Hs. unfold de, sne_bytes, de_attr, word_at, half_at, byte_at.
  pose proof (length_strncpy_l CHAR_SHORT_NAME name) as Hl. specialize (Hl ltac:(done)). change (Z.to_nat CHAR_SHORT_NAME) with 11%nat in Hl.
  remember (strncpy_l CHAR_SHORT_NAME name) as n eqn:E. clear E. do 11 (destruct n as [|? n]; [done|]). destruct n; [|done].
  split; [done|]. split; [done|]. split.
  - change (Z.lor (Z.shiftl (u8 (clus / 65536) + 256 * u8 (clus / 65536 / 256)) 16) (u8 (clus mod 65536) + 256 * u8 (clus mod 65536 / 256)) = clus).
    assert (H1 : u8 (clus / 65536) + 256 * u8 (clus / 65536 / 256) = clus / 65536) by (unfold u8; dlia).
    assert (H2 : u8 (clus mod 65536) + 256 * u8 (clus mod 65536 / 256) = clus mod 65536) by (unfold u8; dlia).
    rewrite H1, H2, Z.shiftl_mul_pow2 by lia.
    assert (Hdis : Z.land (clus / 65536 * 2 ^ 16) (clus mod 65536) = 0).
    { change 65536 with (2 ^ 16). apply Z.bits_inj'. intros n Hn. rewrite Z.land_spec, Z.bits_0.
      destruct (Z.lt_ge_cases n 16); [rewrite Z.mul_pow2_bits_low by lia; done|]. rewrite Z.mod_pow2_bits_high by lia. apply andb_false_r. }
    pose proof (Z.add_lor_land (clus / 65536 * 2 ^ 16) (clus mod 65536)) as Ha. rewrite Hdis in Ha. rewrite Z.add_0_r in Ha. rewrite Ha. dlia.
  - change (u8 size + 256 * u8 (size / 256) + 65536 * (u8 (size / 65536) + 256 * u8 (size / 65536 / 256)) = size). unfold u8. dlia.
Qed.

(** The order byte of entry [i] of [n]. *)
Lemma order_bits i n : 1 <= i <= n -> n <= 19 -> let o := u8 (if i =? n then Z.lor i LAST_LONG_ENTRY else i) in
  o <> END_OF_ENTRY /\ o <> EMPTY_ENTRY /\ Z.land o (Z.lnot LAST_LONG_ENTRY) = i /\
  negb (Z.land o LAST_LONG_ENTRY =? 0) = (i =? n).
Proof.
  intros Hi Hn. set (ok := fun o i last => negb (o =? END_OF_ENTRY) && negb (o =? EMPTY_ENTRY) &&
    (Z.land o (Z.lnot LAST_LONG_ENTRY) =? i) && Bool.eqb (negb (Z.land o LAST_LONG_ENTRY =? 0)) last).
  assert (Hc : forallb (fun i => ok (u8 (Z.lor i LAST_LONG_ENTRY)) i true && ok (u8 i) i false) (seqZ 1 19) = true) by (vm_compute; done).
  rewrite forallb_forall in Hc. specialize (Hc i). rewrite <- list_elem_of_In, elem_of_seqZ in Hc. specialize (Hc ltac:(lia)).
  unfold ok in Hc. breflect. intros o. unfold o. destruct (i =? n); split_and!; try done; by apply Bool.eqb_prop.
Qed.

Section dir.
Context {CS D : Type} `{!EitherCopy CS} `{!Disk D} `{!DiskLaws D}.
Implicit Types s : fatst CS D.

(** ** Writing entries *)

Lemma local_source (cp0 : CS) bs : source_ok (D := D) (fun c => c = cp0) bs (from_local bs).
Proof. intros tot m s Hc Ht Hm Hl. unfold from_local. wp_step. split; [done|]. exists (fs_cp s). by rewrite with_cp_id. Qed.

(** One entry of [data] is written behind the [tot] bytes before it. *)
Lemma entry_wp {A} dp l off data s tot l1 s1 bs (rest : Z -> M (fatst CS D) A) Q : let B := byts_per_clus (fs_fat s) in
  (Z.to_nat dp < length (fs_ents s))%nat -> fs_ok s -> (forall x, x ∈ l -> clus_ok (fs_fat s) x) -> d_dev (ent s dp) = 0 ->
  0 <= off <= Z.of_nat (length l) * B -> 0 <= tot -> off mod 32 = 0 -> tot mod 32 = 0 -> tot + 32 <= Z.of_nat (length data) ->
  off + tot + 32 < 2 ^ 32 -> clus_need B (off + tot + 32) <= Z.of_nat (length l + free_count s) ->
  sub_bytes tot 32 data = bs -> bytes_ok bs -> writer dp l off data s tot l1 s1 ->
  (forall r l2 s2, writer dp l off data s (tot + 32) l2 s2 -> fs_cp s2 = fs_cp s1 -> wp (rest r) Q s2) ->
  wp (off2 <- reloc_clus dp (off + tot) true ;; r <- write_slot dp (u32 off2) bs ;; rest r) Q s1.
Proof.
  intros B He Hok Hcl Hdev Hoff Htot Ho32 Ht32 Hdl H32 Hfree Hbs Hby Hw Hrest.
  pose proof (fo_vol _ Hok) as Hv. destruct (bpc_bounds _ Hv) as [Hb Hb512]. fold B in Hb, Hb512.
  pose proof (writer_fat _ _ _ _ _ _ _ _ Hw) as Hf1. pose proof (wr_free _ _ _ _ _ _ _ _ Hw) as Hfr.
  assert (Hmod : 0 <= (off + tot) mod B /\ (off + tot) mod B + 32 <= B).
  { pose proof (Z.mod_pos_bound (off + tot) B ltac:(lia)). pose proof (Z.div_mod (off + tot) B ltac:(lia)) as Hdm.
    set (q := (off + tot) / B) in *. set (r := (off + tot) mod B) in *.
    assert (Hr32 : r mod 32 = 0).
    { replace r with (off + tot - 32 * (16 * sec_per_clus (bpb (fs_fat s)) * q)) by (rewrite Hdm, Hb512; lia).
      rewrite Zminus_mod, (Z.mul_comm 32), Z_mod_mult, Z.sub_0_r, Zmod_mod. rewrite Zplus_mod, Ho32, Ht32. done. }
    assert (HB32 : B mod 32 = 0) by (rewrite Hb512; replace (512 * sec_per_clus (bpb (fs_fat s))) with (16 * sec_per_clus (bpb (fs_fat s)) * 32) by lia; apply Z_mod_mult).
    clear Hdm. dlia. }
  wp_step. assert (Hneed : (off + tot) / B + 1 <= clus_need B (off + tot + 32)).
  { rewrite <- (clus_need_step B (off + tot) 1) by lia. apply clus_need_mono; lia. }
  eapply wp_mono; [apply (reloc_grow_wp dp l1 (off + tot) s1); [apply Hw|apply Hw| |apply Hw|lia|rewrite Hf1; fold B; lia]|].
  { by rewrite (writer_dev _ _ _ _ _ _ _ _ He Hw). }
  rewrite Hf1. fold B. intros r s2 (-> & l2 & Hg & Hcnt & Hlen2 & Hres).
  pose proof (grown_fat _ _ _ _ _ Hg) as Hf2. rewrite Hf1 in Hf2.
  assert (Hbl : length bs = 32%nat) by (rewrite <- Hbs, length_sub_bytes; lia).
  unfold write_slot, gete. wp_step. wp_step. wp_step. rewrite u32_small by lia. 
  eapply wp_mono; [apply (rw_clus_write_wp (fun c => c = fs_cp s1) bs); rewrite ?Hf2; fold B|].
  - apply Hg.
  - destruct (next_of _ _ _ (gr_at _ _ _ _ _ Hg)) as [Hc _]. by rewrite Hf2 in Hc.
  - lia.
  - lia.
  - done.
  - apply local_source.
  - by rewrite (proj1 (gr_only _ _ _ _ _ Hg)).
  - intros r s3 (_ & cp & Hwc & ->). rewrite Hf2 in Hwc.
    assert (Hcp : fs_cp s3 = fs_cp s1) by (by rewrite (proj1 (wc_only _ _ _ _ Hwc))).
    apply (Hrest r l2); [|done].
    apply (writer_step dp l off data s tot l1 s1 l2 s2 32 s3 (fs_cp s1)); fold B; (done || lia || (rewrite ?Hbs; exact Hwc)).
Qed.

(** The entries that [emake] writes for [x], one after the other. *)
Definition short_of (x : dirent) : list Z := generate_shortname (cstr (d_filename x)).
Definition dir_entries (x : dirent) : list (list Z) :=
  let n := lne_count (length (cstr (d_filename x))) in
  (long_entry (d_filename x) n (cal_checksum (short_of x)) <$> reverse (seqZ 1 n)) ++
  [sne_bytes (short_of x) (d_attribute x) (d_first_clus x) (d_file_size x)].

Lemma dir_entries_32 x : Forall (fun b => length b = Z.to_nat 32) (dir_entries x).
Proof.
  apply Forall_app_2; [|by repeat constructor; rewrite sne_length]. apply Forall_fmap, Forall_forall. intros i _.
  apply lne_length.
Qed.

Lemma dir_entries_length x : length (dir_entries x) = S (Z.to_nat (lne_count (length (cstr (d_filename x))))).
Proof. unfold dir_entries. rewrite length_app, length_fmap, length_reverse, length_seqZ. simpl. lia. Qed.

Lemma dir_entry_at x k b : dir_entries x !! Z.to_nat k = Some b -> 0 <= k -> sub_bytes (32 * k) 32 (concat (dir_entries x)) = b.
Proof.
  intros Hb Hk. replace (32 * k) with (32 * k + 0) by lia. rewrite (sub_bytes_block 32 _ k b); try lia; [|apply dir_entries_32|done].
  pose proof (Forall_lookup_1 _ _ _ _ (dir_entries_32 x) Hb) as Hl. simpl in Hl.
  replace 32 with (Z.of_nat (length b)) by lia. apply sub_bytes_all.
Qed.

(** Entry [k] is the long-name entry of number [n - k], and the last one the
    short-name entry. *)
Lemma dir_entries_long x k : let n := lne_count (length (cstr (d_filename x))) in 0 <= k < n ->
  dir_entries x !! Z.to_nat k = Some (long_entry (d_filename x) n (cal_checksum (short_of x)) (n - k)).
Proof.
  intros n Hk. unfold dir_entries. fold n. rewrite lookup_app_l by (rewrite length_fmap, length_reverse, length_seqZ; lia).
  rewrite list_lookup_fmap. assert (reverse (seqZ 1 n) !! Z.to_nat k = Some (n - k)) as ->; [|done].
  rewrite reverse_lookup by (rewrite length_seqZ; lia). rewrite length_seqZ. apply lookup_seqZ. lia.
Qed.

Lemma dir_entries_short x : let n := lne_count (length (cstr (d_filename x))) in 0 <= n ->
  dir_entries x !! Z.to_nat n = Some (sne_bytes (short_of x) (d_attribute x) (d_first_clus x) (d_file_size x)).
Proof.
  intros n Hn. unfold dir_entries. fold n. rewrite lookup_app_r; rewrite length_fmap, length_reverse, length_seqZ; [|lia].
  by replace (Z.to_nat n - Z.to_nat n)%nat with 0%nat by lia.
Qed.

(** What a directory needs to take entries. *)
Record dir_room s (dp : Z) (l : list Z) (off len : Z) : Prop := {
  dr_ok : fs_ok s;
  dr_at : at_file s dp l;
  dr_dev : d_dev (ent s dp) = 0;
  dr_attr : Z.land (d_attribute (ent s dp)) ATTR_DIRECTORY <> 0;
  dr_valid : d_valid (ent s dp) = 1;
  dr_res : reserved s;
  dr_off : 32 < off <= Z.of_nat (length (content s l)) /\ off mod 32 = 0;
  dr_end : off + len < 2 ^ 32;
  dr_free : clus_need (byts_per_clus (fs_fat s)) (off + len) <= Z.of_nat (length l + free_count s);
}.

Lemma entries_len x : Z.of_nat (length (concat (dir_entries x))) = 32 * (Z.max 0 (lne_count (length (cstr (d_filename x)))) + 1).
Proof. rewrite (concat_length _ _ (dir_entries_32 x)), dir_entries_length. lia. Qed.

Lemma room_entry {A} dp l off x s k b l1 s1 (rest : Z -> M (fatst CS D) A) Q :
  dir_room s dp l off (Z.of_nat (length (concat (dir_entries x)))) -> 0 <= k ->
  dir_entries x !! Z.to_nat k = Some b -> bytes_ok b -> writer dp l off (concat (dir_entries x)) s (32 * k) l1 s1 ->
  (forall r l2 s2, writer dp l off (concat (dir_entries x)) s (32 * (k + 1)) l2 s2 -> fs_cp s2 = fs_cp s1 -> wp (rest r) Q s2) ->
  wp (off2 <- reloc_clus dp (off + 32 * k) true ;; r <- write_slot dp (u32 off2) b ;; rest r) Q s1.
Proof.
  intros [R1 R2 R3 R4 R5 R6 [R7 R7'] R8 R9] Hk Hb Hby Hw Hrest. pose proof (cl_ok _ _ _ (af_cl _ _ _ R2)) as Hcl.
  pose proof (content_length s l R1 Hcl) as Hlen. destruct (bpc_bounds _ (fo_vol _ R1)) as [HB _].
  assert (Hkl : 32 * k + 32 <= Z.of_nat (length (concat (dir_entries x)))).
  { apply lookup_lt_Some in Hb. rewrite dir_entries_length in Hb. rewrite entries_len. lia. }
  apply (entry_wp dp l off (concat (dir_entries x)) s (32 * k) l1 s1 b rest Q); try done; try lia; [apply R2|rewrite Z.mul_comm; apply Z_mod_mult| | |].
  - etrans; [|exact R9]. apply clus_need_mono; lia.
  - by apply dir_entry_at.
  - intros r l2 s2 Hw2 Hcp. apply (Hrest r l2); [|done]. by replace (32 * (k + 1)) with (32 * k + 32) by lia.
Qed.

(** The loop over the long-name entries. *)
Lemma emake_long_wp dp l off x s i : let n := lne_count (length (cstr (d_filename x))) in
  dir_room s dp l off (Z.of_nat (length (concat (dir_entries x)))) -> (forall b, b ∈ dir_entries x -> bytes_ok b) ->
  0 <= n -> Z.of_nat i <= n -> forall l1 s1, writer dp l off (concat (dir_entries x)) s (32 * (n - Z.of_nat i)) l1 s1 ->
  wp (emake_long i dp (d_filename x) n (cal_checksum (short_of x)) (off + 32 * (n - Z.of_nat i))) (fun r s' => r = off + 32 * n /\
    exists l2, writer dp l off (concat (dir_entries x)) s (32 * n) l2 s' /\ fs_cp s' = fs_cp s1) s1.
Proof.
  intros n Hroom Hby Hn Hi. induction i as [|i IH]; intros l1 s1 Hw.
  - cbn [emake_long]. wp_step. replace (n - Z.of_nat 0) with n in * by lia. split; [done|]. by exists l1.
  - cbn [emake_long]. set (k := n - Z.of_nat (S i)) in *.
    assert (Hent : dir_entries x !! Z.to_nat k = Some (long_entry (d_filename x) n (cal_checksum (short_of x)) (Z.of_nat (S i)))).
    { pose proof (dir_entries_long x k) as He. cbv zeta in He. fold n in He. rewrite He by (unfold k; lia). by replace (n - k) with (Z.of_nat (S i)) by (unfold k; lia). }
    eapply (room_entry dp l off x s k _ l1 s1 (fun _ => _) _ Hroom); [unfold k; lia|exact Hent|apply Hby; by eapply list_elem_of_lookup_2|exact Hw|].
    intros _ l2 s2 Hw2 Hcp.
    assert (Hend : off + 32 * (k + 1) < 2 ^ 32).
    { pose proof (dr_end _ _ _ _ _ Hroom) as Hde. rewrite entries_len in Hde. fold n in Hde. unfold k. lia. }
    pose proof (dr_off _ _ _ _ _ Hroom). rewrite u32_small by (unfold k in *; lia).
    replace (off + 32 * k + 32) with (off + 32 * (n - Z.of_nat i)) by (unfold k; lia).
    eapply wp_mono; [apply (IH ltac:(lia) l2 s2)|].
    + replace (n - Z.of_nat i) with (k + 1) by (unfold k; lia). done.
    + intros r s' (-> & l3 & Hw3 & Hcp3). split; [done|]. exists l3. split; [done|congruence].
Qed.

(** An entry whose name can be written: no control of its length but the
    248 bytes that [enext] can store. *)
Record nameable (x : dirent) : Prop := {
  na_bytes : bytes_ok (d_filename x);
  na_name : name_bytes (cstr (d_filename x));
  na_len : (0 < length (cstr (d_filename x)) <= 247)%nat;
}.

Lemma bytes_ok_2 z : bytes_ok (bytes2 z).
Proof. repeat constructor; apply u8_range. Qed.

Lemma wide_ok n : forall p e, bytes_ok p -> bytes_ok (wide n p e).
Proof.
  induction n as [|n IH]; intros p e Hp; [constructor|]. destruct e; simpl.
  - repeat constructor; try lia. by apply IH.
  - assert (Hh : 0 <= hd 0 p < 256) by (destruct Hp; simpl; lia). constructor; [done|]. constructor; [lia|]. apply IH. destruct Hp; [constructor|done].
Qed.

Lemma dir_entries_bytes x b : nameable x -> b ∈ dir_entries x -> bytes_ok b.
Proof.
  intros [N1 N2 N3]. unfold dir_entries. rewrite elem_of_app. intros [Hb|Hb].
  - apply list_elem_of_fmap in Hb as (i & -> & _). unfold long_entry, lne_bytes. change (Z.to_nat CHAR_LONG_NAME) with 13%nat.
    assert (Hw : bytes_ok (wide 13 (drop (Z.to_nat ((i - 1) * CHAR_LONG_NAME)) (d_filename x)) false)) by by apply wide_ok, Forall_drop.
    pose proof (cal_checksum_range (short_of x)). unfold bytes_ok. rewrite !Forall_app. split_and!.
    + repeat constructor; apply u8_range.
    + by apply Forall_take.
    + repeat constructor; unfold ATTR_LONG_NAME; lia.
    + by apply Forall_take, Forall_drop.
    + repeat constructor; lia.
    + by apply Forall_drop.
  - apply list_elem_of_singleton in Hb as ->. unfold sne_bytes, bytes_ok. destruct (strncpy_short _ N2) as (Hs & _ & _).
    rewrite !Forall_app. split_and!; try apply bytes_ok_2; try (apply Forall_replicate; lia).
    + eapply Forall_impl; [exact Hs|]. simpl. lia.
    + repeat constructor; apply u8_range.
    + apply bytes4_ok.
Qed.

Lemma nameable_count x : nameable x -> 1 <= lne_count (length (cstr (d_filename x))) <= 19.
Proof. intros [_ _ Hl]. unfold lne_count, CHAR_LONG_NAME. dlia. Qed.

Lemma emake_wp dp ep l off s : let x := ent s ep in nameable x ->
  dir_room s dp l off (Z.of_nat (length (concat (dir_entries x)))) ->
  wp (emake dp ep off) (fun _ s' => exists l', writer dp l off (concat (dir_entries x)) s (Z.of_nat (length (concat (dir_entries x)))) l' s' /\
    fs_cp s' = fs_cp s) s.
Proof.
  intros x Hx Hroom. pose proof (nameable_count x Hx) as Hn. set (n := lne_count (length (cstr (d_filename x)))) in *.
  pose proof Hroom as [R1 R2 R3 R4 R5 R6 [R7 R7'] R8 R9]. rewrite entries_len in R8, R9 |- *. fold n in R8, R9 |- *.
  unfold emake, gete. wp_step. wp_step. wp_step. wp_step. destruct (Z.eqb_spec (Z.land (d_attribute (ent s dp)) ATTR_DIRECTORY) 0); [done|].
  rewrite R7'. simpl negb. cbv iota. destruct (Z.leb_spec off 32); [lia|]. cbv zeta. fold x. fold (short_of x).
  change ((Z.of_nat (length (cstr (d_filename x))) + CHAR_LONG_NAME - 1) / CHAR_LONG_NAME) with n.
  assert (Hby : forall b, b ∈ dir_entries x -> bytes_ok b) by (intros b Hb; by apply (dir_entries_bytes x)).
  pose proof (emake_long_wp dp l off x s (Z.to_nat n)) as Hlong. cbv zeta in Hlong. fold n in Hlong. rewrite Z2Nat.id, Z.sub_diag in Hlong by lia.
  rewrite Z.mul_0_r, Z.add_0_r in Hlong. wp_step.
  assert (Hw0 : writer dp l off (concat (dir_entries x)) s 0 l s) by (apply writer_refl; try done; lia).
  eapply wp_mono; [apply (Hlong Hroom Hby ltac:(lia) ltac:(lia) l s Hw0)|]. intros r s1 (-> & l1 & Hw1 & Hcp1).
  eapply (room_entry dp l off x s n _ l1 s1 (fun _ => ret tt) _ Hroom); [lia|apply (dir_entries_short x); fold n; lia| |exact Hw1|].
  - apply Hby. eapply list_elem_of_lookup_2. apply (dir_entries_short x). fold n. lia.
  - intros r l2 s2 Hw2 Hcp2. wp_step. exists l2. replace (Z.max 0 n) with n by lia. split; [done|congruence].
Qed.

(** ** Reading entries *)

(** During a scan of [dp] only its position and the name of [ep] change. *)
Record scanning s (dp ep : Z) (l fn : list Z) s1 : Prop := {
  sc_ok : fs_ok s1;
  sc_disk : rdisk s1 = rdisk s;
  sc_at : at_file s1 dp l;
  sc_only : only_disk (upd_ent ep (set_d_filename fn) (upd_ent dp (seek (d_clus_cnt (ent s1 dp)) (d_cur_clus (ent s1 dp))) s)) s1;
}.

Lemma local_sink (cp0 : CS) n : sink_ok (D := D) (fun _ c => c = cp0) n to_local.
Proof. intros acc bs s Hc _ _. unfold to_local. wp_step. split; [done|]. exists (fs_cp s). by rewrite with_cp_id. Qed.

Lemma upd_ent_comm s e e' f g : 0 <= e -> 0 <= e' -> e <> e' -> upd_ent e f (upd_ent e' g s) = upd_ent e' g (upd_ent e f s).
Proof.
  intros H1 H2 Hne. unfold upd_ent at 1 3. rewrite !ent_upd_ne by (done || lia). unfold upd_ent. simpl.
  rewrite list_insert_insert_ne by lia. done.
Qed.

Lemma scanning_step s dp ep l fn s1 k s2 s3 : 0 <= dp -> 0 <= ep -> dp <> ep -> (Z.to_nat dp < length (fs_ents s))%nat ->
  scanning s dp ep l fn s1 -> moved dp l k s1 s2 -> 0 <= k < Z.of_nat (length l) -> same_disk s2 s3 -> scanning s dp ep l fn s3.
Proof.
  intros Hdp Hep Hne He [S1 S2 S3 S4] Hmv Hk (K1 & K2 & K3). destruct (moved_at _ _ _ _ _ S3 Hmv Hk) as (Ha & Hc & Hcur).
  destruct Hmv as (M1 & M2 & M3). pose proof (only_disk_ent _ _ dp K2) as He3. split; [done|congruence| |].
  - apply (af_disk s2); [done| |done]. intros x _. apply fate_same; [by apply only_disk_fat|done].
  - rewrite He3, Hc, Hcur. etrans; [|exact K2]. etrans; [|exact M3].
    apply (only_disk_upd _ _ dp (seek k (l !!! Z.to_nat k))) in S4. rewrite upd_ent_comm, upd_ent_twice in S4 by done. exact S4.
Qed.

Lemma slot_wp {A} s dp ep l fn s1 o (no : M (fatst CS D) A) rest Q : 0 <= dp -> 0 <= ep -> dp <> ep -> (Z.to_nat dp < length (fs_ents s))%nat ->
  fs_ok s -> (forall x, x ∈ l -> clus_ok (fs_fat s) x) -> 0 <= o -> o mod 32 = 0 -> o + 32 <= Z.of_nat (length (content s l)) -> o + 32 < 2 ^ 32 ->
  scanning s dp ep l fn s1 -> (forall s2, scanning s dp ep l fn s2 -> wp (rest (32, sub_bytes o 32 (content s l))) Q s2) ->
  wp (off2 <- reloc_clus dp o false ;; if off2 =? -1 then no else r <- read_slot dp (u32 off2) 32 ;; rest r) Q s1.
Proof.
  intros Hdp Hep Hne He Hok Hcl Ho Ho32 Hlen H32 Hs Hrest. pose proof Hs as [S1 S2 S3 S4].
  pose proof (fo_vol _ Hok) as Hv. destruct (bpc_bounds _ Hv) as [Hb Hb512]. rewrite (content_length s l Hok Hcl) in Hlen.
  assert (Hf1 : fs_fat s1 = fs_fat s) by (by rewrite (only_disk_fat _ _ S4)).
  set (B := byts_per_clus (fs_fat s)) in *. pose proof (Z.mod_pos_bound o B ltac:(lia)) as Hmb. pose proof (Z.div_mod o B ltac:(lia)) as Hdm.
  assert (Hfit : o mod B + 32 <= B).
  { assert (o mod B mod 32 = 0).
    { replace (o mod B) with (o - 16 * sec_per_clus (bpb (fs_fat s)) * (o / B) * 32) by (rewrite Hdm at 1; rewrite Hb512; lia).
      rewrite Zminus_mod, Z_mod_mult, Z.sub_0_r, Zmod_mod. done. }
    assert (B mod 32 = 0) by (rewrite Hb512; replace (512 * sec_per_clus (bpb (fs_fat s))) with (16 * sec_per_clus (bpb (fs_fat s)) * 32) by lia; apply Z_mod_mult).
    clear Hdm. dlia. }
  assert (Hk : 0 <= o / B < Z.of_nat (length l)) by (split; [apply Z.div_pos; lia|apply Z.div_lt_upper_bound; lia]).
  wp_step. eapply wp_mono; [apply (reloc_wp dp l o false s1); rewrite ?Hf1; fold B; try done; lia|]. rewrite Hf1. fold B.
  intros r s2 [-> Hmv]. destruct (Z.eqb_spec (o mod B) (-1)); [lia|]. destruct (moved_at _ _ _ _ _ S3 Hmv Hk) as (Ha & Hc & Hcur).
  pose proof Hmv as (M1 & M2 & M3). assert (Hf2 : fs_fat s2 = fs_fat s) by (by rewrite (only_disk_fat _ _ M3)).
  unfold read_slot, gete. wp_step. wp_step. wp_step. rewrite Hcur, u32_small by lia.
  eapply wp_mono; [apply (rw_clus_read_wp (fun _ c => c = fs_cp s2) _ _ 32 _ s2); rewrite ?Hf2; fold B; [done| |lia|lia|lia|apply local_sink|done]|].
  { apply Hcl. eapply list_elem_of_lookup_2. by apply lookup_total_Some. }
  rewrite Hf2. fold B. intros r s3 (-> & cp & Hs3 & ->). rewrite with_cp_id in Hs3.
  assert (Hcs : content s2 l = content s l) by (apply content_ext; [done|]; intros x _; by rewrite M2, S2).
  pose proof (content_piece s2 l o 32 M1) as Hp. rewrite Hf2 in Hp. fold B in Hp. rewrite Hp by (done || lia). rewrite Hcs.
  apply Hrest. by apply (scanning_step s dp ep l fn s1 (o / B) s2 s3).
Qed.

Lemma sub_sub i n j m (l : list Z) : 0 <= i -> 0 <= j -> j + m <= n -> sub_bytes j m (sub_bytes i n l) = sub_bytes (i + j) m l.
Proof.
  intros Hi Hj Hn. apply list_eq. intros k. rewrite !lookup_sub_bytes by lia. case_bool as E; [|done].
  case_bool as E2; [|lia]. f_equal. lia.
Qed.

(** The entries of [x] are in the directory at [off]. *)
Definition entries_at s (l : list Z) (off : Z) (x : dirent) : Prop :=
  sub_bytes off (Z.of_nat (length (concat (dir_entries x)))) (content s l) = concat (dir_entries x) /\
  off + Z.of_nat (length (concat (dir_entries x))) <= Z.of_nat (length (content s l)).

Lemma entry_there s l off x k b : entries_at s l off x -> 0 <= off -> 0 <= k -> dir_entries x !! Z.to_nat k = Some b ->
  sub_bytes (off + 32 * k) 32 (content s l) = b /\ off + 32 * k + 32 <= off + Z.of_nat (length (concat (dir_entries x))).
Proof.
  intros [He Hl] Hoff Hk Hb. assert (Hkl : 32 * k + 32 <= Z.of_nat (length (concat (dir_entries x)))).
  { apply lookup_lt_Some in Hb. rewrite dir_entries_length in Hb. rewrite entries_len. lia. }
  split; [|lia]. rewrite <- (sub_sub off (Z.of_nat (length (concat (dir_entries x))))) by lia. rewrite He. by apply dir_entry_at.
Qed.

Section scan.
Context (s : fatst CS D) (dp ep : Z) (l : list Z) (off : Z) (x : dirent).
Context (Hdp : 0 <= dp) (Hep : 0 <= ep) (Hne : dp <> ep).
Context (Hdpl : (Z.to_nat dp < length (fs_ents s))%nat) (Hepl : (Z.to_nat ep < length (fs_ents s))%nat).
Context (Hok : fs_ok s) (Hcl : forall y, y ∈ l -> clus_ok (fs_fat s) y).
Context (Hoff : 0 <= off) (Hoff32 : off mod 32 = 0) (Hend : off + Z.of_nat (length (concat (dir_entries x))) < 2 ^ 32).
Context (Hx : nameable x) (Hthere : entries_at s l off x).
Context (Hshort : byte_at (short_of x) 0 <> EMPTY_ENTRY) (Hattr : u8 (d_attribute x) <> ATTR_LONG_NAME).
Context (Hclus : 0 <= d_first_clus x < 2 ^ 32) (Hsize : 0 <= d_file_size x < 2 ^ 32).

Lemma scanning_name fn fn' s1 : scanning s dp ep l fn s1 -> scanning s dp ep l fn' (upd_ent ep (set_d_filename fn') s1).
Proof.
  intros [S1 S2 S3 S4]. assert (Hent : ent (upd_ent ep (set_d_filename fn') s1) dp = ent s1 dp) by (apply ent_upd_ne; lia).
  split; [by apply fs_ok_upd|done| |].
  - destruct S3 as [A1 [C1 C2 C3] A3 A4]. split; rewrite ?Hent; try done. simpl. by rewrite length_insert.
  - rewrite Hent. apply (only_disk_upd _ _ ep (set_d_filename fn')) in S4. rewrite upd_ent_twice in S4; [exact S4|].
    simpl. by rewrite length_insert.
Qed.

Lemma scanning_filename fn s1 : scanning s dp ep l fn s1 -> d_filename (ent s1 ep) = fn.
Proof.
  intros [_ _ _ S4]. rewrite (only_disk_ent _ _ ep S4), ent_upd; [done|]. simpl. by rewrite length_insert.
Qed.

Let n := lne_count (length (cstr (d_filename x))).

Lemma enext_long_step k fn s1 : 0 <= k < n -> tail_ok (cstr (d_filename x)) (n - k + 1) fn -> scanning s dp ep l fn s1 ->
  wp (enext_body dp ep (off + 32 * k, 0, if k =? 0 then None else Some (n + 1))) (fun y s' =>
    y = inl (off + 32 * (k + 1), 0, Some (n + 1)) /\ exists fn', tail_ok (cstr (d_filename x)) (n - k) fn' /\ scanning s dp ep l fn' s') s1.
Proof.
  intros Hk Ht Hs. pose proof (nameable_count x Hx) as Hn. fold n in Hn.
  pose proof (dir_entries_long x k) as He. cbv zeta in He. fold n in He. specialize (He Hk).
  destruct (entry_there s l off x k _ Hthere Hoff ltac:(lia) He) as [Hb Hbl]. destruct Hthere as [_ Hlen].
  unfold enext_body. apply (slot_wp s dp ep l fn s1); try done; try lia.
  { rewrite Zplus_mod, Hoff32, Z.mul_comm, Z_mod_mult. done. }
  intros s2 Hs2. rewrite Hb. cbn [fst snd]. unfold long_entry.
  destruct (order_bits (n - k) n) as (O1 & O2 & O3 & O4); [lia|lia|]. set (o := if n - k =? n then _ else _) in *.
  match goal with |- context [lne_bytes o ?c ?p] => destruct (lne_fields o c p) as [F1 F2]; set (de := lne_bytes o c p) in * end.
  rewrite F1, F2, O3, O4. rewrite Z.eqb_refl. destruct (Z.eqb_spec (u8 o) END_OF_ENTRY); [done|]. simpl negb. simpl orb. cbv iota.
  destruct (Z.eqb_spec (u8 o) EMPTY_ENTRY); [done|].
  assert (Hlast : (n - k =? n) && negb (bool_decide ((if k =? 0 then None else Some (n + 1)) = None)) = false).
  { destruct (Z.eqb_spec k 0) as [->|]; [by rewrite andb_false_r|]. by destruct (Z.eqb_spec (n - k) n); [lia|]. }
  rewrite Hlast. destruct (Z.ltb_spec ((n - k - 1) * CHAR_LONG_NAME) 0); [unfold CHAR_LONG_NAME in *; lia|].
  destruct (Z.ltb_spec (FAT32_MAX_FILENAME + 1) ((n - k - 1) * CHAR_LONG_NAME + CHAR_LONG_NAME)) as [Hov|_].
  { unfold CHAR_LONG_NAME, FAT32_MAX_FILENAME in *. lia. }
  simpl orb. cbv iota. unfold sete. wp_go. split.
  - f_equal. f_equal; [f_equal; rewrite u32_small; lia|].
    destruct (Z.eqb_spec k 0) as [->|]; [by rewrite Z.sub_0_r, Z.eqb_refl|]. by destruct (Z.eqb_spec (n - k) n); [lia|].
  - exists (put_long_name de (13 * (n - k - 1)) fn). split.
    + apply tail_ok_step; [apply Hx|apply Hx|lia|done].
    + assert (Heq : upd_ent ep (fun e => set_d_filename (put_long_name de ((n - k - 1) * CHAR_LONG_NAME) (d_filename e)) e) s2 =
        upd_ent ep (set_d_filename (put_long_name de (13 * (n - k - 1)) fn)) s2).
      { unfold upd_ent. rewrite (scanning_filename _ _ Hs2). unfold CHAR_LONG_NAME. by rewrite Z.mul_comm. }
      rewrite Heq. by apply (scanning_name fn).
Qed.

Lemma enext_short_step fn s1 : scanning s dp ep l fn s1 ->
  wp (enext_body dp ep (off + 32 * n, 0, Some (n + 1))) (fun y s' => y = inr (1, Some (n + 1)) /\ exists s2, scanning s dp ep l fn s2 /\
    s' = upd_ent ep (read_entry_info (sne_bytes (short_of x) (d_attribute x) (d_first_clus x) (d_file_size x))) s2) s1.
Proof.
  intros Hs. pose proof (nameable_count x Hx) as Hn. fold n in Hn.
  pose proof (dir_entries_short x) as He. cbv zeta in He. fold n in He. specialize (He ltac:(lia)).
  destruct (entry_there s l off x n _ Hthere Hoff ltac:(lia) He) as [Hb Hbl]. destruct Hthere as [_ Hlen].
  unfold enext_body. apply (slot_wp s dp ep l fn s1); try done; try lia.
  { rewrite Zplus_mod, Hoff32, Z.mul_comm, Z_mod_mult. done. }
  intros s2 Hs2. rewrite Hb. cbn [fst snd]. 
  destruct (sne_fields (short_of x) (d_attribute x) (d_first_clus x) (d_file_size x)) as (F1 & F2 & F3 & F4); [done|done|].
  destruct (strncpy_short _ (na_name _ Hx)) as (_ & G1 & G2). unfold lne_order. rewrite F1, F2. unfold short_of in *. rewrite G1.
  destruct (Z.eqb_spec (byte_at (generate_shortname (cstr (d_filename x))) 0) END_OF_ENTRY); [done|].
  destruct (Z.eqb_spec (byte_at (generate_shortname (cstr (d_filename x))) 0) EMPTY_ENTRY); [done|].
  destruct (Z.eqb_spec (u8 (d_attribute x)) ATTR_LONG_NAME); [done|]. simpl negb. simpl orb. cbv iota. unfold sete. simpl when. wp_go.
  split; [done|]. by exists s2.
Qed.

Lemma enext_loop_wp i : forall fuel k fn s1, Z.of_nat i = n - k -> 0 <= k -> (i < fuel)%nat ->
  tail_ok (cstr (d_filename x)) (n - k + 1) fn -> scanning s dp ep l fn s1 -> (k = n -> 0 < n) ->
  wp (loop fuel (enext_body dp ep) (off + 32 * k, 0, if k =? 0 then None else Some (n + 1))) (fun r s' => r = (1, Some (n + 1)) /\
    exists fn' s2, cstr fn' = cstr (d_filename x) /\ scanning s dp ep l fn' s2 /\
      s' = upd_ent ep (read_entry_info (sne_bytes (short_of x) (d_attribute x) (d_first_clus x) (d_file_size x))) s2) s1.
Proof.
  pose proof (nameable_count x Hx) as Hn. fold n in Hn.
  induction i as [|i IH]; intros fuel k fn s1 Hi Hk Hf Ht Hs Hkn; (destruct fuel as [|fuel]; [lia|]); apply wp_loop_S.
  - assert (k = n) as -> by lia. destruct (Z.eqb_spec n 0); [lia|].
    eapply wp_mono; [by apply (enext_short_step fn)|]. intros y s' (-> & s2 & Hs2 & ->). split; [done|]. exists fn, s2.
    split; [|done]. apply tail_ok_end; [apply Hx|]. by replace (n - n + 1) with 1 in Ht by lia.
  - eapply wp_mono; [apply (enext_long_step k fn s1); [lia|done|done]|]. intros y s' (-> & fn' & Ht' & Hs').
    pose proof (IH fuel (k + 1) fn' s') as IH'. destruct (Z.eqb_spec (k + 1) 0); [lia|]. apply IH'; try done; try lia.
    by replace (n - (k + 1) + 1) with (n - k) by lia.
Qed.
End scan.

(** [enext] at the offset of an entry that [emake] wrote. *)
Lemma enext_wp s dp ep l off x : 0 <= dp -> 0 <= ep -> dp <> ep -> (Z.to_nat ep < length (fs_ents s))%nat ->
  fs_ok s -> at_file s dp l -> Z.land (d_attribute (ent s dp)) ATTR_DIRECTORY <> 0 -> d_valid (ent s dp) = 1 -> d_valid (ent s ep) = 0 ->
  0 <= off -> off mod 32 = 0 -> off + Z.of_nat (length (concat (dir_entries x))) < 2 ^ 32 -> nameable x -> entries_at s l off x ->
  byte_at (short_of x) 0 <> EMPTY_ENTRY -> u8 (d_attribute x) <> ATTR_LONG_NAME ->
  0 <= d_first_clus x < 2 ^ 32 -> 0 <= d_file_size x < 2 ^ 32 ->
  wp (enext dp ep off) (fun r s' => r = (1, Some (lne_count (length (cstr (d_filename x))) + 1)) /\
    cstr (d_filename (ent s' ep)) = cstr (d_filename x) /\ d_attribute (ent s' ep) = u8 (d_attribute x) /\
    d_first_clus (ent s' ep) = d_first_clus x /\ d_file_size (ent s' ep) = d_file_size x /\ rdisk s' = rdisk s) s.
Proof.
  intros Hdp Hep Hne Hepl Hok Ha Hdir Hvd Hve Hoff Ho32 Hend Hx Hthere Hsh Hat Hclus Hsize.
  pose proof (nameable_count x Hx) as Hn. set (n := lne_count (length (cstr (d_filename x)))) in *.
  pose proof (cl_ok _ _ _ (af_cl _ _ _ Ha)) as Hcl. pose proof (af_e _ _ _ Ha) as Hdpl.
  unfold enext, gete, the_fat, sete. wp_step. wp_step. wp_step. wp_step.
  destruct (Z.eqb_spec (Z.land (d_attribute (ent s dp)) ATTR_DIRECTORY) 0); [done|]. rewrite Hve, Hvd, Ho32. simpl negb. cbv iota.
  wp_step. wp_step. wp_step. wp_step. set (fn0 := replicate (Z.to_nat (FAT32_MAX_FILENAME + 1)) 0).
  assert (Hs0 : scanning s dp ep l fn0 (upd_ent ep (set_d_filename fn0) s)).
  { assert (Hent : ent (upd_ent ep (set_d_filename fn0) s) dp = ent s dp) by (apply ent_upd_ne; lia).
    split; [by apply fs_ok_upd|done| |].
    - destruct Ha as [A1 [C1 C2 C3] A3 A4]. split; rewrite ?Hent; try done. simpl. by rewrite length_insert.
    - rewrite Hent, (upd_ent_id s dp); [reflexivity|done|]. unfold seek. by destruct (ent s dp). }
  assert (Hfuel : (Z.to_nat n < dir_slots (fs_fat s))%nat).
  { destruct Hthere as [_ Hl]. rewrite entries_len, (content_length s l Hok Hcl) in Hl. fold n in Hl.
    pose proof (clusters_length s _ l (fo_vol _ Hok) (af_cl _ _ _ Ha)) as Hll. destruct (bpc_bounds _ (fo_vol _ Hok)) as [HB HB2].
    unfold dir_slots. rewrite HB2 in *. replace (512 * sec_per_clus (bpb (fs_fat s)) / 32) with (16 * sec_per_clus (bpb (fs_fat s))) by dlia. 
    pose proof (vo_cnt _ (fo_vol _ Hok)). nia. }
  pose proof (enext_loop_wp s dp ep l off x Hdp Hep Hne Hdpl Hepl Hok Hcl Hoff Ho32 Hend Hx Hthere Hsh Hat Hclus Hsize
    (Z.to_nat n) (dir_slots (fs_fat s)) 0 fn0) as Hloop. fold n in Hloop. rewrite Z.mul_0_r, Z.add_0_r in Hloop. simpl in Hloop.
  eapply wp_mono; [apply Hloop; try done; try lia|].
  - replace (n - 0 + 1) with (n + 1) by lia. apply tail_ok_start, Hx.
  - intros r s' (-> & fn' & s2 & Hc & Hs2 & ->). split; [done|].
    assert (Hl2 : (Z.to_nat ep < length (fs_ents s2))%nat).
    { rewrite (only_disk_ents _ _ (sc_only _ _ _ _ _ _ Hs2)). simpl. by rewrite !length_insert. }
    pose proof (scanning_filename s dp ep l Hepl fn' s2 Hs2) as Hfn.
    destruct (sne_fields (short_of x) (d_attribute x) (d_first_clus x) (d_file_size x)) as (F1 & F2 & F3 & F4); [done|done|].
    rewrite ent_upd by done. unfold read_entry_info. cbn [d_filename d_attribute d_first_clus d_file_size set_d_clus_cnt set_d_cur_clus set_d_file_size set_d_first_clus set_d_attribute].
    rewrite Hfn, F2, F3, F4. split_and!; try done. exact (sc_disk _ _ _ _ _ _ Hs2).
Qed.

(** C7: A file that [emake] enters into a directory is found by [enext].  For
    an entry with a name of 1 to 247 bytes, a short name that does not start
    with 0xe5 and attributes other than those of a long-name entry, [emake] at
    a free offset of a directory ends, extending the directory by free
    clusters if needed; a scan at that offset then returns 1 and the number of
    slots, with the same name, attributes, first cluster and size.  The limits
    on the name are those of the code: a name of 248 bytes overruns the
    buffer of [enext], and an entry whose short name starts with 0xe5 is taken
    for a deleted one (the examples at the end of FatDemo.v). *)
Theorem emake_enext_roundtrip s dp ep ep' l off : let x := ent s ep in
  0 <= dp -> 0 <= ep' -> dp <> ep' -> (Z.to_nat ep' < length (fs_ents s))%nat -> d_valid (ent s ep') = 0 ->
  nameable x -> byte_at (short_of x) 0 <> EMPTY_ENTRY -> u8 (d_attribute x) <> ATTR_LONG_NAME ->
  0 <= d_first_clus x < 2 ^ 32 -> 0 <= d_file_size x < 2 ^ 32 ->
  dir_room s dp l off (Z.of_nat (length (concat (dir_entries x)))) ->
  exists s1, emake dp ep off s = Ok tt s1 /\ exists s2,
    enext dp ep' off s1 = Ok (1, Some (lne_count (length (cstr (d_filename x))) + 1)) s2 /\
    cstr (d_filename (ent s2 ep')) = cstr (d_filename x) /\ d_attribute (ent s2 ep') = u8 (d_attribute x) /\
    d_first_clus (ent s2 ep') = d_first_clus x /\ d_file_size (ent s2 ep') = d_file_size x.
Proof.
  intros x Hdp Hep Hne Hepl Hv Hx Hsh Hat Hcl Hsz Hroom. 
  destruct (wp_Ok _ _ _ (emake_wp dp ep l off s Hx Hroom)) as ([] & s1 & Hrun & l1 & Hw & _). fold x in Hw.
  exists s1. split; [done|].
  pose proof Hroom as [R1 R2 R3 R4 R5 R6 [R7 R7'] R8 R9]. pose proof (wr_only _ _ _ _ _ _ _ _ Hw) as Ho.
  assert (He1 : ent s1 dp = rewritten (ent s1 dp) (ent s dp)).
  { rewrite (only_disk_ent _ _ dp Ho) at 1. change (ent (upd_ent dp (rewritten (ent s1 dp)) s) dp = rewritten (ent s1 dp) (ent s dp)).
    apply ent_upd, R2. }
  assert (He2 : ent s1 ep' = ent s ep').
  { rewrite (only_disk_ent _ _ ep' Ho). change (ent (upd_ent dp (rewritten (ent s1 dp)) s) ep' = ent s ep'). by apply ent_upd_ne. }
  assert (Hthere : entries_at s1 l1 off x).
  { pose proof (wr_content _ _ _ _ _ _ _ _ Hw) as Hc. rewrite sub_bytes_all in Hc. set (data := concat (dir_entries x)) in *.
    assert (Hpad : off + Z.of_nat (length data) <=
      Z.of_nat (length (content s l ++ replicate (Z.to_nat (byts_per_clus (fs_fat s)) * (length l1 - length l)) 0))).
    { pose proof (cl_ok _ _ _ (af_cl _ _ _ R2)) as Hcl'. rewrite length_app, length_replicate. pose proof (content_length s l R1 Hcl').
      pose proof (prefix_length _ _ (wr_pre _ _ _ _ _ _ _ _ Hw)). destruct (bpc_bounds _ (fo_vol _ R1)) as [HB _].
      assert (off + Z.of_nat (length data) <= Z.of_nat (length l1) * byts_per_clus (fs_fat s)); [|nia].
      apply clus_need_covers; [lia|lia|]. pose proof (wr_len _ _ _ _ _ _ _ _ Hw). lia. }
    unfold entries_at. fold data. split; rewrite Hc; [|rewrite length_store_at; lia]. apply list_eq. intros k. rewrite lookup_sub_bytes by lia.
    case_bool as E; [|by rewrite lookup_ge_None_2 by lia]. rewrite lookup_store_at by lia. case_ranges. f_equal. lia. }
  destruct (wp_Ok _ _ _ (enext_wp s1 dp ep' l1 off x Hdp Hep Hne ltac:(rewrite (only_disk_ents _ _ Ho); simpl; by rewrite length_insert)
    (wr_ok _ _ _ _ _ _ _ _ Hw) (wr_at _ _ _ _ _ _ _ _ Hw) ltac:(by rewrite He1) ltac:(by rewrite He1) ltac:(by rewrite He2) ltac:(lia) R7' R8 Hx Hthere Hsh Hat Hcl Hsz))
    as (r & s2 & Hrun2 & -> & K1 & K2 & K3 & K4 & _). by exists s2.
Qed.
End dir.
