(* ===== verification/FatDemo.v ===== *)
(** * A small volume

    Ten clusters of one sector; a file of 600 bytes with the chain 3, 5, and
    one that was never written.  The theorems on the file system hold here,
    with the caller's memory as a function from addresses to bytes. *)

From S2P Require Import Prelude Riscv Memory Spinlock Bio BioProps Fat32 FatDisk FatChain FatClus FatFile FatName FatDir.
Import Hart.

Module FatDemo.

(** A disk is the list of the sectors written; the others hold zeros. *)
Definition D : Type := list (Z * list Z).
Fixpoint sector (d : D) (n : Z) : list Z :=
  match d with [] => replicate (Z.to_nat BSIZE) 0 | (m, v) :: d' => if m =? n then v else sector d' n end.
#[export] Instance demo_disk : Disk D := {| sd_read := sector; sd_write d n v := (n, v) :: d |}.
#[export] Instance demo_disk_laws : DiskLaws D.
Proof. split. done. Qed.

Lemma sectors_ok_list (d : D) : Forall (fun x => length (snd x) = Z.to_nat BSIZE /\ bytes_ok (snd x)) d -> sectors_ok (sector d).
Proof.
  intros Hd n _. induction Hd as [|[m v] d Hv Hd IH]; cbn [sector].
  - split; [by rewrite length_replicate|]. apply Forall_replicate. lia.
  - by destruct (m =? n).
Qed.

(** The caller's memory. *)
Definition mem : Type := Z -> Z.
#[export] Instance mem_copy : EitherCopy mem := {|
  ec_out user a bs := fun m => Ok true (fun x => if (a <=? x) && (x <? a + Z.of_nat (length bs)) then byte_at bs (x - a) else m x);
  ec_in user a n := fun m => Ok ((fun i => m (a + i)) <$> seqZ 0 n, true) m;
|}.
Definition mem_buf (m : mem) (user : bool) (a n : Z) : Prop := 0 <= a /\ a + n < 2 ^ 64 /\ forall x, 0 <= m x < 256.

Lemma mem_out_spec m user a n k bs : mem_buf m user a n -> bytes_ok bs -> 0 <= k -> k + Z.of_nat (length bs) <= n ->
  wp (ec_out user (u64 (a + k)) bs) (fun ok m' => ok = true /\ mem_buf m' user a n /\
    forall x, 0 <= x < n -> m' (a + x) = if (k <=? x) && (x <? k + Z.of_nat (length bs)) then byte_at bs (x - k) else m (a + x)) m.
Proof.
  intros (H1 & H2 & H3) Hb Hk Hn. rewrite u64_small by lia. split; [done|]. split.
  - split; [done|]. split; [done|]. intros x. cbv beta. case_match; [by apply byte_at_range|done].
  - intros x Hx. cbv beta. case_ranges; try done; f_equal; lia.
Qed.

Lemma mem_in_spec m user a n k l : mem_buf m user a n -> 0 <= k -> 0 <= l -> k + l <= n ->
  wp (ec_in user (u64 (a + k)) l) (fun r m' => r = ((fun i => m (a + k + i)) <$> seqZ 0 l, true) /\ mem_buf m' user a n /\
    forall x, 0 <= x < n -> m' (a + x) = m (a + x)) m.
Proof. intros (H1 & H2 & H3) Hk Hl Hn. rewrite u64_small by lia. done. Qed.

Lemma mem_byte m user a n x : mem_buf m user a n -> 0 <= x < n -> 0 <= m (a + x) < 256.
Proof. intros (_ & _ & H) _. apply H. Qed.

#[export] Instance mem_copy_laws : EitherCopyLaws mem := {|
  ec_mem m user x := m x;
  ec_buf := mem_buf;
  ec_out_spec := mem_out_spec;
  ec_in_spec := mem_in_spec;
  ec_byte := mem_byte;
|}.

(** The volume. *)
Definition vol : fat_t := Fat 2 10 10 512 (Bpb 512 1 1 1 0 12 1 2).
Definition words (l : list Z) : list Z := concat (bytes4 <$> l).
Definition fat_sector : list Z :=
  let w := words [0x0ffffff8; 0x0fffffff; 0x0fffffff; 5; 0x0fffffff; 0x0fffffff] in
  w ++ replicate (Z.to_nat BSIZE - length w) 0.
Definition disk0 : D := [(1, fat_sector); (3, replicate (Z.to_nat BSIZE) 65); (5, replicate (Z.to_nat BSIZE) 66)].

Definition cache0 : bst D := Bst (bs_bufs Race.fresh) (bs_buckets Race.fresh) disk0 7 (Lkst 0 false true []).
Definition file0 : dirent :=
  set_d_valid 1 (set_d_file_size 600 (set_d_first_clus 3 (set_d_cur_clus 3 (set_d_attribute ATTR_ARCHIVE zero_dirent)))).
Definition empty0 : dirent := set_d_valid 1 (set_d_attribute ATTR_ARCHIVE zero_dirent).
Definition mem0 : mem := fun x => x mod 256.
Definition dir0 : dirent :=
  set_d_valid 1 (set_d_first_clus 2 (set_d_cur_clus 2 (set_d_attribute ATTR_DIRECTORY zero_dirent))).
Definition name0 : list Z := [104; 101; 108; 108; 111; 95; 119; 111; 114; 108; 100; 46; 116; 101; 120; 116].
Definition named0 : dirent := set_d_filename (name0 ++ replicate 240 0) file0.
Definition fs0 : fatst mem D := Fatst mem0 cache0 vol [file0; empty0; dir0; named0; zero_dirent] [].

Lemma cache0_start : cache_inv [] cache0 /\ forall b, 0 <= b < NBUF -> unused cache0 b = true.
Proof.
  exact (unused_rebase Race.fresh disk0 7 (Lkst 0 false true [])
    Race.fresh_bufs Race.fresh_buckets Race.fresh_lists Race.fresh_hands Race.fresh_unused).
Qed.

Lemma cache0_idle : idle cache0.
Proof.
  assert (Hq : quiet (bs_lk cache0)).
  { split; [split_and!; simpl; [lia|lia|constructor]|]. intros i. apply not_elem_of_nil. }
  destruct cache0_start as [Hc Hu]. revert Hc Hu Hq. generalize cache0. intros s Hc Hu Hq.
  split; [exact Hc|exact Hq| |exact (unused_dev s 0 Hu)].
  intros b Hb. specialize (Hu b Hb). unfold unused in Hu. breflect. done.
Qed.

Lemma vol_vol_ok : vol_ok vol.
Proof. split; simpl; unfold BSIZE, FAT32_EOC; lia. Qed.

Lemma disk0_ok : sectors_ok (sector disk0).
Proof.
  apply sectors_ok_list.
  assert (H : bool_decide (Forall (fun x => length (snd x) = Z.to_nat BSIZE /\ Forall (fun y => 0 <= y < 256) (snd x)) disk0) = true)
    by (vm_compute; reflexivity).
  by apply bool_decide_eq_true_1 in H.
Qed.

Lemma fs0_ok : fs_ok fs0.
Proof. split; [exact cache0_idle|exact vol_vol_ok|exact disk0_ok]. Qed.

Lemma chain0 : at_file fs0 0 [3; 5].
Proof.
  assert (E3 : fate fs0 3 = 5) by (vm_compute; reflexivity). assert (E5 : fate fs0 5 = 0x0fffffff) by (vm_compute; reflexivity).
  split; [simpl; lia| |done|done]. split.
  - intros x Hx. rewrite !elem_of_cons, elem_of_nil in Hx. unfold clus_ok. simpl. lia.
  - assert (H : bool_decide (NoDup [3; 5]) = true) by reflexivity. by apply bool_decide_eq_true_1 in H.
  - split; [reflexivity|]. rewrite E3. split; [reflexivity|]. rewrite E5. unfold chain_from, FAT32_EOC. lia.
Qed.

Lemma reserved0 : reserved fs0.
Proof. split; vm_compute; discriminate. Qed.

Lemma free0 : free_count fs0 = 6%nat.
Proof. vm_compute. reflexivity. Qed.

Lemma has_free0 : has_free fs0.
Proof. apply free_count_pos; [exact vol_vol_ok|exact reserved0|]. rewrite free0. lia. Qed.

Lemma content0_length : Z.of_nat (length (content fs0 [3; 5])) = 1024.
Proof. vm_compute. reflexivity. Qed.

Lemma mem_ok0 user a n : 0 <= a -> a + n < 2 ^ 64 -> ec_buf (fs_cp fs0) user a n.
Proof. intros H1 H2. split; [done|]. split; [done|]. intros x. apply Z.mod_pos_bound. lia. Qed.

Lemma file0_of : file_of fs0 0 [3; 5].
Proof. right. split; [exact chain0|]. rewrite content0_length. change (0 <= 600 <= 1024). lia. Qed.

Lemma empty0_of : file_of fs0 1 [].
Proof. left. split_and!; [reflexivity|reflexivity|reflexivity|]. simpl. lia. Qed.

Lemma alloc_clus_first_free_witness : exists c s', alloc_clus 0 fs0 = Ok c s' /\ allocated c fs0 s'.
Proof. exact (alloc_clus_first_free fs0 fs0_ok has_free0). Defined.

Lemma etrunc_frees_chain_witness : exists s', etrunc 0 fs0 = Ok tt s' /\ fate s' 3 = 0 /\ fate s' 5 = 0 /\ fate s' 4 = 0x0fffffff.
Proof.
  destruct (etrunc_frees_chain 0 [3; 5] fs0 fs0_ok (af_e _ _ _ chain0) (or_introl (af_cl _ _ _ chain0))) as (s' & H1 & _ & H2 & _).
  exists s'. split; [exact H1|]. rewrite !H2 by (change (data_clus_cnt (fs_fat fs0)) with 10; lia).
  split; [reflexivity|]. split; [reflexivity|]. vm_compute. reflexivity.
Defined.

Lemma reloc_clus_seeks_witness : exists s', reloc_clus 0 600 false fs0 = Ok 88 s' /\ moved 0 [3; 5] 1 fs0 s'.
Proof.
  assert (H : 0 <= 600 < 2 ^ 32) by lia.
  destruct (reloc_clus_seeks 0 [3; 5] 600 fs0 fs0_ok chain0 H) as (r & s' & H1 & H2 & H3). exists s'.
  rewrite H2 in H1. split; [exact H1|exact H3].
Defined.

Lemma reloc_clus_extends_witness : exists s' l', reloc_clus 0 1500 true fs0 = Ok 476 s' /\ grown 0 [3; 5] l' fs0 s' /\ length l' = 3%nat.
Proof.
  assert (H : 0 <= 1500 < 2 ^ 32) by lia.
  assert (H2 : 1500 / byts_per_clus (fs_fat fs0) + 1 <= Z.of_nat (length [3; 5] + free_count fs0)).
  { rewrite free0. change (3 <= 8). lia. }
  destruct (reloc_clus_extends 0 [3; 5] 1500 fs0 fs0_ok chain0 eq_refl reserved0 H H2) as (s' & l' & K1 & K2 & _ & K4).
  exists s', l'. split; [exact K1|]. split; [exact K2|exact K4].
Defined.

Lemma eread_delivers_witness : exists s', eread 0 true 4096 500 200 fs0 = Ok 100 s' /\
  delivered mem0 true 4096 200 (sub_bytes 500 100 (content fs0 [3; 5])) (fs_cp s').
Proof.
  assert (H1 : 0 <= 500 < 2 ^ 32) by lia. assert (H2 : 0 <= 200 < 2 ^ 31) by lia. assert (H3 : 0 <= 4096 < 2 ^ 64) by lia.
  assert (H4 : d_file_size (ent fs0 0) <= Z.of_nat (length (content fs0 [3; 5]))) by (rewrite content0_length; change (600 <= 1024); lia).
  destruct (eread_delivers 0 [3; 5] true 4096 500 200 fs0 fs0_ok chain0 H1 H2 H3 H4 (mem_ok0 true 4096 200 ltac:(lia) ltac:(lia)))
    as (r & s' & K1 & K2 & _ & K3). exists s'. rewrite K2 in K1, K3. split; [exact K1|exact K3].
Defined.

Lemma ewrite_stores_witness : exists s' l', ewrite 1 true 4096 0 700 fs0 = Ok 700 s' /\ at_file s' 1 l' /\
  length l' = 2%nat /\ d_file_size (ent s' 1) = 700.
Proof.
  assert (H1 : 0 <= 0 <= d_file_size (ent fs0 1)) by (change (0 <= 0 <= 0); lia). assert (H2 : 0 <= 700 < 2 ^ 31) by lia.
  assert (H3 : 0 + 700 < 2 ^ 32) by lia. assert (H4 : 0 <= 4096 < 2 ^ 64) by lia.
  assert (H5 : Z.max 1 (clus_need (byts_per_clus (fs_fat fs0)) (0 + 700)) <= Z.of_nat (length (@nil Z) + free_count fs0)).
  { rewrite free0. change (2 <= 6). lia. }
  destruct (ewrite_stores 1 [] true 4096 0 700 fs0 fs0_ok empty0_of reserved0 eq_refl eq_refl H1 H2 H3 H4
    (mem_ok0 true 4096 700 ltac:(lia) ltac:(lia)) H5) as (s' & l' & K1 & _ & K2 & _ & K3 & _ & K4 & _).
  exists s', l'. split; [exact K1|]. split; [exact K2|]. change (Z.of_nat (length l') = 2) in K3. split; [lia|exact K4].
Defined.

Lemma ewrite_eread_roundtrip_witness : exists s1, ewrite 0 true 4096 600 700 fs0 = Ok 700 s1 /\
  (ec_buf (fs_cp s1) true 9000 700 -> exists s2, eread 0 true 9000 600 700 s1 = Ok 700 s2 /\ fs_cp s2 9005 = 5).
Proof.
  assert (H1 : 0 <= 600 <= d_file_size (ent fs0 0)) by (change (0 <= 600 <= 600); lia). assert (H2 : 0 <= 700 < 2 ^ 31) by lia.
  assert (H3 : 600 + 700 < 2 ^ 32) by lia. assert (H4 : 0 <= 4096 < 2 ^ 64) by lia. assert (H4' : 0 <= 9000 < 2 ^ 64) by lia.
  assert (H5 : Z.max 1 (clus_need (byts_per_clus (fs_fat fs0)) (600 + 700)) <= Z.of_nat (length [3; 5] + free_count fs0)).
  { rewrite free0. change (3 <= 8). lia. }
  destruct (ewrite_eread_roundtrip 0 [3; 5] true 4096 true 9000 600 700 fs0 fs0_ok file0_of reserved0 eq_refl eq_refl eq_refl H1 H2 H3 H4 H4'
    (mem_ok0 true 4096 700 ltac:(lia) ltac:(lia)) H5) as (s1 & K1 & K2). exists s1. split; [exact K1|]. intros Hb.
  destruct (K2 Hb) as (s2 & L1 & L2). exists s2. split; [exact L1|]. assert (H5' : 0 <= 5 < 700) by lia. exact (L2 5 H5').
Defined.

Lemma dir_chain0 : at_file fs0 2 [2].
Proof.
  assert (E2 : fate fs0 2 = 0x0fffffff) by (vm_compute; reflexivity). split; [simpl; lia| |done|done]. split.
  - intros x ->%list_elem_of_singleton. unfold clus_ok. simpl. lia.
  - apply NoDup_singleton.
  - split; [reflexivity|]. rewrite E2. unfold chain_from, FAT32_EOC. lia.
Qed.

Lemma nameable0 : nameable named0.
Proof.
  assert (Hc : cstr (d_filename named0) = name0) by (vm_compute; reflexivity).
  assert (Hn : bool_decide (Forall (fun x => 0 < x < 256) name0) = true) by (vm_compute; reflexivity).
  assert (Hb : bool_decide (Forall (fun x => 0 <= x < 256) (d_filename named0)) = true) by (vm_compute; reflexivity).
  apply bool_decide_eq_true_1 in Hn, Hb. split; [exact Hb|by rewrite Hc|]. rewrite Hc. simpl. lia.
Qed.

Lemma dir_room0 : dir_room fs0 2 [2] 64 (Z.of_nat (length (concat (dir_entries named0)))).
Proof.
  assert (He : Z.of_nat (length (concat (dir_entries named0))) = 96) by (vm_compute; reflexivity). rewrite He.
  assert (Hl : Z.of_nat (length (content fs0 [2])) = 512) by (vm_compute; reflexivity).
  split; [exact fs0_ok|exact dir_chain0|reflexivity|vm_compute; discriminate|reflexivity|exact reserved0| |lia|].
  - rewrite Hl. split; [lia|reflexivity].
  - rewrite free0. change (1 <= 7). lia.
Qed.

Lemma emake_enext_roundtrip_witness : exists s1, emake 2 3 64 fs0 = Ok tt s1 /\ exists s2,
  enext 2 4 64 s1 = Ok (1, Some 3) s2 /\ cstr (d_filename (ent s2 4)) = name0 /\ d_first_clus (ent s2 4) = 3 /\ d_file_size (ent s2 4) = 600.
Proof.
  assert (Hsh : byte_at (short_of named0) 0 <> EMPTY_ENTRY) by (vm_compute; discriminate).
  assert (Hat : u8 (d_attribute named0) <> ATTR_LONG_NAME) by (vm_compute; discriminate).
  assert (Hc : 0 <= d_first_clus named0 < 2 ^ 32) by (change (0 <= 3 < 2 ^ 32); lia).
  assert (Hs : 0 <= d_file_size named0 < 2 ^ 32) by (change (0 <= 600 < 2 ^ 32); lia).
  assert (Hl : (Z.to_nat 4 < length (fs_ents fs0))%nat) by (simpl; lia).
  destruct (emake_enext_roundtrip fs0 2 3 4 [2] 64 ltac:(lia) ltac:(lia) ltac:(lia) Hl eq_refl nameable0 Hsh Hat Hc Hs dir_room0)
    as (s1 & H1 & s2 & H2 & H3 & _ & H4 & H5).
  exists s1. split; [exact H1|]. exists s2. split; [exact H2|]. split; [exact H3|]. split; [exact H4|exact H5].
Defined.

(** ** Names that do not come back

    What a scan finds of a name that [emake] entered: its result, or how it
    fails. *)
Definition fs_named (name : list Z) : fatst mem D := upd_ent 3 (set_d_filename (name ++ replicate (256 - length name) 0)) fs0.
Definition found (name : list Z) : (Z * option Z) + string :=
  match emake 2 3 64 (fs_named name) with
  | Ok _ s => match enext 2 4 64 s with Ok r _ => inl r | Panic m _ => inr m | Spin => inr "spin"%string end
  | _ => inr "emake"%string
  end.
(** The longest name that does. *)
Example name_of_247_found : found (replicate 247 97) = inl (1, Some 20).
Proof. vm_compute. reflexivity. Qed.
(** One byte more: the 20th long-name entry does not fit [filename[256]]. *)
Example name_of_248_overruns : found (replicate 248 97) = inr "store outside filename"%string.
Proof. vm_compute. reflexivity. Qed.
(** A first byte 0xe5 makes the short-name entry look deleted. *)
Example name_from_e5_lost : found [0xe5; 0x9b; 0xbe] = inl (-1, Some 2).
Proof. vm_compute. reflexivity. Qed.
End FatDemo.
