(* ===== verification/File.v ===== *)
(** * Open files and devices (src/kernel/fs/file.c, src/kernel/devsw/device.c)

    The table of open files and the dispatch of their operations to pipes,
    devices and directory entries.  A [struct file *] is the index of its slot
    in [ftable.file].  Directory entries are those of Fat32.v; pipes are the
    interface [PipeOps], implemented by Pipe.v ([pipe_ops]); the operations of
    a device are the interface [DeviceOps], indexed by the address of its
    [struct file_operations].

    A read or a write may put its process to sleep; it then ends with
    [Asleep] like the operations of a pipe.  Spinlocks of the file system are
    those of the block cache's state, the pipes' are in their own. *)

From S2P Require Import Prelude Riscv Memory Spinlock Kalloc Vm Proctab Signal Sched Pipe Bio Fat32.
Import Hart.

Inductive ftype := FD_NONE | FD_PIPE | FD_ENTRY | FD_DEVICE.
#[export] Instance ftype_eq_dec : EqDecision ftype.
Proof. solve_decision. Defined.

Record file := File {
  f_type : ftype;
  f_ref : Z;
  f_readable : bool;
  f_writable : bool;
  f_pipe : Z;
  f_ep : Z;
  f_off : Z;
  f_major : Z;
  f_minor : Z;
  f_ops : option Z;
  f_private_data : Z;
}.
Definition zero_file : file := File FD_NONE 0 false false 0 0 0 0 0 None 0.
#[export] Instance file_inhabited : Inhabited file := populate zero_file.

Definition set_f_type (v : ftype) (f : file) : file :=
  File v (f_ref f) (f_readable f) (f_writable f) (f_pipe f) (f_ep f) (f_off f) (f_major f) (f_minor f) (f_ops f) (f_private_data f).
Definition set_f_ref (v : Z) (f : file) : file :=
  File (f_type f) v (f_readable f) (f_writable f) (f_pipe f) (f_ep f) (f_off f) (f_major f) (f_minor f) (f_ops f) (f_private_data f).
Definition set_f_off (v : Z) (f : file) : file :=
  File (f_type f) (f_ref f) (f_readable f) (f_writable f) (f_pipe f) (f_ep f) v (f_major f) (f_minor f) (f_ops f) (f_private_data f).
Definition set_f_ops (v : option Z) (p : Z) (f : file) : file :=
  File (f_type f) (f_ref f) (f_readable f) (f_writable f) (f_pipe f) (f_ep f) (f_off f) (f_major f) (f_minor f) v p.
(** One end of a new pipe. *)
Definition set_f_pipe (pi : Z) (readable : bool) (f : file) : file :=
  File FD_PIPE (f_ref f) readable (negb readable) pi (f_ep f) (f_off f) (f_major f) (f_minor f) (f_ops f) (f_private_data f).

(** [struct device]: NULL is [None]. *)
Record device := Device { dev_name : option string; dev_ops : option Z }.
#[export] Instance device_inhabited : Inhabited device := populate (Device None None).

Record filest (CS D : Type) := Filest {
  fl_fat : fatst CS D;
  fl_files : list file;      (** ftable.file[NFILE] *)
  fl_devices : list device;  (** devices[NDEV] *)
}.
Arguments Filest {CS D}. Arguments fl_fat {CS D}. Arguments fl_files {CS D}. Arguments fl_devices {CS D}.

#[export] Instance filest_fat CS D : Lens (filest CS D) (fatst CS D) :=
  {| lget := fl_fat; lput x s := Filest x (fl_files s) (fl_devices s) |}.
#[export] Instance filest_lk CS D : Lens (filest CS D) lkst :=
  {| lget s := lget (fl_fat s); lput l s := Filest (lput l (fl_fat s)) (fl_files s) (fl_devices s) |}.

(** Pipes, in the caller's state: the index of the running process comes
    first. *)
Class PipeOps (CS : Type) := {
  po_read : Z -> Z -> Z -> Z -> M CS run;
  po_write : Z -> Z -> Z -> Z -> M CS run;
  po_close : Z -> bool -> M CS unit;
  po_alloc : M CS Z;  (** [kalloc_page] and the initialisation of [struct pipe]; 0 is failure *)
}.

(** A NULL member of [struct file_operations] is [None]. *)
Class DeviceOps (CS D : Type) := {
  dv_open : Z -> option (Z -> M (filest CS D) Z);
  dv_close : Z -> option (file -> M (filest CS D) Z);
  dv_read : Z -> option (Z -> Z -> Z -> M (filest CS D) run);
  dv_write : Z -> option (Z -> Z -> Z -> M (filest CS D) run);
  dv_ioctl : Z -> option (Z -> Z -> Z -> M (filest CS D) run);
}.

(** The pipes of Pipe.v. *)
#[export] Instance pipe_ops {CS} `{Lens CS pipest} {L : Linker} {UC : UserCopy} : PipeOps CS := {|
  po_read me pi addr n := zoom (piperead me pi addr n);
  po_write me pi addr n := zoom (pipewrite me pi addr n);
  po_close pi writable := zoom (pipeclose pi writable);
  po_alloc := zoom (T := pipest)
    (pi <- ps (zoom kalloc_page) ;;
     when (negb (pi =? 0)) (set_pipe pi (fun p => pipe_init (replicate (Z.to_nat PIPESIZE) 5))) ;;
     ret pi)
|}.

Section code.
Context {CS D : Type} `{!EitherCopy CS} `{!Disk D} `{!PipeOps CS} `{!DeviceOps CS D}.
Abbreviation FM := (M (filest CS D)).

Definition fat_ {A} (m : M (fatst CS D) A) : FM A := zoom m.
Definition cs_ {A} (m : M CS A) : FM A := fat_ (zoom m).

Definition file_at (s : filest CS D) (f : Z) : file := fl_files s !!! Z.to_nat f.
Definition getf (f : Z) : FM file := gets (fun s => file_at s f).
Definition setf (f : Z) (g : file -> file) : FM unit :=
  modify (fun s => Filest (fl_fat s) (<[Z.to_nat f := g (file_at s f)]> (fl_files s)) (fl_devices s)).
Definition ft_lock : FM unit := zoom (acquire L_ftable).
Definition ft_unlock : FM unit := zoom (release L_ftable).

(** ** Devices *)

Definition device_register (major : Z) (name : option string) (ops : option Z) : FM Z :=
  if (major <=? 0) || (NDEV <=? major) || bool_decide (name = None) || bool_decide (ops = None) then ret (-1)
  else
    d <- gets (fun s => fl_devices s !!! Z.to_nat major) ;;
    if negb (bool_decide (dev_ops d = None)) then ret (-1)
    else
      modify (fun s => Filest (fl_fat s) (fl_files s) (<[Z.to_nat major := Device name ops]> (fl_devices s))) ;;
      ret 0.

Definition device_get (major : Z) : FM (option device) :=
  if (major <=? 0) || (NDEV <=? major) then ret None
  else
    d <- gets (fun s => fl_devices s !!! Z.to_nat major) ;;
    ret (if bool_decide (dev_ops d = None) then None else Some d).

(** ** The table of open files *)

Definition fileinit : FM unit := zoom (initlock L_ftable).

(** [for (f = ftable.file; f < ftable.file + NFILE; f++)] *)
Fixpoint filealloc_scan (n : nat) (f : Z) : FM (option Z) :=
  match n with
  | O => ret None
  | S n' =>
      x <- getf f ;;
      if f_ref x =? 0 then setf f (set_f_ref 1) ;; ret (Some f)
      else filealloc_scan n' (f + 1)
  end.

Definition filealloc : FM (option Z) :=
  ft_lock ;;
  r <- filealloc_scan (Z.to_nat NFILE) 0 ;;
  ft_unlock ;;
  ret r.

Definition filedup (f : Z) : FM Z :=
  ft_lock ;;
  x <- getf f ;;
  if f_ref x <? 1 then panic "filedup"
  else
    setf f (set_f_ref (s32 (f_ref x + 1))) ;;
    ft_unlock ;;
    ret f.

Definition fileopen (f : Z) : FM Z :=
  x <- getf f ;;
  if negb (bool_decide (f_type x = FD_DEVICE)) then ret (-1)
  else
    d <- device_get (f_major x) ;;
    match d with
    | None => ret (-1)
    | Some d =>
        setf f (fun x => set_f_ops (dev_ops d) (f_private_data x) x) ;;
        match dev_ops d with
        | None => ret (-1)
        | Some ops =>
            setf f (fun x => set_f_ops (f_ops x) 0 x) ;;
            match dv_open ops with
            | Some op => op f
            | None => ret 0
            end
        end
    end.

(** What happens to the object of a file whose last reference is gone. *)
Definition file_release (ff : file) : FM Z :=
  match f_type ff with
  | FD_PIPE => cs_ (po_close (f_pipe ff) (f_writable ff)) ;; ret 0
  | FD_ENTRY => fat_ (eput (f_ep ff)) ;; ret 0
  | FD_DEVICE =>
      match f_ops ff with
      | None => ret (-1)
      | Some ops => match dv_close ops with Some op => op ff | None => ret 0 end
      end
  | FD_NONE => ret 0
  end.

Definition fileclose (f : Z) : FM Z :=
  ft_lock ;;
  x <- getf f ;;
  if f_ref x <? 1 then panic "fileclose"
  else
    let ref := f_ref x - 1 in
    setf f (set_f_ref ref) ;;
    if 0 <? ref then ft_unlock ;; ret 0
    else
      ff <- getf f ;;
      setf f (fun x => set_f_type FD_NONE (set_f_ref 0 x)) ;;
      ft_unlock ;;
      file_release ff.

(** [goto bad] of [pipealloc]: [kfree_page] is not reached with a page. *)
Definition pipealloc_bad (f0 f1 : option Z) : FM (option (Z * Z)) :=
  match f0 with Some f => fileclose f ;; ret tt | None => ret tt end ;;
  match f1 with Some f => fileclose f ;; ret tt | None => ret tt end ;;
  ret None.

Definition pipealloc : FM (option (Z * Z)) :=
  f0 <- filealloc ;;
  match f0 with
  | None => pipealloc_bad None None
  | Some a =>
      f1 <- filealloc ;;
      match f1 with
      | None => pipealloc_bad f0 None
      | Some b =>
          pi <- cs_ po_alloc ;;
          if pi =? 0 then pipealloc_bad f0 f1
          else
            setf a (set_f_pipe pi true) ;;
            setf b (set_f_pipe pi false) ;;
            ret (Some (a, b))
      end
  end.

(** ** Operations on an open file *)

(** [struct stat] in memory: 33 bytes of name, [dev] at 36, [type] at 40,
    [size] at 48; the bytes the code does not set are those of [junk], what
    was on the stack. *)
Definition T_DIR : Z := 1.
Definition T_FILE : Z := 2.
Definition STAT_MAX_NAME : Z := 32.
Definition le_bytes (n : nat) (v : Z) : list Z := (fun i => u8 (Z.shiftr v (8 * Z.of_nat i))) <$> seq 0 n.
Definition stat_bytes (junk : list Z) (x : dirent) : list Z :=
  let '(name, isdir, dev, size) := estat x in
  store_at 48 (le_bytes 8 size) (store_at 40 (le_bytes 2 (if isdir then T_DIR else T_FILE))
    (store_at 36 (le_bytes 4 dev) (store_at 0 (strncpy_l STAT_MAX_NAME name) junk))).

Definition filestat (junk : list Z) (f addr : Z) : FM Z :=
  x <- getf f ;;
  match f_type x with
  | FD_ENTRY =>
      fat_ (elock (f_ep x)) ;;
      e <- fat_ (gete (f_ep x)) ;;
      fat_ (eunlock (f_ep x)) ;;
      ok <- cs_ (ec_out true addr (stat_bytes junk e)) ;;
      ret (if (ok : bool) then 0 else -1)
  | _ => ret (-1)
  end.

Definition fileread (me f addr n : Z) : FM run :=
  x <- getf f ;;
  if negb (f_readable x) then ret (Returned (-1))
  else
    match f_type x with
    | FD_PIPE => cs_ (po_read me (f_pipe x) addr n)
    | FD_DEVICE =>
        match f_ops x with
        | None => ret (Returned (-1))
        | Some ops => match dv_read ops with Some op => op f addr n | None => ret (Returned 0) end
        end
    | FD_ENTRY =>
        fat_ (elock (f_ep x)) ;;
        r <- fat_ (eread (f_ep x) true addr (f_off x) (u32 n)) ;;
        when (0 <? r) (setf f (fun x => set_f_off (u32 (f_off x + r)) x)) ;;
        fat_ (eunlock (f_ep x)) ;;
        ret (Returned r)
    | FD_NONE => panic "fileread"
    end.

Definition fileread_at (f : option Z) (addr offset n : Z) : FM Z :=
  match f with
  | None => ret (-1)
  | Some f =>
      x <- getf f ;;
      if negb (bool_decide (f_type x = FD_ENTRY)) || (n <? 0) || (0xffffffff <? offset) then ret (-1)
      else
        fat_ (elock (f_ep x)) ;;
        r <- fat_ (eread (f_ep x) false addr (u32 offset) n) ;;
        fat_ (eunlock (f_ep x)) ;;
        ret r
  end.

(** [while (i < n)]: a round writes all that is left, leaves the loop or
    panics. *)
Definition filewrite_body (f addr n : Z) (i : Z) : FM (Z + Z) :=
  if i <? n then
    x <- getf f ;;
    let n1 := n - i in
    fat_ (elock (f_ep x)) ;;
    r <- fat_ (ewrite (f_ep x) true (u64 (addr + i)) (f_off x) (u32 n1)) ;;
    when (0 <? r) (setf f (fun x => set_f_off (u32 (f_off x + r)) x)) ;;
    fat_ (eunlock (f_ep x)) ;;
    if r <? 0 then ret (inr i)
    else if negb (r =? n1) then panic "short filewrite"
    else ret (inl (i + r))
  else ret (inr i).

Definition filewrite (me f addr n : Z) : FM run :=
  x <- getf f ;;
  if negb (f_writable x) then ret (Returned (-1))
  else
    match f_type x with
    | FD_PIPE => cs_ (po_write me (f_pipe x) addr n)
    | FD_DEVICE =>
        match f_ops x with
        | None => ret (Returned (-1))
        | Some ops => match dv_write ops with Some op => op f addr n | None => ret (Returned 0) end
        end
    | FD_ENTRY =>
        i <- loop 2 (filewrite_body f addr n) 0 ;;
        ret (Returned (if i =? n then n else -1))
    | FD_NONE => panic "filewrite"
    end.

Definition filewrite_at (f : option Z) (addr offset n : Z) : FM Z :=
  match f with
  | None => ret (-1)
  | Some f =>
      x <- getf f ;;
      if negb (bool_decide (f_type x = FD_ENTRY)) || negb (f_writable x) || (n <? 0) || (0xffffffff <? offset) then ret (-1)
      else
        fat_ (elock (f_ep x)) ;;
        e <- fat_ (gete (f_ep x)) ;;
        if d_file_size e <=? offset then fat_ (eunlock (f_ep x)) ;; ret 0
        else
          let n := if d_file_size e <? offset + n then s32 (d_file_size e - offset) else n in
          r <- fat_ (ewrite (f_ep x) false addr (u32 offset) (u32 n)) ;;
          fat_ (eunlock (f_ep x)) ;;
          ret (if r =? n then r else -1)
  end.

Definition fileioctl (f cmd arg : Z) : FM run :=
  x <- getf f ;;
  if negb (bool_decide (f_type x = FD_DEVICE)) then ret (Returned (-1))
  else
    match f_ops x with
    | None => ret (Returned (-1))
    | Some ops => match dv_ioctl ops with Some op => op f cmd arg | None => ret (Returned 0) end
    end.

(** ** Directory listing *)

(** A local variable of type [struct dirent], numbered behind the entries of
    the cache, with the contents [junk] of the stack. *)
Definition with_dirent {A} (junk : dirent) (m : Z -> M (fatst CS D) A) : M (fatst CS D) (A * dirent) :=
  i <- gets (fun s => Z.of_nat (length (fs_ents s))) ;;
  modify (fun s => Fatst (fs_cp s) (fs_b s) (fs_fat s) (fs_ents s ++ [junk]) (fs_lru s)) ;;
  r <- m i ;;
  x <- gete i ;;
  modify (fun s => Fatst (fs_cp s) (fs_b s) (fs_fat s) (take (Z.to_nat i) (fs_ents s)) (fs_lru s)) ;;
  ret (r, x).

(** The loop over empty entries: the variables are [f->off] and [count]. *)
Definition dirnext_body (ep de : Z) (x : Z * Z) : M (fatst CS D) (Z * Z + Z * Z * Z) :=
  let '(off, count) := x in
  r <- enext ep de off ;;
  let count := match snd r with Some c => c | None => count end in
  if fst r =? 0 then ret (inl (u32 (off + count * 32), count)) else ret (inr (fst r, off, count)).

Definition dirnext (junk_de : dirent) (junk_st : list Z) (f addr : Z) : FM Z :=
  x <- getf f ;;
  d <- fat_ (gete (f_ep x)) ;;
  if negb (f_readable x) || (Z.land (d_attribute d) ATTR_DIRECTORY =? 0) then ret (-1)
  else
    fat_ (elock (f_ep x)) ;;
    fat <- fat_ the_fat ;;
    r <- fat_ (with_dirent junk_de (fun de => loop (dir_slots fat) (dirnext_body (f_ep x) de) (f_off x, 0))) ;;
    let '((ret_, off, count), de) := r in
    setf f (set_f_off off) ;;
    fat_ (eunlock (f_ep x)) ;;
    if ret_ =? -1 then ret 0
    else
      setf f (set_f_off (u32 (off + count * 32))) ;;
      ok <- cs_ (ec_out true addr (stat_bytes junk_st de)) ;;
      ret (if (ok : bool) then 1 else -1).

End code.
