(* ===== verification/FileProps.v ===== *)
(** * Correctness of open files

    Reference counts of the file table, and the composition of the file layer
    with the file system: what one descriptor writes another one reads. *)

From S2P Require Import Prelude Riscv Memory Spinlock Kalloc Vm Proctab Signal Sched Pipe Bio BioProps Fat32 FatDisk FatChain FatClus FatFile File.
Import Hart.

Section files.
Context {CS D : Type} `{!EitherCopy CS} `{!EitherCopyLaws CS} `{!Disk D} `{!DiskLaws D} `{!PipeOps CS} `{!DeviceOps CS D}.
Implicit Types s : filest CS D.
Implicit Types t : fatst CS D.

(** ** The lock of an entry *)

Definition lock_by (pid : Z) (x : dirent) : dirent := set_d_pid pid (set_d_locked true x).
Definition unlock (x : dirent) : dirent := set_d_pid 0 (set_d_locked false x).

Lemma elock_wp e t (Q : unit -> fatst CS D -> Prop) :
  1 <= d_ref (ent t e) -> d_locked (ent t e) = false ->
  Q tt (upd_ent e (lock_by (bs_pid (fs_b t))) t) -> wp (elock e) Q t.
Proof.
  intros Hr Hl HQ. unfold elock, entry_acquire, gete, sete. wp_step. wp_step.
  destruct (Z.ltb_spec (d_ref (ent t e)) 1); [lia|]. wp_step. wp_step. rewrite Hl. wp_step. apply wp_zoom. wp_go.
  by destruct t.
Qed.

Lemma eunlock_wp e t (Q : unit -> fatst CS D -> Prop) :
  1 <= d_ref (ent t e) -> d_locked (ent t e) = true -> d_pid (ent t e) = bs_pid (fs_b t) ->
  Q tt (upd_ent e unlock t) -> wp (eunlock e) Q t.
Proof.
  intros Hr Hl Hp HQ. unfold eunlock, entry_release, gete, sete. wp_step. wp_step. wp_step. apply wp_zoom. wp_go.
  change (lget t) with (fs_b t). rewrite Hl, Hp, Z.eqb_refl. destruct (Z.ltb_spec (d_ref (ent t e)) 1); [lia|]. simpl. wp_go.
  by destruct t.
Qed.

(** A change of the lock fields only. *)
Definition lock_only (g : dirent -> dirent) : Prop :=
  forall x, d_first_clus (g x) = d_first_clus x /\ d_cur_clus (g x) = d_cur_clus x /\ d_clus_cnt (g x) = d_clus_cnt x /\
    d_file_size (g x) = d_file_size x /\ d_attribute (g x) = d_attribute x /\ d_dev (g x) = d_dev x /\ d_ref (g x) = d_ref x.

Lemma lock_by_only pid : lock_only (lock_by pid).
Proof. done. Qed.
Lemma unlock_only : lock_only unlock.
Proof. done. Qed.

Lemma at_file_lock g t e l : lock_only g -> at_file t e l -> at_file (upd_ent e g t) e l.
Proof.
  intros Hg Ha. destruct (Hg (ent t e)) as (G1 & G2 & G3 & _). apply af_upd; [intros x; apply Hg| | |done].
  - rewrite G3. apply Ha.
  - rewrite G2, G3. apply Ha.
Qed.

Lemma file_of_lock g t e l : lock_only g -> file_of t e l -> file_of (upd_ent e g t) e l.
Proof.
  intros Hg Hf. destruct (file_of_ok _ _ _ Hf) as [He _]. destruct (Hg (ent t e)) as (G1 & _ & _ & G4 & _).
  destruct Hf as [(-> & H1 & H2 & _)|[Ha Hsz]].
  - left. rewrite !ent_upd, G1, G4 by done. split_and!; try done. simpl. by rewrite length_insert.
  - right. split; [by apply at_file_lock|]. rewrite ent_upd, G4 by done. exact Hsz.
Qed.

(** ** Slots of the file table *)

Lemma file_at_set t fs dv f g (h : file) :
  (Z.to_nat f < length fs)%nat -> 0 <= f -> 0 <= g ->
  file_at (Filest t (<[Z.to_nat f := h]> fs) dv) g = if f =? g then h else file_at (Filest t fs dv) g.
Proof.
  intros Hf H0 Hg. unfold file_at. simpl. destruct (Z.eqb_spec f g) as [->|Hne].
  - by apply list_lookup_total_insert_eq.
  - apply list_lookup_total_insert_ne. lia.
Qed.

Lemma wp_fat {A} (m : M (fatst CS D) A) (Q : A -> filest CS D -> Prop) s :
  wp m (fun a t => Q a (Filest t (fl_files s) (fl_devices s))) (fl_fat s) -> wp (fat_ m) Q s.
Proof. exact (wp_zoom m Q s). Qed.

(** ** Writing *)

(** What a write needs of the entry [e] with chain [l]. *)
Record writable_entry t (e : Z) (l : list Z) (off n : Z) : Prop := {
  we_ok : fs_ok t;
  we_file : file_of t e l;
  we_res : reserved t;
  we_dev : d_dev (ent t e) = 0;
  we_ro : Z.land (d_attribute (ent t e)) ATTR_READ_ONLY = 0;
  we_off : 0 <= off <= d_file_size (ent t e);
  we_n : 0 <= n < 2 ^ 31 /\ off + n < 2 ^ 32;
  we_free : Z.max 1 (clus_need (byts_per_clus (fs_fat t)) (off + n)) <= Z.of_nat (length l + free_count t);
  we_ref : 1 <= d_ref (ent t e);
  we_unlocked : d_locked (ent t e) = false;
}.

(** The entry and the process after the locked write. *)
Lemma written_entry t e l off bs n l' t2 t' old new :
  (Z.to_nat e < length (fs_ents t))%nat ->
  writer e l off bs t n l' t2 -> sized old new e t2 t' ->
  bs_pid (fs_b t') = bs_pid (fs_b t) /\ d_ref (ent t' e) = d_ref (ent t e) /\
  d_locked (ent t' e) = d_locked (ent t e) /\ d_pid (ent t' e) = d_pid (ent t e) /\ length (fs_ents t') = length (fs_ents t).
Proof.
  intros He Hw Hs. pose proof (wr_only _ _ _ _ _ _ _ _ Hw) as Ho.
  assert (He2 : ent t2 e = rewritten (ent t2 e) (ent t e)).
  { rewrite (only_disk_ent _ _ e Ho) at 1. change (ent (upd_ent e (rewritten (ent t2 e)) t) e = rewritten (ent t2 e) (ent t e)). by rewrite ent_upd. }
  assert (Hl2 : length (fs_ents t2) = length (fs_ents t)) by (rewrite (only_disk_ents _ _ Ho); simpl; apply length_insert).
  assert (H2 : bs_pid (fs_b t2) = bs_pid (fs_b t)) by exact (proj2 Ho).
  unfold sized in Hs. destruct (old <? new); subst t'.
  - rewrite !ent_upd by (by rewrite Hl2). simpl. rewrite length_insert, He2. done.
  - rewrite He2. done.
Qed.

Lemma filewrite_wp me f e l src off n s :
  0 <= f -> (Z.to_nat f < length (fl_files s))%nat ->
  f_type (file_at s f) = FD_ENTRY -> f_writable (file_at s f) = true -> f_ep (file_at s f) = e -> f_off (file_at s f) = off ->
  writable_entry (fl_fat s) e l off n -> 0 < n -> 0 <= src < 2 ^ 64 -> ec_buf (fs_cp (fl_fat s)) true src n ->
  let t := upd_ent e (lock_by (bs_pid (fs_b (fl_fat s)))) (fl_fat s) in
  wp (filewrite me f src n) (fun r s' => r = Returned n /\ exists l' t2 t',
    writer e l off (user_bytes (fs_cp t) true src n) t n l' t2 /\ sized (d_file_size (ent t e)) (off + n) e t2 t' /\
    s' = Filest (upd_ent e unlock t') (<[Z.to_nat f := set_f_off (off + n) (file_at s f)]> (fl_files s)) (fl_devices s)) s.
Proof.
  intros H0 Hf Hty Hwr Hep Hoff [W1 W2 W3 W4 W5 W6 [W7 W8] W9 W10 W11] Hn Hsrc Hbuf t.
  destruct (file_of_ok _ _ _ W2) as [He _].
  unfold filewrite, getf. wp_step. wp_step. rewrite Hwr, Hty. simpl negb. cbv iota. wp_step.
  apply wp_loop_S. unfold filewrite_body at 1. destruct (Z.ltb_spec 0 n); [|lia]. unfold getf. wp_step. wp_step.
  rewrite Hep, Hoff. wp_step. apply wp_fat. apply elock_wp; [done|done|]. fold t. wp_step. apply wp_fat. cbn [fl_fat fl_files fl_devices].
  rewrite Z.add_0_r, Z.sub_0_r, (u64_small src), (u32_small n) by lia.
  pose proof (file_of_lock _ _ _ _ (lock_by_only (bs_pid (fs_b (fl_fat s)))) W2) as Hft. fold t in Hft.
  assert (Het : ent t e = lock_by (bs_pid (fs_b (fl_fat s))) (ent (fl_fat s) e)) by (unfold t; by rewrite ent_upd).
  eapply wp_mono; [apply (ewrite_wp e l true src off n t); try (rewrite ?Het; assumption)|].
  { by apply fs_ok_upd. }
  intros r t' (-> & l' & t2 & Hw & _ & Hs).
  destruct (written_entry t e l off _ n l' t2 t' _ _ ltac:(unfold t; simpl; by rewrite length_insert) Hw Hs) as (P1 & P2 & P3 & P4 & P5).
  rewrite Het in P2, P3, P4. destruct (Z.ltb_spec 0 n); [|lia]. simpl when. unfold setf. wp_step. wp_step. wp_step.
  apply wp_fat. cbn [fl_fat fl_files fl_devices]. apply eunlock_wp; [by rewrite P2|by rewrite P3|by rewrite P4, P1|].
  destruct (Z.ltb_spec n 0); [lia|]. rewrite Z.eqb_refl. simpl negb. cbv iota. wp_step.
  apply wp_loop_S. unfold filewrite_body at 1. destruct (Z.ltb_spec (0 + n) n); [lia|]. wp_go.
  rewrite Z.add_0_l, Z.eqb_refl. split; [done|]. exists l', t2, t'. split; [exact Hw|]. split; [exact Hs|].
  change (file_at {| fl_fat := t'; fl_files := fl_files s; fl_devices := fl_devices s |} f) with (file_at s f).
  rewrite Hoff, u32_small by lia. done.
Qed.

(** ** Reading *)

Lemma fileread_wp me g e l dst off n s :
  0 <= g -> (Z.to_nat g < length (fl_files s))%nat ->
  f_type (file_at s g) = FD_ENTRY -> f_readable (file_at s g) = true -> f_ep (file_at s g) = e -> f_off (file_at s g) = off ->
  let t := fl_fat s in
  fs_ok t -> at_file t e l -> Z.land (d_attribute (ent t e)) ATTR_DIRECTORY = 0 ->
  0 <= off <= d_file_size (ent t e) -> d_file_size (ent t e) <= Z.of_nat (length (content t l)) ->
  0 <= n < 2 ^ 31 -> off + n < 2 ^ 32 -> 0 <= dst < 2 ^ 64 -> ec_buf (fs_cp t) true dst n ->
  1 <= d_ref (ent t e) -> d_locked (ent t e) = false ->
  let n' := Z.min n (d_file_size (ent t e) - off) in
  wp (fileread me g dst n) (fun r s' => r = Returned n' /\ f_off (file_at s' g) = off + n' /\
    d_locked (ent (fl_fat s') e) = false /\
    delivered (fs_cp t) true dst n (sub_bytes off n' (content t l)) (fs_cp (fl_fat s'))) s.
Proof.
  intros H0 Hg Hty Hrd Hep Hoff t Hok Ha Hdir Ho Hsz Hn H32 Hdst Hbuf Href Hunl n'.
  pose proof (af_e _ _ _ Ha) as He.
  unfold fileread, getf. wp_step. wp_step. rewrite Hrd, Hty, Hep, Hoff. simpl negb. cbv iota.
  wp_step. apply wp_fat. apply elock_wp; [done|done|]. wp_step. apply wp_fat. cbn [fl_fat fl_files fl_devices].
  fold t. set (t1 := upd_ent e _ t). rewrite (u32_small n) by lia.
  assert (Het : ent t1 e = lock_by (bs_pid (fs_b t)) (ent t e)) by (unfold t1; by rewrite ent_upd).
  pose proof (eread_wp e l true dst off n t1) as Hr. rewrite Het in Hr.
  eapply wp_mono; [apply Hr; try assumption|].
  { by apply fs_ok_upd. } { apply at_file_lock; [apply lock_by_only|done]. }
  intros r t2 (-> & Hrd2 & Hd). change (d_file_size (lock_by (bs_pid (fs_b t)) (ent t e))) with (d_file_size (ent t e)) in *. fold n' in Hd |- *.
  pose proof (re_only _ _ _ _ Hrd2) as Hon. pose proof (re_at _ _ _ _ Hrd2) as Ha2.
  assert (He1 : (Z.to_nat e < length (fs_ents t1))%nat) by (unfold t1; simpl; by rewrite length_insert).
  assert (Het2 : ent t2 e = seek (d_clus_cnt (ent t2 e)) (d_cur_clus (ent t2 e)) (ent t1 e)).
  { rewrite (only_disk_ent _ _ e Hon) at 1.
    change (ent (upd_ent e (seek (d_clus_cnt (ent t2 e)) (d_cur_clus (ent t2 e))) t1) e = seek (d_clus_cnt (ent t2 e)) (d_cur_clus (ent t2 e)) (ent t1 e)).
    by rewrite ent_upd. }
  assert (Hpid : bs_pid (fs_b t2) = bs_pid (fs_b t)) by exact (proj2 Hon).
  assert (Hn' : 0 <= n' <= n) by lia.
  assert (Hfin : forall off', off' = off + n' -> forall s3, fl_fat s3 = t2 -> f_off (file_at s3 g) = off' ->
    wp (fat_ (eunlock e) ;; ret (Returned n')) (fun r s' => r = Returned n' /\ f_off (file_at s' g) = off + n' /\
      d_locked (ent (fl_fat s') e) = false /\ delivered (fs_cp t) true dst n (sub_bytes off n' (content t l)) (fs_cp (fl_fat s'))) s3).
  { intros off' -> s3 E3 Eo. wp_step. apply wp_fat. rewrite E3.
    apply eunlock_wp; [rewrite Het2, Het; exact Href|rewrite Het2, Het; done|rewrite Het2, Het, Hpid; done|].
    wp_go. split; [done|]. split; [exact Eo|]. split; [|exact Hd]. cbn [fl_fat]. rewrite ent_upd by apply Ha2. done. }
  wp_step. destruct (Z.ltb_spec 0 n') as [Hp|Hp]; simpl when.
  - unfold setf. wp_step. apply (Hfin (off + n') eq_refl); [done|]. rewrite file_at_set by done. rewrite Z.eqb_refl.
    change (file_at {| fl_fat := t2; fl_files := fl_files s; fl_devices := fl_devices s |} g) with (file_at s g).
    simpl. rewrite Hoff. apply u32_small. lia.
  - wp_step. apply (Hfin (off + n') eq_refl); [done|]. change (f_off (file_at s g) = off + n'). lia.
Qed.

(** C8: What one descriptor writes another one reads.  [filewrite] of [n]
    bytes to a regular file returns [n], advances its own offset and leaves
    the entry unlocked; a [fileread] through another descriptor of the file at
    the offset where the write began then returns [n], advances its own
    offset and leaves the entry unlocked too, and the reader's buffer holds
    what the writer's held. *)
Theorem filewrite_fileread_roundtrip me f g e l src dst off n s :
  0 <= f -> 0 <= g -> f <> g -> (Z.to_nat f < length (fl_files s))%nat -> (Z.to_nat g < length (fl_files s))%nat ->
  f_type (file_at s f) = FD_ENTRY -> f_writable (file_at s f) = true -> f_ep (file_at s f) = e -> f_off (file_at s f) = off ->
  f_type (file_at s g) = FD_ENTRY -> f_readable (file_at s g) = true -> f_ep (file_at s g) = e -> f_off (file_at s g) = off ->
  writable_entry (fl_fat s) e l off n -> Z.land (d_attribute (ent (fl_fat s) e)) ATTR_DIRECTORY = 0 ->
  0 < n -> 0 <= src < 2 ^ 64 -> 0 <= dst < 2 ^ 64 -> ec_buf (fs_cp (fl_fat s)) true src n ->
  exists s1, filewrite me f src n s = Ok (Returned n) s1 /\ f_off (file_at s1 f) = off + n /\
    d_locked (ent (fl_fat s1) e) = false /\
    (ec_buf (fs_cp (fl_fat s1)) true dst n ->
     exists s2, fileread me g dst n s1 = Ok (Returned n) s2 /\ f_off (file_at s2 g) = off + n /\ d_locked (ent (fl_fat s2) e) = false /\
       forall x, 0 <= x < n -> ec_mem (fs_cp (fl_fat s2)) true (dst + x) = ec_mem (fs_cp (fl_fat s)) true (src + x)).
Proof.
  intros H0 H0' Hne Hf Hg Ft Fw Fe Fo Gt Gr Ge Go Hwe Hdir Hn Hsrc Hdst Hbuf.
  destruct (wp_Ok _ _ _ (filewrite_wp me f e l src off n s H0 Hf Ft Fw Fe Fo Hwe Hn Hsrc Hbuf)) as (r & s1 & Hrun & -> & l' & t2 & t' & Hw & Hs & ->).
  set (t := upd_ent e (lock_by (bs_pid (fs_b (fl_fat s)))) (fl_fat s)) in *.
  destruct Hwe as [W1 W2 W3 W4 W5 W6 [W7 W8] W9 W10 W11]. destruct (file_of_ok _ _ _ W2) as [He _].
  assert (Het : ent t e = lock_by (bs_pid (fs_b (fl_fat s))) (ent (fl_fat s) e)) by (unfold t; by rewrite ent_upd).
  assert (Hle : (Z.to_nat e < length (fs_ents t))%nat) by (unfold t; simpl; by rewrite length_insert).
  destruct (written_entry t e l off _ n l' t2 t' _ _ Hle Hw Hs) as (P1 & P2 & P3 & P4 & P5).
  destruct (written_file e l off n t true src l' t2 t') as (K1 & K2 & K3 & K4 & K5 & K6 & K7 & K8);
    [by apply fs_ok_upd|apply file_of_lock; [apply lock_by_only|done]|by rewrite Het|lia|done|done|].
  rewrite Het in K3, K4, K6, P2. change (d_file_size (lock_by (bs_pid (fs_b (fl_fat s))) (ent (fl_fat s) e))) with (d_file_size (ent (fl_fat s) e)) in *.
  assert (Hlt' : (Z.to_nat e < length (fs_ents t'))%nat) by (by rewrite P5).
  assert (Heu : ent (upd_ent e unlock t') e = unlock (ent t' e)) by (by rewrite ent_upd).
  eexists. split; [exact Hrun|]. split; [rewrite file_at_set, Z.eqb_refl by done; done|]. cbn [fl_fat]. split; [by rewrite Heu|].
  intros Hb1. set (s1 := Filest _ _ _).
  assert (Hgs : file_at s1 g = file_at s g).
  { unfold s1. rewrite file_at_set by done. rewrite (proj2 (Z.eqb_neq f g) Hne). by destruct s. }
  pose proof (fileread_wp me g e l' dst off n s1 H0') as Hr. rewrite Hgs in Hr. cbv zeta in Hr.
  change (fl_fat s1) with (upd_ent e unlock t') in Hr. rewrite Heu in Hr.
  change (d_file_size (unlock (ent t' e))) with (d_file_size (ent t' e)) in Hr. rewrite K3 in Hr.
  replace (Z.min n _) with n in Hr by lia.
  destruct (wp_Ok _ _ _ (Hr ltac:(unfold s1; simpl; by rewrite length_insert) Gt Gr Ge Go (fs_ok_upd _ _ _ K1) (at_file_lock _ _ _ _ unlock_only K2)
    ltac:(simpl; rewrite K4; exact Hdir) ltac:(lia) K6 W7 W8 Hdst Hb1 ltac:(simpl; rewrite P2; exact W10) eq_refl)) as (r & s2 & Hrun2 & -> & Ho2 & Hl2 & [_ Hmem]).
  exists s2. split; [exact Hrun2|]. split; [exact Ho2|]. split; [exact Hl2|]. intros x Hx. rewrite Hmem by done.
  change (content (upd_ent e unlock t') l') with (content t' l').
  assert (Hul : Z.of_nat (length (user_bytes (fs_cp t) true src n)) = n) by (apply user_bytes_length; lia).
  assert (Hlen : off + n <= Z.of_nat (length (content t' l'))) by lia.
  rewrite length_sub_bytes by lia. case_bool as E; [|lia]. unfold byte_at. apply list_lookup_total_correct.
  rewrite lookup_sub_bytes by lia. case_bool as E2; [|lia]. rewrite K8.
  rewrite lookup_store_at by lia. case_ranges. replace (Z.to_nat off + Z.to_nat x - Z.to_nat off)%nat with (Z.to_nat x) by lia.
  rewrite lookup_user_bytes, Z2Nat.id by lia. by case_bool as E3; [|lia].
Qed.

(** ** References to open files *)

(** [s'] is [s] with slot [f] changed by [g] and the locks as they were. *)
Definition slot_changed (f : Z) (g : file -> file) s s' : Prop :=
  lk_same (lget (fl_fat s)) (lget (fl_fat s')) /\
  exists l, s' = Filest (lput l (fl_fat s)) (<[Z.to_nat f := g (file_at s f)]> (fl_files s)) (fl_devices s).

Definition ft_ready s : Prop := lk_ok (lget (fl_fat s)) /\ L_ftable ∉ held (lget (fl_fat s)).

Lemma ft_lock_wp s (Q : unit -> filest CS D -> Prop) : ft_ready s ->
  (forall l, taken L_ftable (lget (fl_fat s)) l -> Q tt (Filest (lput l (fl_fat s)) (fl_files s) (fl_devices s))) -> wp ft_lock Q s.
Proof. intros [_ H] HQ. apply wp_zoom. eapply wp_mono; [apply acquire_wp; exact H|]. intros [] l Hl. exact (HQ l Hl). Qed.

Lemma ft_unlock_wp (t : fatst CS D) l fs dv (Q : unit -> filest CS D -> Prop) :
  lk_ok (lget t) -> L_ftable ∉ held (lget t) -> taken L_ftable (lget t) l ->
  (forall l', lk_same (lget t) l' -> Q tt (Filest (lput l' t) fs dv)) -> wp ft_unlock Q (Filest (lput l t) fs dv).
Proof.
  intros H1 H2 H3 HQ. apply wp_zoom. eapply wp_mono; [apply (release_wp L_ftable (lget t)); [done|done|by destruct t]|].
  intros [] l' Hl'. destruct t. exact (HQ l' Hl').
Qed.

Lemma same_put (t : fatst CS D) l : lk_same (lget t) l -> lk_same (lget t) (lget (lput l t)).
Proof. by destruct t. Qed.

Lemma filealloc_scan_wp n f s : 0 <= f ->
  wp (filealloc_scan n f) (fun r s' =>
    (r = None /\ s' = s /\ forall g, f <= g < f + Z.of_nat n -> f_ref (file_at s g) <> 0) \/
    exists g, r = Some g /\ f <= g < f + Z.of_nat n /\ f_ref (file_at s g) = 0 /\
      (forall h, f <= h < g -> f_ref (file_at s h) <> 0) /\
      s' = Filest (fl_fat s) (<[Z.to_nat g := set_f_ref 1 (file_at s g)]> (fl_files s)) (fl_devices s)) s.
Proof.
  revert f. induction n as [|n IH]; intros f Hf; simpl filealloc_scan.
  - wp_go. left. split_and!; [done|done|lia].
  - unfold getf. wp_step. wp_step. destruct (Z.eqb_spec (f_ref (file_at s f)) 0) as [E|E].
    + unfold setf. wp_go. right. exists f. split_and!; [done|lia|lia|done|lia|done].
    + eapply wp_mono; [apply IH; lia|]. intros r s' [(-> & -> & H)|(g & -> & Hg & H1 & H2 & ->)].
      * left. split_and!; [done|done|]. intros g Hg. destruct (decide (g = f)) as [->|]; [done|apply H; lia].
      * right. exists g. split_and!; [done|lia|lia|done| |done]. intros h Hh. destruct (decide (h = f)) as [->|]; [done|apply H2; lia].
Qed.

(** Running one step. *)
Lemma bind_run {S A B} (m : M S A) (k : A -> M S B) (s s' : S) a : m s = Ok a s' -> (mbind_ m k) s = k a s'.
Proof. unfold mbind_. by intros ->. Qed.
Lemma run_gets {S A B} (h : S -> A) (k : A -> M S B) (s : S) : (mbind_ (gets h) k) s = k (h s) s.
Proof. done. Qed.
Lemma run_modify {S B} (h : S -> S) (k : unit -> M S B) (s : S) : (mbind_ (modify h) k) s = k tt (h s).
Proof. done. Qed.

(** A free slot of the table of open files: [filealloc] takes the first one
    and gives it one reference, or returns none exactly when every slot is in
    use; the locks are as before. *)
Theorem filealloc_first_free s : ft_ready s ->
  exists r s', filealloc s = Ok r s' /\ lk_same (lget (fl_fat s)) (lget (fl_fat s')) /\
    match r with
    | None => fl_files s' = fl_files s /\ forall f, 0 <= f < NFILE -> f_ref (file_at s f) <> 0
    | Some f => 0 <= f < NFILE /\ f_ref (file_at s f) = 0 /\ (forall g, 0 <= g < f -> f_ref (file_at s g) <> 0) /\
        slot_changed f (set_f_ref 1) s s'
    end.
Proof.
  intros Hr. apply wp_Ok. unfold filealloc. wp_step. apply ft_lock_wp; [done|]. intros l Hl. destruct Hr as [Hr1 Hr2].
  wp_step. eapply wp_mono; [apply filealloc_scan_wp; lia|]. cbv beta. intros r s' Hs. wp_step.
  destruct Hs as [(-> & -> & H)|(g & -> & Hg & H1 & H2 & ->)]; cbn [fl_fat fl_files fl_devices] in *;
    (apply ft_unlock_wp; [done|done|done|]; intros l' Hl'; wp_go; split; [by apply same_put|]).
  - split; [done|]. intros f Hf. apply (H f). rewrite Z2Nat.id by done. lia.
  - rewrite Z2Nat.id in Hg by done. split_and!; [lia|lia|done|exact H2|]. split; [by apply same_put|by exists l'].
Qed.

(** A reference to an open file is given up.  [fileclose] panics exactly
    when the slot has no reference; it drops one of several and returns 0; and
    when the last one goes, the slot is free before the object behind it is
    released with the old contents of the slot, and the lock of the table is
    not held meanwhile. *)
Theorem fileclose_last_release f s : ft_ready s -> 0 <= f -> (Z.to_nat f < length (fl_files s))%nat ->
  let x := file_at s f in
  if f_ref x <? 1 then exists s1, fileclose f s = Panic "fileclose" s1
  else if f_ref x =? 1 then exists s1, slot_changed f (fun x => set_f_type FD_NONE (set_f_ref 0 x)) s s1 /\
    fileclose f s = file_release (set_f_ref 0 x) s1
  else exists s1, slot_changed f (set_f_ref (f_ref x - 1)) s s1 /\ fileclose f s = Ok 0 s1.
Proof.
  intros Hr Hf Hlen x. pose proof Hr as [Hr1 Hr2].
  destruct (wp_Ok _ _ _ (ft_lock_wp s (fun _ s0 => exists l, taken L_ftable (lget (fl_fat s)) l /\ s0 = Filest (lput l (fl_fat s)) (fl_files s) (fl_devices s)) Hr
    (fun l Hl => ex_intro _ l (conj Hl eq_refl)))) as ([] & s0 & E0 & l & Hl & ->).
  assert (Hun : forall fs, exists l', lk_same (lget (fl_fat s)) l' /\
    ft_unlock (Filest (lput l (fl_fat s)) fs (fl_devices s)) = Ok tt (Filest (lput l' (fl_fat s)) fs (fl_devices s))).
  { intros fs. destruct (wp_Ok _ _ _ (ft_unlock_wp (fl_fat s) l fs (fl_devices s)
      (fun _ s0 => exists l', lk_same (lget (fl_fat s)) l' /\ s0 = Filest (lput l' (fl_fat s)) fs (fl_devices s)) Hr1 Hr2 Hl
      (fun l Hl => ex_intro _ l (conj Hl eq_refl))))
      as ([] & s1 & E1 & l' & Hl' & ->). eauto. }
  unfold fileclose. rewrite (bind_run _ _ _ _ _ E0). unfold getf, setf. rewrite !run_gets.
  change (file_at (Filest (lput l (fl_fat s)) (fl_files s) (fl_devices s)) f) with x.
  destruct (Z.ltb_spec (f_ref x) 1) as [H1|H1]; [eexists; reflexivity|].
  rewrite run_modify. cbn [fl_fat fl_files fl_devices]. destruct (Z.eqb_spec (f_ref x) 1) as [E|E].
  - rewrite E. change (1 - 1) with 0. change (0 <? 0) with false. cbv iota. rewrite run_gets, run_modify, !file_at_set, Z.eqb_refl by done. cbn [fl_fat fl_files fl_devices].
    rewrite list_insert_insert_eq. destruct (Hun (<[Z.to_nat f:=set_f_type FD_NONE (set_f_ref 0 x)]> (fl_files s))) as (l' & Hl' & Eu).
    eexists. split; [split; [|exists l'; reflexivity]; by apply same_put|]. exact (bind_run _ _ _ _ _ Eu).
  - destruct (Z.ltb_spec 0 (f_ref x - 1)); [|lia]. destruct (Hun (<[Z.to_nat f:=set_f_ref (f_ref x - 1) x]> (fl_files s))) as (l' & Hl' & Eu).
    eexists. split; [split; [|exists l'; reflexivity]; by apply same_put|]. exact (bind_run _ _ _ _ _ Eu).
Qed.

End files.
