(* ===== verification/FileDemo.v ===== *)
(** * Open files of the small volume

    Two descriptors of the file of FatDemo.v, both at offset 600; the
    theorems on open files hold here. *)

From S2P Require Import Prelude Riscv Memory Spinlock Kalloc Vm Proctab Signal Sched Pipe Bio BioProps Fat32 FatDisk FatChain FatClus FatFile FatName FatDir FatDemo File FileProps.
Import Hart.

Module FileDemo.
Import FatDemo.

(** No pipe and no device is open. *)
#[export] Instance no_pipes : PipeOps mem := {|
  po_read _ _ _ _ := ret (Returned (-1)); po_write _ _ _ _ := ret (Returned (-1)); po_close _ _ := ret tt; po_alloc := ret 0 |}.
#[export] Instance no_devices : DeviceOps mem D := {|
  dv_open _ := None; dv_close _ := None; dv_read _ := None; dv_write _ := None; dv_ioctl _ := None |}.

Definition fs1 : fatst mem D := upd_ent 0 (set_d_ref 2) fs0.
Definition descriptor : file := File FD_ENTRY 1 true true 0 0 600 0 0 None 0.
Definition files1 : filest mem D := Filest fs1 [descriptor; descriptor; zero_file] [].

Lemma fs1_file : file_of fs1 0 [3; 5].
Proof.
  right. split; [|change (0 <= 600 <= Z.of_nat (length (content fs0 [3; 5]))); rewrite content0_length; lia].
  apply af_upd; [done|exact (af_pos _ _ _ chain0)|exact (af_cur _ _ _ chain0)|exact chain0].
Qed.

Lemma writable1 : writable_entry fs1 0 [3; 5] 600 700.
Proof.
  assert (Hf : free_count fs1 = 6%nat) by exact free0.
  split; [exact (fs_ok_upd fs0 0 _ fs0_ok)|exact fs1_file|exact reserved0|done|done| | | | |done].
  - change (0 <= 600 <= 600). lia.
  - lia.
  - rewrite Hf. change (3 <= 8). lia.
  - change (1 <= 2). lia.
Qed.

Lemma filewrite_fileread_roundtrip_witness : exists s1, filewrite 0 0 4096 700 files1 = Ok (Returned 700) s1 /\
  f_off (file_at s1 0) = 1300 /\ (ec_buf (fs_cp (fl_fat s1)) true 9000 700 ->
    exists s2, fileread 0 1 9000 700 s1 = Ok (Returned 700) s2 /\ fs_cp (fl_fat s2) 9005 = 5).
Proof.
  destruct (filewrite_fileread_roundtrip 0 0 1 0 [3; 5] 4096 9000 600 700 files1 ltac:(lia) ltac:(lia) ltac:(lia)
    ltac:(simpl; lia) ltac:(simpl; lia) eq_refl eq_refl eq_refl eq_refl eq_refl eq_refl eq_refl eq_refl writable1 eq_refl
    ltac:(lia) ltac:(lia) ltac:(lia) (mem_ok0 true 4096 700 ltac:(lia) ltac:(lia))) as (s1 & K1 & K2 & _ & K3).
  exists s1. split; [exact K1|]. split; [exact K2|]. intros Hb. destruct (K3 Hb) as (s2 & L1 & _ & _ & L2).
  exists s2. split; [exact L1|]. assert (H5 : 0 <= 5 < 700) by lia. exact (L2 5 H5).
Defined.

Lemma ready1 : ft_ready files1.
Proof. split; [split_and!; simpl; [lia|lia|constructor]|apply not_elem_of_nil]. Qed.

Lemma fileclose_last_release_witness : exists s1,
  slot_changed 1 (fun x => set_f_type FD_NONE (set_f_ref 0 x)) files1 s1 /\ fileclose 1 files1 = file_release (set_f_ref 0 descriptor) s1.
Proof. exact (fileclose_last_release 1 files1 ready1 ltac:(lia) ltac:(simpl; lia)). Defined.

Lemma filealloc_first_free_example : exists s', filealloc files1 = Ok (Some 2) s' /\ f_ref (file_at s' 2) = 1.
Proof. eexists. split; vm_compute; reflexivity. Qed.

(** A process whose memory cannot be read. *)
Module Unreadable.
#[export] Instance unit_copy : EitherCopy unit := {| ec_out _ _ _ := ret false; ec_in _ _ _ := ret ([], false) |}.
#[export] Instance unit_pipes : PipeOps unit := {|
  po_read _ _ _ _ := ret (Returned (-1)); po_write _ _ _ _ := ret (Returned (-1)); po_close _ _ := ret tt; po_alloc := ret 0 |}.
#[export] Instance unit_devices : DeviceOps unit D := {|
  dv_open _ := None; dv_close _ := None; dv_read _ := None; dv_write _ := None; dv_ioctl _ := None |}.

Definition files2 : filest unit D := Filest (Fatst tt (fs_b fs1) (fs_fat fs1) (fs_ents fs1) (fs_lru fs1)) [descriptor; descriptor; zero_file] [].

(** A [write] of a regular file from an address that cannot be read stops the
    kernel. *)
Example filewrite_bad_address_panics : exists s, filewrite 0 0 4096 10 files2 = Panic "short filewrite" s.
Proof. eexists. vm_compute. reflexivity. Qed.
End Unreadable.
End FileDemo.
