(* ===== verification/Console.v ===== *)
(** * The console (src/kernel/devsw/console.c) and the kernel's printf

    The terminal on top of the UART: line discipline, foreground process
    group, and the messages of the kernel.  Memory of processes is the
    interface [EitherCopy] of Fat32.v. *)

From S2P Require Import Prelude Riscv Memory Spinlock Kalloc Proctab Signal Sched Pipe Ringbuffer Printf Uart Bio Fat32.
Import Hart.

Definition BACKSPACE : Z := 0x100.
Definition CONSOLE_IO_CHUNK : Z := 128.
Definition TTY_EVENT_SIGINT : Z := 1.
Definition CONSOLE_MODE_TTY : Z := 0.
Definition CONSOLE_MODE_RAW : Z := 1.
Definition CONSOLE_IOCTL_FLUSH_INPUT : Z := 1.
Definition CONSOLE_IOCTL_SET_MODE : Z := 2.
Definition CONSOLE_IOCTL_GET_MODE : Z := 3.
Definition CONSOLE_IOCTL_SET_BAUD : Z := 4.
Definition CONSOLE_IOCTL_GET_BAUD_INFO : Z := 5.
Definition CONSOLE_IOCTL_GET_RX_STATS : Z := 6.
Definition CONSOLE_IOCTL_SET_FG_PGRP : Z := 7.
Definition CONSOLE_IOCTL_GET_FG_PGRP : Z := 8.

(** [C('C')], [C('D')] and [C('P')]. *)
Definition CTRL_C : Z := 3.
Definition CTRL_D : Z := 4.
Definition CTRL_P : Z := 16.

(** [struct cons], and [pr.locking] of printf.c. *)
Record cons := Cons {
  c_mode : Z;
  c_esc : Z;
  c_drop_lf_after_cr : bool;
  c_eof_pending : bool;
  c_foreground_pgid : Z;
  c_foreground_owner_pgid : Z;
  c_tty_events : Z;
  c_pr_locking : bool;
}.
Definition set_c_mode (v : Z) (c : cons) : cons :=
  Cons v (c_esc c) (c_drop_lf_after_cr c) (c_eof_pending c) (c_foreground_pgid c) (c_foreground_owner_pgid c) (c_tty_events c) (c_pr_locking c).
Definition set_c_esc (v : Z) (c : cons) : cons :=
  Cons (c_mode c) v (c_drop_lf_after_cr c) (c_eof_pending c) (c_foreground_pgid c) (c_foreground_owner_pgid c) (c_tty_events c) (c_pr_locking c).
Definition set_c_drop (v : bool) (c : cons) : cons :=
  Cons (c_mode c) (c_esc c) v (c_eof_pending c) (c_foreground_pgid c) (c_foreground_owner_pgid c) (c_tty_events c) (c_pr_locking c).
Definition set_c_eof (v : bool) (c : cons) : cons :=
  Cons (c_mode c) (c_esc c) (c_drop_lf_after_cr c) v (c_foreground_pgid c) (c_foreground_owner_pgid c) (c_tty_events c) (c_pr_locking c).
Definition set_c_fg (v : Z) (c : cons) : cons :=
  Cons (c_mode c) (c_esc c) (c_drop_lf_after_cr c) (c_eof_pending c) v (c_foreground_owner_pgid c) (c_tty_events c) (c_pr_locking c).
Definition set_c_owner (v : Z) (c : cons) : cons :=
  Cons (c_mode c) (c_esc c) (c_drop_lf_after_cr c) (c_eof_pending c) (c_foreground_pgid c) v (c_tty_events c) (c_pr_locking c).
Definition set_c_events (v : Z) (c : cons) : cons :=
  Cons (c_mode c) (c_esc c) (c_drop_lf_after_cr c) (c_eof_pending c) (c_foreground_pgid c) (c_foreground_owner_pgid c) v (c_pr_locking c).
Definition set_c_locking (v : bool) (c : cons) : cons :=
  Cons (c_mode c) (c_esc c) (c_drop_lf_after_cr c) (c_eof_pending c) (c_foreground_pgid c) (c_foreground_owner_pgid c) (c_tty_events c) v.

(** The bytes of a string literal. *)
Definition text (s : string) : list Z := (fun a => Z.of_N (Ascii.N_of_ascii a)) <$> String.list_ascii_of_string s.
Definition le4 (v : Z) : list Z := bytes4 v.

Section code.
Context {P : Type} {LP : Lens P pst} `{!EitherCopy P} {UE : UartEnv}.
Abbreviation CM := (M (ust P cons)).

Definition getc : CM cons := gets us_cons.
Definition setc (f : cons -> cons) : CM unit := modify (fun s => Ust (us_p s) (us_uart s) (f (us_cons s))).

(** The observer of the received bytes: the interrupt key is not queued. *)
Definition console_rx_observer (c : Z) : CM bool :=
  lock_ L_cons ;;
  x <- getc ;;
  if (c_mode x =? CONSOLE_MODE_TTY) && (0 <? c_foreground_pgid x) && (c =? CTRL_C) then
    setc (fun x => set_c_events (Z.lor (c_tty_events x) TTY_EVENT_SIGINT) x) ;;
    unlock_ L_cons ;;
    ret true
  else unlock_ L_cons ;; ret false.
#[export] Instance console_observer : RxObserver P cons := console_rx_observer.

(** ** Output *)

Definition consputc (c : Z) : CM unit :=
  if c =? BACKSPACE then uarthsputc_sync 8 ;; uarthsputc_sync 32 ;; uarthsputc_sync 8
  else uarthsputc_sync c.

Fixpoint putall (l : list Z) : CM unit :=
  match l with
  | [] => ret tt
  | c :: l' => consputc c ;; putall l'
  end.

(** [printf]; a wrong argument is undefined in C. *)
Definition printf (fmt : list Z) (args : list va) : CM unit :=
  x <- getc ;;
  when (c_pr_locking x) (lock_ L_pr) ;;
  (match printf_text fmt args with
   | Some t => putall t
   | None => panic "printf: undefined argument"
   end) ;;
  when (c_pr_locking x) (unlock_ L_pr).

Definition printfinit : CM unit := lk_ (initlock L_pr) ;; setc (set_c_locking true).

(** ** [procdump] of proc.c (MLFQ build) *)

Fixpoint width_loop (fuel : nat) (n w : Z) : Z :=
  match fuel with
  | O => w
  | S f => if 10 <=? n then width_loop f (n / 10) (w + 1) else w
  end.
Definition decimal_width (n : Z) : Z :=
  if n <? 0 then width_loop 10 (s32 (- n)) 2 else width_loop 10 n 1.
Fixpoint print_spaces (n : nat) : CM unit :=
  match n with
  | O => ret tt
  | S n' => printf [32] [] ;; print_spaces n'
  end.
Definition print_int_col (n width : Z) : CM unit :=
  print_spaces (Z.to_nat (width - decimal_width n)) ;; printf (text "%d") [Num n].
Fixpoint print_chars (l : list Z) : CM unit :=
  match l with
  | [] => ret tt
  | c :: l' => printf (text "%s") [Str (Some [c])] ;; print_chars l'
  end.
Definition print_str_col (s : list Z) (width : Z) : CM unit :=
  let len := Z.min (Z.of_nat (length s)) width in
  print_chars (take (Z.to_nat len) s) ;; print_spaces (Z.to_nat (width - len)).
Definition state_name (st : procstate) : list Z :=
  match st with
  | UNUSED => text "unused" | SLEEPING => text "sleep " | RUNNABLE => text "runble"
  | RUNNING => text "run   " | ZOMBIE => text "zombie"
  end.
Definition newline : list Z := [10].
Definition procdump_line (p : proc) : CM unit :=
  if is_state UNUSED p then ret tt
  else
    print_int_col (p_pid p) 4 ;; printf (text "  ") [] ;;
    print_str_col (state_name (p_state p)) 5 ;; printf (text "  ") [] ;;
    print_str_col (text (p_name p)) 12 ;; printf (text "  ") [] ;;
    print_int_col (p_queue_level p) 1 ;; printf (text "  ") [] ;;
    print_int_col (s32 (p_total_run_ticks p)) 5 ;; printf (text "  ") [] ;;
    print_int_col (s32 (p_wait_ticks p)) 5 ;; printf (text "  ") [] ;;
    print_int_col (s32 (p_preempt_count p)) 7 ;; printf (text "  ") [] ;;
    print_int_col (s32 (p_boost_count p)) 5 ;; printf (text "  ") [] ;;
    print_int_col (s32 (p_io_wakeup_count p)) 4 ;; printf (text "  ") [] ;;
    print_int_col (s32 (p_device_wakeup_count p)) 4 ;; printf (text "  ") [] ;;
    print_int_col (s32 (p_last_wakeup_reason p)) 4 ;;
    printf newline [].
Fixpoint procdump_lines (l : list proc) : CM unit :=
  match l with
  | [] => ret tt
  | p :: l' => procdump_line p ;; procdump_lines l'
  end.
Definition procdump : CM unit :=
  printf newline [] ;;
  printf (text " PID  STATE  NAME          Q    RUN   WAIT  PREEMPT  BOOST    IO   DEV  WAKE" ++ newline) [] ;;
  printf (text "----  -----  ------------  -  -----  -----  -------  -----  ----  ----  ----" ++ newline) [] ;;
  s <- ps_ get ;;
  procdump_lines (take (Z.to_nat NPROC) (ps_procs s)) ;;
  printf (text "mlfq: preempt_requests=%d" ++ newline) [Num (ps_mlfq_preempt_count s)].

(** ** write *)

(** How a [consolewrite] ends; a sleeping one has written [done] bytes before
    the chunk [buf] and [i] bytes of it. *)
Inductive cwrite := WReturned (r : Z) | WAsleep (done : Z) (buf : list Z) (i : Z) (saved : bool).

(** What follows [uarths_write]. *)
Definition consolewrite_wrote (done : Z) (buf : list Z) (r : run) : CM (Z + cwrite) :=
  match r with
  | Asleep i saved => ret (inr (WAsleep done buf i saved))
  | Returned written =>
      if written <=? 0 then ret (inr (WReturned done))
      else if negb (written =? Z.of_nat (length buf)) then ret (inr (WReturned (done + written)))
      else ret (inl (done + written))
  end.
Definition consolewrite_body (me src n : Z) (done : Z) : CM (Z + cwrite) :=
  if done <? n then
    let count := Z.min (n - done) CONSOLE_IO_CHUNK in
    r <- up_ (ec_in true (u64 (src + done)) count) ;;
    let '(buf, ok) := r in
    if negb ok then ret (inr (WReturned done))
    else w <- uarths_write me buf ;; consolewrite_wrote done buf w
  else ret (inr (WReturned done)).
Definition consolewrite_loop (me src n done : Z) : CM cwrite :=
  loop (S (Z.to_nat (n - done))) (consolewrite_body me src n) done.
Definition consolewrite (me src n : Z) : CM cwrite := consolewrite_loop me src n 0.
Definition consolewrite_resume (me src n done : Z) (buf : list Z) (i : Z) (saved : bool) : CM cwrite :=
  w <- uarths_write_resume me buf i saved ;;
  r <- consolewrite_wrote done buf w ;;
  match r with inl done => consolewrite_loop me src n done | inr x => ret x end.

(** ** Modes and the foreground group *)

Definition console_mode_get : CM Z := lock_ L_cons ;; x <- getc ;; unlock_ L_cons ;; ret (c_mode x).
Definition console_set_mode (mode : Z) : CM unit :=
  lock_ L_cons ;;
  setc (fun c => set_c_events 0 (set_c_eof false (set_c_drop false (set_c_esc 0 (set_c_mode mode c))))) ;;
  unlock_ L_cons ;;
  uarths_flush_rx.

(** The critical section of [console_set_foreground_pgrp]: the new state and
    the result. *)
Definition foreground_update (pgid caller owner : Z) (owner_exists : bool) (c : cons) : cons * Z :=
  let c := if (c_foreground_owner_pgid c =? owner) && negb owner_exists then set_c_fg 0 (set_c_owner 0 c) else c in
  let c := if (c_foreground_owner_pgid c =? 0) && (c_foreground_pgid c =? 0) then set_c_owner caller c else c in
  if negb (c_foreground_owner_pgid c =? caller) && negb (c_foreground_pgid c =? pgid) then (c, -1)
  else
    let c := set_c_fg pgid c in
    (if (pgid =? 0) && (c_foreground_owner_pgid c =? caller) then set_c_owner 0 c else c, 0).

Definition console_set_foreground_pgrp (me pgid : Z) : CM Z :=
  exists_ <- (if 0 <? pgid then ps_ (signal_pgrp_exists pgid) else ret 1) ;;
  if (pgid <? 0) || (exists_ =? 0) then ret (-1)
  else
    caller <- ps_ (proc_getpgrp me) ;;
    lock_ L_cons ;;
    x <- getc ;;
    let owner := c_foreground_owner_pgid x in
    unlock_ L_cons ;;
    live <- (if 0 <? owner then ps_ (signal_pgrp_exists owner) else ret 0) ;;
    lock_ L_cons ;;
    x <- getc ;;
    let r := foreground_update pgid caller owner (negb (live =? 0)) x in
    setc (fun _ => fst r) ;;
    unlock_ L_cons ;;
    ret (snd r).

Definition copy_result (ok : bool) : Z := if ok then 0 else -1.

(** [consoleioctl]; a change of speed may put the caller to sleep. *)
Definition consoleioctl (me cmd arg : Z) : CM waiting :=
  if cmd =? CONSOLE_IOCTL_FLUSH_INPUT then
    uarths_flush_rx ;;
    lock_ L_cons ;;
    setc (fun c => set_c_eof false (set_c_drop false (set_c_esc 0 c))) ;;
    unlock_ L_cons ;;
    ret (Ready 0)
  else if cmd =? CONSOLE_IOCTL_SET_MODE then
    if negb (arg =? CONSOLE_MODE_TTY) && negb (arg =? CONSOLE_MODE_RAW) then ret (Ready (-1))
    else console_set_mode arg ;; ret (Ready 0)
  else if cmd =? CONSOLE_IOCTL_GET_MODE then m <- console_mode_get ;; ret (Ready m)
  else if cmd =? CONSOLE_IOCTL_SET_BAUD then
    if (arg =? 0) || (5000000 <? arg) then ret (Ready (-1)) else uarths_set_baud me arg
  else if cmd =? CONSOLE_IOCTL_GET_BAUD_INFO then
    info <- uarths_get_baud_info ;;
    ok <- up_ (ec_out true arg (concat (le4 <$> info))) ;;
    ret (Ready (copy_result ok))
  else if cmd =? CONSOLE_IOCTL_GET_RX_STATS then
    st <- uarths_get_rx_stats ;;
    m <- console_mode_get ;;
    ok <- up_ (ec_out true arg (concat (le4 <$> (st ++ [m; 0])))) ;;
    ret (Ready (copy_result ok))
  else if cmd =? CONSOLE_IOCTL_SET_FG_PGRP then
    if 0x7fffffff <? arg then ret (Ready (-1))
    else r <- console_set_foreground_pgrp me arg ;; ret (Ready r)
  else if cmd =? CONSOLE_IOCTL_GET_FG_PGRP then
    lock_ L_cons ;;
    x <- getc ;;
    unlock_ L_cons ;;
    ret (Ready (c_foreground_pgid x))
  else ret (Ready (-1)).

(** The interrupt key reaches the foreground group. *)
Definition console_dispatch_events : CM unit :=
  lock_ L_cons ;;
  x <- getc ;;
  setc (set_c_events 0) ;;
  unlock_ L_cons ;;
  if Z.land (c_tty_events x) TTY_EVENT_SIGINT =? 0 then ret tt
  else if c_foreground_pgid x <=? 0 then ret tt
  else
    consputc 94 ;; consputc 67 ;; consputc 10 ;;
    ps_ (signal_send_pgrp (c_foreground_pgid x) SIGINT) ;;
    ret tt.

(** ** read *)

(** How a read ends: a sleeping one remembers the epoch of the input, and in
    TTY mode how many bytes were delivered. *)
Inductive cread := CReturned (r : Z) | CRaw (epoch : Z) (saved : bool) | CTty (done epoch : Z) (saved : bool).

Definition raw_got (user_dst : bool) (dst : Z) (r : reading) : CM cread :=
  match r with
  | Waits epoch saved => ret (CRaw epoch saved)
  | Got got bs =>
      if got <=? 0 then ret (CReturned got)
      else
        ok <- up_ (ec_out user_dst dst bs) ;;
        ret (CReturned (if (ok : bool) then got else -1))
  end.
Definition console_raw_read (me : Z) (user_dst : bool) (dst n : Z) : CM cread :=
  r <- uarths_read me (Z.min n CONSOLE_IO_CHUNK) ;; raw_got user_dst dst r.

(** The state change of one character in TTY mode, K210 build: the new state
    and the character with the decision to echo it; [None] is a character
    that is dropped. *)
Definition tty_step (c : Z) (x : cons) : cons * option (Z * bool) :=
  let r :=
    if c =? 13 then Some (10, set_c_drop true x)
    else if c_drop_lf_after_cr x && (c =? 10) then None
    else Some (c, set_c_drop false x) in
  match r with
  | None => (set_c_drop false x, None)
  | Some (c, x) =>
      let echo := ((32 <=? c) && (c <=? 126)) || (c =? 10) in
      if c =? 0x1b then (set_c_esc 1 x, Some (c, false))
      else if negb (c_esc x =? 0) then
        (set_c_esc (if (c_esc x =? 1) && ((c =? 91) || (c =? 79)) then 2 else 0) x, Some (c, false))
      else (x, Some (c, echo))
  end.

Definition console_tty_char (c : Z) : CM (option Z) :=
  lock_ L_cons ;;
  x <- getc ;;
  if negb (c_mode x =? CONSOLE_MODE_TTY) then unlock_ L_cons ;; ret None
  else if c =? CTRL_P then unlock_ L_cons ;; procdump ;; ret None
  else if c =? 0 then unlock_ L_cons ;; ret None
  else
    let r := tty_step c x in
    setc (fun _ => fst r) ;;
    unlock_ L_cons ;;
    match snd r with
    | None => ret None
    | Some (c, echo) => when echo (consputc c) ;; ret (Some c)
    end.

(** A round of the loop behind [uarths_read]; the variable is [done]. *)
Definition tty_output (user_dst : bool) (dst done output : Z) : CM (Z + cread) :=
  if output =? CTRL_D then
    when (0 <? done) (lock_ L_cons ;; setc (set_c_eof true) ;; unlock_ L_cons) ;;
    ret (inr (CReturned done))
  else
    ok <- up_ (ec_out user_dst (u64 (dst + done)) [u8 output]) ;;
    if negb ok then ret (inr (CReturned (if 0 <? done then done else -1)))
    else if output =? 10 then ret (inr (CReturned (done + 1)))
    else ret (inl (done + 1)).
Definition tty_got (user_dst : bool) (dst done : Z) (r : reading) : CM (Z + cread) :=
  match r with
  | Waits epoch saved => ret (inr (CTty done epoch saved))
  | Got got bs =>
      if got <=? 0 then ret (inr (CReturned (if 0 <? done then done else got)))
      else
        o <- console_tty_char (hd 0 bs) ;;
        match o with
        | None => ret (inl done)
        | Some output => tty_output user_dst dst done output
        end
  end.
Definition tty_body (me : Z) (user_dst : bool) (dst n : Z) (done : Z) : CM (Z + cread) :=
  if done <? n then r <- uarths_read me 1 ;; tty_got user_dst dst done r
  else ret (inr (CReturned done)).
(** Every round takes a byte out of the ring. *)
Definition tty_loop (me : Z) (user_dst : bool) (dst n done : Z) : CM cread :=
  u <- getu ;;
  loop (S (S (Z.to_nat (ringbuffer_used (ua_rx u))))) (tty_body me user_dst dst n) done.
Definition console_tty_read (me : Z) (user_dst : bool) (dst n : Z) : CM cread :=
  lock_ L_cons ;;
  x <- getc ;;
  if c_eof_pending x then setc (set_c_eof false) ;; unlock_ L_cons ;; ret (CReturned 0)
  else unlock_ L_cons ;; tty_loop me user_dst dst n 0.

Definition consoleread (me dst n : Z) : CM cread :=
  if n <=? 0 then ret (CReturned 0)
  else
    m <- console_mode_get ;;
    if m =? CONSOLE_MODE_RAW then console_raw_read me true dst n else console_tty_read me true dst n.
(** The return from the sleep in [uarths_read]. *)
Definition consoleread_resume (me dst n : Z) (r : cread) : CM cread :=
  match r with
  | CReturned _ => ret r
  | CRaw epoch saved =>
      x <- uarths_read_resume me (Z.min n CONSOLE_IO_CHUNK) epoch saved ;; raw_got true dst x
  | CTty done epoch saved =>
      x <- uarths_read_resume me 1 epoch saved ;;
      y <- tty_got true dst done x ;;
      match y with inl done => tty_loop me true dst n done | inr z => ret z end
  end.

Definition consoleopen (minor : Z) : Z := if minor =? 0 then 0 else -1.

(** [device_register] is the caller's. *)
Definition consoleinit : CM unit :=
  lk_ (initlock L_cons) ;;
  setc (fun c => set_c_events 0 (set_c_owner 0 (set_c_fg 0 (set_c_mode CONSOLE_MODE_TTY c)))) ;;
  uarths_set_rx_observer ;;
  uarthsinit.
End code.
