(* ===== verification/ConsoleProps.v ===== *)
(** * Correctness of the console

    Received bytes are queued, taken as the interrupt key or counted as
    dropped; a read in TTY mode delivers a line of the cooked input; the
    foreground process group belongs to its owner and gets the interrupt. *)

From S2P Require Import Prelude Riscv Memory Spinlock Kalloc Vm VmTree VmUnmap VmCheck VmProps Proctab Signal Sched SchedProps Pipe PipeProps Ringbuffer Printf Uart UartProps Bio BioProps Fat32 FatDisk FatChain FatClus FatFile Console.
Import Hart.

(** [signal_send_pgrp] on one slot. *)
Definition signalled (pgid signum : Z) (p : proc) : proc :=
  if negb (is_state UNUSED p) && (p_pgid p =? pgid) then signal_mark_locked signum p else p.
Lemma mark_pgrp_wp n pgid signum : forall i found s, pgood s -> 0 <= i -> i + Z.of_nat n = NPROC ->
  wp (mark_pgrp n i pgid signum found) (fun _ s' => psame s s' /\
    ps_procs s' = take (Z.to_nat i) (ps_procs s) ++ (signalled pgid signum <$> drop (Z.to_nat i) (ps_procs s))) s.
Proof.
  induction n as [|n IH]; intros i found s Hg Hi Hn; cbn [mark_pgrp].
  - wp_go. split; [done|]. rewrite drop_ge, take_ge by (rewrite (pg_len _ Hg); lia). by rewrite app_nil_r.
  - wp_step. apply wp_plock; [apply Hg|]. intros l Hl. wp_step. wp_step. wp_step. cbv zeta. change (proc_at (lput l s) i) with (proc_at s i).
    set (s1 := upd_proc i (signalled pgid signum) (lput l s)).
    assert (Hs1 : wp (when (negb (is_state UNUSED (proc_at s i)) && (p_pgid (proc_at s i) =? pgid)) (setp i (signal_mark_locked signum)))
      (fun _ s' => s' = s1) (lput l s)).
    { unfold s1, upd_proc, signalled. change (proc_at (lput l s) i) with (proc_at s i).
      destruct (negb (is_state UNUSED (proc_at s i)) && (p_pgid (proc_at s i) =? pgid)); simpl when.
      - unfold setp. wp_go. done.
      - wp_go. symmetry. change (proc_at s i) with (proc_at (lput l s) i). apply (upd_proc_id i (lput l s)); [lia|apply Hg]. }
    wp_step. eapply wp_mono; [exact Hs1|]. intros [] s1' ->. wp_step.
    eapply (wp_punlock i (lk_of s)); [apply Hg|apply Hg|exact Hl|]. intros l' Hl'.
    assert (Hps : psame s (lput l' s1)) by (split; [exact Hl'|done]).
    assert (Hg1 : pgood (lput l' s1)) by (eapply psame_good; [exact Hps|simpl; apply length_insert|done]).
    eapply wp_mono; [apply IH; [done|lia|lia]|]. intros r s2 [H2 P2]. split; [by etrans|]. rewrite P2. simpl ps_procs.
    change (proc_at (lput l s) i) with (proc_at s i).
    assert (Hlt : (Z.to_nat i < length (ps_procs s))%nat) by (rewrite (pg_len _ Hg); lia).
    destruct (lookup_lt_is_Some_2 _ _ Hlt) as [x Hx]. assert (Hat : proc_at s i = x) by (by apply list_lookup_total_correct).
    replace (Z.to_nat (i + 1)) with (S (Z.to_nat i)) by lia.
    rewrite (take_S_r _ _ (signalled pgid signum (proc_at s i))) by (by apply list_lookup_insert_eq).
    rewrite take_insert_ge, drop_insert_lt, (drop_S _ _ _ Hx) by lia. rewrite <- (assoc_L (++)), Hat. done.
Qed.

(** A process of the group is in the table. *)
Definition in_group (pgid : Z) (p : proc) : bool := negb (is_state UNUSED p) && (p_pgid p =? pgid).
Definition group_live (s : pst) (pgid : Z) : bool := (0 <? pgid) && existsb (in_group pgid) (ps_procs s).

Lemma group_scan_wp n pgid : forall i s, pgood s -> 0 <= i -> i + Z.of_nat n = NPROC ->
  wp (scan_procs n i (fun i => plock i ;; p <- getp i ;; let hit := in_group pgid p in punlock i ;; ret (if hit then Some tt else None)))
    (fun r s' => psame s s' /\ ps_procs s' = ps_procs s /\
      r = if existsb (in_group pgid) (drop (Z.to_nat i) (ps_procs s)) then Some tt else None) s.
Proof.
  induction n as [|n IH]; intros i s Hg Hi Hn; cbn [scan_procs].
  - wp_go. rewrite drop_ge by (rewrite (pg_len _ Hg); lia). done.
  - assert (Hlt : (Z.to_nat i < length (ps_procs s))%nat) by (rewrite (pg_len _ Hg); lia).
    destruct (lookup_lt_is_Some_2 _ _ Hlt) as [x Hx]. assert (Hat : proc_at s i = x) by (by apply list_lookup_total_correct).
    rewrite (drop_S _ _ _ Hx). cbn [existsb]. wp_step. wp_step. apply wp_plock; [apply Hg|]. intros l Hl. wp_step. wp_step. wp_step.
    cbv zeta. change (proc_at (lput l s) i) with (proc_at s i). rewrite Hat. wp_step.
    eapply (wp_punlock i (lk_of s)); [apply Hg|apply Hg|exact Hl|]. intros l' Hl'. change (lput l' (lput l s)) with (lput l' s).
    assert (Hps : psame s (lput l' s)) by (split; [exact Hl'|by destruct s as [[] ? ? ? ? ? ? ? ?]]). wp_step.
    destruct (in_group pgid x); simpl orb; cbv iota.
    + wp_go. done.
    + eapply wp_mono; [apply (IH (i + 1) (lput l' s)); [by eapply psame_good|lia|lia]|]. intros r s2 (H1 & H2 & H3).
      split; [by etrans|]. split; [done|]. rewrite H3. by replace (Z.to_nat (i + 1)) with (S (Z.to_nat i)) by lia.
Qed.

Lemma group_exists_wp pgid s : pgood s -> wp (signal_pgrp_exists pgid) (fun r s' => psame s s' /\ ps_procs s' = ps_procs s /\
  r = if group_live s pgid then 1 else 0) s.
Proof.
  intros Hg. unfold signal_pgrp_exists, group_live. destruct (Z.leb_spec pgid 0).
  - wp_go. split; [done|]. split; [done|]. by destruct (Z.ltb_spec 0 pgid); [lia|].
  - wp_step. eapply wp_mono; [apply (group_scan_wp (Z.to_nat NPROC) pgid 0 s Hg); [lia|by rewrite Z2Nat.id by done]|].
    intros r s' (H1 & H2 & ->). wp_go. split; [done|]. split; [done|]. destruct (Z.ltb_spec 0 pgid); [|lia]. rewrite drop_0.
    simpl andb. by destruct (existsb (in_group pgid) (ps_procs s)).
Qed.

Section props.
Context {P : Type} {LP : Lens P pst} {LL : LensLaws P pst} `{!EitherCopy P} {UE : UartEnv}.
Abbreviation kstate := (ust P cons).
Implicit Types s : ust P cons.
#[local] Notation psof := (psof (P := P) (C := cons)).

Definition with_cons (c : cons) (s : ust P cons) : ust P cons := Ust (us_p s) (us_uart s) c.
Definition with_lk (k : lkst) (s : ust P cons) : ust P cons := with_ps (lput k (psof s)) s.

Lemma psof_with_lk k s : psof (with_lk k s) = lput k (psof s).
Proof. apply psof_with. Qed.
Lemma with_lk_id s : with_lk (lk_of (psof s)) s = s.
Proof.
  unfold with_lk, with_ps. replace (lput (lk_of (psof s)) (psof s)) with (psof s) by (destruct (psof s) as [[] ? ? ? ? ? ? ? ?]; done).
  unfold UartProps.psof. rewrite lput_lget. by destruct s.
Qed.
Lemma with_lk_twice k k' s : with_lk k (with_lk k' s) = with_lk k s.
Proof. unfold with_lk. rewrite psof_with, with_ps_twice. done. Qed.

(** A critical section around a body that keeps the locks: state it with the
    lock state [k] of the beginning. *)
Lemma clock_wp l (Q : unit -> kstate -> Prop) s : l ∉ held (lk_of (psof s)) ->
  (forall k, taken l (lk_of (psof s)) k -> Q tt (with_lk k s)) -> wp (lock_ l) Q s.
Proof. intros H1 H2. apply lock_wp; [done|]. intros k Hk. by apply H2. Qed.

Lemma cunlock_wp l (Q : unit -> kstate -> Prop) s k l0 : lk_ok l0 -> l ∉ held l0 -> taken l l0 k ->
  (forall k', lk_same l0 k' -> Q tt (with_lk k' s)) -> wp (unlock_ l) Q (with_lk k s).
Proof.
  intros H1 H2 H3 HQ. apply (unlock_wp l l0); [done|done|by rewrite psof_with_lk|]. intros k' Hk'.
  rewrite psof_with_lk. unfold with_lk at 1. rewrite with_ps_twice. exact (HQ k' Hk').
Qed.

(** ** Kernel messages *)

(** [s'] is [s] after the text [t] went to the line. *)
Definition prints (t : list Z) s s' : Prop :=
  exists k polls, lk_same (lk_of (psof s)) k /\
    s' = with_lk k (with_uart (set_hw_sent (hw_sent (us_uart s) ++ t) (set_hw_polls polls (us_uart s))) s).

Definition can_print s : Prop := lk_ok (lk_of (psof s)) /\ ua_panicked (us_uart s) = false.

Lemma prints_lk t s s' : prints t s s' -> lk_same (lk_of (psof s)) (lk_of (psof s')).
Proof. intros (k & polls & Hk & ->). rewrite psof_with_lk. exact Hk. Qed.

Lemma prints_can t s s' : prints t s s' -> can_print s -> can_print s'.
Proof.
  intros Hp [H1 H2]. split; [by eapply lk_same_ok; [exact (prints_lk _ _ _ Hp)|]|]. destruct Hp as (k & polls & _ & ->). exact H2.
Qed.

Lemma prints_nil s : prints [] s s.
Proof.
  exists (lk_of (psof s)), (hw_polls (us_uart s)). split; [done|]. rewrite app_nil_r.
  transitivity (with_lk (lk_of (psof s)) s); [by rewrite with_lk_id|]. f_equal. by destruct s as [? [] ?].
Qed.

Lemma prints_app t t' s s1 s2 : prints t s s1 -> prints t' s1 s2 -> prints (t ++ t') s s2.
Proof.
  intros Hp (k' & polls' & Hk' & ->). pose proof (prints_lk _ _ _ Hp) as Hl. destruct Hp as (k & polls & Hk & ->).
  exists k', polls'. split; [etrans; [exact Hl|exact Hk']|].
  unfold with_lk, with_uart, with_ps, UartProps.psof. simpl. rewrite lget_lput, lput_lput, (assoc_L (++)). done.
Qed.

Lemma poll_wp n : forall s (Q : unit -> kstate -> Prop), (length (hw_polls (us_uart s)) < n)%nat ->
  (forall polls, Q tt (with_uart (set_hw_polls polls (us_uart s)) s)) ->
  wp (loop n (fun _ : unit => b <- uarths_hw_tx_ready ;; ret (if (b : bool) then inr tt else inl tt)) tt) Q s.
Proof.
  induction n as [|n IH]; intros s Q Hn HQ; [lia|]. apply wp_loop_S. unfold uarths_hw_tx_ready at 1, getu. wp_step. wp_step. wp_step.
  destruct (hw_polls (us_uart s)) as [|b l] eqn:E.
  - wp_go. specialize (HQ []). replace (with_uart (set_hw_polls [] (us_uart s)) s) with s in HQ; [done|]. rewrite <- E. by destruct s as [? [] ?].
  - unfold setu. wp_step. wp_step. wp_step. destruct b; wp_step; [exact (HQ l)|].
    apply IH; [simpl in *; lia|]. intros polls. exact (HQ polls).
Qed.

Lemma putc_sync_wp c s (Q : unit -> kstate -> Prop) : can_print s -> (forall s', prints [u8 c] s s' -> Q tt s') -> wp (uarthsputc_sync c) Q s.
Proof.
  intros [Hok Hp] HQ. unfold uarthsputc_sync, lk_, getu. wp_step. apply ps_wp_, wp_zoom. eapply wp_mono; [apply push_off_wp|].
  intros [] k Hk. change (lget (psof s)) with (lk_of (psof s)) in Hk. wp_step. wp_step. simpl us_uart. rewrite Hp. wp_step.
  apply poll_wp; [simpl; lia|]. intros polls. unfold uarths_hw_putc, setu. wp_step. wp_step.
  apply ps_wp_, wp_zoom. eapply wp_mono; [apply (pop_off_wp (lk_of (psof s))); [done|]|].
  { unfold UartProps.psof. simpl. rewrite lget_lput. exact Hk. }
  intros [] k' Hk'. apply HQ. exists k', polls. split; [exact Hk'|].
  unfold with_lk, with_uart, with_ps, UartProps.psof. simpl. rewrite lget_lput, lput_lput. done.
Qed.

Definition screen (c : Z) : list Z := if c =? BACKSPACE then [8; 32; 8] else [u8 c].

Lemma consputc_wp c s (Q : unit -> kstate -> Prop) : can_print s -> (forall s', prints (screen c) s s' -> Q tt s') -> wp (consputc c) Q s.
Proof.
  intros Hc HQ. unfold consputc, screen in *. destruct (c =? BACKSPACE); [|by apply putc_sync_wp].
  wp_step. apply putc_sync_wp; [done|]. intros s1 H1. wp_step. apply putc_sync_wp; [by eapply prints_can|]. intros s2 H2.
  apply putc_sync_wp; [eapply prints_can; [exact H2|]; by eapply prints_can|]. intros s3 H3. apply HQ.
  exact (prints_app _ _ _ _ _ (prints_app _ _ _ _ _ H1 H2) H3).
Qed.

Lemma putall_wp l : forall s (Q : unit -> kstate -> Prop), can_print s -> (forall s', prints (concat (screen <$> l)) s s' -> Q tt s') -> wp (putall l) Q s.
Proof.
  induction l as [|c l IH]; intros s Q Hc HQ; cbn [putall].
  - wp_go. apply HQ, prints_nil.
  - wp_step. apply consputc_wp; [done|]. intros s1 H1. apply IH; [by eapply prints_can|]. intros s2 H2. apply HQ.
    exact (prints_app _ _ _ _ _ H1 H2).
Qed.

(** [printf] puts its text on the line. *)
Lemma printf_wp fmt args t s (Q : unit -> kstate -> Prop) : can_print s -> L_pr ∉ held (lk_of (psof s)) -> printf_text fmt args = Some t ->
  (forall s', prints (concat (screen <$> t)) s s' -> Q tt s') -> wp (printf fmt args) Q s.
Proof.
  intros Hc Hn Ht HQ. unfold printf, getc. wp_step. wp_step. rewrite Ht. destruct (c_pr_locking (us_cons s)); simpl when.
  - wp_step. apply clock_wp; [done|]. intros k Hk. wp_step. pose proof (lk_ok_taken _ _ _ (proj1 Hc) Hn Hk) as Hok.
    apply putall_wp; [split; [by rewrite psof_with_lk|apply Hc]|]. intros s1 (k1 & polls & Hk1 & ->).
    rewrite psof_with_lk in Hk1. apply (cunlock_wp L_pr _ _ k1 (lk_of (psof s))); [apply Hc|done| |].
    { destruct Hk as (T1 & T2 & T3 & T4), Hk1 as (E1 & E2 & E3 & E4). change (lk_of (lput k (psof s))) with k in *.
      destruct (proj1 Hc) as (Hl & _). unfold taken. rewrite E1, E2, E3, E4 by lia. done. }
    intros k2 Hk2. apply HQ. exists k2, polls. split; [exact Hk2|].
    unfold with_lk, with_uart, with_ps, UartProps.psof. simpl. rewrite lget_lput, lput_lput. done.
  - wp_step. wp_step. wp_step. apply putall_wp; [done|]. intros s1 H1. wp_go. by apply HQ.
Qed.

(** Some text. *)
Definition printed s s' : Prop := exists t, prints t s s'.
Definition may_print s : Prop := can_print s /\ L_pr ∉ held (lk_of (psof s)).

#[export] Instance printed_preorder : PreOrder printed.
Proof.
  split; [intros s; exists []; apply prints_nil|]. intros s1 s2 s3 [t H] [t' H']. exists (t ++ t'). by eapply prints_app.
Qed.

(** [m] only prints. *)
Definition only_prints (m : M kstate unit) : Prop :=
  forall s (Q : unit -> kstate -> Prop), may_print s -> (forall s', printed s s' -> may_print s' -> Q tt s') -> wp m Q s.

Lemma printed_may s s' : printed s s' -> may_print s -> may_print s'.
Proof.
  intros [t H] [Hc Hn]. split; [by eapply prints_can|]. apply prints_lk in H as (_ & _ & -> & _). exact Hn.
Qed.

Lemma say fmt args : is_Some (printf_text fmt args) -> only_prints (printf fmt args).
Proof.
  intros [t Ht] s Q [Hc Hn] HQ. apply (printf_wp fmt args t); [done|done|done|]. intros s' Hs'.
  assert (Hp : printed s s') by by eexists. apply HQ; [done|]. by eapply printed_may.
Qed.
Lemma say_then m m' : only_prints m -> only_prints m' -> only_prints (m ;; m').
Proof.
  intros Hm Hm' s Q Hs HQ. wp_step. apply Hm; [done|]. intros s1 H1 K1. apply Hm'; [done|]. intros s2 H2 K2.
  apply HQ; [by etrans|done].
Qed.
Lemma say_nothing : only_prints (ret tt).
Proof. intros s Q Hs HQ. wp_go. by apply HQ. Qed.

Lemma spaces_print n : only_prints (print_spaces n).
Proof. induction n as [|n IH]; cbn [print_spaces]; [apply say_nothing|]. apply say_then; [|done]. apply say. vm_compute. eauto. Qed.
Lemma int_col_prints n w : only_prints (print_int_col n w).
Proof. apply say_then; [apply spaces_print|]. apply say. eexists. reflexivity. Qed.
Lemma str_col_prints l w : only_prints (print_str_col l w).
Proof.
  apply say_then; [|apply spaces_print]. induction (take _ l) as [|c k IH]; cbn [print_chars]; [apply say_nothing|].
  apply say_then; [|done]. apply say. eexists. reflexivity.
Qed.

Lemma procdump_line_prints p : only_prints (procdump_line p).
Proof.
  unfold procdump_line. destruct (is_state UNUSED p); [apply say_nothing|].
  repeat first [apply int_col_prints | apply str_col_prints | apply say; eexists; reflexivity | apply say_then].
Qed.

Lemma procdump_prints : only_prints procdump.
Proof.
  unfold procdump. repeat (apply say_then; [apply say; eexists; vm_compute; reflexivity|]). intros s Q Hs HQ. wp_step.
  apply ps_wp_. wp_step. generalize (take (Z.to_nat NPROC) (ps_procs (psof s))), (ps_mlfq_preempt_count (psof s)). intros l n.
  assert (E : with_ps (psof s) s = s) by (unfold with_ps, UartProps.psof; rewrite lput_lget; by destruct s). rewrite E. clear E.
  revert s Q Hs HQ. apply say_then.
  - induction l as [|p l IH]; cbn [procdump_lines]; [apply say_nothing|]. apply say_then; [apply procdump_line_prints|done].
  - apply say. eexists. reflexivity.
Qed.

(** ** Receiving *)

(** The byte is the interrupt key of a foreground group. *)
Definition interrupts (x : cons) (c : Z) : bool := (c_mode x =? CONSOLE_MODE_TTY) && (0 <? c_foreground_pgid x) && (c =? CTRL_C).
Definition mark_sigint (x : cons) : cons := set_c_events (Z.lor (c_tty_events x) TTY_EVENT_SIGINT) x.
(** The console behind the bytes [q]: a pending interrupt if one was a key. *)
Definition after_keys (q : list Z) (x : cons) : cons := if existsb (interrupts x) q then mark_sigint x else x.
(** The bytes for readers. *)
Definition for_readers (x : cons) (q : list Z) : list Z := filter (fun c => interrupts x c = false) q.

Lemma mark_twice x : mark_sigint (mark_sigint x) = mark_sigint x.
Proof. unfold mark_sigint, set_c_events. simpl. by rewrite <- Z.lor_assoc, Z.lor_diag. Qed.

Lemma after_keys_cons c q x : after_keys q (if interrupts x c then mark_sigint x else x) = after_keys (c :: q) x.
Proof.
  unfold after_keys. simpl. destruct (interrupts x c) eqn:E; [|done]. simpl.
  change (interrupts (mark_sigint x)) with (interrupts x). rewrite mark_twice. by destruct (existsb (interrupts x) q).
Qed.

Lemma observer_wp c s (Q : bool -> kstate -> Prop) : lk_ok (lk_of (psof s)) -> L_cons ∉ held (lk_of (psof s)) ->
  (forall k, lk_same (lk_of (psof s)) k ->
     Q (interrupts (us_cons s) c) (with_lk k (with_cons (if interrupts (us_cons s) c then mark_sigint (us_cons s) else us_cons s) s))) ->
  wp (console_rx_observer c) Q s.
Proof.
  intros Hok Hn HQ. unfold console_rx_observer, getc, setc. wp_step. apply clock_wp; [done|]. intros k Hk. wp_step. wp_step.
  fold (interrupts (us_cons (with_lk k s)) c). change (us_cons (with_lk k s)) with (us_cons s).
  destruct (interrupts (us_cons s) c).
  - wp_step. wp_step. wp_step. apply (cunlock_wp L_cons _ (with_cons (mark_sigint (us_cons s)) s) k (lk_of (psof s))); [done|done|done|].
    intros k' Hk'. wp_go. by apply HQ.
  - wp_step. apply (cunlock_wp L_cons _ s k (lk_of (psof s))); [done|done|done|]. intros k' Hk'. wp_go.
    specialize (HQ k' Hk'). by destruct s.
Qed.

Lemma push_capacity c r : rb_capacity (snd (ringbuffer_push c r)) = rb_capacity r.
Proof. unfold ringbuffer_push. by destruct (ringbuffer_full r). Qed.

(** What the bytes [q] do to the ring and the count of lost bytes. *)
Record received (q : list Z) (u u' : uart) : Prop := {
  rd_ok : rb_ok (ua_rx u');
  rd_cont : rb_contents (ua_rx u') = rb_contents (ua_rx u) ++ take (Z.to_nat (ringbuffer_free (ua_rx u))) q;
  rd_lost : ua_dropped u' = u32 (ua_dropped u + Z.of_nat (length q - Z.to_nat (ringbuffer_free (ua_rx u))));
  rd_rest : u' = set_hw_fifo [] (set_ua_dropped (ua_dropped u') (set_ua_rx (ua_rx u') u));
}.

Lemma received_push c q u u' r : rb_ok (ua_rx u) -> 0 <= c < 256 -> ringbuffer_push (u8 c) (ua_rx u) = (1, r) ->
  received q (set_ua_rx r u) u' -> received (c :: q) u u' /\ (0 < Z.to_nat (ringbuffer_free (ua_rx u)))%nat.
Proof.
  intros Hok Hc Hp [R1 R2 R3 R4]. pose proof (push_enqueues (u8 c) _ Hok) as H. pose proof (push_capacity (u8 c) (ua_rx u)) as Hcap.
  rewrite Hp in H, Hcap. simpl in Hcap. destruct H as [Hr H]. destruct (decide _); [by destruct H as [H _]|]. destruct H as [_ H].
  rewrite !u8_small in H by (rewrite ?u8_small by lia; lia).
  destruct (ringbuffer_reports _ Hok) as (_ & F & B & _). destruct (ringbuffer_reports _ Hr) as (_ & F' & _).
  simpl in R2, R3. rewrite F' in R2, R3. rewrite Hcap, H, length_app in R2, R3. simpl length in R2, R3.
  set (m := Z.of_nat (length (rb_contents (ua_rx u)))) in *.
  assert (E : Z.to_nat (ringbuffer_free (ua_rx u)) = S (Z.to_nat (rb_capacity (ua_rx u) - Z.of_nat (length (rb_contents (ua_rx u)) + 1)))) by lia.
  split; [|lia]. split; [done| | |done].
  - rewrite R2, E. cbn [take]. rewrite <- (assoc_L (++)). done.
  - rewrite R3, E. f_equal.
Qed.

Lemma received_lost c q u u' : rb_ok (ua_rx u) -> fst (ringbuffer_push (u8 c) (ua_rx u)) = 0 ->
  received q (set_ua_dropped (u32 (ua_dropped u + 1)) u) u' -> received (c :: q) u u'.
Proof.
  intros Hok Hp [R1 R2 R3 R4]. destruct (ringbuffer_reports _ Hok) as (_ & F & B & _ & Hf & _). simpl in R2, R3.
  assert (E : Z.to_nat (ringbuffer_free (ua_rx u)) = 0%nat).
  { pose proof (push_enqueues (u8 c) _ Hok) as H. destruct (ringbuffer_push (u8 c) (ua_rx u)) as [res r]. simpl in Hp. subst res.
    destruct H as [_ H]. destruct (decide _); [lia|]. by destruct H. }
  rewrite E in R2, R3. split; [done|by rewrite E| |done]. rewrite R3, E. unfold u32. rewrite Z.add_mod_idemp_l by lia.
  f_equal. simpl length. lia.
Qed.

Lemma received_none u : rb_ok (ua_rx u) -> hw_fifo u = [] -> 0 <= ua_dropped u < 2 ^ 32 -> received [] u u.
Proof.
  intros H1 H2 H3. split; [done|by rewrite take_nil, app_nil_r|rewrite Z.add_0_r; symmetry; by apply u32_small|].
  rewrite <- H2. by destruct u.
Qed.

Lemma received_fifo q l u u' : received q (set_hw_fifo l u) u' -> received q u u'.
Proof. by intros [R1 R2 R3 R4]. Qed.

Definition grew (u u' : uart) : bool := (length (rb_contents (ua_rx u)) <? length (rb_contents (ua_rx u')))%nat.

Lemma rx_loop_wp n : forall q s b, (length q < n)%nat -> bytes q -> hw_fifo (us_uart s) = q -> rb_ok (ua_rx (us_uart s)) ->
  0 <= ua_dropped (us_uart s) < 2 ^ 32 -> ua_observer (us_uart s) = true -> lk_ok (lk_of (psof s)) -> L_cons ∉ held (lk_of (psof s)) ->
  wp (loop n rx_service_body b) (fun r s' => exists k u, lk_same (lk_of (psof s)) k /\
    received (for_readers (us_cons s) q) (us_uart s) u /\ r = b || grew (us_uart s) u /\
    s' = with_lk k (with_cons (after_keys q (us_cons s)) (with_uart u s))) s.
Proof.
  induction n as [|n IH]; intros q s b Hn Hb Hq Hok Hd Hob Hlk Hnc; [lia|]. apply wp_loop_S.
  unfold rx_service_body at 1, uarths_hw_getc, getu, setu. wp_step. wp_step. wp_step. rewrite Hq. destruct q as [|c q].
  - wp_step. simpl Z.eqb. cbv iota. wp_go. exists (lk_of (psof s)), (us_uart s). split; [done|]. split; [by apply received_none|].
    unfold grew. rewrite Nat.ltb_irrefl, orb_false_r. split; [done|].
    transitivity (with_lk (lk_of (psof s)) s); [by rewrite with_lk_id|by destruct s].
  - unfold bytes in Hb. apply Forall_cons in Hb as [Hc Hb]. simpl in Hn. wp_step. wp_step. wp_step.
    destruct (Z.eqb_spec c (-1)); [lia|]. wp_step. wp_step. change (ua_observer (us_uart (Ust (us_p s) (set_hw_fifo q (us_uart s)) (us_cons s)))) with (ua_observer (us_uart s)). rewrite Hob. wp_step.
    set (s1 := Ust (us_p s) (set_hw_fifo q (us_uart s)) (us_cons s)).
    change rx_observer with console_rx_observer. apply (observer_wp c s1); [done|done|]. intros k Hk. change (us_cons s1) with (us_cons s) in *.
    set (x1 := if interrupts (us_cons s) c then mark_sigint (us_cons s) else us_cons s).
    assert (Hx : forall q, for_readers x1 q = for_readers (us_cons s) q) by (intros; unfold x1; by destruct (interrupts (us_cons s) c)).
    assert (Hin : forall u2 b2, hw_fifo u2 = q -> rb_ok (ua_rx u2) -> 0 <= ua_dropped u2 < 2 ^ 32 -> ua_observer u2 = true ->
      (forall u, received (for_readers (us_cons s) q) u2 u ->
        received (for_readers (us_cons s) (c :: q)) (us_uart s) u /\ b2 || grew u2 u = b || grew (us_uart s) u) ->
      wp (loop n rx_service_body b2) (fun r s' => exists k u, lk_same (lk_of (psof s)) k /\
        received (for_readers (us_cons s) (c :: q)) (us_uart s) u /\ r = b || grew (us_uart s) u /\
        s' = with_lk k (with_cons (after_keys (c :: q) (us_cons s)) (with_uart u s))) (with_lk k (Ust (us_p s) u2 x1))).
    { intros u2 b2 U1 U2 U3 U4 U5. pose proof Hk as (K1 & K2 & K3 & K4).
      eapply wp_mono; [apply (IH q); [lia|done|exact U1|exact U2|exact U3|exact U4| |]|].
      - rewrite psof_with_lk. by eapply lk_same_ok.
      - rewrite psof_with_lk. simpl. rewrite K3. exact Hnc.
      - intros r s' (k' & u & Hk' & Hr & -> & ->). rewrite psof_with_lk in Hk'. simpl us_cons in *. simpl us_uart in *. rewrite Hx in Hr.
        destruct (U5 u Hr) as [V1 V2]. exists k', u. split; [etrans; [exact Hk|exact Hk']|]. split; [done|]. split; [done|].
        rewrite <- after_keys_cons. fold x1. unfold with_lk, with_uart, with_ps, with_cons, UartProps.psof. simpl. rewrite lget_lput, lput_lput. done. }
    destruct (interrupts (us_cons s) c) eqn:Ei.
    + wp_step. apply (Hin (set_hw_fifo q (us_uart s)) b); [done|done|done|done|]. intros u Hu. apply received_fifo in Hu. split; [|done].
      unfold for_readers. rewrite filter_cons_False by (rewrite Ei; done). exact Hu.
    + wp_step. wp_step. simpl us_uart. change (ua_rx (set_hw_fifo q (us_uart s))) with (ua_rx (us_uart s)).
      assert (Hf : for_readers (us_cons s) (c :: q) = c :: for_readers (us_cons s) q) by (unfold for_readers; by rewrite filter_cons_True).
      rewrite Hf in *. destruct (ringbuffer_push (u8 c) (ua_rx (us_uart s))) as [res r] eqn:Ep. simpl fst. simpl snd.
      destruct (Z.eqb_spec res 0) as [-> |Hres]; simpl negb; cbv iota.
      * wp_step. wp_step. wp_step. apply (Hin (set_ua_dropped (u32 (ua_dropped (us_uart s) + 1)) (set_hw_fifo q (us_uart s))) b); [done|done|apply u32_range|done|]. intros u Hu. split; [|done].
        apply received_fifo with q. apply received_lost; [done|by simpl; rewrite Ep|exact Hu].
      * assert (Hr1 : res = 1) by (unfold ringbuffer_push in Ep; destruct (ringbuffer_full _); by injection Ep as <- _). subst res.
        wp_step. wp_step. wp_step. pose proof (push_enqueues (u8 c) _ Hok) as Hpe. rewrite Ep in Hpe.
        apply (Hin (set_ua_rx r (set_hw_fifo q (us_uart s))) true); [done|apply Hpe|done|done|]. intros u Hu. apply (received_fifo _ q (set_ua_rx r (us_uart s))) in Hu.
        destruct (received_push c _ (us_uart s) u r Hok Hc Ep Hu) as [V1 V2]. split; [done|].
        assert (Hg : grew (us_uart s) u = true) by (unfold grew; apply Nat.ltb_lt; rewrite (rd_cont _ _ _ V1), length_app, length_take; simpl; lia).
        by rewrite Hg, orb_true_r.
Qed.

Lemma isr_wp s : outside (psof s) -> tx_ok (us_uart s) -> rb_ok (ua_rx (us_uart s)) -> bytes (hw_fifo (us_uart s)) ->
  0 <= ua_dropped (us_uart s) < 2 ^ 32 -> ua_observer (us_uart s) = true ->
  wp uarths_dw_isr (fun _ s' => exists u, received (for_readers (us_cons s) (hw_fifo (us_uart s))) (us_uart s) u /\
    outside (psof s') /\ rx_side (us_uart s') = rx_side u /\ tx_ok (us_uart s') /\ tx_line (us_uart s') = tx_line (us_uart s) /\
    us_cons s' = after_keys (hw_fifo (us_uart s)) (us_cons s) /\
    ps_procs (psof s') = woken (AddrChan tx_ring) WAKEUP_DEVICE <$>
      (if grew (us_uart s) u then woken (AddrChan rx_ring) WAKEUP_DEVICE <$> ps_procs (psof s) else ps_procs (psof s))) s.
Proof.
  intros Ho Htx Hrx Hb Hd Hob. unfold uarths_dw_isr. wp_step. apply lock_under; [exact rx_not_proc|done|]. intros t Ht Hp.
  wp_step. unfold uarths_rx_service, getu. wp_step. wp_step. wp_step.
  eapply wp_mono; [apply (rx_loop_wp _ (hw_fifo (us_uart s)) (with_ps t s) false); try done|].
  { simpl. lia. } { rewrite psof_with. apply Ht. } { rewrite psof_with, (un_held _ _ Ht). by intros ?%list_elem_of_singleton. }
  intros r s1 (k & u & Hk & Hu & -> & ->). rewrite psof_with in Hk. simpl us_uart in *. simpl us_cons in *. simpl orb.
  set (s1 := with_lk k _).
  assert (Hs1 : under L_uarths_rx (psof s1)).
  { unfold s1. rewrite psof_with_lk. change (psof (with_cons (after_keys (hw_fifo (us_uart s)) (us_cons s)) (with_uart u (with_ps t s)))) with (psof (with_ps t s)).
    rewrite psof_with. destruct Hk as (K1 & K2 & K3 & _). destruct Ht as [Hg Hn Hh]. apply under_relock; [exact rx_not_proc|done|by rewrite K1| |by rewrite K3].
    rewrite K2. apply Hg. rewrite Hn. lia. }
  assert (Hps1 : ps_procs (psof s1) = ps_procs (psof s)).
  { unfold s1. rewrite psof_with_lk. change (psof (with_cons (after_keys (hw_fifo (us_uart s)) (us_cons s)) (with_uart u (with_ps t s)))) with (psof (with_ps t s)).
    by rewrite psof_with. }
  assert (Hrest : forall s2, under L_uarths_rx (psof s2) -> us_uart s2 = u -> us_cons s2 = us_cons s1 ->
    ps_procs (psof s2) = (if grew (us_uart s) u then woken (AddrChan rx_ring) WAKEUP_DEVICE <$> ps_procs (psof s) else ps_procs (psof s)) ->
    wp (unlock_ L_uarths_rx ;; lock_ L_uarths_tx ;; uarths_tx_service ;; unlock_ L_uarths_tx) (fun _ s' => exists u, received (for_readers (us_cons s) (hw_fifo (us_uart s))) (us_uart s) u /\
      outside (psof s') /\ rx_side (us_uart s') = rx_side u /\ tx_ok (us_uart s') /\ tx_line (us_uart s') = tx_line (us_uart s) /\
      us_cons s' = after_keys (hw_fifo (us_uart s)) (us_cons s) /\
      ps_procs (psof s') = woken (AddrChan tx_ring) WAKEUP_DEVICE <$>
        (if grew (us_uart s) u then woken (AddrChan rx_ring) WAKEUP_DEVICE <$> ps_procs (psof s) else ps_procs (psof s))) s2).
  { intros s2 H2 Eu Ec Ep. wp_step. apply unlock_under; [done|]. intros t3 H3 P3. wp_step. apply lock_under; [exact tx_not_proc|by rewrite psof_with|].
    intros t4 H4 P4. rewrite psof_with in P4. rewrite with_ps_twice. wp_step.
    assert (Htu : tx_ok u /\ tx_line u = tx_line (us_uart s)) by (rewrite (rd_rest _ _ _ Hu); done).
    apply tx_service_wp; [simpl; rewrite Eu; apply Htu|by rewrite psof_with|]. rewrite psof_with. intros t5 u5 H5 P5 (U1 & U2 & U3) _ _.
    apply unlock_under; [unfold UartProps.psof; simpl; by rewrite lget_lput|]. intros t6 H6 P6. exists u. split; [done|].
    simpl us_uart in *. rewrite Eu in *. rewrite psof_with. split; [done|]. split; [done|]. split; [done|]. split; [rewrite U2; apply Htu|].
    split; [exact Ec|]. rewrite P6. unfold UartProps.psof at 1. simpl us_p. rewrite lget_lput, P5, P4, P3. by f_equal. }
  destruct (grew (us_uart s) u) eqn:Eg; simpl when.
  - apply (wake_under L_uarths_rx); [done|]. intros t2 H2 P2. apply Hrest; [by rewrite psof_with|done|done|]. by rewrite psof_with, P2, Hps1.
  - wp_step. by apply Hrest.
Qed.

(** ** The interrupt key *)


Lemma send_pgrp_wp pgid signum s (Q : Z -> kstate -> Prop) : outside (psof s) -> 0 < pgid -> signal_valid signum = true ->
  (forall r t, outside t -> ps_procs t = signalled pgid signum <$> ps_procs (psof s) -> Q r (with_ps t s)) ->
  wp (ps_ (signal_send_pgrp pgid signum)) Q s.
Proof.
  intros (Hg & Hn & Hh) Hp Hv HQ. apply ps_wp_. unfold signal_send_pgrp. rewrite Hv. destruct (Z.leb_spec pgid 0); [lia|]. simpl orb. cbv iota.
  wp_step. eapply wp_mono; [apply mark_pgrp_wp; [done|lia|by rewrite Z2Nat.id by done]|]. intros b t [Hs Ht]. wp_go.
  rewrite take_0, drop_0 in Ht. apply HQ; [|exact Ht]. pose proof Hs as [(E1 & _ & E3 & _) _].
  split; [eapply psame_good; [exact Hs| |done]; by rewrite Ht, length_app, length_fmap|]. by rewrite E1, E3.
Qed.

Lemma outside_lk k s : lk_same (lk_of (psof s)) k -> outside (psof s) -> outside (psof (with_lk k s)).
Proof.
  intros Hk (Hg & Hn & Hh). rewrite psof_with_lk. pose proof Hk as (E1 & _ & E3 & _). split; [|simpl; by rewrite E1, E3].
  split; simpl; [by eapply lk_same_ok; [exact Hk|apply Hg]|intros i; rewrite E3; apply Hg|apply Hg].
Qed.

Lemma outside_prints t s s' : prints t s s' -> outside (psof s) -> outside (psof s').
Proof. intros (k & polls & Hk & ->) Ho. by apply (outside_lk k (with_uart _ s)). Qed.

Lemma procs_prints t s s' : prints t s s' -> ps_procs (psof s') = ps_procs (psof s) /\ us_cons s' = us_cons s.
Proof. intros (k & polls & Hk & ->). by rewrite psof_with_lk. Qed.

Definition caret_C : list Z := [94; 67; 10].

Lemma dispatch_wp s : outside (psof s) -> ua_panicked (us_uart s) = false -> 0 < c_foreground_pgid (us_cons s) ->
  Z.land (c_tty_events (us_cons s)) TTY_EVENT_SIGINT <> 0 ->
  wp console_dispatch_events (fun _ s' => outside (psof s') /\ us_cons s' = set_c_events 0 (us_cons s) /\
    hw_sent (us_uart s') = hw_sent (us_uart s) ++ caret_C /\
    ps_procs (psof s') = signalled (c_foreground_pgid (us_cons s)) SIGINT <$> ps_procs (psof s)) s.
Proof.
  intros Ho Hpan Hfg Hev. unfold console_dispatch_events, getc, setc. pose proof Ho as (Hg & Hn & Hh).
  assert (Hnc : L_cons ∉ held (lk_of (psof s))) by (rewrite Hh; apply not_elem_of_nil).
  wp_step. apply clock_wp; [done|]. intros k Hk. wp_step. wp_step. wp_step. wp_step.
  set (s1 := with_cons (set_c_events 0 (us_cons s)) s). wp_step.
  apply (cunlock_wp L_cons _ s1 k (lk_of (psof s))); [apply Hg|done|done|]. intros k1 Hk1.
  change (us_cons (with_lk k s)) with (us_cons s). rewrite (proj2 (Z.eqb_neq _ _) Hev). destruct (Z.leb_spec (c_foreground_pgid (us_cons s)) 0); [lia|].
  set (s2 := with_lk k1 s1). assert (Ho2 : outside (psof s2)) by (by apply (outside_lk k1 s1)).
  assert (Hp2 : ps_procs (psof s2) = ps_procs (psof s)) by (unfold s2; by rewrite psof_with_lk).
  assert (Hc2 : can_print s2) by (split; [apply Ho2|done]).
  wp_step. apply consputc_wp; [done|]. intros s3 H3. wp_step. apply consputc_wp; [by eapply prints_can|]. intros s4 H4.
  wp_step. apply consputc_wp; [eapply prints_can; [exact H4|]; by eapply prints_can|]. intros s5 H5. wp_step.
  pose proof (prints_app _ _ _ _ _ (prints_app _ _ _ _ _ H3 H4) H5) as Hp. change ((screen 94 ++ screen 67) ++ screen 10) with caret_C in Hp.
  clear H3 H4 H5. destruct (procs_prints _ _ _ Hp) as [Hpp Hpc].
  apply send_pgrp_wp; [by eapply outside_prints|lia|done|]. intros r t Ht Htp. wp_go. rewrite psof_with. split; [done|].
  split; [exact Hpc|]. split; [by destruct Hp as (? & ? & _ & ->)|]. by rewrite Htp, Hpp, Hp2.
Qed.

(** The interrupt key reaches the foreground group.  When a Ctrl-C is
    among the bytes that arrived and the terminal has a foreground group, the
    receive interrupt takes the key out of the input (every other byte is
    queued in order or counted as lost when the ring is full), and the next
    dispatch of console events echoes [^C] and marks SIGINT in every process
    of the group, and in no other process. *)
Theorem ctrl_c_interrupts_foreground s : outside (psof s) -> tx_ok (us_uart s) -> rb_ok (ua_rx (us_uart s)) ->
  bytes (hw_fifo (us_uart s)) -> 0 <= ua_dropped (us_uart s) < 2 ^ 32 -> ua_observer (us_uart s) = true -> ua_panicked (us_uart s) = false ->
  c_mode (us_cons s) = CONSOLE_MODE_TTY -> 0 < c_foreground_pgid (us_cons s) -> 0 <= c_tty_events (us_cons s) ->
  CTRL_C ∈ hw_fifo (us_uart s) ->
  exists s1 s2 u, uarths_dw_isr s = Ok tt s1 /\ console_dispatch_events s1 = Ok tt s2 /\
    received (filter (fun c => c <> CTRL_C) (hw_fifo (us_uart s))) (us_uart s) u /\ ua_rx (us_uart s1) = ua_rx u /\
    ua_dropped (us_uart s1) = ua_dropped u /\ hw_sent (us_uart s2) = hw_sent (us_uart s1) ++ caret_C /\ c_tty_events (us_cons s2) = 0 /\
    ps_procs (psof s2) = signalled (c_foreground_pgid (us_cons s)) SIGINT <$> ps_procs (psof s1) /\
    (p_pgid <$> ps_procs (psof s1)) = (p_pgid <$> ps_procs (psof s)).
Proof.
  intros Ho Htx Hrx Hb Hd Hob Hpan Hm Hfg Hev Hin.
  destruct (wp_Ok _ _ _ (isr_wp s Ho Htx Hrx Hb Hd Hob)) as ([] & s1 & E1 & u & Hu & Ho1 & Hr1 & _ & _ & Hc1 & Hp1).
  assert (Hint : forall c, interrupts (us_cons s) c = (c =? CTRL_C)).
  { intros c. unfold interrupts. rewrite Hm. destruct (Z.ltb_spec 0 (c_foreground_pgid (us_cons s))); [done|lia]. }
  assert (Hkey : after_keys (hw_fifo (us_uart s)) (us_cons s) = mark_sigint (us_cons s)).
  { unfold after_keys. rewrite (proj2 (existsb_exists _ _)); [done|]. exists CTRL_C. split; [by apply list_elem_of_In|]. by rewrite Hint. }
  rewrite Hkey in Hc1. pose proof (rd_rest _ _ _ Hu) as Hrest.
  assert (Hpan1 : ua_panicked (us_uart s1) = false).
  { unfold rx_side in Hr1. injection Hr1 as _ _ _ _ _ -> _ _ _. rewrite Hrest. exact Hpan. }
  destruct (wp_Ok _ _ _ (dispatch_wp s1 Ho1 Hpan1 ltac:(by rewrite Hc1) ltac:(rewrite Hc1; simpl; unfold TTY_EVENT_SIGINT; rewrite Z.land_lor_distr_l;
    intros E%Z.lor_eq_0_iff; by destruct E))) as ([] & s2 & E2 & _ & Hc2 & Hs2 & Hp2).
  exists s1, s2, u. split; [done|]. split; [done|]. split.
  { assert (E : for_readers (us_cons s) (hw_fifo (us_uart s)) = filter (fun c => c <> CTRL_C) (hw_fifo (us_uart s))); [|by rewrite <- E].
    apply list_filter_iff. intros c. rewrite Hint. by rewrite Z.eqb_neq. }
  unfold rx_side in Hr1. injection Hr1 as -> -> _ _ _ _ _ _ _. split; [done|]. split; [done|]. split; [done|]. split; [by rewrite Hc2|].
  split; [by rewrite Hp2, Hc1|]. rewrite Hp1. assert (Hw : forall ch p, p_pgid (woken ch WAKEUP_DEVICE p) = p_pgid p) by (intros; unfold woken, promote_one; by repeat case_bool_).
  destruct (grew (us_uart s) u); rewrite <- ?list_fmap_compose; apply list_fmap_ext; intros; simpl; by rewrite ?Hw.
Qed.

(** ** The foreground group *)

(** A look at the process table leaves its contents and the locks. *)
Lemma outside_same s t : psame (psof s) t -> ps_procs t = ps_procs (psof s) -> outside (psof s) -> exists k, lk_same (lk_of (psof s)) k /\ with_ps t s = with_lk k s.
Proof.
  intros [Hk Ht] Hp _. exists (lk_of t). split; [exact Hk|]. unfold with_lk. f_equal. rewrite Ht, Hp. by destruct (psof s) as [[] ? ? ? ? ? ? ? ?].
Qed.

Lemma live_lk k s pgid : group_live (psof (with_lk k s)) pgid = group_live (psof s) pgid.
Proof. by rewrite psof_with_lk. Qed.

Lemma exists_wp pgid s (Q : Z -> kstate -> Prop) : outside (psof s) ->
  (forall k, lk_same (lk_of (psof s)) k -> Q (if group_live (psof s) pgid then 1 else 0) (with_lk k s)) -> wp (ps_ (signal_pgrp_exists pgid)) Q s.
Proof.
  intros Ho HQ. apply ps_wp_. eapply wp_mono; [apply group_exists_wp; apply Ho|]. intros r t (H1 & H2 & ->).
  destruct (outside_same s t H1 H2 Ho) as (k & Hk & ->). by apply HQ.
Qed.

Lemma getpgrp_wp me s (Q : Z -> kstate -> Prop) : outside (psof s) ->
  (forall k, lk_same (lk_of (psof s)) k -> Q (p_pgid (proc_at (psof s) me)) (with_lk k s)) -> wp (ps_ (proc_getpgrp me)) Q s.
Proof.
  intros (Hg & _) HQ. apply ps_wp_. unfold proc_getpgrp. wp_step. apply wp_plock; [apply Hg|]. intros l Hl. wp_step. wp_step. wp_step. wp_step.
  eapply (wp_punlock me (lk_of (psof s))); [apply Hg|apply Hg|exact Hl|]. intros l' Hl'. wp_go. exact (HQ l' Hl').
Qed.

Lemma lk_psof k s : lk_of (psof (with_lk k s)) = k.
Proof. by rewrite psof_with_lk. Qed.

Lemma cond_exists_wp pgid d s (Q : Z -> kstate -> Prop) : outside (psof s) ->
  (forall k, lk_same (lk_of (psof s)) k -> Q (if 0 <? pgid then if group_live (psof s) pgid then 1 else 0 else d) (with_lk k s)) ->
  wp (if 0 <? pgid then ps_ (signal_pgrp_exists pgid) else ret d) Q s.
Proof.
  intros Ho HQ. destruct (0 <? pgid); [by apply exists_wp|]. wp_step. specialize (HQ (lk_of (psof s)) ltac:(done)). by rewrite with_lk_id in HQ.
Qed.

(** A read of [cons] under its lock. *)
Lemma look_wp {A} (f : cons -> A) s (Q : A -> kstate -> Prop) : outside (psof s) ->
  (forall k, lk_same (lk_of (psof s)) k -> Q (f (us_cons s)) (with_lk k s)) ->
  wp (lock_ L_cons ;; x <- getc ;; unlock_ L_cons ;; ret (f x)) Q s.
Proof.
  intros (Hg & Hn & Hh) HQ. assert (Hnc : L_cons ∉ held (lk_of (psof s))) by (rewrite Hh; apply not_elem_of_nil).
  wp_step. apply clock_wp; [done|]. intros k Hk. unfold getc. wp_step. wp_step. wp_step.
  apply (cunlock_wp L_cons _ s k (lk_of (psof s))); [apply Hg|done|done|]. intros k' Hk'. wp_go. by apply HQ.
Qed.

(** The state of the console before and after a request. *)
Lemma set_foreground_wp me pgid s : outside (psof s) -> let x := us_cons s in
  wp (console_set_foreground_pgrp me pgid) (fun r s' => outside (psof s') /\
    if (pgid <? 0) || ((0 <? pgid) && negb (group_live (psof s) pgid)) then r = -1 /\ us_cons s' = x
    else (us_cons s', r) = foreground_update pgid (p_pgid (proc_at (psof s) me)) (c_foreground_owner_pgid x)
           (group_live (psof s) (c_foreground_owner_pgid x)) x) s.
Proof.
  intros Ho x. unfold console_set_foreground_pgrp. wp_step. apply cond_exists_wp; [done|]. intros k1 K1.
  assert (O1 : outside (psof (with_lk k1 s))) by by apply outside_lk.
  assert (E : ((pgid <? 0) || ((if 0 <? pgid then if group_live (psof s) pgid then 1 else 0 else 1) =? 0)) =
    ((pgid <? 0) || ((0 <? pgid) && negb (group_live (psof s) pgid)))).
  { destruct (0 <? pgid); [|done]. by destruct (group_live (psof s) pgid). }
  rewrite E. destruct ((pgid <? 0) || ((0 <? pgid) && negb (group_live (psof s) pgid))); [by wp_go|].
  wp_step. apply getpgrp_wp; [done|]. intros k2 K2. rewrite lk_psof in K2. rewrite with_lk_twice, psof_with_lk.
  assert (O2 : outside (psof (with_lk k2 s))) by (apply outside_lk; [by etrans|done]).
  change (proc_at (lput k1 (psof s)) me) with (proc_at (psof s) me). set (caller := p_pgid (proc_at (psof s) me)).
  pose proof O2 as (G2 & N2 & H2). rewrite lk_psof in N2, H2.
  wp_step. apply clock_wp; [rewrite lk_psof, H2; apply not_elem_of_nil|]. intros k3 K3. unfold getc. wp_step. wp_step. cbv zeta. wp_step.
  eapply cunlock_wp; [apply G2| |exact K3|]; [rewrite lk_psof, H2; apply not_elem_of_nil|]. intros k4 K4.
  rewrite lk_psof in K4. rewrite !with_lk_twice. change (us_cons (with_lk k3 s)) with x. wp_step.
  assert (O4 : outside (psof (with_lk k4 s))) by (apply outside_lk; [do 2 (etrans; [eassumption|]); done|done]).
  apply cond_exists_wp; [done|]. rewrite live_lk. intros k5 K5. rewrite lk_psof in K5. rewrite with_lk_twice.
  assert (O5 : outside (psof (with_lk k5 s))) by (apply outside_lk; [do 3 (etrans; [eassumption|]); done|done]).
  pose proof O5 as (G5 & N5 & H5). rewrite lk_psof in N5, H5.
  wp_step. apply clock_wp; [rewrite lk_psof, H5; apply not_elem_of_nil|]. intros k6 K6. unfold setc. wp_step. wp_step. wp_step. wp_step.
  change (us_cons (with_lk k6 (with_lk k5 s))) with x.
  set (r := foreground_update _ _ _ _ _). wp_step.
  apply (cunlock_wp L_cons _ (with_cons (fst r) (with_lk k5 s)) k6 k5); [by rewrite <- (lk_psof k5 s); apply G5|rewrite H5; apply not_elem_of_nil|by rewrite lk_psof in K6|].
  intros k7 K7. wp_go. split.
  - apply (outside_lk k7 (with_cons (fst r) (with_lk k5 s))); [change (psof (with_cons (fst r) (with_lk k5 s))) with (psof (with_lk k5 s)); by rewrite lk_psof|exact O5].
  - assert (Hl : negb ((if 0 <? c_foreground_owner_pgid x then if group_live (psof s) (c_foreground_owner_pgid x) then 1 else 0 else 0) =? 0) =
      group_live (psof s) (c_foreground_owner_pgid x)).
    { unfold group_live. destruct (0 <? c_foreground_owner_pgid x); [|done]. simpl andb. by destruct (existsb _ _). }
    unfold r. rewrite Hl. simpl us_cons. symmetry. apply surjective_pairing.
Qed.

(** The foreground group belongs to its owner.  While a process of the
    owner's group exists, a caller of another group cannot change the
    foreground group: the request fails and the console is unchanged.  When
    the owner's group is gone, a caller may set any existing group as the
    foreground one and becomes the owner. *)
Theorem foreground_belongs_to_owner me pgid s : outside (psof s) ->
  let x := us_cons s in let owner := c_foreground_owner_pgid x in let caller := p_pgid (proc_at (psof s) me) in
  (group_live (psof s) owner = true -> caller <> owner -> pgid <> c_foreground_pgid x ->
     exists s', console_set_foreground_pgrp me pgid s = Ok (-1) s' /\ us_cons s' = x /\ outside (psof s')) /\
  (group_live (psof s) owner = false -> group_live (psof s) pgid = true ->
     exists s', console_set_foreground_pgrp me pgid s = Ok 0 s' /\ us_cons s' = set_c_fg pgid (set_c_owner caller x) /\ outside (psof s')).
Proof.
  intros Ho x owner caller. destruct (wp_Ok _ _ _ (set_foreground_wp me pgid s Ho)) as (r & s' & E & Ho' & H).
  fold x owner caller in H. split.
  - intros Hl Hc Hp. exists s'. rewrite E. destruct ((pgid <? 0) || _); [by destruct H as [-> ->]|]. rewrite Hl in H.
    assert (Hpos : 0 < owner) by (unfold group_live in Hl; destruct (Z.ltb_spec 0 owner); [done|discriminate]).
    assert (Hu : foreground_update pgid caller owner true x = (x, -1)); [|rewrite Hu in H; by injection H as -> ->].
    unfold foreground_update. fold owner. rewrite andb_false_r. fold owner.
    rewrite (proj2 (Z.eqb_neq owner 0)) by lia. cbn [andb]. fold owner. rewrite (proj2 (Z.eqb_neq owner caller)) by congruence.
    by rewrite (proj2 (Z.eqb_neq _ pgid)) by congruence.
  - intros Hl Hg. exists s'. rewrite E. assert (Hpos : 0 < pgid) by (unfold group_live in Hg; destruct (Z.ltb_spec 0 pgid); [done|discriminate]).
    rewrite Hg, andb_false_r, orb_false_r in H. destruct (Z.ltb_spec pgid 0); [lia|]. rewrite Hl in H.
    assert (Hu : foreground_update pgid caller owner false x = (set_c_fg pgid (set_c_owner caller x), 0)); [|rewrite Hu in H; by injection H as -> ->].
    unfold foreground_update. fold owner. rewrite Z.eqb_refl. cbn [andb negb]. simpl. rewrite Z.eqb_refl. simpl.
    by rewrite (proj2 (Z.eqb_neq pgid 0)) by lia.
Qed.
End props.
