(* ===== verification/ConsoleTty.v ===== *)
(** * Reading lines from the console

    The reference is a function on the queued bytes: [cooked] maps carriage
    returns to newlines and drops what the terminal drops, [line] cuts at a
    newline, an end of file or the size of the buffer.  A read in TTY mode
    delivers the line and leaves the rest of the input in the ring. *)

From S2P Require Import Prelude Riscv Memory Spinlock Kalloc Vm VmTree VmUnmap VmCheck VmProps Proctab Signal Sched SchedProps Pipe PipeProps Ringbuffer Printf Uart UartProps Bio BioProps Fat32 FatDisk FatChain FatClus FatFile Console ConsoleProps.
Import Hart.

(** What the terminal makes of the input; [drop] says that a carriage return
    came last. *)
Fixpoint cooked (drop : bool) (q : list Z) : list Z :=
  match q with
  | [] => []
  | c :: q' =>
      if (c =? CTRL_P) || (c =? 0) then cooked drop q'
      else if c =? 13 then 10 :: cooked true q'
      else if drop && (c =? 10) then cooked false q'
      else c :: cooked false q'
  end.

(** The bytes of one read of at most [n] bytes, and whether an end of file cut
    it; [None] when more input is needed. *)
Fixpoint line (n : nat) (l : list Z) : option (list Z * bool) :=
  match n with
  | O => Some ([], false)
  | S n' =>
      match l with
      | [] => None
      | c :: l' =>
          if c =? CTRL_D then Some ([], true)
          else if c =? 10 then Some ([10], false)
          else match line n' l' with Some (k, e) => Some (c :: k, e) | None => None end
      end
  end.

(** [q] is the input of the line [l]: it completes the line, and no shorter
    part of it does. *)
Definition completes (n : nat) (drop : bool) (q l : list Z) (e : bool) : Prop :=
  line n (cooked drop q) = Some (l, e) /\ forall q0 c q', q = q0 ++ c :: q' -> line n (cooked drop q0) = None.

Lemma completes_none drop : completes 0 drop [] [] false.
Proof. split; [done|]. intros q0 c q' E. by destruct q0. Qed.

Lemma completes_last n drop c o : cooked drop [c] = [o] -> (o =? CTRL_D) || (o =? 10) = true ->
  completes (S n) drop [c] (if o =? CTRL_D then [] else [o]) (o =? CTRL_D).
Proof.
  intros Hc Ho. split.
  - rewrite Hc. cbn [line]. destruct (o =? CTRL_D); [done|]. simpl in Ho. rewrite Ho. apply Z.eqb_eq in Ho as ->. done.
  - intros q0 x q' E. destruct q0 as [|y q0]; [done|]. by destruct q0.
Qed.

Lemma completes_cons n drop drop' c o q l e : (forall q, cooked drop (c :: q) = o :: cooked drop' q) -> o <> CTRL_D -> o <> 10 ->
  completes n drop' q l e -> completes (S n) drop (c :: q) (o :: l) e.
Proof.
  intros Hc H4%Z.eqb_neq H10%Z.eqb_neq [H1 H2]. split; [rewrite Hc; cbn [line]; by rewrite H4, H10, H1|].
  intros q0 x q' E. destruct q0 as [|y q0]; [done|]. injection E as <- ->. rewrite Hc. cbn [line]. by rewrite H4, H10, (H2 q0 x q' eq_refl).
Qed.

Lemma completes_skip n drop drop' c q l e : (forall q, cooked drop (c :: q) = cooked drop' q) ->
  completes (S n) drop' q l e -> completes (S n) drop (c :: q) l e.
Proof.
  intros Hc [H1 H2]. split; [by rewrite Hc|]. intros q0 x q' E. destruct q0 as [|y q0]; [done|]. injection E as <- ->. rewrite Hc. by apply (H2 q0 x q').
Qed.

(** What a copy to a process leaves of the rest of the kernel, and that the
    locks do not matter to it. *)
Class CopyFrame (P : Type) `{!Lens P pst} `{!EitherCopy P} `{!EitherCopyLaws P} := {
  cf_out user a bs p : outside (lget p) -> wp (ec_out user a bs) (fun _ p' => outside (lget p')) p;
  cf_buf k (p : P) user a n : ec_buf p user a n -> ec_buf (lput (lput k (lget p)) p) user a n;
  cf_mem k (p : P) user x : ec_mem (lput (lput k (lget p)) p) user x = ec_mem p user x;
}.

Lemma wp_and {S A} (m : M S A) (Q1 Q2 : A -> S -> Prop) s : wp m Q1 s -> wp m Q2 s -> wp m (fun a s => Q1 a s /\ Q2 a s) s.
Proof. unfold wp. by destruct (m s). Qed.

Section props.
Context {P : Type} {LP : Lens P pst} {LL : LensLaws P pst} `{!EitherCopy P} `{!EitherCopyLaws P} `{!CopyFrame P} {UE : UartEnv}.
Implicit Types s : ust P cons.
#[local] Notation psof := (psof (P := P) (C := cons)).

(** A terminal with input. *)
Record tty (s : ust P cons) : Prop := {
  tt_out : outside (psof s);
  tt_mode : c_mode (us_cons s) = CONSOLE_MODE_TTY;
  tt_alive : ua_panicked (us_uart s) = false;
  tt_rx : rb_ok (ua_rx (us_uart s));
}.

Lemma held_outside l s : outside (psof s) -> l ∉ held (lk_of (psof s)).
Proof. intros (_ & _ & ->). apply not_elem_of_nil. Qed.

(** One byte from the ring. *)
Lemma read1_wp me c q s (Q : reading -> ust P cons -> Prop) : outside (psof s) -> rb_ok (ua_rx (us_uart s)) -> rb_contents (ua_rx (us_uart s)) = c :: q ->
  (forall k r, lk_same (lk_of (psof s)) k -> rb_ok r -> rb_contents r = q ->
     Q (Got 1 [c]) (with_lk k (with_uart (set_ua_rx r (us_uart s)) s))) ->
  wp (uarths_read me 1) Q s.
Proof.
  intros Ho Hr Hc HQ. pose proof Ho as (Hg & _). unfold uarths_read. change (1 <=? 0) with false. cbv iota. wp_step. apply clock_wp; [by apply held_outside|].
  intros k Hk. unfold getu. wp_step. wp_step. wp_step. unfold uarths_rx_wait_data, getu. wp_step. wp_step. change (us_uart (with_lk k s)) with (us_uart s).
  assert (He : ringbuffer_empty (ua_rx (us_uart s)) = false).
  { destruct (ringbuffer_reports _ Hr) as (_ & _ & _ & He & _). destruct (ringbuffer_empty _); [|done].
    rewrite (proj1 He eq_refl) in Hc. discriminate. }
  rewrite He. simpl negb. cbv iota. wp_step. unfold uarths_read_finish. change (1 =? 1) with true. simpl negb. cbv iota.
  change (Z.to_nat 1) with 1%nat. cbn [pop_bytes]. unfold getu, setu. wp_step. wp_step. wp_step. change (us_uart (with_lk k s)) with (us_uart s).
  pose proof (pop_dequeues _ Hr) as Hp. destruct (ringbuffer_pop (ua_rx (us_uart s))) as [o r]. rewrite Hc in Hp. destruct Hp as (Hr' & -> & Hq).
  wp_step. wp_step. wp_step. wp_step. wp_step. wp_step.
  apply (cunlock_wp L_uarths_rx _ (with_uart (set_ua_rx r (us_uart s)) s) k (lk_of (psof s))); [apply Hg|by apply held_outside|done|].
  intros k' Hk'. wp_go. by apply HQ.
Qed.

(** One character of the line discipline. *)
Lemma tty_char_wp c s (Q : option Z -> ust P cons -> Prop) : tty s ->
  (forall s', printed (if (c =? CTRL_P) || (c =? 0) then s else with_cons (fst (tty_step c (us_cons s))) s) s' ->
     Q (if (c =? CTRL_P) || (c =? 0) then None else fst <$> snd (tty_step c (us_cons s))) s') ->
  wp (console_tty_char c) Q s.
Proof.
  intros [Ho Hm Hpan _] HQ. pose proof Ho as (Hg & _). unfold console_tty_char, getc, setc. wp_step. apply clock_wp; [by apply held_outside|].
  intros k Hk. wp_step. wp_step. change (us_cons (with_lk k s)) with (us_cons s). rewrite Hm. change (CONSOLE_MODE_TTY =? CONSOLE_MODE_TTY) with true. simpl negb. cbv iota.
  assert (Hpr : forall s0 k', us_p s0 = us_p s -> us_uart s0 = us_uart s -> lk_same (lk_of (psof s)) k' -> printed s0 (with_lk k' s0) /\ may_print (with_lk k' s0)).
  { intros s0 k' E1 E2 Hk'. assert (E : psof s0 = psof s) by (unfold UartProps.psof; by rewrite E1). split.
    - exists [], k', (hw_polls (us_uart s0)). split; [by rewrite E|]. rewrite app_nil_r. f_equal. by destruct s0 as [? [] ?].
    - split; [split|]; [rewrite lk_psof; eapply lk_same_ok; [exact Hk'|apply Hg]|simpl; by rewrite E2|].
      rewrite lk_psof. destruct Hk' as (_ & _ & -> & _). by apply held_outside. }
  destruct (c =? CTRL_P) eqn:E1; [|destruct (c =? 0) eqn:E2]; simpl orb in HQ; cbv iota in HQ.
  - wp_step. apply (cunlock_wp L_cons _ s k (lk_of (psof s))); [apply Hg|by apply held_outside|done|]. intros k' Hk'.
    destruct (Hpr s k' eq_refl eq_refl Hk') as [H1 H2]. wp_step. apply procdump_prints; [done|]. intros s' H3 _. wp_go. apply HQ. by etrans.
  - wp_step. apply (cunlock_wp L_cons _ s k (lk_of (psof s))); [apply Hg|by apply held_outside|done|]. intros k' Hk'.
    wp_go. apply HQ. by apply Hpr.
  - wp_step. wp_step. wp_step. set (r := tty_step c (us_cons s)) in *.
    apply (cunlock_wp L_cons _ (with_cons (fst r) s) k (lk_of (psof s))); [apply Hg|by apply held_outside|done|]. intros k' Hk'.
    destruct (Hpr (with_cons (fst r) s) k' eq_refl eq_refl Hk') as [H1 [H2 _]]. destruct (snd r) as [[c' echo]|].
    + wp_step. destruct echo; simpl when.
      * apply consputc_wp; [done|]. intros s' H3. wp_go. apply HQ. etrans; [exact H1|]. by eexists.
      * wp_go. by apply HQ.
    + wp_go. by apply HQ.
Qed.

Lemma printed_facts s s' : printed s s' -> outside (psof s) ->
  outside (psof s') /\ us_cons s' = us_cons s /\ ua_rx (us_uart s') = ua_rx (us_uart s) /\ ua_panicked (us_uart s') = ua_panicked (us_uart s) /\
  exists k, us_p s' = lput (lput k (psof s)) (us_p s).
Proof.
  intros [t Hp] Ho. split; [by eapply outside_prints|]. destruct Hp as (k & polls & _ & ->). by eauto.
Qed.

Lemma tty_step_facts c x : let r := tty_step c x in
  c_mode (fst r) = c_mode x /\ c_eof_pending (fst r) = c_eof_pending x /\ c_drop_lf_after_cr (fst r) = (c =? 13) /\
  fst <$> snd r = if c =? 13 then Some 10 else if c_drop_lf_after_cr x && (c =? 10) then None else Some c.
Proof.
  unfold tty_step. destruct (c =? 13) eqn:E1; [|destruct (c_drop_lf_after_cr x && (c =? 10)) eqn:E2]; simpl.
  - by destruct (c_esc x =? 0).
  - done.
  - destruct (c =? 27); [done|]. by destruct (c_esc x =? 0).
Qed.

(** How a read of up to [n] bytes to [dst] with [done] bytes delivered ends. *)
Record line_read (dst n done : Z) (l : list Z) (e : bool) (s : ust P cons) (r : cread) (s' : ust P cons) : Prop := {
  lr_r : r = CReturned (done + Z.of_nat (length l));
  lr_out : outside (psof s');
  lr_rest : exists q1 q2, rb_contents (ua_rx (us_uart s)) = q1 ++ q2 /\ rb_contents (ua_rx (us_uart s')) = q2 /\
    completes (Z.to_nat (n - done)) (c_drop_lf_after_cr (us_cons s)) q1 l e;
  lr_mem x : 0 <= x < n -> ec_mem (us_p s') true (dst + x) =
    if (done <=? x) && (x <? done + Z.of_nat (length l)) then byte_at l (x - done) else ec_mem (us_p s) true (dst + x);
  lr_eof : c_eof_pending (us_cons s') = e && (0 <? done + Z.of_nat (length l));
  lr_mode : c_mode (us_cons s') = CONSOLE_MODE_TTY;
}.

(** A delivered byte and the rest of the line. *)
Lemma line_read_cons dst n done c l e s s1 s2 r c0 q : 0 <= done < n -> c <> CTRL_D -> c <> 10 ->
  rb_contents (ua_rx (us_uart s)) = c0 :: q -> rb_contents (ua_rx (us_uart s1)) = q ->
  (forall q1, cooked (c_drop_lf_after_cr (us_cons s)) (c0 :: q1) = c :: cooked (c_drop_lf_after_cr (us_cons s1)) q1) ->
  (forall x, 0 <= x < n -> ec_mem (us_p s1) true (dst + x) = if x =? done then c else ec_mem (us_p s) true (dst + x)) ->
  line_read dst n (done + 1) l e s1 r s2 -> line_read dst n done (c :: l) e s r s2.
Proof.
  intros Hd H4 H10 Hq Hq1 Hck Hm [R1 R2 (q1 & q2 & R3 & R4 & R5) R6 R7 R8]. rewrite Hq1 in R3. split.
  - rewrite R1. f_equal. simpl length. lia.
  - done.
  - exists (c0 :: q1), q2. rewrite Hq, R3. split; [done|]. split; [done|].
    replace (Z.to_nat (n - done)) with (S (Z.to_nat (n - (done + 1)))) by lia. by apply (completes_cons _ _ _ _ _ _ _ _ Hck).
  - intros x Hx. rewrite R6, Hm by done. simpl length. unfold byte_at. case_ranges; try done.
    + by replace (Z.to_nat (x - done)) with (S (Z.to_nat (x - (done + 1)))) by lia.
    + by replace (Z.to_nat (x - done)) with 0%nat by lia.
  - rewrite R7. f_equal. apply eq_true_iff_eq. rewrite !Z.ltb_lt. simpl length. lia.
  - done.
Qed.

(** A byte the terminal drops. *)
Lemma line_read_skip dst n done l e s s1 s2 r c q : done < n ->
  rb_contents (ua_rx (us_uart s)) = c :: q -> rb_contents (ua_rx (us_uart s1)) = q ->
  (forall q1, cooked (c_drop_lf_after_cr (us_cons s)) (c :: q1) = cooked (c_drop_lf_after_cr (us_cons s1)) q1) ->
  (forall x, ec_mem (us_p s1) true x = ec_mem (us_p s) true x) ->
  line_read dst n done l e s1 r s2 -> line_read dst n done l e s r s2.
Proof.
  intros Hd Hq Hq1 Hck Hm [R1 R2 (q1 & q2 & R3 & R4 & R5) R6 R7 R8]. rewrite Hq1 in R3. split; [done|done| | |done|done].
  - exists (c :: q1), q2. rewrite Hq, R3. split; [done|]. split; [done|].
    replace (Z.to_nat (n - done)) with (S (Z.to_nat (n - (done + 1)))) in R5 |- * by lia. by apply (completes_skip _ _ _ _ _ _ _ Hck).
  - intros x Hx. by rewrite R6, Hm.
Qed.

(** One byte to the caller. *)
Lemma deliver_byte_wp dst n done c s (Q : bool -> ust P cons -> Prop) : outside (psof s) -> ec_buf (us_p s) true dst n -> 0 <= done < n -> 0 <= c < 256 ->
  (forall p, outside (lget p) -> ec_buf p true dst n ->
     (forall x, 0 <= x < n -> ec_mem p true (dst + x) = if x =? done then c else ec_mem (us_p s) true (dst + x)) ->
     Q true (Ust p (us_uart s) (us_cons s))) ->
  wp (up_ (ec_out true (u64 (dst + done)) [u8 c])) Q s.
Proof.
  intros Ho Hb Hd Hc HQ. apply wp_zoom. rewrite u8_small by lia.
  eapply wp_mono; [apply wp_and; [apply (ec_out_spec (us_p s) true dst n done [c]); [done|by constructor|lia|simpl; lia]|by apply (cf_out true)]|].
  intros ok p [(-> & Hb' & Hm) Ho']. apply HQ; [done|done|]. intros x Hx. rewrite Hm by done. simpl length.
  destruct (Z.eqb_spec x done) as [->|Hne].
  - rewrite Z.leb_refl. destruct (Z.ltb_spec done (done + Z.of_nat 1)); [|lia]. simpl. by rewrite Z.sub_diag.
  - by case_ranges.
Qed.

(** The end of a line: a newline, or an end of file. *)
Lemma line_read_newline dst n done s s' c q : 0 <= done < n -> outside (psof s') ->
  rb_contents (ua_rx (us_uart s)) = c :: q -> rb_contents (ua_rx (us_uart s')) = q ->
  cooked (c_drop_lf_after_cr (us_cons s)) [c] = [10] ->
  (forall x, 0 <= x < n -> ec_mem (us_p s') true (dst + x) = if x =? done then 10 else ec_mem (us_p s) true (dst + x)) ->
  c_eof_pending (us_cons s') = false -> c_mode (us_cons s') = CONSOLE_MODE_TTY ->
  line_read dst n done [10] false s (CReturned (done + 1)) s'.
Proof.
  intros Hd Ho Hq Hq' Hck Hm He Hmode. split; [done|done| | |done|done].
  - exists [c], q. rewrite Hq. split; [done|]. split; [done|]. replace (Z.to_nat (n - done)) with (S (Z.to_nat (n - done - 1))) by lia.
    by apply (completes_last _ _ c _ Hck).
  - intros x Hx. rewrite Hm by done. simpl length. unfold byte_at. case_ranges; try done.
    by replace (Z.to_nat (x - done)) with 0%nat by lia.
Qed.

Lemma line_read_eof dst n done s s' c q : 0 <= done < n -> outside (psof s') ->
  rb_contents (ua_rx (us_uart s)) = c :: q -> rb_contents (ua_rx (us_uart s')) = q ->
  cooked (c_drop_lf_after_cr (us_cons s)) [c] = [CTRL_D] ->
  (forall x, ec_mem (us_p s') true x = ec_mem (us_p s) true x) ->
  c_eof_pending (us_cons s') = (0 <? done) -> c_mode (us_cons s') = CONSOLE_MODE_TTY ->
  line_read dst n done [] true s (CReturned done) s'.
Proof.
  intros Hd Ho Hq Hq' Hck Hm He Hmode. split; [by rewrite Z.add_0_r|done| | |by rewrite Z.add_0_r|done].
  - exists [c], q. rewrite Hq. split; [done|]. split; [done|]. replace (Z.to_nat (n - done)) with (S (Z.to_nat (n - done - 1))) by lia.
    by apply (completes_last _ _ c _ Hck).
  - intros x Hx. rewrite Hm. simpl length. by case_ranges.
Qed.

(** The state behind one character. *)
Lemma char_state x s1 s2 dst n : printed (with_cons x s1) s2 -> tty s1 -> c_mode x = CONSOLE_MODE_TTY -> ec_buf (us_p s1) true dst n ->
  tty s2 /\ us_cons s2 = x /\ ua_rx (us_uart s2) = ua_rx (us_uart s1) /\ ec_buf (us_p s2) true dst n /\
  (forall y, ec_mem (us_p s2) true y = ec_mem (us_p s1) true y).
Proof.
  intros H [T1 T2 T3 T4] Hx Hb. destruct (printed_facts _ _ H T1) as (F1 & F2 & F3 & F4 & k & F5). simpl in *.
  split; [|split; [done|split; [done|]]].
  - split; [done|by rewrite F2|by rewrite F4|by rewrite F3].
  - rewrite F5. split; [by apply cf_buf|intros y; apply cf_mem].
Qed.

(** The terminal's answer to an end of file. *)
Lemma set_eof_wp s done (Q : unit -> ust P cons -> Prop) : outside (psof s) -> c_eof_pending (us_cons s) = false ->
  (forall s', outside (psof s') -> ua_rx (us_uart s') = ua_rx (us_uart s) -> (forall x, ec_mem (us_p s') true x = ec_mem (us_p s) true x) ->
     c_eof_pending (us_cons s') = (0 <? done) -> c_mode (us_cons s') = c_mode (us_cons s) -> Q tt s') ->
  wp (when (0 <? done) (lock_ L_cons ;; setc (set_c_eof true) ;; unlock_ L_cons)) Q s.
Proof.
  intros Ho He HQ. pose proof Ho as (Hg & _). destruct (0 <? done) eqn:Ed; simpl when; [|wp_go; by apply HQ].
  wp_step. apply clock_wp; [by apply held_outside|]. intros k Hk. unfold setc. wp_step. wp_step.
  apply (cunlock_wp L_cons _ (with_cons (set_c_eof true (us_cons s)) s) k (lk_of (psof s))); [apply Hg|by apply held_outside|done|].
  intros k' Hk'. apply HQ; [|done|intros x; apply cf_mem|done|done].
  by apply (outside_lk k' (with_cons (set_c_eof true (us_cons s)) s)).
Qed.

(** A character that reaches the caller; [K] reads the rest of the line. *)
Lemma tty_output_wp (K : Z -> M (ust P cons) cread) dst n dn o c q l e s s2 : 0 <= dn < n -> 0 <= o < 256 -> tty s2 -> ec_buf (us_p s2) true dst n ->
  rb_contents (ua_rx (us_uart s)) = c :: q -> rb_contents (ua_rx (us_uart s2)) = q -> c_eof_pending (us_cons s2) = false ->
  (forall x, ec_mem (us_p s2) true x = ec_mem (us_p s) true x) ->
  (forall q1, cooked (c_drop_lf_after_cr (us_cons s)) (c :: q1) = o :: cooked (c_drop_lf_after_cr (us_cons s2)) q1) ->
  line (S (Z.to_nat (n - (dn + 1)))) (o :: cooked (c_drop_lf_after_cr (us_cons s2)) q) = Some (l, e) ->
  (forall s3 l' e', tty s3 -> rb_contents (ua_rx (us_uart s3)) = q -> ec_buf (us_p s3) true dst n -> c_eof_pending (us_cons s3) = false ->
     line (Z.to_nat (n - (dn + 1))) (cooked (c_drop_lf_after_cr (us_cons s3)) q) = Some (l', e') -> wp (K (dn + 1)) (line_read dst n (dn + 1) l' e' s3) s3) ->
  wp (tty_output true dst dn o) (fun y s' => match y with inl x => wp (K x) (line_read dst n dn l e s) s' | inr r => line_read dst n dn l e s r s' end) s2.
Proof.
  intros Hd Ho T2 B2 Hq Hrx He2 HM Hck Hl IH. cbn [line] in Hl. unfold tty_output. destruct (o =? CTRL_D) eqn:E4; [|destruct (o =? 10) eqn:E10].
  - injection Hl as <- <-. apply Z.eqb_eq in E4. wp_step. apply set_eof_wp; [apply T2|done|]. intros s3 O3 R3 M3 E3 D3. wp_go.
    apply (line_read_eof dst n dn s s3 c q); [lia|done|done|by rewrite R3|by rewrite Hck, E4|intros x; by rewrite M3|done|rewrite D3; apply T2].
  - injection Hl as <- <-. apply Z.eqb_eq in E10. wp_step. rewrite E10.
    apply (deliver_byte_wp dst n dn 10 s2); [apply T2|done|lia|lia|]. intros p Hp Hbp Hmp. simpl negb. cbv iota. wp_go.
    apply (line_read_newline dst n dn s _ c q); [lia|done|done|done|by rewrite Hck, E10| |done|apply T2].
    intros x Hx. simpl us_p. by rewrite Hmp, HM.
  - destruct (line (Z.to_nat (n - (dn + 1))) _) as [[l' e']|] eqn:Hl'; [|discriminate]. injection Hl as <- <-.
    wp_step. apply (deliver_byte_wp dst n dn o s2); [apply T2|done|lia|lia|]. intros p Hp Hbp Hmp. simpl negb. cbv iota. wp_go.
    set (s3 := Ust p _ _). eapply wp_mono; [apply (IH s3 l' e'); try done; split; [exact Hp|apply T2|apply T2|apply T2]|].
    intros z s' Hz. apply (line_read_cons dst n dn o l' e' s s3 s' z c q); [lia|by apply Z.eqb_neq|by apply Z.eqb_neq|done|done|done| |exact Hz].
    intros x Hx. simpl us_p. by rewrite Hmp, HM.
Qed.

Lemma tty_loop_wp me dst n q : bytes q -> forall fuel s dn l e, (length q + 1 < fuel)%nat -> tty s -> rb_contents (ua_rx (us_uart s)) = q ->
  ec_buf (us_p s) true dst n -> 0 <= dn <= n -> c_eof_pending (us_cons s) = false ->
  line (Z.to_nat (n - dn)) (cooked (c_drop_lf_after_cr (us_cons s)) q) = Some (l, e) ->
  wp (loop fuel (tty_body me true dst n) dn) (fun r s' => line_read dst n dn l e s r s') s.
Proof.
  induction q as [|c q IH]; intros Hbq fuel s dn l e Hf Ht Hq Hb Hd He Hl; (destruct fuel as [|fuel]; [lia|]); apply wp_loop_S;
    unfold tty_body at 1; (destruct (Z.ltb_spec dn n) as [Hlt|Hge];
      [|wp_go; replace (Z.to_nat (n - dn)) with 0%nat in Hl by lia; injection Hl as <- <-; split;
        [simpl length; by rewrite Z.add_0_r|apply Ht|exists [], (rb_contents (ua_rx (us_uart s))); split; [done|]; split; [done|]; replace (Z.to_nat (n - dn)) with 0%nat by lia; apply completes_none|
         intros x Hx; simpl length; case_ranges; done|done|apply Ht]]).
  - replace (Z.to_nat (n - dn)) with (S (Z.to_nat (n - dn - 1))) in Hl by lia. discriminate Hl.
  - unfold bytes in Hbq. apply Forall_cons in Hbq as [Hc Hbq]. specialize (IH Hbq). simpl in Hf. wp_step.
    apply (read1_wp me c q); [apply Ht|apply Ht|done|]. intros k r Hk Hr Hrq. set (s1 := with_lk k _). unfold tty_got. change (1 <=? 0) with false. cbv iota.
    assert (Ht1 : tty s1) by (split; [apply (outside_lk k (with_uart (set_ua_rx r (us_uart s)) s)); [exact Hk|apply Ht]|apply Ht|apply Ht|exact Hr]).
    assert (Hm1 : forall x, ec_mem (us_p s1) true x = ec_mem (us_p s) true x) by (intros x; apply cf_mem).
    assert (Hb1 : ec_buf (us_p s1) true dst n) by by apply cf_buf.
    wp_step. apply tty_char_wp; [done|]. intros s2 H2. simpl hd in *. change (us_cons s1) with (us_cons s) in *.
    destruct (tty_step_facts c (us_cons s)) as (F1 & F2 & F3 & F4).
    set (d := c_drop_lf_after_cr (us_cons s)) in *.
    replace (Z.to_nat (n - dn)) with (S (Z.to_nat (n - (dn + 1)))) in Hl by lia.
    destruct ((c =? CTRL_P) || (c =? 0)) eqn:Ez.
    { (* dropped at once *)
      destruct (char_state (us_cons s) s1 s2 dst n) as (T2 & C2 & R2 & B2 & M2); [by destruct s|done|apply Ht|done|].
      wp_go. eapply wp_mono; [apply (IH fuel s2 dn l e); try done; [lia|by rewrite R2|by rewrite C2|]|].
      - rewrite C2. replace (Z.to_nat (n - dn)) with (S (Z.to_nat (n - (dn + 1)))) by lia. rewrite <- Hl. cbn [cooked]. by rewrite Ez.
      - intros z s' Hz. apply (line_read_skip dst n dn l e s s2 s' z c q); [lia|done|by rewrite R2| | |done].
        + intros q1. cbn [cooked]. rewrite Ez. by rewrite C2.
        + intros x. by rewrite M2, Hm1. }
    destruct (char_state (fst (tty_step c (us_cons s))) s1 s2 dst n) as (T2 & C2 & R2 & B2 & M2); [done|done|rewrite F1; apply Ht|done|].
    rewrite F4. assert (Hrx : rb_contents (ua_rx (us_uart s2)) = q) by by rewrite R2.
    assert (He2 : c_eof_pending (us_cons s2) = false) by by rewrite C2, F2.
    assert (HM : forall x, ec_mem (us_p s2) true x = ec_mem (us_p s) true x) by (intros x; by rewrite M2, Hm1).
    assert (Hd2 : c_drop_lf_after_cr (us_cons s2) = (c =? 13)) by by rewrite C2, F3.
    destruct (d && (c =? 10) && negb (c =? 13)) eqn:Edrop.
    { (* the newline behind a carriage return *)
      assert (Hdc : d = true /\ c = 10) by (destruct d; [|done]; split; [done|]; destruct (Z.eqb_spec c 10); [done|]; discriminate).
      destruct Hdc as [Hdt ->]. change (10 =? 13) with false in *. rewrite Hdt in Hl |- *. cbn in Hl |- *.
      wp_go. eapply wp_mono; [apply (IH fuel s2 dn l e); try done; [lia|]|].
      - rewrite Hd2. replace (Z.to_nat (n - dn)) with (S (Z.to_nat (n - (dn + 1)))) by lia. exact Hl.
      - intros z s' Hz. apply (line_read_skip dst n dn l e s s2 s' z 10 q); [lia|done|done| |done|done].
        intros q1. fold d. rewrite Hdt, Hd2. done. }
    set (o := if c =? 13 then 10 else c).
    assert (Ho : (if c =? 13 then Some 10 else if d && (c =? 10) then None else Some c) = Some o).
    { unfold o. destruct (c =? 13); [done|]. destruct (d && (c =? 10)); [discriminate|done]. }
    rewrite Ho.
    assert (Hck : forall q1, cooked d (c :: q1) = o :: cooked (c =? 13) q1).
    { intros q1. cbn [cooked]. rewrite Ez. unfold o. destruct (c =? 13); [done|]. by destruct (d && (c =? 10)). }
    apply (tty_output_wp (loop fuel (tty_body me true dst n)) dst n dn o c q l e s s2); try done; [lia|unfold o; destruct (c =? 13); lia|by rewrite Hd2|by rewrite Hd2, <- Hck|].
    intros s3 l' e' T3 R3 B3 E3 L3. apply IH; try done; lia.
Qed.
Lemma tty_lk k s : lk_same (lk_of (psof s)) k -> tty s -> tty (with_lk k s).
Proof. intros Hk [T1 T2 T3 T4]. split; [by apply outside_lk|done|done|done]. Qed.

(** The mode is read under the console's lock. *)
Lemma mode_get_wp s (Q : Z -> ust P cons -> Prop) : outside (psof s) -> c_mode (us_cons s) = CONSOLE_MODE_TTY -> (forall k, lk_same (lk_of (psof s)) k -> Q CONSOLE_MODE_TTY (with_lk k s)) -> wp console_mode_get Q s.
Proof.
  intros Ho Hm HQ. pose proof Ho as (Hg & _). unfold console_mode_get, getc. wp_step. apply clock_wp; [by apply held_outside|].
  intros k Hk. wp_step. wp_step. wp_step. apply (cunlock_wp L_cons _ s k (lk_of (psof s))); [apply Hg|by apply held_outside|done|].
  intros k' Hk'. wp_go. simpl us_cons. rewrite Hm. by apply HQ.
Qed.

(** The pending end of file is looked at first. *)
Lemma tty_read_wp me dst n s (Q : cread -> ust P cons -> Prop) : outside (psof s) ->
  (forall k, lk_same (lk_of (psof s)) k ->
     if c_eof_pending (us_cons s) then Q (CReturned 0) (with_lk k (with_cons (set_c_eof false (us_cons s)) s))
     else wp (tty_loop me true dst n 0) Q (with_lk k s)) ->
  wp (console_tty_read me true dst n) Q s.
Proof.
  intros Ho HQ. pose proof Ho as (Hg & _). unfold console_tty_read, getc, setc. wp_step. apply clock_wp; [by apply held_outside|].
  intros k Hk. wp_step. wp_step. simpl us_cons. destruct (c_eof_pending (us_cons s)).
  - wp_step. wp_step. wp_step. apply (cunlock_wp L_cons _ (with_cons (set_c_eof false (us_cons s)) s) k (lk_of (psof s))); [apply Hg|by apply held_outside|done|].
    intros k' Hk'. wp_go. by apply HQ.
  - wp_step. apply (cunlock_wp L_cons _ s k (lk_of (psof s))); [apply Hg|by apply held_outside|done|]. intros k' Hk'. by apply HQ.
Qed.

Lemma line_read_lk k dst n done l e s r s' : line_read dst n done l e (with_lk k s) r s' -> line_read dst n done l e s r s'.
Proof. intros [R1 R2 R3 R4 R5 R6]. split; [done|done|done| |done|done]. intros x Hx. rewrite R4 by done. case_ranges. apply cf_mem. Qed.

(** C19: Reading a line from the terminal.  When the queued input holds a
    complete line for a read of [n] bytes (it reaches a newline, an end of file
    or [n] characters behind the terminal's translation), the read does not
    sleep, returns the number of its characters, stores exactly them at [dst]
    and nothing in the rest of the buffer, takes from the input the shortest
    part that completes the line, keeps every byte behind it queued, and leaves an end of file for the next read exactly when
    it cut a line that was not empty; the read behind it then returns 0. *)
Theorem consoleread_delivers_line me dst n l e s : tty s -> bytes (rb_contents (ua_rx (us_uart s))) -> ec_buf (us_p s) true dst n -> 0 < n ->
  c_eof_pending (us_cons s) = false -> line (Z.to_nat n) (cooked (c_drop_lf_after_cr (us_cons s)) (rb_contents (ua_rx (us_uart s)))) = Some (l, e) ->
  exists s' q1 q2, consoleread me dst n s = Ok (CReturned (Z.of_nat (length l))) s' /\ outside (psof s') /\
    rb_contents (ua_rx (us_uart s)) = q1 ++ q2 /\ rb_contents (ua_rx (us_uart s')) = q2 /\
    completes (Z.to_nat n) (c_drop_lf_after_cr (us_cons s)) q1 l e /\
    (forall x, 0 <= x < n -> ec_mem (us_p s') true (dst + x) = if x <? Z.of_nat (length l) then byte_at l x else ec_mem (us_p s) true (dst + x)) /\
    c_eof_pending (us_cons s') = e && (0 <? Z.of_nat (length l)) /\
    (c_eof_pending (us_cons s') = true -> forall me' dst' n', 0 < n' -> exists s'', consoleread me' dst' n' s' = Ok (CReturned 0) s'').
Proof.
  intros Ht Hby Hb Hn He Hl.
  assert (Hread : wp (consoleread me dst n) (fun r s' => line_read dst n 0 l e s r s') s).
  { unfold consoleread. destruct (Z.leb_spec n 0); [lia|]. wp_step. apply mode_get_wp; [apply Ht|apply Ht|]. intros k Hk.
    change (CONSOLE_MODE_TTY =? CONSOLE_MODE_RAW) with false. cbv iota. apply tty_read_wp; [by apply tty_lk|]. intros k' Hk'. simpl us_cons. rewrite He.
    eapply wp_mono; [|intros r s' Hr; apply (line_read_lk k), (line_read_lk k'), Hr]. unfold tty_loop, getu. wp_step. wp_step. simpl us_uart.
    assert (Hu : ringbuffer_used (ua_rx (us_uart s)) = Z.of_nat (length (rb_contents (ua_rx (us_uart s))))) by apply (ringbuffer_reports _ (tt_rx s Ht)).
    apply (tty_loop_wp me dst n (rb_contents (ua_rx (us_uart s)))); [done|rewrite Hu; lia|by apply tty_lk, tty_lk|done|by apply cf_buf, cf_buf|lia|done|by rewrite Z.sub_0_r]. }
  destruct (wp_Ok _ _ _ Hread) as (r & s' & E & [R1 R2 (q1 & q2 & R3 & R4 & R5) R6 R7 R8]). rewrite R1 in E. rewrite Z.sub_0_r in R5.
  exists s', q1, q2. split; [exact E|]. split; [done|]. split; [done|]. split; [done|]. split; [done|]. split; [|split; [done|]].
  - intros x Hx. rewrite R6 by done. rewrite Z.sub_0_r. simpl. by destruct (Z.leb_spec 0 x); [|lia].
  - intros He' me' dst' n' Hn'.
    assert (Hz : wp (consoleread me' dst' n') (fun r _ => r = CReturned 0) s').
    { unfold consoleread. destruct (Z.leb_spec n' 0); [lia|]. wp_step. apply mode_get_wp; [done|done|]. intros k Hk.
      change (CONSOLE_MODE_TTY =? CONSOLE_MODE_RAW) with false. cbv iota. apply tty_read_wp; [by apply outside_lk|]. intros k' Hk'. simpl us_cons. by rewrite He'. }
    destruct (wp_Ok _ _ _ Hz) as (r' & s'' & E' & ->). by exists s''.
Qed.
End props.
