(* ===== verification/ConsoleDemo.v ===== *)
(** * A console with input

    Two processes, each the leader of its group, share a terminal; the
    memory of the reader is a function from addresses to bytes.  The theorems
    on the UART and the console hold here. *)

From S2P Require Import Prelude Riscv Memory Spinlock Kalloc Vm VmTree VmUnmap VmCheck VmProps Proctab Signal Sched SchedProps Pipe PipeProps Ringbuffer Printf Uart UartProps Bio BioProps Fat32 FatDisk FatChain FatClus FatFile FatName FatDir FatDemo Console ConsoleProps ConsoleTty.
Import Hart.

Module ConsoleDemo.
Import FatDemo.

Definition P : Type := pst * mem.
#[export] Instance p_lens : Lens P pst := {| lget := fst; lput t s := (t, snd s) |}.
#[export] Instance p_laws : LensLaws P pst.
Proof. split; [done| |done]. by intros []. Qed.

#[export] Instance p_copy : EitherCopy P := {|
  ec_out user a bs := fun s => match ec_out (S := mem) user a bs (snd s) with Ok r m => Ok r (fst s, m) | Panic w m => Panic w (fst s, m) | Spin => Spin end;
  ec_in user a n := fun s => match ec_in (S := mem) user a n (snd s) with Ok r m => Ok r (fst s, m) | Panic w m => Panic w (fst s, m) | Spin => Spin end;
|}.

#[export] Instance p_copy_laws : EitherCopyLaws P.
Proof.
  refine {| ec_mem s user x := snd s x; ec_buf s := mem_buf (snd s) |}.
  - intros s. apply (mem_out_spec (snd s)).
  - intros s. apply (mem_in_spec (snd s)).
  - intros s. apply (mem_byte (snd s)).
Defined.
#[export] Instance p_frame : CopyFrame P.
Proof. split; [|done|done]. by intros user a bs [p m]. Qed.

#[export] Instance demo_env : UartEnv := {| rx_ring := 100; tx_ring := 200; cpu_freq := 390000000 |}.

(** Slot 1 is the shell (group 5), slot 2 runs in the foreground (group 7). *)
Definition table : list proc :=
  [zero_proc; set_p_pgid 5 (set_p_state SLEEPING zero_proc); set_p_pgid 7 (set_p_state RUNNABLE zero_proc)] ++ replicate 61 zero_proc.
Definition procs0 : pst := Pst (boot_state ∅ 0) table [Cpu (Some 1) false; Cpu None false] (Some 0) 8 [0; 0; 0; 0] 0 0 0.

(** Eight slots, of which the last ones and the first are in use. *)
Definition rx0 : ringbuffer := Ringbuffer [13; 10; 120; 0; 0; 0; 104; 105] 7 6 3.
Definition uart0 : uart := Uart rx0 0 0 true (Ringbuffer (replicate 8 0) 7 0 0) 115200 false [97; 3; 98] [] [] true false 0.
Definition cons0 : cons := Cons CONSOLE_MODE_TTY 0 false false 7 5 0 true.
Definition s0 : ust P cons := Ust (procs0, mem0) uart0 cons0.

Lemma outside0 : outside (psof s0).
Proof.
  split; [|by split]. split; [split_and!; [done|done|constructor]|intros i; apply not_elem_of_nil|reflexivity].
Qed.
Lemma rx0_ok : rb_ok rx0.
Proof. split; simpl; lia. Qed.
Lemma tx0_ok : tx_ok uart0.
Proof. split; [split; simpl; lia|]. constructor. Qed.
Lemma bytes_bool l : forallb (fun b => (0 <=? b) && (b <? 256)) l = true -> bytes l.
Proof. rewrite forallb_forall. intros H. apply Forall_forall. intros x Hx. specialize (H x (proj1 (list_elem_of_In _ _) Hx)). breflect. lia. Qed.

Lemma uarths_write_in_order_witness : exists s', uarths_write 2 [72; 105] s0 = Ok (Returned 2) s' /\ hw_sent (us_uart s') = [72; 105].
Proof.
  assert (Hme : 0 <= 2 < NPROC) by (unfold NPROC; lia).
  destruct (uarths_write_in_order 2 [72; 105] s0 Hme (bytes_bool [72; 105] eq_refl) tx0_ok outside0 eq_refl) as (r & s' & j & E & _ & _ & _ & _ & _ & _ & H & _).
  destruct (H (conj eq_refl eq_refl)) as [-> Hs]. exists s'. split; [exact E|exact Hs].
Defined.

Lemma ctrl_c_interrupts_foreground_witness : exists s1 s2, uarths_dw_isr s0 = Ok tt s1 /\ console_dispatch_events s1 = Ok tt s2 /\
  ps_procs (fst (us_p s2)) = signalled 7 SIGINT <$> ps_procs (fst (us_p s1)) /\ (p_pgid <$> ps_procs (fst (us_p s1))) = (p_pgid <$> table) /\
  hw_sent (us_uart s2) = hw_sent (us_uart s1) ++ caret_C.
Proof.
  assert (Hd : 0 <= 0 < 2 ^ 32) by lia. assert (Hf : 0 < 7) by lia. assert (Hin : CTRL_C ∈ [97; 3; 98]) by (right; left).
  destruct (ctrl_c_interrupts_foreground s0 outside0 tx0_ok rx0_ok (bytes_bool [97; 3; 98] eq_refl) Hd eq_refl eq_refl eq_refl Hf (Z.le_refl 0) Hin)
    as (s1 & s2 & u & E1 & E2 & _ & _ & _ & H1 & _ & H2 & H3).
  exists s1, s2. split; [exact E1|]. split; [exact E2|]. split; [exact H2|]. split; [exact H3|exact H1].
Defined.

Lemma foreground_belongs_to_owner_witness :
  (exists s', console_set_foreground_pgrp 2 0 s0 = Ok (-1) s' /\ us_cons s' = cons0) /\
  (exists s', console_set_foreground_pgrp 2 7 (Ust (procs0, mem0) uart0 (Cons CONSOLE_MODE_TTY 0 false false 0 6 0 true)) = Ok 0 s' /\
     us_cons s' = Cons CONSOLE_MODE_TTY 0 false false 7 7 0 true).
Proof.
  split.
  - destruct (proj1 (foreground_belongs_to_owner 2 0 s0 outside0) eq_refl ltac:(discriminate) ltac:(discriminate)) as (s' & E & H & _). exists s'. split; [exact E|exact H].
  - destruct (proj2 (foreground_belongs_to_owner 2 7 (Ust (procs0, mem0) uart0 (Cons CONSOLE_MODE_TTY 0 false false 0 6 0 true)) outside0) eq_refl eq_refl)
      as (s' & E & H & _). exists s'. split; [exact E|exact H].
Defined.

(** The queue holds "hi", a carriage return and a newline, and an x. *)
Lemma consoleread_delivers_line_witness : exists s' q1 q2, consoleread 2 4096 100 s0 = Ok (CReturned 3) s' /\
  [104; 105; 13; 10; 120] = q1 ++ q2 /\ rb_contents (ua_rx (us_uart s')) = q2 /\ snd (us_p s') 4098 = 10.
Proof.
  assert (Hb : ec_buf (us_p s0) true 4096 100) by (split_and!; [lia|lia|]; intros x; apply Z.mod_pos_bound; lia).
  assert (Ht : tty s0) by (split; [exact outside0|reflexivity|reflexivity|exact rx0_ok]). assert (Hn : 0 < 100) by lia.
  destruct (consoleread_delivers_line 2 4096 100 [104; 105; 10] false s0 Ht (bytes_bool [104; 105; 13; 10; 120] eq_refl) Hb Hn eq_refl eq_refl)
    as (s' & q1 & q2 & E & _ & H1 & H2 & _ & H3 & _).
  exists s', q1, q2. split; [exact E|]. split; [exact H1|]. split; [exact H2|]. assert (H : 0 <= 2 < 100) by lia. exact (H3 2 H).
Defined.
End ConsoleDemo.
