(* ===== verification/Mmap.v ===== *)
(** * Memory mappings (src/kernel/vm/mmap/)

    The VMA table of a process (mmap.c) and the objects behind it: files
    (mmap_file.c), anonymous memory (mmap_anon.c) and kernel buffers of
    devices (mmap_kbuf.c).  Objects are records in a map keyed by the address
    [kmalloc] gave them; the linked lists of pages inside an object are lists.
    The file layer is the interface [FileOps].

    The first part is pure: operations on the table of sixteen areas. *)

From S2P Require Import Prelude Riscv Memory Spinlock Kalloc Kmalloc Vm Proctab.
Import Hart.

Definition MMAP_TOP : Z := USER_STACK_BOTTOM.
Definition MAP_FAILED : Z := 2 ^ 64 - 1.
Definition PROT_READ : Z := 1.
Definition PROT_WRITE : Z := 2.
Definition PROT_EXEC : Z := 4.
Definition MAP_SHARED : Z := 1.
Definition MAP_PRIVATE : Z := 2.
Definition MAP_ANONYMOUS : Z := 0x20.
Definition VM_FAULT_READ : Z := 0.
Definition VM_FAULT_WRITE : Z := 1.
Definition VM_FAULT_EXEC : Z := 2.
Definition VM_FAULT_RESOLVED : Z := 0.
Definition VM_FAULT_INVALID : Z := -1.
Definition VM_FAULT_NOMEM : Z := -2.
Definition VM_FAULT_BACKING : Z := -3.

(** ** The table of areas *)

(** Index of the first slot satisfying a test. *)
Fixpoint find_vma (f : vma_area -> bool) (l : list vma_area) (i : nat) : option nat :=
  match l with
  | [] => None
  | v :: l' => if f v then Some i else find_vma f l' (S i)
  end.

Definition vma_find_free (vmas : list vma_area) : option nat := find_vma (fun v => negb (vm_used v)) vmas 0.

Definition vma_covers (va : Z) (v : vma_area) : bool := vm_used v && (vm_start v <=? va) && (va <? vm_end v).
Definition mmap_vma_find (vmas : list vma_area) (va : Z) : option nat := find_vma (vma_covers va) vmas 0.

Definition vma_overlaps (start stop : Z) (v : vma_area) : bool :=
  vm_used v && (start <? vm_end v) && (vm_start v <? stop).

(** The inner loop of [vma_find_address]: the overlapping area with the
    highest start, the first of them on a tie. *)
Fixpoint highest_overlap (start stop : Z) (l : list vma_area) (best : option vma_area) : option vma_area :=
  match l with
  | [] => best
  | v :: l' =>
      highest_overlap start stop l'
        (if vma_overlaps start stop v &&
            match best with None => true | Some b => vm_start b <? vm_start v end
         then Some v else best)
  end.

(** [while (length <= top - bottom)]; each round lowers [top] to the start of
    another area. *)
Fixpoint find_address_loop (fuel : nat) (vmas : list vma_area) (length bottom top : Z) : option Z :=
  match fuel with
  | O => None
  | S n =>
      if length <=? u64 (top - bottom) then
        let start := u64 (top - length) in
        match highest_overlap start top vmas None with
        | None => Some start
        | Some v => find_address_loop n vmas length bottom (vm_start v)
        end
      else Some 0
  end.
Definition vma_find_address (vmas : list vma_area) (sz length : Z) : option Z :=
  let bottom := PGROUNDUP sz in
  let top := MMAP_TOP in
  if (bottom <? sz) || (top <? bottom) then Some 0
  else find_address_loop (S (S (List.length vmas))) vmas length bottom top.

Definition vma_heap_limit (vmas : list vma_area) : Z :=
  fold_left (fun limit v => if vm_used v && (vm_start v <? limit) then vm_start v else limit) vmas MMAP_TOP.

(** [mmap_map_create]: the new table and the start address, or [None] for
    [MAP_FAILED]. *)
Definition mmap_map_create (vmas : list vma_area) (sz addr length prot flags : Z) (type : vma_type)
    (object : Z) (ops : option vma_ops) (offset : Z) : option (list vma_area * Z) :=
  if negb (addr =? 0) || (length =? 0) || (MMAP_TOP <? length) then None
  else if negb (Z.land prot (Z.lnot (Z.lor (Z.lor PROT_READ PROT_WRITE) PROT_EXEC)) =? 0) then None
  else if has prot PROT_WRITE && negb (has prot PROT_READ) then None
  else
    let sharing := Z.land flags (Z.lor MAP_PRIVATE MAP_SHARED) in
    if negb (sharing =? MAP_PRIVATE) && negb (sharing =? MAP_SHARED) then None
    else
      let map_length := PGROUNDUP length in
      if map_length <? length then None
      else
        match vma_find_free vmas with
        | None => None
        | Some slot =>
            match vma_find_address vmas sz map_length with
            | None => None
            | Some start =>
                if start =? 0 then None
                else if u64 (start + length) <? start then None
                else Some (<[slot := VmaArea true type start (start + map_length) (start + length) offset
                                       prot flags 0 object ops]> vmas, start)
            end
        end.

Definition mmap_access_allowed (v : vma_area) (access : Z) : bool :=
  if access =? VM_FAULT_READ then has (vm_prot v) PROT_READ
  else if access =? VM_FAULT_WRITE then has (vm_prot v) PROT_WRITE
  else if access =? VM_FAULT_EXEC then has (vm_prot v) PROT_EXEC
  else false.

(** What [vma_unmap] does to one overlapping area: the area left in its slot
    (unused when nothing is left) and the tail that needs a slot of its own. *)
Definition vma_cut (addr stop : Z) (old : vma_area) : vma_area * option vma_area :=
  let start := if vm_start old <? addr then addr else vm_start old in
  let finish := if stop <? vm_end old then stop else vm_end old in
  let trim_end v := set_vm_valid_end (if start <? vm_valid_end v then start else vm_valid_end v) (set_vm_end start v) in
  let tail := set_vm_offset (u64 (vm_offset old + (finish - vm_start old))) (set_vm_start finish old) in
  if (start =? vm_start old) && (finish =? vm_end old) then (zero_vma, None)
  else if start =? vm_start old then (tail, None)
  else if finish =? vm_end old then (trim_end old, None)
  else (trim_end old, Some tail).

(** ** Objects *)

Record anon_object := AnonObject {
  an_addr : Z;
  an_pages : list (Z * Z * Z);   (** node address, index, physical page *)
}.
Record kbuf := Kbuf {
  kb_addr : Z;
  kb_refcnt : Z;
  kb_npages : Z;
  kb_pages : list (Z * Z);       (** node address, page *)
}.
Record mmap_object := MmapObject {
  mo_refcnt : Z;
  mo_type : vma_type;
  mo_file : Z;
  mo_anon : option anon_object;
  mo_kbuf : option kbuf;
}.
#[export] Instance mmap_object_inhabited : Inhabited mmap_object := populate (MmapObject 0 VMA_FILE 0 None None).

Record mst := Mst { ms_ps : pst; ms_objs : gmap Z mmap_object }.
#[export] Instance mst_ps : Lens mst pst := {| lget := ms_ps; lput p s := Mst p (ms_objs s) |}.
#[export] Instance mst_k : Lens mst kst :=
  {| lget s := ps_k (ms_ps s); lput k s := Mst (set_ps_k k (ms_ps s)) (ms_objs s) |}.
#[export] Instance mst_lk : Lens mst lkst :=
  {| lget s := k_lk (ps_k (ms_ps s));
     lput l s := Mst (set_ps_k (set_lk l (ps_k (ms_ps s))) (ms_ps s)) (ms_objs s) |}.

#[export] Instance mst_self : Lens mst mst := {| lget s := s; lput t _ := t |}.
Definition obj_at (s : mst) (o : Z) : mmap_object := default inhabitant (ms_objs s !! o).

Definition set_refs (n : Z) (o : mmap_object) : mmap_object :=
  MmapObject n (mo_type o) (mo_file o) (mo_anon o) (mo_kbuf o).
Definition set_file (f : Z) (o : mmap_object) : mmap_object :=
  MmapObject (mo_refcnt o) (mo_type o) f (mo_anon o) (mo_kbuf o).
Definition set_anon (a : option anon_object) (o : mmap_object) : mmap_object :=
  MmapObject (mo_refcnt o) (mo_type o) (mo_file o) a (mo_kbuf o).
Definition set_kbuf (k : option kbuf) (o : mmap_object) : mmap_object :=
  MmapObject (mo_refcnt o) (mo_type o) (mo_file o) (mo_anon o) k.

Definition uspace_of (p : proc) : uspace := USpace (p_pagetable p) (p_kpagetable p).

(** The operations run in any state [St] with an [mst] inside: in [mst] itself,
    or in the state of the whole kernel, where the files are. *)
Section state.
Context {St : Type} {LS : Lens St mst}.

Definition ms_ {A} (m : M mst A) : M St A := zoom m.
Definition k_ {A} (m : M kst A) : M St A := ms_ (zoom m).
Definition p_ {A} (m : M pst A) : M St A := ms_ (zoom m).
Definition mlk_ {A} (m : M lkst A) : M St A := ms_ (zoom m).
Definition geto (o : Z) : M St mmap_object := ms_ (gets (fun s => obj_at s o)).
Definition seto (o : Z) (f : mmap_object -> mmap_object) : M St unit :=
  ms_ (modify (fun s => Mst (ms_ps s) (<[o := f (obj_at s o)]> (ms_objs s)))).
Definition del_obj (o : Z) : M St unit := ms_ (modify (fun s => Mst (ms_ps s) (delete o (ms_objs s)))).
Definition get_vmas (i : Z) : M St (list vma_area) := ms_ (gets (fun s => p_vmas (proc_at (ms_ps s) i))).
Definition set_vma (i : Z) (slot : nat) (v : vma_area) : M St unit :=
  p_ (setp i (fun p => set_p_vmas (<[slot := v]> (p_vmas p)) p)).
End state.

(** The file layer: reference counts and positioned reads and writes between
    a file and a kernel page.  A file is given by its pointer, 0 is NULL.
    [fo_entry]: a regular file ([FD_ENTRY]); [fo_device]: [FD_DEVICE] with an
    [mmap] operation. *)
Class FileOps (St : Type) := {
  fo_dup : Z -> M St unit;
  fo_close : Z -> M St unit;
  fo_read_at : Z -> Z -> Z -> Z -> M St Z;
  fo_write_at : Z -> Z -> Z -> Z -> M St Z;
  fo_entry : Z -> M St bool;
  fo_device : Z -> M St bool;
  fo_readable : Z -> M St bool;
  fo_writable : Z -> M St bool;
  fo_mmap : Z -> Z -> nat -> Z -> M St Z;   (** file, process, slot, offset *)
}.

Section objects.
Context {St : Type} {LS : Lens St mst} {L : Linker} {FO : FileOps St}.

Definition sizeof_mmap_object : Z := 64.
Definition sizeof_anon_object : Z := 40.
Definition sizeof_anon_page : Z := 24.
Definition sizeof_kbuf : Z := 56.
Definition sizeof_kbuf_page : Z := 16.

(** *** Anonymous memory (mmap_anon.c) *)

Definition anon_object_create : M St (option anon_object) :=
  anon <- k_ (kmalloc sizeof_anon_object) ;;
  if anon =? 0 then ret None
  else
    k_ (do_memset anon 0 sizeof_anon_object) ;;
    mlk_ (initlock (L_object anon)) ;;
    ret (Some (AnonObject anon [])).

Fixpoint free_anon_pages (pages : list (Z * Z * Z)) : M St unit :=
  match pages with
  | [] => ret tt
  | (node, _, pa) :: rest =>
      k_ (kfree_page pa) ;;
      k_ (kfree node) ;;
      free_anon_pages rest
  end.

Definition anon_object_destroy (o : Z) (a : anon_object) : M St unit :=
  mlk_ (acquire (L_object (an_addr a))) ;;
  seto o (set_anon (Some (AnonObject (an_addr a) []))) ;;
  mlk_ (release (L_object (an_addr a))) ;;
  free_anon_pages (an_pages a) ;;
  k_ (kfree (an_addr a)).

Definition anon_lookup (pages : list (Z * Z * Z)) (index : Z) : option Z :=
  option_map snd (List.find (fun p => (snd (fst p)) =? index) pages).

Definition anon_pages_of (o : Z) : M St (list (Z * Z * Z)) :=
  ms_ (gets (fun s => match mo_anon (obj_at s o) with Some a => an_pages a | None => [] end)).

(** The page of the object [o] with this index, with a new reference to it. *)
Definition anon_page_get (o : Z) (a : anon_object) (index : Z) : M St Z :=
  mlk_ (acquire (L_object (an_addr a))) ;;
  pages <- anon_pages_of o ;;
  match anon_lookup pages index with
  | Some pa => k_ (kaddquota pa) ;; mlk_ (release (L_object (an_addr a))) ;; ret pa
  | None =>
      mlk_ (release (L_object (an_addr a))) ;;
      mem <- k_ kalloc_page ;;
      if mem =? 0 then ret 0
      else
        k_ (do_memset mem 0 PGSIZE) ;;
        candidate <- k_ (kmalloc sizeof_anon_page) ;;
        if candidate =? 0 then k_ (kfree_page mem) ;; ret 0
        else
          mlk_ (acquire (L_object (an_addr a))) ;;
          pages <- anon_pages_of o ;;
          match anon_lookup pages index with
          | Some pa =>
              k_ (kaddquota pa) ;;
              mlk_ (release (L_object (an_addr a))) ;;
              k_ (kfree candidate) ;;
              k_ (kfree_page mem) ;;
              ret pa
          | None =>
              seto o (set_anon (Some (AnonObject (an_addr a) ((candidate, index, mem) :: pages)))) ;;
              k_ (kaddquota mem) ;;
              mlk_ (release (L_object (an_addr a))) ;;
              ret mem
          end
  end.

(** Fault handlers return the page, 0 for failure. *)
Definition mmap_anon_fault (v : vma_area) (page : Z) : M St Z :=
  if has (vm_flags v) MAP_SHARED then
    let anon_index := u64 (vm_offset v + page - vm_start v) / PGSIZE in
    o <- geto (vm_object v) ;;
    match mo_anon o with
    | Some a => anon_page_get (vm_object v) a anon_index
    | None => ret 0
    end
  else
    mem <- k_ kalloc_page ;;
    when (negb (mem =? 0)) (k_ (do_memset mem 0 PGSIZE)) ;;
    ret mem.

Definition mmap_anon_object_init (o flags : Z) : M St Z :=
  if has flags MAP_SHARED then
    a <- anon_object_create ;;
    match a with
    | None => ret (-1)
    | Some a => seto o (set_anon (Some a)) ;; ret 0
    end
  else ret 0.

Definition mmap_anon_object_destroy (o : Z) : M St unit :=
  x <- geto o ;;
  match mo_anon x with
  | Some a => anon_object_destroy o a
  | None => ret tt
  end.

(** *** Files (mmap_file.c) *)

Definition mmap_file_fault (v : vma_area) (page : Z) : M St Z :=
  mem <- k_ kalloc_page ;;
  if mem =? 0 then ret 0
  else
    k_ (do_memset mem 0 PGSIZE) ;;
    let read_length :=
      if vm_valid_end v <? page + PGSIZE then (if page <? vm_valid_end v then vm_valid_end v - page else 0)
      else PGSIZE in
    let file_offset := u64 (vm_offset v + (page - vm_start v)) in
    if (file_offset <? vm_offset v) || (0xffffffff <? file_offset) then k_ (kfree_page mem) ;; ret 0
    else
      o <- geto (vm_object v) ;;
      r <- (if 0 <? read_length then fo_read_at (mo_file o) mem file_offset read_length else ret 0) ;;
      if r <? 0 then k_ (kfree_page mem) ;; ret 0
      else ret mem.

Definition mmap_file_object_init (o file : Z) : M St Z :=
  fo_dup file ;; seto o (set_file file) ;; ret 0.

Definition mmap_file_object_destroy (o : Z) : M St unit :=
  x <- geto o ;;
  when (negb (mo_file x =? 0)) (fo_close (mo_file x)).

Definition mmap_file_writeback_page (v : vma_area) (pagetable page : Z) : M St Z :=
  if negb (bool_decide (vm_type v = VMA_FILE)) || negb (has (vm_flags v) MAP_SHARED) ||
     negb (has (vm_prot v) PROT_WRITE) then ret 0
  else
    pte <- k_ (walk pagetable page false) ;;
    x <- (if pte =? 0 then ret 0 else k_ (load64 pte)) ;;
    if (pte =? 0) || negb (has x PTE_V) then ret 0
    else
      let length :=
        if vm_valid_end v <? page + PGSIZE then (if page <? vm_valid_end v then vm_valid_end v - page else 0)
        else PGSIZE in
      if length =? 0 then ret 0
      else
        let file_offset := u64 (vm_offset v + (page - vm_start v)) in
        if (file_offset <? vm_offset v) || (0xffffffff <? file_offset) then ret (-1)
        else
          o <- geto (vm_object v) ;;
          r <- fo_write_at (mo_file o) (PTE2PA x) file_offset length ;;
          ret (if r <? 0 then -1 else 0).

(** [for (page = start; page < end; page += PGSIZE)] with an early -1. *)
Fixpoint writeback_pages (n : nat) (v : vma_area) (pagetable page : Z) : M St Z :=
  match n with
  | O => ret 0
  | S n' =>
      r <- mmap_file_writeback_page v pagetable page ;;
      if r <? 0 then ret (-1) else writeback_pages n' v pagetable (page + PGSIZE)
  end.
Definition pages_in (start stop : Z) : nat := Z.to_nat ((stop - start + PGSIZE - 1) / PGSIZE).

Definition mmap_file_writeback_range (p : proc) (v : vma_area) (start stop : Z) : M St Z :=
  if negb (bool_decide (vm_type v = VMA_FILE)) then ret 0
  else writeback_pages (pages_in start stop) v (p_pagetable p) start.

(** *** Kernel buffers (mmap_kbuf.c) *)

Fixpoint free_kbuf_pages (pages : list (Z * Z)) : M St unit :=
  match pages with
  | [] => ret tt
  | (node, address) :: rest =>
      k_ (kfree_page address) ;;
      k_ (kfree node) ;;
      free_kbuf_pages rest
  end.
Definition kbuf_destroy (b : kbuf) : M St unit :=
  free_kbuf_pages (kb_pages b) ;; k_ (kfree (kb_addr b)).

(** The allocation loop; the pages so far are in [b]. *)
Fixpoint kbuf_fill (n : nat) (b : kbuf) : M St (option kbuf) :=
  match n with
  | O => ret (Some b)
  | S n' =>
      node <- k_ (kmalloc sizeof_kbuf_page) ;;
      address <- (if node =? 0 then ret 0 else k_ kalloc_page) ;;
      if address =? 0 then
        when (negb (node =? 0)) (k_ (kfree node)) ;;
        kbuf_destroy b ;;
        ret None
      else
        k_ (do_memset address 0 PGSIZE) ;;
        kbuf_fill n' (Kbuf (kb_addr b) (kb_refcnt b) (kb_npages b) (kb_pages b ++ [(node, address)]))
  end.

Definition kbuf_create (size : Z) : M St (option kbuf) :=
  if size =? 0 then ret None
  else
    let rounded := PGROUNDUP size in
    if rounded <? size then ret None
    else
      b <- k_ (kmalloc sizeof_kbuf) ;;
      if b =? 0 then ret None
      else
        k_ (do_memset b 0 sizeof_kbuf) ;;
        mlk_ (initlock (L_object b)) ;;
        kbuf_fill (Z.to_nat (rounded / PGSIZE)) (Kbuf b 1 (rounded / PGSIZE) []).

Definition kbuf_put (o : Z) (b : kbuf) : M St unit :=
  mlk_ (acquire (L_object (kb_addr b))) ;;
  if kb_refcnt b <? 1 then panic "kbuf_put"
  else
    let b' := Kbuf (kb_addr b) (kb_refcnt b - 1) (kb_npages b) (kb_pages b) in
    seto o (set_kbuf (Some b')) ;;
    mlk_ (release (L_object (kb_addr b))) ;;
    when (kb_refcnt b' =? 0) (kbuf_destroy b').

Definition kbuf_page_address (b : kbuf) (index : Z) : Z :=
  if kb_npages b <=? index then 0
  else match kb_pages b !! Z.to_nat index with Some (_, a) => a | None => 0 end.

Definition kbuf_page_get (b : kbuf) (index : Z) : M St Z :=
  let address := kbuf_page_address b index in
  when (negb (address =? 0)) (k_ (kaddquota address)) ;;
  ret address.

Definition mmap_kbuf_fault (v : vma_area) (page : Z) : M St Z :=
  if vm_object v =? 0 then ret 0
  else
    o <- geto (vm_object v) ;;
    if negb (bool_decide (mo_type o = VMA_KBUF)) then ret 0
    else
      match mo_kbuf o with
      | None => ret 0
      | Some b => kbuf_page_get b (u64 (vm_offset v + page - vm_start v) / PGSIZE)
      end.

Definition mmap_kbuf_object_init (o file size : Z) : M St Z :=
  b <- kbuf_create size ;;
  match b with
  | None => ret (-1)
  | Some b => seto o (set_kbuf (Some b)) ;; fo_dup file ;; seto o (set_file file) ;; ret 0
  end.

Definition mmap_kbuf_object_destroy (o : Z) : M St unit :=
  x <- geto o ;;
  when (negb (mo_file x =? 0)) (fo_close (mo_file x)) ;;
  match mo_kbuf x with
  | Some b => kbuf_put o b
  | None => ret tt
  end.

(** *** Reference-counted objects (mmap.c) *)

Definition mmap_object_alloc (type : vma_type) : M St Z :=
  o <- k_ (kmalloc sizeof_mmap_object) ;;
  if o =? 0 then ret 0
  else
    k_ (do_memset o 0 sizeof_mmap_object) ;;
    mlk_ (initlock (L_object o)) ;;
    seto o (fun _ => MmapObject 1 type 0 None None) ;;
    ret o.

Definition mmap_object_create (type : vma_type) (file flags size : Z) : M St Z :=
  o <- mmap_object_alloc type ;;
  if o =? 0 then ret 0
  else
    r <- match type with
         | VMA_FILE => mmap_file_object_init o file
         | VMA_ANON => mmap_anon_object_init o flags
         | VMA_KBUF => mmap_kbuf_object_init o file size
         end ;;
    if r <? 0 then k_ (kfree o) ;; del_obj o ;; ret 0
    else ret o.

Definition mmap_object_get (o : Z) : M St unit :=
  mlk_ (acquire (L_object o)) ;;
  x <- geto o ;;
  if mo_refcnt x <? 1 then panic "mmap_object_get"
  else seto o (set_refs (mo_refcnt x + 1)) ;; mlk_ (release (L_object o)).

Definition mmap_object_put (o : Z) : M St unit :=
  mlk_ (acquire (L_object o)) ;;
  x <- geto o ;;
  if mo_refcnt x <? 1 then panic "mmap_object_put"
  else
    seto o (set_refs (mo_refcnt x - 1)) ;;
    mlk_ (release (L_object o)) ;;
    when (mo_refcnt x - 1 =? 0)
      (match mo_type x with
       | VMA_FILE => mmap_file_object_destroy o
       | VMA_ANON => mmap_anon_object_destroy o
       | VMA_KBUF => mmap_kbuf_object_destroy o
       end ;;
       k_ (kfree o) ;;
       del_obj o).

(** ** Faults on an area *)

Definition vma_fault (v : vma_area) (page : Z) : M St Z :=
  match vm_ops v with
  | Some ops_file => mmap_file_fault v page
  | Some ops_anon => mmap_anon_fault v page
  | Some ops_kbuf => mmap_kbuf_fault v page
  | None => ret 0
  end.

Definition prot_flags (prot : Z) : Z :=
  let f := PTE_U in
  let f := if has prot PROT_READ then Z.lor f PTE_R else f in
  let f := if has prot PROT_WRITE then Z.lor f PTE_W else f in
  if has prot PROT_EXEC then Z.lor f PTE_X else f.

Definition mmap_fault_page (p : proc) (v : vma_area) (page access : Z) : M St Z :=
  if (page <? vm_start v) || (vm_end v <=? page) || negb (mmap_access_allowed v access) then ret VM_FAULT_INVALID
  else
    pte <- k_ (walk (p_pagetable p) page false) ;;
    x <- (if pte =? 0 then ret 0 else k_ (load64 pte)) ;;
    if negb (pte =? 0) && has x PTE_V then ret VM_FAULT_INVALID
    else if bool_decide (vm_ops v = None) then ret VM_FAULT_BACKING
    else
      mem <- vma_fault v page ;;
      if mem =? 0 then ret VM_FAULT_BACKING
      else
        r <- k_ (mappages (p_pagetable p) page PGSIZE mem (prot_flags (vm_prot v))) ;;
        if r <? 0 then k_ (kfree_page mem) ;; ret VM_FAULT_NOMEM
        else
          r <- k_ (vm_sync_user_page (Some (uspace_of p)) page) ;;
          if r <? 0 then k_ (uvmunmap (p_pagetable p) page 1 true) ;; ret VM_FAULT_NOMEM
          else ret VM_FAULT_RESOLVED.

Fixpoint unmap_pages (n : nat) (p : proc) (page : Z) : M St unit :=
  match n with
  | O => ret tt
  | S n' =>
      k_ (uvmunmap (p_kpagetable p) page 1 false) ;;
      k_ (uvmunmap (p_pagetable p) page 1 true) ;;
      unmap_pages n' p (page + PGSIZE)
  end.
Definition vma_unmap_pages (p : proc) (start stop : Z) : M St unit := unmap_pages (pages_in start stop) p start.

(** [mmap_populate]; the slot's [ops] is cleared on success. *)
Fixpoint populate_pages (n : nat) (p : proc) (v : vma_area) (page : Z) : M St Z :=
  match n with
  | O => ret 0
  | S n' =>
      pte <- k_ (walk (p_pagetable p) page false) ;;
      x <- (if pte =? 0 then ret 0 else k_ (load64 pte)) ;;
      if negb (pte =? 0) && has x PTE_V then populate_pages n' p v (page + PGSIZE)
      else
        mem <- vma_fault v page ;;
        if mem =? 0 then vma_unmap_pages p (vm_start v) page ;; ret (-1)
        else
          r <- k_ (mappages (p_pagetable p) page PGSIZE mem (prot_flags (vm_prot v))) ;;
          if r <? 0 then k_ (kfree_page mem) ;; vma_unmap_pages p (vm_start v) page ;; ret (-1)
          else
            r <- k_ (vm_sync_user_page (Some (uspace_of p)) page) ;;
            if r <? 0 then panic "mmap_populate: sync user page"
            else populate_pages n' p v (page + PGSIZE)
  end.
Definition mmap_populate (i : Z) (slot : nat) : M St Z :=
  p <- p_ (getp i) ;;
  let v := p_vmas p !!! slot in
  if bool_decide (vm_ops v = None) then ret (-1)
  else
    r <- populate_pages (pages_in (vm_start v) (vm_end v)) p v (vm_start v) ;;
    if r <? 0 then ret (-1)
    else set_vma i slot (set_vm_ops None v) ;; ret 0.

(** ** munmap, exit and fork *)

(** The second loop of [vma_unmap]: write back the dirty pages of each area. *)
Fixpoint writeback_all (n : nat) (slot : nat) (i addr stop : Z) : M St Z :=
  match n with
  | O => ret 0
  | S n' =>
      p <- p_ (getp i) ;;
      let v := p_vmas p !!! slot in
      if negb (vma_overlaps addr stop v) then writeback_all n' (S slot) i addr stop
      else
        let start := if vm_start v <? addr then addr else vm_start v in
        let finish := if stop <? vm_end v then stop else vm_end v in
        r <- mmap_file_writeback_range p v start finish ;;
        if r <? 0 then ret (-1) else writeback_all n' (S slot) i addr stop
  end.

(** The third loop; [split] is [split_slot]. *)
Fixpoint cut_all (n : nat) (slot : nat) (i addr stop : Z) (split : option nat) : M St unit :=
  match n with
  | O => ret tt
  | S n' =>
      p <- p_ (getp i) ;;
      let old := p_vmas p !!! slot in
      if negb (vma_overlaps addr stop old) then cut_all n' (S slot) i addr stop split
      else
        let start := if vm_start old <? addr then addr else vm_start old in
        let finish := if stop <? vm_end old then stop else vm_end old in
        vma_unmap_pages p start finish ;;
        let '(v, tail) := vma_cut addr stop old in
        match tail, split with
        | Some t, Some k =>
            set_vma i k t ;;
            mmap_object_get (vm_object old) ;;
            set_vma i slot v ;;
            cut_all n' (S slot) i addr stop None
        | Some _, None => panic "store through a NULL split_slot"
        | None, _ =>
            set_vma i slot v ;;
            when (negb (vm_used v) && negb (vm_object old =? 0)) (mmap_object_put (vm_object old)) ;;
            cut_all n' (S slot) i addr stop split
        end
  end.

Definition vma_unmap (i addr length : Z) : M St Z :=
  if (length =? 0) || negb (addr mod PGSIZE =? 0) || (MMAP_TOP <=? addr) then ret (-1)
  else if MMAP_TOP - addr <? length then ret (-1)
  else
    let stop := PGROUNDUP (addr + length) in
    if MMAP_TOP <? stop then ret (-1)
    else
      vmas <- get_vmas i ;;
      let found := existsb (vma_overlaps addr stop) vmas in
      let needs_split := existsb (fun v => vma_overlaps addr stop v && (vm_start v <? addr) && (stop <? vm_end v)) vmas in
      if negb found then ret (-1)
      else
        let split := if needs_split then vma_find_free vmas else None in
        if needs_split && bool_decide (split = None) then ret (-1)
        else
          r <- writeback_all (Z.to_nat NVMA) 0 i addr stop ;;
          if r <? 0 then ret (-1)
          else cut_all (Z.to_nat NVMA) 0 i addr stop split ;; k_ sfence_vma ;; ret 0.


Fixpoint destroy_vmas (n : nat) (slot : nat) (i : Z) : M St unit :=
  match n with
  | O => ret tt
  | S n' =>
      p <- p_ (getp i) ;;
      let v := p_vmas p !!! slot in
      if negb (vm_used v) then destroy_vmas n' (S slot) i
      else
        when (negb (p_pagetable p =? 0))
          (mmap_file_writeback_range p v (vm_start v) (vm_end v) ;; ret tt) ;;
        when (negb (p_pagetable p =? 0) && negb (p_kpagetable p =? 0))
          (vma_unmap_pages p (vm_start v) (vm_end v)) ;;
        when (negb (vm_object v =? 0)) (mmap_object_put (vm_object v)) ;;
        set_vma i slot zero_vma ;;
        destroy_vmas n' (S slot) i
  end.
Definition vma_destroy_all (i : Z) : M St unit :=
  destroy_vmas (Z.to_nat NVMA) 0 i ;; k_ sfence_vma.

(** First loop of [vma_fork]: copy the areas and take references. *)
Fixpoint fork_vmas (n : nat) (slot : nat) (parent child : Z) : M St unit :=
  match n with
  | O => ret tt
  | S n' =>
      p <- p_ (getp parent) ;;
      let v := p_vmas p !!! slot in
      when (vm_used v) (set_vma child slot v ;; mmap_object_get (vm_object v)) ;;
      fork_vmas n' (S slot) parent child
  end.

(** Second loop, for one area; [false] is the jump to [bad]. *)
Fixpoint fork_pages (n : nat) (p c : proc) (v : vma_area) (page : Z) : M St bool :=
  match n with
  | O => ret true
  | S n' =>
      pte <- k_ (walk (p_pagetable p) page false) ;;
      x <- (if pte =? 0 then ret 0 else k_ (load64 pte)) ;;
      if (pte =? 0) || negb (has x PTE_V) then fork_pages n' p c v (page + PGSIZE)
      else
        let pa := PTE2PA x in
        let cow := has (vm_flags v) MAP_PRIVATE && has (PTE_FLAGS x) PTE_W in
        let flags := if cow then Z.land (Z.lor (PTE_FLAGS x) PTE_COW) (Z.lnot PTE_W) else PTE_FLAGS x in
        r <- (if cow then
                k_ (store64 pte (Z.lor (PA2PTE pa) flags)) ;;
                k_ (upg2ukpg (p_pagetable p) (p_kpagetable p) page (page + PGSIZE))
              else ret 0) ;;
        if r <? 0 then panic "vma_fork: parent upg2ukpg"
        else
          r <- k_ (mappages (p_pagetable c) page PGSIZE pa flags) ;;
          if r <? 0 then ret false
          else
            k_ (kaddquota pa) ;;
            r <- k_ (upg2ukpg (p_pagetable c) (p_kpagetable c) page (page + PGSIZE)) ;;
            if r <? 0 then panic "vma_fork: child upg2ukpg"
            else fork_pages n' p c v (page + PGSIZE)
  end.

Fixpoint fork_areas (n : nat) (slot : nat) (parent child : Z) : M St bool :=
  match n with
  | O => ret true
  | S n' =>
      p <- p_ (getp parent) ;;
      c <- p_ (getp child) ;;
      let v := p_vmas p !!! slot in
      ok <- (if vm_used v then fork_pages (pages_in (vm_start v) (vm_end v)) p c v (vm_start v) else ret true) ;;
      if ok then fork_areas n' (S slot) parent child else ret false
  end.

Definition vma_fork (parent child : Z) : M St Z :=
  fork_vmas (Z.to_nat NVMA) 0 parent child ;;
  ok <- fork_areas (Z.to_nat NVMA) 0 parent child ;;
  if ok then k_ sfence_vma ;; ret 0
  else vma_destroy_all child ;; k_ sfence_vma ;; ret (-1).

(** ** mmap *)

Definition map_create (i addr length prot flags : Z) (type : vma_type) (object : Z)
    (ops : option vma_ops) (offset : Z) : M St Z :=
  p <- p_ (getp i) ;;
  match mmap_map_create (p_vmas p) (p_sz p) addr length prot flags type object ops offset with
  | None => ret MAP_FAILED
  | Some (vmas, start) => p_ (setp i (set_p_vmas vmas)) ;; ret start
  end.

Definition vma_map_anon (i addr length prot flags : Z) : M St Z :=
  if negb (flags =? Z.lor MAP_PRIVATE MAP_ANONYMOUS) && negb (flags =? Z.lor MAP_SHARED MAP_ANONYMOUS)
  then ret MAP_FAILED
  else
    o <- mmap_object_create VMA_ANON 0 flags 0 ;;
    if o =? 0 then ret MAP_FAILED
    else
      start <- map_create i addr length prot flags VMA_ANON o (Some ops_anon) 0 ;;
      when (start =? MAP_FAILED) (mmap_object_put o) ;;
      ret start.

Definition vma_map_file (i addr length prot flags file offset : Z) : M St Z :=
  if negb (flags =? MAP_PRIVATE) && negb (flags =? MAP_SHARED) then ret MAP_FAILED
  else if negb (offset mod PGSIZE =? 0) || (0xffffffff <? offset) then ret MAP_FAILED
  else if file =? 0 then ret MAP_FAILED
  else
    entry <- fo_entry file ;;
    readable <- fo_readable file ;;
    writable <- fo_writable file ;;
    if negb entry || negb readable then ret MAP_FAILED
    else if (flags =? MAP_SHARED) && has prot PROT_WRITE && negb writable then ret MAP_FAILED
    else
      o <- mmap_object_create VMA_FILE file flags 0 ;;
      if o =? 0 then ret MAP_FAILED
      else
        start <- map_create i addr length prot flags VMA_FILE o (Some ops_file) offset ;;
        when (start =? MAP_FAILED) (mmap_object_put o) ;;
        ret start.

Definition vma_map_device (i addr length prot flags file offset : Z) : M St Z :=
  if negb (flags =? MAP_SHARED) || (file =? 0) then ret MAP_FAILED
  else
    device <- fo_device file ;;
    readable <- fo_readable file ;;
    writable <- fo_writable file ;;
    if negb device || has prot PROT_EXEC then ret MAP_FAILED
    else if has prot PROT_READ && negb readable then ret MAP_FAILED
    else if has prot PROT_WRITE && negb writable then ret MAP_FAILED
    else
      start <- map_create i addr length prot flags VMA_KBUF 0 (Some ops_kbuf) offset ;;
      if start =? MAP_FAILED then ret MAP_FAILED
      else
        vmas <- get_vmas i ;;
        match mmap_vma_find vmas start with
        | None => vma_unmap i start length ;; ret MAP_FAILED
        | Some slot =>
            let v := vmas !!! slot in
            let valid_length := vm_valid_end v - vm_start v in
            bad <- (if bool_decide (vm_ops v = None) || negb (offset mod PGSIZE =? 0) || (valid_length =? 0) ||
                       (u64 (offset + valid_length) <? offset)
                    then ret true
                    else r <- fo_mmap file i slot offset ;; ret (r <? 0)) ;;
            if bad then vma_unmap i start length ;; ret MAP_FAILED
            else
              o <- mmap_object_create VMA_KBUF file flags (u64 (offset + valid_length)) ;;
              if o =? 0 then vma_unmap i start length ;; ret MAP_FAILED
              else
                vmas <- get_vmas i ;;
                set_vma i slot (set_vm_object o (vmas !!! slot)) ;;
                r <- (if negb (vm_populate (vmas !!! slot) =? 0) then mmap_populate i slot else ret 0) ;;
                if r <? 0 then vma_unmap i start length ;; ret MAP_FAILED
                else ret start
        end.

Definition vma_device_page_address (i file va index : Z) : M St Z :=
  vmas <- get_vmas i ;;
  match mmap_vma_find vmas va with
  | None => ret 0
  | Some slot =>
      let v := vmas !!! slot in
      if negb (vm_start v =? va) || negb (bool_decide (vm_type v = VMA_KBUF)) || (vm_object v =? 0) then ret 0
      else
        o <- geto (vm_object v) ;;
        match mo_kbuf o with
        | None => ret 0
        | Some b =>
            if negb (mo_file o =? file) || ((vm_end v - vm_start v) / PGSIZE <=? index) then ret 0
            else ret (kbuf_page_address b (vm_offset v / PGSIZE + index))
        end
  end.

End objects.
