(* ===== verification/MmapProps.v ===== *)
(** * Correctness of the table of memory areas

    Placement, creation and cutting of areas (the pure part of Mmap.v): the
    table always describes disjoint page-aligned areas above the heap and
    below the stack. *)

From S2P Require Import Prelude Riscv Memory Spinlock Kalloc Vm Proctab Mmap.

(** An area in use. *)
Record area_ok (bottom : Z) (v : vma_area) : Prop := {
  ar_low : bottom <= vm_start v;
  ar_size : vm_start v < vm_end v;
  ar_top : vm_end v <= MMAP_TOP;
  ar_start : vm_start v mod PGSIZE = 0;
  ar_end : vm_end v mod PGSIZE = 0;
}.

Record table_ok (sz : Z) (vmas : list vma_area) : Prop := {
  tb_len : length vmas = Z.to_nat NVMA;
  tb_area v : v ∈ vmas -> vm_used v = true -> area_ok (PGROUNDUP sz) v;
  tb_disjoint i j v w : vmas !! i = Some v -> vmas !! j = Some w -> i <> j ->
    vm_used v = true -> vm_used w = true -> vm_end v <= vm_start w \/ vm_end w <= vm_start v;
}.

Lemma overlaps_spec start stop v :
  vma_overlaps start stop v = true <-> vm_used v = true /\ start < vm_end v /\ vm_start v < stop.
Proof. unfold vma_overlaps. rewrite !andb_true_iff, !Z.ltb_lt. tauto. Qed.

(** A place for [len] bytes between [bottom] and [top]. *)
Definition fits (vmas : list vma_area) (len bottom top a : Z) : Prop :=
  bottom <= a /\ a + len <= top /\ forall v, v ∈ vmas -> vma_overlaps a (a + len) v = false.

(** [best] is [None] or overlaps, and so does the result. *)
Lemma highest_overlap_spec start stop l : forall best,
  (forall b, best = Some b -> vma_overlaps start stop b = true) ->
  match highest_overlap start stop l best with
  | None => best = None /\ forall v, v ∈ l -> vma_overlaps start stop v = false
  | Some v => vma_overlaps start stop v = true /\ (best = Some v \/ v ∈ l)
  end.
Proof.
  induction l as [|x l IH]; intros best Hb; simpl.
  - destruct best as [b|]; [|split; [done|]; intros v Hv; by apply not_elem_of_nil in Hv].
    split; [by apply Hb|by left].
  - destruct (vma_overlaps start stop x && _) eqn:E.
    + apply andb_true_iff in E as [E1 E2]. specialize (IH (Some x)).
      destruct (highest_overlap start stop l (Some x)) as [v|].
      * destruct IH as [H1 H2]; [by intros b [= <-]|]. split; [done|]. right.
        destruct H2 as [[= <-]|H2]; [left|by right].
      * destruct IH as [H1 _]; [by intros b [= <-]|done].
    + specialize (IH best Hb). destruct (highest_overlap start stop l best) as [v|].
      * destruct IH as [H1 [H2|H2]]; (split; [done|]); [by left|right; by right].
      * destruct IH as [-> H2]. split; [done|]. rewrite andb_true_r in E.
        intros v [->|Hv]%elem_of_cons; [done|by apply H2].
Qed.

(** The areas that start below [top]. *)
Definition below (vmas : list vma_area) (top : Z) : nat :=
  length (filter (fun v => vm_used v = true /\ vm_start v < top) vmas).

Lemma below_mono vmas a b : a <= b -> (below vmas a <= below vmas b)%nat.
Proof.
  intros Hab. unfold below. induction vmas as [|y l IH]; [done|]. rewrite !filter_cons.
  repeat case_decide; simpl; try lia. exfalso. naive_solver lia.
Qed.

Lemma below_decreases vmas top v : v ∈ vmas -> vm_used v = true -> vm_start v < top ->
  (below vmas (vm_start v) < below vmas top)%nat.
Proof.
  intros Hin Hu Hlt. induction vmas as [|x l IH]; [by apply not_elem_of_nil in Hin|].
  pose proof (below_mono l (vm_start v) top ltac:(lia)) as Hm. unfold below in *. rewrite !filter_cons.
  apply elem_of_cons in Hin as [<-|Hin].
  - rewrite decide_False by lia. rewrite decide_True by done. simpl. lia.
  - specialize (IH Hin). repeat case_decide; simpl; try lia. exfalso. naive_solver lia.
Qed.

Lemma find_address_spec vmas len bottom : 0 < len -> 0 <= bottom ->
  (forall v, v ∈ vmas -> vm_used v = true -> bottom <= vm_start v /\ vm_start v < vm_end v) ->
  forall fuel top, bottom <= top < 2 ^ 64 -> (below vmas top < fuel)%nat ->
  exists a, find_address_loop fuel vmas len bottom top = Some a /\
    (fits vmas len bottom top a /\ (forall b, fits vmas len bottom top b -> b <= a) \/
     a = 0 /\ forall b, ~ fits vmas len bottom top b).
Proof.
  intros Hlen Hbot Hareas. induction fuel as [|fuel IH]; intros top Htop Hm; [lia|]. simpl.
  rewrite (u64_small (top - bottom)) by lia. destruct (Z.leb_spec len (top - bottom)) as [Hle|Hgt].
  - rewrite (u64_small (top - len)) by lia.
    pose proof (highest_overlap_spec (top - len) top vmas None) as Hho.
    destruct (highest_overlap (top - len) top vmas None) as [v|].
    + destruct Hho as [Hov Hin]; [done|]. destruct Hin as [|Hin]; [done|].
      apply overlaps_spec in Hov as (Hu & Hv1 & Hv2). destruct (Hareas v Hin Hu) as [Hv3 Hv4].
      destruct (IH (vm_start v)) as (a & Ha & Hcase); [lia|pose proof (below_decreases vmas top v Hin Hu Hv2); lia|].
      exists a. split; [done|].
      assert (Hdown : forall b, fits vmas len bottom top b -> fits vmas len bottom (vm_start v) b).
      { intros b (B1 & B2 & B3). split; [done|]. split; [|done]. specialize (B3 v Hin).
        destruct (Z_le_gt_dec (b + len) (vm_start v)) as [|Hgt]; [done|].
        assert (Hov : vma_overlaps b (b + len) v = true) by (apply overlaps_spec; split; [done|lia]). congruence. }
      destruct Hcase as [[(A1 & A2 & A3) Hmax]|[-> Hno]].
      * left. split; [split; [done|]; split; [lia|done]|]. intros b Hb. by apply Hmax, Hdown.
      * right. split; [done|]. intros b Hb. by apply (Hno b), Hdown.
    + destruct Hho as [_ Hnone]; [done|]. exists (top - len). split; [done|]. left. split.
      * split; [lia|]. split; [lia|]. intros v Hv. replace (top - len + len) with top by lia. by apply Hnone.
      * intros b (B1 & B2 & B3). lia.
  - exists 0. split; [done|]. right. split; [done|]. intros b (B1 & B2 & _). lia.
Qed.

Lemma table_below vmas top : (below vmas top <= length vmas)%nat.
Proof. unfold below. apply length_filter. Qed.

Lemma MMAP_TOP_bound : MMAP_TOP = 0x7ff00000.
Proof. reflexivity. Qed.

Lemma vma_find_address_spec vmas sz len : 0 <= sz <= MMAP_TOP -> 0 < len -> table_ok sz vmas ->
  exists a, vma_find_address vmas sz len = Some a /\
    (fits vmas len (PGROUNDUP sz) MMAP_TOP a /\ (forall b, fits vmas len (PGROUNDUP sz) MMAP_TOP b -> b <= a) \/
     a = 0 /\ forall b, ~ fits vmas len (PGROUNDUP sz) MMAP_TOP b).
Proof.
  intros Hsz Hlen [Hl Har _]. pose proof MMAP_TOP_bound as Htop.
  destruct (PGROUNDUP_bounds sz) as [Hb Hm]; [lia|unfold PGSIZE; lia|].
  assert (Hbt : PGROUNDUP sz <= MMAP_TOP) by (unfold PGSIZE in *; dlia).
  unfold vma_find_address. destruct (Z.ltb_spec (PGROUNDUP sz) sz) as [|_]; [lia|].
  destruct (Z.ltb_spec MMAP_TOP (PGROUNDUP sz)) as [|_]; [lia|]. simpl orb. cbv iota.
  apply find_address_spec; [done|lia| |lia|pose proof (table_below vmas MMAP_TOP); lia].
  intros v Hv Hu. destruct (Har v Hv Hu). done.
Qed.

Lemma find_vma_spec f l k : match find_vma f l k with
  | Some i => exists j v, i = (k + j)%nat /\ l !! j = Some v /\ f v = true /\ (forall j' w, (j' < j)%nat -> l !! j' = Some w -> f w = false)
  | None => forall v, v ∈ l -> f v = false
  end.
Proof.
  revert k. induction l as [|x l IH]; intros k; simpl; [by intros v Hv%not_elem_of_nil|].
  destruct (f x) eqn:E.
  - exists 0%nat, x. split; [lia|]. split; [done|]. split; [done|]. lia.
  - specialize (IH (S k)). destruct (find_vma f l (S k)) as [i|].
    + destruct IH as (j & v & -> & Hj & Hv & Hmin). exists (S j), v. split; [lia|]. split; [done|]. split; [done|].
      intros [|j'] w Hj' Hw; simpl in Hw; [congruence|]. apply (Hmin j'); [lia|done].
    + intros v [->|Hv]%elem_of_cons; [done|by apply IH].
Qed.

(** The search returns page-aligned addresses. *)
Lemma find_address_aligned vmas len bottom : 0 <= len -> len mod PGSIZE = 0 ->
  (forall v, v ∈ vmas -> vm_used v = true -> bottom <= vm_start v /\ vm_start v mod PGSIZE = 0) ->
  forall fuel top a, bottom <= top < 2 ^ 64 -> 0 <= bottom -> top mod PGSIZE = 0 ->
  find_address_loop fuel vmas len bottom top = Some a -> a mod PGSIZE = 0.
Proof.
  intros Hlen Hal Hareas. induction fuel as [|fuel IH]; intros top a Htop Hb Hta Ha; [done|]. simpl in Ha.
  rewrite (u64_small (top - bottom)) in Ha by lia. destruct (Z.leb_spec len (top - bottom)) as [Hle|Hgt]; [|by injection Ha as <-].
  rewrite (u64_small (top - len)) in Ha by lia.
  pose proof (highest_overlap_spec (top - len) top vmas None) as Hho.
  destruct (highest_overlap (top - len) top vmas None) as [v|].
  - destruct Hho as [Hov [|Hin]]; [done|done|]. apply overlaps_spec in Hov as (Hu & Hv1 & Hv2).
    destruct (Hareas v Hin Hu) as [Hv3 Hv4]. by apply (IH (vm_start v) a); [lia| | |].
  - injection Ha as <-. unfold PGSIZE in *. dlia.
Qed.

(** ** Properties *)

(** [vma_find_address] returns the highest place.  On a well-formed table
    the search always ends (its fuel suffices); when the request fits between
    the heap and the stack somewhere it returns the highest address at which
    the whole range is free, otherwise 0. *)
Theorem vma_find_address_highest vmas sz len :
  0 < sz <= MMAP_TOP -> 0 < len -> table_ok sz vmas ->
  exists a, vma_find_address vmas sz len = Some a /\
    (a <> 0 <-> exists b, fits vmas len (PGROUNDUP sz) MMAP_TOP b) /\
    (a <> 0 -> fits vmas len (PGROUNDUP sz) MMAP_TOP a /\ forall b, fits vmas len (PGROUNDUP sz) MMAP_TOP b -> b <= a).
Proof.
  intros Hsz Hlen Ht. destruct (vma_find_address_spec vmas sz len) as (a & Ha & Hcase); [lia|done|done|].
  exists a. split; [done|].
  destruct (PGROUNDUP_bounds sz) as [Hb _]; [lia|pose proof MMAP_TOP_bound; unfold PGSIZE; lia|].
  destruct Hcase as [[Hf Hmax]|[-> Hno]].
  - assert (a <> 0) by (destruct Hf; lia). split; [|done]. split; [by exists a|done].
  - split; [|done]. split; [done|]. intros [b Hb']. by destruct (Hno b).
Qed.

Lemma table_insert sz vmas slot v old : table_ok sz vmas -> vmas !! slot = Some old ->
  (vm_used v = true -> area_ok (PGROUNDUP sz) v) ->
  (forall w j, vmas !! j = Some w -> j <> slot -> vm_used v = true -> vm_used w = true ->
     vm_end v <= vm_start w \/ vm_end w <= vm_start v) ->
  table_ok sz (<[slot := v]> vmas).
Proof.
  intros [T1 T2 T3] Hold Har Hdis. pose proof (lookup_lt_Some _ _ _ Hold) as Hlt.
  assert (Hins : forall j w, <[slot := v]> vmas !! j = Some w -> (j = slot /\ w = v) \/ (j <> slot /\ vmas !! j = Some w)).
  { intros j w Hj. destruct (decide (j = slot)) as [->|Hne].
    - rewrite list_lookup_insert_eq in Hj by done. left. split; [done|congruence].
    - right. split; [done|]. by rewrite list_lookup_insert_ne in Hj by done. }
  split.
  - by rewrite length_insert.
  - intros w Hw Hu. apply list_elem_of_lookup in Hw as [j Hj]. destruct (Hins j w Hj) as [[-> ->]|[_ Hj']]; [by apply Har|].
    apply (T2 w); [by eapply list_elem_of_lookup_2|done].
  - intros i j a b Hi Hj Hne Ha Hb.
    destruct (Hins i a Hi) as [[-> ->]|[Hi1 Hi2]], (Hins j b Hj) as [[-> ->]|[Hj1 Hj2]]; [done| | |by apply (T3 i j)].
    + by apply (Hdis b j).
    + destruct (Hdis a i) as [?|?]; [done|done|done|done|by right|by left].
Qed.

(** Creating a mapping keeps the table well formed.  When
    [mmap_map_create] succeeds, a slot that was free describes the new area:
    whole pages from the returned address on, big enough for the length, at a
    place above the heap and below the stack that no other area overlaps; no
    other slot changed. *)
Theorem mmap_map_create_keeps_table vmas sz addr len prot flags type object ops offset vmas' start :
  0 < sz <= MMAP_TOP -> 0 <= len -> table_ok sz vmas ->
  mmap_map_create vmas sz addr len prot flags type object ops offset = Some (vmas', start) ->
  table_ok sz vmas' /\ start mod PGSIZE = 0 /\
  exists slot old, vmas !! slot = Some old /\ vm_used old = false /\
    vmas' = <[slot := VmaArea true type start (start + PGROUNDUP len) (start + len) offset prot flags 0 object ops]> vmas /\
    fits vmas (PGROUNDUP len) (PGROUNDUP sz) MMAP_TOP start /\ len <= PGROUNDUP len < len + PGSIZE.
Proof.
  intros Hsz Hlen Ht. unfold mmap_map_create. pose proof MMAP_TOP_bound as Htop.
  destruct (negb (addr =? 0) || (len =? 0) || (MMAP_TOP <? len)) eqn:E1; [done|]. breflect.
  destruct (PGROUNDUP_bounds len) as [Hml Hma]; [lia|unfold PGSIZE; lia|].
  do 2 (case_bool_; [done|]). case_bool_; [done|]. case_bool_; [done|]. breflect.
  pose proof (find_vma_spec (fun v => negb (vm_used v)) vmas 0) as Hfree. fold (vma_find_free vmas) in Hfree.
  destruct (vma_find_free vmas) as [slot|]; [|done]. destruct Hfree as (j & old & -> & Hold & Hun & _). simpl Nat.add.
  destruct (vma_find_address_spec vmas sz (PGROUNDUP len)) as (a & Ha & Hcase); [lia|lia|done|].
  rewrite Ha. destruct (Z.eqb_spec a 0) as [->|Hnz]; [done|]. case_bool_; [done|]. intros [= <- <-]. breflect.
  destruct Hcase as [[Hf Hmax]|[? _]]; [|done].
  assert (Haligned : a mod PGSIZE = 0).
  { destruct (PGROUNDUP_bounds sz) as [Hsb _]; [lia|unfold PGSIZE; lia|].
    assert (Hbt : PGROUNDUP sz <= MMAP_TOP) by (destruct Hf as (F1 & F2 & _); lia).
    unfold vma_find_address in Ha.
    destruct ((PGROUNDUP sz <? sz) || (MMAP_TOP <? PGROUNDUP sz)); [congruence|].
    apply (find_address_aligned vmas (PGROUNDUP len) (PGROUNDUP sz)) with (S (S (length vmas))) MMAP_TOP; [lia|done| |lia|lia|done|done].
    intros v Hv Hu. by destruct (tb_area _ _ Ht v Hv Hu). }
  split; [|split; [done|exists j, old; done]].
  destruct Hf as (F1 & F2 & F3). apply (table_insert _ _ _ _ old); [done|done| |].
  - intros _. split; simpl; [done|lia|done|done|unfold PGSIZE in *; dlia].
  - intros w k Hk Hne _ Hu. simpl. specialize (F3 w (list_elem_of_lookup_2 _ _ _ Hk)).
    destruct (Z_le_gt_dec (a + PGROUNDUP len) (vm_start w)) as [|Hg1]; [by left|].
    destruct (Z_le_gt_dec (vm_end w) a) as [|Hg2]; [by right|]. exfalso.
    assert (vma_overlaps a (a + PGROUNDUP len) w = true) by (apply overlaps_spec; split; [done|lia]). congruence.
Qed.

(** A byte of an area and the position in the object behind it. *)
Definition covers (v : vma_area) (va : Z) : Prop := vm_used v = true /\ vm_start v <= va < vm_end v.
Definition backing (v : vma_area) (va : Z) : Z := vm_offset v + (va - vm_start v).

Definition same_mapping (v w : vma_area) : Prop :=
  vm_type v = vm_type w /\ vm_prot v = vm_prot w /\ vm_flags v = vm_flags w /\
  vm_object v = vm_object w /\ vm_ops v = vm_ops w.

(** The pieces [vma_cut] leaves of an area. *)
Definition pieces (r : vma_area * option vma_area) : list vma_area :=
  fst r :: match snd r with Some t => [t] | None => [] end.

(** The part of an area from [lo] to [hi], as a piece describes it. *)
Record piece (bottom lo hi : Z) (old v : vma_area) : Prop := {
  pc_used : vm_used v = true;
  pc_start : vm_start v = lo;
  pc_end : vm_end v = hi;
  pc_ok : area_ok bottom v;
  pc_back va : backing v va = backing old va;
  pc_same : same_mapping v old;
  pc_valid va : va < hi -> (va < vm_valid_end v <-> va < vm_valid_end old);
}.

Section cut.
Context (bottom addr stop : Z) (old : vma_area).
Hypothesis Hu : vm_used old = true.
Hypothesis Har : area_ok bottom old.
Hypothesis Hov : vma_overlaps addr stop old = true.
Hypothesis Hm1 : addr mod PGSIZE = 0.
Hypothesis Hm2 : stop mod PGSIZE = 0.
Hypothesis Ho1 : 0 <= vm_offset old.
Hypothesis Ho2 : vm_offset old + (vm_end old - vm_start old) < 2 ^ 64.

Lemma head_piece : vm_start old < addr ->
  piece bottom (vm_start old) addr old
    (set_vm_valid_end (if addr <? vm_valid_end old then addr else vm_valid_end old) (set_vm_end addr old)).
Proof.
  intros Hs. destruct Har as [A1 A2 A3 A4 A5]. apply overlaps_spec in Hov as (_ & Ho3 & Ho4).
  split; try done; [split; simpl; try done; lia|]. intros va Hva. simpl. destruct (Z.ltb_spec addr (vm_valid_end old)); lia.
Qed.

Lemma tail_piece : stop < vm_end old ->
  piece bottom stop (vm_end old) old
    (set_vm_offset (u64 (vm_offset old + (stop - vm_start old))) (set_vm_start stop old)).
Proof.
  intros Hs. destruct Har as [A1 A2 A3 A4 A5]. apply overlaps_spec in Hov as (_ & Ho3 & Ho4).
  split; try done; [split; simpl; try done; lia|]. intros va. unfold backing. simpl. rewrite u64_small by lia. lia.
Qed.

(** What [vma_cut] leaves, by the position of the range. *)
Lemma cut_cases :
  let r := vma_cut addr stop old in
  match vm_start old <? addr, stop <? vm_end old with
  | false, false => pieces r = [zero_vma]
  | false, true => exists v, pieces r = [v] /\ piece bottom stop (vm_end old) old v
  | true, false => exists v, pieces r = [v] /\ piece bottom (vm_start old) addr old v
  | true, true => exists v w, pieces r = [v; w] /\ piece bottom (vm_start old) addr old v /\ piece bottom stop (vm_end old) old w
  end.
Proof.
  destruct Har as [A1 A2 A3 A4 A5]. pose proof Hov as Hov'. apply overlaps_spec in Hov' as (_ & Ho3 & Ho4).
  unfold vma_cut. destruct (Z.ltb_spec (vm_start old) addr) as [Hs|Hs], (Z.ltb_spec stop (vm_end old)) as [He|He];
    repeat match goal with |- context [?a =? ?b] => destruct (Z.eqb_spec a b); try lia end; simpl andb; cbv iota.
  - do 2 eexists. split; [reflexivity|]. split; [by apply head_piece|by apply tail_piece].
  - eexists. split; [reflexivity|]. by apply head_piece.
  - eexists. split; [reflexivity|]. by apply tail_piece.
  - reflexivity.
Qed.
End cut.

Lemma piece_covers bottom lo hi old v va : piece bottom lo hi old v -> covers v va <-> lo <= va < hi.
Proof. intros [P1 P2 P3 _ _ _ _]. unfold covers. rewrite P1, P2, P3. tauto. Qed.

Lemma piece_keeps bottom lo hi old v va : piece bottom lo hi old v -> covers v va ->
  backing v va = backing old va /\ same_mapping v old /\ (va < vm_valid_end v <-> va < vm_valid_end old).
Proof.
  intros Hp Hc. apply (piece_covers _ _ _ _ _ _ Hp) in Hc. destruct Hp as [_ _ _ _ P5 P6 P7].
  split; [done|]. split; [done|]. apply P7. lia.
Qed.

(** A cut that leaves one piece. *)
Lemma one_piece bottom addr stop lo hi old v : piece bottom lo hi old v ->
  (forall va, lo <= va < hi <-> covers old va /\ ~ addr <= va < stop) ->
  ~ (vm_start old < addr /\ stop < vm_end old) ->
  (forall va, (exists x, x ∈ [v] /\ covers x va) <-> covers old va /\ ~ addr <= va < stop) /\
  (forall x va, x ∈ [v] -> covers x va ->
     backing x va = backing old va /\ same_mapping x old /\ (va < vm_valid_end x <-> va < vm_valid_end old)) /\
  (forall x y va, x ∈ [v] -> y ∈ [v] -> covers x va -> covers y va -> x = y) /\
  (forall x, x ∈ [v] -> vm_used x = true -> area_ok bottom x) /\
  (length [v] = 2%nat <-> vm_start old < addr /\ stop < vm_end old).
Proof.
  intros Pv Hrange Hno. pose proof (fun va => piece_covers _ _ _ _ _ va Pv) as Cv. split_and!.
  - intros va. rewrite <- Hrange, <- Cv. setoid_rewrite list_elem_of_singleton. split; [by intros (x & -> & ?)|by exists v].
  - intros x va ->%list_elem_of_singleton Hx. by eapply piece_keeps.
  - by intros x y va ->%list_elem_of_singleton ->%list_elem_of_singleton.
  - intros x ->%list_elem_of_singleton _. apply Pv.
  - simpl. split; [done|tauto].
Qed.

(** Unmapping a range cuts an area exactly.  A byte is covered by the
    pieces that are left of the area if and only if it was covered and is
    outside the range, and by one piece only; it keeps its object, its
    position in the object, its protection, and whether it lies in the valid
    part.  The pieces are well formed, and there is a second piece only when
    the range lies strictly inside the area. *)
Theorem vma_cut_exact bottom addr stop old :
  vm_used old = true -> area_ok bottom old -> vma_overlaps addr stop old = true -> addr < stop ->
  addr mod PGSIZE = 0 -> stop mod PGSIZE = 0 ->
  0 <= vm_offset old -> vm_offset old + (vm_end old - vm_start old) < 2 ^ 64 ->
  let l := pieces (vma_cut addr stop old) in
  (forall va, (exists v, v ∈ l /\ covers v va) <-> covers old va /\ ~ addr <= va < stop) /\
  (forall v va, v ∈ l -> covers v va ->
     backing v va = backing old va /\ same_mapping v old /\ (va < vm_valid_end v <-> va < vm_valid_end old)) /\
  (forall v w va, v ∈ l -> w ∈ l -> covers v va -> covers w va -> v = w) /\
  (forall v, v ∈ l -> vm_used v = true -> area_ok bottom v) /\
  (length l = 2%nat <-> vm_start old < addr /\ stop < vm_end old).
Proof.
  intros Hu Har Hov Hlt Hm1 Hm2 Ho1 Ho2 l. pose proof (cut_cases bottom addr stop old Hu Har Hov Hm1 Hm2 Ho1 Ho2) as Hc.
  cbv zeta in Hc. fold l in Hc. clearbody l. apply overlaps_spec in Hov as (_ & Ho3 & Ho4).
  assert (Hold : forall va, covers old va <-> vm_start old <= va < vm_end old) by (intros va; unfold covers; rewrite Hu; tauto).
  assert (Hzero : forall va, ~ covers zero_vma va) by (intros va [? _]; done).
  destruct (Z.ltb_spec (vm_start old) addr) as [Hs|Hs], (Z.ltb_spec stop (vm_end old)) as [He|He].
  - destruct Hc as (v & w & -> & Pv & Pw). pose proof (fun va => piece_covers _ _ _ _ _ va Pv) as Cv.
    pose proof (fun va => piece_covers _ _ _ _ _ va Pw) as Cw. split_and!.
    + intros va. rewrite Hold. setoid_rewrite elem_of_cons. setoid_rewrite list_elem_of_singleton. split.
      * intros (x & [->| ->] & Hx); [apply Cv in Hx|apply Cw in Hx]; lia.
      * intros [H1 H2]. destruct (Z_lt_le_dec va addr); [exists v; rewrite Cv|exists w; rewrite Cw]; (split; [tauto|lia]).
    + intros x va [->| ->%list_elem_of_singleton]%elem_of_cons Hx; by eapply piece_keeps.
    + intros x y va [->| ->%list_elem_of_singleton]%elem_of_cons [->| ->%list_elem_of_singleton]%elem_of_cons Hx Hy;
        rewrite ?Cv, ?Cw in *; done || lia.
    + intros x [->| ->%list_elem_of_singleton]%elem_of_cons _; [apply Pv|apply Pw].
    + split; [lia|done].
  - destruct Hc as (v & -> & Pv). apply (one_piece _ _ _ _ _ _ _ Pv); [intros va; rewrite Hold; lia|lia].
  - destruct Hc as (v & -> & Pv). apply (one_piece _ _ _ _ _ _ _ Pv); [intros va; rewrite Hold; lia|lia].
  - rewrite Hc. split_and!.
    + intros va. rewrite Hold. setoid_rewrite list_elem_of_singleton. split; [by intros (x & -> & ?%Hzero)|lia].
    + by intros x va ->%list_elem_of_singleton ?%Hzero.
    + by intros x y va ->%list_elem_of_singleton ->%list_elem_of_singleton.
    + by intros x ->%list_elem_of_singleton.
    + simpl. split; [done|lia].
Qed.

(** ** A concrete table

    One area of four pages just below the stack. *)

Module MmapDemo.

Definition area : vma_area :=
  VmaArea true VMA_FILE (MMAP_TOP - 0x4000) MMAP_TOP (MMAP_TOP - 0x1234) 0x2000 PROT_READ MAP_PRIVATE 0 0 None.
Definition table : list vma_area := area :: replicate 15 zero_vma.

Lemma area_demo : area_ok 0x5000 area.
Proof. by split. Qed.

Lemma table_demo : table_ok 0x4321 table.
Proof.
  assert (Hun : forall i v, table !! i = Some v -> vm_used v = true -> i = 0%nat /\ v = area).
  { intros [|i] v Hi Hu; simpl in Hi; [by injection Hi as <-|]. change (replicate 15 zero_vma !! i = Some v) in Hi.
    apply lookup_replicate in Hi as [-> _]. discriminate. }
  split.
  - reflexivity.
  - intros v Hv Hu. apply list_elem_of_lookup in Hv as [i Hi]. destruct (Hun i v Hi Hu) as [_ ->]. exact area_demo.
  - intros i j v w Hi Hj Hne Hv Hw. destruct (Hun i v Hi Hv) as [-> _], (Hun j w Hj Hw) as [-> _]. done.
Qed.

Lemma vma_find_address_highest_witness :
  exists a, vma_find_address table 0x4321 0x3000 = Some a /\
    (a <> 0 <-> exists b, fits table 0x3000 (PGROUNDUP 0x4321) MMAP_TOP b) /\
    (a <> 0 -> fits table 0x3000 (PGROUNDUP 0x4321) MMAP_TOP a /\
       forall b, fits table 0x3000 (PGROUNDUP 0x4321) MMAP_TOP b -> b <= a).
Proof.
  assert (Hsz : 0 < 0x4321 <= MMAP_TOP) by (rewrite MMAP_TOP_bound; lia).
  assert (Hl : 0 < 0x3000) by lia. exact (vma_find_address_highest table 0x4321 0x3000 Hsz Hl table_demo).
Defined.

Lemma find_demo : vma_find_address table 0x4321 0x3000 = Some (MMAP_TOP - 0x7000).
Proof. reflexivity. Qed.

Lemma mmap_map_create_keeps_table_witness :
  exists vmas', mmap_map_create table 0x4321 0 0x2345 PROT_READ MAP_PRIVATE VMA_FILE 0 None 0 = Some (vmas', MMAP_TOP - 0x7000) /\
    table_ok 0x4321 vmas'.
Proof.
  eexists. split; [reflexivity|].
  assert (Hsz : 0 < 0x4321 <= MMAP_TOP) by (rewrite MMAP_TOP_bound; lia). assert (Hl : 0 <= 0x2345) by lia.
  refine (proj1 (mmap_map_create_keeps_table table 0x4321 0 0x2345 PROT_READ MAP_PRIVATE VMA_FILE 0 None 0 _ (MMAP_TOP - 0x7000)
    Hsz Hl table_demo _)).
  reflexivity.
Defined.

Lemma vma_cut_exact_witness :
  length (pieces (vma_cut (MMAP_TOP - 0x3000) (MMAP_TOP - 0x2000) area)) = 2%nat /\
  forall va, (exists v, v ∈ pieces (vma_cut (MMAP_TOP - 0x3000) (MMAP_TOP - 0x2000) area) /\ covers v va) <->
    covers area va /\ ~ MMAP_TOP - 0x3000 <= va < MMAP_TOP - 0x2000.
Proof.
  split; [reflexivity|].
  refine (proj1 (vma_cut_exact 0x5000 (MMAP_TOP - 0x3000) (MMAP_TOP - 0x2000) area eq_refl area_demo _ _ _ _ _ _));
    rewrite ?MMAP_TOP_bound; (reflexivity || (simpl; lia)).
Defined.

End MmapDemo.
