(* ===== verification/Vmfault.v ===== *)
(** * Page faults and copies between kernel and user
    (src/kernel/vm/vmfault.c, vmcopyin.c, copyin/copyout of vm.c and
    [trap_fault_access] of trap/trap.c)

    [vm_resolve_fault] decides what a fault means: an invalid access, a copy
    on write, a page to allocate, a page of a mapping.  The copy routines
    access user memory directly through the process's kernel page table and
    rely on the trap handler: a faulting byte is resolved and retried, or the
    copy leaves through its recovery label with -1. *)

From S2P Require Import Prelude Riscv Memory Spinlock Kalloc Kmalloc Vm Proctab Mmap.
Import Hart.

Inductive vm_fault_area := VM_AREA_INVALID | VM_AREA_HEAP | VM_AREA_STACK | VM_AREA_MMAP.
#[export] Instance vm_fault_area_eq_dec : EqDecision vm_fault_area.
Proof. solve_decision. Defined.

Definition vm_fault_classify (p : proc) (address : Z) : vm_fault_area * option vma_area :=
  match mmap_vma_find (p_vmas p) address with
  | Some slot => (VM_AREA_MMAP, Some (p_vmas p !!! slot))
  | None =>
      if address <? p_sz p then (VM_AREA_HEAP, None)
      else if (USER_STACK_START <=? address) && (address <? USER_STACK_TOP) then (VM_AREA_STACK, None)
      else (VM_AREA_INVALID, None)
  end.

Definition vm_fault_area_allows (area : vm_fault_area) (v : option vma_area) (access : Z) : bool :=
  match area, v with
  | VM_AREA_MMAP, Some v => mmap_access_allowed v access
  | VM_AREA_STACK, _ => negb (access =? VM_FAULT_EXEC)
  | VM_AREA_HEAP, _ => true
  | _, _ => false
  end.

Definition vm_fault_pte_allows (pte access : Z) : bool :=
  if negb (has pte PTE_V) || negb (has pte PTE_U) then false
  else if access =? VM_FAULT_READ then has pte PTE_R
  else if access =? VM_FAULT_WRITE then has pte PTE_W
  else if access =? VM_FAULT_EXEC then has pte PTE_X
  else false.

(** The trap causes that are page faults. *)
Definition trap_fault_access (scause : Z) : option Z :=
  if scause =? 12 then Some VM_FAULT_EXEC
  else if scause =? 13 then Some VM_FAULT_READ
  else if scause =? 15 then Some VM_FAULT_WRITE
  else None.

Section code.
Context {St : Type} {LS : Lens St mst} {L : Linker} {FO : FileOps St}.

(** [pte] is the value of the valid leaf entry. *)
Definition vm_fault_present (p : proc) (pagetable page access pte : Z) : M St Z :=
  if (access =? VM_FAULT_WRITE) && has pte PTE_COW then
    if negb (has pte PTE_U) then ret VM_FAULT_INVALID
    else
      r <- k_ (uvmcowmalloc (Some (uspace_of p)) pagetable page) ;;
      if r =? 0 then ret VM_FAULT_NOMEM else ret VM_FAULT_RESOLVED
  else if negb (vm_fault_pte_allows pte access) then ret VM_FAULT_INVALID
  else
    r <- k_ (vm_sync_user_page (Some (uspace_of p)) page) ;;
    if r <? 0 then ret VM_FAULT_NOMEM else ret VM_FAULT_RESOLVED.

Definition vm_fault_missing (p : proc) (pagetable page access : Z) (area : vm_fault_area)
    (v : option vma_area) : M St Z :=
  match area, v with
  | VM_AREA_MMAP, Some v => mmap_fault_page p v page access
  | _, _ =>
      let perm := Z.lor PTE_R PTE_W in
      let perm := if bool_decide (area = VM_AREA_HEAP) then Z.lor perm PTE_X else perm in
      r <- k_ (uvm_fault_alloc (Some (uspace_of p)) pagetable page perm) ;;
      if r <? 0 then ret VM_FAULT_NOMEM else ret VM_FAULT_RESOLVED
  end.

Definition vm_resolve_fault (i : option Z) (pagetable address access : Z) : M St Z :=
  match i with
  | None => ret VM_FAULT_INVALID
  | Some i =>
      p <- p_ (getp i) ;;
      if negb (pagetable =? p_pagetable p) || (MAXUVA <=? address) then ret VM_FAULT_INVALID
      else if negb (access =? VM_FAULT_READ) && negb (access =? VM_FAULT_WRITE) && negb (access =? VM_FAULT_EXEC)
      then ret VM_FAULT_INVALID
      else
        let page := PGROUNDDOWN address in
        let '(area, v) := vm_fault_classify p address in
        if negb (vm_fault_area_allows area v access) then ret VM_FAULT_INVALID
        else
          pte <- k_ (walk pagetable page false) ;;
          x <- (if pte =? 0 then ret 0 else k_ (load64 pte)) ;;
          if negb (pte =? 0) && has x PTE_V then vm_fault_present p pagetable page access x
          else vm_fault_missing p pagetable page access area v
  end.

(** ** User memory accessed from kernel mode *)

(** The hardware's translation of a supervisor access through the process's
    kernel page table; [None] is a page fault. *)
Definition translate (kpagetable va access : Z) : M kst (option Z) :=
  pte <- walk kpagetable va false ;;
  if pte =? 0 then ret None
  else
    v <- load64 pte ;;
    let flag := if access =? VM_FAULT_WRITE then PTE_W else PTE_R in
    ret (if has v PTE_V && negb (has v PTE_U) && has v flag then Some (PTE2PA v + va mod PGSIZE) else None).

(** One access of a copy routine: fault, resolve and retry.  The result is
    [None] when the handler diverts to the recovery label; a handler that
    reports success without making the access possible would be retried for
    ever. *)
Definition access_body (i va access : Z) (_ : unit) : M St (unit + option Z) :=
  p <- p_ (getp i) ;;
  t <- k_ (translate (p_kpagetable p) va access) ;;
  match t with
  | Some pa => ret (inr (Some pa))
  | None =>
      r <- vm_resolve_fault (Some i) (p_pagetable p) va access ;;
      if r =? VM_FAULT_RESOLVED then ret (inl tt) else ret (inr None)
  end.
Definition user_access (i va access : Z) : M St (option Z) := loop 3 (access_body i va access) tt.

Definition set_recovery (i : Z) (on : bool) : M St unit :=
  p_ (setp i (fun p => set_p_copy_fault_recovery on (set_p_copy_fault_active on p))).

(** [while (n-- > 0) *dst++ = *srcva++]; the chunks of a page at a time visit
    the same bytes in the same order. *)
Fixpoint copyin_bytes (n : nat) (i dst srcva : Z) : M St bool :=
  match n with
  | O => ret true
  | S n' =>
      a <- user_access i srcva VM_FAULT_READ ;;
      match a with
      | None => ret false
      | Some pa =>
          c <- k_ (load8 pa) ;;
          k_ (store8 dst c) ;;
          copyin_bytes n' i (dst + 1) (srcva + 1)
      end
  end.

Definition copyin_new (i dst srcva len : Z) : M St Z :=
  if (MAXUVA <=? srcva) || (MAXUVA - srcva <? len) then ret (-1)
  else
    set_recovery i true ;;
    ok <- copyin_bytes (Z.to_nat len) i dst srcva ;;
    set_recovery i false ;;
    ret (if ok then 0 else -1).

Definition copyin (i dst srcva len : Z) : M St Z := copyin_new i dst srcva len.

Fixpoint copyout_bytes (n : nat) (i dstva src : Z) : M St bool :=
  match n with
  | O => ret true
  | S n' =>
      c <- k_ (load8 src) ;;
      a <- user_access i dstva VM_FAULT_WRITE ;;
      match a with
      | None => ret false
      | Some pa => k_ (store8 pa c) ;; copyout_bytes n' i (dstva + 1) (src + 1)
      end
  end.

Definition copyout (i dstva src len : Z) : M St Z :=
  if (MAXUVA <=? dstva) || (MAXUVA - dstva <? len) then ret (-1)
  else
    set_recovery i true ;;
    ok <- copyout_bytes (Z.to_nat len) i dstva src ;;
    set_recovery i false ;;
    ret (if ok then 0 else -1).

(** The string is complete when its NUL was copied within [max] bytes. *)
Fixpoint copyinstr_bytes (n : nat) (i dst srcva : Z) : M St bool :=
  match n with
  | O => ret false
  | S n' =>
      if MAXUVA <=? srcva then ret false
      else
        a <- user_access i srcva VM_FAULT_READ ;;
        match a with
        | None => ret false
        | Some pa =>
            c <- k_ (load8 pa) ;;
            k_ (store8 dst c) ;;
            if c =? 0 then ret true else copyinstr_bytes n' i (dst + 1) (srcva + 1)
        end
  end.

Definition copyinstr_new (i dst srcva max : Z) : M St Z :=
  if MAXUVA <=? srcva then ret (-1)
  else
    set_recovery i true ;;
    ok <- copyinstr_bytes (Z.to_nat max) i dst srcva ;;
    set_recovery i false ;;
    ret (if ok then 0 else -1).

Definition copyinstr (i dst srcva max : Z) : M St Z := copyinstr_new i dst srcva max.

(** [either_copyout]/[either_copyin] of proc.c. *)
Definition either_copyout (i : Z) (user_dst : bool) (dst src len : Z) : M St Z :=
  if user_dst then copyout i dst src len else k_ (do_memmove dst src len) ;; ret 0.
Definition either_copyin (i dst : Z) (user_src : bool) (src len : Z) : M St Z :=
  if user_src then copyin i dst src len else k_ (do_memmove dst src len) ;; ret 0.

End code.
