(* ===== verification/Proc.v ===== *)
(** * The life cycle of a process (src/kernel/proc/proc.c)

    Slots of [proc[]] are allocated by [allocproc], filled by [userinit] and
    [fork], left by [exit] as zombies and given back by [wait] through
    [freeproc].  The running process is the argument [i] (the index
    [myproc()] returns).  [exit] and [wait] give up the CPU: [exit_enter] and
    [wait] run up to the switch, [exit_resume] and [wait_resume] from its
    return on.

    Open files are the interface [FileOps] of Mmap.v, directory entries
    [EntryOps]. *)

From S2P Require Import Prelude Riscv Memory Spinlock Kalloc Kmalloc Vm Proctab Signal Sched Mmap Vmfault.
Import Hart.

(** What proc.c asks of the file system: [edup], [eput] and, in the first
    process, [fat32_init] followed by [ename("/")]. *)
Class EntryOps (St : Type) := {
  eo_dup : Z -> M St Z;
  eo_put : Z -> M St unit;
  eo_mount : M St Z;
}.

(** Addresses of [forkret] and of the array [initcode], and its size. *)
Class ProcSymbols := {
  forkret_pc : Z;
  initcode : Z;
  initcode_size : Z;
}.

Section code.
Context {St : Type} {LS : Lens St mst} {L : Linker} {FO : FileOps St} {EO : EntryOps St} {PS : ProcSymbols}.

(** ** Slots *)

Definition clear_vm (p : proc) : proc :=
  set_p_sz 0 (set_p_pagetable 0 (set_p_kstack 0 (set_p_kpagetable 0 p))).

Definition freeprocvm (i : Z) : M St unit :=
  p <- p_ (getp i) ;;
  when (negb (p_trapframe p =? 0)) (k_ (kfree_page (p_trapframe p))) ;;
  p_ (setp i (set_p_trapframe 0)) ;;
  when (negb (p_pagetable p =? 0)) (k_ (proc_freepagetable (p_pagetable p) (p_sz p))) ;;
  when (negb (p_kpagetable p =? 0)) (k_ (proc_freekpagetable (p_kpagetable p) (p_kstack p) (p_sz p))) ;;
  p_ (setp i clear_vm).

(** The counters of the scheduler, as for a new process. *)
Definition reset_sched (p : proc) : proc :=
  set_p_last_wakeup_reason WAKEUP_NORMAL (set_p_device_wakeup_count 0 (set_p_io_wakeup_count 0
    (set_p_boost_count 0 (set_p_preempt_count 0 (set_p_wait_ticks 0 (set_p_total_run_ticks 0
    (set_p_sched_ticks 0 (set_p_queue_level MLFQ_TOP_LEVEL p)))))))).

Definition clear_proc (p : proc) : proc :=
  set_p_state UNUSED (reset_sched (set_p_xstate 0 (signal_proc_init (set_p_killed false
    (set_p_chan NoChan (set_p_name "" (set_p_parent None (set_p_pgid 0 (set_p_pid 0 p))))))))).

Definition freeproc (i : Z) : M St unit :=
  vma_destroy_all i ;;
  freeprocvm i ;;
  p_ (setp i clear_proc).

(** [kalloc_page] fills the page with 5s. *)
Definition fresh_tf : trapframe := replicate TF_WORDS 0x0505050505050505.

Definition init_context (p : proc) : proc :=
  reset_sched (set_p_vmas (replicate (Z.to_nat NVMA) zero_vma) (set_p_context (forkret_pc, p_kstack p + PGSIZE) p)).

(** From the label [found] on, with the lock of slot [i] held. *)
Definition allocproc_found (i : Z) : M St (option Z) :=
  let fail := freeproc i ;; p_ (punlock i) ;; ret None in
  pid <- p_ allocpid ;;
  p_ (setp i (fun p => signal_proc_init (set_p_pgid pid (set_p_pid pid p)))) ;;
  tf <- k_ kalloc_page ;;
  p_ (setp i (fun p => set_p_tf fresh_tf (set_p_trapframe tf p))) ;;
  if tf =? 0 then p_ (punlock i) ;; ret None
  else
    pagetable <- k_ (proc_pagetable tf) ;;
    p_ (setp i (set_p_pagetable pagetable)) ;;
    if pagetable =? 0 then fail
    else
      kpagetable <- k_ ukvminit ;;
      p_ (setp i (set_p_kpagetable kpagetable)) ;;
      if kpagetable =? 0 then fail
      else
        pa <- k_ kalloc_page ;;
        if pa =? 0 then fail
        else
          let va := KSTACK 0 in
          r <- k_ (mappages kpagetable va PGSIZE pa (Z.lor PTE_R PTE_W)) ;;
          if r <? 0 then
            k_ (kfree_page pa) ;;
            k_ (ukvmfree kpagetable) ;;
            p_ (setp i (set_p_kpagetable 0)) ;;
            fail
          else
            p_ (setp i (set_p_kstack va)) ;;
            p_ (setp i init_context) ;;
            ret (Some i).

(** Returns with the lock of the slot held. *)
Definition allocproc : M St (option Z) :=
  r <- p_ (for_procs (fun i =>
         plock i ;;
         p <- getp i ;;
         if is_state UNUSED p then ret (Some i)
         else punlock i ;; ret None)) ;;
  match r with
  | None => ret None
  | Some i => allocproc_found i
  end.

(** A NULL result of [allocproc] would be dereferenced; at boot every slot is
    free. *)
Definition userinit : M St unit :=
  r <- allocproc ;;
  match r with
  | None => panic "userinit: NULL"
  | Some i =>
      p_ (modify (set_ps_initproc (Some i))) ;;
      p <- p_ (getp i) ;;
      k_ (uvminit (p_pagetable p) initcode initcode_size) ;;
      x <- k_ (uvm_stack_init (p_pagetable p)) ;;
      if x <? 0 then panic "userinit: stack"
      else
        p_ (setp i (fun p => set_p_name "initcode" (set_p_tf
          (<[TF_sp := USER_STACK_TOP]> (<[TF_epc := 0]> (p_tf p))) (set_p_sz PGSIZE p)))) ;;
        x <- k_ (upg2ukpg (p_pagetable p) (p_kpagetable p) 0 PGSIZE) ;;
        if x <? 0 then panic "userinit: upg2ukpg"
        else
          k_ (uvm_stack_sync (p_pagetable p) (p_kpagetable p)) ;;
          p_ (setp i (set_p_state RUNNABLE)) ;;
          p_ (punlock i)
  end.

(** ** The size of the heap *)

Definition growproc (i n : Z) : M St Z :=
  p <- p_ (getp i) ;;
  let sz := p_sz p in
  let new := u64 (sz + n) in
  if 0 <? n then
    if (new <? sz) || (vma_heap_limit (p_vmas p) <? new) then ret (-1)
    else
      sz' <- k_ (uvmalloc (p_pagetable p) sz new) ;;
      if sz' =? 0 then ret (-1)
      else
        r <- k_ (upg2ukpg (p_pagetable p) (p_kpagetable p) sz sz') ;;
        if r <? 0 then panic "growproc: upg2ukpg"
        else p_ (setp i (set_p_sz sz')) ;; k_ sfence_vma ;; ret 0
  else if n <? 0 then
    k_ (ukvmdealloc (p_kpagetable p) sz new false) ;;
    sz' <- k_ (uvmdealloc (p_pagetable p) sz new) ;;
    p_ (setp i (set_p_sz sz')) ;; k_ sfence_vma ;; ret 0
  else k_ sfence_vma ;; ret 0.

(** ** fork *)

(** [for (i = 0; i < NOFILE; i++) if (p->ofile[i]) np->ofile[i] = filedup(...)] *)
Fixpoint dup_files (n : nat) (fd : nat) (i np : Z) : M St unit :=
  match n with
  | O => ret tt
  | S n' =>
      p <- p_ (getp i) ;;
      let f := p_ofile p !!! fd in
      when (negb (f =? 0))
        (fo_dup f ;; p_ (setp np (fun c => set_p_ofile (<[fd := f]> (p_ofile c)) c))) ;;
      dup_files n' (S fd) i np
  end.

(** The parent's kernel page table follows the entries [uvmcopy] made
    copy-on-write. *)
Definition fork_sync (i : Z) : M St unit :=
  p <- p_ (getp i) ;;
  r <- k_ (upg2ukpg (p_pagetable p) (p_kpagetable p) 0 (p_sz p)) ;;
  if r <? 0 then panic "fork: parent upg2ukpg"
  else k_ (uvm_stack_sync (p_pagetable p) (p_kpagetable p)) ;; k_ sfence_vma.

(** The copies of user memory; [false] is the jump to [bad]. *)
Definition fork_memory (i np : Z) : M St bool :=
  p <- p_ (getp i) ;;
  c <- p_ (getp np) ;;
  r <- k_ (uvmcopy (p_pagetable p) (p_pagetable c) (p_sz p)) ;;
  if r <? 0 then ret false
  else
    p_ (setp np (set_p_sz (p_sz p))) ;;
    r <- k_ (uvm_stack_copy (p_pagetable p) (p_pagetable c)) ;;
    if r <? 0 then ret false
    else
      r <- vma_fork i np ;;
      if r <? 0 then ret false
      else
        r <- k_ (upg2ukpg (p_pagetable c) (p_kpagetable c) 0 (p_sz p)) ;;
        if r <? 0 then ret false
        else
          r <- k_ (upg2ukpg (p_pagetable c) (p_kpagetable c) USER_STACK_START USER_STACK_TOP) ;;
          ret (negb (r <? 0)).

(** [safestrcpy] into the 16 bytes of [name]. *)
Definition copy_name (name : string) : string := String.substring 0 15 name.

(** What the child inherits: the registers, with 0 as the result of [fork],
    then after the files its directory, name, group and signal state. *)
Definition fork_regs (i : Z) (p c : proc) : proc :=
  set_p_tf (<[TF_a0 := 0]> (p_tf p)) (set_p_parent (Some i) c).
Definition fork_attrs (p c : proc) : proc :=
  signal_proc_fork p (set_p_pgid (p_pgid p) (set_p_trace_mask (p_trace_mask p)
    (set_p_name (copy_name (p_name p)) c))).

Definition fork (i : Z) : M St Z :=
  r <- allocproc ;;
  match r with
  | None => ret (-1)
  | Some np =>
      ok <- fork_memory i np ;;
      if ok then
        k_ sfence_vma ;;
        p <- p_ (getp i) ;;
        p_ (setp np (fork_regs i p)) ;;
        dup_files (Z.to_nat NOFILE) 0 i np ;;
        cwd <- eo_dup (p_cwd p) ;;
        p_ (setp np (set_p_cwd cwd)) ;;
        p_ (setp np (fork_attrs p)) ;;
        c <- p_ (getp np) ;;
        p_ (setp np (set_p_state RUNNABLE)) ;;
        p_ (punlock np) ;;
        fork_sync i ;;
        ret (p_pid c)
      else
        fork_sync i ;;
        freeproc np ;;
        p_ (punlock np) ;;
        ret (-1)
  end.

(** ** exit *)

(** [for (fd = 0; fd < NOFILE; fd++) if (p->ofile[fd]) ...] *)
Fixpoint close_files (n : nat) (fd : nat) (i : Z) : M St unit :=
  match n with
  | O => ret tt
  | S n' =>
      p <- p_ (getp i) ;;
      let f := p_ofile p !!! fd in
      when (negb (f =? 0))
        (fo_close f ;; p_ (setp i (fun p => set_p_ofile (<[fd := 0]> (p_ofile p)) p))) ;;
      close_files n' (S fd) i
  end.

(** The second half of [exit], from waking init to [sched]: the process
    becomes a zombie under its own and its parent's lock.  Every process but
    init has a parent. *)
Definition exit_publish (i status : Z) : M pst unit :=
  init <- gets ps_initproc ;;
  match init with
  | None => panic "exit: no init"
  | Some init =>
      plock init ;; wakeup1 init ;; punlock init ;;
      plock i ;;
      p <- getp i ;;
      punlock i ;;
      match p_parent p with
      | None => panic "exit: no parent"
      | Some original_parent =>
          plock original_parent ;;
          plock i ;;
          reparent i ;;
          signal_send_locked original_parent SIGCHLD ;;
          wakeup1 original_parent ;;
          setp i (fun p => set_p_state ZOMBIE (set_p_xstate status p)) ;;
          punlock original_parent
      end
  end.

Definition exit_enter (i status : Z) : M St bool :=
  init <- p_ (gets ps_initproc) ;;
  if bool_decide (init = Some i) then panic "init exiting"
  else
    close_files (Z.to_nat NOFILE) 0 i ;;
    vma_destroy_all i ;;
    p <- p_ (getp i) ;;
    eo_put (p_cwd p) ;;
    p_ (setp i (set_p_cwd 0)) ;;
    p_ (exit_publish i status) ;;
    p_ (sched_enter i).

Definition exit_resume (saved : bool) : M St unit :=
  p_ (sched_resume saved) ;; panic "zombie exit".

(** ** wait *)

(** [copyout] of the bytes [vs] of a kernel variable. *)
Fixpoint copyout_values (vs : list Z) (i dstva : Z) : M St bool :=
  match vs with
  | [] => ret true
  | c :: vs' =>
      a <- user_access i dstva VM_FAULT_WRITE ;;
      match a with
      | None => ret false
      | Some pa => k_ (store8 pa c) ;; copyout_values vs' i (dstva + 1)
      end
  end.
Definition copyout_int (i dstva x : Z) : M St Z :=
  if (MAXUVA <=? dstva) || (MAXUVA - dstva <? 4) then ret (-1)
  else
    set_recovery i true ;;
    ok <- copyout_values [u8 x; u8 (Z.shiftr x 8); u8 (Z.shiftr x 16); u8 (Z.shiftr x 24)] i dstva ;;
    set_recovery i false ;;
    ret (if ok then 0 else -1).

(** A zombie child [np] found, with both locks held. *)
Definition wait_reap (i np addr : Z) : M St Z :=
  c <- p_ (getp np) ;;
  freeprocvm np ;;
  r <- (if negb (addr =? 0) then copyout_int i addr (p_xstate c) else ret 0) ;;
  if r <? 0 then p_ (punlock np) ;; p_ (punlock i) ;; ret (-1)
  else
    freeproc np ;;
    p_ (punlock np) ;;
    p_ (punlock i) ;;
    ret (p_pid c).

(** [for (np = proc; np < &proc[NPROC]; np++)]: [inl] is the result of [wait],
    [inr] the value of [havekids] at the end. *)
Fixpoint wait_scan (n : nat) (np i addr : Z) (havekids : bool) : M St (Z + bool) :=
  match n with
  | O => ret (inr havekids)
  | S n' =>
      c <- p_ (getp np) ;;
      if bool_decide (p_parent c = Some i) then
        p_ (plock np) ;;
        c <- p_ (getp np) ;;
        if is_state ZOMBIE c then r <- wait_reap i np addr ;; ret (inl r)
        else p_ (punlock np) ;; wait_scan n' (np + 1) i addr true
      else wait_scan n' (np + 1) i addr havekids
  end.

(** One round of the loop, with the lock of [i] held: [inr] when the process
    sleeps.  [sleep_on_enter] returns at once only with -1. *)
Definition wait_round (i addr : Z) : M St (Z + bool) :=
  r <- wait_scan (Z.to_nat NPROC) 0 i addr false ;;
  match r with
  | inl x => ret (inl x)
  | inr false => p_ (punlock i) ;; ret (inl (-1))
  | inr true =>
      z <- p_ (sleep_on_enter i (ProcChan i) (L_proc i) true) ;;
      match z with
      | inl _ => p_ (punlock i) ;; ret (inl (-1))
      | inr saved => ret (inr saved)
      end
  end.

Definition wait (i addr : Z) : M St (Z + bool) :=
  p_ (plock i) ;; wait_round i addr.

Definition wait_resume (i addr : Z) (saved : bool) : M St (Z + bool) :=
  r <- p_ (sleep_on_resume i (L_proc i) true saved) ;;
  if r <? 0 then p_ (punlock i) ;; ret (inl (-1)) else wait_round i addr.

(** ** The first return to user space *)

(** [forkret] up to [usertrapret]; the argument and the result are the static
    variable [first]. *)
Definition forkret (i : Z) (first : bool) : M St bool :=
  p_ (punlock i) ;;
  when first (cwd <- eo_mount ;; p_ (setp i (set_p_cwd cwd))) ;;
  ret false.

End code.
