(* ===== verification/ProcProps.v ===== *)
(** * Correctness of the life cycle of a process

    [freeprocvm] gives back every page of a process; [exit] hands the
    children to init, notifies the parent and leaves a zombie; [wait] returns
    the first zombie child and frees its slot. *)

From S2P Require Import Prelude Riscv Memory Spinlock Kalloc Kmalloc Vm VmTree VmUnmap VmCow VmCheck VmProps VmFree VmSpace Proctab Signal Sched SchedProps Mmap Vmfault Proc.
Import Hart.

(** ** Slots *)

Lemma upd_proc_at i f j s :
  0 <= i < NPROC -> 0 <= j < NPROC -> length (ps_procs s) = Z.to_nat NPROC ->
  proc_at (upd_proc i f s) j = if i =? j then f (proc_at s j) else proc_at s j.
Proof.
  intros Hi Hj Hl. unfold upd_proc. unfold proc_at at 1. simpl ps_procs. rewrite proc_at_insert by (done || lia).
  by destruct (Z.eqb_spec i j) as [->|].
Qed.

(** The bytes [bs] stored from [va] on, at the physical addresses [pa]. *)
Fixpoint put_user (pa : Z -> Z) (va : Z) (bs : list Z) (m : gmap Z Z) : gmap Z Z :=
  match bs with
  | [] => m
  | c :: bs' => put_user pa (va + 1) bs' (st8 m (pa va) c)
  end.

Lemma put_user_out pa bs : forall va m a, (forall v, va <= v < va + Z.of_nat (length bs) -> pa v <> a) ->
  ld8 (put_user pa va bs m) a = ld8 m a.
Proof.
  induction bs as [|c bs IH]; intros va m a H; [done|]. cbn [put_user length] in *. rewrite IH by (intros v Hv; apply H; lia).
  apply ld8_st8_ne, H. lia.
Qed.

Lemma put_user_in pa bs : forall va m k, (k < length bs)%nat ->
  (forall v v', va <= v < va + Z.of_nat (length bs) -> va <= v' < va + Z.of_nat (length bs) -> pa v = pa v' -> v = v') ->
  ld8 (put_user pa va bs m) (pa (va + Z.of_nat k)) = u8 (bs !!! k).
Proof.
  induction bs as [|c bs IH]; intros va m k Hk Hinj; [simpl in Hk; lia|]. cbn [put_user length] in *. destruct k as [|k].
  - rewrite Z.add_0_r, put_user_out; [apply ld8_st8_eq|]. intros v Hv E. apply Hinj in E; lia.
  - replace (va + Z.of_nat (S k)) with (va + 1 + Z.of_nat k) by lia. apply IH; [lia|]. intros v v' Hv Hv'. apply Hinj; lia.
Qed.

(** ** exit *)

Definition adopt (i : Z) (init : option Z) (p : proc) : proc :=
  if bool_decide (p_parent p = Some i) then set_p_parent init p else p.

Definition wake1 (i : Z) (p : proc) : proc :=
  if bool_decide (p_chan p = ProcChan i) && is_state SLEEPING p then set_p_state RUNNABLE p else p.

Lemma upd_proc_same i f s : f (proc_at s i) = proc_at s i -> upd_proc i f s = s.
Proof.
  intros H. unfold upd_proc. rewrite H. unfold proc_at. destruct s as [k P c a b d e g h]. cbn [ps_procs].
  assert (E : <[Z.to_nat i := P !!! Z.to_nat i]> P = P); [|by rewrite E].
  destruct (P !! Z.to_nat i) as [x|] eqn:E.
  - rewrite (list_lookup_total_correct _ _ _ E). by apply list_insert_id.
  - apply list_insert_ge. by apply lookup_ge_None.
Qed.

Lemma wakeup1_wp i s (Q : unit -> pst -> Prop) :
  L_proc i ∈ held (lk_of s) -> Q tt (upd_proc i (wake1 i) s) -> wp (wakeup1 i) Q s.
Proof.
  intros Hh HQ. unfold wakeup1. wp_step. wp_step. unfold holding. change (lget s) with (lk_of s).
  rewrite bool_decide_eq_true_2 by done. simpl negb. cbv iota.
  destruct (bool_decide (p_chan (proc_at s i) = ProcChan i) && is_state SLEEPING (proc_at s i)) eqn:E; simpl when.
  - wp_go. replace (upd_proc i (set_p_state RUNNABLE) s) with (upd_proc i (wake1 i) s); [done|].
    unfold upd_proc. f_equal. f_equal. unfold wake1. by rewrite E.
  - wp_go. rewrite <- (upd_proc_same i (wake1 i) s); [done|]. unfold wake1. by rewrite E.
Qed.

Lemma reparent_wp i s :
  lk_ok (lk_of s) -> length (ps_procs s) = Z.to_nat NPROC ->
  (forall j, 0 <= j < NPROC -> p_parent (proc_at s j) = Some i -> L_proc j ∉ held (lk_of s)) ->
  wp (reparent i) (fun _ s' => psame s s' /\ ps_procs s' = adopt i (ps_initproc s) <$> ps_procs s) s.
Proof.
  intros Hok Hlen Hfree. unfold reparent. wp_step.
  eapply wp_mono; [apply (scan_map_gen (fun s' => psame s s') (adopt i (ps_initproc s))); [|done|reflexivity]|].
  - intros j s1 Hj Hs1 Hlen1 Hat. pose proof Hs1 as [Hl1 Hs1']. pose proof Hl1 as (_ & _ & Hh1 & _).
    assert (Hinit1 : ps_initproc s1 = ps_initproc s) by (rewrite Hs1'; done).
    wp_step. wp_step. wp_step. unfold adopt. wp_step. destruct (bool_decide (p_parent (proc_at s1 j) = Some i)) eqn:E; simpl when.
    + apply bool_decide_eq_true in E. assert (Hn : L_proc j ∉ held (lk_of s1)) by (rewrite Hh1; apply Hfree; [done|by rewrite <- Hat]).
      wp_step. apply wp_plock; [done|]. intros l Hl. wp_go.
      eapply wp_punlock; [by eapply lk_same_ok|exact Hn|exact Hl|]. intros l' Hl'. wp_go.
      split_and!; [done| |].
      * etrans; [exact Hs1|]. split; [exact Hl'|reflexivity].
      * rewrite <- Hinit1. done.
    + wp_go. split_and!; [done|done|]. unfold proc_at. rewrite list_insert_id; [done|]. apply list_lookup_lookup_total_lt. lia.
  - intros r s' (_ & H1 & H2). wp_go. done.
Qed.

(** What each step of [exit_publish] does to the slot [j]. *)
Definition exit_effect (i q init status j : Z) (p : proc) : proc :=
  let p := if init =? j then wake1 init p else p in
  let p := adopt i (Some init) p in
  let p := if q =? j then wake1 q (signal_mark_locked SIGCHLD p) else p in
  if i =? j then set_p_state ZOMBIE (set_p_xstate status p) else p.

Lemma wake1_fields i p :
  p_parent (wake1 i p) = p_parent p /\ p_sig_pending (wake1 i p) = p_sig_pending p /\ p_chan (wake1 i p) = p_chan p /\
  (p_state (wake1 i p) = UNUSED <-> p_state p = UNUSED).
Proof.
  unfold wake1. destruct (bool_decide _ && is_state SLEEPING p) eqn:E; [|done]. split_and!; try done.
  apply andb_true_iff in E as [_ E]. apply bool_decide_eq_true in E. simpl. rewrite E. done.
Qed.

Lemma adopt_fields i init p :
  p_state (adopt i init p) = p_state p /\ p_chan (adopt i init p) = p_chan p /\ p_sig_handlers (adopt i init p) = p_sig_handlers p.
Proof. unfold adopt. by case_bool_. Qed.

Lemma mark_fields signum p :
  let p' := signal_mark_locked signum p in
  p_parent p' = p_parent p /\ p_chan p' = p_chan p /\
  (p_state p' = p_state p \/ p_state p = SLEEPING /\ p_state p' = RUNNABLE) /\
  (ignored (handler_at p signum) signum = false -> p_sig_pending p' = Z.lor (p_sig_pending p) (signal_bit signum)).
Proof.
  unfold signal_mark_locked. destruct (ignored (handler_at p signum) signum); [split_and!; try done; by left|].
  destruct (signum =? SIGKILL); simpl.
  - destruct (is_state SLEEPING _ && _) eqn:E; [|split_and!; try done; by left].
    apply andb_true_iff in E as [E _]. apply bool_decide_eq_true in E. split_and!; try done. by right.
  - destruct (is_state SLEEPING _ && _) eqn:E; [|split_and!; try done; by left].
    apply andb_true_iff in E as [E _]. apply bool_decide_eq_true in E. split_and!; try done. by right.
Qed.

Lemma wake1_wakes i p :
  p_chan p = ProcChan i -> p_state p = SLEEPING \/ p_state p = RUNNABLE -> p_state (wake1 i p) = RUNNABLE.
Proof.
  intros Hc Hs. unfold wake1, is_state. rewrite Hc, bool_decide_eq_true_2 by done. simpl. case_bool_; [done|].
  by destruct Hs.
Qed.

Lemma wake1_handler i p signum : handler_at (wake1 i p) signum = handler_at p signum.
Proof. unfold wake1. by case_bool_. Qed.

(** The slot of the parent. *)
Lemma exit_effect_parent i q init status p :
  q <> i ->
  let p' := exit_effect i q init status q p in
  (p_state p = SLEEPING -> p_chan p = ProcChan q -> p_state p' = RUNNABLE) /\
  (ignored (handler_at p SIGCHLD) SIGCHLD = false -> Z.testbit (p_sig_pending p') SIGCHLD = true).
Proof.
  intros Hqi. unfold exit_effect. rewrite Z.eqb_refl, (proj2 (Z.eqb_neq i q)) by congruence.
  set (p1 := if init =? q then wake1 init p else p). set (p2 := adopt i (Some init) p1).
  destruct (mark_fields SIGCHLD p2) as (_ & M2 & M3 & M4). split.
  - intros Hs Hc.
    assert (H1 : p_chan p1 = ProcChan q /\ (p_state p1 = SLEEPING \/ p_state p1 = RUNNABLE)).
    { unfold p1. destruct (Z.eqb_spec init q) as [->|]; [|by auto].
      rewrite (proj1 (proj2 (proj2 (wake1_fields q p)))). split; [done|right]. apply wake1_wakes; [done|by left]. }
    destruct H1 as [H1 H1']. destruct (adopt_fields i (Some init) p1) as (A1 & A2 & _).
    apply wake1_wakes; [rewrite M2; unfold p2; by rewrite A2|].
    fold p2 in A1. destruct M3 as [->|[_ ->]]; [|by right]. by rewrite A1.
  - intros Hign. rewrite (proj1 (proj2 (wake1_fields q _))), M4.
    + rewrite Z.lor_spec. apply orb_true_iff. right. reflexivity.
    + replace (handler_at p2 SIGCHLD) with (handler_at p SIGCHLD); [done|].
      unfold p2, handler_at. rewrite (proj2 (proj2 (adopt_fields _ _ _))). unfold p1. case_bool_; [|done].
      symmetry. apply wake1_handler.
Qed.

(** The parents afterwards. *)
Lemma exit_effect_adopts i q init status j p :
  p_parent (exit_effect i q init status j p) = if bool_decide (p_parent p = Some i) then Some init else p_parent p.
Proof.
  unfold exit_effect. set (p1 := if init =? j then wake1 init p else p).
  assert (H1 : p_parent p1 = p_parent p) by (unfold p1; case_bool_; [apply wake1_fields|done]).
  assert (H2 : p_parent (adopt i (Some init) p1) = if bool_decide (p_parent p = Some i) then Some init else p_parent p).
  { unfold adopt. rewrite H1. by destruct (bool_decide _). }
  rewrite <- H2. generalize (adopt i (Some init) p1). clear. intros p.
  assert (H : p_parent (if q =? j then wake1 q (signal_mark_locked SIGCHLD p) else p) = p_parent p).
  { case_bool_; [|done]. rewrite (proj1 (wake1_fields _ _)). apply mark_fields. }
  by destruct (i =? j).
Qed.

(** The locks of [exit_publish]: from none held to the process's own. *)
Lemma exit_publish_wp i q init status s :
  pgood s -> held (lk_of s) = [] -> noff (lk_of s) = 0 ->
  0 <= i < NPROC -> 0 <= q < NPROC -> 0 <= init < NPROC ->
  ps_initproc s = Some init -> p_parent (proc_at s i) = Some q -> q <> i -> init <> i ->
  p_parent (proc_at s q) <> Some i -> p_state (proc_at s q) <> UNUSED ->
  wp (exit_publish i status) (fun _ s' =>
    noff (lk_of s') = 1 /\ sie (lk_of s') = false /\ held (lk_of s') = [L_proc i] /\
    length (ps_procs s') = Z.to_nat NPROC /\
    forall j, 0 <= j < NPROC -> proc_at s' j = exit_effect i q init status j (proc_at s j)) s.
Proof.
  intros Hg Hh Hn Hi Hq Hinit Einit Eq Hqi Hii Hqp Hqu. pose proof (pg_len _ Hg) as Hlen.
  unfold exit_publish. wp_step. wp_step. rewrite Einit.
  (* waking init *)
  wp_step. apply wp_plock; [apply Hg|]. intros l1 Hl1. wp_step.
  apply wakeup1_wp. { change (lk_of (lput l1 s)) with l1. destruct Hl1 as (_ & _ & -> & _). left. }
  wp_step. eapply (wp_punlock init (lk_of s)); [apply Hg|apply Hg|exact Hl1|]. intros l2 Hl2.
  set (s1 := lput l2 _).
  assert (Hat1 : forall j, 0 <= j < NPROC -> proc_at s1 j = if init =? j then wake1 init (proc_at s j) else proc_at s j).
  { intros j Hj. exact (upd_proc_at init (wake1 init) j s Hinit Hj Hlen). }
  assert (Hg1 : pgood s1).
  { eapply (psame_good s); [split; [exact Hl2|reflexivity]|apply length_insert|exact Hg]. }
  assert (Hlk1 : lk_of s1 = l2) by done. assert (Hi1 : ps_initproc s1 = Some init) by exact Einit.
  assert (Hh1 : held (lk_of s1) = []) by (rewrite Hlk1; destruct Hl2 as (_ & _ & -> & _); exact Hh).
  assert (Hn1 : noff (lk_of s1) = 0) by (rewrite Hlk1; destruct Hl2 as (-> & _); exact Hn).
  assert (Hpar1 : forall j, 0 <= j < NPROC -> p_parent (proc_at s1 j) = p_parent (proc_at s j)).
  { intros j Hj. rewrite (Hat1 j Hj). case_bool_; [|done]. apply wake1_fields. }
  clearbody s1. clear Hl1 Hl2 Hlk1 l1 l2.
  (* the parent *)
  wp_step. apply wp_plock; [apply Hg1|]. intros l1 Hl1. wp_step. wp_step. wp_step. wp_step.
  eapply (wp_punlock i (lk_of s1)); [apply Hg1|apply Hg1|exact Hl1|]. intros l2 Hl2.
  change (proc_at (lput l1 s1) i) with (proc_at s1 i). rewrite (Hpar1 i Hi), Eq.
  set (s2 := lput l2 (lput l1 s1)).
  assert (Hlk2 : lk_of s2 = l2) by done. assert (Hp2 : ps_procs s2 = ps_procs s1) by done.
  assert (Hi2 : ps_initproc s2 = Some init) by exact Hi1.
  assert (Hh2 : held (lk_of s2) = []) by (rewrite Hlk2; destruct Hl2 as (_ & _ & -> & _); exact Hh1).
  assert (Hn2 : noff (lk_of s2) = 0) by (rewrite Hlk2; destruct Hl2 as (-> & _); exact Hn1).
  assert (Hok2 : lk_ok (lk_of s2)) by (rewrite Hlk2; eapply lk_same_ok; [exact Hl2|apply Hg1]).
  assert (Hat2 : forall j, proc_at s2 j = proc_at s1 j) by done.
  assert (Hlen2 : length (ps_procs s2) = Z.to_nat NPROC) by (rewrite Hp2; apply Hg1).
  clearbody s2. clear Hl1 Hl2 Hlk2 l1 l2.
  wp_step. apply wp_plock; [rewrite Hh2; apply not_elem_of_nil|]. intros l1 Hl1.
  assert (Hok3 : lk_ok l1) by (refine (lk_ok_taken _ _ _ Hok2 _ Hl1); rewrite Hh2; apply not_elem_of_nil).
  destruct Hl1 as (T1 & T2 & T3 & _). rewrite Hh2 in T3. rewrite Hn2 in T1.
  wp_step. apply wp_plock. { change (lk_of (lput l1 s2)) with l1. rewrite T3, list_elem_of_singleton. congruence. }
  intros l2 Hl2. change (lk_of (lput l1 s2)) with l1 in Hl2.
  assert (Hok4 : lk_ok l2) by (refine (lk_ok_taken _ _ _ Hok3 _ Hl2); rewrite T3, list_elem_of_singleton; congruence).
  destruct Hl2 as (U1 & U2 & U3 & _). rewrite T3 in U3. rewrite T1 in U1.
  (* the children *)
  wp_step. eapply wp_mono; [apply reparent_wp|].
  { exact Hok4. } { exact Hlen2. }
  { intros j Hj. change (proc_at (lput l2 (lput l1 s2)) j) with (proc_at s2 j). rewrite (Hat2 j), (Hpar1 j Hj). intros Hp.
    change (lk_of (lput l2 (lput l1 s2))) with l2. rewrite U3, !not_elem_of_cons. split_and!; [|  |apply not_elem_of_nil].
    - intros [= ->]. congruence.
    - intros [= ->]. by apply Hqp. }
  change (ps_initproc (lput l2 (lput l1 s2))) with (ps_initproc s2). change (ps_procs (lput l2 (lput l1 s2))) with (ps_procs s2).
  rewrite Hi2. intros [] s3 [[Hl3 _] Hp3]. change (lk_of (lput l2 (lput l1 s2))) with l2 in Hl3.
  destruct Hl3 as (V1 & V2 & V3 & _). rewrite U1 in V1. rewrite U2 in V2. rewrite U3 in V3.
  assert (Hlen3 : length (ps_procs s3) = Z.to_nat NPROC) by (rewrite Hp3, length_fmap; done).
  assert (Hat3 : forall j, 0 <= j < NPROC -> proc_at s3 j = adopt i (Some init) (proc_at s1 j)).
  { intros j Hj. unfold proc_at. rewrite Hp3, Hp2. apply list_lookup_total_fmap. rewrite <- Hp2, Hlen2. lia. }
  clear Hok3 Hok4 T1 T2 T3 U1 U2 U3 l1 l2.
  (* notifying the parent *)
  unfold signal_send_locked. wp_step. wp_step. wp_step. wp_step.
  assert (Hqs : is_state UNUSED (proc_at s3 q) = false).
  { apply bool_decide_eq_false. rewrite (Hat3 q Hq). rewrite (proj1 (adopt_fields _ _ _)), (Hat1 q Hq).
    case_bool_; [|done]. by rewrite (proj2 (proj2 (proj2 (wake1_fields _ _)))). }
  rewrite Hqs. change (negb (signal_valid SIGCHLD)) with false. cbv iota. simpl orb. cbv iota. wp_go.
  apply wakeup1_wp. { change (lk_of (upd_proc q (signal_mark_locked SIGCHLD) s3)) with (lk_of s3). rewrite V3. right. left. }
  wp_step. wp_step. set (s4 := upd_proc i _ _).
  assert (Hat4 : forall j, 0 <= j < NPROC -> proc_at s4 j = exit_effect i q init status j (proc_at s j)).
  { intros j Hj. unfold s4, exit_effect. rewrite !upd_proc_at; rewrite ?length_upd_proc; try done.
    rewrite (Hat3 j Hj), (Hat1 j Hj). destruct (i =? j), (q =? j); done. }
  assert (Hlk4 : lk_of s4 = lk_of s3) by done.
  assert (Hlen4 : length (ps_procs s4) = Z.to_nat NPROC) by (unfold s4; rewrite !length_upd_proc; done).
  clearbody s4. apply wp_zoom. change (lget s4) with (lk_of s4).
  eapply wp_mono; [apply release_inner; rewrite Hlk4; [rewrite V3; right; left|rewrite V1; done|exact V2]|].
  intros [] l ->. rewrite Hlk4, V1, V2, V3. split_and!; try done. simpl.
  rewrite !filter_cons, filter_nil, decide_True, decide_False by congruence. done.
Qed.

(** C10: [exit] from the wakeup of init to the switch.  With only its own lock
    held it reaches [sched], whose checks pass: it is a zombie with its exit
    status, all its children are init's, a parent asleep in [wait] is runnable
    and has SIGCHLD pending unless it ignores it, and no other slot changed
    but for its parent. *)
Theorem exit_notifies_parent i q init status s :
  pgood s -> held (lk_of s) = [] -> noff (lk_of s) = 0 ->
  0 <= i < NPROC -> 0 <= q < NPROC -> 0 <= init < NPROC ->
  ps_initproc s = Some init -> p_parent (proc_at s i) = Some q -> q <> i -> init <> i ->
  p_parent (proc_at s q) <> Some i -> p_state (proc_at s q) <> UNUSED ->
  exists saved s', (exit_publish i status ;; sched_enter i) s = Ok saved s' /\
    held (lk_of s') = [L_proc i] /\
    p_state (proc_at s' i) = ZOMBIE /\ p_xstate (proc_at s' i) = status /\
    (forall j, 0 <= j < NPROC -> p_parent (proc_at s' j) =
       if bool_decide (p_parent (proc_at s j) = Some i) then Some init else p_parent (proc_at s j)) /\
    (p_state (proc_at s q) = SLEEPING -> p_chan (proc_at s q) = ProcChan q -> p_state (proc_at s' q) = RUNNABLE) /\
    (ignored (handler_at (proc_at s q) SIGCHLD) SIGCHLD = false ->
       Z.testbit (p_sig_pending (proc_at s' q)) SIGCHLD = true) /\
    (forall j, 0 <= j < NPROC -> j <> i -> j <> q -> j <> init -> proc_at s' j = adopt i (Some init) (proc_at s j)).
Proof.
  intros Hg Hh Hn Hi Hq Hinit Einit Eq Hqi Hii Hqp Hqu.
  assert (Hw : wp (exit_publish i status ;; sched_enter i) (fun _ s' => held (lk_of s') = [L_proc i] /\
    forall j, 0 <= j < NPROC -> proc_at s' j = exit_effect i q init status j (proc_at s j)) s).
  { wp_step. eapply wp_mono; [by apply (exit_publish_wp i q init)|]. intros [] s' (H1 & H2 & H3 & H4 & H5).
    unfold sched_enter. wp_step. wp_step. unfold holding. change (lget s') with (lk_of s').
    rewrite H3, bool_decide_eq_true_2 by left. simpl negb. cbv iota. rewrite H1. simpl negb. cbv iota.
    assert (Hz : is_state RUNNING (proc_at s' i) = false).
    { apply bool_decide_eq_false. rewrite (H5 i Hi). unfold exit_effect. rewrite Z.eqb_refl. done. }
    rewrite Hz. unfold intr_get. rewrite H2. wp_go. done. }
  destruct (wp_Ok _ _ _ Hw) as (saved & s' & He & H1 & H2). exists saved, s'. do 2 (split; [done|]).
  destruct (exit_effect_parent i q init status (proc_at s q) Hqi) as [P1 P2]. cbv zeta in P1, P2. rewrite <- (H2 q Hq) in P1, P2.
  rewrite (H2 i Hi). unfold exit_effect at 1 2. rewrite !Z.eqb_refl. do 2 (split; [done|]). split_and!; [|exact P1|exact P2|].
  - intros j Hj. rewrite (H2 j Hj). apply exit_effect_adopts.
  - intros j Hj Hji Hjq Hjn. rewrite (H2 j Hj). unfold exit_effect.
    by rewrite !(proj2 (Z.eqb_neq _ _)) by congruence.
Qed.

(** ** The memory of a process *)

Section memory.
Context {L : Linker} {LOK : LinkerOk L} {PAS : PageAllocSpec}.

(** Every reference the process of slot [p] holds. *)
Definition space_refs (k : kst) (p : proc) (ut kt : tree) : list Z :=
  [p_trapframe p] ++ (user_frames k ut (p_sz p) ++ pages ut) ++ (frames k kt (p_kstack p) 1 ++ pages kt).

Record proc_space (k : kst) (p : proc) (ut kt : tree) : Prop := {
  sp_user : user_space k ut (p_pagetable p) (p_sz p);
  sp_kernel : kernel_space k kt (p_kpagetable p) (p_kstack p) (p_sz p);
  sp_refs : holds_refs k (space_refs k p ut kt);
}.

Lemma user_space_ext k k' t root sz :
  user_space k t root sz -> pt_rep k' t root -> (forall va, pte_of k' t va = pte_of k t va) ->
  user_space k' t root sz /\ user_frames k' t sz = user_frames k t sz.
Proof.
  intros [U1 U2 U3 U4 U5] Hr He. split.
  - split; [done|done| |done|].
    + intros va Hva. rewrite He. by apply U3.
    + intros va Hva. rewrite He. by apply U5.
  - assert (E : forall a n, frames k' t a n = frames k t a n) by (intros a n; apply frames_ext; intros i _; apply He).
    unfold user_frames. rewrite !E. reflexivity.
Qed.

Lemma kernel_space_ext k k' t root kstack sz :
  kernel_space k t root kstack sz -> pt_rep k' t root -> (forall va, pte_of k' t va = pte_of k t va) ->
  kernel_space k' t root kstack sz /\ frames k' t kstack 1 = frames k t kstack 1.
Proof.
  intros [U1 U2 U3 U4 U5 U6 U7] Hr He. split.
  - split; try done.
    + intros va Hva. rewrite He. by apply U3.
    + intros va Hva. rewrite He. by apply U7.
  - apply frames_ext; intros; apply He.
Qed.

Lemma pages_quota k t root p : pt_rep k t root -> p ∈ pages t -> page_ok p /\ quota k p = 1.
Proof. intros Hr [j Hj]%elem_of_pages. by apply (pr_page _ _ _ Hr j). Qed.

Lemma refs_apart k l1 l2 l3 p : holds_refs k (l1 ++ l2 ++ l3) -> quota k p = 1 -> p ∈ l2 -> p ∉ l1.
Proof.
  intros Hh Hq Hp Hp1. rewrite app_assoc in Hh. apply holds_refs_l in Hh.
  by apply (holds_refs_disjoint _ _ _ _ Hh Hq Hp1).
Qed.

(** The memory part of [freeprocvm]. *)
Lemma free_space_wp k p ut kt :
  kinv k -> proc_space k p ut kt ->
  wp (kfree_page (p_trapframe p) ;; proc_freepagetable (p_pagetable p) (p_sz p) ;;
      proc_freekpagetable (p_kpagetable p) (p_kstack p) (p_sz p))
    (fun _ k' => drops k k' (space_refs k p ut kt)) k.
Proof.
  intros Hinv [Hu Hk Hrefs]. pose proof (us_rep _ _ _ _ Hu) as Hru. pose proof (ks_rep _ _ _ _ _ Hk) as Hrk.
  unfold space_refs in *. set (uf := user_frames k ut (p_sz p)) in *. set (kf := frames k kt (p_kstack p) 1) in *.
  wp_step. eapply wp_mono; [exact (kfree_page_drops _ _ Hinv (holds_refs_l _ _ _ Hrefs))|]. intros [] k1 D1.
  assert (Hku : forall x, x ∈ pages ut -> x ∉ [p_trapframe p]).
  { intros x Hx. apply (refs_apart k _ _ _ x Hrefs); [by apply (pages_quota k ut _ x Hru)|apply elem_of_app; by right]. }
  destruct (pt_rep_drops _ _ _ _ _ Hru D1 Hku) as [Hru1 Heu1].
  destruct (user_space_ext _ _ _ _ _ Hu Hru1 Heu1) as [Hu1 Efu]. fold uf in Efu.
  pose proof (holds_refs_app _ _ _ _ Hrefs D1) as Hrefs1.
  wp_step. eapply wp_mono; [apply (proc_freepagetable_spec k1 ut); [apply D1|exact Hu1|rewrite Efu; exact (holds_refs_l _ _ _ Hrefs1)]|].
  rewrite Efu. intros [] k2 D2.
  pose proof (drops_trans _ _ _ _ _ D1 D2) as D12.
  assert (Hkk : forall x, x ∈ pages kt -> x ∉ [p_trapframe p] ++ uf ++ pages ut).
  { intros x Hx. rewrite app_assoc in Hrefs. rewrite <- (app_nil_r (kf ++ pages kt)) in Hrefs.
    apply (refs_apart k _ _ _ x Hrefs); [by apply (pages_quota k kt _ x Hrk)|apply elem_of_app; by right]. }
  destruct (pt_rep_drops _ _ _ _ _ Hrk D12 Hkk) as [Hrk2 Hek2].
  destruct (kernel_space_ext _ _ _ _ _ _ Hk Hrk2 Hek2) as [Hk2 Efk]. fold kf in Efk.
  pose proof (holds_refs_app _ _ _ _ Hrefs1 D2) as Hrefs2.
  eapply wp_mono; [apply (proc_freekpagetable_spec k2 kt); [apply D2|exact Hk2|rewrite Efk; exact Hrefs2]|].
  rewrite Efk. intros [] k3 D3. pose proof (drops_trans _ _ _ _ _ D12 D3) as D. by rewrite <- app_assoc in D.
Qed.

(** ** Locks around the memory *)

Lemma kinv_set_lk k l : kinv k -> unlocked l -> kinv (set_lk l k).
Proof. by intros [K1 K2 K3] Hl. Qed.

Lemma proc_space_set_lk k l p ut kt : proc_space k p ut kt -> proc_space (set_lk l k) p ut kt.
Proof.
  intros [Hu Hk Hr].
  destruct (pt_rep_ext k (set_lk l k) ut _ (us_rep _ _ _ _ Hu)) as [Hru Heu]; [done|done|].
  destruct (pt_rep_ext k (set_lk l k) kt _ (ks_rep _ _ _ _ _ Hk)) as [Hrk Hek]; [done|done|].
  split; [by eapply user_space_ext|by eapply kernel_space_ext|exact Hr].
Qed.

Context {FO : FileOps mst} {EO : EntryOps mst}.

Lemma wp_k {A} (m : M kst A) (Q : A -> mst -> Prop) s :
  wp m (fun a k => Q a (Mst (set_ps_k k (ms_ps s)) (ms_objs s))) (ps_k (ms_ps s)) -> wp (k_ m) Q s.
Proof. intros H. apply wp_zoom. exact (wp_zoom m _ s H). Qed.

Lemma wp_p {A} (m : M pst A) (Q : A -> mst -> Prop) s :
  wp m (fun a p => Q a (Mst p (ms_objs s))) (ms_ps s) -> wp (p_ m) Q s.
Proof. intros H. apply wp_zoom. exact (wp_zoom m _ s H). Qed.

Abbreviation slot s i := (proc_at (ms_ps s) i).
Abbreviation mem s := (ps_k (ms_ps s)).

(** [freeprocvm] drops the references and clears the fields. *)
Lemma freeprocvm_wp s i ut kt (Q : unit -> mst -> Prop) :
  kinv (mem s) -> proc_space (mem s) (slot s i) ut kt ->
  0 <= i < NPROC -> length (ps_procs (ms_ps s)) = Z.to_nat NPROC ->
  (forall k', drops (mem s) k' (space_refs (mem s) (slot s i) ut kt) ->
     Q tt (Mst (set_ps_k k' (upd_proc i (fun p => clear_vm (set_p_trapframe 0 p)) (ms_ps s))) (ms_objs s))) ->
  wp (freeprocvm i) Q s.
Proof.
  intros Hinv Hsp Hi Hlen HQ. destruct s as [ps objs]. simpl in *. set (p := proc_at ps i) in *.
  assert (Htf : p_trapframe p <> 0 /\ p_pagetable p <> 0 /\ p_kpagetable p <> 0).
  { destruct Hsp as [Hu Hk [Hok _]]. apply Forall_app in Hok as [Hok _]. apply (proj1 (Forall_singleton page_ok _)) in Hok.
    destruct (page_ok_range _ Hok) as [? _].
    destruct (page_ok_range (p_pagetable p)) as [? _]; [eapply (pr_page _ _ _ (us_rep _ _ _ _ Hu)), (pr_root _ _ _ (us_rep _ _ _ _ Hu))|].
    destruct (page_ok_range (p_kpagetable p)) as [? _]; [eapply (pr_page _ _ _ (ks_rep _ _ _ _ _ Hk)), (pr_root _ _ _ (ks_rep _ _ _ _ _ Hk))|]. lia. }
  destruct Htf as (T1 & T2 & T3). unfold freeprocvm. wp_step. apply wp_p. wp_step. wp_step. simpl ms_ps. fold p. wp_step.
  rewrite !(proj2 (Z.eqb_neq _ _)) by done. simpl when.
  pose proof (free_space_wp _ _ _ _ Hinv Hsp) as Hw. fold p in Hw.
  apply wp_bind_inv in Hw. apply wp_k. eapply wp_mono; [exact Hw|]. clear Hw. intros [] k1 Hw.
  wp_step. apply wp_p. wp_step. wp_step. wp_step. apply wp_bind_inv in Hw. apply wp_k. eapply wp_mono; [exact Hw|]. clear Hw. intros [] k2 Hw.
  wp_step. apply wp_k. eapply wp_mono; [exact Hw|]. clear Hw. intros [] k3 Hd.
  apply wp_p. wp_go. specialize (HQ k3 Hd). unfold upd_proc in *. simpl in *.
  unfold proc_at at 1. cbn [ps_procs set_ps_procs set_ps_k]. rewrite list_lookup_total_insert_eq by lia.
  rewrite list_insert_insert_eq. exact HQ.
Qed.

(** ** Reaping a zombie *)

(** The same machine with another lock state. *)
Definition relocked (l : lkst) (s : mst) : mst := Mst (lput l (ms_ps s)) (ms_objs s).
Abbreviation lk s := (k_lk (ps_k (ms_ps s))).

Lemma taken_same lk0 l l1 l2 : lk_ok l -> taken lk0 l l1 -> lk_same l1 l2 -> taken lk0 l l2.
Proof.
  intros (Hlen & _) (T1 & T2 & T3 & T4) (S1 & S2 & S3 & S4). unfold taken. rewrite S1, S2, S3, S4 by lia. done.
Qed.

Lemma wp_p_plock i (Q : unit -> mst -> Prop) s :
  L_proc i ∉ held (lk s) -> (forall l, taken (L_proc i) (lk s) l -> Q tt (relocked l s)) -> wp (p_ (plock i)) Q s.
Proof. intros Hn HQ. apply wp_p. apply wp_plock; [done|]. intros l Hl. by apply HQ. Qed.

Lemma wp_p_punlock i l0 (Q : unit -> mst -> Prop) s :
  lk_ok l0 -> L_proc i ∉ held l0 -> taken (L_proc i) l0 (lk s) ->
  (forall l, lk_same l0 l -> Q tt (relocked l s)) -> wp (p_ (punlock i)) Q s.
Proof. intros Hok Hn Ht HQ. apply wp_p. eapply wp_punlock; [done|done|done|]. intros l Hl. by apply HQ. Qed.

Definition no_areas (p : proc) : Prop := forall n, vm_used (p_vmas p !!! n) = false.

Lemma vma_destroy_all_none i s (Q : unit -> mst -> Prop) :
  no_areas (slot s i) -> Q tt s -> wp (vma_destroy_all i) Q s.
Proof.
  intros Hno HQ. unfold vma_destroy_all. wp_step.
  assert (Hgen : forall n k, wp (destroy_vmas n k i) (fun _ s' => s' = s) s).
  { induction n as [|n IH]; intros k; cbn [destroy_vmas]; [done|]. wp_step. apply wp_p. wp_step. wp_step.
    rewrite (Hno k). simpl negb. cbv iota. destruct s. apply IH. }
  eapply wp_mono; [apply Hgen|]. intros [] s' ->. apply wp_k. apply wp_ret. by destruct s as [[] ?].
Qed.

(** [freeproc] of a slot whose memory is already gone. *)
Lemma freeproc_bare i s (Q : unit -> mst -> Prop) :
  0 <= i < NPROC -> length (ps_procs (ms_ps s)) = Z.to_nat NPROC ->
  no_areas (slot s i) -> p_trapframe (slot s i) = 0 -> p_pagetable (slot s i) = 0 -> p_kpagetable (slot s i) = 0 ->
  Q tt (Mst (upd_proc i (fun p => clear_proc (clear_vm (set_p_trapframe 0 p))) (ms_ps s)) (ms_objs s)) ->
  wp (freeproc i) Q s.
Proof.
  intros Hi Hlen Hno H1 H2 H3 HQ. unfold freeproc, freeprocvm. wp_step. apply vma_destroy_all_none; [done|].
  wp_step. wp_step. apply wp_p. wp_step. wp_step. rewrite H1, H2, H3. change (negb (0 =? 0)) with false. simpl when.
  wp_go. apply wp_p. wp_go. apply wp_p. wp_go. apply wp_p. wp_go. destruct s as [ps objs]. cbn [ms_ps ms_objs] in *. unfold upd_proc in *. cbn [ps_procs set_ps_procs] in *.
  unfold proc_at in *. cbn [ps_procs set_ps_procs] in *.
  rewrite !list_lookup_total_insert_eq by (rewrite ?length_insert; lia). rewrite !list_insert_insert_eq. exact HQ.
Qed.

(** What [wait] leaves of the slot. *)
Definition reaped (p : proc) : proc := clear_proc (clear_vm (set_p_trapframe 0 p)).

Lemma reaped_twice p : clear_proc (clear_vm (set_p_trapframe 0 (clear_vm (set_p_trapframe 0 p)))) = reaped p.
Proof. by destruct p. Qed.

Lemma upd_proc_set_k i f k ps : upd_proc i f (set_ps_k k ps) = set_ps_k k (upd_proc i f ps).
Proof. done. Qed.

Lemma relocked_k l k ps objs : relocked l (Mst (set_ps_k k ps) objs) = Mst (set_ps_k (set_lk l k) ps) objs.
Proof. done. Qed.

(** ** The exit status in the parent's memory *)

Definition int_bytes (x : Z) : list Z := [u8 x; u8 (Z.shiftr x 8); u8 (Z.shiftr x 16); u8 (Z.shiftr x 24)].

Lemma int_bytes_at x k : (k < 4)%nat -> u8 (int_bytes x !!! k) = u8 (Z.shiftr x (8 * Z.of_nat k)).
Proof.
  intros Hk. destruct k as [|[|[|[|k]]]]; [| | | |lia]; cbn -[u8 Z.shiftr]; by rewrite u8_small by apply u8_range.
Qed.

(** Where [wait] is told to put the status: nowhere (address 0), four bytes
    that the parent's kernel page table [t] maps writable at the physical
    addresses [pa], an address that belongs to nothing, or bytes beyond the
    end of user memory. *)
Inductive status_dest := NoStatus | StatusAt (t : tree) (pa : Z -> Z) | StatusBad (t : tree) | StatusFar.

Record status_window (k : kst) (root : Z) (t : tree) (pa : Z -> Z) (addr : Z) : Prop := {
  sw_range : 0 < addr /\ addr + 4 <= MAXUVA;
  sw_rep : pt_rep k t root;
  sw_pte v : addr <= v < addr + 4 -> has (pte_of k t v) PTE_V = true /\ has (pte_of k t v) PTE_U = false /\
    has (pte_of k t v) PTE_W = true /\ PTE2PA (pte_of k t v) + v mod PGSIZE = pa v;
  sw_page v : addr <= v < addr + 4 -> page_ok (PTE2PA (pte_of k t v)) /\ quota k (PTE2PA (pte_of k t v)) <> 0 /\
    forall j, t !! j <> Some (PTE2PA (pte_of k t v));
  sw_inj v v' : addr <= v < addr + 4 -> addr <= v' < addr + 4 -> pa v = pa v' -> v = v';
}.

Record status_nowhere (k : kst) (p : proc) (t : tree) (addr : Z) : Prop := {
  sn_rep : pt_rep k t (p_kpagetable p);
  sn_range : 0 < addr /\ addr + 4 <= MAXUVA;
  sn_pte : has (pte_of k t addr) PTE_V = false;
  sn_area : vm_fault_classify p addr = (VM_AREA_INVALID, None);
}.

Definition dest_ok (k : kst) (p : proc) (addr : Z) (d : status_dest) : Prop :=
  match d with
  | NoStatus => addr = 0
  | StatusAt t pa => status_window k (p_kpagetable p) t pa addr
  | StatusBad t => status_nowhere k p t addr
  | StatusFar => MAXUVA < addr + 4
  end.

(** The tables and frames behind the address are not given back with the
    references [l]: the parent has its own. *)
Definition dest_kept (k : kst) (addr : Z) (d : status_dest) (l : list Z) : Prop :=
  match d with
  | NoStatus | StatusFar => True
  | StatusAt t _ => (forall p, p ∈ pages t -> p ∉ l) /\
      forall v, addr <= v < addr + 4 -> occurrences (PTE2PA (pte_of k t v)) l < quota k (PTE2PA (pte_of k t v))
  | StatusBad t => forall p, p ∈ pages t -> p ∉ l
  end.

Definition put_status (d : status_dest) (addr x : Z) (m : gmap Z Z) : gmap Z Z :=
  match d with StatusAt _ pa => put_user pa addr (int_bytes x) m | _ => m end.

Definition recovering (on : bool) (p : proc) : proc := set_p_copy_fault_recovery on (set_p_copy_fault_active on p).

(** What the copy leaves of the parent's slot: the recovery fields are off. *)
Definition settled (d : status_dest) (p : proc) : proc :=
  match d with NoStatus | StatusFar => p | _ => recovering false p end.

Definition status_failed (d : status_dest) : bool :=
  match d with StatusBad _ | StatusFar => true | _ => false end.

Lemma status_window_ext k k' root t pa addr : status_window k root t pa addr -> pt_rep k' t root ->
  (forall v, pte_of k' t v = pte_of k t v) -> (forall v, addr <= v < addr + 4 -> quota k' (PTE2PA (pte_of k t v)) <> 0) ->
  status_window k' root t pa addr.
Proof.
  intros [W1 W2 W3 W4 W5] Hr He Hq. split; [done|done| | |done]; intros v Hv; rewrite He; [by apply W3|].
  destruct (W4 v Hv) as (? & _ & ?). split_and!; [done|by apply Hq|done].
Qed.

Lemma dest_ok_drops k k' p addr d l : dest_ok k p addr d -> dest_kept k addr d l -> drops k k' l -> dest_ok k' p addr d.
Proof.
  destruct d as [|t pa|t|]; simpl; [done| | |done].
  - intros Hw [Hp Hq] Hd. destruct (pt_rep_drops _ _ _ _ _ (sw_rep _ _ _ _ _ Hw) Hd Hp) as [Hr He].
    eapply status_window_ext; [exact Hw|exact Hr|exact He|]. intros v Hv. specialize (Hq v Hv).
    rewrite (dr_quota _ _ _ Hd) by (by apply (sw_page _ _ _ _ _ Hw)). lia.
  - intros [N1 N2 N3 N4] Hp Hd. destruct (pt_rep_drops _ _ _ _ _ N1 Hd Hp) as [Hr He]. split; [done|done|by rewrite He|done].
Qed.

(** The status bytes lie in frames that are in use and are no tables. *)
Lemma status_store_frame k root t pa addr v p a : status_window k root t pa addr -> addr <= v < addr + 4 ->
  page_ok p -> (quota k p = 0 \/ exists j, t !! j = Some p) -> in_page p a -> pa v <> a.
Proof.
  intros [_ _ W3 W4 _] Hv Hp Ho Ha E. destruct (W3 v Hv) as (_ & _ & _ & Ev). rewrite <- Ev in E. subst a. destruct (W4 v Hv) as (Q1 & Q2 & Q3).
  assert (PTE2PA (pte_of k t v) <> p) by (intros <-; destruct Ho as [?|[j Hj]]; [done|by apply (Q3 j)]).
  apply (page_ok_out _ p (PTE2PA (pte_of k t v) + v mod PGSIZE) Q1 Hp H); [|exact Ha]. unfold in_page.
  pose proof (Z.mod_pos_bound v PGSIZE ltac:(done)). lia.
Qed.

Lemma status_store k root t pa addr v c : status_window k root t pa addr -> addr <= v < addr + 4 ->
  status_window (set_mem (fun m => st8 m (pa v) c) k) root t pa addr.
Proof.
  intros Hw Hv. set (k' := set_mem _ k). destruct (pt_rep_ext k k' t root (sw_rep _ _ _ _ _ Hw)) as [Hr He].
  - done.
  - intros j p a Hj Ha. apply ld8_st8_ne. apply (status_store_frame k root t pa addr v p a Hw Hv); [|by eauto|exact Ha].
    by apply (pr_page _ _ _ (sw_rep _ _ _ _ _ Hw) j).
  - eapply status_window_ext; [exact Hw|exact Hr|exact He|]. intros v' Hv'. by apply (sw_page _ _ _ _ _ Hw).
Qed.

Lemma mst_same s : Mst (set_ps_k (mem s) (ms_ps s)) (ms_objs s) = s.
Proof. by destruct s as [[] ?]. Qed.

Lemma access_write_wp i t pa addr v (Q : option Z -> mst -> Prop) s :
  status_window (mem s) (p_kpagetable (slot s i)) t pa addr -> addr <= v < addr + 4 ->
  Q (Some (pa v)) s -> wp (user_access i v VM_FAULT_WRITE) Q s.
Proof.
  intros [[W1 W1'] W2 W3 _ _] Hv HQ. destruct (W3 v Hv) as (F1 & F2 & F3 & F4).
  unfold user_access. apply wp_loop_S. unfold access_body. wp_step. apply wp_p. wp_step. wp_step. wp_step. apply wp_k. cbn [ms_ps].
  unfold translate. wp_step.
  eapply wp_mono; [apply (walk_lookup (mem s) t); [exact W2|change MAXVA with (2 ^ 38); unfold MAXUVA in *; lia]|].
  intros r k [-> ->]. unfold pte_of in F1, F2, F3, F4. destruct (t !! [PX 2 v; PX 1 v]) as [q|] eqn:E; [|done].
  destruct (pte_ptr_nonzero _ _ _ v q W2 E) as [Hp Hnz]. rewrite (proj2 (Z.eqb_neq _ _) Hnz), Hp. wp_go.
  change (VM_FAULT_WRITE =? VM_FAULT_WRITE) with true. cbv iota. rewrite F1, F2, F3. simpl andb. cbv iota. wp_go. rewrite F4.
  destruct s as [[] ?]. exact HQ.
Qed.

Lemma copyout_status_wp i t pa addr bs : forall v s (Q : bool -> mst -> Prop),
  status_window (mem s) (p_kpagetable (slot s i)) t pa addr -> addr <= v -> v + Z.of_nat (length bs) <= addr + 4 ->
  Q true (Mst (set_ps_k (set_mem (put_user pa v bs) (mem s)) (ms_ps s)) (ms_objs s)) -> wp (copyout_values bs i v) Q s.
Proof.
  induction bs as [|c bs IH]; intros v s Q Hw Hlo Hhi HQ; cbn [copyout_values length] in *.
  - wp_go. by destruct s as [[[] ? ? ? ? ? ? ? ?] ?].
  - wp_step. eapply access_write_wp; [exact Hw|lia|]. wp_step. apply wp_k. wp_step. wp_step.
    apply IH; [|lia|lia|exact HQ]. apply (status_store _ _ _ _ _ v c Hw). lia.
Qed.

Lemma access_fails_wp i t addr (Q : option Z -> mst -> Prop) s : status_nowhere (mem s) (slot s i) t addr ->
  Q None s -> wp (user_access i addr VM_FAULT_WRITE) Q s.
Proof.
  intros [W1 W2 W3 W4] HQ. unfold user_access. apply wp_loop_S. unfold access_body. wp_step. apply wp_p. wp_step. wp_step. wp_step. apply wp_k.
  cbn [ms_ps]. set (p := proc_at (ms_ps s) i) in *.
  assert (Hfault : wp (r <- vm_resolve_fault (Some i) (p_pagetable p) addr VM_FAULT_WRITE ;; if r =? VM_FAULT_RESOLVED then ret (inl tt) else ret (inr None))
    (fun y s' => match y with inl u => wp (loop 2 (access_body i addr VM_FAULT_WRITE) u) Q s' | inr r => Q r s' end) s).
  { wp_step. unfold vm_resolve_fault. wp_step. apply wp_p. wp_step. wp_step. cbn [ms_ps]. fold p. rewrite Z.eqb_refl. destruct (Z.leb_spec MAXUVA addr); [lia|]. simpl negb. simpl orb. cbv iota.
    rewrite W4. simpl vm_fault_area_allows. simpl. wp_go. by destruct s. }
  unfold translate. wp_step. eapply wp_mono; [apply (walk_lookup (mem s) t); [exact W1|change MAXVA with (2 ^ 38); unfold MAXUVA in *; lia]|].
  intros r k [-> ->]. unfold pte_of in W3. destruct (t !! [PX 2 addr; PX 1 addr]) as [q|] eqn:E.
  - destruct (pte_ptr_nonzero _ _ _ addr q W1 E) as [Hp Hnz]. rewrite (proj2 (Z.eqb_neq _ _) Hnz), Hp. wp_step. wp_step. wp_step. wp_step. rewrite W3. simpl andb. cbv iota.
    cbn [ms_ps ms_objs]. rewrite mst_same. exact Hfault.
  - unfold pte_ptr. rewrite E. change (0 =? 0) with true. cbv iota. wp_step. cbn [ms_ps ms_objs]. rewrite mst_same. exact Hfault.
Qed.

Lemma upd_proc_comm i j f g ps : i <> j -> 0 <= i < NPROC -> 0 <= j < NPROC -> length (ps_procs ps) = Z.to_nat NPROC ->
  upd_proc i f (upd_proc j g ps) = upd_proc j g (upd_proc i f ps).
Proof.
  intros Hne Hi Hj Hl. unfold upd_proc at 1 3. rewrite !upd_proc_at by done.
  rewrite (proj2 (Z.eqb_neq j i)), (proj2 (Z.eqb_neq i j)) by congruence. unfold upd_proc, set_ps_procs. cbn [ps_procs]. f_equal.
  apply list_insert_insert_ne. lia.
Qed.

(** The copy of the status: it is stored, or the call fails. *)
Lemma copyout_int_wp i addr x d s (Q : Z -> mst -> Prop) :
  0 <= i < NPROC -> length (ps_procs (ms_ps s)) = Z.to_nat NPROC -> d <> NoStatus -> dest_ok (mem s) (slot s i) addr d ->
  Q (if status_failed d then -1 else 0)
    (Mst (set_ps_k (set_mem (put_status d addr x) (mem s)) (upd_proc i (settled d) (ms_ps s))) (ms_objs s)) ->
  wp (copyout_int i addr x) Q s.
Proof.
  intros Hi Hl Hd Hok HQ. unfold copyout_int. fold (int_bytes x).
  set (s1 := Mst (upd_proc i (recovering true) (ms_ps s)) (ms_objs s)).
  assert (Hat : slot s1 i = recovering true (slot s i)) by (etrans; [exact (upd_proc_at i _ i (ms_ps s) Hi Hi Hl)|by rewrite Z.eqb_refl]).
  assert (Hoff : forall m, upd_proc i (recovering false) (set_ps_k m (ms_ps s1)) = set_ps_k m (upd_proc i (recovering false) (ms_ps s))).
  { intros m. rewrite upd_proc_set_k. f_equal. unfold s1. cbn [ms_ps]. rewrite upd_proc_twice by done. unfold upd_proc. by destruct (proc_at (ms_ps s) i). }
  destruct d as [|t pa|t|]; [done| | |]; simpl in Hok, HQ.
  - destruct (sw_range _ _ _ _ _ Hok) as [R1 R2]. rewrite (proj2 (Z.leb_gt _ _)), (proj2 (Z.ltb_ge _ _)) by lia. simpl orb. cbv iota.
    wp_step. unfold set_recovery. apply wp_p. wp_step. wp_step. fold (recovering true). fold s1. apply wp_bind.
    eapply (copyout_status_wp i t pa addr); [by rewrite Hat|lia|done|]. wp_step. apply wp_p. wp_step. fold (recovering false). cbn [ms_ps ms_objs].
    wp_step. rewrite Hoff. exact HQ.
  - destruct (sn_range _ _ _ _ Hok) as [R1 R2]. rewrite (proj2 (Z.leb_gt _ _)), (proj2 (Z.ltb_ge _ _)) by lia. simpl orb. cbv iota.
    wp_step. unfold set_recovery. apply wp_p. wp_step. wp_step. fold (recovering true). fold s1. apply wp_bind. cbn [int_bytes copyout_values]. wp_step.
    eapply (access_fails_wp i t addr); [rewrite Hat; by destruct Hok|]. wp_step. wp_step. apply wp_p. wp_step. fold (recovering false). cbn [ms_ps ms_objs].
    wp_step. specialize (Hoff (mem s)). change (set_ps_k (mem s) (ms_ps s1)) with (ms_ps s1) in Hoff. rewrite Hoff.
    change (put_status (StatusBad t) addr x) with (fun m : gmap Z Z => m) in HQ. by destruct s as [[[] ? ? ? ? ? ? ? ?] ?].
  - assert (E : (MAXUVA <=? addr) || (MAXUVA - addr <? 4) = true) by (apply orb_true_iff; right; apply Z.ltb_lt; lia).
    rewrite E. wp_go. rewrite upd_proc_same in HQ by done.
    change (put_status StatusFar addr x) with (fun m : gmap Z Z => m) in HQ. by destruct s as [[[] ? ? ? ? ? ? ? ?] ?].
Qed.

Lemma dest_ok_set_lk k l p addr d : dest_ok k p addr d -> dest_ok (set_lk l k) p addr d.
Proof.
  destruct d as [|t pa|t|]; simpl; [done| | |done].
  - intros Hw. destruct (pt_rep_ext k (set_lk l k) t _ (sw_rep _ _ _ _ _ Hw)) as [Hr He]; [done|done|].
    eapply status_window_ext; [exact Hw|exact Hr|exact He|]. intros v Hv. by apply (sw_page _ _ _ _ _ Hw).
  - intros [N1 N2 N3 N4]. destruct (pt_rep_ext k (set_lk l k) t _ N1) as [Hr He]; [done|done|]. by split.
Qed.

(** What is left of the child's slot: without its memory when the status could
    not be delivered, and else free. *)
Definition remains (d : status_dest) (p : proc) : proc :=
  if status_failed d then clear_vm (set_p_trapframe 0 p) else reaped p.

Lemma dest_addr k p addr d : dest_ok k p addr d -> negb (addr =? 0) = true <-> d <> NoStatus.
Proof.
  destruct d as [|t pa|t|]; simpl; [by intros ->|intros [[? _] _ _ _ _]|intros [_ [? _] _ _]|intros ?];
    rewrite (proj2 (Z.eqb_neq addr 0)); unfold MAXUVA in *; lia || done.
Qed.

(** The copy, with the child's memory already given back. *)
Lemma wait_status_wp i addr x d s (Q : Z -> mst -> Prop) :
  0 <= i < NPROC -> length (ps_procs (ms_ps s)) = Z.to_nat NPROC -> dest_ok (mem s) (slot s i) addr d ->
  Q (if status_failed d then -1 else 0)
    (Mst (set_ps_k (set_mem (put_status d addr x) (mem s)) (upd_proc i (settled d) (ms_ps s))) (ms_objs s)) ->
  wp (if negb (addr =? 0) then copyout_int i addr x else ret 0) Q s.
Proof.
  intros Hi Hl Hok HQ. pose proof (dest_addr _ _ _ _ Hok) as E. destruct (negb (addr =? 0)).
  - apply (copyout_int_wp i addr x d); [done|done|by apply E|done|done].
  - assert (d = NoStatus) as -> by (destruct d; [done|..]; by specialize (proj2 E ltac:(discriminate))). wp_step. simpl in HQ. rewrite upd_proc_same in HQ by done.
    change (put_status NoStatus addr x) with (fun m : gmap Z Z => m) in HQ. by destruct s as [[[] ? ? ? ? ? ? ? ?] ?].
Qed.

(** The locks of the parent, then of the child, are held above [l0]. *)
Lemma wait_reap_wp i j addr d ut kt l0 l1 s :
  lk_ok l0 -> L_proc i ∉ held l0 -> taken (L_proc i) l0 l1 -> L_proc j ∉ held l1 -> taken (L_proc j) l1 (lk s) ->
  kinv (mem s) -> 0 <= i < NPROC -> 0 <= j < NPROC -> i <> j -> length (ps_procs (ms_ps s)) = Z.to_nat NPROC ->
  no_areas (slot s j) -> proc_space (mem s) (slot s j) ut kt ->
  dest_ok (mem s) (slot s i) addr d -> dest_kept (mem s) addr d (space_refs (mem s) (slot s j) ut kt) ->
  wp (wait_reap i j addr) (fun r s' => r = (if status_failed d then -1 else p_pid (slot s j)) /\ exists k' l, lk_same l0 l /\
    drops (mem s) k' (space_refs (mem s) (slot s j) ut kt) /\ dest_ok k' (slot s i) addr d /\
    s' = Mst (set_ps_k (set_lk l (set_mem (put_status d addr (p_xstate (slot s j))) k'))
           (upd_proc j (remains d) (upd_proc i (settled d) (ms_ps s)))) (ms_objs s)) s.
Proof.
  intros Hok0 Hni Hl1 Hnj Hl2 Hinv Hi Hj Hij Hlen Hno Hsp Hdo Hdk.
  assert (Hok1 : lk_ok l1) by exact (lk_ok_taken _ _ _ Hok0 Hni Hl1).
  unfold wait_reap. wp_step. apply wp_p. wp_step. wp_step. wp_step. destruct s as [ps objs]. cbn [ms_ps ms_objs] in *.
  apply (freeprocvm_wp _ _ ut kt); [exact Hinv|exact Hsp|exact Hj|exact Hlen|]. cbn [ms_ps ms_objs].
  intros k' Hd. set (f := fun p => clear_vm (set_p_trapframe 0 p)).
  pose proof (dest_ok_drops _ _ _ _ _ _ Hdo Hdk Hd) as Hdo'. pose proof (dr_frame _ _ _ Hd) as (D2 & _).
  wp_step. apply (wait_status_wp i addr (p_xstate (proc_at ps j)) d); cbn [ms_ps ms_objs].
  { exact Hi. }
  { exact (eq_trans (length_insert _ _ _) Hlen). }
  { change (dest_ok k' (proc_at (upd_proc j f ps) i) addr d). rewrite upd_proc_at by done. by rewrite (proj2 (Z.eqb_neq j i)) by congruence. }
  rewrite upd_proc_set_k, (upd_proc_comm i j (settled d) f) by done. cbn [ps_k set_ps_k].
  set (ps1 := upd_proc i (settled d) ps). assert (Hlen1 : length (ps_procs ps1) = Z.to_nat NPROC) by exact (eq_trans (length_insert _ _ _) Hlen).
  set (k2 := set_mem _ k'). change (set_ps_k k2 (set_ps_k k' (upd_proc j f ps1))) with (set_ps_k k2 (upd_proc j f ps1)).
  assert (Hj1 : proc_at ps1 j = proc_at ps j) by (unfold ps1; rewrite upd_proc_at by done; by rewrite (proj2 (Z.eqb_neq i j))).
  assert (Hat : proc_at (set_ps_k k2 (upd_proc j f ps1)) j = f (proc_at ps j)).
  { change (proc_at (upd_proc j f ps1) j = f (proc_at ps j)). rewrite upd_proc_at by done. by rewrite Z.eqb_refl, Hj1. }
  assert (Hrel : forall X : Z, wp (p_ (punlock j) ;; p_ (punlock i) ;; ret X) (fun r s' => r = X /\ exists l, lk_same l0 l /\
    s' = Mst (set_ps_k (set_lk l k2) (upd_proc j (remains d) ps1)) objs) (Mst (set_ps_k k2 (upd_proc j (remains d) ps1)) objs)).
  { intros X. wp_step. apply (wp_p_punlock j l1); [exact Hok1|exact Hnj|exact (taken_same _ _ _ _ Hok1 Hl2 D2)|].
    intros l3 Hl3. wp_step. apply (wp_p_punlock i l0); [exact Hok0|exact Hni|exact (taken_same _ _ _ _ Hok0 Hl1 Hl3)|].
    intros l4 Hl4. wp_go. split; [done|]. exists l4. split; [exact Hl4|reflexivity]. }
  unfold remains in *. destruct (status_failed d).
  - change (-1 <? 0) with true. cbv iota. eapply wp_mono; [exact (Hrel (-1))|]. intros r s' (-> & l & Hl & ->).
    split; [done|]. exists k', l. by split_and!.
  - change (0 <? 0) with false. cbv iota. wp_step.
    apply freeproc_bare; cbn [ms_ps ms_objs]; rewrite ?Hat; [exact Hj|exact (eq_trans (length_insert _ _ _) Hlen1)|exact Hno|done|done|done|].
    rewrite upd_proc_set_k, upd_proc_twice by done.
    assert (E : upd_proc j (fun p => clear_proc (clear_vm (set_p_trapframe 0 (f p)))) ps1 = upd_proc j reaped ps1).
    { unfold upd_proc, f. rewrite reaped_twice. reflexivity. }
    rewrite E. eapply wp_mono; [exact (Hrel (p_pid (proc_at ps j)))|]. intros r s' (-> & l & Hl & ->).
    split; [done|]. exists k', l. by split_and!.
Qed.

(** Slots that are no zombie children are passed over. *)
Lemma wait_skip i addr m n (Q : Z + bool -> mst -> Prop) : forall np hk s,
  lk_ok (lk s) ->
  (forall x, np <= x < np + Z.of_nat m -> p_parent (slot s x) = Some i ->
     L_proc x ∉ held (lk s) /\ p_state (slot s x) <> ZOMBIE) ->
  (forall l hk', lk_same (lk s) l -> (hk' = hk \/ hk' = true) -> wp (wait_scan n (np + Z.of_nat m) i addr hk') Q (relocked l s)) ->
  wp (wait_scan (m + n) np i addr hk) Q s.
Proof.
  induction m as [|m IH]; intros np hk s Hok Hx HQ.
  - specialize (HQ (lk s) hk ltac:(done) ltac:(by left)). replace (np + Z.of_nat 0) with np in HQ by lia.
    destruct s as [[[] ? ? ? ? ? ? ? ?] ?]. exact HQ.
  - cbn [Nat.add wait_scan]. wp_step. apply wp_p. wp_step. wp_step. cbn [ms_ps ms_objs].
    assert (Hnext : forall l hk', lk_same (lk s) l -> (hk' = hk \/ hk' = true) ->
      wp (wait_scan (m + n) (np + 1) i addr hk') Q (relocked l s)).
    { intros l hk' Hl Hhk. pose proof Hl as (_ & _ & Hh & _). apply IH.
      - exact (lk_same_ok _ _ Hl Hok).
      - intros x Hr Hp. change (L_proc x ∉ held l /\ p_state (slot s x) <> ZOMBIE). rewrite Hh. apply Hx; [lia|exact Hp].
      - intros l' hk2 Hl' Hhk2. replace (np + 1 + Z.of_nat m) with (np + Z.of_nat (S m)) by lia.
        apply (HQ l' hk2); [etrans; [exact Hl|exact Hl']|]. destruct Hhk2 as [->| ->]; [done|by right]. }
    destruct (bool_decide (p_parent (slot s np) = Some i)) eqn:E.
    + apply bool_decide_eq_true in E. destruct (Hx np ltac:(lia) E) as [Hn Hz].
      wp_step. apply wp_p_plock; [destruct s; exact Hn|]. intros l Hl. cbv beta. wp_step. apply wp_p. wp_go.
      change (proc_at (ms_ps (relocked l _)) np) with (slot s np). unfold is_state. rewrite bool_decide_eq_false_2 by done.
      wp_step. apply (wp_p_punlock np (lk s)); [exact Hok|exact Hn|exact Hl|]. intros l' Hl'.
      apply (Hnext l' true); [exact Hl'|by right].
    + specialize (Hnext (lk s) hk ltac:(done) ltac:(by left)). destruct s as [[[] ? ? ? ? ? ? ? ?] ?]. exact Hnext.
Qed.

(** [freeprocvm] gives back everything a process holds.  For a slot whose
    two page tables map what [allocproc], [fork] and the fault handler map
    there, it drops exactly one reference for the trapframe page, for every
    page of both tables, for the kernel stack and for every mapping of a user
    frame; it touches no byte of a page that stays in use and clears the
    slot's memory fields. *)
Theorem freeprocvm_reclaims s i ut kt :
  kinv (mem s) -> 0 <= i < NPROC -> length (ps_procs (ms_ps s)) = Z.to_nat NPROC ->
  proc_space (mem s) (slot s i) ut kt ->
  exists s', freeprocvm i s = Ok tt s' /\ kinv (mem s') /\
    (forall p, page_ok p -> quota (mem s') p = quota (mem s) p - occurrences p (space_refs (mem s) (slot s i) ut kt)) /\
    (forall p, p ∈ pages ut ++ pages kt -> quota (mem s') p = 0) /\
    (forall p b, page_ok p -> in_page p b -> 0 < quota (mem s') p ->
       ld8 (k_mem (mem s')) b = ld8 (k_mem (mem s)) b) /\
    slot s' i = clear_vm (set_p_trapframe 0 (slot s i)) /\
    (forall j, 0 <= j < NPROC -> j <> i -> slot s' j = slot s j).
Proof.
  intros Hinv Hi Hlen Hsp.
  assert (Hw : wp (freeprocvm i) (fun _ s' => exists k', drops (mem s) k' (space_refs (mem s) (slot s i) ut kt) /\
    s' = Mst (set_ps_k k' (upd_proc i (fun p => clear_vm (set_p_trapframe 0 p)) (ms_ps s))) (ms_objs s)) s).
  { apply (freeprocvm_wp _ _ ut kt); try done. intros k' Hd. by exists k'. }
  destruct (wp_Ok _ _ _ Hw) as ([] & s' & He & k' & Hd & ->). eexists. split; [exact He|]. cbn [ms_ps ms_objs ps_k set_ps_k].
  pose proof Hd as [D1 D2 D3 D4]. split_and!; [exact D1|exact D3| | | |].
  - intros p Hp. destruct Hsp as [Hu Hk [Hok Hh]].
    assert (Hq : page_ok p /\ quota (mem s) p = 1 /\ p ∈ space_refs (mem s) (slot s i) ut kt).
    { unfold space_refs. apply elem_of_app in Hp as [Hp|Hp].
      - destruct (pages_quota _ _ _ _ (us_rep _ _ _ _ Hu) Hp). split_and!; [done|done|]. apply elem_of_app. right. apply elem_of_app. left. apply elem_of_app. by right.
      - destruct (pages_quota _ _ _ _ (ks_rep _ _ _ _ _ Hk) Hp). split_and!; [done|done|]. do 3 (apply elem_of_app; right). done. }
    destruct Hq as (Hpok & Hq & Hin). specialize (Hh p Hpok). rewrite (D3 p Hpok). apply occurrences_elem in Hin. lia.
  - intros p b Hp Hb Hq. apply D4. intros p' Hp' Hb' _.
    destruct (decide (p = p')) as [->|Hne]; [done|]. by destruct (page_ok_out p p' b).
  - exact (eq_trans (upd_proc_at i _ i (ms_ps s) Hi Hi Hlen) ltac:(by rewrite Z.eqb_refl)).
  - intros j Hj Hne. exact (eq_trans (upd_proc_at i _ j (ms_ps s) Hi Hj Hlen) ltac:(by rewrite (proj2 (Z.eqb_neq i j)))).
Qed.

(** The bytes [put_status] writes. *)
Definition status_byte (d : status_dest) (addr a : Z) : Prop :=
  match d with StatusAt _ pa => exists v, addr <= v < addr + 4 /\ a = pa v | _ => False end.

Lemma put_status_out d addr x m a : ~ status_byte d addr a -> ld8 (put_status d addr x m) a = ld8 m a.
Proof. destruct d; try done. intros H. apply put_user_out. intros v Hv <-. apply H. by exists v. Qed.

Lemma kinv_status k p addr x d : kinv k -> dest_ok k p addr d -> kinv (set_mem (put_status d addr x) k).
Proof.
  intros Hinv Hok. apply (kinv_mem k (put_status d addr x (k_mem k))); [|done]. intros q a Hq H0 Ha.
  apply put_status_out. destruct d as [|t pa|t|]; simpl; try tauto. intros (v & Hv & ->).
  by apply (status_store_frame _ _ _ _ _ v q (pa v) Hok Hv Hq (or_introl H0) (in_page_word _ _ Ha)).
Qed.

(** What [wait] has done when it returns. *)
Record reaps (s : mst) (i j addr : Z) (d : status_dest) (refs : list Z) (s' : mst) : Prop := {
  rp_locks : held (lk s') = [];
  rp_inv : kinv (mem s');
  rp_child : slot s' j = remains d (slot s j);
  rp_parent : slot s' i = settled d (slot s i);
  rp_slots x : 0 <= x < NPROC -> x <> i -> x <> j -> slot s' x = slot s x;
  rp_quota p : page_ok p -> quota (mem s') p = quota (mem s) p - occurrences p refs;
  rp_status : match d with
    | StatusAt _ pa => forall n, 0 <= n < 4 ->
        ld8 (k_mem (mem s')) (pa (addr + n)) = u8 (Z.shiftr (p_xstate (slot s j)) (8 * n))
    | _ => True
    end;
  rp_bytes p a : page_ok p -> in_page p a -> 0 < quota (mem s') p -> ~ status_byte d addr a ->
    ld8 (k_mem (mem s')) a = ld8 (k_mem (mem s)) a;
}.

Lemma reaps_final s i j addr d refs k' l l3 : kinv (mem s) -> 0 <= i < NPROC -> 0 <= j < NPROC -> i <> j ->
  length (ps_procs (ms_ps s)) = Z.to_nat NPROC -> held (lk s) = [] ->
  lk_same (lk s) l -> drops (set_lk l3 (mem s)) k' refs -> dest_ok k' (slot s i) addr d ->
  reaps s i j addr d refs (Mst (set_ps_k (set_lk l (set_mem (put_status d addr (p_xstate (slot s j))) k'))
    (upd_proc j (remains d) (upd_proc i (settled d) (ms_ps s)))) (ms_objs s)).
Proof.
  intros Hinv Hi Hj Hij Hlen Hh Hl [D1 D2 D3 D4] Hok. pose proof Hl as (_ & _ & Hlh & _).
  assert (Hlen1 : length (ps_procs (upd_proc i (settled d) (ms_ps s))) = Z.to_nat NPROC) by exact (eq_trans (length_insert _ _ _) Hlen).
  assert (Hat : forall x, 0 <= x < NPROC -> proc_at (upd_proc j (remains d) (upd_proc i (settled d) (ms_ps s))) x =
    if j =? x then remains d (slot s x) else if i =? x then settled d (slot s x) else slot s x).
  { intros x Hx. rewrite !upd_proc_at by done. destruct (Z.eqb_spec j x) as [->|]; [|done]. by rewrite (proj2 (Z.eqb_neq i x)). }
  split; cbn [ms_ps ms_objs ps_k set_ps_k].
  - by etrans.
  - apply kinv_set_lk; [by eapply kinv_status|]. eapply unlocked_same; [exact Hl|apply Hinv].
  - exact (eq_trans (Hat j Hj) ltac:(by rewrite Z.eqb_refl)).
  - exact (eq_trans (Hat i Hi) ltac:(by rewrite Z.eqb_refl, (proj2 (Z.eqb_neq j i)) by congruence)).
  - intros x Hx H1 H2. exact (eq_trans (Hat x Hx) ltac:(by rewrite (proj2 (Z.eqb_neq j x)), (proj2 (Z.eqb_neq i x)) by congruence)).
  - exact D3.
  - destruct d as [|t pa|t|]; [done| |done|done]. intros n Hn. simpl in Hok.
    change (ld8 (put_user pa addr (int_bytes (p_xstate (slot s j))) (k_mem k')) (pa (addr + n)) = u8 (Z.shiftr (p_xstate (slot s j)) (8 * n))).
    replace (addr + n) with (addr + Z.of_nat (Z.to_nat n)) by lia. rewrite put_user_in.
    + rewrite int_bytes_at by lia. by rewrite Z2Nat.id by lia.
    + simpl. lia.
    + intros v v' Hv Hv'. apply (sw_inj _ _ _ _ _ Hok); simpl in *; lia.
  - intros p a Hp Ha Hq Hn. etrans; [by apply put_status_out|]. apply D4. intros q Hq1 Hq2 _.
    destruct (decide (p = q)) as [->|Hne]; [done|]. by destruct (page_ok_out p q a).
Qed.


End memory.
