(* ===== verification/ProcDemo.v ===== *)
(** * A process on a small machine

    Twenty pages of memory, none of them free.  Slot 1 of the table holds a
    zombie, the child of slot 0, with a page of heap that another process
    shares, a trapframe and a kernel stack; two pages of the parent receive the
    exit status.  The theorems on the life cycle of a process apply to it. *)

From S2P Require Import Prelude Riscv Memory Spinlock Kalloc Kmalloc Vm VmTree VmUnmap VmCow VmCheck VmProps VmFree VmSpace Proctab Signal Sched SchedProps Mmap Vmfault Proc ProcProps.
Import Hart.

(** ** Checks on concrete tables *)

Section check.
Context {L : Linker}.

(** [f] holds of the page number and the entry of every valid leaf. *)
Definition check_leaves (f : Z -> Z -> bool) (s : kst) (ts : list (list Z * Z)) : bool :=
  forallb (fun kp : list Z * Z =>
    match fst kp with
    | [a; b] => forallb (fun i => let v := ld64 (k_mem s) (pte_addr (snd kp) i) in
                  negb (has v PTE_V) || f (a * 2 ^ 18 + b * 2 ^ 9 + i) v) (seqZ 0 512)
    | _ => true
    end) ts.

Lemma vpn_PX va : 0 <= va < MAXVA -> va / PGSIZE = PX 2 va * 2 ^ 18 + PX 1 va * 2 ^ 9 + PX 0 va.
Proof.
  change MAXVA with 274877906944. intros Hva. rewrite !PX_div by lia. unfold PGSIZE.
  change (2 ^ (12 + 9 * 2)) with (4096 * 262144). change (2 ^ (12 + 9 * 1)) with (4096 * 512). change (2 ^ (12 + 9 * 0)) with 4096.
  rewrite <- !Z.div_div by lia. assert (0 <= va / 4096 < 67108864) by (split; [apply Z.div_pos; lia|apply Z.div_lt_upper_bound; lia]).
  generalize dependent (va / 4096). intros x Hx. dlia.
Qed.

Lemma check_leaves_spec f s ts va :
  check_leaves f s ts = true -> 0 <= va < MAXVA -> has (pte_of s (list_to_map ts) va) PTE_V = true ->
  f (va / PGSIZE) (pte_of s (list_to_map ts) va) = true.
Proof.
  unfold check_leaves, pte_of. intros H Hva. destruct (list_to_map ts !! [PX 2 va; PX 1 va]) as [q|] eqn:E; [|by rewrite has_zero].
  intros Hv. apply elem_of_list_to_map_2 in E. rewrite forallb_forall in H. specialize (H _ (proj1 (list_elem_of_In _ _) E)).
  cbn [fst snd] in H. rewrite forallb_forall in H. specialize (H (PX 0 va)).
  rewrite <- list_elem_of_In, elem_of_seqZ in H. specialize (H ltac:(pose proof (PX_range 0 va ltac:(lia)); lia)).
  rewrite Hv in H. simpl in H. rewrite (vpn_PX va Hva). exact H.
Qed.

Definition check_low (ts : list (list Z * Z)) : bool :=
  forallb (fun kp : list Z * Z => match fst kp with i :: _ => i <? 256 | [] => true end) ts.

Lemma check_low_spec ts : check_low ts = true -> low_tree (list_to_map ts).
Proof.
  unfold check_low. rewrite forallb_forall. intros H i k p E. apply elem_of_list_to_map_2, list_elem_of_In in E.
  specialize (H _ E). simpl in H. by apply Z.ltb_lt.
Qed.

Definition check_refs (s : kst) (l : list Z) : bool :=
  forallb (fun p => page_okb p && (occurrences p l <=? quota s p)) l.

Lemma check_refs_spec s l : check_refs s l = true -> holds_refs s l.
Proof.
  unfold check_refs. rewrite forallb_forall. intros H. split.
  - apply Forall_forall. intros p Hp. specialize (H p (proj1 (list_elem_of_In _ _) Hp)). apply andb_true_iff in H as [H _].
    by apply page_okb_spec.
  - intros p _. destruct (decide (p ∈ l)) as [Hp|Hp].
    + specialize (H p (proj1 (list_elem_of_In _ _) Hp)). apply andb_true_iff in H as [_ H]. by apply Z.leb_le.
    + rewrite (occurrences_notin p l Hp). apply quota_range.
Qed.

End check.

Module ProcDemo.

#[export] Instance linker20 : Linker := {|
  kend := PHYSTOP - 20 * PGSIZE; etext := KERNBASE + 16 * PGSIZE;
  trampoline := KERNBASE; sigtramp := KERNBASE + PGSIZE |}.
#[export] Instance linker20_ok : LinkerOk linker20.
Proof. split; simpl; try done; vm_compute; intuition congruence. Qed.

(** No file is ever open here. *)
#[export] Instance no_files : FileOps mst := {|
  fo_dup _ := ret tt; fo_close _ := ret tt; fo_read_at _ _ _ _ := ret (-1); fo_write_at _ _ _ _ := ret (-1);
  fo_entry _ := ret false; fo_device _ := ret false; fo_readable _ := ret false; fo_writable _ := ret false; fo_mmap _ _ _ _ := ret (-1) |}.

Definition pg (i : Z) : Z := PHYSTOP - 20 * PGSIZE + i * PGSIZE.

(** The user table maps page 0 of the heap, the trampoline and the trapframe,
    the kernel's table the kernel stack and page 0. *)
Definition u_tree : list (list Z * Z) := [([], pg 0); ([0], pg 1); ([0; 0], pg 2); ([255], pg 3); ([255; 511], pg 4)].
Definition k_tree : list (list Z * Z) := [([], pg 5); ([0], pg 6); ([0; 0], pg 7); ([255], pg 8); ([255; 511], pg 9)].
(** The parent's kernel table maps pages 1 and 2 of its heap. *)
Definition p_tree : list (list Z * Z) := [([], pg 13); ([0], pg 14); ([0; 0], pg 15)].
Definition heap_page : Z := pg 10.
Definition tf_page : Z := pg 11.
Definition stack_page : Z := pg 12.

Definition memory : gmap Z Z :=
  let w := fun m (x : Z * Z * Z) => let '(p, i, v) := x in st64 m (pte_addr p i) v in
  fold_left w
    [ (pg 0, 0, table_pte (pg 1)); (pg 1, 0, table_pte (pg 2)); (pg 0, 255, table_pte (pg 3)); (pg 3, 511, table_pte (pg 4));
      (pg 2, 0, map_entry heap_page (Z.lor (Z.lor PTE_R PTE_U) PTE_COW));
      (pg 4, 511, map_entry KERNBASE PTE_RX); (pg 4, 510, map_entry tf_page PTE_RW);
      (pg 5, 0, table_pte (pg 6)); (pg 6, 0, table_pte (pg 7)); (pg 5, 255, table_pte (pg 8)); (pg 8, 511, table_pte (pg 9));
      (pg 7, 0, map_entry heap_page (Z.lor PTE_R PTE_COW)); (pg 9, 509, map_entry stack_page PTE_RW);
      (pg 13, 0, table_pte (pg 14)); (pg 14, 0, table_pte (pg 15)); (pg 15, 1, map_entry (pg 17) PTE_RW); (pg 15, 2, map_entry (pg 16) PTE_RW) ] ∅.

(** Every page has one user, the heap page two. *)
Definition quotas : gmap Z Z :=
  <[heap_page / PGSIZE := 2]> (list_to_map ((fun i => (pg i / PGSIZE, 1)) <$> seqZ 0 20)).

Definition kstate : kst := Kst memory [0; 0] quotas [] (Lkst 0 false false []) 0.

Definition zombie : proc :=
  set_p_state ZOMBIE (set_p_parent (Some 0) (set_p_pid 7 (set_p_xstate 3 (set_p_sz PGSIZE (set_p_kstack (KSTACK 0)
    (set_p_pagetable (pg 0) (set_p_kpagetable (pg 5) (set_p_trapframe tf_page zero_proc)))))))).
Definition parent : proc := set_p_state RUNNING zero_proc.

Definition procs : list proc := [parent; zombie] ++ replicate 62 zero_proc.
Definition state : mst := Mst (Pst kstate procs [Cpu (Some 0) false; Cpu None false] (Some 0) 8 [0; 0; 0; 0] 0 0 0) ∅.

Definition ut : tree := list_to_map u_tree.
Definition kt : tree := list_to_map k_tree.

Definition leaf_ok (dom : Z -> bool) (v pte : Z) : bool := dom v && negb (PTE_FLAGS pte =? PTE_V).
Definition user_dom (v : Z) : bool :=
  vpn_in 0 (heap_pages PGSIZE) v || vpn_in USER_STACK_START NSTACK v || vpn_in SIGTRAMP 3 v.
Definition kernel_dom (v : Z) : bool :=
  region_in kernel_regions v || vpn_in 0 (heap_pages PGSIZE) v || vpn_in USER_STACK_START NSTACK v || vpn_in (KSTACK 0) 1 v.

Lemma kstate_ok :
  check_kinv kstate [] [] && check_tree kstate u_tree (pg 0) && check_tree kstate k_tree (pg 5) &&
  check_low u_tree && check_low k_tree && check_leaves (leaf_ok user_dom) kstate u_tree &&
  check_leaves (leaf_ok kernel_dom) kstate k_tree && check_refs kstate (space_refs kstate zombie ut kt) = true.
Proof. vm_compute. reflexivity. Qed.

Lemma kstate_inv : kinv kstate.
Proof. pose proof kstate_ok as H. rewrite !andb_true_iff in H. destruct H as [[[[[[[H _] _] _] _] _] _] _]. by eapply check_kinv_spec. Qed.

(** A leaf check gives the domain and the leaves. *)
Lemma leaf_ok_spec dom ts :
  check_leaves (leaf_ok dom) kstate ts = true ->
  leafy kstate (list_to_map ts) /\ forall va, 0 <= va < MAXVA -> has (pte_of kstate (list_to_map ts) va) PTE_V = true -> dom (va / PGSIZE) = true.
Proof.
  intros H. split; intros va Hva Hv; pose proof (check_leaves_spec _ _ _ va H Hva Hv) as E; unfold leaf_ok in E;
    apply andb_true_iff in E as [E1 E2]; [|done]. apply negb_true_iff, Z.eqb_neq in E2. done.
Qed.

Lemma zombie_space : proc_space kstate zombie ut kt.
Proof.
  pose proof kstate_ok as H. rewrite !andb_true_iff in H. destruct H as [[[[[[[_ H1] H2] H3] H4] H5] H6] H7].
  apply leaf_ok_spec in H5 as [L1 D1], H6 as [L2 D2].
  assert (Hsz : 0 <= PGSIZE <= USER_STACK_GUARD) by (split; vm_compute; discriminate).
  split; [| |by apply check_refs_spec].
  - split; [by apply check_tree_spec|by apply check_low_spec|exact L1|exact Hsz|exact D1].
  - split; [by apply check_tree_spec|by apply check_low_spec|exact L2|exact Hsz|split_and!; vm_compute; congruence| |exact D2].
    exact (kstack_apart PGSIZE Hsz).
Qed.

(** A table over this memory, with no lock held. *)
Definition table (ps : list proc) : pst := Pst kstate ps [Cpu (Some 0) false; Cpu None false] (Some 0) 8 [0; 0; 0; 0] 0 0 0.

Lemma table_good ps : length ps = Z.to_nat NPROC -> pgood (table ps).
Proof.
  intros Hl. split; [|intros i; apply not_elem_of_nil|exact Hl]. split_and!; [done|done|constructor].
Qed.

Lemma zombie_areas : no_areas zombie.
Proof. intros n. destruct (decide (n < 16)%nat); [by do 16 (destruct n; [reflexivity|]); lia|]. by do 16 (destruct n; [reflexivity|]). Qed.

Lemma freeprocvm_reclaims_witness :
  quota kstate heap_page = 2 /\
  exists s', freeprocvm 1 state = Ok tt s' /\ kinv (ps_k (ms_ps s')) /\
    (forall p, page_ok p -> quota (ps_k (ms_ps s')) p = quota kstate p - occurrences p (space_refs kstate zombie ut kt)) /\
    (forall p, p ∈ pages ut ++ pages kt -> quota (ps_k (ms_ps s')) p = 0) /\
    (forall p b, page_ok p -> in_page p b -> 0 < quota (ps_k (ms_ps s')) p ->
       ld8 (k_mem (ps_k (ms_ps s'))) b = ld8 (k_mem kstate) b) /\
    proc_at (ms_ps s') 1 = clear_vm (set_p_trapframe 0 zombie) /\
    (forall j, 0 <= j < NPROC -> j <> 1 -> proc_at (ms_ps s') j = proc_at (table procs) j).
Proof.
  split; [reflexivity|].
  exact (freeprocvm_reclaims state 1 ut kt kstate_inv ltac:(done) eq_refl zombie_space).
Defined.

(** The parent asks for the status at an address whose four bytes lie in two
    pages. *)
Definition waiting : list proc := [set_p_kpagetable (pg 13) parent; zombie] ++ replicate 62 zero_proc.
Definition wait_state : mst := Mst (table waiting) ∅.
Definition pt : tree := list_to_map p_tree.
Definition status_addr : Z := 2 * PGSIZE - 2.
Definition status_pa (v : Z) : Z := PTE2PA (pte_of kstate pt v) + v mod PGSIZE.

Definition status_check (v : Z) : bool :=
  let e := pte_of kstate pt v in
  has e PTE_V && negb (has e PTE_U) && has e PTE_W && page_okb (PTE2PA e) && negb (quota kstate (PTE2PA e) =? 0) &&
  negb (existsb (Z.eqb (PTE2PA e)) (snd <$> p_tree)) &&
  (occurrences (PTE2PA e) (space_refs kstate zombie ut kt) <? quota kstate (PTE2PA e)).

Lemma status_ok :
  check_tree kstate p_tree (pg 13) && forallb status_check (seqZ status_addr 4) && nodupb (status_pa <$> seqZ status_addr 4) &&
  forallb (fun p => negb (existsb (Z.eqb p) (space_refs kstate zombie ut kt))) (snd <$> p_tree) = true.
Proof. vm_compute. reflexivity. Qed.

Lemma existsb_absent x l : negb (existsb (Z.eqb x) l) = true -> x ∉ l.
Proof.
  intros H%negb_true_iff Hx. apply not_true_iff_false in H. apply H, existsb_exists. exists x.
  split; [by apply list_elem_of_In|apply Z.eqb_refl].
Qed.

Lemma p_tree_page j p : pt !! j = Some p -> p ∈ (snd <$> p_tree).
Proof. intros Hj%elem_of_list_to_map_2. apply list_elem_of_fmap. by exists (j, p). Qed.

Lemma status_window_ok : status_window kstate (pg 13) pt status_pa status_addr.
Proof.
  pose proof status_ok as H. rewrite !andb_true_iff in H. destruct H as [[[H1 H2] H3] _].
  assert (Hc : forall v, status_addr <= v < status_addr + 4 -> v ∈ seqZ status_addr 4) by (intros v Hv; apply elem_of_seqZ; exact Hv).
  assert (Hs : forall v, status_addr <= v < status_addr + 4 -> status_check v = true).
  { intros v Hv%Hc%list_elem_of_In. rewrite forallb_forall in H2. by apply H2. }
  unfold status_check in Hs. cbv zeta in Hs.
  split; [split; vm_compute; congruence|exact (check_tree_spec _ _ _ H1)| | |].
  - intros v Hv%Hs. rewrite !andb_true_iff, !negb_true_iff in Hv. destruct Hv as [[[[[[P1 P2] P3] _] _] _] _].
    split_and!; [exact P1|exact P2|exact P3|reflexivity].
  - intros v Hv%Hs. rewrite !andb_true_iff in Hv. destruct Hv as [[[[_ P1] P2] P3] _].
    split_and!; [exact (proj1 (page_okb_spec _) P1)|exact (proj1 (Z.eqb_neq _ _) (proj1 (negb_true_iff _) P2))|].
    intros j Hj. exact (existsb_absent _ _ P3 (p_tree_page j _ Hj)).
  - apply nodupb_spec in H3. intros v v' Hv%Hc Hv'%Hc E. apply list_elem_of_lookup in Hv as [a Ha], Hv' as [b Hb].
    assert (a = b) as ->; [|congruence]. apply (NoDup_lookup _ a b (status_pa v) H3); rewrite list_lookup_fmap; [by rewrite Ha|by rewrite Hb, E].
Qed.

Lemma status_kept : dest_kept kstate status_addr (StatusAt pt status_pa) (space_refs kstate zombie ut kt).
Proof.
  pose proof status_ok as H. rewrite !andb_true_iff in H. destruct H as [[[_ H2] _] H4]. rewrite forallb_forall in H2, H4. split.
  - intros p [j Hj]%elem_of_pages. apply existsb_absent, H4, list_elem_of_In. exact (p_tree_page j p Hj).
  - intros v Hv. assert (Hc : status_check v = true) by (apply H2, list_elem_of_In, elem_of_seqZ; exact Hv).
    unfold status_check in Hc. cbv zeta in Hc. rewrite !andb_true_iff in Hc. destruct Hc as [_ Hc]. exact (proj1 (Z.ltb_lt _ _) Hc).
Qed.


(** Slot 3 exits; its parent, slot 2, sleeps in [wait]; slot 4 is its child. *)
Definition sleeper : proc :=
  set_p_sig_handlers (replicate (Z.to_nat NSIG) 4096) (set_p_chan (ProcChan 2) (set_p_state SLEEPING (set_p_parent (Some 0) zero_proc))).
Definition exiting : list proc :=
  [parent; zero_proc; sleeper; set_p_state RUNNING (set_p_parent (Some 2) zero_proc);
   set_p_state RUNNABLE (set_p_parent (Some 3) zero_proc)] ++ replicate 59 zero_proc.

Lemma exit_notifies_parent_witness :
  let s := table exiting in
  exists saved s', (exit_publish 3 9 ;; sched_enter 3) s = Ok saved s' /\
    held (k_lk (ps_k s')) = [L_proc 3] /\
    p_state (proc_at s' 3) = ZOMBIE /\ p_xstate (proc_at s' 3) = 9 /\
    (forall j, 0 <= j < NPROC -> p_parent (proc_at s' j) =
       if bool_decide (p_parent (proc_at s j) = Some 3) then Some 0 else p_parent (proc_at s j)) /\
    (p_state (proc_at s 2) = SLEEPING -> p_chan (proc_at s 2) = ProcChan 2 -> p_state (proc_at s' 2) = RUNNABLE) /\
    (ignored (handler_at (proc_at s 2) SIGCHLD) SIGCHLD = false ->
       Z.testbit (p_sig_pending (proc_at s' 2)) SIGCHLD = true) /\
    (forall j, 0 <= j < NPROC -> j <> 3 -> j <> 2 -> j <> 0 -> proc_at s' j = adopt 3 (Some 0) (proc_at s j)).
Proof.
  apply (exit_notifies_parent 3 2 0 9 (table exiting) (table_good exiting eq_refl) eq_refl eq_refl);
    [done|done|done|reflexivity|reflexivity|discriminate|discriminate|discriminate|discriminate].
Defined.

End ProcDemo.
