(* ===== verification/Kernel.v ===== *)
(** * The state of the kernel

    The processes with their memory ([mst]), the pipes, the console with its
    UART, and around them the file system and the table of open files.  Here
    the interfaces that the parts use among each other are instantiated: the
    file layer of memory mappings and of process life cycle ([FileOps],
    [EntryOps]) by File.v and Fat32.v, the access of the file system to the
    memory of processes ([EitherCopy]) by the copy routines of Vmfault.v.

    A [struct file *] is NULL (0) or one more than the index of its slot. *)

From S2P Require Import Prelude Riscv Memory Spinlock Kalloc Kmalloc Vm Proctab Signal Sched Pipe Ringbuffer Printf Uart Bio Fat32 File Console Mmap Vmfault Proc.
Import Hart.

Record kern := Kern { kn_ms : mst; kn_pipes : gmap Z pipe }.
#[export] Instance kern_ms : Lens kern mst := {| lget := kn_ms; lput m s := Kern m (kn_pipes s) |}.
#[export] Instance kern_ms_laws : LensLaws kern mst.
Proof. split; [done|by intros []|done]. Qed.
#[export] Instance kern_ps : Lens kern pst :=
  {| lget s := ms_ps (kn_ms s); lput p s := Kern (Mst p (ms_objs (kn_ms s))) (kn_pipes s) |}.
#[export] Instance kern_ps_laws : LensLaws kern pst.
Proof. split; [done|by intros [[]]|done]. Qed.
#[export] Instance kern_pipes : Lens kern pipest :=
  {| lget s := PipeSt (ms_ps (kn_ms s)) (kn_pipes s);
     lput x s := Kern (Mst (pp_ps x) (ms_objs (kn_ms s))) (pp_pipes x) |}.
#[export] Instance kern_pipes_laws : LensLaws kern pipest.
Proof. split; [by intros []|by intros [[]]|done]. Qed.

(** The caller's state of the file system. *)
Abbreviation cstate := (ust kern cons).
#[export] Instance cstate_kern : Lens cstate kern := {| lget := us_p; lput p s := Ust p (us_uart s) (us_cons s) |}.
#[export] Instance cstate_ms : Lens cstate mst :=
  {| lget s := kn_ms (us_p s); lput m s := Ust (Kern m (kn_pipes (us_p s))) (us_uart s) (us_cons s) |}.
#[export] Instance cstate_pipes : Lens cstate pipest :=
  {| lget s := lget (us_p s); lput x s := Ust (lput x (us_p s)) (us_uart s) (us_cons s) |}.

(** The whole kernel. *)
Abbreviation sys D := (filest cstate D).
Definition sys_ms_of {D} (s : sys D) : mst := kn_ms (us_p (fs_cp (fl_fat s))).
Definition sys_put {D} (m : mst) (s : sys D) : sys D :=
  let f := fl_fat s in
  let c := fs_cp f in
  Filest (Fatst (Ust (Kern m (kn_pipes (us_p c))) (us_uart c) (us_cons c)) (fs_b f) (fs_fat f) (fs_ents f) (fs_lru f))
    (fl_files s) (fl_devices s).
#[export] Instance sys_ms D : Lens (sys D) mst := {| lget := sys_ms_of; lput := sys_put |}.
#[export] Instance sys_ms_laws D : LensLaws (sys D) mst.
Proof. split; [done|by intros [[[[[] ?] ? ?] ? ? ? ?] ? ?]|done]. Qed.

(** ** Kernel variables and user memory *)

Section copy.
Context {St : Type} {LS : Lens St mst} {L : Linker} {FO : FileOps St}.

(** [copyin] to a variable of the kernel: the bytes copied, all of them or
    those before the access that faults, and whether it returned 0. *)
Fixpoint copyin_values (n : nat) (i srcva : Z) : M St (list Z * bool) :=
  match n with
  | O => ret ([], true)
  | S n' =>
      a <- user_access i srcva VM_FAULT_READ ;;
      match a with
      | None => ret ([], false)
      | Some pa =>
          c <- k_ (load8 pa) ;;
          r <- copyin_values n' i (srcva + 1) ;;
          ret (c :: fst r, snd r)
      end
  end.
Definition copyin_part (i srcva len : Z) : M St (list Z * bool) :=
  if (MAXUVA <=? srcva) || (MAXUVA - srcva <? len) then ret ([], false)
  else
    set_recovery i true ;;
    r <- copyin_values (Z.to_nat len) i srcva ;;
    set_recovery i false ;;
    ret r.
(** For a variable that nobody reads after a failure: its bytes, or [None]. *)
Definition copyin_l (i srcva len : Z) : M St (option (list Z)) :=
  r <- copyin_part i srcva len ;; ret (if snd r then Some (fst r) else None).

(** [copyout] of a variable of the kernel. *)
Definition copyout_l (i dstva : Z) (bs : list Z) : M St Z :=
  if (MAXUVA <=? dstva) || (MAXUVA - dstva <? Z.of_nat (length bs)) then ret (-1)
  else
    set_recovery i true ;;
    ok <- copyout_values bs i dstva ;;
    set_recovery i false ;;
    ret (if ok then 0 else -1).

(** [copyinstr] to a buffer of [max] bytes: the string without its NUL. *)
Fixpoint copyinstr_values (n : nat) (i srcva : Z) : M St (option (list Z)) :=
  match n with
  | O => ret None
  | S n' =>
      if MAXUVA <=? srcva then ret None
      else
        a <- user_access i srcva VM_FAULT_READ ;;
        match a with
        | None => ret None
        | Some pa =>
            c <- k_ (load8 pa) ;;
            if c =? 0 then ret (Some [])
            else r <- copyinstr_values n' i (srcva + 1) ;; ret ((fun l => c :: l) <$> r)
        end
  end.
Definition copyinstr_l (i srcva max : Z) : M St (option (list Z)) :=
  if MAXUVA <=? srcva then ret None
  else
    set_recovery i true ;;
    r <- copyinstr_values (Z.to_nat max) i srcva ;;
    set_recovery i false ;;
    ret r.

(** Bytes of the kernel's own memory. *)
Fixpoint store_bytes (a : Z) (bs : list Z) : M St unit :=
  match bs with
  | [] => ret tt
  | c :: bs' => k_ (store8 a c) ;; store_bytes (a + 1) bs'
  end.
Fixpoint load_bytes (n : nat) (a : Z) : M St (list Z) :=
  match n with
  | O => ret []
  | S n' => c <- k_ (load8 a) ;; l <- load_bytes n' (a + 1) ;; ret (c :: l)
  end.
End copy.

(** [either_copyout] and [either_copyin] of proc.c.  A page fault on a mapped
    file during a transfer needs the file layer below the file system, the
    parameter [FileOps cstate]. *)
Section either.
Context {L : Linker} {FO : FileOps cstate}.

#[export] Instance kernel_copy : EitherCopy cstate := {|
  ec_out user_dst dst bs :=
    if user_dst then
      me <- p_ myproc ;;
      match me with
      | None => panic "load through a NULL process"
      | Some i => r <- copyout_l i dst bs ;; ret (r =? 0)
      end
    else store_bytes dst bs ;; ret true;
  ec_in user_src src n :=
    if user_src then
      me <- p_ myproc ;;
      match me with
      | None => panic "load through a NULL process"
      | Some i => copyin_part i src n
      end
    else l <- load_bytes (Z.to_nat n) src ;; ret (l, true);
|}.
End either.

(** ** Files, as memory mappings and processes use them *)

Definition fptr (k : Z) : Z := k + 1.
Definition fslot (f : Z) : Z := f - 1.

(** The [mmap] member of a device's [struct file_operations]: file, process,
    slot of the area, offset. *)
Class DeviceMmap (D : Type) := dv_mmap : Z -> option (Z -> Z -> nat -> Z -> M (sys D) Z).

Section files.
Context {D : Type} `{!EitherCopy cstate} `{!Disk D} `{!PipeOps cstate} `{!DeviceOps cstate D} `{!DeviceMmap D}.

#[export] Instance kernel_files : FileOps (sys D) := {|
  fo_dup f := filedup (fslot f) ;; ret tt;
  fo_close f := fileclose (fslot f) ;; ret tt;
  fo_read_at f addr off n := fileread_at (Some (fslot f)) addr off n;
  fo_write_at f addr off n := filewrite_at (Some (fslot f)) addr off n;
  fo_entry f := x <- getf (fslot f) ;; ret (bool_decide (f_type x = FD_ENTRY));
  fo_device f :=
    x <- getf (fslot f) ;;
    ret (bool_decide (f_type x = FD_DEVICE) &&
         match f_ops x with Some ops => negb (match dv_mmap ops with None => true | Some _ => false end) | None => false end);
  fo_readable f := x <- getf (fslot f) ;; ret (f_readable x);
  fo_writable f := x <- getf (fslot f) ;; ret (f_writable x);
  fo_mmap f i slot off :=
    x <- getf (fslot f) ;;
    match f_ops x with
    | Some ops => match dv_mmap ops with Some op => op f i slot off | None => ret (-1) end
    | None => ret (-1)
    end;
|}.

#[export] Instance kernel_entries : EntryOps (sys D) := {|
  eo_dup e := fat_ (edup e);
  eo_put e := fat_ (eput e);
  eo_mount := fat_ fat32_init ;; r <- fat_ (ename ROOT [47]) ;; ret (default ROOT r);
|}.
End files.
