(* ===== verification/Exec.v ===== *)
(** * Loading a program (src/kernel/proc/exec.c)

    [exec] builds a new address space from an ELF file, stages it in the
    kernel page table of the process, pushes the arguments, and only then
    replaces the old address space; on an error it restores the old one.  The
    local variables [elf] and [ph] are in the kernel's memory, at the
    addresses of [ExecFrame]. *)

From S2P Require Import Prelude Riscv Memory Spinlock Kalloc Kmalloc Vm Proctab Signal Sched Pipe Ringbuffer Printf Uart Bio Fat32 File Console Mmap Vmfault Proc Kernel.
Import Hart.

Definition ELF_MAGIC : Z := 0x464C457F.
Definition ELF_PROG_LOAD : Z := 1.
Definition sizeof_elfhdr : Z := 64.
Definition sizeof_proghdr : Z := 56.

Definition dword_at (l : list Z) (i : Z) : Z := word_at l i + 2 ^ 32 * word_at l (i + 4).
(** [struct elfhdr] and [struct proghdr], the fields that are used. *)
Record elfhdr := Elfhdr { e_magic : Z; e_entry : Z; e_phoff : Z; e_phnum : Z }.
Record proghdr := Proghdr { ph_type : Z; ph_off : Z; ph_vaddr : Z; ph_filesz : Z; ph_memsz : Z }.
Definition elfhdr_of (l : list Z) : elfhdr := Elfhdr (word_at l 0) (dword_at l 24) (dword_at l 32) (half_at l 56).
Definition proghdr_of (l : list Z) : proghdr :=
  Proghdr (word_at l 0) (dword_at l 8) (dword_at l 16) (dword_at l 32) (dword_at l 40).

(** [&elf] and [&ph]. *)
Class ExecFrame := { elf_at : Z; ph_at : Z }.

(** The last element of a path, as [p->name] keeps it. *)
Fixpoint last_elem (path last : list Z) : list Z :=
  match path with
  | [] => last
  | c :: path' => last_elem path' (if c =? 47 then path' else last)
  end.
Definition string_of (l : list Z) : string :=
  String.string_of_list_ascii ((fun c => Ascii.ascii_of_N (Z.to_N c)) <$> l).
Definition exec_name (path : list Z) : string := string_of (take 15 (last_elem path path)).

(** Where the next argument of [len] bytes goes, below [sp]. *)
Definition arg_slot (sp len : Z) : Z :=
  let sp := u64 (sp - (len + 1)) in u64 (sp - sp mod 16).
(** Where the array of [argc] pointers goes. *)
Definition argv_slot (sp argc : Z) : Z :=
  let sp := u64 (sp - (argc + 1) * 8) in u64 (sp - sp mod 16).
Definition stackbase : Z := USER_STACK_TOP - PGSIZE.
Definition bytes8 (v : Z) : list Z := le_bytes 8 v.

Section code.
Context {D : Type} `{!EitherCopy cstate} `{!Disk D} `{!PipeOps cstate} `{!DeviceOps cstate D} `{!DeviceMmap D}.
Context {L : Linker} {EF : ExecFrame}.
Abbreviation KM := (M (sys D)).

(** A read of [n] bytes of a file into a local variable at [a]. *)
Definition eread_local (ep a off n : Z) : KM (option (list Z)) :=
  r <- fat_ (eread ep false a off n) ;;
  if negb (u64 r =? n) then ret None
  else x <- cs_ (ec_in false a n) ;; ret (Some (fst x)).

(** [for (i = 0; i < sz; i += PGSIZE)] *)
Definition loadseg_body (pagetable va ep offset sz : Z) (i : Z) : KM (Z + Z) :=
  if i <? sz then
    pa <- k_ (walkaddr pagetable (u64 (va + i))) ;;
    if pa =? 0 then panic "loadseg: address should exist"
    else
      let n := if u32 (sz - i) <? PGSIZE then u32 (sz - i) else PGSIZE in
      r <- fat_ (eread ep false pa (u32 (offset + i)) n) ;;
      if negb (u32 r =? n) then ret (inr (-1)) else ret (inl (u32 (i + PGSIZE)))
  else ret (inr 0).
Definition loadseg (pagetable va ep offset sz : Z) : KM Z :=
  if negb (va mod PGSIZE =? 0) then panic "loadseg: va must be page aligned"
  else loop (S (S (Z.to_nat (sz / PGSIZE)))) (loadseg_body pagetable va ep offset sz) 0.

(** The segments from [off] on: the size of the program, and whether all of
    them could be loaded. *)
Fixpoint load_segments (n : nat) (pagetable ep off sz : Z) : KM (Z * bool) :=
  match n with
  | O => ret (sz, true)
  | S n' =>
      r <- eread_local ep ph_at (u32 off) sizeof_proghdr ;;
      match r with
      | None => ret (sz, false)
      | Some bs =>
          let ph := proghdr_of bs in
          let next := s32 (off + sizeof_proghdr) in
          if negb (ph_type ph =? ELF_PROG_LOAD) then load_segments n' pagetable ep next sz
          else if ph_memsz ph <? ph_filesz ph then ret (sz, false)
          else if u64 (ph_vaddr ph + ph_memsz ph) <? ph_vaddr ph then ret (sz, false)
          else if (MAXUVA <=? ph_vaddr ph) || (MAXUVA - ph_vaddr ph <? ph_memsz ph) then ret (sz, false)
          else
            sz2 <- k_ (uvmalloc pagetable sz (ph_vaddr ph + ph_memsz ph)) ;;
            if sz2 =? 0 then ret (sz, false)
            else if negb (ph_vaddr ph mod PGSIZE =? 0) then ret (sz2, false)
            else
              r <- loadseg pagetable (ph_vaddr ph) ep (u32 (ph_off ph)) (u32 (ph_filesz ph)) ;;
              if r <? 0 then ret (sz2, false) else load_segments n' pagetable ep next sz2
      end
  end.

(** The argument strings, in the kernel's pages [argv]: the stack pointer and
    the pointers for [ustack]; [None] for [goto bad]. *)
Fixpoint push_args (me : Z) (argv : list Z) (sp : Z) (ustack : list Z) : KM (option (Z * list Z)) :=
  match argv with
  | [] => ret (Some (sp, ustack))
  | a :: argv' =>
      if a =? 0 then ret (Some (sp, ustack))
      else if MAXARG <=? Z.of_nat (length ustack) then ret None
      else
        len <- k_ (gets (fun k => strlen (k_mem k) a)) ;;
        match len with
        | None => spin
        | Some len =>
            let sp := arg_slot sp len in
            if sp <? stackbase then ret None
            else
              r <- copyout me sp a (len + 1) ;;
              if r <? 0 then ret None else push_args me argv' sp (ustack ++ [sp])
        end
  end.

(** The strings and the array of pointers to them: the final stack pointer,
    which is [argv] of [main], and [argc]. *)
Definition push_argv (me : Z) (argv : list Z) : KM (option (Z * Z)) :=
  a <- push_args me argv USER_STACK_TOP [] ;;
  match a with
  | None => ret None
  | Some (sp, ustack) =>
      let argc := Z.of_nat (length ustack) in
      let sp := argv_slot sp argc in
      if sp <? stackbase then ret None
      else
        r <- copyout_l me sp (concat (bytes8 <$> ustack ++ [0])) ;;
        if r <? 0 then ret None else ret (Some (sp, argc))
  end.

(** The user pages of [pagetable] replace those of the first [old] bytes and
    of the stack in the kernel page table. *)
Definition exec_stage (kpagetable pagetable old sz : Z) (what : string) : KM unit :=
  k_ (uvmunmap kpagetable 0 (PGROUNDUP old / PGSIZE) false) ;;
  k_ (uvm_stack_unmap kpagetable false) ;;
  r <- k_ (upg2ukpg pagetable kpagetable 0 sz) ;;
  if r <? 0 then panic what
  else
    k_ (uvm_stack_sync pagetable kpagetable) ;;
    k_ sfence_vma.

(** [bad:] *)
Definition exec_bad (me ep pagetable sz old_sz : Z) (staged : bool) : KM Z :=
  p <- p_ (getp me) ;;
  when staged (exec_stage (p_kpagetable p) (p_pagetable p) sz old_sz "exec: restore user pages") ;;
  when (negb (pagetable =? 0)) (k_ (proc_freepagetable pagetable sz)) ;;
  fat_ (eunlock ep) ;;
  fat_ (eput ep) ;;
  ret (-1).

(** Behind the point where nothing can fail. *)
Definition exec_commit (me : Z) (path : list Z) (ep pagetable sz old_sz entry sp argc : Z) : KM Z :=
  p_ (setp me (fun p => set_p_tf (<[TF_a1 := sp]> (p_tf p)) p)) ;;
  vma_destroy_all me ;;
  p <- p_ (getp me) ;;
  p_ (setp me (fun p => set_p_name (exec_name path)
        (set_p_tf (<[TF_sp := sp]> (<[TF_epc := entry]> (p_tf p))) (set_p_sz sz (set_p_pagetable pagetable p))))) ;;
  k_ (proc_freepagetable (p_pagetable p) old_sz) ;;
  p_ (signal_reset_on_exec me) ;;
  fat_ (eunlock ep) ;;
  fat_ (eput ep) ;;
  ret argc.

Definition exec (me : Z) (path argv : list Z) : KM Z :=
  p <- p_ (getp me) ;;
  let old_sz := p_sz p in
  e <- fat_ (ename (p_cwd p) path) ;;
  match e with
  | None => ret (-1)
  | Some ep =>
      fat_ (elock ep) ;;
      h <- eread_local ep elf_at 0 sizeof_elfhdr ;;
      match h with
      | None => exec_bad me ep 0 0 old_sz false
      | Some bs =>
          let elf := elfhdr_of bs in
          if negb (e_magic elf =? ELF_MAGIC) || (MAXUVA <=? e_entry elf) then exec_bad me ep 0 0 old_sz false
          else
            pagetable <- k_ (proc_pagetable (p_trapframe p)) ;;
            if pagetable =? 0 then exec_bad me ep 0 0 old_sz false
            else
              r <- load_segments (Z.to_nat (e_phnum elf)) pagetable ep (s32 (e_phoff elf)) 0 ;;
              if negb (snd r) then exec_bad me ep pagetable (fst r) old_sz false
              else
                let sz := PGROUNDUP (fst r) in
                r <- k_ (uvm_stack_init pagetable) ;;
                if r <? 0 then exec_bad me ep pagetable sz old_sz false
                else
                  exec_stage (p_kpagetable p) pagetable old_sz sz "exec: stage user pages" ;;
                  a <- push_argv me argv ;;
                  match a with
                  | None => exec_bad me ep pagetable sz old_sz true
                  | Some (sp, argc) => exec_commit me path ep pagetable sz old_sz (e_entry elf) sp argc
                  end
      end
  end.
End code.
