(* ===== verification/Syscall.v ===== *)
(** * System calls (src/kernel/syscall/)

    Arguments from the trapframe and the memory of the caller (syscall.c), the
    calls on processes (sysproc.c) and on files (sysfile.c), and their
    dispatch.  The running process is the argument [me].

    A call ends with a value for [a0], or inside the kernel: a process that
    sleeps goes on with the resume function of its call, [exit] never
    returns. *)

From S2P Require Import Prelude Riscv Memory Spinlock Kalloc Kmalloc Vm Proctab Signal Sched Pipe Ringbuffer Printf Uart Bio Fat32 File Console Mmap Vmfault Proc Kernel Exec.
Import Hart.

Definition TF_a2 : nat := 16.
Definition TF_a3 : nat := 17.
Definition TF_a4 : nat := 18.
Definition TF_a5 : nat := 19.

Definition O_RDONLY : Z := 0x000.
Definition O_WRONLY : Z := 0x001.
Definition O_RDWR : Z := 0x002.
Definition O_ACCMODE : Z := 0x003.
Definition O_CREATE : Z := 0x200.
Definition O_TRUNC : Z := 0x400.
Definition O_NOFOLLOW : Z := 0x004.
Definition O_APPEND : Z := 0x008.
Definition T_DEVICE : Z := 3.
Definition FAT32_MAX_PATH : Z := 260.
Definition MAXPATH : Z := 260.

(** Conversion to short. *)
Definition s16 (x : Z) : Z := (x + 2 ^ 15) mod 2 ^ 16 - 2 ^ 15.

(** How a system call ends. *)
Inductive sysres :=
| SRet (v : Z)
| SExit (saved : bool)                        (** in [sched], for ever *)
| SWait (addr : Z) (saved : bool)             (** asleep in [wait] *)
| SSleep (n ticks0 : Z) (saved : bool)        (** asleep in [sys_sleep] *)
| SFile (k : Z) (saved : bool).               (** asleep in a transfer *)

(** [&ticks] *)
Class TrapSymbols := { ticks_at : Z }.
(** What the stack holds in the local variables of type [struct stat] and
    [struct dirent]. *)
Class StackJunk := { junk_stat : list Z; junk_dirent : dirent }.

Definition SYS_exec : Z := 7.
Definition SYS_read : Z := 5.
Definition SYS_chdir : Z := 9.
Definition SYS_open : Z := 15.
Definition SYS_write : Z := 16.
Definition SYS_mknod : Z := 17.
Definition SYS_unlink : Z := 18.
Definition SYS_link : Z := 19.
Definition SYS_mkdir : Z := 20.

(** The tables of syscall.c, from number 1 on. *)
Definition syscalls_name : list string :=
  ["fork"; "exit"; "wait"; "pipe"; "read"; "kill"; "exec"; "fstat"; "chdir"; "dup"; "getpid"; "sbrk"; "sleep"; "uptime";
   "open"; "write"; "mknod"; "unlink"; "link"; "mkdir"; "close"; "trace"; "sysinfo"; "sys_symlink"; "mmap"; "munmap";
   "readdir"; "getcwd"; "remove"; "ioctl"; "signal"; "sigsend"; "sigreturn"; "setpgid"; "getpgrp"]%string.
Definition syscalls_argc : list Z :=
  [0; 1; 1; 1; 3; 1; 2; 2; 1; 1; 0; 1; 1; 0; 2; 3; 3; 1; 2; 1; 1; 1; 1; 0; 2; 2; 2; 1; 1; 3; 2; 2; 0; 2; 0].

(** [1 << num]; the shift instruction takes [num] modulo 32. *)
Definition trace_bit (num : Z) : Z := s32 (Z.shiftl 1 (num mod 32)).

Section code.
Context {D : Type} `{!EitherCopy cstate} `{!Disk D} `{!PipeOps cstate} `{!DeviceOps cstate D} `{!DeviceMmap D}.
Context {L : Linker} {PS : ProcSymbols} {EF : ExecFrame} {UE : UartEnv} {TS : TrapSymbols} {SJ : StackJunk}.
Abbreviation KM := (M (sys D)).

(** ** Arguments *)

Definition fetchaddr (me addr : Z) : KM (option Z) :=
  if (MAXUVA <=? addr) || (MAXUVA - addr <? 8) then ret None
  else r <- copyin_l me addr 8 ;; ret ((fun l => dword_at l 0) <$> r).

Definition fetchstr (me addr max : Z) : KM (option (list Z)) := copyinstr_l me addr max.

Definition argraw (me n : Z) : KM Z :=
  p <- p_ (getp me) ;;
  if n =? 0 then ret (p_tf p !!! TF_a0)
  else if n =? 1 then ret (p_tf p !!! TF_a1)
  else if n =? 2 then ret (p_tf p !!! TF_a2)
  else if n =? 3 then ret (p_tf p !!! TF_a3)
  else if n =? 4 then ret (p_tf p !!! TF_a4)
  else if n =? 5 then ret (p_tf p !!! TF_a5)
  else panic "argraw".

Definition argint (me n : Z) : KM Z := v <- argraw me n ;; ret (s32 v).
Definition argaddr (me n : Z) : KM (option Z) :=
  v <- argraw me n ;; ret (if v <? MAXUVA then Some v else None).
Definition argstr (me n max : Z) : KM (option (list Z)) :=
  a <- argaddr me n ;;
  match a with
  | None => ret None
  | Some addr => fetchstr me addr max
  end.

(** ** Processes (sysproc.c) *)

Definition sys_exit (me : Z) : KM sysres :=
  n <- argint me 0 ;; saved <- exit_enter me n ;; ret (SExit saved).

Definition sys_getpid (me : Z) : KM sysres := p <- p_ (getp me) ;; ret (SRet (p_pid p)).

Definition sys_kill (me : Z) : KM sysres :=
  pid <- argint me 0 ;; r <- p_ (signal_send_pid pid SIGKILL) ;; ret (SRet r).

Definition sys_fork (me : Z) : KM sysres := r <- fork me ;; ret (SRet r).

Definition wait_result (addr : Z) (r : Z + bool) : sysres :=
  match r with inl v => SRet v | inr saved => SWait addr saved end.
Definition sys_wait (me : Z) : KM sysres :=
  a <- argaddr me 0 ;;
  match a with
  | None => ret (SRet (-1))
  | Some addr => r <- wait me addr ;; ret (wait_result addr r)
  end.

Definition sys_sbrk (me : Z) : KM sysres :=
  p <- p_ (getp me) ;;
  n <- argint me 0 ;;
  let addr := p_sz p in
  if 0 <=? n then
    let limit := vma_heap_limit (p_vmas p) in
    if (limit <? addr) || (limit - addr <? n) then ret (SRet (-1))
    else p_ (setp me (set_p_sz (u64 (addr + n)))) ;; ret (SRet addr)
  else
    let shrink := - n in
    if addr <? shrink then ret (SRet (-1))
    else
      k_ (ukvmdealloc (p_kpagetable p) addr (addr - shrink) false) ;;
      sz <- k_ (uvmdealloc (p_pagetable p) addr (addr - shrink)) ;;
      p_ (setp me (set_p_sz sz)) ;;
      ret (SRet addr).

(** [while (ticks - ticks0 < n)]: the difference and [n] are compared as
    unsigned numbers. *)
Definition sleep_round (me n ticks0 : Z) : KM sysres :=
  ticks <- p_ (gets ps_ticks) ;;
  if u32 (ticks - ticks0) <? u32 n then
    r <- p_ (sleep_on_enter me (AddrChan ticks_at) L_ticks true) ;;
    match r with
    | inl _ => mlk_ (release L_ticks) ;; ret (SRet (-1))
    | inr saved => ret (SSleep n ticks0 saved)
    end
  else mlk_ (release L_ticks) ;; ret (SRet 0).
Definition sys_sleep (me : Z) : KM sysres :=
  n <- argint me 0 ;;
  mlk_ (acquire L_ticks) ;;
  ticks0 <- p_ (gets ps_ticks) ;;
  sleep_round me n ticks0.
Definition sys_sleep_resume (me n ticks0 : Z) (saved : bool) : KM sysres :=
  r <- p_ (sleep_on_resume me L_ticks true saved) ;;
  if r <? 0 then mlk_ (release L_ticks) ;; ret (SRet (-1)) else sleep_round me n ticks0.

Definition sys_uptime (me : Z) : KM sysres :=
  mlk_ (acquire L_ticks) ;;
  xticks <- p_ (gets ps_ticks) ;;
  mlk_ (release L_ticks) ;;
  ret (SRet xticks).

Definition sys_trace (me : Z) : KM sysres :=
  mask <- argint me 0 ;; p_ (setp me (set_p_trace_mask mask)) ;; ret (SRet 0).

Definition sys_sysinfo (me : Z) : KM sysres :=
  a <- argaddr me 0 ;;
  match a with
  | None => ret (SRet (-1))
  | Some addr =>
      free <- k_ freemem ;;
      nproc <- p_ proc_num ;;
      r <- copyout_l me addr (bytes8 free ++ bytes8 nproc) ;;
      ret (SRet (if r <? 0 then -1 else 0))
  end.

Definition sys_signal (me : Z) : KM sysres :=
  signum <- argint me 0 ;;
  h <- argaddr me 1 ;;
  match h with
  | None => ret (SRet SIG_ERR)
  | Some handler => r <- p_ (signal_set_handler me signum handler) ;; ret (SRet r)
  end.

Definition sys_sigsend (me : Z) : KM sysres :=
  target <- argint me 0 ;;
  signum <- argint me 1 ;;
  if 0 <? target then r <- p_ (signal_send_pid target signum) ;; ret (SRet r)
  else if target =? 0 then ret (SRet (-1))
  else
    let pgid := - target in
    if 0x7fffffff <? pgid then ret (SRet (-1))
    else r <- p_ (signal_send_pgrp pgid signum) ;; ret (SRet r).

Definition sys_sigreturn (me : Z) : KM sysres := r <- p_ (signal_sigreturn me) ;; ret (SRet r).

Definition sys_setpgid (me : Z) : KM sysres :=
  pid <- argint me 0 ;; pgid <- argint me 1 ;; r <- p_ (proc_setpgid me pid pgid) ;; ret (SRet r).
Definition sys_getpgrp (me : Z) : KM sysres := r <- p_ (proc_getpgrp me) ;; ret (SRet r).

(** ** Files (sysfile.c) *)

(** The descriptor and the file of argument [n]. *)
Definition argfd (me n : Z) : KM (option (Z * Z)) :=
  fd <- argint me n ;;
  p <- p_ (getp me) ;;
  if (fd <? 0) || (NOFILE <=? fd) then ret None
  else
    let f := p_ofile p !!! Z.to_nat fd in
    ret (if f =? 0 then None else Some (fd, f)).

Definition set_ofile (me fd f : Z) : KM unit :=
  p_ (setp me (fun p => set_p_ofile (<[Z.to_nat fd := f]> (p_ofile p)) p)).
Fixpoint fdalloc_scan (n : nat) (me fd f : Z) : KM Z :=
  match n with
  | O => ret (-1)
  | S n' =>
      p <- p_ (getp me) ;;
      if p_ofile p !!! Z.to_nat fd =? 0 then set_ofile me fd f ;; ret fd
      else fdalloc_scan n' me (fd + 1) f
  end.
Definition fdalloc (me f : Z) : KM Z := fdalloc_scan (Z.to_nat NOFILE) me 0 f.

Definition sys_dup (me : Z) : KM sysres :=
  a <- argfd me 0 ;;
  match a with
  | None => ret (SRet (-1))
  | Some (_, f) =>
      fd <- fdalloc me f ;;
      if fd <? 0 then ret (SRet (-1))
      else filedup (fslot f) ;; ret (SRet fd)
  end.

Definition run_result (r : run) : sysres := match r with Returned v => SRet v | Asleep k saved => SFile k saved end.

Definition sys_read (me : Z) : KM sysres :=
  a <- argfd me 0 ;;
  match a with
  | None => ret (SRet (-1))
  | Some (_, f) =>
      n <- argint me 2 ;;
      x <- argaddr me 1 ;;
      match x with
      | None => ret (SRet (-1))
      | Some addr => r <- fileread me (fslot f) addr n ;; ret (run_result r)
      end
  end.

Definition sys_write (me : Z) : KM sysres :=
  a <- argfd me 0 ;;
  match a with
  | None => ret (SRet (-1))
  | Some (_, f) =>
      n <- argint me 2 ;;
      x <- argaddr me 1 ;;
      match x with
      | None => ret (SRet (-1))
      | Some addr => r <- filewrite me (fslot f) addr n ;; ret (run_result r)
      end
  end.

Definition sys_close (me : Z) : KM sysres :=
  a <- argfd me 0 ;;
  match a with
  | None => ret (SRet (-1))
  | Some (fd, f) => set_ofile me fd 0 ;; fileclose (fslot f) ;; ret (SRet 0)
  end.

Definition sys_fstat (me : Z) : KM sysres :=
  a <- argfd me 0 ;;
  match a with
  | None => ret (SRet (-1))
  | Some (_, f) =>
      x <- argaddr me 1 ;;
      match x with
      | None => ret (SRet (-1))
      | Some st => r <- filestat junk_stat (fslot f) st ;; ret (SRet r)
      end
  end.

(** The attribute of a new entry. *)
Definition create_mode (type mode : Z) : Z :=
  if type =? T_DIR then ATTR_DIRECTORY
  else if type =? T_DEVICE then ATTR_DEVICE
  else if Z.land mode O_ACCMODE =? O_RDONLY then ATTR_READ_ONLY
  else 0.
Definition wrong_type (type attribute : Z) : bool :=
  ((type =? T_DIR) && negb (has attribute ATTR_DIRECTORY)) ||
  ((type =? T_DEVICE) && negb (has attribute ATTR_DEVICE)) ||
  ((type =? T_FILE) && has attribute ATTR_DIRECTORY).

Definition create (me : Z) (path : list Z) (type mode major minor : Z) : KM (option Z) :=
  p <- p_ (getp me) ;;
  r <- fat_ (enameparent (p_cwd p) path) ;;
  match r with
  | (None, _) => ret None
  | (Some dp, name) =>
      fat_ (elock dp) ;;
      e <- fat_ (ealloc dp name (create_mode type mode)) ;;
      match e with
      | None => fat_ (eunlock dp) ;; fat_ (eput dp) ;; ret None
      | Some ep =>
          x <- fat_ (gete ep) ;;
          if wrong_type type (d_attribute x) then
            fat_ (eunlock dp) ;; fat_ (eput ep) ;; fat_ (eput dp) ;; ret None
          else
            when (type =? T_DEVICE)
              (fat_ (sete ep (fun x => set_d_dirty true (set_d_file_size (u32 minor) (set_d_first_clus (u32 major) x))))) ;;
            fat_ (eunlock dp) ;;
            fat_ (eput dp) ;;
            fat_ (elock ep) ;;
            ret (Some ep)
      end
  end.

(** The flags [readable] and [writable]. *)
Definition parse_access_mode (flags : Z) : option (bool * bool) :=
  let m := Z.land flags O_ACCMODE in
  if m =? O_RDONLY then Some (true, false)
  else if m =? O_WRONLY then Some (false, true)
  else if m =? O_RDWR then Some (true, true)
  else None.

Definition open_flags : Z := Z.lor (Z.lor (Z.lor (Z.lor O_ACCMODE O_CREATE) O_TRUNC) O_NOFOLLOW) O_APPEND.

(** The entry of [open], locked. *)
Definition open_entry (me : Z) (path : list Z) (omode : Z) : KM (option Z) :=
  if has omode O_CREATE then create me path T_FILE omode 0 0
  else
    p <- p_ (getp me) ;;
    e <- fat_ (ename (p_cwd p) path) ;;
    match e with
    | None => ret None
    | Some ep =>
        fat_ (elock ep) ;;
        x <- fat_ (gete ep) ;;
        if has (d_attribute x) ATTR_DIRECTORY && negb (omode =? O_RDONLY) then
          fat_ (eunlock ep) ;; fat_ (eput ep) ;; ret None
        else ret (Some ep)
    end.

Definition set_f_open (ep : Z) (readable writable : bool) (f : file) : file :=
  File (f_type f) (f_ref f) readable writable (f_pipe f) ep (f_off f) (f_major f) (f_minor f) (f_ops f) (f_private_data f).
Definition set_f_device (major minor : Z) (f : file) : file :=
  File FD_DEVICE (f_ref f) (f_readable f) (f_writable f) (f_pipe f) (f_ep f) (f_off f) major minor (f_ops f) (f_private_data f).

(** [open] behind the allocation of the file [f] and the descriptor [fd]; the
    fields [major] and [minor] are shorts. *)
Definition open_install (me ep omode f fd : Z) (readable writable : bool) : KM sysres :=
  x <- fat_ (gete ep) ;;
  when (negb (has (d_attribute x) ATTR_DIRECTORY) && has omode O_TRUNC) (fat_ (etrunc ep)) ;;
  setf f (set_f_open ep readable writable) ;;
  x <- fat_ (gete ep) ;;
  if has (d_attribute x) ATTR_DEVICE then
    setf f (set_f_device (s16 (d_first_clus x)) (s16 (d_file_size x))) ;;
    r <- fileopen f ;;
    if r <? 0 then
      set_ofile me fd 0 ;;
      fileclose f ;;
      fat_ (eunlock ep) ;;
      fat_ (eput ep) ;;
      ret (SRet (-1))
    else fat_ (eunlock ep) ;; ret (SRet fd)
  else
    setf f (fun x0 => set_f_off (if has omode O_APPEND then d_file_size x else 0) (set_f_type FD_ENTRY x0)) ;;
    fat_ (eunlock ep) ;;
    ret (SRet fd).

Definition sys_open (me : Z) : KM sysres :=
  s <- argstr me 0 FAT32_MAX_PATH ;;
  match s with
  | None => ret (SRet (-1))
  | Some path =>
      omode <- argint me 1 ;;
      if negb (Z.land omode (Z.lnot open_flags) =? 0) then ret (SRet (-1))
      else
        match parse_access_mode omode with
        | None => ret (SRet (-1))
        | Some (readable, writable) =>
            e <- open_entry me path omode ;;
            match e with
            | None => ret (SRet (-1))
            | Some ep =>
                f <- filealloc ;;
                match f with
                | None => fat_ (eunlock ep) ;; fat_ (eput ep) ;; ret (SRet (-1))
                | Some f =>
                    fd <- fdalloc me (fptr f) ;;
                    if fd <? 0 then fileclose f ;; fat_ (eunlock ep) ;; fat_ (eput ep) ;; ret (SRet (-1))
                    else open_install me ep omode f fd readable writable
                end
            end
        end
  end.

(** The arguments of [exec], a page for each: the pages, and whether all of
    them could be fetched. *)
Fixpoint fetch_args (n : nat) (me uargv i : Z) : KM (list Z * bool) :=
  match n with
  | O => ret ([], false)
  | S n' =>
      u <- fetchaddr me (u64 (uargv + 8 * i)) ;;
      match u with
      | None => ret ([], false)
      | Some uarg =>
          if uarg =? 0 then ret ([], true)
          else
            a <- k_ kalloc_page ;;
            if a =? 0 then ret ([], false)
            else
              r <- copyinstr me a uarg PGSIZE ;;
              if r <? 0 then ret ([a], false)
              else x <- fetch_args n' me uargv (i + 1) ;; ret (a :: fst x, snd x)
      end
  end.
Fixpoint free_args (l : list Z) : KM unit :=
  match l with
  | [] => ret tt
  | a :: l' => k_ (kfree_page a) ;; free_args l'
  end.
Definition sys_exec (me : Z) : KM sysres :=
  s <- argstr me 0 FAT32_MAX_PATH ;;
  match s with
  | None => ret (SRet (-1))
  | Some path =>
      a <- argaddr me 1 ;;
      match a with
      | None => ret (SRet (-1))
      | Some uargv =>
          x <- fetch_args (Z.to_nat MAXARG) me uargv 0 ;;
          r <- (if (snd x : bool) then exec me path (fst x) else ret (-1)) ;;
          free_args (fst x) ;;
          ret (SRet r)
      end
  end.

Definition sys_mkdir (me : Z) : KM sysres :=
  s <- argstr me 0 FAT32_MAX_PATH ;;
  match s with
  | None => ret (SRet (-1))
  | Some path =>
      e <- create me path T_DIR 0 0 0 ;;
      match e with
      | None => ret (SRet (-1))
      | Some ep => fat_ (eunlock ep) ;; fat_ (eput ep) ;; ret (SRet 0)
      end
  end.

Definition sys_chdir (me : Z) : KM sysres :=
  s <- argstr me 0 FAT32_MAX_PATH ;;
  match s with
  | None => ret (SRet (-1))
  | Some path =>
      p <- p_ (getp me) ;;
      e <- fat_ (ename (p_cwd p) path) ;;
      match e with
      | None => ret (SRet (-1))
      | Some ep =>
          fat_ (elock ep) ;;
          x <- fat_ (gete ep) ;;
          if negb (has (d_attribute x) ATTR_DIRECTORY) then fat_ (eunlock ep) ;; fat_ (eput ep) ;; ret (SRet (-1))
          else
            fat_ (eunlock ep) ;;
            p <- p_ (getp me) ;;
            fat_ (eput (p_cwd p)) ;;
            p_ (setp me (set_p_cwd ep)) ;;
            ret (SRet 0)
      end
  end.

(** The two descriptors are taken back and both ends closed. *)
Definition pipe_undo (me rf wf : Z) (fds : list Z) : KM sysres :=
  p_ (setp me (fun p => set_p_ofile (foldl (fun l fd => <[Z.to_nat fd := 0]> l) (p_ofile p) fds) p)) ;;
  fileclose rf ;;
  fileclose wf ;;
  ret (SRet (-1)).
Definition sys_pipe (me : Z) : KM sysres :=
  a <- argaddr me 0 ;;
  match a with
  | None => ret (SRet (-1))
  | Some fdarray =>
      r <- pipealloc ;;
      match r with
      | None => ret (SRet (-1))
      | Some (rf, wf) =>
          fd0 <- fdalloc me (fptr rf) ;;
          if fd0 <? 0 then pipe_undo me rf wf []
          else
            fd1 <- fdalloc me (fptr wf) ;;
            if fd1 <? 0 then pipe_undo me rf wf [fd0]
            else
              r <- copyout_l me fdarray (bytes4 fd0) ;;
              if r <? 0 then pipe_undo me rf wf [fd0; fd1]
              else
                r <- copyout_l me (u64 (fdarray + 4)) (bytes4 fd1) ;;
                if r <? 0 then pipe_undo me rf wf [fd0; fd1] else ret (SRet 0)
      end
  end.

Definition sys_mknod (me : Z) : KM sysres :=
  s <- argstr me 0 FAT32_MAX_PATH ;;
  match s with
  | None => ret (SRet (-1))
  | Some path =>
      major <- argint me 1 ;;
      minor <- argint me 2 ;;
      if (major <=? 0) || (NDEV <=? major) then ret (SRet (-1))
      else
        e <- create me path T_DEVICE 0 major minor ;;
        match e with
        | None => ret (SRet (-1))
        | Some ep => fat_ (eunlock ep) ;; fat_ (eput ep) ;; ret (SRet 0)
        end
  end.

Definition sys_ioctl (me : Z) : KM sysres :=
  a <- argfd me 0 ;;
  match a with
  | None => ret (SRet (-1))
  | Some (_, f) =>
      cmd <- argint me 1 ;;
      x <- argaddr me 2 ;;
      match x with
      | None => ret (SRet (-1))
      | Some arg => r <- fileioctl (fslot f) (u64 cmd) arg ;; ret (run_result r)
      end
  end.

Definition sys_readdir (me : Z) : KM sysres :=
  a <- argfd me 0 ;;
  match a with
  | None => ret (SRet (-1))
  | Some (_, f) =>
      x <- argaddr me 1 ;;
      match x with
      | None => ret (SRet (-1))
      | Some addr =>
          y <- getf (fslot f) ;;
          if bool_decide (f_type y = FD_ENTRY) then r <- dirnext junk_dirent junk_stat (fslot f) addr ;; ret (SRet r)
          else ret (SRet (-1))
      end
  end.

(** The names from the directory up, in a buffer that is filled from its end:
    [pos] is [s - path]. *)
Fixpoint cwd_path (fuel : nat) (ents : list dirent) (de pos : Z) (acc : list Z) : option (list Z) :=
  match fuel with
  | O => None
  | S n =>
      let x := ents !!! Z.to_nat de in
      match d_parent x with
      | None => Some acc
      | Some up =>
          let name := cstr (d_filename x) in
          let pos := pos - Z.of_nat (length name) in
          if pos <=? 0 then None else cwd_path n ents up (pos - 1) (47 :: name ++ acc)
      end
  end.
Definition sys_getcwd (me : Z) : KM sysres :=
  a <- argaddr me 0 ;;
  match a with
  | None => ret (SRet (-1))
  | Some addr =>
      p <- p_ (getp me) ;;
      ents <- fat_ (gets fs_ents) ;;
      let de := ents !!! Z.to_nat (p_cwd p) in
      let s := if bool_decide (d_parent de = None) then Some [47]
               else cwd_path (Z.to_nat FAT32_MAX_PATH) ents (p_cwd p) (FAT32_MAX_PATH - 1) [] in
      match s with
      | None => ret (SRet (-1))
      | Some s =>
          r <- copyout_l me addr (s ++ [0]) ;;
          ret (SRet (if r <? 0 then -1 else 0))
      end
  end.

(** Only [valid] of the local entry is set. *)
Definition isdirempty (dp : Z) : KM bool :=
  r <- fat_ (with_dirent (set_d_valid 0 junk_dirent) (fun ep => enext dp ep (2 * 32))) ;;
  ret (fst (fst r) =? -1).

(** Is the last element of the path [.]?  [s] walks back over slashes. *)
Definition ends_in_dot (path : list Z) : bool :=
  let fix skip (l : list Z) := match l with c :: l' => if c =? 47 then skip l' else l | [] => [] end in
  match skip (rev path) with
  | c :: l => (c =? 46) && match l with [] => true | d :: _ => d =? 47 end
  | [] => false
  end.
Definition sys_remove (me : Z) : KM sysres :=
  s <- argstr me 0 FAT32_MAX_PATH ;;
  match s with
  | None => ret (SRet (-1))
  | Some path =>
      if bool_decide (path = []) then ret (SRet (-1))
      else if ends_in_dot path then ret (SRet (-1))
      else
        p <- p_ (getp me) ;;
        e <- fat_ (ename (p_cwd p) path) ;;
        match e with
        | None => ret (SRet (-1))
        | Some ep =>
            fat_ (elock ep) ;;
            x <- fat_ (gete ep) ;;
            empty <- (if has (d_attribute x) ATTR_DIRECTORY then isdirempty ep else ret true) ;;
            if negb empty then fat_ (eunlock ep) ;; fat_ (eput ep) ;; ret (SRet (-1))
            else
              x <- fat_ (gete ep) ;;
              match d_parent x with
              | None => panic "elock"
              | Some up =>
                  fat_ (elock up) ;;
                  fat_ (eremove ep) ;;
                  fat_ (eunlock up) ;;
                  fat_ (eunlock ep) ;;
                  fat_ (eput ep) ;;
                  ret (SRet 0)
              end
        end
  end.

Definition sys_mmap (me : Z) : KM sysres :=
  a <- argaddr me 0 ;;
  match a with
  | None => ret (SRet (-1))
  | Some addr =>
      length <- argint me 1 ;;
      prot <- argint me 2 ;;
      flags <- argint me 3 ;;
      fd <- argint me 4 ;;
      offset <- argint me 5 ;;
      if (length <=? 0) || (offset <? 0) then ret (SRet (-1))
      else if has flags MAP_ANONYMOUS then
        if negb (fd =? -1) || negb (offset =? 0) then ret (SRet (-1))
        else r <- vma_map_anon me addr length prot flags ;; ret (SRet r)
      else
        p <- p_ (getp me) ;;
        if (fd <? 0) || (NOFILE <=? fd) then ret (SRet (-1))
        else
          let f := p_ofile p !!! Z.to_nat fd in
          if f =? 0 then ret (SRet (-1))
          else
            x <- getf (fslot f) ;;
            r <- (if bool_decide (f_type x = FD_DEVICE) then vma_map_device me addr length prot flags f offset
                  else vma_map_file me addr length prot flags f offset) ;;
            ret (SRet r)
  end.

Definition sys_munmap (me : Z) : KM sysres :=
  a <- argaddr me 0 ;;
  match a with
  | None => ret (SRet (-1))
  | Some addr =>
      length <- argint me 1 ;;
      if length <=? 0 then ret (SRet (-1))
      else r <- vma_unmap me addr length ;; ret (SRet r)
  end.

Definition sys_link (me : Z) : KM sysres := ret (SRet (-1)).
Definition sys_symlink (me : Z) : KM sysres := ret (SRet (-1)).
Definition sys_unlink (me : Z) : KM sysres := sys_remove me.

(** ** Dispatch (syscall.c) *)

Definition kprintf (fmt : string) (args : list va) : KM unit := cs_ (printf (text fmt) args).
Definition quoted (s : list Z) : list Z := 34 :: s ++ [34].

Definition getstrarg (me n max : Z) : KM (option (list Z)) := argstr me n max.

(** A string argument in quotes, or its address; then [rest]. *)
Definition trace_path (me : Z) (args : list Z) (n : Z) (fmt : string) (rest : list va) : KM unit :=
  r <- getstrarg me n MAXPATH ;;
  match r with
  | Some s => cs_ (printf (quoted [37; 115] ++ text fmt) (Str (Some s) :: rest))
  | None => cs_ (printf ([37; 112] ++ text fmt) (Num (args !!! Z.to_nat n) :: rest))
  end.

(** The loop over the first five arguments of [exec]: the count. *)
Fixpoint trace_argv (n : nat) (me argv_addr i arg_count : Z) : KM Z :=
  match n with
  | O => ret arg_count
  | S n' =>
      if negb (arg_count <? 10) then ret arg_count
      else
        r <- copyin_l me (u64 (argv_addr + i * 8)) 8 ;;
        match r with
        | None => trace_argv n' me argv_addr (i + 1) arg_count
        | Some bs =>
            let arg_ptr := dword_at bs 0 in
            if arg_ptr =? 0 then ret arg_count
            else
              s <- fetchstr me arg_ptr MAXPATH ;;
              match s with
              | None => trace_argv n' me argv_addr (i + 1) arg_count
              | Some s =>
                  when (0 <? arg_count) (kprintf ", " []) ;;
                  cs_ (printf (quoted [37; 115]) [Str (Some s)]) ;;
                  trace_argv n' me argv_addr (i + 1) (arg_count + 1)
              end
        end
  end.

(** [for (i = 0; i < arg_count; i++)] of the default case. *)
Fixpoint trace_ints (args : list Z) : KM unit :=
  match args with
  | [] => ret tt
  | a :: args' =>
      kprintf "%d" [Num (s32 a)] ;;
      when (negb (bool_decide (args' = []))) (kprintf ", " []) ;;
      trace_ints args'
  end.

Definition trace_args (me num : Z) (args : list Z) : KM unit :=
  let int n := Num (s32 (args !!! n)) in
  let ptr n := Num (args !!! n) in
  if num =? SYS_exec then
    trace_path me args 0 ", " [] ;;
    kprintf "[" [] ;;
    a <- argaddr me 1 ;;
    match a with
    | None => ret tt
    | Some argv_addr =>
        arg_count <- trace_argv 5 me argv_addr 0 0 ;;
        when (5 <=? arg_count) (kprintf ", ..." [])
    end ;;
    kprintf "]" []
  else if num =? SYS_open then trace_path me args 0 ", %d" [int 1%nat]
  else if num =? SYS_mknod then trace_path me args 0 ", %d, %d" [int 1%nat; int 2%nat]
  else if (num =? SYS_unlink) || (num =? SYS_mkdir) || (num =? SYS_chdir) then trace_path me args 0 "" []
  else if num =? SYS_link then
    r <- getstrarg me 0 MAXPATH ;;
    match r with
    | Some s => cs_ (printf (quoted [37; 115] ++ text ", ") [Str (Some s)]) ;; trace_path me args 1 "" []
    | None => kprintf "%p, %p" [ptr 0%nat; ptr 1%nat]
    end
  else if (num =? SYS_write) || (num =? SYS_read) then kprintf "%d, %p, %d" [int 0%nat; ptr 1%nat; int 2%nat]
  else trace_ints (take (Z.to_nat (syscalls_argc !!! Z.to_nat (num - 1))) args).

Definition syscall_trace (me num : Z) (args : list Z) : KM unit :=
  p <- p_ (getp me) ;;
  kprintf "%d: syscall %s" [Num (p_pid p); Str (Some (text (syscalls_name !!! Z.to_nat (num - 1))))] ;;
  kprintf "(" [] ;;
  trace_args me num args ;;
  kprintf ")" [] ;;
  p <- p_ (getp me) ;;
  cs_ (printf (text " -> %d" ++ [10]) [Num (p_tf p !!! TF_a0)]).

Definition syscalls : list (Z -> KM sysres) :=
  [sys_fork; sys_exit; sys_wait; sys_pipe; sys_read; sys_kill; sys_exec; sys_fstat; sys_chdir; sys_dup; sys_getpid; sys_sbrk;
   sys_sleep; sys_uptime; sys_open; sys_write; sys_mknod; sys_unlink; sys_link; sys_mkdir; sys_close; sys_trace; sys_sysinfo;
   sys_symlink; sys_mmap; sys_munmap; sys_readdir; sys_getcwd; sys_remove; sys_ioctl; sys_signal; sys_sigsend; sys_sigreturn;
   sys_setpgid; sys_getpgrp].

Definition set_a0 (me v : Z) : KM unit := p_ (setp me (fun p => set_p_tf (<[TF_a0 := u64 v]> (p_tf p)) p)).
(** The value of a call that returned goes to [a0]. *)
Definition sys_finish (me : Z) (r : sysres) : KM sysres :=
  match r with
  | SRet v => set_a0 me v ;; ret r
  | _ => ret r
  end.

Definition unknown_call (me num : Z) : KM sysres :=
  p <- p_ (getp me) ;;
  cs_ (printf (text "%d %s: unknown sys call %d" ++ [10]) [Num (p_pid p); Str (Some (text (p_name p))); Num num]) ;;
  set_a0 me (-1) ;;
  ret (SRet (-1)).

Definition syscall (me : Z) : KM sysres :=
  p <- p_ (getp me) ;;
  let args := (fun r => p_tf p !!! r) <$> [TF_a0; TF_a1; TF_a2; TF_a3; TF_a4; TF_a5] in
  let num := s32 (p_tf p !!! TF_a7) in
  match (if 0 <? num then syscalls !! Z.to_nat (num - 1) else None) with
  | Some call =>
      when (has (p_trace_mask p) (trace_bit num)) (syscall_trace me num args) ;;
      r <- call me ;;
      sys_finish me r
  | None => unknown_call me num
  end.

(** The return from a sleep in [wait] or [sleep]; a transfer goes on with the
    resume function of its pipe or device. *)
Definition syscall_resume (me : Z) (r : sysres) : KM sysres :=
  match r with
  | SWait addr saved => x <- wait_resume me addr saved ;; sys_finish me (wait_result addr x)
  | SSleep n ticks0 saved => x <- sys_sleep_resume me n ticks0 saved ;; sys_finish me x
  | _ => ret r
  end.
End code.
