(* ===== verification/SysWp.v ===== *)
(** * Symbolic execution of system calls

    The rules for the parts of the kernel's state, and for the arguments of a
    call. *)

From S2P Require Import Prelude Riscv Memory Spinlock Kalloc Kmalloc Vm VmTree VmUnmap VmFree VmSpace Proctab Signal Sched SchedProps Pipe Ringbuffer Printf Uart Bio Fat32 File Console Mmap Vmfault Proc Kernel Exec Syscall.
Import Hart.

Abbreviation ps_of s := (ms_ps (sys_ms_of s)).
Abbreviation mem_of s := (ps_k (ms_ps (sys_ms_of s))).
Definition with_ps {D} (p : pst) (s : sys D) : sys D := sys_put (Mst p (ms_objs (sys_ms_of s))) s.

Lemma with_ps_same {D} (s : sys D) : with_ps (ps_of s) s = s.
Proof. by destruct s as [[[[[] ?] ? ?] ? ? ? ?] ? ?]. Qed.

Section rules.
Context {D : Type} `{!EitherCopy cstate} `{!Disk D} `{!PipeOps cstate} `{!DeviceOps cstate D} `{!DeviceMmap D}.
Implicit Types s : sys D.

Lemma wp_sys_p {A} (m : M pst A) (Q : A -> sys D -> Prop) s : wp m (fun a p => Q a (with_ps p s)) (ps_of s) -> wp (p_ m) Q s.
Proof. intros H. unfold p_, k_, ms_. apply wp_zoom, wp_zoom. exact H. Qed.
Lemma wp_sys_k {A} (m : M kst A) (Q : A -> sys D -> Prop) s : wp m (fun a k => Q a (with_ps (set_ps_k k (ps_of s)) s)) (ps_k (ps_of s)) -> wp (k_ m) Q s.
Proof. intros H. unfold p_, k_, ms_. apply wp_zoom, wp_zoom. exact H. Qed.

Lemma wp_getp me (Q : proc -> sys D -> Prop) s : Q (proc_at (ps_of s) me) s -> wp (p_ (getp me)) Q s.
Proof. intros H. apply wp_sys_p. wp_go. simpl. by rewrite with_ps_same. Qed.

Lemma argint_wp me n (Q : Z -> sys D -> Prop) s : 0 <= n <= 5 ->
  Q (s32 (p_tf (proc_at (ps_of s) me) !!! (Z.to_nat n + TF_a0)%nat)) s -> wp (argint me n) Q s.
Proof.
  intros Hn HQ. unfold argint, argraw. wp_step. wp_step. apply wp_getp.
  assert (Hc : n = 0 \/ n = 1 \/ n = 2 \/ n = 3 \/ n = 4 \/ n = 5) by lia.
  destruct Hc as [->|[->|[->|[->|[->| ->]]]]]; by wp_go.
Qed.
End rules.
