(* ===== verification/BrkProps.v ===== *)
(** * Growing and shrinking the heap

    [sys_sbrk] keeps the address space of a process: growing is lazy, and
    shrinking unmaps the pages above the new size from the user page table and
    from the kernel's mirror and drops one reference for each. *)

From S2P Require Import Prelude Riscv Memory Spinlock Kalloc Kmalloc Vm VmTree VmUnmap VmFree VmSpace Proctab Signal Sched SchedProps Pipe Ringbuffer Printf Uart Bio Fat32 File Console Mmap MmapProps Vmfault Proc ProcProps Kernel Exec Syscall SysWp.
Import Hart.

Section memory.
Context {L : Linker} {LOK : LinkerOk L} {PAS : PageAllocSpec}.

Lemma PGROUNDUP_heap sz : 0 <= sz <= USER_STACK_GUARD -> PGROUNDUP sz = heap_pages sz * PGSIZE.
Proof.
  intros H. unfold heap_pages. destruct (PGROUNDUP_bounds sz) as [_ Hal]; [lia|change USER_STACK_GUARD with 2146435072 in H; unfold PGSIZE; lia|].
  unfold PGSIZE in *. dlia.
Qed.

Lemma heap_pages_mono a b : 0 <= a <= b -> b <= USER_STACK_GUARD -> heap_pages a <= heap_pages b.
Proof.
  intros H Hb. change USER_STACK_GUARD with 2146435072 in Hb. unfold heap_pages. rewrite !PGROUNDUP_div by (unfold PGSIZE; lia).
  unfold PGSIZE. rewrite !(Z.mul_comm 4096), !Z.div_mul by lia. apply Z.div_le_mono; lia.
Qed.

Lemma frames_split s t n m : 0 <= n -> 0 <= m -> frames s t 0 (n + m) = frames s t 0 n ++ frames s t (n * PGSIZE) m.
Proof.
  intros Hn. revert m. apply natlike_ind; [by rewrite Z.add_0_r, app_nil_r|].
  intros m Hm IH. rewrite <- Z.add_1_r, Z.add_assoc, !frames_snoc, IH, <- app_assoc by lia. do 4 f_equal. lia.
Qed.

(** The user page table while the kernel's mirror changes. *)
Lemma rep_outside s s' t t' root R :
  pt_rep s t root -> (forall p, p ∈ pages t -> page_ok p /\ p ∉ pages t') ->
  (forall p, p ∈ pages t' -> page_ok p) ->
  (forall p, p ∈ pages t -> quota s' p = quota s p) ->
  (forall b, outside t' b -> R b -> ld8 (k_mem s') b = ld8 (k_mem s) b) ->
  (forall p b, p ∈ pages t -> in_page p b -> R b) ->
  pt_rep s' t root /\ forall va, pte_of s' t va = pte_of s t va.
Proof.
  intros Hr Hdis Hok Hq Hm HR. apply pt_rep_ext; [done| |].
  - intros k p Hk. apply Hq, elem_of_pages. by exists k.
  - intros k p a Hk Ha. assert (Hp : p ∈ pages t) by (apply elem_of_pages; by exists k). apply Hm; [|by eapply HR].
    intros k' q Hk' Hqa. assert (Hqp : q ∈ pages t') by (apply elem_of_pages; by exists k').
    destruct (Hdis p Hp) as [Hpok Hpn]. destruct (decide (p = q)) as [->|Hne]; [done|]. by apply (page_ok_out p q a Hpok (Hok q Hqp) Hne Ha).
Qed.

(** The frames of the heap pages from size [new] up to size [old]. *)
Definition cut_frames (k : kst) (t : tree) (new old : Z) : list Z := frames k t (heap_pages new * PGSIZE) (heap_pages old - heap_pages new).

Lemma user_frames_split k t new old : 0 <= new <= old -> old <= USER_STACK_GUARD ->
  user_frames k t old = user_frames k t new ++ cut_frames k t new old.
Proof.
  intros H Ho. destruct (heap_pages_bounds new ltac:(lia)) as [? _]. pose proof (heap_pages_mono new old H Ho).
  unfold user_frames, cut_frames. rewrite <- app_assoc, <- frames_split by lia. do 2 f_equal. lia.
Qed.

(** The leaf of [va] in a table whose pages from size [new] up to size [old]
    are unmapped: valid entries there become 0, all others stay. *)
Definition cut_pte (k : kst) (t : tree) (new old va : Z) : Z :=
  if vpn_in (heap_pages new * PGSIZE) (heap_pages old - heap_pages new) (va / PGSIZE) && has (pte_of k t va) PTE_V then 0 else pte_of k t va.

Record shrunk (k : kst) (p : proc) (ut kt : tree) (new : Z) (k' : kst) : Prop := {
  sh_space : proc_space k' (set_p_sz new p) ut kt;
  sh_inv : kinv k';
  sh_frame : kframe k k';
  sh_quota q : page_ok q -> quota k' q = quota k q - occurrences q (cut_frames k ut new (p_sz p));
  sh_mem b : outside ut b -> outside kt b -> (forall q, page_ok q -> in_page q b -> 0 < quota k' q) ->
    ld8 (k_mem k') b = ld8 (k_mem k) b;
  sh_pte va : 0 <= va < MAXVA -> pte_of k' ut va = cut_pte k ut new (p_sz p) va;
  sh_kpte va : 0 <= va < MAXVA -> pte_of k' kt va = cut_pte k kt new (p_sz p) va;
}.

(** The two tables of a process and what they refer to. *)
Lemma space_apart k p ut kt : proc_space k p ut kt ->
  (forall q, q ∈ pages ut -> page_ok q /\ q ∉ pages kt /\ q ∉ user_frames k ut (p_sz p)) /\
  (forall q, q ∈ pages kt -> page_ok q /\ q ∉ pages ut /\ q ∉ user_frames k ut (p_sz p)).
Proof.
  intros [Hu Hk Hr]. unfold space_refs in Hr. pose proof (us_rep _ _ _ _ Hu) as Hru. pose proof (ks_rep _ _ _ _ _ Hk) as Hrk.
  assert (Hr1 : holds_refs k (user_frames k ut (p_sz p) ++ pages ut ++ pages kt)).
  { destruct Hr as [H1 H2]. split; [rewrite !Forall_app in *; tauto|]. intros q Hq. specialize (H2 q Hq). rewrite !occurrences_app in *. lia. }
  split; intros q Hq.
  - destruct (pages_quota _ _ _ _ Hru Hq) as [Hok H1]. split_and!; [done| |].
    + apply (holds_refs_disjoint k (pages ut) (pages kt) q); [|done|done]. eapply holds_refs_perm in Hr1; [|apply Permutation_app_comm]. by eapply holds_refs_l.
    + apply (refs_apart k _ _ _ q Hr1 H1 Hq).
  - destruct (pages_quota _ _ _ _ Hrk Hq) as [Hok H1]. rewrite app_assoc in Hr1.
    assert (Hd : q ∉ user_frames k ut (p_sz p) ++ pages ut).
    { rewrite <- (app_nil_r (pages kt)) in Hr1. by apply (refs_apart k _ _ _ q Hr1 H1 Hq). }
    rewrite not_elem_of_app in Hd. tauto.
Qed.

(** Page numbers of the heap that is left. *)
Lemma vpn_heap_cut new old v : 0 <= heap_pages new <= heap_pages old ->
  vpn_in 0 (heap_pages old) v && negb (vpn_in (heap_pages new * PGSIZE) (heap_pages old - heap_pages new) v) = vpn_in 0 (heap_pages new) v.
Proof.
  intros H. unfold vpn_in. rewrite Z.div_mul by done. change (0 / PGSIZE) with 0. rewrite !Z.add_0_l. apply eq_true_iff_eq.
  rewrite andb_true_iff, negb_true_iff, andb_false_iff, !andb_true_iff, Z.leb_gt, Z.ltb_ge, !Z.leb_le, !Z.ltb_lt. lia.
Qed.

Lemma shrunk_intro k p ut kt new k1 k2 : proc_space k p ut kt -> 0 <= new <= p_sz p ->
  let a := heap_pages new * PGSIZE in let n := heap_pages (p_sz p) - heap_pages new in
  cleared (p_kpagetable p) k kt (fun v => vpn_in a n v) [] k1 -> (forall va, pte_of k1 ut va = pte_of k ut va) ->
  cleared (p_pagetable p) k1 ut (fun v => vpn_in a n v) (cut_frames k ut new (p_sz p)) k2 ->
  pt_rep k2 kt (p_kpagetable p) -> (forall va, pte_of k2 kt va = pte_of k1 kt va) -> shrunk k p ut kt new k2.
Proof.
  intros Hsp Hnew a n Hc1 Hpu Hc2 Hrk Hpk. pose proof Hsp as [Hu Hk Hr]. pose proof (us_sz _ _ _ _ Hu) as Hsz.
  destruct (heap_pages_bounds new ltac:(lia)) as [Hb1 _]. pose proof (heap_pages_mono new (p_sz p) Hnew ltac:(lia)) as Hmono.
  destruct (heap_pages_bounds _ Hsz) as [Hb2 _]. change (USER_STACK_GUARD / PGSIZE) with 524032 in *.
  assert (Hpte : forall va, 0 <= va < MAXVA -> pte_of k2 ut va = if vpn_in a n (va / PGSIZE) && has (pte_of k ut va) PTE_V then 0 else pte_of k ut va)
    by (intros va Hva; rewrite (cl_pte _ _ _ _ _ _ Hc2 va Hva); by rewrite Hpu).
  assert (Hptk : forall va, 0 <= va < MAXVA -> pte_of k2 kt va = if vpn_in a n (va / PGSIZE) && has (pte_of k kt va) PTE_V then 0 else pte_of k kt va)
    by (intros va Hva; rewrite Hpk; apply (cl_pte _ _ _ _ _ _ Hc1 va Hva)).
  assert (Hquota : forall q, page_ok q -> quota k2 q = quota k q - occurrences q (cut_frames k ut new (p_sz p)))
    by (intros q Hq; rewrite (cl_quota _ _ _ _ _ _ Hc2 q Hq), (cl_quota _ _ _ _ _ _ Hc1 q Hq); simpl; lia).
  split; [|apply Hc2|etrans; [apply Hc1|apply Hc2]|exact Hquota| |exact Hpte|exact Hptk].
  - assert (Hlive : forall t va, 0 <= va < MAXVA -> pte_of k2 t va = (if vpn_in a n (va / PGSIZE) && has (pte_of k t va) PTE_V then 0 else pte_of k t va) ->
      has (pte_of k2 t va) PTE_V = true -> vpn_in a n (va / PGSIZE) = false /\ pte_of k2 t va = pte_of k t va).
    { intros t va Hva ->. destruct (vpn_in a n (va / PGSIZE)); simpl; [|done]. destruct (has (pte_of k t va) PTE_V) eqn:E; [by rewrite has_zero|by rewrite E]. }
    split; cbn [p_sz p_kstack p_pagetable p_kpagetable set_p_sz].
    + split; [apply Hc2|apply Hu| |simpl; lia|].
      * intros va Hva Hv. destruct (Hlive ut va Hva (Hpte va Hva) Hv) as [_ E]. rewrite E in *. by apply Hu.
      * intros va Hva Hv. destruct (Hlive ut va Hva (Hpte va Hva) Hv) as [E1 E]. rewrite E in Hv. pose proof (us_dom _ _ _ _ Hu va Hva Hv) as Hd.
        cbn [p_sz p_kstack set_p_sz]. rewrite <- (vpn_heap_cut new (p_sz p)) by lia. fold a n. by rewrite E1, andb_true_r.
    + pose proof Hk as [K1 K2 K3 K4 K5 K6 K7]. split; [exact Hrk|done| |simpl; lia|done| |].
      * intros va Hva Hv. destruct (Hlive kt va Hva (Hptk va Hva) Hv) as [_ E]. rewrite E in *. by apply K3.
      * cbn [p_sz p_kstack set_p_sz]. rewrite <- (vpn_heap_cut new (p_sz p)) by lia. apply orb_false_iff in K6 as [[-> ->]%orb_false_iff ->]. done.
      * intros va Hva Hv. destruct (Hlive kt va Hva (Hptk va Hva) Hv) as [E1 E]. rewrite E in Hv. pose proof (K7 va Hva Hv) as Hd.
        cbn [p_sz p_kstack set_p_sz]. rewrite <- (vpn_heap_cut new (p_sz p)) by lia. fold a n. by rewrite E1, andb_true_r.
    + assert (Hsame : forall t x m, (forall va, 0 <= va < MAXVA -> pte_of k2 t va = (if vpn_in a n (va / PGSIZE) && has (pte_of k t va) PTE_V then 0 else pte_of k t va)) ->
        0 <= x -> x + m * PGSIZE <= MAXVA -> (forall i, 0 <= i < m -> vpn_in a n ((x + i * PGSIZE) / PGSIZE) = false) -> frames k2 t x m = frames k t x m).
      { intros t x m Ht Hx Hm Hv. apply frames_ext. intros i Hi. rewrite Ht by (unfold PGSIZE in *; lia). by rewrite (Hv i Hi). }
      assert (Huf : user_frames k2 ut new = user_frames k ut new).
      { unfold user_frames. rewrite (Hsame ut USER_STACK_START NSTACK Hpte); [rewrite (Hsame ut 0 (heap_pages new) Hpte); [reflexivity|lia| |]|done|done|].
        3: { intros i Hi. rewrite Z.div_add by done. change (USER_STACK_START / PGSIZE) with 524033. unfold a, n, vpn_in. rewrite Z.div_mul by done. case_ranges; done. }
        - change MAXVA with (2 ^ 38). unfold PGSIZE. lia.
        - intros i Hi. rewrite Z.add_0_l, Z.div_mul by done. unfold a, n, vpn_in. rewrite Z.div_mul by done. case_ranges; done. }
      assert (Hkf : frames k2 kt (p_kstack p) 1 = frames k kt (p_kstack p) 1).
      { destruct Hk as [_ _ _ _ (S1 & S2 & S3) Hap _]. apply (Hsame kt _ _ Hptk); [exact S1|lia|]. intros i Hi. replace i with 0 by lia. rewrite Z.mul_0_l, Z.add_0_r.
        apply orb_false_iff in Hap as [[_ Hap]%orb_false_iff _]. revert Hap. unfold a, n, vpn_in. rewrite Z.div_mul by done. change (0 / PGSIZE) with 0. rewrite Z.add_0_l.
        pose proof (Z.div_pos (p_kstack p) PGSIZE S1 ltac:(done)). case_ranges; done. }
      unfold space_refs in *. cbn [p_sz p_kstack p_trapframe set_p_sz]. rewrite Huf, Hkf. destruct Hr as [H1 H2].
      rewrite (user_frames_split k ut new (p_sz p)) in H1, H2 by lia. split; [rewrite !Forall_app in *; tauto|].
      intros q Hq. specialize (H2 q Hq). rewrite (Hquota q Hq). rewrite !occurrences_app in *. lia.
  - intros b Hbu Hbk Hb. rewrite (cl_mem _ _ _ _ _ _ Hc2), (cl_mem _ _ _ _ _ _ Hc1); [done|done| |done|].
    + intros q _ _ Hq. by apply not_elem_of_nil in Hq.
    + intros q Hq Hqb _. by apply Hb.
Qed.

(** The two tables are unmapped one after the other. *)
Lemma unmap_both_wp k p ut kt new : kinv k -> proc_space k p ut kt -> 0 <= new <= p_sz p ->
  wp (uvmunmap (p_kpagetable p) (heap_pages new * PGSIZE) (heap_pages (p_sz p) - heap_pages new) false ;;
      uvmunmap (p_pagetable p) (heap_pages new * PGSIZE) (heap_pages (p_sz p) - heap_pages new) true)
    (fun _ k' => shrunk k p ut kt new k') k.
Proof.
  intros Hinv Hsp Hnew. destruct (space_apart _ _ _ _ Hsp) as [Hau Hak]. pose proof Hsp as [Hu Hk Hr].
  pose proof (us_sz _ _ _ _ Hu) as Hsz. destruct (heap_pages_bounds new ltac:(lia)) as [Hb1 _].
  destruct (heap_pages_bounds _ Hsz) as [Hb2 _]. pose proof (heap_pages_mono new (p_sz p) Hnew ltac:(lia)) as Hmono.
  change (USER_STACK_GUARD / PGSIZE) with 524032 in *.
  assert (Hmax : heap_pages new * PGSIZE + (heap_pages (p_sz p) - heap_pages new) * PGSIZE <= MAXVA)
    by (change MAXVA with (2 ^ 38); unfold PGSIZE; lia).
  assert (Hal : heap_pages new * PGSIZE mod PGSIZE = 0) by (apply Z_mod_mult).
  set (a := heap_pages new * PGSIZE) in *. set (n := heap_pages (p_sz p) - heap_pages new) in *.
  assert (Ha : 0 <= a) by (unfold a, PGSIZE; lia). assert (Hn : 0 <= n) by lia.
  pose proof (us_rep _ _ _ _ Hu) as Hru. pose proof (ks_rep _ _ _ _ _ Hk) as Hrk.
  wp_step. eapply wp_mono; [apply (cleared_unmap _ k kt (fun _ => false) [] k); [by apply cleared_refl|apply Hk|done|done|done|done|done]|].
  intros [] k1 Hc1. cbv beta. simpl orb in Hc1. simpl app in Hc1.
  destruct (rep_outside k k1 ut kt (p_pagetable p) (fun _ => True) Hru) as [Hru1 Hpu1].
  { intros q Hq. by destruct (Hau q Hq) as (? & ? & _). }
  { intros q Hq. by destruct (Hak q Hq). }
  { intros q Hq. rewrite (cl_quota _ _ _ _ _ _ Hc1) by (by destruct (Hau q Hq)). simpl. lia. }
  { intros b Hb _. apply (cl_mem _ _ _ _ _ _ Hc1); [done|]. intros q _ _ Hq. by apply not_elem_of_nil in Hq. }
  { done. }
  destruct (user_space_ext _ _ _ _ _ Hu Hru1 Hpu1) as [Hu1 Huf].
  assert (Hcf : frames k1 ut a n = cut_frames k ut new (p_sz p)) by (apply frames_ext; intros; apply Hpu1).
  assert (Hsub : forall q, q ∈ cut_frames k ut new (p_sz p) -> q ∈ user_frames k ut (p_sz p)).
  { intros q Hq. rewrite (user_frames_split k ut new (p_sz p)) by lia. apply elem_of_app. by right. }
  eapply wp_mono; [apply (cleared_unmap _ k1 ut (fun _ => false) [] k1); [apply cleared_refl; [apply Hc1|done]|apply Hu1|done|done|done|done|]|].
  { intros _. rewrite Hcf. split_and!; [done| |].
    - simpl app. destruct Hr as [H1 H2]. unfold space_refs in H1, H2. rewrite (user_frames_split k ut new (p_sz p)) in H1, H2 by lia.
      split; [rewrite !Forall_app in H1; tauto|]. intros q Hq. specialize (H2 q Hq). rewrite (cl_quota _ _ _ _ _ _ Hc1 q Hq). rewrite !occurrences_app in H2. simpl. lia.
    - intros q Hq Hqp. destruct (Hau q Hqp) as (_ & _ & Hnf). by apply Hnf, Hsub. }
  intros [] k2 Hc2. cbv beta. simpl orb in Hc2. simpl app in Hc2. rewrite Hcf in Hc2.
  destruct (rep_outside k1 k2 kt ut (p_kpagetable p) (fun b => forall q, page_ok q -> in_page q b -> q ∈ cut_frames k ut new (p_sz p) -> 0 < quota k2 q) (cl_rep _ _ _ _ _ _ Hc1)) as [Hrk2 Hpk2].
  { intros q Hq. by destruct (Hak q Hq) as (? & ? & _). }
  { intros q Hq. by destruct (Hau q Hq). }
  { intros q Hq. destruct (Hak q Hq) as (Hok & _ & Hnf). rewrite (cl_quota _ _ _ _ _ _ Hc2 q Hok), occurrences_notin; [lia|]. intros Hc. by apply Hnf, Hsub. }
  { intros b Hb HR. by apply (cl_mem _ _ _ _ _ _ Hc2). }
  { intros x b Hx Hxb q Hq Hqb Hqc. exfalso. destruct (Hak x Hx) as (Hok & _ & Hnf).
    destruct (decide (x = q)) as [->|Hne]; [by apply Hnf, Hsub|by apply (page_ok_out x q b)]. }
  by apply (shrunk_intro k p ut kt new k1 k2).
Qed.

Lemma cleared_empty root s t a : kinv s -> pt_rep s t root -> cleared root s t (fun v => vpn_in a 0 v) [] s.
Proof.
  intros Hi Hr. destruct (cleared_refl root s t Hi Hr) as [C1 C2 C3 C4 C5 C6]. split; try done.
  intros va Hva. assert (E : vpn_in a 0 (va / PGSIZE) = false) by (unfold vpn_in; case_ranges; done). by rewrite E.
Qed.

(** What [sys_sbrk] does to the memory when the heap shrinks. *)
Lemma dealloc_both_wp k p ut kt new : kinv k -> proc_space k p ut kt -> 0 <= new < p_sz p ->
  wp (ukvmdealloc (p_kpagetable p) (p_sz p) new false ;; uvmdealloc (p_pagetable p) (p_sz p) new)
    (fun r k' => r = new /\ shrunk k p ut kt new k') k.
Proof.
  intros Hinv Hsp Hnew. pose proof Hsp as [Hu Hk _]. pose proof (us_sz _ _ _ _ Hu) as Hsz. unfold ukvmdealloc, uvmdealloc.
  destruct (Z.leb_spec (p_sz p) new); [lia|]. rewrite !PGROUNDUP_heap by lia.
  destruct (heap_pages_bounds new ltac:(lia)) as [Hb1 _]. destruct (heap_pages_bounds _ Hsz) as [Hb2 _].
  pose proof (heap_pages_mono new (p_sz p) ltac:(lia) ltac:(lia)) as Hmono. change (USER_STACK_GUARD / PGSIZE) with 524032 in *.
  rewrite <- Z.mul_sub_distr_r, Z.div_mul by done. rewrite s32_small, u64_small by lia.
  destruct (Z.ltb_spec (heap_pages new * PGSIZE) (heap_pages (p_sz p) * PGSIZE)); simpl when.
  - pose proof (unmap_both_wp k p ut kt new Hinv Hsp ltac:(lia)) as Hw. apply wp_bind_inv in Hw.
    wp_step. wp_step. eapply wp_mono; [exact Hw|]. intros [] k1 Hw1. wp_step. wp_step. eapply wp_mono; [exact Hw1|]. intros [] k2 H2. wp_go. done.
  - wp_go. split; [done|]. assert (E : heap_pages (p_sz p) - heap_pages new = 0) by (unfold PGSIZE in *; lia).
    apply (shrunk_intro k p ut kt new k k); [done|lia| |done| |apply Hk|done].
    + rewrite E. apply cleared_empty; [done|apply Hk].
    + unfold cut_frames. rewrite E. apply cleared_empty; [done|apply Hu].
Qed.
End memory.

(** ** Growing *)

Section memory.
Context {L : Linker} {LOK : LinkerOk L} {PAS : PageAllocSpec}.

Lemma vpn_in_none a n v : n <= 0 -> vpn_in a n v = false.
Proof. intros. unfold vpn_in. case_ranges; done. Qed.

Lemma cut_frames_unmapped k t root old new : user_space k t root old -> old <= new <= USER_STACK_GUARD -> cut_frames k t old new = [].
Proof.
  intros Hu Hn. pose proof (us_sz _ _ _ _ Hu) as Hsz. unfold cut_frames, frames.
  destruct (heap_pages_bounds old ltac:(lia)) as [Hb1 _]. destruct (heap_pages_bounds new ltac:(lia)) as [Hb2 _]. change (USER_STACK_GUARD / PGSIZE) with 524032 in *.
  set (l := seqZ 0 _). assert (Hl : forall i, i ∈ l -> 0 <= i < heap_pages new - heap_pages old) by (intros i Hi; apply elem_of_seqZ in Hi; lia).
  assert (Hnone : forall i, i ∈ l -> frame_at k t (heap_pages old * PGSIZE + i * PGSIZE) = None).
  { intros i Hi. specialize (Hl i Hi). unfold frame_at. set (va := heap_pages old * PGSIZE + i * PGSIZE).
    assert (Hva : 0 <= va < MAXVA) by (change MAXVA with (2 ^ 38); unfold va, PGSIZE; lia).
    destruct (has (pte_of k t va) PTE_V) eqn:E; [|done]. pose proof (us_dom _ _ _ _ Hu va Hva E) as Hd. exfalso. revert Hd.
    unfold va. rewrite <- Z.mul_add_distr_r, Z.div_mul by done. unfold vpn_in. change (0 / PGSIZE) with 0.
    change (USER_STACK_START / PGSIZE) with 524033. change (SIGTRAMP / PGSIZE) with 67108861. case_ranges; done. }
  clear Hl. clearbody l. induction l as [|i l IH]; [done|]. simpl. rewrite (Hnone i) by left. apply IH. intros j Hj. apply Hnone. by right.
Qed.

Lemma grow_space k p ut kt new : proc_space k p ut kt -> p_kstack p = KSTACK 0 -> p_sz p <= new <= USER_STACK_GUARD ->
  proc_space k (set_p_sz new p) ut kt.
Proof.
  intros [Hu Hk Hr] Hst Hn. pose proof (us_sz _ _ _ _ Hu) as Hsz. pose proof (heap_pages_mono (p_sz p) new ltac:(lia) ltac:(lia)) as Hmono.
  assert (Hin : forall v, vpn_in 0 (heap_pages (p_sz p)) v = true -> vpn_in 0 (heap_pages new) v = true)
    by (intros v; unfold vpn_in; change (0 / PGSIZE) with 0; case_ranges; done).
  split; cbn [p_sz p_kstack p_pagetable p_kpagetable set_p_sz].
  - destruct Hu as [U1 U2 U3 U4 U5]. split; [done|done|done|lia|]. intros va Hva Hv. specialize (U5 va Hva Hv).
    destruct (vpn_in 0 (heap_pages (p_sz p)) (va / PGSIZE)) eqn:E; [by rewrite (Hin _ E)|]. simpl in U5. rewrite <- orb_assoc, U5. apply orb_true_r.
  - destruct Hk as [K1 K2 K3 K4 K5 K6 K7]. split; [done|done|done|lia|done| |].
    + rewrite Hst. apply kstack_apart. lia.
    + intros va Hva Hv. specialize (K7 va Hva Hv). destruct (vpn_in 0 (heap_pages (p_sz p)) (va / PGSIZE)) eqn:E; [by rewrite (Hin _ E), !orb_true_r|].
      rewrite orb_false_r in K7. destruct (region_in kernel_regions (va / PGSIZE)); [done|]. simpl in *. rewrite <- orb_assoc, K7. apply orb_true_r.
  - unfold space_refs in *. cbn [p_sz p_kstack p_trapframe set_p_sz]. rewrite (user_frames_split k ut (p_sz p) new) by lia.
    rewrite (cut_frames_unmapped k ut (p_pagetable p) (p_sz p) new Hu) by lia. by rewrite app_nil_r.
Qed.
End memory.

(** ** The system call *)

Section sbrk.
Context {D : Type} `{!EitherCopy cstate} `{!Disk D} `{!PipeOps cstate} `{!DeviceOps cstate D} `{!DeviceMmap D}.
Context {L : Linker} {LOK : LinkerOk L} {PAS : PageAllocSpec}.
Implicit Types s : sys D.

Lemma vma_heap_limit_le vmas : vma_heap_limit vmas <= MMAP_TOP.
Proof.
  unfold vma_heap_limit. assert (H : forall l x, x <= MMAP_TOP -> fold_left (fun limit v => if vm_used v && (vm_start v <? limit) then vm_start v else limit) l x <= MMAP_TOP).
  { induction l as [|v l IH]; intros x Hx; simpl; [done|]. apply IH. destruct (vm_used v); [|done]. simpl. destruct (Z.ltb_spec (vm_start v) x); lia. }
  by apply H.
Qed.

(** What a successful [sbrk] of [n] bytes leaves. *)
Record resized (me n : Z) (ut kt : tree) (s s' : sys D) : Prop := {
  rs_slot : proc_at (ps_of s') me = set_p_sz (p_sz (proc_at (ps_of s) me) + n) (proc_at (ps_of s) me);
  rs_others j : 0 <= j < NPROC -> j <> me -> proc_at (ps_of s') j = proc_at (ps_of s) j;
  rs_space : proc_space (mem_of s') (proc_at (ps_of s') me) ut kt;
  rs_inv : kinv (mem_of s');
  rs_quota q : page_ok q -> quota (mem_of s') q = quota (mem_of s) q -
    occurrences q (cut_frames (mem_of s) ut (p_sz (proc_at (ps_of s) me) + n) (p_sz (proc_at (ps_of s) me)));
  rs_mem b : outside ut b -> outside kt b -> (forall q, page_ok q -> in_page q b -> 0 < quota (mem_of s') q) ->
    ld8 (k_mem (mem_of s')) b = ld8 (k_mem (mem_of s)) b;
  rs_pte va : 0 <= va < MAXVA -> let old := p_sz (proc_at (ps_of s) me) in
    pte_of (mem_of s') ut va = cut_pte (mem_of s) ut (old + n) old va /\
    pte_of (mem_of s') kt va = cut_pte (mem_of s) kt (old + n) old va;
}.

Lemma resized_intro me n ut kt s s' k : let p := proc_at (ps_of s) me in
  0 <= me < NPROC -> length (ps_procs (ps_of s)) = Z.to_nat NPROC ->
  ps_of s' = upd_proc me (set_p_sz (p_sz p + n)) (set_ps_k k (ps_of s)) ->
  proc_space k (set_p_sz (p_sz p + n) p) ut kt -> kinv k ->
  (forall q, page_ok q -> quota k q = quota (mem_of s) q - occurrences q (cut_frames (mem_of s) ut (p_sz p + n) (p_sz p))) ->
  (forall b, outside ut b -> outside kt b -> (forall q, page_ok q -> in_page q b -> 0 < quota k q) -> ld8 (k_mem k) b = ld8 (k_mem (mem_of s)) b) ->
  (forall va, 0 <= va < MAXVA -> pte_of k ut va = cut_pte (mem_of s) ut (p_sz p + n) (p_sz p) va /\
     pte_of k kt va = cut_pte (mem_of s) kt (p_sz p + n) (p_sz p) va) ->
  resized me n ut kt s s'.
Proof.
  intros p Hme Hlen E Hsp Hk Hq Hm Hp.
  assert (Hat : forall j, 0 <= j < NPROC -> proc_at (ps_of s') j = if me =? j then set_p_sz (p_sz p + n) (proc_at (ps_of s) j) else proc_at (ps_of s) j)
    by (intros j Hj; rewrite E; by apply (upd_proc_at me (set_p_sz (p_sz p + n)) j (set_ps_k k (ps_of s)))).
  assert (Hself : proc_at (ps_of s') me = set_p_sz (p_sz p + n) p) by (rewrite (Hat me Hme); by rewrite Z.eqb_refl).
  assert (Emem : mem_of s' = k) by by rewrite E. split; rewrite ?Emem; [exact Hself| |by rewrite Hself|done|exact Hq|exact Hm|exact Hp].
  intros j Hj Hne. rewrite (Hat j Hj). by rewrite (proj2 (Z.eqb_neq me j)).
Qed.

(** C16: [sbrk] moves the end of the heap and keeps the address space.  The
    call fails, without effect, exactly when the heap would end below 0 or
    above the lowest mapping or the stack.  Otherwise it returns the old end;
    growing changes no entry of either table, and shrinking unmaps exactly the
    pages above the rounded new end from the user page table and from the
    kernel's mirror: every other leaf of both tables, the last page kept
    included, stays as it is.  Exactly one reference is dropped for each page
    unmapped, and every byte of the pages that stay in use is unchanged.  The
    address space consists of heap, stack and the pages at its top: a process
    with pages of mapped files already faulted in is not covered. *)
Theorem sys_sbrk_keeps_space me ut kt s :
  let p := proc_at (ps_of s) me in let n := s32 (p_tf p !!! TF_a0) in
  0 <= me < NPROC -> length (ps_procs (ps_of s)) = Z.to_nat NPROC -> kinv (mem_of s) -> p_kstack p = KSTACK 0 ->
  proc_space (mem_of s) p ut kt ->
  if (p_sz p + n <? 0) || ((0 <=? n) && (vma_heap_limit (p_vmas p) <? p_sz p + n)) then sys_sbrk me s = Ok (SRet (-1)) s
  else exists s', sys_sbrk me s = Ok (SRet (p_sz p)) s' /\ resized me n ut kt s s'.
Proof.
  intros p n Hme Hlen Hinv Hst Hsp. pose proof (us_sz _ _ _ _ (sp_user _ _ _ _ Hsp)) as Hsz. pose proof (vma_heap_limit_le (p_vmas p)) as Hlim.
  change MMAP_TOP with USER_STACK_GUARD in Hlim.
  assert (Hw : wp (sys_sbrk me) (fun r s' =>
    if (p_sz p + n <? 0) || ((0 <=? n) && (vma_heap_limit (p_vmas p) <? p_sz p + n)) then r = SRet (-1) /\ s' = s
    else r = SRet (p_sz p) /\ resized me n ut kt s s') s).
  { unfold sys_sbrk. wp_step. apply wp_getp. fold p. wp_step. apply argint_wp; [lia|]. change (Z.to_nat 0 + TF_a0)%nat with TF_a0. fold p n.
    destruct (Z.leb_spec 0 n) as [Hn|Hn]; simpl andb.
    - destruct (Z.ltb_spec (p_sz p + n) 0); [lia|]. simpl orb.
      assert (E : (vma_heap_limit (p_vmas p) <? p_sz p) || (vma_heap_limit (p_vmas p) - p_sz p <? n) = (vma_heap_limit (p_vmas p) <? p_sz p + n)).
      { apply eq_true_iff_eq. rewrite orb_true_iff, !Z.ltb_lt. lia. }
      rewrite E. clear E. destruct (Z.ltb_spec (vma_heap_limit (p_vmas p)) (p_sz p + n)); [by wp_go|].
      wp_step. apply wp_sys_p. wp_go. split; [done|]. rewrite u64_small by (change USER_STACK_GUARD with 2146435072 in *; lia).
      apply (resized_intro me n ut kt s _ (mem_of s) Hme Hlen); fold p; [by destruct (ps_of s)|apply grow_space; [done|done|lia]|done| |done|].
      2: { intros va _. pose proof (heap_pages_mono (p_sz p) (p_sz p + n) ltac:(lia) ltac:(lia)) as Hmono.
        split; unfold cut_pte; (rewrite (vpn_in_none _ _ (va / PGSIZE)); [done|lia]). }
      intros q Hq. assert (E : cut_frames (mem_of s) ut (p_sz p + n) (p_sz p) = []); [|rewrite E; simpl; lia].
      unfold cut_frames, frames. pose proof (heap_pages_mono (p_sz p) (p_sz p + n) ltac:(lia) ltac:(lia)). by rewrite seqZ_nil by lia.
    - rewrite orb_false_r. replace (p_sz p <? - n) with (p_sz p + n <? 0) by (apply eq_true_iff_eq; rewrite !Z.ltb_lt; lia).
      destruct (Z.ltb_spec (p_sz p + n) 0); [by wp_go|]. replace (p_sz p - - n) with (p_sz p + n) by lia.
      pose proof (dealloc_both_wp (mem_of s) p ut kt (p_sz p + n) Hinv Hsp ltac:(lia)) as Hd. apply wp_bind_inv in Hd.
      wp_step. apply wp_sys_k. eapply wp_mono; [exact Hd|]. intros r1 k1 Hd1. cbv beta. wp_step. apply wp_sys_k.
      eapply wp_mono; [exact Hd1|]. intros r2 k2 [-> Hsh]. cbv beta. wp_step. apply wp_sys_p. wp_go. split; [done|].
      apply (resized_intro me n ut kt s _ k2 Hme Hlen); [done|apply Hsh..|]. intros va Hva. split; by apply Hsh. }
  destruct (wp_Ok _ _ _ Hw) as (r & s' & E & H). destruct (_ || _); [by destruct H as [-> ->]|]. exists s'. by destruct H as [-> H].
Qed.
End sbrk.
