(* ===== verification/FdProps.v ===== *)
(** * Descriptors

    [fdalloc] takes the lowest free descriptor; [dup] and [close] are inverse
    to each other on the table of descriptors and on the table of open files. *)

From S2P Require Import Prelude Riscv Memory Spinlock Kalloc Kmalloc Vm VmTree VmUnmap VmFree VmSpace Proctab Signal Sched SchedProps Pipe Ringbuffer Printf Uart Bio BioProps Fat32 FatDisk FatChain FatClus FatFile File FileProps Console Mmap Vmfault Proc ProcProps Kernel Exec Syscall SysWp.
Import Hart.

Section fds.
Context {D : Type} `{!EitherCopy cstate} `{!Disk D} `{!PipeOps cstate} `{!DeviceOps cstate D} `{!DeviceMmap D}.
Context {L : Linker}.
Implicit Types s : sys D.

Definition ofiles s me : list Z := p_ofile (proc_at (ps_of s) me).
(** The state with descriptor [fd] of process [me] set to [f]. *)
Definition with_fd (me fd f : Z) s : sys D :=
  with_ps (upd_proc me (fun p => set_p_ofile (<[Z.to_nat fd := f]> (p_ofile p)) p) (ps_of s)) s.

Lemma set_ofile_wp me fd f s (Q : unit -> sys D -> Prop) : Q tt (with_fd me fd f s) -> wp (set_ofile me fd f) Q s.
Proof. intros H. unfold set_ofile. apply wp_sys_p. by wp_go. Qed.

(** [k] is the lowest free descriptor. *)
Definition lowest_free (l : list Z) (k : Z) : Prop :=
  0 <= k < NOFILE /\ l !!! Z.to_nat k = 0 /\ forall j, 0 <= j < k -> l !!! Z.to_nat j <> 0.

Lemma fdalloc_scan_wp me f n : forall fd s (Q : Z -> sys D -> Prop), 0 <= fd -> fd + Z.of_nat n = NOFILE ->
  (forall j, 0 <= j < fd -> ofiles s me !!! Z.to_nat j <> 0) ->
  ((forall j, 0 <= j < NOFILE -> ofiles s me !!! Z.to_nat j <> 0) -> Q (-1) s) ->
  (forall k, lowest_free (ofiles s me) k -> Q k (with_fd me k f s)) -> wp (fdalloc_scan n me fd f) Q s.
Proof.
  induction n as [|n IH]; intros fd s Q Hfd Hn Hlow Hfull Hk; cbn [fdalloc_scan].
  - wp_go. apply Hfull. intros j Hj. apply Hlow. lia.
  - wp_step. apply wp_getp. fold (ofiles s me). destruct (Z.eqb_spec (ofiles s me !!! Z.to_nat fd) 0) as [E|E].
    + wp_step. apply set_ofile_wp. wp_go. apply Hk. split_and!; [lia|lia|done|done].
    + apply IH; [lia|lia| |done|done]. intros j Hj. destruct (decide (j = fd)) as [->|]; [done|apply Hlow; lia].
Qed.

Lemma fdalloc_wp me f s (Q : Z -> sys D -> Prop) :
  ((forall j, 0 <= j < NOFILE -> ofiles s me !!! Z.to_nat j <> 0) -> Q (-1) s) ->
  (forall k, lowest_free (ofiles s me) k -> Q k (with_fd me k f s)) -> wp (fdalloc me f) Q s.
Proof. intros H1 H2. unfold fdalloc. apply fdalloc_scan_wp; [lia|done|lia|done|done]. Qed.

(** ** References of an open file *)

Definition with_file (f : Z) (g : file -> file) (l : lkst) s : sys D :=
  Filest (lput l (fl_fat s)) (<[Z.to_nat f := g (file_at s f)]> (fl_files s)) (fl_devices s).

Lemma filedup_wp f s (Q : Z -> sys D -> Prop) : ft_ready s -> 1 <= f_ref (file_at s f) < 2 ^ 31 - 1 ->
  (forall l, lk_same (lget (fl_fat s)) l -> Q f (with_file f (set_f_ref (f_ref (file_at s f) + 1)) l s)) -> wp (filedup f) Q s.
Proof.
  intros Hr Href HQ. pose proof Hr as [H1 H2]. unfold filedup, getf, setf. wp_step. apply ft_lock_wp; [done|]. intros l Hl. wp_step. wp_step.
  change (file_at (Filest (lput l (fl_fat s)) (fl_files s) (fl_devices s)) f) with (file_at s f). destruct (Z.ltb_spec (f_ref (file_at s f)) 1); [lia|].
  wp_step. wp_step. wp_step. rewrite s32_small by lia. cbn [fl_fat fl_files fl_devices]. apply ft_unlock_wp; [done|done|done|]. intros l' Hl'. wp_go. by apply HQ.
Qed.

Lemma fileclose_shared_wp f s (Q : Z -> sys D -> Prop) : ft_ready s -> 2 <= f_ref (file_at s f) ->
  (forall l, lk_same (lget (fl_fat s)) l -> Q 0 (with_file f (set_f_ref (f_ref (file_at s f) - 1)) l s)) -> wp (fileclose f) Q s.
Proof.
  intros Hr Href HQ. pose proof Hr as [H1 H2]. unfold fileclose, getf, setf. wp_step. apply ft_lock_wp; [done|]. intros l Hl. wp_step. wp_step.
  change (file_at (Filest (lput l (fl_fat s)) (fl_files s) (fl_devices s)) f) with (file_at s f). destruct (Z.ltb_spec (f_ref (file_at s f)) 1); [lia|].
  wp_step. wp_step. destruct (Z.ltb_spec 0 (f_ref (file_at s f) - 1)); [|lia].
  wp_step. cbn [fl_fat fl_files fl_devices]. apply ft_unlock_wp; [done|done|done|]. intros l' Hl'. wp_go. by apply HQ.
Qed.

Lemma argfd_wp me n s (Q : option (Z * Z) -> sys D -> Prop) : 0 <= n <= 5 ->
  let fd := s32 (p_tf (proc_at (ps_of s) me) !!! (Z.to_nat n + TF_a0)%nat) in let f := ofiles s me !!! Z.to_nat fd in
  Q (if (fd <? 0) || (NOFILE <=? fd) then None else if f =? 0 then None else Some (fd, f)) s -> wp (argfd me n) Q s.
Proof.
  intros Hn fd f HQ. unfold argfd. wp_step. apply argint_wp; [done|]. fold fd. wp_step. apply wp_getp. fold (ofiles s me) f.
  destruct (_ || _); by wp_go.
Qed.

(** ** dup and close *)

(** Process [me] of a state changed by [g], and the other ones. *)
Lemma proc_with me (g : proc -> proc) s j : 0 <= me < NPROC -> 0 <= j < NPROC -> length (ps_procs (ps_of s)) = Z.to_nat NPROC ->
  proc_at (ps_of (with_ps (upd_proc me g (ps_of s)) s)) j = if me =? j then g (proc_at (ps_of s) j) else proc_at (ps_of s) j.
Proof. intros Hme Hj Hlen. exact (upd_proc_at me g j (ps_of s) Hme Hj Hlen). Qed.

Lemma set_a0_wp me v s (Q : unit -> sys D -> Prop) :
  Q tt (with_ps (upd_proc me (fun p => set_p_tf (<[TF_a0 := u64 v]> (p_tf p)) p) (ps_of s)) s) -> wp (set_a0 me v) Q s.
Proof. intros H. unfold set_a0. apply wp_sys_p. by wp_go. Qed.

(** A call and its value in [a0]. *)
Definition finished (call : M (sys D) sysres) (me : Z) : M (sys D) sysres := r <- call ;; sys_finish me r.

(** A duplicate of [f] at descriptor [k]; the processes differ in nothing else
    but the [a0] of the caller. *)
Record duplicated (me k f : Z) s s' : Prop := {
  du_self : proc_at (ps_of s') me = set_p_tf (<[TF_a0 := k]> (p_tf (proc_at (ps_of s) me))) (set_p_ofile (<[Z.to_nat k := f]> (ofiles s me)) (proc_at (ps_of s) me));
  du_others j : 0 <= j < NPROC -> j <> me -> proc_at (ps_of s') j = proc_at (ps_of s) j;
  du_len : length (ps_procs (ps_of s')) = length (ps_procs (ps_of s));
  du_files : fl_files s' = <[Z.to_nat (fslot f) := set_f_ref (f_ref (file_at s (fslot f)) + 1) (file_at s (fslot f))]> (fl_files s);
  du_lock : lk_same (lget (fl_fat s)) (lget (fl_fat s'));
}.

Definition fd_arg s me : Z := s32 (p_tf (proc_at (ps_of s) me) !!! TF_a0).

Lemma dup_wp me s : let fd := fd_arg s me in let f := ofiles s me !!! Z.to_nat fd in
  0 <= me < NPROC -> length (ps_procs (ps_of s)) = Z.to_nat NPROC -> 0 <= fd < NOFILE -> f <> 0 -> ft_ready s ->
  1 <= f_ref (file_at s (fslot f)) < 2 ^ 31 - 1 ->
  wp (finished (sys_dup me) me) (fun r s' =>
    (r = SRet (-1) /\ forall j, 0 <= j < NOFILE -> ofiles s me !!! Z.to_nat j <> 0) \/
    exists k, r = SRet k /\ lowest_free (ofiles s me) k /\ duplicated me k f s s') s.
Proof.
  intros fd f Hme Hlen Hfd Hf Hr Href. unfold finished, sys_dup. wp_step. wp_step. apply argfd_wp; [lia|].
  change (s32 (p_tf (proc_at (ps_of s) me) !!! (Z.to_nat 0 + TF_a0)%nat)) with fd. fold f.
  destruct (Z.ltb_spec fd 0); [lia|]. destruct (Z.leb_spec NOFILE fd); [lia|]. destruct (Z.eqb_spec f 0); [done|]. simpl orb. cbv iota.
  wp_step. apply fdalloc_wp.
  - intros Hfull. change (-1 <? 0) with true. cbv iota. wp_step. unfold sys_finish. wp_step. apply set_a0_wp. wp_go. by left.
  - intros k Hk. pose proof Hk as (Hk1 & _). destruct (Z.ltb_spec k 0); [lia|]. wp_step. apply filedup_wp; [done|done|]. intros l Hl. wp_go. unfold sys_finish.
    wp_step. apply set_a0_wp. wp_go. right. exists k. split; [done|]. split; [done|]. rewrite u64_small by (unfold NOFILE in *; lia).
    set (s1 := with_file _ _ _ _).
    assert (Hp1 : forall j, 0 <= j < NPROC -> proc_at (ps_of s1) j = proc_at (ps_of (with_fd me k f s)) j) by done.
    assert (Hlen1 : length (ps_procs (ps_of s1)) = Z.to_nat NPROC) by (etrans; [exact (length_insert _ _ _)|exact Hlen]).
    split; [| | |done|done].
    + rewrite proc_with, Z.eqb_refl, Hp1 by done. unfold with_fd. rewrite proc_with, Z.eqb_refl by done. done.
    + intros j Hj Hne. rewrite proc_with, Hp1 by done. unfold with_fd. rewrite proc_with by done. by rewrite (proj2 (Z.eqb_neq me j)) by done.
    + etrans; [exact (length_insert _ _ _)|]. etrans; [exact Hlen1|done].
Qed.

Lemma ft_ready_same s s' : ft_ready s -> lk_same (lget (fl_fat s)) (lget (fl_fat s')) -> ft_ready s'.
Proof. intros [H1 H2] Hs. pose proof Hs as (_ & _ & Hh & _). split; [by eapply lk_same_ok|by rewrite Hh]. Qed.

(** Closing a descriptor whose file has other references. *)
Lemma close_wp me s : let fd := fd_arg s me in let f := ofiles s me !!! Z.to_nat fd in
  0 <= fd < NOFILE -> f <> 0 -> ft_ready s -> 2 <= f_ref (file_at s (fslot f)) ->
  wp (sys_close me) (fun r s' => r = SRet 0 /\ exists l, lk_same (lget (fl_fat s)) l /\
    s' = with_file (fslot f) (set_f_ref (f_ref (file_at s (fslot f)) - 1)) l (with_fd me fd 0 s)) s.
Proof.
  intros fd f Hfd Hf Hr Href. unfold sys_close. wp_step. apply argfd_wp; [lia|].
  change (s32 (p_tf (proc_at (ps_of s) me) !!! (Z.to_nat 0 + TF_a0)%nat)) with fd. fold f.
  destruct (Z.ltb_spec fd 0); [lia|]. destruct (Z.leb_spec NOFILE fd); [lia|]. destruct (Z.eqb_spec f 0); [done|]. simpl orb. cbv iota.
  wp_step. apply set_ofile_wp. wp_step. apply fileclose_shared_wp; [done|done|]. intros l Hl. wp_go. split; [done|]. by exists l.
Qed.

Lemma set_ref_back r (x : file) : set_f_ref (f_ref x) (set_f_ref r x) = x.
Proof. by destruct x. Qed.

(** [close(dup(fd))] does nothing.  [dup] of an open descriptor fails only
    when every descriptor is in use; otherwise it takes the lowest free one for
    the same file, whose reference count goes up by one.  The [close] that
    follows, with the value of [dup] still in [a0], returns 0, and the
    descriptors of every process and the whole table of open files are what
    they were before. *)
Theorem close_dup_identity me s : let fd := fd_arg s me in let f := ofiles s me !!! Z.to_nat fd in
  0 <= me < NPROC -> length (ps_procs (ps_of s)) = Z.to_nat NPROC -> length (p_tf (proc_at (ps_of s) me)) = TF_WORDS ->
  length (ofiles s me) = Z.to_nat NOFILE -> 0 <= fd < NOFILE -> f <> 0 -> 0 <= fslot f < Z.of_nat (length (fl_files s)) -> ft_ready s ->
  1 <= f_ref (file_at s (fslot f)) < 2 ^ 31 - 1 ->
  exists r s1, finished (sys_dup me) me s = Ok r s1 /\
    ((r = SRet (-1) /\ forall j, 0 <= j < NOFILE -> ofiles s me !!! Z.to_nat j <> 0) \/
     exists k s2, r = SRet k /\ lowest_free (ofiles s me) k /\ ofiles s1 me !!! Z.to_nat k = f /\
       f_ref (file_at s1 (fslot f)) = f_ref (file_at s (fslot f)) + 1 /\
       sys_close me s1 = Ok (SRet 0) s2 /\ fl_files s2 = fl_files s /\ forall j, 0 <= j < NPROC -> ofiles s2 j = ofiles s j).
Proof.
  intros fd f Hme Hlen Htf Hof Hfd Hf Hfl Hr Href.
  destruct (wp_Ok _ _ _ (dup_wp me s Hme Hlen Hfd Hf Hr Href)) as (r & s1 & E & [[-> H]|(k & -> & Hk & Hd)]).
  - exists (SRet (-1)), s1. split; [done|by left].
  - exists (SRet k), s1. split; [done|]. right. exists k. fold fd f in Hd. pose proof Hk as (Hk1 & Hk2 & _). destruct Hd as [D1 D2 D3 D4 D5].
    assert (Hfd1 : fd_arg s1 me = k).
    { unfold fd_arg. rewrite D1. simpl p_tf. rewrite list_lookup_total_insert_eq by (rewrite Htf; unfold TF_a0, TF_WORDS; lia). apply s32_small. unfold NOFILE in *. lia. }
    assert (Ho1 : ofiles s1 me = <[Z.to_nat k := f]> (ofiles s me)) by (unfold ofiles at 1; by rewrite D1).
    assert (Hat : ofiles s1 me !!! Z.to_nat k = f) by (rewrite Ho1; apply list_lookup_total_insert_eq; lia).
    assert (Hf1 : file_at s1 (fslot f) = set_f_ref (f_ref (file_at s (fslot f)) + 1) (file_at s (fslot f))) by (unfold file_at at 1; rewrite D4; apply list_lookup_total_insert_eq; lia).
    pose proof (close_wp me s1) as Hc. cbv zeta in Hc. rewrite Hfd1, Hat, Hf1 in Hc.
    destruct (wp_Ok _ _ _ (Hc Hk1 Hf (ft_ready_same _ _ Hr D5) ltac:(simpl; lia))) as (r2 & s2 & E2 & -> & l & _ & ->).
    eexists. split; [done|]. split; [done|]. split; [done|]. split; [by rewrite Hf1|]. split; [exact E2|]. split.
    + simpl fl_files. rewrite D4, list_insert_insert_eq. cbn [f_ref set_f_ref]. change (file_at (with_fd me k 0 s1) (fslot f)) with (file_at s1 (fslot f)). rewrite Hf1.
      cbn [f_ref set_f_ref]. rewrite Z.add_simpl_r, set_ref_back. apply list_insert_id. apply list_lookup_lookup_total_lt. lia.
    + intros j Hj. change (ofiles (with_fd me k 0 s1) j = ofiles s j). unfold ofiles at 1, with_fd. rewrite proc_with by (done || by rewrite D3).
      destruct (Z.eqb_spec me j) as [<-|Hne].
      * simpl. fold (ofiles s1 me). rewrite Ho1, list_insert_insert_eq. apply list_insert_id. rewrite <- Hk2. apply list_lookup_lookup_total_lt. lia.
      * unfold ofiles. by rewrite D2.
Qed.
End fds.
