(* ===== verification/CopyProps.v ===== *)
(** * Copies between kernel and user memory

    The copy routines on a range of user addresses that is mapped, and on an
    address that belongs to no part of the address space. *)

From S2P Require Import Prelude Riscv Memory Spinlock Kalloc Kmalloc Vm VmTree VmUnmap VmFree VmSpace Proctab Signal Sched SchedProps Pipe Ringbuffer Printf Uart Bio Fat32 File Console Mmap Vmfault Proc ProcProps Kernel Exec Syscall SysWp.
Import Hart.

Section copies.
Context {D : Type} `{!EitherCopy cstate} `{!Disk D} `{!PipeOps cstate} `{!DeviceOps cstate D} `{!DeviceMmap D}.
Context {L : Linker} {LOK : LinkerOk L} {PAS : PageAllocSpec}.
Implicit Types x : sys D.

Abbreviation mem x := (k_mem (mem_of x)).
Definition with_k (k : kst) x : sys D := with_ps (set_ps_k k (ps_of x)) x.
Definition with_mem (f : gmap Z Z -> gmap Z Z) x : sys D := with_k (set_mem f (mem_of x)) x.

(** User addresses [lo..hi) of process [i] are mapped read-write at the
    physical addresses [pa], which are pairwise different and not in the page
    table. *)
Record window (i : Z) (t : tree) (lo hi : Z) (pa : Z -> Z) x : Prop := {
  wn_rep : pt_rep (mem_of x) t (p_kpagetable (proc_at (ps_of x) i));
  wn_range : 0 <= lo /\ hi <= MAXUVA;
  wn_pte va : lo <= va < hi -> let v := pte_of (mem_of x) t va in
    has v PTE_V = true /\ has v PTE_U = false /\ has v PTE_R = true /\ has v PTE_W = true /\ PTE2PA v + va mod PGSIZE = pa va;
  wn_apart va k p : lo <= va < hi -> t !! k = Some p -> ~ in_page p (pa va);
  wn_inj va va' : lo <= va < hi -> lo <= va' < hi -> pa va = pa va' -> va = va';
}.

(** The window survives stores through it. *)
Lemma window_ext i t lo hi pa x x' : window i t lo hi pa x ->
  p_kpagetable (proc_at (ps_of x') i) = p_kpagetable (proc_at (ps_of x) i) -> k_quota (mem_of x') = k_quota (mem_of x) ->
  (forall a, (forall va, lo <= va < hi -> pa va <> a) -> ld8 (mem x') a = ld8 (mem x) a) -> window i t lo hi pa x'.
Proof.
  intros [W1 W2 W3 W4 W5] Hk Hq Hm.
  destruct (pt_rep_ext (mem_of x) (mem_of x') t _ W1) as [Hr He].
  - intros k p _. unfold quota. by rewrite Hq.
  - intros k p a Hp Hin. apply Hm. intros va Hva <-. by eapply W4.
  - split; [by rewrite Hk|done| |done|done]. intros va Hva. cbv zeta. rewrite He. by apply W3.
Qed.

Lemma access_wp i t lo hi pa va access (Q : option Z -> sys D -> Prop) x : window i t lo hi pa x -> lo <= va < hi ->
  Q (Some (pa va)) x -> wp (user_access i va access) Q x.
Proof.
  intros [W1 W2 W3 W4 W5] Hva HQ. destruct (W3 va Hva) as (F1 & F2 & F3 & F4 & F5).
  unfold user_access. apply wp_loop_S. unfold access_body. wp_step. apply wp_getp. wp_step. apply wp_sys_k. unfold translate. wp_step.
  eapply wp_mono; [apply (walk_lookup (mem_of x) t); [exact W1|change MAXVA with (2 ^ 38); unfold MAXUVA in *; lia]|].
  intros r k [-> ->]. unfold pte_of in F1, F2, F3, F4, F5. destruct (t !! [PX 2 va; PX 1 va]) as [q|] eqn:E; [|done].
  destruct (pte_ptr_nonzero _ _ _ va q W1 E) as [Hp Hnz]. rewrite (proj2 (Z.eqb_neq _ _) Hnz), Hp. wp_go.
  rewrite F1, F2. assert (Hf : has (ld64 (k_mem (mem_of x)) (pte_addr q (PX 0 va))) (if access =? VM_FAULT_WRITE then PTE_W else PTE_R) = true) by (by destruct (access =? VM_FAULT_WRITE)).
  rewrite Hf. simpl andb. cbv iota. wp_go. rewrite F5.
  replace (with_ps (set_ps_k (ps_k (ps_of x)) (ps_of x)) x) with x; [done|]. symmetry. etrans; [|apply with_ps_same]. f_equal. by destruct (ps_of x).
Qed.

Lemma with_k_k k k' x : with_k k (with_k k' x) = with_k k x.
Proof. done. Qed.

Lemma copyout_values_wp i t lo hi pa bs : forall va x (Q : bool -> sys D -> Prop), window i t lo hi pa x ->
  lo <= va -> va + Z.of_nat (length bs) <= hi -> Q true (with_mem (put_user pa va bs) x) -> wp (copyout_values bs i va) Q x.
Proof.
  induction bs as [|c bs IH]; intros va x Q Hw Hlo Hhi HQ; cbn [copyout_values length] in *.
  - wp_go. unfold with_mem, with_k in HQ. simpl put_user in HQ. replace x with (with_ps (set_ps_k (set_mem (fun m => m) (mem_of x)) (ps_of x)) x); [done|].
    etrans; [|apply with_ps_same]. f_equal. by destruct (ps_of x) as [[] ? ? ? ? ? ? ? ?].
  - wp_step. eapply access_wp; [exact Hw|lia|]. wp_step. apply wp_sys_k. wp_step. wp_step. fold (with_k (set_mem (fun m => st8 m (pa va) c) (mem_of x)) x).
    apply IH; [|lia|lia|exact HQ]. eapply window_ext; [exact Hw|done|done|]. intros a Ha. apply ld8_st8_ne, Ha. lia.
Qed.

Lemma copyin_values_wp i t lo hi pa n : forall va x (Q : list Z * bool -> sys D -> Prop), window i t lo hi pa x ->
  lo <= va -> va + Z.of_nat n <= hi -> Q ((fun k => ld8 (mem x) (pa (va + Z.of_nat k))) <$> seq 0 n, true) x -> wp (copyin_values n i va) Q x.
Proof.
  induction n as [|n IH]; intros va x Q Hw Hlo Hhi HQ; cbn [copyin_values].
  - wp_go. exact HQ.
  - wp_step. eapply access_wp; [exact Hw|lia|]. wp_step. apply wp_sys_k. wp_step. wp_step. wp_step.
    replace (with_ps (set_ps_k (ps_k (ps_of x)) (ps_of x)) x) with x by (symmetry; etrans; [|apply with_ps_same]; f_equal; by destruct (ps_of x)).
    apply IH; [done|lia|lia|]. wp_step. cbn [seq fmap list_fmap] in HQ. rewrite Z.add_0_r in HQ. cbn [fst snd].
    rewrite <- fmap_S_seq, <- list_fmap_compose in HQ.
    erewrite list_fmap_ext; [exact HQ|]. intros k y _. cbv beta. unfold compose. f_equal. f_equal. lia.
Qed.
(** ** The copy routines *)

Definition recovery (on : bool) (p : proc) : proc := set_p_copy_fault_recovery on (set_p_copy_fault_active on p).
Definition with_recovery (i : Z) (on : bool) x : sys D := with_ps (upd_proc i (recovery on) (ps_of x)) x.

Lemma recovery_wp i on (Q : unit -> sys D -> Prop) x : Q tt (with_recovery i on x) -> wp (set_recovery i on) Q x.
Proof. intros H. unfold set_recovery. apply wp_sys_p. by wp_go. Qed.

Lemma recovery_kpagetable i j on x : 0 <= i < NPROC -> 0 <= j < NPROC -> length (ps_procs (ps_of x)) = Z.to_nat NPROC ->
  p_kpagetable (proc_at (ps_of (with_recovery i on x)) j) = p_kpagetable (proc_at (ps_of x) j).
Proof.
  intros Hi Hj Hl. change (p_kpagetable (proc_at (upd_proc i (recovery on) (ps_of x)) j) = p_kpagetable (proc_at (ps_of x) j)).
  rewrite upd_proc_at by done. by destruct (i =? j).
Qed.

Lemma window_recovery i t lo hi pa on x : 0 <= i < NPROC -> length (ps_procs (ps_of x)) = Z.to_nat NPROC ->
  window i t lo hi pa x -> window i t lo hi pa (with_recovery i on x).
Proof. intros Hi Hl Hw. eapply window_ext; [exact Hw|by apply recovery_kpagetable|done|done]. Qed.

Lemma range_checks va n : 0 <= n -> 0 <= va -> va + n <= MAXUVA -> 0 < n -> (MAXUVA <=? va) || (MAXUVA - va <? n) = false.
Proof. intros. destruct (Z.leb_spec MAXUVA va); [lia|]. destruct (Z.ltb_spec (MAXUVA - va) n); [lia|done]. Qed.

(** What a copy to user memory leaves unchanged. *)
Record copied (i t_lo : Z) (pa : Z -> Z) (bs : list Z) x x' : Prop := {
  co_mem : mem x' = put_user pa t_lo bs (mem x);
  co_quota : k_quota (mem_of x') = k_quota (mem_of x);
  co_len : length (ps_procs (ps_of x')) = length (ps_procs (ps_of x));
  co_kpt j : 0 <= j < NPROC -> p_kpagetable (proc_at (ps_of x') j) = p_kpagetable (proc_at (ps_of x) j);
}.

Lemma copied_window i t lo hi pa va bs x x' : 0 <= i < NPROC -> window i t lo hi pa x -> lo <= va -> va + Z.of_nat (length bs) <= hi ->
  copied i va pa bs x x' -> window i t lo hi pa x'.
Proof.
  intros Hi Hw Hlo Hhi [C1 C2 C3 C4]. eapply window_ext; [exact Hw|by apply C4|exact C2|].
  intros a Ha. rewrite C1. apply put_user_out. intros v Hv. apply Ha. lia.
Qed.

Lemma copyout_l_wp i t lo hi pa va bs x : 0 <= i < NPROC -> length (ps_procs (ps_of x)) = Z.to_nat NPROC -> window i t lo hi pa x ->
  lo <= va -> va + Z.of_nat (length bs) <= hi -> bs <> [] ->
  wp (copyout_l i va bs) (fun r x' => r = 0 /\ copied i va pa bs x x') x.
Proof.
  intros Hi Hl Hw Hlo Hhi Hne. pose proof (wn_range _ _ _ _ _ _ Hw) as [R1 R2]. unfold copyout_l.
  assert (0 < Z.of_nat (length bs)) by (destruct bs; [done|simpl; lia]).
  rewrite range_checks by lia. wp_step. apply recovery_wp. wp_step.
  eapply copyout_values_wp; [by apply window_recovery|done|done|]. wp_step. apply recovery_wp. wp_step. split; [done|].
  split; [done|done|by do 2 (etrans; [exact (length_insert _ _ _)|])|].
  intros j Hj. etrans; [apply recovery_kpagetable; [done|done|by etrans; [exact (length_insert _ _ _)|]]|]. exact (recovery_kpagetable i j true x Hi Hj Hl).
Qed.

Lemma copyin_l_wp i t lo hi pa va n x : 0 <= i < NPROC -> length (ps_procs (ps_of x)) = Z.to_nat NPROC -> window i t lo hi pa x ->
  lo <= va -> 0 < n -> va + n <= hi ->
  wp (copyin_l i va n) (fun r x' => r = Some ((fun k => ld8 (mem x) (pa (va + Z.of_nat k))) <$> seq 0 (Z.to_nat n)) /\
    mem x' = mem x /\ k_quota (mem_of x') = k_quota (mem_of x)) x.
Proof.
  intros Hi Hl Hw Hlo Hn Hhi. pose proof (wn_range _ _ _ _ _ _ Hw) as [R1 R2]. unfold copyin_l, copyin_part. rewrite range_checks by lia.
  wp_step. wp_step. apply recovery_wp. wp_step. eapply copyin_values_wp; [by apply window_recovery|done|lia|]. wp_step. apply recovery_wp. wp_step. wp_step. done.
Qed.

(** C13: what [copyout] puts into user memory [copyin] gets back.  For bytes
    that go to a range of user addresses mapped read-write in the process's
    kernel page table, [copyout] returns 0 and changes exactly the bytes of
    memory behind that range, whatever pages it crosses; [copyin] of the range
    then returns those bytes and changes no memory. *)
Theorem copyout_copyin_roundtrip i t lo hi pa va bs x :
  0 <= i < NPROC -> length (ps_procs (ps_of x)) = Z.to_nat NPROC -> window i t lo hi pa x ->
  lo <= va -> va + Z.of_nat (length bs) <= hi -> bs <> [] -> Forall (fun c => 0 <= c < 256) bs ->
  exists x1 x2, copyout_l i va bs x = Ok 0 x1 /\ copyin_l i va (Z.of_nat (length bs)) x1 = Ok (Some bs) x2 /\
    (forall a, (forall v, va <= v < va + Z.of_nat (length bs) -> pa v <> a) -> ld8 (mem x1) a = ld8 (mem x) a) /\
    mem x2 = mem x1 /\ k_quota (mem_of x2) = k_quota (mem_of x).
Proof.
  intros Hi Hl Hw Hlo Hhi Hne Hb.
  destruct (wp_Ok _ _ _ (copyout_l_wp i t lo hi pa va bs x Hi Hl Hw Hlo Hhi Hne)) as (r & x1 & E1 & -> & Hc).
  pose proof (copied_window _ _ _ _ _ _ _ _ _ Hi Hw Hlo Hhi Hc) as Hw1. pose proof Hc as [C1 C2 C3 C4].
  assert (0 < Z.of_nat (length bs)) by (destruct bs; [done|simpl; lia]).
  destruct (wp_Ok _ _ _ (copyin_l_wp i t lo hi pa va (Z.of_nat (length bs)) x1 Hi (eq_trans C3 Hl) Hw1 Hlo ltac:(lia) Hhi)) as (r & x2 & E2 & -> & M2 & Q2).
  exists x1, x2. split; [exact E1|]. split; [|split_and!; [intros a Ha; rewrite C1; by apply put_user_out|done|by rewrite Q2]].
  rewrite E2. do 2 f_equal. rewrite Nat2Z.id. apply list_eq_same_length with (n := length bs); [done|by rewrite length_fmap, length_seq|].
  intros k c c' Hk. rewrite list_lookup_fmap, lookup_seq_lt by done. simpl. intros [= <-] Hc'.
  rewrite C1, put_user_in; [|done|intros v v' Hv Hv'; apply (wn_inj _ _ _ _ _ _ Hw); lia].
  rewrite (list_lookup_total_correct _ _ _ Hc'). apply u8_small. exact (Forall_lookup_1 _ _ _ _ Hb Hc').
Qed.

(** ** Addresses of nothing *)

(** The page of [va] is not accessible through the kernel page table, and
    [va] is neither in the heap nor in the stack nor in a mapping. *)
Record nowhere (i : Z) (t : tree) (va : Z) x : Prop := {
  nw_rep : pt_rep (mem_of x) t (p_kpagetable (proc_at (ps_of x) i));
  nw_range : 0 <= va < MAXUVA;
  nw_pte : has (pte_of (mem_of x) t va) PTE_V = false;
  nw_area : vm_fault_classify (proc_at (ps_of x) i) va = (VM_AREA_INVALID, None);
}.

Lemma k_same x : with_ps (set_ps_k (ps_k (ps_of x)) (ps_of x)) x = x.
Proof. etrans; [|apply with_ps_same]. f_equal. by destruct (ps_of x). Qed.

Lemma access_nowhere_wp i t va access (Q : option Z -> sys D -> Prop) x : nowhere i t va x -> access = VM_FAULT_READ \/ access = VM_FAULT_WRITE ->
  Q None x -> wp (user_access i va access) Q x.
Proof.
  intros [W1 W2 W3 W4] Ha HQ. unfold user_access. apply wp_loop_S. unfold access_body. wp_step. apply wp_getp. wp_step. apply wp_sys_k.
  set (p := proc_at (ps_of x) i) in *.
  assert (Hfault : wp (r <- vm_resolve_fault (Some i) (p_pagetable p) va access ;; if r =? VM_FAULT_RESOLVED then ret (inl tt) else ret (inr None))
    (fun y x' => match y with inl u => wp (loop 2 (access_body i va access) u) Q x' | inr r => Q r x' end) x).
  { wp_step. unfold vm_resolve_fault. wp_step. apply wp_getp. fold p. rewrite Z.eqb_refl. destruct (Z.leb_spec MAXUVA va); [lia|]. simpl negb. simpl orb. cbv iota.
    rewrite W4. simpl vm_fault_area_allows. destruct Ha as [-> | ->]; simpl; by wp_go. }
  unfold translate. wp_step. eapply wp_mono; [apply (walk_lookup (mem_of x) t); [exact W1|change MAXVA with (2 ^ 38); unfold MAXUVA in *; lia]|].
  intros r k [-> ->]. unfold pte_of in W3. destruct (t !! [PX 2 va; PX 1 va]) as [q|] eqn:E.
  - destruct (pte_ptr_nonzero _ _ _ va q W1 E) as [Hp Hnz]. rewrite (proj2 (Z.eqb_neq _ _) Hnz), Hp. wp_step. wp_step. wp_step. wp_step. rewrite W3. simpl andb. cbv iota. rewrite k_same. exact Hfault.
  - unfold pte_ptr. rewrite E. change (0 =? 0) with true. cbv iota. wp_step. rewrite k_same. exact Hfault.
Qed.

End copies.
