(* ===== verification/ExecProps.v ===== *)
(** * The arguments of a program

    [exec] copies the argument strings and the array of pointers to them to
    the top page of the new stack: the picture that [main] starts with. *)

From S2P Require Import Prelude Riscv Memory Spinlock Kalloc Kmalloc Vm VmTree VmUnmap VmFree VmSpace Proctab Signal Sched SchedProps Pipe Ringbuffer Printf Uart Bio Fat32 File Console Mmap Vmfault Proc ProcProps Kernel Exec Syscall SysWp CopyProps.
Import Hart.

(** ** Layout *)

(** Addresses of the strings and the stack pointer below them. *)
Fixpoint arg_ptrs (sp : Z) (args : list (list Z)) : list Z :=
  match args with
  | [] => []
  | bs :: args' => let sp := arg_slot sp (Z.of_nat (length bs)) in sp :: arg_ptrs sp args'
  end.
Fixpoint args_end (sp : Z) (args : list (list Z)) : Z :=
  match args with
  | [] => sp
  | bs :: args' => args_end (arg_slot sp (Z.of_nat (length bs))) args'
  end.

Lemma stack_numbers : stackbase = 2147479552 /\ USER_STACK_TOP = 2147483648 /\ MAXUVA = 2147483648 /\ PGSIZE = 4096.
Proof. done. Qed.

Lemma arg_slot_spec sp len : stackbase <= sp <= USER_STACK_TOP -> 0 <= len < PGSIZE ->
  let sp' := arg_slot sp len in sp' mod 16 = 0 /\ sp' + len + 1 <= sp /\ sp - (len + 1) - 16 < sp' /\ 0 <= sp'.
Proof.
  destruct stack_numbers as (-> & -> & _ & ->). intros Hs Hl. unfold arg_slot. cbv zeta. rewrite (u64_small (sp - (len + 1))) by lia.
  pose proof (Z.mod_pos_bound (sp - (len + 1)) 16 ltac:(lia)). rewrite u64_small by lia. split_and!; try lia.
  replace (sp - (len + 1) - (sp - (len + 1)) mod 16) with ((sp - (len + 1)) / 16 * 16) by (pose proof (Z.div_mod (sp - (len + 1)) 16); lia).
  apply Z.mod_mul. lia.
Qed.

Lemma argv_slot_spec sp argc : stackbase <= sp <= USER_STACK_TOP -> 0 <= argc <= MAXARG ->
  let sp' := argv_slot sp argc in sp' mod 16 = 0 /\ sp' + (argc + 1) * 8 <= sp /\ 0 <= sp'.
Proof.
  intros Hs Ha. pose proof (arg_slot_spec sp ((argc + 1) * 8 - 1) Hs ltac:(unfold MAXARG, PGSIZE in *; lia)) as H. cbv zeta in H.
  unfold arg_slot in H. replace ((argc + 1) * 8 - 1 + 1) with ((argc + 1) * 8) in H by lia. unfold argv_slot. cbv zeta. lia.
Qed.

Lemma length_arg_ptrs args : forall sp, length (arg_ptrs sp args) = length args.
Proof. induction args as [|bs args IH]; intros sp; [done|]. cbn [arg_ptrs length]. by rewrite IH. Qed.

Lemma bytes8_spec v : length (bytes8 v) = 8%nat /\ Forall (fun c => 0 <= c < 256) (bytes8 v).
Proof. split; [done|]. apply Forall_fmap, Forall_forall. intros k _. apply u8_range. Qed.

(** An array of pointers, as bytes. *)
Lemma pointer_bytes l : length (concat (bytes8 <$> l)) = (8 * length l)%nat /\ Forall (fun c => 0 <= c < 256) (concat (bytes8 <$> l)).
Proof.
  induction l as [|v l [IH1 IH2]]; [done|]. destruct (bytes8_spec v) as [H1 H2]. cbn [fmap list_fmap concat length].
  rewrite length_app, H1, IH1. split; [lia|]. by apply Forall_app.
Qed.

(** The strings fit. *)
Definition args_fit (sp : Z) (args : list (list Z)) : Prop :=
  Z.of_nat (length args) <= MAXARG /\ Forall (fun p => stackbase <= p) (arg_ptrs sp args).
#[export] Instance args_fit_dec sp args : Decision (args_fit sp args).
Proof. unfold args_fit. apply _. Defined.

(** The bytes [n] from [a] on. *)
Definition read_bytes (m : gmap Z Z) (a : Z) (n : nat) : list Z := (fun k => ld8 m (a + Z.of_nat k)) <$> seq 0 n.

Lemma read_bytes_S m a n : read_bytes m a (S n) = ld8 m a :: read_bytes m (a + 1) n.
Proof.
  unfold read_bytes. cbn [seq fmap list_fmap]. rewrite Z.add_0_r. f_equal. rewrite <- fmap_S_seq, <- list_fmap_compose.
  apply list_fmap_ext. intros k y _. unfold compose. f_equal. lia.
Qed.

Lemma read_bytes_cstring m a bs : cstring m a bs -> read_bytes m a (S (length bs)) = bs ++ [0].
Proof.
  revert a. induction bs as [|b bs IH]; intros a H.
  - apply cstring_nil in H. rewrite read_bytes_S. by rewrite H.
  - apply cstring_cons in H as (H1 & _ & H2). rewrite read_bytes_S. cbn [length app]. by rewrite H1, IH.
Qed.

Lemma read_bytes_ext m m' a n : (forall k, 0 <= k < Z.of_nat n -> ld8 m' (a + k) = ld8 m (a + k)) -> read_bytes m' a n = read_bytes m a n.
Proof. intros H. apply list_fmap_ext. intros k y [? ?]%lookup_seq. apply H. lia. Qed.

Lemma cstring_ext m m' a bs : cstring m a bs -> (forall k, 0 <= k <= Z.of_nat (length bs) -> ld8 m' (a + k) = ld8 m (a + k)) -> cstring m' a bs.
Proof.
  intros [H1 H2] He. split.
  - intros k b Hb. rewrite He; [by apply H1|]. apply lookup_lt_Some in Hb. lia.
  - by rewrite He by lia.
Qed.

Section args.
Context {D : Type} `{!EitherCopy cstate} `{!Disk D} `{!PipeOps cstate} `{!DeviceOps cstate D} `{!DeviceMmap D}.
Context {L : Linker} {LOK : LinkerOk L} {PAS : PageAllocSpec} {EF : ExecFrame}.
Implicit Types x : sys D.
Abbreviation mem x := (k_mem (mem_of x)).

(** ** [copyout] from the kernel's memory *)

Lemma copyout_bytes_wp i t lo hi pa n : forall va src x (Q : bool -> sys D -> Prop), window i t lo hi pa x ->
  lo <= va -> va + Z.of_nat n <= hi -> (forall v k, lo <= v < hi -> 0 <= k < Z.of_nat n -> pa v <> src + k) ->
  Q true (with_mem (put_user pa va (read_bytes (mem x) src n)) x) -> wp (copyout_bytes n i va src) Q x.
Proof.
  induction n as [|n IH]; intros va src x Q Hw Hlo Hhi Hap HQ; cbn [copyout_bytes].
  - wp_go. unfold with_mem, with_k in HQ. simpl put_user in HQ. replace x with (with_ps (set_ps_k (set_mem (fun m => m) (mem_of x)) (ps_of x)) x); [done|].
    etrans; [|apply with_ps_same]. f_equal. by destruct (ps_of x) as [[] ? ? ? ? ? ? ? ?].
  - wp_step. apply wp_sys_k. wp_step. wp_step. rewrite k_same. wp_step. eapply access_wp; [exact Hw|lia|]. wp_step. apply wp_sys_k. wp_step. wp_step.
    fold (with_k (set_mem (fun m => st8 m (pa va) (ld8 (mem x) src)) (mem_of x)) x).
    apply IH; [|lia|lia| |].
    + eapply window_ext; [exact Hw|done|done|]. intros a Ha. apply ld8_st8_ne, Ha. lia.
    + intros v k Hv Hk. rewrite <- Z.add_assoc. apply Hap; lia.
    + rewrite read_bytes_S in HQ. cbn [put_user] in HQ.
      set (x1 := with_k _ x). assert (He : read_bytes (mem x1) (src + 1) n = read_bytes (mem x) (src + 1) n).
      { apply read_bytes_ext. intros k Hk. apply ld8_st8_ne. rewrite <- Z.add_assoc. apply Hap; lia. }
      rewrite He. exact HQ.
Qed.

Lemma copyout_wp i t lo hi pa va src n x : 0 <= i < NPROC -> length (ps_procs (ps_of x)) = Z.to_nat NPROC -> window i t lo hi pa x ->
  lo <= va -> 0 < n -> va + n <= hi -> (forall v k, lo <= v < hi -> 0 <= k < n -> pa v <> src + k) ->
  wp (copyout i va src n) (fun r x' => r = 0 /\ copied i va pa (read_bytes (mem x) src (Z.to_nat n)) x x') x.
Proof.
  intros Hi Hl Hw Hlo Hn Hhi Hap. pose proof (wn_range _ _ _ _ _ _ Hw) as [R1 R2]. unfold copyout. rewrite range_checks by lia.
  wp_step. apply recovery_wp. wp_step. eapply copyout_bytes_wp; [by apply window_recovery|done|lia|intros; apply Hap; lia|].
  wp_step. apply recovery_wp. wp_step. split; [done|]. split; [done|done|by do 2 (etrans; [exact (length_insert _ _ _)|])|].
  intros j Hj. etrans; [apply recovery_kpagetable; [done|done|by etrans; [exact (length_insert _ _ _)|]]|]. exact (recovery_kpagetable i j true x Hi Hj Hl).
Qed.

(** ** The strings *)

(** The addresses of the strings in the kernel, each a NUL-terminated string
    of less than a page outside the stack page. *)
Definition arg_ok (pa : Z -> Z) (m : gmap Z Z) (a : Z) (bs : list Z) : Prop :=
  a <> 0 /\ cstring m a bs /\ Z.of_nat (length bs) < PGSIZE /\
  forall v k, stackbase <= v < USER_STACK_TOP -> 0 <= k <= Z.of_nat (length bs) -> pa v <> a + k.

(** The user memory behind [pa] holds [bs] at [p]. *)
Definition user_bytes (pa : Z -> Z) (m : gmap Z Z) (p : Z) (bs : list Z) : Prop :=
  forall k b, bs !! k = Some b -> ld8 m (pa (p + Z.of_nat k)) = b.

Lemma args_end_range args : forall sp, stackbase <= sp <= USER_STACK_TOP -> Forall (fun bs => Z.of_nat (length bs) < PGSIZE) args ->
  Forall (fun p => stackbase <= p) (arg_ptrs sp args) -> stackbase <= args_end sp args <= sp.
Proof.
  induction args as [|bs args IH]; intros sp Hsp Hl Hf; cbn [arg_ptrs args_end] in *; [lia|].
  inversion_clear Hl. inversion_clear Hf. destruct (arg_slot_spec sp (Z.of_nat (length bs)) Hsp ltac:(lia)) as (A1 & A2 & A3 & A4).
  pose proof (IH (arg_slot sp (Z.of_nat (length bs))) ltac:(lia) ltac:(done) ltac:(done)). lia.
Qed.

(** The strings are at the addresses [ptrs], NUL-terminated and aligned, each
    below the one before and the first below [sp]; none is below [low]. *)
Definition placed (pa : Z -> Z) (m : gmap Z Z) (low sp : Z) (args : list (list Z)) (ptrs : list Z) : Prop :=
  forall j bs p q, args !! j = Some bs -> ptrs !! j = Some p -> (sp :: ptrs) !! j = Some q ->
    p mod 16 = 0 /\ low <= p /\ p + Z.of_nat (length bs) + 1 <= q /\ q <= sp /\ user_bytes pa m p (bs ++ [0]).

Lemma user_bytes_ext pa m m' p bs : user_bytes pa m p bs ->
  (forall v, p <= v < p + Z.of_nat (length bs) -> ld8 m' (pa v) = ld8 m (pa v)) -> user_bytes pa m' p bs.
Proof. intros H He k b Hk. rewrite He; [by apply H|]. apply lookup_lt_Some in Hk. lia. Qed.

Lemma placed_ext pa m m' low sp args ptrs : placed pa m low sp args ptrs ->
  (forall v, low <= v < sp -> ld8 m' (pa v) = ld8 m (pa v)) -> placed pa m' low sp args ptrs.
Proof.
  intros H He j bs p q Hj Hp Hq. destruct (H j bs p q Hj Hp Hq) as (H1 & H2 & H3 & H4 & H5). split_and!; try done.
  eapply user_bytes_ext; [exact H5|]. intros v Hv. apply He. rewrite length_app in Hv. simpl in Hv. lia.
Qed.

Lemma placed_cons pa m low sp bs args p ptrs : p mod 16 = 0 -> low <= p -> p + Z.of_nat (length bs) + 1 <= sp ->
  user_bytes pa m p (bs ++ [0]) -> placed pa m low p args ptrs -> placed pa m low sp (bs :: args) (p :: ptrs).
Proof.
  intros H1 H2 H3 H4 Hp [|j] bs' p' q Hj Hptr Hq; simplify_eq/=; [done|].
  destruct (Hp j bs' p' q Hj Hptr) as (A1 & A2 & A3 & A4 & A5); [done|]. split_and!; try done. lia.
Qed.

Lemma copied_user_bytes i pa va bs x x' lo hi t : window i t lo hi pa x -> lo <= va -> va + Z.of_nat (length bs) <= hi ->
  Forall (fun c => 0 <= c < 256) bs -> copied i va pa bs x x' -> user_bytes pa (mem x') va bs.
Proof.
  intros Hw Hlo Hhi Hb Hc k b Hk. rewrite (co_mem _ _ _ _ _ _ Hc). apply lookup_lt_Some in Hk as Hlt.
  rewrite put_user_in; [|done|intros v v' Hv Hv'; apply (wn_inj _ _ _ _ _ _ Hw); lia].
  rewrite (list_lookup_total_correct _ _ _ Hk). apply u8_small. exact (Forall_lookup_1 _ _ _ _ Hb Hk).
Qed.

Lemma ld8_byte m a : 0 <= ld8 m a < 256.
Proof. apply u8_range. Qed.

Lemma read_bytes_bytes m a n : Forall (fun c => 0 <= c < 256) (read_bytes m a n).
Proof. apply Forall_fmap, Forall_forall. intros k _. apply ld8_byte. Qed.

(** What the copies of the strings change: the stack page below [sp]. *)
Record args_frame (i : Z) (pa : Z -> Z) (sp : Z) x x' : Prop := {
  af_len : length (ps_procs (ps_of x')) = length (ps_procs (ps_of x));
  af_above v : sp <= v < USER_STACK_TOP -> ld8 (mem x') (pa v) = ld8 (mem x) (pa v);
  af_out a : (forall v, stackbase <= v < USER_STACK_TOP -> pa v <> a) -> ld8 (mem x') a = ld8 (mem x) a;
}.

Lemma copied_frame i t pa va bs sp x x' : window i t stackbase USER_STACK_TOP pa x -> stackbase <= va -> va + Z.of_nat (length bs) <= sp -> sp <= USER_STACK_TOP ->
  copied i va pa bs x x' -> args_frame i pa sp x x'.
Proof.
  intros Hw Hlo Hhi Hsp [C1 C2 C3 C4]. split; [done| |].
  - intros v Hv. rewrite C1. apply put_user_out. intros v' Hv' E. apply (wn_inj _ _ _ _ _ _ Hw) in E; lia.
  - intros a Ha. rewrite C1. apply put_user_out. intros v Hv. apply Ha. lia.
Qed.

Lemma args_frame_trans i pa sp sp' x x1 x2 : sp' <= sp -> args_frame i pa sp x x1 -> args_frame i pa sp' x1 x2 -> args_frame i pa sp x x2.
Proof.
  intros Hle [A1 A2 A3] [B1 B2 B3]. split; [by rewrite B1| |].
  - intros v Hv. rewrite B2 by lia. by apply A2.
  - intros a Ha. rewrite B3 by done. by apply A3.
Qed.

Lemma arg_ok_frame i pa sp a bs x x' : args_frame i pa sp x x' -> arg_ok pa (mem x) a bs -> arg_ok pa (mem x') a bs.
Proof.
  intros Hf (H1 & H2 & H3 & H4). split_and!; try done. eapply cstring_ext; [exact H2|]. intros k Hk. apply (af_out _ _ _ _ _ Hf).
  intros v Hv. by apply H4.
Qed.

Lemma push_args_wp me t pa rest addrs args : length addrs = length args -> 0 <= me < NPROC -> forall sp ustack x,
  length (ps_procs (ps_of x)) = Z.to_nat NPROC -> window me t stackbase USER_STACK_TOP pa x -> stackbase <= sp <= USER_STACK_TOP ->
  Z.of_nat (length ustack) <= MAXARG -> Forall2 (arg_ok pa (mem x)) addrs args ->
  wp (push_args me (addrs ++ 0 :: rest) sp ustack) (fun r x' =>
    if decide (Z.of_nat (length ustack + length args) <= MAXARG /\ Forall (fun p => stackbase <= p) (arg_ptrs sp args)) then
      r = Some (args_end sp args, ustack ++ arg_ptrs sp args) /\ window me t stackbase USER_STACK_TOP pa x' /\
      args_frame me pa sp x x' /\ placed pa (mem x') (args_end sp args) sp args (arg_ptrs sp args)
    else r = None) x.
Proof.
  revert args. induction addrs as [|a addrs IH]; intros [|bs args] Hlen0 Hme sp ustack x Hlen Hw Hsp Hu Hok; try done; cbn [push_args app].
  { change (0 =? 0) with true. cbv iota. wp_step. rewrite decide_True by (split; [cbn [length]; lia|constructor]). rewrite app_nil_r. by split_and!. }
  inversion_clear Hok as [|? ? ? ? Hk Hok']. pose proof Hk as (K1 & K2 & K3 & K4). destruct (Z.eqb_spec a 0) as [|_]; [done|].
  destruct (Z.leb_spec MAXARG (Z.of_nat (length ustack))) as [Hfull|Hroom].
  { wp_step. rewrite decide_False; [done|]. intros [Hc _]. cbn [length] in Hc. lia. }
  wp_step. apply wp_sys_k. wp_step. rewrite k_same, (strlen_correct _ _ _ K2). simpl arg_ptrs. simpl args_end.
  set (p := arg_slot sp (Z.of_nat (length bs))). destruct (arg_slot_spec sp (Z.of_nat (length bs)) Hsp ltac:(lia)) as (A1 & A2 & A3 & A4). fold p in A1, A2, A3, A4.
  destruct (Z.ltb_spec p stackbase) as [Hlow|Hge].
  { wp_step. rewrite decide_False; [done|]. intros [_ Hf]. inversion_clear Hf. lia. }
  wp_step. eapply wp_mono; [apply (copyout_wp me t stackbase USER_STACK_TOP pa p a (Z.of_nat (length bs) + 1)); [done|done|done|lia|lia|lia|intros; apply K4; lia]|].
  intros r x1 [-> Hc]. replace (Z.to_nat (Z.of_nat (length bs) + 1)) with (S (length bs)) in Hc by lia.
  rewrite (read_bytes_cstring _ _ _ K2) in Hc. change (0 <? 0) with false. cbv iota.
  assert (Hl1 : p + Z.of_nat (length (bs ++ [0])) <= sp) by (rewrite length_app; simpl; lia).
  assert (Hl2 : p + Z.of_nat (length (bs ++ [0])) <= USER_STACK_TOP) by lia.
  assert (Hb : Forall (fun c => 0 <= c < 256) (bs ++ [0])) by (rewrite <- (read_bytes_cstring _ _ _ K2); apply read_bytes_bytes).
  pose proof (copied_window _ _ _ _ _ _ _ _ _ Hme Hw Hge Hl2 Hc) as Hw1.
  pose proof (copied_frame _ _ _ _ _ sp _ _ Hw Hge Hl1 (proj2 Hsp) Hc) as Hf1.
  pose proof (copied_user_bytes _ _ _ _ _ _ _ _ _ Hw Hge Hl2 Hb Hc) as Hub.
  eapply wp_mono; [apply (IH args); [by injection Hlen0|done|by rewrite (af_len _ _ _ _ _ Hf1)|exact Hw1|lia|rewrite length_app; simpl; lia|]|].
  { eapply Forall2_impl; [exact Hok'|]. intros a' bs' Ha'. by eapply arg_ok_frame. }
  intros r x2. rewrite length_app. cbn [length]. replace (length ustack + 1 + length args)%nat with (length ustack + S (length args))%nat by lia.
  destruct (decide (_ /\ Forall _ (arg_ptrs p args))) as [[D1 D2]|Hn]; [rewrite decide_True by (split; [done|by constructor])|].
  - intros (-> & Hw2 & Hf2 & Hpl). rewrite <- app_assoc. split; [done|]. split; [done|]. split; [by eapply args_frame_trans; [|exact Hf1|exact Hf2]; lia|].
    assert (Hend : stackbase <= args_end p args <= p).
    { apply args_end_range; [lia| |done]. clear -Hok'. induction Hok' as [|? ? ? ? (? & ? & ? & ?)]; by constructor. }
    apply placed_cons; [done|lia|lia| |done]. eapply user_bytes_ext; [exact Hub|]. intros v Hv. apply (af_above _ _ _ _ _ Hf2). lia.
  - intros ->. rewrite decide_False; [done|]. intros [D1 D2]. apply Hn. split; [done|]. by inversion_clear D2.
Qed.

(** C12: the arguments of [main].  Given NUL-terminated argument strings in
    the kernel and the top stack page of the new program mapped, [exec] either
    fails, exactly when there are too many arguments or they do not fit into
    the page, or ends with a 16-byte aligned stack pointer, which is [argv],
    and [argc] the number of arguments: the user's memory holds there the
    array of the pointers closed by NULL, and at each pointer, 16-byte
    aligned, the bytes of its string and a NUL; the strings lie above the
    array without overlap, and no byte outside the stack page changes. *)
Theorem exec_pushes_arguments me t pa addrs args rest x :
  0 <= me < NPROC -> length (ps_procs (ps_of x)) = Z.to_nat NPROC -> window me t stackbase USER_STACK_TOP pa x ->
  Forall2 (arg_ok pa (mem x)) addrs args ->
  let argc := Z.of_nat (length args) in let ptrs := arg_ptrs USER_STACK_TOP args in
  let low := args_end USER_STACK_TOP args in let sp := argv_slot low argc in
  exists r x', push_argv me (addrs ++ 0 :: rest) x = Ok r x' /\
    if decide (args_fit USER_STACK_TOP args /\ stackbase <= sp) then
      r = Some (sp, argc) /\ sp mod 16 = 0 /\ sp + 8 * (argc + 1) <= low /\
      user_bytes pa (mem x') sp (concat (bytes8 <$> ptrs ++ [0])) /\
      placed pa (mem x') low USER_STACK_TOP args ptrs /\
      forall a, (forall v, stackbase <= v < USER_STACK_TOP -> pa v <> a) -> ld8 (mem x') a = ld8 (mem x) a
    else r = None.
Proof.
  intros Hme Hlen Hw Hok argc ptrs low sp. apply wp_Ok. unfold push_argv. wp_step. pose proof stack_numbers as (N1 & N2 & N3 & N4).
  eapply wp_mono; [apply (push_args_wp me t pa rest addrs args); [by eapply Forall2_length|done|done|done|lia|done|done]|].
  intros r x1 Hr. cbn [length app] in Hr. rewrite Nat.add_0_l in Hr. fold argc ptrs in Hr. fold (args_fit USER_STACK_TOP args) in Hr.
  destruct (decide (args_fit USER_STACK_TOP args)) as [Hfit|Hn]; [rewrite decide_True in Hr by exact Hfit|rewrite decide_False in Hr by exact Hn].
  2: { subst r. wp_step. rewrite decide_False; [done|]. by intros [? _]. }
  destruct Hr as (-> & Hw1 & Hf1 & Hpl). pose proof Hfit as [F1 F2]. fold low in Hpl.
  assert (Hlp : length ptrs = length args) by apply length_arg_ptrs. rewrite Hlp. fold argc low sp.
  assert (Hlow : stackbase <= low <= USER_STACK_TOP).
  { apply args_end_range; [lia| |done]. clear -Hok. induction Hok as [|? ? ? ? (? & ? & ? & ?)]; by constructor. }
  destruct (argv_slot_spec low argc Hlow ltac:(lia)) as (A1 & A2 & A3). fold sp in A1, A2, A3.
  destruct (Z.ltb_spec sp stackbase) as [Hbad|Hgood]; [wp_step; rewrite decide_False; [done|lia]|].
  destruct (pointer_bytes (ptrs ++ [0])) as [P1 P2]. rewrite length_app, Hlp in P1. simpl length in P1.
  assert (Hne : concat (bytes8 <$> ptrs ++ [0]) <> []) by (intros E; rewrite E in P1; simpl in P1; lia).
  assert (Hend : sp + Z.of_nat (length (concat (bytes8 <$> ptrs ++ [0]))) <= low) by (rewrite P1; lia).
  wp_step. eapply wp_mono; [apply (copyout_l_wp me t stackbase USER_STACK_TOP pa sp); [done|by rewrite (af_len _ _ _ _ _ Hf1)|done|done|lia|done]|].
  intros r x2 [-> Hc]. change (0 <? 0) with false. cbv iota. wp_step. rewrite decide_True by done.
  pose proof (copied_frame _ _ _ _ _ low _ _ Hw1 Hgood Hend (proj2 Hlow) Hc) as Hf2.
  split; [done|]. split; [done|]. split; [lia|]. split; [|split].
  - eapply copied_user_bytes; [exact Hw1|exact Hgood|lia|exact P2|exact Hc].
  - eapply placed_ext; [exact Hpl|]. intros v Hv. apply (af_above _ _ _ _ _ Hf2). lia.
  - intros a Ha. rewrite (af_out _ _ _ _ _ Hf2) by done. by apply (af_out _ _ _ _ _ Hf1).
Qed.
End args.
