(* ===== verification/Trap.v ===== *)
(** * Traps and interrupts (src/kernel/trap/, src/kernel/driver/plic.c)

    Entry from user space and from the kernel, the timer, the registry of
    interrupt handlers and the interrupt controller, in the K210 build.  The
    supervisor registers and the registers of the controller are fields of the
    state; [sstatus.SIE] is in the state of the locks.  What the hardware
    answers to a claim is the list [pl_claims].

    A trap ends with a return to the interrupted code, or inside the kernel:
    a process that yields or sleeps goes on with a resume function. *)

From S2P Require Import Prelude Riscv Memory Spinlock Kalloc Kmalloc Vm Proctab Signal Sched Pipe Ringbuffer Printf Uart Bio Fat32 File Console Mmap Vmfault Proc Kernel Exec Syscall.
Import Hart.

Definition MAXIRQ : Z := 64.
Definition INTERVAL : Z := 78000.
Definition CAUSE_TIMER : Z := 0x8000000000000005.
Definition CAUSE_SOFTWARE : Z := 0x8000000000000001.
Definition SIP_SSIP : Z := 2.
Definition SIE_SEIE : Z := 512.
Definition SIE_STIE : Z := 32.
Definition SIE_SSIE : Z := 2.

(** The registers of the hart that the code uses; [r_timer] is the deadline of
    the last [sbi_set_timer]. *)
Record regs := Regs {
  r_scause : Z;
  r_sepc : Z;
  r_stval : Z;
  r_stvec : Z;
  r_satp : Z;
  r_spp : bool;
  r_spie : bool;
  r_sip : Z;
  r_sie : Z;
  r_time : Z;
  r_timer : Z;
}.
Definition set_sepc (v : Z) (r : regs) : regs :=
  Regs (r_scause r) v (r_stval r) (r_stvec r) (r_satp r) (r_spp r) (r_spie r) (r_sip r) (r_sie r) (r_time r) (r_timer r).
Definition set_stvec (v : Z) (r : regs) : regs :=
  Regs (r_scause r) (r_sepc r) (r_stval r) v (r_satp r) (r_spp r) (r_spie r) (r_sip r) (r_sie r) (r_time r) (r_timer r).
Definition set_previous (spp spie : bool) (r : regs) : regs :=
  Regs (r_scause r) (r_sepc r) (r_stval r) (r_stvec r) (r_satp r) spp spie (r_sip r) (r_sie r) (r_time r) (r_timer r).
Definition set_sip (v : Z) (r : regs) : regs :=
  Regs (r_scause r) (r_sepc r) (r_stval r) (r_stvec r) (r_satp r) (r_spp r) (r_spie r) v (r_sie r) (r_time r) (r_timer r).
Definition set_sie (v : Z) (r : regs) : regs :=
  Regs (r_scause r) (r_sepc r) (r_stval r) (r_stvec r) (r_satp r) (r_spp r) (r_spie r) (r_sip r) v (r_time r) (r_timer r).
Definition set_timer (v : Z) (r : regs) : regs :=
  Regs (r_scause r) (r_sepc r) (r_stval r) (r_stvec r) (r_satp r) (r_spp r) (r_spie r) (r_sip r) (r_sie r) (r_time r) v.

(** The controller: a priority per source, two enable words and a threshold
    per hart, the answers to claims and the completed interrupts. *)
Record plic := Plic {
  pl_priority : list Z;
  pl_enable : list (list Z);
  pl_threshold : list Z;
  pl_claims : list Z;
  pl_completed : list Z;
}.

(** [struct irq_action]: a handler and its argument, [None] for a NULL
    handler. *)
Definition irq_action : Type := option (Z * Z).

Record tst (D : Type) := Tst {
  t_sys : sys D;
  t_regs : regs;
  t_plic : plic;
  t_actions : list irq_action;
}.
Arguments Tst {D}. Arguments t_sys {D}. Arguments t_regs {D}. Arguments t_plic {D}. Arguments t_actions {D}.
#[export] Instance tst_sys D : Lens (tst D) (sys D) :=
  {| lget := t_sys; lput x s := Tst x (t_regs s) (t_plic s) (t_actions s) |}.
#[export] Instance tst_sys_laws D : LensLaws (tst D) (sys D).
Proof. split; [done|by intros []|done]. Qed.

(** Addresses of the trap code and of the recovery label of a copy routine;
    [handler_code] is the function at a handler's address. *)
Class TrapVectors (D : Type) := {
  kernelvec_pc : Z;
  uservec_off : Z;      (** uservec - trampoline *)
  userret_off : Z;      (** userret - trampoline *)
  usertrap_pc : Z;
  recovery_pc : Z;
  handler_code : Z -> Z -> M (sys D) unit;
}.

(** How a trap from user space ends. *)
Inductive trapres :=
| TUser (trapframe satp pc : Z)       (** the jump to [userret] *)
| TSys (r : sysres)                   (** asleep in a system call *)
| TYield (saved : bool)               (** in [yield] *)
| TExit (saved : bool).
(** How a trap from the kernel ends. *)
Inductive ktrapres := KReturn | KYield (i : Z) (saved : bool) (sepc : Z) (spp spie : bool).

Section code.
Context {D : Type} `{!EitherCopy cstate} `{!Disk D} `{!PipeOps cstate} `{!DeviceOps cstate D} `{!DeviceMmap D}.
Context {L : Linker} {PS : ProcSymbols} {EF : ExecFrame} {UE : UartEnv} {TS : TrapSymbols} {SJ : StackJunk} {TV : TrapVectors D}.
Abbreviation TM := (M (tst D)).

Definition s_ {A} (m : M (sys D) A) : TM A := zoom m.
Definition getr {A} (f : regs -> A) : TM A := gets (fun s => f (t_regs s)).
Definition setr (f : regs -> regs) : TM unit :=
  modify (fun s => Tst (t_sys s) (f (t_regs s)) (t_plic s) (t_actions s)).
Definition setpl (f : plic -> plic) : TM unit :=
  modify (fun s => Tst (t_sys s) (t_regs s) (f (t_plic s)) (t_actions s)).
Definition sbi_set_timer (v : Z) : TM unit := setr (set_timer (u64 v)).
Definition cpu_id : TM Z := s_ (k_ (gets k_cpu)).

(** ** The interrupt controller (plic.c) *)

Definition plicinithart : TM unit :=
  hart <- cpu_id ;;
  setpl (fun p => Plic (pl_priority p) (<[Z.to_nat hart := [0; 0]]> (pl_enable p)) (<[Z.to_nat hart := 0]> (pl_threshold p))
    (pl_claims p) (pl_completed p)).
Definition plic_claim : TM Z :=
  p <- gets t_plic ;;
  match pl_claims p with
  | [] => ret 0
  | irq :: l => setpl (fun p => Plic (pl_priority p) (pl_enable p) (pl_threshold p) l (pl_completed p)) ;; ret (s32 irq)
  end.
Definition plic_complete (irq : Z) : TM unit :=
  setpl (fun p => Plic (pl_priority p) (pl_enable p) (pl_threshold p) (pl_claims p) (pl_completed p ++ [irq])).

(** ** The registry of handlers (irq.c) *)

Definition enable_word (irq : Z) (men : list Z) : list Z :=
  let k := Z.to_nat (irq / 32) in <[k := Z.lor (men !!! k) (u32 (Z.shiftl 1 (irq mod 32)))]> men.
(** The loop over the harts. *)
Definition irq_enable_hart (irq : Z) : TM unit :=
  setpl (fun p => Plic (pl_priority p) (enable_word irq <$> pl_enable p) (pl_threshold p) (pl_claims p) (pl_completed p)).
Definition irq_set_priority (irq priority : Z) : TM unit :=
  if (irq <? 0) || (MAXIRQ <=? irq) || (priority <? 0) then panic "irq_set_priority: bad argument"
  else setpl (fun p => Plic (<[Z.to_nat irq := priority]> (pl_priority p)) (pl_enable p) (pl_threshold p) (pl_claims p) (pl_completed p)).
Definition irq_register (irq handler data : Z) : TM unit :=
  if (irq <? 0) || (MAXIRQ <=? irq) then panic "irq_register: bad irq"
  else
    modify (fun s => Tst (t_sys s) (t_regs s) (t_plic s)
      (<[Z.to_nat irq := if handler =? 0 then None else Some (handler, data)]> (t_actions s))) ;;
    irq_set_priority irq 1 ;;
    irq_enable_hart irq.
Definition irq_dispatch (irq : Z) : TM unit :=
  a <- gets (fun s => if (0 <? irq) && (irq <? MAXIRQ) then t_actions s !!! Z.to_nat irq else None) ;;
  match a with
  | Some (handler, data) => s_ (handler_code handler data)
  | None => when (negb (irq =? 0)) (s_ (cs_ (printf (text "unexpected interrupt irq=%d" ++ [10]) [Num irq])))
  end.

(** ** Interrupts (trap.c) *)

Definition trapinit : TM unit := s_ (mlk_ (initlock L_ticks)).

Definition trapinithart : TM unit :=
  setr (set_stvec kernelvec_pc) ;;
  s_ (mlk_ (modify intr_on)) ;;
  setr (fun r => set_sie (Z.lor (Z.lor (Z.lor (r_sie r) SIE_SEIE) SIE_SSIE) SIE_STIE) r) ;;
  t <- getr r_time ;;
  sbi_set_timer (t + INTERVAL).

Definition clockintr : TM unit :=
  s_ (mlk_ (acquire L_ticks)) ;;
  s_ (p_ (modify (fun s => set_ps_ticks (u32 (ps_ticks s + 1)) s))) ;;
  s_ (p_ (wakeup_reason (AddrChan ticks_at) WAKEUP_TIMER)) ;;
  s_ (mlk_ (release L_ticks)) ;;
  t <- getr r_time ;;
  sbi_set_timer (t + INTERVAL).

(** [sbi_set_mie] re-enables external interrupts in machine mode. *)
Definition devintr : TM Z :=
  scause <- getr r_scause ;;
  stval <- getr r_stval ;;
  if (scause =? CAUSE_SOFTWARE) && (stval =? 9) then
    irq <- plic_claim ;;
    irq_dispatch irq ;;
    when (negb (irq =? 0)) (plic_complete irq) ;;
    setr (fun r => set_sip (Z.land (r_sip r) (Z.lnot SIP_SSIP)) r) ;;
    ret 1
  else if scause =? CAUSE_TIMER then clockintr ;; ret 2
  else ret 0.

(** ** The way back to user space *)

Definition usertrapret (me : Z) : TM trapres :=
  s_ (mlk_ (modify intr_off)) ;;
  setr (set_stvec (TRAMPOLINE + uservec_off)) ;;
  satp <- getr r_satp ;;
  hart <- cpu_id ;;
  s_ (p_ (setp me (fun p => set_p_tf (<[TF_kernel_hartid := hart]> (<[TF_kernel_trap := usertrap_pc]>
        (<[TF_kernel_sp := p_kstack p + PGSIZE]> (<[TF_kernel_satp := satp]> (p_tf p))))) p))) ;;
  setr (set_previous false true) ;;
  p <- s_ (p_ (getp me)) ;;
  setr (set_sepc (p_tf p !!! TF_epc)) ;;
  ret (TUser TRAPFRAME (MAKE_SATP (p_pagetable p)) (TRAMPOLINE + userret_off)).

Definition exit_now (me : Z) : TM trapres :=
  status <- s_ (p_ (signal_exit_status me)) ;;
  saved <- s_ (exit_enter me status) ;;
  ret (TExit saved).

(** [usertrap] behind the yield. *)
Definition usertrap_tail (me : Z) : TM trapres :=
  s_ (p_ (signal_deliver me)) ;;
  p <- s_ (p_ (getp me)) ;;
  if p_killed p then exit_now me else usertrapret me.

Definition wants_yield (which_dev : Z) (p : proc) (c : cpu) : bool :=
  is_state RUNNING p && ((which_dev =? 2) || c_need_resched c).
Definition mycpu : TM cpu := s_ (p_ (gets (fun s => ps_cpus s !!! Z.to_nat (k_cpu (ps_k s))))).

(** [usertrap] behind the dispatch. *)
Definition usertrap_after (me which_dev : Z) : TM trapres :=
  s_ (cs_ console_dispatch_events) ;;
  p <- s_ (p_ (getp me)) ;;
  c <- mycpu ;;
  if wants_yield which_dev p c then saved <- s_ (p_ (yield_enter me)) ;; ret (TYield saved)
  else usertrap_tail me.

Definition set_killed (me : Z) : TM unit := s_ (p_ (setp me (set_p_killed true))).

Definition usertrap_fault (me scause : Z) : TM unit :=
  p <- s_ (p_ (getp me)) ;;
  stval <- getr r_stval ;;
  sepc <- getr r_sepc ;;
  match trap_fault_access scause with
  | Some access =>
      r <- s_ (vm_resolve_fault (Some me) (p_pagetable p) stval access) ;;
      when (r <? 0)
        (s_ (cs_ (printf (text "usertrap(): page fault is illegal pid=%d sepc=%p stval=%p" ++ [10]) [Num (p_pid p); Num sepc; Num stval])) ;;
         set_killed me)
  | None =>
      s_ (cs_ (printf (text "usertrap(): unexpected scause %p pid=%d" ++ [10]) [Num scause; Num (p_pid p)])) ;;
      s_ (cs_ (printf (text "            sepc=%p stval=%p" ++ [10]) [Num sepc; Num stval])) ;;
      set_killed me
  end.

Definition usertrap (me : Z) : TM trapres :=
  scause <- getr r_scause ;;
  spp <- getr r_spp ;;
  if spp then panic "usertrap: not from user mode"
  else
    setr (set_stvec kernelvec_pc) ;;
    sepc <- getr r_sepc ;;
    s_ (p_ (setp me (fun p => set_p_tf (<[TF_epc := sepc]> (p_tf p)) p))) ;;
    if scause =? 8 then
      p <- s_ (p_ (getp me)) ;;
      if p_killed p then exit_now me
      else
        s_ (p_ (setp me (fun p => set_p_tf (<[TF_epc := u64 (p_tf p !!! TF_epc + 4)]> (p_tf p)) p))) ;;
        s_ (mlk_ (modify intr_on)) ;;
        r <- s_ (syscall me) ;;
        match r with
        | SRet _ => usertrap_after me 0
        | _ => ret (TSys r)
        end
    else
      which_dev <- devintr ;;
      when (which_dev =? 0) (usertrap_fault me scause) ;;
      usertrap_after me which_dev.

(** The return from [sched] inside a trap. *)
Definition usertrap_resume (me : Z) (t : trapres) : TM trapres :=
  match t with
  | TSys r =>
      r <- s_ (syscall_resume me r) ;;
      match r with
      | SRet _ => usertrap_after me 0
      | _ => ret (TSys r)
      end
  | TYield saved => s_ (p_ (yield_resume me saved)) ;; usertrap_tail me
  | _ => ret t
  end.

(** ** Traps from the kernel *)

(** A fault of a copy routine: the address to return to, [None] when it is
    not one. *)
Definition kernel_fault (me : option Z) (scause sepc stval : Z) : TM (option Z) :=
  match trap_fault_access scause, me with
  | Some access, Some i =>
      p <- s_ (p_ (getp i)) ;;
      if negb (access =? VM_FAULT_EXEC) && p_copy_fault_active p then
        r <- s_ (vm_resolve_fault (Some i) (p_pagetable p) stval access) ;;
        ret (Some (if r =? VM_FAULT_RESOLVED then sepc else recovery_pc))
      else ret None
  | _, _ => ret None
  end.

Definition restore (sepc : Z) (spp spie : bool) : TM unit := setr (fun r => set_previous spp spie (set_sepc sepc r)).

Definition kerneltrap : TM ktrapres :=
  sepc <- getr r_sepc ;;
  spp <- getr r_spp ;;
  spie <- getr r_spie ;;
  scause <- getr r_scause ;;
  stval <- getr r_stval ;;
  me <- s_ (p_ myproc) ;;
  if negb spp then panic "kerneltrap: not from supervisor mode"
  else
    on <- s_ (mlk_ (gets intr_get)) ;;
    if (on : bool) then panic "kerneltrap: interrupts enabled"
    else
      f <- kernel_fault me scause sepc stval ;;
      x <- match f with
           | Some sepc => ret (0, sepc)
           | None =>
               which_dev <- devintr ;;
               if which_dev =? 0 then
                 s_ (cs_ (printf (text "scause %p" ++ [10]) [Num scause])) ;;
                 s_ (cs_ (printf (text "sepc=%p stval=%p" ++ [10]) [Num sepc; Num stval])) ;;
                 panic "kerneltrap"
               else ret (which_dev, sepc)
           end ;;
      let '(which_dev, sepc) := x in
      me <- s_ (p_ myproc) ;;
      match me with
      | None => s_ (cs_ console_dispatch_events) ;; restore sepc spp spie ;; ret KReturn
      | Some i =>
          p <- s_ (p_ (getp i)) ;;
          c <- mycpu ;;
          if wants_yield which_dev p c then
            saved <- s_ (p_ (yield_enter i)) ;; ret (KYield i saved sepc spp spie)
          else restore sepc spp spie ;; ret KReturn
      end.

(** The return from [sched] in [kerneltrap]. *)
Definition kerneltrap_resume (i : Z) (saved : bool) (sepc : Z) (spp spie : bool) : TM ktrapres :=
  s_ (p_ (yield_resume i saved)) ;; restore sepc spp spie ;; ret KReturn.
End code.
