(* ===== verification/TrapProps.v ===== *)
(** * Properties of traps and interrupts

    What a registered handler gets, what a timer interrupt does, and in which
    state of the hart a process goes back to user space. *)

From S2P Require Import Prelude Riscv Memory Spinlock Kalloc Kmalloc Vm VmTree VmUnmap VmFree VmSpace Proctab Signal Sched SchedProps Pipe Ringbuffer Printf Uart Bio Fat32 File Console Mmap Vmfault Proc ProcProps Kernel Exec Syscall SysWp Trap.
Import Hart.

Section traps.
Context {D : Type} `{!EitherCopy cstate} `{!Disk D} `{!PipeOps cstate} `{!DeviceOps cstate D} `{!DeviceMmap D}.
Context {L : Linker} {PS : ProcSymbols} {EF : ExecFrame} {UE : UartEnv} {TS : TrapSymbols} {SJ : StackJunk} {TV : TrapVectors D}.
Implicit Types s : tst D.

Definition with_sys (x : sys D) s : tst D := Tst x (t_regs s) (t_plic s) (t_actions s).

Lemma wp_s {A} (m : M (sys D) A) (Q : A -> tst D -> Prop) s : wp m (fun a x => Q a (with_sys x s)) (t_sys s) -> wp (s_ m) Q s.
Proof. intros H. apply wp_zoom. exact H. Qed.

(** ** The registry of interrupt handlers *)

(** The enable word bit of an interrupt. *)
Definition enabled (men : list Z) (irq : Z) : bool := Z.testbit (men !!! Z.to_nat (irq / 32)) (irq mod 32).

Lemma enable_word_spec irq j men : 0 <= irq < MAXIRQ -> 0 <= j < MAXIRQ -> length men = 2%nat ->
  enabled (enable_word irq men) j = (j =? irq) || enabled men j.
Proof.
  intros Hi Hj Hl. unfold enabled, enable_word, MAXIRQ in *.
  assert (Hb : u32 (Z.shiftl 1 (irq mod 32)) = 2 ^ (irq mod 32)).
  { rewrite Z.shiftl_1_l. apply u32_small. pose proof (Z.mod_pos_bound irq 32). split; [apply Z.pow_nonneg; lia|apply Z.pow_lt_mono_r; lia]. }
  rewrite Hb. destruct (decide (irq / 32 = j / 32)) as [E|E].
  - rewrite E, list_lookup_total_insert_eq by (rewrite Hl; apply Nat2Z.inj_lt; rewrite Z2Nat.id by (apply Z.div_pos; lia); apply Z.div_lt_upper_bound; lia).
    rewrite Z.lor_spec, Z.pow2_bits_eqb by (apply Z.mod_pos_bound; lia). rewrite orb_comm. f_equal.
    apply eq_true_iff_eq. rewrite !Z.eqb_eq. pose proof (Z.div_mod irq 32). pose proof (Z.div_mod j 32). lia.
  - rewrite list_lookup_total_insert_ne by (intros Hn; apply Z2Nat.inj in Hn; [done|apply Z.div_pos; lia|apply Z.div_pos; lia]).
    destruct (Z.eqb_spec j irq) as [->|]; done.
Qed.

(** Registering an interrupt handler.  For every interrupt number of the
    controller and every handler, [irq_register] returns; from then on [irq_dispatch] of that
    number runs the handler on its argument, the source has priority 1 and is
    enabled on every hart, and for every other number the handler, the
    priority and the enable bits are what they were.  Nothing else of the
    state changes. *)
Theorem irq_register_dispatches irq handler data s :
  0 < irq < MAXIRQ -> handler <> 0 -> length (t_actions s) = Z.to_nat MAXIRQ -> length (pl_priority (t_plic s)) = Z.to_nat MAXIRQ ->
  Forall (fun men => length men = 2%nat) (pl_enable (t_plic s)) ->
  exists s', irq_register irq handler data s = Ok tt s' /\
    (forall x, irq_dispatch irq (with_sys x s') = s_ (handler_code handler data) (with_sys x s')) /\
    pl_priority (t_plic s') !!! Z.to_nat irq = 1 /\
    (forall hart men, pl_enable (t_plic s) !! hart = Some men -> exists men', pl_enable (t_plic s') !! hart = Some men' /\
       forall j, 0 <= j < MAXIRQ -> enabled men' j = (j =? irq) || enabled men j) /\
    (forall j, 0 <= j -> j <> irq -> t_actions s' !!! Z.to_nat j = t_actions s !!! Z.to_nat j /\
       pl_priority (t_plic s') !!! Z.to_nat j = pl_priority (t_plic s) !!! Z.to_nat j) /\
    t_sys s' = t_sys s /\ t_regs s' = t_regs s /\ pl_claims (t_plic s') = pl_claims (t_plic s).
Proof.
  intros Hi Hh Ha Hp He. pose proof Hi as [Hi1 Hi2]. unfold irq_register, irq_set_priority, irq_enable_hart, setpl.
  assert (B1 : (irq <? 0) = false) by (apply Z.ltb_ge; lia). assert (B2 : (MAXIRQ <=? irq) = false) by (apply Z.leb_gt; lia).
  rewrite B1, B2, (proj2 (Z.eqb_neq handler 0) Hh). simpl orb. cbv iota. change (1 <? 0) with false. cbv iota.
  eexists. split; [reflexivity|]. cbn [t_sys t_regs t_plic t_actions pl_priority pl_enable pl_claims]. split_and!; try done.
  - intros x. unfold irq_dispatch. unfold mbind_ at 1, gets. cbn [t_actions with_sys].
    rewrite (proj2 (Z.ltb_lt 0 irq)), (proj2 (Z.ltb_lt irq MAXIRQ)) by lia. simpl andb. cbv iota.
    by rewrite list_lookup_total_insert_eq by (unfold irq_action in *; lia).
  - by rewrite list_lookup_total_insert_eq by lia.
  - intros hart men Hm. exists (enable_word irq men). split; [by rewrite list_lookup_fmap, Hm|].
    intros j Hj. apply enable_word_spec; [lia|done|]. exact (Forall_lookup_1 _ _ _ _ He Hm).
  - intros j Hj Hne. split; apply list_lookup_total_insert_ne; lia.
Qed.
(** ** The way back to user space *)

Context {LOK : LinkerOk L} {PAS : PageAllocSpec}.

(** The words of the trapframe that [uservec] needs for the next trap. *)
Definition kernel_words (satp hart : Z) (p : proc) : trapframe :=
  <[TF_kernel_hartid := hart]> (<[TF_kernel_trap := usertrap_pc]> (<[TF_kernel_sp := p_kstack p + PGSIZE]> (<[TF_kernel_satp := satp]> (p_tf p)))).

Lemma usertrapret_wp me s : 0 <= me < NPROC -> length (ps_procs (ps_of (t_sys s))) = Z.to_nat NPROC ->
  let p := proc_at (ps_of (t_sys s)) me in
  wp (usertrapret me) (fun r s' => r = TUser TRAPFRAME (MAKE_SATP (p_pagetable p)) (TRAMPOLINE + userret_off) /\
    sie (lk_of (ps_of (t_sys s'))) = false /\
    proc_at (ps_of (t_sys s')) me = set_p_tf (kernel_words (r_satp (t_regs s)) (k_cpu (ps_k (ps_of (t_sys s)))) p) p /\
    t_regs s' = set_sepc (kernel_words (r_satp (t_regs s)) (k_cpu (ps_k (ps_of (t_sys s)))) p !!! TF_epc)
      (set_previous false true (set_stvec (TRAMPOLINE + uservec_off) (t_regs s)))) s.
Proof.
  intros Hme Hlen p. unfold usertrapret, getr, setr, cpu_id. wp_step. apply wp_s, wp_zoom, wp_zoom. wp_step. wp_step. wp_step. wp_step. wp_step.
  wp_step. apply wp_s, wp_sys_k. wp_step. wp_step. apply wp_s, wp_sys_p. wp_step. wp_step.
  wp_step. wp_step. wp_step. apply wp_s, wp_getp. wp_step. wp_step. wp_step.
  set (f := fun x : proc => set_p_tf _ x). set (s1 := t_sys (Tst _ _ _ _)).
  assert (Hat : proc_at (ps_of s1) me = f p) by exact (proc_at_upd me f (ps_of (t_sys s)) Hme Hlen).
  rewrite Hat. done.
Qed.

Lemma killed_effect valid p : p_killed p = true \/ Z.testbit (p_sig_pending p) SIGKILL = true ->
  p_killed (deliver_effect valid p) = true.
Proof.
  intros H. unfold deliver_effect. destruct H as [H|H].
  - unfold terminate_by, enter_handler, clear_pending. repeat case_match; done.
  - assert (Hd : Z.testbit (deliverable p) SIGKILL = true) by (rewrite deliverable_testbit by done; by rewrite H, orb_true_r).
    assert (Hc : signal_choose (deliverable p) = SIGKILL) by (unfold signal_choose; by rewrite has_bit, Hd by done).
    rewrite has_bit, Hd by done. simpl (negb true). by rewrite andb_false_r, Hc.
Qed.

(** C15: the return to user space.  At the end of a trap the pending signals
    are delivered first.  A process that is killed, or has [SIGKILL] pending
    whatever its mask, does not go back to user space: if the trap ends, it
    ends in [exit].  Any other process goes back with interrupts off in the
    kernel, traps directed to the trampoline, user mode and interrupts enabled
    as the state to return to, and the program counter of its trapframe; the
    trapframe has the kernel page table, stack, hart and trap address for the
    next trap and is otherwise the one that delivery left. *)
Theorem killed_never_returns_to_user me t s :
  let p := ps_of (t_sys s) in
  pgood p -> 0 <= me < NPROC -> pt_rep (ps_k p) t (p_pagetable (proc_at p me)) -> handlers_nonneg (proc_at p me) ->
  length (p_tf (proc_at p me)) = TF_WORDS ->
  exists q, signal_deliver me p = Ok tt q /\
    (p_killed (proc_at p me) = true \/ Z.testbit (p_sig_pending (proc_at p me)) SIGKILL = true -> p_killed (proc_at q me) = true) /\
    if p_killed (proc_at q me) then forall r s', usertrap_tail me s = Ok r s' -> exists saved, r = TExit saved
    else exists s', usertrap_tail me s = Ok (TUser TRAPFRAME (MAKE_SATP (p_pagetable (proc_at p me))) (TRAMPOLINE + userret_off)) s' /\
      sie (lk_of (ps_of (t_sys s'))) = false /\ r_stvec (t_regs s') = TRAMPOLINE + uservec_off /\
      r_spp (t_regs s') = false /\ r_spie (t_regs s') = true /\
      let tf := p_tf (proc_at (ps_of (t_sys s')) me) in
      r_sepc (t_regs s') = tf !!! TF_epc /\
      tf !!! TF_kernel_satp = r_satp (t_regs s) /\ tf !!! TF_kernel_sp = p_kstack (proc_at p me) + PGSIZE /\
      tf !!! TF_kernel_trap = usertrap_pc /\ tf !!! TF_kernel_hartid = k_cpu (ps_k p) /\
      forall k, (k = TF_epc \/ TF_kernel_hartid < k)%nat -> tf !!! k = p_tf (proc_at q me) !!! k.
Proof.
  intros p Hg Hme Hr Hh Htf. pose proof (pg_len _ Hg) as Hlen.
  destruct (wp_Ok _ _ _ (deliver_wp p t me Hg Hme Hr Hh)) as ([] & q & Eq & valid & _ & [Hlk Hq] & Hp). exists q. split; [done|].
  assert (Hat : proc_at q me = deliver_effect valid (proc_at p me)).
  { unfold proc_at at 1. rewrite Hp. fold (proc_at (upd_proc me (deliver_effect valid) p) me). by apply proc_at_upd. }
  split; [intros Hk; rewrite Hat; by apply killed_effect|].
  assert (Htail : usertrap_tail me s = (if p_killed (proc_at q me) then exit_now me else usertrapret me) (with_sys (with_ps q (t_sys s)) s)).
  { unfold usertrap_tail, mbind_ at 1, s_ at 1, zoom at 1. unfold p_ at 1, ms_ at 1, zoom at 1 2. cbn [lget tst_sys sys_ms]. change (lget (sys_ms_of (t_sys s))) with p. rewrite Eq. done. }
  rewrite Htail. destruct (p_killed (proc_at q me)).
  - intros r s'. unfold exit_now, mbind_, mret_. repeat case_match; try done. intros [= <- <-]. by eexists.
  - assert (Hlq : length (ps_procs q) = Z.to_nat NPROC) by (rewrite Hp, length_upd_proc; done).
    destruct (wp_Ok _ _ _ (usertrapret_wp me (with_sys (with_ps q (t_sys s)) s) Hme Hlq)) as (r & s' & E & -> & H1 & H2 & H3).
    change (ps_of (t_sys (with_sys (with_ps q (t_sys s)) s))) with q in H2, H3, E. cbn [with_sys t_regs] in H2, H3.
    assert (Hf : p_pagetable (proc_at q me) = p_pagetable (proc_at p me) /\ p_kstack (proc_at q me) = p_kstack (proc_at p me) /\ length (p_tf (proc_at q me)) = TF_WORDS).
    { rewrite Hat. unfold deliver_effect, terminate_by, enter_handler, clear_pending. repeat case_match; try done. simpl. by rewrite !length_insert. }
    destruct Hf as (F1 & F2 & F3). rewrite F1 in E.
    assert (Hcpu : k_cpu (ps_k q) = k_cpu (ps_k p)) by (by rewrite Hq).
    exists s'. split; [exact E|]. split; [exact H1|]. rewrite H3. do 3 (split; [done|]). rewrite H2, Hcpu in *. cbv zeta. simpl p_tf.
    split; [done|]. unfold kernel_words. unfold TF_kernel_satp, TF_kernel_sp, TF_kernel_trap, TF_kernel_hartid, TF_epc in *.
    assert (Hl : (5 <= length (p_tf (proc_at q me)))%nat) by (rewrite F3; unfold TF_WORDS; lia). rewrite F2.
    split_and!.
    + rewrite !list_lookup_total_insert_ne by lia. apply list_lookup_total_insert_eq. lia.
    + rewrite !list_lookup_total_insert_ne by lia. apply list_lookup_total_insert_eq. rewrite !length_insert. lia.
    + rewrite !list_lookup_total_insert_ne by lia. apply list_lookup_total_insert_eq. rewrite !length_insert. lia.
    + apply list_lookup_total_insert_eq. rewrite !length_insert. lia.
    + intros k Hk. by rewrite !list_lookup_total_insert_ne by lia.
Qed.
End traps.
