(* ===== verification/TimerProps.v ===== *)
(** * Ticks and sleeping

    A timer interrupt counts a tick and wakes the sleepers on the tick
    counter; [sleep(n)] returns when the unsigned distance to its first tick
    is at least [n]. *)

From S2P Require Import Prelude Riscv Memory Spinlock Kalloc Kmalloc Vm VmTree VmUnmap VmFree VmSpace Proctab Signal Sched SchedProps Pipe Ringbuffer Printf Uart Bio Fat32 File Console Mmap Vmfault Proc ProcProps Kernel Exec Syscall SysWp Trap TrapProps.
Import Hart.

Section timer.
Context {D : Type} `{!EitherCopy cstate} `{!Disk D} `{!PipeOps cstate} `{!DeviceOps cstate D} `{!DeviceMmap D}.
Context {L : Linker} {PS : ProcSymbols} {EF : ExecFrame} {UE : UartEnv} {TS : TrapSymbols} {SJ : StackJunk} {TV : TrapVectors D}.
Implicit Types s : tst D.

Lemma wp_sys_lk {A} (m : M lkst A) (Q : A -> sys D -> Prop) x :
  wp m (fun a l => Q a (with_ps (lput l (ps_of x)) x)) (lk_of (ps_of x)) -> wp (mlk_ m) Q x.
Proof. intros H. unfold mlk_, ms_. apply wp_zoom, wp_zoom. exact H. Qed.

Lemma pgood_taken lk l p : pgood p -> lk ∉ held (lk_of p) -> (forall i, lk <> L_proc i) -> taken lk (lk_of p) l -> pgood (lput l p).
Proof.
  intros [G1 G2 G3] Hn Hne Hl. pose proof Hl as (_ & _ & Hh & _). split; [by eapply lk_ok_taken| |done].
  intros i. change (L_proc i ∉ held l). rewrite Hh. intros [E|E]%elem_of_cons; [by eapply Hne|by eapply G2].
Qed.

(** The processes after a tick. *)
Definition tick_woken : proc -> proc := woken (AddrChan ticks_at) WAKEUP_TIMER.

Definition ticked (p q : pst) : Prop :=
  pgood q /\ lk_same (lk_of p) (lk_of q) /\ ps_ticks q = u32 (ps_ticks p + 1) /\
  ps_procs q = tick_woken <$> ps_procs p /\ (c_proc <$> ps_cpus q) = (c_proc <$> ps_cpus p).

Lemma clockintr_wp s : pgood (ps_of (t_sys s)) -> L_ticks ∉ held (lk_of (ps_of (t_sys s))) ->
  wp clockintr (fun _ s' => exists q, ticked (ps_of (t_sys s)) q /\
    s' = Tst (with_ps q (t_sys s)) (set_timer (u64 (r_time (t_regs s) + INTERVAL)) (t_regs s)) (t_plic s) (t_actions s)) s.
Proof.
  intros Hg Hn. unfold clockintr. wp_step. apply wp_s, wp_sys_lk. eapply wp_mono; [by apply acquire_wp|]. intros [] l Hl.
  wp_step. apply wp_s, wp_sys_p. wp_step. wp_step. apply wp_s, wp_sys_p.
  set (p := ps_of (t_sys s)) in *. set (p1 := set_ps_ticks (u32 (ps_ticks p + 1)) (lput l p)).
  assert (Hg1 : pgood p1). { destruct (pgood_taken L_ticks l p Hg Hn ltac:(done) Hl) as [A1 A2 A3]. split; done. }
  eapply wp_mono; [exact (wakeup_wp (AddrChan ticks_at) WAKEUP_TIMER p1 Hg1)|].
  intros [] q (Hgq & [Hlk (cs & n & Hq & Hcs)] & Hp).
  wp_step. apply wp_s, wp_sys_lk. eapply wp_mono; [apply (release_wp _ (lk_of p)); [apply Hg|exact Hn|eapply taken_same; [apply Hg|exact Hl|exact Hlk]]|].
  intros [] l' Hl'. unfold getr, sbi_set_timer, setr. wp_go. exists (lput l' q). split; [|done].
  split_and!.
  - split; [by eapply lk_same_ok; [|apply Hg]| |apply Hgq]. intros i. pose proof Hl' as (_ & _ & Hh & _). change (L_proc i ∉ held l'). rewrite Hh. apply Hg.
  - exact Hl'.
  - change (ps_ticks q = u32 (ps_ticks p + 1)). by rewrite Hq.
  - exact Hp.
  - change (c_proc <$> ps_cpus q = c_proc <$> ps_cpus p). rewrite Hq. exact Hcs.
Qed.

(** The timer interrupt.  [devintr] recognises it and returns 2.  The tick
    counter goes up by one modulo 2^32, every process that slept on it is
    runnable and every other process is unchanged, the locks are as before,
    and the next interrupt is due [INTERVAL] after the present time. *)
Theorem timer_interrupt_ticks s :
  r_scause (t_regs s) = CAUSE_TIMER -> pgood (ps_of (t_sys s)) -> L_ticks ∉ held (lk_of (ps_of (t_sys s))) ->
  exists s', devintr s = Ok 2 s' /\
    let p := ps_of (t_sys s) in let q := ps_of (t_sys s') in
    ps_ticks q = (ps_ticks p + 1) mod 2 ^ 32 /\
    (forall i, 0 <= i < NPROC ->
      if decide (p_state (proc_at p i) = SLEEPING /\ p_chan (proc_at p i) = AddrChan ticks_at)
      then p_state (proc_at q i) = RUNNABLE /\ p_last_wakeup_reason (proc_at q i) = WAKEUP_TIMER
      else proc_at q i = proc_at p i) /\
    lk_same (lk_of p) (lk_of q) /\ r_timer (t_regs s') = u64 (r_time (t_regs s) + INTERVAL) /\
    t_plic s' = t_plic s /\ t_actions s' = t_actions s.
Proof.
  intros Hc Hg Hn. unfold devintr. unfold getr, gets. unfold mbind_ at 1 2. rewrite Hc.
  change ((CAUSE_TIMER =? CAUSE_SOFTWARE) && _) with false. change (CAUSE_TIMER =? CAUSE_TIMER) with true. cbv iota.
  destruct (wp_Ok _ _ _ (clockintr_wp s Hg Hn)) as ([] & s' & E & q & (H1 & H2 & H3 & H4 & H5) & ->).
  unfold mbind_. rewrite E. eexists. split; [reflexivity|]. cbv zeta. split_and!; try done.
  intros i Hi. change (ps_of (t_sys (Tst (with_ps q (t_sys s)) _ _ _))) with q.
  assert (Hat : proc_at q i = tick_woken (proc_at (ps_of (t_sys s)) i)).
  { unfold proc_at. rewrite H4. apply woken_at; [apply Hg|done]. }
  rewrite Hat. unfold tick_woken, woken, is_state. set (p := proc_at (ps_of (t_sys s)) i). clearbody p. case_decide as Hd.
  - destruct Hd as [E1 E2]. rewrite !bool_decide_eq_true_2 by done. done.
  - destruct (bool_decide (p_state p = SLEEPING) && bool_decide (p_chan p = AddrChan ticks_at)) eqn:Eb; [|done].
    breflect. exfalso. by apply Hd.
Qed.
(** ** Sleeping for a number of ticks *)

(** The scheduler has switched back to process [me], which slept: only its
    own lock is held. *)
Record switched_to (me : Z) (p : pst) : Prop := {
  sw_noff : noff (lk_of p) = 1;
  sw_sie : sie (lk_of p) = false;
  sw_held : held (lk_of p) = [L_proc me];
  sw_len : length (ps_procs p) = Z.to_nat NPROC;
}.

(** The slot of a process that stops sleeping. *)
Definition woke_up : proc -> proc := fun p => set_p_interruptible_sleep false (set_p_chan NoChan p).

Lemma upd_proc_lput i f l p : upd_proc i f (lput l p) = lput l (upd_proc i f p).
Proof. done. Qed.
Lemma lput_twice (l l' : lkst) (p : pst) : lput l (lput l' p) = lput l p.
Proof. done. Qed.

Lemma pgood_holding lk l f me p : switched_to me p -> (forall i, lk <> L_proc i) -> noff l = 1 -> sie l = false -> held l = [lk] ->
  pgood (lput l (upd_proc me f p)).
Proof.
  intros [W1 W2 W3 W4] Hne H1 H2 H3. split.
  - change (lk_ok l). unfold lk_ok. rewrite H1, H2, H3. split_and!; [done|done|apply NoDup_singleton].
  - intros i. change (L_proc i ∉ held l). rewrite H3. intros E%list_elem_of_singleton. by eapply Hne.
  - change (length (ps_procs (upd_proc me f p)) = Z.to_nat NPROC). by rewrite length_upd_proc.
Qed.

Lemma sleep_resume_wp me lk saved p : switched_to me p -> 0 <= me < NPROC -> (forall i, lk <> L_proc i) ->
  wp (sleep_on_resume me lk true saved) (fun r p' =>
    r = (if signal_pending_locked (proc_at p me) then -1 else 0) /\
    exists l, noff l = 1 /\ sie l = false /\ held l = [lk] /\ p' = lput l (upd_proc me woke_up p)) p.
Proof.
  intros [W1 W2 W3 W4] Hme Hne. unfold sleep_on_resume. rewrite bool_decide_eq_false_2 by apply Hne. simpl negb.
  wp_step. unfold sched_resume. wp_step. change (@lget pst lkst _ p) with (lk_of p). rewrite W1, W2, W3.
  set (l1 := Lkst 1 saved false [L_proc me]). wp_step. wp_step. wp_step. wp_step. wp_step. wp_step. wp_step.
  fold woke_up. rewrite upd_proc_lput.
  assert (Hat : proc_at (lput l1 (upd_proc me woke_up p)) me = woke_up (proc_at p me)) by exact (proc_at_upd me woke_up p Hme W4).
  rewrite Hat. wp_step; [|discriminate]. wp_step.
  eapply (wp_punlock me (Lkst 0 false saved [])); [apply lk_ok_0|apply not_elem_of_nil|by unfold taken|].
  intros l2 (U1 & U2 & U3 & _). apply wp_zoom. rewrite lput_twice.
  eapply wp_mono; [apply acquire_wp; change (lget (lput l2 (upd_proc me woke_up p))) with l2; rewrite U3; apply not_elem_of_nil|].
  intros [] l3 (V1 & V2 & V3 & V4). change (lget (lput l2 (upd_proc me woke_up p))) with l2 in *. rewrite U1, U3 in *. wp_go.
  split; [done|]. exists l3. split_and!; done.
Qed.
Lemma u32_sub_add a d : 0 <= d < 2 ^ 32 -> u32 (u32 (a + d) - a) = d.
Proof. intros H. unfold u32. rewrite Zminus_mod_idemp_l. replace (a + d - a) with d by lia. by apply Z.mod_small. Qed.

(** [tickslock] is held and [d] ticks have passed since [t0]: the answer and
    the locks and the slot of the caller behind it. *)
Definition sleep_answer (me n t0 d : Z) (pending : bool) (r : sysres) (q : pst) : Prop :=
  if u32 n <=? d then r = SRet 0 /\ held (lk_of q) = [] /\ noff (lk_of q) = 0
  else if pending then r = SRet (-1) /\ held (lk_of q) = [] /\ noff (lk_of q) = 0
  else exists saved, r = SSleep n t0 saved /\ held (lk_of q) = [L_proc me] /\ noff (lk_of q) = 1 /\
         p_state (proc_at q me) = SLEEPING /\ p_chan (proc_at q me) = AddrChan ticks_at /\ p_interruptible_sleep (proc_at q me) = true.

Lemma unlock_ticks_wp l (x : sys D) (Q : unit -> sys D -> Prop) : lk_of (ps_of x) = l -> noff l = 1 -> sie l = false -> held l = [L_ticks] ->
  (forall l', noff l' = 0 -> held l' = [] -> Q tt (with_ps (lput l' (ps_of x)) x)) -> wp (mlk_ (release L_ticks)) Q x.
Proof.
  intros El H1 H2 H3 HQ. apply wp_sys_lk. rewrite El. eapply wp_mono.
  - apply (release_wp _ (Lkst 0 false (intena l) [])); [apply lk_ok_0|apply not_elem_of_nil|]. unfold taken. simpl. rewrite H1, H2, H3. done.
  - intros [] l' (A1 & A2 & A3 & _). by apply HQ.
Qed.

Lemma sleep_round_wp me n t0 d (x : sys D) : pgood (ps_of x) -> 0 <= me < NPROC ->
  noff (lk_of (ps_of x)) = 1 -> sie (lk_of (ps_of x)) = false -> held (lk_of (ps_of x)) = [L_ticks] ->
  ps_ticks (ps_of x) = u32 (t0 + d) -> 0 <= d < 2 ^ 32 ->
  wp (sleep_round me n t0) (fun r x' => sleep_answer me n t0 d (signal_pending_locked (proc_at (ps_of x) me)) r (ps_of x') /\
    forall j, 0 <= j < NPROC -> j <> me -> proc_at (ps_of x') j = proc_at (ps_of x) j) x.
Proof.
  intros Hg Hme H1 H2 H3 Ht Hd. unfold sleep_round, sleep_answer. wp_step. apply wp_sys_p. wp_step. rewrite Ht, u32_sub_add by done.
  rewrite with_ps_same. destruct (Z.leb_spec (u32 n) d) as [Hle|Hlt]; [destruct (Z.ltb_spec d (u32 n)); [lia|]|destruct (Z.ltb_spec d (u32 n)); [|lia]].
  - wp_step. eapply unlock_ticks_wp; [done|done|done|done|]. intros l' E1 E2. wp_go. done.
  - wp_step. apply wp_sys_p. eapply wp_mono; [exact (sleep_enter_wp me (AddrChan ticks_at) L_ticks true (ps_of x) Hg Hme H1 H3)|].
    intros r q (N1 & N2 & Hq). simpl andb in Hq. destruct (signal_pending_locked (proc_at (ps_of x) me)).
    + destruct Hq as (-> & N3 & l & ->). wp_step. eapply unlock_ticks_wp; [done|exact N1|exact N2|exact N3|]. intros l' E1 E2. wp_go. done.
    + destruct Hq as (saved & -> & N3 & l & ->). wp_go. split.
      * exists saved. assert (Hat : proc_at (ps_of (with_ps (lput l (upd_proc me (asleep_on (AddrChan ticks_at) true) (ps_of x))) x)) me
                                  = asleep_on (AddrChan ticks_at) true (proc_at (ps_of x) me)) by exact (proc_at_upd me _ (ps_of x) Hme (pg_len _ Hg)).
        rewrite Hat. split_and!; done.
      * intros j Hj Hne. etrans; [exact (upd_proc_at me _ j (ps_of x) Hme Hj (pg_len _ Hg))|]. by rewrite (proj2 (Z.eqb_neq me j)) by done.
Qed.

(** C17: [sleep(n)] lasts [n] ticks.  When the scheduler switches back to a
    process inside [sys_sleep] and [d] ticks have passed since the call, the
    call returns 0 if [d] is at least [n] read as an unsigned number, across
    the wrap-around of the counter too; otherwise it returns -1 if a signal is
    pending and goes back to sleep on the counter if not.  It holds no lock
    when it returns and only its own when it sleeps, and no other process
    changes.  A negative [n] therefore sleeps for more than 2^31 ticks. *)
Theorem sleep_lasts_n_ticks me n t0 d saved (x : sys D) :
  switched_to me (ps_of x) -> 0 <= me < NPROC -> ps_ticks (ps_of x) = u32 (t0 + d) -> 0 <= d < 2 ^ 32 ->
  exists r x', sys_sleep_resume me n t0 saved x = Ok r x' /\
    (let q := ps_of x' in
     if signal_pending_locked (proc_at (ps_of x) me) then r = SRet (-1) /\ held (lk_of q) = [] /\ noff (lk_of q) = 0
     else if n mod 2 ^ 32 <=? d then r = SRet 0 /\ held (lk_of q) = [] /\ noff (lk_of q) = 0
     else exists saved', r = SSleep n t0 saved' /\ held (lk_of q) = [L_proc me] /\
       p_state (proc_at q me) = SLEEPING /\ p_chan (proc_at q me) = AddrChan ticks_at) /\
    forall j, 0 <= j < NPROC -> j <> me -> proc_at (ps_of x') j = proc_at (ps_of x) j.
Proof.
  intros Hw Hme Ht Hd. apply wp_Ok. unfold sys_sleep_resume. pose proof (sw_len _ _ Hw) as Hlen.
  wp_step. apply wp_sys_p. eapply wp_mono; [exact (sleep_resume_wp me L_ticks saved (ps_of x) Hw Hme ltac:(done))|].
  intros r p' (-> & l & N1 & N2 & N3 & ->).
  pose proof (pgood_holding L_ticks l woke_up me (ps_of x) Hw ltac:(done) N1 N2 N3) as Hg.
  assert (Hoth : forall j, 0 <= j < NPROC -> j <> me -> proc_at (lput l (upd_proc me woke_up (ps_of x))) j = proc_at (ps_of x) j).
  { intros j Hj Hne. etrans; [exact (upd_proc_at me _ j (ps_of x) Hme Hj Hlen)|]. by rewrite (proj2 (Z.eqb_neq me j)) by done. }
  assert (Hsig : signal_pending_locked (proc_at (lput l (upd_proc me woke_up (ps_of x))) me) = signal_pending_locked (proc_at (ps_of x) me)).
  { assert (Hat : proc_at (lput l (upd_proc me woke_up (ps_of x))) me = woke_up (proc_at (ps_of x) me)) by exact (proc_at_upd me woke_up (ps_of x) Hme Hlen).
    rewrite Hat. done. }
  destruct (signal_pending_locked (proc_at (ps_of x) me)) eqn:Es.
  - change (-1 <? 0) with true. cbv iota. wp_step. eapply unlock_ticks_wp; [done|done|done|done|]. intros l' E1 E2. wp_go.
    split; [done|exact Hoth].
  - change (0 <? 0) with false. cbv iota.
    eapply wp_mono; [apply (sleep_round_wp me n t0 d); [exact Hg|done|exact N1|exact N2|exact N3|exact Ht|done]|].
    intros r x' [Ha Ho]. change (ps_of (with_ps ?q x)) with q in Ha, Ho. rewrite Hsig in Ha. split.
    + unfold sleep_answer, u32 in Ha. cbv zeta. destruct (n mod 2 ^ 32 <=? d); [done|].
      destruct Ha as (sv & -> & A1 & A2 & A3 & A4 & A5). exists sv. split_and!; done.
    + intros j Hj Hne. rewrite Ho by done. by apply Hoth.
Qed.
End timer.
