(* ===== verification/SysDemo.v ===== *)
(** * The kernel on a small machine

    The machine of ProcDemo.v with the volume of FatDemo.v and a console:
    states of the whole kernel in which the theorems on system calls, copies
    and traps hold. *)

From S2P Require Import Prelude Riscv Memory Spinlock Kalloc Kmalloc Vm VmTree VmUnmap VmCow VmCheck VmProps VmFree VmSpace Proctab Signal Sched SchedProps Pipe Ringbuffer Printf Uart Bio BioProps Fat32 FatDisk FatChain FatClus FatFile FatName FatDir FatDemo File FileProps Console ConsoleDemo Mmap Vmfault Proc ProcProps ProcDemo Kernel Exec Syscall SysWp BrkProps FdProps CopyProps ExecProps Trap TrapProps TimerProps.
Import Hart.

Module SysDemo.
Import ProcDemo.

Abbreviation D := FatDemo.D.
#[export] Existing Instances FatDemo.demo_disk ConsoleDemo.demo_env.

(** No pipe and no device is open, and no file is mapped. *)
#[export] Instance no_cfiles : FileOps cstate := {|
  fo_dup _ := ret tt; fo_close _ := ret tt; fo_read_at _ _ _ _ := ret (-1); fo_write_at _ _ _ _ := ret (-1);
  fo_entry _ := ret false; fo_device _ := ret false; fo_readable _ := ret false; fo_writable _ := ret false; fo_mmap _ _ _ _ := ret (-1) |}.
#[export] Instance no_pipes : PipeOps cstate := {|
  po_read _ _ _ _ := ret (Returned (-1)); po_write _ _ _ _ := ret (Returned (-1)); po_close _ _ := ret tt; po_alloc := ret 0 |}.
#[export] Instance no_devices : DeviceOps cstate D := {|
  dv_open _ := None; dv_close _ := None; dv_read _ := None; dv_write _ := None; dv_ioctl _ := None |}.
#[export] Instance no_mmap : DeviceMmap D := fun _ => None.
#[export] Instance symbols : ProcSymbols := {| forkret_pc := KERNBASE + 64; initcode := KERNBASE + 128; initcode_size := 52 |}.
#[export] Instance frame : ExecFrame := {| elf_at := KERNBASE + 4096; ph_at := KERNBASE + 4160 |}.
#[export] Instance tick_symbol : TrapSymbols := {| ticks_at := KERNBASE + 8192 |}.
#[export] Instance junk : StackJunk := {| junk_stat := []; junk_dirent := inhabitant |}.
(** A handler that is called sets the counter of ticks to its argument. *)
#[export] Instance vectors : TrapVectors D := {|
  kernelvec_pc := KERNBASE + 256; uservec_off := 0; userret_off := 144; usertrap_pc := KERNBASE + 512; recovery_pc := KERNBASE + 768;
  handler_code _ data := p_ (modify (set_ps_ticks data)) |}.

Definition machine (k : kst) (ps : list proc) : pst := Pst k ps [Cpu (Some 1) false; Cpu None false] (Some 0) 8 [0; 0; 0; 0] 0 0 0.
Definition descriptor : file := File FD_ENTRY 1 true true 0 0 600 0 0 None 0.
Definition kernel (p : pst) : sys D :=
  let f := FatDemo.fs0 in
  Filest (Fatst (Ust (Kern (Mst p ∅) ∅) ConsoleDemo.uart0 ConsoleDemo.cons0) (fs_b f) (fs_fat f) (fs_ents f) (fs_lru f)) [descriptor; zero_file] [].
Definition slots (p : proc) : list proc := [parent; p] ++ replicate 62 zero_proc.
Definition with_a0 (v : Z) (p : proc) : proc := set_p_tf (<[TF_a0 := u64 v]> (p_tf p)) p.

(** ** [sbrk] gives the shared heap page back *)

Definition runner : proc := with_a0 (- PGSIZE) (set_p_state RUNNING zombie).
Definition s_run : sys D := kernel (machine kstate (slots runner)).

Lemma run_space k p st v t1 t2 : proc_space k p t1 t2 -> proc_space k (with_a0 v (set_p_state st p)) t1 t2.
Proof. intros [A B C]. split; [exact A|exact B|exact C]. Qed.
Lemma runner_space : proc_space kstate runner ut kt.
Proof. exact (run_space _ _ _ _ _ _ zombie_space). Qed.

Lemma s_run_at : proc_at (ps_of s_run) 1 = runner.
Proof. reflexivity. Qed.
Lemma slots_len p : length (slots p) = Z.to_nat NPROC.
Proof. reflexivity. Qed.
Lemma slot1 : 0 <= 1 < NPROC.
Proof. unfold NPROC. lia. Qed.

Lemma sys_sbrk_keeps_space_witness : exists s', sys_sbrk 1 s_run = Ok (SRet PGSIZE) s' /\
  p_sz (proc_at (ps_of s') 1) = 0 /\ quota (mem_of s') heap_page = 1.
Proof.
  pose proof (sys_sbrk_keeps_space 1 ut kt s_run slot1 (slots_len runner) kstate_inv) as H. cbv zeta in H. rewrite s_run_at in H.
  specialize (H eq_refl runner_space).
  assert (E : (p_sz runner + s32 (p_tf runner !!! TF_a0) <? 0) || ((0 <=? s32 (p_tf runner !!! TF_a0)) && (vma_heap_limit (p_vmas runner) <? p_sz runner + s32 (p_tf runner !!! TF_a0))) = false) by (vm_compute; reflexivity).
  rewrite E in H. destruct H as (s' & H1 & H2). exists s'. split; [exact H1|]. split.
  - rewrite (rs_slot _ _ _ _ _ _ H2), s_run_at. vm_compute. reflexivity.
  - rewrite (rs_quota _ _ _ _ _ _ H2) by (vm_compute; intuition congruence). rewrite s_run_at. vm_compute. reflexivity.
Defined.

(** ** [dup] and [close] *)

Definition dupper : proc := with_a0 0 (set_p_ofile (fptr 0 :: replicate 15 0) (set_p_state RUNNING zero_proc)).
Definition s_dup : sys D := kernel (machine kstate (slots dupper)).

Lemma s_dup_ready : ft_ready s_dup.
Proof. split; [split_and!; simpl; [lia|lia|constructor]|apply not_elem_of_nil]. Qed.

Lemma close_dup_identity_witness : exists s1 s2, finished (sys_dup 1) 1 s_dup = Ok (SRet 1) s1 /\
  f_ref (file_at s1 0) = 2 /\ sys_close 1 s1 = Ok (SRet 0) s2 /\ fl_files s2 = [descriptor; zero_file] /\ ofiles s2 1 = fptr 0 :: replicate 15 0.
Proof.
  assert (Hfd : 0 <= fd_arg s_dup 1 < NOFILE) by (vm_compute; intuition congruence).
  assert (Hf : ofiles s_dup 1 !!! Z.to_nat (fd_arg s_dup 1) = fptr 0) by (vm_compute; reflexivity).
  pose proof (close_dup_identity 1 s_dup slot1 (slots_len dupper)) as H. cbv zeta in H. rewrite Hf in H.
  destruct (H eq_refl eq_refl Hfd ltac:(discriminate) ltac:(vm_compute; intuition congruence) s_dup_ready ltac:(vm_compute; intuition congruence))
    as (r & s1 & E & [[-> Hno]|(k & s2 & -> & (K1 & K2 & K3) & K4 & K5 & K6 & K7 & K8)]).
  - exfalso. apply (Hno 1); [unfold NOFILE; lia|vm_compute; reflexivity].
  - assert (k = 1) as ->.
    { destruct (Z.lt_trichotomy k 1) as [Hk|[Hk|Hk]]; [|done|].
      - exfalso. assert (k = 0) as -> by lia. vm_compute in K2. discriminate.
      - exfalso. apply (K3 1); [lia|]. vm_compute. reflexivity. }
    exists s1, s2. split; [exact E|]. split; [exact K5|]. split; [exact K6|]. split; [exact K7|]. rewrite (K8 1 slot1). vm_compute. reflexivity.
Defined.

(** ** A program whose top stack page is mapped *)

Definition w_tree : list (list Z * Z) := [([], pg 0); ([1], pg 1); ([1; 511], pg 2)].
Definition wt : tree := list_to_map w_tree.
Definition top_page : Z := pg 3.
(** The strings ls and -l in two pages of the kernel. *)
Definition w_memory : gmap Z Z :=
  let m := fold_left (fun m (x : Z * Z * Z) => let '(p, i, v) := x in st64 m (pte_addr p i) v)
    [(pg 0, 1, table_pte (pg 1)); (pg 1, 511, table_pte (pg 2)); (pg 2, 511, map_entry top_page PTE_RW)] ∅ in
  fold_left (fun m (x : Z * Z) => st8 m (fst x) (snd x)) [(pg 10, 108); (pg 10 + 1, 115); (pg 11, 45); (pg 11 + 1, 108)] m.
Definition w_kst : kst := Kst w_memory [0; 0] quotas [] (Lkst 0 false false []) 0.
Definition loader : proc := set_p_kpagetable (pg 0) (set_p_state RUNNING zero_proc).
Definition s_load : sys D := kernel (machine w_kst (slots loader)).
Definition top_pa (va : Z) : Z := top_page + (va - stackbase).

Lemma w_rep : pt_rep w_kst wt (pg 0).
Proof. apply check_tree_spec. vm_compute. reflexivity. Qed.

Lemma wt_pages k p : wt !! k = Some p -> p = pg 0 \/ p = pg 1 \/ p = pg 2.
Proof. intros H. apply elem_of_list_to_map_2 in H. unfold w_tree in H. rewrite !elem_of_cons in H. destruct H as [H|[H|[H|H%not_elem_of_nil]]]; [injection H; auto..|done]. Qed.

Lemma top_div va : stackbase <= va < USER_STACK_TOP -> va / PGSIZE = stackbase / PGSIZE /\ va mod PGSIZE = va - stackbase.
Proof. destruct stack_numbers as (-> & -> & _ & ->). intros H. dlia. Qed.

Lemma w_pte : pte_of w_kst wt stackbase = map_entry top_page PTE_RW.
Proof. vm_compute. reflexivity. Qed.

Lemma top_window : window 1 wt stackbase USER_STACK_TOP top_pa s_load.
Proof.
  split.
  - exact w_rep.
  - by vm_compute.
  - intros va Hva. destruct (top_div va Hva) as [E1 E2]. change (mem_of s_load) with w_kst. cbv zeta.
    rewrite (pte_of_page w_kst wt va stackbase) by done. rewrite w_pte, E2. unfold top_pa.
    split_and!; [vm_compute; reflexivity..|]. f_equal.
  - intros va k p Hva Hk Hin. destruct stack_numbers as (N1 & N2 & _ & N4). unfold in_page, top_pa, top_page, pg in Hin. rewrite N1, N2 in Hva. rewrite N1, N4 in Hin.
    destruct (wt_pages k p Hk) as [-> |[-> | ->]]; unfold pg in Hin; rewrite N4 in Hin; lia.
  - intros va va' _ _. unfold top_pa. lia.
Qed.

Lemma copyout_copyin_roundtrip_witness : exists x1 x2,
  copyout_l 1 (stackbase + 100) [1; 2; 3] s_load = Ok 0 x1 /\ copyin_l 1 (stackbase + 100) 3 x1 = Ok (Some [1; 2; 3]) x2.
Proof.
  assert (Hb : Forall (fun c => 0 <= c < 256) [1; 2; 3]) by (repeat constructor; lia).
  assert (H1 : stackbase <= stackbase + 100) by (destruct stack_numbers as (-> & _); lia).
  assert (H2 : stackbase + 100 + Z.of_nat (length [1; 2; 3]) <= USER_STACK_TOP) by (destruct stack_numbers as (-> & -> & _); simpl; lia).
  destruct (copyout_copyin_roundtrip 1 wt stackbase USER_STACK_TOP top_pa (stackbase + 100) [1; 2; 3] s_load slot1 (slots_len loader) top_window H1 H2 ltac:(discriminate) Hb)
    as (x1 & x2 & E1 & E2 & _). exists x1, x2. split; [exact E1|exact E2].
Defined.

Lemma page0_nowhere : nowhere 1 wt 8 s_load.
Proof. split; [exact w_rep|by vm_compute|vm_compute; reflexivity|vm_compute; reflexivity]. Qed.


Lemma arg_ok_page a bs i : a = pg i -> 9 <= i -> cstring w_memory a bs -> Z.of_nat (length bs) < PGSIZE -> arg_ok top_pa w_memory a bs.
Proof.
  intros -> Hi Hs Hl. destruct stack_numbers as (N1 & N2 & _ & N4). rewrite N4 in Hl. split_and!; try done.
  - unfold pg. rewrite N4. change PHYSTOP with 2153775104. lia.
  - intros v k Hv Hk. unfold top_pa, top_page, pg. rewrite N1, N2 in Hv. rewrite N1, N4. lia.
Qed.

Lemma w_string a b c : ld8 w_memory a = b -> ld8 w_memory (a + 1) = c -> ld8 w_memory (a + 2) = 0 -> b <> 0 -> c <> 0 -> cstring w_memory a [b; c].
Proof.
  intros H1 H2 H3 Hb Hc. split; [|exact H3]. intros [|[|k]] x Hx; simplify_eq/=; [by rewrite Z.add_0_r|done].
Qed.

Lemma exec_pushes_arguments_witness : exists x', push_argv 1 [pg 10; pg 11; 0] s_load = Ok (Some (USER_STACK_TOP - 64, 2)) x' /\
  user_bytes top_pa (k_mem (mem_of x')) (USER_STACK_TOP - 16) [108; 115; 0].
Proof.
  assert (Ha : Forall2 (arg_ok top_pa w_memory) [pg 10; pg 11] [[108; 115]; [45; 108]]).
  { constructor; [|constructor; [|constructor]].
    - apply (arg_ok_page _ _ 10); [done|lia|apply w_string; vm_compute; congruence|by vm_compute].
    - apply (arg_ok_page _ _ 11); [done|lia|apply w_string; vm_compute; congruence|by vm_compute]. }
  destruct (exec_pushes_arguments 1 wt top_pa [pg 10; pg 11] [[108; 115]; [45; 108]] [] s_load slot1 (slots_len loader) top_window Ha) as (r & x' & E & H).
  destruct (decide _) as [Hd|Hn].
  - destruct H as (-> & _ & _ & _ & Hp & _). exists x'. split; [exact E|].
    destruct (Hp 0%nat [108; 115] (USER_STACK_TOP - 16) USER_STACK_TOP) as (_ & _ & _ & _ & Hu); [done|vm_compute; reflexivity|done|exact Hu].
  - exfalso. apply Hn. split; [|by vm_compute]. split; [by vm_compute|]. repeat constructor; by vm_compute.
Defined.

(** ** Traps *)

Definition regs0 : regs := Regs CAUSE_TIMER 4096 0 0 77 false true 0 0 1000 0.
Definition plic0 : plic := Plic (replicate 64 0) [[0; 0]; [0; 0]] [0; 0] [33] [].
Definition trap_state (x : sys D) : tst D := Tst x regs0 plic0 (replicate 64 None).

Lemma irq_register_dispatches_witness : exists s', irq_register 33 (KERNBASE + 1024) 9 (trap_state s_run) = Ok tt s' /\
  pl_enable (t_plic s') !! 1%nat = Some [0; 2] /\ irq_dispatch 33 s' = s_ (handler_code (KERNBASE + 1024) 9) s'.
Proof.
  assert (Hm : Forall (fun men : list Z => length men = 2%nat) [[0; 0]; [0; 0]]) by by repeat constructor.
  destruct (irq_register_dispatches 33 (KERNBASE + 1024) 9 (trap_state s_run) ltac:(unfold MAXIRQ; lia) ltac:(discriminate) eq_refl eq_refl Hm) as (s' & E & H1 & _).
  exists s'. split; [exact E|]. split; [injection E as <-; reflexivity|]. specialize (H1 (t_sys s')). by destruct s'.
Defined.

Lemma kernel_good p : pgood (machine kstate (slots p)).
Proof. split; [split_and!; simpl; [lia|done|constructor]|intros i; apply not_elem_of_nil|exact (slots_len p)]. Qed.

(** Process 1 runs with [SIGKILL] pending and every signal masked. *)
Definition doomed : proc := set_p_sig_pending (signal_bit SIGKILL) (set_p_sig_mask (2 ^ 32 - 1) runner).
Definition s_doomed : tst D := trap_state (kernel (machine kstate (slots doomed))).

Lemma runner_handlers q : p_sig_handlers q = replicate (Z.to_nat NSIG) 0 -> handlers_nonneg q.
Proof. intros E k. unfold handler_at. rewrite E. apply SigDemo.handlers_demo. by repeat constructor. Qed.

Lemma killed_never_returns_to_user_witness :
  (forall r s', usertrap_tail 1 s_doomed = Ok r s' -> exists saved, r = TExit saved) /\
  exists s', usertrap_tail 1 (trap_state s_run) = Ok (TUser TRAPFRAME (MAKE_SATP (pg 0)) (TRAMPOLINE + 144)) s' /\
    r_spp (t_regs s') = false /\ p_tf (proc_at (ps_of (t_sys s')) 1) !!! TF_kernel_satp = 77.
Proof.
  split.
  - destruct (killed_never_returns_to_user 1 ut s_doomed (kernel_good doomed) slot1 (us_rep _ _ _ _ (sp_user _ _ _ _ runner_space)) (runner_handlers doomed eq_refl) eq_refl)
      as (q & _ & Hk & H). rewrite (Hk (or_intror eq_refl)) in H. exact H.
  - destruct (killed_never_returns_to_user 1 ut (trap_state s_run) (kernel_good runner) slot1 (us_rep _ _ _ _ (sp_user _ _ _ _ runner_space)) (runner_handlers runner eq_refl) eq_refl)
      as (q & E & _ & H).
    assert (Hq : match signal_deliver 1 (machine kstate (slots runner)) with Ok _ q => p_killed (proc_at q 1) | _ => true end = false) by (vm_compute; reflexivity).
    change (ps_of (t_sys (trap_state s_run))) with (machine kstate (slots runner)) in E. rewrite E in Hq. rewrite Hq in H.
    destruct H as (s' & E' & _ & _ & H1 & _ & _ & H2 & _). exists s'. split; [exact E'|]. split; [exact H1|exact H2].
Defined.

(** Process 1 sleeps until the next tick; the counter is about to wrap. *)
Definition sleeper : proc := set_p_chan (AddrChan ticks_at) (set_p_state SLEEPING zero_proc).
Definition s_sleep : tst D := trap_state (kernel (set_ps_ticks (2 ^ 32 - 1) (machine kstate (slots sleeper)))).

Lemma timer_interrupt_ticks_witness : exists s', devintr s_sleep = Ok 2 s' /\ ps_ticks (ps_of (t_sys s')) = 0 /\
  p_state (proc_at (ps_of (t_sys s')) 1) = RUNNABLE /\ r_timer (t_regs s') = 1000 + INTERVAL.
Proof.
  assert (Hg : pgood (ps_of (t_sys s_sleep))) by (destruct (kernel_good sleeper) as [A B C]; split; [exact A|exact B|exact C]).
  destruct (timer_interrupt_ticks s_sleep eq_refl Hg (not_elem_of_nil _)) as (s' & E & H1 & H2 & _ & H3 & _).
  exists s'. split; [exact E|]. split; [exact H1|]. split; [|exact H3]. specialize (H2 1 slot1). rewrite decide_True in H2; [exact (proj1 H2)|split; reflexivity].
Defined.

(** Three ticks after a [sleep] that began just before the counter wrapped. *)
Definition s_woken : sys D :=
  kernel (set_ps_ticks 1 (machine (set_lk (Lkst 1 false false [L_proc 1]) kstate) (slots (set_p_state RUNNING sleeper)))).

Lemma sleep_lasts_n_ticks_witness :
  (exists x', sys_sleep_resume 1 3 (2 ^ 32 - 2) true s_woken = Ok (SRet 0) x') /\
  (exists saved x', sys_sleep_resume 1 (-1) (2 ^ 32 - 2) true s_woken = Ok (SSleep (-1) (2 ^ 32 - 2) saved) x').
Proof.
  assert (Hw : switched_to 1 (ps_of s_woken)) by (split; [reflexivity..|exact (slots_len _)]).
  assert (Hd : 0 <= 3 < 2 ^ 32) by lia. assert (Hp : signal_pending_locked (proc_at (ps_of s_woken) 1) = false) by (vm_compute; reflexivity).
  split.
  - destruct (sleep_lasts_n_ticks 1 3 (2 ^ 32 - 2) 3 true s_woken Hw slot1 eq_refl Hd) as (r & x' & E & H & _). cbv zeta in H. rewrite Hp in H.
    change (3 mod 2 ^ 32 <=? 3) with true in H. destruct H as [-> _]. by exists x'.
  - destruct (sleep_lasts_n_ticks 1 (-1) (2 ^ 32 - 2) 3 true s_woken Hw slot1 eq_refl Hd) as (r & x' & E & H & _). cbv zeta in H. rewrite Hp in H.
    change (-1 mod 2 ^ 32 <=? 3) with false in H. destruct H as (saved & -> & _). by exists saved, x'.
Defined.
End SysDemo.
