(* ===== verification/Grep.v ===== *)
(** * grep (src/user/sh/grep.c)

    The matcher of Kernighan and Pike for patterns with [^ . * $], and the
    loop that cuts the input into lines.  A C string is the list of the bytes
    before its NUL.  The matcher is proved equal to the declarative meaning of
    patterns, and [grep] to a filter on the lines of its input, for every way
    in which [read] can split it. *)

From S2P Require Import Prelude.

Definition CARET : Z := 94.
Definition DOT : Z := 46.
Definition STAR : Z := 42.
Definition DOLLAR : Z := 36.
Definition NEWLINE : Z := 10.

(** The do loop of [matchstar], with [here] for [matchhere(re, _)]. *)
Fixpoint matchstar (here : list Z -> bool) (c : Z) (text : list Z) : bool :=
  if here text then true
  else
    match text with
    | [] => false
    | t :: text' => if (t =? c) || (c =? DOT) then matchstar here c text' else false
    end.

Fixpoint matchhere (re text : list Z) : bool :=
  match re with
  | [] => true
  | c :: re' =>
      let plain :=
        if (c =? DOLLAR) && (match re' with [] => true | _ => false end) then match text with [] => true | _ => false end
        else match text with
             | [] => false
             | t :: text' => if (c =? DOT) || (c =? t) then matchhere re' text' else false
             end in
      match re' with
      | d :: re'' => if d =? STAR then matchstar (matchhere re'') c text else plain
      | [] => plain
      end
  end.

(** The do loop of [match]. *)
Fixpoint match_from (re text : list Z) : bool :=
  if matchhere re text then true
  else match text with [] => false | _ :: text' => match_from re text' end.

Definition match_ (re text : list Z) : bool :=
  match re with
  | c :: re' => if c =? CARET then matchhere re' text else match_from re text
  | [] => match_from re text
  end.

(** ** The loop over the lines *)

Definition BUFSIZE : nat := 1024.

(** The inner [while]: from [p], with [cur] the bytes of the line so far; the
    output and the bytes behind the last line.  [strchr] finds no newline
    behind a NUL. *)
Fixpoint scan_lines (pattern data cur : list Z) : list Z * list Z :=
  match data with
  | [] => ([], cur)
  | b :: data' =>
      if b =? 0 then ([], cur ++ data)
      else if b =? NEWLINE then
        let '(out, rest) := scan_lines pattern data' [] in
        ((if match_ pattern cur then cur ++ [NEWLINE] else []) ++ out, rest)
      else scan_lines pattern data' (cur ++ [b])
  end.

Section grep.
(** How many bytes [read] returns, given the rest of the input and the space. *)
Context (rd : list Z -> nat -> nat).

(** One round, on the bytes kept in [buf], the rest of the input and the
    output so far. *)
Definition grep_body (pattern : list Z) (x : list Z * list Z * list Z) : M unit ((list Z * list Z * list Z) + list Z) :=
  let '(kept, input, out) := x in
  let n := rd input (BUFSIZE - length kept - 1) in
  if (0 <? n)%nat then
    let '(o, rest) := scan_lines pattern (kept ++ take n input) [] in
    ret (inl (rest, drop n input, out ++ o))
  else ret (inr out).
Definition grep (pattern input : list Z) : M unit (list Z) :=
  loop (S (length input)) (grep_body pattern) ([], input, []).
End grep.

(** ** The meaning of patterns *)

Inductive item := One (c : Z) | Many (c : Z).

(** The items of a pattern and whether it ends with the anchor. *)
Fixpoint items (re : list Z) : list item * bool :=
  match re with
  | [] => ([], false)
  | c :: re' =>
      match re' with
      | [] => if c =? DOLLAR then ([], true) else ([One c], false)
      | d :: re'' =>
          if d =? STAR then let '(l, e) := items re'' in (Many c :: l, e)
          else let '(l, e) := items re' in (One c :: l, e)
      end
  end.

Definition fits (c t : Z) : Prop := c = DOT \/ c = t.

(** The texts that a list of items stands for. *)
Inductive lang : list item -> list Z -> Prop :=
| lang_nil : lang [] []
| lang_one c l t w : fits c t -> lang l w -> lang (One c :: l) (t :: w)
| lang_many c l u w : Forall (fits c) u -> lang l w -> lang (Many c :: l) (u ++ w).

(** A text starts with a match of the items; at its end when anchored. *)
Definition starts (l : list item) (anchored : bool) (text : list Z) : Prop :=
  exists w rest, text = w ++ rest /\ lang l w /\ (anchored = true -> rest = []).

Lemma starts_nil e text : starts [] e text <-> (e = true -> text = []).
Proof.
  split.
  - intros (w & rest & -> & Hw & He). inversion Hw. simpl. exact He.
  - intros H. exists [], text. by split_and!; [|constructor|].
Qed.

Lemma starts_one c l e text : starts (One c :: l) e text <-> exists t text', text = t :: text' /\ fits c t /\ starts l e text'.
Proof.
  split.
  - intros (w & rest & -> & Hw & He). inversion Hw; subst. simpl. exists t, (w0 ++ rest). split_and!; [done|done|]. by exists w0, rest.
  - intros (t & text' & -> & Hf & w & rest & -> & Hw & He). exists (t :: w), rest. by split_and!; [|constructor|].
Qed.

Lemma starts_many c l e text : starts (Many c :: l) e text <-> exists u text', text = u ++ text' /\ Forall (fits c) u /\ starts l e text'.
Proof.
  split.
  - intros (w & rest & -> & Hw & He). inversion Hw; subst. exists u, (w0 ++ rest). split_and!; [by rewrite app_assoc|done|]. by exists w0, rest.
  - intros (u & text' & -> & Hf & w & rest & -> & Hw & He). exists (u ++ w), rest. by split_and!; [rewrite app_assoc|constructor|].
Qed.

Lemma fits_test c t : (c =? DOT) || (c =? t) = true <-> fits c t.
Proof. rewrite orb_true_iff, !Z.eqb_eq. done. Qed.

Lemma matchstar_spec here c (P : list Z -> Prop) : (forall text, here text = true <-> P text) ->
  forall text, matchstar here c text = true <-> exists u text', text = u ++ text' /\ Forall (fits c) u /\ P text'.
Proof.
  intros Hh. induction text as [|t text IH]; cbn [matchstar].
  - destruct (here []) eqn:E.
    + split; [|done]. intros _. exists [], []. by split_and!; [|constructor|apply Hh].
    + split; [done|]. intros ([|] & [|] & Ht & _ & Hp); try done. apply Hh in Hp. congruence.
  - destruct (here (t :: text)) eqn:E.
    + split; [|done]. intros _. exists [], (t :: text). by split_and!; [|constructor|apply Hh].
    + assert (Et : (t =? c) || (c =? DOT) = (c =? DOT) || (c =? t)) by (rewrite orb_comm; f_equal; apply Z.eqb_sym). rewrite Et.
      destruct ((c =? DOT) || (c =? t)) eqn:Ef.
      * apply fits_test in Ef. rewrite IH. split.
        -- intros (u & text' & -> & Hu & Hp). exists (t :: u), text'. by split_and!; [|constructor|].
        -- intros ([|t' u] & text' & Ht & Hu & Hp); simplify_eq/=; [apply Hh in Hp; congruence|]. inversion_clear Hu. by exists u, text'.
      * split; [done|]. intros ([|t' u] & text' & Ht & Hu & Hp); simplify_eq/=; [apply Hh in Hp; congruence|].
        inversion_clear Hu as [|? ? Hf ?]. apply fits_test in Hf. congruence.
Qed.

Lemma matchhere_spec re : forall text, matchhere re text = true <-> starts (fst (items re)) (snd (items re)) text.
Proof.
  remember (length re) as n eqn:En. assert (Hn : (length re <= n)%nat) by lia. clear En. revert re Hn.
  induction n as [|n IH]; intros [|c re] Hn text; simpl in Hn; try lia; try (rewrite starts_nil; by split).
  destruct re as [|d re].
  - cbn [matchhere items]. rewrite andb_true_r. destruct (Z.eqb_spec c DOLLAR).
    + simpl. rewrite starts_nil. destruct text; naive_solver.
    + simpl. rewrite starts_one. destruct text as [|t text]; [naive_solver|].
      destruct ((c =? DOT) || (c =? t)) eqn:Ef.
      * apply fits_test in Ef. split; [|done]. intros _. exists t, text. split_and!; [done|done|]. by apply starts_nil.
      * split; [done|]. intros (t' & text' & Ht & Hf & _). simplify_eq. apply fits_test in Hf. congruence.
  - change (matchhere (c :: d :: re) text) with
      (if d =? STAR then matchstar (matchhere re) c text
       else if (c =? DOLLAR) && false then match text with [] => true | _ => false end
       else match text with [] => false | t :: text' => if (c =? DOT) || (c =? t) then matchhere (d :: re) text' else false end).
    change (items (c :: d :: re)) with
      (if d =? STAR then let '(l, e) := items re in (Many c :: l, e) else let '(l, e) := items (d :: re) in (One c :: l, e)).
    rewrite andb_false_r. destruct (d =? STAR).
    + specialize (IH re ltac:(simpl in *; lia)). destruct (items re) as [l e] eqn:E. simpl fst in *. simpl snd in *. rewrite starts_many. by apply matchstar_spec.
    + specialize (IH (d :: re) ltac:(simpl in *; lia)). destruct (items (d :: re)) as [l e] eqn:E. simpl fst in *. simpl snd in *. rewrite starts_one.
      destruct text as [|t text]; [naive_solver|]. destruct ((c =? DOT) || (c =? t)) eqn:Ef.
      * apply fits_test in Ef. rewrite IH. split; [by exists t, text|]. intros (t' & text' & Ht & _ & Hs). by simplify_eq.
      * split; [done|]. intros (t' & text' & Ht & Hf & _). simplify_eq. apply fits_test in Hf. congruence.
Qed.

Lemma match_from_spec re text : match_from re text = true <-> exists pre rest, text = pre ++ rest /\ matchhere re rest = true.
Proof.
  induction text as [|t text IH]; cbn [match_from].
  - destruct (matchhere re []) eqn:E.
    + split; [|done]. by exists [], [].
    + split; [done|]. intros ([|] & [|] & Ht & Hm); try done. congruence.
  - destruct (matchhere re (t :: text)) eqn:E.
    + split; [|done]. by exists [], (t :: text).
    + rewrite IH. split; [intros (pre & rest & -> & Hm); by exists (t :: pre), rest|].
      intros ([|t' pre] & rest & Ht & Hm); simplify_eq/=; [congruence|]. by exists pre, rest.
Qed.

(** The pattern behind a caret, and whether there was one. *)
Definition anchor (re : list Z) : bool * list Z :=
  match re with c :: re' => if c =? CARET then (true, re') else (false, re) | [] => (false, re) end.

(** C32: the matcher decides the meaning of patterns.  [match] answers yes
    exactly when the text contains, at its start if the pattern begins with a
    caret and at its end if it ends with a dollar, a sequence of bytes in the
    language of the pattern's items: a dot stands for any byte, a byte before
    a star for any number of copies of it. *)
Theorem match_decides_patterns re text :
  let '(at_start, body) := anchor re in
  match_ re text = true <->
  exists pre w post, text = pre ++ w ++ post /\ lang (fst (items body)) w /\
    (at_start = true -> pre = []) /\ (snd (items body) = true -> post = []).
Proof.
  assert (Hsearch : forall body, match_from body text = true <-> exists pre w post, text = pre ++ w ++ post /\ lang (fst (items body)) w /\
    (false = true -> pre = []) /\ (snd (items body) = true -> post = [])).
  { intros body. rewrite match_from_spec. split.
    - intros (pre & rest & -> & Hm). apply matchhere_spec in Hm as (w & post & -> & Hw & He). by exists pre, w, post.
    - intros (pre & w & post & -> & Hw & _ & He). exists pre, (w ++ post). split; [done|]. apply matchhere_spec. by exists w, post. }
  destruct re as [|c re]; [apply Hsearch|]. cbn [anchor match_]. destruct (c =? CARET); [|apply Hsearch].
  rewrite matchhere_spec. split.
  - intros (w & post & -> & Hw & He). by exists [], w, post.
  - intros (pre & w & post & -> & Hw & Hp & He). rewrite (Hp eq_refl). by exists w, post.
Qed.

(** ** The lines of the input *)

(** The lines that end with a newline; [cur] begins the first one. *)
Fixpoint lines_of (data cur : list Z) : list (list Z) :=
  match data with
  | [] => []
  | b :: data' => if b =? NEWLINE then cur :: lines_of data' [] else lines_of data' (cur ++ [b])
  end.

Definition closed (l : list Z) : list Z := l ++ [NEWLINE].
Definition shown (pattern l : list Z) : list Z := if match_ pattern l then closed l else [].

(** The lines before the first one that does not fit into the buffer. *)
Fixpoint fitting (ls : list (list Z)) : list (list Z) :=
  match ls with
  | [] => []
  | l :: ls' => if (length l <? BUFSIZE - 1)%nat then l :: fitting ls' else []
  end.

Lemma lines_of_kept kept : forall data cur, NEWLINE ∉ kept -> lines_of (kept ++ data) cur = lines_of data (cur ++ kept).
Proof.
  induction kept as [|b kept IH]; intros data cur Hn; [by rewrite app_nil_r|]. apply not_elem_of_cons in Hn as [Hb Hn].
  cbn [lines_of app]. destruct (Z.eqb_spec b NEWLINE); [done|]. rewrite IH by done. by rewrite <- app_assoc.
Qed.

Lemma lines_of_closed l data : NEWLINE ∉ l -> lines_of (closed l ++ data) [] = l :: lines_of data [].
Proof. intros Hl. unfold closed. rewrite <- app_assoc, lines_of_kept by done. cbn [lines_of app]. by rewrite Z.eqb_refl. Qed.

Lemma lines_of_all ls data : Forall (fun l => NEWLINE ∉ l) ls -> lines_of (concat (closed <$> ls) ++ data) [] = ls ++ lines_of data [].
Proof.
  induction 1 as [|l ls Hl _ IH]; [done|]. cbn [fmap list_fmap concat app]. rewrite <- app_assoc, lines_of_closed by done. by rewrite IH.
Qed.

(** The first line of the rest is not shorter than its beginning. *)
Lemma lines_of_head data : forall cur l ls, lines_of data cur = l :: ls -> (length cur <= length l)%nat.
Proof.
  induction data as [|b data IH]; intros cur l ls; cbn [lines_of]; [done|]. destruct (b =? NEWLINE); [by intros [= <- _]|].
  intros H. apply IH in H. rewrite length_app in H. simpl in H. lia.
Qed.

Lemma fitting_app ls ls' : Forall (fun l => (length l < BUFSIZE - 1)%nat) ls -> fitting (ls ++ ls') = ls ++ fitting ls'.
Proof. induction 1 as [|l ls Hl _ IH]; [done|]. cbn [fitting app]. rewrite IH. destruct (Nat.ltb_spec (length l) (BUFSIZE - 1)); [done|lia]. Qed.

Lemma scan_lines_spec pattern data : forall cur, NEWLINE ∉ cur -> 0 ∉ data ->
  exists ls rest, scan_lines pattern data cur = (concat (shown pattern <$> ls), rest) /\
    cur ++ data = concat (closed <$> ls) ++ rest /\ NEWLINE ∉ rest /\ Forall (fun l => NEWLINE ∉ l) ls.
Proof.
  induction data as [|b data IH]; intros cur Hc Hz; cbn [scan_lines].
  - exists [], cur. by rewrite app_nil_r.
  - apply not_elem_of_cons in Hz as [Hb Hz]. destruct (Z.eqb_spec b 0); [congruence|]. destruct (Z.eqb_spec b NEWLINE) as [->|Hn].
    + destruct (IH [] ltac:(apply not_elem_of_nil) Hz) as (ls & rest & E & Hd & Hr & Hl). rewrite E. exists (cur :: ls), rest. simpl app in Hd.
      split_and!; [done| |done|by constructor]. cbn [fmap list_fmap concat]. unfold closed at 1. rewrite <- !app_assoc. cbn [app]. by rewrite Hd.
    + destruct (IH (cur ++ [b])) as (ls & rest & E & Hd & Hr & Hl); [|done|].
      { rewrite elem_of_app, list_elem_of_singleton. intros [?|?]; congruence. }
      exists ls, rest. split_and!; [done| |done|done]. by rewrite <- Hd, <- app_assoc.
Qed.

Lemma closed_length ls l : l ∈ ls -> (length l < length (concat (closed <$> ls)))%nat.
Proof.
  induction 1 as [l ls|l l' ls _ IH]; cbn [fmap list_fmap concat]; rewrite length_app; [unfold closed; rewrite length_app; simpl; lia|lia].
Qed.

Section lines.
Context (rd : list Z -> nat -> nat).
(** [read] returns at least a byte while there is input and space, and never
    more than either. *)
Hypothesis rd_most : forall input n, (rd input n <= n /\ rd input n <= length input)%nat.
Hypothesis rd_some : forall input n, input <> [] -> (0 < n)%nat -> (0 < rd input n)%nat.

(** What has been consumed of [whole]: complete short lines and the kept
    beginning of the next one. *)
Definition grep_inv (pattern whole : list Z) (x : list Z * list Z * list Z) : Prop :=
  let '(kept, input, out) := x in
  exists ls, whole = concat (closed <$> ls) ++ kept ++ input /\ out = concat (shown pattern <$> ls) /\
    Forall (fun l => NEWLINE ∉ l) ls /\ Forall (fun l => (length l < BUFSIZE - 1)%nat) ls /\ NEWLINE ∉ kept /\ (length kept < BUFSIZE)%nat.

(** C33: grep is a filter on lines.  For every input without NUL bytes and
    however [read] splits it, [grep] ends, and its output is the lines that
    match the pattern, in order and each with its newline, up to the first
    line that is longer than 1022 bytes; a last line without newline is not
    looked at. *)
Theorem grep_filters_lines pattern input : 0 ∉ input ->
  grep rd pattern input tt = Ok (concat (shown pattern <$> fitting (lines_of input []))) tt.
Proof.
  intros Hz. assert (Hw : wp (grep rd pattern input) (fun out _ => out = concat (shown pattern <$> fitting (lines_of input []))) tt).
  { unfold grep. apply (wp_loop (fun x _ => grep_inv pattern input x) (fun x => length (snd (fst x)))); [| |simpl; lia].
    - intros [[kept rest] out] [] (ls & Hwhole & Hout & Hnl & Hshort & Hk & Hlen). unfold grep_body. set (n := rd rest (BUFSIZE - length kept - 1)).
      destruct (rd_most rest (BUFSIZE - length kept - 1)) as [Hn1 Hn2]. fold n in Hn1, Hn2. destruct (Nat.ltb_spec 0 n) as [Hpos|Hzero].
      + assert (Hzk : 0 ∉ kept ++ take n rest).
        { intros H. apply Hz. rewrite Hwhole. rewrite !elem_of_app in *. destruct H as [H|H]; [auto|]. right. right. rewrite <- (take_drop n rest), elem_of_app. by left. }
        destruct (scan_lines_spec pattern (kept ++ take n rest) [] ltac:(apply not_elem_of_nil) Hzk) as (ls' & rest' & E & Hd & Hr & Hl). simpl app in Hd.
        rewrite E. wp_go. simpl. rewrite length_drop. split; [|lia].
        assert (Htot : (length (concat (closed <$> ls')) + length rest' <= BUFSIZE - 1)%nat).
        { rewrite <- length_app, <- Hd, length_app, length_take. lia. }
        exists (ls ++ ls'). rewrite !fmap_app, !concat_app. split_and!.
        * rewrite Hwhole, <- (take_drop n rest) at 1. rewrite (app_assoc kept), Hd. by rewrite <- !app_assoc.
        * by rewrite Hout.
        * by apply Forall_app.
        * apply Forall_app. split; [done|]. apply Forall_forall. intros l Hin. pose proof (closed_length ls' l Hin). unfold BUFSIZE in *. lia.
        * done.
        * unfold BUFSIZE in *. lia.
      + wp_go. subst out. f_equal. f_equal. rewrite Hwhole, lines_of_all by done. rewrite fitting_app by done.
        assert (Hend : fitting (lines_of (kept ++ rest) []) = []); [|by rewrite Hend, app_nil_r].
        rewrite lines_of_kept by done. simpl app. destruct rest as [|b rest]; [done|].
        assert (Hfull : (BUFSIZE - length kept - 1 = 0)%nat).
        { destruct (BUFSIZE - length kept - 1)%nat eqn:Em; [done|]. pose proof (rd_some (b :: rest) (S n0) ltac:(done) ltac:(lia)). unfold n in Hzero. lia. }
        destruct (lines_of (b :: rest) kept) as [|l ls'] eqn:El; [done|]. apply lines_of_head in El. cbn [fitting].
        destruct (Nat.ltb_spec (length l) (BUFSIZE - 1)); [lia|done].
    - exists []. simpl. by split_and!; [| |constructor|constructor|apply not_elem_of_nil|unfold BUFSIZE; lia]. }
  destruct (wp_Ok _ _ _ Hw) as (out & [] & E & ->). exact E.
Qed.
End lines.

(** A pattern, and an input read one byte at a time. *)
Module GrepDemo.
Definition hello : list Z := [104; 101; 108; 108; 111].
Definition one_byte (input : list Z) (n : nat) : nat := (n `min` 1 `min` length input)%nat.

Lemma match_decides_patterns_example : match_ [94; 104; 46; 108; 42; 111; 36] hello = true /\ match_ [94; 101] hello = false.
Proof. by vm_compute. Qed.

Lemma grep_filters_lines_witness : grep one_byte [108; 108] (hello ++ [10; 97; 10] ++ hello ++ [10; 108; 108]) tt = Ok (hello ++ [10] ++ hello ++ [10]) tt.
Proof.
  apply (grep_filters_lines one_byte); [unfold one_byte; lia| |vm_compute; set_solver].
  intros [|b input] n Hi Hn; [done|]. unfold one_byte. simpl. lia.
Defined.
End GrepDemo.
