(* ===== verification/Shell.v ===== *)
(** * The shell (src/user/sh/sh.c)

    Reading a line with its editing keys, and parsing it.  The line is a list
    of bytes, a pointer into it is an index.  The parser is a computation
    whose state is the pointer [*ps]; [panic] of the shell, which ends it, is
    the outcome [Panic].  The argument vector of a command is filled while
    redirections are wrapped around the command, so [parseredirs] returns the
    list of redirections, innermost first, and [wrap] builds the nodes. *)

From S2P Require Import Prelude.

Definition bytes_of (s : string) : list Z := (fun a => Z.of_N (Ascii.N_of_ascii a)) <$> String.list_ascii_of_string s.

Definition MAXARGS : nat := 10.
Definition O_RDONLY : Z := 0.
Definition O_WRONLY : Z := 1.
Definition O_CREATE : Z := 0x200.
Definition O_TRUNC : Z := 0x400.

(** ** Commands *)

Record redir := Redirection { rd_file : nat; rd_efile : nat; rd_mode : Z; rd_fd : Z }.

Inductive cmd :=
| EXEC (argv : list (nat * nat))   (** argv and eargv *)
| REDIR (c : cmd) (r : redir)
| PIPE (left right : cmd)
| LIST (left right : cmd)
| BACK (c : cmd).

Definition wrap (rs : list redir) (c : cmd) : cmd := foldl REDIR c rs.

(** [whitespace] and [symbols]; [strchr] does not find NUL. *)
Definition is_space (c : Z) : bool := existsb (Z.eqb c) [32; 9; 13; 10; 11].
Definition is_symbol (c : Z) : bool := existsb (Z.eqb c) (bytes_of "<|>&;()").
Definition word_char (c : Z) : bool := negb (is_space c) && negb (is_symbol c).

(** ** Tokens *)

Section parse.
Context (buf : list Z) (es : nat).
Abbreviation PM := (M nat).
Abbreviation at_ i := (buf !!! (i : nat)).

(** [while (s < es && p)], at most [n] times. *)
Fixpoint skip (p : Z -> bool) (n s : nat) : nat :=
  match n with
  | O => s
  | S n' => if p (at_ s) then skip p n' (S s) else s
  end.
Definition skip_while (p : Z -> bool) (s : nat) : nat := skip p (es - s) s.

(** Kind of the token at [s], and its end. *)
Definition token_end (s : nat) : Z * nat :=
  let c := at_ s in
  if c =? 0 then (0, s)
  else if existsb (Z.eqb c) (bytes_of "|();&<") then (c, S s)
  else if c =? 62 then (if at_ (S s) =? 62 then (43, S (S s)) else (c, S s))
  else (97, skip_while word_char s).

Definition gettoken : PM (Z * nat * nat) :=
  s <- get ;;
  let q := skip_while is_space s in
  let '(r, eq) := token_end q in
  modify (fun _ => skip_while is_space eq) ;;
  ret (r, q, eq).

Definition peek (toks : list Z) : PM bool :=
  s <- get ;;
  let s := skip_while is_space s in
  modify (fun _ => s) ;;
  ret (negb (at_ s =? 0) && existsb (Z.eqb (at_ s)) toks).

(** ** Parsing *)

Definition redirection (tok : Z) (q eq : nat) : option redir :=
  if tok =? 60 then Some (Redirection q eq O_RDONLY 0)
  else if tok =? 62 then Some (Redirection q eq (Z.lor (Z.lor O_WRONLY O_CREATE) O_TRUNC) 1)
  else if tok =? 43 then Some (Redirection q eq (Z.lor O_WRONLY O_CREATE) 1)
  else None.

Definition redirs_body (rs : list redir) : PM (list redir + list redir) :=
  b <- peek (bytes_of "<>") ;;
  if (b : bool) then
    t <- gettoken ;;
    let '(tok, _, _) := t in
    f <- gettoken ;;
    let '(kind, q, eq) := f in
    if negb (kind =? 97) then panic "missing file for redirection"
    else ret (inl (rs ++ option_list (redirection tok q eq)))
  else ret (inr rs).
Definition parseredirs (rs : list redir) : PM (list redir) := loop (S es) redirs_body rs.

(** The arguments; [inr] when the loop of [parseexec] ends. *)
Definition exec_body (x : list (nat * nat) * list redir) : PM ((list (nat * nat) * list redir) + cmd) :=
  let '(argv, rs) := x in
  b <- peek (bytes_of "|)&;") ;;
  if (b : bool) then ret (inr (wrap rs (EXEC argv)))
  else
    t <- gettoken ;;
    let '(tok, q, eq) := t in
    if tok =? 0 then ret (inr (wrap rs (EXEC argv)))
    else if negb (tok =? 97) then panic "syntax"
    else
      let argv := argv ++ [(q, eq)] in
      if (MAXARGS <=? length argv)%nat then panic "too many args"
      else rs <- parseredirs rs ;; ret (inl (argv, rs)).

Definition back_body (c : cmd) : PM (cmd + cmd) :=
  b <- peek (bytes_of "&") ;;
  if (b : bool) then gettoken ;; ret (inl (BACK c)) else ret (inr c).

Fixpoint parseline (n : nat) : PM cmd :=
  match n with
  | O => spin
  | S n' =>
      c <- parsepipe n' ;;
      c <- loop (S es) back_body c ;;
      b <- peek (bytes_of ";") ;;
      if (b : bool) then gettoken ;; r <- parseline n' ;; ret (LIST c r) else ret c
  end
with parsepipe (n : nat) : PM cmd :=
  match n with
  | O => spin
  | S n' =>
      c <- parseexec n' ;;
      b <- peek (bytes_of "|") ;;
      if (b : bool) then gettoken ;; r <- parsepipe n' ;; ret (PIPE c r) else ret c
  end
with parseexec (n : nat) : PM cmd :=
  match n with
  | O => spin
  | S n' =>
      b <- peek (bytes_of "(") ;;
      if (b : bool) then parseblock n'
      else rs <- parseredirs [] ;; loop (S es) exec_body ([], rs)
  end
with parseblock (n : nat) : PM cmd :=
  match n with
  | O => spin
  | S n' =>
      b <- peek (bytes_of "(") ;;
      if negb b then panic "parseblock"
      else
        gettoken ;;
        c <- parseline n' ;;
        b <- peek (bytes_of ")") ;;
        if negb b then panic "syntax - missing )"
        else gettoken ;; rs <- parseredirs [] ;; ret (wrap rs c)
  end.

(** Each level of the grammar below a bracket, a bar or a semicolon takes at
    most four calls. *)
Definition parse_fuel : nat := 4 * es + 4.
End parse.

(** The bytes that the command points to are closed by NULs. *)
Fixpoint nulterminate (c : cmd) (buf : list Z) : list Z :=
  match c with
  | EXEC argv => foldl (fun b x => <[snd x := 0]> b) buf argv
  | REDIR c r => <[rd_efile r := 0]> (nulterminate c buf)
  | PIPE l r => nulterminate r (nulterminate l buf)
  | LIST l r => nulterminate r (nulterminate l buf)
  | BACK c => nulterminate c buf
  end.

(** The string at an index, up to its NUL. *)
Fixpoint c_string (buf : list Z) : list Z :=
  match buf with
  | [] => []
  | c :: buf' => if c =? 0 then [] else c :: c_string buf'
  end.

Definition parsecmd (buf : list Z) : M nat (cmd * list Z) :=
  let es := length (c_string buf) in
  c <- parseline buf es (parse_fuel es) ;;
  peek buf es [] ;;
  s <- get ;;
  if negb (s =? es)%nat then panic "syntax"
  else ret (c, nulterminate c buf).

(** ** Line editing *)

(** What [read(0, &c, 1)] does: a byte, an error, or a SIGINT while it waits,
    whose handler sets [input_interrupted]; the end of the input when no event
    is left. *)
Inductive input := Byte (c : Z) | Interrupted | Failed.

(** The buffer of [nbuf] bytes, the position, the history, the input, the
    output on descriptor 2 and [input_interrupted]. *)
Record editor := Editor { e_buf : list Z; e_pos : nat; e_history : list Z; e_input : list input; e_out : list Z; e_interrupted : bool }.
Definition set_pos (i : nat) (e : editor) : editor := Editor (e_buf e) i (e_history e) (e_input e) (e_out e) (e_interrupted e).
Definition set_ebuf (b : list Z) (e : editor) : editor := Editor b (e_pos e) (e_history e) (e_input e) (e_out e) (e_interrupted e).
Abbreviation EM := (M editor).

Definition emit (l : list Z) : EM unit := modify (fun e => Editor (e_buf e) (e_pos e) (e_history e) (e_input e) (e_out e ++ l) (e_interrupted e)).
(** [buf[i] = c]; a store behind the array is not defined behaviour. *)
Definition store (i : nat) (c : Z) : EM unit :=
  e <- get ;;
  if (i <? length (e_buf e))%nat then modify (set_ebuf (<[i := c]> (e_buf e))) else panic "store behind the buffer".
Definition push (c : Z) : EM unit := i <- gets e_pos ;; store i c ;; modify (set_pos (S i)).
Definition next : EM (option input) :=
  e <- get ;;
  match e_input e with
  | [] => ret None
  | x :: l =>
      let signal := match x with Interrupted => true | _ => false end in
      modify (fun e => Editor (e_buf e) (e_pos e) (e_history e) l (e_out e) (e_interrupted e || signal)) ;;
      ret (Some x)
  end.

Definition rubout : list Z := [8; 32; 8].
Definition erase_visible_chars (n : nat) : EM unit := emit (concat (replicate n rubout)).
Definition erase_line : EM unit :=
  i <- gets e_pos ;; erase_visible_chars i ;; modify (set_pos 0) ;; store 0 0.

(** [memmove] of a string to position [start]. *)
Fixpoint store_all (start : nat) (l : list Z) : EM unit :=
  match l with
  | [] => ret tt
  | c :: l' => store start c ;; store_all (S start) l'
  end.

Definition load_history (nbuf : nat) : EM unit :=
  h <- gets e_history ;;
  match h with
  | [] => ret tt
  | _ =>
      erase_line ;;
      let len := (length h `min` (nbuf - 2))%nat in
      store_all 0 (take len h) ;;
      store len 0 ;;
      modify (set_pos len) ;;
      emit (take len h)
  end.

Definition HISTORY : nat := 100.
(** [while (len > 0 && buf[len - 1] == ' ') len--], on the reversed line. *)
Fixpoint drop_spaces (l : list Z) : list Z :=
  match l with
  | c :: l' => if c =? 32 then drop_spaces l' else l
  | [] => []
  end.
Definition save_history (line history : list Z) : list Z :=
  let l := reverse line in
  let l := match l with c :: l' => if c =? 10 then l' else l | [] => [] end in
  let l := reverse (drop_spaces l) in
  match l with [] => history | _ => take (HISTORY - 1) l end.

(** The start of the word before the cursor. *)
Fixpoint word_start (n : nat) (buf : list Z) : nat :=
  match n with
  | O => O
  | S n' => if buf !!! n' =? 32 then n else word_start n' buf
  end.

Fixpoint is_prefix (p l : list Z) : bool :=
  match p, l with
  | [], _ => true
  | c :: p', d :: l' => (c =? d) && is_prefix p' l'
  | _, _ => false
  end.

(** The names of the current directory, in its order; [None] when it cannot
    be opened. *)
Definition matching (names : list (list Z)) (prefix : list Z) : list (list Z) :=
  take 32 (filter (fun n => negb (bool_decide (n = bytes_of ".")) && negb (bool_decide (n = bytes_of "..")) && is_prefix prefix n = true) names).

Definition complete_word (names : option (list (list Z))) : EM unit :=
  e <- get ;;
  let start := word_start (e_pos e) (e_buf e) in
  let prefix := take (e_pos e - start) (drop start (e_buf e)) in
  match names with
  | None => ret tt
  | Some names =>
      match matching names prefix with
      | [] => ret tt
      | [name] =>
          erase_visible_chars (length prefix) ;;
          emit name ;;
          store_all start name ;;
          modify (set_pos (start + length name)) ;;
          store (start + length name) 0
      | ms =>
          emit [10] ;;
          emit (concat ((fun m => m ++ bytes_of "  ") <$> ms)) ;;
          emit (10 :: bytes_of "$ ") ;;
          b <- gets e_buf ;;
          emit (c_string b)
      end
  end.

(** One byte of the loop of [getcmd]; [inr] is its result. *)
Definition getcmd_key (nbuf : nat) (names : option (list (list Z))) (c : Z) : EM (unit + Z) :=
  let again := ret (inl tt) in
  i <- gets e_pos ;;
  if c =? 10 then push 10 ;; i <- gets e_pos ;; store i 0 ;; ret (inr 0)
  else if c =? 4 then (if (i =? 0)%nat then ret (inr (-1)) else again)
  else if c =? 27 then
    a <- next ;;
    match a with
    | Some (Byte a) =>
        b <- next ;;
        match b with
        | Some (Byte b) =>
            when (((a =? 91) || (a =? 79)) && (b =? 65)) (erase_visible_chars 2 ;; load_history nbuf) ;; again
        | _ => again
        end
    | _ => again
    end
  else if c =? 91 then
    a <- next ;;
    match a with
    | Some (Byte a) =>
        if a =? 65 then erase_visible_chars 2 ;; load_history nbuf ;; again
        else when (i <? nbuf - 2)%nat (push 91 ;; push a) ;; again
    | _ => again
    end
  else if c =? 21 then erase_line ;; again
  else if (c =? 127) || (c =? 8) then when (0 <? i)%nat (modify (set_pos (i - 1)) ;; emit rubout) ;; again
  else if c =? 9 then
    b <- gets e_buf ;;
    when ((0 <? i)%nat && (word_start i b <? i)%nat) (complete_word names) ;; again
  else when (i <? nbuf - 2)%nat (push c) ;; again.

Definition getcmd_body (nbuf : nat) (names : option (list (list Z))) (_ : unit) : EM (unit + Z) :=
  x <- next ;;
  stop <- gets e_interrupted ;;
  if (stop : bool) then store 0 0 ;; ret (inr 1)
  else
    match x with
    | Some (Byte c) => getcmd_key nbuf names c
    | Some _ => store 0 0 ;; ret (inr 1)
    | None => i <- gets e_pos ;; store i 0 ;; ret (inr (-1))
    end.
Definition getcmd (nbuf : nat) (names : option (list (list Z))) : EM Z :=
  emit (bytes_of "$ ") ;;
  modify (fun e => Editor (replicate nbuf 0) 0 (e_history e) (e_input e) (e_out e) false) ;;
  n <- gets (fun e => length (e_input e)) ;;
  loop (S n) (getcmd_body nbuf names) tt.
