(* ===== verification/ShellProps.v ===== *)
(** * Parsing a command line

    Every tree of commands can be written as a line that the parser of the
    shell reads back as that tree, with NUL-terminated words. *)

From S2P Require Import Prelude Shell.

(** ** Command trees and their text *)

Inductive direction := From | To | Append.
Inductive command :=
| CExec (words : list (list Z))
| CRedir (c : command) (d : direction) (file : list Z)
| CPipe (l r : command)
| CList (l r : command)
| CBack (c : command).

Definition is_word (w : list Z) : Prop := w <> [] /\ Forall (fun c => word_char c = true /\ c <> 0) w.

(** Words are words, and there are fewer than [MAXARGS] arguments. *)
Fixpoint wf (t : command) : Prop :=
  match t with
  | CExec ws => Forall is_word ws /\ (length ws < MAXARGS)%nat
  | CRedir c _ f => wf c /\ is_word f
  | CPipe l r | CList l r => wf l /\ wf r
  | CBack c => wf c
  end.

Definition show_words (ws : list (list Z)) : list Z := concat ((fun w => 32 :: w) <$> ws).
Definition arrow (d : direction) : list Z := match d with From => [60] | To => [62] | Append => [62; 62] end.
Definition show_redir (x : direction * list Z) : list Z := 32 :: arrow (fst x) ++ 32 :: snd x.
Definition show_redirs (rs : list (direction * list Z)) : list Z := concat (show_redir <$> rs).

(** The level of the grammar that yields a node: 0 for [parseexec], 1 for
    [parsepipe], 2 and 3 for the two halves of [parseline]. *)
Definition level (t : command) : nat :=
  match t with CExec _ | CRedir _ _ _ => 0 | CPipe _ _ => 1 | CBack _ => 2 | CList _ _ => 3 end.
Definition bracket (k : nat) (t : command) (l : list Z) : list Z := if (level t <=? k)%nat then l else 40 :: l ++ [41].
Fixpoint natural (t : command) : list Z :=
  match t with
  | CExec ws => show_words ws
  | CRedir c d f => bracket 0 c (natural c) ++ show_redir (d, f)
  | CPipe l r => bracket 0 l (natural l) ++ [124] ++ bracket 1 r (natural r)
  | CBack c => bracket 2 c (natural c) ++ [38]
  | CList l r => bracket 2 l (natural l) ++ [59] ++ natural r
  end.
Definition show (k : nat) (t : command) : list Z := bracket k t (natural t).

Definition cwrap (rs : list (direction * list Z)) (t : command) : command := foldl (fun c x => CRedir c (fst x) (snd x)) t rs.
Definition cback (k : nat) (t : command) : command := Nat.iter k CBack t.

(** ** The text ahead *)

Fixpoint dropw (p : Z -> bool) (l : list Z) : list Z :=
  match l with
  | c :: l' => if p c then dropw p l' else l
  | [] => []
  end.
Definition trim : list Z -> list Z := dropw is_space.

Lemma dropw_length p l : (length (dropw p l) <= length l)%nat.
Proof. induction l as [|c l IH]; simpl; [done|]. case_match; simpl; lia. Qed.
Lemma trim_trim l : trim (trim l) = trim l.
Proof. induction l as [|c l IH]; [done|]. unfold trim in *. simpl. destruct (is_space c) eqn:E; [done|]. simpl. by rewrite E. Qed.
Lemma trim_space l : trim (32 :: l) = trim l.
Proof. done. Qed.
Lemma trim_cons c l : is_space c = false -> trim (c :: l) = c :: l.
Proof. intros H. unfold trim. simpl. by rewrite H. Qed.
Lemma trim_cong c l l' : trim l = trim l' -> trim (c :: l) = trim (c :: l') \/ is_space c = false.
Proof. intros H. destruct (is_space c) eqn:E; [left|by right]. unfold trim in *. simpl. by rewrite E. Qed.

(** ** Tokens and trees *)

Inductive token := Sym (c : Z) | Word (x : nat * nat).
#[export] Instance token_eq_dec : EqDecision token.
Proof. solve_decision. Defined.

(** The tokens of a text: words with their first and last positions, and
    symbols, where two arrows make the symbol 43.  [st] is the start of the
    word that is being read, [off] the position of the text. *)
Definition close (st : option nat) (off : nat) : list token :=
  match st with Some q => [Word (q, off)] | None => [] end.
Fixpoint lex (off : nat) (st : option nat) (l : list Z) : list token :=
  match l with
  | [] => close st off
  | c :: l' =>
      if word_char c then lex (S off) (Some (default off st)) l'
      else close st off ++
        (if is_space c then lex (S off) None l'
         else match l' with
              | [] => [Sym c]
              | d :: l'' => if (c =? 62) && (d =? 62) then Sym 43 :: lex (S (S off)) None l'' else Sym c :: lex (S off) None l'
              end)
  end.

Definition rd_token (r : redir) : Z :=
  if rd_mode r =? O_RDONLY then 60 else if rd_mode r =? Z.lor (Z.lor O_WRONLY O_CREATE) O_TRUNC then 62 else 43.
Definition rd_span (r : redir) : nat * nat := (rd_file r, rd_efile r).

(** The tokens that a tree stands for, brackets apart. *)
Definition rtoks (rs : list redir) : list token := concat ((fun r => [Sym (rd_token r); Word (rd_span r)]) <$> rs).
Fixpoint ctoks (c : cmd) : list token :=
  match c with
  | EXEC argv => Word <$> argv
  | REDIR c r => Sym (rd_token r) :: Word (rd_span r) :: ctoks c
  | PIPE l r => Sym 124 :: ctoks l ++ ctoks r
  | LIST l r => Sym 59 :: ctoks l ++ ctoks r
  | BACK c => Sym 38 :: ctoks c
  end.
(** All the words of a tree, with the files of its redirections. *)
Fixpoint spans (c : cmd) : list (nat * nat) :=
  match c with
  | EXEC argv => argv
  | REDIR c r => rd_span r :: spans c
  | PIPE l r | LIST l r => spans l ++ spans r
  | BACK c => spans c
  end.
(** Arguments stand in the order of the line, and what is left of a bar or a
    semicolon in front of what is right of it. *)
Fixpoint in_order (c : cmd) : Prop :=
  match c with
  | EXEC argv => forall i j x y, argv !! i = Some x -> argv !! j = Some y -> (i < j)%nat -> (snd x <= fst y)%nat
  | REDIR c _ | BACK c => in_order c
  | PIPE l r | LIST l r => in_order l /\ in_order r /\ forall x y, x ∈ spans l -> y ∈ spans r -> (snd x <= fst y)%nat
  end.

Definition words (l : list token) : list (nat * nat) := omap (fun t => match t with Word x => Some x | Sym _ => None end) l.
(** Behind a bracket or an ampersand the parser may leave something over. *)
Definition breaks (l : list token) : Prop := Sym 40 ∈ l \/ Sym 41 ∈ l \/ Sym 38 ∈ l.
(** The messages with which a line of tokens [l] may be rejected. *)
Definition rejects (l : list token) (e : string) : Prop :=
  (e = "missing file for redirection"%string /\ (Sym 60 ∈ l \/ Sym 62 ∈ l \/ Sym 43 ∈ l)) \/
  (e = "too many args"%string /\ (MAXARGS <= length (words l))%nat) \/
  (e = "syntax - missing )"%string /\ Sym 40 ∈ l) \/
  (e = "syntax"%string /\ breaks l).

(** How often a token occurs. *)
Definition cnt (t : token) (l : list token) : nat := count_occ token_eq_dec l t.
Lemma cnt_app t l l' : cnt t (l ++ l') = (cnt t l + cnt t l')%nat.
Proof. apply count_occ_app. Qed.
Lemma cnt_cons t x l : cnt t (x :: l) = (cnt t [x] + cnt t l)%nat.
Proof. apply (cnt_app t [x] l). Qed.
Lemma cnt_self t : cnt t [t] = 1%nat.
Proof. unfold cnt. simpl. by destruct (token_eq_dec t t). Qed.
Lemma cnt_in t l : t ∈ l <-> (0 < cnt t l)%nat.
Proof. rewrite list_elem_of_In. apply count_occ_In. Qed.

Lemma cnt_submseteq l : forall l', (forall t, cnt t l <= cnt t l')%nat -> l ⊆+ l'.
Proof.
  induction l as [|x l IH]; intros l' H; [apply submseteq_nil_l|].
  assert (Hx : x ∈ l') by (apply cnt_in; specialize (H x); rewrite cnt_cons, cnt_self in H; lia).
  apply list_elem_of_split in Hx as (l1 & l2 & ->). rewrite <- Permutation_middle. apply submseteq_skip, IH. intros t. specialize (H t).
  rewrite cnt_cons, cnt_app, (cnt_cons t x l2) in H. rewrite cnt_app. lia.
Qed.

Lemma words_cnt l l' : (forall t, cnt t l <= cnt t l')%nat -> (length (words l) <= length (words l'))%nat.
Proof.
  intros H%cnt_submseteq. apply submseteq_Permutation in H as [k H]. unfold words. rewrite H, omap_app, length_app. lia.
Qed.
Lemma words_of argv : words (Word <$> argv) = argv.
Proof. induction argv as [|x l IH]; [done|]. change (words (Word <$> x :: l)) with (x :: words (Word <$> l)). by rewrite IH. Qed.

Lemma cnt_rtoks_app t rs rs' : cnt t (rtoks (rs ++ rs')) = (cnt t (rtoks rs) + cnt t (rtoks rs'))%nat.
Proof. unfold rtoks. by rewrite fmap_app, concat_app, cnt_app. Qed.
Lemma cnt_wrap t rs : forall c, cnt t (ctoks (wrap rs c)) = (cnt t (rtoks rs) + cnt t (ctoks c))%nat.
Proof.
  unfold wrap. induction rs as [|r rs IH]; intros c; [done|]. cbn [foldl]. rewrite IH. cbn [ctoks]. change (rtoks (r :: rs)) with (Sym (rd_token r) :: Word (rd_span r) :: rtoks rs).
  assert (H : forall l, cnt t (Sym (rd_token r) :: Word (rd_span r) :: l) = (cnt t [Sym (rd_token r); Word (rd_span r)] + cnt t l)%nat)
    by (intros l; exact (cnt_app t [_; _] l)).
  rewrite (H (ctoks c)), (H (rtoks rs)). lia.
Qed.
Lemma spans_wrap rs : forall c x, x ∈ spans (wrap rs c) <-> x ∈ (rd_span <$> rs) \/ x ∈ spans c.
Proof.
  unfold wrap. induction rs as [|r rs IH]; intros c x; cbn [foldl fmap list_fmap]; [rewrite elem_of_nil; tauto|]. rewrite IH. cbn [spans]. rewrite !elem_of_cons. tauto.
Qed.
Lemma in_order_wrap rs : forall c, in_order (wrap rs c) <-> in_order c.
Proof. unfold wrap. induction rs as [|r rs IH]; intros c; [done|]. cbn [foldl]. by rewrite IH. Qed.

Section props.
Context (text junk : list Z).
Hypothesis text_nz : 0 ∉ text.
Abbreviation buf := (text ++ 0 :: junk).
Abbreviation es := (length text).

(** The parser is at [s], before the text [l] up to leading white space. *)
Definition on (s : nat) (l : list Z) : Prop := (s <= es)%nat /\ trim (drop s text) = trim l.

Lemma at_text s c l : drop s text = c :: l -> buf !!! s = c /\ c <> 0 /\ (s < es)%nat /\ drop (S s) text = l.
Proof.
  intros H. assert (Hs : text !! s = Some c) by (rewrite <- (Nat.add_0_r s), <- lookup_drop, H; done).
  pose proof (lookup_lt_Some _ _ _ Hs) as Hlt. split_and!; [|intros ->; by apply text_nz, list_elem_of_lookup; eauto|done|].
  - rewrite lookup_total_app_l by done. by apply list_lookup_total_correct.
  - replace (S s) with (s + 1)%nat by lia. rewrite <- drop_drop, H. done.
Qed.

Lemma at_end s : s = es -> buf !!! s = 0.
Proof. intros ->. rewrite lookup_total_app_r by done. by rewrite Nat.sub_diag. Qed.

Lemma drop_nil s : (s <= es)%nat -> drop s text = [] -> s = es.
Proof. intros Hs H. pose proof (length_drop text s) as E. rewrite H in E. simpl in E. lia. Qed.

Lemma skip_spec p : forall n s, (s + n = es)%nat -> let s' := skip buf p n s in
  (s <= s' <= es)%nat /\ drop s' text = dropw p (drop s text).
Proof.
  induction n as [|n IH]; intros s Hn; cbn [skip].
  - assert (s = es) as -> by lia. rewrite drop_ge by lia. by split; [lia|].
  - destruct (drop s text) as [|c l] eqn:E; [apply drop_nil in E; lia|]. destruct (at_text s c l E) as (-> & _ & Hlt & Hd). cbn [dropw].
    destruct (p c) eqn:Ep; [|by split; [lia|]]. destruct (IH (S s)) as [H1 H2]; [lia|]. rewrite Hd in H2. split; [lia|done].
Qed.

Lemma skip_while_spec p s : (s <= es)%nat -> let s' := skip_while buf es p s in
  (s <= s' <= es)%nat /\ drop s' text = dropw p (drop s text).
Proof. intros Hs. apply skip_spec. lia. Qed.

(** [peek] answers whether the next byte is one of [toks]. *)
Definition ahead (toks l : list Z) : bool := match trim l with c :: _ => existsb (Z.eqb c) toks | [] => false end.

Lemma shell_peek_wp toks s l (Q : bool -> nat -> Prop) : on s l ->
  (forall s', (s <= s')%nat -> on s' l -> Q (ahead toks l) s') -> wp (peek buf es toks) Q s.
Proof.
  intros [Hs Hl] HQ. unfold peek. wp_go. destruct (skip_while_spec is_space s Hs) as [H1 H2]. fold trim in H2.
  set (s' := skip_while buf es is_space s) in *. rewrite Hl in H2.
  assert (Ha : negb (buf !!! s' =? 0) && existsb (Z.eqb (buf !!! s')) toks = ahead toks l).
  { unfold ahead. rewrite <- H2. destruct (drop s' text) as [|c r] eqn:E.
    - rewrite at_end by (apply drop_nil; [lia|done]). done.
    - destruct (at_text s' c r E) as (-> & Hc & _). by rewrite (proj2 (Z.eqb_neq c 0) Hc). }
  rewrite Ha. apply HQ; [lia|]. split; [lia|]. by rewrite H2, trim_trim.
Qed.

(** ** Tokens *)

(** [(q, eq)] delimits the word [w] of the text. *)
Definition points (x : nat * nat) (w : list Z) : Prop :=
  is_word w /\ drop (fst x) text = w ++ drop (snd x) text /\ snd x = (fst x + length w)%nat /\ (snd x <= es)%nat /\
  match drop (snd x) text with c :: _ => word_char c = false | [] => True end.

Definition ends_word (r : list Z) : Prop := match r with c :: _ => word_char c = false | [] => True end.

Lemma dropw_word w r : Forall (fun c => word_char c = true /\ c <> 0) w -> ends_word r -> dropw word_char (w ++ r) = r.
Proof.
  induction 1 as [|c w [Hc _] _ IH]; intros Hr; simpl; [destruct r as [|c r]; [done|]; simpl in *; by rewrite Hr|]. rewrite Hc. by apply IH.
Qed.

Lemma word_kind c : word_char c = true -> c <> 0 -> (c =? 0) = false /\ existsb (Z.eqb c) (bytes_of "|();&<") = false /\ (c =? 62) = false /\ is_space c = false.
Proof.
  unfold word_char, is_symbol. change (bytes_of "<|>&;()") with [60; 124; 62; 38; 59; 40; 41]. change (bytes_of "|();&<") with [124; 40; 41; 59; 38; 60].
  intros H Hz. apply andb_true_iff in H as [H1 H2]. apply negb_true_iff in H1, H2. simpl in *. rewrite !orb_false_iff in *.
  destruct H2 as (? & ? & ? & ? & ? & ? & ? & ?). split_and!; try done. by apply Z.eqb_neq.
Qed.

Lemma gettoken_word s l w r (Q : Z * nat * nat -> nat -> Prop) : on s l -> trim l = w ++ r -> is_word w -> ends_word r ->
  (forall x s', (s < s')%nat -> on s' r -> points x w -> Q (97, fst x, snd x) s') -> wp (gettoken buf es) Q s.
Proof.
  intros [Hs Hl] Hw Hword Hr HQ. unfold gettoken. wp_step. wp_step. destruct (skip_while_spec is_space s Hs) as [H1 H2]. fold trim in H2.
  set (q := skip_while buf es is_space s) in *. rewrite Hl, Hw in H2. pose proof Hword as [Hne Hall]. destruct w as [|c w]; [done|].
  pose proof Hall as Hall'. inversion Hall' as [|? ? [Hc Hz] Hall2]; subst. destruct (at_text q c (w ++ r) H2) as (E1 & _ & Hq & Hd).
  destruct (word_kind c Hc Hz) as (K1 & K2 & K3 & K4). unfold token_end. rewrite E1, K1, K2, K3.
  destruct (skip_while_spec word_char q ltac:(lia)) as [H3 H4]. set (eq := skip_while buf es word_char q) in *. rewrite H2 in H4.
  change (c :: w ++ r) with ((c :: w) ++ r) in H4. rewrite dropw_word in H4 by done.
  assert (Hlen : eq = (q + length (c :: w))%nat).
  { pose proof (length_drop text q) as L1. pose proof (length_drop text eq) as L2. rewrite H2 in L1. rewrite H4 in L2.
    change (c :: w ++ r) with ((c :: w) ++ r) in L1. rewrite length_app in L1. lia. }
  cbv zeta. wp_step. wp_step. wp_step. destruct (skip_while_spec is_space eq ltac:(lia)) as [H5 H6]. fold trim in H6.
  apply (HQ (q, eq)); simpl in Hlen |- *; [lia| |].
  - split; [lia|]. by rewrite H6, H4, trim_trim.
  - split; [done|]. simpl. rewrite H4. split_and!; [done|done|lia|exact Hr].
Qed.

Lemma gettoken_symbol s l c r (Q : Z * nat * nat -> nat -> Prop) : on s l -> trim l = c :: r -> existsb (Z.eqb c) (bytes_of "|();&<") = true ->
  (forall q eq s', (s < s')%nat -> on s' r -> Q (c, q, eq) s') -> wp (gettoken buf es) Q s.
Proof.
  intros [Hs Hl] Hw Hc HQ. unfold gettoken. wp_step. wp_step. destruct (skip_while_spec is_space s Hs) as [H1 H2]. fold trim in H2.
  set (q := skip_while buf es is_space s) in *. rewrite Hl, Hw in H2. destruct (at_text q c r H2) as (E1 & Hz & Hq & Hd).
  unfold token_end. rewrite E1, (proj2 (Z.eqb_neq c 0) Hz), Hc. wp_step. wp_step. wp_step.
  destruct (skip_while_spec is_space (S q) ltac:(lia)) as [H5 H6]. fold trim in H6. apply HQ; [lia|]. split; [lia|]. by rewrite H6, Hd, trim_trim.
Qed.

(** The arrow of a redirection. *)
Definition arrow_token (d : direction) : Z := match d with From => 60 | To => 62 | Append => 43 end.
Lemma gettoken_arrow s l d r (Q : Z * nat * nat -> nat -> Prop) : on s l -> trim l = arrow d ++ 32 :: r ->
  (forall q eq s', (s < s')%nat -> on s' r -> Q (arrow_token d, q, eq) s') -> wp (gettoken buf es) Q s.
Proof.
  intros Hon Hw HQ. destruct d; [eapply gettoken_symbol; [exact Hon|exact Hw|done|]; intros q eq s' ? ?; by apply HQ| |].
  all: destruct Hon as [Hs Hl]; unfold gettoken; wp_step; wp_step; destruct (skip_while_spec is_space s Hs) as [H1 H2]; fold trim in H2;
    set (q := skip_while buf es is_space s) in *; rewrite Hl, Hw in H2; destruct (at_text q 62 _ H2) as (E1 & _ & Hq & Hd);
    destruct (at_text (S q) _ _ Hd) as (E2 & _ & Hq2 & Hd2); unfold token_end; rewrite E1, E2; simpl; wp_go.
  - destruct (skip_while_spec is_space (S q) ltac:(lia)) as [H5 H6]. fold trim in H6. apply HQ; [lia|]. split; [lia|]. by rewrite H6, Hd, trim_trim.
  - destruct (skip_while_spec is_space (S (S q)) ltac:(lia)) as [H5 H6]. fold trim in H6. apply HQ; [lia|]. split; [lia|].
    by rewrite H6, Hd2, trim_trim.
Qed.

Lemma gettoken_end s l (Q : Z * nat * nat -> nat -> Prop) : on s l -> trim l = [] ->
  (forall q eq s', (s <= s')%nat -> on s' [] -> Q (0, q, eq) s') -> wp (gettoken buf es) Q s.
Proof.
  intros [Hs Hl] Hw HQ. unfold gettoken. wp_step. wp_step. destruct (skip_while_spec is_space s Hs) as [H1 H2]. fold trim in H2.
  set (q := skip_while buf es is_space s) in *. rewrite Hl, Hw in H2. unfold token_end. rewrite at_end by (apply drop_nil; [lia|done]). simpl. wp_go.
  destruct (skip_while_spec is_space q ltac:(lia)) as [H5 H6]. apply HQ; [lia|]. split; [lia|]. fold trim in H6. by rewrite H6, H2.
Qed.
(** ** Trees read by the parser *)

Definition mode_of (d : direction) : Z :=
  match d with From => O_RDONLY | To => Z.lor (Z.lor O_WRONLY O_CREATE) O_TRUNC | Append => Z.lor O_WRONLY O_CREATE end.
Definition fd_of (d : direction) : Z := match d with From => 0 | _ => 1 end.

Lemma on_same s l l' : on s l -> trim l = trim l' -> on s l'.
Proof. intros [H1 H2] E. split; [done|]. by rewrite H2. Qed.

(** A redirection [r] of the tree for [x] of the line. *)
Definition redirects (x : direction * list Z) (r : redir) : Prop :=
  points (rd_file r, rd_efile r) (snd x) /\ rd_mode r = mode_of (fst x) /\ rd_fd r = fd_of (fst x).

Lemma redirs_loop rs : forall n s pre rest, Forall (fun x => is_word (snd x)) rs -> on s (show_redirs rs ++ rest) ->
  ahead (bytes_of "<>") rest = false -> ends_word rest -> (es - s < n)%nat ->
  wp (loop n (redirs_body buf es) pre) (fun out s' => exists rs', out = pre ++ rs' /\ Forall2 redirects rs rs' /\ on s' rest /\ (s <= s')%nat) s.
Proof.
  induction rs as [|[d f] rs IH]; intros [|n] s pre rest Hrs Hon Ha He Hn; try lia; apply wp_loop_S; unfold redirs_body; wp_step.
  - eapply shell_peek_wp; [exact Hon|]. intros s' Hs Hon'. simpl app in *. rewrite Ha. wp_go. exists []. by rewrite app_nil_r.
  - apply Forall_cons in Hrs as [Hf Hrs]. simpl in Hf.
    assert (Htrim : trim (show_redirs ((d, f) :: rs) ++ rest) = arrow d ++ 32 :: f ++ show_redirs rs ++ rest).
    { unfold show_redirs, show_redir. cbn [fmap list_fmap concat fst snd]. rewrite <- !app_assoc. cbn [app]. rewrite <- !app_assoc. by destruct d. }
    eapply shell_peek_wp; [exact Hon|]. intros s1 Hs1 Hon1.
    assert (Hb : ahead (bytes_of "<>") (show_redirs ((d, f) :: rs) ++ rest) = true) by (unfold ahead; rewrite Htrim; by destruct d).
    rewrite Hb. wp_step. eapply gettoken_arrow; [exact Hon1|exact Htrim|]. intros q eq s2 Hs2 Hon2. cbv beta iota. wp_step.
    destruct f as [|c f]; [by destruct Hf|].
    eapply (gettoken_word s2 _ (c :: f) (show_redirs rs ++ rest)); [exact Hon2| |exact Hf| |].
    + destruct Hf as [_ Hall]. inversion Hall as [|? ? [Hc Hz] _]; subst. destruct (word_kind c Hc Hz) as (_ & _ & _ & Hsp). by apply trim_cons.
    + unfold show_redirs. destruct rs as [|[d' f'] rs]; [exact He|done].
    + intros x s3 Hs3 Hon3 Hx. cbv beta iota. change (negb (97 =? 97)) with false. cbv iota. wp_step.
      set (r := Redirection (fst x) (snd x) (mode_of d) (fd_of d)).
      assert (Hr : option_list (redirection (arrow_token d) (fst x) (snd x)) = [r]) by (by destruct d).
      rewrite Hr. eapply wp_mono; [apply (IH n s3 (pre ++ [r]) rest); [done|exact Hon3|done|done|destruct Hon3; lia]|].
      intros out s4 (rs' & -> & H2 & H4 & H5). exists (r :: rs'). rewrite <- app_assoc. split_and!; [done| |done|lia].
      constructor; [|done]. split; [by destruct x|done].
Qed.

Lemma parseredirs_wp rs s pre rest : Forall (fun x => is_word (snd x)) rs -> on s (show_redirs rs ++ rest) ->
  ahead (bytes_of "<>") rest = false -> ends_word rest ->
  wp (parseredirs buf es pre) (fun out s' => exists rs', out = pre ++ rs' /\ Forall2 redirects rs rs' /\ on s' rest /\ (s <= s')%nat) s.
Proof. intros. apply redirs_loop; [done|done|done|done|lia]. Qed.

(** No symbol is ahead of a word. *)
Lemma ahead_word toks c l : forallb is_symbol toks = true -> word_char c = true -> ahead toks (c :: l) = false.
Proof.
  intros Ht Hc. unfold word_char in Hc. apply andb_true_iff in Hc as [Hs Hy]. apply negb_true_iff in Hs, Hy.
  unfold ahead. rewrite trim_cons by done. apply not_true_is_false. rewrite existsb_exists. intros (t & Hin & E). apply Z.eqb_eq in E as ->.
  rewrite forallb_forall in Ht. rewrite Ht in Hy by done. done.
Qed.
Lemma ahead_space toks l : ahead toks (32 :: l) = ahead toks l.
Proof. done. Qed.

(** What can follow a command. *)
Definition closes (toks rest : list Z) : Prop := match trim rest with [] => True | c :: _ => existsb (Z.eqb c) toks = true end.

Lemma closes_sub toks toks' rest : (forall c, existsb (Z.eqb c) toks = true -> existsb (Z.eqb c) toks' = true) -> closes toks rest -> closes toks' rest.
Proof. intros H. unfold closes. destruct (trim rest); auto. Qed.

Lemma closes_exec rest : closes (bytes_of "|)&;") rest ->
  ahead (bytes_of "<>") rest = false /\ ahead (bytes_of "(") rest = false /\ ends_word rest /\ (ahead (bytes_of "|)&;") rest = true \/ trim rest = []).
Proof.
  unfold closes, ahead. change (bytes_of "|)&;") with [124; 41; 38; 59]. change (bytes_of "<>") with [60; 62]. change (bytes_of "(") with [40].
  intros H. destruct (trim rest) as [|c l] eqn:E.
  - split_and!; try done; [|by right]. destruct rest as [|d rest]; [done|]. unfold trim in E. simpl in E. destruct (is_space d) eqn:Es; [|done].
    simpl. unfold word_char. by rewrite Es.
  - assert (Hc : c = 124 \/ c = 41 \/ c = 38 \/ c = 59) by (simpl in H; rewrite !orb_true_iff, !Z.eqb_eq in H; naive_solver).
    split_and!; [by destruct Hc as [->|[->|[->| ->]]]|by destruct Hc as [->|[->|[->| ->]]]| |by left].
    destruct rest as [|d rest]; [done|]. simpl. unfold trim in E. simpl in E. unfold word_char. destruct (is_space d); [done|].
    simplify_eq. by destruct Hc as [->|[->|[->| ->]]].
Qed.

Lemma show_words_ends ws l : ends_word l -> ends_word (show_words ws ++ l).
Proof. by destruct ws. Qed.
Lemma show_redirs_ends rs l : ends_word l -> ends_word (show_redirs rs ++ l).
Proof. by destruct rs as [|[]]. Qed.

Lemma exec_done n s argv rs rest (Q : cmd -> nat -> Prop) : on s rest -> closes (bytes_of "|)&;") rest ->
  (forall s', (s <= s')%nat -> on s' rest -> Q (wrap rs (EXEC argv)) s') -> wp (loop (S n) (exec_body buf es) (argv, rs)) Q s.
Proof.
  intros Hon Hc HQ. apply wp_loop_S. unfold exec_body. wp_step. eapply shell_peek_wp; [exact Hon|]. intros s1 H1 Hon1.
  destruct (closes_exec rest Hc) as (_ & _ & _ & [->|He]); [wp_step; by apply HQ|].
  assert (Ha : ahead (bytes_of "|)&;") rest = false) by (unfold ahead; by rewrite He). rewrite Ha. wp_step.
  eapply gettoken_end; [exact Hon1|exact He|]. intros q eq s2 H2 Hon2. cbv beta iota. change (0 =? 0) with true. cbv iota. wp_step. apply HQ; [lia|].
  eapply on_same; [exact Hon2|done].
Qed.

Lemma exec_words ws : forall w n s argv rs rest, is_word w -> Forall is_word ws -> Forall (fun x => is_word (snd x)) rs ->
  closes (bytes_of "|)&;") rest -> on s (show_words (w :: ws) ++ show_redirs rs ++ rest) -> (es - s < n)%nat ->
  (length argv + S (length ws) < MAXARGS)%nat ->
  wp (loop n (exec_body buf es) (argv, [])) (fun c s' => exists xs rs', c = wrap rs' (EXEC (argv ++ xs)) /\
    Forall2 points xs (w :: ws) /\ Forall2 redirects rs rs' /\ on s' rest /\ (s <= s')%nat) s.
Proof.
  induction ws as [|w' ws IH]; intros w [|n] s argv rs rest Hw Hws Hrs Hc Hon Hn Hmax; try lia; destruct (closes_exec rest Hc) as (C1 & C2 & C3 & C4).
  all: apply wp_loop_S; unfold exec_body at 1; wp_step; eapply shell_peek_wp; [exact Hon|]; intros s1 H1 Hon1.
  all: destruct w as [|c w]; [by destruct Hw|]; pose proof Hw as [_ Hall]; inversion Hall as [|? ? [Hc' Hz] _]; subst;
    destruct (word_kind c Hc' Hz) as (_ & K2 & _ & K4).
  all: unfold show_words; cbn [fmap list_fmap concat app]; rewrite ahead_space, ahead_word by done; wp_step.
  - eapply (gettoken_word s1 _ (c :: w) (show_redirs rs ++ rest)); [exact Hon1| |exact Hw|by apply show_redirs_ends|].
    { unfold show_words. cbn [fmap list_fmap concat app]. rewrite app_nil_r. by rewrite trim_space, trim_cons. }
    intros x s2 H2 Hon2 Hx. cbv beta iota. change (97 =? 0) with false. change (negb (97 =? 97)) with false. cbv iota.
    rewrite length_app. cbn [length]. destruct (Nat.leb_spec MAXARGS (length argv + 1)); [simpl in Hmax; lia|].
    wp_step. eapply wp_mono; [apply (parseredirs_wp rs s2 [] rest); [done|exact Hon2|exact C1|exact C3]|].
    intros out s3 (rs' & -> & H3 & Hon3 & H4). wp_step. destruct n as [|n]; [destruct Hon2; lia|].
    eapply exec_done; [exact Hon3|exact Hc|]. intros s4 H5 Hon4. exists [x], rs'. split_and!; [by destruct x| |done|done|lia].
    constructor; [done|constructor].
  - inversion_clear Hws as [|? ? Hw' Hws'].
    eapply (gettoken_word s1 _ (c :: w) (show_words (w' :: ws) ++ show_redirs rs ++ rest)); [exact Hon1| |exact Hw|done|].
    { unfold show_words. cbn [fmap list_fmap concat]. change ((32 :: c :: w) ++ ?l) with (32 :: (c :: w) ++ l). rewrite <- app_comm_cons.
      rewrite trim_space. rewrite <- app_assoc. by rewrite <- app_comm_cons, trim_cons. }
    intros x s2 H2 Hon2 Hx. cbv beta iota. change (97 =? 0) with false. change (negb (97 =? 97)) with false. cbv iota.
    rewrite length_app. cbn [length] in *. destruct (Nat.leb_spec MAXARGS (length argv + 1)); [lia|].
    destruct w' as [|c' w']; [by destruct Hw'|]. pose proof Hw' as [_ Hall']. inversion Hall' as [|? ? [Hc2 Hz2] _]; subst.
    destruct (word_kind c' Hc2 Hz2) as (_ & K5 & K6 & K7).
    wp_step. eapply wp_mono; [apply (parseredirs_wp [] s2 [] (show_words ((c' :: w') :: ws) ++ show_redirs rs ++ rest)); [constructor|exact Hon2| |done]|].
    { unfold show_words. cbn [fmap list_fmap concat app]. by rewrite ahead_space, ahead_word. }
    intros out s3 (rs' & -> & H3 & Hon3 & H4). inversion H3; subst. wp_step. simpl app.
    eapply wp_mono; [apply (IH (c' :: w') n s3 (argv ++ [(fst x, snd x)]) rs rest); [done|done|done|done|exact Hon3|destruct Hon2; lia|rewrite length_app; simpl; lia]|].
    intros c2 s4 (xs & rs' & -> & H5 & H6 & Hon4 & H7). exists (x :: xs), rs'. rewrite <- app_assoc. split_and!; [by destruct x| |done|done|lia].
    by constructor.
Qed.
(** The tree [c] for the command [t]; [word] says what a pair of pointers
    stands for. *)
Inductive stands (word : nat * nat -> list Z -> Prop) : cmd -> command -> Prop :=
| st_exec argv ws : Forall2 word argv ws -> stands word (EXEC argv) (CExec ws)
| st_redir c t r d f : stands word c t -> word (rd_file r, rd_efile r) f -> rd_mode r = mode_of d -> rd_fd r = fd_of d ->
    stands word (REDIR c r) (CRedir t d f)
| st_pipe l l' r r' : stands word l l' -> stands word r r' -> stands word (PIPE l r) (CPipe l' r')
| st_list l l' r r' : stands word l l' -> stands word r r' -> stands word (LIST l r) (CList l' r')
| st_back c t : stands word c t -> stands word (BACK c) (CBack t).

Lemma stands_wrap rs rs' : Forall2 redirects rs rs' -> forall c t, stands points c t -> stands points (wrap rs' c) (cwrap rs t).
Proof.
  induction 1 as [|[d f] r rs rs' (H1 & H2 & H3) _ IH]; intros c t Hst; [done|]. unfold wrap, cwrap in *. cbn [foldl fst snd]. apply IH. by constructor.
Qed.

Definition reads (m : M nat cmd) (s : nat) (t : command) (rest : list Z) : Prop :=
  wp m (fun c s' => stands points c t /\ on s' rest /\ (s <= s')%nat) s.

(** ** The levels of the grammar *)

Definition exec_reads (t : command) : Prop := forall n s rs rest, Forall (fun x => is_word (snd x)) rs -> closes (bytes_of "|)&;") rest ->
  on s (show 0 t ++ show_redirs rs ++ rest) -> (4 * (es - s) + 2 <= n)%nat -> reads (parseexec buf es n) s (cwrap rs t) rest.
Definition pipe_reads (t : command) : Prop := forall n s rest, closes (bytes_of ")&;") rest ->
  on s (show 1 t ++ rest) -> (4 * (es - s) + 3 <= n)%nat -> reads (parsepipe buf es n) s t rest.
Definition back_reads (t : command) : Prop := forall n s k rest, closes (bytes_of ");") rest ->
  on s (show 2 t ++ replicate k 38 ++ rest) -> (4 * (es - s) + 3 <= n)%nat ->
  reads (c <- parsepipe buf es n ;; loop (S es) (back_body buf es) c) s (cback k t) rest.
Definition line_reads (t : command) : Prop := forall n s rest, closes (bytes_of ")") rest ->
  on s (natural t ++ rest) -> (4 * (es - s) + 4 <= n)%nat -> reads (parseline buf es n) s t rest.

Lemma ahead_symbol toks c l : is_space c = false -> ahead toks (c :: l) = existsb (Z.eqb c) toks.
Proof. intros H. unfold ahead. by rewrite trim_cons. Qed.

(** A token of the list that is not ahead because another one is, or none. *)
Lemma not_ahead toks toks' rest : closes toks rest -> forallb (fun c => negb (existsb (Z.eqb c) toks')) toks = true -> ahead toks' rest = false.
Proof.
  unfold closes, ahead. intros H Hf. destruct (trim rest) as [|c l]; [done|]. apply existsb_exists in H as (t & Hin & E). apply Z.eqb_eq in E as ->.
  rewrite forallb_forall in Hf. specialize (Hf t Hin). by apply negb_true_iff in Hf.
Qed.

Lemma closes_weaken toks toks' rest : closes toks rest -> forallb (fun c => existsb (Z.eqb c) toks') toks = true -> closes toks' rest.
Proof.
  intros H Hf. eapply closes_sub; [|exact H]. intros c (t & Hin & E)%existsb_exists. apply Z.eqb_eq in E as ->. rewrite forallb_forall in Hf. by apply Hf.
Qed.

Lemma closes_cons toks c l : is_space c = false -> existsb (Z.eqb c) toks = true -> closes toks (c :: l).
Proof. intros H1 H2. unfold closes. by rewrite trim_cons. Qed.

Lemma show_level k t : (level t <= k)%nat -> show k t = natural t.
Proof. intros H. unfold show, bracket. by rewrite (proj2 (Nat.leb_le _ _) H). Qed.
Lemma show_bracket k t : (k < level t)%nat -> show k t = 40 :: natural t ++ [41].
Proof. intros H. unfold show, bracket. destruct (Nat.leb_spec (level t) k); [lia|done]. Qed.

Lemma pipe_of_exec t : exec_reads t -> show 1 t = show 0 t -> pipe_reads t.
Proof.
  intros HE Hs [|n] s rest Hc Hon Hn; [lia|]. unfold reads. cbn [parsepipe]. wp_step. rewrite Hs in Hon.
  eapply wp_mono; [apply (HE n s [] rest); [constructor|eapply closes_weaken; [exact Hc|done]|exact Hon|lia]|].
  intros c s1 (Hst & Hon1 & H1). wp_step. eapply shell_peek_wp; [exact Hon1|]. intros s2 H2 Hon2. rewrite (not_ahead (bytes_of ")&;")) by done. wp_step.
  split_and!; [done|done|lia].
Qed.

Lemma back_loop k : forall n s c t rest, stands points c t -> closes (bytes_of ");") rest -> on s (replicate k 38 ++ rest) -> (es - s < n)%nat ->
  reads (loop n (back_body buf es) c) s (cback k t) rest.
Proof.
  induction k as [|k IH]; intros [|n] s c t rest Hst Hc Hon Hn; try lia; unfold reads; apply wp_loop_S; unfold back_body at 1; wp_step;
    eapply shell_peek_wp; try exact Hon; intros s1 H1 Hon1.
  - simpl app. rewrite (not_ahead (bytes_of ");")) by done. wp_step. done.
  - change (replicate (S k) 38 ++ rest) with (38 :: replicate k 38 ++ rest) in *. rewrite ahead_symbol by done. simpl existsb. cbv iota.
    wp_step. eapply gettoken_symbol; [exact Hon1|by apply trim_cons|done|]. intros q eq s2 H2 Hon2. wp_step.
    eapply wp_mono; [apply (IH n s2 (BACK c) (CBack t) rest); [by constructor|done|exact Hon2|destruct Hon2; lia]|].
    intros c' s3 (Hst' & Hon3 & H3). unfold cback in *. rewrite <- Nat.iter_succ_r in Hst'. split_and!; [exact Hst'|done|lia].
Qed.

Lemma back_of_pipe t : pipe_reads t -> show 2 t = show 1 t -> back_reads t.
Proof.
  intros HP Hs n s k rest Hc Hon Hn. unfold reads. wp_step. rewrite Hs in Hon.
  eapply wp_mono; [apply (HP n s (replicate k 38 ++ rest)); [|exact Hon|lia]|].
  - destruct k; [eapply closes_weaken; [exact Hc|done]|by apply closes_cons].
  - intros c s1 (Hst & Hon1 & H1). eapply wp_mono; [apply (back_loop k (S es) s1 c t rest); [done|done|done|lia]|].
    intros c' s2 (Hst' & Hon2 & H2). split_and!; [done|done|lia].
Qed.

Lemma line_of_back t : back_reads t -> show 2 t = natural t -> line_reads t.
Proof.
  intros HB Hs [|n] s rest Hc Hon Hn; [lia|]. unfold reads. cbn [parseline].
  pose proof (HB n s 0%nat rest ltac:(eapply closes_weaken; [exact Hc|done]) ltac:(rewrite Hs; exact Hon) ltac:(lia)) as H. unfold reads in H. apply wp_bind_inv in H.
  wp_step. eapply wp_mono; [exact H|]. intros c s1 H'. cbv beta in *. wp_step. eapply wp_mono; [exact H'|]. intros c' s2 (Hst & Hon2 & H2). cbv beta.
  wp_step. eapply shell_peek_wp; [exact Hon2|]. intros s3 H3 Hon3. rewrite (not_ahead (bytes_of ")")) by done. wp_step. split_and!; [done|done|lia].
Qed.

Lemma exec_of_line t : line_reads t -> (0 < level t)%nat -> exec_reads t.
Proof.
  intros HL Hlv [|[|n]] s rs rest Hrs Hc Hon Hn; try lia. destruct (closes_exec rest Hc) as (C1 & C2 & C3 & C4). rewrite show_bracket in Hon by done.
  cbn [app] in Hon. rewrite <- app_assoc in Hon. cbn [app] in Hon. unfold reads. cbn [parseexec]. wp_step. eapply shell_peek_wp; [exact Hon|]. intros s1 H1 Hon1.
  rewrite ahead_symbol by done. simpl existsb. cbv iota. cbn [parseblock]. wp_step. eapply shell_peek_wp; [exact Hon1|]. intros s2 H2 Hon2.
  rewrite ahead_symbol by done. simpl existsb. simpl negb. cbv iota. wp_step. eapply gettoken_symbol; [exact Hon2|by apply trim_cons|done|].
  intros q eq s3 H3 Hon3. wp_step.
  eapply wp_mono; [apply (HL n s3 (41 :: show_redirs rs ++ rest)); [by apply closes_cons|exact Hon3|destruct Hon3; lia]|].
  intros c s4 (Hst & Hon4 & H4). wp_step. eapply shell_peek_wp; [exact Hon4|]. intros s5 H5 Hon5. rewrite ahead_symbol by done. simpl existsb. simpl negb. cbv iota.
  wp_step. eapply gettoken_symbol; [exact Hon5|by apply trim_cons|done|]. intros q' eq' s6 H6 Hon6. wp_step.
  eapply wp_mono; [apply (parseredirs_wp rs s6 [] rest); [done|exact Hon6|exact C1|exact C3]|]. intros out s7 (rs' & -> & H7 & Hon7 & H8). wp_step.
  split_and!; [by apply stands_wrap|done|lia].
Qed.

Lemma exec_simple ws : Forall is_word ws -> (length ws < MAXARGS)%nat -> exec_reads (CExec ws).
Proof.
  intros Hws Hlen [|n] s rs rest Hrs Hc Hon Hn; [lia|]. destruct (closes_exec rest Hc) as (C1 & C2 & C3 & C4). unfold reads. cbn [parseexec].
  rewrite show_level in Hon by done. cbn [natural] in Hon. wp_step. eapply shell_peek_wp; [exact Hon|]. intros s1 H1 Hon1. destruct ws as [|w ws].
  - simpl app in *.
    assert (Ha : ahead (bytes_of "(") (show_redirs rs ++ rest) = false) by (destruct rs as [|[[] f] rs]; [done|done|done|done]). rewrite Ha. wp_step.
    eapply wp_mono; [apply (parseredirs_wp rs s1 [] rest); [done|exact Hon1|exact C1|exact C3]|]. intros out s2 (rs' & -> & H2 & Hon2 & H3).
    eapply exec_done; [exact Hon2|done|]. intros s3 H4 Hon3. split_and!; [|done|lia]. apply stands_wrap; [done|]. by constructor.
  - inversion_clear Hws as [|? ? Hw Hws']. destruct w as [|c w]; [by destruct Hw|]. pose proof Hw as [_ Hall]. inversion Hall as [|? ? [Hc' Hz] _]; subst.
    assert (Ha : forall toks, forallb is_symbol toks = true -> ahead toks (show_words ((c :: w) :: ws) ++ show_redirs rs ++ rest) = false).
    { intros toks Ht. unfold show_words. cbn [fmap list_fmap concat app]. by rewrite ahead_space, ahead_word. }
    rewrite Ha by done. wp_step.
    eapply wp_mono; [apply (parseredirs_wp [] s1 [] (show_words ((c :: w) :: ws) ++ show_redirs rs ++ rest)); [constructor|exact Hon1|by apply Ha|done]|].
    intros out s2 (rs' & -> & H2 & Hon2 & H3). inversion H2; subst.
    eapply wp_mono; [apply (exec_words ws (c :: w) (S es) s2 [] rs rest); [done|done|done|done|exact Hon2|lia|exact Hlen]|].
    intros c2 s3 (xs & rs' & -> & H4 & H5 & Hon3 & H6). split_and!; [|done|lia]. apply stands_wrap; [done|]. by constructor.
Qed.

Lemma all_read t : wf t -> exec_reads t /\ pipe_reads t /\ back_reads t /\ line_reads t.
Proof.
  induction t as [ws|a IH d f|l IHl r IHr|l IHl r IHr|a IH]; intros Hwf; cbn [wf] in Hwf.
  - destruct Hwf as [H1 H2]. pose proof (exec_simple ws H1 H2) as HE. pose proof (pipe_of_exec _ HE eq_refl) as HP.
    pose proof (back_of_pipe _ HP eq_refl) as HB. split_and!; [done|done|done|by apply line_of_back].
  - destruct Hwf as [H1 H2]. destruct (IH H1) as (HE & _).
    assert (HE' : exec_reads (CRedir a d f)).
    { intros n s rs rest Hrs Hc Hon Hn. apply (HE n s ((d, f) :: rs) rest); [by constructor|done| |done].
      rewrite show_level in Hon by done. cbn [natural] in Hon. fold (show 0 a) in Hon. unfold show_redirs in *. cbn [fmap list_fmap concat].
      rewrite <- !app_assoc in Hon. by rewrite <- !app_assoc. }
    pose proof (pipe_of_exec _ HE' eq_refl) as HP. pose proof (back_of_pipe _ HP eq_refl) as HB. split_and!; [done|done|done|by apply line_of_back].
  - destruct Hwf as [H1 H2]. destruct (IHl H1) as (HE & _). destruct (IHr H2) as (_ & HPr & _).
    assert (HP : pipe_reads (CPipe l r)).
    { intros [|n] s rest Hc Hon Hn; [lia|]. rewrite show_level in Hon by done. cbn [natural] in Hon. fold (show 0 l) (show 1 r) in Hon.
      rewrite <- !app_assoc in Hon. cbn [app] in Hon. unfold reads. cbn [parsepipe]. wp_step.
      eapply wp_mono; [apply (HE n s [] (124 :: show 1 r ++ rest)); [constructor|by apply closes_cons|exact Hon|lia]|].
      intros c s1 (Hst & Hon1 & H3). wp_step. eapply shell_peek_wp; [exact Hon1|]. intros s2 H4 Hon2. rewrite ahead_symbol by done. simpl existsb. cbv iota.
      wp_step. eapply gettoken_symbol; [exact Hon2|by apply trim_cons|done|]. intros q eq s3 H5 Hon3. wp_step.
      eapply wp_mono; [apply (HPr n s3 rest); [done|exact Hon3|destruct Hon3; lia]|]. intros c' s4 (Hst' & Hon4 & H6). wp_step.
      split_and!; [by constructor|done|lia]. }
    pose proof (back_of_pipe _ HP eq_refl) as HB. pose proof (line_of_back _ HB eq_refl) as HL. split_and!; [apply exec_of_line; [done|simpl; lia]|done|done|done].
  - destruct Hwf as [H1 H2]. destruct (IHl H1) as (_ & _ & HB & _). destruct (IHr H2) as (_ & _ & _ & HLr).
    assert (HL : line_reads (CList l r)).
    { intros [|n] s rest Hc Hon Hn; [lia|]. cbn [natural] in Hon. fold (show 2 l) in Hon. rewrite <- !app_assoc in Hon. cbn [app] in Hon.
      unfold reads. cbn [parseline].
      pose proof (HB n s 0%nat (59 :: natural r ++ rest) ltac:(by apply closes_cons) Hon ltac:(lia)) as H. unfold reads in H. apply wp_bind_inv in H.
      wp_step. eapply wp_mono; [exact H|]. intros c s1 H'. cbv beta in *. wp_step. eapply wp_mono; [exact H'|]. intros c' s2 (Hst & Hon2 & H3). cbv beta.
      wp_step. eapply shell_peek_wp; [exact Hon2|]. intros s3 H4 Hon3. rewrite ahead_symbol by done. simpl existsb. cbv iota.
      wp_step. eapply gettoken_symbol; [exact Hon3|by apply trim_cons|done|]. intros q eq s4 H5 Hon4. wp_step.
      eapply wp_mono; [apply (HLr n s4 rest); [done|exact Hon4|destruct Hon4; lia]|]. intros c2 s5 (Hst' & Hon5 & H6). wp_step.
      split_and!; [by constructor|done|lia]. }
    assert (HE : exec_reads (CList l r)) by (apply exec_of_line; [done|simpl; lia]). pose proof (pipe_of_exec _ HE eq_refl) as HP.
    split_and!; [done|done|by apply back_of_pipe|done].
  - destruct (IH Hwf) as (_ & _ & HBa & _).
    assert (HB : back_reads (CBack a)).
    { intros n s k rest Hc Hon Hn. rewrite show_level in Hon by done. cbn [natural] in Hon. fold (show 2 a) in Hon. rewrite <- app_assoc in Hon.
      pose proof (HBa n s (S k) rest Hc Hon Hn) as H. unfold cback in *. by rewrite Nat.iter_succ_r in H. }
    pose proof (line_of_back _ HB eq_refl) as HL. assert (HE : exec_reads (CBack a)) by (apply exec_of_line; [done|simpl; lia]).
    split_and!; [done|by apply pipe_of_exec|done|done].
Qed.
(** ** NUL-terminated words *)

Fixpoint ptrs (c : cmd) : list (nat * nat) :=
  match c with
  | EXEC argv => argv
  | REDIR c r => ptrs c ++ [(rd_file r, rd_efile r)]
  | PIPE l r | LIST l r => ptrs l ++ ptrs r
  | BACK c => ptrs c
  end.
Definition zero_at (b : list Z) (x : nat * nat) : list Z := <[snd x := 0]> b.

Lemma nulterminate_ptrs c : forall b, nulterminate c b = foldl zero_at b (ptrs c).
Proof.
  induction c as [argv|c IH r|l IHl r IHr|l IHl r IHr|c IH]; intros b; cbn [nulterminate ptrs]; [done|rewrite foldl_app; simpl; by rewrite IH|..|done].
  all: rewrite foldl_app, IHr; by rewrite IHl.
Qed.

Lemma zeroed_lookup xs : forall b i, (i < length b)%nat ->
  foldl zero_at b xs !! i = if bool_decide (i ∈ snd <$> xs) then Some 0 else b !! i.
Proof.
  induction xs as [|x xs IH]; intros b i Hi; cbn [foldl fmap list_fmap]; [done|].
  rewrite IH by (unfold zero_at; by rewrite length_insert). unfold zero_at.
  destruct (decide (i ∈ snd <$> xs)) as [H|H].
  - rewrite !bool_decide_eq_true_2; [done|by right|done].
  - rewrite (bool_decide_eq_false_2 (i ∈ snd <$> xs)) by done. destruct (decide (i = snd x)) as [->|Hne].
    + rewrite bool_decide_eq_true_2 by left. by apply list_lookup_insert_eq.
    + rewrite bool_decide_eq_false_2 by (rewrite elem_of_cons; intros [?|?]; done). by apply list_lookup_insert_ne.
Qed.

Lemma stands_mono (W W' : nat * nat -> list Z -> Prop) c t : stands W c t -> (forall x w, x ∈ ptrs c -> W x w -> W' x w) -> stands W' c t.
Proof.
  induction 1 as [argv ws H|c t r d f H IH Hw Hm Hf|l l' r r' H1 IH1 H2 IH2|l l' r r' H1 IH1 H2 IH2|c t H IH]; intros Hi; cbn [ptrs] in Hi.
  - constructor. induction H as [|x w argv ws Hx H IH]; constructor; [apply Hi; [left|done]|]. apply IH. intros y v Hy. apply Hi. by right.
  - constructor; [|by apply Hi; [apply elem_of_app; right; left|]|done|done]. apply IH. intros x w Hx. apply Hi, elem_of_app. by left.
  - constructor; [apply IH1|apply IH2]; intros x w Hx; apply Hi, elem_of_app; [by left|by right].
  - constructor; [apply IH1|apply IH2]; intros x w Hx; apply Hi, elem_of_app; [by left|by right].
  - constructor. by apply IH.
Qed.

Lemma stands_ptrs W c t : stands W c t -> forall x, x ∈ ptrs c -> exists w, W x w.
Proof.
  induction 1 as [argv ws H|c t r d f H IH Hw Hm Hf|l l' r r' H1 IH1 H2 IH2|l l' r r' H1 IH1 H2 IH2|c t H IH]; intros x Hx; cbn [ptrs] in Hx.
  - apply list_elem_of_lookup in Hx as [i Hi]. destruct (Forall2_lookup_l _ _ _ _ _ H Hi) as (w & _ & Hw). by exists w.
  - apply elem_of_app in Hx as [Hx|Hx%list_elem_of_singleton]; [by apply IH|]. subst. by exists f.
  - apply elem_of_app in Hx as [Hx|Hx]; auto.
  - apply elem_of_app in Hx as [Hx|Hx]; auto.
  - auto.
Qed.

Lemma c_string_app w l : Forall (fun c => c <> 0) w -> c_string (w ++ 0 :: l) = w.
Proof. induction 1 as [|c w Hc _ IH]; [done|]. cbn [c_string app]. rewrite (proj2 (Z.eqb_neq c 0) Hc). by rewrite IH. Qed.

(** A word keeps its bytes and gets its NUL, whatever other words get theirs. *)
Lemma zeroed_word xs x w : (forall y, y ∈ xs -> exists v, points y v) -> x ∈ xs -> points x w ->
  c_string (drop (fst x) (foldl zero_at buf xs)) = w.
Proof.
  intros Hall Hin (Hw & Hd & He & Hes & Hend). destruct x as [q eq]. cbn [fst snd] in *. set (b := foldl zero_at buf xs).
  assert (Hlen : forall i, (i <= es)%nat -> (i < length buf)%nat) by (intros i Hi; rewrite length_app; simpl; lia).
  assert (Heq : b !! eq = Some 0).
  { unfold b. rewrite zeroed_lookup by (apply Hlen; lia). rewrite bool_decide_eq_true_2; [done|]. apply list_elem_of_fmap. by exists (q, eq). }
  assert (Hk : forall k c, w !! k = Some c -> b !! (q + k)%nat = Some c).
  { intros k c Hk. pose proof (lookup_lt_Some _ _ _ Hk) as Hlt.
    assert (Ht : text !! (q + k)%nat = Some c) by (rewrite <- lookup_drop, Hd, lookup_app_l by done; done).
    unfold b. rewrite zeroed_lookup by (apply Hlen; lia). rewrite bool_decide_eq_false_2; [by rewrite lookup_app_l by (apply lookup_lt_Some in Ht; done)|].
    intros ([q' e'] & Ee & Hy)%list_elem_of_fmap. cbn [snd] in Ee. destruct (Hall _ Hy) as (v & _ & _ & _ & _ & Hend'). cbn [snd] in Hend'. rewrite <- Ee in Hend'.
    rewrite (drop_S _ _ _ Ht) in Hend'. destruct Hw as [_ Hwc]. pose proof (Forall_lookup_1 _ _ _ _ Hwc Hk) as [Hc _]. congruence. }
  assert (Hdrop : drop q b = w ++ 0 :: drop (S eq) b).
  { apply list_eq. intros i. rewrite lookup_drop. destruct (decide (i < length w)%nat) as [Hi|Hi].
    - destruct (lookup_lt_is_Some_2 w i Hi) as [c Hc]. rewrite lookup_app_l, Hc by done. by apply Hk.
    - rewrite lookup_app_r by lia. destruct (decide (i = length w)) as [->|Hne]; [rewrite Nat.sub_diag, <- He; done|].
      destruct (i - length w)%nat as [|j] eqn:Ej; [lia|]. simpl. rewrite lookup_drop. f_equal. lia. }
  rewrite Hdrop. apply c_string_app. eapply Forall_impl; [exact (proj2 Hw)|]. by intros c [_ ?].
Qed.
(** ** Every line is parsed or rejected *)

(** The tokens of the text from [s] on. *)
Definition T (s : nat) : list token := lex s None (drop s text).

Lemma T_end s : (s <= es)%nat -> drop s text = [] -> T s = [].
Proof. intros _ H. unfold T. by rewrite H. Qed.

Lemma T_skip_spaces n : forall s, (s + n = es)%nat -> T (skip buf is_space n s) = T s.
Proof.
  induction n as [|n IH]; intros s Hn; cbn [skip]; [done|]. destruct (drop s text) as [|c l] eqn:E; [apply drop_nil in E; lia|].
  destruct (at_text s c l E) as (-> & _ & _ & Hd). destruct (is_space c) eqn:Es; [|done]. rewrite IH by lia. unfold T. rewrite E, Hd. cbn [lex].
  unfold word_char. by rewrite Es.
Qed.

Lemma T_skip_word q n : forall s, (s + n = es)%nat ->
  lex s (Some q) (drop s text) = Word (q, skip buf word_char n s) :: T (skip buf word_char n s).
Proof.
  induction n as [|n IH]; intros s Hn; cbn [skip].
  - assert (E : drop s text = []) by (apply drop_ge; lia). unfold T. by rewrite E.
  - destruct (drop s text) as [|c l] eqn:E; [apply drop_nil in E; lia|]. destruct (at_text s c l E) as (-> & _ & _ & Hd). cbn [lex].
    destruct (word_char c) eqn:Ew; [cbn [default from_option]; rewrite <- Hd; apply IH; lia|]. unfold T. rewrite E. cbn [lex]. rewrite Ew. done.
Qed.

(** The kinds that [gettoken] returns. *)
Definition takes (s : nat) (x : Z * nat * nat) (s' : nat) : Prop :=
  let '(r, q, eq) := x in
  (s <= q)%nat /\ (eq <= s' <= es)%nat /\
  ((r = 0 /\ T s = [] /\ T s' = [] /\ (s <= s')%nat) \/
   (r = 97 /\ T s = Word (q, eq) :: T s' /\ (q < eq)%nat) \/
   (r <> 0 /\ r <> 97 /\ T s = Sym r :: T s' /\ (q < eq)%nat)).

Lemma symbol_char c : is_space c = false -> word_char c = false -> existsb (Z.eqb c) (bytes_of "|();&<") = true \/ c = 62.
Proof.
  unfold word_char, is_symbol. intros ->. change (bytes_of "<|>&;()") with [60; 124; 62; 38; 59; 40; 41]. change (bytes_of "|();&<") with [124; 40; 41; 59; 38; 60].
  cbn [existsb negb andb]. intros H%negb_false_iff. destruct (Z.eqb_spec c 62); [by right|]. left. revert H.
  by destruct (c =? 60), (c =? 124), (c =? 38), (c =? 59), (c =? 40), (c =? 41).
Qed.

Lemma T_token q : (q <= es)%nat -> (forall c l, drop q text = c :: l -> is_space c = false) ->
  let '(r, eq) := token_end buf es q in (eq <= es)%nat /\
  ((r = 0 /\ T q = [] /\ eq = q /\ q = es) \/ (r = 97 /\ T q = Word (q, eq) :: T eq /\ (q < eq)%nat) \/ (r <> 0 /\ r <> 97 /\ T q = Sym r :: T eq /\ (q < eq)%nat)).
Proof.
  intros Hq Hsp. unfold token_end. destruct (drop q text) as [|c l] eqn:E.
  - pose proof (drop_nil q Hq E) as Hqe. rewrite at_end by done. split; [lia|]. left. by rewrite T_end.
  - specialize (Hsp c l eq_refl). destruct (at_text q c l E) as (-> & Hz & Hlt & Hd). rewrite (proj2 (Z.eqb_neq c 0) Hz).
    assert (HT : T q = lex q None (c :: l)) by (unfold T; by rewrite E). destruct (word_char c) eqn:Ew.
    + destruct (word_kind c Ew Hz) as (_ & Es & Eg & _). rewrite Es, Eg. destruct (skip_while_spec word_char q Hq) as [H1 H2]. split; [lia|]. right. left.
      rewrite E in H2. cbn [dropw] in H2. rewrite Ew in H2. pose proof (dropw_length word_char l) as Hl. rewrite <- H2, length_drop in Hl.
      pose proof (length_drop text q) as Hl2. rewrite E in Hl2. simpl in Hl2. split; [done|]. split; [|lia].
      pose proof (T_skip_word q (es - q) q ltac:(lia)) as Hw. unfold skip_while. rewrite <- Hw, HT, E. cbn [lex]. by rewrite Ew.
    + rewrite HT. cbn [lex]. rewrite Ew, Hsp. simpl close. simpl app.
      assert (Hone : forall d l', l = d :: l' -> buf !!! S q = d /\ (S q < es)%nat /\ drop (S (S q)) text = l') by (intros d l' ->; by destruct (at_text (S q) d l' Hd) as (? & _ & ? & ?)).
      destruct (symbol_char c Hsp Ew) as [Es| ->].
      * rewrite Es. split; [lia|]. right. right. assert (Hc : c <> 97 /\ (c =? 62) = false).
        { change (bytes_of "|();&<") with [124; 40; 41; 59; 38; 60] in Es. split; [intros ->; done|]. destruct (Z.eqb_spec c 62) as [->|]; done. }
        destruct Hc as [H97 H62]. split; [done|]. split; [done|]. split; [|lia]. rewrite H62. simpl andb. unfold T. rewrite Hd. by destruct l.
      * change (existsb (Z.eqb 62) (bytes_of "|();&<")) with false. change (62 =? 62) with true. cbv iota. simpl andb. destruct l as [|d l].
        -- rewrite at_end by (by apply drop_nil). simpl. split; [lia|]. right. right. split; [done|]. split; [done|]. split; [|lia]. unfold T. by rewrite Hd.
        -- destruct (Hone d l eq_refl) as (-> & H2 & H3). destruct (d =? 62); (split; [lia|]); right; right; (split; [done|]); (split; [done|]); (split; [|lia]); unfold T; [by rewrite H3|by rewrite Hd].
Qed.

Lemma trimmed q s : drop q text = trim (drop s text) -> forall c l, drop q text = c :: l -> is_space c = false.
Proof.
  intros H c l E. rewrite E in H. assert (Hx : trim (c :: l) = c :: l) by (rewrite H; apply trim_trim). unfold trim in Hx. simpl in Hx. destruct (is_space c) eqn:Es; [|done].
  pose proof (dropw_length is_space l) as Hl. rewrite Hx in Hl. simpl in Hl. lia.
Qed.

Lemma gettoken_takes s : (s <= es)%nat -> wp (gettoken buf es) (takes s) s.
Proof.
  intros Hs. unfold gettoken. wp_step. wp_step. destruct (skip_while_spec is_space s Hs) as [H1 H2]. fold trim in H2.
  pose proof (T_skip_spaces (es - s) s ltac:(lia)) as HT. fold (skip_while buf es is_space s) in HT.
  set (q := skip_while buf es is_space s) in *. pose proof (T_token q ltac:(lia) (trimmed q s H2)) as Ht. destruct (token_end buf es q) as [r eq].
  wp_go. destruct Ht as [He Ht]. destruct (skip_while_spec is_space eq ltac:(lia)) as [H3 _].
  pose proof (T_skip_spaces (es - eq) eq ltac:(lia)) as HT2. fold (skip_while buf es is_space eq) in HT2. set (s' := skip_while buf es is_space eq) in *.
  split; [lia|]. split; [lia|]. rewrite <- HT, HT2. destruct Ht as [(-> & H4 & -> & H5)|[(-> & H4 & H5)|(H4 & H5 & H6 & H7)]]; [left|right; left; done|right; right; done].
  split_and!; [done|done| |lia]. by rewrite H4.
Qed.

(** The next token, as [peek] sees it. *)
Definition next_in (toks : list Z) (l : list token) : bool :=
  match l with Sym c :: _ => existsb (Z.eqb (if c =? 43 then 62 else c)) toks | _ => false end.

Lemma peek_looks toks s : (s <= es)%nat -> forallb is_symbol toks = true ->
  wp (peek buf es toks) (fun b s' => (s <= s' <= es)%nat /\ T s' = T s /\ b = next_in toks (T s) /\ (T s = [] -> s' = es)) s.
Proof.
  intros Hs Hto. unfold peek. wp_go. destruct (skip_while_spec is_space s Hs) as [H1 H2]. fold trim in H2.
  pose proof (T_skip_spaces (es - s) s ltac:(lia)) as HT. fold (skip_while buf es is_space s) in HT. set (q := skip_while buf es is_space s) in *.
  assert (He : T q = [] -> q = es).
  { intros Hq. pose proof (T_token q ltac:(lia) (trimmed q s H2)) as Ht. destruct (token_end buf es q) as [r eq]. destruct Ht as [_ [(_ & _ & _ & H)|[(_ & H & _)|(_ & _ & H & _)]]]; [done|congruence|congruence]. }
  split; [lia|]. split; [done|]. rewrite <- HT. split; [|exact He]. clear He. destruct (drop q text) as [|c l] eqn:E.
  - rewrite at_end by (apply drop_nil; [lia|done]). rewrite T_end by (lia || done). done.
  - pose proof (trimmed q s ltac:(by rewrite E) c l E) as Hsp. destruct (at_text q c l E) as (-> & Hz & _). rewrite (proj2 (Z.eqb_neq c 0) Hz). simpl negb. simpl andb.
    unfold T. rewrite E. cbn [lex]. destruct (word_char c) eqn:Ew.
    + destruct (existsb (Z.eqb c) toks) eqn:Ex.
      * apply existsb_exists in Ex as (d & Hd & ->%Z.eqb_eq). rewrite forallb_forall in Hto. specialize (Hto d Hd). unfold word_char in Ew. by rewrite Hto, andb_false_r in Ew.
      * pose proof (T_skip_word q (es - S q) (S q)) as Hw. destruct (at_text q c l E) as (_ & _ & Hlt & Hd). cbn [default from_option]. rewrite <- Hd, Hw by lia. done.
    + rewrite Hsp. simpl close. simpl app. assert (Hc : c <> 43) by (intros ->; done).
      destruct l as [|d l]; [|destruct ((c =? 62) && (d =? 62)) eqn:E2]; cbn [next_in]; [by rewrite (proj2 (Z.eqb_neq c 43) Hc)| |by rewrite (proj2 (Z.eqb_neq c 43) Hc)].
      apply andb_true_iff in E2 as [->%Z.eqb_eq _]. done.
Qed.

(** The symbols there are. *)
Lemma token_sym s c l : (s <= es)%nat -> T s = Sym c :: l -> c = 60 \/ c = 124 \/ c = 62 \/ c = 38 \/ c = 59 \/ c = 40 \/ c = 41 \/ c = 43.
Proof.
  intros Hs HT. pose proof (gettoken_takes s Hs) as Hw. apply wp_Ok in Hw as ([[r q] eq] & s' & E & Ht). unfold gettoken, mbind_, get, modify in E. simpl in E.
  destruct (skip_while_spec is_space s Hs) as [H1 H2]. fold trim in H2. set (q0 := skip_while buf es is_space s) in *.
  destruct Ht as (_ & _ & [(_ & H & _)|[(_ & H & _)|(Hz & H97 & H & _)]]); [congruence|congruence|]. assert (r = c) as -> by congruence.
  unfold token_end in E. destruct (buf !!! q0 =? 0); [by unfold mret_ in E; simplify_eq/=|]. destruct (existsb (Z.eqb (buf !!! q0)) (bytes_of "|();&<")) eqn:Ex.
  - unfold mret_ in E. simplify_eq/=. change (bytes_of "|();&<") with [124; 40; 41; 59; 38; 60] in Ex. cbn [existsb] in Ex. rewrite !orb_true_iff, !Z.eqb_eq in Ex.
    destruct Ex as [?|[?|[?|[?|[?|[?|?]]]]]]; tauto || done.
  - unfold mret_ in E. destruct (Z.eqb_spec (buf !!! q0) 62); [|by simplify_eq/=]. destruct (buf !!! S q0 =? 62); simplify_eq/=; tauto.
Qed.

(** The computation ends: with [Q], or with a message that the whole line
    deserves. *)
Definition ends {A} (m : M nat A) (Q : A -> nat -> Prop) (s : nat) : Prop :=
  match m s with Ok a s' => Q a s' | Panic e _ => rejects (T 0) e | Spin => False end.

Lemma ends_bind {A B} (m : M nat A) (f : A -> M nat B) Q s : ends m (fun a s' => ends (f a) Q s') s -> ends (mbind_ m f) Q s.
Proof. unfold ends, mbind_. by destruct (m s). Qed.
Lemma ends_mono {A} (m : M nat A) (Q Q' : A -> nat -> Prop) s : ends m Q s -> (forall a s', Q a s' -> Q' a s') -> ends m Q' s.
Proof. unfold ends. destruct (m s); auto. Qed.
Lemma ends_ret {A} (a : A) (Q : A -> nat -> Prop) s : Q a s -> ends (ret a) Q s.
Proof. done. Qed.
Lemma ends_wp {A} (m : M nat A) Q s : wp m Q s -> ends m Q s.
Proof. unfold wp, ends. by destruct (m s). Qed.

(** The parser at [s] has not used the tokens behind it. *)
Definition live (s : nat) : Prop := (s <= es)%nat /\ forall t, (cnt t (T s) <= cnt t (T 0))%nat.
(** From [s] to [s'] it used the tokens [used]. *)
Definition eats (s s' : nat) (used : list token) : Prop :=
  (s <= s' <= es)%nat /\ forall t, cnt t (T s) = (cnt t used + cnt t (T s'))%nat.

Lemma eats_live s s' used : live s -> eats s s' used -> live s'.
Proof. intros [H1 H2] [H3 H4]. split; [lia|]. intros t. specialize (H2 t). specialize (H4 t). lia. Qed.
Lemma eats_nil s s' : (s <= s' <= es)%nat -> T s' = T s -> eats s s' [].
Proof. intros H1 H2. split; [done|]. intros t. by rewrite H2. Qed.
Lemma eats_trans s s1 s2 u1 u2 : eats s s1 u1 -> eats s1 s2 u2 -> eats s s2 (u1 ++ u2).
Proof. intros [H1 H2] [H3 H4]. split; [lia|]. intros t. rewrite H2, H4, cnt_app. lia. Qed.
Lemma eats_same s s' u u' : eats s s' u -> (forall t, cnt t u = cnt t u') -> eats s s' u'.
Proof. intros [H1 H2] H. split; [done|]. intros t. by rewrite <- H. Qed.
Lemma live_in s t : live s -> t ∈ T s -> t ∈ T 0.
Proof. intros [_ H] Ht. apply cnt_in in Ht. apply cnt_in. specialize (H t). lia. Qed.
Lemma eats_in s s' u t : live s -> eats s s' u -> t ∈ u -> t ∈ T 0.
Proof. intros [_ H] [_ H'] Ht. apply cnt_in in Ht. apply cnt_in. specialize (H t). specialize (H' t). lia. Qed.

Definition within (s s' : nat) (xs : list (nat * nat)) : Prop := forall x, x ∈ xs -> (s <= fst x)%nat /\ (snd x <= s')%nat.
Lemma within_mono s s' r r' xs : within s s' xs -> (r <= s)%nat -> (s' <= r')%nat -> within r r' xs.
Proof. intros H H1 H2 x Hx. specialize (H x Hx). lia. Qed.
Lemma within_app s s' xs ys : within s s' xs -> within s s' ys -> within s s' (xs ++ ys).
Proof. intros H1 H2 x [H|H]%elem_of_app; auto. Qed.

Lemma peek_ends toks s : live s -> forallb is_symbol toks = true ->
  ends (peek buf es toks) (fun b s' => live s' /\ eats s s' [] /\ T s' = T s /\ b = next_in toks (T s) /\ (T s = [] -> s' = es)) s.
Proof.
  intros Hs Hto. apply ends_wp. eapply wp_mono; [apply peek_looks; [apply Hs|done]|]. intros b s' (H1 & H2 & -> & H3).
  assert (He : eats s s' []) by (by apply eats_nil). split_and!; [by eapply eats_live|done|done|done|done].
Qed.

Lemma gettoken_ends s : live s -> ends (gettoken buf es) (fun x s' => takes s x s') s.
Proof. intros Hs. apply ends_wp, gettoken_takes, Hs. Qed.

(** A token that is there. *)
Lemma take_sym s c l r q eq s' : live s -> T s = Sym c :: l -> takes s (r, q, eq) s' -> c <> 97 -> c <> 0 ->
  r = c /\ eats s s' [Sym c] /\ live s' /\ (s < s')%nat.
Proof.
  intros Hs HT (H1 & H2 & H) Hc Hz. destruct H as [(-> & H3 & _)|[(-> & H3 & H4)|(H3 & H4 & H5 & H6)]]; [congruence|rewrite HT in H3; discriminate|].
  rewrite HT in H5. injection H5 as -> ->. assert (He : eats s s' [Sym r]) by (split; [lia|]; intros t; by rewrite HT, cnt_cons). split_and!; [done|done|by eapply eats_live|lia].
Qed.
Lemma take_word s q eq s' : live s -> takes s (97, q, eq) s' -> eats s s' [Word (q, eq)] /\ live s' /\ (s < s')%nat /\ within s s' [(q, eq)] /\ (eq <= s')%nat.
Proof.
  intros Hs (H1 & H2 & H). destruct H as [(H & _)|[(_ & H3 & H4)|(_ & H & _)]]; [done| |done].
  assert (He : eats s s' [Word (q, eq)]) by (split; [lia|]; intros t; by rewrite H3, cnt_cons). split_and!; [done|by eapply eats_live|lia| |lia].
  intros x ->%list_elem_of_singleton. simpl. lia.
Qed.

(** What stands behind a command that is not in brackets. *)
Definition stops (toks : list Z) (s : nat) : Prop :=
  match T s with [] => True | Sym c :: _ => c ∈ toks | Word _ :: _ => False end.
Lemma stops_in toks c l s : stops toks s -> T s = Sym c :: l -> c ∈ toks.
Proof. unfold stops. intros H E. by rewrite E in H. Qed.

Definition arrow_next (s : nat) : bool := next_in (bytes_of "<>") (T s).

Lemma arrow_sym s : live s -> arrow_next s = true -> exists c l, T s = Sym c :: l /\ (c = 60 \/ c = 62 \/ c = 43).
Proof.
  unfold arrow_next, next_in. destruct (T s) as [|[c|x] l]; [done| |done]. intros _ H. exists c, l. split; [done|]. destruct (Z.eqb_spec c 43) as [->|]; [by right; right|].
  change (bytes_of "<>") with [60; 62] in H. cbn [existsb] in H. rewrite !orb_true_iff, !Z.eqb_eq in H. destruct H as [?|[?|?]]; auto. done.
Qed.

Lemma next_sym c s : live s -> next_in [c] (T s) = true -> c <> 62 -> exists l, T s = Sym c :: l.
Proof.
  unfold next_in. destruct (T s) as [|[d|x] l]; [done| |done]. intros _ H Hc. cbn [existsb] in H. rewrite orb_false_r, Z.eqb_eq in H.
  destruct (Z.eqb_spec d 43); [congruence|]. subst d. by exists l.
Qed.

Lemma redirs_ends n : forall s rs, live s -> (es - s < n)%nat ->
  ends (loop n (redirs_body buf es) rs) (fun rs' s' => exists new, rs' = rs ++ new /\ eats s s' (rtoks new) /\ live s' /\ within s s' (rd_span <$> new) /\ arrow_next s' = false) s.
Proof.
  induction n as [|n IH]; intros s rs Hs Hn; [lia|]. cbn [loop]. apply ends_bind. unfold redirs_body at 1. apply ends_bind.
  eapply ends_mono; [by apply peek_ends|]; cbv beta. intros b s1 (L1 & E1 & T1 & Hb & _). destruct b.
  - destruct (arrow_sym s Hs (eq_sym Hb)) as (c & l & Hc & Hcc). rewrite <- T1 in Hc. apply ends_bind. eapply ends_mono; [by apply gettoken_ends|]; cbv beta.
    intros [[tok q] eq] s2 H2. destruct (take_sym s1 c l tok q eq s2 L1 Hc H2) as (-> & E2 & L2 & H12); [lia|lia|]. cbv iota. apply ends_bind.
    eapply ends_mono; [by apply gettoken_ends|]; cbv beta. intros [[kind q'] eq'] s3 H3. cbv iota. destruct (Z.eqb_spec kind 97) as [->|Hk]; simpl negb; cbv iota.
    + destruct (take_word s2 q' eq' s3 L2 H3) as (E3 & L3 & H23 & W3 & _). apply ends_ret; cbv beta iota.
      assert (Hr : exists r, redirection c q' eq' = Some r /\ rd_token r = c /\ rd_span r = (q', eq')) by (destruct Hcc as [->|[->| ->]]; eexists; done).
      destruct Hr as (r & Er & Rt & Rs). rewrite Er. simpl option_list. destruct E1 as [E1a E1b], E2 as [E2a E2b], E3 as [E3a E3b].
      eapply ends_mono; [apply (IH s3); [done|lia]|]; cbv beta. intros rs' s4 (new & -> & [E4a E4b] & L4 & W4 & A4). exists (r :: new). rewrite <- app_assoc. split_and!; [done| |done| |done].
      * split; [lia|]. intros t. change (rtoks (r :: new)) with (Sym (rd_token r) :: Word (rd_span r) :: rtoks new). rewrite Rt, Rs, cnt_cons, (cnt_cons t (Word _)), E1b, E2b, E3b, E4b. simpl cnt at 1. lia.
      * rewrite fmap_cons, Rs. apply (within_app s s4 [(q', eq')]); [apply (within_mono s2 s3); [done|lia|lia]|apply (within_mono s3 s4); [done|lia|lia]].
    + unfold ends. simpl. left. split; [done|]. assert (Hin : Sym c ∈ T 0) by (eapply (eats_in s1 s2); [done|done|left]). destruct Hcc as [->|[->| ->]]; auto.
  - unfold ends. simpl. exists []. rewrite app_nil_r. split_and!; [done|done|done|by intros x ?%elem_of_nil|]. unfold arrow_next. by rewrite T1.
Qed.

(** The argument loop.  [argv] came before, in order. *)
Lemma exec_ends n : forall s0 s argv rs, live s -> (es - s < n)%nat -> arrow_next s = false ->
  (forall t, cnt t (Word <$> argv) + cnt t (T s) <= cnt t (T 0))%nat -> within s0 s argv -> in_order (EXEC argv) -> (s0 <= s)%nat ->
  ends (loop n (exec_body buf es) (argv, rs)) (fun c s' => exists args new, c = wrap (rs ++ new) (EXEC (argv ++ args)) /\
    eats s s' ((Word <$> args) ++ rtoks new) /\ live s' /\ within s0 s' (argv ++ args) /\ within s s' (rd_span <$> new) /\ in_order (EXEC (argv ++ args)) /\
    stops (bytes_of "|)&;") s') s.
Proof.
  induction n as [|n IH]; intros s0 s argv rs Hs Hn Ha Hcnt Hw Ho H0; [lia|]. cbn [loop]. apply ends_bind. unfold exec_body at 1. apply ends_bind.
  eapply ends_mono; [by apply peek_ends|]; cbv beta. intros b s1 (L1 & E1 & T1 & Hb & _).
  assert (Hdone : forall s', eats s s' [] -> live s' -> stops (bytes_of "|)&;") s' -> exists args new, wrap rs (EXEC argv) = wrap (rs ++ new) (EXEC (argv ++ args)) /\
    eats s s' ((Word <$> args) ++ rtoks new) /\ live s' /\ within s0 s' (argv ++ args) /\ within s s' (rd_span <$> new) /\ in_order (EXEC (argv ++ args)) /\ stops (bytes_of "|)&;") s').
  { intros s' He Hl Hst. exists [], []. rewrite !app_nil_r. split_and!; try done; [|by intros x ?%elem_of_nil]. eapply within_mono; [exact Hw|done|]. destruct He. lia. }
  destruct b; [unfold ends; simpl; apply Hdone; [done|done|]|].
  { unfold stops. rewrite T1. unfold next_in in Hb. destruct (T s) as [|[c|x] l]; [done| |done]. change (bytes_of "|)&;") with [124; 41; 38; 59] in *. symmetry in Hb.
    destruct (Z.eqb_spec c 43) as [->|]; [done|]. apply existsb_exists in Hb as (d & Hd & ->%Z.eqb_eq). by apply list_elem_of_In. }
  apply ends_bind. eapply ends_mono; [by apply gettoken_ends|]; cbv beta. intros [[tok q] eq] s2 H2. cbv iota. pose proof E1 as [E1a E1b].
  destruct (Z.eqb_spec tok 0) as [->|Hz].
  { destruct H2 as (H3 & H4 & [(_ & H5 & H6 & H7)|[(H5 & _)|(H5 & _)]]); [|done|done]. assert (He : eats s1 s2 []) by (apply eats_nil; [lia|congruence]).
    unfold ends. simpl. apply Hdone; [exact (eats_trans _ _ _ _ _ E1 He)|by eapply eats_live|]. unfold stops. by rewrite H6. }
  destruct (Z.eqb_spec tok 97) as [->|H97]; simpl negb; cbv iota.
  2:{ destruct H2 as (H3 & H4 & [(H5 & _)|[(H5 & _)|(_ & _ & H5 & H6)]]); [done|done|]. unfold ends. simpl. right. right. right. split; [done|]. rewrite T1 in H5.
      assert (Hin : Sym tok ∈ T 0) by (apply (live_in s _ Hs); rewrite H5; left). unfold arrow_next in Ha. rewrite H5 in Ha, Hb. unfold next_in in Ha, Hb.
      change (bytes_of "<>") with [60; 62] in Ha. change (bytes_of "|)&;") with [124; 41; 38; 59] in Hb. destruct (Z.eqb_spec tok 43) as [->|H43]; [done|].
      pose proof (token_sym s tok _ (proj1 Hs) H5) as Hsym. cbn [existsb] in Ha, Hb. symmetry in Hb. rewrite !orb_false_iff, !Z.eqb_neq in Ha, Hb.
      left. destruct Hsym as [->|[->|[->|[->|[->|[->|[->| ->]]]]]]]; try exact Hin; exfalso; naive_solver. }
  destruct (take_word s1 q eq s2 L1 H2) as (E2 & L2 & H12 & W2 & Heq). pose proof E2 as [E2a E2b].
  assert (Hcnt2 : forall t, (cnt t (Word <$> argv ++ [(q, eq)]) + cnt t (T s2) <= cnt t (T 0))%nat).
  { intros t. specialize (Hcnt t). rewrite fmap_app, cnt_app. specialize (E1b t). specialize (E2b t). simpl fmap. simpl cnt in E1b. lia. }
  destruct (MAXARGS <=? length (argv ++ [(q, eq)]))%nat eqn:Em.
  { unfold ends. simpl. right. left. split; [done|]. apply Nat.leb_le in Em. etrans; [exact Em|]. rewrite <- (words_of (argv ++ [(q, eq)])) at 1. apply words_cnt.
    intros t. specialize (Hcnt2 t). lia. }
  apply ends_bind. eapply ends_mono; [apply (redirs_ends (S es) s2 rs L2); lia|]; cbv beta. intros rs' s3 (new & -> & E3 & L3 & W3 & A3). pose proof E3 as [E3a E3b].
  assert (Hw2 : within s0 s2 (argv ++ [(q, eq)])) by (apply within_app; [apply (within_mono s0 s); [done|lia|lia]|apply (within_mono s1 s2); [done|lia|lia]]).
  assert (Ho2 : in_order (EXEC (argv ++ [(q, eq)]))).
  { intros i j x y Hi Hj Hij. destruct (decide (j < length argv)%nat) as [Hjl|Hjl]; [rewrite lookup_app_l in Hi, Hj by lia; by apply (Ho i j)|].
    assert (j = length argv) as -> by (apply lookup_lt_Some in Hj; rewrite length_app in Hj; simpl in Hj; lia). rewrite lookup_app_r, Nat.sub_diag in Hj by lia. injection Hj as <-.
    rewrite lookup_app_l in Hi by lia. destruct (Hw x (list_elem_of_lookup_2 _ _ _ Hi)) as [_ Hx]. destruct (W2 (q, eq) ltac:(left)) as [Hy _]. simpl in *. lia. }
  apply ends_ret; cbv beta iota. eapply ends_mono; [apply (IH s0 s3 (argv ++ [(q, eq)]) (rs ++ new)); [done|lia|done| |eapply within_mono; [exact Hw2|lia|lia]|done|lia]|].
  { intros t. specialize (Hcnt2 t). specialize (E3b t). lia. }
  cbv beta. intros c s4 (args & new' & -> & [E4a E4b] & L4 & W4 & W4' & O4 & S4). exists ((q, eq) :: args), (new ++ new'). rewrite <- !app_assoc in *. simpl app in *.
  split_and!; [done| |done|done| |done|done].
  - split; [lia|]. intros t. rewrite E1b, E2b, E3b, E4b, (cnt_cons t (Word (q, eq)) (_ ++ _)), !cnt_app, cnt_rtoks_app. change (list_fmap _ _ Word args) with (Word <$> args). change (cnt t []) with 0%nat. lia.
  - rewrite fmap_app. apply within_app; [apply (within_mono s2 s3); [done|lia|lia]|apply (within_mono s3 s4); [done|lia|lia]].
Qed.

Lemma back_ends n : forall s c, live s -> (es - s < n)%nat ->
  ends (loop n (back_body buf es) c) (fun c' s' => exists k, c' = Nat.iter k BACK c /\ eats s s' (replicate k (Sym 38)) /\ live s' /\
    (k = 0%nat -> T s' = T s)) s.
Proof.
  induction n as [|n IH]; intros s c Hs Hn; [lia|]. cbn [loop]. apply ends_bind. unfold back_body at 1. apply ends_bind.
  eapply ends_mono; [by apply peek_ends|]; cbv beta. intros b s1 (L1 & E1 & T1 & Hb & _). pose proof E1 as [E1a E1b]. destruct b.
  - destruct (next_sym 38 s Hs (eq_sym Hb)) as [l Hl]; [done|]. rewrite <- T1 in Hl. apply ends_bind. eapply ends_mono; [by apply gettoken_ends|]; cbv beta.
    intros [[tok q] eq] s2 H2. destruct (take_sym s1 38 l tok q eq s2 L1 Hl H2) as (-> & [E2a E2b] & L2 & H12); [done|done|]. apply ends_ret; cbv beta iota.
    eapply ends_mono; [apply (IH s2 (BACK c) L2); lia|]; cbv beta. intros c' s3 (k & -> & [E3a E3b] & L3 & _). exists (S k).
    split_and!; [by rewrite Nat.iter_succ_r| |done|done].
    split; [lia|]. intros t. rewrite E1b, E2b, E3b. rewrite replicate_S, (cnt_cons t (Sym 38) (replicate k _)). change (cnt t []) with 0%nat. lia.
  - unfold ends. simpl. exists 0%nat. by split_and!.
Qed.

(** What the parts of the grammar return: a tree that accounts, with [k] pairs
    of brackets, for the tokens used, and the place where they stop. *)
Definition brs (k : nat) : list token := replicate k (Sym 40) ++ replicate k (Sym 41).
Definition parsed (toks : list Z) (s : nat) (c : cmd) (s' : nat) : Prop :=
  (exists k, eats s s' (ctoks c ++ brs k)) /\ live s' /\ within s s' (spans c) /\ in_order c /\ (breaks (T 0) \/ stops toks s').

Lemma cnt_brs t k k' : cnt t (brs (k + k')) = (cnt t (brs k) + cnt t (brs k'))%nat.
Proof. unfold brs. rewrite !replicate_add, !cnt_app. lia. Qed.

Lemma iter_back k c : (forall t, cnt t (ctoks (Nat.iter k BACK c)) = (cnt t (replicate k (Sym 38)) + cnt t (ctoks c))%nat) /\
  spans (Nat.iter k BACK c) = spans c /\ (in_order (Nat.iter k BACK c) <-> in_order c).
Proof.
  induction k as [|k (IH1 & IH2 & IH3)]; [done|]. split_and!; [|done|done]. intros t. simpl ctoks. rewrite replicate_S, (cnt_cons t _ (ctoks _)), (cnt_cons t _ (replicate _ _)), IH1. lia.
Qed.

(** Two trees with a symbol between them. *)
Lemma parsed_both toks1 toks2 c l r s s1 s2 s3 (node : cmd -> cmd -> cmd) :
  (node = PIPE /\ c = 124) \/ (node = LIST /\ c = 59) ->
  parsed toks1 s l s1 -> eats s1 s2 [Sym c] -> parsed toks2 s2 r s3 -> parsed toks2 s (node l r) s3.
Proof.
  intros Hnode ((k1 & E1a & E1b) & L1 & W1 & O1 & _) [E2a E2b] ((k2 & E3a & E3b) & L3 & W3 & O3 & S3).
  assert (Hs : spans (node l r) = spans l ++ spans r /\ ctoks (node l r) = Sym c :: ctoks l ++ ctoks r /\
    (in_order l -> in_order r -> (forall x y, x ∈ spans l -> y ∈ spans r -> (snd x <= fst y)%nat) -> in_order (node l r))) by (destruct Hnode as [[-> ->]|[-> ->]]; done).
  destruct Hs as (Hs & Hc & Ho). split_and!; [|done| | |done].
  - exists (k1 + k2)%nat. split; [lia|]. intros t. rewrite E1b, E2b, E3b, Hc, !cnt_app, cnt_brs, (cnt_cons t (Sym c) (_ ++ _)), cnt_app. lia.
  - rewrite Hs. apply within_app; [apply (within_mono s s1); [done|lia|lia]|apply (within_mono s2 s3); [done|lia|lia]].
  - apply Ho; [done|done|]. intros x y Hx Hy. specialize (W1 x Hx). specialize (W3 y Hy). lia.
Qed.

(** What cannot be next is taken out of the places to stop. *)
Lemma stops_weaken toks toks' s : (breaks (T 0) \/ stops toks s) -> live s ->
  (forall c, c ∈ toks -> next_in [c] (T s) = true -> c ∈ toks' \/ c = 41 \/ c = 38) -> forallb is_symbol toks = true -> breaks (T 0) \/ stops toks' s.
Proof.
  intros [H|H] Hl Hsub Hsy; [by left|]. unfold stops in *. destruct (T s) as [|[c|x] l] eqn:E; [by right| |done].
  assert (Hin : Sym c ∈ T 0) by (apply (live_in s _ Hl); rewrite E; left). destruct (Hsub c H) as [Hc|[->| ->]]; [|by right|left; by right; left|left; by right; right].
  unfold next_in. simpl. destruct (Z.eqb_spec c 43) as [->|]; [|by rewrite Z.eqb_refl].
  rewrite forallb_forall in Hsy. specialize (Hsy 43 (proj1 (list_elem_of_In _ _) H)). done.
Qed.

(** A simple command. *)
Lemma simple_ends s : live s -> ends (rs <- parseredirs buf es [] ;; loop (S es) (exec_body buf es) ([], rs)) (parsed (bytes_of "|;") s) s.
Proof.
  intros Hs. apply ends_bind. eapply ends_mono; [apply (redirs_ends (S es) s [] Hs); lia|]; cbv beta. intros rs s1 (new & -> & [E1a E1b] & L1 & W1 & A1). simpl app.
  eapply ends_mono; [apply (exec_ends (S es) s1 s1 [] new L1); [lia|done| |by intros x ?%elem_of_nil|by intros i j x y ?|done]|].
  { intros t. destruct L1 as [_ L1]. specialize (L1 t). simpl. lia. }
  cbv beta. intros c s2 (args & new' & -> & [E2a E2b] & L2 & W2 & W2' & O2 & S2). simpl app in *. split_and!; [|done| |by apply in_order_wrap|].
  - exists 0%nat. split; [lia|]. intros t. rewrite E1b, E2b, !cnt_app, cnt_wrap, cnt_rtoks_app. simpl ctoks. change (cnt t (brs 0)) with 0%nat. lia.
  - intros x [H|H]%spans_wrap; [rewrite fmap_app in H; apply elem_of_app in H as [H|H]|].
    + specialize (W1 x H). lia.
    + specialize (W2' x H). lia.
    + specialize (W2 x H). lia.
  - apply (stops_weaken (bytes_of "|)&;")); [by right|done| |done]. change (bytes_of "|)&;") with [124; 41; 38; 59]. change (bytes_of "|;") with [124; 59].
    intros c Hc _. set_solver.
Qed.

(** Ampersands behind a pipeline. *)
Lemma parsed_back k c s s1 s2 : parsed (bytes_of ";") s c s1 -> eats s1 s2 (replicate k (Sym 38)) -> live s2 -> (k = 0%nat -> T s2 = T s1) ->
  parsed (bytes_of ";") s (Nat.iter k BACK c) s2.
Proof.
  intros ((k1 & E1a & E1b) & L1 & W1 & O1 & S1) E2 L2 Hk. pose proof E2 as [E2a E2b]. destruct (iter_back k c) as (Bc & Bs & Bo).
  split_and!; [|done|rewrite Bs; eapply within_mono; [exact W1|lia|lia]|by apply Bo|].
  - exists k1. split; [lia|]. intros t. rewrite E1b, E2b, !cnt_app, Bc. lia.
  - destruct k as [|k]; [|left; right; right; apply (eats_in s1 s2 _ _ L1 E2); left]. destruct S1 as [S1|S1]; [by left|right]. unfold stops in *. by rewrite (Hk eq_refl).
Qed.

(** A symbol that [peek] has seen is consumed. *)
Lemma eat_ends {A} (f : M nat A) c s (Q : A -> nat -> Prop) : live s -> next_in [c] (T s) = true -> c <> 62 -> c <> 97 -> c <> 0 ->
  (forall s2, eats s s2 [Sym c] -> live s2 -> (s < s2)%nat -> ends f Q s2) -> ends (mbind_ (gettoken buf es) (fun _ => f)) Q s.
Proof.
  intros Hs Hn H1 H2 H3 Hf. destruct (next_sym c s Hs Hn H1) as [l Hl]. apply ends_bind. eapply ends_mono; [by apply gettoken_ends|]; cbv beta.
  intros [[r q] eq] s2 H. destruct (take_sym s c l r q eq s2 Hs Hl H H2 H3) as (_ & E & L & Hlt). by apply Hf.
Qed.

Lemma parsed_eats toks s s1 c s' : eats s s1 [] -> parsed toks s1 c s' -> parsed toks s c s'.
Proof.
  intros [E1a E1b] ((k & E2a & E2b) & L & W & O & S). split_and!; [|done|eapply within_mono; [exact W|lia|lia]|done|done]. exists k. split; [lia|]. intros t. rewrite E1b. simpl. apply E2b.
Qed.
Lemma parsed_eats_r toks toks' s c s1 s' : parsed toks s c s1 -> eats s1 s' [] -> live s' -> (breaks (T 0) \/ stops toks s1 -> breaks (T 0) \/ stops toks' s') -> parsed toks' s c s'.
Proof.
  intros ((k & E2a & E2b) & L & W & O & S) [E1a E1b] L' H. split_and!; [|done|eapply within_mono; [exact W|lia|lia]|done|by apply H]. exists k. split; [lia|]. intros t. rewrite E2b, (E1b t). simpl. lia.
Qed.

Lemma parse_ends n : forall s, live s ->
  ((4 * (es - s) + 4 <= n)%nat -> ends (parseline buf es n) (parsed [] s) s) /\
  ((4 * (es - s) + 3 <= n)%nat -> ends (parsepipe buf es n) (parsed (bytes_of ";") s) s) /\
  ((4 * (es - s) + 2 <= n)%nat -> ends (parseexec buf es n) (parsed (bytes_of "|;") s) s) /\
  ((4 * (es - s) + 1 <= n)%nat -> next_in [40] (T s) = true -> ends (parseblock buf es n) (parsed (bytes_of "|;") s) s).
Proof.
  induction n as [|n IH]; intros s Hs; [split_and!; lia|]. split_and!; intros Hn.
  - cbn [parseline]. apply ends_bind. eapply ends_mono; [apply (IH s Hs); lia|]; cbv beta. intros c s1 P1. apply ends_bind.
    assert (L1 : live s1) by apply P1. eapply ends_mono; [apply (back_ends (S es) s1 c L1); lia|]; cbv beta. intros c2 s2 (k & -> & E2 & L2 & Hk).
    pose proof (parsed_back k c s s1 s2 P1 E2 L2 Hk) as P2. clear P1 Hk. set (c2 := Nat.iter k BACK c) in *. clearbody c2.
    apply ends_bind. eapply ends_mono; [by apply peek_ends|]; cbv beta. intros b s3 (L3 & E3 & T3 & Hb & _). pose proof E2 as [E2a _]. pose proof E3 as [E3a _].
    destruct P2 as (Pe & P2). pose proof Pe as (k2 & Pea & _). destruct b.
    + apply (eat_ends _ 59); [done|by rewrite T3|done|done|done|]. intros s4 E4 L4 H34. pose proof (proj1 L4). apply ends_bind. eapply ends_mono; [apply (IH s4 L4); lia|]; cbv beta. intros r s5 P5.
      apply ends_ret. eapply (parsed_both (bytes_of ";") [] 59 c2 r s s2 s4); [by right|by split|exact (eats_trans _ _ _ _ _ E3 E4)|done].
    + apply ends_ret. eapply (parsed_eats_r (bytes_of ";")); [by split|done|done|]. intros S. eapply (stops_weaken (bytes_of ";")); [|done| |done].
      * destruct S as [S|S]; [by left|right]. unfold stops in *. by rewrite T3.
      * change (bytes_of ";") with [59]. intros c' ->%list_elem_of_singleton H. rewrite T3 in H. change (bytes_of ";") with [59] in Hb. congruence.
  - cbn [parsepipe]. apply ends_bind. eapply ends_mono; [apply (IH s Hs); lia|]; cbv beta. intros c s1 P1. assert (L1 : live s1) by apply P1.
    apply ends_bind. eapply ends_mono; [by apply peek_ends|]; cbv beta. intros b s3 (L3 & E3 & T3 & Hb & _). pose proof E3 as [E3a _].
    destruct P1 as (Pe & P1). pose proof Pe as (k2 & Pea & _). destruct b.
    + apply (eat_ends _ 124); [done|by rewrite T3|done|done|done|]. intros s4 E4 L4 H34. pose proof (proj1 L4). apply ends_bind. eapply ends_mono; [apply (IH s4 L4); lia|]; cbv beta. intros r s5 P5.
      apply ends_ret. eapply (parsed_both (bytes_of "|;") (bytes_of ";") 124 c r s s1 s4); [by left|by split|exact (eats_trans _ _ _ _ _ E3 E4)|done].
    + apply ends_ret. eapply (parsed_eats_r (bytes_of "|;")); [by split|done|done|]. intros S. eapply (stops_weaken (bytes_of "|;")); [|done| |done].
      * destruct S as [S|S]; [by left|right]. unfold stops in *. by rewrite T3.
      * change (bytes_of "|;") with [124; 59]. change (bytes_of ";") with [59]. intros c' [->|H]%elem_of_cons Hx; [|by left]. rewrite T3 in Hx. change (bytes_of "|") with [124] in Hb. congruence.
  - cbn [parseexec]. apply ends_bind. eapply ends_mono; [by apply peek_ends|]; cbv beta. intros b s1 (L1 & E1 & T1 & Hb & _). pose proof E1 as [E1a _]. destruct b.
    + eapply ends_mono; [apply (IH s1 L1); [lia|by rewrite T1]|]; cbv beta. intros c s2 P2. by eapply parsed_eats.
    + eapply ends_mono; [by apply simple_ends|]; cbv beta. intros c s2 P2. by eapply parsed_eats.
  - intros Hopen. cbn [parseblock]. apply ends_bind. eapply ends_mono; [by apply peek_ends|]; cbv beta. intros b s1 (L1 & E1 & T1 & Hb & _). pose proof E1 as [E1a E1b].
    change (bytes_of "(") with [40] in Hb. rewrite Hopen in Hb. subst b. simpl negb. cbv iota.
    apply (eat_ends _ 40); [done|by rewrite T1|done|done|done|]. intros s2 E2 L2 H12. pose proof E2 as [E2a E2b]. pose proof (proj1 L2) as Hl2. apply ends_bind. eapply ends_mono; [apply (IH s2 L2); lia|]; cbv beta.
    intros c s3 ((k & E3a & E3b) & L3 & W3 & O3 & _). assert (Hbr : Sym 40 ∈ T 0) by (apply (eats_in s1 s2 _ _ L1 E2); left).
    apply ends_bind. eapply ends_mono; [by apply peek_ends|]; cbv beta. intros b s4 (L4 & [E4a E4b] & T4 & Hb & _). destruct b; simpl negb; cbv iota; [|right; right; left; done].
    apply (eat_ends _ 41); [done|by rewrite T4|done|done|done|]. intros s5 [E5a E5b] L5 H45. apply ends_bind.
    eapply ends_mono; [apply (redirs_ends (S es) s5 [] L5); lia|]; cbv beta. intros rs s6 (new & -> & [E6a E6b] & L6 & W6 & _). apply ends_ret. simpl app.
    split_and!; [|done| |by apply in_order_wrap|left; by left].
    + exists (S k). split; [lia|]. intros t. rewrite E1b, E2b, E3b, E4b, E5b, E6b, !cnt_app, cnt_wrap. unfold brs. rewrite !cnt_app, !replicate_S.
      rewrite (cnt_cons t (Sym 40) (replicate k _)), (cnt_cons t (Sym 41) (replicate k _)). change (cnt t []) with 0%nat. lia.
    + intros x [H|H]%spans_wrap; [specialize (W6 x H)|specialize (W3 x H)]; lia.
Qed.

End props.

Lemma no_nul_word w : is_word w -> 0 ∉ w.
Proof. intros [_ H] Hin. rewrite Forall_forall in H. by destruct (H 0 Hin). Qed.

Lemma no_nul_bracket k t : 0 ∉ natural t -> 0 ∉ bracket k t (natural t).
Proof.
  intros H. unfold bracket. case_match; [done|]. rewrite elem_of_cons, elem_of_app, list_elem_of_singleton. intros [?|[?|?]]; done.
Qed.

Lemma no_nul t : wf t -> 0 ∉ natural t.
Proof.
  induction t as [ws|a IH d f|l IHl r IHr|l IHl r IHr|a IH]; cbn [wf natural].
  - intros [H _] Hin. unfold show_words in Hin. apply list_elem_of_In, in_concat in Hin as (l & Hl & Hz). apply list_elem_of_In, list_elem_of_fmap in Hl as (w & -> & Hw).
    apply list_elem_of_In, elem_of_cons in Hz as [Hz|Hz]; [done|]. rewrite Forall_forall in H. by apply (no_nul_word w (H w Hw)).
  - intros [Ha Hf] [Hin|Hin]%elem_of_app; [by apply (no_nul_bracket 0 a (IH Ha))|]. unfold show_redir in Hin. cbn [fst snd] in Hin.
    rewrite elem_of_cons, elem_of_app, elem_of_cons in Hin. destruct Hin as [?|[Hin|[?|?]]]; [done| |done|by apply (no_nul_word f)].
    destruct d; cbn [arrow] in Hin; repeat (apply elem_of_cons in Hin as [?|Hin]; [done|]); by apply not_elem_of_nil in Hin.
  - intros [Hl Hr]. rewrite !elem_of_app, list_elem_of_singleton. intros [?|[?|?]]; [by apply (no_nul_bracket 0 l (IHl Hl))|done|by apply (no_nul_bracket 1 r (IHr Hr))].
  - intros [Hl Hr]. rewrite !elem_of_app, list_elem_of_singleton. intros [?|[?|?]]; [by apply (no_nul_bracket 2 l (IHl Hl))|done|by apply IHr].
  - intros Ha. rewrite elem_of_app, list_elem_of_singleton. intros [?|?]; [by apply (no_nul_bracket 2 a (IH Ha))|done].
Qed.

(** C30: the parser of the shell reads what is written.  Every tree of simple
    commands, redirections, pipelines, lists and background jobs, whose words
    are free of white space and symbols and which has at most nine arguments
    per command, has a text, with brackets where the grammar needs them, from
    which [parsecmd] builds exactly that tree, consuming the whole line; and
    in the buffer it leaves every argument and file name is the
    NUL-terminated string of its word. *)
Theorem parsecmd_reads_commands t junk : wf t ->
  exists c b, parsecmd (natural t ++ 0 :: junk) 0%nat = Ok (c, b) (length (natural t)) /\
    stands (fun x w => c_string (drop (fst x) b) = w) c t.
Proof.
  intros Hwf. pose proof (no_nul t Hwf) as Hnz. set (text := natural t) in *.
  assert (Hcs : c_string (text ++ 0 :: junk) = text).
  { apply c_string_app, Forall_forall. intros c Hc ->. done. }
  destruct (all_read text junk Hnz t Hwf) as (_ & _ & _ & HL).
  assert (Hw : wp (parsecmd (text ++ 0 :: junk)) (fun r s' => s' = length text /\ stands (fun x w => c_string (drop (fst x) (snd r)) = w) (fst r) t) 0%nat).
  { unfold parsecmd. rewrite Hcs. cbv zeta. wp_step.
    eapply wp_mono; [apply (HL (parse_fuel (length text)) 0%nat []); [done|split; [lia|by rewrite app_nil_r]|unfold parse_fuel; lia]|].
    intros c s1 (Hst & [Hs1 Ht1] & _). unfold peek. wp_step. wp_step. wp_step. wp_step. wp_step. wp_step. wp_step.
    destruct (skip_while_spec text junk Hnz is_space s1 Hs1) as [H1 H2]. fold trim in H2. set (s2 := skip_while _ _ _ s1) in *. rewrite Ht1 in H2.
    wp_step. rewrite (drop_nil text s2) by (lia || exact H2). rewrite Nat.eqb_refl. simpl negb. cbv iota. wp_step. split; [done|]. cbn [fst snd].
    rewrite nulterminate_ptrs. eapply stands_mono; [exact Hst|]. intros x w Hx Hp. eapply zeroed_word; [|exact Hx|exact Hp].
    intros y Hy. by eapply stands_ptrs. }
  destruct (wp_Ok _ _ _ Hw) as ([c b] & s' & E & -> & Hst). exists c, b. by split.
Qed.


(** C31: every line is parsed completely or rejected for a reason.  Whatever
    bytes a line holds, [parsecmd] ends.  A tree that it returns accounts for
    the whole line: its arguments and file names, its redirections, bars,
    semicolons and ampersands are, together with as many opening as closing
    brackets, exactly the tokens of the line, each used once; arguments stand
    in the order of the line, and what is left of a bar or a semicolon in front
    of what is right of it.  A line is rejected only with one of four messages:
    "missing file for redirection" only if it has an arrow, "too many args" only
    if it has ten words, "syntax - missing )" only if it has an opening bracket,
    and "syntax" only if it has a bracket or an ampersand. *)
Theorem parsecmd_accounts_for_line line junk : 0 ∉ line ->
  match parsecmd (line ++ 0 :: junk) 0%nat with
  | Ok (c, b) s =>
      s = length line /\ b = nulterminate c (line ++ 0 :: junk) /\ in_order c /\
      exists k, lex 0 None line ≡ₚ ctoks c ++ replicate k (Sym 40) ++ replicate k (Sym 41)
  | Panic e _ => rejects (lex 0 None line) e
  | Spin => False
  end.
Proof.
  intros Hnz. assert (Hcs : c_string (line ++ 0 :: junk) = line) by (apply c_string_app, Forall_forall; intros c Hc ->; done).
  assert (H : ends line (parsecmd (line ++ 0 :: junk)) (fun x s => s = length line /\ snd x = nulterminate (fst x) (line ++ 0 :: junk) /\ in_order (fst x) /\
    exists k, lex 0 None line ≡ₚ ctoks (fst x) ++ replicate k (Sym 40) ++ replicate k (Sym 41)) 0%nat).
  { unfold parsecmd. rewrite Hcs. cbv zeta. assert (L0 : live line 0) by (split; [lia|done]). apply ends_bind. eapply ends_mono.
    { apply (parse_ends line junk Hnz (parse_fuel (length line)) 0%nat L0). unfold parse_fuel. lia. }
    intros c s1 ((k & E1a & E1b) & L1 & _ & O1 & S1). apply ends_bind. eapply ends_mono; [by apply (peek_ends line junk Hnz)|]. cbv beta. intros b s2 (L2 & [E2a E2b] & T2 & _ & Hend).
    apply ends_bind. unfold ends at 1, get. simpl. destruct (Nat.eqb_spec s2 (length line)) as [->|Hne]; simpl negb; cbv iota.
    - split_and!; [done|done|done|]. exists k. apply (Permutation_count_occ token_eq_dec). intros t. specialize (E1b t). unfold T in E1b, T2. rewrite drop_0 in E1b.
      rewrite drop_ge in T2 by lia. rewrite <- T2 in E1b. unfold cnt, brs in E1b. rewrite E1b. simpl. lia.
    - right. right. right. split; [done|]. destruct S1 as [S1|S1]; [unfold T in S1; by rewrite drop_0 in S1|]. exfalso. apply Hne, Hend. unfold stops in S1.
      destruct (T line s1) as [|[d|x] l]; [done| |done]. by apply not_elem_of_nil in S1. }
  unfold ends in H. destruct (parsecmd (line ++ 0 :: junk) 0%nat) as [[c b] s|e s|]; [exact H| |done]. unfold T in H. by rewrite drop_0 in H.
Qed.

(** Commands written and read back. *)
Module ShellDemo.
Definition demo : command :=
  CList (CBack (CPipe (CRedir (CExec [bytes_of "ls"; bytes_of "-l"]) From (bytes_of "in")) (CList (CExec [bytes_of "wc"]) (CExec []))))
    (CRedir (CPipe (CExec [bytes_of "a"]) (CBack (CExec [bytes_of "b"]))) Append (bytes_of "out")).

Lemma demo_wf : wf demo.
Proof. vm_compute. repeat split; repeat constructor; try congruence; try lia. Qed.

Example demo_text : natural demo = bytes_of " ls -l < in|( wc;)&;( a|( b&)) >> out".
Proof. reflexivity. Qed.

Lemma parsecmd_reads_commands_witness : exists c b, parsecmd (natural demo ++ [0]) 0%nat = Ok (c, b) (length (natural demo)) /\
  stands (fun x w => c_string (drop (fst x) b) = w) c demo.
Proof. exact (parsecmd_reads_commands demo [] demo_wf). Defined.

(** A line with brackets and a redirection between two arguments. *)
Lemma parsecmd_accounts_for_line_witness :
  match parsecmd (bytes_of "(a <f b;c)|d&" ++ [0]) 0%nat with
  | Ok (c, b) s => s = 13%nat /\ b = nulterminate c (bytes_of "(a <f b;c)|d&" ++ [0]) /\ in_order c /\
      exists k, lex 0 None (bytes_of "(a <f b;c)|d&") ≡ₚ ctoks c ++ replicate k (Sym 40) ++ replicate k (Sym 41)
  | Panic e _ => rejects (lex 0 None (bytes_of "(a <f b;c)|d&")) e
  | Spin => False
  end /\
  match parsecmd (bytes_of "(a <f b;c)|d&" ++ [0]) 0%nat with Ok _ _ => True | _ => False end.
Proof. split; [apply (parsecmd_accounts_for_line (bytes_of "(a <f b;c)|d&") []); vm_compute; set_solver|vm_compute; exact I]. Defined.

(** Keys pressed at an empty buffer of a shell with no history. *)
Definition typed (l : list Z) : editor := Editor [] 0 [] (Byte <$> l) [] false.

(** A line is read with its editing keys: two bytes are rubbed out. *)
Example getcmd_line : match getcmd 100 None (typed (bytes_of "lx" ++ [8] ++ bytes_of "s -l" ++ [10])) with
  | Ok r e => (r, c_string (e_buf e)) | _ => (-2, []) end = (0, bytes_of "ls -l" ++ [10]).
Proof. by vm_compute. Qed.

(** A bracket typed as byte 98 of the line makes the NUL behind the newline go
    past the end of the buffer. *)
Example getcmd_overrun : match getcmd 100 None (typed (replicate 97 97 ++ bytes_of "[x" ++ [10])) with
  | Panic m e => (m, e_pos e) | _ => (EmptyString, O) end = ("store behind the buffer"%string, 100%nat).
Proof. by vm_compute. Qed.
End ShellDemo.
