(* ===== verification/Umalloc.v ===== *)
(** * The allocator of user programs (src/user/libc/umalloc.c)

    The heap of a process is cut into units of 16 bytes, the size of a
    [Header].  The free blocks form a ring in the order of their addresses
    that goes through the static header [base] of size 0.  The model keeps the
    two fields of the headers in maps from addresses; the bytes of the blocks
    are not part of it, since the allocator reads a header only after it has
    written it.  [sbrk] is the system call of syscall/sysproc.c as a process
    sees it; [limit] is where the heap of the process has to end. *)

From S2P Require Import Prelude.

Definition UNIT : Z := 16.   (** sizeof(Header) *)

(** [s.ptr] and [s.size] of the headers, [freep], and the end of the heap. *)
Record heap := Heap { h_ptr : gmap Z Z; h_size : gmap Z Z; h_freep : Z; h_brk : Z }.

Definition set_ptr (a v : Z) : M heap unit := modify (fun h => Heap (<[a := v]> (h_ptr h)) (h_size h) (h_freep h) (h_brk h)).
Definition set_size (a v : Z) : M heap unit := modify (fun h => Heap (h_ptr h) (<[a := v]> (h_size h)) (h_freep h) (h_brk h)).
Definition set_freep (v : Z) : M heap unit := modify (fun h => Heap (h_ptr h) (h_size h) v (h_brk h)).
Definition set_brk (v : Z) : M heap unit := modify (fun h => Heap (h_ptr h) (h_size h) (h_freep h) v).
Definition ptr (a : Z) : M heap Z := gets (fun h => default 0 (h_ptr h !! a)).
Definition size_of (a : Z) : M heap Z := gets (fun h => default 0 (h_size h !! a)).
(** Headers the search loops can meet. *)
Definition headers : M heap nat := gets (fun h => size (h_ptr h)).

Section umalloc.
Context (base limit : Z).

(** The argument of [sbrk] is an int. *)
Definition sbrk (n : Z) : M heap Z :=
  let n := s32 n in
  b <- gets h_brk ;;
  if 0 <=? n then
    if (limit <? b) || (limit - b <? n) then ret (-1)
    else set_brk (b + n) ;; ret b
  else if b <? - n then ret (-1)
  else set_brk (b + n) ;; ret b.

(** One round of the search for the place of [bp]. *)
Definition free_body (bp p : Z) : M heap (Z + Z) :=
  q <- ptr p ;;
  if (p <? bp) && (bp <? q) then ret (inr p)
  else if (q <=? p) && ((p <? bp) || (bp <? q)) then ret (inr p)
  else ret (inl q).

(** The block [bp] takes up its successor [q] or is linked to it. *)
Definition join_next (bp q : Z) : M heap unit :=
  bs <- size_of bp ;;
  if bp + UNIT * bs =? q then
    qs <- size_of q ;;
    set_size bp (u32 (bs + qs)) ;;
    qq <- ptr q ;;
    set_ptr bp qq
  else set_ptr bp q.

(** The block [p] takes up its successor [bp] or is linked to it. *)
Definition join_prev (p bp : Z) : M heap unit :=
  ps <- size_of p ;;
  if p + UNIT * ps =? bp then
    bs <- size_of bp ;;
    set_size p (u32 (ps + bs)) ;;
    bq <- ptr bp ;;
    set_ptr p bq
  else set_ptr p bp.

Definition free (ap : Z) : M heap unit :=
  let bp := ap - UNIT in
  f <- gets h_freep ;;
  n <- headers ;;
  p <- loop (S n) (free_body bp) f ;;
  q <- ptr p ;;
  join_next bp q ;;
  join_prev p bp ;;
  set_freep p.

Definition morecore (nu : Z) : M heap Z :=
  let nu := if nu <? 4096 then 4096 else nu in
  p <- sbrk (nu * UNIT) ;;
  if p =? -1 then ret 0
  else
    set_size p nu ;;
    free (p + UNIT) ;;
    gets h_freep.

(** Cutting [nunits] units from the free block [p], which [prevp] precedes. *)
Definition take_block (nunits prevp p s : Z) : M heap Z :=
  p <- (if s =? nunits then q <- ptr p ;; set_ptr prevp q ;; ret p
        else
          set_size p (u32 (s - nunits)) ;;
          s' <- size_of p ;;
          let p := p + UNIT * s' in
          set_size p nunits ;; ret p) ;;
  set_freep prevp ;;
  ret (p + UNIT).

Definition malloc_body (nunits : Z) (x : Z * Z) : M heap ((Z * Z) + Z) :=
  let '(prevp, p) := x in
  s <- size_of p ;;
  if nunits <=? s then r <- take_block nunits prevp p s ;; ret (inr r)
  else
    f <- gets h_freep ;;
    if p =? f then
      p <- morecore nunits ;;
      if p =? 0 then ret (inr 0)
      else q <- ptr p ;; ret (inl (p, q))
    else q <- ptr p ;; ret (inl (p, q)).

Definition units_for (nbytes : Z) : Z := u32 ((nbytes + UNIT - 1) / UNIT + 1).

Definition malloc (nbytes : Z) : M heap Z :=
  let nunits := units_for nbytes in
  f <- gets h_freep ;;
  when (f =? 0) (set_freep base ;; set_ptr base base ;; set_size base 0) ;;
  prevp <- gets h_freep ;;
  p <- ptr prevp ;;
  n <- headers ;;
  loop (2 * n + 4) (malloc_body nunits) (prevp, p).
End umalloc.
