(* ===== verification/UmallocProps.v ===== *)
(** * Correctness of the user allocator

    Free blocks and blocks of the program together cover every unit of the
    heap exactly once ([ready]); [malloc] and [free] move blocks between the
    two lists.  Neighbouring free blocks are always joined. *)

From stdpp Require Import sorting.
From S2P Require Import Prelude Umalloc.

(** ** Rings *)

(** The nodes [l] are linked in order, the last one to [b]. *)
Fixpoint path (m : gmap Z Z) (l : list Z) (b : Z) : Prop :=
  match l with
  | [] => True
  | a :: l' => m !! a = Some (hd b l') /\ path m l' b
  end.

Lemma path_app m l1 l2 b : path m (l1 ++ l2) b <-> path m l1 (hd b l2) /\ path m l2 b.
Proof.
  induction l1 as [|a l1 IH]; simpl; [naive_solver|]. rewrite IH.
  assert (hd b (l1 ++ l2) = hd (hd b l2) l1) as -> by (by destruct l1). naive_solver.
Qed.

Lemma path_insert m l b a v : a ∉ l -> path m l b -> path (<[a := v]> m) l b.
Proof.
  induction l as [|c l IH]; simpl; [done|]. rewrite not_elem_of_cons. intros [Hc Hl] [H1 H2].
  rewrite lookup_insert_ne by done. auto.
Qed.

Lemma path_lookup m l b i a : path m l b -> l !! i = Some a -> m !! a = Some (default b (l !! S i)).
Proof.
  revert i. induction l as [|c l IH]; intros i; [done|]. intros [H1 H2]. destruct i as [|i]; simpl.
  - intros [= ->]. rewrite H1. by destruct l.
  - intros Hi. by apply IH.
Qed.

Lemma path_size m l b : NoDup l -> path m l b -> (length l <= size m)%nat.
Proof.
  intros Hnd Hp. assert (Hs : (list_to_set l : gset Z) ⊆ dom m).
  { intros a Ha%elem_of_list_to_set. apply list_elem_of_lookup in Ha as [i Hi]. apply elem_of_dom. rewrite (path_lookup m l b i a Hp Hi). by eexists. }
  apply subseteq_size in Hs. by rewrite size_list_to_set, size_dom in Hs.
Qed.

(** Position of the next node, and steps from [i] to [t], in a ring of [n] nodes. *)
Definition nxt (n i : nat) : nat := if (S i =? n)%nat then O else S i.
Definition dist (n i t : nat) : nat := if (i <=? t)%nat then t - i else n - i + t.

Lemma nxt_lt n i : (i < n)%nat -> (nxt n i < n)%nat.
Proof. unfold nxt. destruct (Nat.eqb_spec (S i) n); lia. Qed.
Lemma dist_lt n i t : (i < n)%nat -> (t < n)%nat -> (dist n i t < n)%nat.
Proof. unfold dist. destruct (Nat.leb_spec i t); lia. Qed.
Lemma dist_nxt n i t : (i < n)%nat -> (t < n)%nat -> i <> t -> S (dist n (nxt n i) t) = dist n i t.
Proof.
  unfold dist, nxt. intros. destruct (Nat.eqb_spec (S i) n); destruct (Nat.leb_spec i t); repeat match goal with |- context [(?x <=? ?y)%nat] => destruct (Nat.leb_spec x y) end; lia.
Qed.

Lemma path_nxt m l b i a : path m l b -> l !! i = Some a -> hd b l = b -> l !! nxt (length l) i = Some (default b (l !! S i)).
Proof.
  intros Hp Hi Hb. pose proof (lookup_lt_Some _ _ _ Hi). unfold nxt. destruct (Nat.eqb_spec (S i) (length l)) as [E|E].
  - rewrite (lookup_ge_None_2 l (S i)) by lia. simpl. destruct l; [done|]. simpl in *. by subst.
  - destruct (lookup_lt_is_Some_2 l (S i)) as [c Hc]; [lia|]. by rewrite Hc.
Qed.

(** ** Blocks *)

Abbreviation block := (Z * Z)%type.   (** address of the header, units *)
Definition units (x : block) : list Z := (fun i => fst x + UNIT * i) <$> seqZ 0 (snd x).
Definition cover (l : list block) : list Z := l ≫= units.
Definition gap (x y : block) : Prop := fst x + UNIT * snd x < fst y.

Lemma units_app a n k : 0 <= n -> 0 <= k -> units (a, n + k) = units (a, n) ++ units (a + UNIT * n, k).
Proof.
  intros Hn Hk. unfold units. cbn [fst snd]. rewrite seqZ_app, fmap_app by done. f_equal.
  replace (seqZ (0 + n) k) with (Z.add n <$> seqZ 0 k) by (rewrite fmap_add_seqZ; f_equal; lia). rewrite <- list_fmap_compose. apply list_fmap_ext. intros i x _. simpl. lia.
Qed.

Lemma elem_of_units u a n : u ∈ units (a, n) <-> exists i, 0 <= i < n /\ u = a + UNIT * i.
Proof.
  unfold units. rewrite list_elem_of_fmap. cbn [fst snd]. split.
  - intros (i & -> & Hi%elem_of_seqZ). exists i. split; [lia|done].
  - intros (i & Hi & ->). exists i. split; [done|]. apply elem_of_seqZ. lia.
Qed.

Lemma NoDup_units x : NoDup (units x).
Proof. unfold units. apply NoDup_fmap_2; [|apply NoDup_seqZ]. intros i j. unfold UNIT. lia. Qed.

Lemma length_cover l : Forall (fun x : block => 1 <= snd x) l -> (length l <= length (cover l))%nat.
Proof.
  induction 1 as [|x l Hx _ IH]; [done|]. unfold cover in *. rewrite bind_cons, length_app. unfold units at 1. rewrite length_fmap, length_seqZ. simpl. lia.
Qed.

Lemma cover_app l1 l2 : cover (l1 ++ l2) = cover l1 ++ cover l2.
Proof. apply bind_app. Qed.
Lemma cover_cons x l : cover (x :: l) = units x ++ cover l.
Proof. done. Qed.
#[global] Instance cover_perm : Proper (Permutation ==> Permutation) cover.
Proof. intros l l' H. unfold cover. by rewrite H. Qed.

(** ** The state of the heap *)

Section heap.
Context (base limit heap0 : Z).
Hypothesis base_pos : 0 < base.
Hypothesis base_below : base < heap0.
Hypothesis limit_fits : limit <= 2 ^ 32.

Definition nodes (fl : list block) : list Z := base :: (fst <$> fl).

(** The heap from [heap0] has [k] units; [fl] are the free blocks in the order
    of the ring, [live] those of the program. *)
Record ready (h : heap) (fl live : list block) (k : Z) : Prop := Ready {
  r_brk : h_brk h = heap0 + UNIT * k /\ 0 <= k /\ h_brk h <= limit;
  r_path : path (h_ptr h) (nodes fl) base;
  r_base : h_size h !! base = Some 0;
  r_size : Forall (fun x => h_size h !! fst x = Some (snd x) /\ 1 <= snd x) (fl ++ live);
  r_apart : StronglySorted gap ((base, 0) :: fl);
  r_freep : h_freep h ∈ nodes fl;
  r_cover : cover (fl ++ live) ≡ₚ units (heap0, k) }.

(** A program that has not yet called [malloc]. *)
Definition fresh (h : heap) : Prop := h_freep h = 0 /\ h_brk h = heap0 /\ heap0 <= limit.

Lemma block_inside l k a n : cover l ≡ₚ units (heap0, k) -> (a, n) ∈ l -> 1 <= n ->
  exists i, 0 <= i /\ i + n <= k /\ a = heap0 + UNIT * i.
Proof.
  intros Hc Hin Hn. assert (Hu : forall j, 0 <= j < n -> exists i, 0 <= i < k /\ a + UNIT * j = heap0 + UNIT * i).
  { intros j Hj. assert (Hx : a + UNIT * j ∈ units (heap0, k)).
    { rewrite <- Hc. unfold cover. apply list_elem_of_bind. exists (a, n). split; [apply elem_of_units; by exists j|done]. }
    apply elem_of_units in Hx as (i & Hi & E). by exists i. }
  destruct (Hu 0) as (i & Hi & E); [lia|]. destruct (Hu (n - 1)) as (i' & Hi' & E'); [lia|]. exists i. unfold UNIT in *. lia.
Qed.

(** Two blocks of a cover do not overlap. *)
Lemma blocks_apart l k x y l' : cover l ≡ₚ units (heap0, k) -> l ≡ₚ x :: y :: l' -> 1 <= snd x -> 1 <= snd y ->
  fst x < fst y -> fst x + UNIT * snd x <= fst y.
Proof.
  intros Hc Hl Hx Hy Hlt. destruct x as [a n], y as [b m]. cbn [fst snd] in *.
  destruct (block_inside l k a n) as (i & Hi & Hik & ->); [done|rewrite Hl; set_solver|done|].
  destruct (block_inside l k b m) as (j & Hj & Hjk & ->); [done|rewrite Hl; set_solver|done|].
  assert (Hnd : NoDup (cover l)) by (rewrite Hc; apply NoDup_units). rewrite Hl, !cover_cons in Hnd.
  apply NoDup_app in Hnd as (_ & Hd & _). destruct (Z.le_gt_cases (i + n) j) as [|Hgt]; [unfold UNIT in *; lia|]. exfalso.
  apply (Hd (heap0 + UNIT * j)).
  - apply elem_of_units. exists (j - i). unfold UNIT in *. lia.
  - rewrite elem_of_app, elem_of_units. left. exists 0. lia.
Qed.

Section state.
Context (h : heap) (fl live : list block) (k : Z) (Hr : ready h fl live k).

Lemma free_block_pos x : x ∈ (base, 0) :: fl -> 0 <= snd x /\ base <= fst x.
Proof.
  destruct Hr as [_ _ _ Hs Ha _ _]. apply Forall_app in Hs as [Hs _]. rewrite Forall_forall in Hs.
  intros [->|Hx]%elem_of_cons; [simpl; lia|]. apply StronglySorted_cons in Ha as [Ha _]. rewrite Forall_forall in Ha.
  specialize (Ha x Hx). unfold gap in Ha. cbn [fst snd] in Ha. destruct (Hs x Hx). unfold UNIT in *. lia.
Qed.

Lemma nodes_sorted : StronglySorted Z.lt (nodes fl).
Proof.
  change (nodes fl) with (fst <$> ((base, 0) :: fl)). assert (Hp := free_block_pos). destruct Hr as [_ _ _ _ Ha _ _].
  induction Ha as [|x l Ha IH Hx]; [constructor|]. simpl. constructor; [apply IH; intros y Hy; apply Hp; by right|].
  apply Forall_fmap, Forall_forall. rewrite Forall_forall in Hx. intros y Hy. specialize (Hx y Hy). unfold gap in Hx.
  destruct (Hp x ltac:(by left)). unfold UNIT in *. simpl. lia.
Qed.

Lemma nodes_NoDup : NoDup (nodes fl).
Proof.
  pose proof nodes_sorted as H. induction H as [|a l H IH Ha]; constructor; [|done]. rewrite Forall_forall in Ha. intros Hin. specialize (Ha a Hin). lia.
Qed.

Lemma nodes_size : (length (nodes fl) <= size (h_ptr h))%nat.
Proof. destruct Hr. eapply path_size; [apply nodes_NoDup|done]. Qed.
End state.

Lemma sorted_lookup (l : list Z) i j x y : StronglySorted Z.lt l -> l !! i = Some x -> l !! j = Some y -> (i < j)%nat -> x < y.
Proof.
  intros Hs. revert i j. induction Hs as [|a l Hs IH Ha]; intros [|i] [|j]; simpl; try (done || lia).
  - intros [= ->] Hj _. rewrite Forall_forall in Ha. apply Ha. by eapply list_elem_of_lookup_2.
  - intros Hi Hj Hij. apply (IH i j); [done|done|lia].
Qed.

(** ** free *)

(** A place in the ring for an address that is not in it. *)
Lemma split_at fl bp : StronglySorted Z.lt (fst <$> fl) -> bp ∉ (fst <$> fl) ->
  exists l1 l2, fl = l1 ++ l2 /\ (forall x : block, x ∈ l1 -> fst x < bp) /\ (forall x : block, x ∈ l2 -> bp < fst x).
Proof.
  induction fl as [|x fl IH]; simpl; [intros _ _; exists [], []; set_solver|]. intros [Hx Hs]%StronglySorted_cons Hb.
  apply not_elem_of_cons in Hb as [Hb1 Hb2]. rewrite Forall_fmap, Forall_forall in Hx. destruct (Z.lt_trichotomy (fst x) bp) as [Hlt|[Heq|Hgt]]; [|congruence|].
  - destruct (IH Hs Hb2) as (l1 & l2 & -> & H1 & H2). exists (x :: l1), l2. split_and!; [done| |done]. intros y [->|Hy]%elem_of_cons; [done|by apply H1].
  - exists [], (x :: fl). split_and!; [done|set_solver|]. intros y [->|Hy]%elem_of_cons; [done|]. specialize (Hx y Hy). simpl in Hx. lia.
Qed.

(** The search ends at the last node below [bp], from wherever it starts. *)
Lemma free_search h l1 l2 live k bp : ready h (l1 ++ l2) live k -> base < bp ->
  (forall x, x ∈ l1 -> fst x < bp) -> (forall x, x ∈ l2 -> bp < fst x) ->
  forall fuel i p, nodes (l1 ++ l2) !! i = Some p -> (dist (length (nodes (l1 ++ l2))) i (length l1) < fuel)%nat ->
  wp (loop fuel (free_body bp) p) (fun r h' => h' = h /\ nodes (l1 ++ l2) !! length l1 = Some r) h.
Proof.
  intros Hr Hb H1 H2. pose proof (nodes_sorted _ _ _ _ Hr) as Hs. set (N := length (nodes (l1 ++ l2))).
  assert (Hlow : forall i p, nodes (l1 ++ l2) !! i = Some p -> ((i <= length l1)%nat -> base <= p < bp) /\ ((length l1 < i)%nat -> bp < p)).
  { intros [|i] p; simpl; [intros [= <-]; lia|]. intros (x & -> & Hx)%list_lookup_fmap_Some.
    apply lookup_app_Some in Hx as [Hx|[Hl Hx]].
    - pose proof (lookup_lt_Some _ _ _ Hx). apply list_elem_of_lookup_2 in Hx. split; [|lia]. intros _. split; [|by apply H1].
      apply (free_block_pos _ _ _ _ Hr). right. apply elem_of_app. by left.
    - apply list_elem_of_lookup_2 in Hx. split; [lia|]. intros _. by apply H2. }
  induction fuel as [|fuel IH]; intros i p Hi Hd; [lia|]. pose proof (lookup_lt_Some _ _ _ Hi) as HiN. fold N in HiN.
  assert (HtN : (length l1 < N)%nat) by (unfold N, nodes; simpl; rewrite length_fmap, length_app; lia).
  destruct Hr as [_ Hp _ _ _ _ _]. pose proof (path_lookup _ _ _ _ _ Hp Hi) as Hq. pose proof (path_nxt _ _ _ _ _ Hp Hi eq_refl) as Hn. fold N in Hn.
  set (q := default base (nodes (l1 ++ l2) !! S i)) in *. apply wp_loop_S. unfold free_body, ptr. wp_step. wp_step. rewrite Hq. simpl default.
  destruct (Hlow i p Hi) as [Hl1 Hl2]. destruct (Hlow _ q Hn) as [Hn1 Hn2]. destruct (decide (i = length l1)) as [->|Hne].
  - specialize (Hl1 ltac:(lia)). assert (Hq2 : bp < q \/ q = base).
    { unfold nxt in *. destruct (Nat.eqb_spec (S (length l1)) N) as [E|E]; [right; simpl in Hn; congruence|left; apply Hn2; lia]. }
    clearbody q. destruct Hq2 as [Hq2| ->].
    + replace ((p <? bp) && (bp <? q)) with true by lia. by wp_step.
    + replace ((p <? bp) && (bp <? base)) with false by lia. replace ((base <=? p) && ((p <? bp) || (bp <? base))) with true by lia. by wp_step.
  - assert (Hstep : wp (ret (inl q)) (fun y s' => match y with inl x' => wp (loop fuel (free_body bp) x') (fun r h' => h' = h /\ nodes (l1 ++ l2) !! length l1 = Some r) s' | inr r => s' = h /\ nodes (l1 ++ l2) !! length l1 = Some r end) h).
    { wp_step. apply (IH (nxt N i)); [done|]. pose proof (dist_nxt N i (length l1) HiN HtN Hne). unfold N in *. lia. }
    assert (Hcmp : (i < length l1)%nat /\ p < q /\ q < bp \/ (length l1 < i)%nat /\ (p < q \/ q = base)).
    { destruct (Nat.lt_gt_cases i (length l1)) as [Hc _]. destruct (Hc Hne) as [Hlt|Hgt]; [left|right].
      - unfold nxt in *. destruct (Nat.eqb_spec (S i) N); [lia|]. split_and!; [done|by eapply (sorted_lookup _ i (S i)); eauto|apply Hn1; lia].
      - unfold nxt in *. split; [done|]. destruct (Nat.eqb_spec (S i) N); [right; simpl in Hn; congruence|left; by eapply (sorted_lookup _ i (S i)); eauto]. }
    destruct Hcmp as [(Hlt & Hpq & Hqb)|(Hgt & Hpq)].
    + specialize (Hl1 ltac:(lia)). replace ((p <? bp) && (bp <? q)) with false by lia. replace ((q <=? p) && ((p <? bp) || (bp <? q))) with false by lia. exact Hstep.
    + specialize (Hl2 Hgt). replace ((p <? bp) && (bp <? q)) with false by lia. replace ((q <=? p) && ((p <? bp) || (bp <? q))) with false by lia. exact Hstep.
Qed.

Lemma size_fits h fl live k n : ready h fl live k -> 0 <= n <= k -> u32 n = n.
Proof. intros [(Hb & Hk & Hl) _ _ _ _ _ _] Hn. apply u32_small. unfold UNIT in *. lia. Qed.

Lemma join_next_correct h l1 l2 live k bp n : ready h (l1 ++ l2) ((bp, n) :: live) k -> base < bp -> (forall x, x ∈ l2 -> bp < fst x) ->
  exists n' l2',
    wp (join_next bp (hd base (fst <$> l2))) (fun _ h' => h' = Heap (<[bp := hd base (fst <$> l2')]> (h_ptr h)) (<[bp := n']> (h_size h)) (h_freep h) (h_brk h)) h /\
    n <= n' /\ units (bp, n') ++ cover l2' = units (bp, n) ++ cover l2 /\
    (forall y, y ∈ l2' -> gap (bp, n') y /\ y ∈ l2) /\ StronglySorted gap l2' /\ path (h_ptr h) (fst <$> l2') base /\ (length l2' <= length l2)%nat.
Proof.
  intros Hr Hb H2. pose proof (size_fits _ _ _ _ (n + snd (hd (0, 0) l2)) Hr) as Hfit. destruct Hr as [_ Hp _ Hs Ha _ Hc].
  assert (Hp2 : path (h_ptr h) (fst <$> l2) base).
  { unfold nodes in Hp. rewrite fmap_app, app_comm_cons, path_app in Hp. tauto. }
  assert (Ha2 : StronglySorted gap l2) by (rewrite app_comm_cons in Ha; by eapply StronglySorted_app_1_r).
  rewrite Forall_forall in Hs. destruct (Hs (bp, n)) as [Hbs Hn1]; [set_solver|]. cbn [fst snd] in Hbs, Hn1.
  assert (Hlast : wp (set_ptr bp (hd base (fst <$> l2))) (fun _ h' => h' = Heap (<[bp := hd base (fst <$> l2)]> (h_ptr h)) (<[bp := n]> (h_size h)) (h_freep h) (h_brk h)) h).
  { unfold set_ptr. wp_step. by rewrite (insert_id (h_size h)). }
  destruct l2 as [|y l2].
  - exists n, []. split_and!; [|lia|done|set_solver|constructor|done|done]. unfold join_next, size_of. wp_step. wp_step. rewrite Hbs. simpl.
    replace (bp + UNIT * n =? base) with false by (unfold UNIT; lia). exact Hlast.
  - destruct (Hs y) as [Hys Hy1]; [set_solver|]. pose proof (H2 y ltac:(by left)) as Hlt.
    assert (Hle : bp + UNIT * n <= fst y).
    { apply (blocks_apart _ k (bp, n) y (l1 ++ l2 ++ live)) in Hc; [done| |done|done|done]. solve_Permutation. }
    apply StronglySorted_cons in Ha2 as Ha2'. destruct Ha2' as [Hgy Ha3]. rewrite Forall_forall in Hgy.
    destruct (Z.eqb_spec (bp + UNIT * n) (fst y)) as [E|E].
    + exists (n + snd y), l2. simpl fmap in *. cbn [hd path] in *. destruct Hp2 as [Hpy Hp2]. split_and!; [|lia| | |done|done|simpl; lia].
      * unfold join_next, size_of, set_size, ptr, set_ptr. wp_step. wp_step. rewrite Hbs. cbn [default from_option id]. rewrite (proj2 (Z.eqb_eq _ _) E).
        wp_go. simpl. rewrite Hys, Hpy. simpl. rewrite Hfit; [done|]. simpl. split; [lia|].
        destruct (block_inside _ k bp n Hc) as (i & ? & ? & ->); [set_solver|done|]. destruct y as [a m]. simpl in *.
        destruct (block_inside _ k a m Hc) as (j & ? & ? & ->); [set_solver|done|]. unfold UNIT in *. lia.
      * rewrite cover_cons, units_app, <- app_assoc by lia. destruct y as [a m]. simpl in *. by rewrite E.
      * intros z Hz. split; [|by right]. specialize (Hgy z Hz). unfold gap in *. cbn [fst snd]. unfold UNIT in *. lia.
    + exists n, (y :: l2). split_and!; [|lia|done| |done|done|done].
      * unfold join_next, size_of. wp_step. wp_step. rewrite Hbs. cbn [default from_option id]. simpl fmap. cbn [hd].
        rewrite (proj2 (Z.eqb_neq _ _) E). exact Hlast.
      * intros z Hz. split; [|done]. unfold gap. cbn [fst snd]. apply elem_of_cons in Hz as [->|Hz]; [unfold UNIT in *; lia|].
        specialize (Hgy z Hz). unfold gap in Hgy. unfold UNIT in *. lia.
Qed.

(** Addresses of blocks of a cover differ. *)
Lemma cover_addr l k x y l' : cover l ≡ₚ units (heap0, k) -> l ≡ₚ x :: y :: l' -> 1 <= snd x -> 1 <= snd y -> fst x <> fst y.
Proof.
  intros Hc Hl Hx Hy E. destruct x as [a n], y as [b m]. cbn [fst snd] in *. subst b.
  assert (Hnd : NoDup (cover l)) by (rewrite Hc; apply NoDup_units). rewrite Hl, !cover_cons in Hnd. apply NoDup_app in Hnd as (_ & Hd & _).
  apply (Hd a); [apply elem_of_units; exists 0; lia|rewrite elem_of_app, elem_of_units; left; exists 0; lia].
Qed.

Lemma last_node l1 l2 (p : Z) : nodes (l1 ++ l2) !! length l1 = Some p ->
  exists pre ps, (base, 0) :: l1 = pre ++ [(p, ps)].
Proof.
  destruct l1 as [|x l1 _] using rev_ind.
  - simpl. intros [= ->]. by exists [], 0.
  - rewrite length_app. simpl. rewrite Nat.add_1_r. simpl. rewrite !fmap_app, <- app_assoc, lookup_app_r by (by rewrite length_fmap).
    rewrite length_fmap, Nat.sub_diag. simpl. intros [= <-]. destruct x as [p ps]. by exists ((base, 0) :: l1), ps.
Qed.

Section join_prev.
Context (h : heap) (l1 l2 live : list block) (k bp n : Z) (Hr : ready h (l1 ++ l2) ((bp, n) :: live) k).
Context (Hb : base < bp) (H1 : forall x, x ∈ l1 -> fst x < bp).
Context (n' : Z) (l2' : list block) (Hn : n <= n') (Hcov : units (bp, n') ++ cover l2' = units (bp, n) ++ cover l2).
Context (H2 : forall y, y ∈ l2' -> gap (bp, n') y /\ y ∈ l2) (Hs2 : StronglySorted gap l2') (Hp2 : path (h_ptr h) (fst <$> l2') base) (Hlen : (length l2' <= length l2)%nat).
Context (pre : list block) (p ps : Z) (Hpre : (base, 0) :: l1 = pre ++ [(p, ps)]).
Let h1 := Heap (<[bp := hd base (fst <$> l2')]> (h_ptr h)) (<[bp := n']> (h_size h)) (h_freep h) (h_brk h).

Lemma jp_cover : cover (l1 ++ (bp, n') :: l2' ++ live) ≡ₚ units (heap0, k).
Proof.
  destruct Hr as [_ _ _ _ _ _ Hc]. rewrite <- Hc. rewrite !cover_app, !cover_cons, !cover_app, (app_assoc _ (cover l2')), Hcov. solve_Permutation.
Qed.

Lemma jp_size x : x ∈ l1 ++ l2' ++ live -> h_size h !! fst x = Some (snd x) /\ 1 <= snd x /\ fst x <> bp.
Proof.
  destruct Hr as [_ _ _ Hs _ _ Hc]. rewrite Forall_forall in Hs. destruct (Hs (bp, n)) as [_ Hn1]; [set_solver|]. cbn [snd] in Hn1. intros Hx.
  destruct (Hs x) as [Hsx Hx1]; [rewrite !elem_of_app in *; destruct Hx as [?|[?|?]]; [by left; left|left; right; by apply H2|by right; right]|].
  split_and!; [done|done|]. pose proof jp_cover as Hc'. intros E. rewrite !elem_of_app in Hx. destruct Hx as [Hx|[Hx|Hx]].
  - specialize (H1 x Hx). lia.
  - destruct (H2 x Hx) as [Hg _]. unfold gap in Hg. cbn [fst snd] in Hg. unfold UNIT in *. lia.
  - apply elem_of_Permutation in Hx as [live' Hl]. symmetry in E. revert E.
    apply (cover_addr _ k (bp, n') x (l1 ++ l2' ++ live') Hc'); [rewrite Hl; solve_Permutation|simpl; lia|done].
Qed.

Lemma jp_prev_size : h_size h !! p = Some ps /\ 0 <= ps /\ p < bp /\ p + UNIT * ps <= bp /\ (ps = 0 <-> pre = []).
Proof.
  assert (Hx : (p, ps) ∈ (base, 0) :: l1) by (rewrite Hpre; set_solver). assert (Hcase : pre = [] /\ p = base /\ ps = 0 \/ pre <> [] /\ (p, ps) ∈ l1).
  { destruct pre as [|y pre']; simpl in Hpre; simplify_eq; [by left|right]. split; [done|]. set_solver. }
  destruct Hr as [_ _ Hbase _ _ _ Hc]. destruct Hcase as [(-> & -> & ->)|[Hne Hin]].
  - split_and!; [done|lia|done|lia|done].
  - destruct (jp_size (p, ps)) as (Hs & H0 & _); [set_solver|]. cbn [fst snd] in *. specialize (H1 _ Hin). cbn [fst] in H1. apply elem_of_Permutation in Hin as [l1' Hl].
    pose proof (blocks_apart _ k (p, ps) (bp, n') (l1' ++ l2' ++ live) jp_cover) as Hap. cbn [fst snd] in Hap.
    destruct Hr as [_ _ _ Hs' _ _ _]. rewrite Forall_forall in Hs'. destruct (Hs' (bp, n)) as [_ Hn1]; [set_solver|]. cbn [snd] in Hn1.
    split_and!; [done|lia|done|apply Hap; [rewrite Hl; solve_Permutation|lia|lia|lia]|split; [lia|done]].
Qed.

Lemma jp_pre : path (h_ptr h) (fst <$> pre) p /\ NoDup (fst <$> pre ++ [(p, ps)]) /\ (forall a, a ∈ fst <$> pre ++ [(p, ps)] -> base <= a < bp).
Proof.
  pose proof (nodes_NoDup _ _ _ _ Hr) as Hnd. assert (Hpos : forall x, x ∈ (base, 0) :: l1 -> base <= fst x).
  { intros x Hx. apply (free_block_pos _ _ _ _ Hr). set_solver. }
  destruct Hr as [_ Hp _ _ _ _ _]. unfold nodes in *. change base with (fst (base, 0)) in Hp at 1, Hnd. rewrite <- fmap_cons, app_comm_cons, Hpre in Hp, Hnd.
  rewrite <- app_assoc, fmap_app, path_app in Hp. rewrite fmap_app in Hnd. apply NoDup_app in Hnd as (Hnd & _). split_and!; [by apply Hp|done|].
  intros a (x & -> & Hx)%list_elem_of_fmap. rewrite <- Hpre in Hx. split; [by apply Hpos|]. apply elem_of_cons in Hx as [->|Hx]; [done|by apply H1].
Qed.

Lemma jp_gap x y : x ∈ pre ++ [(p, ps)] -> y ∈ l2' -> gap x y.
Proof.
  rewrite <- Hpre. intros Hx Hy. destruct Hr as [_ _ _ _ Ha _ _]. rewrite app_comm_cons in Ha. eapply StronglySorted_app_1_elem_of; [exact Ha|done|by apply H2].
Qed.

Lemma jp_sorted : StronglySorted gap (pre ++ [(p, ps)]).
Proof. rewrite <- Hpre. destruct Hr as [_ _ _ _ Ha _ _]. rewrite app_comm_cons in Ha. by eapply StronglySorted_app_1_l. Qed.

Lemma jp_next_above a : a ∈ fst <$> l2' -> bp < a.
Proof. intros (y & -> & Hy)%list_elem_of_fmap. destruct (H2 y Hy) as [Hg _]. unfold gap in Hg. cbn [fst snd] in Hg. destruct (jp_size y) as (_ & ? & _); [set_solver|].
  destruct Hr as [_ _ _ Hs _ _ _]. rewrite Forall_forall in Hs. destruct (Hs (bp, n)) as [_ Hn1]; [set_solver|]. cbn [snd] in Hn1. unfold UNIT in *. lia.
Qed.

Lemma n_pos : 1 <= n.
Proof. destruct Hr as [_ _ _ Hs _ _ _]. rewrite Forall_forall in Hs. by destruct (Hs (bp, n)) as [_ Hn1]; [set_solver|]. Qed.

(** The block is linked in behind its predecessor. *)
Lemma linked_ready : p + UNIT * ps < bp ->
  ready (Heap (<[p := bp]> (h_ptr h1)) (h_size h1) p (h_brk h)) (l1 ++ (bp, n') :: l2') live k.
Proof.
  intros Hlt. pose proof jp_cover as Hc. destruct jp_pre as (Hp1 & Hnd & Hrange). destruct jp_prev_size as (Hps & Hps0 & Hpb & _ & _).
  assert (Hnodes : nodes (l1 ++ (bp, n') :: l2') = (fst <$> pre) ++ [p] ++ bp :: (fst <$> l2')).
  { unfold nodes. change base with (fst (base, 0)) at 1. rewrite <- fmap_cons, app_comm_cons, Hpre, !fmap_app, <- app_assoc. done. }
  rewrite fmap_app in Hnd, Hrange. apply NoDup_app in Hnd as (_ & Hnd & _).
  destruct Hr as [Hk _ Hbase _ _ _ _]. split; cbn [h_ptr h_size h_freep h_brk h1].
  - done.
  - rewrite Hnodes. apply path_app. split.
    + simpl. apply path_insert; [intros Hin; apply (Hnd p Hin); set_solver|]. apply path_insert; [|done]. intros Hin. specialize (Hrange bp ltac:(set_solver)). lia.
    + split; [by rewrite lookup_insert_eq|]. split; [rewrite lookup_insert_ne by lia; by rewrite lookup_insert_eq|].
      apply path_insert; [intros Hin%jp_next_above; lia|]. apply path_insert; [intros Hin%jp_next_above; lia|done].
  - by rewrite lookup_insert_ne by lia.
  - apply Forall_forall. intros x Hx. destruct (decide (x = (bp, n'))) as [->|Hne]; [cbn [fst snd]; rewrite lookup_insert_eq; pose proof n_pos; split; [done|lia]|].
    destruct (jp_size x) as (Hsx & Hx1 & Hxb); [set_solver|]. by rewrite lookup_insert_ne by done.
  - rewrite app_comm_cons, Hpre. apply StronglySorted_app_2; [|apply jp_sorted|apply StronglySorted_cons; split; [apply Forall_forall; intros y Hy; by apply H2|done]].
    intros x y Hx [->|Hy]%elem_of_cons; [|by apply jp_gap]. apply elem_of_app in Hx as [Hx|Hx%list_elem_of_singleton]; [|subst x; exact Hlt].
    pose proof (StronglySorted_app_1_elem_of _ _ _ x (p, ps) jp_sorted Hx ltac:(set_solver)) as Hg. unfold gap in *. cbn [fst snd] in *. unfold UNIT in *. lia.
  - rewrite Hnodes. set_solver.
  - rewrite <- Hc. by rewrite <- app_assoc.
Qed.

(** The block becomes part of its predecessor. *)
Lemma merged_ready : p + UNIT * ps = bp -> exists l1', l1 = l1' ++ [(p, ps)] /\
  ready (Heap (<[p := hd base (fst <$> l2')]> (h_ptr h1)) (<[p := ps + n']> (h_size h1)) p (h_brk h)) (l1' ++ (p, ps + n') :: l2') live k.
Proof.
  intros Heq. pose proof jp_cover as Hc. destruct jp_pre as (Hp1 & Hnd & Hrange). destruct jp_prev_size as (Hps & Hps0 & Hpb & _ & Hz).
  pose proof jp_gap as Hgap. pose proof jp_sorted as Hsort. pose proof n_pos as Hn1. pose proof jp_size as Hsize. pose proof jp_next_above as Habove.
  destruct pre as [|x0 l1']; [exfalso; assert (ps = 0) by (by apply Hz); unfold UNIT in *; lia|]. simpl in Hpre. injection Hpre as <- Hl1. exists l1'. split; [done|].
  assert (Hnodes : nodes (l1' ++ (p, ps + n') :: l2') = (fst <$> (base, 0) :: l1') ++ [p] ++ (fst <$> l2')).
  { unfold nodes. simpl. by rewrite fmap_app. }
  rewrite fmap_app in Hnd, Hrange. apply NoDup_app in Hnd as (_ & Hnd & _).
  assert (Hne : forall x, x ∈ l1' ++ l2' ++ live -> fst x <> p).
  { intros x Hx E. assert (Hx1 : 1 <= snd x) by (apply (Hsize x); rewrite Hl1; set_solver). assert (Hp1' : 1 <= ps) by (destruct (Z.eq_dec ps 0) as [->|]; [pose proof (proj1 Hz eq_refl); done|lia]).
    apply elem_of_Permutation in Hx as [rest Hrest]. revert E. apply (cover_addr _ k x (p, ps) ((bp, n') :: rest) Hc); [|done|done].
    rewrite Hl1. transitivity ((p, ps) :: (bp, n') :: (l1' ++ l2' ++ live)); [solve_Permutation|]. rewrite Hrest. solve_Permutation. }
  destruct Hr as [Hk _ Hbase _ _ _ _]. split; cbn [h_ptr h_size h_freep h_brk h1].
  - done.
  - rewrite Hnodes. apply path_app. split.
    + simpl hd. apply path_insert; [intros Hin; apply (Hnd p Hin); set_solver|]. apply path_insert; [|done]. intros Hin. specialize (Hrange bp ltac:(set_solver)). lia.
    + split; [by rewrite lookup_insert_eq|]. apply path_insert; [intros Hin%Habove; lia|]. apply path_insert; [intros Hin%Habove; lia|done].
  - assert (base <> p) by (intros <-; apply (Hnd base); simpl; set_solver). rewrite !lookup_insert_ne by lia. done.
  - apply Forall_forall. intros x Hx. destruct (decide (x = (p, ps + n'))) as [->|Hnx]; [cbn [fst snd]; rewrite lookup_insert_eq; split; [done|lia]|].
    assert (Hin : x ∈ l1' ++ l2' ++ live) by set_solver. destruct (Hsize x) as (Hsx & Hx1 & Hxb); [rewrite Hl1; set_solver|].
    specialize (Hne x Hin). by rewrite !lookup_insert_ne by done.
  - rewrite app_comm_cons. apply StronglySorted_app in Hsort as (Hx & Hsort & _). apply StronglySorted_app_2; [|done|].
    + intros x y Hx' [->|Hy]%elem_of_cons; [apply (Hx x (p, ps) Hx'); set_solver|apply Hgap; [set_solver|done]].
    + apply StronglySorted_cons. split; [|done]. apply Forall_forall. intros y Hy. destruct (H2 y Hy) as [Hg _]. unfold gap in *. cbn [fst snd] in *. unfold UNIT in *. lia.
  - rewrite Hnodes. set_solver.
  - rewrite <- Hc, Hl1. rewrite <- !app_assoc. simpl. rewrite !cover_app, !cover_cons, units_app by lia. rewrite Heq. solve_Permutation.
Qed.

Lemma join_prev_correct : wp (join_prev p bp ;; set_freep p) (fun _ h' => exists fl', ready h' fl' live k /\
  (exists x, x ∈ fl' /\ n <= snd x) /\ (length fl' <= S (length (l1 ++ l2)))%nat) h1.
Proof.
  destruct jp_prev_size as (Hps & Hps0 & Hpb & Hle & _). pose proof n_pos as Hn1. pose proof (size_fits _ _ _ _ (ps + n') Hr) as Hfit.
  unfold join_prev, size_of, ptr, set_ptr, set_size, set_freep. wp_step. wp_step. wp_step. simpl. rewrite lookup_insert_ne by lia. rewrite Hps. simpl.
  destruct (Z.eqb_spec (p + UNIT * ps) bp) as [E|E].
  - destruct (merged_ready E) as (l1' & Hl1 & Hready). wp_go. simpl. rewrite !lookup_insert_eq. simpl. rewrite Hfit; [|split; [lia|]].
    + exists (l1' ++ (p, ps + n') :: l2'). split_and!; [exact Hready|exists (p, ps + n'); split; [set_solver|simpl; lia]|].
      rewrite Hl1, !length_app. simpl. lia.
    + pose proof jp_cover as Hc. destruct (block_inside _ k bp n' Hc) as (j & ? & ? & Hj); [set_solver|lia|].
      destruct (decide (ps = 0)) as [->|]; [lia|]. destruct (block_inside _ k p ps Hc) as (i & ? & ? & Hi); [rewrite Hl1; set_solver|lia|]. unfold UNIT in *. lia.
  - wp_go. exists (l1 ++ (bp, n') :: l2'). split_and!; [apply linked_ready; lia|exists (bp, n'); split; [set_solver|simpl; lia]|].
    rewrite !length_app. simpl. lia.
Qed.
End join_prev.

Lemma free_spec h fl live k bp n : ready h fl ((bp, n) :: live) k ->
  wp (free (bp + UNIT)) (fun _ h' => exists fl', ready h' fl' live k /\ (exists x, x ∈ fl' /\ n <= snd x) /\ (length fl' <= S (length fl))%nat) h.
Proof.
  intros Hr. pose proof (nodes_sorted _ _ _ _ Hr) as Hsort. pose proof (nodes_size _ _ _ _ Hr) as Hsize.
  assert (Hn1 : 1 <= n) by (destruct Hr as [_ _ _ Hs _ _ _]; rewrite Forall_forall in Hs; by destruct (Hs (bp, n)); [set_solver|]).
  assert (Hb : base < bp).
  { destruct Hr as [_ _ _ _ _ _ Hc]. destruct (block_inside _ k bp n Hc) as (i & ? & ? & ->); [set_solver|done|]. unfold UNIT. lia. }
  assert (Hfresh : bp ∉ fst <$> fl).
  { intros (x & E & Hx)%list_elem_of_fmap. destruct Hr as [_ _ _ Hs _ _ Hc]. rewrite Forall_forall in Hs. destruct (Hs x) as [_ Hx1]; [set_solver|].
    apply elem_of_Permutation in Hx as [rest Hrest]. revert E. apply (cover_addr _ k (bp, n) x (rest ++ live) Hc); [rewrite Hrest; solve_Permutation|done|done]. }
  destruct (split_at fl bp) as (l1 & l2 & -> & H1 & H2); [by apply StronglySorted_cons in Hsort as [_ ?]|done|].
  unfold free. replace (bp + UNIT - UNIT) with bp by lia. wp_step. wp_step. wp_step. unfold headers. wp_step. wp_step.
  pose proof (r_freep _ _ _ _ Hr) as Hf. apply list_elem_of_lookup in Hf as [i Hi]. pose proof (lookup_lt_Some _ _ _ Hi) as HiN.
  assert (HtN : (length l1 < length (nodes (l1 ++ l2)))%nat) by (unfold nodes; simpl; rewrite length_fmap, length_app; lia).
  eapply wp_mono; [apply (free_search h l1 l2 _ k bp Hr Hb H1 H2 _ i _ Hi); pose proof (dist_lt _ _ _ HiN HtN); lia|].
  intros p h' [-> Hp]. destruct (last_node l1 l2 p Hp) as (pre & ps & Hpre).
  assert (Hq : h_ptr h !! p = Some (hd base (fst <$> l2))).
  { rewrite (path_lookup _ _ _ _ _ (r_path _ _ _ _ Hr) Hp). f_equal. unfold nodes. simpl. rewrite fmap_app, lookup_app_r by (by rewrite length_fmap).
    rewrite length_fmap, Nat.sub_diag. by destruct l2. }
  unfold ptr. wp_step. wp_step. rewrite Hq. cbn [default from_option id].
  destruct (join_next_correct h l1 l2 live k bp n Hr Hb H2) as (n' & l2' & Hj & Hn & Hcov & H2' & Hs2 & Hp2 & Hlen).
  wp_step. eapply wp_mono; [exact Hj|]. intros _ h' ->. by apply (join_prev_correct h l1 l2 live k bp n Hr Hb H1 n' l2' Hn Hcov H2' Hs2 Hp2 Hlen pre p ps Hpre).
Qed.

(** ** malloc *)

(** What [malloc] leaves when it returns [r]. *)
Definition allocated (h : heap) (nunits r : Z) (live : list block) (k : Z) : Prop :=
  exists fl, ready h fl ((r - UNIT, nunits) :: live) k.

Lemma take_block_correct h f1 f2 live k (p s nunits prevp : Z) i : ready h (f1 ++ (p, s) :: f2) live k ->
  i = length f1 -> nodes (f1 ++ (p, s) :: f2) !! i = Some prevp -> 1 <= nunits <= s ->
  wp (take_block nunits prevp p s) (fun r h' => allocated h' nunits r live k /\ r <> 0) h.
Proof.
  intros Hr -> Hprev Hn. pose proof (nodes_NoDup _ _ _ _ Hr) as Hnd. destruct (last_node _ _ _ Hprev) as (pre & ps & Hpre).
  pose proof (size_fits _ _ _ _ (s - nunits) Hr) as Hfit. destruct Hr as [Hk Hp Hbase Hs Ha Hf Hc].
  destruct (block_inside _ k p s Hc) as (j & Hj & Hjk & Ej); [set_solver|lia|].
  assert (Hnodes : nodes (f1 ++ (p, s) :: f2) = (fst <$> pre) ++ [prevp] ++ p :: (fst <$> f2)).
  { unfold nodes. change base with (fst (base, 0)) at 1. rewrite <- fmap_cons, app_comm_cons, Hpre, !fmap_app, <- app_assoc. done. }
  assert (Hpr : path (h_ptr h) (fst <$> pre) prevp /\ h_ptr h !! p = Some (hd base (fst <$> f2)) /\ path (h_ptr h) (fst <$> f2) base).
  { rewrite Hnodes, path_app in Hp. destruct Hp as [Hp1 [_ [Hp2 Hp3]]]. done. }
  destruct Hpr as (Hp1 & Hpp & Hp2). rewrite Hnodes in Hnd. apply NoDup_app in Hnd as (_ & Hnd1 & Hnd2). apply NoDup_cons in Hnd2 as [Hnd2 Hnd3].
  rewrite Forall_forall in Hs. unfold take_block, ptr, set_ptr, set_size, set_freep, size_of. wp_step. destruct (Z.eqb_spec s nunits) as [->|Hne].
  - wp_go. rewrite Hpp. simpl. split; [|unfold UNIT in *; lia]. exists (f1 ++ f2). replace (p + UNIT - UNIT) with p by lia.
    assert (Hnodes' : nodes (f1 ++ f2) = (fst <$> pre) ++ [prevp] ++ (fst <$> f2)).
    { unfold nodes. change base with (fst (base, 0)) at 1. rewrite <- fmap_cons, app_comm_cons, Hpre, !fmap_app, <- app_assoc. done. }
    split; cbn [h_ptr h_size h_freep h_brk]; [done| |done| | | |].
    + rewrite Hnodes'. apply path_app. split; [apply path_insert; [intros Hin; apply (Hnd1 prevp Hin); set_solver|done]|].
      split; [by rewrite lookup_insert_eq|]. apply path_insert; [set_solver|done].
    + apply Forall_forall. intros x Hx. apply Hs. set_solver.
    + rewrite app_comm_cons in Ha |- *. apply StronglySorted_app in Ha as (Hx & Ha1 & [_ Ha2]%StronglySorted_cons).
      apply StronglySorted_app_2; [|done|done]. intros x y Hx' Hy. apply Hx; [done|set_solver].
    + rewrite Hnodes'. set_solver.
    + rewrite <- Hc. apply cover_perm. solve_Permutation.
  - wp_go. simpl. rewrite lookup_insert_eq. simpl. rewrite Hfit by (unfold UNIT in *; lia). set (r := p + UNIT * (s - nunits)).
    assert (Hr0 : p < r) by (unfold r, UNIT; lia). split; [|unfold UNIT in *; lia]. exists (f1 ++ (p, s - nunits) :: f2). replace (r + UNIT - UNIT) with r by lia.
    assert (Hcov : cover ((f1 ++ (p, s - nunits) :: f2) ++ (r, nunits) :: live) ≡ₚ units (heap0, k)).
    { assert (Hu : units (p, s) = units (p, s - nunits) ++ units (r, nunits)) by (unfold r; rewrite <- units_app by lia; f_equal; f_equal; lia).
      rewrite <- Hc, !cover_app, !cover_cons, Hu. solve_Permutation. }
    assert (Hapart : forall x, x ∈ f1 ++ f2 ++ live -> fst x <> p /\ fst x <> r).
    { intros x Hx. assert (Hx1 : 1 <= snd x) by (apply Hs; set_solver). apply elem_of_Permutation in Hx as [rest Hrest]. split.
      - apply (cover_addr _ k x (p, s) rest Hc); [transitivity ((p, s) :: f1 ++ f2 ++ live); [solve_Permutation|rewrite Hrest; solve_Permutation]|done|simpl; lia].
      - apply (cover_addr _ k x (r, nunits) ((p, s - nunits) :: rest) Hcov); [|done|simpl; lia].
        transitivity ((r, nunits) :: (p, s - nunits) :: f1 ++ f2 ++ live); [solve_Permutation|rewrite Hrest; solve_Permutation]. }
    split; cbn [h_ptr h_size h_freep h_brk]; [done| | | | | |done].
    + rewrite Hnodes in Hp. unfold nodes. change base with (fst (base, 0)) at 1. rewrite <- fmap_cons, app_comm_cons, Hpre, !fmap_app, <- app_assoc. done.
    + assert (base < p) by (unfold UNIT in *; lia). by rewrite !lookup_insert_ne by lia.
    + apply Forall_forall. intros x Hx. rewrite elem_of_app in Hx.
      assert (Hcase : x = (p, s - nunits) \/ x = (r, nunits) \/ x ∈ f1 ++ f2 ++ live) by set_solver. destruct Hcase as [->|[->|Hin]]; cbn [fst snd].
      * rewrite lookup_insert_ne, lookup_insert_eq by lia. split; [done|lia].
      * rewrite lookup_insert_eq. split; [done|lia].
      * destruct (Hapart x Hin). rewrite !lookup_insert_ne by done. apply Hs. set_solver.
    + rewrite app_comm_cons in Ha |- *. apply StronglySorted_app in Ha as (Hx & Ha1 & [Hfa Ha2]%StronglySorted_cons).
      rewrite Forall_forall in Hfa. apply StronglySorted_app_2; [|done|apply StronglySorted_cons; split; [|done]].
      * intros x y Hx' [->|Hy]%elem_of_cons; [apply (Hx x (p, s) Hx'); set_solver|apply Hx; [done|set_solver]].
      * apply Forall_forall. intros y Hy. specialize (Hfa y Hy). unfold gap in *. cbn [fst snd] in *. unfold UNIT in *. lia.
    + unfold nodes. change base with (fst (base, 0)) at 1. rewrite <- fmap_cons, app_comm_cons, Hpre, !fmap_app, <- app_assoc. set_solver.
Qed.

Abbreviation blocks fl := ((base, 0) :: fl).
Abbreviation body := (malloc_body limit).

Lemma dist_inj n i j t : (i < n)%nat -> (j < n)%nat -> (t < n)%nat -> dist n i t = dist n j t -> i = j.
Proof. unfold dist. intros. destruct (Nat.leb_spec i t), (Nat.leb_spec j t); lia. Qed.

Lemma block_at h fl live k i p : ready h fl live k -> nodes fl !! i = Some p ->
  exists s, blocks fl !! i = Some (p, s) /\ h_size h !! p = Some s.
Proof.
  intros Hr Hi. change (nodes fl) with (fst <$> blocks fl) in Hi. apply list_lookup_fmap_Some in Hi as ([p' s] & -> & Hi). exists s. split; [done|].
  destruct Hr as [_ _ Hb Hs _ _ _]. apply list_elem_of_lookup_2 in Hi as Hin. apply elem_of_cons in Hin as [[= -> ->]|Hin]; [done|].
  rewrite Forall_forall in Hs. by apply (Hs (p', s)); set_solver.
Qed.

(** The search goes round the ring to the node at position [f]; it takes the
    first block that is large enough. *)
Lemma walk h fl live k nunits f Q : ready h fl live k -> nodes fl !! f = Some (h_freep h) -> 1 <= nunits ->
  (forall r h', allocated h' nunits r live k -> r <> 0 -> Q r h') ->
  forall d i prevp p fuel, dist (length (nodes fl)) (nxt (length (nodes fl)) i) f = d -> (d < fuel)%nat ->
  nodes fl !! i = Some prevp -> nodes fl !! nxt (length (nodes fl)) i = Some p ->
  (forall j x, blocks fl !! j = Some x -> (d < dist (length (nodes fl)) j f)%nat -> snd x < nunits) ->
  ((forall x, x ∈ fl -> snd x < nunits) -> forall prevp' fuel', (fuel' + d = fuel)%nat -> wp (loop fuel' (body nunits) (prevp', h_freep h)) Q h) ->
  wp (loop fuel (body nunits) (prevp, p)) Q h.
Proof.
  intros Hr Hf Hn HQ. set (N := length (nodes fl)). pose proof (nodes_NoDup _ _ _ _ Hr) as Hnd. pose proof (lookup_lt_Some _ _ _ Hf) as HfN. fold N in HfN.
  assert (HN : length (blocks fl) = N) by (unfold N, nodes; simpl; by rewrite length_fmap).
  induction d as [|d IH]; intros i prevp p fuel Hd Hfuel Hi Hp Hsmall HK; pose proof (lookup_lt_Some _ _ _ Hi) as HiN; fold N in HiN; pose proof (nxt_lt N i HiN) as HnN;
    destruct (block_at _ _ _ _ _ _ Hr Hp) as (s & Hx & Hs).
  all: assert (Htake : nunits <= s -> wp (loop fuel (body nunits) (prevp, p)) Q h).
  1, 3: intros Hfit; destruct (nxt N i) as [|m] eqn:En; [simpl in Hx; injection Hx as <- <-; lia|]; simpl in Hx;
    assert (i = m) as -> by (unfold nxt in En; destruct (Nat.eqb_spec (S i) N); lia);
    pose proof (lookup_lt_Some _ _ _ Hx) as Hm; rewrite <- (take_drop_middle _ _ _ Hx) in Hr, Hi;
    (destruct fuel as [|fuel]; [lia|]); apply wp_loop_S; unfold malloc_body, size_of; wp_step; wp_step; rewrite Hs; cbn [default from_option id];
    rewrite (proj2 (Z.leb_le _ _) Hfit); wp_step;
    (eapply wp_mono; [eapply (take_block_correct h _ _ _ k p s nunits prevp m Hr); [rewrite length_take; lia|exact Hi|lia]|]);
    intros r h' [Ha Hr0]; wp_step; by apply HQ.
  all: destruct (Z.le_gt_cases nunits s) as [Hfit|Hfit]; [by apply Htake|].
  - assert (Enf : nxt N i = f) by (apply (dist_inj N _ _ f); [done|done|done|rewrite Hd; unfold dist; rewrite Nat.leb_refl; lia]).
    assert (p = h_freep h) as -> by (rewrite Enf in Hp; congruence). apply HK; [|lia]. intros x Hin. apply list_elem_of_lookup in Hin as [j Hj].
    destruct (decide (S j = f)) as [E|E]; [rewrite Enf, <- E in Hx; simpl in Hx; rewrite Hj in Hx; by simplify_eq|].
    apply (Hsmall (S j)); [done|]. pose proof (lookup_lt_Some _ _ _ Hj). simpl in HN. unfold dist. destruct (Nat.leb_spec (S j) f); lia.
  - assert (Hne : nxt N i <> f) by (intros E; rewrite E in Hd; unfold dist in Hd; rewrite Nat.leb_refl in Hd; lia).
    assert (Hpf : p <> h_freep h) by (intros ->; apply Hne; by eapply NoDup_lookup).
    destruct fuel as [|fuel]; [lia|]. apply wp_loop_S. unfold malloc_body, size_of, ptr. wp_step. wp_step. rewrite Hs. cbn [default from_option id].
    rewrite (proj2 (Z.leb_gt _ _) Hfit). wp_step. wp_step. rewrite (proj2 (Z.eqb_neq _ _) Hpf). wp_step. wp_step. wp_step.
    rewrite (path_lookup _ _ _ _ _ (r_path _ _ _ _ Hr) Hp). cbn [default from_option id]. pose proof (dist_nxt N (nxt N i) f HnN HfN Hne) as Hdn.
    apply (IH (nxt N i)); [lia|lia|done|by eapply (path_nxt (h_ptr h)); [apply Hr|exact Hp|]| |].
    + intros j x Hj Hlt. destruct (decide (j = nxt N i)) as [->|Hj']; [rewrite Hj in Hx; by simplify_eq|]. apply (Hsmall j x Hj).
      pose proof (lookup_lt_Some _ _ _ Hj) as HjN. rewrite HN in HjN. destruct (decide (dist N j f = dist N (nxt N i) f)) as [E|E]; [|lia].
      by apply dist_inj in E.
    + intros Hall prevp' fuel' Hfl. apply HK; [done|lia].
Qed.

Definition chunk (nunits : Z) : Z := if nunits <? 4096 then 4096 else nunits.

Lemma morecore_spec h fl live k nunits : ready h fl live k -> 1 <= nunits -> UNIT * chunk nunits < 2 ^ 31 ->
  wp (morecore limit nunits) (fun r h' =>
    r = 0 /\ h' = h /\ limit < h_brk h + UNIT * chunk nunits \/
    r <> 0 /\ r = h_freep h' /\ exists fl', ready h' fl' live (k + chunk nunits) /\ (exists x, x ∈ fl' /\ nunits <= snd x) /\ (length fl' <= S (length fl))%nat) h.
Proof.
  intros Hr Hn Hfit. assert (Hc : 4096 <= chunk nunits /\ nunits <= chunk nunits) by (unfold chunk; destruct (Z.ltb_spec nunits 4096); lia).
  unfold morecore. fold (chunk nunits). set (nu := chunk nunits) in *. assert (Hs : s32 (nu * UNIT) = UNIT * nu) by (rewrite s32_small; unfold UNIT in *; lia).
  destruct Hr as [(Hb & Hk & Hl) Hp Hbase Hsz Ha Hf Hcov] eqn:Er. clear Er.
  unfold sbrk, set_brk, set_size. rewrite Hs. wp_step. wp_step. wp_step. replace (0 <=? UNIT * nu) with true by (unfold UNIT; lia).
  destruct (Z.leb_spec (h_brk h + UNIT * nu) limit) as [Hroom|Hfull].
  2: { replace ((limit <? h_brk h) || (limit - h_brk h <? UNIT * nu)) with true by lia. wp_step. rewrite Z.eqb_refl. wp_step. left. split_and!; [done|done|lia]. }
  replace ((limit <? h_brk h) || (limit - h_brk h <? UNIT * nu)) with false by lia. wp_step. wp_step. wp_step.
  replace (h_brk h =? -1) with false by (unfold UNIT in *; lia). wp_step. wp_step. wp_step. cbn [h_ptr h_size h_freep h_brk].
  assert (Hr' : ready (Heap (h_ptr h) (<[h_brk h := nu]> (h_size h)) (h_freep h) (h_brk h + UNIT * nu)) fl ((h_brk h, nu) :: live) (k + nu)).
  { split; cbn [h_ptr h_size h_freep h_brk]; [unfold UNIT in *; lia|done| | |done|done|].
    - rewrite lookup_insert_ne by (unfold UNIT in *; lia). done.
    - apply Forall_forall. intros x Hx. destruct (decide (x = (h_brk h, nu))) as [->|Hne]; [cbn [fst snd]; rewrite lookup_insert_eq; split; [done|lia]|].
      assert (Hin : x ∈ fl ++ live) by set_solver. rewrite Forall_forall in Hsz. destruct (Hsz x Hin) as [Hsx Hx1]. destruct x as [a m]. cbn [fst snd] in *.
      destruct (block_inside _ k a m Hcov Hin Hx1) as (i & ? & ? & ->). rewrite lookup_insert_ne by (unfold UNIT in *; lia). done.
    - rewrite units_app by lia. rewrite <- Hcov, <- Hb. rewrite !cover_app, cover_cons. solve_Permutation. }
  eapply wp_mono; [exact (free_spec _ _ _ _ _ _ Hr')|]. intros _ h' (fl' & Hr2 & (x & Hx & Hxn) & Hlen). wp_step. right.
  assert (Hf0 : 0 < h_freep h').
  { pose proof (r_freep _ _ _ _ Hr2) as Hin. change (nodes fl') with (fst <$> blocks fl') in Hin. apply list_elem_of_fmap in Hin as (y & -> & Hy).
    destruct (free_block_pos _ _ _ _ Hr2 y Hy). lia. }
  split_and!; [lia|done|]. exists fl'. split_and!; [done|exists x; split; [done|lia]|done].
Qed.

(** The program so far: it has never allocated, or its heap is in order. *)
Definition started (h : heap) (fl live : list block) (k : Z) : Prop :=
  fresh h /\ fl = [] /\ live = [] /\ k = 0 \/ ready h fl live k.

Lemma dist_far n j f : (j < n)%nat -> (f < n)%nat -> (dist n j f <= dist n (nxt n f) f)%nat.
Proof.
  intros. unfold dist, nxt. destruct (Nat.eqb_spec (S f) n); repeat match goal with |- context [(?x <=? ?y)%nat] => destruct (Nat.leb_spec x y) end; lia.
Qed.

(** A search that starts behind [freep], with what it does when no block of
    the ring is large enough. *)
Lemma walk_start h fl live k nunits Q fuel : ready h fl live k -> 1 <= nunits -> (length (nodes fl) <= fuel)%nat ->
  (forall r h', allocated h' nunits r live k -> r <> 0 -> Q r h') ->
  ((forall x, x ∈ fl -> snd x < nunits) -> forall prevp fuel', (fuel < fuel' + length (nodes fl))%nat -> wp (loop fuel' (body nunits) (prevp, h_freep h)) Q h) ->
  wp (loop fuel (body nunits) (h_freep h, default 0 (h_ptr h !! h_freep h))) Q h.
Proof.
  intros Hr Hn Hfuel HQ HK. pose proof (r_freep _ _ _ _ Hr) as Hf. apply list_elem_of_lookup in Hf as [f Hf]. pose proof (lookup_lt_Some _ _ _ Hf) as HfN.
  rewrite (path_lookup _ _ _ _ _ (r_path _ _ _ _ Hr) Hf). cbn [default from_option id]. pose proof (dist_lt _ _ f (nxt_lt _ _ HfN) HfN) as Hd.
  apply (walk h fl live k nunits f _ Hr Hf Hn HQ) with (d := dist (length (nodes fl)) (nxt (length (nodes fl)) f) f) (i := f); [done|lia|done| | |].
  - by eapply (path_nxt (h_ptr h)); [apply Hr|exact Hf|].
  - intros j x Hj Hlt. exfalso. pose proof (lookup_lt_Some _ _ _ Hj) as HjN.
    pose proof (dist_far (length (nodes fl)) j f ltac:(unfold nodes; simpl in *; by rewrite length_fmap) HfN). lia.
  - intros Hsmall prevp' fuel' E. apply HK; [done|lia].
Qed.

Lemma malloc_search h fl live k nunits : ready h fl live k -> 1 <= nunits -> UNIT * chunk nunits < 2 ^ 31 ->
  wp (p <- ptr (h_freep h) ;; n <- headers ;; loop (2 * n + 4) (body nunits) (h_freep h, p)) (fun r h' =>
    r = 0 /\ (forall x, x ∈ fl -> snd x < nunits) /\ limit < h_brk h + UNIT * chunk nunits /\ h' = h \/
    r <> 0 /\ (allocated h' nunits r live k \/ (forall x, x ∈ fl -> snd x < nunits) /\ allocated h' nunits r live (k + chunk nunits))) h.
Proof.
  intros Hr Hn Hfit. pose proof (nodes_size _ _ _ _ Hr) as HN. unfold ptr, headers. wp_step. wp_step. wp_step. wp_step.
  apply (walk_start h fl live k nunits); [done|done|lia|intros r h' Ha Hr0; right; auto|]. intros Hsmall prevp fuel Hfuel.
  destruct fuel as [|fuel]; [lia|]. pose proof (r_freep _ _ _ _ Hr) as Hf. apply list_elem_of_lookup in Hf as [f Hf].
  destruct (block_at _ _ _ _ _ _ Hr Hf) as (s & Hx & Hs). assert (Hss : s < nunits).
  { destruct f as [|f]; simpl in Hx; [simplify_eq/=; lia|]. apply (Hsmall (h_freep h, s)). by eapply list_elem_of_lookup_2. }
  apply wp_loop_S. unfold malloc_body, size_of. wp_step. wp_step. rewrite Hs. cbn [default from_option id]. rewrite (proj2 (Z.leb_gt _ _) Hss). wp_step. wp_step.
  rewrite Z.eqb_refl. wp_step. eapply wp_mono; [by apply (morecore_spec h fl live k)|]. intros r h' [(-> & -> & Hlim)|(Hr0 & -> & fl' & Hr' & (x & Hxin & Hxn) & Hlen)].
  { simpl. wp_step. left. by split_and!. }
  rewrite (proj2 (Z.eqb_neq _ _) Hr0). unfold ptr. wp_step. wp_step. wp_step.
  apply (walk_start h' fl' live (k + chunk nunits) nunits); [done|done| |intros r h2 Ha Hr2; right; auto|].
  - unfold nodes in *. simpl in *. rewrite length_fmap in *. lia.
  - intros Hno. specialize (Hno x Hxin). lia.
Qed.

Lemma units_for_spec nbytes : 0 <= nbytes < 2 ^ 31 - 31 ->
  1 <= units_for nbytes /\ nbytes <= UNIT * (units_for nbytes - 1) < nbytes + UNIT /\ UNIT * chunk (units_for nbytes) < 2 ^ 31.
Proof.
  intros Hn. assert (E : units_for nbytes = (nbytes + 15) / 16 + 1).
  { unfold units_for, UNIT. rewrite u32_small; [f_equal; f_equal; lia|]. dlia. }
  rewrite E. unfold chunk, UNIT. destruct (Z.ltb_spec ((nbytes + 15) / 16 + 1) 4096); split_and!; dlia.
Qed.

(** C34: malloc hands out free memory.  As long as the heap is in order,
    meaning that the free blocks and the blocks of the program together cover
    every unit of it exactly once and the free blocks form a ring in the order
    of their addresses, [malloc] ends; it returns a block of the program that
    is large enough and overlaps no other, taken from the memory it has if any
    free block suffices and else from [sbrk], and keeps the heap in order; or
    it returns 0 and changes no block, exactly when no free block suffices and
    the kernel refuses more memory.  The request is for fewer than 2^31 - 31
    bytes: a larger one does not fit the int that [sbrk] takes, and
    [malloc_huge] below shows what becomes of it. *)
Theorem malloc_correct h fl live k nbytes : started h fl live k -> 0 <= nbytes < 2 ^ 31 - 31 ->
  let n := units_for nbytes in
  wp (malloc base limit nbytes) (fun r h' =>
    r = 0 /\ ready h' fl live k /\ (forall x, x ∈ fl -> snd x < n) /\ limit < h_brk h + UNIT * chunk n \/
    r <> 0 /\ nbytes <= UNIT * (n - 1) /\ exists fl' k', ready h' fl' ((r - UNIT, n) :: live) k' /\
      (k' = k \/ (forall x, x ∈ fl -> snd x < n) /\ k' = k + chunk n)) h.
Proof.
  intros Hst Hb n. destruct (units_for_spec nbytes Hb) as (Hn1 & Hn2 & Hn3). fold n in Hn1, Hn2, Hn3. unfold malloc. fold n.
  assert (Hgo : forall h, ready h fl live k -> wp (p <- ptr (h_freep h) ;; m <- headers ;; loop (2 * m + 4) (body n) (h_freep h, p)) (fun r h' =>
    r = 0 /\ ready h' fl live k /\ (forall x, x ∈ fl -> snd x < n) /\ limit < h_brk h + UNIT * chunk n \/
    r <> 0 /\ nbytes <= UNIT * (n - 1) /\ exists fl' k', ready h' fl' ((r - UNIT, n) :: live) k' /\
      (k' = k \/ (forall x, x ∈ fl -> snd x < n) /\ k' = k + chunk n)) h).
  { intros h0 Hr. eapply wp_mono; [by apply (malloc_search h0 fl live k n)|]. intros r h' [(-> & Hall & Hlim & ->)|(Hr0 & [[fl' Ha]|[Hall [fl' Ha]]])]; [left; by split_and!|right..].
    - split_and!; [done|lia|]. exists fl', k. auto.
    - split_and!; [done|lia|]. exists fl', (k + chunk n). auto. }
  destruct Hst as [((Hf & Hbrk & Hlim) & -> & -> & ->)|Hr].
  - wp_step. wp_step. rewrite Hf. simpl when. unfold set_freep, set_ptr, set_size. wp_step. wp_step. wp_step. wp_step. wp_step. wp_step. wp_step.
    apply (Hgo (Heap _ _ _ _)). split; cbn [h_ptr h_size h_freep h_brk].
    + unfold UNIT. lia.
    + simpl. by rewrite lookup_insert_eq.
    + by rewrite lookup_insert_eq.
    + constructor.
    + apply StronglySorted_cons. split; constructor.
    + unfold nodes. set_solver.
    + done.
  - assert (Hf0 : h_freep h <> 0).
    { pose proof (r_freep _ _ _ _ Hr) as Hin. change (nodes fl) with (fst <$> blocks fl) in Hin. apply list_elem_of_fmap in Hin as (y & E & Hy).
      destruct (free_block_pos _ _ _ _ Hr y Hy). lia. }
    wp_step. wp_step. rewrite (proj2 (Z.eqb_neq _ _) Hf0). simpl when. wp_step. wp_step. wp_step. wp_step. by apply Hgo.
Qed.

#[global] Instance ready_perm : Proper (eq ==> eq ==> Permutation ==> eq ==> iff) ready.
Proof.
  assert (Hone : forall h fl live live' k, Permutation live live' -> ready h fl live k -> ready h fl live' k).
  { intros h fl live live' k Hl [H1 H2 H3 H4 H5 H6 H7]. split; try done; [by rewrite <- Hl|by rewrite <- Hl]. }
  intros h ? <- fl ? <- live live' Hl k ? <-. split; apply Hone; [done|by symmetry].
Qed.

(** Without blocks of the program the free memory is in one piece. *)
Lemma all_free_one h fl k : ready h fl [] k -> 1 <= k -> fl = [(heap0, k)].
Proof.
  intros Hr Hk. pose proof (free_block_pos _ _ _ _ Hr) as Hpos. destruct Hr as [_ _ _ Hs Ha _ Hc]. rewrite app_nil_r in Hc, Hs. rewrite Forall_forall in Hs.
  assert (Hin : forall u, u ∈ units (heap0, k) -> exists a n i, (a, n) ∈ fl /\ 0 <= i < n /\ u = a + UNIT * i).
  { intros u Hu. rewrite <- Hc in Hu. apply list_elem_of_bind in Hu as ([a n] & Hu%elem_of_units & Hx). destruct Hu as (i & Hi & ->). by exists a, n, i. }
  apply StronglySorted_cons in Ha as [_ Ha]. destruct fl as [|[a n] fl].
  { destruct (Hin heap0) as (a & n & i & Hx & _); [apply elem_of_units; exists 0; lia|]. by apply not_elem_of_nil in Hx. }
  apply StronglySorted_cons in Ha as [Hfirst Ha]. rewrite Forall_forall in Hfirst. destruct (Hs (a, n)) as [_ Hn]; [by left|]. cbn [snd] in Hn.
  destruct (block_inside _ k a n Hc) as (j & Hj & Hjk & Ea); [by left|done|].
  assert (Hlow : forall b m, (b, m) ∈ fl -> a + UNIT * n < b) by (intros b m Hb; apply (Hfirst _ Hb)).
  assert (j = 0) as ->.
  { destruct (Hin heap0) as (b & m & i & [[= -> ->]|Hx]%elem_of_cons & Hi & E); [apply elem_of_units; exists 0; lia|unfold UNIT in *; lia|].
    specialize (Hlow b m Hx). unfold UNIT in *. lia. }
  assert (Hn' : n = k).
  { destruct (Z.eq_dec n k) as [|Hne]; [done|exfalso]. destruct (Hin (heap0 + UNIT * n)) as (b & m & i & [[= -> ->]|Hx]%elem_of_cons & Hi & E);
      [apply elem_of_units; exists n; lia|unfold UNIT in *; lia|]. specialize (Hlow b m Hx). unfold UNIT in *. lia. }
  destruct fl as [|[b m] fl]; [subst; f_equal; f_equal; lia|exfalso]. specialize (Hlow b m ltac:(by left)).
  destruct (Hs (b, m)) as [_ Hm]; [right; by left|]. destruct (block_inside _ k b m Hc) as (i & ? & ? & ?); [right; by left|done|]. cbn [snd] in Hm. unfold UNIT in *. lia.
Qed.

(** C35: free gives memory back and joins it.  Freeing any block of the program
    ends, keeps the heap in order without that block, and loses nothing; when
    it was the last one, the free memory is a single block again, which is the
    whole heap. *)
Theorem free_correct h fl live live' k ap n : ready h fl live k -> live ≡ₚ (ap - UNIT, n) :: live' ->
  wp (free ap) (fun _ h' => exists fl', ready h' fl' live' k /\ (live' = [] -> fl' = [(heap0, k)])) h.
Proof.
  intros Hr Hl. rewrite Hl in Hr. assert (Hk : 1 <= k).
  { destruct Hr as [_ _ _ Hs _ _ Hc]. rewrite Forall_forall in Hs. destruct (Hs (ap - UNIT, n)) as [_ Hn]; [set_solver|].
    destruct (block_inside _ k (ap - UNIT) n Hc) as (i & ? & ? & _); [set_solver|done|]. cbn [snd] in Hn. lia. }
  replace ap with (ap - UNIT + UNIT) at 1 by lia. eapply wp_mono; [exact (free_spec _ _ _ _ _ _ Hr)|].
  intros _ h' (fl' & Hr' & _). exists fl'. split; [done|]. intros ->. by eapply all_free_one.
Qed.
End heap.

(** A program that allocates three blocks and frees them in another order. *)
Module UmallocDemo.
Definition BASE : Z := 0x4000.
Definition HEAP : Z := 0x5008.
Definition LIMIT : Z := 0x100000.
Definition empty_heap : heap := Heap ∅ ∅ 0 HEAP.

Definition three : M heap (list Z) :=
  a <- malloc BASE LIMIT 100 ;;
  b <- malloc BASE LIMIT 5000 ;;
  c <- malloc BASE LIMIT 0 ;;
  free b ;;
  ret [a; b; c].

(** Blocks are cut from the end of the free block. *)
Example three_run : match three empty_heap with
  | Ok l h => (l, h_freep h, map_to_list (h_size h)) | _ => ([], 0, []) end
  = ([85912; 80888; 80872], 20488, [(80856, 1); (80872, 314); (85896, 8); (20488, 3773); (16384, 0)]).
Proof. by vm_compute. Qed.

(** The size that [malloc] computes does not fit the int that [sbrk] takes: a
    request for 2^32 - 1 bytes gets 16 bytes from the kernel and succeeds. *)
Example malloc_huge : match malloc BASE LIMIT (2 ^ 32 - 1) empty_heap with
  | Ok r h => (r, h_brk h) | _ => (0, 0) end = (HEAP + 16, HEAP + 16).
Proof. by vm_compute. Qed.

Lemma malloc_correct_witness : wp (malloc BASE LIMIT 100) (fun r h' =>
    r = 0 /\ ready BASE LIMIT HEAP h' [] [] 0 /\ (forall x : block, x ∈ [] -> snd x < 8) /\ LIMIT < HEAP + UNIT * 4096 \/
    r <> 0 /\ 100 <= UNIT * 7 /\ exists fl' k', ready BASE LIMIT HEAP h' fl' [(r - UNIT, 8)] k' /\
      (k' = 0 \/ (forall x : block, x ∈ [] -> snd x < 8) /\ k' = 4096)) empty_heap.
Proof.
  apply (malloc_correct BASE LIMIT HEAP ltac:(by vm_compute) ltac:(by vm_compute) ltac:(by vm_compute) empty_heap [] [] 0 100).
  - left. repeat split. by vm_compute.
  - lia.
Defined.

(** The heap behind the first [malloc] of [three]. *)
Definition one_block : heap :=
  Heap {[ BASE := HEAP; HEAP := BASE ]} {[ BASE := 0; HEAP := 4088; 85896 := 8 ]} BASE (HEAP + 65536).

Lemma one_block_ready : ready BASE LIMIT HEAP one_block [(HEAP, 4088)] [(85896, 8)] 4096.
Proof.
  split; [by vm_compute|by vm_compute|by vm_compute| | | |].
  - repeat constructor; by vm_compute.
  - repeat constructor; by vm_compute.
  - left.
  - cbn [app]. rewrite !cover_cons. change (cover []) with (@nil Z). rewrite app_nil_r. change 4096 with (4088 + 8). by rewrite units_app.
Qed.

Lemma free_correct_witness : wp (free 85912) (fun _ h' => exists fl', ready BASE LIMIT HEAP h' fl' [] 4096 /\ ([] = [] :> list block -> fl' = [(HEAP, 4096)])) one_block.
Proof.
  apply (free_correct BASE LIMIT HEAP ltac:(by vm_compute) ltac:(by vm_compute) ltac:(by vm_compute) one_block [(HEAP, 4088)] [(85896, 8)] [] 4096 85912 8 one_block_ready).
  reflexivity.
Defined.
End UmallocDemo.
