(* ===== verification/Ulib.v ===== *)
(** * The C library of user programs (src/user/libc/ulib.c)

    The string functions over the byte-addressed memory of Memory.v, loop by
    loop, and [gets] on the bytes that [read] delivers.  [stat] and
    [statistics], sequences of system calls, are not modelled. *)

From S2P Require Import Prelude Memory.

(** [*s++ = *t++] up to the NUL; the copy can run into a source that it
    overwrites and then never ends, so that the number of rounds is an
    argument. *)
Fixpoint strcpy (n : nat) (m : gmap Z Z) (s t : Z) : option (gmap Z Z) :=
  match n with
  | O => None
  | S n' =>
      let c := ld8 m t in
      let m := st8 m s c in
      if c =? 0 then Some m else strcpy n' m (s + 1) (t + 1)
  end.

Fixpoint strcmp_loop (n : nat) (m : gmap Z Z) (p q : Z) : option Z :=
  match n with
  | O => None
  | S n' =>
      if negb (ld8 m p =? 0) && (ld8 m p =? ld8 m q) then strcmp_loop n' m (p + 1) (q + 1)
      else Some (ld8 m p - ld8 m q)
  end.
(** Memory outside the map is NUL, so the map's size bounds the scan. *)
Definition strcmp (m : gmap Z Z) (p q : Z) : option Z := strcmp_loop (S (size m)) m p q.

Fixpoint strlen_loop (n : nat) (m : gmap Z Z) (s k : Z) : option Z :=
  match n with
  | O => None
  | S n' => if ld8 m (s + k) =? 0 then Some k else strlen_loop n' m s (k + 1)
  end.
Definition strlen (m : gmap Z Z) (s : Z) : option Z := strlen_loop (S (size m)) m s 0.

Fixpoint strchr_loop (n : nat) (m : gmap Z Z) (s c : Z) : option Z :=
  match n with
  | O => None
  | S n' =>
      if ld8 m s =? 0 then Some 0
      else if ld8 m s =? c then Some s
      else strchr_loop n' m (s + 1) c
  end.
Definition strchr (m : gmap Z Z) (s c : Z) : option Z := strchr_loop (S (size m)) m s c.

(** [for (i = 0; i < n; i++)] with [n] unsigned. *)
Definition memset (m : gmap Z Z) (dst c n : Z) : gmap Z Z := memset_loop (Z.to_nat (u32 n)) m dst c.

(** The direction depends on the order of the pointers only. *)
Definition memmove (m : gmap Z Z) (vdst vsrc n : Z) : gmap Z Z :=
  if vdst <? vsrc then copy_up (Z.to_nat n) m vdst vsrc
  else copy_down (Z.to_nat n) m (vdst + n) (vsrc + n).

Definition memcmp (m : gmap Z Z) (s1 s2 n : Z) : Z := memcmp_loop (Z.to_nat (u32 n)) m s1 s2.

(** The unsigned count becomes the int of [memmove]. *)
Definition memcpy (m : gmap Z Z) (dst src n : Z) : gmap Z Z := memmove m dst src (s32 n).

(** [n = n*10 + *s++ - '0'] in an int. *)
Fixpoint atoi_loop (n : Z) (s : list Z) : Z :=
  match s with
  | c :: s' => if (48 <=? c) && (c <=? 57) then atoi_loop (s32 (n * 10 + c - 48)) s' else n
  | [] => n
  end.
(** Of the bytes of a string up to its NUL. *)
Definition atoi (s : list Z) : Z := atoi_loop 0 s.

(** [gets]: at most [room] bytes of the input, up to the end of a line; the
    bytes stored before the NUL, and the input left. *)
Fixpoint gets_loop (room : nat) (input : list Z) : list Z * list Z :=
  match room, input with
  | S room', c :: input' =>
      if (c =? 10) || (c =? 13) then ([c], input')
      else let '(l, rest) := gets_loop room' input' in (c :: l, rest)
  | _, _ => ([], input)
  end.
Definition gets (max : Z) (input : list Z) : list Z * list Z := gets_loop (Z.to_nat (max - 1)) input.

(** ** Copying *)

(** The two directions cover every overlap: [memmove] of the library and of
    the kernel leave the same bytes. *)
Lemma ulib_ld8_memmove m d s n b : 0 <= n ->
  ld8 (memmove m d s n) b = if (d <=? b) && (b <? d + n) then ld8 m (s + (b - d)) else ld8 m b.
Proof.
  intros Hn. unfold memmove. destruct (Z.ltb_spec d s).
  - rewrite ld8_copy_up by lia. by rewrite Z2Nat.id.
  - rewrite ld8_copy_down by lia. rewrite Z2Nat.id by done. replace (d + n - n) with d by lia.
    case_match; [f_equal; lia|done].
Qed.

Lemma memmove_agrees m d s n b : 0 <= n -> ld8 (memmove m d s n) b = ld8 (Memory.memmove m d s n) b.
Proof. intros Hn. by rewrite ulib_ld8_memmove, Memory.ld8_memmove. Qed.

(** A string is copied byte for byte to a place that it does not overlap. *)
Lemma strcpy_copies bs : forall n m s t, cstring m t bs -> (length bs < n)%nat ->
  s + Z.of_nat (length bs) < t \/ t + Z.of_nat (length bs) < s ->
  exists m', strcpy n m s t = Some m' /\ cstring m' s bs /\ (forall b, ~ s <= b <= s + Z.of_nat (length bs) -> ld8 m' b = ld8 m b).
Proof.
  induction bs as [|c bs IH]; intros [|n] m s t Hc Hn Hd; simpl in Hn; try lia; simpl strcpy; simpl length in Hd.
  - rewrite cstring_nil in Hc. rewrite Hc. simpl. exists (st8 m s 0). split_and!; [done|by rewrite cstring_nil, ld8_st8_eq|].
    intros b Hb. apply ld8_st8_ne. simpl in Hb. lia.
  - apply cstring_cons in Hc as (Hc0 & Hnz & Hc). rewrite Hc0, (proj2 (Z.eqb_neq _ _) Hnz).
    assert (Hu : u8 c = c) by (rewrite <- Hc0; apply u8_ld8).
    destruct (IH n (st8 m s c) (s + 1) (t + 1)) as (m' & -> & Hm' & Hout); [|lia|lia|].
    + destruct Hc as [H1 H2]. split.
      * intros i b Hi. destruct (H1 i b Hi) as [<- Hb]. pose proof (lookup_lt_Some _ _ _ Hi). split; [apply ld8_st8_ne; lia|done].
      * rewrite <- H2. apply ld8_st8_ne. lia.
    + exists m'. split_and!; [done| |].
      * apply cstring_cons. split_and!; [|done|done]. rewrite Hout by lia. by rewrite ld8_st8_eq.
      * intros b Hb. simpl in Hb. rewrite Hout by lia. apply ld8_st8_ne. lia.
Qed.

(** [strcmp] is 0 exactly on equal strings. *)
Lemma strcmp_loop_equal as_ : forall n m p q bs, cstring m p as_ -> cstring m q bs -> (length as_ < n)%nat ->
  exists r, strcmp_loop n m p q = Some r /\ (r = 0 <-> as_ = bs).
Proof.
  induction as_ as [|a l IH]; intros [|n] m p q bs Ha Hb Hn; simpl in Hn; try lia; simpl.
  - rewrite cstring_nil in Ha. rewrite Ha. simpl. eexists. split; [done|]. destruct bs as [|b bs].
    + rewrite cstring_nil in Hb. rewrite Hb. done.
    + apply cstring_cons in Hb as (Hb & Hz & _). split; [lia|done].
  - apply cstring_cons in Ha as (Ha & Hz & Hl). rewrite Ha, (proj2 (Z.eqb_neq _ _) Hz). simpl negb. cbn [andb].
    destruct bs as [|b bs].
    + rewrite cstring_nil in Hb. rewrite Hb, (proj2 (Z.eqb_neq _ _) Hz). eexists. split; [done|]. split; [lia|done].
    + apply cstring_cons in Hb as (Hb & Hzb & Hbs). rewrite Hb. destruct (Z.eqb_spec a b) as [->|Hne].
      * destruct (IH n m (p + 1) (q + 1) bs Hl Hbs ltac:(lia)) as (r & -> & Hr). exists r. split; [done|]. rewrite Hr. naive_solver.
      * eexists. split; [done|]. split; [lia|]. intros [= -> ->]. done.
Qed.

Lemma strcmp_equal m p q ps qs : cstring m p ps -> cstring m q qs -> exists r, strcmp m p q = Some r /\ (r = 0 <-> ps = qs).
Proof. intros Hp Hq. apply strcmp_loop_equal; [done|done|]. pose proof (cstring_size _ _ _ Hp). lia. Qed.
