(* ===== verification/Uprintf.v ===== *)
(** * Formatted output of user programs (src/user/libc/printf.c)

    [out_vprintf] puts one character after the other, to a file or into a
    buffer; where they go does not influence what is put.  So the model
    computes the text, and the two targets are [vprintf], which writes it byte
    by byte, and [vsnprintf], which stores what fits. *)

From S2P Require Import Prelude Printf Ulib.

(** [digits] of the user library: upper case. *)
Definition udigit (d : Z) : Z := if d <? 10 then 48 + d else 65 + (d - 10).

(** The do loop of [out_printint]: the digits from the last one on. *)
Fixpoint udigits_loop (fuel : nat) (x base : Z) : list Z :=
  match fuel with
  | O => []
  | S n => udigit (x mod base) :: (if x / base =? 0 then [] else udigits_loop n (x / base) base)
  end.

(** [xx] is an int: wider arguments lose their upper half. *)
Definition out_printint (xx base : Z) (sgn : bool) : list Z :=
  let xx := s32 xx in
  let neg := sgn && (xx <? 0) in
  let x := if neg then u32 (- xx) else u32 xx in
  (if neg then [chr_minus] else []) ++ rev (udigits_loop 32 x base).

Fixpoint uptr_digits (n : nat) (x : Z) : list Z :=
  match n with
  | O => []
  | S n' => udigit (Z.shiftr x 60) :: uptr_digits n' (u64 (Z.shiftl x 4))
  end.
Definition out_printptr (x : Z) : list Z := chr_0 :: chr_x :: uptr_digits 16 (u64 x).

(** One conversion: its text and the arguments left; [None] when the
    arguments do not fit the format, which C leaves undefined. *)
Definition out_conversion (c : Z) (args : list va) : option (list Z * list va) :=
  let num (f : Z -> list Z) :=
    match args with Num x :: args' => Some (f x, args') | _ => None end in
  if c =? 100 then num (fun x => out_printint x 10 true)
  else if c =? 117 then num (fun x => out_printint x 10 false)
  else if c =? 108 then num (fun x => out_printint x 10 false)
  else if c =? 120 then num (fun x => out_printint x 16 false)
  else if c =? 112 then num out_printptr
  else if c =? 115 then
    match args with
    | Str (Some s) :: args' => Some (s, args')
    | Str None :: args' => Some (null_str, args')
    | _ => None
    end
  else if c =? 99 then num (fun x => [u8 x])
  else if c =? chr_percent then Some ([chr_percent], args)
  else Some ([chr_percent; c], args).

(** [out_vprintf]: the state is [percent] behind a [%]. *)
Fixpoint out_text (percent : bool) (fmt : list Z) (args : list va) : option (list Z) :=
  match fmt with
  | [] => Some []
  | c :: fmt' =>
      if percent then
        match out_conversion c args with
        | Some (t, args') => app t <$> out_text false fmt' args'
        | None => None
        end
      else if c =? chr_percent then out_text true fmt' args
      else cons c <$> out_text false fmt' args
  end.
Definition out_vprintf (fmt : list Z) (args : list va) : option (list Z) := out_text false fmt args.

(** ** The buffer *)

(** [BufCtx]: the bytes from [buf] on, [pos] and [size].  [pos] is an int: it
    counts every character and wraps around. *)
Record bufctx := BufCtx { b_buf : list Z; b_pos : Z; b_size : Z }.

(** [buf[i] = x]; [None] when it is not in the buffer. *)
Definition buf_store (buf : list Z) (i x : Z) : option (list Z) :=
  if (0 <=? i) && (i <? Z.of_nat (length buf)) then Some (<[Z.to_nat i := x]> buf) else None.

Definition buf_putc (c : bufctx) (x : Z) : option bufctx :=
  match (if b_pos c <? b_size c - 1 then buf_store (b_buf c) (b_pos c) x else Some (b_buf c)) with
  | Some buf => Some (BufCtx buf (s32 (b_pos c + 1)) (b_size c))
  | None => None
  end.

(** One character after the other. *)
Fixpoint buf_puts (c : bufctx) (text : list Z) : option bufctx :=
  match text with
  | [] => Some c
  | x :: text' => match buf_putc c x with Some c' => buf_puts c' text' | None => None end
  end.

(** The bytes behind the pointer [buf], and the result; [None] when the
    arguments do not fit the format, or when a store is not in the buffer. *)
Definition vsnprintf (buf : list Z) (n : Z) (fmt : list Z) (args : list va) : option (list Z * Z) :=
  match out_vprintf fmt args with
  | None => None
  | Some text =>
      match buf_puts (BufCtx buf 0 n) text with
      | None => None
      | Some c =>
          if 0 <? n then
            match buf_store (b_buf c) (if b_pos c <? n then b_pos c else n - 1) 0 with
            | Some buf => Some (buf, b_pos c)
            | None => None
            end
          else Some (b_buf c, b_pos c)
      end
  end.

(** ** Properties *)

Lemma buf_store_in buf i x : 0 <= i < Z.of_nat (length buf) -> buf_store buf i x = Some (<[Z.to_nat i := x]> buf).
Proof. intros H. unfold buf_store. destruct (Z.leb_spec 0 i); [|lia]. by destruct (Z.ltb_spec i (Z.of_nat (length buf))); [|lia]. Qed.

(** What is stored behind the [pos] bytes that are in the buffer. *)
Lemma buf_puts_stores t : forall c, 0 <= b_pos c -> b_size c <= Z.of_nat (length (b_buf c)) -> b_pos c + Z.of_nat (length t) < 2 ^ 31 ->
  let k := Z.to_nat (b_size c - 1 - b_pos c) in
  buf_puts c t = Some (BufCtx (take (Z.to_nat (b_pos c)) (b_buf c) ++ take k t ++ drop (Z.to_nat (b_pos c) + length (take k t)) (b_buf c))
    (b_pos c + Z.of_nat (length t)) (b_size c)).
Proof.
  induction t as [|x t IH]; intros c Hp Hs Hl k.
  - simpl. rewrite take_nil. simpl. rewrite Nat.add_0_r, take_drop, Z.add_0_r. by destruct c.
  - cbn [buf_puts]. unfold buf_putc. cbn [length] in Hl. destruct (Z.ltb_spec (b_pos c) (b_size c - 1)) as [Hlt|Hge].
    + rewrite buf_store_in by lia. rewrite IH; cbn [b_buf b_pos b_size]; rewrite ?s32_small, ?length_insert by lia; [|lia|lia|lia]. f_equal. f_equal; [|cbn [length]; lia].
      assert (Hk : k = S (Z.to_nat (b_size c - 1 - (b_pos c + 1)))) by lia. rewrite Hk. cbn [take length].
      replace (Z.to_nat (b_pos c + 1)) with (S (Z.to_nat (b_pos c))) by lia. set (i := Z.to_nat (b_pos c)). assert (Hi : (i < length (b_buf c))%nat) by lia.
      rewrite (take_S_r _ i x) by (by apply list_lookup_insert_eq). rewrite take_insert_ge by lia. rewrite drop_insert_lt by lia. rewrite <- app_assoc. simpl. by rewrite Nat.add_succ_r.
    + rewrite IH; cbn [b_buf b_pos b_size]; rewrite ?s32_small by lia; [|lia|lia|lia]. f_equal. f_equal; [|cbn [length]; lia].
      assert (k = O) as -> by lia. replace (Z.to_nat (b_size c - 1 - (b_pos c + 1))) with O by lia. simpl. rewrite !Nat.add_0_r. by rewrite !take_drop.
Qed.

(** C36: snprintf of the user library stays inside its buffer.  When the
    arguments fit the format and the text has fewer than 2^31 characters,
    [vsnprintf] makes no store outside the buffer and returns the length of the
    whole text; a buffer of [n] bytes, [n > 0], holds the longest part of the
    text that leaves room for the NUL behind it, and no byte behind the NUL
    changes; with [n = 0] nothing is stored.  (From 2^31 characters on the
    position is negative and the next character goes in front of the buffer:
    [position_wraps].) *)
Theorem vsnprintf_bounded buf n fmt args text : 0 <= n <= Z.of_nat (length buf) -> out_vprintf fmt args = Some text -> Z.of_nat (length text) < 2 ^ 31 ->
  let kept := take (Z.to_nat (n - 1)) text in
  vsnprintf buf n fmt args = Some (if 0 <? n then kept ++ 0 :: drop (S (length kept)) buf else buf, Z.of_nat (length text)).
Proof.
  intros Hn Ht Hl kept. unfold vsnprintf. rewrite Ht, (buf_puts_stores text (BufCtx buf 0 n)) by (simpl; lia). cbn [b_buf b_pos b_size].
  rewrite Z.sub_0_r, Z.add_0_l. fold kept. change (Z.to_nat 0) with O. rewrite take_0. cbn [app Nat.add].
  assert (Hk : length kept = (Z.to_nat (n - 1) `min` length text)%nat) by (unfold kept; apply length_take).
  destruct (Z.ltb_spec 0 n) as [Hpn|Hpn].
  - rewrite buf_store_in by (rewrite length_app, length_drop; destruct (Z.ltb_spec (Z.of_nat (length text)) n); lia). f_equal. f_equal.
    assert (Hi : Z.to_nat (if Z.of_nat (length text) <? n then Z.of_nat (length text) else n - 1) = length kept) by (rewrite Hk; destruct (Z.ltb_spec (Z.of_nat (length text)) n); lia).
    rewrite Hi. rewrite insert_app_r_alt, Nat.sub_diag by lia. f_equal. destruct (drop (length kept) buf) as [|b l] eqn:E.
    + apply (f_equal length) in E. rewrite length_drop in E. simpl in E. lia.
    + simpl. f_equal. replace (S (length kept)) with (length kept + 1)%nat by lia. rewrite <- drop_drop, E. done.
  - unfold kept. replace (Z.to_nat (n - 1)) with O by lia. done.
Qed.

Lemma udigits_decimal fuel x : 0 <= x -> udigits_loop fuel x 10 = digits_loop fuel x 10.
Proof.
  revert x. induction fuel as [|n IH]; intros x Hx; [done|]. cbn [udigits_loop digits_loop]. f_equal.
  - unfold udigit, digit. pose proof (Z.mod_pos_bound x 10 ltac:(lia)). by destruct (Z.ltb_spec (x mod 10) 10); [|lia].
  - destruct (x / 10 =? 0); [done|]. apply IH. apply Z.div_pos; lia.
Qed.

Definition is_digit (c : Z) : Prop := 48 <= c <= 57.

Lemma digits_decimal fuel x : 0 <= x -> Forall is_digit (digits_loop fuel x 10).
Proof.
  revert x. induction fuel as [|n IH]; intros x Hx; cbn [digits_loop]; constructor.
  - unfold digit, is_digit. pose proof (Z.mod_pos_bound x 10 ltac:(lia)). destruct (Z.ltb_spec (x mod 10) 10); lia.
  - destruct (x / 10 =? 0); [constructor|]. apply IH. apply Z.div_pos; lia.
Qed.

Lemma fold_digits_ge l v : Forall is_digit l -> 0 <= v -> v <= fold_left (fun v c => v * 10 + digit_val c) l v.
Proof.
  intros Hl. revert v. induction Hl as [|c l Hc _ IH]; intros v Hv; simpl; [lia|]. unfold is_digit in Hc.
  assert (Hd : digit_val c = c - 48) by (unfold digit_val; destruct (Z.ltb_spec c 97); lia). specialize (IH (v * 10 + digit_val c)). lia.
Qed.

Lemma atoi_digits rest l : Forall is_digit l -> (forall c l', rest = c :: l' -> ~ is_digit c) ->
  forall v, 0 <= v -> fold_left (fun v c => v * 10 + digit_val c) l v < 2 ^ 31 ->
  atoi_loop v (l ++ rest) = fold_left (fun v c => v * 10 + digit_val c) l v.
Proof.
  intros Hl Hrest. induction Hl as [|c l Hc Hl IH]; intros v Hv Hlt; cbn [app fold_left].
  - destruct rest as [|c rest]; [done|]. simpl. specialize (Hrest c rest eq_refl). unfold is_digit in Hrest.
    replace ((48 <=? c) && (c <=? 57)) with false by lia. done.
  - unfold is_digit in Hc. simpl atoi_loop. replace ((48 <=? c) && (c <=? 57)) with true by lia. cbn [fold_left] in Hlt.
    assert (Hd : digit_val c = c - 48) by (unfold digit_val; destruct (Z.ltb_spec c 97); lia).
    pose proof (fold_digits_ge l (v * 10 + digit_val c) Hl ltac:(lia)) as Hge. rewrite s32_small by lia.
    replace (v * 10 + c - 48) with (v * 10 + digit_val c) by lia. apply IH; [lia|done].
Qed.

(** Atoi reads what printf writes.  A number from 0 to [INT_MAX] printed
    with [%d] and followed by the end of the string or by anything but a digit
    is read back by [atoi]. *)
Theorem atoi_reads_printed x rest : 0 <= x < 2 ^ 31 -> (forall c l, rest = c :: l -> ~ is_digit c) ->
  exists t, out_vprintf [chr_percent; 100] [Num x] = Some t /\ atoi (t ++ rest) = x.
Proof.
  intros Hx Hrest. exists (rev (digits_loop 32 x 10)). split.
  - transitivity (Some (out_printint x 10 true ++ [])); [reflexivity|]. unfold out_printint. rewrite s32_small by lia.
    replace (x <? 0) with false by lia. cbn [andb app]. rewrite u32_small by lia. by rewrite udigits_decimal, app_nil_r by lia.
  - destruct (word_digits x 10 (or_introl eq_refl) ltac:(lia)) as (Hv & _). unfold read_digits in Hv. unfold atoi. rewrite (atoi_digits rest); [done| |done|lia|lia].
    apply Forall_rev, digits_decimal. lia.
Qed.

(** Examples. *)
Module UprintfDemo.
Lemma vsnprintf_bounded_witness : vsnprintf [7; 7; 7; 7] 3 [chr_percent; 120] [Num 0xab12] = Some ([65; 66; 0; 7], 4).
Proof. apply (vsnprintf_bounded [7; 7; 7; 7] 3 [chr_percent; 120] [Num 0xab12] [65; 66; 49; 50]); [simpl; lia|reflexivity|simpl; lia]. Defined.

(** Behind 2^31 - 1 characters the position becomes negative, and the next
    character but one is stored in front of the buffer. *)
Example position_wraps :
  buf_putc (BufCtx [7; 0] (2 ^ 31 - 1) 2) 65 = Some (BufCtx [7; 0] (- 2 ^ 31) 2) /\ buf_putc (BufCtx [7; 0] (- 2 ^ 31) 2) 66 = None.
Proof. split; reflexivity. Qed.

Lemma atoi_reads_printed_witness : exists t, out_vprintf [chr_percent; 100] [Num 2147483647] = Some t /\ atoi (t ++ [32; 49]) = 2147483647.
Proof. apply (atoi_reads_printed 2147483647 [32; 49]); [lia|]. intros c l [= <- <-]. unfold is_digit. lia. Defined.

(** [%l] prints the low 32 bits of its argument. *)
Example long_is_cut : out_vprintf [chr_percent; 108] [Num (2 ^ 32 + 5)] = Some [53].
Proof. reflexivity. Qed.
End UprintfDemo.
