(* ===== verification/Sdcard.v ===== *)
(** * The SD card driver (src/kernel/driver/sdcard.c)

    The driver talks to the card in SPI mode.  SPI exchanges bytes: while one
    is sent, one is received.  The card is a parameter, [Card]: a state and
    what it answers to a byte.  [spi_write] sends bytes and drops what comes
    back, [spi_read] sends 0xff and keeps it.  A buffer is the list of its
    bytes; a buffer on a kernel stack is copied through memory of [kmalloc],
    which may fail. *)

From S2P Require Import Prelude Bio.
Local Open Scope string_scope.
Local Open Scope Z_scope.

(** [exchange b]: the byte that comes back for [b].  [kmalloc_ok n]: an
    allocation of [n] bytes succeeds. *)
Class Card (C : Type) := {
  exchange : Z -> C -> Z * C;
  kmalloc_ok : Z -> bool;
}.

(** ** Loops with a timeout *)

(** At most [n] rounds of [body], up to one that returns [Some]. *)
Fixpoint tries {S R} (n : positive) (body : M S (option R)) : M S (option R) :=
  match n with
  | xH => body
  | xO p =>
      r <- tries p body ;;
      match r with Some _ => ret r | None => tries p body end
  | xI p =>
      r <- body ;;
      match r with
      | Some _ => ret r
      | None =>
          r <- tries p body ;;
          match r with Some _ => ret r | None => tries p body end
      end
  end.

Section sdcard.
Context {C : Type} `{!Card C}.

(** The card, [is_standard_sd], [csd], [csd_valid], [card_nsectors],
    [sdcard_lock] and the formats of the messages printed. *)
Record sd := Sd { sd_card : C; is_standard_sd : bool; sd_csd : list Z; csd_valid : bool; card_nsectors : Z; sd_locked : bool; sd_said : list string }.
Abbreviation D := (M sd).

Definition set_card (c : C) (s : sd) : sd := Sd c (is_standard_sd s) (sd_csd s) (csd_valid s) (card_nsectors s) (sd_locked s) (sd_said s).
Definition set_standard (b : bool) (s : sd) : sd := Sd (sd_card s) b (sd_csd s) (csd_valid s) (card_nsectors s) (sd_locked s) (sd_said s).
Definition set_csd (l : list Z) (s : sd) : sd := Sd (sd_card s) (is_standard_sd s) l true (card_nsectors s) (sd_locked s) (sd_said s).
Definition set_nsectors (n : Z) (s : sd) : sd := Sd (sd_card s) (is_standard_sd s) (sd_csd s) (csd_valid s) n (sd_locked s) (sd_said s).
Definition set_locked (b : bool) (s : sd) : sd := Sd (sd_card s) (is_standard_sd s) (sd_csd s) (csd_valid s) (card_nsectors s) b (sd_said s).
Definition say (m : string) : D unit :=
  modify (fun s => Sd (sd_card s) (is_standard_sd s) (sd_csd s) (csd_valid s) (card_nsectors s) (sd_locked s) (sd_said s ++ [m])).

(** ** Transfers *)

Fixpoint send (l : list Z) (c : C) : C :=
  match l with
  | [] => c
  | b :: l' => send l' (snd (exchange b c))
  end.
Fixpoint receive (n : nat) (c : C) : list Z * C :=
  match n with
  | O => ([], c)
  | S n' =>
      let '(b, c) := exchange 0xff c in
      let '(l, c) := receive n' c in (b :: l, c)
  end.
Definition spi_write (l : list Z) : D unit := modify (fun s => set_card (send l (sd_card s)) s).
Definition spi_read (n : nat) : D (list Z) :=
  s <- get ;;
  let '(l, c) := receive n (sd_card s) in
  modify (set_card c) ;; ret l.

(** [stack]: the buffer needs a bounce copy. *)
Definition sd_write_data (stack : bool) (l : list Z) : D unit :=
  if stack && negb (kmalloc_ok (Z.of_nat (length l))) then panic "sd_write_data: kmalloc" else spi_write l.
Definition sd_read_data (stack : bool) (n : nat) : D (list Z) :=
  if stack && negb (kmalloc_ok (Z.of_nat n)) then panic "sd_read_data: kmalloc" else spi_read n.
Definition sd_read_byte : D Z := l <- sd_read_data true 1 ;; ret (hd 0 l).

Definition frame (cmd arg crc : Z) : list Z :=
  [Z.lor cmd 0x40; u8 (Z.shiftr arg 24); u8 (Z.shiftr arg 16); u8 (Z.shiftr arg 8); u8 arg; crc].
Definition sd_send_cmd (cmd arg crc : Z) : D unit := sd_write_data true (frame cmd arg crc).
Definition sd_end_cmd : D unit := sd_write_data true [0xff].

Definition SD_CMD0 : Z := 0.
Definition SD_CMD8 : Z := 8.
Definition SD_CMD58 : Z := 58.
Definition SD_CMD55 : Z := 55.
Definition SD_ACMD41 : Z := 41.
Definition SD_CMD16 : Z := 16.
Definition SD_CMD17 : Z := 17.
Definition SD_CMD24 : Z := 24.
Definition SD_CMD13 : Z := 13.

(** At most [n] bytes are read, up to one that [p] accepts. *)
Definition poll (n : positive) (p : Z -> bool) : D (option Z) :=
  tries n (b <- sd_read_byte ;; ret (if p b then Some b else None)).

Definition sd_get_response_R1 : D Z :=
  r <- poll 0xff (fun b => negb (b =? 0xff)) ;;
  ret (default 0xff r).
Definition sd_get_response_R3_rest : D (list Z) := sd_read_data true 4.
Definition sd_get_response_R7_rest : D (list Z) := sd_read_data true 4.

(** ** Start of the card

    [while (--timeout)] makes one round less than its start value. *)

Definition switch_to_SPI_mode : D Z :=
  r <- tries 0xfe
    (sd_send_cmd SD_CMD0 0 0x95 ;;
     result <- sd_get_response_R1 ;;
     sd_end_cmd ;;
     ret (if result =? 0x01 then Some tt else None)) ;;
  match r with
  | Some _ => ret 0
  | None => say "SD_CMD0 failed" ;; ret 0xff
  end.

Definition verify_operation_condition : D Z :=
  sd_send_cmd SD_CMD8 0x01aa 0x87 ;;
  result <- sd_get_response_R1 ;;
  frame <- sd_get_response_R7_rest ;;
  sd_end_cmd ;;
  if result =? 0x09 then say "invalid CRC for CMD8" ;; ret 0xff
  else if (result =? 0x01) && (Z.land (frame !!! 2%nat) 0x0f =? 0x01) && (frame !!! 3%nat =? 0xaa) then ret 0
  else say "verify_operation_condition() fail!" ;; ret 0xff.

Definition read_OCR : D Z :=
  r <- tries 0xfe
    (sd_send_cmd SD_CMD58 0 0 ;;
     result <- sd_get_response_R1 ;;
     ocr <- sd_get_response_R3_rest ;;
     sd_end_cmd ;;
     ret (if (result =? 0x01) && negb (Z.land (ocr !!! 1%nat) 0x1f =? 0) && negb (Z.land (ocr !!! 2%nat) 0x80 =? 0) then Some tt else None)) ;;
  match r with
  | Some _ => ret 0
  | None => say "read_OCR() timeout!" ;; say "result = %d" ;; ret 0xff
  end.

(** [Some false]: the card refused CMD55. *)
Definition set_SDXC_capacity : D Z :=
  r <- tries 0xffe
    (sd_send_cmd SD_CMD55 0 0 ;;
     result <- sd_get_response_R1 ;;
     sd_end_cmd ;;
     if negb (result =? 0x01) then say "SD_CMD55 fail! result = %d" ;; ret (Some false)
     else
       sd_send_cmd SD_ACMD41 0x40000000 0 ;;
       result <- sd_get_response_R1 ;;
       sd_end_cmd ;;
       ret (if result =? 0 then Some true else None)) ;;
  match r with
  | Some true => ret 0
  | Some false => ret 0xff
  | None => say "set_SDXC_capacity() timeout!" ;; say "result = %d" ;; ret 0xff
  end.

(** The block size of a card with byte addresses. *)
Definition set_block_size : D Z :=
  r <- tries 0xfe
    (sd_send_cmd SD_CMD16 BSIZE 0 ;;
     result <- sd_get_response_R1 ;;
     sd_end_cmd ;;
     ret (if result =? 0 then Some tt else None)) ;;
  match r with
  | Some _ => modify (set_standard true) ;; ret 0
  | None => say "check_OCR(): fail to set block size" ;; ret 0xff
  end.
Definition check_block_size : D Z :=
  r <- tries 0xff
    (sd_send_cmd SD_CMD58 0 0 ;;
     result <- sd_get_response_R1 ;;
     ocr <- sd_get_response_R3_rest ;;
     sd_end_cmd ;;
     if result =? 0 then
       if negb (Z.land (ocr !!! 0%nat) 0x40 =? 0) then
         say "SDHC/SDXC detected" ;;
         if negb (512 =? BSIZE) then say "BSIZE != 512" ;; ret (Some 0xff)
         else modify (set_standard false) ;; ret (Some 0)
       else say "SDSC detected, setting block size" ;; e <- set_block_size ;; ret (Some e)
     else ret None) ;;
  match r with
  | Some e => ret e
  | None => say "check_OCR() timeout!" ;; say "result = %d" ;; ret 0xff
  end.

(** Each step runs when the ones before succeeded. *)
Definition sd_init : D Z :=
  sd_write_data true (replicate 10 0xff) ;;
  e <- switch_to_SPI_mode ;;
  if negb (e =? 0) then ret 0xff else
  e <- verify_operation_condition ;;
  if negb (e =? 0) then ret 0xff else
  e <- read_OCR ;;
  if negb (e =? 0) then ret 0xff else
  e <- set_SDXC_capacity ;;
  if negb (e =? 0) then ret 0xff else
  e <- check_block_size ;;
  if negb (e =? 0) then ret 0xff else ret 0.

(** The number of sectors in a CSD register of version 2 and of version 1. *)
Definition csd2_nsectors (csd : list Z) : Z :=
  let c_size := Z.lor (Z.lor (Z.shiftl (Z.land (csd !!! 7%nat) 0x3f) 16) (Z.shiftl (csd !!! 8%nat) 8)) (csd !!! 9%nat) in
  u32 ((c_size + 1) * 1024).
Definition csd1_nsectors (csd : list Z) : Z :=
  let c_size := Z.lor (Z.lor (Z.shiftl (Z.land (csd !!! 6%nat) 0x03) 10) (Z.shiftl (csd !!! 7%nat) 2)) (Z.shiftr (csd !!! 8%nat) 6) in
  let c_size_mult := Z.lor (Z.shiftl (Z.land (csd !!! 9%nat) 0x03) 1) (Z.shiftr (csd !!! 10%nat) 7) in
  let read_bl_len := Z.land (csd !!! 5%nat) 0x0f in
  let capacity := u32 ((c_size + 1) * 2 ^ (c_size_mult + 2) * 2 ^ read_bl_len) in
  capacity / 512.

Definition sd_read_csd : D unit :=
  sd_send_cmd 9 0 0 ;;
  sd_get_response_R1 ;;
  r <- poll 0xfffffe (fun b => b =? 0xfe) ;;
  match r with
  | None => say "sdcard: timeout reading CSD"
  | Some _ =>
      csd <- sd_read_data false 16 ;;
      modify (fun s => Sd (sd_card s) (is_standard_sd s) csd (csd_valid s) (card_nsectors s) (sd_locked s) (sd_said s)) ;;
      sd_read_data true 2 ;;
      modify (set_csd csd) ;;
      let csd_ver := Z.land (Z.shiftr (csd !!! 0%nat) 6) 0x03 in
      if csd_ver =? 1 then modify (set_nsectors (csd2_nsectors csd))
      else if csd_ver =? 0 then modify (set_nsectors (csd1_nsectors csd))
      else say "sdcard: unknown CSD version %d"
  end.

Definition sdcard_nsectors : D Z := gets card_nsectors.

Definition sdcard_init : D unit :=
  result <- sd_init ;;
  modify (set_locked false) ;;
  if negb (result =? 0) then panic "sdcard_init failed" else sd_read_csd.

(** ** Sectors *)

(** A lock that is held blocks; a sequential run does not continue. *)
Definition acquire_sdcard : D unit := b <- gets sd_locked ;; if (b : bool) then spin else modify (set_locked true).
Definition release_sdcard : D unit := modify (set_locked false).

Definition sector_address (sectorno : Z) : D Z :=
  std <- gets is_standard_sd ;;
  ret (u32 (if (std : bool) then Z.shiftl sectorno 9 else sectorno)).

Definition sdcard_read_sector (sectorno : Z) : D (list Z) :=
  address <- sector_address sectorno ;;
  acquire_sdcard ;;
  sd_send_cmd SD_CMD17 address 0 ;;
  result <- sd_get_response_R1 ;;
  if negb (result =? 0) then release_sdcard ;; panic "sdcard: fail to read"
  else
    r <- poll 0xfffffe (fun b => b =? 0xfe) ;;
    match r with
    | None => panic "sdcard: timeout waiting for reading"
    | Some _ =>
        buf <- sd_read_data false (Z.to_nat BSIZE) ;;
        sd_read_data true 2 ;;
        sd_end_cmd ;;
        release_sdcard ;;
        ret buf
    end.

(** CMD13 behind a write: the two bytes of its answer. *)
Definition write_status : D (Z * Z) :=
  sd_send_cmd SD_CMD13 0 0 ;;
  result <- sd_get_response_R1 ;;
  error_code <- sd_read_byte ;;
  sd_end_cmd ;;
  ret (result, error_code).

Definition sdcard_write_sector (buf : list Z) (sectorno : Z) : D unit :=
  address <- sector_address sectorno ;;
  acquire_sdcard ;;
  sd_send_cmd SD_CMD24 address 0 ;;
  result <- sd_get_response_R1 ;;
  if negb (result =? 0) then release_sdcard ;; panic "sdcard: fail to write"
  else
    sd_write_data false [0xfe] ;;
    sd_write_data false buf ;;
    sd_write_data true [0xff; 0xff] ;;
    r <- poll 0xffe (fun b => Z.land b 0x1f =? 0x05) ;;
    match r with
    | None => release_sdcard ;; panic "sdcard: invalid response token"
    | Some _ =>
        r <- poll 0xfffffe (fun b => negb (b =? 0)) ;;
        match r with
        | None => release_sdcard ;; panic "sdcard: timeout waiting for response"
        | Some _ =>
            sd_end_cmd ;;
            x <- write_status ;;
            let '(result, error_code) := x in
            if negb (result =? 0) || negb (error_code =? 0) then
              release_sdcard ;; say "result: %x" ;; say "error_code: %x" ;; panic "sdcard: an error occurs when writing"
            else release_sdcard
        end
    end.
End sdcard.
Arguments sd : clear implicits.
