(* ===== verification/SdcardProps.v ===== *)
(** * The SD card driver implements the disk of the block cache

    [SdCardLaws] states what the SD specification says of a card in SPI mode:
    which bytes it puts out behind a command, with delays that the timeouts of
    the driver allow for. *)

From S2P Require Import Prelude Bio Sdcard.

(** The disk as a function from sectors to their bytes. *)
#[export] Instance image_disk : Disk (Z -> list Z) := {|
  sd_read d n := d n;
  sd_write d n v := fun n' => if n =? n' then v else d n';
|}.
#[export] Instance image_laws : DiskLaws (Z -> list Z).
Proof. by split. Qed.

(** A card takes commands, or the data of sector [n] behind a write command. *)
Inductive phase := Commands | Data (n : Z).

(** [high]: the card takes sector numbers, not byte addresses. *)
Definition card_address (high : bool) (n : Z) : Z := if high then n else 512 * n.

Class SdCardLaws (C : Type) `{!Card C} := {
  high : bool;
  capacity : Z;
  (** [awaits c q ph d]: the card holds the sectors [d]; its next bytes are
      [q], and then it is in the phase [ph]. *)
  awaits : C -> list Z -> phase -> (Z -> list Z) -> Prop;
  capacity_fits : card_address high capacity <= 2 ^ 32;
  contents_length c q ph d n : awaits c q ph d -> 0 <= n < capacity -> length (d n) = 512%nat;
  shift_out c b q ph d : awaits c (b :: q) ph d -> fst (exchange 0xff c) = b /\ awaits (snd (exchange 0xff c)) q ph d;
  shift_idle c d : awaits c [] Commands d -> fst (exchange 0xff c) = 0xff /\ awaits (snd (exchange 0xff c)) [] Commands d;
  command_read c d n : awaits c [] Commands d -> 0 <= n < capacity ->
    exists d1 d2 crc, (d1 < 255)%nat /\ Z.of_nat d2 < 0xfffffe /\ length crc = 2%nat /\
      awaits (send (frame SD_CMD17 (card_address high n) 0) c) (replicate d1 0xff ++ [0] ++ replicate d2 0xff ++ [0xfe] ++ d n ++ crc) Commands d;
  command_write c d n : awaits c [] Commands d -> 0 <= n < capacity ->
    exists d1, (d1 < 255)%nat /\ awaits (send (frame SD_CMD24 (card_address high n) 0) c) (replicate d1 0xff ++ [0]) (Data n) d;
  data_written c d n v crc : awaits c [] (Data n) d -> length v = 512%nat -> length crc = 2%nat ->
    exists d1 r d2, Z.of_nat d1 < 0xffe /\ Z.land r 0x1f = 0x05 /\ Z.of_nat d2 < 0xfffffe /\
      awaits (send ([0xfe] ++ v ++ crc) c) (replicate d1 0xff ++ [r] ++ replicate d2 0) Commands (sd_write d n v);
  command_status c d : awaits c [] Commands d ->
    exists d1, (d1 < 255)%nat /\ awaits (send (frame SD_CMD13 0 0) c) (replicate d1 0xff ++ [0; 0]) Commands d;
}.

(** ** Loops with a timeout *)

(** [I k]: the body fails [k] times more and then succeeds. *)
Lemma wp_tries {S R} (I : nat -> S -> Prop) (body : M S (option R)) (Q : R -> S -> Prop) :
  (forall s, I O s -> wp body (fun r s' => exists x, r = Some x /\ Q x s') s) ->
  (forall k s, I (Datatypes.S k) s -> wp body (fun r s' => r = None /\ I k s') s) ->
  forall n k s, I k s ->
    wp (tries n body) (fun r s' => match r with Some x => Q x s' /\ (k < Pos.to_nat n)%nat | None => (Pos.to_nat n <= k)%nat /\ I (k - Pos.to_nat n)%nat s' end) s.
Proof.
  intros H0 H1.
  assert (Hone : forall k s, I k s -> wp body (fun r s' => match r with Some x => Q x s' /\ (k < 1)%nat | None => (1 <= k)%nat /\ I (k - 1)%nat s' end) s).
  { intros [|k] s Hk; [eapply wp_mono; [by apply H0|]; intros r s' (x & -> & Hx); split; [done|lia]|].
    eapply wp_mono; [by apply H1|]. intros r s' [-> Hk']. split; [lia|]. by rewrite Nat.sub_succ, Nat.sub_0_r. }
  assert (Htwice : forall p, (forall k s, I k s -> wp (tries p body) (fun r s' => match r with Some x => Q x s' /\ (k < Pos.to_nat p)%nat | None => (Pos.to_nat p <= k)%nat /\ I (k - Pos.to_nat p)%nat s' end) s) ->
    forall k s, I k s -> wp (r <- tries p body ;; match r with Some _ => ret r | None => tries p body end)
      (fun r s' => match r with Some x => Q x s' /\ (k < 2 * Pos.to_nat p)%nat | None => (2 * Pos.to_nat p <= k)%nat /\ I (k - 2 * Pos.to_nat p)%nat s' end) s).
  { intros p IH k s Hk. apply wp_bind. eapply wp_mono; [by apply IH|]. intros [x|] s1.
    - intros [Hx Hlt]. apply wp_ret. split; [done|lia].
    - intros [Hge Hk1]. eapply wp_mono; [by apply IH|]. intros [x|] s2; [intros [Hx Hlt]; split; [done|lia]|]. intros [Hge2 Hk2]. split; [lia|].
      by replace (k - 2 * Pos.to_nat p)%nat with (k - Pos.to_nat p - Pos.to_nat p)%nat by lia. }
  induction n as [p IH|p IH|]; intros k s Hk; cbn [tries].
  - apply wp_bind. eapply wp_mono; [by apply Hone|]. rewrite Pos2Nat.inj_xI. intros [x|] s1; [intros [Hx Hlt]; apply wp_ret; split; [done|lia]|]. intros [Hge Hk1].
    eapply wp_mono; [by apply Htwice|]. intros [x|] s2; [intros [Hx Hlt]; split; [done|lia]|]. intros [Hge2 Hk2]. split; [lia|].
    by replace (k - Datatypes.S (2 * Pos.to_nat p))%nat with (k - 1 - 2 * Pos.to_nat p)%nat by lia.
  - rewrite Pos2Nat.inj_xO. by apply Htwice.
  - rewrite Pos2Nat.inj_1. by apply Hone.
Qed.

Section driver.
Context {C : Type} `{!Card C} `{!SdCardLaws C}.
Implicit Types (s : sd C) (d : Z -> list Z).
(** Memory for the copies of the stack buffers, the largest of which is a
    command frame. *)
Hypothesis memory : forall n, 0 <= n <= 10 -> kmalloc_ok (C := C) n = true.

(** The driver changes only the card. *)
Abbreviation moved s s' q ph d := (exists c, s' = set_card c s /\ awaits c q ph d).

Lemma set_card_twice c c' s : set_card c (set_card c' s) = set_card c s.
Proof. by destruct s. Qed.
Lemma set_card_same s : set_card (sd_card s) s = s.
Proof. by destruct s. Qed.

Lemma sd_moved_refl s q ph d : awaits (sd_card s) q ph d -> moved s s q ph d.
Proof. intros H. exists (sd_card s). by rewrite set_card_same. Qed.

Lemma write_wp stack l s (Q : unit -> sd C -> Prop) : (length l <= 10)%nat \/ stack = false -> Q tt (set_card (send l (sd_card s)) s) -> wp (sd_write_data stack l) Q s.
Proof.
  intros Hl HQ. unfold sd_write_data. replace (stack && negb (kmalloc_ok (Z.of_nat (length l)))) with false; [exact HQ|].
  destruct Hl as [Hl| ->]; [|done]. rewrite memory by lia. by destruct stack.
Qed.

Lemma receive_awaits l : forall q ph d c, awaits c (l ++ q) ph d ->
  exists c', receive (length l) c = (l, c') /\ awaits c' q ph d.
Proof.
  induction l as [|b l IH]; intros q ph d c Hc; [by exists c|]. apply shift_out in Hc as [Hb Hc]. simpl. destruct (exchange 255 c) as [b' c1]. simpl in *. subst b'.
  destruct (IH _ _ _ _ Hc) as (c' & -> & Hc'). by exists c'.
Qed.

Lemma read_wp stack l q ph d n s : n = length l -> (length l <= 10)%nat \/ stack = false -> awaits (sd_card s) (l ++ q) ph d ->
  wp (sd_read_data stack n) (fun r s' => r = l /\ moved s s' q ph d) s.
Proof.
  intros -> Hl Hc. unfold sd_read_data. replace (stack && negb (kmalloc_ok (Z.of_nat (length l)))) with false by (destruct Hl as [Hl| ->]; [rewrite memory by lia; by destruct stack|done]).
  unfold spi_read. wp_step. wp_step. destruct (receive_awaits _ _ _ _ _ Hc) as (c' & -> & Hc'). wp_go. split; [done|]. by exists c'.
Qed.

Lemma byte_wp b q ph d s : awaits (sd_card s) (b :: q) ph d -> wp sd_read_byte (fun r s' => r = b /\ moved s s' q ph d) s.
Proof.
  intros Hc. unfold sd_read_byte. wp_step. eapply wp_mono; [apply (read_wp true [b] q ph d); [done|left; simpl; lia|exact Hc]|]. intros r s' [-> Hm]. wp_step. by split.
Qed.

Lemma idle_byte_wp d s : awaits (sd_card s) [] Commands d -> wp sd_read_byte (fun r s' => r = 0xff /\ moved s s' [] Commands d) s.
Proof.
  intros Hc. unfold sd_read_byte, sd_read_data, spi_read. rewrite memory by lia. cbn [negb andb]. wp_step. wp_step. wp_step. simpl receive.
  apply shift_idle in Hc as [Hb Hc]. destruct (exchange 255 (sd_card s)) as [b c]. simpl in *. subst b. wp_go. split; [done|]. by exists c.
Qed.

(** Bytes that [p] does not accept are skipped. *)
Lemma sd_poll_wp n p k x b q ph d s : (k < Pos.to_nat n)%nat -> p x = false -> p b = true -> awaits (sd_card s) (replicate k x ++ b :: q) ph d ->
  wp (poll n p) (fun r s' => r = Some b /\ moved s s' q ph d) s.
Proof.
  intros Hk Hx Hb Hc. unfold poll.
  eapply wp_mono; [apply (wp_tries (fun k s' => moved s s' (replicate k x ++ b :: q) ph d) _ (fun r s' => r = b /\ moved s s' q ph d)) with (k := k)|].
  - intros s1 (c & -> & Hc1). wp_step. eapply wp_mono; [exact (byte_wp b _ _ _ (set_card c s) Hc1)|]. intros r s2 [-> (c' & -> & Hc2)]. wp_step. rewrite Hb. exists b. split; [done|]. split; [done|].
    exists c'. by rewrite set_card_twice.
  - intros j s1 (c & -> & Hc1). wp_step. eapply wp_mono; [exact (byte_wp x _ _ _ (set_card c s) Hc1)|]. intros r s2 [-> (c' & -> & Hc2)]. wp_step. rewrite Hx. split; [done|].
    exists c'. by rewrite set_card_twice.
  - by apply sd_moved_refl.
  - intros [r|] s'; [intros [[-> H] _]; by split|]. intros [Hle _]. lia.
Qed.

(** A busy card that becomes idle. *)
Lemma poll_busy_wp n p k x d s : (k < Pos.to_nat n)%nat -> p x = false -> p 0xff = true -> awaits (sd_card s) (replicate k x) Commands d ->
  wp (poll n p) (fun r s' => r = Some 0xff /\ moved s s' [] Commands d) s.
Proof.
  intros Hk Hx Hb Hc. unfold poll.
  eapply wp_mono; [apply (wp_tries (fun k s' => moved s s' (replicate k x) Commands d) _ (fun r s' => r = 0xff /\ moved s s' [] Commands d)) with (k := k)|].
  - intros s1 (c & -> & Hc1). wp_step. eapply wp_mono; [exact (idle_byte_wp d (set_card c s) Hc1)|]. intros r s2 [-> (c' & -> & Hc2)]. wp_step. rewrite Hb. exists 0xff. split; [done|]. split; [done|].
    exists c'. by rewrite set_card_twice.
  - intros j s1 (c & -> & Hc1). wp_step. eapply wp_mono; [exact (byte_wp x _ _ _ (set_card c s) Hc1)|]. intros r s2 [-> (c' & -> & Hc2)]. wp_step. rewrite Hx. split; [done|].
    exists c'. by rewrite set_card_twice.
  - by apply sd_moved_refl.
  - intros [r|] s'; [intros [[-> H] _]; by split|]. intros [Hle _]. lia.
Qed.

Lemma R1_wp k b q ph d s : (k < 255)%nat -> b <> 255 -> awaits (sd_card s) (replicate k 0xff ++ b :: q) ph d ->
  wp sd_get_response_R1 (fun r s' => r = b /\ moved s s' q ph d) s.
Proof.
  intros Hk Hb Hc. unfold sd_get_response_R1. wp_step. eapply wp_mono; [apply (sd_poll_wp _ _ k 0xff b q ph d); [lia|done|by apply negb_true_iff, Z.eqb_neq|done]|].
  intros r s' [-> Hm]. wp_step. by split.
Qed.

Lemma end_wp d s : awaits (sd_card s) [] Commands d -> wp sd_end_cmd (fun _ s' => moved s s' [] Commands d) s.
Proof. intros Hc. apply write_wp; [left; simpl; lia|]. exists (send [255] (sd_card s)). split; [done|]. by apply shift_idle. Qed.

(** The driver as the cache sees it: the card is idle and holds [d], and the
    driver knows how it is addressed. *)
Definition holds s d : Prop := awaits (sd_card s) [] Commands d /\ is_standard_sd s = negb high /\ sd_locked s = false.

Lemma address_wp n s d : holds s d -> 0 <= n < capacity -> wp (sector_address n) (fun a s' => a = card_address high n /\ s' = s) s.
Proof.
  intros (_ & Hs & _) Hn. unfold sector_address. wp_step. wp_step. wp_step. split; [|done]. rewrite Hs. pose proof capacity_fits as Hc. unfold card_address in *.
  destruct high; cbn [negb] in *; [apply u32_small; lia|]. rewrite Z.shiftl_mul_pow2 by lia. change (2 ^ 9) with 512. rewrite Z.mul_comm. apply u32_small. lia.
Qed.

Lemma sd_acquire_wp s (Q : unit -> sd C -> Prop) : sd_locked s = false -> Q tt (set_locked true s) -> wp acquire_sdcard Q s.
Proof. intros Hl HQ. unfold acquire_sdcard. wp_step. wp_step. by rewrite Hl. Qed.

(** At the end of an operation. *)
Lemma released s c d : holds s d -> forall d', awaits c [] Commands d' -> holds (set_locked false (set_card c (set_locked true s))) d'.
Proof. intros (_ & Hs & _) d' Hc. by split_and!. Qed.

Lemma read_sector_wp n s d : holds s d -> 0 <= n < capacity ->
  wp (sdcard_read_sector n) (fun r s' => r = sd_read d n /\ holds s' d) s.
Proof.
  intros Hh Hn. pose proof Hh as (Hc & _ & Hl). unfold sdcard_read_sector. wp_step. eapply wp_mono; [by apply (address_wp n s d)|]. intros a s1 [-> ->].
  wp_step. apply sd_acquire_wp; [done|]. wp_step. unfold sd_send_cmd. apply write_wp; [left; simpl; lia|]. cbn [sd_card set_locked].
  destruct (command_read _ d n Hc Hn) as (d1 & d2 & crc & Hd1 & Hd2 & Hcrc & Hq). pose proof (contents_length _ _ _ d n Hc Hn) as Hlen.
  wp_step. eapply wp_mono; [eapply (R1_wp d1 0); [done|done|exact Hq]|]. intros r s2 [-> (c2 & -> & Hc2)]. rewrite set_card_twice. simpl negb. cbv iota.
  wp_step. eapply wp_mono; [eapply (sd_poll_wp _ _ d2 0xff 0xfe); [lia|done|done|exact Hc2]|]. intros r s3 [-> (c3 & -> & Hc3)]. rewrite set_card_twice.
  wp_step. eapply wp_mono; [eapply (read_wp false (d n)); [by rewrite Hlen|by right|exact Hc3]|]. intros r s4 [-> (c4 & -> & Hc4)]. rewrite set_card_twice.
  wp_step. eapply wp_mono; [eapply (read_wp true crc []); [done|left; lia|by rewrite app_nil_r]|]. intros r s5 [_ (c5 & -> & Hc5)]. rewrite set_card_twice.
  wp_step. eapply wp_mono; [by apply (end_wp d)|]. intros _ s6 (c6 & -> & Hc6). rewrite set_card_twice. unfold release_sdcard. wp_go. split; [done|]. by eapply released.
Qed.

Lemma send_app l1 l2 (c : C) : send (l1 ++ l2) c = send l2 (send l1 c).
Proof. revert c. induction l1 as [|b l1 IH]; intros c; [done|]. apply IH. Qed.

Lemma write_sector_wp n v s d : holds s d -> 0 <= n < capacity -> length v = 512%nat ->
  wp (sdcard_write_sector v n) (fun _ s' => holds s' (sd_write d n v)) s.
Proof.
  intros Hh Hn Hv. pose proof Hh as (Hc & _ & Hl). unfold sdcard_write_sector. wp_step. eapply wp_mono; [by apply (address_wp n s d)|]. intros a s1 [-> ->].
  wp_step. apply sd_acquire_wp; [done|]. wp_step. unfold sd_send_cmd. apply write_wp; [left; simpl; lia|]. cbn [sd_card set_locked].
  destruct (command_write _ d n Hc Hn) as (d1 & Hd1 & Hq).
  wp_step. eapply wp_mono; [eapply (R1_wp d1 0); [done|done|exact Hq]|]. intros r s2 [-> (c2 & -> & Hc2)]. rewrite set_card_twice. simpl negb. cbv iota.
  wp_step. apply write_wp; [by right|]. wp_step. apply write_wp; [by right|]. wp_step. apply write_wp; [left; simpl; lia|]. rewrite !set_card_twice. cbn [sd_card set_card].
  destruct (data_written _ d n v [255; 255] Hc2 Hv eq_refl) as (k1 & r & k2 & Hk1 & Hr & Hk2 & Hw). rewrite !send_app in Hw.
  assert (Hr5 : (Z.land 255 31 =? 5) = false) by done.
  wp_step. eapply wp_mono; [eapply (sd_poll_wp _ _ k1 0xff r (replicate k2 0)); [lia|done|by apply Z.eqb_eq|exact Hw]|]. intros x s3 [-> (c3 & -> & Hc3)]. rewrite set_card_twice.
  wp_step. eapply wp_mono; [eapply (poll_busy_wp _ _ k2 0); [lia|done|done|exact Hc3]|]. intros x s4 [-> (c4 & -> & Hc4)]. rewrite set_card_twice.
  wp_step. eapply wp_mono; [by apply (end_wp (sd_write d n v))|]. intros _ s5 (c5 & -> & Hc5). rewrite set_card_twice. wp_step.
  unfold write_status, sd_send_cmd. wp_step. apply write_wp; [left; simpl; lia|]. rewrite set_card_twice. destruct (command_status _ _ Hc5) as (d2 & Hd2 & Hst).
  wp_step. eapply wp_mono; [eapply (R1_wp d2 0); [done|done|exact Hst]|]. intros x s6 [-> (c6 & -> & Hc6)]. rewrite set_card_twice.
  wp_step. eapply wp_mono; [by apply (byte_wp 0)|]. intros x s7 [-> (c7 & -> & Hc7)]. rewrite set_card_twice.
  wp_step. eapply wp_mono; [by apply (end_wp (sd_write d n v))|]. intros _ s8 (c8 & -> & Hc8). rewrite set_card_twice. wp_step. cbn [negb Z.eqb orb].
  unfold release_sdcard. wp_step. by eapply released.
Qed.

(** C27: the SD card driver is the disk that the block cache relies on.  For
    every card that behaves as the specification says, with any delays below
    the timeouts, reading a sector returns the bytes that the card holds and
    changes nothing, and writing 512 bytes to a sector changes that sector
    only; both end without a panic, with the card ready for the next command
    and the lock released. *)
Theorem sdcard_implements_disk n v s d : holds s d -> 0 <= n < capacity -> length v = 512%nat ->
  wp (sdcard_read_sector n) (fun r s' => r = sd_read d n /\ holds s' d) s /\
  wp (sdcard_write_sector v n) (fun _ s' => holds s' (sd_write d n v)) s.
Proof. intros Hh Hn Hv. split; [by apply read_sector_wp|by apply write_sector_wp]. Qed.
End driver.
