(* ===== verification/SdcardDemo.v ===== *)
(** * A card for the SD card driver

    A card of high capacity that answers the commands of the driver, as an
    instance of the laws of SdcardProps.v. *)

From S2P Require Import Prelude Bio Sdcard SdcardProps.

Module SdcardDemo.
(** Bytes to put out, bytes of a frame or data block taken in, the phase, the
    sectors, and whether ACMD41 has been received. *)
Record card := K { k_out : list Z; k_in : list Z; k_phase : phase; k_disk : Z -> list Z; k_ready : bool }.

Definition word4 (b1 b2 b3 b4 : Z) : Z := ((b1 * 256 + b2) * 256 + b3) * 256 + b4.
Definition csd_bytes : list Z := [0x40; 0; 0; 0; 0; 0; 0; 0; 0; 1; 0; 0; 0; 0; 0; 0].
Definition r1 (c : card) : Z := if k_ready c then 0 else 1.

Definition execute (cmd arg : Z) (c : card) : card :=
  let answer q := K q [] Commands (k_disk c) (k_ready c) in
  if cmd =? 0x40 + SD_CMD0 then K [0xff; 1] [] Commands (k_disk c) false
  else if cmd =? 0x40 + SD_CMD8 then answer [0xff; 1; 0; 0; 1; 0xaa]
  else if cmd =? 0x40 + SD_CMD58 then answer [0xff; r1 c; 0xc0; 0xff; 0x80; 0]
  else if cmd =? 0x40 + SD_CMD55 then answer [0xff; r1 c]
  else if cmd =? 0x40 + SD_ACMD41 then K [0xff; 0] [] Commands (k_disk c) true
  else if cmd =? 0x40 + 9 then answer ([0; 0xff; 0xfe] ++ csd_bytes ++ [0; 0])
  else if cmd =? 0x40 + SD_CMD17 then answer (replicate 2 0xff ++ [0] ++ replicate 3 0xff ++ [0xfe] ++ k_disk c arg ++ [1; 2])
  else if cmd =? 0x40 + SD_CMD24 then K (replicate 1 0xff ++ [0]) [] (Data arg) (k_disk c) (k_ready c)
  else if cmd =? 0x40 + SD_CMD13 then answer (replicate 1 0xff ++ [0; 0])
  else c.

(** A byte comes in. *)
Definition take_in (b : Z) (c : card) : card :=
  match k_phase c with
  | Commands =>
      match k_in c with
      | [] => if Z.land b 0xc0 =? 0x40 then K (k_out c) [b] Commands (k_disk c) (k_ready c) else c
      | [cmd; b1; b2; b3; b4] => execute cmd (word4 b1 b2 b3 b4) c
      | l => K (k_out c) (l ++ [b]) Commands (k_disk c) (k_ready c)
      end
  | Data n =>
      if bool_decide (k_in c = []) && negb (b =? 0xfe) then c
      else
        let l := k_in c ++ [b] in
        if (length l =? 515)%nat then K (replicate 1 0xff ++ [0xe5] ++ replicate 4 0) [] Commands (sd_write (k_disk c) n (take 512 (drop 1 l))) (k_ready c)
        else K (k_out c) l (Data n) (k_disk c) (k_ready c)
  end.

#[export] Instance demo_card : Card card := {|
  exchange b c := (hd 0xff (k_out c), take_in b (K (tl (k_out c)) (k_in c) (k_phase c) (k_disk c) (k_ready c)));
  kmalloc_ok n := true;
|}.

Definition NSECT : Z := 2048.
Definition demo_awaits (c : card) (q : list Z) (ph : phase) (d : Z -> list Z) : Prop :=
  k_out c = q /\ k_in c = [] /\ k_phase c = ph /\ k_disk c = d /\ forall n, length (d n) = 512%nat.

Lemma word4_frame a : 0 <= a < 2 ^ 32 -> word4 (u8 (Z.shiftr a 24)) (u8 (Z.shiftr a 16)) (u8 (Z.shiftr a 8)) (u8 a) = a.
Proof. intros Ha. unfold word4, u8. rewrite !Z.shiftr_div_pow2 by lia. change (2 ^ 24) with 16777216. change (2 ^ 16) with 65536. change (2 ^ 8) with 256. dlia. Qed.

Lemma send_frame cmd b1 b2 b3 b4 crc c : Z.land cmd 0xc0 = 0x40 -> k_out c = [] -> k_in c = [] -> k_phase c = Commands ->
  send [cmd; b1; b2; b3; b4; crc] c = execute cmd (word4 b1 b2 b3 b4) (K [] [cmd; b1; b2; b3; b4] Commands (k_disk c) (k_ready c)).
Proof.
  intros Hc. destruct c as [out inp ph d r]. cbn [k_out k_in k_phase k_disk k_ready]. intros -> -> ->.
  assert (Hfirst : take_in cmd (K [] [] Commands d r) = K [] [cmd] Commands d r) by (unfold take_in; cbn [k_phase k_in]; by rewrite Hc).
  cbn [send]. change (snd (exchange cmd (K [] [] Commands d r))) with (take_in cmd (K [] [] Commands d r)). rewrite Hfirst.
  change (snd (exchange b1 (K [] [cmd] Commands d r))) with (K [] [cmd; b1] Commands d r).
  change (snd (exchange b2 (K [] [cmd; b1] Commands d r))) with (K [] [cmd; b1; b2] Commands d r).
  change (snd (exchange b3 (K [] [cmd; b1; b2] Commands d r))) with (K [] [cmd; b1; b2; b3] Commands d r).
  change (snd (exchange b4 (K [] [cmd; b1; b2; b3] Commands d r))) with (K [] [cmd; b1; b2; b3; b4] Commands d r).
  unfold exchange. cbn [demo_card snd]. unfold take_in. by cbn [k_phase k_in k_out tl].
Qed.

(** Bytes of a data block that do not complete it. *)
Lemma send_data l : forall acc n d r, acc <> [] -> (length acc + length l < 515)%nat ->
  send l (K [] acc (Data n) d r) = K [] (acc ++ l) (Data n) d r.
Proof.
  induction l as [|b l IH]; intros acc n d r Ha Hl; [by rewrite app_nil_r|]. cbn [send exchange snd demo_card k_out k_in k_phase k_disk k_ready tl take_in].
  rewrite bool_decide_eq_false_2 by done. cbn [andb]. rewrite length_app. simpl in Hl |- *.
  replace (length acc + 1 =? 515)%nat with false by (symmetry; apply Nat.eqb_neq; lia). rewrite IH; [by rewrite <- app_assoc|by destruct acc|rewrite length_app; simpl; lia].
Qed.

Lemma send_block n v crc d r : length v = 512%nat -> length crc = 2%nat ->
  send ([0xfe] ++ v ++ crc) (K [] [] (Data n) d r) = K (replicate 1 0xff ++ [0xe5] ++ replicate 4 0) [] Commands (sd_write d n v) r.
Proof.
  intros Hv Hc. destruct crc as [|x [|y [|z crc]]]; try done. cbn [app send].
  change (snd (exchange 254 (K [] [] (Data n) d r))) with (K [] [254] (Data n) d r).
  replace (v ++ [x; y]) with ((v ++ [x]) ++ [y]) by (by rewrite <- app_assoc). rewrite send_app, send_data; [|done|rewrite length_app; simpl; lia].
  cbn [send exchange snd demo_card k_out k_in k_phase k_disk k_ready tl take_in]. rewrite bool_decide_eq_false_2 by done. cbn [andb].
  rewrite (proj2 (Nat.eqb_eq _ _)) by (simpl; rewrite !length_app; simpl; lia).
  assert (Ht : take 512 (drop 1 (([254] ++ v ++ [x]) ++ [y])) = v); [|by rewrite Ht].
  change (drop 1 (([254] ++ v ++ [x]) ++ [y])) with ((v ++ [x]) ++ [y]). rewrite <- app_assoc, take_app_le by lia. apply take_ge. lia.
Qed.

#[export] Instance demo_laws : SdCardLaws card.
Proof.
  refine {| high := true; capacity := NSECT; awaits := demo_awaits |}.
  - done.
  - intros c q ph d n (_ & _ & _ & _ & Hl) _. apply Hl.
  - intros [out inp p dk r] b q ph d (Ho & Hi & Hp & Hd & Hl). cbn [k_out k_in k_phase k_disk] in *. subst. split; [done|]. by destruct ph.
  - intros [out inp p dk r] d (Ho & Hi & Hp & Hd & Hl). cbn [k_out k_in k_phase k_disk] in *. subst. split; [done|]. by split_and!.
  - intros c d n (Ho & Hi & Hp & Hd & Hl) Hn. exists 2%nat, 3%nat, [1; 2]. split_and!; [lia|lia|done|]. unfold frame. cbn [card_address].
    rewrite send_frame, word4_frame by (done || unfold NSECT in *; lia). subst d. by split_and!.
  - intros c d n (Ho & Hi & Hp & Hd & Hl) Hn. exists 1%nat. split; [lia|]. unfold frame. cbn [card_address].
    rewrite send_frame, word4_frame by (done || unfold NSECT in *; lia). subst d. by split_and!.
  - intros [out inp p dk r] d n v crc (Ho & Hi & Hp & Hd & Hl) Hv Hcrc. cbn [k_out k_in k_phase k_disk] in *. subst. exists 1%nat, 0xe5, 4%nat. split_and!; [lia|done|lia|].
    rewrite send_block by done. split_and!; [done|done|done|done|]. intros n'. simpl. by destruct (n =? n').
  - intros c d (Ho & Hi & Hp & Hd & Hl). exists 1%nat. split; [lia|]. unfold frame. rewrite send_frame by done. subst d. by split_and!.
Defined.

(** A card just switched on, and the driver before and behind its start. *)
Definition zeros : Z -> list Z := fun _ => replicate 512 0.
Definition new_card : card := K [] [] Commands zeros false.
Definition off : sd card := Sd new_card false [] false 0 false [].

(** The start sequence succeeds: the card is ready, known to take sector
    numbers, and has (1 + 1) * 1024 sectors. *)
Example sdcard_init_ok : match sdcard_init off with
  | Ok _ s => (k_ready (sd_card s), is_standard_sd s, csd_valid s, card_nsectors s, sd_locked s) | _ => (false, true, false, 0, true) end
  = (true, false, true, NSECT, false).
Proof. by vm_compute. Qed.

Lemma off_holds : holds off zeros.
Proof. by split_and!. Qed.

Lemma sdcard_implements_disk_witness :
  wp (sdcard_read_sector 7) (fun r s' => r = sd_read zeros 7 /\ holds s' zeros) off /\
  wp (sdcard_write_sector (replicate 512 1) 7) (fun _ s' => holds s' (sd_write zeros 7 (replicate 512 1))) off.
Proof.
  assert (Hm : forall n, 0 <= n <= 10 -> kmalloc_ok (C := card) n = true) by (by intros).
  apply (sdcard_implements_disk Hm 7 (replicate 512 1) off zeros off_holds); [unfold capacity; simpl; unfold NSECT; lia|by rewrite length_replicate].
Defined.
End SdcardDemo.
