(* ===== verification/Burn.v ===== *)
(** * Writing a disk image over a serial line (src/user/app/burn.c)

    Frames of the form magic, sequence number, type, length, payload and
    CRC-32 come in over a UART; the payloads of the data frames are written to
    consecutive sectors of the SD card and acknowledged.

    The line is a list of events: a byte, a silence longer than the receiver
    allows inside a frame, or a read error; a line at its end gives a read
    error too.  What the program shows on its display and prints, its error
    counters and its time measurements are not part of the model. *)

From S2P Require Import Prelude.

(** ** CRC-32 *)

Definition POLY : Z := 0xEDB88320.
(** One round of the inner loop of [crc32_init]. *)
Definition crc_bit (crc : Z) : Z :=
  if negb (Z.land crc 1 =? 0) then Z.lxor (Z.shiftr crc 1) POLY else Z.shiftr crc 1.
Definition crc32_tab : list Z := (fun i => Nat.iter 8 crc_bit i) <$> seqZ 0 256.

Definition not32 (x : Z) : Z := Z.lxor x 0xffffffff.
Definition crc_byte (crc b : Z) : Z := Z.lxor (crc32_tab !!! Z.to_nat (Z.land (Z.lxor crc b) 0xff)) (Z.shiftr crc 8).
Definition crc32 (data : list Z) (crc : Z) : Z := not32 (foldl crc_byte (not32 crc) data).

(** ** Frames *)

Definition MAGIC : list Z := [0x55; 0xAA; 0x55; 0xAA].
Definition PKT_INFO : Z := 0x01.
Definition PKT_DATA : Z := 0x02.
Definition PKT_DONE : Z := 0x03.
Definition PKT_BAUD : Z := 0x04.
Definition PKT_ACK : Z := 0x81.
Definition PKT_NAK : Z := 0x82.
Definition RECV_ERR_IO : Z := -1.
Definition RECV_ERR_CRC : Z := -2.
Definition RECV_ERR_TRUNCATED : Z := -3.
Definition RECV_ERR_PROTOCOL : Z := -4.
Definition READ_ERR_IO : Z := -1.
Definition READ_ERR_TIMEOUT : Z := -2.
Definition ERR_CRC : Z := 0x01.
Definition ERR_WRITE : Z := 0x02.
Definition ERR_TRUNCATED : Z := 0x03.
Definition ERR_PROTOCOL : Z := 0x04.
Definition ERR_IO : Z := 0x05.
Definition ACK_OK : Z := 0x00.
Definition ACK_DUP : Z := 0x01.
Definition ACK_INFO : Z := 0x02.
Definition ACK_DONE : Z := 0x03.
Definition ACK_BAUD : Z := 0x04.
Definition MAX_RETRY : Z := 5.
Definition CONSOLE_BAUD : Z := 115200.
Definition RX_STALL_NAK_TICKS : Z := 100.

Definition put32le (v : Z) : list Z := [u8 v; u8 (Z.shiftr v 8); u8 (Z.shiftr v 16); u8 (Z.shiftr v 24)].
Definition get32le (p : list Z) : Z :=
  Z.lor (Z.lor (Z.lor (p !!! 0%nat) (Z.shiftl (p !!! 1%nat) 8)) (Z.shiftl (p !!! 2%nat) 16)) (Z.shiftl (p !!! 3%nat) 24).

Definition header (seq type plen : Z) : list Z := put32le seq ++ [type; u8 plen; u8 (Z.shiftr plen 8)].
Definition frame_crc (hdr payload : list Z) : Z := crc32 payload (crc32 hdr (crc32 MAGIC 0)).

(** [send_msg]: the bytes written. *)
Definition send_msg (seq type : Z) (payload : list Z) : list Z :=
  let hdr := header seq type (Z.of_nat (length payload)) in
  MAGIC ++ hdr ++ payload ++ put32le (frame_crc hdr payload).

(** ** Reading *)

Inductive event := B (b : Z) | Gap | Failure.

(** [read_bytes_timeout] of [n] bytes: an error or the bytes, and the line
    behind it.  With [max_gap_ticks = 0] a silence only delays. *)
Fixpoint read_bytes_timeout (n : nat) (max_gap_ticks : Z) (line : list event) : (Z + list Z) * list event :=
  match n with
  | O => (inr [], line)
  | S n' =>
      (fix go (line : list event) : (Z + list Z) * list event :=
        match line with
        | [] => (inl READ_ERR_IO, [])
        | B b :: line' =>
            match read_bytes_timeout n' max_gap_ticks line' with
            | (inr l, rest) => (inr (b :: l), rest)
            | (inl e, rest) => (inl e, rest)
            end
        | Gap :: line' => if max_gap_ticks =? 0 then go line' else (inl READ_ERR_TIMEOUT, line')
        | Failure :: line' => (inl READ_ERR_IO, line')
        end) line
  end.

Definition recv_error (rr : Z) : Z := if rr =? READ_ERR_TIMEOUT then RECV_ERR_TRUNCATED else RECV_ERR_IO.

(** The bytes up to the magic; [w] holds the last four, [sync] from [si] on. *)
Fixpoint find_magic (fuel : nat) (stall : Z) (w : list Z) (line : list event) : option Z * list event :=
  match fuel with
  | O => (Some RECV_ERR_IO, line)
  | S n =>
      match read_bytes_timeout 1 stall line with
      | (inl rr, rest) => (Some (recv_error rr), rest)
      | (inr l, rest) =>
          let w := tail w ++ l in
          if bool_decide (w = MAGIC) then (None, rest) else find_magic n stall w rest
      end
  end.

Definition known_type (type : Z) : bool := existsb (Z.eqb type) [PKT_INFO; PKT_DATA; PKT_DONE; PKT_BAUD; PKT_ACK; PKT_NAK].

(** What [recv_msg] delivers. *)
Inductive message := Error (e : Z) | Msg (type seq : Z) (payload : list Z).

(** From the header on: a message, or the four bytes to look for the magic in
    again. *)
Definition recv_frame (stall : Z) (line : list event) : (message + list Z) * list event :=
  match read_bytes_timeout 7 stall line with
  | (inl rr, rest) => (inl (Error (recv_error rr)), rest)
  | (inr hdr, rest) =>
      let seq := get32le hdr in
      let type := hdr !!! 4%nat in
      let plen := Z.lor (hdr !!! 5%nat) (Z.shiftl (hdr !!! 6%nat) 8) in
      if negb (known_type type) then (inr (drop 3 hdr), rest)
      else if 512 <? plen then (inl (Error RECV_ERR_PROTOCOL), rest)
      else
        match read_bytes_timeout (Z.to_nat plen) stall rest with
        | (inl rr, rest) => (inl (Error (recv_error rr)), rest)
        | (inr payload, rest) =>
            match read_bytes_timeout 4 stall rest with
            | (inl rr, rest) => (inl (Error (recv_error rr)), rest)
            | (inr crc_raw, rest) =>
                if negb (frame_crc hdr payload =? get32le crc_raw) then (inl (Error RECV_ERR_CRC), rest)
                else (inl (Msg type seq payload), rest)
            end
        end
  end.

Fixpoint recv_loop (fuel : nat) (stall : Z) (w : list Z) (line : list event) : message * list event :=
  match fuel with
  | O => (Error RECV_ERR_IO, line)
  | S n =>
      match find_magic (S (length line)) stall w line with
      | (Some e, rest) => (Error e, rest)
      | (None, rest) =>
          match recv_frame stall rest with
          | (inl m, rest) => (m, rest)
          | (inr w, rest) => recv_loop n stall w rest
          end
      end
  end.
(** Every round takes at least a byte from the line, so that the fuel never
    runs out ([find_enough] and [recv_enough] of BurnProps.v). *)
Definition recv_msg (stall : Z) (line : list event) : message * list event :=
  recv_loop (S (length line)) stall [0; 0; 0; 0] line.

Definition send_ack (seq reason ticks : Z) : list Z := send_msg seq PKT_ACK (reason :: put32le ticks).
Definition send_nak (seq err : Z) : list Z := send_msg seq PKT_NAK [err].

(** ** The transfer *)

(** What is on the line, what was sent, the sectors written to the card from
    sector 0 on, and for the next writes to the card whether they succeed
    and how long they take. *)
Record burn := Burn { b_line : list event; b_sent : list Z; b_sectors : list (list Z); b_writes : list (bool * Z) }.

Definition send (l : list Z) : M burn unit := modify (fun s => Burn (b_line s) (b_sent s ++ l) (b_sectors s) (b_writes s)).
Definition receive (stall : Z) : M burn message :=
  s <- get ;;
  let '(m, line) := recv_msg stall (b_line s) in
  modify (fun s => Burn line (b_sent s) (b_sectors s) (b_writes s)) ;;
  ret m.
(** [write(sdcard_fd, payload, 512)]: the ticks it took, or [None]. *)
Definition write_sector (v : list Z) : M burn (option Z) :=
  s <- get ;;
  match b_writes s with
  | (true, ticks) :: l => modify (fun s => Burn (b_line s) (b_sent s) (b_sectors s ++ [v]) l) ;; ret (Some ticks)
  | (false, _) :: l => modify (fun s => Burn (b_line s) (b_sent s) (b_sectors s) l) ;; ret None
  | [] => ret None
  end.

(** The error code that answers a failed reception. *)
Definition nak_code (e : Z) : Z :=
  if e =? RECV_ERR_CRC then ERR_CRC
  else if e =? RECV_ERR_TRUNCATED then ERR_TRUNCATED
  else if e =? RECV_ERR_PROTOCOL then ERR_PROTOCOL
  else ERR_IO.

(** One round: [for (sec < nsectors)] around [while (retries <= MAX_RETRY)];
    [inr true] when all sectors are written, [inr false] at the retry limit. *)
Definition transfer_round (nsectors : Z) (x : Z * Z) : M burn ((Z * Z) + bool) :=
  let '(sec, retries) := x in
  if nsectors <=? sec then ret (inr true)
  else if MAX_RETRY <? retries then ret (inr false)
  else
    m <- receive RX_STALL_NAK_TICKS ;;
    match m with
    | Error e => send (send_nak sec (nak_code e)) ;; ret (inl (sec, retries + 1))
    | Msg type seq payload =>
        let data := (type =? PKT_DATA) && (length payload =? 512)%nat in
        if data && (seq <? sec) then send (send_ack seq ACK_DUP sec) ;; ret (inl (sec, retries))
        else if negb (data && (seq =? sec)) then send (send_nak seq ERR_PROTOCOL) ;; ret (inl (sec, retries + 1))
        else
          r <- write_sector payload ;;
          match r with
          | None => send (send_nak sec ERR_WRITE) ;; ret (inl (sec, retries + 1))
          | Some ticks => send (send_ack sec ACK_OK ticks) ;; ret (inl (sec + 1, 0))
          end
    end.
(** A round takes an event from the line or is one of the at most six
    retries of a sector. *)
Definition transfer_sectors (nsectors : Z) : M burn bool :=
  n <- gets (fun s => length (b_line s)) ;;
  loop (7 * n + 8) (transfer_round nsectors) (0, 0).

(** Phases 5 and 6 of [main]. *)
Definition transfer (nsectors : Z) : M burn bool :=
  ok <- transfer_sectors nsectors ;;
  if negb ok then ret false
  else
    m <- receive RX_STALL_NAK_TICKS ;;
    match m with
    | Msg type seq _ => if type =? PKT_DONE then send (send_ack seq ACK_DONE 0) ;; ret true else ret false
    | Error _ => ret false
    end.
