(* ===== verification/BurnProps.v ===== *)
(** * The transfer protocol of burn

    The CRC of the frames against a bitwise definition, its power to detect a
    damaged byte, the frames that [recv_msg] accepts, and the transfer of a
    whole image. *)

From S2P Require Import Prelude Burn.

Definition byte (b : Z) : Prop := 0 <= b < 256.

(** ** CRC-32 *)

Lemma crc_bit_alt x : crc_bit x = Z.lxor (Z.shiftr x 1) (if Z.odd x then POLY else 0).
Proof.
  unfold crc_bit. change 1 with (Z.ones 1) at 1. rewrite (Z.land_ones x 1) by lia. change (2 ^ 1) with 2. rewrite Zmod_odd. destruct (Z.odd x); [done|]. by rewrite Z.lxor_0_r.
Qed.

Lemma odd_lxor x y : Z.odd (Z.lxor x y) = xorb (Z.odd x) (Z.odd y).
Proof. by rewrite <- !Z.bit0_odd, Z.lxor_spec. Qed.

Lemma crc_bit_lxor x y : crc_bit (Z.lxor x y) = Z.lxor (crc_bit x) (crc_bit y).
Proof.
  rewrite !crc_bit_alt, odd_lxor, Z.shiftr_lxor.
  destruct (Z.odd x), (Z.odd y); cbn [xorb]; rewrite ?Z.lxor_0_r; apply Z.bits_inj'; intros n Hn; rewrite !Z.lxor_spec; repeat destruct (Z.testbit _ _); done.
Qed.

Lemma iter_lxor n x y : Nat.iter n crc_bit (Z.lxor x y) = Z.lxor (Nat.iter n crc_bit x) (Nat.iter n crc_bit y).
Proof. induction n as [|n IH]; [done|]. rewrite !Nat.iter_succ, IH. apply crc_bit_lxor. Qed.

Lemma iter_shiftl n y : Nat.iter n crc_bit (Z.shiftl y (Z.of_nat n)) = y.
Proof.
  revert y. induction n as [|n IH]; intros y; [by rewrite Z.shiftl_0_r|]. rewrite Nat.iter_succ_r.
  assert (Hs : crc_bit (Z.shiftl y (Z.of_nat (S n))) = Z.shiftl y (Z.of_nat n)); [|by rewrite Hs].
  rewrite crc_bit_alt. rewrite <- Z.bit0_odd, Z.shiftl_spec_low by lia. rewrite Z.lxor_0_r, Z.shiftr_shiftl_l by lia. f_equal. lia.
Qed.

Lemma split_low x : Z.lxor (Z.land x 0xff) (Z.shiftl (Z.shiftr x 8) 8) = x.
Proof.
  change 0xff with (Z.ones 8). apply Z.bits_inj'. intros n Hn. rewrite Z.lxor_spec, Z.land_spec. destruct (Z.ltb_spec n 8) as [Hlt|Hge].
  - rewrite Z.ones_spec_low, Z.shiftl_spec_low by lia. repeat destruct (Z.testbit _ _); done.
  - rewrite Z.ones_spec_high, Z.shiftl_spec by lia. rewrite Z.shiftr_spec by lia. replace (n - 8 + 8) with n by lia. repeat destruct (Z.testbit _ _); done.
Qed.

Lemma tab_lookup i : 0 <= i < 256 -> crc32_tab !!! Z.to_nat i = Nat.iter 8 crc_bit i.
Proof.
  intros Hi. apply list_lookup_total_correct. unfold crc32_tab. rewrite list_lookup_fmap, lookup_seqZ_lt by lia. by replace (0 + Z.of_nat (Z.to_nat i)) with i by lia.
Qed.

Lemma crc_byte_bits c b : byte b -> crc_byte c b = Nat.iter 8 crc_bit (Z.lxor c b).
Proof.
  intros Hb. pose proof (iter_shiftl 8 (Z.shiftr (Z.lxor c b) 8)) as H8. change (Z.of_nat 8) with 8 in H8.
  rewrite <- (split_low (Z.lxor c b)), iter_lxor, H8. unfold crc_byte.
  rewrite tab_lookup by (change 0xff with (Z.ones 8); rewrite Z.land_ones by lia; apply Z.mod_pos_bound; lia).
  f_equal. rewrite Z.shiftr_lxor, (Z.shiftr_div_pow2 b) by lia. rewrite Z.div_small by (unfold byte in Hb; lia). by rewrite Z.lxor_0_r.
Qed.

(** The bitwise definition: each byte is folded in at the low end and shifted
    out, one bit at a time. *)
Definition crc_reference (data : list Z) : Z := not32 (foldl (fun c b => Nat.iter 8 crc_bit (Z.lxor c b)) 0xffffffff data).

Lemma not32_not32 x : not32 (not32 x) = x.
Proof. unfold not32. by rewrite Z.lxor_assoc, Z.lxor_nilpotent, Z.lxor_0_r. Qed.

Lemma crc32_app l1 l2 c : crc32 (l1 ++ l2) c = crc32 l2 (crc32 l1 c).
Proof. unfold crc32. by rewrite not32_not32, foldl_app. Qed.

Lemma crc32_reference data : Forall byte data -> crc32 data 0 = crc_reference data.
Proof.
  intros Hd. unfold crc32, crc_reference. change (not32 0) with 0xffffffff. f_equal. generalize 0xffffffff. induction Hd as [|b l Hb _ IH]; intros c; [done|].
  cbn [foldl]. by rewrite crc_byte_bits.
Qed.

Lemma magic_bytes : Forall byte MAGIC.
Proof. repeat constructor; unfold byte; lia. Qed.

(** The table-driven CRC of a frame, computed piece by piece, is the
    bitwise CRC-32 of the whole frame from the magic to the end of the
    payload. *)
Theorem frame_crc_reference hdr payload : Forall byte hdr -> Forall byte payload ->
  frame_crc hdr payload = crc_reference (MAGIC ++ hdr ++ payload).
Proof.
  intros Hh Hp. unfold frame_crc. rewrite <- !crc32_app. apply crc32_reference. apply Forall_app. split; [apply magic_bytes|by apply Forall_app].
Qed.

(** *** Damaged bytes *)

Definition word (x : Z) : Prop := 0 <= x < 2 ^ 32.

Lemma word_lxor x y : word x -> word y -> word (Z.lxor x y).
Proof.
  intros Hx Hy. assert (Hlog : forall z, word z -> Z.log2 z < 32).
  { intros z Hz. unfold word in Hz. destruct (Z.eq_dec z 0) as [->|]; [done|]. apply Z.log2_lt_pow2; lia. }
  assert (H0 : 0 <= Z.lxor x y) by (apply Z.lxor_nonneg; unfold word in *; lia). split; [done|].
  destruct (Z.eq_dec (Z.lxor x y) 0) as [->|Hne]; [lia|]. apply Z.log2_lt_pow2; [lia|]. unfold word in Hx, Hy. eapply Z.le_lt_trans; [apply Z.log2_lxor; lia|].
  apply Z.max_lub_lt; by apply Hlog.
Qed.

Lemma crc_bit_word x : word x -> word (crc_bit x).
Proof.
  intros Hx. rewrite crc_bit_alt. apply word_lxor; [|destruct (Z.odd x); unfold word, POLY; lia].
  unfold word in *. rewrite Z.shiftr_div_pow2 by lia. change (2 ^ 1) with 2. dlia.
Qed.

(** The top bit tells whether the polynomial was added. *)
Lemma crc_bit_inj x y : word x -> word y -> crc_bit x = crc_bit y -> x = y.
Proof.
  intros Hx Hy E. assert (Htop : forall z, word z -> Z.testbit (crc_bit z) 31 = Z.odd z).
  { intros z Hz. rewrite crc_bit_alt, Z.lxor_spec, Z.shiftr_spec by lia. replace (Z.testbit z (31 + 1)) with false; [by destruct (Z.odd z)|].
    symmetry. destruct (Z.eq_dec z 0) as [->|]; [done|]. unfold word in Hz. apply Z.bits_above_log2; [lia|]. change (31 + 1) with 32. apply Z.log2_lt_pow2; lia. }
  assert (Ho : Z.odd x = Z.odd y) by (rewrite <- !Htop by done; by rewrite E). rewrite !crc_bit_alt, Ho in E.
  apply (f_equal (fun v => Z.lxor v (if Z.odd y then POLY else 0))) in E. rewrite !Z.lxor_assoc, !Z.lxor_nilpotent, !Z.lxor_0_r in E.
  rewrite !Z.shiftr_div_pow2 in E by lia. change (2 ^ 1) with 2 in E. pose proof (Zodd_mod x). rewrite (Z.div_mod x 2), (Z.div_mod y 2) by lia. rewrite E. f_equal.
  by rewrite !Zmod_odd, Ho.
Qed.

Lemma iter_inj n : forall x y, word x -> word y -> Nat.iter n crc_bit x = Nat.iter n crc_bit y -> x = y.
Proof.
  induction n as [|n IH]; intros x y Hx Hy; [done|]. rewrite !Nat.iter_succ_r. intros E. apply crc_bit_inj; [done|done|]. apply IH; [by apply crc_bit_word|by apply crc_bit_word|done].
Qed.
Lemma iter_word n x : word x -> word (Nat.iter n crc_bit x).
Proof. intros Hx. induction n as [|n IH]; [done|]. by apply crc_bit_word. Qed.

Lemma lxor_cancel_l a x y : Z.lxor a x = Z.lxor a y -> x = y.
Proof. intros E. apply (f_equal (Z.lxor a)) in E. by rewrite <- !Z.lxor_assoc, !Z.lxor_nilpotent, !Z.lxor_0_l in E. Qed.
Lemma lxor_cancel_r a x y : Z.lxor x a = Z.lxor y a -> x = y.
Proof. rewrite !(Z.lxor_comm _ a). apply lxor_cancel_l. Qed.

Lemma byte_word b : byte b -> word b.
Proof. unfold byte, word. lia. Qed.

Lemma crc_byte_inj c c' b : word c -> word c' -> byte b -> crc_byte c b = crc_byte c' b -> c = c'.
Proof.
  intros Hc Hc' Hb. rewrite !crc_byte_bits by done. intros E. apply iter_inj in E; [by eapply lxor_cancel_r| |]; apply word_lxor; auto using byte_word.
Qed.
Lemma crc_byte_word c b : word c -> byte b -> word (crc_byte c b).
Proof. intros Hc Hb. rewrite crc_byte_bits by done. by apply iter_word, word_lxor, byte_word. Qed.
Lemma fold_word l : Forall byte l -> forall c, word c -> word (foldl crc_byte c l).
Proof. induction 1 as [|b l Hb _ IH]; intros c Hc; [done|]. by apply IH, crc_byte_word. Qed.
Lemma fold_inj l : Forall byte l -> forall c c', word c -> word c' -> foldl crc_byte c l = foldl crc_byte c' l -> c = c'.
Proof. induction 1 as [|b l Hb _ IH]; intros c c' Hc Hc' E; [done|]. apply (crc_byte_inj c c' b); [done|done|done|]. apply IH; auto using crc_byte_word. Qed.

Lemma not32_inj x y : not32 x = not32 y -> x = y.
Proof. apply lxor_cancel_r. Qed.
Lemma not32_word x : word x -> word (not32 x).
Proof. intros Hx. apply word_lxor; [done|]. unfold word. lia. Qed.
Lemma crc32_word l c : Forall byte l -> word c -> word (crc32 l c).
Proof. intros Hl Hc. by apply not32_word, fold_word, not32_word. Qed.

(** A byte that changes on the line always changes the CRC. *)
Lemma crc32_detects l1 a b l2 c : Forall byte (l1 ++ a :: l2) -> byte b -> word c -> a <> b -> crc32 (l1 ++ a :: l2) c <> crc32 (l1 ++ b :: l2) c.
Proof.
  intros [Hl1 [Ha Hl2]%Forall_cons]%Forall_app Hb Hc Hne E. unfold crc32 in E. apply not32_inj in E. rewrite !foldl_app in E. cbn [foldl] in E.
  assert (Hw : word (foldl crc_byte (not32 c) l1)) by (apply fold_word; [done|by apply not32_word]).
  apply (fold_inj l2) in E; [|done|by apply crc_byte_word|by apply crc_byte_word]. rewrite !crc_byte_bits in E by done.
  apply iter_inj in E; [by apply lxor_cancel_l in E| |]; apply word_lxor; auto using byte_word.
Qed.

(** ** Numbers in frames *)

Lemma lor_shift a b n : 0 <= n -> 0 <= a < 2 ^ n -> Z.lor a (Z.shiftl b n) = a + b * 2 ^ n.
Proof.
  intros Hn Ha. assert (Hd : Z.land a (Z.shiftl b n) = 0).
  { apply Z.bits_inj'. intros i Hi. rewrite Z.land_spec, Z.bits_0. destruct (Z.ltb_spec i n) as [Hlt|Hge]; [by rewrite Z.shiftl_spec_low, andb_false_r by lia|].
    replace (Z.testbit a i) with false; [done|]. symmetry. destruct (Z.eq_dec a 0) as [->|]; [apply Z.bits_0|]. apply Z.bits_above_log2; [lia|].
    eapply Z.lt_le_trans; [|exact Hge]. apply Z.log2_lt_pow2; lia. }
  rewrite <- Z.lxor_lor, <- Z.add_nocarry_lxor by done. by rewrite Z.shiftl_mul_pow2.
Qed.

Lemma get32le_sum a b c d l : byte a -> byte b -> byte c -> byte d -> get32le (a :: b :: c :: d :: l) = a + b * 256 + c * 65536 + d * 16777216.
Proof.
  unfold byte. intros Ha Hb Hc Hd. unfold get32le. cbn [lookup_total list_lookup_total]. rewrite (lor_shift a b 8) by lia.
  rewrite (lor_shift _ c 16) by lia. rewrite (lor_shift _ d 24) by lia. lia.
Qed.

Lemma put32le_bytes v : Forall byte (put32le v).
Proof. unfold put32le. repeat constructor; unfold byte; apply u8_range. Qed.

Lemma get_put v l : word v -> get32le (put32le v ++ l) = v.
Proof.
  intros Hv. pose proof (put32le_bytes v) as Hb. unfold put32le in *. rewrite !Forall_cons in Hb. destruct Hb as (H0 & H1 & H2 & H3 & _). cbn [app]. rewrite get32le_sum by done.
  unfold u8, word in *. rewrite !Z.shiftr_div_pow2 by lia. change (2 ^ 8) with 256. change (2 ^ 16) with 65536. change (2 ^ 24) with 16777216. dlia.
Qed.

Lemma put_get l : Forall byte l -> length l = 4%nat -> put32le (get32le l) = l.
Proof.
  intros Hb Hl. destruct l as [|a [|b [|c [|d [|]]]]]; try done. rewrite !Forall_cons in Hb. destruct Hb as (Ha & Hb & Hc & Hd & _). rewrite get32le_sum by done.
  unfold put32le, u8, byte in *. rewrite !Z.shiftr_div_pow2 by lia. change (2 ^ 8) with 256. change (2 ^ 16) with 65536. change (2 ^ 24) with 16777216.
  repeat f_equal; dlia.
Qed.

(** A header and its fields. *)
Definition seq_of (hdr : list Z) : Z := get32le hdr.
Definition type_of (hdr : list Z) : Z := hdr !!! 4%nat.
Definition plen_of (hdr : list Z) : Z := Z.lor (hdr !!! 5%nat) (Z.shiftl (hdr !!! 6%nat) 8).

Lemma header_fields seq type plen : word seq -> 0 <= plen < 65536 ->
  seq_of (header seq type plen) = seq /\ type_of (header seq type plen) = type /\ plen_of (header seq type plen) = plen.
Proof.
  intros Hs Hp. split_and!; [by apply get_put|done|]. unfold plen_of, header, put32le. cbn [app lookup_total list_lookup_total].
  rewrite (lor_shift _ _ 8) by (try lia; apply u8_range). unfold u8. rewrite !Z.shiftr_div_pow2 by lia. change (2 ^ 8) with 256. dlia.
Qed.

Lemma header_of hdr : Forall byte hdr -> length hdr = 7%nat -> 0 <= plen_of hdr < 65536 /\ header (seq_of hdr) (type_of hdr) (plen_of hdr) = hdr.
Proof.
  intros Hb Hl. destruct hdr as [|a [|b [|c [|d [|t [|x [|y [|]]]]]]]]; try done. rewrite !Forall_cons in Hb. destruct Hb as (Ha & Hb & Hc & Hd & Ht & Hx & Hy & _).
  assert (Hp : plen_of [a; b; c; d; t; x; y] = x + y * 256) by (unfold plen_of; cbn [lookup_total list_lookup_total]; rewrite (lor_shift x y 8) by (unfold byte in *; lia); done).
  rewrite Hp. split; [unfold byte in *; lia|]. unfold header, seq_of, type_of.
  assert (Hg : get32le [a; b; c; d; t; x; y] = get32le [a; b; c; d]) by (by rewrite !get32le_sum by done). rewrite Hg, put_get by (done || (repeat (apply Forall_cons; split; [done|]); constructor)).
  cbn [app lookup_total list_lookup_total]. unfold u8, byte in *. rewrite !Z.shiftr_div_pow2 by lia. change (2 ^ 8) with 256. repeat f_equal; dlia.
Qed.

Lemma header_bytes seq type plen : byte type -> Forall byte (header seq type plen).
Proof. intros Ht. unfold header. apply Forall_app. split; [apply put32le_bytes|].
  rewrite !Forall_cons. split_and!; [done|apply u8_range|apply u8_range|constructor].
Qed.

Lemma frame_crc_word hdr payload : Forall byte hdr -> Forall byte payload -> word (frame_crc hdr payload).
Proof. intros Hh Hp. unfold frame_crc. apply crc32_word; [done|]. apply crc32_word; [done|]. apply crc32_word; [apply magic_bytes|unfold word; lia]. Qed.

(** ** Reading *)

Abbreviation bytes l := (B <$> (l : list Z)).

Lemma read_bytes stall l rest : read_bytes_timeout (length l) stall (bytes l ++ rest) = (inr l, rest).
Proof. induction l as [|b l IH]; [done|]. rewrite fmap_cons. cbn [length app read_bytes_timeout]. by rewrite IH. Qed.

Lemma find_magic_here n stall rest : find_magic (S (S (S (S n)))) stall [0; 0; 0; 0] (bytes MAGIC ++ rest) = (None, rest).
Proof. done. Qed.

(** Noise without the first byte of the magic is skipped. *)
Lemma find_magic_noise g : 0x55 ∉ g -> forall n w stall rest, length w = 4%nat -> 0x55 ∉ w -> (length g + 4 <= n)%nat ->
  find_magic n stall w (bytes (g ++ MAGIC) ++ rest) = (None, rest).
Proof.
  induction g as [|b g IH]; intros Hg n w stall rest Hw H55 Hn.
  - destruct n as [|[|[|[|n]]]]; simpl in Hn; try lia. destruct w as [|w0 [|w1 [|w2 [|w3 [|]]]]]; try done. rewrite !not_elem_of_cons in H55.
    destruct H55 as (H0 & H1 & H2 & H3 & _). simpl. unfold MAGIC.
    repeat (rewrite (bool_decide_eq_false_2 (_ = _)) by (intros [=]; congruence); simpl). done.
  - apply not_elem_of_cons in Hg as [Hb Hg]. destruct n as [|n]; [simpl in Hn; lia|]. simpl. destruct w as [|w0 [|w1 [|w2 [|w3 [|]]]]]; try done. simpl.
    rewrite !not_elem_of_cons in H55. destruct H55 as (H0 & H1 & H2 & H3 & _).
    rewrite bool_decide_eq_false_2 by (unfold MAGIC; intros [=]; congruence). apply IH; [done|done|set_solver|simpl in Hn; lia].
Qed.

Lemma known_byte type : known_type type = true -> byte type.
Proof. unfold known_type. simpl. rewrite !orb_true_iff, !Z.eqb_eq. unfold byte, PKT_INFO, PKT_DATA, PKT_DONE, PKT_BAUD, PKT_ACK, PKT_NAK. intuition (subst; lia || done). Qed.

Lemma recv_frame_sent stall seq type payload rest : word seq -> known_type type = true -> Forall byte payload -> (length payload <= 512)%nat ->
  recv_frame stall (bytes (header seq type (Z.of_nat (length payload)) ++ payload ++ put32le (frame_crc (header seq type (Z.of_nat (length payload))) payload)) ++ rest)
  = (inl (Msg type seq payload), rest).
Proof.
  intros Hs Ht Hp Hl. set (hdr := header seq type (Z.of_nat (length payload))). set (crc := frame_crc hdr payload).
  destruct (header_fields seq type (Z.of_nat (length payload)) Hs ltac:(lia)) as (H1 & H2 & H3). fold hdr in H1, H2, H3. unfold recv_frame.
  rewrite fmap_app, <- app_assoc. change 7%nat with (length hdr). rewrite read_bytes. unfold seq_of, type_of, plen_of in *. rewrite H1, H2, H3, Ht.
  replace (512 <? Z.of_nat (length payload)) with false by lia. cbn [negb]. rewrite Nat2Z.id, fmap_app, <- app_assoc, read_bytes.
  change 4%nat with (length (put32le crc)). rewrite read_bytes. rewrite <- (app_nil_r (put32le crc)), get_put; [by rewrite Z.eqb_refl|].
  apply frame_crc_word; [|done]. apply header_bytes. by apply known_byte.
Qed.

(** A frame that was sent is received, behind any noise that does not contain
    the first byte of the magic. *)
Lemma recv_sent stall g seq type payload rest : 0x55 ∉ g -> word seq -> known_type type = true -> Forall byte payload -> (length payload <= 512)%nat ->
  recv_msg stall (bytes (g ++ send_msg seq type payload) ++ rest) = (Msg type seq payload, rest).
Proof.
  intros Hg Hs Ht Hp Hl. unfold send_msg. cbv zeta. rewrite (app_assoc g), fmap_app, <- app_assoc. unfold recv_msg. cbn [recv_loop].
  rewrite find_magic_noise; [by rewrite recv_frame_sent|done|done|set_solver|]. rewrite length_app, length_fmap, length_app. simpl. lia.
Qed.

(** ** What is accepted *)

Definition line_ok (line : list event) : Prop := forall b, B b ∈ line -> byte b.

Lemma line_ok_app l1 l2 : line_ok (l1 ++ l2) -> line_ok l1 /\ line_ok l2.
Proof. intros H. split; intros b Hb; apply H, elem_of_app; auto. Qed.
Lemma line_ok_bytes l : line_ok (bytes l) -> Forall byte l.
Proof. intros H. apply Forall_forall. intros b Hb. apply H. by apply list_elem_of_fmap_2. Qed.

(** What is left of the line is an end of it, shorter if something was asked
    of a line that is not at its end. *)
Definition left_over (line rest : list event) : Prop := rest `suffix_of` line /\ (line <> [] -> (length rest < length line)%nat).

Lemma left_over_trans l1 l2 l3 : left_over l1 l2 -> l3 `suffix_of` l2 -> left_over l1 l3.
Proof.
  intros [H1 H2] H3. split; [by etrans|]. intros Hne. specialize (H2 Hne). apply suffix_length in H3. lia.
Qed.
Lemma left_over_tail x l : left_over (x :: l) l.
Proof. split; [by apply suffix_cons_r|]. simpl. lia. Qed.

Lemma read_left n stall : forall line, (snd (read_bytes_timeout n stall line) `suffix_of` line) /\ (n <> O -> left_over line (snd (read_bytes_timeout n stall line))).
Proof.
  induction n as [|n IH]; intros line; [by split|]. assert (Hl : left_over line (snd (read_bytes_timeout (S n) stall line))); [|by split; [apply Hl|]].
  cbn [read_bytes_timeout]. induction line as [|e line IHl]; [split; [done|done]|]. destruct e as [b| |].
  - destruct (IH line) as [Hs _]. destruct (read_bytes_timeout n stall line) as [[e|l] rest]; simpl in *; (eapply left_over_trans; [apply left_over_tail|done]).
  - destruct (stall =? 0); [|apply left_over_tail]. eapply left_over_trans; [apply left_over_tail|apply IHl].
  - apply left_over_tail.
Qed.

Lemma find_left n stall : forall w line, (0 < n)%nat -> left_over line (snd (find_magic n stall w line)).
Proof.
  induction n as [|n IH]; intros w line Hn; [lia|]. cbn [find_magic]. destruct (read_left 1 stall line) as [_ Hr]. specialize (Hr ltac:(done)).
  destruct (read_bytes_timeout 1 stall line) as [[rr|l] rest]; [done|]. cbn [snd] in Hr. case_bool_decide; [done|].
  destruct n as [|n]; [done|]. eapply left_over_trans; [exact Hr|]. apply IH. lia.
Qed.

Lemma frame_left stall line : snd (recv_frame stall line) `suffix_of` line.
Proof.
  unfold recv_frame. destruct (read_left 7 stall line) as [H1 _]. destruct (read_bytes_timeout 7 stall line) as [[rr|hdr] rest]; [done|]. cbn [snd] in H1.
  destruct (negb (known_type _)); [done|]. destruct (512 <? _); [done|].
  match goal with |- context [read_bytes_timeout ?k stall rest] => destruct (read_left k stall rest) as [H2 _]; destruct (read_bytes_timeout k stall rest) as [[rr|pl] rest2] end; cbn [snd] in *; [by etrans|].
  destruct (read_left 4 stall rest2) as [H3 _]. destruct (read_bytes_timeout 4 stall rest2) as [[rr|crc] rest3]; cbn [snd] in *; [by etrans; [|etrans]|].
  by destruct (negb _); cbn [snd]; (etrans; [|etrans]).
Qed.

Lemma recv_left stall line : left_over line (snd (recv_msg stall line)).
Proof.
  unfold recv_msg. generalize [0; 0; 0; 0]. assert (Hf : (0 < S (length line))%nat) by lia. revert Hf. generalize (S (length line)) as n. intros n.
  revert line. induction n as [|n IH]; intros line Hn w; [lia|]. cbn [recv_loop].
  pose proof (find_left (S (length line)) stall w line ltac:(lia)) as H1. destruct (find_magic _ stall w line) as [[e|] rest]; [done|]. cbn [snd] in H1.
  pose proof (frame_left stall rest) as H2. destruct (recv_frame stall rest) as [[m|w'] rest2]; cbn [snd] in *; [by eapply left_over_trans|].
  destruct n as [|n]; [by eapply left_over_trans|]. eapply left_over_trans; [exact H1|]. etrans; [|exact H2]. apply IH. lia.
Qed.

(** The fuel of the two loops suffices: any more of it gives the same result,
    so that the answer for its end is never the one that is returned. *)
Lemma find_enough stall n : forall m w line, (length line < n)%nat -> (length line < m)%nat -> find_magic n stall w line = find_magic m stall w line.
Proof.
  induction n as [|n IH]; intros [|m] w line Hn Hm; [lia..|]. cbn [find_magic]. destruct line as [|e line]; [done|].
  destruct (read_left 1 stall (e :: line)) as [_ Hr]. destruct (Hr ltac:(done)) as [_ Hs]. specialize (Hs ltac:(done)).
  destruct (read_bytes_timeout 1 stall (e :: line)) as [[rr|l] rest]; [done|]. cbn [snd] in Hs. case_bool_decide; [done|]. apply IH; lia.
Qed.
Lemma recv_enough stall n : forall m w line, (length line < n)%nat -> (length line < m)%nat -> recv_loop n stall w line = recv_loop m stall w line.
Proof.
  induction n as [|n IH]; intros [|m] w line Hn Hm; [lia..|]. cbn [recv_loop]. destruct line as [|e line]; [done|].
  destruct (find_left (S (length (e :: line))) stall w (e :: line) ltac:(lia)) as [_ Hs]. specialize (Hs ltac:(done)).
  destruct (find_magic _ stall w (e :: line)) as [[x|] rest]; [done|]. cbn [snd] in Hs.
  pose proof (suffix_length _ _ (frame_left stall rest)) as Hf. destruct (recv_frame stall rest) as [[x|w'] rest2]; [done|]. cbn [snd] in Hf. apply IH; lia.
Qed.

Section sound.
Context (stall : Z) (Hst : stall <> 0).

Lemma read_inv n : forall line l rest, read_bytes_timeout n stall line = (inr l, rest) -> length l = n /\ line = bytes l ++ rest.
Proof.
  induction n as [|n IH]; intros line l rest; [by intros [= <- <-]|]. cbn [read_bytes_timeout]. destruct line as [|[b| |] line]; try done.
  - destruct (read_bytes_timeout n stall line) as [[e|l'] r] eqn:E; [done|]. intros [= <- <-]. destruct (IH _ _ _ E) as [<- ->]. done.
  - by rewrite (proj2 (Z.eqb_neq _ _) Hst).
Qed.

Lemma find_sound n : forall w seen line rest, w `suffix_of` [0; 0; 0; 0] ++ seen -> length w = 4%nat -> find_magic n stall w line = (None, rest) ->
  exists l, line = bytes l ++ rest /\ MAGIC `suffix_of` [0; 0; 0; 0] ++ seen ++ l.
Proof.
  induction n as [|n IH]; intros w seen line rest Hw Hl; [done|]. cbn [find_magic]. destruct (read_bytes_timeout 1 stall line) as [[rr|b] rest1] eqn:E; [done|].
  apply read_inv in E as [Hb ->]. assert (Hw' : (tail w ++ b) `suffix_of` [0; 0; 0; 0] ++ seen ++ b).
  { destruct Hw as [p Hp]. rewrite app_assoc, Hp. destruct w as [|x w]; [done|]. exists (p ++ [x]). simpl. by rewrite <- !app_assoc. }
  case_bool_decide as Hm; [intros [= <-]; exists b; by rewrite <- Hm|]. intros Hf.
  destruct (IH _ (seen ++ b) _ _ Hw' ltac:(destruct w; [done|]; rewrite length_app; simpl in *; lia) Hf) as (l & -> & Hs).
  exists (b ++ l). rewrite fmap_app, <- app_assoc. split; [done|]. by rewrite <- app_assoc in Hs.
Qed.

Lemma magic_not_zero s : MAGIC `suffix_of` [0; 0; 0; 0] ++ s -> MAGIC `suffix_of` s.
Proof.
  intros [p Hp]. destruct (decide (4 <= length p)%nat) as [Hl|Hl].
  - exists (drop 4 p). apply (f_equal (drop 4)) in Hp. change (drop 4 ([0; 0; 0; 0] ++ s)) with s in Hp. by rewrite drop_app_le in Hp by done.
  - exfalso. apply (f_equal (fun l => l !! length p)) in Hp. rewrite lookup_app_l in Hp by (simpl; lia). rewrite lookup_app_r, Nat.sub_diag in Hp by lia.
    destruct (length p) as [|[|[|[|k]]]]; simpl in Hp; done.
Qed.

Lemma frame_sound line t q p rest : line_ok line -> recv_frame stall line = (inl (Msg t q p), rest) ->
  line = bytes (header q t (Z.of_nat (length p)) ++ p ++ put32le (frame_crc (header q t (Z.of_nat (length p))) p)) ++ rest.
Proof.
  intros Hok. unfold recv_frame. destruct (read_bytes_timeout 7 stall line) as [[rr|hdr] r1] eqn:E1; [done|]. apply read_inv in E1 as [Hl1 ->].
  apply line_ok_app in Hok as [Hb1%line_ok_bytes Hok]. destruct (header_of hdr Hb1 Hl1) as [Hpl Hh]. unfold seq_of, type_of, plen_of in Hpl, Hh.
  destruct (negb (known_type _)); [done|]. destruct (512 <? _); [done|].
  destruct (read_bytes_timeout _ stall r1) as [[rr|pl] r2] eqn:E2; [done|]. apply read_inv in E2 as [Hl2 ->]. apply line_ok_app in Hok as [Hb2 Hok].
  destruct (read_bytes_timeout 4 stall r2) as [[rr|crc] r3] eqn:E3; [done|]. apply read_inv in E3 as [Hl3 ->]. apply line_ok_app in Hok as [Hb3%line_ok_bytes _].
  destruct (Z.eqb_spec (frame_crc hdr pl) (get32le crc)) as [Ec|]; [|done]. simpl negb. cbv iota. intros [= <- <- <- <-].
  rewrite Hl2, Z2Nat.id by lia. rewrite Hh, Ec, put_get by done. by rewrite !fmap_app, <- !app_assoc.
Qed.

Lemma frame_again line w rest : recv_frame stall line = (inr w, rest) -> exists hdr, length hdr = 7%nat /\ line = bytes hdr ++ rest /\ w = drop 3 hdr.
Proof.
  unfold recv_frame. destruct (read_bytes_timeout 7 stall line) as [[rr|hdr] r1] eqn:E1; [done|]. apply read_inv in E1 as [Hl1 ->].
  destruct (negb (known_type _)); [intros [= <- <-]; by exists hdr|]. destruct (512 <? _); [done|].
  destruct (read_bytes_timeout _ stall r1) as [[rr|pl] r2]; [done|]. destruct (read_bytes_timeout 4 stall r2) as [[rr|crc] r3]; [done|]. by destruct (negb _).
Qed.

Lemma loop_sound n : forall w seen line t q p rest, line_ok line -> w `suffix_of` [0; 0; 0; 0] ++ seen -> length w = 4%nat ->
  recv_loop n stall w line = (Msg t q p, rest) -> exists g l, line = bytes l ++ rest /\ seen ++ l = g ++ send_msg q t p.
Proof.
  induction n as [|n IH]; intros w seen line t q p rest Hok Hw Hl; [done|]. cbn [recv_loop]. destruct (find_magic _ stall w line) as [[e|] r1] eqn:E1; [done|].
  apply (find_sound _ _ seen) in E1 as (l1 & -> & Hm); [|done|done]. apply magic_not_zero in Hm as [g Hg]. apply line_ok_app in Hok as [_ Hok].
  destruct (recv_frame stall r1) as [[m|w'] r2] eqn:E2.
  - intros [= -> <-]. apply frame_sound in E2; [|done]. rewrite E2.
    match goal with |- context [bytes ?f ++ r2] => exists g, (l1 ++ f) end. split; [by rewrite (fmap_app _ l1), <- app_assoc|]. by rewrite app_assoc, Hg, <- app_assoc.
  - apply frame_again in E2 as (hdr & Hh & -> & ->). apply line_ok_app in Hok as [_ Hok]. intros Hr.
    apply (IH _ (seen ++ l1 ++ hdr)) in Hr as (g' & l & -> & Hs); [|done| |by rewrite length_drop, Hh].
    + exists g', (l1 ++ hdr ++ l). rewrite !fmap_app, <- !app_assoc. split; [done|]. rewrite <- Hs. by rewrite <- !app_assoc.
    + exists ([0; 0; 0; 0] ++ seen ++ l1 ++ take 3 hdr). rewrite <- !app_assoc. by rewrite take_drop.
Qed.

(** An accepted message is a frame on the line, as [send_msg] writes it. *)
Lemma recv_sound line t q p rest : line_ok line -> recv_msg stall line = (Msg t q p, rest) ->
  exists g, line = bytes (g ++ send_msg q t p) ++ rest.
Proof.
  intros Hok Hr. apply (loop_sound _ _ []) in Hr as (g & l & -> & Hs); [|done|by rewrite app_nil_r|done]. exists g. by rewrite <- Hs.
Qed.
End sound.

(** ** The transfer *)

(** Loops whose measure depends on the state. *)
Lemma wp_loop_measure {S X R} (I : X -> S -> Prop) (measure : X -> S -> nat) (body : X -> M S (X + R)) (Q : R -> S -> Prop) :
  (forall x s, I x s -> wp (body x) (fun y s' => match y with inl x' => I x' s' /\ (measure x' s' < measure x s)%nat | inr r => Q r s' end) s) ->
  forall fuel x s, I x s -> (measure x s < fuel)%nat -> wp (loop fuel body x) Q s.
Proof.
  intros Hb. induction fuel as [|n IH]; intros x s HI Hm; [lia|]. apply wp_loop_S. eapply wp_mono; [by apply Hb|].
  intros [x'|r] s'; [|done]. intros [HI' Hlt]. apply IH; [done|lia].
Qed.

Section transfer.
Context (line0 : list event) (Hok : line_ok line0) (nsectors : Z) (Hn : 0 <= nsectors).

(** The frame of a sector came in on the line. *)
Definition came_in (i : nat) (v : list Z) : Prop :=
  length v = 512%nat /\ exists pre post, line0 = pre ++ bytes (send_msg (Z.of_nat i) PKT_DATA v) ++ post.
Definition valid (s : burn) : Prop :=
  b_line s `suffix_of` line0 /\ forall i v, b_sectors s !! i = Some v -> came_in i v.

Lemma receive_wp stall s (Q : message -> burn -> Prop) : stall <> 0 -> valid s ->
  (forall m line, left_over (b_line s) line -> (forall t q p, m = Msg t q p -> (length line < length (b_line s))%nat /\ exists pre post, line0 = pre ++ bytes (send_msg q t p) ++ post) ->
     valid (Burn line (b_sent s) (b_sectors s) (b_writes s)) -> Q m (Burn line (b_sent s) (b_sectors s) (b_writes s))) ->
  wp (receive stall) Q s.
Proof.
  intros Hst [Hs Hv] HQ. unfold receive. wp_step. wp_step. pose proof (recv_left stall (b_line s)) as Hl. destruct (recv_msg stall (b_line s)) as [m line] eqn:E.
  wp_go. destruct Hs as [pre Hpre]. apply HQ; [done| |].
  - intros t q p ->. apply recv_sound in E as [g Hg]; [|done|rewrite Hpre in Hok; by apply line_ok_app in Hok as [_ ?]].
    split; [rewrite Hg, length_app, length_fmap, length_app; unfold send_msg; simpl; lia|]. exists (pre ++ bytes g), line.
    rewrite Hpre, Hg, fmap_app. by rewrite <- !app_assoc.
  - split; [|done]. destruct Hl as [Hl _]. cbn [snd b_line] in *. rewrite Hpre. etrans; [exact Hl|by exists pre].
Qed.

(** Between two rounds. *)
Definition round_inv (x : Z * Z) (s : burn) : Prop :=
  fst x = Z.of_nat (length (b_sectors s)) /\ fst x <= nsectors /\ 0 <= snd x <= MAX_RETRY + 1 /\ valid s.
Definition round_measure (x : Z * Z) (s : burn) : nat := 7 * length (b_line s) + Z.to_nat (6 - snd x).

Lemma send_wp l s (Q : unit -> burn -> Prop) : Q tt (Burn (b_line s) (b_sent s ++ l) (b_sectors s) (b_writes s)) -> wp (send l) Q s.
Proof. done. Qed.

Ltac inv_tac := split_and!; cbn [fst snd]; unfold MAX_RETRY in *; solve [done|lia|assumption].

Lemma round_wp x s : round_inv x s -> wp (transfer_round nsectors x) (fun y s' =>
  match y with
  | inl x' => round_inv x' s' /\ (round_measure x' s' < round_measure x s)%nat
  | inr ok => round_inv (Z.of_nat (length (b_sectors s')), 0) s' /\ (ok = true -> Z.of_nat (length (b_sectors s')) = nsectors)
  end) s.
Proof.
  destruct x as [sec retries]. intros (Hsec & Hle & Hre & Hv). cbn [fst snd] in *. unfold transfer_round.
  destruct (Z.leb_spec nsectors sec) as [Hend|Hgo]; [wp_step; split; [inv_tac|intros _; lia]|].
  destruct (Z.ltb_spec MAX_RETRY retries) as [Hlim|Hlim]; [wp_step; split; [inv_tac|done]|].
  wp_step. apply receive_wp; [done|done|]. intros m line [Hsuf Hlen] Hfr Hv'. unfold MAX_RETRY in *.
  assert (Hlen' : (length line <= length (b_line s))%nat) by (by apply suffix_length).
  assert (Hagain : forall sent ws, round_inv (sec, retries + 1) (Burn line sent (b_sectors s) ws) /\
    (round_measure (sec, (retries + 1)%Z) (Burn line sent (b_sectors s) ws) < round_measure (sec, retries) s)%nat).
  { intros sent ws. split; [inv_tac|]. unfold round_measure. cbn [b_line snd]. lia. }
  destruct m as [e|type seq payload]; [wp_step; apply send_wp; wp_step; apply Hagain|].
  destruct (Hfr type seq payload eq_refl) as [Hlt (pre & post & Hline)].
  assert (Hdata : (type =? PKT_DATA) && (length payload =? 512)%nat = true -> type = PKT_DATA /\ length payload = 512%nat) by (rewrite andb_true_iff, Z.eqb_eq, Nat.eqb_eq; done).
  destruct ((type =? PKT_DATA) && (length payload =? 512)%nat); cbn [andb negb]; [|wp_step; apply send_wp; wp_step; apply Hagain].
  destruct (Hdata eq_refl) as [-> Hpl]. destruct (Z.ltb_spec seq sec) as [Hdup|Hdup].
  { wp_step. apply send_wp. wp_step. split; [inv_tac|]. unfold round_measure. cbn [b_line snd]. lia. }
  destruct (Z.eqb_spec seq sec) as [->|Hseq]; cbn [negb]; [|wp_step; apply send_wp; wp_step; apply Hagain].
  wp_step. unfold write_sector. wp_step. wp_step. cbn [b_writes]. destruct (b_writes s) as [|[[] ticks] ws]; wp_go; cbn [b_line b_sent b_sectors].
  - apply send_wp. wp_step. apply Hagain.
  - apply send_wp. wp_step. cbn [b_line b_sent b_sectors b_writes]. split; [|unfold round_measure; cbn [b_line snd]; lia].
    split_and!; cbn [fst snd b_sectors]; [rewrite length_app; simpl; lia|lia|lia|unfold MAX_RETRY; lia|]. split; [exact (proj1 Hv')|]. cbn [b_sectors].
    intros i v Hi. apply lookup_app_Some in Hi as [Hi|[Hi Hx]]; [by apply (proj2 Hv')|]. apply list_lookup_singleton_Some in Hx as [Hi0 <-].
    split; [done|]. exists pre, post. replace (Z.of_nat i) with sec by lia. done.
  - apply send_wp. wp_step. apply Hagain.
Qed.

Lemma transfer_wp s : b_line s = line0 -> b_sectors s = [] -> wp (transfer nsectors) (fun ok s' =>
  valid s' /\ Z.of_nat (length (b_sectors s')) <= nsectors /\ (ok = true -> Z.of_nat (length (b_sectors s')) = nsectors)) s.
Proof.
  intros Hl Hs. unfold transfer, transfer_sectors. wp_step. wp_step. wp_step.
  eapply wp_mono; [apply (wp_loop_measure round_inv round_measure _ _ round_wp); [|unfold round_measure; cbn [snd]; lia]|].
  { split_and!; cbn [fst snd]; [by rewrite Hs|done|lia|unfold MAX_RETRY; lia|]. split; [by rewrite Hl|]. rewrite Hs. intros i v Hi. by rewrite lookup_nil in Hi. }
  intros [] s1 [(_ & Hle & _ & Hv) Hend]; cbn [fst negb] in *; [|wp_step; by split_and!]. wp_step. apply receive_wp; [done|done|]. intros m line _ _ Hv'.
  destruct m as [e|type seq payload]; [wp_step; by split_and!|]. destruct (type =? PKT_DONE); [|wp_step; by split_and!].
  wp_step. apply send_wp. wp_step. split_and!; [exact Hv'|done|done].
Qed.
End transfer.

(** C37: only valid frames reach the card.  Whatever comes in on the line, with
    noise, silences, read errors and failing writes, the transfer ends; the
    sectors it has written, from sector 0 on and at most as many as announced,
    are the payloads of data frames that came in with the number of the
    sector and a correct CRC, and it reports success only when all of them are
    written. *)
Theorem transfer_writes_valid s nsectors : line_ok (b_line s) -> b_sectors s = [] -> 0 <= nsectors ->
  wp (transfer nsectors) (fun ok s' =>
    Z.of_nat (length (b_sectors s')) <= nsectors /\ (ok = true -> Z.of_nat (length (b_sectors s')) = nsectors) /\
    forall i v, b_sectors s' !! i = Some v -> length v = 512%nat /\
      exists pre post, b_line s = pre ++ bytes (send_msg (Z.of_nat i) PKT_DATA v) ++ post) s.
Proof.
  intros Hok Hs Hn. eapply wp_mono; [by apply (transfer_wp (b_line s) Hok nsectors Hn)|]. intros ok s' ([_ Hv] & Hle & Hend). by split_and!.
Qed.

(** ** A clean line *)

Definition sector (v : list Z) : Prop := length v = 512%nat /\ Forall byte v.

(** The data frames of the sectors from number [n] on, and their answers. *)
Fixpoint data_frames (n : Z) (image : list (list Z)) : list Z :=
  match image with
  | [] => []
  | v :: image' => send_msg n PKT_DATA v ++ data_frames (n + 1) image'
  end.
Fixpoint answers (n : Z) (ticks : list Z) : list Z :=
  match ticks with
  | [] => []
  | t :: ticks' => send_ack n ACK_OK t ++ answers (n + 1) ticks'
  end.

Lemma receive_sent seq type payload rest sent sectors writes (Q : message -> burn -> Prop) :
  word seq -> known_type type = true -> Forall byte payload -> (length payload <= 512)%nat ->
  Q (Msg type seq payload) (Burn rest sent sectors writes) -> wp (receive RX_STALL_NAK_TICKS) Q (Burn (bytes (send_msg seq type payload) ++ rest) sent sectors writes).
Proof.
  intros Hs Ht Hp Hl HQ. unfold receive. wp_step. wp_step. cbn [b_line].
  pose proof (recv_sent RX_STALL_NAK_TICKS [] seq type payload rest ltac:(set_solver) Hs Ht Hp Hl) as E. cbn [app] in E. rewrite E. by wp_go.
Qed.

Lemma clean_round nsectors n v rest sent sectors ticks writes : 0 <= n < nsectors -> nsectors <= 2 ^ 32 -> sector v ->
  wp (transfer_round nsectors (n, 0)) (fun y s' => y = inl (n + 1, 0) /\ s' = Burn rest (sent ++ send_ack n ACK_OK ticks) (sectors ++ [v]) writes)
    (Burn (bytes (send_msg n PKT_DATA v) ++ rest) sent sectors ((true, ticks) :: writes)).
Proof.
  intros Hn Hm [Hl Hv]. unfold transfer_round. replace (nsectors <=? n) with false by lia. cbn [Z.ltb Z.compare MAX_RETRY]. wp_step.
  apply receive_sent; [unfold word; lia|done|done|lia|]. rewrite Hl, Z.ltb_irrefl, !Z.eqb_refl. cbn [andb negb Z.eqb PKT_DATA Pos.eqb Nat.eqb]. unfold write_sector, send. wp_go. done.
Qed.

Lemma clean_sectors nsectors image : nsectors <= 2 ^ 32 -> Forall sector image -> forall n ticks fuel rest sent sectors writes,
  0 <= n -> n + Z.of_nat (length image) = nsectors -> length ticks = length image -> (length image < fuel)%nat ->
  wp (loop fuel (transfer_round nsectors) (n, 0)) (fun ok s' => ok = true /\ s' = Burn rest (sent ++ answers n ticks) (sectors ++ image) writes)
    (Burn (bytes (data_frames n image) ++ rest) sent sectors (((fun t => (true, t)) <$> ticks) ++ writes)).
Proof.
  intros Hm Hi. induction Hi as [|v image Hv Hi IH]; intros n ticks fuel rest sent sectors writes Hn Hlen Ht Hf; destruct fuel as [|fuel]; simpl in Hf; try lia; apply wp_loop_S.
  - destruct ticks; [|done]. unfold transfer_round. replace (nsectors <=? n) with true by (simpl in Hlen; lia). wp_step. cbn [answers]. by rewrite !app_nil_r.
  - destruct ticks as [|t ticks]; [done|]. cbn [data_frames answers]. rewrite fmap_app, <- app_assoc, fmap_cons. cbn [app]. simpl in Hlen, Ht.
    eapply wp_mono; [apply clean_round; [lia|done|done]|]. intros y s' [-> ->].
    eapply wp_mono; [apply (IH (n + 1) ticks); lia|]. intros ok s' [-> ->]. split; [done|]. by rewrite <- !app_assoc.
Qed.

(** C38: an image is copied.  When the data frames of an image of up to 2^32
    sectors come in without damage, followed by DONE, and the writes to the
    card succeed, the transfer reports success, the card holds exactly the
    image, and every frame has been acknowledged in order, each data frame
    with its number and the time of its write. *)
Theorem transfer_copies_image image ticks seq rest sent writes : Forall sector image -> Z.of_nat (length image) <= 2 ^ 32 -> length ticks = length image -> word seq ->
  transfer (Z.of_nat (length image)) (Burn (bytes (data_frames 0 image ++ send_msg seq PKT_DONE []) ++ rest) sent [] (((fun t => (true, t)) <$> ticks) ++ writes))
  = Ok true (Burn rest (sent ++ answers 0 ticks ++ send_ack seq ACK_DONE 0) image writes).
Proof.
  intros Hi Hm Ht Hs. set (s := Burn _ _ _ _). assert (Hw : wp (transfer (Z.of_nat (length image))) (fun ok s' => ok = true /\ s' = Burn rest (sent ++ answers 0 ticks ++ send_ack seq ACK_DONE 0) image writes) s).
  { unfold transfer, transfer_sectors. wp_step. wp_step. wp_step. unfold s. cbn [b_line]. rewrite fmap_app, <- app_assoc.
    eapply wp_mono; [apply (clean_sectors (Z.of_nat (length image)) image Hm Hi 0 ticks); [lia|lia|done|]|].
    - assert (Hd : forall n, (length image <= length (data_frames n image))%nat) by (clear; induction image as [|v image IH]; intros n; [simpl; lia|]; cbn [data_frames length]; rewrite length_app; specialize (IH (n + 1)); unfold send_msg; simpl; lia).
      specialize (Hd 0). rewrite length_app, length_fmap. lia.
    - intros ok s' [-> ->]. cbn [negb]. wp_step. apply receive_sent; [done|done|constructor|simpl; lia|]. cbn [Z.eqb PKT_DONE Pos.eqb]. wp_step. apply send_wp. wp_step. split; [done|]. cbn [b_line b_sent b_sectors b_writes]. by rewrite <- app_assoc. }
  destruct (wp_Ok _ _ _ Hw) as (ok & s' & E & -> & ->). exact E.
Qed.

(** Examples. *)
Module BurnDemo.
(** The check value of CRC-32: the digits 1 to 9. *)
Example crc32_check : crc32 [0x31; 0x32; 0x33; 0x34; 0x35; 0x36; 0x37; 0x38; 0x39] 0 = 0xCBF43926.
Proof. by vm_compute. Qed.

Lemma frame_crc_reference_witness : frame_crc [1; 0; 0; 0; 2; 0; 0] [7; 255] = crc_reference (MAGIC ++ [1; 0; 0; 0; 2; 0; 0] ++ [7; 255]).
Proof. apply frame_crc_reference; repeat constructor; unfold byte; lia. Defined.

Definition noisy : burn := Burn ([B 1; Gap; B 0x55] ++ bytes (send_msg 0 PKT_DATA (replicate 512 7)) ++ [Failure]) [] [] [(true, 3)].

Lemma noisy_ok : line_ok (b_line noisy).
Proof.
  intros b Hb. assert (Hall : forallb (fun e => match e with B b => (0 <=? b) && (b <? 256) | _ => true end) (b_line noisy) = true) by (by vm_compute).
  rewrite forallb_forall in Hall. apply list_elem_of_In in Hb. specialize (Hall _ Hb). simpl in Hall. apply andb_true_iff in Hall as [H1 H2]. unfold byte. lia.
Qed.

Lemma transfer_writes_valid_witness : wp (transfer 1) (fun ok s' =>
    Z.of_nat (length (b_sectors s')) <= 1 /\ (ok = true -> Z.of_nat (length (b_sectors s')) = 1) /\
    forall i v, b_sectors s' !! i = Some v -> length v = 512%nat /\
      exists pre post, b_line noisy = pre ++ bytes (send_msg (Z.of_nat i) PKT_DATA v) ++ post) noisy.
Proof. apply (transfer_writes_valid noisy 1 noisy_ok); [reflexivity|lia]. Defined.

(** The sector of the noisy line is written in spite of the noise. *)
Example noisy_run : match transfer 1 noisy with Ok ok s => (ok, length (b_sectors s)) | _ => (true, O) end = (false, 1%nat).
Proof. by vm_compute. Qed.

Lemma transfer_copies_image_witness :
  transfer 2 (Burn (bytes (data_frames 0 [replicate 512 7; replicate 512 9] ++ send_msg 2 PKT_DONE []) ++ []) [] [] [(true, 3); (true, 4)])
  = Ok true (Burn [] ([] ++ answers 0 [3; 4] ++ send_ack 2 ACK_DONE 0) [replicate 512 7; replicate 512 9] []).
Proof.
  apply (transfer_copies_image [replicate 512 7; replicate 512 9] [3; 4] 2 [] [] []); [|simpl; lia|done|unfold word; lia].
  apply Forall_cons; split; [|apply Forall_cons; split; [|apply Forall_nil; exact I]]; (split; [apply length_replicate|apply Forall_replicate; unfold byte; lia]).
Defined.

(** A false magic hides the frame behind it: of the seven bytes taken for its
    header the last four are kept, but the window is compared only after the
    next byte. *)
Example overlapping_frame_lost :
  fst (recv_msg RX_STALL_NAK_TICKS (bytes (MAGIC ++ [0; 0; 0] ++ send_msg 1 PKT_DONE []))) = Error RECV_ERR_IO.
Proof. by vm_compute. Qed.
End BurnDemo.
