(* ===== verification/Oled.v ===== *)
(** * Drawing on the display (src/user/libc/oled.c)

    The display has 128 by 64 pixels.  The framebuffer has a byte for every
    column of every page of eight rows; bit [b] of a byte is the pixel in row
    [b] of the page.

    [fb] is [None] before [OLED_init] has mapped the framebuffer.  An access
    outside the framebuffer, an image or a local array is an outcome of its
    own, [outside].  [OLED_init] and [OLED_Flush], which are system calls, are
    not modelled. *)

From S2P Require Import Prelude.

Definition OLEDFB_W : Z := 128.
Definition OLEDFB_H : Z := 64.
Definition OLEDFB_FB_SIZE : Z := 1024.
Definition OLED_8X16 : Z := 8.
Definition OLED_6X8 : Z := 6.

(** The fonts, glyph by glyph from the space on. *)
Definition OLED_F8x16 : list (list Z) := [
  [0; 0; 0; 0; 0; 0; 0; 0; 0; 0; 0; 0; 0; 0; 0; 0];
  [0; 0; 0; 248; 0; 0; 0; 0; 0; 0; 0; 51; 48; 0; 0; 0];
  [0; 16; 12; 6; 16; 12; 6; 0; 0; 0; 0; 0; 0; 0; 0; 0];
  [64; 192; 120; 64; 192; 120; 64; 0; 4; 63; 4; 4; 63; 4; 4; 0];
  [0; 112; 136; 252; 8; 48; 0; 0; 0; 24; 32; 255; 33; 30; 0; 0];
  [240; 8; 240; 0; 224; 24; 0; 0; 0; 33; 28; 3; 30; 33; 30; 0];
  [0; 240; 8; 136; 112; 0; 0; 0; 30; 33; 35; 36; 25; 39; 33; 16];
  [16; 22; 14; 0; 0; 0; 0; 0; 0; 0; 0; 0; 0; 0; 0; 0];
  [0; 0; 0; 224; 24; 4; 2; 0; 0; 0; 0; 7; 24; 32; 64; 0];
  [0; 2; 4; 24; 224; 0; 0; 0; 0; 64; 32; 24; 7; 0; 0; 0];
  [64; 64; 128; 240; 128; 64; 64; 0; 2; 2; 1; 15; 1; 2; 2; 0];
  [0; 0; 0; 240; 0; 0; 0; 0; 1; 1; 1; 31; 1; 1; 1; 0];
  [0; 0; 0; 0; 0; 0; 0; 0; 128; 176; 112; 0; 0; 0; 0; 0];
  [0; 0; 0; 0; 0; 0; 0; 0; 0; 1; 1; 1; 1; 1; 1; 1];
  [0; 0; 0; 0; 0; 0; 0; 0; 0; 48; 48; 0; 0; 0; 0; 0];
  [0; 0; 0; 0; 128; 96; 24; 4; 0; 96; 24; 6; 1; 0; 0; 0];
  [0; 224; 16; 8; 8; 16; 224; 0; 0; 15; 16; 32; 32; 16; 15; 0];
  [0; 16; 16; 248; 0; 0; 0; 0; 0; 32; 32; 63; 32; 32; 0; 0];
  [0; 112; 8; 8; 8; 136; 112; 0; 0; 48; 40; 36; 34; 33; 48; 0];
  [0; 48; 8; 136; 136; 72; 48; 0; 0; 24; 32; 32; 32; 17; 14; 0];
  [0; 0; 192; 32; 16; 248; 0; 0; 0; 7; 4; 36; 36; 63; 36; 0];
  [0; 248; 8; 136; 136; 8; 8; 0; 0; 25; 33; 32; 32; 17; 14; 0];
  [0; 224; 16; 136; 136; 24; 0; 0; 0; 15; 17; 32; 32; 17; 14; 0];
  [0; 56; 8; 8; 200; 56; 8; 0; 0; 0; 0; 63; 0; 0; 0; 0];
  [0; 112; 136; 8; 8; 136; 112; 0; 0; 28; 34; 33; 33; 34; 28; 0];
  [0; 224; 16; 8; 8; 16; 224; 0; 0; 0; 49; 34; 34; 17; 15; 0];
  [0; 0; 0; 192; 192; 0; 0; 0; 0; 0; 0; 48; 48; 0; 0; 0];
  [0; 0; 0; 128; 0; 0; 0; 0; 0; 0; 128; 96; 0; 0; 0; 0];
  [0; 0; 128; 64; 32; 16; 8; 0; 0; 1; 2; 4; 8; 16; 32; 0];
  [64; 64; 64; 64; 64; 64; 64; 0; 4; 4; 4; 4; 4; 4; 4; 0];
  [0; 8; 16; 32; 64; 128; 0; 0; 0; 32; 16; 8; 4; 2; 1; 0];
  [0; 112; 72; 8; 8; 8; 240; 0; 0; 0; 0; 48; 54; 1; 0; 0];
  [192; 48; 200; 40; 232; 16; 224; 0; 7; 24; 39; 36; 35; 20; 11; 0];
  [0; 0; 192; 56; 224; 0; 0; 0; 32; 60; 35; 2; 2; 39; 56; 32];
  [8; 248; 136; 136; 136; 112; 0; 0; 32; 63; 32; 32; 32; 17; 14; 0];
  [192; 48; 8; 8; 8; 8; 56; 0; 7; 24; 32; 32; 32; 16; 8; 0];
  [8; 248; 8; 8; 8; 16; 224; 0; 32; 63; 32; 32; 32; 16; 15; 0];
  [8; 248; 136; 136; 232; 8; 16; 0; 32; 63; 32; 32; 35; 32; 24; 0];
  [8; 248; 136; 136; 232; 8; 16; 0; 32; 63; 32; 0; 3; 0; 0; 0];
  [192; 48; 8; 8; 8; 56; 0; 0; 7; 24; 32; 32; 34; 30; 2; 0];
  [8; 248; 8; 0; 0; 8; 248; 8; 32; 63; 33; 1; 1; 33; 63; 32];
  [0; 8; 8; 248; 8; 8; 0; 0; 0; 32; 32; 63; 32; 32; 0; 0];
  [0; 0; 8; 8; 248; 8; 8; 0; 192; 128; 128; 128; 127; 0; 0; 0];
  [8; 248; 136; 192; 40; 24; 8; 0; 32; 63; 32; 1; 38; 56; 32; 0];
  [8; 248; 8; 0; 0; 0; 0; 0; 32; 63; 32; 32; 32; 32; 48; 0];
  [8; 248; 248; 0; 248; 248; 8; 0; 32; 63; 0; 63; 0; 63; 32; 0];
  [8; 248; 48; 192; 0; 8; 248; 8; 32; 63; 32; 0; 7; 24; 63; 0];
  [224; 16; 8; 8; 8; 16; 224; 0; 15; 16; 32; 32; 32; 16; 15; 0];
  [8; 248; 8; 8; 8; 8; 240; 0; 32; 63; 33; 1; 1; 1; 0; 0];
  [224; 16; 8; 8; 8; 16; 224; 0; 15; 24; 36; 36; 56; 80; 79; 0];
  [8; 248; 136; 136; 136; 136; 112; 0; 32; 63; 32; 0; 3; 12; 48; 32];
  [0; 112; 136; 8; 8; 8; 56; 0; 0; 56; 32; 33; 33; 34; 28; 0];
  [24; 8; 8; 248; 8; 8; 24; 0; 0; 0; 32; 63; 32; 0; 0; 0];
  [8; 248; 8; 0; 0; 8; 248; 8; 0; 31; 32; 32; 32; 32; 31; 0];
  [8; 120; 136; 0; 0; 200; 56; 8; 0; 0; 7; 56; 14; 1; 0; 0];
  [248; 8; 0; 248; 0; 8; 248; 0; 3; 60; 7; 0; 7; 60; 3; 0];
  [8; 24; 104; 128; 128; 104; 24; 8; 32; 48; 44; 3; 3; 44; 48; 32];
  [8; 56; 200; 0; 200; 56; 8; 0; 0; 0; 32; 63; 32; 0; 0; 0];
  [16; 8; 8; 8; 200; 56; 8; 0; 32; 56; 38; 33; 32; 32; 24; 0];
  [0; 0; 0; 254; 2; 2; 2; 0; 0; 0; 0; 127; 64; 64; 64; 0];
  [0; 12; 48; 192; 0; 0; 0; 0; 0; 0; 0; 1; 6; 56; 192; 0];
  [0; 2; 2; 2; 254; 0; 0; 0; 0; 64; 64; 64; 127; 0; 0; 0];
  [0; 0; 4; 2; 2; 2; 4; 0; 0; 0; 0; 0; 0; 0; 0; 0];
  [0; 0; 0; 0; 0; 0; 0; 0; 128; 128; 128; 128; 128; 128; 128; 128];
  [0; 2; 2; 4; 0; 0; 0; 0; 0; 0; 0; 0; 0; 0; 0; 0];
  [0; 0; 128; 128; 128; 128; 0; 0; 0; 25; 36; 34; 34; 34; 63; 32];
  [8; 248; 0; 128; 128; 0; 0; 0; 0; 63; 17; 32; 32; 17; 14; 0];
  [0; 0; 0; 128; 128; 128; 0; 0; 0; 14; 17; 32; 32; 32; 17; 0];
  [0; 0; 0; 128; 128; 136; 248; 0; 0; 14; 17; 32; 32; 16; 63; 32];
  [0; 0; 128; 128; 128; 128; 0; 0; 0; 31; 34; 34; 34; 34; 19; 0];
  [0; 128; 128; 240; 136; 136; 136; 24; 0; 32; 32; 63; 32; 32; 0; 0];
  [0; 0; 128; 128; 128; 128; 128; 0; 0; 107; 148; 148; 148; 147; 96; 0];
  [8; 248; 0; 128; 128; 128; 0; 0; 32; 63; 33; 0; 0; 32; 63; 32];
  [0; 128; 152; 152; 0; 0; 0; 0; 0; 32; 32; 63; 32; 32; 0; 0];
  [0; 0; 0; 128; 152; 152; 0; 0; 0; 192; 128; 128; 128; 127; 0; 0];
  [8; 248; 0; 0; 128; 128; 128; 0; 32; 63; 36; 2; 45; 48; 32; 0];
  [0; 8; 8; 248; 0; 0; 0; 0; 0; 32; 32; 63; 32; 32; 0; 0];
  [128; 128; 128; 128; 128; 128; 128; 0; 32; 63; 32; 0; 63; 32; 0; 63];
  [128; 128; 0; 128; 128; 128; 0; 0; 32; 63; 33; 0; 0; 32; 63; 32];
  [0; 0; 128; 128; 128; 128; 0; 0; 0; 31; 32; 32; 32; 32; 31; 0];
  [128; 128; 0; 128; 128; 0; 0; 0; 128; 255; 161; 32; 32; 17; 14; 0];
  [0; 0; 0; 128; 128; 128; 128; 0; 0; 14; 17; 32; 32; 160; 255; 128];
  [128; 128; 128; 0; 128; 128; 128; 0; 32; 32; 63; 33; 32; 0; 1; 0];
  [0; 0; 128; 128; 128; 128; 128; 0; 0; 51; 36; 36; 36; 36; 25; 0];
  [0; 128; 128; 224; 128; 128; 0; 0; 0; 0; 0; 31; 32; 32; 0; 0];
  [128; 128; 0; 0; 0; 128; 128; 0; 0; 31; 32; 32; 32; 16; 63; 32];
  [128; 128; 128; 0; 0; 128; 128; 128; 0; 1; 14; 48; 8; 6; 1; 0];
  [128; 128; 0; 128; 0; 128; 128; 128; 15; 48; 12; 3; 12; 48; 15; 0];
  [0; 128; 128; 0; 128; 128; 128; 0; 0; 32; 49; 46; 14; 49; 32; 0];
  [128; 128; 128; 0; 0; 128; 128; 128; 128; 129; 142; 112; 24; 6; 1; 0];
  [0; 128; 128; 128; 128; 128; 128; 0; 0; 33; 48; 44; 34; 33; 48; 0];
  [0; 0; 0; 0; 128; 124; 2; 2; 0; 0; 0; 0; 0; 63; 64; 64];
  [0; 0; 0; 0; 255; 0; 0; 0; 0; 0; 0; 0; 255; 0; 0; 0];
  [0; 2; 2; 124; 128; 0; 0; 0; 0; 64; 64; 63; 0; 0; 0; 0];
  [0; 6; 1; 1; 2; 2; 4; 4; 0; 0; 0; 0; 0; 0; 0; 0]].

Definition OLED_F6x8 : list (list Z) := [
  [0; 0; 0; 0; 0; 0];
  [0; 0; 0; 47; 0; 0];
  [0; 0; 7; 0; 7; 0];
  [0; 20; 127; 20; 127; 20];
  [0; 36; 42; 127; 42; 18];
  [0; 35; 19; 8; 100; 98];
  [0; 54; 73; 85; 34; 80];
  [0; 0; 0; 7; 0; 0];
  [0; 0; 28; 34; 65; 0];
  [0; 0; 65; 34; 28; 0];
  [0; 20; 8; 62; 8; 20];
  [0; 8; 8; 62; 8; 8];
  [0; 0; 0; 160; 96; 0];
  [0; 8; 8; 8; 8; 8];
  [0; 0; 96; 96; 0; 0];
  [0; 32; 16; 8; 4; 2];
  [0; 62; 81; 73; 69; 62];
  [0; 0; 66; 127; 64; 0];
  [0; 66; 97; 81; 73; 70];
  [0; 33; 65; 69; 75; 49];
  [0; 24; 20; 18; 127; 16];
  [0; 39; 69; 69; 69; 57];
  [0; 60; 74; 73; 73; 48];
  [0; 1; 113; 9; 5; 3];
  [0; 54; 73; 73; 73; 54];
  [0; 6; 73; 73; 41; 30];
  [0; 0; 54; 54; 0; 0];
  [0; 0; 86; 54; 0; 0];
  [0; 8; 20; 34; 65; 0];
  [0; 20; 20; 20; 20; 20];
  [0; 0; 65; 34; 20; 8];
  [0; 2; 1; 81; 9; 6];
  [0; 62; 73; 85; 89; 46];
  [0; 124; 18; 17; 18; 124];
  [0; 127; 73; 73; 73; 54];
  [0; 62; 65; 65; 65; 34];
  [0; 127; 65; 65; 34; 28];
  [0; 127; 73; 73; 73; 65];
  [0; 127; 9; 9; 9; 1];
  [0; 62; 65; 73; 73; 122];
  [0; 127; 8; 8; 8; 127];
  [0; 0; 65; 127; 65; 0];
  [0; 32; 64; 65; 63; 1];
  [0; 127; 8; 20; 34; 65];
  [0; 127; 64; 64; 64; 64];
  [0; 127; 2; 12; 2; 127];
  [0; 127; 4; 8; 16; 127];
  [0; 62; 65; 65; 65; 62];
  [0; 127; 9; 9; 9; 6];
  [0; 62; 65; 81; 33; 94];
  [0; 127; 9; 25; 41; 70];
  [0; 70; 73; 73; 73; 49];
  [0; 1; 1; 127; 1; 1];
  [0; 63; 64; 64; 64; 63];
  [0; 31; 32; 64; 32; 31];
  [0; 63; 64; 56; 64; 63];
  [0; 99; 20; 8; 20; 99];
  [0; 7; 8; 112; 8; 7];
  [0; 97; 81; 73; 69; 67];
  [0; 0; 127; 65; 65; 0];
  [0; 2; 4; 8; 16; 32];
  [0; 0; 65; 65; 127; 0];
  [0; 4; 2; 1; 2; 4];
  [0; 64; 64; 64; 64; 64];
  [0; 0; 1; 2; 4; 0];
  [0; 32; 84; 84; 84; 120];
  [0; 127; 72; 68; 68; 56];
  [0; 56; 68; 68; 68; 32];
  [0; 56; 68; 68; 72; 127];
  [0; 56; 84; 84; 84; 24];
  [0; 8; 126; 9; 1; 2];
  [0; 24; 164; 164; 164; 124];
  [0; 127; 8; 4; 4; 120];
  [0; 0; 68; 125; 64; 0];
  [0; 64; 128; 132; 125; 0];
  [0; 127; 16; 40; 68; 0];
  [0; 0; 65; 127; 64; 0];
  [0; 124; 4; 24; 4; 120];
  [0; 124; 8; 4; 4; 120];
  [0; 56; 68; 68; 68; 56];
  [0; 252; 36; 36; 36; 24];
  [0; 24; 36; 36; 24; 252];
  [0; 124; 8; 4; 4; 8];
  [0; 72; 84; 84; 84; 32];
  [0; 4; 63; 68; 64; 32];
  [0; 60; 64; 64; 32; 124];
  [0; 28; 32; 64; 32; 28];
  [0; 60; 64; 48; 64; 60];
  [0; 68; 40; 16; 40; 68];
  [0; 28; 160; 160; 160; 124];
  [0; 68; 100; 84; 76; 68];
  [0; 0; 8; 127; 65; 0];
  [0; 0; 0; 127; 0; 0];
  [0; 0; 65; 127; 8; 0];
  [0; 8; 4; 8; 16; 8]].

Definition fbp : Type := option (list Z).
Abbreviation G := (M fbp).

Definition outside {A} : G A := panic "outside"%string.
(** [l[i]] *)
Definition at_ (l : list Z) (i : Z) : option Z := if i <? 0 then None else l !! Z.to_nat i.
Definition rd (l : list Z) (i : Z) : G Z :=
  match at_ l i with
  | Some b => ret b
  | None => outside
  end.
(** [fb[i] = g(fb[i])] *)
Definition fb_upd (i : Z) (g : Z -> Z) : G unit :=
  fb <- get ;;
  match fb with
  | None => outside
  | Some l => b <- rd l i ;; modify (fun _ => Some (<[Z.to_nat i := g b]> l))
  end.
(** [for (i = a; i < b; i++)] *)
Fixpoint for_n (n : nat) (i : Z) (body : Z -> G unit) : G unit :=
  match n with
  | O => ret tt
  | S n' => body i ;; for_n n' (i + 1) body
  end.
Definition for_ (a b : Z) (body : Z -> G unit) : G unit := for_n (Z.to_nat (b - a)) a body.
(** [for (i = a; i <= b; i++)] with an int [i], which at the largest int does
    not end. *)
Definition for_to (a b : Z) (body : Z -> G unit) : G unit :=
  if b =? 2 ^ 31 - 1 then fun _ => Spin else for_ a (b + 1) body.
Definition no_fb (fb : fbp) : bool := bool_decide (fb = None).

Definition OLED_DrawPoint (X Y : Z) : G unit :=
  fb <- get ;;
  if no_fb fb || (X <? 0) || (OLEDFB_W <=? X) || (Y <? 0) || (OLEDFB_H <=? Y) then ret tt
  else fb_upd (Z.shiftr Y 3 * OLEDFB_W + X) (fun b => Z.lor b (u8 (Z.shiftl 1 (Z.land Y 7)))).

Definition OLED_Clear : G unit :=
  fb <- get ;;
  if no_fb fb then ret tt else for_ 0 OLEDFB_FB_SIZE (fun i => fb_upd i (fun _ => 0)).

(** [mask = 0xFF; for (bit = b0; bit < b1; bit++) mask &= (uint8)~(1u << bit)] *)
Definition clear_mask (b0 b1 : Z) : Z :=
  foldl (fun mask bit => Z.land mask (u8 (Z.lnot (Z.shiftl 1 bit)))) 0xff (seqZ b0 (b1 - b0)).

(** The clipping shared by [OLED_ClearArea] and [OLED_ShowImage]. *)
Definition off_screen (X Y w h : Z) : bool :=
  (OLEDFB_W <=? X) || (OLEDFB_H <=? Y) || (s32 (X + w) <=? 0) || (s32 (Y + h) <=? 0).
Definition left_col (X : Z) : Z := if 0 <? X then X else 0.
Definition right_col (X w : Z) : Z := if s32 (X + w) <? OLEDFB_W then s32 (X + w) else OLEDFB_W.

Definition OLED_ClearArea (X Y W H : Z) : G unit :=
  fb <- get ;;
  if no_fb fb || (W <=? 0) || (H <=? 0) then ret tt
  else if off_screen X Y W H then ret tt
  else
    let x0 := left_col X in
    let x1 := right_col X W in
    let p0 := Z.shiftr Y 3 in
    let p1 := Z.shiftr (s32 (Y + H) - 1) 3 in
    let p1 := if OLEDFB_H / 8 - 1 <? p1 then OLEDFB_H / 8 - 1 else p1 in
    for_ p0 (p1 + 1) (fun page =>
      let b0 := if page * 8 <? Y then Y - page * 8 else 0 in
      let b1 := if s32 (Y + H) <? (page + 1) * 8 then s32 (Y + H) - page * 8 else 8 in
      for_ x0 x1 (fun col => fb_upd (page * OLEDFB_W + col) (fun b => Z.land b (clear_mask b0 b1)))).

(** A round of [while (p < 8 && h > 0)]; [io] is how far [Image] advanced. *)
Definition show_page (w col0 col1 img_col : Z) (Image : list Z) (x : Z * Z * Z) : G ((Z * Z * Z) + unit) :=
  let '(p, h, io) := x in
  if (p <? 8) && (0 <? h) then
    let fb_off := p * OLEDFB_W + col0 in
    for_ 0 (col1 - col0) (fun i =>
      v <- rd Image (io + img_col + i) ;;
      fb_upd (fb_off + i) (fun b => Z.lor b v)) ;;
    ret (inl (p + 1, h - 8, io + w))
  else ret (inr tt).

Definition show_row (X Y w col0 col1 : Z) (Image : list Z) (row : Z) : G unit :=
  let sr := row - Y in
  let page := Z.shiftr row 3 in
  let bit := Z.land row 7 in
  let img_off := Z.shiftr sr 3 * w + (col0 - X) in
  for_ col0 col1 (fun col =>
    v <- rd Image (img_off + (col - col0)) ;;
    if negb (Z.land v (Z.shiftl 1 (Z.land sr 7)) =? 0) then fb_upd (page * OLEDFB_W + col) (fun b => Z.lor b (u8 (Z.shiftl 1 bit)))
    else ret tt).

Definition OLED_ShowImage (X Y w h : Z) (Image : option (list Z)) : G unit :=
  fb <- get ;;
  match Image with
  | None => ret tt
  | Some Image =>
      if no_fb fb || (w <=? 0) || (h <=? 0) then ret tt
      else if off_screen X Y w h then ret tt
      else
        let col0 := left_col X in
        let col1 := right_col X w in
        if col1 <=? col0 then ret tt
        else if (Z.rem Y 8 =? 0) && (Z.rem h 8 =? 0) then
          let p := Z.shiftr Y 3 in
          loop (Z.to_nat (8 - p) + 1) (show_page w col0 col1 (col0 - X) Image) (p, h, 0)
        else for_ Y (Z.min (s32 (Y + h)) OLEDFB_H) (show_row X Y w col0 col1 Image)
  end.

(** ** Text *)

(** A glyph behind the end of the table is [outside]. *)
Definition glyph (font : list (list Z)) (idx : Z) : G (list Z) :=
  match font !! Z.to_nat idx with
  | Some g => ret g
  | None => outside
  end.

Definition OLED_ShowChar (X Y Char FontSize : Z) : G unit :=
  let idx := u8 (Char - 32) in
  if FontSize =? OLED_8X16 then g <- glyph OLED_F8x16 idx ;; OLED_ShowImage X Y 8 16 (Some g)
  else if FontSize =? OLED_6X8 then g <- glyph OLED_F6x8 idx ;; OLED_ShowImage X Y 6 8 (Some g)
  else ret tt.

(** [String] without its NUL; [i] is the index of its head. *)
Fixpoint show_string (X Y FontSize i : Z) (String : list Z) : G unit :=
  match String with
  | [] => ret tt
  | c :: String' => OLED_ShowChar (s32 (X + i * FontSize)) Y c FontSize ;; show_string X Y FontSize (i + 1) String'
  end.
Definition OLED_ShowString (X Y : Z) (String : list Z) (FontSize : Z) : G unit := show_string X Y FontSize 0 String.

Definition OLED_Pow (base exp : Z) : Z := Nat.iter (Z.to_nat (u32 exp)) (fun result => u32 (result * base)) 1.

(** An unsigned division by 0 gives all ones on RISC-V. *)
Definition divu (a b : Z) : Z := if b =? 0 then 0xffffffff else a / b.

Definition OLED_ShowNum (X Y Number Length FontSize : Z) : G unit :=
  for_ 0 Length (fun i => OLED_ShowChar (s32 (X + i * FontSize)) Y (u8 (divu Number (OLED_Pow 10 (Length - i - 1)) mod 10 + 48)) FontSize).

Definition oled_hexdigits : list Z := [48; 49; 50; 51; 52; 53; 54; 55; 56; 57; 65; 66; 67; 68; 69; 70].
Definition hexdigit (x : Z) : Z := oled_hexdigits !!! Z.to_nat (Z.land x 0xf).

Definition OLED_ShowHexNum (X Y Number Length FontSize : Z) : G unit :=
  let Length := if 8 <? Length then 8 else Length in
  for_ 0 Length (fun i => OLED_ShowChar (s32 (X + i * FontSize)) Y (hexdigit (Z.shiftr Number ((Length - 1 - i) * 4))) FontSize).

Definition OLED_ShowHex32 (X Y val FontSize : Z) : G unit := OLED_ShowHexNum X Y val 8 FontSize.

(** [buf[64]] of [OLED_ShowHexRow] up to [pos]. *)
Definition push (c : Z) (buf : list Z) : G (list Z) :=
  if (length buf <? 64)%nat then ret (buf ++ [c]) else outside.
Fixpoint push_label (label buf : list Z) : G (list Z) :=
  match label with
  | [] => ret buf
  | c :: label' => if (length buf <? 63)%nat then buf <- push c buf ;; push_label label' buf else ret buf
  end.
Fixpoint push_hex (data : list Z) (buf : list Z) : G (list Z) :=
  match data with
  | [] => ret buf
  | d :: data' =>
      if (length buf + 1 <? 64)%nat then
        buf <- push (hexdigit (Z.shiftr d 4)) buf ;;
        buf <- push (hexdigit d) buf ;;
        push_hex data' buf
      else ret buf
  end.
(** [data]: the [n] bytes, none for a NULL pointer or [n <= 0]; [label]
    without its NUL, empty for a NULL pointer. *)
Definition OLED_ShowHexRow (X Y : Z) (label data : list Z) (FontSize : Z) : G unit :=
  buf <- push_label label [] ;;
  buf <- push_hex data buf ;;
  push 0 buf ;;
  OLED_ShowString X Y buf FontSize.

(** ** Shapes *)

Definition plot (yflag xyflag : bool) (x y : Z) : G unit :=
  if yflag && xyflag then OLED_DrawPoint y (s32 (- x))
  else if yflag then OLED_DrawPoint x (s32 (- y))
  else if xyflag then OLED_DrawPoint y x
  else OLED_DrawPoint x y.

Definition line_body (yflag xyflag : bool) (x1 incrE incrNE : Z) (v : Z * Z * Z) : G ((Z * Z * Z) + unit) :=
  let '(x, y, d) := v in
  if x <? x1 then
    let x := x + 1 in
    let '(y, d) := if d <? 0 then (y, s32 (d + incrE)) else (s32 (y + 1), s32 (d + incrNE)) in
    plot yflag xyflag x y ;;
    ret (inl (x, y, d))
  else ret (inr tt).

(** The diagonal case from the first octant on. *)
Definition bresenham (yflag xyflag : bool) (x0 y0 x1 y1 : Z) : G unit :=
  let dx := s32 (x1 - x0) in
  let dy := s32 (y1 - y0) in
  let incrE := s32 (2 * dy) in
  let incrNE := s32 (2 * s32 (dy - dx)) in
  let d := s32 (s32 (2 * dy) - dx) in
  plot yflag xyflag x0 y0 ;;
  loop (Z.to_nat (x1 - x0) + 1) (line_body yflag xyflag x1 incrE incrNE) (x0, y0, d).

Definition OLED_DrawLine (X0 Y0 X1 Y1 : Z) : G unit :=
  if Y0 =? Y1 then
    let '(x0, x1) := if X1 <? X0 then (X1, X0) else (X0, X1) in
    for_to x0 x1 (fun x => OLED_DrawPoint x Y0)
  else if X0 =? X1 then
    let '(y0, y1) := if Y1 <? Y0 then (Y1, Y0) else (Y0, Y1) in
    for_to y0 y1 (fun y => OLED_DrawPoint X0 y)
  else
    let '(x0, y0, x1, y1) := if X1 <? X0 then (X1, Y1, X0, Y0) else (X0, Y0, X1, Y1) in
    let yflag := y1 <? y0 in
    let '(y0, y1) := if yflag then (s32 (- y0), s32 (- y1)) else (y0, y1) in
    let xyflag := s32 (x1 - x0) <? s32 (y1 - y0) in
    if xyflag then bresenham yflag xyflag y0 x0 y1 x1 else bresenham yflag xyflag x0 y0 x1 y1.

Definition OLED_DrawRectangle (X Y Width Height : Z) (IsFilled : bool) : G unit :=
  if (Width <=? 0) || (Height <=? 0) then ret tt
  else if negb IsFilled then
    for_ X (s32 (X + Width)) (fun i => OLED_DrawPoint i Y ;; OLED_DrawPoint i (s32 (Y + Height) - 1)) ;;
    for_ Y (s32 (Y + Height)) (fun i => OLED_DrawPoint X i ;; OLED_DrawPoint (s32 (X + Width) - 1) i)
  else for_ X (s32 (X + Width)) (fun i => for_ Y (s32 (Y + Height)) (fun j => OLED_DrawPoint i j)).

Definition circle_points (X Y x y : Z) : G unit :=
  OLED_DrawPoint (s32 (X + x)) (s32 (Y + y)) ;;
  OLED_DrawPoint (s32 (X + y)) (s32 (Y + x)) ;;
  OLED_DrawPoint (s32 (X - x)) (s32 (Y - y)) ;;
  OLED_DrawPoint (s32 (X - y)) (s32 (Y - x)) ;;
  OLED_DrawPoint (s32 (X + x)) (s32 (Y - y)) ;;
  OLED_DrawPoint (s32 (X + y)) (s32 (Y - x)) ;;
  OLED_DrawPoint (s32 (X - x)) (s32 (Y + y)) ;;
  OLED_DrawPoint (s32 (X - y)) (s32 (Y + x)).

Definition circle_fill (X Y x y : Z) : G unit :=
  for_ (- y) y (fun j => OLED_DrawPoint (s32 (X + x)) (s32 (Y + j)) ;; OLED_DrawPoint (s32 (X - x)) (s32 (Y + j))) ;;
  for_ (- x) x (fun j => OLED_DrawPoint (s32 (X - y)) (s32 (Y + j)) ;; OLED_DrawPoint (s32 (X + y)) (s32 (Y + j))).

Definition circle_body (X Y : Z) (IsFilled : bool) (v : Z * Z * Z) : G ((Z * Z * Z) + unit) :=
  let '(x, y, d) := v in
  if x <? y then
    let x := x + 1 in
    let '(y, d) := if d <? 0 then (y, s32 (d + (2 * x + 1))) else (y - 1, s32 (d + (2 * (x - (y - 1)) + 1))) in
    circle_points X Y x y ;;
    when IsFilled (circle_fill X Y x y) ;;
    ret (inl (x, y, d))
  else ret (inr tt).

Definition OLED_DrawCircle (X Y Radius : Z) (IsFilled : bool) : G unit :=
  if Radius <=? 0 then ret tt
  else
    let d := 1 - Radius in
    let y := Radius in
    OLED_DrawPoint X (s32 (Y + y)) ;;
    OLED_DrawPoint X (s32 (Y - y)) ;;
    OLED_DrawPoint (s32 (X + y)) Y ;;
    OLED_DrawPoint (s32 (X - y)) Y ;;
    when IsFilled (for_ (- y) y (fun j => OLED_DrawPoint X (s32 (Y + j)))) ;;
    loop (Z.to_nat Radius + 1) (circle_body X Y IsFilled) (0, Radius, d).
