(* ===== verification/OledProps.v ===== *)
(** * Theorems on the drawing functions

    What a function draws is described by the set of pixels it sets or
    clears; [inks] composes such descriptions over sequences and loops. *)

From S2P Require Import Prelude Oled.

(** ** Pixels *)

Definition on (x y : Z) : Prop := 0 <= x < OLEDFB_W /\ 0 <= y < OLEDFB_H.
Definition pixel (l : list Z) (x y : Z) : bool := Z.testbit (l !!! Z.to_nat (y / 8 * OLEDFB_W + x)) (y mod 8).
Definition picture : Type := Z -> Z -> Prop.
Definition shows (fb : fbp) (p : picture) : Prop :=
  exists l, fb = Some l /\ Z.of_nat (length l) = OLEDFB_FB_SIZE /\ forall x y, on x y -> pixel l x y = true <-> p x y.

Inductive ink := Light | Dark.
Definition mix (k : ink) (p q : picture) : picture := fun x y => match k with Light => p x y \/ q x y | Dark => p x y /\ ~ q x y end.

(** [m] sets, or clears, exactly the pixels of [q]. *)
Definition inks (k : ink) (m : G unit) (q : picture) : Prop :=
  forall fb p, shows fb p -> wp m (fun _ fb' => shows fb' (mix k p q)) fb.

Lemma shows_equiv fb (p p' : picture) : shows fb p -> (forall x y, on x y -> p x y <-> p' x y) -> shows fb p'.
Proof. intros (l & -> & Hl & H) He. exists l. split_and!; [done|done|]. intros x y Hon. rewrite H by done. by apply He. Qed.

Lemma inks_equiv k m (q q' : picture) : inks k m q -> (forall x y, on x y -> q x y <-> q' x y) -> inks k m q'.
Proof.
  intros H He fb p Hs. eapply wp_mono; [by apply H|]. intros [] fb' Hs'. eapply shows_equiv; [exact Hs'|].
  intros x y Hon. unfold mix. specialize (He x y Hon). destruct k; tauto.
Qed.

Lemma inks_ret k : inks k (ret tt) (fun _ _ => False).
Proof. intros fb p Hs. apply wp_ret. eapply shows_equiv; [exact Hs|]. intros. unfold mix. destruct k; tauto. Qed.

Lemma inks_seq k m m' (q q' : picture) : inks k m q -> inks k m' q' -> inks k (m ;; m') (fun x y => q x y \/ q' x y).
Proof.
  intros H H' fb p Hs. apply wp_bind. eapply wp_mono; [by apply H|]. intros [] fb' Hs'. eapply wp_mono; [by apply H'|].
  intros [] fb2 Hs2. eapply shows_equiv; [exact Hs2|]. intros. unfold mix. destruct k; tauto.
Qed.

Lemma inks_for_n k (q : Z -> picture) body n : forall a, (forall i, a <= i < a + Z.of_nat n -> inks k (body i) (q i)) ->
  inks k (for_n n a body) (fun x y => exists i, a <= i < a + Z.of_nat n /\ q i x y).
Proof.
  induction n as [|n IH]; intros a Hb; cbn [for_n].
  - eapply inks_equiv; [apply inks_ret|]. intros x y _. split; [done|]. intros (i & Hi & _). lia.
  - eapply inks_equiv; [apply inks_seq; [apply Hb; lia|apply (IH (a + 1)); intros; apply Hb; lia]|].
    intros x y _. cbn beta. split.
    + intros [Hq|(i & Hi & Hq)]; [exists a|exists i]; (split; [lia|done]).
    + intros (i & Hi & Hq). destruct (decide (i = a)) as [->|]; [by left|]. right. exists i. split; [lia|done].
Qed.

Lemma inks_for k (q : Z -> picture) body a b : (forall i, a <= i < b -> inks k (body i) (q i)) ->
  inks k (for_ a b body) (fun x y => exists i, a <= i < b /\ q i x y).
Proof.
  intros Hb. eapply inks_equiv; [apply (inks_for_n k q); intros; apply Hb; lia|].
  intros x y _. split; intros (i & Hi & Hq); exists i; (split; [lia|done]).
Qed.

Lemma inks_for_to k (q : Z -> picture) body a b : b < 2 ^ 31 - 1 -> (forall i, a <= i < b + 1 -> inks k (body i) (q i)) ->
  inks k (for_to a b body) (fun x y => exists i, a <= i < b + 1 /\ q i x y).
Proof. intros Hb Hi. unfold for_to. rewrite (proj2 (Z.eqb_neq b (2 ^ 31 - 1))) by lia. by apply inks_for. Qed.

(** A framebuffer is mapped. *)
Lemma inks_mapped k (f : fbp -> G unit) q : (forall l, inks k (f (Some l)) q) -> inks k (fb <- get ;; f fb) q.
Proof. intros H fb p Hs. apply wp_bind, wp_get. pose proof Hs as (l & -> & _). by apply H. Qed.

Lemma rd_wp l i Q s : 0 <= i < Z.of_nat (length l) -> Q (l !!! Z.to_nat i) s -> wp (rd l i) Q s.
Proof.
  intros Hi HQ. unfold rd, at_. replace (i <? 0) with false by (symmetry; apply Z.ltb_ge; lia).
  destruct (lookup_lt_is_Some_2 l (Z.to_nat i)) as [b Hb]; [lia|]. rewrite Hb. apply wp_ret. by rewrite <- (list_lookup_total_correct _ _ _ Hb).
Qed.

(** ** Bytes *)

Lemma offset_inj x y c p : on x y -> 0 <= c < OLEDFB_W -> y / 8 * OLEDFB_W + x = p * OLEDFB_W + c <-> x = c /\ y / 8 = p.
Proof. unfold on, OLEDFB_W, OLEDFB_H. dlia. Qed.

Lemma inks_fb_upd k p c v g : 0 <= p < 8 -> 0 <= c < OLEDFB_W ->
  (forall b i, 0 <= i < 8 -> Z.testbit (g b) i = true <-> match k with Light => Z.testbit b i = true \/ Z.testbit v i = true | Dark => Z.testbit b i = true /\ ~ Z.testbit v i = true end) ->
  inks k (fb_upd (p * OLEDFB_W + c) g) (fun x y => x = c /\ y / 8 = p /\ Z.testbit v (y mod 8) = true).
Proof.
  intros Hp Hc Hg fb q (l & -> & Hl & Hq). unfold fb_upd, OLEDFB_W, OLEDFB_FB_SIZE in *. wp_step. wp_step. wp_step. apply rd_wp; [lia|]. wp_step.
  eexists. split_and!; [done|by rewrite length_insert|]. intros x y Hon. pose proof (offset_inj x y c p Hon Hc) as Ho. pose proof (Hq x y Hon) as Hq1.
  unfold mix. unfold pixel, on, OLEDFB_W, OLEDFB_H in *.
  destruct (decide (Z.to_nat (y / 8 * 128 + x) = Z.to_nat (p * 128 + c))) as [He|Hne].
  - rewrite He, list_lookup_total_insert_eq by lia. destruct Ho as [Ho _]. destruct Ho as [-> ->]; [dlia|].
    rewrite Hg by dlia. rewrite He in Hq1. destruct k; intuition auto.
  - rewrite list_lookup_total_insert_ne by done. assert (~ (x = c /\ y / 8 = p)) by (intros H; apply Ho in H; dlia). destruct k; tauto.
Qed.

Lemma inks_lor p c v : 0 <= p < 8 -> 0 <= c < OLEDFB_W ->
  inks Light (fb_upd (p * OLEDFB_W + c) (fun b => Z.lor b v)) (fun x y => x = c /\ y / 8 = p /\ Z.testbit v (y mod 8) = true).
Proof. intros Hp Hc. apply inks_fb_upd; [done|done|]. intros b i _. by rewrite Z.lor_spec, orb_true_iff. Qed.

Lemma testbit_bit a i : 0 <= a < 8 -> 0 <= i < 8 -> Z.testbit (u8 (Z.shiftl 1 a)) i = true <-> i = a.
Proof.
  intros Ha Hi. unfold u8. rewrite Z.mod_pow2_bits_low, Z.shiftl_1_l, Z.pow2_bits_eqb by lia. rewrite Z.eqb_eq. lia.
Qed.

Lemma row_bits y : Z.shiftr y 3 = y / 8 /\ Z.land y 7 = y mod 8.
Proof. split; [by rewrite Z.shiftr_div_pow2|]. change 7 with (Z.ones 3). by rewrite Z.land_ones. Qed.

(** One pixel of a row. *)
Lemma inks_bit x0 y0 : on x0 y0 ->
  inks Light (fb_upd (Z.shiftr y0 3 * OLEDFB_W + x0) (fun b => Z.lor b (u8 (Z.shiftl 1 (Z.land y0 7))))) (fun x y => x = x0 /\ y = y0).
Proof.
  intros Hon. destruct (row_bits y0) as [-> ->]. unfold on, OLEDFB_H in Hon. eapply inks_equiv; [apply inks_lor; [dlia|lia]|].
  intros x y Hxy. unfold on, OLEDFB_H in Hxy. cbn beta. rewrite testbit_bit by dlia. dlia.
Qed.

Lemma inks_point X Y : inks Light (OLED_DrawPoint X Y) (fun x y => x = X /\ y = Y).
Proof.
  apply inks_mapped. intros l. cbn [no_fb]. replace (no_fb (Some l)) with false by done. simpl orb.
  destruct ((X <? 0) || (OLEDFB_W <=? X) || (Y <? 0) || (OLEDFB_H <=? Y)) eqn:E; [|].
  - eapply inks_equiv; [apply inks_ret|]. intros x y Hon. split; [done|]. intros [-> ->].
    unfold on in Hon. rewrite !orb_true_iff, !Z.ltb_lt, !Z.leb_le in E. lia.
  - breflect. apply inks_bit. unfold on. lia.
Qed.

(** ** Images *)

(** Coordinates for which no sum of the code overflows an [int]. *)
Definition coord (v : Z) : Prop := - 2 ^ 28 <= v <= 2 ^ 28.

Lemma s32_coord v : - 2 ^ 30 <= v <= 2 ^ 30 -> s32 v = v.
Proof. intros. apply s32_small. lia. Qed.

(** Pixel [x], [y] of the screen is one that the image at [X], [Y] sets. *)
Definition image_pixel (X Y w h : Z) (Image : list Z) : picture := fun x y =>
  X <= x < X + w /\ Y <= y < Y + h /\
  Z.testbit (Image !!! Z.to_nat ((y - Y) / 8 * w + (x - X))) ((y - Y) mod 8) = true.

(** The rows of the image fit in its bytes. *)
Definition image_ok (w h : Z) (Image : list Z) : Prop := w * ((h + 7) / 8) <= Z.of_nat (length Image).

Lemma image_index w h Image r c : image_ok w h Image -> 0 <= r < h -> 0 <= c < w -> 0 <= r / 8 * w + c < Z.of_nat (length Image).
Proof.
  unfold image_ok. intros Hi Hr Hc. assert (0 <= r / 8) by dlia. assert (r / 8 + 1 <= (h + 7) / 8) by dlia. nia.
Qed.

Section image.
Context (X Y w h : Z) (Image : list Z) (Himg : image_ok w h Image) (HY : 0 <= Y).

(** One byte of the aligned case, [p - Y / 8] pages into the image. *)
Lemma show_page_inks p col0 col1 : Y mod 8 = 0 -> Y / 8 <= p < 8 -> (p - Y / 8) * 8 < h -> h mod 8 = 0 ->
  0 <= col0 -> X <= col0 -> col1 <= OLEDFB_W -> col1 <= X + w ->
  inks Light (for_ 0 (col1 - col0) (fun i =>
      v <- rd Image ((p - Y / 8) * w + (col0 - X) + i) ;; fb_upd (p * OLEDFB_W + col0 + i) (fun b => Z.lor b v)))
    (fun x y => col0 <= x < col1 /\ y / 8 = p /\ image_pixel X Y w h Image x y).
Proof.
  intros Ha Hp Hh Hh8 H0 HX H1 Hw.
  eapply inks_equiv; [apply (inks_for Light (fun i x y => x = col0 + i /\ y / 8 = p /\ Z.testbit (Image !!! Z.to_nat ((p - Y / 8) * w + (col0 - X) + i)) (y mod 8) = true))|].
  - intros i Hi fb q Hs. apply wp_bind. apply rd_wp.
    + pose proof (image_index w h Image ((p - Y / 8) * 8) (col0 - X + i) Himg) as H. rewrite Z.div_mul in H by lia.
      rewrite <- Z.add_assoc. apply H; [|lia]. dlia.
    + rewrite <- Z.add_assoc. apply inks_lor; [dlia|lia|done].
  - intros x y Hon. unfold image_pixel, on, OLEDFB_H in *. split.
    + intros (i & Hi & -> & Hy & Hb). assert (Hq : (y - Y) / 8 = p - Y / 8) by dlia. assert (Hr : (y - Y) mod 8 = y mod 8) by dlia.
      rewrite Hq, Hr. split_and!; try lia; try dlia. rewrite <- Hb. do 3 f_equal. lia.
    + intros (Hx & Hy & _ & Hr & Hb). exists (x - col0). assert (Hq : (y - Y) / 8 = p - Y / 8) by dlia. assert (Hm : (y - Y) mod 8 = y mod 8) by dlia.
      rewrite Hq, Hm in Hb. split_and!; try lia. rewrite <- Hb. do 3 f_equal. lia.
Qed.

Lemma show_row_inks col0 col1 row : Y <= row < Y + h -> row < OLEDFB_H -> 0 <= col0 -> X <= col0 -> col1 <= OLEDFB_W -> col1 <= X + w ->
  inks Light (show_row X Y w col0 col1 Image row) (fun x y => col0 <= x < col1 /\ y = row /\ image_pixel X Y w h Image x y).
Proof.
  intros Hr Hs H0 HX H1 Hw. unfold show_row. cbn zeta.
  eapply inks_equiv; [apply (inks_for Light (fun c x y => (x = c /\ y = row) /\ Z.testbit (Image !!! Z.to_nat ((row - Y) / 8 * w + (c - X))) ((row - Y) mod 8) = true))|].
  - intros c Hc fb q Hq. apply wp_bind. destruct (row_bits (row - Y)) as [-> ->].
    replace ((row - Y) / 8 * w + (col0 - X) + (c - col0)) with ((row - Y) / 8 * w + (c - X)) by lia.
    apply rd_wp; [apply (image_index w h); [done|lia|lia]|].
    set (v := _ !!! _). rewrite Z.shiftl_1_l.
    assert (Hb : negb (Z.land v (2 ^ ((row - Y) mod 8)) =? 0) = Z.testbit v ((row - Y) mod 8)).
    { rewrite Z.land_comm. destruct (Z.testbit v ((row - Y) mod 8)) eqn:E.
      - apply negb_true_iff, Z.eqb_neq. intros Hz. assert (Ht : Z.testbit (Z.land (2 ^ ((row - Y) mod 8)) v) ((row - Y) mod 8) = true).
        { rewrite Z.land_spec, Z.pow2_bits_true, E by dlia. done. } rewrite Hz, Z.testbit_0_l in Ht. done.
      - apply negb_false_iff, Z.eqb_eq. apply Z.bits_inj'. intros n Hn. rewrite Z.land_spec, Z.testbit_0_l, Z.pow2_bits_eqb by dlia.
        destruct (Z.eqb_spec ((row - Y) mod 8) n) as [<-|]; [by rewrite E|done]. }
    rewrite Hb. destruct (Z.testbit v ((row - Y) mod 8)).
    + eapply inks_equiv; [apply inks_bit; unfold on, OLEDFB_W, OLEDFB_H in *; lia| |done]. intuition auto.
    + eapply inks_equiv; [apply inks_ret| |done]. intuition congruence.
  - intros x y Hon. unfold image_pixel. split.
    + intros (c & Hc & (-> & ->) & Hb). split_and!; (lia || done).
    + intros (Hx & -> & _ & _ & Hb). by exists x.
Qed.
End image.

Lemma show_pages_inks X Y w h Image col0 col1 : image_ok w h Image -> 0 <= Y -> Y mod 8 = 0 -> h mod 8 = 0 -> 0 < h ->
  0 <= col0 -> X <= col0 -> col1 <= OLEDFB_W -> col1 <= X + w ->
  inks Light (loop (Z.to_nat (8 - Y / 8) + 1) (show_page w col0 col1 (col0 - X) Image) (Y / 8, h, 0))
    (fun x y => col0 <= x < col1 /\ image_pixel X Y w h Image x y).
Proof.
  intros Hi HY Ha Hh8 Hh H0 HX H1 Hw fb q Hq.
  apply (wp_loop (fun v fb => exists p, v = (p, h - (p - Y / 8) * 8, (p - Y / 8) * w) /\ Y / 8 <= p /\ (p - Y / 8) * 8 <= h /\
      shows fb (mix Light q (fun x y => y / 8 < p /\ col0 <= x < col1 /\ image_pixel X Y w h Image x y)))
    (fun v => Z.to_nat (8 - fst (fst v)))).
  - intros v s (p & -> & Hp & Hle & Hs). unfold show_page. destruct ((p <? 8) && (0 <? h - (p - Y / 8) * 8)) eqn:E.
    + breflect. wp_step. eapply wp_mono; [apply (show_page_inks X Y w h Image Hi HY p col0 col1 Ha ltac:(lia) ltac:(lia) Hh8 H0 HX H1 Hw s _ Hs)|].
      intros [] s' Hs'. wp_step. cbn [fst]. split; [|lia]. exists (p + 1). split_and!; [f_equal; [f_equal|]; lia|lia|dlia|].
      eapply shows_equiv; [exact Hs'|]. intros x y Hon. unfold mix. assert (y / 8 < p + 1 <-> y / 8 < p \/ y / 8 = p) by lia. tauto.
    + wp_step. eapply shows_equiv; [exact Hs|]. intros x y Hon. unfold mix. apply andb_false_iff in E.
      assert (image_pixel X Y w h Image x y -> y / 8 < p). { unfold image_pixel, on, OLEDFB_H in *. intros (_ & Hy & _). destruct E; breflect; dlia. } tauto.
  - exists (Y / 8). split_and!; [f_equal; [f_equal|]; lia|lia|lia|]. eapply shows_equiv; [exact Hq|]. intros x y Hon. unfold mix.
    assert (image_pixel X Y w h Image x y -> ~ y / 8 < Y / 8). { unfold image_pixel. intros (_ & Hy & _). dlia. } tauto.
  - cbn [fst]. lia.
Qed.

(** The clipped columns. *)
Lemma columns X w : coord X -> coord w ->
  left_col X = Z.max X 0 /\ right_col X w = Z.min (X + w) OLEDFB_W.
Proof.
  unfold coord, left_col, right_col, OLEDFB_W. intros HX Hw. rewrite s32_coord by lia. split; case_bool_; lia.
Qed.

Lemma show_image_inks X Y w h Image : coord X -> 0 <= Y <= 2 ^ 28 -> coord w -> coord h -> image_ok w h Image ->
  inks Light (OLED_ShowImage X Y w h (Some Image)) (image_pixel X Y w h Image).
Proof.
  intros HX HY Hw Hh Hi. apply inks_mapped. intros l. replace (no_fb (Some l)) with false by done. simpl orb.
  assert (Hnone : (forall x y, on x y -> ~ image_pixel X Y w h Image x y) -> inks Light (ret tt) (image_pixel X Y w h Image)).
  { intros H. eapply inks_equiv; [apply inks_ret|]. intros x y Hon. specialize (H x y Hon). tauto. }
  destruct ((w <=? 0) || (h <=? 0)) eqn:E; [|breflect].
  { apply Hnone. intros x y _ (H1 & H2 & _). rewrite orb_true_iff, !Z.leb_le in E. lia. }
  destruct (columns X w HX Hw) as [-> ->].
  destruct (off_screen X Y w h) eqn:Eo; unfold off_screen in Eo; rewrite !s32_coord in Eo by (unfold coord in *; lia); [|breflect].
  { apply Hnone. intros x y Hon (H1 & H2 & _). unfold on in Hon. rewrite !orb_true_iff, !Z.leb_le in Eo. lia. }
  cbn zeta. destruct (Z.leb_spec (Z.min (X + w) OLEDFB_W) (Z.max X 0)) as [Hc|Hc].
  { apply Hnone. intros x y Hon (Hx1 & _). unfold on in Hon. lia. }
  assert (Hcols : forall x y, on x y -> (Z.max X 0 <= x < Z.min (X + w) OLEDFB_W /\ image_pixel X Y w h Image x y) <-> image_pixel X Y w h Image x y).
  { intros x y Hon. unfold on in Hon. split; [tauto|]. intros Hx. split; [destruct Hx as (Hx1 & _); lia|done]. }
  destruct ((Z.rem Y 8 =? 0) && (Z.rem h 8 =? 0)) eqn:Ea; cbn zeta.
  - breflect. destruct (row_bits Y) as [-> _]. rewrite Z.rem_mod_nonneg in * by lia.
    eapply inks_equiv; [apply show_pages_inks; try done; lia|exact Hcols].
  - rewrite s32_coord by (unfold coord in *; lia).
    eapply inks_equiv; [apply (inks_for Light (fun row x y => Z.max X 0 <= x < Z.min (X + w) OLEDFB_W /\ y = row /\ image_pixel X Y w h Image x y))|].
    + intros row Hr. apply show_row_inks; (done || lia).
    + intros x y Hon. rewrite <- Hcols by done. unfold on in Hon. split.
      * intros (row & Hr & Hx & -> & Hp). done.
      * intros (Hx & Hp). exists y. split_and!; try done; try lia; destruct Hp as (_ & Hp & _); lia.
Qed.

(** C39: drawing an image sets exactly the pixels of the screen that the image
    covers with a set bit, for every position from row 0 on, clipped at the
    other edges; the byte-wise and the pixel-wise way of drawing agree, and
    no access is outside the framebuffer or the image. *)
Theorem OLED_ShowImage_pixels l X Y w h Image : Z.of_nat (length l) = OLEDFB_FB_SIZE ->
  coord X -> 0 <= Y <= 2 ^ 28 -> coord w -> coord h -> image_ok w h Image ->
  wp (OLED_ShowImage X Y w h (Some Image)) (fun _ fb' => exists l', fb' = Some l' /\ Z.of_nat (length l') = OLEDFB_FB_SIZE /\
    forall x y, on x y -> pixel l' x y = true <-> pixel l x y = true \/ image_pixel X Y w h Image x y) (Some l).
Proof.
  intros Hl HX HY Hw Hh Hi. apply (show_image_inks X Y w h Image HX HY Hw Hh Hi (Some l) (fun x y => pixel l x y = true)). by exists l.
Qed.

(** ** Clearing *)

Lemma clear_mask_bits b0 b1 i : 0 <= b0 -> b1 <= 8 -> 0 <= i < 8 -> Z.testbit (clear_mask b0 b1) i = negb ((b0 <=? i) && (i <? b1)).
Proof.
  intros H0 H1 Hi. unfold clear_mask.
  assert (H : forall n b m, 0 <= b -> Z.testbit (foldl (fun mask bit => Z.land mask (u8 (Z.lnot (Z.shiftl 1 bit)))) m (seqZ b (Z.of_nat n))) i =
    Z.testbit m i && negb ((b <=? i) && (i <? b + Z.of_nat n))).
  { induction n as [|n IH]; intros b m Hb.
    - cbn [seqZ]. destruct (range_spec b (b + Z.of_nat 0) i); [lia|]. simpl. by rewrite andb_true_r.
    - rewrite seqZ_cons by lia. cbn [foldl]. replace (Z.pred (Z.of_nat (S n))) with (Z.of_nat n) by lia. rewrite IH by lia.
      rewrite Z.land_spec. unfold u8. rewrite Z.mod_pow2_bits_low, Z.lnot_spec, Z.shiftl_1_l, Z.pow2_bits_eqb by lia.
      destruct (range_spec (Z.succ b) (Z.succ b + Z.of_nat n) i), (range_spec b (b + Z.of_nat (S n)) i), (Z.eqb_spec b i); try lia; by destruct (Z.testbit m i). }
  destruct (Z.le_gt_cases b0 b1).
  - replace (b1 - b0) with (Z.of_nat (Z.to_nat (b1 - b0))) by lia. rewrite H by lia. change 0xff with (Z.ones 8). rewrite Z.ones_spec_low by lia.
    simpl. do 2 f_equal. f_equal. lia.
  - replace (b1 - b0) with (Z.of_nat 0 + (b1 - b0)) by lia. unfold seqZ. replace (Z.to_nat (Z.of_nat 0 + (b1 - b0))) with 0%nat by lia. simpl.
    change 255 with (Z.ones 8). rewrite Z.ones_spec_low by lia. destruct (range_spec b0 b1 i); [lia|done].
Qed.

(** Clearing an area from row 0 on clears exactly its pixels. *)
Theorem OLED_ClearArea_pixels X Y W H : coord X -> 0 <= Y <= 2 ^ 28 -> coord W -> coord H ->
  inks Dark (OLED_ClearArea X Y W H) (fun x y => X <= x < X + W /\ Y <= y < Y + H).
Proof.
  intros HX HY HW HH. apply inks_mapped. intros l. replace (no_fb (Some l)) with false by done. simpl orb.
  assert (Hnone : (forall x y, on x y -> ~ (X <= x < X + W /\ Y <= y < Y + H)) -> inks Dark (ret tt) (fun x y => X <= x < X + W /\ Y <= y < Y + H)).
  { intros Hn. eapply inks_equiv; [apply inks_ret|]. intros x y Hon. specialize (Hn x y Hon). tauto. }
  destruct ((W <=? 0) || (H <=? 0)) eqn:E; [|breflect].
  { apply Hnone. intros x y _. rewrite orb_true_iff, !Z.leb_le in E. lia. }
  destruct (columns X W HX HW) as [-> ->].
  destruct (off_screen X Y W H) eqn:Eo; unfold off_screen in Eo; rewrite !s32_coord in Eo by (unfold coord in *; lia); [|breflect].
  { apply Hnone. intros x y Hon. unfold on in Hon. rewrite !orb_true_iff, !Z.leb_le in Eo. lia. }
  cbn zeta. rewrite s32_coord by (unfold coord in *; lia). destruct (row_bits Y) as [-> _]. destruct (row_bits (Y + H - 1)) as [-> _].
  set (p1 := if _ <? _ then _ else _). assert (Hp1 : p1 = Z.min ((Y + H - 1) / 8) 7) by (unfold p1, OLEDFB_H; case_bool_; dlia). clearbody p1.
  eapply inks_equiv; [apply (inks_for Dark (fun page x y => exists c, Z.max X 0 <= c < Z.min (X + W) OLEDFB_W /\ (x = c /\ y / 8 = page /\ Y <= y < Y + H)))|].
  - intros page Hp. apply inks_for. intros c Hc.
    set (b0 := if _ <? _ then _ else _). set (b1 := if _ <? _ then _ else _).
    assert (Hb0 : b0 = Z.max 0 (Y - page * 8)) by (unfold b0; case_bool_; lia). assert (Hb1 : b1 = Z.min 8 (Y + H - page * 8)) by (unfold b1; case_bool_; lia). clearbody b0 b1.
    assert (0 <= page < 8) by dlia.
    eapply inks_equiv; [apply (inks_fb_upd Dark page c (Z.lnot (clear_mask b0 b1))); [lia|lia|]|].
    + intros b i Hi. rewrite Z.land_spec, andb_true_iff, Z.lnot_spec by lia. destruct (Z.testbit (clear_mask b0 b1) i); naive_solver.
    + intros x y Hon. cbn beta. unfold on, OLEDFB_H in Hon. rewrite Z.lnot_spec, clear_mask_bits by dlia. rewrite negb_involutive.
      destruct (range_spec b0 b1 (y mod 8)); split; intros (-> & <- & Hy); try done; split_and!; try done; dlia.
  - intros x y Hon. unfold on, OLEDFB_H in Hon. split.
    + intros (page & Hp & c & Hc & -> & <- & Hy). lia.
    + intros (Hx & Hy). exists (y / 8). split; [dlia|]. exists x. split_and!; try done; lia.
Qed.

(** ** Lines *)

(** The integer nearest to [num / den], halves upwards. *)
Definition nearest (num den : Z) : Z := (2 * num + den) / (2 * den).

Lemma nearest_unique num den j : 0 < den -> 2 * den * j <= 2 * num + den < 2 * den * (j + 1) -> nearest num den = j.
Proof. intros Hd Hj. unfold nearest. symmetry. apply Z.div_unique with (2 * num + den - 2 * den * j); lia. Qed.

Lemma nearest_bounds num den : 0 < den -> 2 * den * nearest num den <= 2 * num + den < 2 * den * (nearest num den + 1).
Proof. intros Hd. unfold nearest. pose proof (Z.div_mod (2 * num + den) (2 * den)). pose proof (Z.mod_pos_bound (2 * num + den) (2 * den)). lia. Qed.

Lemma nearest_range num den a : 0 < den -> 0 <= num <= a * den -> 0 <= nearest num den <= a.
Proof. intros Hd Hn. pose proof (nearest_bounds num den Hd). nia. Qed.

(** Where the flags put a point of the first octant. *)
Definition placed (yflag xyflag : bool) (x y : Z) : picture := fun a b =>
  if xyflag then x = (if yflag then - b else b) /\ y = a else x = a /\ y = (if yflag then - b else b).

Lemma inks_plot yflag xyflag x y : - 2 ^ 30 <= x <= 2 ^ 30 -> - 2 ^ 30 <= y <= 2 ^ 30 ->
  inks Light (plot yflag xyflag x y) (placed yflag xyflag x y).
Proof.
  intros Hx Hy. unfold plot, placed. destruct yflag, xyflag; simpl andb; cbv iota;
    (eapply inks_equiv; [apply inks_point|]); intros a b Hon; cbn beta; rewrite ?s32_coord by lia; lia.
Qed.

Lemma bresenham_inks yflag xyflag x0 y0 x1 y1 :
  coord x0 -> coord y0 -> coord x1 -> coord y1 -> 0 < x1 - x0 -> 0 <= y1 - y0 <= x1 - x0 ->
  inks Light (bresenham yflag xyflag x0 y0 x1 y1)
    (fun a b => exists k, 0 <= k <= x1 - x0 /\ placed yflag xyflag (x0 + k) (y0 + nearest ((y1 - y0) * k) (x1 - x0)) a b).
Proof.
  intros H1 H2 H3 H4 Hdx Hdy fb p Hp. unfold coord in *. unfold bresenham. cbn zeta.
  rewrite (s32_coord (x1 - x0)), (s32_coord (y1 - y0)) by lia. rewrite (s32_coord (y1 - y0 - (x1 - x0))), (s32_coord (2 * (y1 - y0))) by lia. rewrite !s32_coord by lia.
  set (dx := x1 - x0) in *. set (dy := y1 - y0) in *. wp_step. eapply wp_mono; [apply inks_plot; [lia|lia|exact Hp]|]. intros [] fb1 Hp1.
  apply (wp_loop (fun v fb => exists k, v = (x0 + k, y0 + nearest (dy * k) dx, 2 * dy * (k + 1) - 2 * dx * nearest (dy * k) dx - dx) /\ 0 <= k <= dx /\
      shows fb (mix Light p (fun a b => exists i, 0 <= i <= k /\ placed yflag xyflag (x0 + i) (y0 + nearest (dy * i) dx) a b)))
    (fun v => Z.to_nat (x1 - fst (fst v)))).
  - intros v s (k & -> & Hk & Hs). unfold line_body. pose proof (nearest_bounds (dy * k) dx Hdx) as Hn.
    pose proof (nearest_range (dy * k) dx dy Hdx ltac:(nia)) as Hr.
    destruct (Z.ltb_spec (x0 + k) x1) as [Hlt|Hge].
    + set (d := 2 * dy * (k + 1) - _ - _) in *.
      assert (Hnext : (if d <? 0 then (y0 + nearest (dy * k) dx, s32 (d + 2 * dy)) else (s32 (y0 + nearest (dy * k) dx + 1), s32 (d + 2 * (dy - dx)))) =
        (y0 + nearest (dy * (k + 1)) dx, 2 * dy * (k + 1 + 1) - 2 * dx * nearest (dy * (k + 1)) dx - dx)).
      { destruct (Z.ltb_spec d 0).
        - rewrite (nearest_unique (dy * (k + 1)) dx (nearest (dy * k) dx)) by (unfold d in *; nia). rewrite s32_coord by (unfold d; nia). f_equal. unfold d. lia.
        - rewrite (nearest_unique (dy * (k + 1)) dx (nearest (dy * k) dx + 1)) by (unfold d in *; nia). rewrite !s32_coord by (unfold d in *; nia). f_equal; unfold d; lia. }
      rewrite Hnext. pose proof (nearest_range (dy * (k + 1)) dx dy Hdx ltac:(nia)) as Hr'.
      wp_step. eapply wp_mono; [apply inks_plot; [lia|lia|exact Hs]|]. intros [] s' Hs'. wp_step. cbn [fst]. split; [|lia].
      exists (k + 1). split_and!; [by rewrite Z.add_assoc|lia|lia|]. eapply shows_equiv; [exact Hs'|]. intros a b _. unfold mix.
      rewrite <- Z.add_assoc. split.
      * intros [[?|(i & Hi & Hpl)]|Hpl]; [by left|right; exists i; split; [lia|done]|right; exists (k + 1); split; [lia|done]].
      * intros [?|(i & Hi & Hpl)]; [by left; left|]. destruct (decide (i = k + 1)) as [->|]; [by right|]. left; right. exists i. split; [lia|done].
    + wp_step. assert (k = dx) as -> by (unfold dx in *; lia). done.
  - exists 0. rewrite (nearest_unique (dy * 0) dx 0) by lia. split_and!; [f_equal; [f_equal|]; lia|lia|lia|].
    eapply shows_equiv; [exact Hp1|]. intros a b _. unfold mix. split.
    + intros [?|Hpl]; [by left|]. right. exists 0. split; [lia|]. by rewrite (nearest_unique (dy * 0) dx 0), !Z.add_0_r by lia.
    + intros [?|(i & Hi & Hpl)]; [by left|]. right. assert (i = 0) as -> by lia. by rewrite (nearest_unique (dy * 0) dx 0), !Z.add_0_r in Hpl by lia.
  - cbn [fst]. lia.
Qed.

(** The pixels of a line: along the longer axis one for every step, at the
    integer nearest to the line. *)
Definition line_pixel (X0 Y0 X1 Y1 : Z) : picture := fun x y =>
  let '(x0, y0, x1, y1) := if X1 <? X0 then (X1, Y1, X0, Y0) else (X0, Y0, X1, Y1) in
  let s := if y1 <? y0 then -1 else 1 in
  let dx := x1 - x0 in
  let dy := s * (y1 - y0) in
  if dy <=? dx then x0 <= x <= x1 /\ y = y0 + s * nearest (dy * (x - x0)) dx
  else 0 <= s * (y - y0) <= dy /\ x = x0 + nearest (dx * (s * (y - y0))) dy.

Lemma nearest_0 den : nearest 0 den = 0.
Proof. unfold nearest. destruct (Z.lt_trichotomy den 0) as [H|[->|H]]; [|done|]; [|apply Z.div_small; lia].
  replace (2 * 0 + den) with den by lia. replace (2 * den) with (den * 2) by lia. rewrite <- Z.div_div, Z.div_same by lia. done.
Qed.

(** The general case, from left to right. *)
Lemma diagonal_inks x0 y0 x1 y1 : coord x0 -> coord y0 -> coord x1 -> coord y1 -> x0 < x1 -> y0 <> y1 ->
  inks Light (let yflag := y1 <? y0 in
    let '(y0, y1) := if yflag then (s32 (- y0), s32 (- y1)) else (y0, y1) in
    let xyflag := s32 (x1 - x0) <? s32 (y1 - y0) in
    if xyflag then bresenham yflag xyflag y0 x0 y1 x1 else bresenham yflag xyflag x0 y0 x1 y1)
  (line_pixel x0 y0 x1 y1).
Proof.
  unfold coord. intros H1 H2 H3 H4 Hx Hy. unfold line_pixel. replace (x1 <? x0) with false by (symmetry; apply Z.ltb_ge; lia). cbn zeta.
  set (s := if y1 <? y0 then -1 else 1). rewrite !s32_coord by lia.
  assert (Hs : (if y1 <? y0 then (- y0, - y1) else (y0, y1)) = (s * y0, s * y1) /\ (s = 1 \/ s = -1) /\ 0 < s * (y1 - y0) /\ (y1 <? y0) = (s =? -1)).
  { unfold s. destruct (Z.ltb_spec y1 y0); split_and!; try done; try lia; f_equal; lia. }
  destruct Hs as (-> & Hs & Hpos & Hf). rewrite Hf. clearbody s. rewrite !s32_coord by (destruct Hs as [->| ->]; lia).
  assert (He : s * y1 - s * y0 = s * (y1 - y0)) by lia. rewrite He.
  destruct (Z.ltb_spec (x1 - x0) (s * (y1 - y0))) as [Hlt|Hge].
  - replace (s * (y1 - y0) <=? x1 - x0) with false by (symmetry; apply Z.leb_gt; lia).
    eapply inks_equiv; [apply bresenham_inks; unfold coord; destruct Hs as [->| ->]; lia|].
    intros a b _. unfold placed. rewrite He. split.
    + intros (k & Hk & Hb & <-). assert (s * (b - y0) = k) as -> by (destruct Hs as [->| ->]; simpl in Hb; lia). done.
    + intros [Hk ->]. exists (s * (b - y0)). split_and!; [lia|lia| |done]. destruct Hs as [->| ->]; cbn [Z.eqb Pos.eqb]; lia.
  - replace (s * (y1 - y0) <=? x1 - x0) with true by (symmetry; apply Z.leb_le; lia).
    eapply inks_equiv; [apply bresenham_inks; unfold coord; destruct Hs as [->| ->]; lia|].
    intros a b _. unfold placed. rewrite He. split.
    + intros (k & Hk & <- & Hb). replace (x0 + k - x0) with k by lia. split; [lia|]. destruct Hs as [->| ->]; cbn [Z.eqb Pos.eqb] in Hb; lia.
    + intros [Hk ->]. exists (a - x0). split_and!; [lia|lia|lia|]. destruct Hs as [->| ->]; cbn [Z.eqb Pos.eqb]; lia.
Qed.

Lemma draw_line_inks X0 Y0 X1 Y1 : coord X0 -> coord Y0 -> coord X1 -> coord Y1 ->
  inks Light (OLED_DrawLine X0 Y0 X1 Y1) (line_pixel X0 Y0 X1 Y1).
Proof.
  intros H1 H2 H3 H4. unfold OLED_DrawLine. destruct (Z.eqb_spec Y0 Y1) as [<-|Hy]; [|destruct (Z.eqb_spec X0 X1) as [<-|Hx]].
  - unfold line_pixel. destruct (Z.ltb_spec X1 X0); (eapply inks_equiv; [apply inks_for_to; [unfold coord in *; lia|intros; apply inks_point]|]); intros x y _;
      rewrite Z.ltb_irrefl; cbn zeta; rewrite Z.sub_diag, Z.mul_0_r, Z.mul_0_l, nearest_0, Z.mul_0_r, Z.add_0_r;
      (match goal with |- context [0 <=? ?d] => replace (0 <=? d) with true by (symmetry; apply Z.leb_le; lia) end);
      (split; [intros (i & Hi & -> & ->); split; [lia|done]|intros [Hi ->]; exists x; split_and!; (lia || done)]).
  - unfold line_pixel. rewrite Z.ltb_irrefl. cbn zeta. rewrite Z.sub_diag.
    destruct (Z.ltb_spec Y1 Y0); (eapply inks_equiv; [apply inks_for_to; [unfold coord in *; lia|intros; apply inks_point]|]); intros x y _; rewrite Z.mul_0_l, nearest_0, Z.add_0_r;
      (match goal with |- context [?d <=? 0] => replace (d <=? 0) with false by (symmetry; apply Z.leb_gt; lia) end);
      (split; [intros (i & Hi & -> & ->); split; [lia|done]|intros [Hi ->]; exists y; split_and!; (lia || done)]).
  - destruct (Z.ltb_spec X1 X0).
    + pose proof (diagonal_inks X1 Y1 X0 Y0 H3 H4 H1 H2 ltac:(lia) ltac:(congruence)) as Hd.
      eapply inks_equiv; [exact Hd|]. intros x y _. unfold line_pixel. replace (X0 <? X1) with false by (symmetry; apply Z.ltb_ge; lia).
      by replace (X1 <? X0) with true by (symmetry; apply Z.ltb_lt; lia).
    + apply diagonal_inks; (done || lia).
Qed.

(** A pixel of the line is at most half a pixel away from it, measured along
    the shorter axis. *)
Lemma line_pixel_near X0 Y0 X1 Y1 x y : line_pixel X0 Y0 X1 Y1 x y ->
  2 * Z.abs ((Y1 - Y0) * (x - X0) - (X1 - X0) * (y - Y0)) <= Z.max (Z.abs (X1 - X0)) (Z.abs (Y1 - Y0)).
Proof.
  assert (Hgen : forall x0 y0 x1 y1, x0 <= x1 -> line_pixel x0 y0 x1 y1 x y ->
    2 * Z.abs ((y1 - y0) * (x - x0) - (x1 - x0) * (y - y0)) <= Z.max (Z.abs (x1 - x0)) (Z.abs (y1 - y0))).
  { intros x0 y0 x1 y1 Hx. unfold line_pixel. replace (x1 <? x0) with false by (symmetry; apply Z.ltb_ge; lia). cbn zeta.
    set (s := if y1 <? y0 then -1 else 1).
    assert (Hs : (s = 1 \/ s = -1) /\ 0 <= s * (y1 - y0)) by (unfold s; destruct (Z.ltb_spec y1 y0); lia). destruct Hs as [Hs Hdy]. clearbody s.
    destruct (Z.leb_spec (s * (y1 - y0)) (x1 - x0)) as [Hle|Hgt].
    - intros [Hr ->]. destruct (decide (x1 = x0)) as [Hxx|]; [assert (y1 = y0) by (destruct Hs as [->| ->]; lia); subst; nia|].
      pose proof (nearest_bounds (s * (y1 - y0) * (x - x0)) (x1 - x0) ltac:(lia)) as Hn. set (j := nearest _ _) in *. clearbody j.
      destruct Hs as [->| ->]; nia.
    - intros [Hr ->]. pose proof (nearest_bounds ((x1 - x0) * (s * (y - y0))) (s * (y1 - y0)) ltac:(lia)) as Hn. set (j := nearest _ _) in *. clearbody j.
      destruct Hs as [->| ->]; nia. }
  intros Hp. destruct (Z.le_gt_cases X0 X1) as [Hx|Hx]; [by apply Hgen|].
  specialize (Hgen X1 Y1 X0 Y0 ltac:(lia)). assert (Hp' : line_pixel X1 Y1 X0 Y0 x y).
  { revert Hp. unfold line_pixel. replace (X1 <? X0) with true by (symmetry; apply Z.ltb_lt; lia). by replace (X0 <? X1) with false by (symmetry; apply Z.ltb_ge; lia). }
  specialize (Hgen Hp'). lia.
Qed.

(** C40: drawing a line sets exactly the visible pixels of the ideal line: one
    for every step along its longer axis, none of them more than half a pixel
    away from it, in every direction and for end points off the screen too;
    nothing is accessed outside the framebuffer. *)
Theorem OLED_DrawLine_pixels l X0 Y0 X1 Y1 : Z.of_nat (length l) = OLEDFB_FB_SIZE -> coord X0 -> coord Y0 -> coord X1 -> coord Y1 ->
  wp (OLED_DrawLine X0 Y0 X1 Y1) (fun _ fb' => exists l', fb' = Some l' /\ Z.of_nat (length l') = OLEDFB_FB_SIZE /\
    (forall x y, on x y -> pixel l' x y = true <-> pixel l x y = true \/ line_pixel X0 Y0 X1 Y1 x y) /\
    forall x y, on x y -> pixel l' x y = true -> pixel l x y = false ->
      2 * Z.abs ((Y1 - Y0) * (x - X0) - (X1 - X0) * (y - Y0)) <= Z.max (Z.abs (X1 - X0)) (Z.abs (Y1 - Y0))) (Some l).
Proof.
  intros Hl H1 H2 H3 H4. eapply wp_mono; [apply (draw_line_inks X0 Y0 X1 Y1 H1 H2 H3 H4 (Some l) (fun x y => pixel l x y = true)); by exists l|].
  intros [] fb' (l' & -> & Hl' & Hp). exists l'. split_and!; [done|done|exact Hp|].
  intros x y Hon Hy Hn. apply Hp in Hy; [|done]. destruct Hy as [Hy|Hy]; [congruence|]. by apply line_pixel_near.
Qed.

(** ** Rectangles and circles *)

(** A filled rectangle sets its pixels, an unfilled one its border. *)
Theorem OLED_DrawRectangle_pixels X Y w h IsFilled : coord X -> coord Y -> coord w -> coord h ->
  inks Light (OLED_DrawRectangle X Y w h IsFilled) (fun x y => X <= x < X + w /\ Y <= y < Y + h /\
    (IsFilled = true \/ x = X \/ x = X + w - 1 \/ y = Y \/ y = Y + h - 1)).
Proof.
  unfold coord. intros HX HY Hw Hh. unfold OLED_DrawRectangle. rewrite !s32_coord by lia. destruct ((w <=? 0) || (h <=? 0)) eqn:E; [|breflect; destruct IsFilled; simpl negb; cbv iota].
  - eapply inks_equiv; [apply inks_ret|]. intros x y _. rewrite orb_true_iff, !Z.leb_le in E. lia.
  - eapply inks_equiv; [apply inks_for; intros; apply inks_for; intros; apply inks_point|]. intros x y _. cbn beta. split.
    + intros (i & Hi & j & Hj & -> & ->). split_and!; (lia || by left).
    + intros (Hx & Hy & _). exists x. split; [lia|]. exists y. split; [lia|done].
  - eapply inks_equiv; [apply inks_seq; (apply inks_for; intros; apply inks_seq; apply inks_point)|]. intros x y _. cbn beta. split.
    + intros [(i & Hi & Hp)|(i & Hi & Hp)]; lia.
    + intros (Hx & Hy & [?|Hb]); [done|]. destruct (decide (y = Y \/ y = Y + h - 1)); [left; exists x; lia|right; exists y; lia].
Qed.

(** [m] sets only pixels of [r]. *)
Definition stays (m : G unit) (r : picture) : Prop :=
  forall fb p, shows fb p -> wp m (fun _ fb' => exists q : picture, shows fb' (mix Light p q) /\ forall x y, q x y -> r x y) fb.

Lemma stays_inks m (q r : picture) : inks Light m q -> (forall x y, q x y -> r x y) -> stays m r.
Proof. intros H Hr fb p Hs. eapply wp_mono; [by apply H|]. intros [] fb' Hs'. by exists q. Qed.
Lemma stays_seq m m' r : stays m r -> stays m' r -> stays (m ;; m') r.
Proof.
  intros H H' fb p Hs. wp_step. eapply wp_mono; [by apply H|]. intros [] fb' (q & Hq & Hr). eapply wp_mono; [by apply H'|].
  intros [] fb2 (q' & Hq' & Hr'). exists (fun x y => q x y \/ q' x y). split; [|intros x y [?|?]; auto].
  eapply shows_equiv; [exact Hq'|]. intros. unfold mix. tauto.
Qed.
Lemma stays_for a b body r : (forall i, a <= i < b -> stays (body i) r) -> stays (for_ a b body) r.
Proof.
  unfold for_. intros H.
  assert (Hn : forall i, a <= i < a + Z.of_nat (Z.to_nat (b - a)) -> stays (body i) r) by (intros; apply H; lia). clear H.
  revert Hn. generalize (Z.to_nat (b - a)) as n. intros n. revert a. induction n as [|n IH]; intros a Hn; cbn [for_n].
  - eapply stays_inks; [apply inks_ret|done].
  - apply stays_seq; [apply Hn; lia|apply IH; intros; apply Hn; lia].
Qed.
Lemma stays_point X Y (r : picture) : r X Y -> stays (OLED_DrawPoint X Y) r.
Proof. intros H. eapply stays_inks; [apply inks_point|]. by intros x y [-> ->]. Qed.

(** The disc, or the ring of its border. *)
Definition round (X Y R : Z) (IsFilled : bool) : picture := fun x y =>
  let e := (x - X) * (x - X) + (y - Y) * (y - Y) - R * R in e <= R /\ (IsFilled = true \/ - R <= e).

Section circle.
Context (X Y R : Z) (IsFilled : bool) (HX : coord X) (HY : coord Y) (HR : 0 < R <= 2 ^ 28).
Notation disc := (round X Y R IsFilled).

Lemma circle_point a b : - R <= a <= R -> - R <= b <= R -> a * a + b * b - R * R <= R -> IsFilled = true \/ - R <= a * a + b * b - R * R ->
  stays (OLED_DrawPoint (s32 (X + a)) (s32 (Y + b))) disc.
Proof. unfold coord in *. intros Ha Hb He Hf. apply stays_point. rewrite !s32_coord by lia. unfold round. replace (X + a - X) with a by lia. by replace (Y + b - Y) with b by lia. Qed.

Lemma circle_points_in x y : 0 <= x <= R -> 0 <= y <= R -> - R <= x * x + y * y - R * R <= R -> stays (circle_points X Y x y) disc.
Proof.
  intros Hx Hy He. unfold circle_points. repeat apply stays_seq; rewrite <- ?Z.add_opp_r; apply circle_point; try lia; right; lia.
Qed.

Lemma circle_fill_in x y : IsFilled = true -> 0 <= x <= R -> 0 <= y <= R -> x * x + y * y - R * R <= R -> stays (circle_fill X Y x y) disc.
Proof.
  intros Hf Hx Hy He. unfold circle_fill. apply stays_seq; apply stays_for; intros j Hj; apply stays_seq; rewrite <- ?Z.add_opp_r;
    (apply circle_point; [lia|lia|nia|by left]).
Qed.

Lemma circle_loop_in : stays (loop (Z.to_nat R + 1) (circle_body X Y IsFilled) (0, R, 1 - R)) disc.
Proof.
  intros fb p Hp.
  apply (wp_loop (fun v fb => exists x y, v = (x, y, (x + 1) * (x + 1) + y * y - y - R * R) /\ 0 <= x <= y + 1 /\ 0 <= y <= R /\
      (x < y -> - y <= x * x + y * y - R * R <= y) /\ exists q : picture, shows fb (mix Light p q) /\ forall a b, q a b -> disc a b)
    (fun v => Z.to_nat (snd (fst v) - fst (fst v)))).
  - intros v s (x & y & -> & Hx & Hy & He & q & Hq & Hd). unfold circle_body. destruct (Z.ltb_spec x y) as [Hlt|]; [|wp_step; by exists q].
    specialize (He Hlt). set (d := (x + 1) * (x + 1) + y * y - y - R * R) in *.
    assert (Hn : exists y', (if d <? 0 then (y, s32 (d + (2 * (x + 1) + 1))) else (y - 1, s32 (d + (2 * (x + 1 - (y - 1)) + 1)))) =
        (y', (x + 1 + 1) * (x + 1 + 1) + y' * y' - y' - R * R) /\ x + 1 <= y' + 1 /\ y - 1 <= y' <= y /\
        - R <= (x + 1) * (x + 1) + y' * y' - R * R <= R /\ (x + 1 < y' -> - y' <= (x + 1) * (x + 1) + y' * y' - R * R <= y')).
    { destruct (Z.ltb_spec d 0); [exists y|exists (y - 1)]; (split_and!; [f_equal; rewrite s32_coord by (unfold d in *; nia); unfold d; lia|lia|lia|lia|unfold d in *; nia|unfold d in *; nia|unfold d in *; nia]). }
    destruct Hn as (y' & -> & Hx' & Hy' & Hr & He'). cbn iota beta.
    assert (Hst : stays (circle_points X Y (x + 1) y' ;; when IsFilled (circle_fill X Y (x + 1) y')) disc).
    { apply stays_seq; [apply circle_points_in; lia|]. destruct IsFilled eqn:Ef; simpl when.
      - rewrite <- Ef. apply circle_fill_in; [done|lia|lia|lia].
      - eapply stays_inks; [apply inks_ret|done]. }
    specialize (Hst s _ Hq). apply wp_bind_inv in Hst. wp_step. eapply wp_mono; [exact Hst|]. intros [] s1 Hs1. wp_step. eapply wp_mono; [exact Hs1|].
    intros [] s2 (q' & Hq' & Hd'). wp_step. cbn [fst snd]. split; [|lia]. exists (x + 1), y'. split_and!; [done|lia|lia|lia|lia|lia|].
    exists (fun a b => q a b \/ q' a b). split; [|intros a b [?|?]; auto]. eapply shows_equiv; [exact Hq'|]. intros. unfold mix. tauto.
  - exists 0, R. split_and!; [f_equal; lia|lia|lia|lia|lia|lia|]. exists (fun _ _ => False). split; [|done].
    eapply shows_equiv; [exact Hp|]. intros. unfold mix. tauto.
  - cbn [fst snd]. lia.
Qed.

(** A circle ends, and what it sets is within half a pixel of the circle, or
    within the disc when it is filled: the squared distance of a pixel from
    the centre differs from that of the circle by at most the radius. *)
Theorem OLED_DrawCircle_round : stays (OLED_DrawCircle X Y R IsFilled) disc.
Proof.
  unfold OLED_DrawCircle. replace (R <=? 0) with false by (symmetry; apply Z.leb_gt; lia). cbn zeta.
  assert (HX' : s32 (X + 0) = X) by (rewrite s32_coord; unfold coord in *; lia). assert (HY' : s32 (Y + 0) = Y) by (rewrite s32_coord; unfold coord in *; lia).
  repeat apply stays_seq; rewrite <- ?Z.add_opp_r.
  - rewrite <- HX' at 1. apply circle_point; try lia.
  - rewrite <- HX' at 1. apply circle_point; try lia.
  - rewrite <- HY' at 1. apply circle_point; try lia.
  - rewrite <- HY' at 1. apply circle_point; try lia.
  - destruct IsFilled eqn:Ef; simpl when; [|eapply stays_inks; [apply inks_ret|done]]. rewrite <- Ef.
    apply stays_for. intros j Hj. rewrite <- HX' at 1. apply circle_point; [lia|lia|nia|by left].
  - apply circle_loop_in.
Qed.
End circle.

(** ** Text *)

Definition printable (c : Z) : Prop := 32 <= c <= 126.
(** Width, height and glyphs of the two fonts. *)
Definition font_of (FontSize : Z) : option (Z * Z * list (list Z)) :=
  if FontSize =? OLED_8X16 then Some (8, 16, OLED_F8x16) else if FontSize =? OLED_6X8 then Some (6, 8, OLED_F6x8) else None.
Definition char_pixel (X Y Char FontSize : Z) : picture := fun x y =>
  exists w h font g, font_of FontSize = Some (w, h, font) /\ font !! Z.to_nat (Char - 32) = Some g /\ image_pixel X Y w h g x y.

Lemma font_sizes FontSize w h font c : font_of FontSize = Some (w, h, font) -> printable c ->
  0 < w <= 8 /\ 0 < h <= 16 /\ exists g, font !! Z.to_nat (c - 32) = Some g /\ image_ok w h g.
Proof.
  intros Hf Hc. assert (Hall : Forall (fun g => image_ok w h g) font /\ length font = 95%nat /\ 0 < w <= 8 /\ 0 < h <= 16).
  { unfold font_of in Hf. destruct (FontSize =? OLED_8X16); [|destruct (FontSize =? OLED_6X8); [|done]]; injection Hf as <- <- <-;
      (split; [|split; [reflexivity|lia]]); unfold image_ok; cbv [OLED_F8x16 OLED_F6x8]; repeat (constructor; [by vm_compute|]); constructor. }
  destruct Hall as (Hall & Hlen & Hw & Hh). split_and!; try lia. destruct (lookup_lt_is_Some_2 font (Z.to_nat (c - 32))) as [g Hg]; [unfold printable in Hc; lia|].
  exists g. split; [done|]. by apply (Forall_lookup_1 _ _ _ _ Hall Hg).
Qed.

Lemma show_char_inks X Y c FontSize : coord X -> 0 <= Y <= 2 ^ 28 -> printable c ->
  inks Light (OLED_ShowChar X Y c FontSize) (char_pixel X Y c FontSize).
Proof.
  intros HX HY Hc. unfold OLED_ShowChar, char_pixel. rewrite u8_small by (unfold printable in Hc; lia).
  assert (Hfont : forall w h font, font_of FontSize = Some (w, h, font) ->
    inks Light (g <- glyph font (c - 32) ;; OLED_ShowImage X Y w h (Some g)) (char_pixel X Y c FontSize)).
  { intros w h font Hf. destruct (font_sizes _ _ _ _ c Hf Hc) as (Hw & Hh & g & Hg & Hi). intros fb p Hs. unfold glyph. rewrite Hg. wp_step. wp_step.
    eapply inks_equiv; [apply (show_image_inks X Y w h g); unfold coord in *; (done || lia)| |done].
    intros x y _. unfold char_pixel. split; [intros H; by exists w, h, font, g|]. intros (w' & h' & font' & g' & Hf' & Hg' & Hp). by simplify_eq. }
  unfold font_of in Hfont. destruct (FontSize =? OLED_8X16) eqn:E8; [by apply Hfont|]. destruct (FontSize =? OLED_6X8) eqn:E6; [by apply Hfont|].
  eapply inks_equiv; [apply inks_ret|]. intros x y _. split; [done|]. intros (w & h & font & g & Hf & _). unfold font_of in Hf. by rewrite E8, E6 in Hf.
Qed.

(** A printable string sets the pixels of its glyphs, side by side. *)
Theorem OLED_ShowString_pixels X Y String FontSize : coord X -> 0 <= Y <= 2 ^ 28 -> Forall printable String ->
  0 <= FontSize < 256 -> X + FontSize * Z.of_nat (length String) <= 2 ^ 28 ->
  inks Light (OLED_ShowString X Y String FontSize)
    (fun x y => exists i c, String !! i = Some c /\ char_pixel (X + Z.of_nat i * FontSize) Y c FontSize x y).
Proof.
  intros HX HY Hs HF Hlen. unfold OLED_ShowString.
  assert (H : forall s k, Forall printable s -> 0 <= k -> X + FontSize * (k + Z.of_nat (length s)) <= 2 ^ 28 ->
    inks Light (show_string X Y FontSize k s) (fun x y => exists i c, s !! i = Some c /\ char_pixel (X + (k + Z.of_nat i) * FontSize) Y c FontSize x y)).
  { induction s as [|c s IH]; intros k Hp Hk Hl; cbn [show_string].
    - eapply inks_equiv; [apply inks_ret|]. intros x y _. split; [done|]. intros (i & c & Hi & _). done.
    - apply Forall_cons in Hp as [Hc Hp]. cbn [length] in Hl.
      eapply inks_equiv; [apply inks_seq; [apply show_char_inks; [unfold coord in *; rewrite s32_coord by nia; nia|done|done]|apply IH; [done|lia|lia]]|].
      intros x y _. cbn beta. rewrite s32_coord by (unfold coord in *; nia). split.
      + intros [Hx|(i & c' & Hi & Hx)]; [exists O, c; split; [done|by rewrite Z.add_0_r]|]. exists (S i), c'. split; [done|].
        replace (k + Z.of_nat (S i)) with (k + 1 + Z.of_nat i) by lia. done.
      + intros ([|i] & c' & Hi & Hx); simpl in Hi; [left; simplify_eq; by rewrite Z.add_0_r in Hx|]. right. exists i, c'. split; [done|].
        by replace (k + 1 + Z.of_nat i) with (k + Z.of_nat (S i)) by lia. }
  eapply inks_equiv; [apply (H String 0); [done|lia|lia]|]. done.
Qed.

(** The decimal digits of [n], padded to [len]. *)
Definition decimal (len n : Z) : list Z := (fun i => n / 10 ^ (len - i - 1) mod 10 + 48) <$> seqZ 0 len.

Lemma OLED_Pow_exact e : 0 <= e <= 9 -> OLED_Pow 10 e = 10 ^ e.
Proof.
  intros He. assert (e = 0 \/ e = 1 \/ e = 2 \/ e = 3 \/ e = 4 \/ e = 5 \/ e = 6 \/ e = 7 \/ e = 8 \/ e = 9) as H by lia.
  repeat destruct H as [H|H]; subst e; by vm_compute.
Qed.

(** Up to ten digits a number is shown as the string of its digits. *)
Theorem OLED_ShowNum_decimal X Y n len FontSize fb : 0 <= n < 2 ^ 32 -> 0 <= len <= 10 ->
  OLED_ShowNum X Y n len FontSize fb = OLED_ShowString X Y (decimal len n) FontSize fb.
Proof.
  intros Hn Hl. unfold OLED_ShowNum, OLED_ShowString, decimal, for_. rewrite Z.sub_0_r.
  assert (H : forall k a fb, 0 <= a -> a + Z.of_nat k = len ->
    for_n k a (fun i => OLED_ShowChar (s32 (X + i * FontSize)) Y (u8 (divu n (OLED_Pow 10 (len - i - 1)) mod 10 + 48)) FontSize) fb =
    show_string X Y FontSize a ((fun i => n / 10 ^ (len - i - 1) mod 10 + 48) <$> seqZ a (Z.of_nat k)) fb).
  { induction k as [|k IH]; intros a fb' Ha He; [done|]. rewrite seqZ_cons by lia. cbn [for_n fmap list_fmap show_string].
    rewrite OLED_Pow_exact by lia. unfold divu. assert (0 < 10 ^ (len - a - 1)) by (apply Z.pow_pos_nonneg; lia).
    replace (10 ^ (len - a - 1) =? 0) with false by (symmetry; apply Z.eqb_neq; lia).
    rewrite u8_small by (pose proof (Z.mod_pos_bound (n / 10 ^ (len - a - 1)) 10); lia).
    unfold mbind_. destruct (OLED_ShowChar _ _ _ _ fb') as [a' s'| |]; [|done|done].
    replace (Z.pred (Z.of_nat (S k))) with (Z.of_nat k) by lia. replace (Z.succ a) with (a + 1) by lia. apply IH; lia. }
  rewrite (H (Z.to_nat len) 0) by lia. by rewrite Z2Nat.id by lia.
Qed.

(** ** Examples *)

Module OledDemo.
Definition blank : list Z := replicate 1024 0.
Definition ends_outside (m : G unit) : bool := match m (Some blank) with Panic _ _ => true | _ => false end.

Lemma OLED_ShowImage_pixels_witness :
  wp (OLED_ShowImage (-3) 61 8 16 (Some (replicate 16 255))) (fun _ fb' => exists l', fb' = Some l' /\ Z.of_nat (length l') = OLEDFB_FB_SIZE /\
    forall x y, on x y -> pixel l' x y = true <-> pixel blank x y = true \/ image_pixel (-3) 61 8 16 (replicate 16 255) x y) (Some blank).
Proof. apply (OLED_ShowImage_pixels blank (-3) 61 8 16 (replicate 16 255)); [reflexivity|unfold coord; lia|lia|unfold coord; lia|unfold coord; lia|by vm_compute]. Defined.

Lemma OLED_DrawLine_pixels_witness :
  wp (OLED_DrawLine 120 70 (-5) 3) (fun _ fb' => exists l', fb' = Some l' /\ Z.of_nat (length l') = OLEDFB_FB_SIZE /\
    (forall x y, on x y -> pixel l' x y = true <-> pixel blank x y = true \/ line_pixel 120 70 (-5) 3 x y) /\
    forall x y, on x y -> pixel l' x y = true -> pixel blank x y = false ->
      2 * Z.abs ((3 - 70) * (x - 120) - (-5 - 120) * (y - 70)) <= Z.max (Z.abs (-5 - 120)) (Z.abs (3 - 70))) (Some blank).
Proof. apply (OLED_DrawLine_pixels blank 120 70 (-5) 3); [reflexivity|unfold coord; lia..]. Defined.

(** Clipping leaves out the upper edge: an image or an area that starts above
    the screen is drawn in front of the framebuffer, in both ways. *)
Example above_the_screen :
  ends_outside (OLED_ShowImage 0 (-8) 8 16 (Some (replicate 16 255))) && ends_outside (OLED_ShowImage 0 (-3) 8 16 (Some (replicate 16 255))) &&
  ends_outside (OLED_ClearArea 0 (-8) 8 16) = true.
Proof. by vm_compute. Qed.

(** 32 bytes without a label fill [buf], and the NUL is stored behind it. *)
Example hexrow_overrun : ends_outside (OLED_ShowHexRow 0 0 [] (replicate 32 0) OLED_6X8) = true.
Proof. by vm_compute. Qed.

(** The font ends with the tilde. *)
Example no_such_glyph : ends_outside (OLED_ShowChar 0 0 127 OLED_8X16) = true.
Proof. by vm_compute. Qed.

(** The eleventh digit of 4000000000 should be 0. *)
Example eleventh_digit : divu 4000000000 (OLED_Pow 10 10) mod 10 = 2.
Proof. by vm_compute. Qed.
End OledDemo.
