(* ===== verification/Virtio.v ===== *)
(** * The virtio disk of the QEMU build (src/kernel/driver/virtio_disk.c)

    The driver and the device share three areas of memory: descriptors, a
    ring of chains for the device to process and a ring of processed chains.
    An address in a descriptor is the object that it points to, [dma].

    A run of driver code from [acquire(&disk.vdisk_lock)], or from the return
    of a [sleep], to the next [sleep] or [release] is one step: the lock is
    held throughout.  [v_procs] says at which [sleep] of [virtio_disk_rw] each
    process is and whether a wakeup has made it runnable.  The device, which
    is not part of the program, is modelled after the virtio specification: it
    takes chains in the order of the ring, processes them in any order, and
    raises an interrupt for each; its steps come between those of the driver.

    [set_x f s] is [s] with [f] applied to field [x]. *)

From stdpp Require Import functions.
From S2P Require Import Prelude Bio.

Definition NUM : Z := 8.
Definition VRING_DESC_F_NEXT : Z := 1.
Definition VRING_DESC_F_WRITE : Z := 2.
Definition VIRTIO_BLK_T_IN : Z := 0.
Definition VIRTIO_BLK_T_OUT : Z := 1.

(** NULL, [&disk.ops[i]], [b->data] and [&disk.info[i].status]. *)
Inductive dma := A_null | A_op (i : Z) | A_data (b : Z) | A_status (i : Z).
Record virtq_desc := Desc { q_addr : dma; q_len : Z; q_flags : Z; q_next : Z }.
Record virtio_blk_req := Req { rq_type : Z; rq_reserved : Z; rq_sector : Z }.
Definition desc0 : virtq_desc := Desc A_null 0 0 0.
Definition req0 : virtio_blk_req := Req 0 0 0.
#[export] Instance desc_inhabited : Inhabited virtq_desc := populate desc0.
#[export] Instance req_inhabited : Inhabited virtio_blk_req := populate req0.

(** The fields of [struct buf] that the driver uses. *)
Record vbuf := Vbuf { vb_blockno : Z; vb_data : list Z; vb_disk : Z }.

(** A process: outside the driver, asleep on [&disk.free[0]], or asleep on its
    buffer, with the arguments of [virtio_disk_rw] and [idx[3]].  [asleep]
    becomes false with a wakeup. *)
Inductive vproc :=
| Outside
| NeedDesc (b : Z) (write asleep : bool)
| NeedDone (b : Z) (write : bool) (i0 i1 i2 : Z) (asleep : bool).

(** The device: how far it has read the ring, the chains it works on, its
    interrupt line and the contents of its sectors. *)
Record vdev := Vdev { vd_seen : Z; vd_work : list Z; vd_irq : bool; vd_disk : Z -> list Z }.

Record vst := Vst {
  v_desc : list virtq_desc;      (** disk.desc *)
  v_avail : list Z;              (** disk.avail->ring *)
  v_avail_idx : Z;               (** disk.avail->idx *)
  v_used : list Z;               (** disk.used->ring[].id *)
  v_used_end : Z;                (** disk.used->idx *)
  v_free : list bool;            (** disk.free *)
  v_used_idx : Z;                (** disk.used_idx *)
  v_owner : list (option Z);     (** disk.info[].b *)
  v_status : list Z;             (** disk.info[].status *)
  v_ops : list virtio_blk_req;   (** disk.ops *)
  v_bufs : Z -> vbuf;
  v_procs : list vproc;
  v_dev : vdev;
}.

Definition set_desc f s := Vst (f (v_desc s)) (v_avail s) (v_avail_idx s) (v_used s) (v_used_end s) (v_free s) (v_used_idx s) (v_owner s) (v_status s) (v_ops s) (v_bufs s) (v_procs s) (v_dev s).
Definition set_avail f s := Vst (v_desc s) (f (v_avail s)) (v_avail_idx s) (v_used s) (v_used_end s) (v_free s) (v_used_idx s) (v_owner s) (v_status s) (v_ops s) (v_bufs s) (v_procs s) (v_dev s).
Definition set_avail_idx f s := Vst (v_desc s) (v_avail s) (f (v_avail_idx s)) (v_used s) (v_used_end s) (v_free s) (v_used_idx s) (v_owner s) (v_status s) (v_ops s) (v_bufs s) (v_procs s) (v_dev s).
Definition set_used f g s := Vst (v_desc s) (v_avail s) (v_avail_idx s) (f (v_used s)) (g (v_used_end s)) (v_free s) (v_used_idx s) (v_owner s) (v_status s) (v_ops s) (v_bufs s) (v_procs s) (v_dev s).
Definition set_free f s := Vst (v_desc s) (v_avail s) (v_avail_idx s) (v_used s) (v_used_end s) (f (v_free s)) (v_used_idx s) (v_owner s) (v_status s) (v_ops s) (v_bufs s) (v_procs s) (v_dev s).
Definition set_used_idx f s := Vst (v_desc s) (v_avail s) (v_avail_idx s) (v_used s) (v_used_end s) (v_free s) (f (v_used_idx s)) (v_owner s) (v_status s) (v_ops s) (v_bufs s) (v_procs s) (v_dev s).
Definition set_owner f s := Vst (v_desc s) (v_avail s) (v_avail_idx s) (v_used s) (v_used_end s) (v_free s) (v_used_idx s) (f (v_owner s)) (v_status s) (v_ops s) (v_bufs s) (v_procs s) (v_dev s).
Definition set_status f s := Vst (v_desc s) (v_avail s) (v_avail_idx s) (v_used s) (v_used_end s) (v_free s) (v_used_idx s) (v_owner s) (f (v_status s)) (v_ops s) (v_bufs s) (v_procs s) (v_dev s).
Definition set_ops f s := Vst (v_desc s) (v_avail s) (v_avail_idx s) (v_used s) (v_used_end s) (v_free s) (v_used_idx s) (v_owner s) (v_status s) (f (v_ops s)) (v_bufs s) (v_procs s) (v_dev s).
Definition set_bufs f s := Vst (v_desc s) (v_avail s) (v_avail_idx s) (v_used s) (v_used_end s) (v_free s) (v_used_idx s) (v_owner s) (v_status s) (v_ops s) (f (v_bufs s)) (v_procs s) (v_dev s).
Definition set_procs f s := Vst (v_desc s) (v_avail s) (v_avail_idx s) (v_used s) (v_used_end s) (v_free s) (v_used_idx s) (v_owner s) (v_status s) (v_ops s) (v_bufs s) (f (v_procs s)) (v_dev s).
Definition set_dev f s := Vst (v_desc s) (v_avail s) (v_avail_idx s) (v_used s) (v_used_end s) (v_free s) (v_used_idx s) (v_owner s) (v_status s) (v_ops s) (v_bufs s) (v_procs s) (f (v_dev s)).

(** [l[i] = x] *)
Definition put {A} (i : Z) (x : A) (l : list A) : list A := <[Z.to_nat i := x]> l.
Definition set_disk_flag (v : Z) (x : vbuf) : vbuf := Vbuf (vb_blockno x) (vb_data x) v.

Abbreviation V := (M vst).

(** ** Wakeups *)

Definition wake_free (p : vproc) : vproc :=
  match p with
  | NeedDesc b write _ => NeedDesc b write false
  | _ => p
  end.
Definition wake_buf (b : Z) (p : vproc) : vproc :=
  match p with
  | NeedDone b' write i0 i1 i2 asleep => NeedDone b' write i0 i1 i2 (asleep && negb (b' =? b))
  | _ => p
  end.

(** ** Descriptors *)

Fixpoint alloc_desc_from (n : nat) (i : Z) : V Z :=
  match n with
  | O => ret (-1)
  | S n' =>
      free <- gets (fun s => v_free s !!! Z.to_nat i) ;;
      if (free : bool) then modify (set_free (put i false)) ;; ret i
      else alloc_desc_from n' (i + 1)
  end.
Definition alloc_desc : V Z := alloc_desc_from (Z.to_nat NUM) 0.

Definition free_desc (i : Z) : V unit :=
  if NUM <=? i then panic "free_desc 1"
  else
    free <- gets (fun s => v_free s !!! Z.to_nat i) ;;
    if (free : bool) then panic "free_desc 2"
    else
      modify (set_desc (put i desc0)) ;;
      modify (set_free (put i true)) ;;
      modify (set_procs (fmap wake_free)).

Definition free_chain_body (i : Z) : V (Z + unit) :=
  d <- gets (fun s => v_desc s !!! Z.to_nat i) ;;
  free_desc i ;;
  ret (if negb (Z.land (q_flags d) VRING_DESC_F_NEXT =? 0) then inl (q_next d) else inr tt).
(** Every round frees a descriptor that was not free. *)
Definition free_chain (i : Z) : V unit := loop (S (Z.to_nat NUM)) free_chain_body i.

(** [alloc3_desc], its loop over [i] unrolled. *)
Definition alloc3_desc : V (option (Z * Z * Z)) :=
  i0 <- alloc_desc ;;
  if i0 <? 0 then ret None
  else
    i1 <- alloc_desc ;;
    if i1 <? 0 then free_desc i0 ;; ret None
    else
      i2 <- alloc_desc ;;
      if i2 <? 0 then free_desc i0 ;; free_desc i1 ;; ret None
      else ret (Some (i0, i1, i2)).

(** ** Requests *)

Definition sector_of (b : vbuf) : Z := u32 (vb_blockno b * (BSIZE / 512)).

(** The three descriptors, the entry in the ring and the notification. *)
Definition submit (b : Z) (write : bool) (i0 i1 i2 : Z) : V unit :=
  x <- gets (fun s => v_bufs s b) ;;
  modify (set_ops (put i0 (Req (if write then VIRTIO_BLK_T_OUT else VIRTIO_BLK_T_IN) 0 (sector_of x)))) ;;
  modify (set_desc (put i0 (Desc (A_op i0) 16 VRING_DESC_F_NEXT i1))) ;;
  modify (set_desc (put i1 (Desc (A_data b) BSIZE (Z.lor (if write then 0 else VRING_DESC_F_WRITE) VRING_DESC_F_NEXT) i2))) ;;
  modify (set_status (put i0 0xff)) ;;
  modify (set_desc (put i2 (Desc (A_status i0) 1 VRING_DESC_F_WRITE 0))) ;;
  modify (set_bufs (fun bufs => <[b := set_disk_flag 1 (bufs b)]> bufs)) ;;
  modify (set_owner (put i0 (Some b))) ;;
  modify (fun s => set_avail (put (v_avail_idx s mod NUM) i0) s) ;;
  modify (set_avail_idx (fun idx => u16 (idx + 1))).

(** From [acquire], or from the [sleep] for descriptors, to the next [sleep]:
    the test [b->disk == 1] of the second loop holds at first. *)
Definition rw_try (me b : Z) (write : bool) : V unit :=
  r <- alloc3_desc ;;
  match r with
  | None => modify (set_procs (put me (NeedDesc b write true)))
  | Some (i0, i1, i2) =>
      submit b write i0 i1 i2 ;;
      modify (set_procs (put me (NeedDone b write i0 i1 i2 true)))
  end.
Definition virtio_disk_rw (me b : Z) (write : bool) : V unit := rw_try me b write.

(** A process that was woken up goes on. *)
Definition virtio_disk_rw_resume (me : Z) : V unit :=
  p <- gets (fun s => v_procs s !! Z.to_nat me) ;;
  match p with
  | Some (NeedDesc b write _) => rw_try me b write
  | Some (NeedDone b write i0 i1 i2 _) =>
      x <- gets (fun s => v_bufs s b) ;;
      if vb_disk x =? 1 then modify (set_procs (put me (NeedDone b write i0 i1 i2 true)))
      else
        modify (set_owner (put i0 None)) ;;
        free_chain i0 ;;
        modify (set_procs (put me Outside))
  | _ => ret tt
  end.

(** ** Interrupts *)

Definition intr_body (_ : unit) : V (unit + unit) :=
  s <- get ;;
  if v_used_idx s =? v_used_end s then ret (inr tt)
  else
    let id := v_used s !!! Z.to_nat (v_used_idx s mod NUM) in
    if negb (v_status s !!! Z.to_nat id =? 0) then panic "virtio_disk_intr status"
    else
      match v_owner s !!! Z.to_nat id with
      | None => panic "NULL"
      | Some b =>
          modify (set_bufs (fun bufs => <[b := set_disk_flag 0 (bufs b)]> bufs)) ;;
          modify (set_procs (fmap (wake_buf b))) ;;
          modify (set_used_idx (fun idx => u16 (idx + 1))) ;;
          ret (inl tt)
      end.
(** The acknowledgement takes back the interrupt.  The loop ends when it has
    caught up with the device, which is ahead by less than [2 ^ 16]. *)
Definition virtio_disk_intr : V unit :=
  modify (set_dev (fun d => Vdev (vd_seen d) (vd_work d) false (vd_disk d))) ;;
  n <- gets (fun s => u16 (v_used_end s - v_used_idx s)) ;;
  loop (S (Z.to_nat n)) intr_body tt.

(** ** The start of the device

    [R] is what the registers of the device return; the result is the list of
    writes to its registers. *)

Definition S_ACKNOWLEDGE : Z := 1.
Definition S_DRIVER : Z := 2.
Definition S_DRIVER_OK : Z := 4.
Definition S_FEATURES_OK : Z := 8.
(** The features that are turned down. *)
Definition refused : list Z := [5; 7; 11; 12; 27; 29; 28].
Definition virtio_disk_init (R : Z -> Z) (pages : Z) : V (list (Z * Z)) :=
  if negb ((R 0x000 =? 0x74726976) && (R 0x004 =? 1) && (R 0x008 =? 2) && (R 0x00c =? 0x554d4551)) then panic "could not find virtio disk"
  else
    let features := foldl (fun f n => Z.land f (Z.lnot (Z.shiftl 1 n))) (R 0x010) refused in
    let max := R 0x034 in
    if max =? 0 then panic "virtio disk has no queue 0"
    else if max <? NUM then panic "virtio disk max queue too short"
    else
      modify (set_desc (fun _ => replicate (Z.to_nat NUM) desc0)) ;;
      modify (set_avail (fun _ => replicate (Z.to_nat NUM) 0)) ;;
      modify (set_avail_idx (fun _ => 0)) ;;
      modify (set_used (fun _ => replicate (Z.to_nat NUM) 0) (fun _ => 0)) ;;
      modify (set_free (fun _ => replicate (Z.to_nat NUM) true)) ;;
      ret [(0x070, S_ACKNOWLEDGE); (0x070, Z.lor S_ACKNOWLEDGE S_DRIVER); (0x020, u32 features);
           (0x070, Z.lor (Z.lor S_ACKNOWLEDGE S_DRIVER) S_FEATURES_OK);
           (0x070, Z.lor (Z.lor (Z.lor S_ACKNOWLEDGE S_DRIVER) S_FEATURES_OK) S_DRIVER_OK);
           (0x028, 4096); (0x030, 0); (0x038, NUM); (0x040, u32 (Z.shiftr pages 12))].

(** ** The device *)

(** The next chain of the ring. *)
Definition dev_fetch : V unit :=
  modify (fun s => set_dev (fun d => Vdev (u16 (vd_seen d + 1)) (vd_work d ++ [v_avail s !!! Z.to_nat (vd_seen d mod NUM)]) (vd_irq d) (vd_disk d)) s).

(** A chain of the shape that section 5.2 of the specification asks for is
    carried out and has status 0; any other gets status 1. *)
Definition dev_transfer (h : Z) (s : vst) : vst :=
  let d0 := v_desc s !!! Z.to_nat h in
  let d1 := v_desc s !!! Z.to_nat (q_next d0) in
  let d2 := v_desc s !!! Z.to_nat (q_next d1) in
  let linked d := negb (Z.land (q_flags d) VRING_DESC_F_NEXT =? 0) in
  let writable d := negb (Z.land (q_flags d) VRING_DESC_F_WRITE =? 0) in
  match q_addr d0, q_addr d1, q_addr d2 with
  | A_op i, A_data b, A_status j =>
      let rq := v_ops s !!! Z.to_nat i in
      let ok := linked d0 && linked d1 && negb (linked d2) && writable d2 && (q_len d0 =? 16) && (q_len d1 =? 512) && (q_len d2 =? 1) in
      if ok && (rq_type rq =? VIRTIO_BLK_T_OUT) && negb (writable d1) then
        set_status (put j 0) (set_dev (fun d => Vdev (vd_seen d) (vd_work d) (vd_irq d) (<[rq_sector rq := vb_data (v_bufs s b)]> (vd_disk d))) s)
      else if ok && (rq_type rq =? VIRTIO_BLK_T_IN) && writable d1 then
        set_status (put j 0) (set_bufs (fun bufs => <[b := Vbuf (vb_blockno (bufs b)) (vd_disk (v_dev s) (rq_sector rq)) (vb_disk (bufs b))]> bufs) s)
      else set_status (put j 1) s
  | _, _, _ => s
  end.

(** It finishes one of the chains it works on. *)
Definition dev_complete (h : Z) : V unit :=
  modify (dev_transfer h) ;;
  modify (fun s => set_used (put (v_used_end s mod NUM) h) (fun e => u16 (e + 1)) s) ;;
  modify (set_dev (fun d => Vdev (vd_seen d) (filter (fun x => x <> h) (vd_work d)) true (vd_disk d))).

(** ** The system *)

Inductive vevent :=
| Call (me b : Z) (write : bool)
| Resume (me : Z)
| Fetch
| Complete (h : Z)
| Intr.

Definition buf_of (p : vproc) : option Z :=
  match p with
  | Outside => None
  | NeedDesc b _ _ | NeedDone b _ _ _ _ _ => Some b
  end.
Definition runnable (p : vproc) : bool :=
  match p with
  | NeedDesc _ _ false | NeedDone _ _ _ _ _ false => true
  | _ => false
  end.

(** A call is possible for a buffer whose block no other process is
    transferring: the block cache has one buffer for a block, and its caller
    holds the buffer's sleep lock. *)
Definition enabled (s : vst) (e : vevent) : bool :=
  match e with
  | Call me b _ =>
      match v_procs s !! Z.to_nat me with
      | Some Outside =>
          (0 <=? me) && forallb (fun p => match buf_of p with Some b' => negb (sector_of (v_bufs s b') =? sector_of (v_bufs s b)) | None => true end) (v_procs s)
      | _ => false
      end
  | Resume me => (0 <=? me) && match v_procs s !! Z.to_nat me with Some p => runnable p | None => false end
  | Fetch => negb (vd_seen (v_dev s) =? v_avail_idx s)
  | Complete h => existsb (Z.eqb h) (vd_work (v_dev s))
  | Intr => vd_irq (v_dev s)
  end.

Definition act (e : vevent) : V unit :=
  match e with
  | Call me b write => virtio_disk_rw me b write
  | Resume me => virtio_disk_rw_resume me
  | Fetch => dev_fetch
  | Complete h => dev_complete h
  | Intr => virtio_disk_intr
  end.
