(* ===== verification/VirtioProps.v ===== *)
(** * Theorems on the virtio disk driver

    Any number of processes call [virtio_disk_rw] at any time, and the device
    and the interrupt handler run in between in any order.  The invariant says
    which process owns which descriptors, in which stage each request is, and
    what the buffer and the disk hold at that stage. *)

From stdpp Require Import functions.
From S2P Require Import Prelude Bio Virtio.

Notation "l @ i" := (l !!! Z.to_nat i) (at level 20, no associativity).

(** The fields of a state that was reached by updates; the state itself is
    never unfolded. *)
Ltac vproj P := repeat match goal with
  | |- context [P ?t] => progress (let e := eval lazy [v_desc v_avail v_avail_idx v_used v_used_end v_free v_used_idx v_owner v_status v_ops v_bufs v_procs v_dev
      set_desc set_avail set_avail_idx set_used set_free set_used_idx set_owner set_status set_ops set_bufs set_procs set_dev] in (P t) in change (P t) with e)
  | H : context [P ?t] |- _ => progress (let e := eval lazy [v_desc v_avail v_avail_idx v_used v_used_end v_free v_used_idx v_owner v_status v_ops v_bufs v_procs v_dev
      set_desc set_avail set_avail_idx set_used set_free set_used_idx set_owner set_status set_ops set_bufs set_procs set_dev] in (P t) in change (P t) with e in H)
  end.
Ltac vsimp := vproj v_desc; vproj v_avail; vproj v_avail_idx; vproj v_used; vproj v_used_end; vproj v_free; vproj v_used_idx; vproj v_owner; vproj v_status;
  vproj v_ops; vproj v_bufs; vproj v_procs; vproj v_dev.

Lemma vst_ext s s' : v_desc s = v_desc s' -> v_avail s = v_avail s' -> v_avail_idx s = v_avail_idx s' -> v_used s = v_used s' -> v_used_end s = v_used_end s' ->
  v_free s = v_free s' -> v_used_idx s = v_used_idx s' -> v_owner s = v_owner s' -> v_status s = v_status s' -> v_ops s = v_ops s' -> v_bufs s = v_bufs s' ->
  v_procs s = v_procs s' -> v_dev s = v_dev s' -> s = s'.
Proof. destruct s, s'. simpl. by intros -> -> -> -> -> -> -> -> -> -> -> -> ->. Qed.

Section put.
Context {A : Type} `{!Inhabited A}.
Lemma put_eq i (x : A) l : 0 <= i < Z.of_nat (length l) -> put i x l @ i = x.
Proof. intros. unfold put. apply list_lookup_total_insert_eq. lia. Qed.
Lemma put_ne i j (x : A) l : 0 <= i -> 0 <= j -> i <> j -> put i x l @ j = l @ j.
Proof. intros. unfold put. apply list_lookup_total_insert_ne. lia. Qed.
End put.
Lemma length_put {A} i (x : A) l : length (put i x l) = length l.
Proof. apply length_insert. Qed.

(** ** The invariant *)

(** The descriptors of a process. *)
Definition idxs (p : vproc) : list Z :=
  match p with
  | NeedDone _ _ i0 i1 i2 _ => [i0; i1; i2]
  | _ => []
  end.
Definition taken (s : vst) : list Z := concat (idxs <$> v_procs s).

(** The heads [l] are in the ring from [start] to [stop]. *)
Definition ring_has (ring : list Z) (start : Z) (l : list Z) (stop : Z) : Prop :=
  0 <= start < 2 ^ 16 /\ stop = u16 (start + Z.of_nat (length l)) /\
  forall k x, l !! k = Some x -> ring @ ((start + Z.of_nat k) mod NUM) = x.

(** The descriptors of a request as the device expects them. *)
Definition chain_ok (s : vst) (b : Z) (write : bool) (i0 i1 i2 : Z) : Prop :=
  v_desc s @ i0 = Desc (A_op i0) 16 VRING_DESC_F_NEXT i1 /\
  v_desc s @ i1 = Desc (A_data b) BSIZE (Z.lor (if write then 0 else VRING_DESC_F_WRITE) VRING_DESC_F_NEXT) i2 /\
  v_desc s @ i2 = Desc (A_status i0) 1 VRING_DESC_F_WRITE 0 /\
  v_ops s @ i0 = Req (if write then VIRTIO_BLK_T_OUT else VIRTIO_BLK_T_IN) 0 (sector_of (v_bufs s b)) /\
  v_owner s @ i0 = Some b.

Definition data_of (s : vst) (b : Z) : list Z := vb_data (v_bufs s b).
Definition disk_of (s : vst) (b : Z) : list Z := vd_disk (v_dev s) (sector_of (v_bufs s b)).

(** [q]: the heads that the device has not finished; [want]: what the request
    has to leave in the buffer and on the disk. *)
Definition proc_ok (q : list Z) (s : vst) (want : list Z) (p : vproc) : Prop :=
  match p with
  | Outside => True
  | NeedDesc b write asleep => (if write then data_of s b else disk_of s b) = want /\ (asleep = true -> (6 <= length (taken s))%nat)
  | NeedDone b write i0 i1 i2 asleep =>
      (if write then data_of s b else disk_of s b) = want /\ chain_ok s b write i0 i1 i2 /\ vb_disk (v_bufs s b) = b2z asleep /\
      (i0 ∉ q -> v_status s @ i0 = 0 /\ data_of s b = want /\ disk_of s b = want)
  end.

Record vinv (L1 L3 : list Z) (s : vst) (want : nat -> list Z) : Prop := {
  vi_desc : length (v_desc s) = 8%nat; vi_avail : length (v_avail s) = 8%nat; vi_used : length (v_used s) = 8%nat; vi_free : length (v_free s) = 8%nat;
  vi_owner : length (v_owner s) = 8%nat; vi_status : length (v_status s) = 8%nat; vi_ops : length (v_ops s) = 8%nat;
  vi_nodup : NoDup (taken s);
  vi_range : forall i, i ∈ taken s -> 0 <= i < NUM;
  vi_free_iff : forall i, 0 <= i < NUM -> v_free s @ i = true <-> i ∉ taken s;
  vi_proc : forall n p, v_procs s !! n = Some p -> proc_ok (L1 ++ vd_work (v_dev s)) s (want n) p;
  vi_blocks : forall n n' p p' b b', v_procs s !! n = Some p -> v_procs s !! n' = Some p' -> buf_of p = Some b -> buf_of p' = Some b' ->
    n <> n' -> sector_of (v_bufs s b) <> sector_of (v_bufs s b');
  vi_ring1 : ring_has (v_avail s) (vd_seen (v_dev s)) L1 (v_avail_idx s);
  vi_ring3 : ring_has (v_used s) (v_used_idx s) L3 (v_used_end s);
  vi_qdup : NoDup (L1 ++ vd_work (v_dev s) ++ L3);
  vi_queue : forall h, h ∈ L1 ++ vd_work (v_dev s) ++ L3 <-> exists n b write i1 i2, v_procs s !! n = Some (NeedDone b write h i1 i2 true);
}.

(** ** Taking descriptors *)

Lemma elem_of_concat {A} (x : A) (ls : list (list A)) : x ∈ concat ls <-> exists l, x ∈ l /\ l ∈ ls.
Proof. rewrite list_elem_of_In, in_concat. setoid_rewrite list_elem_of_In. naive_solver. Qed.

Lemma elem_of_taken s n p i : v_procs s !! n = Some p -> i ∈ idxs p -> i ∈ taken s.
Proof. intros Hn Hi. unfold taken. apply elem_of_concat. exists (idxs p). split; [done|]. apply list_elem_of_fmap. exists p. split; [done|]. by apply list_elem_of_lookup_2 with n. Qed.

(** Different processes have different descriptors. *)
Lemma taken_disjoint s n n' p p' i : NoDup (taken s) -> v_procs s !! n = Some p -> v_procs s !! n' = Some p' -> i ∈ idxs p -> i ∈ idxs p' -> n = n'.
Proof.
  intros Hd Hn Hn' Hi Hi'. destruct (decide (n = n')) as [|Hne]; [done|exfalso]. unfold taken in Hd.
  assert (Hl : (idxs <$> v_procs s) !! n = Some (idxs p)) by (by rewrite list_lookup_fmap, Hn).
  rewrite (concat_lookup_Permutation _ _ _ Hl) in Hd. apply NoDup_app in Hd as (_ & Hd & _). apply (Hd i Hi).
  apply elem_of_concat. exists (idxs p'). split; [done|]. apply list_elem_of_lookup.
  destruct (decide (n' < n)%nat).
  - exists n'. rewrite list_lookup_delete_lt by lia. by rewrite list_lookup_fmap, Hn'.
  - exists (n' - 1)%nat. rewrite list_lookup_delete_ge by lia. replace (S (n' - 1)) with n' by lia. by rewrite list_lookup_fmap, Hn'.
Qed.

(** Eight numbers are more than [k + l] unless the lists hold them all. *)
Lemma counting (l1 l2 : list Z) : (forall i, 0 <= i < NUM -> i ∈ l1 \/ i ∈ l2) -> (8 <= length l1 + length l2)%nat.
Proof.
  intros H. assert (Hs : seqZ 0 NUM ⊆+ l1 ++ l2).
  { apply NoDup_submseteq; [apply NoDup_seqZ|]. intros i Hi. apply elem_of_seqZ in Hi. apply elem_of_app. apply H. unfold NUM in *. lia. }
  apply submseteq_length in Hs. rewrite length_app in Hs. by rewrite length_seqZ in Hs.
Qed.

Lemma alloc_desc_wp s : length (v_free s) = 8%nat ->
  wp alloc_desc (fun i s' => (i = -1 /\ s' = s /\ forall j, 0 <= j < NUM -> v_free s @ j = false) \/
    (0 <= i < NUM /\ v_free s @ i = true /\ s' = set_free (put i false) s)) s.
Proof.
  intros Hl. unfold alloc_desc.
  assert (H : forall n i, 0 <= i -> i + Z.of_nat n = NUM -> (forall j, 0 <= j < i -> v_free s @ j = false) ->
    wp (alloc_desc_from n i) (fun i s' => (i = -1 /\ s' = s /\ forall j, 0 <= j < NUM -> v_free s @ j = false) \/
      (0 <= i < NUM /\ v_free s @ i = true /\ s' = set_free (put i false) s)) s).
  { induction n as [|n IH]; intros i Hi He Hj; cbn [alloc_desc_from].
    - wp_step. left. split_and!; [done|done|]. intros j ?. apply Hj. lia.
    - wp_step. wp_step. destruct (v_free s @ i) eqn:E.
      + wp_step. wp_step. wp_step. right. split_and!; [lia|lia|done|done].
      + apply IH; [lia|lia|]. intros j ?. destruct (decide (j = i)) as [->|]; [done|]. apply Hj. lia. }
  apply (H 8%nat 0); [lia|done|]. intros. lia.
Qed.

Lemma free_desc_wp s i Q : 0 <= i < NUM -> v_free s @ i = false ->
  Q tt (set_procs (fmap wake_free) (set_free (put i true) (set_desc (put i desc0) s))) -> wp (free_desc i) Q s.
Proof.
  intros Hi Hf HQ. unfold free_desc. replace (NUM <=? i) with false by (symmetry; apply Z.leb_gt; lia). wp_step. wp_step. rewrite Hf. wp_step. wp_step. wp_step. wp_step. wp_step. exact HQ.
Qed.

Lemma vst_eta s : s = set_procs (fun ps => ps) (set_desc (fun d => d) s).
Proof. by destruct s. Qed.

Lemma put_back f i : length f = 8%nat -> 0 <= i < NUM -> f @ i = true -> put i true (put i false f) = f.
Proof.
  intros Hl Hi Hf. unfold put. rewrite list_insert_insert_eq. apply list_insert_id. rewrite <- Hf. apply list_lookup_lookup_total_lt. unfold NUM in *. lia.
Qed.

Lemma put_back2 f i j : length f = 8%nat -> 0 <= i < NUM -> 0 <= j < NUM -> i <> j -> f @ i = true -> f @ j = true ->
  put j true (put i true (put j false (put i false f))) = f.
Proof.
  intros Hl Hi Hj Hne Hfi Hfj. replace (put i true (put j false (put i false f))) with (put j false (put i true (put i false f))).
  - rewrite (put_back f i) by done. by apply put_back.
  - unfold put. apply list_insert_insert_ne. lia.
Qed.

Lemma wake_free_idem (ps : list vproc) : wake_free <$> (wake_free <$> ps) = wake_free <$> ps.
Proof. rewrite <- list_fmap_compose. apply list_fmap_ext. by intros i [] _. Qed.

Lemma alloc3_wp s Q : length (v_free s) = 8%nat -> length (v_desc s) = 8%nat ->
  (forall i0 i1 i2, NoDup [i0; i1; i2] -> (forall i, i ∈ [i0; i1; i2] -> 0 <= i < NUM /\ v_free s @ i = true) ->
    Q (Some (i0, i1, i2)) (set_free (fun f => put i2 false (put i1 false (put i0 false f))) s)) ->
  (forall l f g, (length l <= 2)%nat -> (forall i, 0 <= i < NUM -> v_free s @ i = true -> i ∈ l) ->
    (length (f (v_desc s)) = 8%nat) -> (forall i, 0 <= i -> v_free s @ i = false -> f (v_desc s) @ i = v_desc s @ i) ->
    (g (v_procs s) = v_procs s \/ g (v_procs s) = wake_free <$> v_procs s) ->
    Q None (set_procs g (set_desc f s))) ->
  wp alloc3_desc Q s.
Proof.
  intros Hl Hd Hsome Hnone. unfold alloc3_desc. wp_step. eapply wp_mono; [by apply alloc_desc_wp|].
  intros i0 s0 [(-> & -> & Hall)|(H0 & Hf0 & ->)].
  { cbn [Z.ltb Z.compare]. wp_step. pose proof (Hnone [] (fun d => d) (fun ps => ps)) as Hn. rewrite <- vst_eta in Hn. apply Hn; [simpl; lia| |done|done|by left]. intros i Hi Hf. rewrite Hall in Hf by done. done. }
  replace (i0 <? 0) with false by (symmetry; apply Z.ltb_ge; lia). wp_step. eapply wp_mono; [apply alloc_desc_wp; vsimp; by rewrite length_put|].
  vsimp. intros i1 s1 [(-> & -> & Hall)|(H1 & Hf1 & ->)].
  { cbn [Z.ltb Z.compare]. wp_step. apply free_desc_wp; [done|vsimp; apply put_eq; unfold NUM in *; lia|]. wp_step.
    assert (He : set_procs (fmap wake_free) (set_free (put i0 true) (set_desc (put i0 desc0) (set_free (put i0 false) s))) = set_procs (fmap wake_free) (set_desc (put i0 desc0) s)).
    { apply vst_ext; try reflexivity; vsimp. by apply put_back. }
    rewrite He. apply (Hnone [i0]); [simpl; lia| |by rewrite length_put| |by right].
    - intros i Hi Hf. apply list_elem_of_singleton. destruct (decide (i = i0)) as [|Hne]; [done|]. specialize (Hall i Hi). rewrite put_ne in Hall by lia. congruence.
    - intros i Hi Hf. apply put_ne; [lia|lia|]. intros ->. congruence. }
  assert (i1 <> i0) as Hn1 by (intros ->; rewrite put_eq in Hf1 by (unfold NUM in *; lia); done). rewrite put_ne in Hf1 by lia.
  replace (i1 <? 0) with false by (symmetry; apply Z.ltb_ge; lia). wp_step. eapply wp_mono; [apply alloc_desc_wp; vsimp; by rewrite !length_put|].
  vsimp. intros i2 s2 [(-> & -> & Hall)|(H2 & Hf2 & ->)].
  { cbn [Z.ltb Z.compare]. wp_step. apply free_desc_wp; [done|vsimp; rewrite put_ne, put_eq by (unfold NUM in *; lia); done|].
    wp_step. apply free_desc_wp; [done|vsimp; rewrite put_ne, put_eq by (rewrite ?length_put; unfold NUM in *; lia); done|]. wp_step.
    match goal with |- Q None ?x => assert (He : x = set_procs (fmap wake_free) (set_desc (fun d => put i1 desc0 (put i0 desc0 d)) s)) end.
    { apply vst_ext; try reflexivity; vsimp; [by apply put_back2|by rewrite wake_free_idem]. }
    rewrite He. apply (Hnone [i0; i1]); [simpl; lia| |by rewrite !length_put| |by right].
    - intros i Hi Hf. specialize (Hall i Hi). destruct (decide (i = i0)) as [->|]; [left|]. destruct (decide (i = i1)) as [->|]; [right; left|].
      rewrite !put_ne in Hall by lia. congruence.
    - intros i Hi Hf. rewrite !put_ne; [done|lia|lia|intros ->; congruence|lia|lia|intros ->; congruence]. }
  assert (i2 <> i1) as Hn2 by (intros ->; rewrite put_eq in Hf2 by (rewrite ?length_put; unfold NUM in *; lia); done). rewrite put_ne in Hf2 by lia.
  assert (i2 <> i0) as Hn3 by (intros ->; rewrite put_eq in Hf2 by (unfold NUM in *; lia); done). rewrite put_ne in Hf2 by lia.
  replace (i2 <? 0) with false by (symmetry; apply Z.ltb_ge; lia). wp_step.
  match goal with |- Q _ ?x => replace x with (set_free (fun f => put i2 false (put i1 false (put i0 false f))) s) by (by apply vst_ext) end.
  apply Hsome.
  - rewrite !NoDup_cons, !not_elem_of_cons. split_and!; try done; try apply not_elem_of_nil. constructor.
  - intros i Hi. rewrite !elem_of_cons in Hi. destruct Hi as [->|[->|[->|Hi]]]; try done. by apply not_elem_of_nil in Hi.
Qed.

(** ** The rings *)

Lemma u16_NUM x : u16 x mod NUM = x mod NUM.
Proof. unfold u16, NUM. dlia. Qed.

Lemma ring_push ring st l e x : ring_has ring st l e -> length ring = 8%nat -> (length l < 8)%nat ->
  ring_has (put (e mod NUM) x ring) st (l ++ [x]) (u16 (e + 1)).
Proof.
  intros (H0 & -> & Hl) Hr Hlen. split_and!; [lia|lia| |].
  - rewrite length_app. simpl. unfold u16. rewrite Zplus_mod_idemp_l. f_equal. lia.
  - intros k y Hk. rewrite u16_NUM. apply lookup_app_Some in Hk as [Hk|[Hk Hy]].
    + rewrite put_ne; [by apply Hl|unfold NUM; dlia|unfold NUM; dlia|]. apply lookup_lt_Some in Hk. unfold NUM. dlia.
    + apply list_lookup_singleton_Some in Hy as [Hy ->]. replace k with (length l) by lia. apply put_eq. unfold NUM. dlia.
Qed.

Lemma ring_pop ring st x l e : ring_has ring st (x :: l) e -> ring @ (st mod NUM) = x /\ ring_has ring (u16 (st + 1)) l e.
Proof.
  intros (H0 & -> & Hl). split.
  - specialize (Hl 0%nat x eq_refl). by rewrite Z.add_0_r in Hl.
  - split; [apply Z.mod_pos_bound; lia|]. split.
    + cbn [length]. unfold u16. rewrite Zplus_mod_idemp_l. f_equal. lia.
    + intros k y Hk. specialize (Hl (S k) y Hk). rewrite <- Hl. f_equal. f_equal. unfold u16. rewrite <- (Zplus_mod_idemp_l ((st + 1) mod 2 ^ 16)).
      fold (u16 (st + 1)). rewrite u16_NUM, Zplus_mod_idemp_l. f_equal. lia.
Qed.

(** A ring with something between its ends. *)
Lemma ring_nonempty ring st l e : ring_has ring st l e -> (length l <= 8)%nat -> (st =? e) = bool_decide (l = []).
Proof.
  intros (Hst & -> & _) Hl. unfold u16. destruct l as [|x l]; cbn [length] in *.
  - rewrite Z.add_0_r, Z.mod_small by lia. by rewrite Z.eqb_refl.
  - rewrite bool_decide_eq_false_2 by done. apply Z.eqb_neq. dlia.
Qed.

Lemma short_list (l : list Z) : NoDup l -> (forall x, x ∈ l -> 0 <= x < NUM) -> (length l <= 8)%nat.
Proof.
  intros Hd Hr. assert (Hs : l ⊆+ seqZ 0 NUM) by (apply NoDup_submseteq; [done|]; intros x Hx; apply elem_of_seqZ; apply Hr in Hx; unfold NUM in *; lia).
  apply submseteq_length in Hs. by rewrite length_seqZ in Hs.
Qed.

(** ** Changing one process *)

Lemma taken_put s me p0 p' (ps : list vproc) : v_procs s !! me = Some p0 -> idxs p0 = [] -> idxs <$> ps = idxs <$> v_procs s ->
  concat (idxs <$> <[me := p']> ps) ≡ₚ idxs p' ++ taken s.
Proof.
  intros Hme H0 Hps. unfold taken. rewrite list_fmap_insert, Hps.
  assert (Hl : (idxs <$> v_procs s) !! me = Some []) by (by rewrite list_lookup_fmap, Hme; simpl; rewrite H0).
  rewrite (NoDup_concat_insert _ _ _ _ Hl). by rewrite (concat_lookup_Permutation _ _ _ Hl).
Qed.

Lemma wake_free_idxs (ps : list vproc) : idxs <$> (wake_free <$> ps) = idxs <$> ps.
Proof. rewrite <- list_fmap_compose. apply list_fmap_ext. by intros i [] _. Qed.

Lemma wake_free_buf p : buf_of (wake_free p) = buf_of p.
Proof. by destruct p. Qed.

Lemma queue_taken L1 L3 s want h : vinv L1 L3 s want -> h ∈ L1 ++ vd_work (v_dev s) ++ L3 -> h ∈ taken s.
Proof. intros Hi Hh. apply (vi_queue _ _ _ _ Hi) in Hh as (n & b & w & i1 & i2 & Hn). apply (elem_of_taken _ _ _ _ Hn). simpl. left. Qed.

(** What waking up processes that wait for descriptors keeps. *)
Lemma proc_ok_wake q s want p : proc_ok q s want p -> proc_ok q s want (wake_free p).
Proof. destruct p; simpl; [done| |done]. intros [H _]. by split. Qed.

Lemma submit_wp s b write i0 i1 i2 : wp (submit b write i0 i1 i2) (fun _ s' =>
    v_desc s' = put i2 (Desc (A_status i0) 1 VRING_DESC_F_WRITE 0) (put i1 (Desc (A_data b) BSIZE (Z.lor (if write then 0 else VRING_DESC_F_WRITE) VRING_DESC_F_NEXT) i2)
      (put i0 (Desc (A_op i0) 16 VRING_DESC_F_NEXT i1) (v_desc s))) /\
    v_avail s' = put (v_avail_idx s mod NUM) i0 (v_avail s) /\ v_avail_idx s' = u16 (v_avail_idx s + 1) /\ v_used s' = v_used s /\ v_used_end s' = v_used_end s /\
    v_free s' = v_free s /\ v_used_idx s' = v_used_idx s /\ v_owner s' = put i0 (Some b) (v_owner s) /\ v_status s' = put i0 0xff (v_status s) /\
    v_ops s' = put i0 (Req (if write then VIRTIO_BLK_T_OUT else VIRTIO_BLK_T_IN) 0 (sector_of (v_bufs s b))) (v_ops s) /\
    v_bufs s' = <[b := set_disk_flag 1 (v_bufs s b)]> (v_bufs s) /\ v_procs s' = v_procs s /\ v_dev s' = v_dev s) s.
Proof. unfold submit. repeat wp_step. split_and!; reflexivity. Qed.

(** ** Starting a request *)

Section try.
Context (L1 L3 : list Z) (s : vst) (want : nat -> list Z) (Hi : vinv L1 L3 s want).
Context (me : nat) (p0 : vproc) (b : Z) (write : bool) (Hme : v_procs s !! me = Some p0) (Hp0 : idxs p0 = []).
Context (Hwant : (if write then data_of s b else disk_of s b) = want me).
Context (Hblock : forall n p b', n <> me -> v_procs s !! n = Some p -> buf_of p = Some b' -> sector_of (v_bufs s b') <> sector_of (v_bufs s b)).

Lemma free_not_taken i : 0 <= i < NUM -> v_free s @ i = true -> i ∉ taken s.
Proof. intros H. by apply (vi_free_iff _ _ _ _ Hi). Qed.
Lemma taken_not_free i : i ∈ taken s -> 0 <= i < NUM /\ v_free s @ i = false.
Proof.
  intros H. pose proof (vi_range _ _ _ _ Hi i H) as Hr. split; [done|]. apply not_true_is_false. intros Hf. by apply (vi_free_iff _ _ _ _ Hi) in Hf.
Qed.

(** Another process and its buffer. *)
Lemma other_buf n p b' : n <> me -> v_procs s !! n = Some p -> buf_of p = Some b' -> b' <> b.
Proof. intros Hn Hp Hb ->. by apply (Hblock n p b Hn Hp Hb). Qed.

Lemma try_sleeps f g : (length (f (v_desc s)) = 8%nat) -> (forall i, 0 <= i -> v_free s @ i = false -> f (v_desc s) @ i = v_desc s @ i) ->
  (g (v_procs s) = v_procs s \/ g (v_procs s) = wake_free <$> v_procs s) -> (6 <= length (taken s))%nat ->
  vinv L1 L3 (set_procs (put (Z.of_nat me) (NeedDesc b write true)) (set_procs g (set_desc f s))) want.
Proof.
  intros Hf Hfd Hg H6. set (s' := set_procs _ _).
  assert (Hps : v_procs s' = <[me := NeedDesc b write true]> (g (v_procs s))) by (unfold s'; vsimp; unfold put; by rewrite Nat2Z.id).
  assert (Hix : idxs <$> g (v_procs s) = idxs <$> v_procs s) by (destruct Hg as [->| ->]; [done|apply wake_free_idxs]).
  assert (Hlk : forall n p, v_procs s' !! n = Some p -> (n = me /\ p = NeedDesc b write true) \/ (n <> me /\ exists q, v_procs s !! n = Some q /\ (p = q \/ p = wake_free q))).
  { intros n p Hn. rewrite Hps in Hn. apply list_lookup_insert_Some in Hn as [(-> & -> & _)|[Hne Hn]]; [by left|right]. split; [done|].
    destruct Hg as [Hg|Hg]; rewrite Hg in Hn; [by exists p; split; [|left]|]. rewrite list_lookup_fmap in Hn. destruct (v_procs s !! n) as [q|] eqn:Eq; [|done].
    exists q. split; [done|]. right. by injection Hn. }
  assert (Hme' : (me < length (g (v_procs s)))%nat).
  { apply lookup_lt_Some in Hme. destruct Hg as [->| ->]; [done|by rewrite length_fmap]. }
  assert (Htk : taken s' ≡ₚ taken s) by (unfold taken at 1; rewrite Hps; exact (taken_put s me p0 (NeedDesc b write true) _ Hme Hp0 Hix)).
  assert (Hok : forall q w p, (forall i, i ∈ idxs p -> i ∈ taken s) -> proc_ok q s w p -> proc_ok q s' w p).
  { intros q w p Hin. destruct p as [|b' w' a|b' w' i0 i1 i2 a]; simpl; [done|by rewrite Htk|]. intros (H1 & Hc & H3 & H4). split_and!; [done| |done|done].
    assert (Hd : forall i, i ∈ [i0; i1; i2] -> v_desc s' @ i = v_desc s @ i).
    { intros i Hii. apply Hin in Hii. apply taken_not_free in Hii as [Hr Hfr]. unfold s'. vsimp. apply Hfd; [lia|done]. }
    unfold chain_ok in *. rewrite !Hd by set_solver. exact Hc. }
  destruct Hi. constructor; try done.
  - by rewrite Htk.
  - intros i. rewrite Htk. auto.
  - intros i Hr. rewrite Htk. auto.
  - intros n p Hn. apply Hlk in Hn as [[-> ->]|(Hne & q & Hq & Hp)].
    + simpl. rewrite Htk. split; [exact Hwant|done].
    + assert (Hin : forall i, i ∈ idxs q -> i ∈ taken s) by (intros i; by apply elem_of_taken with n).
      specialize (vi_proc0 n q Hq). destruct Hp as [->| ->]; [by apply Hok|]. apply Hok; [by destruct q|]. by apply proc_ok_wake.
  - intros n n' p p' c c' Hn Hn' Hc Hc' Hne.
    apply Hlk in Hn as [[-> ->]|(Hn1 & q & Hq & Hp)]; apply Hlk in Hn' as [[-> ->]|(Hn1' & q' & Hq' & Hp')]; [done| | |].
    + simpl in Hc. injection Hc as <-. apply not_eq_sym. apply (Hblock n' q'); [done|done|]. destruct Hp' as [->| ->]; [done|by rewrite wake_free_buf in Hc'].
    + simpl in Hc'. injection Hc' as <-. apply (Hblock n q); [done|done|]. destruct Hp as [->| ->]; [done|by rewrite wake_free_buf in Hc].
    + apply (vi_blocks0 n n' q q'); [done|done| | |done]; [destruct Hp as [->| ->]|destruct Hp' as [->| ->]]; rewrite ?wake_free_buf in *; done.
  - intros h. etransitivity; [exact (vi_queue0 h)|]. split; intros (n & c & w & i1 & i2 & Hn); exists n, c, w, i1, i2.
    + rewrite Hps, list_lookup_insert_ne.
      * destruct Hg as [->| ->]; [done|]. by rewrite list_lookup_fmap, Hn.
      * intros ->. rewrite Hme in Hn. injection Hn as ->. done.
    + apply Hlk in Hn as [[-> ?]|(Hne & q & Hq & [<-|Hp])]; [done|done|]. by destruct q; simplify_eq/=.
Qed.

Lemma try_submits i0 i1 i2 s' : NoDup [i0; i1; i2] -> (forall i, i ∈ [i0; i1; i2] -> 0 <= i < NUM /\ v_free s @ i = true) ->
  v_desc s' = put i2 (Desc (A_status i0) 1 VRING_DESC_F_WRITE 0) (put i1 (Desc (A_data b) BSIZE (Z.lor (if write then 0 else VRING_DESC_F_WRITE) VRING_DESC_F_NEXT) i2)
    (put i0 (Desc (A_op i0) 16 VRING_DESC_F_NEXT i1) (v_desc s))) ->
  v_avail s' = put (v_avail_idx s mod NUM) i0 (v_avail s) -> v_avail_idx s' = u16 (v_avail_idx s + 1) -> v_used s' = v_used s -> v_used_end s' = v_used_end s ->
  v_free s' = put i2 false (put i1 false (put i0 false (v_free s))) -> v_used_idx s' = v_used_idx s ->
  v_owner s' = put i0 (Some b) (v_owner s) -> v_status s' = put i0 0xff (v_status s) ->
  v_ops s' = put i0 (Req (if write then VIRTIO_BLK_T_OUT else VIRTIO_BLK_T_IN) 0 (sector_of (v_bufs s b))) (v_ops s) ->
  v_bufs s' = <[b := set_disk_flag 1 (v_bufs s b)]> (v_bufs s) -> v_procs s' = <[me := NeedDone b write i0 i1 i2 true]> (v_procs s) -> v_dev s' = v_dev s ->
  vinv (L1 ++ [i0]) L3 s' want.
Proof.
  intros Hnd Hfr Ed Ea Eai Eu Eue Ef Eui Eo Es Eop Eb Ep Edev.
  assert (Hfresh : forall i, i ∈ [i0; i1; i2] -> i ∉ taken s) by (intros i H; apply Hfr in H as [? ?]; by apply free_not_taken).
  assert (H0 : 0 <= i0 < NUM /\ i0 ∉ taken s) by (split; [apply Hfr|apply Hfresh]; set_solver).
  assert (H1 : 0 <= i1 < NUM /\ i1 ∉ taken s) by (split; [apply Hfr|apply Hfresh]; set_solver).
  assert (H2 : 0 <= i2 < NUM /\ i2 ∉ taken s) by (split; [apply Hfr|apply Hfresh]; set_solver).
  assert (Hne : i0 <> i1 /\ i0 <> i2 /\ i1 <> i2) by (rewrite !NoDup_cons in Hnd; set_solver). destruct Hne as (N01 & N02 & N12).
  assert (Htk : taken s' ≡ₚ [i0; i1; i2] ++ taken s) by (unfold taken at 1; rewrite Ep; exact (taken_put s me p0 (NeedDone b write i0 i1 i2 true) _ Hme Hp0 eq_refl)).
  assert (Hlk : forall n p, v_procs s' !! n = Some p -> (n = me /\ p = NeedDone b write i0 i1 i2 true) \/ (n <> me /\ v_procs s !! n = Some p)).
  { intros n p Hn. rewrite Ep in Hn. apply list_lookup_insert_Some in Hn as [(-> & -> & _)|[? ?]]; [by left|by right]. }
  assert (Hsec : forall c, sector_of (v_bufs s' c) = sector_of (v_bufs s c)).
  { intros c. rewrite Eb. destruct (decide (c = b)) as [->|]; [by rewrite fn_lookup_insert|by rewrite fn_lookup_insert_ne]. }
  assert (Hdata : forall c, data_of s' c = data_of s c).
  { intros c. unfold data_of. rewrite Eb. destruct (decide (c = b)) as [->|]; [by rewrite fn_lookup_insert|by rewrite fn_lookup_insert_ne]. }
  assert (Hdisk : forall c, disk_of s' c = disk_of s c) by (intros c; unfold disk_of; by rewrite Hsec, Edev).
  assert (Hq0 : i0 ∉ L1 ++ vd_work (v_dev s) ++ L3) by (intros Hq; apply (queue_taken _ _ _ _ _ Hi) in Hq; tauto).
  assert (Hput : forall i, i ∈ taken s -> i <> i0 /\ i <> i1 /\ i <> i2 /\ 0 <= i < NUM).
  { intros i Ht. split_and!; try (intros ->; tauto); by apply (vi_range _ _ _ _ Hi). }
  assert (Hdesc : forall j, j <> i0 /\ j <> i1 /\ j <> i2 /\ 0 <= j < NUM -> v_desc s' @ j = v_desc s @ j).
  { clear -Ed H0 H1 H2. intros j Hj. rewrite Ed, !put_ne by lia. done. }
  pose proof Hi as Hi'. destruct Hi'. constructor; rewrite ?Ed, ?Ea, ?Eu, ?Ef, ?Eo, ?Es, ?Eop, ?Eai, ?Eue, ?Eui, ?Edev, ?length_put; try done.
  - rewrite Htk. apply NoDup_app. split_and!; [exact Hnd|exact Hfresh|done].
  - intros i. rewrite Htk, elem_of_app. intros [H|H]; [|by apply vi_range0]. rewrite !elem_of_cons in H. destruct H as [->|[->|[->|H]]]; try tauto. by apply not_elem_of_nil in H.
  - intros i Hr. rewrite Htk. destruct (decide (i ∈ [i0; i1; i2])) as [Hin|Hin].
    + split; [|intros H; exfalso; apply H; apply elem_of_app; by left]. rewrite !elem_of_cons in Hin. destruct Hin as [->|[->|[->|H]]]; [| | |by apply not_elem_of_nil in H].
      * rewrite !put_ne by lia. rewrite put_eq by (unfold NUM in *; lia). done.
      * rewrite put_ne by lia. rewrite put_eq by (rewrite ?length_put; unfold NUM in *; lia). done.
      * rewrite put_eq by (rewrite ?length_put; unfold NUM in *; lia). done.
    + rewrite not_elem_of_app. rewrite !put_ne by (lia || (intros ->; apply Hin; rewrite !elem_of_cons; tauto)). rewrite vi_free_iff0 by done. tauto.
  - intros n p Hn. apply Hlk in Hn as [[-> ->]|[Hn1 Hn]].
    + simpl. rewrite Hdata, Hdisk. split_and!; [exact Hwant| | |intros H; exfalso; apply H; set_solver].
      * unfold chain_ok. rewrite Ed, Eop, Eo, Hsec. rewrite put_ne, put_ne, put_eq by (rewrite ?length_put; unfold NUM in *; lia).
        rewrite put_ne, put_eq by (rewrite ?length_put; unfold NUM in *; lia). rewrite !put_eq by (rewrite ?length_put; unfold NUM in *; lia). by split_and!.
      * rewrite Eb, fn_lookup_insert. done.
    + pose proof (vi_proc0 n p Hn) as Hp. destruct p as [|c w a|c w j0 j1 j2 a]; simpl in Hp |- *; [done| |].
      * rewrite Hdata, Hdisk. destruct Hp as [Hp1 Hp2]. split; [done|]. intros Ha. rewrite Htk. specialize (Hp2 Ha). rewrite length_app. simpl. lia.
      * assert (Hj : forall j, j ∈ [j0; j1; j2] -> j <> i0 /\ j <> i1 /\ j <> i2 /\ 0 <= j < NUM) by (intros j Hj; apply Hput; by apply (elem_of_taken s n (NeedDone c w j0 j1 j2 a))).
        assert (Hj0 := Hj j0 ltac:(left)). assert (Hj1 := Hj j1 ltac:(right; left)). assert (Hj2 := Hj j2 ltac:(right; right; left)).
        rewrite Hdata, Hdisk. destruct Hp as (Hp1 & Hp2 & Hp3 & Hp4). pose proof (other_buf n _ c Hn1 Hn eq_refl) as Hcb. split_and!; [done| | |].
        -- unfold chain_ok in *. rewrite Eop, Eo, Hsec, !Hdesc by tauto. rewrite !put_ne by (clear -H0 Hj0; lia). done.
        -- rewrite Eb, fn_lookup_insert_ne by done. done.
        -- intros Hq. rewrite Es, put_ne by (clear -H0 Hj0; lia). apply Hp4. rewrite not_elem_of_app in Hq |- *. rewrite not_elem_of_app in Hq. tauto.
  - intros n n' p p' c c' Hn Hn' Hc Hc' Hne. rewrite !Hsec.
    apply Hlk in Hn as [[-> ->]|[Hn1 Hn]]; apply Hlk in Hn' as [[-> ->]|[Hn1' Hn']]; [done| | |].
    + simpl in Hc. injection Hc as <-. apply not_eq_sym. by apply (Hblock n' p').
    + simpl in Hc'. injection Hc' as <-. by apply (Hblock n p).
    + by apply (vi_blocks0 n n' p p').
  - apply ring_push; [done|done|]. assert (Hs : (length (i0 :: L1) <= 8)%nat); [|simpl in Hs; lia]. apply short_list.
    + apply NoDup_cons. split; [set_solver|]. by apply NoDup_app in vi_qdup0 as [? _].
    + intros x Hx. apply elem_of_cons in Hx as [->|Hx]; [tauto|]. apply vi_range0. apply (queue_taken _ _ _ _ _ Hi). set_solver.
  - rewrite <- app_assoc. simpl. rewrite <- Permutation_middle. apply NoDup_cons. done.
  - intros h. rewrite <- app_assoc. simpl. rewrite <- Permutation_middle, elem_of_cons, vi_queue0. split.
    + intros [->|(n & c & w & j1 & j2 & Hn)].
      * exists me, b, write, i1, i2. rewrite Ep. apply list_lookup_insert_eq. by apply lookup_lt_Some in Hme.
      * exists n, c, w, j1, j2. rewrite Ep, list_lookup_insert_ne; [done|]. intros ->. rewrite Hme in Hn. injection Hn as ->. done.
    + intros (n & c & w & j1 & j2 & Hn). apply Hlk in Hn as [[-> Hn]|[Hn1 Hn]]; [injection Hn as _ _ -> _ _; by left|]. right. by exists n, c, w, j1, j2.
Qed.

(** The two ways a start can end. *)
Lemma rw_try_inv : wp (rw_try (Z.of_nat me) b write) (fun _ s' =>
    (exists g, vinv L1 L3 s' want /\ (6 <= length (taken s))%nat /\ v_dev s' = v_dev s /\ v_procs s' = <[me := NeedDesc b write true]> (g (v_procs s)) /\
      (g (v_procs s) = v_procs s \/ g (v_procs s) = wake_free <$> v_procs s)) \/
    (exists i0 i1 i2, vinv (L1 ++ [i0]) L3 s' want /\ v_dev s' = v_dev s /\ v_procs s' = <[me := NeedDone b write i0 i1 i2 true]> (v_procs s))) s.
Proof.
  unfold rw_try. wp_step. apply alloc3_wp; [apply Hi|apply Hi| |].
  - intros i0 i1 i2 Hnd Hfr. wp_step. set (s1 := set_free _ s). eapply wp_mono; [apply submit_wp|].
    intros [] s2 (Ed & Ea & Eai & Eu & Eue & Ef & Eui & Eo & Es & Eop & Eb & Ep & Edev). wp_step. right. exists i0, i1, i2.
    split_and!; [|vsimp; by rewrite Edev|vsimp; unfold put; by rewrite Nat2Z.id, Ep].
    apply (try_submits i0 i1 i2 _ Hnd Hfr); vsimp; (assumption || (unfold put; by rewrite Nat2Z.id, Ep)).
  - intros l f g Hl Hfl Hf Hfd Hg. wp_step. left. exists g.
    assert (H6 : (6 <= length (taken s))%nat).
    { assert (H8 : (8 <= length l + length (taken s))%nat); [|lia]. apply counting. intros i Hr. destruct (decide (i ∈ taken s)) as [|Hn]; [by right|].
      left. apply Hfl; [done|]. by apply (vi_free_iff _ _ _ _ Hi). }
    split_and!; [by apply try_sleeps|done|done|vsimp; unfold put; by rewrite Nat2Z.id|done].
Qed.
End try.

(** ** Ending a request *)

Lemma free_chain_wp s b (write : bool) i0 i1 i2 : v_desc s @ i0 = Desc (A_op i0) 16 VRING_DESC_F_NEXT i1 ->
  v_desc s @ i1 = Desc (A_data b) BSIZE (Z.lor (if write then 0 else VRING_DESC_F_WRITE) VRING_DESC_F_NEXT) i2 ->
  v_desc s @ i2 = Desc (A_status i0) 1 VRING_DESC_F_WRITE 0 -> length (v_free s) = 8%nat -> length (v_desc s) = 8%nat ->
  NoDup [i0; i1; i2] -> (forall i, i ∈ [i0; i1; i2] -> 0 <= i < NUM /\ v_free s @ i = false) ->
  wp (free_chain i0) (fun _ s' => v_desc s' = put i2 desc0 (put i1 desc0 (put i0 desc0 (v_desc s))) /\ v_free s' = put i2 true (put i1 true (put i0 true (v_free s))) /\
    v_procs s' = wake_free <$> v_procs s /\ v_avail s' = v_avail s /\ v_avail_idx s' = v_avail_idx s /\ v_used s' = v_used s /\ v_used_end s' = v_used_end s /\
    v_used_idx s' = v_used_idx s /\ v_owner s' = v_owner s /\ v_status s' = v_status s /\ v_ops s' = v_ops s /\ v_bufs s' = v_bufs s /\ v_dev s' = v_dev s) s.
Proof.
  intros C0 C1 C2 Hlf Hld Hnd Hin. unfold free_chain. change (S (Z.to_nat NUM)) with 9%nat.
  assert (H0 := Hin i0 ltac:(left)). assert (H1 := Hin i1 ltac:(right; left)). assert (H2 := Hin i2 ltac:(right; right; left)).
  assert (Hne : i0 <> i1 /\ i0 <> i2 /\ i1 <> i2) by (rewrite !NoDup_cons in Hnd; set_solver). destruct Hne as (N01 & N02 & N12).
  apply wp_loop_S. unfold free_chain_body at 1. wp_step. wp_step. rewrite C0. wp_step. apply free_desc_wp; [tauto|tauto|]. wp_step. cbn [q_flags q_next].
  change (negb _) with true. cbv iota.
  apply wp_loop_S. unfold free_chain_body at 1. wp_step. wp_step. vsimp. rewrite put_ne by lia. rewrite C1.
  wp_step. apply free_desc_wp; [tauto|vsimp; rewrite put_ne by lia; tauto|]. wp_step. cbn [q_flags q_next].
  replace (negb (Z.land (Z.lor (if write then 0 else VRING_DESC_F_WRITE) VRING_DESC_F_NEXT) VRING_DESC_F_NEXT =? 0)) with true by (by destruct write). cbv iota.
  apply wp_loop_S. unfold free_chain_body at 1. wp_step. wp_step. vsimp. rewrite !put_ne by lia. rewrite C2.
  wp_step. apply free_desc_wp; [tauto|vsimp; rewrite !put_ne by lia; tauto|]. wp_step. cbn [q_flags q_next].
  change (negb _) with false. cbv iota. split_and!; try reflexivity. vsimp. by rewrite !wake_free_idem.
Qed.

Section finish.
Context (L1 L3 : list Z) (s : vst) (want : nat -> list Z) (Hi : vinv L1 L3 s want).
Context (me : nat) (b : Z) (write : bool) (i0 i1 i2 : Z) (Hme : v_procs s !! me = Some (NeedDone b write i0 i1 i2 false)).

Lemma finished_not_queued : i0 ∉ L1 ++ vd_work (v_dev s) ++ L3.
Proof.
  intros Hq. apply (vi_queue _ _ _ _ Hi) in Hq as (n & c & w & j1 & j2 & Hn).
  assert (n = me) as -> by (apply (taken_disjoint s n me _ _ i0 (vi_nodup _ _ _ _ Hi) Hn Hme); simpl; left). congruence.
Qed.

Lemma finish_taken (ps : list vproc) : idxs <$> ps = idxs <$> v_procs s -> taken s ≡ₚ [i0; i1; i2] ++ concat (idxs <$> <[me := Outside]> ps).
Proof.
  intros Hps. rewrite list_fmap_insert, Hps. assert (Hl : (idxs <$> v_procs s) !! me = Some [i0; i1; i2]) by (by rewrite list_lookup_fmap, Hme).
  unfold taken. rewrite (NoDup_concat_insert _ _ _ _ Hl). by rewrite (concat_lookup_Permutation _ _ _ Hl).
Qed.

Lemma finish_inv s' : v_desc s' = put i2 desc0 (put i1 desc0 (put i0 desc0 (v_desc s))) -> v_free s' = put i2 true (put i1 true (put i0 true (v_free s))) ->
  v_procs s' = <[me := Outside]> (wake_free <$> v_procs s) -> v_avail s' = v_avail s -> v_avail_idx s' = v_avail_idx s -> v_used s' = v_used s -> v_used_end s' = v_used_end s ->
  v_used_idx s' = v_used_idx s -> v_owner s' = put i0 None (v_owner s) -> v_status s' = v_status s -> v_ops s' = v_ops s -> v_bufs s' = v_bufs s -> v_dev s' = v_dev s ->
  vinv L1 L3 s' want.
Proof.
  intros Ed Ef Ep Ea Eai Eu Eue Eui Eo Es Eop Eb Edev.
  assert (Htk : taken s ≡ₚ [i0; i1; i2] ++ taken s') by (unfold taken at 2; rewrite Ep; apply finish_taken, wake_free_idxs).
  assert (Hnd : NoDup ([i0; i1; i2] ++ taken s')) by (rewrite <- Htk; apply Hi). apply NoDup_app in Hnd as (Hnd & Hdisj & Hnd').
  assert (Hrg : forall i, i ∈ [i0; i1; i2] -> 0 <= i < NUM) by (intros i H; apply (vi_range _ _ _ _ Hi); rewrite Htk; apply elem_of_app; by left).
  assert (H0 := Hrg i0 ltac:(left)). assert (H1 := Hrg i1 ltac:(right; left)). assert (H2 := Hrg i2 ltac:(right; right; left)).
  assert (Hlk : forall n p, v_procs s' !! n = Some p -> (n = me /\ p = Outside) \/ (n <> me /\ exists q, v_procs s !! n = Some q /\ p = wake_free q)).
  { intros n p Hn. rewrite Ep in Hn. apply list_lookup_insert_Some in Hn as [(-> & -> & _)|[Hne Hn]]; [by left|right]. split; [done|].
    rewrite list_lookup_fmap in Hn. destruct (v_procs s !! n) as [q|]; [|done]. exists q. split; [done|]. by injection Hn. }
  assert (Hout : forall n q i, n <> me -> v_procs s !! n = Some q -> i ∈ idxs q -> 0 <= i < NUM /\ i <> i0 /\ i <> i1 /\ i <> i2).
  { intros n q i Hne Hq Hii. split; [apply (vi_range _ _ _ _ Hi); by apply (elem_of_taken s n q)|].
    assert (Hx : i ∉ [i0; i1; i2]); [|rewrite !not_elem_of_cons in Hx; tauto]. intros Hx. apply Hne. by apply (taken_disjoint s n me q _ i (vi_nodup _ _ _ _ Hi) Hq Hme). }
  assert (Hsec : forall c, sector_of (v_bufs s' c) = sector_of (v_bufs s c)) by (intros c; by rewrite Eb).
  pose proof Hi as Hi'. destruct Hi'. constructor; rewrite ?Ed, ?Ea, ?Eu, ?Ef, ?Eo, ?Es, ?Eop, ?Eai, ?Eue, ?Eui, ?Edev, ?length_put; try done.
  - intros i Ht. apply vi_range0. rewrite Htk. apply elem_of_app. by right.
  - intros i Hr. destruct (decide (i ∈ [i0; i1; i2])) as [Hii|Hii].
    + split; [intros _; by apply Hdisj|intros _]. rewrite !elem_of_cons in Hii. destruct Hii as [->|[->|[->|H]]]; [| | |by apply not_elem_of_nil in H].
      * destruct (decide (i0 = i2)) as [<-|]; [apply put_eq; rewrite ?length_put; unfold NUM in *; lia|]. rewrite put_ne by lia.
        destruct (decide (i0 = i1)) as [<-|]; [apply put_eq; rewrite ?length_put; unfold NUM in *; lia|]. rewrite put_ne by lia. apply put_eq; rewrite ?length_put; unfold NUM in *; lia.
      * destruct (decide (i1 = i2)) as [<-|]; [apply put_eq; rewrite ?length_put; unfold NUM in *; lia|]. rewrite put_ne by lia. apply put_eq; rewrite ?length_put; unfold NUM in *; lia.
      * apply put_eq; rewrite ?length_put; unfold NUM in *; lia.
    + rewrite !put_ne by (lia || (intros ->; apply Hii; rewrite !elem_of_cons; tauto)). rewrite vi_free_iff0 by done. rewrite Htk, not_elem_of_app. tauto.
  - intros n p Hn. apply Hlk in Hn as [[-> ->]|(Hne & q & Hq & ->)]; [done|]. pose proof (vi_proc0 n q Hq) as Hp.
    pose proof (Hout n q) as Ho. destruct q as [|c w a|c w j0 j1 j2 a]; simpl in Hp |- *; [done| |].
    + unfold data_of, disk_of in *. rewrite Eb, Edev. split; [apply Hp|done].
    + assert (J0 := Ho j0 Hne Hq ltac:(left)). assert (J1 := Ho j1 Hne Hq ltac:(right; left)). assert (J2 := Ho j2 Hne Hq ltac:(right; right; left)). clear Ho.
      unfold data_of, disk_of, chain_ok in *. rewrite Eb, Edev, Ed, Eop, Eo, Es.
      rewrite !(put_ne i2), !(put_ne i1), !(put_ne i0) by (clear -H0 H1 H2 J0 J1 J2; lia). exact Hp.
  - intros n n' p p' c c' Hn Hn' Hc Hc' Hne. rewrite !Hsec.
    apply Hlk in Hn as [[-> ->]|(Hn1 & q & Hq & ->)]; [done|]. apply Hlk in Hn' as [[-> ->]|(Hn1' & q' & Hq' & ->)]; [done|].
    rewrite wake_free_buf in Hc, Hc'. by apply (vi_blocks0 n n' q q').
  - intros h. rewrite vi_queue0. split; intros (n & c & w & j1 & j2 & Hn); exists n, c, w, j1, j2.
    + rewrite Ep, list_lookup_insert_ne, list_lookup_fmap, Hn by (intros ->; rewrite Hme in Hn; congruence). done.
    + apply Hlk in Hn as [[-> ?]|(Hne & q & Hq & Hp)]; [done|]. by destruct q; simplify_eq/=.
Qed.

(** A request whose flag is down has been carried out, and ends. *)
Lemma resume_done : data_of s b = want me /\ disk_of s b = want me /\
  wp (virtio_disk_rw_resume (Z.of_nat me)) (fun _ s' => vinv L1 L3 s' want /\ v_procs s' = <[me := Outside]> (wake_free <$> v_procs s) /\
    v_bufs s' = v_bufs s /\ v_dev s' = v_dev s) s.
Proof.
  pose proof (vi_proc _ _ _ _ Hi me _ Hme) as (_ & Hch & Hfl & Hdone). simpl in Hfl.
  pose proof finished_not_queued as Hnq. destruct Hdone as (_ & Hd1 & Hd2); [rewrite not_elem_of_app in Hnq |- *; rewrite not_elem_of_app in Hnq; tauto|].
  split_and!; [done|done|]. pose proof (finish_taken (v_procs s) eq_refl) as Htk.
  assert (Hin : forall i, i ∈ [i0; i1; i2] -> i ∈ taken s) by (intros i H; by apply (elem_of_taken s me _ i Hme)).
  assert (Hnd : NoDup [i0; i1; i2]) by (pose proof (vi_nodup _ _ _ _ Hi) as H; rewrite Htk in H; by apply NoDup_app in H as [? _]).
  unfold virtio_disk_rw_resume. wp_step. wp_step. rewrite Nat2Z.id, Hme. wp_step. wp_step. rewrite Hfl. cbn [b2z Z.eqb]. wp_step. wp_step. wp_step.
  destruct Hch as (C0 & C1 & C2 & _). eapply wp_mono; [apply (free_chain_wp _ b write i0 i1 i2); vsimp; try done; try apply Hi|].
  { intros i H. by apply (taken_not_free L1 L3 s want Hi), Hin. }
  intros [] s1 (Ed & Ef & Ep & Ea & Eai & Eu & Eue & Eui & Eo & Es & Eop & Eb & Edev). vsimp. wp_step.
  split_and!; [|vsimp; unfold put; by rewrite Nat2Z.id, Ep|vsimp; done|vsimp; done].
  set (s2 := set_procs _ s1). assert (Ep2 : v_procs s2 = <[me := Outside]> (wake_free <$> v_procs s)) by (unfold s2; vsimp; unfold put; by rewrite Nat2Z.id, Ep).
  apply (finish_inv s2); unfold s2; vsimp; try done.
Qed.
End finish.

(** ** The device *)

Section device.
Context (L1 L3 : list Z) (s : vst) (want : nat -> list Z) (Hi : vinv L1 L3 s want).

Lemma queue_short : (length (L1 ++ vd_work (v_dev s) ++ L3) <= 8)%nat.
Proof. apply short_list; [apply Hi|]. intros x Hx. apply (vi_range _ _ _ _ Hi). by apply (queue_taken L1 L3 s want). Qed.

Lemma fetch_inv : enabled s Fetch = true -> wp dev_fetch (fun _ s' => exists h L1', L1 = h :: L1' /\ vinv L1' L3 s' want /\ v_procs s' = v_procs s /\
  vd_work (v_dev s') = vd_work (v_dev s) ++ [h] /\ vd_irq (v_dev s') = vd_irq (v_dev s)) s.
Proof.
  intros He. cbn [enabled] in He. pose proof queue_short as Hq. rewrite !length_app in Hq. rewrite (ring_nonempty _ _ _ _ (vi_ring1 _ _ _ _ Hi)) in He by lia.
  destruct L1 as [|h L1'] eqn:EL; [done|]. destruct (ring_pop _ _ _ _ _ (vi_ring1 _ _ _ _ Hi)) as [Hh Hr]. unfold dev_fetch. wp_step.
  exists h, L1'. vsimp. cbn [vd_work vd_disk]. rewrite Hh. split_and!; try done.
  set (s' := set_dev _ s). assert (Hperm : L1' ++ vd_work (v_dev s') ++ L3 ≡ₚ h :: L1' ++ vd_work (v_dev s) ++ L3).
  { unfold s'. vsimp. cbn [vd_work]. rewrite Hh. rewrite <- app_assoc. simpl. rewrite app_assoc, <- Permutation_middle. by rewrite app_assoc. }
  assert (Hperm2 : L1' ++ vd_work (v_dev s') ≡ₚ h :: L1' ++ vd_work (v_dev s)).
  { unfold s'. vsimp. cbn [vd_work]. rewrite Hh. rewrite app_assoc. by rewrite <- Permutation_cons_append. }
  destruct Hi. constructor; try done.
  - intros n p Hn. specialize (vi_proc0 n p Hn). destruct p as [| |c w j0 j1 j2 a]; [done|done|]. cbn [proc_ok] in vi_proc0 |- *.
    destruct vi_proc0 as (P1 & P2 & P3 & P4). split_and!; [done|done|done|]. intros Hq'. apply P4. rewrite Hperm2 in Hq'. exact Hq'.
  - rewrite Hperm. exact vi_qdup0.
  - intros h'. rewrite Hperm. apply vi_queue0.
Qed.

(** The transfer of one chain. *)
Lemma transfer_ok n b write i0 i1 i2 : v_procs s !! n = Some (NeedDone b write i0 i1 i2 true) ->
  dev_transfer i0 s = if write then set_status (put i0 0) (set_dev (fun d => Vdev (vd_seen d) (vd_work d) (vd_irq d) (<[sector_of (v_bufs s b) := vb_data (v_bufs s b)]> (vd_disk d))) s)
    else set_status (put i0 0) (set_bufs (fun bufs => <[b := Vbuf (vb_blockno (bufs b)) (vd_disk (v_dev s) (sector_of (v_bufs s b))) (vb_disk (bufs b))]> bufs) s).
Proof.
  intros Hn. pose proof (vi_proc _ _ _ _ Hi n _ Hn) as (_ & (C0 & C1 & C2 & C3 & _) & _). unfold dev_transfer. rewrite C0. cbn [q_next q_addr]. rewrite C1. cbn [q_next q_addr]. rewrite C2. cbn [q_addr].
  rewrite C3. destruct write; reflexivity.
Qed.

Definition other (h : Z) (l : list Z) : list Z := filter (fun x => x <> h) l.

Lemma work_perm h : h ∈ vd_work (v_dev s) -> vd_work (v_dev s) ≡ₚ h :: other h (vd_work (v_dev s)).
Proof.
  intros Hh. assert (Hnd : NoDup (vd_work (v_dev s))) by (pose proof (vi_qdup _ _ _ _ Hi) as H; apply NoDup_app in H as (_ & _ & H); by apply NoDup_app in H as [? _]).
  apply NoDup_Permutation; [done| |].
  - apply NoDup_cons. split; [intros H; apply list_elem_of_filter in H; tauto|by apply NoDup_filter].
  - intros x. unfold other. rewrite elem_of_cons, list_elem_of_filter. destruct (decide (x = h)) as [->|]; tauto.
Qed.

(** What the transfer leaves, for both directions. *)
Lemma complete_wp n b write h i1 i2 : v_procs s !! n = Some (NeedDone b write h i1 i2 true) ->
  wp (dev_complete h) (fun _ s' => v_desc s' = v_desc s /\ v_avail s' = v_avail s /\ v_avail_idx s' = v_avail_idx s /\ v_free s' = v_free s /\ v_used_idx s' = v_used_idx s /\
    v_owner s' = v_owner s /\ v_ops s' = v_ops s /\ v_procs s' = v_procs s /\ v_used s' = put (v_used_end s mod NUM) h (v_used s) /\ v_used_end s' = u16 (v_used_end s + 1) /\
    v_status s' = put h 0 (v_status s) /\ vd_seen (v_dev s') = vd_seen (v_dev s) /\ vd_work (v_dev s') = other h (vd_work (v_dev s)) /\ vd_irq (v_dev s') = true /\
    (forall c, vb_blockno (v_bufs s' c) = vb_blockno (v_bufs s c) /\ vb_disk (v_bufs s' c) = vb_disk (v_bufs s c)) /\
    (forall c, sector_of (v_bufs s c) <> sector_of (v_bufs s b) -> data_of s' c = data_of s c /\ disk_of s' c = disk_of s c) /\
    data_of s' b = (if write then data_of s b else disk_of s b) /\ disk_of s' b = (if write then data_of s b else disk_of s b)) s.
Proof.
  intros Hn. unfold dev_complete. wp_step. wp_step. rewrite (transfer_ok n b write h i1 i2 Hn). wp_step. wp_step. wp_step.
  destruct write; (split_and!; try reflexivity); unfold data_of, disk_of; vsimp; cbn [vd_disk vd_seen vd_work vd_irq]; try done.
  - intros c Hc. split; [done|]. by rewrite fn_lookup_insert_ne.
  - by rewrite fn_lookup_insert.
  - intros c. destruct (decide (c = b)) as [->|]; [by rewrite fn_lookup_insert|by rewrite fn_lookup_insert_ne].
  - intros c Hc. rewrite fn_lookup_insert_ne by congruence. done.
  - by rewrite fn_lookup_insert.
  - by rewrite fn_lookup_insert.
Qed.

Lemma complete_inv h : enabled s (Complete h) = true -> wp (dev_complete h) (fun _ s' => h ∈ vd_work (v_dev s) /\ vinv L1 (L3 ++ [h]) s' want /\ v_procs s' = v_procs s /\
  vd_work (v_dev s') = other h (vd_work (v_dev s)) /\ vd_irq (v_dev s') = true) s.
Proof.
  intros He. cbn [enabled] in He. apply existsb_exists in He as (h' & Hin & Heq). apply Z.eqb_eq in Heq as <-. apply list_elem_of_In in Hin.
  assert (Hq : h ∈ L1 ++ vd_work (v_dev s) ++ L3) by (rewrite !elem_of_app; tauto).
  apply (vi_queue _ _ _ _ Hi) in Hq as (n & b & write & i1 & i2 & Hn). eapply wp_mono; [exact (complete_wp n b write h i1 i2 Hn)|].
  intros [] s' (Ed & Ea & Eai & Ef & Eui & Eo & Eop & Ep & Eu & Eue & Es & Esn & Ew & Eirq & Hbuf & Hoth & Hdb & Hkb). split_and!; [done| |done|done|done].
  pose proof (work_perm h Hin) as Hwp.
  assert (Hperm : L1 ++ other h (vd_work (v_dev s)) ++ L3 ++ [h] ≡ₚ L1 ++ vd_work (v_dev s) ++ L3).
  { rewrite Hwp at 2. rewrite (app_assoc (other _ _)), <- Permutation_cons_append. done. }
  assert (Hrest : forall x, x <> h -> x ∉ L1 ++ other h (vd_work (v_dev s)) -> x ∉ L1 ++ vd_work (v_dev s)).
  { intros x Hx. unfold other. rewrite !not_elem_of_app, list_elem_of_filter. tauto. }
  assert (Hsec : forall c, sector_of (v_bufs s' c) = sector_of (v_bufs s c)) by (intros c; unfold sector_of; by rewrite (proj1 (Hbuf c))).
  assert (Htk : taken s' = taken s) by (unfold taken; by rewrite Ep).
  assert (H0 : 0 <= h < NUM) by (apply (vi_range _ _ _ _ Hi), (elem_of_taken s n _ h Hn); left).
  pose proof queue_short as Hshort. pose proof Hi as Hi'.
  destruct Hi'. constructor; rewrite ?Ed, ?Ea, ?Eu, ?Ef, ?Eo, ?Es, ?Eop, ?Eai, ?Eue, ?Eui, ?Ep, ?Esn, ?Ew, ?Htk, ?length_put; try done.
  - intros m p Hm. pose proof (vi_proc0 m p Hm) as Hp. destruct (decide (m = n)) as [->|Hmn].
    + rewrite Hn in Hm. injection Hm as <-. cbn [proc_ok] in Hp |- *. unfold chain_ok in *. rewrite Ed, Eop, Eo, Hsec, (proj2 (Hbuf b)), Hdb, Hkb, Es. rewrite put_eq by (unfold NUM in *; lia).
      destruct Hp as (P1 & P2 & P3 & P4). split_and!; try done; try tauto. by destruct write.
    + destruct p as [|c w a|c w j0 j1 j2 a]; [done| |]; cbn [proc_ok] in Hp |- *.
      * assert (Hne : sector_of (v_bufs s c) <> sector_of (v_bufs s b)) by (by apply (vi_blocks0 m n _ _ c b Hm Hn)). destruct (Hoth c Hne) as [-> ->]. by rewrite Htk.
      * assert (Hne : sector_of (v_bufs s c) <> sector_of (v_bufs s b)) by (by apply (vi_blocks0 m n _ _ c b Hm Hn)). destruct (Hoth c Hne) as [-> ->].
        assert (Hj : j0 <> h) by (intros ->; apply Hmn; apply (taken_disjoint s m n _ _ h vi_nodup0 Hm Hn); left).
        assert (0 <= j0) by (apply vi_range0, (elem_of_taken s m _ j0 Hm); left).
        unfold chain_ok in *. rewrite Ed, Eop, Eo, Hsec, (proj2 (Hbuf c)), Es. rewrite put_ne by lia. destruct Hp as (P1 & P2 & P3 & P4). split_and!; try done; try tauto.
        all: intros Hx; apply P4; by apply Hrest.
  - intros m m' p p' c c' Hm Hm' Hc Hc' Hmm. rewrite !Hsec. by apply (vi_blocks0 m m' p p').
  - apply ring_push; [done|done|]. rewrite !length_app, Hwp in Hshort. simpl in Hshort. lia.
  - by rewrite Hperm.
  - intros x. rewrite Hperm. apply vi_queue0.
Qed.
End device.

(** ** Interrupts *)

(** How far a process is from the end of its request. *)
Definition weight (p : vproc) : nat :=
  match p with
  | Outside => 0
  | NeedDesc _ _ _ => 6
  | NeedDone _ _ _ _ _ asleep => if asleep then 2 else 1
  end.
Definition weights (s : vst) : nat := sum_list (weight <$> v_procs s).

Lemma sum_list_insert (l : list nat) i x y : l !! i = Some x -> (sum_list (<[i := y]> l) + x = sum_list l + y)%nat.
Proof.
  revert i. induction l as [|z l IH]; intros [|i] Hx; simplify_eq/=; [lia|]. specialize (IH i Hx). lia.
Qed.
Lemma weights_insert s me p p' (ps : list vproc) : v_procs s !! me = Some p -> weight <$> ps = weight <$> v_procs s ->
  (sum_list (weight <$> <[me := p']> ps) + weight p = weights s + weight p')%nat.
Proof. intros Hp Hps. rewrite list_fmap_insert, Hps. apply sum_list_insert. by rewrite list_lookup_fmap, Hp. Qed.
Lemma wake_free_weights (ps : list vproc) : weight <$> (wake_free <$> ps) = weight <$> ps.
Proof. rewrite <- list_fmap_compose. apply list_fmap_ext. by intros i [] _. Qed.

Section intr.
Context (L1 : list Z) (want : nat -> list Z).

(** The wakeup reaches the process of the buffer and no other. *)
Lemma wake_one L3 s n b write i0 i1 i2 : vinv L1 L3 s want -> v_procs s !! n = Some (NeedDone b write i0 i1 i2 true) ->
  wake_buf b <$> v_procs s = <[n := NeedDone b write i0 i1 i2 false]> (v_procs s).
Proof.
  intros Hi Hn. apply list_eq. intros m. rewrite list_lookup_fmap. destruct (decide (m = n)) as [->|Hmn].
  - rewrite Hn, list_lookup_insert_eq by (by apply lookup_lt_Some in Hn). simpl. by rewrite Z.eqb_refl.
  - rewrite list_lookup_insert_ne by done. destruct (v_procs s !! m) as [q|] eqn:Hq; [|done]. simpl. f_equal. destruct q as [|c w a|c w j0 j1 j2 a]; [done|done|]. simpl.
    assert (c <> b) by (intros ->; by apply (vi_blocks _ _ _ _ Hi m n _ _ b b Hq Hn)). replace (c =? b) with false by (symmetry; by apply Z.eqb_neq). by rewrite andb_true_r.
Qed.

Lemma intr_pop_inv h L3 s s' n b write i1 i2 : vinv L1 (h :: L3) s want -> v_procs s !! n = Some (NeedDone b write h i1 i2 true) ->
  v_desc s' = v_desc s -> v_avail s' = v_avail s -> v_avail_idx s' = v_avail_idx s -> v_used s' = v_used s -> v_used_end s' = v_used_end s -> v_free s' = v_free s ->
  v_used_idx s' = u16 (v_used_idx s + 1) -> v_owner s' = v_owner s -> v_status s' = v_status s -> v_ops s' = v_ops s ->
  v_bufs s' = <[b := set_disk_flag 0 (v_bufs s b)]> (v_bufs s) -> v_procs s' = <[n := NeedDone b write h i1 i2 false]> (v_procs s) -> v_dev s' = v_dev s ->
  vinv L1 L3 s' want.
Proof.
  intros Hi Hn Ed Ea Eai Eu Eue Ef Eui Eo Es Eop Eb Ep Edev.
  assert (Htk : taken s' = taken s).
  { unfold taken. rewrite Ep, list_fmap_insert. f_equal. apply list_insert_id. by rewrite list_lookup_fmap, Hn. }
  assert (Hlk : forall m p, v_procs s' !! m = Some p -> (m = n /\ p = NeedDone b write h i1 i2 false) \/ (m <> n /\ v_procs s !! m = Some p)).
  { intros m p Hm. rewrite Ep in Hm. apply list_lookup_insert_Some in Hm as [(-> & -> & _)|[? ?]]; [by left|by right]. }
  assert (Hbuf : forall c, sector_of (v_bufs s' c) = sector_of (v_bufs s c) /\ data_of s' c = data_of s c /\ (c <> b -> vb_disk (v_bufs s' c) = vb_disk (v_bufs s c))).
  { intros c. unfold data_of. rewrite Eb. destruct (decide (c = b)) as [->|]; [by rewrite fn_lookup_insert|by rewrite fn_lookup_insert_ne]. }
  assert (Hdisk : forall c, disk_of s' c = disk_of s c) by (intros c; unfold disk_of; by rewrite Edev, (proj1 (Hbuf c))).
  pose proof (vi_qdup _ _ _ _ Hi) as Hqd. rewrite app_assoc, <- Permutation_middle, <- app_assoc in Hqd. apply NoDup_cons in Hqd as [Hh Hqd].
  destruct (ring_pop _ _ _ _ _ (vi_ring3 _ _ _ _ Hi)) as [_ Hr]. pose proof Hi as Hi'.
  destruct Hi'. constructor; rewrite ?Ed, ?Ea, ?Eu, ?Ef, ?Eo, ?Es, ?Eop, ?Eai, ?Eue, ?Eui, ?Htk, ?Edev; try done.
  - intros m p Hm. apply Hlk in Hm as [[-> ->]|[Hmn Hm]].
    + pose proof (vi_proc0 n _ Hn) as Hp. cbn [proc_ok] in Hp |- *. unfold chain_ok in *. destruct (Hbuf b) as (-> & -> & _). rewrite Hdisk, Ed, Eop, Eo, Es.
      destruct Hp as (P1 & P2 & P3 & P4). split_and!; try done; try tauto. by rewrite Eb, fn_lookup_insert.
    + pose proof (vi_proc0 m _ Hm) as Hp. destruct p as [|c w a|c w j0 j1 j2 a]; [done| |]; cbn [proc_ok] in Hp |- *; unfold chain_ok in *; destruct (Hbuf c) as (Hc1 & -> & Hc3).
      * by rewrite Hdisk, Htk.
      * rewrite Hdisk, Ed, Eop, Eo, Es, Hc1, Hc3; [done|]. intros ->. by apply (vi_blocks0 m n _ _ b b Hm Hn).
  - intros m m' p p' c c' Hm Hm' Hc Hc' Hmm. rewrite (proj1 (Hbuf c)), (proj1 (Hbuf c')).
    apply Hlk in Hm as [[-> ->]|[Hmn Hm]]; apply Hlk in Hm' as [[-> ->]|[Hmn' Hm']]; [done| | |].
    + by apply (vi_blocks0 n m' (NeedDone b write h i1 i2 true) p').
    + by apply (vi_blocks0 m n p (NeedDone b write h i1 i2 true)).
    + by apply (vi_blocks0 m m' p p').
  - intros x. split.
    + intros Hx. assert (Hxh : x <> h) by (intros ->; done).
      assert (Hx' : x ∈ L1 ++ vd_work (v_dev s) ++ h :: L3) by (rewrite !elem_of_app in Hx |- *; rewrite elem_of_cons; tauto).
      apply vi_queue0 in Hx' as (m & c & w & j1 & j2 & Hm). exists m, c, w, j1, j2. rewrite Ep, list_lookup_insert_ne; [done|]. intros ->. rewrite Hn in Hm. congruence.
    + intros (m & c & w & j1 & j2 & Hm). apply Hlk in Hm as [[-> ?]|[Hmn Hm]]; [done|].
      assert (Hx' : x ∈ L1 ++ vd_work (v_dev s) ++ h :: L3) by (apply vi_queue0; by exists m, c, w, j1, j2).
      assert (x <> h) by (intros ->; apply Hmn; apply (taken_disjoint s m n _ _ h vi_nodup0 Hm Hn); left).
      rewrite !elem_of_app, elem_of_cons in Hx'. rewrite !elem_of_app. tauto.
Qed.

Lemma intr_loop_inv fuel : forall L3 s, vinv L1 L3 s want -> (length L3 < fuel)%nat ->
  wp (loop fuel intr_body tt) (fun _ s' => vinv L1 [] s' want /\ v_dev s' = v_dev s /\ (weights s' + length L3 = weights s)%nat) s.
Proof.
  induction fuel as [|fuel IH]; intros L3 s Hi Hl; [lia|]. apply wp_loop_S. unfold intr_body at 1. wp_step. wp_step.
  pose proof (queue_short L1 L3 s want Hi) as Hq. rewrite !length_app in Hq. rewrite (ring_nonempty _ _ _ _ (vi_ring3 _ _ _ _ Hi)) by lia.
  destruct L3 as [|h L3].
  - rewrite bool_decide_eq_true_2 by done. wp_step. split_and!; [done|done|simpl; lia].
  - rewrite bool_decide_eq_false_2 by done. destruct (ring_pop _ _ _ _ _ (vi_ring3 _ _ _ _ Hi)) as [-> _].
    assert (Hin : h ∈ L1 ++ vd_work (v_dev s) ++ h :: L3) by (rewrite !elem_of_app, elem_of_cons; tauto).
    apply (vi_queue _ _ _ _ Hi) in Hin as (n & b & write & i1 & i2 & Hn).
    pose proof (vi_qdup _ _ _ _ Hi) as Hqd. rewrite app_assoc, <- Permutation_middle in Hqd. apply NoDup_cons in Hqd as [Hh _].
    pose proof (vi_proc _ _ _ _ Hi n _ Hn) as (_ & (_ & _ & _ & _ & Ho) & _ & Hd). destruct Hd as (Hst & _); [rewrite not_elem_of_app in Hh; tauto|].
    rewrite Hst, Ho. cbn [Z.eqb negb]. wp_step. wp_step. wp_step. wp_step. wp_step. wp_step. wp_step.
    set (s' := set_used_idx _ _). assert (Ep : v_procs s' = <[n := NeedDone b write h i1 i2 false]> (v_procs s)) by (unfold s'; vsimp; by apply (wake_one (h :: L3))).
    eapply wp_mono; [apply (IH L3 s')|].
    + apply (intr_pop_inv h L3 s s' n b write i1 i2); (done || exact Ep).
    + simpl in Hl. lia.
    + intros [] s2 (Hi2 & Hd2 & Hw2). split_and!; [done|by rewrite Hd2|].
      pose proof (weights_insert s n _ (NeedDone b write h i1 i2 false) (v_procs s) Hn eq_refl) as Hw. simpl in Hw. unfold weights in Hw2 at 2. rewrite Ep in Hw2. simpl. lia.
Qed.

Lemma virtio_disk_intr_inv L3 s : vinv L1 L3 s want -> wp virtio_disk_intr (fun _ s' => vinv L1 [] s' want /\ vd_work (v_dev s') = vd_work (v_dev s) /\ (weights s' + length L3 = weights s)%nat) s.
Proof.
  intros Hi. unfold virtio_disk_intr. wp_step. wp_step. wp_step. wp_step.
  assert (Hi1 : vinv L1 L3 (set_dev (fun d => Vdev (vd_seen d) (vd_work d) false (vd_disk d)) s) want) by (destruct Hi; by constructor).
  eapply wp_mono; [apply (intr_loop_inv _ L3 _ Hi1)|].
  - change (length L3 < S (Z.to_nat (u16 (v_used_end s - v_used_idx s))))%nat. destruct (vi_ring3 _ _ _ _ Hi) as (Hr & -> & _). pose proof (queue_short L1 L3 s want Hi) as Hq. rewrite !length_app in Hq. unfold u16. dlia.
  - intros [] s' (H1 & H2 & H3). split_and!; [done|by rewrite H2|exact H3].
Qed.
End intr.

(** ** The system *)

(** [want] is updated by a call: with what is to be written, or what is on
    the disk. *)
Definition wanted (s : vst) (b : Z) (write : bool) : list Z := if write then data_of s b else disk_of s b.
Definition next_want (s : vst) (e : vevent) (want : nat -> list Z) : nat -> list Z :=
  match e with
  | Call me b write => <[Z.to_nat me := wanted s b write]> want
  | _ => want
  end.

(** The start: [virtio_disk_init] has run, and no process is in the driver. *)
Definition initial (s : vst) : Prop :=
  exists R pages l s0, virtio_disk_init R pages s0 = Ok l s /\
    v_used_idx s0 = 0 /\ length (v_owner s0) = 8%nat /\ length (v_status s0) = 8%nat /\ length (v_ops s0) = 8%nat /\
    Forall (fun p => p = Outside) (v_procs s0) /\ vd_seen (v_dev s0) = 0 /\ vd_work (v_dev s0) = [].

Inductive reach : vst -> (nat -> list Z) -> Prop :=
| reach_start s want : initial s -> reach s want
| reach_step s want e s' : reach s want -> enabled s e = true -> act e s = Ok tt s' -> reach s' (next_want s e want).

Definition inv (s : vst) (want : nat -> list Z) : Prop :=
  exists L1 L3, vinv L1 L3 s want /\ (L3 <> [] -> vd_irq (v_dev s) = true).

Lemma initial_inv s want : initial s -> inv s want.
Proof.
  intros (R & pages & l & s0 & Hr & H1 & H2 & H3 & H4 & H5 & H6 & H7). exists [], []. split; [|done].
  assert (Hw : wp (virtio_disk_init R pages) (fun _ s' => v_desc s' = replicate 8 desc0 /\ v_avail s' = replicate 8 0 /\ v_avail_idx s' = 0 /\ v_used s' = replicate 8 0 /\ v_used_end s' = 0 /\
    v_free s' = replicate 8 true /\ v_used_idx s' = v_used_idx s0 /\ v_owner s' = v_owner s0 /\ v_status s' = v_status s0 /\ v_ops s' = v_ops s0 /\ v_procs s' = v_procs s0 /\ v_dev s' = v_dev s0) s0).
  { revert Hr. unfold virtio_disk_init. case_bool_; [done|]. cbn zeta. case_bool_; [done|]. case_bool_; [done|]. intros _. repeat wp_step. split_and!; reflexivity. }
  unfold wp in Hw. rewrite Hr in Hw. destruct Hw as (Ed & Ea & Eai & Eu & Eue & Ef & Eui & Eo & Es & Eop & Ep & Edev).
  assert (Hout : forall n p, v_procs s !! n = Some p -> p = Outside) by (rewrite Ep; intros n p Hn; by apply (Forall_lookup_1 _ _ _ _ H5 Hn)).
  assert (Htk : taken s = []).
  { unfold taken. rewrite Ep. clear -H5. induction H5 as [|p ps -> _ IH]; [done|]. exact IH. }
  constructor; rewrite ?Ed, ?Ea, ?Eai, ?Eu, ?Eue, ?Ef, ?Eui, ?Eo, ?Es, ?Eop, ?Edev, ?Htk, ?H1, ?H6, ?H7; try done; try (split_and!; done).
  - constructor.
  - intros i Hi. by apply not_elem_of_nil in Hi.
  - intros i Hi. rewrite lookup_total_replicate_2 by (unfold NUM in *; lia). split; [intros _; apply not_elem_of_nil|done].
  - intros n p Hn. by rewrite (Hout n p Hn).
  - intros n n' p p' b b' Hn. rewrite (Hout n p Hn). done.
  - constructor.
  - intros h. split; [intros Hh; by apply not_elem_of_nil in Hh|]. intros (n & b & w & i1 & i2 & Hn). apply Hout in Hn. done.
Qed.

(** Every step that can be taken ends without a panic and keeps the
    invariant. *)
Lemma act_inv s want e : inv s want -> enabled s e = true -> wp (act e) (fun _ s' => inv s' (next_want s e want)) s.
Proof.
  intros (L1 & L3 & Hi & Hirq) He. destruct e as [me b write|me| |h|]; cbn [act next_want].
  - cbn [enabled] in He. destruct (v_procs s !! Z.to_nat me) as [p|] eqn:Hp; [|done]. destruct p; try done. breflect. rewrite forallb_forall in H0.
    set (want' := <[Z.to_nat me := wanted s b write]> want).
    assert (Hi' : vinv L1 L3 s want').
    { destruct Hi. constructor; try done. intros n p Hn. destruct (decide (n = Z.to_nat me)) as [->|]; [rewrite Hp in Hn; by injection Hn as <-|].
      unfold want'. rewrite fn_lookup_insert_ne by done. by apply vi_proc0. }
    unfold virtio_disk_rw. replace me with (Z.of_nat (Z.to_nat me)) by lia.
    eapply wp_mono; [apply (rw_try_inv L1 L3 s want' Hi' (Z.to_nat me) Outside b write Hp eq_refl)|].
    + unfold want'. by rewrite fn_lookup_insert.
    + intros n p b' Hn Hq Hb. specialize (H0 p). rewrite Hb in H0. assert (Hx : negb (sector_of (v_bufs s b') =? sector_of (v_bufs s b)) = true).
      { apply H0. apply list_elem_of_In. by apply list_elem_of_lookup_2 with n. } breflect. done.
    + intros [] s' [(g & Hv & _ & Hd & _)|(i0 & i1 & i2 & Hv & Hd & _)]; eexists _, L3; (split; [exact Hv|]); by rewrite Hd.
  - cbn [enabled] in He. breflect. destruct (v_procs s !! Z.to_nat me) as [p|] eqn:Hp; [|done]. destruct p as [|b write a|b write i0 i1 i2 a]; [done| |]; destruct a; try done.
    + unfold virtio_disk_rw_resume. wp_step. wp_step. rewrite Hp. replace me with (Z.of_nat (Z.to_nat me)) by lia.
      eapply wp_mono; [apply (rw_try_inv L1 L3 s want Hi (Z.to_nat me) _ b write Hp eq_refl)|].
      * by apply (vi_proc _ _ _ _ Hi _ _ Hp).
      * intros n p b' Hn Hq Hb. by apply (vi_blocks _ _ _ _ Hi n (Z.to_nat me) p _ b' b Hq Hp).
      * intros [] s' [(g & Hv & _ & Hd & _)|(j0 & j1 & j2 & Hv & Hd & _)]; eexists _, L3; (split; [exact Hv|]); by rewrite Hd.
    + destruct (resume_done L1 L3 s want Hi _ b write i0 i1 i2 Hp) as (_ & _ & Hw). replace me with (Z.of_nat (Z.to_nat me)) by lia.
      eapply wp_mono; [exact Hw|]. intros [] s' (Hv & _ & _ & Hd). exists L1, L3. split; [done|by rewrite Hd].
  - eapply wp_mono; [by apply (fetch_inv L1 L3 s want Hi)|]. intros [] s' (h & L1' & -> & Hv & _ & _ & Hq). exists L1', L3. by rewrite Hq.
  - eapply wp_mono; [by apply (complete_inv L1 L3 s want Hi)|]. intros [] s' (_ & Hv & _ & _ & Hq). by exists L1, (L3 ++ [h]).
  - eapply wp_mono; [by apply (virtio_disk_intr_inv L1 want L3)|]. intros [] s' (Hv & _). by exists L1, [].
Qed.

Lemma reach_inv s want : reach s want -> inv s want.
Proof.
  induction 1 as [s want Hs|s want e s' _ IH He Ha]; [by apply initial_inv|]. pose proof (act_inv s want e IH He) as Hw. unfold wp in Hw. by rewrite Ha in Hw.
Qed.

(** C28: with any number of processes, and for every order of calls, device
    steps and interrupts, no code of the driver panics or runs away, and a
    process that is woken up after its request returns, with the block on the
    disk and in its buffer equal to what it had put in the buffer for a write,
    or to what was on the disk for a read. *)
Theorem virtio_disk_rw_transfers s want : reach s want ->
  (forall e, enabled s e = true -> wp (act e) (fun _ _ => True) s) /\
  (forall me b write i0 i1 i2, v_procs s !! me = Some (NeedDone b write i0 i1 i2 false) ->
    wp (virtio_disk_rw_resume (Z.of_nat me)) (fun _ s' => v_procs s' !! me = Some Outside /\ data_of s' b = want me /\ disk_of s' b = want me) s).
Proof.
  intros Hr. pose proof (reach_inv s want Hr) as Hi. split.
  - intros e He. eapply wp_mono; [by apply (act_inv s want e)|]. done.
  - intros me b write i0 i1 i2 Hme. destruct Hi as (L1 & L3 & Hi & _). destruct (resume_done L1 L3 s want Hi me b write i0 i1 i2 Hme) as (Hd & Hk & Hw).
    eapply wp_mono; [exact Hw|]. intros [] s' (_ & Hp & Hb & Hdev). unfold data_of, disk_of in *. rewrite Hp, Hb, Hdev. split_and!; [|done|done].
    apply list_lookup_insert_eq. rewrite length_fmap. by apply lookup_lt_Some in Hme.
Qed.

(** ** No deadlock *)

(** Steps other than calls lead to a state with no process in the driver. *)
Inductive drains : vst -> Prop :=
| drained s : Forall (fun p => p = Outside) (v_procs s) -> drains s
| drain_step s e s' : (forall me b write, e <> Call me b write) -> enabled s e = true -> act e s = Ok tt s' -> drains s' -> drains s.

Lemma find_proc (f : vproc -> bool) (ps : list vproc) : (exists n p, ps !! n = Some p /\ f p = true) \/ (forall n p, ps !! n = Some p -> f p = false).
Proof.
  destruct (existsb f ps) eqn:E.
  - left. apply existsb_exists in E as (p & Hp & Hf). apply list_elem_of_In, list_elem_of_lookup in Hp as [n Hn]. by exists n, p.
  - right. intros n p Hn. apply not_true_is_false. intros Hf. enough (existsb f ps = true) by congruence. apply existsb_exists. exists p. split; [|done].
    apply list_elem_of_In. by apply list_elem_of_lookup_2 with n.
Qed.

(** A step that ends a phase of a request. *)
Lemma drain_by s want e (m : nat) : inv s want -> (forall me b write, e <> Call me b write) -> enabled s e = true ->
  wp (act e) (fun _ s' => exists L1' L3', vinv L1' L3' s' want /\ (L3' <> [] -> vd_irq (v_dev s') = true) /\
    (weights s' + 2 * length L1' + length (vd_work (v_dev s')) < m)%nat) s ->
  (forall L1' L3' s', vinv L1' L3' s' want -> (L3' <> [] -> vd_irq (v_dev s') = true) ->
    (weights s' + 2 * length L1' + length (vd_work (v_dev s')) < m)%nat -> drains s') -> drains s.
Proof.
  intros Hi Hc He Hw Hd. apply wp_Ok in Hw as ([] & s' & Ha & L1' & L3' & Hv & Hirq & Hm). by apply (drain_step s e s'); [..|apply (Hd L1' L3')].
Qed.

Lemma vinv_drains m : forall L1 L3 s want, vinv L1 L3 s want -> (L3 <> [] -> vd_irq (v_dev s) = true) ->
  (weights s + 2 * length L1 + length (vd_work (v_dev s)) < m)%nat -> drains s.
Proof.
  induction m as [|m IH]; intros L1 L3 s want Hi Hirq Hm; [lia|].
  assert (Hinv : inv s want) by (by exists L1, L3). assert (Hrec : forall L1' L3' s', vinv L1' L3' s' want -> (L3' <> [] -> vd_irq (v_dev s') = true) ->
    (weights s' + 2 * length L1' + length (vd_work (v_dev s')) < m)%nat -> drains s') by (intros; by apply (IH L1' L3' s' want)).
  destruct L3 as [|h3 L3]; [|].
  2: { apply (drain_by s want Intr m Hinv); [done|by apply Hirq| |exact Hrec].
    eapply wp_mono; [by apply (virtio_disk_intr_inv L1 want (h3 :: L3))|]. intros [] s' (Hv & Hw & Hs). exists L1, []. split_and!; [done|done|]. simpl in Hs. rewrite Hw. lia. }
  destruct (vd_work (v_dev s)) as [|h w] eqn:Ew.
  2: { assert (He : enabled s (Complete h) = true) by (cbn [enabled]; rewrite Ew; simpl; by rewrite Z.eqb_refl).
    apply (drain_by s want (Complete h) m Hinv); [done|done| |exact Hrec].
    eapply wp_mono; [by apply (complete_inv L1 [] s want Hi)|]. intros [] s' (Hin & Hv & Hp & Hw & Hq). exists L1, [h]. split_and!; [done|done|].
    pose proof (work_perm L1 [] s want Hi h Hin) as Hperm. rewrite Ew in Hperm, Hw. rewrite Hw. apply Permutation_length in Hperm. simpl in Hperm, Hm.
    unfold weights in *. rewrite Hp. lia. }
  destruct L1 as [|h1 L1].
  2: { assert (He : enabled s Fetch = true).
    { cbn [enabled]. pose proof (queue_short _ _ _ _ Hi) as Hq. rewrite length_app in Hq. by rewrite (ring_nonempty _ _ _ _ (vi_ring1 _ _ _ _ Hi)) by lia. }
    apply (drain_by s want Fetch m Hinv); [done|done| |exact Hrec]. eapply wp_mono; [by apply (fetch_inv _ _ s want Hi)|].
    intros [] s' (h & L1' & HL & Hv & Hp & Hw & Hq). injection HL as <- <-. exists L1, []. split_and!; [done|done|]. unfold weights in *. rewrite Hp, Hw, Ew. simpl in *. lia. }
  assert (Hq0 : forall n b write i0 i1 i2, v_procs s !! n <> Some (NeedDone b write i0 i1 i2 true)).
  { intros n b write i0 i1 i2 Hn. pose proof (vi_queue _ _ _ _ Hi i0) as Hq. rewrite Ew in Hq. simpl in Hq. apply (not_elem_of_nil i0), Hq. by exists n, b, write, i1, i2. }
  destruct (find_proc (fun p => match p with NeedDone _ _ _ _ _ _ => true | _ => false end) (v_procs s)) as [(n & p & Hn & Hp)|Hnone].
  { destruct p as [| |b write i0 i1 i2 a]; try done. destruct a; [by apply Hq0 in Hn|]. apply (drain_by s want (Resume (Z.of_nat n)) m Hinv); [done| | |exact Hrec].
    - cbn [enabled]. rewrite Nat2Z.id, Hn. simpl. apply andb_true_iff. split; [apply Z.leb_le; lia|done].
    - destruct (resume_done _ _ s want Hi n b write i0 i1 i2 Hn) as (_ & _ & Hw). eapply wp_mono; [exact Hw|]. intros [] s' (Hv & Hps & _ & Hd). exists [], []. split_and!; [done|done|].
      rewrite Hd, Ew. pose proof (weights_insert s n _ Outside (wake_free <$> v_procs s) Hn (wake_free_weights _)) as Hwt. unfold weights in *. rewrite Hps. simpl in *. lia. }
  assert (Htk : taken s = []).
  { unfold taken. clear -Hnone. induction (v_procs s) as [|p ps IHp]; [done|]. pose proof (Hnone 0%nat p eq_refl) as H0. rewrite fmap_cons. cbn [concat]. rewrite IHp by (intros n; apply (Hnone (S n))). by destruct p. }
  destruct (find_proc (fun p => match p with Outside => false | _ => true end) (v_procs s)) as [(n & p & Hn & Hp)|Hall].
  - pose proof (Hnone n p Hn) as Hp'. destruct p as [|b write a|]; try done.
    pose proof (vi_proc _ _ _ _ Hi n _ Hn) as [Hwant Ha]. rewrite Htk in Ha. simpl in Ha. destruct a; [specialize (Ha eq_refl); lia|].
    apply (drain_by s want (Resume (Z.of_nat n)) m Hinv); [done| | |exact Hrec].
    + cbn [enabled]. rewrite Nat2Z.id, Hn. simpl. apply andb_true_iff. split; [apply Z.leb_le; lia|done].
    + cbn [act]. unfold virtio_disk_rw_resume. wp_step. wp_step. rewrite Nat2Z.id, Hn. eapply wp_mono; [apply (rw_try_inv [] [] s want Hi n _ b write Hn eq_refl Hwant)|].
      { intros n' p' b' Hne Hq Hb. by apply (vi_blocks _ _ _ _ Hi n' n p' _ b' b Hq Hn). }
      intros [] s' [(g & _ & H6 & _)|(i0 & i1 & i2 & Hv & Hd & Hps)]; [rewrite Htk in H6; simpl in H6; lia|]. eexists _, []. split_and!; [exact Hv|done|].
      rewrite Hd, Ew. pose proof (weights_insert s n _ (NeedDone b write i0 i1 i2 true) (v_procs s) Hn eq_refl) as Hwt. unfold weights in *. rewrite Hps. simpl in *. lia.
  - apply drained. apply Forall_lookup_2. intros n p Hn. specialize (Hall n p Hn). by destruct p.
Qed.

(** C29: there is no deadlock: from every state that calls, device steps and
    interrupts can lead to, all processes can finish their requests without
    another call, however few descriptors are left; no wakeup is lost. *)
Theorem virtio_never_stuck s want : reach s want -> drains s.
Proof. intros Hr. destruct (reach_inv s want Hr) as (L1 & L3 & Hi & Hirq). apply (vinv_drains (S (weights s + 2 * length L1 + length (vd_work (v_dev s)))) L1 L3 s want Hi Hirq). lia. Qed.

(** ** Examples *)

Module VirtioDemo.
(** Four processes, buffers with their own numbers as blocks, a disk whose
    sectors hold their numbers. *)
Definition registers (r : Z) : Z := if r =? 0 then 0x74726976 else if r =? 4 then 1 else if r =? 8 then 2 else if r =? 12 then 0x554d4551 else if r =? 0x34 then 1024 else 0.
Definition boot : vst :=
  Vst [] [] 0 [] 0 [] 0 (replicate 8 None) (replicate 8 0) (replicate 8 req0) (fun b => Vbuf b [100 + b] 0) (replicate 4 Outside) (Vdev 0 [] false (fun n => [n])).
Definition after (e : vevent) (s : vst) : vst := match act e s with Ok _ s' => s' | _ => s end.
Definition start : vst := match virtio_disk_init registers 0x80001000 boot with Ok _ s => s | _ => boot end.
Definition zero : nat -> list Z := fun _ => [].

Lemma reach_boot : reach start zero.
Proof.
  apply reach_start. exists registers, 0x80001000, (match virtio_disk_init registers 0x80001000 boot with Ok l _ => l | _ => [] end), boot.
  split_and!; try reflexivity. repeat constructor.
Qed.
Lemma reach_after s want e : reach s want -> enabled s e = true -> match act e s with Ok _ _ => true | _ => false end = true -> reach (after e s) (next_want s e want).
Proof. intros Hr He Ha. apply (reach_step s want e); [done|done|]. unfold after. by destruct (act e s) as [[] s'| |]. Qed.

(** A write of block 5 and a read of block 7; both are done, out of order. *)
Definition s1 : vst := after (Call 0 5 true) start.
Definition s2 : vst := after (Call 1 7 false) s1.
Definition s3 : vst := after Fetch s2.
Definition s4 : vst := after Fetch s3.
Definition s5 : vst := after (Complete 3) s4.
Definition s6 : vst := after Intr s5.
Definition want2 : nat -> list Z := next_want s1 (Call 1 7 false) (next_want start (Call 0 5 true) zero).
Lemma reach_s6 : reach s6 want2.
Proof.
  apply (reach_after s5 want2 Intr); [|by vm_compute..]. apply (reach_after s4 want2 (Complete 3)); [|by vm_compute..].
  apply (reach_after s3 want2 Fetch); [|by vm_compute..]. apply (reach_after s2 want2 Fetch); [|by vm_compute..].
  apply (reach_after s1 _ (Call 1 7 false)); [|by vm_compute..]. apply (reach_after start zero (Call 0 5 true)); [exact reach_boot|by vm_compute..].
Qed.

Lemma virtio_disk_rw_transfers_witness :
  (forall e, enabled s6 e = true -> wp (act e) (fun _ _ => True) s6) /\
  (forall me b write i0 i1 i2, v_procs s6 !! me = Some (NeedDone b write i0 i1 i2 false) ->
    wp (virtio_disk_rw_resume (Z.of_nat me)) (fun _ s' => v_procs s' !! me = Some Outside /\ data_of s' b = want2 me /\ disk_of s' b = want2 me) s6).
Proof. apply (virtio_disk_rw_transfers s6 want2). exact reach_s6. Defined.

(** The reader has the contents of block 7, the writer still waits. *)
Example reader_done : data_of (after (Resume 1) s6) 7 = [7] /\ v_procs (after (Resume 1) s6) !! 1%nat = Some Outside /\ v_procs s6 !! 0%nat = Some (NeedDone 5 true 0 1 2 true).
Proof. by vm_compute. Qed.

Lemma virtio_never_stuck_witness : drains s6.
Proof. apply (virtio_never_stuck s6 want2). exact reach_s6. Defined.

(** With two requests on the way, two more processes find two descriptors
    each, give them back and so wake each other up: until a request ends they
    take turns without ever staying asleep. *)
Definition crowd : vst := after (Call 3 11 false) (after (Call 2 9 false) s2).
Example busy_waiting :
  enabled crowd (Resume 2) = true /\ enabled (after (Resume 2) crowd) (Resume 3) = true /\
  v_procs (after (Resume 3) (after (Resume 2) crowd)) = v_procs crowd.
Proof. by vm_compute. Qed.
End VirtioDemo.
