(* ===== verification/UartDw.v ===== *)
(** * The serial port with DMA (src/kernel/driver/uart.c, src/kernel/devsw/uartdev.c)

    Bytes from the line wait in a hardware FIFO of 16.  In PIO mode an
    interrupt moves them to the receive ring; in DMA mode a DMA channel moves
    them to a buffer of 512 bytes first, which is emptied into the ring when
    it is full or the line goes silent.  Writers fill a transmit ring, or a
    buffer that another DMA channel sends.

    The hardware is part of the state [uhw].  A function body under its lock
    is one step; the hardware moves bytes between the steps.  Functions that
    sleep return a state to resume from; wakeups are recorded in [c_wakes]. *)

From S2P Require Import Prelude Ringbuffer Bio Fat32 Console.

Definition UART_MODE_PIO : Z := 0.
Definition UART_MODE_DMA : Z := 1.
Definition UART_IOCTL_SET_MODE : Z := 0x21.
Definition UART_RX_BUF_SIZE : Z := 32768.
Definition UART_TX_BUF_SIZE : Z := 4096.
Definition UART_RXDMA_SIZE : Z := 512.
Definition UART_TXDMA_SIZE : Z := 256.
Definition UART_SRT_ONE_CHAR : Z := 0.
Definition UART_SRT_HALF_FULL : Z := 2.
Definition UART_IIR_THRE : Z := 0x02.
Definition UART_IIR_RDA : Z := 0x04.
Definition UART_IIR_LSERR : Z := 0x06.
Definition UART_IIR_TIMEOUT : Z := 0x0c.
Definition UART_BRATE_CONST : Z := 16.

(** The registers and buffers of the port and of its two DMA channels. *)
Record uhw := Uhw {
  h_fifo : list Z;       (** receive FIFO *)
  h_oe : bool;           (** LSR.OE *)
  h_dma : list Z;        (** rx_dma_buf up to the channel's dar *)
  h_on : bool;           (** the receive channel is enabled *)
  h_done : bool;         (** its block is complete (intstatus) *)
  h_sent : list Z;       (** bytes given to the line, in order *)
  h_polls : list bool;   (** what the next tests for room in THR find *)
  h_txq : list Z;        (** what the transmit channel still has to send *)
  h_rxie : bool;         (** IER.RX *)
  h_txie : bool;         (** IER.TX *)
  h_dlh : Z; h_dll : Z; h_dlf : Z;
  h_srt : Z;
}.
Inductive uchan := RxRing | TxRing.
Record uart_controller := Ctrl {
  c_ring : ringbuffer;   (** rx.ring *)
  c_dropped : Z; c_overrun : Z; c_epoch : Z;
  c_tx : ringbuffer;     (** tx.ring *)
  c_requested_baud : Z;
  c_mode : Z;
  c_active : bool;       (** rx_dma_active *)
  c_panicked : bool;
  c_hw : uhw;
  c_wakes : list uchan;
}.

Definition hw_rx (fifo dma : list Z) (on done : bool) (h : uhw) : uhw :=
  Uhw fifo (h_oe h) dma on done (h_sent h) (h_polls h) (h_txq h) (h_rxie h) (h_txie h) (h_dlh h) (h_dll h) (h_dlf h) (h_srt h).
Definition hw_tx (sent : list Z) (polls : list bool) (txq : list Z) (h : uhw) : uhw :=
  Uhw (h_fifo h) (h_oe h) (h_dma h) (h_on h) (h_done h) sent polls txq (h_rxie h) (h_txie h) (h_dlh h) (h_dll h) (h_dlf h) (h_srt h).
Definition hw_ie (rx tx : bool) (h : uhw) : uhw :=
  Uhw (h_fifo h) (h_oe h) (h_dma h) (h_on h) (h_done h) (h_sent h) (h_polls h) (h_txq h) rx tx (h_dlh h) (h_dll h) (h_dlf h) (h_srt h).
Definition hw_div (dlh dll dlf : Z) (h : uhw) : uhw :=
  Uhw (h_fifo h) (h_oe h) (h_dma h) (h_on h) (h_done h) (h_sent h) (h_polls h) (h_txq h) (h_rxie h) (h_txie h) dlh dll dlf (h_srt h).
Definition hw_line (oe : bool) (srt : Z) (h : uhw) : uhw :=
  Uhw (h_fifo h) oe (h_dma h) (h_on h) (h_done h) (h_sent h) (h_polls h) (h_txq h) (h_rxie h) (h_txie h) (h_dlh h) (h_dll h) (h_dlf h) srt.

Definition set_rx (ring : ringbuffer) (dropped overrun epoch : Z) (c : uart_controller) : uart_controller :=
  Ctrl ring dropped overrun epoch (c_tx c) (c_requested_baud c) (c_mode c) (c_active c) (c_panicked c) (c_hw c) (c_wakes c).
Definition set_tx (tx : ringbuffer) (c : uart_controller) : uart_controller :=
  Ctrl (c_ring c) (c_dropped c) (c_overrun c) (c_epoch c) tx (c_requested_baud c) (c_mode c) (c_active c) (c_panicked c) (c_hw c) (c_wakes c).
Definition set_cfg (baud mode : Z) (active : bool) (c : uart_controller) : uart_controller :=
  Ctrl (c_ring c) (c_dropped c) (c_overrun c) (c_epoch c) (c_tx c) baud mode active (c_panicked c) (c_hw c) (c_wakes c).
Definition set_hw (f : uhw -> uhw) (c : uart_controller) : uart_controller :=
  Ctrl (c_ring c) (c_dropped c) (c_overrun c) (c_epoch c) (c_tx c) (c_requested_baud c) (c_mode c) (c_active c) (c_panicked c) (f (c_hw c)) (c_wakes c).
Definition add_wake (w : uchan) (c : uart_controller) : uart_controller :=
  Ctrl (c_ring c) (c_dropped c) (c_overrun c) (c_epoch c) (c_tx c) (c_requested_baud c) (c_mode c) (c_active c) (c_panicked c) (c_hw c) (c_wakes c ++ [w]).

Abbreviation UD := (M uart_controller).
Definition wake (w : uchan) : UD unit := modify (add_wake w).
(** [sysctl_clock_get_freq(SYSCTL_CLOCK_APB0)] *)
Class ApbClock := apb0_freq : Z.

Section code.
Context {AC : ApbClock}.

(** ** Hardware *)

(** Reading LSR clears its OE bit. *)
Definition read_lsr : UD unit := modify (set_hw (fun h => hw_line false (h_srt h) h)).
Definition uart_hw_tx_ready : UD bool :=
  read_lsr ;;
  c <- get ;;
  match h_polls (c_hw c) with
  | [] => ret true
  | b :: l => modify (set_hw (fun h => hw_tx (h_sent h) l (h_txq h) h)) ;; ret b
  end.
Definition uart_hw_putc (ch : Z) : UD unit := modify (set_hw (fun h => hw_tx (h_sent h ++ [u8 ch]) (h_polls h) (h_txq h) h)).
Definition uart_hw_getc : UD Z :=
  read_lsr ;;
  c <- get ;;
  match h_fifo (c_hw c) with
  | [] => ret (-1)
  | b :: l => modify (set_hw (fun h => hw_rx l (h_dma h) (h_on h) (h_done h) h)) ;; ret (Z.land b 0xff)
  end.
Definition uart_hw_drain_fifo : UD unit :=
  c <- get ;;
  loop (S (length (h_fifo (c_hw c)))) (fun _ : unit => ch <- uart_hw_getc ;; ret (if ch =? -1 then inr tt else inl tt)) tt.
Definition uart_rxenable (enabled : bool) : UD unit := modify (set_hw (fun h => hw_ie enabled (h_txie h) h)).
Definition uart_txenable (enabled : bool) : UD unit := modify (set_hw (fun h => hw_ie (h_rxie h) enabled h)).

Definition uart_set_divisor (baud : Z) : UD unit :=
  let divisor := apb0_freq / baud in
  let dlh := u8 (Z.shiftr divisor 12) in
  let dll := u8 (u32 (divisor - Z.shiftl dlh 12) / UART_BRATE_CONST) in
  let dlf := u8 (divisor - Z.shiftl dlh 12 - dll * UART_BRATE_CONST) in
  modify (set_hw (hw_div dlh dll dlf)).

(** ** The receive channel of the DMA controller *)

Definition dmac_channel_disable : UD unit := modify (set_hw (fun h => hw_rx (h_fifo h) (h_dma h) false (h_done h) h)).
Definition dmac_interrupt_clear : UD unit := modify (set_hw (fun h => hw_rx (h_fifo h) (h_dma h) (h_on h) false h)).
Definition dmac_is_done : UD bool := gets (fun c => h_done (c_hw c)).

(** ** Receiving *)

(** A byte into the ring: 1 if there was room. *)
Definition rx_push (ch : Z) : UD Z :=
  c <- get ;;
  let r := ringbuffer_push (u8 ch) (c_ring c) in
  if negb (fst r =? 0) then modify (fun c => set_rx (snd r) (c_dropped c) (c_overrun c) (c_epoch c) c) ;; ret 1
  else modify (fun c => set_rx (c_ring c) (u32 (c_dropped c + 1)) (c_overrun c) (c_epoch c) c) ;; ret 0.

Definition fifo_drain_body (received : Z) : UD (Z + Z) :=
  ch <- uart_hw_getc ;;
  if ch =? -1 then ret (inr received) else n <- rx_push ch ;; ret (inl (received + n)).
Definition uart_rx_fifo_drain : UD Z :=
  c <- get ;;
  loop (S (length (h_fifo (c_hw c)))) fifo_drain_body 0.

(** [for (i = 0; i < n; i++)] over the buffer. *)
Fixpoint harvest (l : list Z) (received : Z) : UD Z :=
  match l with
  | [] => ret received
  | b :: l' => n <- rx_push (Z.land b 0xff) ;; harvest l' (received + n)
  end.

(** [n], the distance of dar from the start of the buffer, is the number of
    bytes that the channel has stored. *)
Definition uart_rx_dma_stop : UD Z :=
  dmac_channel_disable ;;
  dmac_interrupt_clear ;;
  modify (fun c => set_cfg (c_requested_baud c) (c_mode c) false c) ;;
  c <- get ;;
  let n := Z.of_nat (length (h_dma (c_hw c))) in
  let n := if UART_RXDMA_SIZE <? n then UART_RXDMA_SIZE else n in
  harvest (take (Z.to_nat n) (h_dma (c_hw c))) 0.

(** [dmac_set_single_mode] stops the channel, clears its interrupt and starts
    it at the beginning of the buffer. *)
Definition uart_rx_dma_start : UD unit :=
  modify (set_hw (fun h => hw_rx (h_fifo h) [] true false h)) ;;
  modify (fun c => set_cfg (c_requested_baud c) (c_mode c) true c).

Definition uart_rx_dma : UD unit :=
  received <- uart_rx_dma_stop ;;
  uart_rx_dma_start ;;
  when (negb (received =? 0)) (wake RxRing).

Definition uart_rx_isr : UD unit :=
  c <- get ;;
  if c_mode c =? UART_MODE_DMA then
    done <- dmac_is_done ;;
    if c_active c && done then uart_rx_dma else ret tt
  else
    received <- uart_rx_fifo_drain ;;
    when (negb (received =? 0)) (wake RxRing).

Definition uart_rx_timeout_isr : UD unit :=
  c <- get ;;
  received <-
    (if c_mode c =? UART_MODE_DMA then
       if c_active c then
         received <- uart_rx_dma_stop ;;
         more <- uart_rx_fifo_drain ;;
         uart_rx_dma_start ;;
         ret (received + more)
       else ret 0
     else uart_rx_fifo_drain) ;;
  when (negb (received =? 0)) (wake RxRing).

Definition uart_dma_rx_isr : UD unit :=
  c <- get ;;
  done <- dmac_is_done ;;
  if negb (c_mode c =? UART_MODE_DMA) || negb (c_active c) || negb done then ret tt
  else uart_rx_dma.

(** A reader: its result and bytes, or asleep with the epoch it started in. *)
Inductive uread := UGot (r : Z) (bs : list Z) | UWaits (epoch : Z).

Fixpoint pop_ring (n : nat) : UD (list Z) :=
  match n with
  | O => ret []
  | S n' =>
      c <- get ;;
      match ringbuffer_pop (c_ring c) with
      | (None, _) => ret []
      | (Some b, r) => modify (fun c => set_rx r (c_dropped c) (c_overrun c) (c_epoch c) c) ;; l <- pop_ring n' ;; ret (b :: l)
      end
  end.
(** The test at the head of the loop of [uart_rx_wait_data], and the rest of
    [uart_read] when there is data. *)
Definition read_ready (n epoch : Z) : UD uread :=
  c <- get ;;
  if negb (ringbuffer_empty (c_ring c)) then bs <- pop_ring (Z.to_nat n) ;; ret (UGot (Z.of_nat (length bs)) bs)
  else ret (UWaits epoch).
Definition uart_read (n : Z) : UD uread :=
  if n <=? 0 then ret (UGot 0 [])
  else c <- get ;; read_ready n (c_epoch c).
(** [interrupted]: a signal ended the sleep. *)
Definition uart_read_resume (n epoch : Z) (interrupted : bool) : UD uread :=
  if interrupted then ret (UGot (-1) [])
  else
    c <- get ;;
    if negb (epoch =? c_epoch c) then ret (UGot 0 []) else read_ready n epoch.

Definition uart_flush_rx : UD unit :=
  c <- get ;;
  when ((c_mode c =? UART_MODE_DMA) && c_active c)
    (dmac_channel_disable ;; dmac_interrupt_clear ;; modify (fun c => set_cfg (c_requested_baud c) (c_mode c) false c)) ;;
  uart_hw_drain_fifo ;;
  modify (fun c => set_rx (ringbuffer_reset (c_ring c)) 0 0 (u32 (c_epoch c + 1)) c) ;;
  wake RxRing ;;
  c <- get ;;
  when (c_mode c =? UART_MODE_DMA) uart_rx_dma_start.

Definition uart_get_rx_stats : UD (list Z) :=
  c <- get ;;
  ret [c_dropped c; ringbuffer_used (c_ring c); ringbuffer_capacity (c_ring c); c_mode c; c_overrun c].

(** ** Sending *)

Definition tx_isr_body (_ : unit) : UD (unit + unit) :=
  c <- get ;;
  if ringbuffer_empty (c_tx c) then ret (inr tt)
  else
    ready <- uart_hw_tx_ready ;;
    if negb ready then ret (inr tt)
    else
      c <- get ;;
      match ringbuffer_pop (c_tx c) with
      | (Some ch, r) => modify (set_tx r) ;; uart_hw_putc ch ;; ret (inl tt)
      | (None, _) => ret (inl tt)
      end.
Definition uart_tx_isr : UD unit :=
  c <- get ;;
  loop (S (Z.to_nat (ringbuffer_used (c_tx c)))) tx_isr_body tt ;;
  wake TxRing ;;
  c <- get ;;
  uart_txenable (negb (ringbuffer_empty (c_tx c))).

(** A writer: its result, asleep before byte [i] of a PIO write, or waiting
    for the end of a DMA block after which [done] bytes are sent. *)
Inductive uwrite := UWrote (r : Z) | URoom (i : Z) | UBlock (before done : Z).
Definition so_far (i : Z) : Z := if 0 <? i then i else -1.

(** The bytes [bs] from the [i]-th on. *)
Fixpoint write_pio (bs : list Z) (i : Z) : UD uwrite :=
  match bs with
  | [] => ret (UWrote i)
  | b :: bs' =>
      c <- get ;;
      if ringbuffer_full (c_tx c) then ret (if c_panicked c then UWrote (so_far i) else URoom i)
      else
        modify (set_tx (snd (ringbuffer_push (u8 b) (c_tx c)))) ;;
        when (ringbuffer_empty (c_tx c)) (uart_txenable true) ;;
        write_pio bs' (i + 1)
  end.
Definition write_pio_resume (src : list Z) (i : Z) (interrupted : bool) : UD uwrite :=
  if interrupted then ret (UWrote (so_far i)) else write_pio (drop (Z.to_nat i) src) i.

(** A block of [uart_write_dma]: [dmac_set_single_mode] stops what the
    channel was sending. *)
Definition uart_write_dma (src : list Z) (done : Z) : UD uwrite :=
  let n := Z.of_nat (length src) in
  if done <? n then
    let chunk := if UART_TXDMA_SIZE <? n - done then UART_TXDMA_SIZE else n - done in
    modify (set_hw (fun h => hw_tx (h_sent h) (h_polls h) (u8 <$> take (Z.to_nat chunk) (drop (Z.to_nat done) src)) h)) ;;
    ret (UBlock done (done + chunk))
  else ret (UWrote done).
(** [dmac_wait_idle_timeout]: the channel is idle, or the time is over and it
    is stopped. *)
Definition uart_write_dma_resume (src : list Z) (before done : Z) (timeout : bool) : UD uwrite :=
  c <- get ;;
  if bool_decide (h_txq (c_hw c) = []) then uart_write_dma src done
  else if timeout then modify (set_hw (fun h => hw_tx (h_sent h) (h_polls h) [] h)) ;; ret (UWrote (so_far before))
  else ret (UBlock before done).

Definition uart_write (src : list Z) : UD uwrite :=
  c <- get ;;
  if c_mode c =? UART_MODE_DMA then uart_write_dma src 0 else write_pio src 0.

(** [false]: the caller sleeps.  The transmitter empties by itself, which the
    spin on LSR.TEMT waits for. *)
Definition uart_flush_tx : UD bool :=
  c <- get ;;
  if ringbuffer_empty (c_tx c) then read_lsr ;; ret true else uart_txenable true ;; ret false.

(** ** Modes and speed *)

(** A change of mode or speed ends with a result, is in [uart_flush_tx], or
    is behind it, where the transmit lock is free. *)
Inductive uchange := KMode (mode : Z) | KBaud (baud : Z) (rx_was_on : bool).
Inductive uconf := CDone (r : Z) | CFlush (k : uchange) | CSwitch (k : uchange).

(** [uart_set_mode] behind [uart_flush_tx]. *)
Definition mode_switch (mode : Z) : UD unit :=
  uart_rxenable false ;;
  uart_txenable false ;;
  c <- get ;;
  received <- (if c_active c then received <- uart_rx_dma_stop ;; more <- uart_rx_fifo_drain ;; ret (received + more) else ret 0) ;;
  modify (fun c => set_cfg (c_requested_baud c) mode (c_active c) c) ;;
  (if mode =? UART_MODE_DMA then modify (set_hw (fun h => hw_line (h_oe h) UART_SRT_HALF_FULL h)) ;; uart_rx_dma_start
   else modify (set_hw (fun h => hw_line (h_oe h) UART_SRT_ONE_CHAR h))) ;;
  when (negb (received =? 0)) (wake RxRing) ;;
  uart_rxenable true.
Definition uart_set_mode (mode : Z) : UD uconf :=
  if negb (mode =? UART_MODE_PIO) && negb (mode =? UART_MODE_DMA) then ret (CDone (-1))
  else
    c <- get ;;
    if (mode =? c_mode c) && Bool.eqb (c_active c) (mode =? UART_MODE_DMA) then ret (CDone 0)
    else ret (CFlush (KMode mode)).

Definition baud_switch (baud : Z) (rx_was_on : bool) : UD unit :=
  uart_rxenable false ;;
  c <- get ;;
  received <-
    (if (c_mode c =? UART_MODE_DMA) && c_active c then received <- uart_rx_dma_stop ;; more <- uart_rx_fifo_drain ;; ret (received + more)
     else uart_hw_drain_fifo ;; ret 0) ;;
  uart_set_divisor (u32 baud) ;;
  modify (fun c => set_cfg (u32 baud) (c_mode c) (c_active c) c) ;;
  c <- get ;;
  when (c_mode c =? UART_MODE_DMA) uart_rx_dma_start ;;
  when (negb (received =? 0)) (wake RxRing) ;;
  when rx_was_on (uart_rxenable true).
Definition uart_set_baud (baud : Z) : UD uconf :=
  if baud <=? 0 then ret (CDone 0)
  else rx_was_on <- gets (fun c => h_rxie (c_hw c)) ;; ret (CFlush (KBaud baud rx_was_on)).

(** The next step of a change. *)
Definition change_step (k : uconf) : UD uconf :=
  match k with
  | CDone r => ret (CDone r)
  | CFlush k => ok <- uart_flush_tx ;; ret (if (ok : bool) then CSwitch k else CFlush k)
  | CSwitch (KMode mode) => mode_switch mode ;; ret (CDone 0)
  | CSwitch (KBaud baud rx_was_on) => baud_switch baud rx_was_on ;; ret (CDone 0)
  end.

Definition uart_get_baud_info : UD (list Z) :=
  c <- get ;;
  let h := c_hw c in
  let divisor := Z.lor (Z.lor (Z.shiftl (Z.land (h_dlh h) 0xff) 12) (Z.shiftl (Z.land (h_dll h) 0xff) 4)) (Z.land (h_dlf h) 0xf) in
  ret [c_requested_baud c; if negb (divisor =? 0) then apb0_freq / divisor else 0; divisor; apb0_freq].

(** [status] is IIR & 0xf. *)
Definition uart_dw_isr (status : Z) : UD unit :=
  c <- get ;;
  if status =? UART_IIR_THRE then (if c_mode c =? UART_MODE_DMA then ret tt else uart_tx_isr)
  else if status =? UART_IIR_RDA then uart_rx_isr
  else if status =? UART_IIR_TIMEOUT then uart_rx_timeout_isr
  else if status =? UART_IIR_LSERR then
    when (h_oe (c_hw c)) (modify (fun c => set_rx (c_ring c) (c_dropped c) (u32 (c_overrun c + 1)) (c_epoch c) c)) ;;
    read_lsr
  else ret tt.

(** Clocks, pins and interrupt handlers are set up outside the model. *)
Definition uart_init (default_baud : Z) : UD uconf :=
  uart_set_divisor default_baud ;;
  modify (set_hw (fun h => hw_line (h_oe h) UART_SRT_ONE_CHAR h)) ;;
  modify (fun c => set_rx (ringbuffer_init (rb_buf (c_ring c)) UART_RX_BUF_SIZE) (c_dropped c) (c_overrun c) (c_epoch c) c) ;;
  modify (fun c => set_tx (ringbuffer_init (rb_buf (c_tx c)) UART_TX_BUF_SIZE) c) ;;
  modify (fun c => set_cfg default_baud (c_mode c) false c) ;;
  uart_set_mode UART_MODE_DMA.

(** ** What the hardware does *)

(** A byte arrives; a full FIFO loses it. *)
Definition hw_arrive (b : Z) : UD unit :=
  modify (set_hw (fun h => if (length (h_fifo h) <? 16)%nat then hw_rx (h_fifo h ++ [b]) (h_dma h) (h_on h) (h_done h) h else hw_line true (h_srt h) h)).
(** The channel moves a byte, and stops after a whole block. *)
Definition hw_move : UD unit :=
  modify (set_hw (fun h =>
    match h_fifo h with
    | b :: l =>
        if h_on h then
          let dma := h_dma h ++ [b] in
          let full := (Z.of_nat (length dma) =? UART_RXDMA_SIZE) in
          hw_rx l dma (negb full) full h
        else h
    | [] => h
    end)).
Definition hw_tx_move : UD unit :=
  modify (set_hw (fun h => match h_txq h with b :: q => hw_tx (h_sent h ++ [b]) (h_polls h) q h | [] => h end)).
End code.

(** ** The device file *)

Definition UART_IO_CHUNK : Z := 128.

(** The memory of the caller and the controller. *)
Record udst (CS : Type) := Udst { ud_cs : CS; ud_uart : uart_controller }.
Arguments Udst {CS}. Arguments ud_cs {CS}. Arguments ud_uart {CS}.
#[export] Instance udst_cs CS : Lens (udst CS) CS := {| lget := ud_cs; lput c s := Udst c (ud_uart s) |}.
#[export] Instance udst_uart CS : Lens (udst CS) uart_controller := {| lget := ud_uart; lput u s := Udst (ud_cs s) u |}.

Section dev.
Context {CS : Type} `{!EitherCopy CS} {AC : ApbClock}.
Abbreviation DM := (M (udst CS)).
Definition on_uart {A} (m : UD A) : DM A := zoom m.
Definition on_caller {A} (m : M CS A) : DM A := zoom m.

(** A result, or asleep in the read of [count] bytes or in a write. *)
Inductive uartdev_run := DRet (r : Z) | DReads (count epoch : Z) | DWrites (done : Z) (bs : list Z) (w : uwrite).

(** The comparison of the int with [sizeof(buf)] is unsigned. *)
Definition read_count (n : Z) : Z := if (n <? 0) || (UART_IO_CHUNK <? n) then UART_IO_CHUNK else n.
Definition uartdev_read_finish (dst count : Z) (r : uread) : DM uartdev_run :=
  match r with
  | UWaits epoch => ret (DReads count epoch)
  | UGot got bs =>
      if got <=? 0 then ret (DRet got)
      else
        ok <- on_caller (ec_out true dst bs) ;;
        ret (DRet (if (ok : bool) then got else -1))
  end.
Definition uartdev_read (dst n : Z) : DM uartdev_run :=
  r <- on_uart (uart_read (read_count n)) ;;
  uartdev_read_finish dst (read_count n) r.

Definition uartdev_write_after (done count : Z) (bs : list Z) (w : uwrite) : DM (Z + uartdev_run) :=
  match w with
  | UWrote written =>
      if written <=? 0 then ret (inr (DRet done))
      else
        let done := done + written in
        if negb (written =? count) then ret (inr (DRet done)) else ret (inl done)
  | _ => ret (inr (DWrites done bs w))
  end.
Definition uartdev_write_body (src n : Z) (done : Z) : DM (Z + uartdev_run) :=
  if done <? n then
    let count := n - done in
    let count := if UART_IO_CHUNK <? count then UART_IO_CHUNK else count in
    r <- on_caller (ec_in true (u64 (src + done)) count) ;;
    let '(bs, ok) := r in
    if negb ok then ret (inr (DRet done))
    else
      w <- on_uart (uart_write bs) ;;
      uartdev_write_after done count bs w
  else ret (inr (DRet done)).
(** Every round writes at least a byte. *)
Definition write_from (src n done : Z) : DM uartdev_run := loop (S (Z.to_nat n)) (uartdev_write_body src n) done.
Definition uartdev_write (src n : Z) : DM uartdev_run := write_from src n 0.
(** A write that was waiting in [uart_write] of [bs] goes on with its result [w]. *)
Definition uartdev_write_resume (src n done : Z) (bs : list Z) (w : uwrite) : DM uartdev_run :=
  r <- uartdev_write_after done (Z.of_nat (length bs)) bs w ;;
  match r with inl done => write_from src n done | inr x => ret x end.

Definition le32 (x : Z) : list Z := [u8 x; u8 (Z.shiftr x 8); u8 (Z.shiftr x 16); u8 (Z.shiftr x 24)].
Definition copy_words (arg : Z) (l : list Z) : DM uconf :=
  ok <- on_caller (ec_out true arg (l ≫= le32)) ;; ret (CDone (if (ok : bool) then 0 else -1)).
Definition uartdev_ioctl (cmd arg : Z) : DM uconf :=
  if cmd =? CONSOLE_IOCTL_FLUSH_INPUT then on_uart uart_flush_rx ;; ret (CDone 0)
  else if cmd =? CONSOLE_IOCTL_SET_MODE then ret (CDone (if arg =? CONSOLE_MODE_RAW then 0 else -1))
  else if cmd =? CONSOLE_IOCTL_GET_MODE then ret (CDone CONSOLE_MODE_RAW)
  else if cmd =? CONSOLE_IOCTL_SET_BAUD then
    if (arg =? 0) || (5000000 <? arg) then ret (CDone (-1)) else on_uart (uart_set_baud (s32 arg))
  else if cmd =? CONSOLE_IOCTL_GET_BAUD_INFO then l <- on_uart uart_get_baud_info ;; copy_words arg l
  else if cmd =? CONSOLE_IOCTL_GET_RX_STATS then l <- on_uart uart_get_rx_stats ;; copy_words arg l
  else if cmd =? UART_IOCTL_SET_MODE then on_uart (uart_set_mode (s32 arg))
  else ret (CDone (-1)).
End dev.
