(* ===== verification/UartDwProps.v ===== *)
(** * Theorems on the serial port

    The receive side is a channel that keeps the order of the bytes: whatever
    the interrupts, the DMA channel, the readers and changes of mode do, the
    bytes delivered and the bytes on their way are those that arrived, less
    those counted as dropped because the ring was full, those that found the
    hardware FIFO full, and those that a change of speed outside DMA mode
    discards. *)

From S2P Require Import Prelude Ringbuffer Bio Fat32 Console UartDw.

(** ** The bytes on their way *)

Definition is_byte (b : Z) : Prop := 0 <= b < 256.
Definition queued (c : uart_controller) : list Z := rb_contents (c_ring c).
Definition pending (c : uart_controller) : list Z := queued c ++ (if c_active c then h_dma (c_hw c) else []) ++ h_fifo (c_hw c).

Record good (c : uart_controller) : Prop := {
  g_ring : rb_ok (c_ring c);
  g_tx : rb_ok (c_tx c);
  g_dropped : 0 <= c_dropped c < 2 ^ 32;
  g_fifo : Forall is_byte (h_fifo (c_hw c));
  g_dma : Forall is_byte (h_dma (c_hw c));
  g_len : Z.of_nat (length (h_dma (c_hw c))) <= UART_RXDMA_SIZE;
  g_on : h_on (c_hw c) = true -> c_active c = true /\ Z.of_nat (length (h_dma (c_hw c))) < UART_RXDMA_SIZE;
  g_mode : c_active c = true -> c_mode c = UART_MODE_DMA;
}.

(** [q'] is [q] with [k] bytes left out, none if [q] fits a ring of [cap]. *)
Definition lost (cap : Z) (k : nat) (q q' : list Z) : Prop :=
  sublist q' q /\ length q = (length q' + k)%nat /\ (k = 0%nat \/ cap < Z.of_nat (length q)).

Lemma lost_refl cap q : lost cap 0 q q.
Proof. split_and!; [done|lia|by left]. Qed.
Lemma lost_trans cap k k' q q' q'' : lost cap k q q' -> lost cap k' q' q'' -> lost cap (k + k') q q''.
Proof. intros (H1 & H2 & H3) (H4 & H5 & H6). split_and!; [by etrans|lia|lia]. Qed.
Lemma lost_app_r cap k q q' r : lost cap k q q' -> lost cap k (q ++ r) (q' ++ r).
Proof. intros (H1 & H2 & H3). split_and!; [by apply sublist_app|rewrite !length_app; lia|rewrite length_app; lia]. Qed.
Lemma lost_app_l cap k q q' r : lost cap k q q' -> lost cap k (r ++ q) (r ++ q').
Proof. intros (H1 & H2 & H3). split_and!; [by apply sublist_app|rewrite !length_app; lia|rewrite length_app; lia]. Qed.
Lemma sublist_same_length (l1 l2 : list Z) : sublist l1 l2 -> length l1 = length l2 -> l1 = l2.
Proof.
  induction 1 as [|x l1 l2 H IH|x l1 l2 H IH]; simpl; intros Hl; [done|rewrite IH by lia; done|]. apply sublist_length in H. lia.
Qed.
(** Bytes that fit the ring are all there. *)
Lemma lost_fits cap k q q' : lost cap k q q' -> Z.of_nat (length q) <= cap -> q' = q.
Proof. intros (H1 & H2 & H3) Hc. apply sublist_same_length; [done|lia]. Qed.

Abbreviation cap c := (rb_capacity (c_ring c)).

(** From [c] to [c'] the bytes [arrived] came in and [got] went out. *)
Definition carried (c c' : uart_controller) (arrived got : list Z) : Prop :=
  cap c' = cap c /\
  exists k, lost (cap c) k (pending c ++ arrived) (got ++ pending c') /\ c_dropped c' = u32 (c_dropped c + Z.of_nat k).

Lemma carried_trans c c1 c2 a1 a2 g1 g2 : carried c c1 a1 g1 -> carried c1 c2 a2 g2 -> carried c c2 (a1 ++ a2) (g1 ++ g2).
Proof.
  intros (B1 & k1 & H1 & E1) (B2 & k2 & H2 & E2). split; [congruence|]. exists (k1 + k2)%nat. split.
  - rewrite (app_assoc (pending c)). eapply lost_trans; [apply lost_app_r, H1|]. rewrite <- !app_assoc, <- B1. by apply lost_app_l.
  - rewrite E2, E1. unfold u32. rewrite Zplus_mod_idemp_l. f_equal. lia.
Qed.

(** ** Into the ring *)

(** What moving bytes to the ring keeps. *)
Record moved (c c' : uart_controller) : Prop := {
  m_mode : c_mode c' = c_mode c; m_active : c_active c' = c_active c; m_dma : h_dma (c_hw c') = h_dma (c_hw c);
  m_on : h_on (c_hw c') = h_on (c_hw c); m_wakes : c_wakes c' = c_wakes c; m_tx : c_tx c' = c_tx c;
}.

(** [l] went into the ring of [c], [n] bytes of it arrived there. *)
Definition filled (l : list Z) (c c' : uart_controller) (n : Z) : Prop :=
  rb_ok (c_ring c') /\ (n = 0 -> queued c' = queued c) /\ 0 <= n /\ cap c' = cap c /\
  exists k, lost (cap c) k (queued c ++ l) (queued c') /\ c_dropped c' = u32 (c_dropped c + Z.of_nat k).

Lemma filled_nil c : rb_ok (c_ring c) -> 0 <= c_dropped c < 2 ^ 32 -> filled [] c c 0.
Proof. intros Hr Hd. split_and!; [done|done|lia|done|]. exists 0%nat. rewrite app_nil_r. split; [apply lost_refl|]. rewrite Z.add_0_r. symmetry. by apply u32_small. Qed.

Lemma filled_app l1 l2 c c1 c2 n1 n2 : filled l1 c c1 n1 -> filled l2 c1 c2 n2 -> filled (l1 ++ l2) c c2 (n1 + n2).
Proof.
  intros (R1 & Z1 & P1 & B1 & k1 & H1 & E1) (R2 & Z2 & P2 & B2 & k2 & H2 & E2). split_and!; [done| |lia|congruence|].
  - intros H. rewrite Z2, Z1 by lia. done.
  - exists (k1 + k2)%nat. split; [|rewrite E2, E1; unfold u32; rewrite Zplus_mod_idemp_l; f_equal; lia].
    rewrite app_assoc. eapply lost_trans; [by apply lost_app_r|by rewrite <- B1].
Qed.

Lemma ring_push_capacity b r : rb_capacity (snd (ringbuffer_push b r)) = rb_capacity r.
Proof. unfold ringbuffer_push. by destruct (ringbuffer_full r). Qed.

Lemma ring_pop_capacity r : rb_capacity (snd (ringbuffer_pop r)) = rb_capacity r.
Proof. unfold ringbuffer_pop. by destruct (ringbuffer_empty r). Qed.

Lemma rx_push_wp c b : good c -> is_byte b -> wp (rx_push b) (fun n c' => filled [b] c c' n /\ moved c c' /\ h_fifo (c_hw c') = h_fifo (c_hw c)) c.
Proof.
  intros Hg Hb. pose proof (push_enqueues (u8 b) (c_ring c) (g_ring c Hg)) as Hp. unfold rx_push. wp_step. wp_step.
  destruct (ringbuffer_push (u8 b) (c_ring c)) as [res r'] eqn:E. cbn [fst snd]. destruct Hp as [Hok Hp].
  pose proof (ring_push_capacity (u8 b) (c_ring c)) as Hcap. assert (Hbb : u8 (u8 b) = b) by (unfold is_byte in Hb; by rewrite !u8_small by (rewrite ?u8_small; lia)).
  case_decide as Hfull; destruct Hp as [-> Hp].
  - cbn [Z.eqb negb]. wp_step. wp_step. wp_step. split_and!; [|by split|done]. split_and!; [apply Hg|done|lia|done|].
    exists 1%nat. split; [|done]. unfold lost, queued. rewrite length_app. simpl. split_and!; [by apply sublist_inserts_r|lia|right; lia].
  - cbn [Z.eqb negb]. wp_step. wp_step. wp_step. split_and!; [|by split|done]. split_and!; [done|lia|lia|by rewrite <- Hcap, E|].
    exists 0%nat. unfold queued. cbn [c_ring set_rx]. rewrite Hp, Hbb. split; [apply lost_refl|]. cbn. rewrite Z.add_0_r, u32_small; [done|apply Hg].
Qed.

Lemma good_fields c c' : good c -> rb_ok (c_ring c') -> 0 <= c_dropped c' < 2 ^ 32 -> c_tx c' = c_tx c -> c_mode c' = c_mode c -> c_active c' = c_active c ->
  h_dma (c_hw c') = h_dma (c_hw c) -> h_on (c_hw c') = h_on (c_hw c) -> Forall is_byte (h_fifo (c_hw c')) -> good c'.
Proof. intros [] Hr Hd Et Em Ea Edm Eo Hf. constructor; rewrite ?Et, ?Em, ?Ea, ?Edm, ?Eo; done. Qed.

Lemma filled_dropped l c c' n : filled l c c' n -> 0 <= c_dropped c' < 2 ^ 32.
Proof. intros (_ & _ & _ & _ & k & _ & ->). apply u32_range. Qed.

Lemma good_filled l c c' n : good c -> filled l c c' n -> moved c c' -> Forall is_byte (h_fifo (c_hw c')) -> good c'.
Proof. intros Hg Hf [] Hb. apply (good_fields c); try done; [apply Hf|by eapply filled_dropped]. Qed.

Lemma rx_moved_trans c c1 c2 : moved c c1 -> moved c1 c2 -> moved c c2.
Proof. intros [] []. split; congruence. Qed.

Lemma land_byte b : is_byte b -> Z.land b 0xff = b.
Proof. intros Hb. change 0xff with (Z.ones 8). rewrite Z.land_ones by lia. apply Z.mod_small. exact Hb. Qed.

Lemma harvest_wp l : forall c n0, good c -> Forall is_byte l -> wp (harvest l n0) (fun n c' => filled l c c' (n - n0) /\ moved c c' /\ h_fifo (c_hw c') = h_fifo (c_hw c)) c.
Proof.
  induction l as [|b l IH]; intros c n0 Hg Hl; cbn [harvest].
  - wp_step. rewrite Z.sub_diag. split_and!; [apply filled_nil; apply Hg|done|done].
  - apply Forall_cons in Hl as [Hb Hl]. wp_step. rewrite land_byte by done. eapply wp_mono; [by apply rx_push_wp|]. intros n1 c1 (F1 & M1 & E1).
    eapply wp_mono; [apply (IH c1); [|done]|].
    + apply (good_filled [b] c c1 n1); [done|done|done|]. rewrite E1. apply Hg.
    + intros n c2 (F2 & M2 & E2). split_and!; [|by eapply rx_moved_trans|congruence]. replace (n - n0) with (n1 + (n - (n0 + n1))) by lia.
      apply (filled_app [b] l c c1 c2); done.
Qed.

Lemma getc_wp c (Q : Z -> uart_controller -> Prop) :
  (h_fifo (c_hw c) = [] -> Q (-1) (set_hw (fun h => hw_line false (h_srt h) h) c)) ->
  (forall b l, h_fifo (c_hw c) = b :: l -> Q (Z.land b 0xff) (set_hw (fun h => hw_rx l (h_dma h) (h_on h) (h_done h) h) (set_hw (fun h => hw_line false (h_srt h) h) c))) ->
  wp uart_hw_getc Q c.
Proof.
  intros H1 H2. unfold uart_hw_getc, read_lsr. wp_step. wp_step. wp_step. wp_step. cbn [c_hw set_hw h_fifo hw_line].
  destruct (h_fifo (c_hw c)) as [|b l] eqn:E; [wp_step; by apply H1|]. wp_step. wp_step. wp_step. by apply H2.
Qed.

Lemma fifo_loop_wp f : forall c n0 fuel, h_fifo (c_hw c) = f -> good c -> (length f < fuel)%nat ->
  wp (loop fuel fifo_drain_body n0) (fun n c' => good c' /\ filled f c c' (n - n0) /\ moved c c' /\ h_fifo (c_hw c') = []) c.
Proof.
  induction f as [|b f IH]; intros c n0 [|fuel] Hf Hg Hl; [simpl in Hl; lia| |simpl in Hl; lia|]; apply wp_loop_S; unfold fifo_drain_body at 1; wp_step; apply getc_wp.
  - intros _. cbn [Z.eqb Pos.eqb]. wp_step. rewrite Z.sub_diag. split_and!; [|exact (filled_nil c (g_ring c Hg) (g_dropped c Hg))|by split|done]. destruct Hg. by constructor.
  - intros b l Hb. congruence.
  - congruence.
  - intros b' l Hb. rewrite Hf in Hb. injection Hb as <- <-. pose proof (g_fifo c Hg) as Hby. rewrite Hf in Hby. apply Forall_cons in Hby as [Hb Hby].
    rewrite land_byte by done. replace (b =? -1) with false by (symmetry; apply Z.eqb_neq; unfold is_byte in Hb; lia).
    set (c1 := set_hw _ (set_hw _ c)). assert (Hg1 : good c1) by (apply (good_fields c); try done; apply Hg).
    wp_step. eapply wp_mono; [by apply (rx_push_wp c1)|]. intros n1 c2 (F1 & M1 & E1). wp_step. eapply wp_mono; [apply (IH c2)|].
    + rewrite E1. done.
    + apply (good_filled [b] c1 c2 n1); try done. rewrite E1. done.
    + simpl in Hl. lia.
    + intros n c3 (G3 & F3 & M3 & E3). split_and!; [done| |exact (rx_moved_trans c c2 c3 (rx_moved_trans c c1 c2 (Build_moved c c1 eq_refl eq_refl eq_refl eq_refl eq_refl eq_refl) M1) M3)|done].
      replace (n - n0) with (n1 + (n - (n0 + n1))) by lia. by apply (filled_app [b] f c1 c2 c3).
Qed.

Lemma drain_wp c : good c -> wp uart_rx_fifo_drain (fun n c' => good c' /\ filled (h_fifo (c_hw c)) c c' n /\ moved c c' /\ h_fifo (c_hw c') = []) c.
Proof.
  intros Hg. unfold uart_rx_fifo_drain. wp_step. wp_step. eapply wp_mono; [apply (fifo_loop_wp (h_fifo (c_hw c))); [done|done|lia]|]. intros n c'. cbv beta. rewrite Z.sub_0_r. done.
Qed.

(** A stop empties the buffer of the channel into the ring. *)
Lemma stop_wp c : good c -> wp uart_rx_dma_stop (fun n c' => good c' /\ filled (h_dma (c_hw c)) c c' n /\ c_active c' = false /\ c_mode c' = c_mode c /\
  h_fifo (c_hw c') = h_fifo (c_hw c) /\ c_wakes c' = c_wakes c) c.
Proof.
  intros Hg. unfold uart_rx_dma_stop, dmac_channel_disable, dmac_interrupt_clear. repeat wp_step.
  set (c1 := set_cfg _ _ _ _). change (h_dma (c_hw c1)) with (h_dma (c_hw c)). pose proof (g_len c Hg) as Hlen.
  replace (UART_RXDMA_SIZE <? Z.of_nat (length (h_dma (c_hw c)))) with false by (symmetry; apply Z.ltb_ge; lia). rewrite Nat2Z.id, firstn_all.
  assert (Hg1 : good c1) by (destruct Hg; by constructor). eapply wp_mono; [apply (harvest_wp _ c1 0 Hg1); apply Hg|].
  intros n c2 (F & M1 & E). rewrite Z.sub_0_r in F. destruct M1. split_and!; [|done|done|done|done|done].
  apply (good_filled (h_dma (c_hw c)) c1 c2 n); [done|done|by split|]. rewrite E. apply Hg.
Qed.

Lemma start_wp c : good c -> c_active c = false -> c_mode c = UART_MODE_DMA ->
  wp uart_rx_dma_start (fun _ c' => good c' /\ pending c' = pending c /\ queued c' = queued c /\ c_dropped c' = c_dropped c /\ cap c' = cap c /\ c_mode c' = c_mode c /\ c_wakes c' = c_wakes c) c.
Proof.
  intros Hg Ha Hm. unfold uart_rx_dma_start. repeat wp_step. split_and!; [|unfold pending; by rewrite Ha|done|done|done|done|done].
  destruct Hg. constructor; done.
Qed.

(** What an event leaves: the bytes are carried on, and a ring that was empty
    and is not any more has woken its readers. *)
Definition served (arrived got : list Z) (c c' : uart_controller) : Prop :=
  good c' /\ carried c c' arrived got /\
  exists w, c_wakes c' = c_wakes c ++ w /\ (queued c = [] -> queued c' <> [] -> RxRing ∈ w).

Lemma carried_filled l r c c' n : filled l c c' n -> pending c = queued c ++ l ++ r -> pending c' = queued c' ++ r -> carried c c' [] [].
Proof.
  intros (_ & _ & _ & B & k & Hk & Hd) Hp Hp'. split; [done|]. exists k. split; [|done]. rewrite app_nil_r, Hp, Hp'. simpl. rewrite app_assoc. by apply lost_app_r.
Qed.

Lemma carried_same c c' : 0 <= c_dropped c < 2 ^ 32 -> cap c' = cap c -> pending c' = pending c -> c_dropped c' = c_dropped c -> carried c c' [] [].
Proof. intros Hd Hc Hp He. split; [done|]. exists 0%nat. rewrite app_nil_r, Hp. simpl. split; [apply lost_refl|]. by rewrite He, Z.add_0_r, u32_small. Qed.

Lemma served_same c c' w : good c -> good c' -> cap c' = cap c -> pending c' = pending c -> queued c' = queued c -> c_dropped c' = c_dropped c -> c_wakes c' = c_wakes c ++ w -> served [] [] c c'.
Proof. intros Hg Hg' Hc Hp Hq Hd Hw. split_and!; [done|apply carried_same; [apply Hg|done|done|done]|]. exists w. split; [done|]. congruence. Qed.

(** The end of a service: a wakeup if something was received. *)
Lemma wake_rx_wp (n : Z) c c1 : good c1 -> carried c c1 [] [] -> (n = 0 -> queued c1 = queued c) -> c_wakes c1 = c_wakes c ->
  wp (when (negb (n =? 0)) (wake RxRing)) (fun _ c' => served [] [] c c' /\ pending c' = pending c1 /\ queued c' = queued c1) c1.
Proof.
  intros Hg Hc Hn Hw. unfold wake. wp_step; [wp_step|]; breflect.
  - split; [|done]. split_and!; [destruct Hg; by constructor|exact Hc|]. exists [RxRing]. split; [cbn; by rewrite Hw|]. intros _ _. left.
  - split; [|done]. split_and!; [done|done|]. exists []. rewrite app_nil_r. split; [done|]. intros H1 H2. rewrite Hn in H2 by done. done.
Qed.
Lemma wake_served (n : Z) c c1 : good c1 -> carried c c1 [] [] -> (n = 0 -> queued c1 = queued c) -> c_wakes c1 = c_wakes c ->
  wp (when (negb (n =? 0)) (wake RxRing)) (fun _ c' => served [] [] c c') c1.
Proof. intros H1 H2 H3 H4. eapply wp_mono; [by apply wake_rx_wp|]. intros [] c' [H _]. exact H. Qed.

(** ** Interrupts *)

Lemma rx_dma_served c : good c -> c_active c = true -> wp uart_rx_dma (fun _ c' => served [] [] c c') c.
Proof.
  intros Hg Ha. unfold uart_rx_dma. wp_step. eapply wp_mono; [by apply stop_wp|]. intros n c1 (G1 & F1 & A1 & M1 & E1 & W1). wp_step.
  eapply wp_mono; [apply (start_wp c1); [done|done|by rewrite M1, (g_mode c Hg Ha)]|]. intros [] c2 (G2 & P2 & Q2 & D2 & B2 & _ & W2).
  apply wake_served; [done| |rewrite Q2; by apply F1|congruence].
  assert (C1 : carried c c1 [] []) by (apply (carried_filled _ (h_fifo (c_hw c)) c c1 n F1); unfold pending; [by rewrite Ha|by rewrite A1, E1]).
  assert (C2 : carried c1 c2 [] []) by (apply carried_same; [apply G1|done|done|done]). by apply (carried_trans c c1 c2 [] [] [] []).
Qed.

(** Stop, and drain what is left in the FIFO. *)
Lemma stop_drain_wp c : good c -> c_active c = true -> wp (received <- uart_rx_dma_stop ;; more <- uart_rx_fifo_drain ;; ret (received + more))
  (fun n c' => good c' /\ carried c c' [] [] /\ (n = 0 -> queued c' = queued c) /\ c_active c' = false /\ c_mode c' = c_mode c /\ c_wakes c' = c_wakes c /\ h_fifo (c_hw c') = []) c.
Proof.
  intros Hg Ha. wp_step. eapply wp_mono; [by apply stop_wp|]. intros n c1 (G1 & F1 & A1 & M1 & E1 & W1). wp_step.
  eapply wp_mono; [by apply drain_wp|]. intros m c2 (G2 & F2 & [] & E2). wp_step. rewrite E1 in F2.
  pose proof (filled_app _ _ c c1 c2 n m F1 F2) as F. split_and!; [done| |by apply F|congruence|congruence|congruence|done].
  apply (carried_filled (h_dma (c_hw c) ++ h_fifo (c_hw c)) [] c c2 (n + m) F); unfold pending; [by rewrite Ha, app_nil_r|by rewrite m_active0, A1, E2].
Qed.

(** Draining the FIFO with the channel off. *)
Lemma drain_idle_wp c : good c -> c_active c = false -> wp uart_rx_fifo_drain
  (fun n c' => good c' /\ carried c c' [] [] /\ (n = 0 -> queued c' = queued c) /\ c_wakes c' = c_wakes c /\ pending c' = queued c') c.
Proof.
  intros Hg Ha. eapply wp_mono; [by apply drain_wp|]. intros n c1 (G1 & F1 & [] & E1).
  split_and!; [done| |by apply F1|done|unfold pending; by rewrite m_active0, Ha, E1, app_nil_r].
  apply (carried_filled _ [] c c1 n F1); unfold pending; [by rewrite Ha, app_nil_r|by rewrite m_active0, Ha, E1].
Qed.

Lemma served_refl c : good c -> served [] [] c c.
Proof. intros Hg. apply (served_same c c []); try done. by rewrite app_nil_r. Qed.

(** In PIO mode the channel is off. *)
Lemma pio_idle c : good c -> c_mode c <> UART_MODE_DMA -> c_active c = false.
Proof. intros Hg Hm. destruct (c_active c) eqn:E; [|done]. by apply Hg in E. Qed.

Lemma rx_isr_served c : good c -> wp uart_rx_isr (fun _ c' => served [] [] c c') c.
Proof.
  intros Hg. unfold uart_rx_isr, dmac_is_done. wp_step. wp_step. destruct (Z.eqb_spec (c_mode c) UART_MODE_DMA) as [Hm|Hm].
  - wp_step. wp_step. destruct (c_active c) eqn:Ha; cbn [andb]; [|wp_step; by apply served_refl]. destruct (h_done (c_hw c)); [by apply rx_dma_served|wp_step; by apply served_refl].
  - wp_step. eapply wp_mono; [apply drain_idle_wp; [done|by apply pio_idle]|]. intros n c1 (G1 & C1 & Q1 & W1 & _). by apply wake_served.
Qed.

(** The line is silent: nothing stays behind the ring. *)
Lemma rx_timeout_wp c : good c ->
  wp uart_rx_timeout_isr (fun _ c' => served [] [] c c' /\ (c_mode c <> UART_MODE_DMA \/ c_active c = true -> pending c' = queued c')) c.
Proof.
  intros Hg. unfold uart_rx_timeout_isr. wp_step. wp_step. wp_step. destruct (Z.eqb_spec (c_mode c) UART_MODE_DMA) as [Hm|Hm].
  - destruct (c_active c) eqn:Ha; [|wp_step; cbn; split; [by apply served_refl|naive_solver]]. pose proof (stop_drain_wp c Hg Ha) as Hs. apply wp_bind_inv in Hs. wp_step.
    eapply wp_mono; [exact Hs|]. intros n c1 H1. apply wp_bind_inv in H1. wp_step. eapply wp_mono; [exact H1|]. intros m c2 (G2 & C2 & Q2 & A2 & M2 & W2 & F2). wp_step.
    eapply wp_mono; [apply start_wp; [done|done|congruence]|]. intros [] c3 (G3 & P3 & Q3 & D3 & B3 & _ & W3). wp_step.
    eapply wp_mono; [apply (wake_rx_wp (n + m) c c3); [done| |intros H; rewrite Q3; by apply Q2|congruence]|].
    { apply (carried_trans c c2 c3 [] [] [] []); [done|]. apply carried_same; [apply G2|done|done|done]. }
    intros [] c4 (S4 & P4 & Q4). split; [done|]. intros _. rewrite P4, Q4, P3, Q3. unfold pending. by rewrite A2, F2, app_nil_r.
  - eapply wp_mono; [apply drain_idle_wp; [done|by apply pio_idle]|]. intros n c1 (G1 & C1 & Q1 & W1 & P1). eapply wp_mono; [by apply (wake_rx_wp n c c1)|].
    intros [] c2 (S2 & P2 & Q2). split; [done|]. intros _. congruence.
Qed.
Lemma rx_timeout_served c : good c -> wp uart_rx_timeout_isr (fun _ c' => served [] [] c c') c.
Proof. intros Hg. eapply wp_mono; [by apply rx_timeout_wp|]. intros [] c' [H _]. exact H. Qed.

Lemma dma_rx_isr_served c : good c -> wp uart_dma_rx_isr (fun _ c' => served [] [] c c') c.
Proof.
  intros Hg. unfold uart_dma_rx_isr, dmac_is_done. wp_step. wp_step. wp_step. wp_step. destruct (negb _ || negb _ || negb _) eqn:E; [wp_step; by apply served_refl|].
  breflect. by apply rx_dma_served.
Qed.

(** The transmit side leaves the receive side alone. *)
Definition rx_same (c c' : uart_controller) : Prop :=
  rb_ok (c_tx c') /\ c_ring c' = c_ring c /\ c_dropped c' = c_dropped c /\ c_mode c' = c_mode c /\ c_active c' = c_active c /\
  h_fifo (c_hw c') = h_fifo (c_hw c) /\ h_dma (c_hw c') = h_dma (c_hw c) /\ h_on (c_hw c') = h_on (c_hw c).

Lemma rx_same_served c c' w : good c -> rx_same c c' -> c_wakes c' = c_wakes c ++ w -> served [] [] c c'.
Proof.
  intros Hg (Hok & Er & Ed & Em & Ea & Ef & Edm & Eo) Hw. assert (Hg' : good c') by (destruct Hg; constructor; rewrite ?Er, ?Ed, ?Em, ?Ea, ?Ef, ?Edm, ?Eo; done).
  apply (served_same c c' w); try done; unfold pending, queued; by rewrite ?Er, ?Ea, ?Ef, ?Edm.
Qed.

Lemma tx_loop_same c0 fuel : forall c, rb_ok (c_tx c) -> (length (rb_contents (c_tx c)) < fuel)%nat -> rx_same c0 c -> c_wakes c = c_wakes c0 ->
  wp (loop fuel tx_isr_body tt) (fun _ c' => rx_same c0 c' /\ c_wakes c' = c_wakes c0) c.
Proof.
  induction fuel as [|fuel IH]; intros c Hok Hl Hs Hw; [lia|]. apply wp_loop_S. unfold tx_isr_body at 1. wp_step. wp_step.
  pose proof (ringbuffer_reports _ Hok) as (_ & _ & _ & He & _). destruct (ringbuffer_empty (c_tx c)) eqn:Ee; [wp_step; done|].
  unfold uart_hw_tx_ready, read_lsr. wp_step. wp_step. wp_step. wp_step. wp_step. cbn [c_hw set_hw h_polls hw_line].
  assert (Hpop : forall c1, c_tx c1 = c_tx c -> rx_same c0 c1 -> c_wakes c1 = c_wakes c0 -> forall ready : bool,
    wp (if negb ready then ret (inr tt) else (c <- get ;; match ringbuffer_pop (c_tx c) with (Some ch, r) => modify (set_tx r) ;; uart_hw_putc ch ;; ret (inl tt) | (None, _) => ret (inl tt) end))
      (fun y c' => match y with inl x' => wp (loop fuel tx_isr_body x') (fun _ c'' => rx_same c0 c'' /\ c_wakes c'' = c_wakes c0) c' | inr _ => rx_same c0 c' /\ c_wakes c' = c_wakes c0 end) c1).
  { intros c1 Et Hs1 Hw1 ready. destruct ready; simpl negb; cbv iota; [|wp_step; done]. wp_step. wp_step. rewrite Et. pose proof (pop_dequeues _ Hok) as Hp.
    destruct (ringbuffer_pop (c_tx c)) as [res r]. destruct Hp as [Hr Hp]. destruct (rb_contents (c_tx c)) as [|ch q] eqn:Eq; [by assert (false = true) by (by apply He)|].
    destruct Hp as [-> Hq]. unfold uart_hw_putc. repeat wp_step. apply IH; [done| |destruct Hs1 as [_ Hs1]; by split|done]. cbn [c_tx set_hw set_tx]. rewrite Hq. simpl in Hl. lia. }
  destruct (h_polls (c_hw c)) as [|p l]; [wp_step; by apply Hpop|]. wp_step. wp_step. wp_step. by apply Hpop.
Qed.

Lemma used_contents r : rb_ok r -> Z.to_nat (ringbuffer_used r) = length (rb_contents r).
Proof. intros H. apply ringbuffer_reports in H as [-> _]. apply Nat2Z.id. Qed.

Lemma rx_same_refl c : good c -> rx_same c c.
Proof. intros Hg. split; [apply Hg|done]. Qed.

Lemma tx_isr_served c : good c -> wp uart_tx_isr (fun _ c' => served [] [] c c') c.
Proof.
  intros Hg. unfold uart_tx_isr, wake, uart_txenable. wp_step. wp_step. wp_step.
  eapply wp_mono; [apply (tx_loop_same c); [apply Hg|rewrite used_contents by apply Hg; lia|by apply rx_same_refl|done]|]. intros [] c1 [Hs Hw]. repeat wp_step.
  apply (rx_same_served c _ [TxRing]); [done|exact Hs|cbn; by rewrite Hw].
Qed.

Lemma dw_isr_served c status : good c -> wp (uart_dw_isr status) (fun _ c' => served [] [] c c') c.
Proof.
  intros Hg. unfold uart_dw_isr, read_lsr. wp_step. wp_step. destruct (status =? UART_IIR_THRE).
  { destruct (c_mode c =? UART_MODE_DMA); [wp_step; by apply served_refl|by apply tx_isr_served]. }
  destruct (status =? UART_IIR_RDA); [by apply rx_isr_served|]. destruct (status =? UART_IIR_TIMEOUT); [by apply rx_timeout_served|].
  destruct (status =? UART_IIR_LSERR); [|wp_step; by apply served_refl].
  wp_step. wp_step; [wp_step|]; wp_step; apply (rx_same_served c _ []); try done; try (by split; [apply Hg|]); by rewrite app_nil_r.
Qed.

(** ** Readers and writers *)

Lemma pop_ring_wp n : forall c, good c -> wp (pop_ring n) (fun bs c' => good c' /\ queued c = bs ++ queued c' /\ carried c c' [] bs /\ c_wakes c' = c_wakes c) c.
Proof.
  induction n as [|n IH]; intros c Hg; cbn [pop_ring]; [wp_step; split_and!; [done|done|by apply carried_same; try apply Hg|done]|].
  wp_step. wp_step. pose proof (pop_dequeues _ (g_ring c Hg)) as Hp. pose proof (ring_pop_capacity (c_ring c)) as Hcap. destruct (ringbuffer_pop (c_ring c)) as [[b|] r]; destruct Hp as [Hr Hp].
  - destruct (rb_contents (c_ring c)) as [|b' q] eqn:Eq; [by destruct Hp|]. destruct Hp as [[= ->] Hq]. wp_step. wp_step. wp_step.
    set (c1 := set_rx _ _ _ _ c). assert (Hg1 : good c1) by (destruct Hg; by constructor). eapply wp_mono; [by apply IH|]. intros bs c2 (G2 & Q2 & C2 & W2). wp_step.
    change (queued c1) with (rb_contents r) in Q2. split_and!; [done|unfold queued at 1; rewrite Eq, <- Hq, Q2; done| |done].
    apply (carried_trans c c1 c2 [] [] [b'] bs); [|done]. split; [done|]. exists 0%nat. rewrite app_nil_r, Z.add_0_r, u32_small by apply Hg. split; [|done].
    unfold pending, queued. cbn [c_ring c_hw c_active c1 set_rx]. rewrite Eq, Hq. apply lost_refl.
  - wp_step. split_and!; [done|done|by apply carried_same; try apply Hg|done].
Qed.

(** The bytes that a read delivers. *)
Definition delivered (r : uread) : list Z := match r with UGot _ bs => bs | UWaits _ => [] end.

Lemma read_ready_wp n epoch c : good c -> wp (read_ready n epoch) (fun r c' => served [] (delivered r) c c') c.
Proof.
  intros Hg. unfold read_ready. wp_step. wp_step. destruct (ringbuffer_empty (c_ring c)); simpl negb; cbv iota; [wp_step; by apply served_refl|].
  wp_step. eapply wp_mono; [by apply pop_ring_wp|]. intros bs c1 (G1 & Q1 & C1 & W1). wp_step. split_and!; [done|done|]. exists []. rewrite app_nil_r. split; [done|].
  intros H. rewrite H in Q1. symmetry in Q1. by apply app_nil in Q1 as [_ ->].
Qed.
Lemma read_served n c : good c -> wp (uart_read n) (fun r c' => served [] (delivered r) c c') c.
Proof.
  intros Hg. unfold uart_read. destruct (n <=? 0); [wp_step; by apply served_refl|]. wp_step. wp_step. by apply read_ready_wp.
Qed.
Lemma resume_served n epoch i c : good c -> wp (uart_read_resume n epoch i) (fun r c' => served [] (delivered r) c c') c.
Proof.
  intros Hg. unfold uart_read_resume. destruct i; [wp_step; by apply served_refl|]. wp_step. wp_step.
  destruct (epoch =? c_epoch c); simpl negb; cbv iota; [by apply read_ready_wp|wp_step; by apply served_refl].
Qed.

Lemma pio_served bs : forall i c0 c, good c0 -> rx_same c0 c -> c_wakes c = c_wakes c0 -> wp (write_pio bs i) (fun _ c' => served [] [] c0 c') c.
Proof.
  induction bs as [|b bs IH]; intros i c0 c Hg Hs Hw; cbn [write_pio]; [wp_step; by apply (rx_same_served c0 c []); rewrite ?app_nil_r|].
  wp_step. wp_step. destruct (ringbuffer_full (c_tx c)); [wp_step; by apply (rx_same_served c0 c []); rewrite ?app_nil_r|].
  pose proof (push_ok (u8 b) (c_tx c) (proj1 Hs)) as Hok. destruct Hs as [_ Hs].
  unfold uart_txenable. wp_step. wp_step. wp_step. wp_step; [wp_step|]; (apply IH; [done|by split|done]).
Qed.
Lemma dma_served src k c : good c -> wp (uart_write_dma src k) (fun _ c' => served [] [] c c') c.
Proof.
  intros Hg. unfold uart_write_dma. destruct (k <? _); [|wp_step; by apply served_refl]. wp_step. wp_step. wp_step.
  apply (rx_same_served c _ []); [done|split; [apply Hg|done]|by rewrite app_nil_r].
Qed.
Lemma dma_resume_served src a k t c : good c -> wp (uart_write_dma_resume src a k t) (fun _ c' => served [] [] c c') c.
Proof.
  intros Hg. unfold uart_write_dma_resume. wp_step. wp_step. case_bool_decide; [by apply dma_served|]. destruct t; [|wp_step; by apply served_refl]. wp_step. wp_step. wp_step.
  apply (rx_same_served c _ []); [done|split; [apply Hg|done]|by rewrite app_nil_r].
Qed.
Lemma write_served src c : good c -> wp (uart_write src) (fun _ c' => served [] [] c c') c.
Proof.
  intros Hg. unfold uart_write. wp_step. wp_step. destruct (c_mode c =? UART_MODE_DMA); [by apply dma_served|]. apply pio_served; [done|by apply rx_same_refl|done].
Qed.
Lemma pio_resume_served src i b c : good c -> wp (write_pio_resume src i b) (fun _ c' => served [] [] c c') c.
Proof.
  intros Hg. unfold write_pio_resume. destruct b; [wp_step; by apply served_refl|]. apply pio_served; [done|by apply rx_same_refl|done].
Qed.
Lemma flush_tx_served c : good c -> wp uart_flush_tx (fun _ c' => served [] [] c c') c.
Proof.
  intros Hg. unfold uart_flush_tx, read_lsr, uart_txenable. wp_step. wp_step. destruct (ringbuffer_empty (c_tx c)); wp_step; wp_step; wp_step;
    (apply (rx_same_served c _ []); [done|split; [apply Hg|done]|by rewrite app_nil_r]).
Qed.

(** ** Changes of mode and speed *)

(** The receiver is stopped, [n] bytes came into the ring since [c]. *)
Definition stopped (c : uart_controller) (n : Z) (c' : uart_controller) : Prop :=
  good c' /\ carried c c' [] [] /\ (n = 0 -> queued c' = queued c) /\ c_active c' = false /\ c_wakes c' = c_wakes c.

Lemma stopped_at c n c1 c2 : stopped c n c1 -> good c2 -> c_ring c2 = c_ring c1 -> c_dropped c2 = c_dropped c1 -> c_active c2 = c_active c1 ->
  h_fifo (c_hw c2) = h_fifo (c_hw c1) -> c_wakes c2 = c_wakes c1 -> stopped c n c2.
Proof.
  intros (G1 & C1 & Q1 & A1 & W1) G2 Er Ed Ea Ef Ew. split_and!; [done| |unfold queued; by rewrite Er|congruence|congruence].
  apply (carried_trans c c1 c2 [] [] [] []); [done|]. apply carried_same; [apply G1|by rewrite Er|unfold pending, queued; by rewrite Er, Ea, A1, Ef|done].
Qed.

(** What follows: the channel starts again if the mode says so, and readers
    are woken. *)
Lemma restart_served c n c1 : stopped c n c1 ->
  wp (when (c_mode c1 =? UART_MODE_DMA) uart_rx_dma_start ;; when (negb (n =? 0)) (wake RxRing)) (fun _ c' => served [] [] c c') c1.
Proof.
  intros (G1 & C1 & Q1 & A1 & W1). wp_step. wp_step; breflect.
  - eapply wp_mono; [by apply start_wp|]. intros [] c2 (G2 & P2 & Q2 & D2 & B2 & _ & W2). apply wake_served; [done| |rewrite Q2; done|congruence].
    apply (carried_trans c c1 c2 [] [] [] []); [done|]. apply carried_same; [apply G1|done|done|done].
  - by apply wake_served.
Qed.

Lemma rx_same_good c c' : good c -> rx_same c c' -> good c'.
Proof. intros Hg (Hok & Er & Ed & Em & Ea & Ef & Edm & Eo). destruct Hg; constructor; rewrite ?Er, ?Ed, ?Em, ?Ea, ?Ef, ?Edm, ?Eo; done. Qed.

Lemma served_trans a1 a2 g1 g2 c c1 c2 : served a1 g1 c c1 -> served a2 g2 c1 c2 -> served (a1 ++ a2) (g1 ++ g2) c c2.
Proof.
  intros (G1 & C1 & w1 & W1 & R1) (G2 & C2 & w2 & W2 & R2). split_and!; [done|by eapply carried_trans|]. exists (w1 ++ w2). split; [by rewrite W2, W1, app_assoc|].
  intros H0 H2. apply elem_of_app. destruct (queued c1) eqn:E; [right; by apply R2|left; by apply R1].
Qed.

(** A step that only touches registers of other parts, in front of [m] or behind it. *)
Lemma served_before A (m : UD A) c c1 : good c -> rx_same c c1 -> c_wakes c1 = c_wakes c -> wp m (fun _ c' => served [] [] c1 c') c1 -> wp m (fun _ c' => served [] [] c c') c1.
Proof.
  intros Hg Hs Hw Hm. eapply wp_mono; [exact Hm|]. intros x c2 H. apply (served_trans [] [] [] [] c c1 c2); [|done]. apply (rx_same_served c c1 []); by rewrite ?app_nil_r.
Qed.
Lemma served_after c c1 c2 : served [] [] c c1 -> rx_same c1 c2 -> c_wakes c2 = c_wakes c1 -> served [] [] c c2.
Proof. intros H Hs Hw. apply (served_trans [] [] [] [] c c1 c2); [done|]. apply (rx_same_served c1 c2 []); [apply H|done|by rewrite app_nil_r]. Qed.

Lemma set_mode_served mode c : good c -> wp (mode_switch mode) (fun _ c' => served [] [] c c') c.
Proof.
  intros Hg. unfold mode_switch, uart_rxenable, uart_txenable. wp_step. wp_step. wp_step. wp_step. set (c1 := set_hw _ (set_hw _ c)).
  assert (Hs1 : rx_same c c1) by (split; [apply Hg|done]). apply served_before; [done|done|done|]. pose proof (rx_same_good c c1 Hg Hs1) as Hg1. clearbody c1. wp_step. wp_step. wp_step.
  assert (Hstop : wp (if c_active c1 then received <- uart_rx_dma_stop ;; more <- uart_rx_fifo_drain ;; ret (received + more) else ret 0) (stopped c1) c1).
  { destruct (c_active c1) eqn:Ha; [eapply wp_mono; [by apply stop_drain_wp|intros n c2 (? & ? & ? & ? & ? & ? & ?); by split_and!]|]. wp_step. split_and!; try done. apply served_refl; done. }
  eapply wp_mono; [exact Hstop|]. intros n c2 Hs2. wp_step. wp_step. pose proof Hs2 as (G2 & _ & _ & A2 & _).
  assert (Hrest : forall c3, mode = c_mode c3 -> stopped c1 n c3 -> forall b, b = (mode =? UART_MODE_DMA) ->
    wp (when b uart_rx_dma_start) (fun _ => wp (when (negb (n =? 0)) (wake RxRing) ;; modify (set_hw (fun h => hw_ie true (h_txie h) h))) (fun _ c' => served [] [] c1 c')) c3).
  { intros c3 Hm H3 b ->. pose proof (restart_served c1 n c3 H3) as Hr. rewrite <- Hm in Hr. apply wp_bind_inv in Hr. eapply wp_mono; [exact Hr|].
    intros [] c4 H4. cbv beta in *. wp_step. eapply wp_mono; [exact H4|]. intros [] c5 H5. wp_step. apply (served_after c1 c5); [done|split; [apply H5|done]|done]. }
  assert (Hat : forall srt, stopped c1 n (set_hw (fun h => hw_line (h_oe h) srt h) (set_cfg (c_requested_baud c2) mode (c_active c2) c2))).
  { intros srt. apply (stopped_at c1 n c2); try done. destruct G2. constructor; try done. cbn. congruence. }
  wp_step. destruct (mode =? UART_MODE_DMA) eqn:Em.
  - wp_step. wp_step. refine (Hrest _ _ (Hat _) true eq_refl); reflexivity.
  - wp_step. refine (Hrest _ _ (Hat _) false eq_refl); reflexivity.
Qed.

Lemma set_baud_served `{ApbClock} baud on c : good c -> c_active c = true -> wp (baud_switch baud on) (fun _ c' => served [] [] c c') c.
Proof.
  intros Hg Ha. unfold baud_switch, uart_rxenable, uart_set_divisor. wp_step. wp_step. set (c1 := set_hw _ c).
  assert (Hs1 : rx_same c c1) by (split; [apply Hg|done]). apply served_before; [done|done|done|]. pose proof (rx_same_good c c1 Hg Hs1) as Hg1.
  assert (Ha1 : c_active c1 = true) by done. clearbody c1. wp_step. wp_step. rewrite Ha1, (g_mode c1 Hg1 Ha1). cbn [Z.eqb Pos.eqb UART_MODE_DMA andb]. wp_step.
  eapply wp_mono; [by apply stop_drain_wp|]. intros n c2 (G2 & C2 & Q2 & A2 & M2 & W2 & _). wp_step. wp_step. wp_step. wp_step. set (c3 := set_cfg _ _ _ _).
  assert (H3 : stopped c1 n c3) by (apply (stopped_at c1 n c2); try done; destruct G2; by constructor).
  pose proof (restart_served c1 n c3 H3) as Hr. clearbody c3. apply wp_bind_inv in Hr. wp_step. wp_step. wp_step. eapply wp_mono; [exact Hr|]. intros [] c4 H4. cbv beta in *.
  wp_step. eapply wp_mono; [exact H4|]. intros [] c5 H5. wp_step; [wp_step|done]. apply (served_after c1 c5); [done|split; [apply H5|done]|done].
Qed.

(** ** A change of speed with the channel off *)

Lemma discard_loop f : forall c fuel, h_fifo (c_hw c) = f -> Forall is_byte f -> (length f < fuel)%nat ->
  wp (loop fuel (fun _ : unit => ch <- uart_hw_getc ;; ret (if ch =? -1 then inr tt else inl tt)) tt)
    (fun _ c' => exists oe, c' = set_hw (fun h => hw_line oe (h_srt h) (hw_rx [] (h_dma h) (h_on h) (h_done h) h)) c) c.
Proof.
  induction f as [|b f IH]; intros c [|fuel] Hf Hb Hl; [simpl in Hl; lia| |simpl in Hl; lia|]; apply wp_loop_S; wp_step; apply getc_wp.
  - intros _. wp_step. exists false. destruct c as [? ? ? ? ? ? ? ? ? [] ?]. cbn in *. by subst.
  - intros b l E. congruence.
  - congruence.
  - intros b' l E. rewrite Hf in E. injection E as <- <-. apply Forall_cons in Hb as [Hb Hb']. rewrite land_byte by done.
    replace (b =? -1) with false by (symmetry; apply Z.eqb_neq; unfold is_byte in Hb; lia). wp_step.
    eapply wp_mono; [apply IH; [done|done|simpl in Hl; lia]|]. intros [] c' [oe ->]. by exists oe.
Qed.

(** The bytes in the FIFO are thrown away, those in the ring stay. *)
Lemma set_baud_discards `{ApbClock} baud on c : good c -> c_active c = false ->
  wp (baud_switch baud on) (fun _ c' => good c' /\ cap c' = cap c /\ queued c' = queued c /\ pending c' = queued c /\ c_dropped c' = c_dropped c /\ c_wakes c' = c_wakes c) c.
Proof.
  intros Hg Ha. unfold baud_switch, uart_rxenable, uart_set_divisor, uart_hw_drain_fifo. wp_step. wp_step. wp_step. wp_step.
  change (c_active (set_hw _ c)) with (c_active c). rewrite Ha, andb_false_r. wp_step. wp_step. wp_step. wp_step.
  eapply wp_mono; [apply (discard_loop (h_fifo (c_hw c))); [done|apply Hg|simpl; lia]|]. intros [] c1 [oe ->]. wp_step. wp_step. wp_step. wp_step. wp_step. wp_step. wp_step.
  set (c2 := set_cfg _ _ _ _).
  assert (H2 : good c2 /\ c_active c2 = false /\ cap c2 = cap c /\ queued c2 = queued c /\ pending c2 = queued c /\ c_dropped c2 = c_dropped c /\ c_wakes c2 = c_wakes c).
  { split_and!; [|exact Ha|done|done|unfold pending; change (c_active c2) with (c_active c); rewrite Ha; apply app_nil_r|done|done].
    destruct Hg. by constructor. }
  clearbody c2. destruct H2 as (G2 & A2 & B2 & Q2 & P2 & D2 & W2). clear Hg.
  assert (Hend : forall c3, good c3 /\ cap c3 = cap c /\ queued c3 = queued c /\ pending c3 = queued c /\ c_dropped c3 = c_dropped c /\ c_wakes c3 = c_wakes c ->
    wp (when (negb (0 =? 0)) (wake RxRing) ;; when on (modify (set_hw (fun h => hw_ie true (h_txie h) h))))
      (fun _ c' => good c' /\ cap c' = cap c /\ queued c' = queued c /\ pending c' = queued c /\ c_dropped c' = c_dropped c /\ c_wakes c' = c_wakes c) c3).
  { intros c3 (G3 & H3). cbn [Z.eqb negb when]. wp_step. wp_step. destruct on; cbn [when]; wp_step; [|done]. split; [|exact H3]. destruct G3. by constructor. }
  wp_step. wp_step; breflect; [|by apply Hend].
  eapply wp_mono; [by apply start_wp|]. intros [] c3 (G3 & P3 & Q3 & D3 & B3 & _ & W3). apply Hend. split_and!; congruence || done.
Qed.

(** ** Every interleaving *)

(** An event: the line, the channels, an interrupt, or a step of a process in
    one of the calls.  Only a flush of the input, which throws everything away
    and sets the counters to 0, is left out. *)
Inductive uev :=
  | EArrive (b : Z) | EMove | ETxMove
  | EIrq (status : Z) | EDmaIrq
  | ERead (n : Z) | EReadResume (n epoch : Z) (interrupted : bool)
  | EWrite (src : list Z) | EPioResume (src : list Z) (i : Z) (interrupted : bool) | EDmaResume (src : list Z) (before done : Z) (timeout : bool)
  | EFlushTx | EMode (mode : Z) | EBaud (baud : Z) (rx_was_on : bool).

(** What the line brought, what the event delivered to a reader, how many
    bytes found the FIFO full, and how many were in the FIFO when a change of
    speed discarded it. *)
Record uio := Uio { io_in : list Z; io_out : list Z; io_overrun : nat; io_discarded : nat }.
Definition silent : uio := Uio [] [] 0 0.
Definition then_ (x y : uio) : uio :=
  Uio (io_in x ++ io_in y) (io_out x ++ io_out y) (io_overrun x + io_overrun y) (io_discarded x + io_discarded y).

Section run.
Context {AC : ApbClock}.

Definition ev (e : uev) : UD uio :=
  match e with
  | EArrive b => c <- get ;; hw_arrive (u8 b) ;; ret (Uio [u8 b] [] (if (length (h_fifo (c_hw c)) <? 16)%nat then 0 else 1) 0)
  | EMove => hw_move ;; ret silent
  | ETxMove => hw_tx_move ;; ret silent
  | EIrq status => uart_dw_isr status ;; ret silent
  | EDmaIrq => uart_dma_rx_isr ;; ret silent
  | ERead n => r <- uart_read n ;; ret (Uio [] (delivered r) 0 0)
  | EReadResume n epoch i => r <- uart_read_resume n epoch i ;; ret (Uio [] (delivered r) 0 0)
  | EWrite src => uart_write src ;; ret silent
  | EPioResume src i b => write_pio_resume src i b ;; ret silent
  | EDmaResume src a k t => uart_write_dma_resume src a k t ;; ret silent
  | EFlushTx => uart_flush_tx ;; ret silent
  | EMode mode => mode_switch mode ;; ret silent
  | EBaud baud on => c <- get ;; baud_switch baud on ;; ret (Uio [] [] 0 (if c_active c then 0 else length (h_fifo (c_hw c))))
  end.
Fixpoint run (es : list uev) : UD uio :=
  match es with
  | [] => ret silent
  | e :: es' => x <- ev e ;; y <- run es' ;; ret (then_ x y)
  end.

(** The account of an event or a run. *)
Definition accounted (x : uio) (c c' : uart_controller) : Prop :=
  good c' /\ cap c' = cap c /\
  (exists k, sublist (io_out x ++ pending c') (pending c ++ io_in x) /\
     length (pending c ++ io_in x) = (length (io_out x ++ pending c') + k + io_overrun x + io_discarded x)%nat /\
     (k = 0%nat \/ cap c < Z.of_nat (length (pending c ++ io_in x))) /\
     c_dropped c' = u32 (c_dropped c + Z.of_nat k)) /\
  exists w, c_wakes c' = c_wakes c ++ w /\ (queued c = [] -> queued c' <> [] -> RxRing ∈ w).

Lemma served_accounted a g c c' : served a g c c' -> accounted (Uio a g 0 0) c c'.
Proof.
  intros (G & (B & k & (L1 & L2 & L3) & Hd) & Hw). split_and!; [done|done| |done]. exists k. split_and!; [done|cbn; lia|done|done].
Qed.

Lemma accounted_trans x y c c1 c2 : accounted x c c1 -> accounted y c1 c2 -> accounted (then_ x y) c c2.
Proof.
  intros (G1 & B1 & (k1 & S1 & L1 & C1 & D1) & w1 & W1 & R1) (G2 & B2 & (k2 & S2 & L2 & C2 & D2) & w2 & W2 & R2).
  split_and!; [done|congruence| |].
  - exists (k1 + k2)%nat. cbn [io_in io_out io_overrun io_discarded then_]. rewrite !length_app in *. split_and!; [|lia|lia|].
    + rewrite app_assoc. etrans; [|apply sublist_app; [exact S1|done]]. rewrite <- !app_assoc. by apply sublist_app.
    + rewrite D2, D1. unfold u32. rewrite Zplus_mod_idemp_l. f_equal. lia.
  - exists (w1 ++ w2). split; [by rewrite W2, W1, app_assoc|].
    intros H0 H2. apply elem_of_app. destruct (queued c1) eqn:E; [right; by apply R2|left; by apply R1].
Qed.

Lemma u8_byte b : is_byte (u8 b).
Proof. apply u8_range. Qed.

Lemma arrive_accounted b c : good c -> wp (ev (EArrive b)) (fun x c' => accounted x c c') c.
Proof.
  intros Hg. cbn [ev]. unfold hw_arrive. wp_step. wp_step. wp_step. wp_step. wp_step. unfold set_hw. cbv beta. destruct (_ <? 16)%nat.
  - apply served_accounted. split_and!; [|split; [done|]|exists []; rewrite app_nil_r; split; [done|intros H1 H2; destruct (H2 H1)]].
    + destruct Hg. constructor; cbn; try done. apply Forall_app. split; [done|]. constructor; [apply u8_byte|constructor].
    + exists 0%nat. cbn. rewrite Z.add_0_r, u32_small by apply Hg. split; [|done]. unfold pending. cbn. rewrite <- !app_assoc. apply lost_refl.
  - split_and!; [destruct Hg; by constructor|done| |exists []; rewrite app_nil_r; split; [done|intros H1 H2; destruct (H2 H1)]].
    exists 0%nat. cbn [io_in io_out io_overrun io_discarded]. rewrite Z.add_0_r, u32_small by apply Hg. change (pending (Ctrl _ _ _ _ _ _ _ _ _ _ _)) with (pending c).
    split_and!; [by apply sublist_inserts_r|rewrite length_app; simpl; lia|by left|done].
Qed.

Lemma baud_accounted baud on c : good c -> wp (ev (EBaud baud on)) (fun x c' => accounted x c c') c.
Proof.
  intros Hg. cbn [ev]. wp_step. wp_step. wp_step. destruct (c_active c) eqn:Ha.
  - eapply wp_mono; [by apply set_baud_served|]. intros [] c' H. wp_step. by apply served_accounted.
  - eapply wp_mono; [by apply set_baud_discards|]. intros [] c' (G & B & Qn & Pn & Dr & W). wp_step. split_and!; [done|done| |].
    + exists 0%nat. cbn [io_in io_out io_overrun io_discarded]. unfold pending at 2 3. rewrite Pn, Ha, !app_nil_r, !length_app. simpl app.
      split_and!; [by apply sublist_inserts_r|lia|by left|by rewrite Dr, Z.add_0_r, u32_small by apply Hg].
    + exists []. rewrite app_nil_r. split; [done|]. rewrite Qn. done.
Qed.

Lemma move_served c : good c -> wp hw_move (fun _ c' => served [] [] c c') c.
Proof.
  intros Hg. unfold hw_move. wp_step. destruct (h_fifo (c_hw c)) as [|b l] eqn:Ef; [|destruct (h_on (c_hw c)) eqn:Eo].
  - apply (rx_same_served c _ []); [done| |by rewrite app_nil_r]. unfold rx_same. cbn. rewrite Ef. split_and!; try done. apply Hg.
  - destruct (g_on c Hg Eo) as [Ha Hl]. pose proof (g_fifo c Hg) as Hb. rewrite Ef in Hb. apply Forall_cons in Hb as [Hb Hb'].
    assert (Hp : h_fifo (c_hw c) = [b] ++ l) by done.
    apply (served_same c _ []); try done; [| |by rewrite app_nil_r].
    + destruct Hg. constructor; cbn; rewrite ?Ef, ?Eo; cbn; try done; [by apply Forall_app; split; [done|constructor]|rewrite length_app; simpl; lia|].
      intros H. split; [done|]. apply negb_true_iff, Z.eqb_neq in H. rewrite length_app in *. simpl in *. lia.
    + unfold pending. cbn. rewrite Ef, Eo, Ha. cbn. by rewrite <- app_assoc.
  - apply (rx_same_served c _ []); [done| |by rewrite app_nil_r]. unfold rx_same. cbn. rewrite Ef, Eo. split_and!; try done. apply Hg.
Qed.

Lemma tx_move_served c : good c -> wp hw_tx_move (fun _ c' => served [] [] c c') c.
Proof.
  intros Hg. unfold hw_tx_move. wp_step. apply (rx_same_served c _ []); [done| |by rewrite app_nil_r]. unfold rx_same. cbn. destruct (h_txq (c_hw c)); split_and!; try done; apply Hg.
Qed.

#[local] Hint Resolve move_served tx_move_served dw_isr_served dma_rx_isr_served read_served resume_served write_served pio_resume_served dma_resume_served flush_tx_served set_mode_served set_baud_served served_refl : uartdb.

(** A step without input or output. *)
Lemma silent_accounted A (m : UD A) c : wp m (fun _ c' => served [] [] c c') c -> wp (m ;; ret silent) (fun x c' => accounted x c c') c.
Proof. intros H. wp_step. eapply wp_mono; [exact H|]. intros ? c' H'. wp_step. by apply served_accounted. Qed.

Lemma ev_accounted e c : good c -> wp (ev e) (fun x c' => accounted x c c') c.
Proof.
  intros Hg. destruct e; [by apply arrive_accounted|..|by apply baud_accounted]; cbn [ev]; try (apply silent_accounted; by auto with uartdb).
  - wp_step. eapply wp_mono; [by apply read_served|]. intros r c' H. wp_step. by apply served_accounted.
  - wp_step. eapply wp_mono; [by apply resume_served|]. intros r c' H. wp_step. by apply served_accounted.
Qed.

Lemma run_accounted es : forall c, good c -> wp (run es) (fun x c' => accounted x c c') c.
Proof.
  induction es as [|e es IH]; intros c Hg; cbn [run]; [wp_step; by apply served_accounted, served_refl|]. wp_step. eapply wp_mono; [by apply ev_accounted|]. intros x c1 H1. wp_step.
  eapply wp_mono; [apply IH, H1|]. intros y c2 H2. wp_step. by apply (accounted_trans _ _ c c1 c2).
Qed.

(** C20: the receive side of the port is a queue of bytes with every loss
    accounted for.  In every interleaving of bytes on the line, DMA transfers,
    interrupts, readers, writers and changes of mode or speed (all but a flush
    of the input), what readers got, followed by what is still in the ring, the
    DMA buffer and the FIFO, is what was there and what the line brought, in
    order, less three kinds of bytes: [k] that did not fit the ring, which the
    driver's counter records and which are none if everything fits; those the
    line brought while the FIFO of 16 was full, which the hardware loses; and
    those in the FIFO when the speed was changed with the DMA channel off,
    which the driver discards without counting.  Without the last two kinds,
    bytes that fit the ring are all there; and a ring that became non-empty has
    woken its readers. *)
Theorem uart_rx_lossless es c :
  good c ->
  wp (run es) (fun x c' =>
    good c' /\
    (exists k, sublist (io_out x ++ pending c') (pending c ++ io_in x) /\
       length (pending c ++ io_in x) = (length (io_out x ++ pending c') + k + io_overrun x + io_discarded x)%nat /\
       (Z.of_nat (length (pending c ++ io_in x)) <= rb_capacity (c_ring c) -> k = 0%nat) /\
       c_dropped c' = u32 (c_dropped c + Z.of_nat k)) /\
    (io_overrun x = 0%nat -> io_discarded x = 0%nat -> Z.of_nat (length (pending c ++ io_in x)) <= rb_capacity (c_ring c) ->
       io_out x ++ pending c' = pending c ++ io_in x) /\
    (queued c = [] -> queued c' <> [] -> exists w, c_wakes c' = c_wakes c ++ w /\ RxRing ∈ w)) c.
Proof.
  intros Hg. eapply wp_mono; [by apply run_accounted|]. intros x c' (G & B & (k & S & L & C & Hd) & w & Hw & Hr). split_and!; [done| | |].
  - exists k. split_and!; [done|done|lia|done].
  - intros H1 H2 Hc. apply sublist_same_length; [done|lia].
  - intros H1 H2. exists w. split; [done|by apply Hr].
Qed.
End run.

(** The interrupt for a silent line empties the DMA buffer and the FIFO: what
    was on its way is in the ring, in order, if it fits. *)
Lemma timeout_delivers c : good c -> c_mode c <> UART_MODE_DMA \/ c_active c = true -> Z.of_nat (length (pending c)) <= cap c ->
  wp uart_rx_timeout_isr (fun _ c' => queued c' = pending c) c.
Proof.
  intros Hg Hm Hc. eapply wp_mono; [by apply rx_timeout_wp|]. intros [] c' [(_ & (B & k & Hk & _) & _) Hp]. rewrite <- (Hp Hm). rewrite app_nil_r in Hk. by eapply lost_fits.
Qed.

(** A read of the device file never overruns its buffer of 128 bytes. *)
Lemma pop_ring_length n : forall c, good c -> wp (pop_ring n) (fun bs _ => (length bs <= n)%nat) c.
Proof.
  induction n as [|n IH]; intros c Hg; cbn [pop_ring]; [by wp_step|]. wp_step. wp_step. pose proof (pop_ok _ (g_ring c Hg)) as Hr.
  destruct (ringbuffer_pop (c_ring c)) as [[b|] r]; [|wp_step; simpl; lia]. wp_step. wp_step. wp_step. eapply wp_mono; [apply IH; destruct Hg; by constructor|].
  intros bs c' H. wp_step. simpl in *. lia.
Qed.
Lemma read_fits_buffer n c : good c -> wp (uart_read (read_count n)) (fun r _ => Z.of_nat (length (delivered r)) <= UART_IO_CHUNK) c.
Proof.
  intros Hg. assert (Hn : read_count n <= UART_IO_CHUNK) by (unfold read_count, UART_IO_CHUNK; destruct (n <? 0) eqn:?; destruct (128 <? n) eqn:?; breflect; simpl; lia).
  unfold uart_read, read_ready. destruct (read_count n <=? 0) eqn:?; breflect; [wp_step; done|]. repeat wp_step. destruct (ringbuffer_empty (c_ring c)); simpl negb; cbv iota; [by wp_step|].
  wp_step. eapply wp_mono; [by apply pop_ring_length|]. intros bs c' H. wp_step. cbv beta in H. cbn [delivered]. lia.
Qed.

(** ** The divisor *)

Section divisor.
Context {AC : ApbClock}.

Lemma divisor_parts d : 0 <= d < 2 ^ 20 ->
  let dlh := u8 (Z.shiftr d 12) in
  let dll := u8 (u32 (d - Z.shiftl dlh 12) / UART_BRATE_CONST) in
  let dlf := u8 (d - Z.shiftl dlh 12 - dll * UART_BRATE_CONST) in
  Z.lor (Z.lor (Z.shiftl (Z.land dlh 0xff) 12) (Z.shiftl (Z.land dll 0xff) 4)) (Z.land dlf 0xf) = d.
Proof.
  intros Hd. cbv zeta. unfold UART_BRATE_CONST.
  assert (E1 : u8 (Z.shiftr d 12) = d / 2 ^ 12) by (rewrite Z.shiftr_div_pow2 by lia; apply u8_small; split; [apply Z.div_pos; lia|apply Z.div_lt_upper_bound; lia]).
  rewrite E1. assert (E2 : d - Z.shiftl (d / 2 ^ 12) 12 = d mod 2 ^ 12) by (rewrite Z.shiftl_mul_pow2, Z.mod_eq by lia; lia). rewrite E2.
  pose proof (Z.mod_pos_bound d (2 ^ 12) ltac:(lia)) as Hr. set (r := d mod 2 ^ 12) in *. rewrite (u32_small r) by lia.
  assert (E3 : u8 (r / 16) = r / 16) by (apply u8_small; split; [apply Z.div_pos; lia|apply Z.div_lt_upper_bound; lia]). rewrite E3.
  assert (E4 : u8 (r - r / 16 * 16) = r mod 16) by (rewrite Z.mod_eq by lia; pose proof (Z.mod_pos_bound r 16); rewrite Z.mod_eq in *; [|lia]; rewrite u8_small; lia). rewrite E4.
  apply Z.bits_inj'. intros i Hi. rewrite !Z.lor_spec, !Z.shiftl_spec by lia.
  change 0xff with (Z.ones 8). change 0xf with (Z.ones 4). rewrite !Z.land_ones by lia. change 16 with (2 ^ 4).
  unfold r. rewrite !Z.testbit_mod_pow2 by lia.
  destruct (Z_lt_ge_dec i 4) as [H4|H4]; [|destruct (Z_lt_ge_dec i 12) as [H12|H12]].
  - rewrite !(Z.testbit_neg_r _ (i - _)) by lia. rewrite (proj2 (Z.ltb_lt i 4) H4), (proj2 (Z.ltb_lt i 12)) by lia. rewrite !andb_false_r. done.
  - rewrite (Z.testbit_neg_r _ (i - 12)) by lia. rewrite Z.div_pow2_bits, Z.testbit_mod_pow2 by lia. replace (i - 4 + 4) with i by lia.
    rewrite (proj2 (Z.ltb_lt (i - 4) 8)), (proj2 (Z.ltb_lt i 12)), (proj2 (Z.ltb_ge i 4)) by lia. rewrite andb_false_r, orb_false_r. done.
  - rewrite !Z.div_pow2_bits, !Z.testbit_mod_pow2 by lia. rewrite (proj2 (Z.ltb_ge (i - 4) 8)), (proj2 (Z.ltb_ge i 4)) by lia. rewrite !orb_false_r. replace (i - 12 + 12) with i by lia.
    destruct (Z.ltb_spec (i - 12) 8); [done|]. symmetry. rewrite <- (Z.mod_small d (2 ^ 20)) by lia. apply Z.mod_pow2_bits_high. lia.
Qed.

(** The divisor registers give back the divisor that was written, for every
    speed down to a 2^20th of the clock. *)
Lemma divisor_roundtrip baud c : 0 < baud -> 0 <= apb0_freq / baud < 2 ^ 20 ->
  wp (uart_set_divisor baud ;; uart_get_baud_info)
    (fun l c' => l = [c_requested_baud c; if negb (apb0_freq / baud =? 0) then apb0_freq / (apb0_freq / baud) else 0; apb0_freq / baud; apb0_freq]) c.
Proof.
  intros Hb Hd. unfold uart_set_divisor, uart_get_baud_info. repeat wp_step. cbn [c_hw set_hw h_dlh h_dll h_dlf hw_div]. rewrite (divisor_parts _ Hd). done.
Qed.
End divisor.

(** ** Examples *)

Module Demo.
#[local] Instance demo_clock : ApbClock := 195000000.
Definition hw0 (srt : Z) (on : bool) : uhw := Uhw [] false [] on false [] [] [] true false 0 106 1 srt.
(** A ring of seven bytes, the receive channel on. *)
Definition port : uart_controller :=
  Ctrl (Ringbuffer (replicate 8 0) 7 0 0) 0 0 0 (Ringbuffer (replicate 5 0) 4 0 0) 115200 UART_MODE_DMA true false (hw0 UART_SRT_HALF_FULL true) [].
(** The same port in PIO mode. *)
Definition pio_port : uart_controller :=
  Ctrl (Ringbuffer (replicate 8 0) 7 0 0) 0 0 0 (Ringbuffer (replicate 5 0) 4 0 0) 115200 UART_MODE_PIO false false (hw0 UART_SRT_ONE_CHAR false) [].

Lemma port_good : good port.
Proof. constructor; try done; try (constructor; simpl; lia); by constructor. Qed.

(** Three bytes, the last one still in the FIFO when the line goes silent,
    and a reader that takes two of them; in PIO mode a change of speed then
    discards a byte. *)
Definition session : list uev :=
  [EArrive 65; EArrive 66; EMove; EMove; EArrive 67; EIrq UART_IIR_TIMEOUT; ERead 2; EMode UART_MODE_PIO; EArrive 68; EBaud 9600 true].

Lemma uart_rx_lossless_witness :
  match run session port with Ok x c => x = Uio [65; 66; 67; 68] [65; 66] 0 1 /\ pending c = [67] | _ => False end /\
  wp (run session) (fun x c' =>
    good c' /\
    (exists k, sublist (io_out x ++ pending c') (pending port ++ io_in x) /\
       length (pending port ++ io_in x) = (length (io_out x ++ pending c') + k + io_overrun x + io_discarded x)%nat /\
       (Z.of_nat (length (pending port ++ io_in x)) <= rb_capacity (c_ring port) -> k = 0%nat) /\
       c_dropped c' = u32 (c_dropped port + Z.of_nat k)) /\
    (io_overrun x = 0%nat -> io_discarded x = 0%nat -> Z.of_nat (length (pending port ++ io_in x)) <= rb_capacity (c_ring port) ->
       io_out x ++ pending c' = pending port ++ io_in x) /\
    (queued port = [] -> queued c' <> [] -> exists w, c_wakes c' = c_wakes port ++ w /\ RxRing ∈ w)) port.
Proof. split; [vm_compute; done|]. apply (uart_rx_lossless session port). apply port_good. Defined.

(** Two writers in DMA mode.  The lock is free while the first waits for its
    block, so the second takes the channel over: three bytes are reported as
    written, one of them was sent. *)
Definition two_writers : UD (list uwrite) :=
  a <- uart_write [1; 2; 3] ;;
  hw_tx_move ;;
  b <- uart_write [9] ;;
  hw_tx_move ;;
  a' <- uart_write_dma_resume [1; 2; 3] 0 3 false ;;
  b' <- uart_write_dma_resume [9] 0 1 false ;;
  ret [a; b; a'; b'].
Example tx_dma_overwritten :
  match two_writers port with
  | Ok l c => l = [UBlock 0 3; UBlock 0 1; UWrote 3; UWrote 1] /\ h_sent (c_hw c) = [1; 9]
  | _ => False
  end.
Proof. vm_compute. done. Qed.

(** A write in PIO mode between [uart_flush_tx] of a change to DMA and the
    change itself: its byte stays in the transmit ring, the transmit
    interrupt ignores it, and a later change of speed sleeps for it. *)
Definition late_writer : UD (list uconf * uwrite) :=
  k0 <- uart_set_mode UART_MODE_DMA ;;
  k1 <- change_step k0 ;;
  w <- uart_write [7] ;;
  k2 <- change_step k1 ;;
  uart_dw_isr UART_IIR_THRE ;;
  k3 <- uart_set_baud 9600 ;;
  k4 <- change_step k3 ;;
  uart_dw_isr UART_IIR_THRE ;;
  k5 <- change_step k4 ;;
  ret ([k2; k4; k5], w).
Example tx_byte_stranded :
  match late_writer pio_port with
  | Ok r c => r = ([CDone 0; CFlush (KBaud 9600 true); CFlush (KBaud 9600 true)], UWrote 1) /\ h_sent (c_hw c) = [] /\ rb_contents (c_tx c) = [7]
  | _ => False
  end.
Proof. vm_compute. done. Qed.

(** A speed of 100: the divisor has 21 bits and its top bit is lost. *)
Example divisor_truncated :
  match (uart_set_divisor 100 ;; uart_get_baud_info) port with Ok l _ => l !! 2%nat = Some (1950000 mod 2 ^ 20) | _ => False end.
Proof. vm_compute. done. Qed.
End Demo.
