(* ===== verification/Spi.v ===== *)
(** * The SPI driver (src/kernel/driver/spi.c)

    A transfer clocks frames out of a FIFO of 32 and the answers of the slave
    into another; interrupts refill the one and drain the other, and large
    transfers go through DMA.

    The slave is a parameter.  The hardware shifts frames at any time: an
    oracle in the state says how many before each access to a FIFO register
    ([s_ks]), and what happens while a caller waits ([s_evs]), so that the
    theorems hold for every timing.  The sleep lock of a controller makes its
    transfers exclude each other; it is not part of the state.  [kmalloc] and
    [kalloc_page] succeed. *)

From S2P Require Import Prelude.

Definition SPI_FIFO_DEPTH : Z := 32.
Definition SPI_DMA_WML : Z := 16.
Definition SPI_ISR_TXE : Z := 0x1.
Definition SPI_ISR_TXO : Z := 0x2.
Definition SPI_ISR_RXO : Z := 0x8.
Definition SPI_ISR_RXF : Z := 0x10.
Definition EINVAL : Z := 22.
Definition EOVERFLOW : Z := 75.
Definition ETIMEDOUT : Z := 110.
Definition SPI_TRANS_CHAR : Z := 1.
Definition SPI_TRANS_SHORT : Z := 2.
Definition SPI_TRANS_INT : Z := 4.

(** A slave: what it does on a change of its select line, and the frame it
    answers with while it takes one. *)
Class SpiSlave (SL : Type) := {
  sl_select : bool -> SL -> SL;
  sl_clock : SL -> Z -> Z * SL;
}.
(** [sysctl_clock_get_freq] of the controller. *)
Class SpiClock := spi_input_hz : Z.

(** Frames are little-endian groups of bytes. *)
Fixpoint le_val (l : list Z) : Z := match l with [] => 0 | b :: l' => b + 256 * le_val l' end.
Fixpoint le_bytes (w : nat) (v : Z) : list Z := match w with O => [] | S w' => v mod 256 :: le_bytes w' (v / 256) end.

(** [tx_buf] holds the bytes from the pointer on, [rx_buf] those stored so
    far; [None] is NULL. *)
Record spi_dw_data := Dw {
  tx_buf : option (list Z);
  rx_buf : option (list Z);
  tx_count : Z;
  rx_count : Z;
  xfer_done : bool;
  xfer_err : Z;
  dma_enable : bool;
}.
(** Registers and FIFOs of a controller. *)
Record spi_t := Reg {
  ctrlr0 : Z;
  baudr : Z;
  imr : Z;
  ssienr : bool;
  ser : Z;
  tx_fifo : list Z;
  rx_fifo : list Z;
  rxo : bool;
  txo : bool;
}.
Record spi_device := SpiDev { bus_num : Z; chip_select : Z; cs_gpio : Z; max_speed_hz : Z; mode : Z; bits_per_word : Z }.
(** [x_rx]: there is a receive buffer. *)
Record spi_xfer := Xfer { x_tx : option (list Z); x_rx : bool; x_len : Z }.

(** While a caller waits: a frame is shifted, the interrupt is served (with
    the shifts during it), or its time is over; a DMA transfer can stall. *)
Inductive sev := EShift | EIsr (ks : list nat) | ETimeout | EStall (frames : nat).
Record spist (SL : Type) := St {
  s_bus : Z;
  s_data : spi_dw_data;
  s_reg : spi_t;
  s_slave : SL;
  s_wire : list Z;      (** frames the slave took *)
  s_ks : list nat;
  s_evs : list sev;
  s_wakes : nat;        (** wakeups of waiters *)
}.
Arguments St {SL}. Arguments s_bus {SL}. Arguments s_data {SL}. Arguments s_reg {SL}. Arguments s_slave {SL}. Arguments s_wire {SL}.
Arguments s_ks {SL}. Arguments s_evs {SL}. Arguments s_wakes {SL}.

Section code.
Context {SL : Type} `{!SpiSlave SL}.
Abbreviation SM := (M (spist SL)).

Definition set_data (f : spi_dw_data -> spi_dw_data) (s : spist SL) : spist SL :=
  St (s_bus s) (f (s_data s)) (s_reg s) (s_slave s) (s_wire s) (s_ks s) (s_evs s) (s_wakes s).
Definition set_reg (f : spi_t -> spi_t) (s : spist SL) : spist SL :=
  St (s_bus s) (s_data s) (f (s_reg s)) (s_slave s) (s_wire s) (s_ks s) (s_evs s) (s_wakes s).
Definition set_slave (sl : SL) (wire : list Z) (s : spist SL) : spist SL :=
  St (s_bus s) (s_data s) (s_reg s) sl wire (s_ks s) (s_evs s) (s_wakes s).
Definition set_sched (ks : list nat) (evs : list sev) (wakes : nat) (s : spist SL) : spist SL :=
  St (s_bus s) (s_data s) (s_reg s) (s_slave s) (s_wire s) ks evs wakes.

Definition with_bufs (t r : option (list Z)) (d : spi_dw_data) := Dw t r (tx_count d) (rx_count d) (xfer_done d) (xfer_err d) (dma_enable d).
Definition with_counts (t r : Z) (d : spi_dw_data) := Dw (tx_buf d) (rx_buf d) t r (xfer_done d) (xfer_err d) (dma_enable d).
Definition with_done (done : bool) (err : Z) (d : spi_dw_data) := Dw (tx_buf d) (rx_buf d) (tx_count d) (rx_count d) done err (dma_enable d).
Definition with_fifos (t r : list Z) (ro to : bool) (g : spi_t) := Reg (ctrlr0 g) (baudr g) (imr g) (ssienr g) (ser g) t r ro to.
Definition with_imr (m : Z) (g : spi_t) := Reg (ctrlr0 g) (baudr g) m (ssienr g) (ser g) (tx_fifo g) (rx_fifo g) (rxo g) (txo g).
Definition with_ctrlr0 (c : Z) (g : spi_t) := Reg c (baudr g) (imr g) (ssienr g) (ser g) (tx_fifo g) (rx_fifo g) (rxo g) (txo g).
Definition with_baudr (b : Z) (g : spi_t) := Reg (ctrlr0 g) b (imr g) (ssienr g) (ser g) (tx_fifo g) (rx_fifo g) (rxo g) (txo g).
Definition with_ser (x : Z) (g : spi_t) := Reg (ctrlr0 g) (baudr g) (imr g) (ssienr g) x (tx_fifo g) (rx_fifo g) (rxo g) (txo g).
(** Switching the controller off empties its FIFOs. *)
Definition with_enable (e : bool) (g : spi_t) :=
  Reg (ctrlr0 g) (baudr g) (imr g) e (ser g) (if e then tx_fifo g else []) (if e then rx_fifo g else []) (rxo g) (txo g).

(** ** Hardware *)

(** A frame goes out and its answer comes in; a full FIFO loses the answer. *)
Definition shift (s : spist SL) : spist SL :=
  match tx_fifo (s_reg s) with
  | f :: l =>
      if ssienr (s_reg s) then
        let '(v, sl) := sl_clock (s_slave s) f in
        let full := (SPI_FIFO_DEPTH <=? Z.of_nat (length (rx_fifo (s_reg s)))) in
        set_slave sl (s_wire s ++ [f])
          (set_reg (fun g => with_fifos l (if full then rx_fifo g else rx_fifo g ++ [v]) (rxo g || full) (txo g) g) s)
      else s
  | [] => s
  end.
Definition hw_run : SM unit :=
  modify (fun s => let s' := set_sched (tail (s_ks s)) (s_evs s) (s_wakes s) s in Nat.iter (default 0%nat (head (s_ks s))) shift s').
Definition txflr : SM Z := hw_run ;; gets (fun s => Z.of_nat (length (tx_fifo (s_reg s)))).
Definition rxflr : SM Z := hw_run ;; gets (fun s => Z.of_nat (length (rx_fifo (s_reg s)))).
(** The status that the mask lets through. *)
Definition status (g : spi_t) : Z :=
  Z.land (imr g)
    (Z.lor (Z.lor (if bool_decide (tx_fifo g = []) then SPI_ISR_TXE else 0) (if txo g then SPI_ISR_TXO else 0))
       (Z.lor (if rxo g then SPI_ISR_RXO else 0) (if bool_decide (rx_fifo g = []) then 0 else SPI_ISR_RXF))).
Definition read_isr : SM Z := hw_run ;; gets (fun s => status (s_reg s)).
Definition write_dr (v : Z) : SM unit :=
  modify (set_reg (fun g => if SPI_FIFO_DEPTH <=? Z.of_nat (length (tx_fifo g)) then with_fifos (tx_fifo g) (rx_fifo g) (rxo g) true g
                            else with_fifos (tx_fifo g ++ [v]) (rx_fifo g) (rxo g) (txo g) g)).
Definition read_dr : SM Z :=
  s <- get ;;
  match rx_fifo (s_reg s) with
  | [] => ret 0
  | v :: l => modify (set_reg (fun g => with_fifos (tx_fifo g) l (rxo g) (txo g) g)) ;; ret v
  end.

(** ** Frames *)

Definition outside {A} : SM A := panic "outside of the buffer".

(** [spi_dw_buf_rx_##type] and [spi_dw_buf_tx_##type], [w] the size of the type. *)
Definition spi_dw_buf_rx (w : Z) : SM unit :=
  v <- read_dr ;;
  modify (set_data (fun d => with_bufs (tx_buf d) ((fun l => l ++ le_bytes (Z.to_nat w) v) <$> rx_buf d) d)).
Definition spi_dw_buf_tx (w : Z) : SM unit :=
  s <- get ;;
  v <- match tx_buf (s_data s) with
       | Some l =>
           if Z.of_nat (length l) <? w then outside
           else modify (set_data (fun d => with_bufs (Some (drop (Z.to_nat w) l)) (rx_buf d) d)) ;; ret (le_val (take (Z.to_nat w) l))
       | None => ret 0
       end ;;
  modify (set_data (fun d => with_counts (u32 (tx_count d - w)) (rx_count d) d)) ;;
  write_dr v.

Definition dfs_offset (bus : Z) : Z := if (bus =? 0) || (bus =? 1) then 16 else 0.
Definition spi_get_frame_size : SM Z :=
  s <- get ;;
  let data_bit_length := Z.land (Z.shiftr (ctrlr0 (s_reg s)) (dfs_offset (s_bus s))) 0x1f in
  ret (if data_bit_length <? 8 then SPI_TRANS_CHAR else if data_bit_length <? 16 then SPI_TRANS_SHORT else SPI_TRANS_INT).

(** ** Transfers by interrupt *)

Definition tx_fill_body (w n : Z) : SM (Z + Z) :=
  s <- get ;;
  if tx_count (s_data s) =? 0 then ret (inr n)
  else
    k <- txflr ;;
    if u32 (SPI_FIFO_DEPTH - k) =? 0 then ret (inr n) else spi_dw_buf_tx w ;; ret (inl (n + 1)).
Definition spi_dw_tx_fill (w : Z) : SM Z :=
  s <- get ;;
  loop (S (Z.to_nat (tx_count (s_data s)))) (tx_fill_body w) 0.

Definition rx_drain_body (w n : Z) : SM (Z + Z) :=
  k <- rxflr ;;
  s <- get ;;
  if (k =? 0) || (rx_count (s_data s) =? 0) then ret (inr n)
  else
    spi_dw_buf_rx w ;;
    modify (set_data (fun d => with_counts (tx_count d) (u64 (rx_count d - w)) d)) ;;
    ret (inl (n + 1)).
Definition spi_dw_rx_drain (w : Z) : SM Z :=
  s <- get ;;
  loop (S (Z.to_nat (rx_count (s_data s)))) (rx_drain_body w) 0.

Definition bit (x b : Z) : bool := negb (Z.land x b =? 0).
(** [spi_master->imr = 0] after an end or an error. *)
Definition finish (err : option Z) : SM unit :=
  modify (set_data (fun d => with_done true (default (xfer_err d) err) d)) ;;
  modify (set_reg (with_imr 0)).
Definition spi_dw_isr : SM unit :=
  w <- spi_get_frame_size ;;
  isr <- read_isr ;;
  (if bit isr SPI_ISR_RXO then
     modify (set_reg (fun g => with_fifos (tx_fifo g) (rx_fifo g) false (txo g) g)) ;;
     finish (Some (- EOVERFLOW))
   else if bit isr SPI_ISR_TXO then
     modify (set_reg (fun g => with_fifos (tx_fifo g) (rx_fifo g) (rxo g) false g)) ;;
     finish (Some (- EINVAL))
   else
     when (bit isr SPI_ISR_TXE)
       (spi_dw_tx_fill w ;;
        s <- get ;;
        when (tx_count (s_data s) =? 0) (modify (set_reg (fun g => with_imr (Z.land (imr g) (Z.lnot SPI_ISR_TXE)) g)))) ;;
     when (bit isr SPI_ISR_RXF)
       (spi_dw_rx_drain w ;;
        s <- get ;;
        when (rx_count (s_data s) =? 0) (finish None))) ;;
  s <- get ;;
  when (xfer_done (s_data s)) (modify (fun s => set_sched (s_ks s) (s_evs s) (S (s_wakes s)) s)).

Definition event (e : sev) : SM unit :=
  match e with
  | EShift => modify shift
  | EIsr ks => modify (fun s => set_sched ks (s_evs s) (s_wakes s) s) ;; spi_dw_isr
  | _ => ret tt
  end.
(** The caller sleeps on the ticks or spins: the events happen until the end
    of the transfer is seen or the time is over. *)
Fixpoint wait_events (es : list sev) : SM Z :=
  s <- get ;;
  if xfer_done (s_data s) then
    modify (set_data (fun d => with_done false (xfer_err d) d)) ;;
    modify (fun s => set_sched (s_ks s) es (s_wakes s) s) ;;
    ret (xfer_err (s_data s))
  else
    match es with
    | [] | ETimeout :: _ =>
        modify (set_data (fun d => with_done false (xfer_err d) d)) ;;
        modify (fun s => set_sched (s_ks s) (tail es) (s_wakes s) s) ;;
        ret (- ETIMEDOUT)
    | e :: es' => event e ;; wait_events es'
    end.
Definition spi_wait_xfer : SM Z := s <- get ;; wait_events (s_evs s).

(** What a transfer leaves in its receive buffer. *)
Definition received (x : spi_xfer) (s : spist SL) : list Z := if x_rx x then default [] (rx_buf (s_data s)) else [].
(** The result of a transfer comes with the bytes it received. *)
Definition spi_dw_int_transfer (x : spi_xfer) : SM (Z * list Z) :=
  w <- spi_get_frame_size ;;
  if negb (x_len x mod w =? 0) then ret (- EINVAL, [])
  else
    modify (set_data (with_bufs (x_tx x) (if x_rx x then Some [] else None))) ;;
    modify (set_data (with_counts (u32 (x_len x)) (u32 (x_len x)))) ;;
    modify (set_reg (fun g => with_fifos (tx_fifo g) (rx_fifo g) false false g)) ;;
    spi_dw_tx_fill w ;;
    modify (set_reg (with_imr (Z.lor (Z.lor SPI_ISR_TXE SPI_ISR_RXF) (Z.lor SPI_ISR_RXO SPI_ISR_TXO)))) ;;
    r <- spi_wait_xfer ;;
    modify (set_reg (with_imr 0)) ;;
    bs <- gets (received x) ;;
    ret (r, bs).

(** ** Transfers by DMA *)

Fixpoint frames (n : nat) (w : nat) (l : list Z) : list Z :=
  match n with O => [] | S n' => le_val (take w l) :: frames n' w (drop w l) end.
(** The slave takes frames and answers. *)
Fixpoint exchange (sl : SL) (fs : list Z) : list Z * SL :=
  match fs with
  | [] => ([], sl)
  | f :: fs' => let '(v, sl1) := sl_clock sl f in let '(vs, sl2) := exchange sl1 fs' in (v :: vs, sl2)
  end.
(** The channels move the frames, or stall and are stopped. *)
Definition spi_dw_dma_xfer (cmd : list Z) : SM (Z * list Z) :=
  s <- get ;;
  let '(k, r, evs) := match s_evs s with EStall k :: evs => (k, - ETIMEDOUT, evs) | evs => (length cmd, 0, evs) end in
  let '(vs, sl) := exchange (s_slave s) (take k cmd) in
  modify (set_slave sl (s_wire s ++ take k cmd)) ;;
  modify (fun s => set_sched (s_ks s) evs (s_wakes s) s) ;;
  ret (r, vs).
(** The words to send and the answers share a page of 1024 words. *)
Definition spi_dw_dma_transfer (x : spi_xfer) : SM (Z * list Z) :=
  w <- spi_get_frame_size ;;
  let count := x_len x / w in
  if 1024 <? 2 * count then outside
  else
    match x_tx x with
    | None => outside
    | Some tx =>
        if Z.of_nat (length tx) <? count * w then outside
        else
          r <- spi_dw_dma_xfer (frames (Z.to_nat count) (Z.to_nat w) tx) ;;
          if r.1 <? 0 then ret (r.1, []) else ret (0, r.2 ≫= le_bytes (Z.to_nat w))
    end.

Definition spi_can_dma (x : spi_xfer) : SM bool :=
  s <- get ;;
  if negb (dma_enable (s_data s)) then ret false
  else if bool_decide (x_tx x = None) || negb (x_rx x) then ret false
  else
    w <- spi_get_frame_size ;;
    ret ((x_len x mod w =? 0) && (SPI_DMA_WML * w <=? x_len x) && (x_len x / w * 2 * 4 <=? 4096)).

(** ** Messages *)

Definition set_bit (reg mask value : Z) : Z := Z.lor (Z.land reg (Z.lnot mask)) (Z.land value mask).
(** [SPI_FF_STANDARD]; the two buses of the board have the same layout. *)
Definition spi_setup (dev : spi_device) : SM unit :=
  let upd m v := modify (set_reg (fun g => with_ctrlr0 (set_bit (ctrlr0 g) m (u32 v)) g)) in
  upd (Z.shiftl 0x1f 16) (Z.shiftl (bits_per_word dev - 1) 16) ;;
  upd (Z.shiftl 0x3 21) 0 ;;
  upd (Z.shiftl 0x3 6) (Z.shiftl (mode dev) 6).
Definition spi_set_cs (dev : spi_device) (enable : bool) : SM unit :=
  modify (set_reg (with_ser (if (cs_gpio dev =? 0) && negb enable then 0 else Z.shiftl 1 (chip_select dev)))) ;;
  modify (fun s => set_slave (sl_select enable (s_slave s)) (s_wire s) s).

Fixpoint transfer_all (xs : list spi_xfer) : SM (Z * list (list Z)) :=
  match xs with
  | [] => ret (0, [])
  | x :: xs' =>
      dma <- spi_can_dma x ;;
      y <- (if (dma : bool) then spi_dw_dma_transfer x else spi_dw_int_transfer x) ;;
      if y.1 <? 0 then ret (y.1, [y.2])
      else match xs' with
           | [] => ret (y.1, [y.2])
           | _ => rest <- transfer_all xs' ;; ret (rest.1, y.2 :: rest.2)
           end
  end.
Definition spi_transfer (dev : spi_device) (xs : list spi_xfer) : SM (Z * list (list Z)) :=
  spi_set_cs dev true ;;
  modify (set_reg (with_enable false)) ;;
  spi_setup dev ;;
  modify (set_reg (with_enable true)) ;;
  r <- transfer_all xs ;;
  spi_set_cs dev false ;;
  ret r.

Definition spi_write (dev : spi_device) (buf : list Z) : SM Z :=
  r <- spi_transfer dev [Xfer (Some buf) true (Z.of_nat (length buf))] ;;
  ret r.1.
Definition spi_read (dev : spi_device) (len : Z) : SM (Z * list Z) :=
  r <- spi_transfer dev [Xfer (Some (replicate (Z.to_nat len) 0xff)) true len] ;;
  ret (r.1, concat r.2).

Definition spi_set_clk_rate `{SpiClock} (spi_num hz : Z) : SM Z :=
  if (4 <=? spi_num) || (hz =? 0) then ret (- EINVAL)
  else if spi_input_hz =? 0 then ret (- EINVAL)
  else
    let divisor := u32 (spi_input_hz + hz - 1) / hz in
    let divisor := if divisor <? 2 then 2 else divisor in
    let divisor := if negb (Z.land divisor 1 =? 0) then u32 (divisor + 1) else divisor in
    let divisor := if 0xfffe <? divisor then 0xfffe else divisor in
    modify (set_reg (with_baudr divisor)) ;;
    ret 0.
End code.
