(* ===== verification/SpiProps.v ===== *)
(** * Theorems on the SPI driver

    A transfer by interrupt is a full-duplex exchange: for every timing of the
    frames and of the interrupts, a transfer that reports success has given
    the slave exactly its bytes and stored exactly the answers, and none waits
    for an interrupt that does not come. *)

From S2P Require Import Prelude Spi.

Section lists.
Context {A : Type}.
Lemma take_snoc (l : list A) i x : l !! i = Some x -> take (S i) l = take i l ++ [x].
Proof. apply take_S_r. Qed.
Lemma window_push (l : list A) (c f : nat) x : (c <= f)%nat -> l !! f = Some x -> take (f - c) (drop c l) ++ [x] = take (S f - c) (drop c l).
Proof. intros Hc Hx. replace (S f - c)%nat with (S (f - c)) by lia. symmetry. apply take_snoc. rewrite lookup_drop. by replace (c + (f - c))%nat with f by lia. Qed.
Lemma window_pop (l : list A) (c f : nat) x q : take (f - c) (drop c l) = x :: q -> l !! c = Some x /\ (c < f)%nat /\ q = take (f - S c) (drop (S c) l).
Proof.
  intros H. assert (Hx : (take (f - c) (drop c l)) !! 0%nat = Some x) by (by rewrite H). apply lookup_take_Some in Hx as [Hx Hlt]. rewrite lookup_drop, Nat.add_0_r in Hx.
  split_and!; [done|lia|].
  assert (Hd : drop c l = x :: drop (S c) l) by (by apply drop_S). rewrite Hd in H. replace (f - c)%nat with (S (f - S c)) in H by lia. by injection H as <-.
Qed.
End lists.

Lemma frames_length n w l : length (frames n w l) = n.
Proof. revert l. induction n as [|n IH]; intros l; simpl; [done|by rewrite IH]. Qed.
Lemma frames_lookup n w : forall l i, (i < n)%nat -> frames n w l !! i = Some (le_val (take w (drop (i * w) l))).
Proof.
  induction n as [|n IH]; intros l [|i] Hi; [lia|lia|done|]. simpl. rewrite IH by lia. rewrite drop_drop. done.
Qed.
Lemma le_bytes_length w v : length (le_bytes w v) = w.
Proof. revert v. induction w as [|w IH]; intros v; simpl; [done|by rewrite IH]. Qed.
Lemma bytes_length w vs : length (vs ≫= le_bytes w) = (length vs * w)%nat.
Proof. induction vs as [|v vs IH]; [done|]. rewrite bind_cons, length_app, le_bytes_length, IH. done. Qed.

Section props.
Context {SL : Type} `{!SpiSlave SL}.
Implicit Types s : spist SL.

Lemma exchange_app sl a b : exchange sl (a ++ b) = let '(r1, s1) := exchange sl a in let '(r2, s2) := exchange s1 b in (r1 ++ r2, s2).
Proof.
  revert sl. induction a as [|x a IH]; intros sl; simpl; [by destruct (exchange sl b)|]. destruct (sl_clock sl x) as [v s1]. rewrite IH. destruct (exchange s1 a) as [r1 s2]. by destruct (exchange s2 b).
Qed.
Lemma exchange_length sl a : length (exchange sl a).1 = length a.
Proof. revert sl. induction a as [|x a IH]; intros sl; simpl; [done|]. destruct (sl_clock sl x) as [v s1]. specialize (IH s1). destruct (exchange s1 a). simpl in *. lia. Qed.
Lemma exchange_snoc sl a x : exchange sl (a ++ [x]) = let '(r, s1) := exchange sl a in let '(v, s2) := sl_clock s1 x in (r ++ [v], s2).
Proof. rewrite exchange_app. destruct (exchange sl a) as [r s1]. simpl. by destruct (sl_clock s1 x). Qed.

(** The size of a frame that the control register says. *)
Definition width s : Z :=
  let l := Z.land (Z.shiftr (ctrlr0 (s_reg s)) (dfs_offset (s_bus s))) 0x1f in
  if l <? 8 then SPI_TRANS_CHAR else if l <? 16 then SPI_TRANS_SHORT else SPI_TRANS_INT.
Lemma frame_size_wp s (Q : Z -> spist SL -> Prop) : Q (width s) s -> wp spi_get_frame_size Q s.
Proof. done. Qed.
Lemma width_cases s : width s = 1 \/ width s = 2 \/ width s = 4.
Proof. unfold width. destruct (_ <? 8); [by left|]. destruct (_ <? 16); [by right; left|by right; right]. Qed.

(** ** The state of a transfer

    [x] is transferred in [n] frames of [W] bytes, starting with slave [sl0],
    [wire0] on the wire and error [err0].  [f] frames are in the FIFO or
    beyond, [c] are clocked, [d] answers are stored; [lossy] when the FIFO
    lost an answer. *)
Section transfer.
Context (x : spi_xfer) (n W : nat) (sl0 : SL) (wire0 : list Z) (err0 : Z).
Hypothesis Wpos : (0 < W)%nat.
Hypothesis Hlen : x_len x = Z.of_nat n * Z.of_nat W.
Hypothesis Hmax : x_len x < 2 ^ 32.
Hypothesis Htx : forall T, x_tx x = Some T -> Z.of_nat (length T) = x_len x.

Definition out : list Z := match x_tx x with Some T => frames n W T | None => replicate n 0 end.
Definition answers (c : nat) : list Z := (exchange sl0 (take c out)).1.

Record flow (f c d : nat) (lossy : bool) s : Prop := {
  fl_ord : (d <= c <= f)%nat /\ (f <= n)%nat /\ (f - c <= 32)%nat;
  fl_tx : tx_fifo (s_reg s) = take (f - c) (drop c out);
  fl_txb : tx_buf (s_data s) = drop (f * W) <$> x_tx x;
  fl_txc : tx_count (s_data s) = (Z.of_nat n - Z.of_nat f) * Z.of_nat W;
  fl_rxc : rx_count (s_data s) = (Z.of_nat n - Z.of_nat d) * Z.of_nat W;
  fl_wire : s_wire s = wire0 ++ take c out;
  fl_slave : s_slave s = (exchange sl0 (take c out)).2;
  fl_rx : (length (rx_fifo (s_reg s)) <= 32)%nat;
  fl_ans : if lossy then (d + length (rx_fifo (s_reg s)) < c)%nat else rx_fifo (s_reg s) = drop d (answers c);
  fl_out : exists bs, rx_buf (s_data s) = (if x_rx x then Some bs else None) /\ length bs = (d * W)%nat /\ (lossy = false -> bs = take d (answers c) ≫= le_bytes W);
  fl_txo : txo (s_reg s) = false;
  fl_rxo : rxo (s_reg s) = true -> lossy = true;
  fl_lost : lossy = true -> rxo (s_reg s) = true \/ xfer_done (s_data s) = true;
  fl_en : ssienr (s_reg s) = true;
  fl_w : width s = Z.of_nat W;
}.

Lemma out_length : length out = n.
Proof. clear Wpos Hlen Hmax Htx. unfold out. destruct (x_tx x); [apply frames_length|apply length_replicate]. Qed.
Lemma answers_length c : (c <= n)%nat -> length (answers c) = c.
Proof. intros Hc. unfold answers. rewrite exchange_length, length_take, out_length. lia. Qed.
Lemma answers_S c y : out !! c = Some y -> answers (S c) = answers c ++ [(sl_clock (exchange sl0 (take c out)).2 y).1] /\
  (exchange sl0 (take (S c) out)).2 = (sl_clock (exchange sl0 (take c out)).2 y).2.
Proof.
  intros Hy. unfold answers. rewrite (take_snoc _ _ _ Hy), exchange_snoc. destruct (exchange sl0 (take c out)) as [r s1]. simpl. by destruct (sl_clock s1 y).
Qed.

(** What the code of an interrupt does not touch behind the FIFOs. *)
Record kept s s' : Prop := {
  k_imr : imr (s_reg s') = imr (s_reg s);
  k_done : xfer_done (s_data s') = xfer_done (s_data s);
  k_err : xfer_err (s_data s') = xfer_err (s_data s);
  k_evs : s_evs s' = s_evs s;
  k_wakes : s_wakes s' = s_wakes s;
  k_dma : dma_enable (s_data s') = dma_enable (s_data s);
}.
Lemma kept_refl s : kept s s.
Proof. by split. Qed.
Lemma kept_trans s s1 s2 : kept s s1 -> kept s1 s2 -> kept s s2.
Proof. intros [] []. split; congruence. Qed.

Lemma shift_flow f c d lossy s : flow f c d lossy s -> exists c' lossy', flow f c' d lossy' (shift s) /\ kept s (shift s).
Proof.
  intros H. unfold shift. destruct (tx_fifo (s_reg s)) as [|y q] eqn:Eq; [exists c, lossy; by split|]. rewrite (fl_en _ _ _ _ _ H).
  pose proof (fl_tx _ _ _ _ _ H) as Ht. rewrite Eq in Ht. symmetry in Ht. apply window_pop in Ht as (Hy & Hcf & Hq). destruct (answers_S c y Hy) as [Ha Hs].
  rewrite (fl_slave _ _ _ _ _ H). destruct (sl_clock _ y) as [v sl] eqn:Ev. cbn [fst snd] in *. pose proof (fl_ord _ _ _ _ _ H) as Ho. pose proof (fl_rx _ _ _ _ _ H) as Hrx.
  pose proof (fl_ans _ _ _ _ _ H) as Hans. destruct (fl_out _ _ _ _ _ H) as (bs & Hb & Hbl & Hbc). pose proof (answers_length c ltac:(lia)) as Hal.
  destruct (Z.leb_spec SPI_FIFO_DEPTH (Z.of_nat (length (rx_fifo (s_reg s))))) as [Hfull|Hroom]; unfold SPI_FIFO_DEPTH in *; cbv zeta.
  - exists (S c), true. split; [|by split]. destruct H. split; cbn; try done; try lia.
    + rewrite fl_wire0, <- app_assoc, (take_snoc _ _ _ Hy). done.
    + destruct lossy; [lia|]. rewrite Hans, length_drop, Hal in *. lia.
    + exists bs. split_and!; done.
  - exists (S c), lossy. split; [|by split]. destruct H. split; cbn; try done; try lia.
    + rewrite fl_wire0, <- app_assoc, (take_snoc _ _ _ Hy). done.
    + rewrite length_app. simpl. lia.
    + destruct lossy; [rewrite length_app; simpl; lia|]. rewrite Ha, Hans, drop_app_le by lia. done.
    + exists bs. split_and!; [done|done|]. intros Hl. rewrite Ha, take_app_le by lia. by apply Hbc.
    + rewrite orb_false_r. done.
    + rewrite orb_false_r. done.
Qed.
Lemma shifts_flow k : forall f c d lossy s, flow f c d lossy s -> exists c' lossy', flow f c' d lossy' (Nat.iter k shift s) /\ kept s (Nat.iter k shift s).
Proof.
  induction k as [|k IH]; intros f c d lossy s H; simpl; [exists c, lossy; split; [done|apply kept_refl]|]. destruct (IH _ _ _ _ _ H) as (c1 & l1 & H1 & K1).
  destruct (shift_flow _ _ _ _ _ H1) as (c2 & l2 & H2 & K2). exists c2, l2. split; [done|by eapply kept_trans].
Qed.
Lemma hw_run_flow f c d lossy s : flow f c d lossy s -> wp hw_run (fun _ s' => kept s s' /\ exists c' lossy', flow f c' d lossy' s') s.
Proof.
  intros H. unfold hw_run. wp_step. cbv zeta. set (s1 := set_sched _ _ _ s). assert (H1 : flow f c d lossy s1) by (destruct H; by split).
  destruct (shifts_flow (default 0%nat (head (s_ks s))) _ _ _ _ _ H1) as (c2 & l2 & H2 & K2). split; [|by exists c2, l2]. apply (kept_trans s s1); [by split|done].
Qed.

Lemma tx_length f c d lossy s : flow f c d lossy s -> length (tx_fifo (s_reg s)) = (f - c)%nat.
Proof. intros H. rewrite (fl_tx _ _ _ _ _ H), length_take, length_drop, out_length. pose proof (fl_ord _ _ _ _ _ H). lia. Qed.

Lemma count_zero (k : nat) : (Z.of_nat n - Z.of_nat k) * Z.of_nat W = 0 -> (k <= n)%nat -> k = n.
Proof. intros H Hk. apply Z.mul_eq_0 in H. lia. Qed.

(** Frame [f] from the buffer into the FIFO. *)
Lemma buf_tx_flow f c d lossy s : flow f c d lossy s -> (f < n)%nat -> (f - c < 32)%nat ->
  wp (spi_dw_buf_tx (Z.of_nat W)) (fun _ s' => kept s s' /\ flow (S f) c d lossy s') s.
Proof.
  intros H Hf Hfc. pose proof (tx_length _ _ _ _ _ H) as Htl. pose proof (fl_ord _ _ _ _ _ H) as Ho. pose proof (fl_txb _ _ _ _ _ H) as Hb. unfold spi_dw_buf_tx, write_dr. wp_step. wp_step. wp_step.
  assert (Hend : forall s1 v, kept s s1 -> out !! f = Some v ->
    s1 = set_data (with_bufs (drop (S f * W) <$> x_tx x) (rx_buf (s_data s))) s ->
    wp (modify (set_data (fun d => with_counts (u32 (tx_count d - Z.of_nat W)) (rx_count d) d)) ;; write_dr v) (fun _ s' => kept s s' /\ flow (S f) c d lossy s') s1).
  { intros s1 v K1 Hv ->. unfold write_dr. wp_step. wp_step. wp_step. unfold set_reg, set_data. cbn [s_reg s_data s_bus s_slave s_wire s_ks s_evs s_wakes].
    rewrite (proj2 (Z.leb_gt SPI_FIFO_DEPTH (Z.of_nat (length (tx_fifo (s_reg s)))))) by (unfold SPI_FIFO_DEPTH; lia).
    split; [by split|]. destruct H. split; cbn; try done; try lia.
    - rewrite fl_tx0. apply window_push; [lia|done].
    - rewrite u32_small; nia. }
  destruct (x_tx x) as [T|] eqn:ET; rewrite Hb; cbn [fmap option_fmap option_map].
  - pose proof (Htx T eq_refl) as HT. replace (Z.of_nat (length (drop (f * W) T)) <? Z.of_nat W) with false by (symmetry; apply Z.ltb_ge; rewrite length_drop; nia).
    wp_step. wp_step. wp_step. rewrite !Nat2Z.id. apply Hend; [by split| |].
    + unfold out. rewrite ET. by apply frames_lookup.
    + unfold set_data. by rewrite drop_drop, Nat.add_comm.
  - wp_step. apply Hend; [by split| |].
    + unfold out. rewrite ET. by apply lookup_replicate_2.
    + unfold set_data, with_bufs. clear - Hb. destruct s as [? [] ? ? ? ? ? ?]. cbn in *. by rewrite Hb.
Qed.

Lemma tx_fill_loop fuel : forall f c d lossy s k, flow f c d lossy s -> (n - f < fuel)%nat ->
  wp (loop fuel (tx_fill_body (Z.of_nat W)) k) (fun _ s' => kept s s' /\ exists f' c' lossy', flow f' c' d lossy' s') s.
Proof.
  induction fuel as [|fuel IH]; intros f c d lossy s k H Hl; [lia|]. apply wp_loop_S. unfold tx_fill_body at 1. wp_step. wp_step.
  pose proof (fl_ord _ _ _ _ _ H) as Ho. destruct (Z.eqb_spec (tx_count (s_data s)) 0) as [E|E]; [wp_step; split; [by split|by exists f, c, lossy]|].
  rewrite (fl_txc _ _ _ _ _ H) in E. assert (Hf : (f < n)%nat) by (destruct (decide (f = n)) as [->|]; [rewrite Z.sub_diag in E; lia|lia]).
  unfold txflr. wp_step. wp_step. eapply wp_mono; [by apply (hw_run_flow f c d lossy)|]. intros [] s1 (K1 & c1 & l1 & H1). wp_step. rewrite (tx_length _ _ _ _ _ H1).
  pose proof (fl_ord _ _ _ _ _ H1) as Ho1. rewrite u32_small by (unfold SPI_FIFO_DEPTH; lia). destruct (Z.eqb_spec (SPI_FIFO_DEPTH - Z.of_nat (f - c1)) 0) as [E1|E1]; unfold SPI_FIFO_DEPTH in E1.
  - wp_step. split; [done|by exists f, c1, l1].
  - wp_step. eapply wp_mono; [apply (buf_tx_flow f c1 d l1 s1); [done|done|lia]|]. intros [] s2 (K2 & H2). wp_step.
    eapply wp_mono; [apply (IH (S f) c1 d l1 s2); [done|lia]|]. intros r s3 (K3 & H3). split; [|done]. by eapply kept_trans; [|eapply kept_trans].
Qed.
Lemma tx_fill_flow f c d lossy s : flow f c d lossy s ->
  wp (spi_dw_tx_fill (Z.of_nat W)) (fun _ s' => kept s s' /\ exists f' c' lossy', flow f' c' d lossy' s') s.
Proof.
  intros H. unfold spi_dw_tx_fill. wp_step. wp_step. apply (tx_fill_loop _ f c d lossy); [done|]. rewrite (fl_txc _ _ _ _ _ H). pose proof (fl_ord _ _ _ _ _ H). nia.
Qed.

(** The oldest answer from the FIFO into the buffer. *)
Lemma buf_rx_flow (k : Z) f c d lossy s v q : flow f c d lossy s -> (d < n)%nat -> rx_fifo (s_reg s) = v :: q ->
  wp (spi_dw_buf_rx (Z.of_nat W) ;; modify (set_data (fun d => with_counts (tx_count d) (u64 (rx_count d - Z.of_nat W)) d)) ;; ret (inl k : Z + Z))
    (fun y s' => y = inl k /\ kept s s' /\ flow f c (S d) lossy s') s.
Proof.
  intros H Hd Hq. unfold spi_dw_buf_rx, read_dr. wp_step. wp_step. wp_step. wp_step. rewrite Hq. repeat wp_step. split; [done|]. split; [by split|].
  pose proof (fl_ord _ _ _ _ _ H) as Ho. pose proof (fl_ans _ _ _ _ _ H) as Hans. rewrite Hq in Hans. destruct (fl_out _ _ _ _ _ H) as (bs & Hb & Hbl & Hbc). pose proof (answers_length c ltac:(lia)) as Hal.
  assert (Hdc : (d < c)%nat) by (destruct lossy; simpl in Hans; [lia|]; assert (length (drop d (answers c)) = S (length q)) by (by rewrite <- Hans); rewrite length_drop, Hal in *; lia).
  assert (Hv : lossy = false -> answers c !! d = Some v /\ q = drop (S d) (answers c)).
  { intros ->. assert (Hx : drop d (answers c) !! 0%nat = Some v) by (by rewrite <- Hans). rewrite lookup_drop, Nat.add_0_r in Hx. split; [done|]. rewrite (drop_S _ _ _ Hx) in Hans. by injection Hans. }
  destruct H. split; cbn; try done; try lia.
  - rewrite fl_rxc0, u64_small; nia.
  - rewrite Hq in fl_rx0. simpl in *. lia.
  - destruct lossy; [simpl in Hans; lia|]. by apply Hv.
  - exists (bs ++ le_bytes W v). rewrite Hb, Nat2Z.id. split_and!; [by destruct (x_rx x)|rewrite length_app, le_bytes_length; lia|]. intros Hl. destruct (Hv Hl) as [Hx _].
    rewrite (take_snoc _ _ _ Hx), bind_app, <- Hbc by done. cbn. by rewrite app_nil_r.
Qed.

Lemma rx_drain_loop fuel : forall f c d lossy s k, flow f c d lossy s -> (n - d < fuel)%nat ->
  wp (loop fuel (rx_drain_body (Z.of_nat W)) k) (fun _ s' => kept s s' /\ exists c' d' lossy', flow f c' d' lossy' s') s.
Proof.
  induction fuel as [|fuel IH]; intros f c d lossy s k H Hl; [lia|]. apply wp_loop_S. unfold rx_drain_body at 1, rxflr. wp_step. wp_step.
  eapply wp_mono; [by apply (hw_run_flow f c d lossy)|]. intros [] s1 (K1 & c1 & l1 & HF1). wp_step. wp_step. wp_step. pose proof (fl_ord _ _ _ _ _ HF1) as Ho.
  destruct (_ || _) eqn:E; [wp_step; split; [done|by exists c1, d, l1]|]. breflect.
  rewrite (fl_rxc _ _ _ _ _ HF1) in *. assert (Hd : (d < n)%nat) by (destruct (decide (d = n)) as [->|]; [rewrite Z.sub_diag in *; lia|lia]).
  destruct (rx_fifo (s_reg s1)) as [|v q] eqn:Eq; [done|]. eapply wp_mono; [by apply (buf_rx_flow (k + 1) f c1 d l1 s1 v q)|]. intros y s2 (-> & K2 & HF2).
  eapply wp_mono; [apply (IH f c1 (S d) l1 s2); [done|lia]|]. intros r s3 (K3 & HF3). split; [|done]. by eapply kept_trans; [|eapply kept_trans].
Qed.
Lemma rx_drain_flow f c d lossy s : flow f c d lossy s ->
  wp (spi_dw_rx_drain (Z.of_nat W)) (fun _ s' => kept s s' /\ exists c' d' lossy', flow f c' d' lossy' s') s.
Proof.
  intros H. unfold spi_dw_rx_drain. wp_step. wp_step. apply (rx_drain_loop _ f c d lossy); [done|]. rewrite (fl_rxc _ _ _ _ _ H). pose proof (fl_ord _ _ _ _ _ H). nia.
Qed.

(** ** The interrupt *)

Definition all_irqs : Z := 0x1b.
Definition no_txe : Z := 0x1a.
(** Between interrupts: the transfer goes on with the interrupts it needs, or
    it is over, complete or with an answer lost. *)
Definition stage s : Prop :=
  exists f c d lossy, flow f c d lossy s /\
    if xfer_done (s_data s) then imr (s_reg s) = 0 /\ (xfer_err (s_data s) = - EOVERFLOW \/ xfer_err (s_data s) = err0 /\ d = n)
    else xfer_err (s_data s) = err0 /\ (d = n -> n = 0%nat) /\ (imr (s_reg s) = all_irqs \/ imr (s_reg s) = no_txe /\ f = n).

Lemma bit_masks g :
  imr g = all_irqs \/ imr g = no_txe -> txo g = false ->
  bit (status g) SPI_ISR_RXO = rxo g /\ bit (status g) SPI_ISR_TXO = false /\ bit (status g) SPI_ISR_RXF = negb (bool_decide (rx_fifo g = [])) /\
  bit (status g) SPI_ISR_TXE = bool_decide (tx_fifo g = []) && bool_decide (imr g = all_irqs).
Proof.
  intros Hi Ht. unfold status. rewrite Ht. destruct Hi as [-> | ->]; destruct (rxo g); destruct (bool_decide (tx_fifo g = [])); destruct (bool_decide (rx_fifo g = [])); vm_compute; done.
Qed.

Lemma flow_imr m f c d lossy s : flow f c d lossy s -> flow f c d lossy (set_reg (with_imr m) s).
Proof. intros H. destruct H. by split. Qed.
Lemma flow_done err f c d lossy s : flow f c d lossy s -> flow f c d lossy (set_data (with_done true err) s).
Proof. intros H. destruct H. split; try done. intros _. by right. Qed.
Lemma flow_sched ks evs wk f c d lossy s : flow f c d lossy s -> flow f c d lossy (set_sched ks evs wk s).
Proof. intros H. destruct H. by split. Qed.

Lemma wake_stage s : stage s -> wp (s <- get ;; when (xfer_done (s_data s)) (modify (fun s => set_sched (s_ks s) (s_evs s) (S (s_wakes s)) s))) (fun _ s' => stage s') s.
Proof.
  intros (f & c & d & l & H & Hc). wp_step. wp_step. wp_step; [wp_step|].
  - exists f, c, d, l. split; [by apply flow_sched|exact Hc].
  - by exists f, c, d, l.
Qed.

(** Refilling, and no more interrupts for it when all is sent. *)
Lemma isr_tx_flow f c d lossy s b : flow f c d lossy s -> imr (s_reg s) = all_irqs \/ imr (s_reg s) = no_txe /\ f = n -> (b = true -> imr (s_reg s) = all_irqs) ->
  wp (when b (spi_dw_tx_fill (Z.of_nat W) ;; s <- get ;; when (tx_count (s_data s) =? 0) (modify (set_reg (fun g => with_imr (Z.land (imr g) (Z.lnot SPI_ISR_TXE)) g)))))
    (fun _ s' => xfer_done (s_data s') = xfer_done (s_data s) /\ xfer_err (s_data s') = xfer_err (s_data s) /\
      exists f' c' lossy', flow f' c' d lossy' s' /\ (imr (s_reg s') = all_irqs \/ imr (s_reg s') = no_txe /\ f' = n)) s.
Proof.
  intros H Hi Hb. wp_step; [|split_and!; [done|done|by exists f, c, lossy]]. rename H0 into Eb. pose proof (Hb Eb) as Hall. wp_step. eapply wp_mono; [by apply (tx_fill_flow f c d lossy)|].
  intros r s1 ([] & f1 & c1 & l1 & H1). wp_step. wp_step. wp_step.
  - breflect. wp_step. split_and!; [done|done|]. exists f1, c1, l1. split; [exact (flow_imr (Z.land (imr (s_reg s1)) (Z.lnot SPI_ISR_TXE)) f1 c1 d l1 s1 H1)|]. right. split; [cbn; by rewrite k_imr0, Hall|].
    rewrite (fl_txc _ _ _ _ _ H1) in *. pose proof (fl_ord _ _ _ _ _ H1). apply count_zero; [done|lia].
  - split_and!; [done|done|]. exists f1, c1, l1. split; [done|]. left. congruence.
Qed.

(** Draining, and the end when all answers are in. *)
Lemma isr_rx_stage f c d lossy s b : flow f c d lossy s -> imr (s_reg s) = all_irqs \/ imr (s_reg s) = no_txe /\ f = n ->
  xfer_done (s_data s) = false -> xfer_err (s_data s) = err0 -> (d = n -> n = 0%nat) ->
  wp (when b (spi_dw_rx_drain (Z.of_nat W) ;; s <- get ;; when (rx_count (s_data s) =? 0) (finish None))) (fun _ s' => stage s') s.
Proof.
  intros H Hi Hd He Hn. wp_step; [|exists f, c, d, lossy; split; [done|by rewrite Hd]]. wp_step. eapply wp_mono; [by apply (rx_drain_flow f c d lossy)|].
  intros r s1 ([] & c1 & d1 & l1 & H1). wp_step. wp_step. pose proof (fl_ord _ _ _ _ _ H1) as Ho. unfold finish. wp_step; breflect; rewrite (fl_rxc _ _ _ _ _ H1) in *.
  - wp_step. wp_step. wp_step. exists f, c1, d1, l1. split; [apply flow_imr, flow_done, H1|]. cbn. split; [done|]. right. split; [congruence|]. apply count_zero; [done|lia].
  - exists f, c1, d1, l1. split; [done|]. rewrite k_done0, Hd. split_and!; [congruence| |by rewrite k_imr0]. intros ->. by rewrite Z.sub_diag in *.
Qed.

Lemma isr_stage s : stage s -> wp spi_dw_isr (fun _ s' => stage s') s.
Proof.
  intros (f & c & d & l & H & Hc). unfold spi_dw_isr, read_isr. wp_step. apply frame_size_wp. rewrite (fl_w _ _ _ _ _ H). wp_step. wp_step.
  eapply wp_mono; [by apply (hw_run_flow f c d l)|]. intros [] s1 (K1 & c1 & l1 & H1). wp_step. destruct K1. rewrite <- k_done0, <- k_err0, <- k_imr0 in Hc. wp_step.
  apply (wp_mono _ (fun _ s' => stage s')); [|intros [] s2 H2; by apply wake_stage]. destruct (xfer_done (s_data s1)) eqn:Ed.
  { destruct Hc as [Hi Hc]. assert (Hs : status (s_reg s1) = 0) by (unfold status; by rewrite Hi). rewrite Hs. cbn. exists f, c1, d, l1. split; [done|]. by rewrite Ed. }
  destruct Hc as (He & Hn & Hi). destruct (bit_masks (s_reg s1) ltac:(tauto) (fl_txo _ _ _ _ _ H1)) as (-> & -> & -> & HT). destruct (rxo (s_reg s1)) eqn:Er.
  - unfold finish. repeat wp_step. exists f, c1, d, l1. split; [|cbn; split; [done|by left]]. pose proof (fl_rxo _ _ _ _ _ H1 Er) as ->. destruct H1. split; try done. intros _. by right.
  - wp_step. eapply wp_mono; [apply (isr_tx_flow f c1 d l1 s1); [done|done|]|].
    { rewrite HT. intros E. apply andb_true_iff in E as [_ E]. by apply bool_decide_eq_true_1 in E. }
    intros [] s2 (D2 & E2 & f2 & c2 & l2 & H2 & I2). apply (isr_rx_stage f2 c2 d l2 s2); [done|done|congruence|congruence|done].
Qed.

(** ** The wait *)

(** How a transfer can end: whatever is on the wire is a beginning of the
    frames of [x] and what is stored fits the buffer; with result 0 it is all
    of it, and the answers are stored. *)
Definition ended (r : Z) s : Prop :=
  exists c d, (d <= c <= n)%nat /\ s_wire s = wire0 ++ take c out /\ s_slave s = (exchange sl0 (take c out)).2 /\
    xfer_done (s_data s) = false /\ width s = Z.of_nat W /\ ssienr (s_reg s) = true /\
    (exists bs, rx_buf (s_data s) = (if x_rx x then Some bs else None) /\ length bs = (d * W)%nat /\ (r = 0 -> bs = answers n ≫= le_bytes W)) /\
    (r = err0 \/ r = - EOVERFLOW \/ r = - ETIMEDOUT) /\
    (r = 0 -> err0 = 0 /\ xfer_err (s_data s) = 0 /\ c = n /\ tx_fifo (s_reg s) = [] /\ rx_fifo (s_reg s) = []).

Lemma answers_all : take n (answers n) = answers n.
Proof. rewrite <- (answers_length n ltac:(lia)) at 1. apply firstn_all. Qed.

(** Every answer is stored: nothing was lost and nothing is left. *)
Lemma flow_complete f c lossy s : flow f c n lossy s -> lossy = false /\ c = n /\ tx_fifo (s_reg s) = [] /\ rx_fifo (s_reg s) = [].
Proof.
  intros H. pose proof (fl_ord _ _ _ _ _ H) as Ho. pose proof (fl_ans _ _ _ _ _ H) as Ha. destruct lossy; [lia|]. assert (c = n) as -> by lia. assert (f = n) as -> by lia.
  split_and!; [done|done|rewrite (fl_tx _ _ _ _ _ H), Nat.sub_diag; done|]. rewrite Ha. rewrite <- (answers_length n ltac:(lia)) at 1. apply drop_all.
Qed.

Lemma flow_ended f c d lossy s r ks evs wk : flow f c d lossy s -> (r = err0 \/ r = - EOVERFLOW \/ r = - ETIMEDOUT) -> (r = 0 -> d = n /\ xfer_err (s_data s) = 0 /\ err0 = 0) ->
  ended r (set_sched ks evs wk (set_data (fun d => with_done false (xfer_err d) d) s)).
Proof.
  intros H Hv Hr. pose proof (fl_ord _ _ _ _ _ H) as Ho. exists c, d. split; [lia|]. split; [apply H|]. split; [apply H|]. split; [done|]. split; [apply H|]. split; [apply H|]. split; [|split; [done|]].
  - destruct (fl_out _ _ _ _ _ H) as (bs & Hb & Hl & Hc). exists bs. split_and!; [done|done|]. intros E. destruct (Hr E) as (-> & _). destruct (flow_complete f c lossy s H) as (-> & -> & _). by rewrite Hc, answers_all.
  - intros E. destruct (Hr E) as (-> & ? & ?). destruct (flow_complete f c lossy s H) as (-> & -> & ? & ?). done.
Qed.

Lemma event_stage e s : stage s -> wp (event e) (fun _ s' => stage s') s.
Proof.
  intros H. destruct H as (f & c & d & l & H & Hc). destruct e; cbn [event]; [| |wp_step; by exists f, c, d, l..].
  - wp_step. destruct (shift_flow _ _ _ _ _ H) as (c1 & l1 & H1 & []). exists f, c1, d, l1. split; [done|]. by rewrite k_done0, k_err0, k_imr0.
  - wp_step. wp_step. apply isr_stage. exists f, c, d, l. split; [by apply flow_sched|done].
Qed.

Lemma wait_ended es : forall s, stage s -> wp (wait_events es) (fun r s' => ended r s') s.
Proof.
  induction es as [|e es IH]; intros s (f & c & d & l & H & Hc); cbn [wait_events]; wp_step; wp_step; destruct (xfer_done (s_data s)) eqn:Ed.
  1,3: destruct Hc as [_ Hc]; repeat wp_step; apply (flow_ended f c d l); [done|tauto|]; intros E; unfold EOVERFLOW in Hc; destruct Hc as [Hc|[Hc ->]]; [lia|split_and!; [done|lia|lia]].
  - repeat wp_step. apply (flow_ended f c d l); [done|tauto|done].
  - assert (Hs : stage s) by (exists f, c, d, l; by rewrite Ed). destruct e; try (wp_step; eapply wp_mono; [by apply event_stage|]; intros [] s1 H1; by apply IH).
    repeat wp_step. apply (flow_ended f c d l); [done|tauto|done].
Qed.

Lemma ended_imr m r s : ended r s -> ended r (set_reg (with_imr m) s).
Proof. done. Qed.

(** Prefilled and with its interrupts on. *)
Definition begun s : Prop :=
  tx_fifo (s_reg s) = [] /\ rx_fifo (s_reg s) = [] /\ ssienr (s_reg s) = true /\ xfer_done (s_data s) = false /\
  s_slave s = sl0 /\ s_wire s = wire0 /\ xfer_err (s_data s) = err0 /\ width s = Z.of_nat W.

Lemma begun_flow s : begun s -> flow 0 0 0 false
  (set_reg (fun g => with_fifos (tx_fifo g) (rx_fifo g) false false g)
    (set_data (with_counts (u32 (x_len x)) (u32 (x_len x))) (set_data (with_bufs (x_tx x) (if x_rx x then Some [] else None)) s))).
Proof.
  intros (Ht & Hr & He & Hd & Hs & Hw & Herr & HW). rewrite u32_small by lia. split; cbn; try done; try lia.
  - by destruct (x_tx x).
  - by rewrite Hw, app_nil_r.
  - rewrite Hr. simpl. lia.
  - exists []. done.
Qed.

(** The code up to the wait. *)
Definition int_start : M (spist SL) unit :=
  modify (set_data (with_bufs (x_tx x) (if x_rx x then Some [] else None))) ;;
  modify (set_data (with_counts (u32 (x_len x)) (u32 (x_len x)))) ;;
  modify (set_reg (fun g => with_fifos (tx_fifo g) (rx_fifo g) false false g)) ;;
  spi_dw_tx_fill (Z.of_nat W) ;;
  modify (set_reg (with_imr (Z.lor (Z.lor SPI_ISR_TXE SPI_ISR_RXF) (Z.lor SPI_ISR_RXO SPI_ISR_TXO)))).

Lemma start_stage s : begun s -> wp int_start (fun _ s' => stage s') s.
Proof.
  intros H. pose proof (begun_flow s H) as Hf. destruct H as (Ht & Hr & He & Hd & Hs & Hw & Herr & HW). unfold int_start. wp_step. wp_step. wp_step. wp_step. wp_step. wp_step. wp_step.
  set (s1 := set_reg _ _) in *. assert (Hd1 : xfer_done (s_data s1) = false) by done. assert (He1 : xfer_err (s_data s1) = err0) by done. clearbody s1.
  eapply wp_mono; [by apply (tx_fill_flow 0 0 0 false s1)|]. intros r s2 ([] & f & c & l & H2). wp_step. exists f, c, 0%nat, l. split; [by apply flow_imr|]. cbn. rewrite k_done0, Hd1.
  split_and!; [congruence|done|by left].
Qed.

(** In no state of a transfer everything waits for everything else: a frame
    can be shifted, or an interrupt is pending. *)
Lemma stage_progress s : stage s -> xfer_done (s_data s) = false -> n <> 0%nat -> tx_fifo (s_reg s) <> [] \/ status (s_reg s) <> 0.
Proof.
  intros (f & c & d & l & H & Hc) Hd Hn. rewrite Hd in Hc. destruct Hc as (_ & Hdn & Hi). destruct (decide (tx_fifo (s_reg s) = [])) as [Et|Et]; [|by left]. right.
  destruct (bit_masks (s_reg s) ltac:(tauto) (fl_txo _ _ _ _ _ H)) as (HR & _ & HF & HT). intros Hs. rewrite Hs in *. change (bit 0 _) with false in *.
  pose proof (tx_length _ _ _ _ _ H) as Htl. rewrite Et in Htl. simpl in Htl. pose proof (fl_ord _ _ _ _ _ H) as Ho. assert (f = c) as -> by lia.
  symmetry in HF, HT. apply negb_false_iff, bool_decide_eq_true_1 in HF. rewrite (bool_decide_eq_true_2 _ Et) in HT. cbn in HT. apply bool_decide_eq_false_1 in HT.
  assert (c = n) as -> by (destruct Hi as [Hi|[_ Hi]]; [done|done]). pose proof (fl_ans _ _ _ _ _ H) as Ha. destruct l; [destruct (fl_lost _ _ _ _ _ H eq_refl); congruence|].
  rewrite HF in Ha. assert (length (drop d (answers n)) = 0%nat) as Hz by (by rewrite <- Ha). rewrite length_drop, answers_length in Hz by lia. assert (d = n) by lia. tauto.
Qed.
End transfer.

(** ** Transfers *)

(** A controller between transfers. *)
Record ready s : Prop := {
  rd_tx : tx_fifo (s_reg s) = [];
  rd_rx : rx_fifo (s_reg s) = [];
  rd_en : ssienr (s_reg s) = true;
  rd_done : xfer_done (s_data s) = false;
}.
Record xfer_ok (x : spi_xfer) : Prop := {
  xo_len : 0 <= x_len x < 2 ^ 32;
  xo_tx : forall T, x_tx x = Some T -> Z.of_nat (length T) = x_len x;
}.
Definition nframes (x : spi_xfer) s : nat := Z.to_nat (x_len x / width s).

Lemma width_pos s : 0 < width s.
Proof. destruct (width_cases s) as [-> |[-> | ->]]; lia. Qed.
Lemma nframes_len x s : 0 <= x_len x -> x_len x mod width s = 0 -> x_len x = Z.of_nat (nframes x s) * Z.of_nat (Z.to_nat (width s)).
Proof.
  intros Hx Hm. pose proof (width_pos s) as Hw. unfold nframes. rewrite !Z2Nat.id by (try apply Z.div_pos; lia). pose proof (Z.div_mod (x_len x) (width s)). lia.
Qed.

Lemma int_transfer_ended x s : ready s -> xfer_ok x -> x_len x mod width s = 0 ->
  wp (spi_dw_int_transfer x) (fun y s' => ended x (nframes x s) (Z.to_nat (width s)) (s_slave s) (s_wire s) (xfer_err (s_data s)) y.1 s' /\ y.2 = received x s') s.
Proof.
  intros Hr [Hx Htx] Hm. pose proof (nframes_len x s ltac:(lia) Hm) as Hn. pose proof (width_pos s) as Hw. unfold spi_dw_int_transfer. wp_step. apply frame_size_wp. rewrite Hm. cbn [Z.eqb negb].
  assert (HW : width s = Z.of_nat (Z.to_nat (width s))) by lia.
  assert (Hs : wp (int_start x (Z.to_nat (width s))) (fun _ s' => stage x (nframes x s) (Z.to_nat (width s)) (s_slave s) (s_wire s) (xfer_err (s_data s)) s') s).
  { apply start_stage; [lia|done|lia|done|]. destruct Hr. by split_and!. }
  unfold int_start in Hs. rewrite <- HW in Hs. wp_step. apply wp_bind_inv in Hs. eapply wp_mono; [exact Hs|]. clear Hs. intros [] s1 Hs. wp_step. apply wp_bind_inv in Hs. eapply wp_mono; [exact Hs|].
  clear Hs. intros [] s2 Hs. wp_step. apply wp_bind_inv in Hs. eapply wp_mono; [exact Hs|]. clear Hs. intros [] s3 Hs. wp_step. apply wp_bind_inv in Hs. eapply wp_mono; [exact Hs|]. clear Hs. intros k s4 Hs.
  wp_step. eapply wp_mono; [exact Hs|]. clear Hs. intros [] s5 Hs. unfold spi_wait_xfer. wp_step. wp_step. wp_step. eapply wp_mono; [eapply wait_ended; [| | | |exact Hs]; [lia|exact Hn|lia|exact Htx]|]. intros r s6 He. wp_step. wp_step. wp_step. wp_step. wp_step. split; [exact He|done].
Qed.

(** ** Messages *)

(** The frames of a segment, and the exchange of whole segments. *)
Definition segment (W : Z) (x : spi_xfer) : list Z := out x (Z.to_nat (x_len x / W)) (Z.to_nat W).
Fixpoint duplex (W : Z) (sl : SL) (xs : list spi_xfer) : list (list Z) * SL :=
  match xs with
  | [] => ([], sl)
  | x :: xs' =>
      let '(vs, sl1) := exchange sl (segment W x) in
      let '(rest, sl2) := duplex W sl1 xs' in
      ((if x_rx x then vs ≫= le_bytes (Z.to_nat W) else []) :: rest, sl2)
  end.

(** A segment is done: frames on the wire, answers in the buffer. *)
Definition seg_post (x : spi_xfer) s (y : Z * list Z) s' : Prop :=
  y.1 <= 0 /\ width s' = width s /\ (exists k, s_wire s' = s_wire s ++ take k (segment (width s) x)) /\ Z.of_nat (length y.2) <= x_len x /\
  (y.1 = 0 -> ready s' /\ xfer_err (s_data s') <= 0 /\ s_wire s' = s_wire s ++ segment (width s) x /\ s_slave s' = (exchange (s_slave s) (segment (width s) x)).2 /\
     y.2 = if x_rx x then (exchange (s_slave s) (segment (width s) x)).1 ≫= le_bytes (Z.to_nat (width s)) else []).

Lemma int_segment x s : ready s -> xfer_ok x -> xfer_err (s_data s) <= 0 -> wp (spi_dw_int_transfer x) (seg_post x s) s.
Proof.
  intros Hr Hx He. pose proof (xo_len x Hx) as Hlen. destruct (decide (x_len x mod width s = 0)) as [Hm|Hm].
  2:{ unfold spi_dw_int_transfer. wp_step. apply frame_size_wp. rewrite (proj2 (Z.eqb_neq _ _) Hm). cbn [negb]. wp_step. split_and!; cbn; try done; try lia. exists 0%nat. by rewrite app_nil_r. }
  pose proof (nframes_len x s ltac:(lia) Hm) as Hn. pose proof (width_pos s) as Hw.
  eapply wp_mono; [by apply int_transfer_ended|]. intros [r bs] s' [(c & d & Ho & Hwire & Hsl & Hd & HW & Hen & (out' & Hb & Hbl & Hbc) & Hv & Hz) Hbs]. cbn [fst snd] in *. subst bs.
  assert (Hrec : received x s' = if x_rx x then out' else []) by (unfold received; rewrite Hb; by destruct (x_rx x)). unfold seg_post. cbn [fst snd]. rewrite Hrec.
  split_and!; [unfold EOVERFLOW, ETIMEDOUT in Hv; lia|lia|by exists c|destruct (x_rx x); simpl; nia|]. intros E. destruct (Hz E) as (_ & He' & -> & Htx & Hrx).
  assert (Hall : take (nframes x s) (segment (width s) x) = segment (width s) x) by (apply take_ge; unfold segment; rewrite out_length; done).
  unfold segment in Hall. fold (nframes x s) in Hall. fold (nframes x s). unfold segment. fold (nframes x s).
  split_and!; [by split|lia|by rewrite Hwire, Hall|by rewrite Hsl, Hall|]. rewrite (Hbc E). unfold answers. by rewrite Hall.
Qed.

Lemma dma_segment x s T : ready s -> xfer_ok x -> xfer_err (s_data s) <= 0 -> x_tx x = Some T -> x_rx x = true -> x_len x mod width s = 0 -> x_len x / width s * 2 * 4 <= 4096 ->
  wp (spi_dw_dma_transfer x) (seg_post x s) s.
Proof.
  intros Hr Hx He HT Hrx Hm Hpage. pose proof (xo_len x Hx) as Hlen. pose proof (xo_tx x Hx T HT) as HTl. pose proof (width_pos s) as Hw. pose proof (nframes_len x s ltac:(lia) Hm) as Hn.
  assert (Hc : 0 <= x_len x / width s) by (apply Z.div_pos; lia). assert (Hcw : x_len x / width s * width s = x_len x) by (pose proof (Z.div_mod (x_len x) (width s)); lia).
  assert (Hseg : segment (width s) x = frames (Z.to_nat (x_len x / width s)) (Z.to_nat (width s)) T) by (unfold segment, out; by rewrite HT).
  unfold spi_dw_dma_transfer. wp_step. apply frame_size_wp. rewrite (proj2 (Z.ltb_ge 1024 _)) by lia. rewrite HT, Hcw, (proj2 (Z.ltb_ge (Z.of_nat (length T)) _)) by lia.
  rewrite <- Hseg. set (fs := segment (width s) x) in *. unfold spi_dw_dma_xfer. wp_step. wp_step. wp_step.
  assert (Hrun : forall (k : nat) r evs, (r = 0 /\ k = length fs) \/ r < 0 ->
    wp (let '(vs, sl) := exchange (s_slave s) (take k fs) in modify (set_slave sl (s_wire s ++ take k fs)) ;; modify (fun s => set_sched (s_ks s) evs (s_wakes s) s) ;; ret (r, vs))
      (fun r s' => wp (if r.1 <? 0 then ret (r.1, []) else ret (0, r.2 ≫= le_bytes (Z.to_nat (width s)))) (seg_post x s) s') s).
  { intros k r evs Hk. pose proof (exchange_length (s_slave s) (take k fs)) as Hl. destruct (exchange (s_slave s) (take k fs)) as [vs sl] eqn:Ex. repeat wp_step. cbn [fst snd] in *. destruct Hr.
    destruct Hk as [[-> ->]|Hneg].
    - rewrite firstn_all in *. cbn [Z.ltb Z.compare]. wp_step. unfold seg_post. fold fs. cbn [fst snd]. rewrite Ex, Hrx. cbn [fst snd].
      split_and!; [lia|done|exists (length fs); by rewrite firstn_all| |]; [rewrite bytes_length, Hl, Hseg, frames_length; fold (nframes x s); nia|]. intros _. split_and!; [by split|done|done|done|done].
    - rewrite (proj2 (Z.ltb_lt r 0) Hneg). wp_step. unfold seg_post. fold fs. cbn [fst snd]. split_and!; [lia|done|by exists k|simpl; lia|lia]. }
  destruct (s_evs s) as [|[| | |k] evs]; apply Hrun; first [by left|right; unfold ETIMEDOUT; lia].
Qed.

Lemma segment_wp x s : ready s -> xfer_ok x -> xfer_err (s_data s) <= 0 ->
  wp (dma <- spi_can_dma x ;; (if (dma : bool) then spi_dw_dma_transfer x else spi_dw_int_transfer x)) (seg_post x s) s.
Proof.
  intros Hr Hx He. unfold spi_can_dma. wp_step. wp_step. wp_step. destruct (dma_enable (s_data s)); cbn [negb]; [|wp_step; by apply int_segment].
  destruct (x_tx x) as [T|] eqn:ET; [|rewrite bool_decide_eq_true_2 by done; cbn [orb]; wp_step; by apply int_segment]. rewrite bool_decide_eq_false_2 by done. destruct (x_rx x) eqn:Erx; cbn [negb orb]; [|wp_step; by apply int_segment].
  wp_step. apply frame_size_wp. wp_step. destruct (_ && _ && _) eqn:E; [|by apply int_segment]. breflect. by apply (dma_segment x s T).
Qed.

Lemma all_wp xs : forall s, ready s -> Forall xfer_ok xs -> xfer_err (s_data s) <= 0 ->
  wp (transfer_all xs) (fun y s' =>
    y.1 <= 0 /\ (exists sent, s_wire s' = s_wire s ++ sent /\ sent `prefix_of` concat (segment (width s) <$> xs)) /\
    (forall i bs, y.2 !! i = Some bs -> exists x, xs !! i = Some x /\ Z.of_nat (length bs) <= x_len x) /\
    (y.1 = 0 -> s_wire s' = s_wire s ++ concat (segment (width s) <$> xs) /\ (y.2, s_slave s') = duplex (width s) (s_slave s) xs)) s.
Proof.
  induction xs as [|x xs IH]; intros s Hr Hx He; cbn [transfer_all].
  { wp_step. cbn. split_and!; [done|exists []; by rewrite app_nil_r|done|by rewrite app_nil_r]. }
  apply Forall_cons in Hx as [Hx Hxs]. pose proof (segment_wp x s Hr Hx He) as Hseg. apply wp_bind_inv in Hseg. wp_step. eapply wp_mono; [exact Hseg|]. clear Hseg. intros dma s0 Hseg. cbv beta in Hseg. wp_step. eapply wp_mono; [exact Hseg|].
  clear Hseg. intros [r bs] s1 (Hle & HW & (k & Hk) & Hbl & Hz). cbn [fst snd] in *. destruct (Z.ltb_spec r 0) as [Hneg|Hpos].
  { wp_step. cbn [fst snd]. split_and!; [lia| | |lia].
    - exists (take k (segment (width s) x)). split; [done|]. cbn. apply prefix_app_r. exists (drop k (segment (width s) x)). by rewrite take_drop.
    - intros [|i] b; simpl; [|done]. intros [= <-]. by exists x. }
  assert (r = 0) as -> by lia. destruct (Hz eq_refl) as (Hr1 & He1 & Hw1 & Hs1 & Hb1). clear Hz.
  assert (Hlast : forall (y : Z * list (list Z)) s2,
    (y.1 <= 0 /\ (exists sent, s_wire s2 = s_wire s1 ++ sent /\ sent `prefix_of` concat (segment (width s1) <$> xs)) /\
     (forall i b, y.2 !! i = Some b -> exists x, xs !! i = Some x /\ Z.of_nat (length b) <= x_len x) /\
     (y.1 = 0 -> s_wire s2 = s_wire s1 ++ concat (segment (width s1) <$> xs) /\ (y.2, s_slave s2) = duplex (width s1) (s_slave s1) xs)) ->
    y.1 <= 0 /\ (exists sent, s_wire s2 = s_wire s ++ sent /\ sent `prefix_of` concat (segment (width s) <$> x :: xs)) /\
    (forall i b, (bs :: y.2) !! i = Some b -> exists x', (x :: xs) !! i = Some x' /\ Z.of_nat (length b) <= x_len x') /\
    (y.1 = 0 -> s_wire s2 = s_wire s ++ concat (segment (width s) <$> x :: xs) /\ (bs :: y.2, s_slave s2) = duplex (width s) (s_slave s) (x :: xs))).
  { intros y s2 (H1 & (sent & H2 & H3) & H4 & H5). rewrite HW in *. cbn [fmap list_fmap concat]. split_and!; [done| | |].
    - exists (segment (width s) x ++ sent). rewrite H2, Hw1, app_assoc. split; [done|]. by apply prefix_app.
    - intros [|i] b; simpl; [intros [= <-]; by exists x|apply H4].
    - intros E. destruct (H5 E) as [H6 H7]. rewrite H6, Hw1, app_assoc. split; [done|]. cbn [duplex]. rewrite Hs1 in H7. destruct (exchange (s_slave s) (segment (width s) x)) as [vs sl1]. cbn [fst snd] in *.
      rewrite <- H7. by rewrite Hb1. }
  destruct xs as [|x' xs'].
  - wp_step. apply (Hlast (0, [])). cbn. split_and!; [done|exists []; by rewrite app_nil_r|done|by rewrite app_nil_r].
  - wp_step. eapply wp_mono; [by apply IH|]. intros y s2 H2. wp_step. by apply (Hlast y s2).
Qed.

(** ** The control register *)

Definition frame_bytes (dev : spi_device) : Z := if bits_per_word dev <=? 8 then 1 else if bits_per_word dev <=? 16 then 2 else 4.

Lemma field_same r m v : Z.land m (Z.shiftl 0x1f 16) = 0 -> Z.land (Z.shiftr (set_bit r m v) 16) 0x1f = Z.land (Z.shiftr r 16) 0x1f.
Proof.
  intros Hm. apply Z.bits_inj'. intros i Hi. rewrite !Z.land_spec, !Z.shiftr_spec by lia. unfold set_bit. rewrite Z.lor_spec, !Z.land_spec, Z.lnot_spec by lia.
  assert (Hb : Z.testbit m (i + 16) && Z.testbit 0x1f i = false).
  { transitivity (Z.testbit (Z.land m (Z.shiftl 0x1f 16)) (i + 16)); [rewrite Z.land_spec, Z.shiftl_spec by lia; by replace (i + 16 - 16) with i by lia|]. rewrite Hm. apply Z.testbit_0_l. }
  destruct (Z.testbit 0x1f i); [|by rewrite !andb_false_r]. rewrite andb_true_r in Hb. rewrite Hb. cbn. by rewrite !andb_true_r, andb_false_r, orb_false_r.
Qed.
Lemma field_set r b : 0 <= b < 32 -> Z.land (Z.shiftr (set_bit r (Z.shiftl 0x1f 16) (u32 (Z.shiftl b 16))) 16) 0x1f = b.
Proof.
  intros Hb. rewrite u32_small by (rewrite Z.shiftl_mul_pow2 by lia; lia). apply Z.bits_inj'. intros i Hi. rewrite !Z.land_spec, !Z.shiftr_spec by lia. unfold set_bit. rewrite Z.lor_spec, !Z.land_spec, Z.lnot_spec, !Z.shiftl_spec by lia.
  replace (i + 16 - 16) with i by lia. destruct (Z.testbit 0x1f i) eqn:E; [by rewrite !andb_false_r, !andb_true_r|]. rewrite andb_false_r. symmetry. rewrite <- (Z.mod_small b (2 ^ 5)) by lia.
  change 0x1f with (Z.ones 5) in E. destruct (Z_lt_ge_dec i 5); [rewrite Z.ones_spec_low in E by lia; done|]. apply Z.mod_pow2_bits_high. lia.
Qed.

(** Chip select, reset of the FIFOs and setup. *)
Lemma prologue_wp dev s (Q : unit -> spist SL -> Prop) : 0 <= s_bus s <= 1 -> 1 <= bits_per_word dev <= 32 -> xfer_done (s_data s) = false ->
  (forall s', ready s' -> width s' = frame_bytes dev -> s_wire s' = s_wire s -> s_slave s' = sl_select true (s_slave s) -> xfer_err (s_data s') = xfer_err (s_data s) -> Q tt s') ->
  wp (spi_set_cs dev true ;; modify (set_reg (with_enable false)) ;; spi_setup dev ;; modify (set_reg (with_enable true))) Q s.
Proof.
  intros Hbus Hbits Hd HQ. unfold spi_set_cs, spi_setup. repeat wp_step. apply HQ; [by split| |done|done|done]. unfold width. cbn [s_reg s_bus set_reg set_slave ctrlr0 with_enable with_ctrlr0 with_ser].
  assert (Ho : dfs_offset (s_bus s) = 16) by (unfold dfs_offset; assert (s_bus s = 0 \/ s_bus s = 1) as [-> | ->] by lia; done). rewrite Ho.
  rewrite !field_same by done. rewrite field_set by lia. unfold frame_bytes. destruct (Z.ltb_spec (bits_per_word dev - 1) 8), (Z.leb_spec (bits_per_word dev) 8); try lia; [done|].
  destruct (Z.ltb_spec (bits_per_word dev - 1) 16), (Z.leb_spec (bits_per_word dev) 16); try lia; done.
Qed.

(** An SPI message is a full-duplex exchange.  For every timing of the
    frames, the interrupts and the DMA, the buffers are never overrun and
    what goes over the wire is a beginning of the frames of the message; a
    message that reports success has given the selected slave all of them, in
    order, and every receive buffer holds the answers to its own segment. *)
Lemma spi_transfer_duplex dev xs s :
  0 <= s_bus s <= 1 -> 1 <= bits_per_word dev <= 32 -> Forall xfer_ok xs -> xfer_done (s_data s) = false -> xfer_err (s_data s) <= 0 ->
  wp (spi_transfer dev xs) (fun '(r, bufs) s' =>
    r <= 0 /\
    (exists sent, s_wire s' = s_wire s ++ sent /\ sent `prefix_of` concat (segment (frame_bytes dev) <$> xs)) /\
    (forall i bs, bufs !! i = Some bs -> exists x, xs !! i = Some x /\ Z.of_nat (length bs) <= x_len x) /\
    (r = 0 -> s_wire s' = s_wire s ++ concat (segment (frame_bytes dev) <$> xs) /\
       exists sl, (bufs, sl) = duplex (frame_bytes dev) (sl_select true (s_slave s)) xs /\ s_slave s' = sl_select false sl)) s.
Proof.
  intros Hbus Hbits Hx Hd He.
  assert (Hpre : wp (spi_set_cs dev true ;; modify (set_reg (with_enable false)) ;; spi_setup dev ;; modify (set_reg (with_enable true)))
    (fun _ s' => ready s' /\ width s' = frame_bytes dev /\ s_wire s' = s_wire s /\ s_slave s' = sl_select true (s_slave s) /\ xfer_err (s_data s') = xfer_err (s_data s)) s)
    by (apply prologue_wp; done).
  unfold spi_transfer. do 3 (wp_step; apply wp_bind_inv in Hpre; eapply wp_mono; [exact Hpre|]; clear Hpre; intros [] ? Hpre; cbv beta in Hpre). wp_step. eapply wp_mono; [exact Hpre|]. clear Hpre.
  intros [] s1 (Hr & HW & Hw & Hs & He1). wp_step. eapply wp_mono; [apply (all_wp xs s1); [done|done|lia]|]. intros [r bufs] s2 (H1 & (sent & H2 & H3) & H4 & H5). cbn [fst snd] in *. rewrite HW, Hw, Hs in *.
  unfold spi_set_cs. repeat wp_step. split_and!; [done|by exists sent|done|]. intros E. destruct (H5 E) as [H6 H7]. split; [done|]. by exists (s_slave s2).
Qed.

(** ** Errors *)

(** [xfer_err] is never reset: after an overflow, every later transfer by
    interrupt fails, even one that is complete. *)
Lemma spi_error_sticks x s : ready s -> xfer_ok x -> xfer_err (s_data s) < 0 -> wp (spi_dw_int_transfer x) (fun y s' => y.1 < 0) s.
Proof.
  intros Hr Hx He. destruct (decide (x_len x mod width s = 0)) as [Hm|Hm].
  2:{ unfold spi_dw_int_transfer. wp_step. apply frame_size_wp. rewrite (proj2 (Z.eqb_neq _ _) Hm). cbn [negb]. by wp_step. }
  eapply wp_mono; [by apply int_transfer_ended|]. intros y s' [(c & d & _ & _ & _ & _ & _ & _ & _ & Hv & _) _]. unfold EOVERFLOW, ETIMEDOUT in Hv. lia.
Qed.

(** The events of a wait. *)
Definition events (es : list sev) : M (spist SL) unit := foldr (fun e m => event e ;; m) (ret tt) es.

(** No SPI transfer waits for an interrupt that does not come.  However
    frames, interrupts and the shifts during an interrupt interleave, a
    transfer by interrupt is over, or a frame is about to be shifted, or an
    interrupt is pending. *)
Lemma spi_interrupt_pending x es s :
  ready s -> xfer_ok x -> x_len x mod width s = 0 -> 0 < x_len x ->
  wp (int_start x (Z.to_nat (width s)) ;; events es) (fun _ s' => xfer_done (s_data s') = true \/ tx_fifo (s_reg s') <> [] \/ status (s_reg s') <> 0) s.
Proof.
  intros Hr [Hx Htx] Hm Hpos. pose proof (nframes_len x s ltac:(lia) Hm) as Hn. pose proof (width_pos s) as Hw.
  wp_step. eapply wp_mono; [apply (start_stage x (nframes x s) (Z.to_nat (width s)) (s_slave s) (s_wire s) (xfer_err (s_data s))); [lia|done|lia|done|]|]; [destruct Hr; split_and!; try done; lia|].
  intros [] s1 H1. revert s1 H1. induction es as [|e es IH]; intros s1 H1; cbn [events foldr].
  - wp_step. destruct (xfer_done (s_data s1)) eqn:Ed; [by left|]. right. eapply (stage_progress x (nframes x s) (Z.to_nat (width s))); try exact H1; try done; lia.
  - wp_step. eapply wp_mono; [eapply event_stage; [| | | |exact H1]; [lia|exact Hn|lia|exact Htx]|]. intros [] s2 H2. by apply IH.
Qed.

(** ** The clock *)

(** The speed is at most the one asked for, if the divider reaches it. *)
Lemma clk_rate_bound `{SpiClock} n hz s : 0 <= n < 4 -> 0 < hz < 2 ^ 31 -> 0 < spi_input_hz < 2 ^ 31 -> spi_input_hz <= hz * 0xfffe ->
  wp (spi_set_clk_rate n hz) (fun r s' => r = 0 /\ 2 <= baudr (s_reg s') <= 0xfffe /\ spi_input_hz / baudr (s_reg s') <= hz) s.
Proof.
  intros Hn Hhz Hin Hreach. unfold spi_set_clk_rate. rewrite (proj2 (Z.leb_gt 4 n)), (proj2 (Z.eqb_neq hz 0)), (proj2 (Z.eqb_neq spi_input_hz 0)) by lia. cbn [orb]. rewrite u32_small by lia.
  set (d0 := (spi_input_hz + hz - 1) / hz). assert (Hd0 : spi_input_hz <= d0 * hz /\ 1 <= d0 <= 0xfffe).
  { pose proof (Z.div_mod (spi_input_hz + hz - 1) hz ltac:(lia)) as Hdm. pose proof (Z.mod_pos_bound (spi_input_hz + hz - 1) hz ltac:(lia)). fold d0 in Hdm. split; [nia|]. split; [nia|].
    enough (d0 < 0xffff) by lia. apply Z.div_lt_upper_bound; nia. }
  repeat wp_step. cbn [s_reg set_reg baudr with_baudr].
  set (d1 := if d0 <? 2 then 2 else d0). assert (Hd1 : d0 <= d1 /\ 2 <= d1 <= 0xfffe) by (unfold d1; destruct (Z.ltb_spec d0 2); lia).
  assert (Hodd : Z.land d1 1 = d1 mod 2) by (change 1 with (Z.ones 1); by rewrite Z.land_ones by lia). rewrite Hodd.
  set (d2 := if negb (d1 mod 2 =? 0) then u32 (d1 + 1) else d1).
  assert (Hd2 : d1 <= d2 /\ d2 <= 0xfffe).
  { unfold d2. destruct (Z.eqb_spec (d1 mod 2) 0); cbn [negb]; [lia|]. rewrite u32_small by lia. split; [lia|]. destruct (decide (d1 = 0xfffe)) as [E|]; [rewrite E in *; done|lia]. }
  rewrite (proj2 (Z.ltb_ge 0xfffe d2)) by lia. split_and!; [done|lia|lia|]. apply Z.lt_succ_r, Z.div_lt_upper_bound; nia.
Qed.
End props.

(** ** Examples *)

Module SpiDemo.
(** A shift register: it answers with the frame before. *)
#[export] Instance delay : SpiSlave Z := {| sl_select b v := if b then 0xff else v; sl_clock v f := (v, f) |}.
Definition idle (dma : bool) (evs : list sev) : spist Z :=
  St 1 (Dw None None 0 0 false 0 dma) (Reg 0x00070000 0x40 0 true 0 [] [] false false) 0xff [] [] evs 0.
Definition w25q64 : spi_device := SpiDev 1 0 7 10000000 0 8.

(** An interrupt after every frame. *)
Definition paced (n : nat) : list sev := concat (replicate n [EShift; EIsr []]).
Definition command : list spi_xfer := [Xfer (Some [0x9f; 1]) false 2; Xfer None true 3].

(** A command and its answer. *)
Lemma command_runs :
  match spi_transfer w25q64 command (idle false (paced 6)) with Ok y s => y = (0, [[]; [1; 0; 0]]) /\ s_wire s = [0x9f; 1; 0; 0; 0] | _ => False end /\
  wp (spi_transfer w25q64 command) (fun '(r, bufs) s' =>
    r <= 0 /\
    (exists sent, s_wire s' = [] ++ sent /\ sent `prefix_of` concat (segment (frame_bytes w25q64) <$> command)) /\
    (forall i bs, bufs !! i = Some bs -> exists x, command !! i = Some x /\ Z.of_nat (length bs) <= x_len x) /\
    (r = 0 -> s_wire s' = [] ++ concat (segment (frame_bytes w25q64) <$> command) /\
       exists sl, (bufs, sl) = duplex (frame_bytes w25q64) (sl_select true 0xff) command /\ s_slave s' = sl_select false sl)) (idle false (paced 6)).
Proof.
  split; [vm_compute; done|]. apply (spi_transfer_duplex w25q64 command (idle false (paced 6))); [simpl; lia|simpl; lia| |done|simpl; lia].
  repeat constructor; simpl; try lia; intros T [= <-]; done.
Qed.

(** An answer arrives between the refill and the drain of an interrupt that
    came late: the FIFO loses it and the transfer fails.  The next one, which
    is served in time, stores its answers and still reports the overflow. *)
Definition late : list sev := replicate 32 EShift ++ [EIsr [0%nat; 0%nat; 1%nat]; EIsr []] ++ paced 3.
Definition two_transfers : M (spist Z) (Z * Z * list Z) :=
  a <- spi_dw_int_transfer (Xfer (Some (replicate 70 5)) true 70) ;;
  modify (set_reg (with_enable false)) ;;
  modify (set_reg (with_enable true)) ;;
  b <- spi_dw_int_transfer (Xfer (Some [1; 2]) true 2) ;;
  ret (a.1, b.1, b.2).
Example overflow_sticks :
  match two_transfers (idle false late) with Ok r s => r = (- EOVERFLOW, - EOVERFLOW, [5; 1]) | _ => False end.
Proof. vm_compute. done. Qed.

(** An empty segment is never complete: no answer ends it. *)
Example empty_segment_times_out :
  match spi_transfer w25q64 [Xfer (Some []) true 0; Xfer (Some [1]) true 1] (idle false (paced 100)) with Ok y s => y.1 = - ETIMEDOUT /\ s_wire s = [] | _ => False end.
Proof. vm_compute. done. Qed.
End SpiDemo.
