(* ===== verification/Spidev.v ===== *)
(** * The SPI device file (src/kernel/devsw/spidev.c, src/kernel/board/spi_board.c)

    A message of user segments goes through two buffers of a page each:
    [spidev_message] collects what is to be sent, lets the driver transfer
    it, and copies the answers back.  [copyin] and [copyout] are the user half
    of [EitherCopy]; [kmalloc] and [kalloc_page] succeed.  An access behind the
    end of a buffer and one through a NULL device end the model with a panic
    of their own.

    The theorem is that a message is a full-duplex exchange between the
    memory of the caller and the slave. *)

From S2P Require Import Prelude Bio Fat32 FatDisk FatFile FatDemo Spi SpiProps.

Definition SPIDEV_BUFSIZ : Z := 4096.
Definition SPI_IOC_RD_MODE : Z := 1.
Definition SPI_IOC_WR_MODE : Z := 2.
Definition SPI_IOC_RD_MAX_SPEED_HZ : Z := 3.
Definition SPI_IOC_WR_MAX_SPEED_HZ : Z := 4.
Definition SPI_IOC_MAGIC : Z := 0x6b.
Definition SPI_WORK_MODE_3 : Z := 3.
Definition _IOC_DIR (nr : Z) : Z := Z.land (Z.shiftr nr 30) 3.
Definition _IOC_TYPE (nr : Z) : Z := Z.land (Z.shiftr nr 8) 0xff.
Definition _IOC_NR (nr : Z) : Z := Z.land nr 0xff.
Definition _IOC_SIZE (nr : Z) : Z := Z.land (Z.shiftr nr 16) 0x3fff.
Definition _IOC (dir type nr size : Z) : Z := Z.lor (Z.lor (Z.shiftl dir 30) (Z.shiftl type 8)) (Z.lor nr (Z.shiftl size 16)).
Definition SPI_IOC_MESSAGE (n : Z) : Z := _IOC 1 SPI_IOC_MAGIC 0 (n * 24).

(** [struct spi_ioc_transfer], 24 bytes with its padding. *)
Record spi_ioc_transfer := Ioc { u_tx : Z; u_rx : Z; u_len : Z }.
Definition parse_ioc (bs : list Z) : spi_ioc_transfer := Ioc (le_val (take 8 bs)) (le_val (take 8 (drop 8 bs))) (le_val (take 4 (drop 16 bs))).
Fixpoint parse_iocs (n : nat) (bs : list Z) : list spi_ioc_transfer :=
  match n with O => [] | S n' => parse_ioc bs :: parse_iocs n' (drop 24 bs) end.

(** The devices of the board. *)
Definition W25Q64_SELECT : Z := 8.
Definition spi_w25q64_dev : spi_device := SpiDev 1 0 W25Q64_SELECT 10000000 0 8.
Definition spi_sd_dev : spi_device := SpiDev 0 3 0 10000000 0 8.
Definition spi_device_get (minor : Z) : option spi_device :=
  if (minor <? 0) || (4 <=? minor) then None
  else mjoin ([Some spi_w25q64_dev; Some spi_sd_dev; None; None] !! Z.to_nat minor).

(** The memory of the caller, the controller and [struct spidev_data]. *)
Record sdst (CS SL : Type) := Sdst {
  sd_cs : CS;
  sd_spi : spist SL;
  sd_dev : option spi_device;
  sd_speed_hz : Z;
  sd_tx : list Z;   (** tx_buffer *)
  sd_rx : list Z;   (** rx_buffer *)
}.
Arguments Sdst {CS SL}. Arguments sd_cs {CS SL}. Arguments sd_spi {CS SL}. Arguments sd_dev {CS SL}. Arguments sd_speed_hz {CS SL}. Arguments sd_tx {CS SL}. Arguments sd_rx {CS SL}.
#[export] Instance sdst_cs CS SL : Lens (sdst CS SL) CS := {| lget := sd_cs; lput c s := Sdst c (sd_spi s) (sd_dev s) (sd_speed_hz s) (sd_tx s) (sd_rx s) |}.
#[export] Instance sdst_spi CS SL : Lens (sdst CS SL) (spist SL) := {| lget := sd_spi; lput p s := Sdst (sd_cs s) p (sd_dev s) (sd_speed_hz s) (sd_tx s) (sd_rx s) |}.

Section code.
Context {CS SL : Type} `{!EitherCopy CS} `{!SpiSlave SL}.
Abbreviation DM := (M (sdst CS SL)).
Definition on_spi {A} (m : M (spist SL) A) : DM A := zoom m.
Definition on_user {A} (m : M CS A) : DM A := zoom m.
Definition set_tx (l : list Z) (s : sdst CS SL) : sdst CS SL := Sdst (sd_cs s) (sd_spi s) (sd_dev s) (sd_speed_hz s) l (sd_rx s).
Definition set_rx (l : list Z) (s : sdst CS SL) : sdst CS SL := Sdst (sd_cs s) (sd_spi s) (sd_dev s) (sd_speed_hz s) (sd_tx s) l.
Definition set_dev (d : option spi_device) (hz : Z) (s : sdst CS SL) : sdst CS SL := Sdst (sd_cs s) (sd_spi s) d hz (sd_tx s) (sd_rx s).

Definition outside_page {A} : DM A := panic "outside of the buffer".
(** Bytes [o] to [o + n] of a buffer. *)
Definition slice (o n : Z) (l : list Z) : list Z := take (Z.to_nat n) (drop (Z.to_nat o) l).
Definition put_at (o : Z) (bs l : list Z) : list Z := take (Z.to_nat o) l ++ bs ++ drop (Z.to_nat o + length bs) l.

(** A kernel segment: offsets of its buffers and its length. *)
Record kseg := Kseg { k_tx : Z; k_rx : option Z; k_len : Z }.

(** The loop that fills the segments; [None]: it fails. *)
Fixpoint gather (us : list spi_ioc_transfer) (tx_off total rx_off rx_total : Z) : DM (option (list kseg * Z)) :=
  match us with
  | [] => ret (Some ([], total))
  | u :: us' =>
      let len := u_len u in
      let total := u32 (total + len) in
      if SPIDEV_BUFSIZ <? total then ret None
      else
        ok <- (if u_tx u =? 0 then ret true
               else if SPIDEV_BUFSIZ <? tx_off + len then outside_page
               else
                 r <- on_user (ec_in true (u_tx u) len) ;;
                 let '(bs, ok) := r in
                 modify (fun s => set_tx (put_at tx_off bs (sd_tx s)) s) ;; ret (ok : bool)) ;;
        if negb ok then ret None
        else
          let need := negb (u_rx u =? 0) in
          let rx_total' := if need then u32 (rx_total + len) else rx_total in
          if need && (SPIDEV_BUFSIZ <? rx_total') then ret None
          else
            r <- gather us' (tx_off + len) total (if need then rx_off + len else rx_off) rx_total' ;;
            ret ((fun '(ks, t) => (Kseg tx_off (if need then Some rx_off else None) len :: ks, t)) <$> r)
  end.

(** What the driver gets to transfer: a segment that leaves its buffer makes
    it access other memory. *)
Definition in_page (k : kseg) : bool :=
  (k_tx k + k_len k <=? SPIDEV_BUFSIZ) && match k_rx k with Some o => o + k_len k <=? SPIDEV_BUFSIZ | None => true end.
Definition kxfer (txb : list Z) (k : kseg) : spi_xfer := Xfer (Some (slice (k_tx k) (k_len k) txb)) (bool_decide (is_Some (k_rx k))) (k_len k).
Fixpoint store_rx (ks : list kseg) (bufs : list (list Z)) (l : list Z) : list Z :=
  match ks, bufs with
  | k :: ks', bs :: bufs' => store_rx ks' bufs' (match k_rx k with Some o => put_at o bs l | None => l end)
  | _, _ => l
  end.

(** The loop that copies the answers out. *)
Fixpoint scatter (us : list spi_ioc_transfer) (rx_off : Z) : DM bool :=
  match us with
  | [] => ret true
  | u :: us' =>
      if u_rx u =? 0 then scatter us' rx_off
      else
        s <- get ;;
        ok <- on_user (ec_out true (u_rx u) (slice rx_off (u_len u) (sd_rx s))) ;;
        if negb ok then ret false else scatter us' (rx_off + u_len u)
  end.

Definition spidev_message (us : list spi_ioc_transfer) : DM Z :=
  modify (set_tx (replicate (Z.to_nat SPIDEV_BUFSIZ) 0xff)) ;;
  g <- gather us 0 0 0 0 ;;
  match g with
  | None => ret (-1)
  | Some (ks, total) =>
      if total =? 0 then ret (-1)
      else
        s <- get ;;
        match sd_dev s with
        | None => panic "NULL device"
        | Some dev =>
            if negb (forallb in_page ks) then outside_page
            else
              y <- on_spi (spi_transfer dev (kxfer (sd_tx s) <$> ks)) ;;
              modify (fun s => set_rx (store_rx ks y.2 (sd_rx s)) s) ;;
              if y.1 <? 0 then ret (-1)
              else ok <- scatter us 0 ;; ret (if (ok : bool) then total else -1)
        end
  end.

Definition spidev_get_ioc_message (cmd arg : Z) : DM (option (list spi_ioc_transfer)) :=
  if negb (_IOC_TYPE cmd =? SPI_IOC_MAGIC) || negb (_IOC_NR cmd =? _IOC_NR (SPI_IOC_MESSAGE 0)) || negb (_IOC_DIR cmd =? 1) then ret None
  else
    let tmp := _IOC_SIZE cmd in
    if (SPIDEV_BUFSIZ <? tmp) || negb (tmp mod 24 =? 0) then ret None
    else
      let n_ioc := tmp / 24 in
      if n_ioc =? 0 then ret None
      else
        r <- on_user (ec_in true arg tmp) ;;
        let '(bs, ok) := r in
        ret (if (ok : bool) then Some (parse_iocs (Z.to_nat n_ioc) bs) else None).

Definition copy_word (arg v : Z) : DM Z :=
  ok <- on_user (ec_out true arg (le_bytes 4 v)) ;; ret (if (ok : bool) then 0 else -1).
Definition fetch_word (arg : Z) : DM (option Z) :=
  r <- on_user (ec_in true arg 4) ;; let '(bs, ok) := r in ret (if (ok : bool) then Some (le_val bs) else None).
(** The device behind the pointer. *)
Definition the_dev : DM spi_device := s <- get ;; match sd_dev s with Some d => ret d | None => panic "NULL device" end.

Definition spidev_ioctl (cmd arg : Z) : DM Z :=
  if cmd =? SPI_IOC_RD_MODE then dev <- the_dev ;; copy_word arg (mode dev)
  else if cmd =? SPI_IOC_WR_MODE then
    v <- fetch_word arg ;;
    match v with
    | None => ret (-1)
    | Some v =>
        if SPI_WORK_MODE_3 <? v then ret (-1)
        else
          dev <- the_dev ;;
          modify (fun s => set_dev (Some (SpiDev (bus_num dev) (chip_select dev) (cs_gpio dev) (max_speed_hz dev) v (bits_per_word dev))) (sd_speed_hz s) s) ;;
          ret 0
    end
  else if cmd =? SPI_IOC_RD_MAX_SPEED_HZ then s <- get ;; copy_word arg (sd_speed_hz s)
  else if cmd =? SPI_IOC_WR_MAX_SPEED_HZ then
    v <- fetch_word arg ;;
    match v with
    | None => ret (-1)
    | Some v =>
        if v =? 0 then ret (-1)
        else
          dev <- the_dev ;;
          if max_speed_hz dev <? v then ret (-1) else modify (fun s => set_dev (sd_dev s) v s) ;; ret 0
    end
  else
    ioc <- spidev_get_ioc_message cmd arg ;;
    match ioc with
    | None => ret (-1)
    | Some us => spidev_message us
    end.

Definition spidev_open (minor : Z) : DM Z :=
  modify (set_dev (spi_device_get minor) 1000000) ;;
  modify (set_tx (replicate (Z.to_nat SPIDEV_BUFSIZ) 5)) ;;
  modify (set_rx (replicate (Z.to_nat SPIDEV_BUFSIZ) 5)) ;;
  ret 0.
End code.

(** * Theorems *)

(** ** Buffers *)

Lemma slice_app (pre bs post : list Z) : slice (Z.of_nat (length pre)) (Z.of_nat (length bs)) (pre ++ bs ++ post) = bs.
Proof. unfold slice. rewrite !Nat2Z.id, drop_app_length, take_app_length. done. Qed.
Lemma put_at_app (pre bs old post : list Z) : length old = length bs -> put_at (Z.of_nat (length pre)) bs (pre ++ old ++ post) = pre ++ bs ++ post.
Proof.
  intros Hl. unfold put_at. rewrite Nat2Z.id, take_app_length. f_equal. f_equal. rewrite <- drop_drop, drop_app_length, <- Hl, drop_app_length. done.
Qed.
Lemma frames_bytes T : frames (length T) 1 T = T.
Proof. induction T as [|b T IH]; [done|]. change (le_val [b] :: frames (length T) 1 T = b :: T). rewrite IH. f_equal. unfold le_val. lia. Qed.
Lemma le_bytes_ok w v : bytes_ok (le_bytes w v).
Proof. revert v. induction w as [|w IH]; intros v; [constructor|]. constructor; [apply Z.mod_pos_bound; lia|apply IH]. Qed.
Lemma bytes_all_ok w vs : bytes_ok (vs ≫= le_bytes w).
Proof. induction vs as [|v vs IH]; [constructor|]. rewrite bind_cons. apply Forall_app. split; [apply le_bytes_ok|done]. Qed.

Section props.
Context {CS SL : Type} `{!EitherCopy CS} `{!EitherCopyLaws CS} `{!SpiSlave SL}.
Implicit Types s : sdst CS SL.

(** The caller's buffers lie in the [n] bytes at [a]. *)
Context (a n : Z).

(** A segment by the offsets of its buffers. *)
Record vseg := Vseg { v_tx : option Z; v_rx : option Z; v_len : Z }.
Definition addr (o : option Z) : Z := match o with Some k => u64 (a + k) | None => 0 end.
Definition ioc_of (v : vseg) : spi_ioc_transfer := Ioc (addr (v_tx v)) (addr (v_rx v)) (v_len v).
Definition in_region (o : option Z) (len : Z) : Prop := match o with Some k => 0 <= k /\ k + len <= n /\ u64 (a + k) <> 0 | None => True end.
Record vseg_ok (v : vseg) : Prop := { vo_len : 0 <= v_len v; vo_tx : in_region (v_tx v) (v_len v); vo_rx : in_region (v_rx v) (v_len v) }.
Definition sum (vs : list vseg) : Z := foldr (fun v t => v_len v + t) 0 vs.

(** What a segment sends. *)
Definition vbytes (c : CS) (v : vseg) : list Z :=
  match v_tx v with Some k => (fun i => ec_mem c true (a + k + i)) <$> seqZ 0 (v_len v) | None => replicate (Z.to_nat (v_len v)) 0xff end.
(** The kernel's segments. *)
Fixpoint ksegs (txo rxo : Z) (vs : list vseg) : list kseg :=
  match vs with
  | [] => []
  | v :: vs' => Kseg txo ((fun _ => rxo) <$> v_rx v) (v_len v) :: ksegs (txo + v_len v) (if v_rx v then rxo + v_len v else rxo) vs'
  end.

Lemma sum_nonneg vs : Forall vseg_ok vs -> 0 <= sum vs.
Proof. induction 1 as [|v vs [] _ IH]; simpl; lia. Qed.
Lemma vbytes_length c v : vseg_ok v -> length (vbytes c v) = Z.to_nat (v_len v).
Proof. intros Hv. unfold vbytes. destruct (v_tx v); [rewrite length_fmap, length_seqZ; done|apply length_replicate]. Qed.
Lemma vbytes_same c c' v : vseg_ok v -> (forall x, 0 <= x < n -> ec_mem c' true (a + x) = ec_mem c true (a + x)) -> vbytes c' v = vbytes c v.
Proof.
  intros [Hl Ht _] Hm. unfold vbytes, in_region in *. destruct (v_tx v) as [k|]; [|done]. apply list_fmap_ext. intros i y Hy. apply lookup_seqZ in Hy as [-> Hi]. replace (a + k + (0 + Z.of_nat i)) with (a + (k + Z.of_nat i)) by lia. apply Hm. lia.
Qed.

(** Only the caller and the send buffer change. *)
Definition rest_same s s' : Prop := sd_spi s' = sd_spi s /\ sd_dev s' = sd_dev s /\ sd_rx s' = sd_rx s.
Definition mem_same (c c' : CS) : Prop := ec_buf c' true a n /\ forall x, 0 <= x < n -> ec_mem c' true (a + x) = ec_mem c true (a + x).

Lemma gather_wp vs : forall s P rxo, Forall vseg_ok vs -> ec_buf (sd_cs s) true a n ->
  sd_tx s = P ++ replicate (4096 - length P) 0xff -> Z.of_nat (length P) + sum vs <= SPIDEV_BUFSIZ -> 0 <= rxo -> rxo + sum vs <= SPIDEV_BUFSIZ ->
  wp (gather (ioc_of <$> vs) (Z.of_nat (length P)) (Z.of_nat (length P)) rxo rxo) (fun r s' =>
    r = Some (ksegs (Z.of_nat (length P)) rxo vs, Z.of_nat (length P) + sum vs) /\ rest_same s s' /\ mem_same (sd_cs s) (sd_cs s') /\
    sd_tx s' = P ++ concat (vbytes (sd_cs s) <$> vs) ++ replicate (4096 - length P - length (concat (vbytes (sd_cs s) <$> vs))) 0xff) s.
Proof.
  induction vs as [|v vs IH]; intros s P rxo Hvs Hb HP Hsum Hr Hrs; cbn [fmap list_fmap gather].
  { wp_step. simpl. rewrite Z.add_0_r, Nat.sub_0_r. split_and!; try done. }
  apply Forall_cons in Hvs as [Hv Hvs]. pose proof (sum_nonneg vs Hvs) as Hn. cbn [sum foldr] in Hsum, Hrs. fold (sum vs) in *. destruct Hv as [Hl Ht Hrx] eqn:Hvd. clear Hvd. pose proof (Build_vseg_ok v Hl Ht Hrx) as Hv'.
  unfold SPIDEV_BUFSIZ in *. cbn [u_len u_tx u_rx ioc_of]. rewrite u32_small by lia. rewrite (proj2 (Z.ltb_ge 4096 (Z.of_nat (length P) + v_len v))) by lia.
  assert (Hneed : negb (addr (v_rx v) =? 0) = bool_decide (is_Some (v_rx v))) by (unfold addr, in_region in *; destruct (v_rx v); [rewrite (proj2 (Z.eqb_neq _ _)) by tauto; done|done]). rewrite Hneed.
  assert (Hrest : forall s1, rest_same s s1 -> mem_same (sd_cs s) (sd_cs s1) -> sd_tx s1 = (P ++ vbytes (sd_cs s) v) ++ replicate (4096 - length (P ++ vbytes (sd_cs s) v)) 0xff ->
    wp (let need := bool_decide (is_Some (v_rx v)) in let rx_total' := if need then u32 (rxo + v_len v) else rxo in
        if need && (4096 <? rx_total') then ret None
        else r <- gather (ioc_of <$> vs) (Z.of_nat (length P) + v_len v) (Z.of_nat (length P) + v_len v) (if need then rxo + v_len v else rxo) rx_total' ;;
             ret ((fun '(ks, t) => (Kseg (Z.of_nat (length P)) (if need then Some rxo else None) (v_len v) :: ks, t)) <$> r))
      (fun r s' => r = Some (ksegs (Z.of_nat (length P)) rxo (v :: vs), Z.of_nat (length P) + (v_len v + sum vs)) /\ rest_same s s' /\ mem_same (sd_cs s) (sd_cs s') /\
        sd_tx s' = P ++ concat (vbytes (sd_cs s) <$> v :: vs) ++ replicate (4096 - length P - length (concat (vbytes (sd_cs s) <$> v :: vs))) 0xff) s1).
  { intros s1 (R1 & R2 & R3) [M1 M2] Htx. cbv zeta. set (need := bool_decide _). assert (Hru : (if need then u32 (rxo + v_len v) else rxo) = (if need then rxo + v_len v else rxo)) by (destruct need; [apply u32_small; lia|done]).
    rewrite Hru. replace (need && (4096 <? if need then rxo + v_len v else rxo)) with false by (symmetry; destruct need; [apply Z.ltb_ge; lia|done]).
    assert (HPl : Z.of_nat (length P) + v_len v = Z.of_nat (length (P ++ vbytes (sd_cs s) v))) by (rewrite length_app, vbytes_length by done; lia). rewrite HPl. wp_step.
    assert (Hvb : forall w, w ∈ vs -> vbytes (sd_cs s1) w = vbytes (sd_cs s) w) by (intros w Hw; apply vbytes_same; [by eapply Forall_forall in Hvs|done]).
    assert (Hmap : vbytes (sd_cs s1) <$> vs = vbytes (sd_cs s) <$> vs) by (apply list_fmap_ext; intros i w Hw; apply Hvb; by eapply list_elem_of_lookup_2).
    eapply wp_mono; [apply (IH s1 (P ++ vbytes (sd_cs s) v)); [done|done|done|lia|destruct need; lia|destruct need; lia]|].
    intros r s2 (-> & (Q1 & Q2 & Q3) & [N1 N2] & Htx2). wp_step. rewrite Hmap in Htx2. split_and!; [| |split; [done|]|].
    - cbn [fmap option_fmap option_map]. f_equal. f_equal; [|lia]. cbn [ksegs]. rewrite <- HPl. unfold need. by destruct (v_rx v).
    - split_and!; congruence.
    - intros y Hy. rewrite N2, M2 by done. done.
    - rewrite Htx2. cbn [fmap list_fmap concat]. rewrite <- !app_assoc. do 4 f_equal. rewrite !length_app. lia. }
  unfold in_region, addr in Ht. unfold vbytes in Hrest at 1 2. destruct (v_tx v) as [k|] eqn:Ek.
  - cbn [addr]. rewrite (proj2 (Z.eqb_neq (u64 (a + k)) 0)) by tauto. wp_step. wp_step. apply wp_zoom.
    eapply wp_mono; [apply (ec_in_spec (sd_cs s) true a n k (v_len v)); [done|lia|lia|lia]|]. intros r c1 (-> & B1 & M1). wp_step. wp_step. wp_step. cbn [negb]. apply Hrest; [done|done|].
    cbn [lput sd_tx set_tx]. change (sd_tx (lput c1 s)) with (sd_tx s). rewrite HP. set (bs := _ <$> seqZ 0 (v_len v)). assert (Hbs : length bs = Z.to_nat (v_len v)) by (unfold bs; rewrite length_fmap, length_seqZ; done).
    replace (4096 - length P)%nat with (length bs + (4096 - length (P ++ bs)))%nat by (rewrite length_app; lia). rewrite replicate_add, put_at_app by (by rewrite length_replicate). by rewrite app_assoc.
  - cbn [addr]. change (0 =? 0) with true. cbv iota. wp_step. wp_step. cbn [negb]. apply Hrest; [done|done|]. rewrite HP, <- app_assoc. f_equal. rewrite <- replicate_add. f_equal. rewrite length_app, length_replicate. lia.
Qed.

(** ** The transfer *)

Definition vxfer (c : CS) (v : vseg) : spi_xfer := Xfer (Some (vbytes c v)) (bool_decide (is_Some (v_rx v))) (v_len v).

Lemma kxfers c vs : forall pre post rxo txb, Forall vseg_ok vs -> txb = pre ++ concat (vbytes c <$> vs) ++ post ->
  kxfer txb <$> ksegs (Z.of_nat (length pre)) rxo vs = vxfer c <$> vs.
Proof.
  induction vs as [|v vs IH]; intros pre post rxo txb Hvs ->; [done|]. apply Forall_cons in Hvs as [Hv Hvs]. cbn [ksegs fmap list_fmap concat]. f_equal.
  - unfold kxfer, vxfer. cbn [k_tx k_rx k_len]. rewrite <- app_assoc. replace (v_len v) with (Z.of_nat (length (vbytes c v))) at 1 by (rewrite vbytes_length by done; destruct Hv; lia).
    rewrite slice_app. f_equal. by destruct (v_rx v).
  - replace (Z.of_nat (length pre) + v_len v) with (Z.of_nat (length (pre ++ vbytes c v))) by (rewrite length_app, vbytes_length by done; destruct Hv; lia).
    apply (IH _ post); [done|]. by rewrite <- !app_assoc.
Qed.
Lemma ksegs_in_page vs : forall txo rxo, Forall vseg_ok vs -> txo + sum vs <= SPIDEV_BUFSIZ -> rxo + sum vs <= SPIDEV_BUFSIZ -> forallb in_page (ksegs txo rxo vs) = true.
Proof.
  induction vs as [|v vs IH]; intros txo rxo Hvs Ht Hr; [done|]. apply Forall_cons in Hvs as [[] Hvs]. pose proof (sum_nonneg vs Hvs). cbn [sum foldr ksegs forallb] in *. fold (sum vs) in *.
  rewrite IH; [|done|lia|destruct (v_rx v); lia]. rewrite andb_true_r. unfold in_page. cbn [k_tx k_len k_rx]. rewrite (proj2 (Z.leb_le (txo + v_len v) SPIDEV_BUFSIZ)) by lia.
  destruct (v_rx v); cbn; [apply Z.leb_le; lia|done].
Qed.
Lemma vxfer_ok c v : vseg_ok v -> v_len v <= SPIDEV_BUFSIZ -> xfer_ok (vxfer c v).
Proof. intros Hv Hl. split; cbn; [destruct Hv; unfold SPIDEV_BUFSIZ in *; lia|]. intros T [= <-]. rewrite vbytes_length by done. destruct Hv. lia. Qed.
Lemma len_le_sum vs v : Forall vseg_ok vs -> v ∈ vs -> v_len v <= sum vs.
Proof.
  induction 1 as [|w vs [] Hvs IH]; intros Hv; [by apply not_elem_of_nil in Hv|]. pose proof (sum_nonneg vs Hvs). cbn. fold (sum vs). apply elem_of_cons in Hv as [->|Hv]; [lia|]. specialize (IH Hv). lia.
Qed.
Lemma segment_bytes c v : vseg_ok v -> segment 1 (vxfer c v) = vbytes c v.
Proof. intros Hv. unfold segment, out. cbn [x_tx x_len vxfer]. rewrite Z.div_1_r, <- (vbytes_length c v Hv). apply frames_bytes. Qed.
Lemma segments_bytes c vs : Forall vseg_ok vs -> segment 1 <$> (vxfer c <$> vs) = vbytes c <$> vs.
Proof. induction 1 as [|v vs Hv Hvs IH]; [done|]. rewrite !fmap_cons, segment_bytes, IH by done. done. Qed.

(** Answers of the right size. *)
Definition answered (v : vseg) (bs : list Z) : Prop := bytes_ok bs /\ Z.of_nat (length bs) = if v_rx v then v_len v else 0.
Lemma duplex_answered c vs : forall sl, Forall vseg_ok vs -> Forall2 answered vs (duplex 1 sl (vxfer c <$> vs)).1.
Proof.
  induction vs as [|v vs IH]; intros sl Hvs; [constructor|]. apply Forall_cons in Hvs as [Hv Hvs]. cbn [fmap list_fmap duplex]. rewrite segment_bytes by done.
  pose proof (exchange_length sl (vbytes c v)) as Hl. destruct (exchange sl (vbytes c v)) as [ans sl1]. specialize (IH sl1 Hvs). destruct (duplex 1 sl1 _) as [rest sl2]. cbn [fst snd] in *. constructor; [|done].
  unfold answered, vxfer. cbn [x_rx]. destruct (v_rx v).
  - rewrite bool_decide_eq_true_2 by by eexists. split; [apply bytes_all_ok|]. rewrite bytes_length, Hl, vbytes_length by done. destruct Hv. change (Z.to_nat 1) with 1%nat. lia.
  - rewrite bool_decide_eq_false_2 by by intros [? ?]. split; [constructor|done].
Qed.

Lemma answered_length vs bufs : Forall vseg_ok vs -> Forall2 answered vs bufs -> Z.of_nat (length (concat bufs)) <= sum vs.
Proof.
  intros Hvs H. revert Hvs. induction H as [|v bs vs bufs [_ Hl] _ IH]; intros Hvs; [simpl; lia|]. apply Forall_cons in Hvs as [[] Hvs]. specialize (IH Hvs). cbn. fold (sum vs). rewrite length_app. destruct (v_rx v); lia.
Qed.

Lemma store_rx_wp vs bufs : Forall2 answered vs bufs -> Forall vseg_ok vs -> forall pre old txo, (length (concat bufs) <= length old)%nat ->
  store_rx (ksegs txo (Z.of_nat (length pre)) vs) bufs (pre ++ old) = pre ++ concat bufs ++ drop (length (concat bufs)) old.
Proof.
  induction 1 as [|v bs vs bufs [_ Hl] _ IH]; intros Hvs pre old txo Hold; cbn [ksegs store_rx concat]; [done|]. apply Forall_cons in Hvs as [Hv Hvs]. cbn [k_rx]. cbn in Hold. rewrite length_app in Hold.
  destruct (v_rx v) as [k|]; cbn [fmap option_fmap option_map].
  - assert (Hsplit : old = take (length bs) old ++ drop (length bs) old) by (by rewrite take_drop). rewrite Hsplit at 1. rewrite put_at_app by (rewrite length_take; lia).
    replace (Z.of_nat (length pre) + v_len v) with (Z.of_nat (length (pre ++ bs))) by (rewrite length_app; lia). rewrite app_assoc, IH by (try done; rewrite length_drop; lia).
    rewrite length_app, drop_drop, <- !app_assoc. done.
  - assert (bs = []) as -> by (destruct bs; simpl in Hl; [done|lia]). rewrite IH by (try done; simpl in Hold; lia). done.
Qed.

(** What the caller finds in memory. *)
Fixpoint user_after (vs : list vseg) (bufs : list (list Z)) (m : Z -> Z) (x : Z) : Z :=
  match vs, bufs with
  | v :: vs', bs :: bufs' =>
      user_after vs' bufs' (fun x => match v_rx v with Some k => if (k <=? x) && (x <? k + v_len v) then byte_at bs (x - k) else m x | None => m x end) x
  | _, _ => m x
  end.
Lemma user_after_ext vs : forall bufs m m' x, m x = m' x -> user_after vs bufs m x = user_after vs bufs m' x.
Proof. induction vs as [|v vs IH]; intros [|bs bufs] m m' x Hm; cbn; try done. apply IH. destruct (v_rx v); [|done]. by destruct (_ && _). Qed.

Lemma scatter_wp vs bufs : Forall2 answered vs bufs -> Forall vseg_ok vs -> forall s pre post, ec_buf (sd_cs s) true a n -> sd_rx s = pre ++ concat bufs ++ post ->
  wp (scatter (ioc_of <$> vs) (Z.of_nat (length pre))) (fun ok s' => ok = true /\ sd_spi s' = sd_spi s /\
    forall x, 0 <= x < n -> ec_mem (sd_cs s') true (a + x) = user_after vs bufs (fun x => ec_mem (sd_cs s) true (a + x)) x) s.
Proof.
  induction 1 as [|v bs vs bufs [Hb Hl] _ IH]; intros Hvs s pre post Hc Hrx; cbn [fmap list_fmap scatter]; [by wp_step|]. apply Forall_cons in Hvs as [[Hlen Ht Hr] Hvs]. cbn [u_rx u_len ioc_of user_after]. unfold addr, in_region in *.
  cbn [concat] in Hrx. destruct (v_rx v) as [k|].
  - rewrite (proj2 (Z.eqb_neq _ 0)) by tauto. wp_step. wp_step. wp_step. rewrite Hrx, <- app_assoc, <- Hl, slice_app. apply wp_zoom.
    eapply wp_mono; [apply (ec_out_spec (sd_cs s) true a n k bs); [done|done|lia|lia]|]. intros ok c1 (-> & B1 & M1). cbn [negb].
    replace (Z.of_nat (length pre) + Z.of_nat (length bs)) with (Z.of_nat (length (pre ++ bs))) by (rewrite length_app; lia).
    eapply wp_mono; [apply (IH Hvs (lput c1 s) (pre ++ bs) post); [done|]|]; [change (sd_rx (lput c1 s)) with (sd_rx s); rewrite Hrx, <- !app_assoc; done|].
    intros ok s1 (-> & S1 & M2). split_and!; [done|done|]. intros y Hy. rewrite M2 by done. apply user_after_ext. change (sd_cs (lput c1 s)) with c1. rewrite M1 by done. done.
  - assert (bs = []) as -> by (destruct bs; simpl in Hl; [done|lia]). change (0 =? 0) with true. cbv iota. by apply (IH Hvs s pre post).
Qed.

(** C18: a message of the SPI device file is a full-duplex exchange between the
    memory of the caller and the slave.  If the segments together fit the
    buffers of the device, then for every timing of the controller either the
    call fails and the memory of the caller is unchanged, with a beginning of
    the message on the wire; or it returns the length, the slave was sent the
    bytes of the send buffers (0xff where a segment has none), one after the
    other, and each receive buffer holds the answers to its own segment. *)
Theorem spidev_message_duplex vs dev s :
  Forall vseg_ok vs -> 0 < sum vs <= SPIDEV_BUFSIZ -> ec_buf (sd_cs s) true a n ->
  sd_dev s = Some dev -> bits_per_word dev = 8 -> length (sd_rx s) = 4096%nat ->
  0 <= s_bus (sd_spi s) <= 1 -> xfer_done (s_data (sd_spi s)) = false -> xfer_err (s_data (sd_spi s)) <= 0 ->
  wp (spidev_message (ioc_of <$> vs)) (fun r s' =>
    let message := concat (vbytes (sd_cs s) <$> vs) in
    (r = -1 /\ (exists sent, s_wire (sd_spi s') = s_wire (sd_spi s) ++ sent /\ sent `prefix_of` message) /\
       forall x, 0 <= x < n -> ec_mem (sd_cs s') true (a + x) = ec_mem (sd_cs s) true (a + x)) \/
    (r = sum vs /\ s_wire (sd_spi s') = s_wire (sd_spi s) ++ message /\
       exists bufs sl, (bufs, sl) = duplex 1 (sl_select true (s_slave (sd_spi s))) (vxfer (sd_cs s) <$> vs) /\ s_slave (sd_spi s') = sl_select false sl /\
         forall x, 0 <= x < n -> ec_mem (sd_cs s') true (a + x) = user_after vs bufs (fun x => ec_mem (sd_cs s) true (a + x)) x)) s.
Proof.
  intros Hvs Hsum Hc Hdev Hbits Hrx Hbus Hdone Herr. unfold spidev_message. wp_step. wp_step. set (s0 := set_tx _ s). wp_step.
  eapply wp_mono; [apply (gather_wp vs s0 [] 0); [done|done|done|simpl; lia|lia|lia]|]. cbv zeta. intros g s1 (-> & (R1 & R2 & R3) & [B1 M1] & Htx). cbn [length app] in Htx. rewrite Nat.sub_0_r in Htx.
  change (sd_cs s0) with (sd_cs s) in *. change (sd_spi s0) with (sd_spi s) in R1. change (sd_dev s0) with (sd_dev s) in R2. change (sd_rx s0) with (sd_rx s) in R3. change (Z.of_nat (length (@nil Z)) + sum vs) with (0 + sum vs). rewrite Z.add_0_l.
  rewrite (proj2 (Z.eqb_neq (sum vs) 0)) by lia. wp_step. wp_step. rewrite R2, Hdev, (ksegs_in_page vs (Z.of_nat (length (@nil Z))) 0) by (done || (simpl; lia)). cbn [negb].
  rewrite (kxfers (sd_cs s) vs [] _ 0 (sd_tx s1) Hvs Htx). wp_step. unfold on_spi. apply wp_zoom. change (lget s1) with (sd_spi s1). rewrite R1.
  assert (HF : frame_bytes dev = 1) by (unfold frame_bytes; by rewrite Hbits).
  eapply wp_mono; [apply (spi_transfer_duplex dev (vxfer (sd_cs s) <$> vs)); [done|lia| |done|done]|].
  { apply Forall_fmap, Forall_forall. intros v Hv. apply vxfer_ok; [by eapply Forall_forall in Hvs|]. pose proof (len_le_sum vs v Hvs Hv). lia. }
  rewrite HF, segments_bytes by done. intros [r bufs] p (Hr & Hsent & _ & Hok). wp_step. wp_step. cbn [fst snd]. destruct (Z.ltb_spec r 0) as [Hneg|Hpos].
  - wp_step. left. split_and!; [done|exact Hsent|]. intros y Hy. by apply M1.
  - destruct (Hok ltac:(lia)) as (Hw & sl & Hd & Hs). pose proof (duplex_answered (sd_cs s) vs (sl_select true (s_slave (sd_spi s))) Hvs) as Hans. rewrite <- Hd in Hans. cbn [fst] in Hans.
    pose proof (answered_length vs bufs Hvs Hans) as Hal. wp_step. unfold SPIDEV_BUFSIZ in *. change (sd_rx (lput p s1)) with (sd_rx s1).
    change 0 with (Z.of_nat (length (@nil Z))) at 1. eapply wp_mono; [eapply (scatter_wp vs bufs Hans Hvs _ [])|].
    + done.
    + cbn [sd_rx set_rx]. rewrite (store_rx_wp vs bufs Hans Hvs [] (sd_rx s1)) by (rewrite R3, Hrx; lia). done.
    + intros ok s2 (-> & S2 & M2). wp_step. right. split_and!; [done|rewrite S2; exact Hw|]. exists bufs, sl. split_and!; [done|rewrite S2; exact Hs|]. intros y Hy. rewrite M2 by done. apply user_after_ext. by apply M1.
Qed.
End props.

(** ** Examples *)

Module SpidevDemo.
Import FatDemo SpiDemo.
(** The command is at 4096, the answer goes to 4104. *)
Definition user : mem := fun x => if x =? 4096 then 0x9f else if x =? 4097 then 1 else 0.
Definition opened : sdst mem Z := Sdst user (idle false (paced 8)) (Some w25q64) 1000000 (replicate (Z.to_nat 4096) 5) (replicate (Z.to_nat 4096) 5).
Definition read_id : list vseg := [Vseg (Some 0) None 2; Vseg None (Some 8) 3].

Lemma spidev_message_duplex_witness :
  match spidev_message (ioc_of 4096 <$> read_id) opened with
  | Ok r s => r = 5 /\ s_wire (sd_spi s) = [0x9f; 1; 0xff; 0xff; 0xff] /\ (sd_cs s <$> [4103; 4104; 4105; 4106; 4107]) = [0; 1; 0xff; 0xff; 0]
  | _ => False
  end /\
  wp (spidev_message (ioc_of 4096 <$> read_id)) (fun r s' =>
    let message := concat (vbytes 4096 (sd_cs opened) <$> read_id) in
    (r = -1 /\ (exists sent, s_wire (sd_spi s') = s_wire (sd_spi opened) ++ sent /\ sent `prefix_of` message) /\
       forall x, 0 <= x < 64 -> ec_mem (sd_cs s') true (4096 + x) = ec_mem (sd_cs opened) true (4096 + x)) \/
    (r = sum read_id /\ s_wire (sd_spi s') = s_wire (sd_spi opened) ++ message /\
       exists bufs sl, (bufs, sl) = duplex 1 (sl_select true (s_slave (sd_spi opened))) (vxfer 4096 (sd_cs opened) <$> read_id) /\ s_slave (sd_spi s') = sl_select false sl /\
         forall x, 0 <= x < 64 -> ec_mem (sd_cs s') true (4096 + x) = user_after read_id bufs (fun x => ec_mem (sd_cs opened) true (4096 + x)) x)) opened.
Proof.
  split; [vm_compute; done|]. apply (spidev_message_duplex 4096 64 read_id w25q64 opened); try done; try (simpl; unfold SPIDEV_BUFSIZ; lia).
  - apply Forall_cons. split; [split; simpl; [lia|split_and!; [lia|lia|done]|done]|]. apply Forall_singleton. split; simpl; [lia|done|split_and!; [lia|lia|done]].
  - split; [lia|]. split; [lia|]. intros x. unfold user, opened. simpl. unfold user. destruct (x =? 4096); [lia|]. destruct (x =? 4097); lia.
Defined.

(** The sum of the lengths wraps around: the driver is given a segment of
    4 GB in a buffer of a page. *)
Example length_sum_wraps : exists s, spidev_message [Ioc 0 0 2; Ioc 0 0 (2 ^ 32 - 1)] opened = Panic "outside of the buffer" s.
Proof. eexists. vm_compute. reflexivity. Qed.

(** Minor 2 has no device; the open succeeds and the next call goes through
    the NULL pointer. *)
Example open_without_device : exists s, (r <- spidev_open 2 ;; spidev_ioctl SPI_IOC_RD_MODE 4096) opened = Panic "NULL device" s.
Proof. eexists. vm_compute. reflexivity. Qed.
End SpidevDemo.
